(* ===== verification/_CoqProject ===== *)
-Q . S2P
Prelude.v
Sharding.v
Wire.v
Server.v
Transport.v
Cluster.v
Tier.v
Json.v
Unicode.v
Tokenizer.v
Ram.v
Usage.v
Cache.v
Chunk.v
DType.v
Rows.v
Math.v
Floats.v
Linear.v
Quantize.v
Discovery.v
Safetensors.v
Spans.v
Config.v
Model.v
Moe.v
MoeBatch.v
MoeCluster.v
KvCache.v
Generate.v
Gqa.v
Indexer.v
Dsv4Num.v
Dsv4.v
Dsv4Store.v
Dsv4Attn.v
Dsv4Moe.v
Mla.v
Mamba.v
Kda.v
AttnRes.v
Hc.v
Platform.v
Dsv4Layer.v
Dsv4Stack.v
Dsv4Pass.v
Tiny.v
MlaCluster.v
Forward.v
Stack.v
KimiStack.v
Inference.v
Dsv4Infer.v
Dsv4Chunks.v
