(* ===== verification/Prelude.v ===== *)
(** * SpeedyColibri: a verification library

    SpeedyColibri is a mixture-of-experts inference engine in Rust that spreads
    the experts of a model over the machines of a small cluster.  This library is
    a shallow embedding of it, from who owns an expert, what goes over the wire
    and what is kept in memory to the layers of the model, at the precision and
    in the order the CPU code computes them, and the loop that decodes.  Every definition
    is executable and follows the Rust function of the same name; every file
    states at its top which source file it models.

    ** The program and its files

    - [Sharding.v], [crates/colibri-cluster/src/sharding.rs]: which node owns an
      expert, for contiguous, load-balanced and capacity-weighted maps, and the
      fingerprint by which two nodes agree that their maps are the same.
    - [Wire.v], [net.rs] 25-263 and the messages of [transport.rs]: the codecs of
      the six messages and the framing.
    - [Server.v], [net.rs] 246-386: the worker, from the handshake to the end of
      a connection.  The class [ByteStream] is what framing needs of a stream.
    - [Transport.v], [net.rs] 388-515, [transport.rs], [lib.rs]: the client, its
      table of connections, its retry, its startup check, and the configuration
      read from the environment.  The operating system's sockets are the record
      [SocketApi], a parameter.
    - [Cluster.v]: the two composed.  [healthy] is a world of sockets whose other
      ends run [Server.serve_conn]; a call of the client through it is a call of
      the remote handler.
    - [Discovery.v], [discovery.rs]: beacons, the ARP table, the sweep.
    - [Tier.v], [crates/colibri-core/src/tier.rs]: which pinned expert to swap.
    - [Ram.v], [crates/colibri-engine/src/ram.rs]: the ledger of host memory, as
      interleaved atomic steps of any number of threads.
    - [Cache.v], [cache.rs]: the resident expert cache, each critical section a
      step, with its predictor, its eviction, its monitor and its reservations.
    - [Usage.v], [usage.rs]: the histogram of expert use and its file.
    - [Chunk.v], [chunk.rs]: the plan that fetches an expert in bands of rows.
    - [DType.v], [crates/colibri-core/src/dtype.rs]: element types, and the bf16,
      binary16 and float8 conversions.
    - [Json.v], [crates/colibri-json/src/lib.rs] and [jstr] of the server: the
      JSON reader and string writer.
    - [Unicode.v], [Tokenizer.v], [crates/colibri-tokenizer]: the character
      classes, both pre-tokenizers, byte-pair encoding, special tokens, decoding.
    - [Safetensors.v], [crates/colibri-safetensors/src/lib.rs] and the shard
      writer of [convert.rs]: opening a directory of weight files, looking up,
      reading, slicing and converting tensors, exporting a subset.
    - [Spans.v], the same crate: reads of many tensors at once, coalesced or cut
      into jobs for a pool of threads, through the page cache or past it.
    - [Config.v], [crates/colibri-core/src/config.rs]: [config.json] of every
      architecture, its validation, and the questions the engine asks of it.
    - [KvCache.v], [KvCache] of [crates/colibri-engine/src/model.rs]: the
      key/value cache, its ring of raw rows, compressed and recurrent state, and
      what it says it costs.
    - [Math.v], [math.rs] and [sampling.rs]: norms, activations, rotations,
      softmax, the choice of the next token.  [Floats.v] holds facts of binary32.
    - [Linear.v], [crates/colibri-core/src/quant.rs] and [linear.rs]: quantised
      weights and the products with them.  [Quantize.v], [quantize.rs], and
      [concat_rows] of [loader.rs] and the ternary packer of [convert.rs].
    - [Model.v], [model.rs] and [mark_gpu_eligible] of the engine's [lib.rs]: the
      weights of a model and what they weigh.
    - [Moe.v], [moe.rs]: the router, the feed-forward blocks, the experts of one
      node and of many.  [MoeBatch.v] states it token by token, [MoeCluster.v]
      compares a cluster with one node, over the class [Transport].
    - The layers that mix tokens: [Gqa.v] and [Mla.v], grouped-query and latent
      attention of [attention.rs]; [Indexer.v], [dsa.rs], the sparse indexer that
      latent attention may ask; [MlaCluster.v], latent attention with its heads
      spread over nodes; [Mamba.v], [mamba2.rs] and the mixer of [forward.rs];
      [Kda.v], [kda.rs], delta attention; [AttnRes.v], the attention residual of
      Kimi's stack in [forward.rs].
    - [Forward.v], [forward.rs] and [mtp.rs]: a layer, the stack of layers, Kimi's
      stack, the logits, one token of each of several sequences, the head that
      drafts.
    - [Generate.v], [forward.rs] 1499-2077: greedy and speculative decoding, over
      the class [Engine] (its laws are the class [EngineLaws]).
    - [Stack.v], [KimiStack.v] and [Inference.v] hold no code: they compose the
      layers, [MoeBatch.v], [Forward.v], [KvCache.v] and [Generate.v].  [Stack.v]
      shows that a layer, and a stack of them, gives each token a function of the
      tokens up to it ([causal_on], for any representation [Rep] of a block),
      [KimiStack.v] the same of Kimi's; [Inference.v] that a model whose weights
      fit ([wf_model]) is an [Engine] that keeps [EngineLaws].  [Tiny.v] is a
      small configuration with weights, for the witnesses.
    - DeepSeek-V4: [Dsv4.v] and [Dsv4Num.v], [dsv4.rs], its compressor, key
      selection, attention core, rotation and fake quantisers; [Dsv4Moe.v], its
      routing by score or by table and its experts ([dsv4_moe] of [moe.rs]);
      [Hc.v], [hc.rs], the stream of copies; [Dsv4Attn.v], [forward.rs], the
      attention between the projections, over [KvCache.v] and [Dsv4.v] (what a
      layer's compressed rows hold, the Compressor's or the Indexer's, is
      [store_ok] of [Dsv4Store.v]);
      [Dsv4Layer.v], [forward.rs] 2641-3420, the projections, the Indexer, a layer
      and the forward pass, whole or in chunks, which is the arm [Forward.forward]
      has for it.  [Dsv4Stack.v], [Dsv4Pass.v], [Dsv4Infer.v] and [Dsv4Chunks.v]
      hold no code: a part on a block is that part on each token; a cache moves
      on by the tokens of a call; the model is an [Engine] that keeps
      [EngineLaws]; one layer's attention, call after call.
    - [Platform.v]: the platform's elementary functions and the settings a
      process reads from its environment, parameters of the passes.

    [Rows.v] holds slices, flat buffers of rows and loops over them.
    [Prelude.v] holds what they share: machine integers, slices, little-endian
    bytes, sums, stable sorting, [min_by], scans, the hint databases [colibri] and
    [colibri_rw], the tactic [mlia], and the notation [let*] of [option].

    ** How the code is read

    The release build is modelled: [+], [-], [*] on unsigned integers wrap and
    [as] truncates ([wrap], [u8] ... [u64]); [usize] has 64 bits.  Where the code
    uses [saturating_sub], [checked_mul], [div_ceil] or wider types, so does the
    model.  A panic (a failed [assert!], an index or slice out of range, an
    [expect]) is [None]; an [Err] is the left of a sum or a constructor; the
    client distinguishes [Ret] from [Panic].  [f32] payloads that are only moved
    are bit patterns; where the code computes in [f32] or [f64] the model uses
    [SpecFloat] with rounding to nearest even.  A [HashMap] is a [gmap]; where
    the code iterates one, the order is a parameter or the list is sorted by a
    unique key, and the theorems hold for every order.  A [Vec] is a [list], a
    string the list of its bytes or, in [Usage.v] and [Discovery.v], of its
    characters.

    Loops that are not structural carry fuel, and a theorem says that the fuel
    given is enough: the pre-tokenizers get one step per code point
    ([pieces_tile]), the JSON reader two per byte of input ([parse_total]), the
    worker one per byte received ([serve_conn_guarded]), the encoder the length
    of its text ([encode_decode_roundtrip]), byte-pair merging the number of
    symbols ([bpe_piece_refines]), the chunk plan the number of rows
    ([chunks_reassemble]), a table search the number of rows ([classes_exact]).

    ** What is shown

    - The cluster: a remote call is a local call of the worker's handler
      ([exchange_is_remote_call], a refinement by composing client, framing,
      codec and worker), whatever has gone over the connection before; a worker
      with another map is refused ([exchange_refused]); on any network the client
      neither panics nor leaks nor writes before it was accepted, and connects at
      most twice ([roundtrip_safe]); on any input the worker stops, calls no
      handler before a good hello and sends only prefixes of real replies
      ([serve_conn_guarded]); a well-formed session gets its replies in order
      ([serve_conn_session]).
    - The codecs: encoding then decoding is the identity for every message; what
      the request decoder accepts is an encoding, but for a wrapped count
      ([decode_request_sound], [decode_request_wrapped_count]); framing succeeds
      exactly on frames ([read_frame_exact]).
    - Ownership: [owner] and [range_for] agree; both balancing schemes place every
      expert once and meet their load bounds; fingerprints tell single changes.
    - Memory: the ledger never overshoots under commits and releases, balances
      whenever it is at rest, and grants exactly what fits; the expert cache is
      transparent to its clients under any interleaving, evicts exactly what
      repeated eviction of the minimum would, keeps pins and batches, and its
      monitor holds its floors; the swap policies
      pick the swap they are documented to pick, and do not undo it.
    - Text: encoding then decoding is the identity on every UTF-8 text the
      vocabulary can spell; the span-based merging computes the normal form of
      leftmost least-rank merging; every piece boundary is accounted for; the
      JSON reader is total and inverts a reference printer; the class tests are
      membership in their tables.
    - Weights: an opened directory is a consistent table ([open_wf], which says
      what the code does not check); what the two writers write
      opens to exactly the tensors written; reads of many tensors give each its
      own bytes, and their jobs respect files, buffers and the device's block.
    - Configuration: what is accepted is in range as far as its architecture's
      parser checks ([from_json_valid]), which for DeepSeek-V4 is nothing
      ([deepseek_unchecked]) and for Kimi-K3 leaves three widths out
      ([kimi_negative_heads]); loading answers every pair of files.
    - Attention: reads from the ring are reads from a cache that never forgets
      ([ring_keys_linear]); prefill and decode are one compressor
      ([compressor_chunking]); and, composed with the projections, the Indexer's
      choice, the key lists and the attention core, the way a text is cut into
      forward calls does not show in what a token attends to, the best of the
      closed rows ([attention_chunking]).  Rolling back a draft restores
      the recurrent state ([mamba_rollback]).
    - Decoding: over any engine that keeps its laws, speculation returns, and
      hands out exactly the tokens of greedy decoding ([speculation_is_greedy]);
      without the rollback it does not ([rollback_needed]).
    - The whole of it, under the conditions below: for a model of any family —
      grouped-query or latent attention, Mamba-2 mixers, delta attention with the
      attention residual, experts or dense blocks — on the cache the runtime
      makes, a prompt may be cut into forward calls at will ([forward_in_blocks]); [generate_greedy]
      answers what one gets by running the model anew for every token
      ([decoding_is_greedy]); and a batched step gives every sequence its own
      ([batch_is_each_alone]).  For DeepSeek-V4, whose passes are chunked by
      themselves, so do [v4_in_blocks] and [v4_decoding_is_greedy]: every row is
      the one the streams of the whole text give ([text_rows], which knows no
      ring, no carried state and no position of a call).
    - Experts: the router picks the best by biased score ([route_selects]), and
      so does DeepSeek-V4's ([route_topk_correct]), whose table, when it repeats an
      expert, loses one ([table_choice]); with
      at most two experts a token, a batch gives each token what it gets alone
      ([moe_batch_independent]) and a cluster gives what one node gives
      ([cluster_is_one_node]); with three a batch shows
      ([batch_changes_output]); a node that fails is never left out of the sum
      ([node_failure_fails]).
    - Layers: a prompt cut in two gives the Mamba-2 mixer's rows and state of the
      whole prompt ([mixer_in_chunks]), and so does delta attention
      ([kda_mixer_spec]); a row of grouped-query or latent attention is a
      function of its prefix ([attention_gqa_spec], [attention_mla_spec]); the
      indexer keeps the best keys, and all of those ([select_topk_correct]);
      attention over a cluster is the sum of its slices of the heads
      ([sharded_attention_is_slices]).
    - Numbers: the greedy token is the first of the best, a sampled one among the
      shortest ranking with the mass asked for ([sampling_correct]); the butterflies of DeepSeek-V4's rotation are the
      Walsh-Hadamard transform to the last bit ([hadamard_rotate_correct]) and a
      block's scale is the least power of two not below its quotient
      ([round_pow2_scale_least]); the runtime quantiser keeps what its codes
      say ([quantised_rows_decode]), the ternary packer everything
      ([ternary_exact]); a model's weights are weighed once ([resident_exact]).
    - Data: chunk plans reassemble the matrix, the histogram survives its file,
      the number formats are decoded exactly and bf16 rounding is to nearest even;
      a scan of the fabric reports exactly the peers it has evidence of.

    ** What is not modelled

    The theorems about the whole take a model whose weights have the sizes its
    configuration asks for, a prompt on which the sparse indexer of latent
    attention stays out ([still]), for DeepSeek-V4 an Indexer whose scores are
    numbers ([scores_numbers]), at most two experts a token, since the order of
    three or more shows, no block-sparse path, and attention on one node.
    Where the code sorts by a comparison that is no order among NaNs (the
    sampler, the Indexers), the standard library promises nothing, a panic
    included, and the model gives no answer ([None]).  Allocations that fail for
    want of memory, or for asking for more than a vector can hold, are left out.  [exp], [sin] and the like are the
    platform's, parameters.  CUDA and RDMA are foreign code, and a buffer pool is
    its contents; the HTTP server, the command line, file access and threads that
    only call the modelled functions are left out, as are log messages and
    timings.  What could be added next: the reading of experts from shards
    ([moe.rs]), the preload plan ([preload.rs]) and the request handling of the
    server ([serve.rs]). *)

From stdpp Require Export base numbers list list_numbers gmap strings.
From Stdlib Require Export ZArith Lia Sorted.

Declare Scope colibri_scope.
Delimit Scope colibri_scope with colibri.

Local Open Scope Z_scope.

(** ** Machine integers

    Unsigned integers are [Z]; the release build has no overflow checks, so
    [+], [-] and [*] wrap and [as] casts truncate.  [wrap w] is that
    truncation, [in_u w] the range of the width. *)

Definition wrap (w z : Z) : Z := z mod 2 ^ w.
Definition in_u (w z : Z) : Prop := 0 <= z < 2 ^ w.

Abbreviation u8 := (wrap 8).
Abbreviation u16 := (wrap 16).
Abbreviation u32 := (wrap 32).
Abbreviation u64 := (wrap 64).
Abbreviation is_u8 := (in_u 8).
Abbreviation is_u16 := (in_u 16).
Abbreviation is_u32 := (in_u 32).
Abbreviation is_u64 := (in_u 64).

(** [(k as usize).min(n)]: a negative [k] is huge. *)
Definition capped (k : Z) (n : nat) : nat := Z.to_nat (Z.min (u64 k) (Z.of_nat n)).
Lemma capped_le k n : (capped k n <= n)%nat.
Proof. unfold capped. lia. Qed.

(** [saturating_sub] and [div_ceil] of the unsigned types. *)
Definition saturating_sub (a b : Z) : Z := Z.max 0 (a - b).
Definition div_ceil (a b : Z) : Z := if a mod b =? 0 then a / b else a / b + 1.

(** [lia] after the range predicates and powers have been computed. *)
Ltac pow2 :=
  change (2 ^ 7) with 128 in *; change (2 ^ 8) with 256 in *;
  change (2 ^ 16) with 65536 in *; change (2 ^ 24) with 16777216 in *;
  change (2 ^ 31) with 2147483648 in *; change (2 ^ 32) with 4294967296 in *;
  change (2 ^ 63) with 9223372036854775808 in *;
  change (2 ^ 64) with 18446744073709551616 in *.
Ltac mlia := unfold in_u in *; pow2; lia.

Create HintDb colibri.
Create Rewrite HintDb colibri_rw.

Lemma wrap_in w z : 0 <= w -> in_u w (wrap w z).
Proof. intros Hw. unfold in_u, wrap. apply Z.mod_pos_bound. lia. Qed.

Lemma wrap_id w z : in_u w z -> wrap w z = z.
Proof. intros H. unfold wrap. apply Z.mod_small. exact H. Qed.

Lemma in_u_dec_spec w z : in_u w z <-> (0 <=? z) && (z <? 2 ^ w) = true.
Proof. unfold in_u. rewrite andb_true_iff, Z.leb_le, Z.ltb_lt. reflexivity. Qed.

#[export] Instance in_u_dec w z : Decision (in_u w z).
Proof. refine (cast_if (decide ((0 <=? z) && (z <? 2 ^ w) = true))); by rewrite in_u_dec_spec. Defined.

#[export] Hint Resolve wrap_in : colibri.
#[export] Hint Rewrite wrap_id using (solve [eauto with colibri | mlia]) : colibri_rw.

Lemma div_ceil_spec a b : 0 < b -> b * (div_ceil a b - 1) < a <= b * div_ceil a b.
Proof.
  intros Hb. unfold div_ceil.
  pose proof (Z.div_mod a b ltac:(lia)) as Hd.
  pose proof (Z.mod_pos_bound a b Hb) as Hm.
  destruct (Z.eqb_spec (a mod b) 0); nia.
Qed.

(** The Galois connection that characterises [div_ceil]. *)
Lemma div_ceil_le_iff a b c : 0 < b -> div_ceil a b <= c <-> a <= b * c.
Proof. intros Hb. pose proof (div_ceil_spec a b Hb). split; nia. Qed.

Lemma div_ceil_0 b : 0 < b -> div_ceil 0 b = 0.
Proof. intros Hb. unfold div_ceil. by rewrite Z.mod_0_l, Z.div_0_l by lia. Qed.

Lemma div_ceil_mul a b : 0 < b -> div_ceil (b * a) b = a.
Proof.
  intros Hb. unfold div_ceil. rewrite Z.mul_comm, Z.mod_mul, Z.div_mul by lia.
  reflexivity.
Qed.

(** ** Slices and arrays

    [slice l i e] is Rust's [l.get(i..e)]: [None] out of range. *)
Definition slice {A} (l : list A) (i e : nat) : option (list A) :=
  if decide (i <= e <= length l)%nat then Some (take (e - i) (drop i l)) else None.

Lemma slice_Some {A} (l : list A) i e s :
  slice l i e = Some s <-> (i <= e <= length l)%nat /\ s = take (e - i) (drop i l).
Proof. unfold slice. case_decide; naive_solver. Qed.

Lemma slice_app {A} (p s q : list A) i e :
  i = length p -> e = (length p + length s)%nat -> slice (p ++ s ++ q) i e = Some s.
Proof.
  intros -> ->. apply slice_Some. rewrite !length_app. split; [lia|].
  rewrite drop_app_length. replace (length p + length s - length p)%nat with (length s) by lia.
  by rewrite take_app_length.
Qed.

(** [chunks_exact n]: consecutive chunks of [n], the incomplete tail dropped.
    The fuel is the length of the list: every chunk shortens it. *)
Fixpoint chunks_fuel {A} (fuel n : nat) (l : list A) : list (list A) :=
  match fuel with
  | O => []
  | S f => if decide (n <= length l)%nat then take n l :: chunks_fuel f n (drop n l) else []
  end.
Definition chunks_exact {A} (n : nat) (l : list A) : list (list A) :=
  chunks_fuel (length l) n l.

Lemma chunks_fuel_app {A} (n : nat) (cs : list (list A)) f :
  (0 < n)%nat -> Forall (fun c => length c = n) cs -> (length cs <= f)%nat ->
  chunks_fuel f n (concat cs) = cs.
Proof.
  intros Hn Hcs. revert f. induction Hcs as [|c cs Hc Hcs IH]; intros f Hf; simpl in *.
  - destruct f; simpl; [done|]. rewrite decide_False by lia. done.
  - destruct f as [|f]; [simpl in Hf; lia|]. simpl.
    rewrite decide_True by (rewrite length_app; lia).
    rewrite take_app_length', drop_app_length' by done.
    f_equal. apply IH. simpl in Hf. lia.
Qed.

Lemma concat_length_const {A} n (cs : list (list A)) :
  Forall (fun c => length c = n) cs -> length (concat cs) = (length cs * n)%nat.
Proof. induction 1; simpl; rewrite ?length_app; lia. Qed.

Lemma chunks_exact_concat {A} (n : nat) (cs : list (list A)) :
  (0 < n)%nat -> Forall (fun c => length c = n) cs -> chunks_exact n (concat cs) = cs.
Proof.
  intros Hn Hcs. unfold chunks_exact. apply chunks_fuel_app; [done..|].
  rewrite (concat_length_const n) by done. nia.
Qed.

Lemma elem_of_take_1 {A} (x : A) n l : x ∈ take n l -> x ∈ l.
Proof. intros H. rewrite <- (take_drop n l). apply elem_of_app. by left. Qed.

(** ** Sums *)
Fixpoint sumZ (l : list Z) : Z := match l with [] => 0 | x :: l => x + sumZ l end.

Lemma sumZ_app l k : sumZ (l ++ k) = sumZ l + sumZ k.
Proof. induction l; simpl; lia. Qed.

Lemma sumZ_perm l k : l ≡ₚ k -> sumZ l = sumZ k.
Proof. induction 1; simpl; lia. Qed.

#[export] Instance sumZ_Proper : Proper ((≡ₚ) ==> (=)) sumZ.
Proof. intros l k. apply sumZ_perm. Qed.

Lemma sumZ_nonneg l : Forall (fun x => 0 <= x) l -> 0 <= sumZ l.
Proof. induction 1; simpl; lia. Qed.

Lemma sumZ_map_add {A} (f g : A -> Z) l :
  sumZ (map (fun x => f x + g x) l) = sumZ (map f l) + sumZ (map g l).
Proof. induction l; simpl; lia. Qed.

Lemma sumZ_map_scale {A} (f : A -> Z) c l : sumZ (map (fun x => c * f x) l) = c * sumZ (map f l).
Proof. induction l; simpl; lia. Qed.

Lemma sumZ_map_le {A} (f g : A -> Z) l :
  (forall x, x ∈ l -> f x <= g x) -> sumZ (map f l) <= sumZ (map g l).
Proof.
  induction l as [|a l IH]; intros H; simpl; [lia|].
  pose proof (H a ltac:(set_solver)). specialize (IH ltac:(set_solver)). lia.
Qed.

Lemma sumZ_map_ext {A} (f g : A -> Z) l :
  (forall x, x ∈ l -> f x = g x) -> sumZ (map f l) = sumZ (map g l).
Proof.
  induction l as [|a l IH]; intros H; simpl; [done|].
  rewrite (H a), IH by set_solver. done.
Qed.

Lemma sumZ_map_zero {A} (f : A -> Z) l : (forall x, x ∈ l -> f x = 0) -> sumZ (map f l) = 0.
Proof. intros H. rewrite (sumZ_map_ext f (fun _ => 0) l H). induction l; simpl; [done|]. apply IHl; set_solver. Qed.

Lemma sumZ_zero_all {A} (f : A -> Z) l :
  (forall x, x ∈ l -> 0 <= f x) -> sumZ (map f l) = 0 -> Forall (fun x => f x = 0) l.
Proof.
  induction l as [|a l IH]; intros Hf Hs; [constructor|]. simpl in Hs.
  pose proof (Hf a ltac:(set_solver)).
  assert (0 <= sumZ (map f l)).
  { apply sumZ_nonneg, Forall_forall. intros y (x & -> & Hx)%list_elem_of_fmap. set_solver. }
  constructor; [lia|]. apply IH; [set_solver|lia].
Qed.

Lemma sumZ_insert (l : list Z) i x y :
  l !! i = Some x -> sumZ (<[i := y]> l) = sumZ l - x + y.
Proof.
  revert i. induction l as [|a l IH]; intros [|i] H; simplify_eq/=; [lia|].
  rewrite (IH i) by done. lia.
Qed.

Lemma sumZ_elem_le l x : Forall (fun x => 0 <= x) l -> x ∈ l -> x <= sumZ l.
Proof.
  induction 1 as [|a l Ha Hl IH]; intros Hx; [set_solver|]. simpl.
  pose proof (sumZ_nonneg l Hl). apply elem_of_cons in Hx as [->|Hx]; [lia|].
  specialize (IH Hx). lia.
Qed.

(** ** Stable sort

    [sort_by leb] is Rust's [slice::sort_by] (stable): the insertion sort on
    the comparison [leb x y], read "[x] may stay before [y]". *)
Section SortBy.
Context {A : Type} (leb : A -> A -> bool).

Fixpoint insert_by (x : A) (l : list A) : list A :=
  match l with
  | [] => [x]
  | y :: l' => if leb x y then x :: l else y :: insert_by x l'
  end.

Fixpoint sort_by (l : list A) : list A :=
  match l with [] => [] | x :: l' => insert_by x (sort_by l') end.

Lemma insert_by_perm x l : insert_by x l ≡ₚ x :: l.
Proof using.
  induction l as [|y l IH]; simpl; [done|]. destruct (leb x y); [done|].
  rewrite IH. constructor.
Qed.

Lemma sort_by_perm l : sort_by l ≡ₚ l.
Proof. induction l as [|x l IH]; simpl; [done|]. by rewrite insert_by_perm, IH. Qed.

Lemma sort_by_length l : length (sort_by l) = length l.
Proof. by rewrite sort_by_perm. Qed.

Lemma elem_of_sort_by x l : x ∈ sort_by l <-> x ∈ l.
Proof. by rewrite sort_by_perm. Qed.

Hypothesis leb_total : forall x y, leb x y = false -> leb y x = true.
Hypothesis leb_trans : forall x y z, leb x y = true -> leb y z = true -> leb x z = true.

Lemma insert_by_sorted x l :
  StronglySorted (fun x y => leb x y = true) l ->
  StronglySorted (fun x y => leb x y = true) (insert_by x l).
Proof.
  induction 1 as [|y l Hs IH Hy]; simpl; [repeat constructor|].
  destruct (leb x y) eqn:E.
  - repeat constructor; try done. rewrite Forall_forall in Hy |- *. eauto.
  - constructor; [done|]. apply Forall_forall. intros z Hz.
    rewrite insert_by_perm in Hz. apply elem_of_cons in Hz as [->|Hz]; [eauto|].
    rewrite Forall_forall in Hy. eauto.
Qed.

Lemma sort_by_sorted l : StronglySorted (fun x y => leb x y = true) (sort_by l).
Proof. induction l; simpl; [constructor|]. by apply insert_by_sorted. Qed.
End SortBy.

Lemma sorted_weaken {A} (P Q : A -> A -> Prop) l : (forall x y, P x y -> Q x y) -> StronglySorted P l -> StronglySorted Q l.
Proof. intros H. induction 1 as [|x l Hl IH Hx]; constructor; [done|]. eapply Forall_impl; [exact Hx|]. intros y. apply H. Qed.

Lemma StronglySorted_distinct {A} (P Q : A -> A -> Prop) l : NoDup l -> StronglySorted P l ->
  (forall x y, x <> y -> P x y -> Q x y) -> StronglySorted Q l.
Proof.
  intros Hn Hs H. induction Hs as [|x l Hl IH Hx]; [constructor|]. apply NoDup_cons in Hn as [Hni Hn]. constructor; [by apply IH|].
  rewrite Forall_forall in *. intros y Hy. apply H; [intros ->; by apply Hni|by apply Hx].
Qed.

Lemma StronglySorted_seq (R : nat -> nat -> Prop) n : (forall i j, (i < j)%nat -> R i j) -> forall a, StronglySorted R (seq a n).
Proof.
  intros H. induction n as [|n IH]; intros a; cbn; constructor; [apply IH|]. apply Forall_forall. intros j Hj%elem_of_seq. apply H. lia.
Qed.

(** The sort asks its comparison only about an element and later ones. *)
Lemma sort_by_agree {A} (leb leb' : A -> A -> bool) l : StronglySorted (fun x y => leb x y = leb' x y) l -> sort_by leb l = sort_by leb' l.
Proof.
  induction 1 as [|x l Hs IH Hx]; [done|]. cbn [sort_by]. rewrite IH.
  assert (Forall (fun y => leb x y = leb' x y) (sort_by leb' l)) as Hx' by (by rewrite sort_by_perm).
  clear IH Hs Hx. revert Hx'. generalize (sort_by leb' l). induction 1 as [|y k Hy _ IHk]; [done|]. cbn [insert_by]. by rewrite Hy, IHk.
Qed.

(** A list sorted by distinct keys is the only one of its elements. *)
Lemma sorted_keys_unique {B} (l : list (Z * B)) : forall k, l ≡ₚ k -> NoDup l.*1 ->
  StronglySorted (fun x y => (x.1 <= y.1)%Z) l -> StronglySorted (fun x y => (x.1 <= y.1)%Z) k -> l = k.
Proof.
  induction l as [|x l IH]; intros k Hp Hn Hl Hk; [by apply Permutation_nil_l in Hp|].
  destruct k as [|y k]; [by symmetry in Hp; apply Permutation_nil_cons in Hp|].
  apply StronglySorted_inv in Hl as [Hl Hx]. apply StronglySorted_inv in Hk as [Hk Hy].
  cbn in Hn. pose proof Hn as Hn'. apply NoDup_cons in Hn' as [Hxn Hln].
  assert (x = y) as ->.
  { assert (y ∈ x :: l) as Hyl by (rewrite Hp; left). assert (x ∈ y :: k) as Hxk by (rewrite <- Hp; left).
    apply elem_of_cons in Hyl as [|Hyl]; [done|]. apply elem_of_cons in Hxk as [|Hxk]; [done|].
    rewrite Forall_forall in Hx, Hy. pose proof (Hx y Hyl). pose proof (Hy x Hxk). exfalso. apply Hxn.
    apply list_elem_of_fmap. exists y. split; [lia|done]. }
  f_equal. apply IH; [by apply Permutation_cons_inv in Hp|done|done|done].
Qed.

(** ** Iterator minimum

    [min_by leb] is [Iterator::min_by]: the first element no later one is
    strictly below ([leb x y] reads "[x] compares less or equal to [y]"). *)
Fixpoint min_by_from {A} (leb : A -> A -> bool) (x : A) (l : list A) : A :=
  match l with
  | [] => x
  | y :: l' => min_by_from leb (if leb x y then x else y) l'
  end.
Definition min_by {A} (leb : A -> A -> bool) (l : list A) : option A :=
  match l with [] => None | x :: l' => Some (min_by_from leb x l') end.

Section MinBy.
Context {A : Type} (leb : A -> A -> bool).
Hypothesis leb_total : forall x y, leb x y = false -> leb y x = true.
Hypothesis leb_refl : forall x, leb x x = true.
Hypothesis leb_trans : forall x y z, leb x y = true -> leb y z = true -> leb x z = true.

Lemma min_by_from_spec x l :
  min_by_from leb x l ∈ x :: l /\ forall y, y ∈ x :: l -> leb (min_by_from leb x l) y = true.
Proof.
  revert x. induction l as [|z l IH]; intros x; simpl.
  - split; [set_solver|]. intros y ->%list_elem_of_singleton. done.
  - destruct (IH (if leb x z then x else z)) as [Hin Hmin].
    split; [destruct (leb x z); set_solver|].
    assert (Hh : leb (min_by_from leb (if leb x z then x else z) l)
                   (if leb x z then x else z) = true) by (apply Hmin; set_solver).
    intros y Hy. rewrite !elem_of_cons in Hy.
    destruct (leb x z) eqn:E; destruct Hy as [->|[->|Hy]]; try done.
    + exact (leb_trans _ _ _ Hh E).
    + apply Hmin; set_solver.
    + exact (leb_trans _ _ _ Hh (leb_total _ _ E)).
    + apply Hmin; set_solver.
Qed.

Lemma min_by_spec l m :
  min_by leb l = Some m -> m ∈ l /\ forall y, y ∈ l -> leb m y = true.
Proof. destruct l as [|x l]; simpl; [done|]. intros [= <-]. apply min_by_from_spec. Qed.

Lemma min_by_is_Some l x : x ∈ l -> is_Some (min_by leb l).
Proof using. clear. destruct l; simpl; [set_solver|eauto]. Qed.
End MinBy.

Lemma iter_xO p k : (Zpos (Pos.iter xO p k) = Zpos p * 2 ^ Zpos k)%Z.
Proof.
  induction k as [|k IH] using Pos.peano_ind.
  - simpl. lia.
  - rewrite Pos.iter_succ, Pos2Z.inj_succ, Z.pow_succ_r by lia. rewrite (Pos2Z.inj_xO (Pos.iter _ _ _)), IH. lia.
Qed.

(** ** Options *)
Notation "'let*' x := e1 'in' e2" := (match e1 with Some x => e2 | None => None end)
  (at level 10, x pattern, e1 at level 200, e2 at level 200) : colibri_scope.
#[global] Open Scope colibri_scope.

(** A call that returns a [Result] and may also panic. *)
Inductive res (E A : Type) :=
  | ROk (a : A)
  | RErr (e : E)
  | RPanic.
Arguments ROk {E A}.
Arguments RErr {E A}.
Arguments RPanic {E A}.

(** [e1?]. *)
Notation "'let?' x := e1 'in' e2" :=
  (match e1 with ROk x => e2 | RErr e => RErr e | RPanic => RPanic end)
  (at level 10, x pattern, e1 at level 200, e2 at level 200) : colibri_scope.

(** [ok_or], and a step whose [None] is a panic. *)
Definition ok_or {E A} (e : E) (o : option A) : res E A := match o with Some a => ROk a | None => RErr e end.
Definition unwrap {E A} (o : option A) : res E A := match o with Some a => ROk a | None => RPanic end.

(** A [for] loop whose body may leave with [?]. *)
Fixpoint for_each {E S A} (body : S -> A -> res E S) (l : list A) (s : S) : res E S :=
  match l with
  | [] => ROk s
  | x :: l => let? s := body s x in for_each body l s
  end.

Fixpoint rmap {E A B} (f : A -> res E B) (l : list A) : res E (list B) :=
  match l with
  | [] => ROk []
  | x :: l => let? y := f x in let? ys := rmap f l in ROk (y :: ys)
  end.

Lemma for_each_app {E S A} (body : S -> A -> res E S) l k s :
  for_each body (l ++ k) s = let? s := for_each body l s in for_each body k s.
Proof. revert s. induction l as [|x l IH]; intros s; [done|]. simpl. destruct (body s x); [apply IH|done|done]. Qed.

Lemma for_each_inv {E S A} (body : S -> A -> res E S) (P : S -> Prop) l s s' :
  P s -> (forall s x s', x ∈ l -> P s -> body s x = ROk s' -> P s') -> for_each body l s = ROk s' -> P s'.
Proof.
  revert s. induction l as [|x l IH]; intros s Hs Hstep; simpl; [congruence|].
  destruct (body s x) as [s1| |] eqn:Hb; [|done|done]. apply IH; [eapply Hstep; [left|..]; done|].
  intros s2 y s3 Hy. apply Hstep. by right.
Qed.

Lemma rmap_ok {E A B} (f : A -> res E B) l ys : rmap f l = ROk ys <-> Forall2 (fun x y => f x = ROk y) l ys.
Proof.
  revert ys. induction l as [|x l IH]; intros ys; simpl.
  { split; [intros [= <-]; constructor|by inversion 1]. }
  destruct (f x) as [y| |] eqn:Hx.
  - destruct (rmap f l) as [zs| |] eqn:Hl.
    + split; [intros [= <-]; constructor; [done|by apply IH]|]. inversion 1 as [|? z ? zs' Hz Hzs]; subst.
      apply IH in Hzs. congruence.
    + split; [done|]. inversion 1 as [|? z ? zs' Hz Hzs]; subst. by apply IH in Hzs.
    + split; [done|]. inversion 1 as [|? z ? zs' Hz Hzs]; subst. by apply IH in Hzs.
  - split; [done|inversion 1; congruence].
  - split; [done|inversion 1; congruence].
Qed.

(** ** Signed integers *)

Definition wrap_i (w z : Z) : Z := (z + 2 ^ (w - 1)) mod 2 ^ w - 2 ^ (w - 1).
Definition in_i (w z : Z) : Prop := - 2 ^ (w - 1) <= z < 2 ^ (w - 1).
Abbreviation i64 := (wrap_i 64).
Abbreviation i32 := (wrap_i 32).

Lemma wrap_i_id w z : 0 < w -> in_i w z -> wrap_i w z = z.
Proof.
  unfold in_i, wrap_i. intros Hw Hz.
  assert (2 ^ w = 2 * 2 ^ (w - 1)) by (rewrite <- Z.pow_succ_r by lia; f_equal; lia).
  rewrite Z.mod_small; lia.
Qed.

Lemma wrap_i_in w z : 0 < w -> in_i w (wrap_i w z).
Proof.
  unfold in_i, wrap_i. intros Hw.
  assert (2 ^ w = 2 * 2 ^ (w - 1)) by (rewrite <- Z.pow_succ_r by lia; f_equal; lia).
  assert (0 < 2 ^ (w - 1)) by (apply Z.pow_pos_nonneg; lia).
  pose proof (Z.mod_pos_bound (z + 2 ^ (w - 1)) (2 ^ w)). lia.
Qed.

(** ** Index ranges [0..n] *)
#[export] Instance Z_between_dec (a b z : Z) : Decision (a <= z < b).
Proof. apply and_dec; solve_decision. Defined.

Lemma filter_all {A} (P : A -> Prop) `{!forall x, Decision (P x)} (l : list A) :
  Forall P l -> filter P l = l.
Proof. induction 1; rewrite ?filter_nil, ?filter_cons_True by done; congruence. Qed.

Lemma filter_none {A} (P : A -> Prop) `{!forall x, Decision (P x)} (l : list A) :
  Forall (fun x => ~ P x) l -> filter P l = [].
Proof. induction 1; rewrite ?filter_nil, ?filter_cons_False by done; congruence. Qed.

Lemma filter_seqZ_between a b n : 0 <= a <= b -> b <= n ->
  filter (fun z => a <= z < b) (seqZ 0 n) = seqZ a (b - a).
Proof.
  intros Ha Hb.
  replace n with (a + ((b - a) + (n - b))) by lia.
  rewrite !seqZ_app by lia. rewrite !filter_app, Z.add_0_l.
  rewrite (filter_none _ (seqZ 0 a)), (filter_all _ (seqZ a (b - a))),
    (filter_none _ (seqZ (a + (b - a)) (n - b))); [by rewrite app_nil_r|..];
    apply Forall_forall; intros z; rewrite elem_of_seqZ; lia.
Qed.

Lemma filter_ext_in {A} (P Q : A -> Prop) `{!forall x, Decision (P x), !forall x, Decision (Q x)} (l : list A) :
  (forall x, x ∈ l -> P x <-> Q x) -> filter P l = filter Q l.
Proof.
  induction l as [|x l IH]; intros Hpq; [done|].
  rewrite !filter_cons. pose proof (Hpq x ltac:(set_solver)). rewrite IH by set_solver.
  do 2 case_decide; naive_solver.
Qed.

(** A fallible loop that keeps an invariant of the elements done so far. *)
Lemma fold_left_inv {A S} (step : option S -> A -> option S) (Inv : list A -> S -> Prop) order st0 :
  Inv [] st0 ->
  (forall done e rest st, order = done ++ e :: rest -> Inv done st ->
     exists st', step (Some st) e = Some st' /\ Inv (done ++ [e]) st') ->
  exists st, fold_left step order (Some st0) = Some st /\ Inv order st.
Proof.
  intros H0 Hstep.
  assert (Hgen : forall rest done st, order = done ++ rest -> Inv done st ->
    exists st', fold_left step rest (Some st) = Some st' /\ Inv (done ++ rest) st').
  { induction rest as [|e rest IH]; intros done st Ho Hi; simpl.
    - exists st. by rewrite app_nil_r.
    - destruct (Hstep done e rest st Ho Hi) as (st' & -> & Hi').
      destruct (IH (done ++ [e]) st') as (st'' & Hf & Hi'').
      { by rewrite <- app_assoc. } { done. }
      exists st''. by rewrite <- app_assoc in Hi''. }
  exact (Hgen order [] st0 eq_refl H0).
Qed.

Lemma StronglySorted_app_cross {A} (R : A -> A -> Prop) (l k : list A) x y :
  StronglySorted R (l ++ k) -> x ∈ l -> y ∈ k -> R x y.
Proof.
  induction l as [|a l IH]; intros Hs Hx Hy; [set_solver|]. simpl in Hs.
  apply StronglySorted_inv in Hs as [Hs Ha]. apply elem_of_cons in Hx as [->|Hx]; [|auto].
  rewrite Forall_forall in Ha. apply Ha. set_solver.
Qed.

(** A descending list of values below [c] that reaches [0] at position [j]
    sums to at most [(c - 1) * j]. *)
Lemma desc_sum_bound (l : list Z) c j z :
  0 < c -> StronglySorted (fun x y => y <= x) l -> Forall (fun x => 0 <= x < c) l ->
  l !! j = Some z -> z <= 0 -> sumZ l <= (c - 1) * Z.of_nat j.
Proof.
  intros Hc. revert j. induction l as [|a l IH]; intros [|j] Hs Hf Hl Hz; simplify_eq/=;
    apply StronglySorted_inv in Hs as [Hs Hle]; apply Forall_cons in Hf as [Ha Hf].
  - assert (sumZ l <= 0); [|lia]. clear -Hle Hz. induction Hle; simpl; lia.
  - specialize (IH j Hs Hf Hl Hz). lia.
Qed.

(** If such a list sums to [c * r], its first [r] elements are positive. *)
Lemma desc_prefix_pos (l : list Z) c r :
  0 < c -> StronglySorted (fun x y => y <= x) l -> Forall (fun x => 0 <= x < c) l ->
  sumZ l = c * r -> Forall (fun x => 0 < x) (take (Z.to_nat r) l).
Proof.
  intros Hc Hs Hf Hsum. apply Forall_forall. intros y [i Hi]%list_elem_of_lookup.
  apply lookup_take_Some in Hi as [Hi Hir].
  destruct (decide (0 < y)) as [|Hy]; [done|]. exfalso.
  pose proof (desc_sum_bound l c i y Hc Hs Hf Hi ltac:(lia)). nia.
Qed.

(** ** Bit operations at a width *)
Lemma in_u_bits w z : 0 <= w -> 0 <= z -> in_u w z <-> forall k, w <= k -> Z.testbit z k = false.
Proof.
  intros Hw Hz. unfold in_u. rewrite <- (Z.bounded_iff_bits_nonneg w z) by lia. lia.
Qed.

Lemma lor_shiftl_add a b k : 0 <= k -> 0 <= a -> in_u k b -> Z.lor (Z.shiftl a k) b = a * 2 ^ k + b.
Proof.
  intros Hk Ha Hb. rewrite Z.shiftl_mul_pow2 by done. symmetry.
  rewrite <- Z.lxor_lor; [apply Z.add_nocarry_lxor|];
  (apply Z.bits_inj'; intros n Hn; rewrite Z.land_spec, Z.bits_0;
   destruct (Z.lt_ge_cases n k) as [Hlt|Hge];
   [rewrite Z.mul_pow2_bits_low by done; done|
    assert (Z.testbit b n = false) as -> by (apply (proj1 (in_u_bits k b Hk (proj1 Hb)) Hb); lia);
    by rewrite andb_false_r]).
Qed.

Lemma land_ones z n : 0 <= n -> Z.land z (2 ^ n - 1) = z mod 2 ^ n.
Proof. intros Hn. rewrite <- Z.land_ones by done. f_equal. rewrite Z.ones_equiv. lia. Qed.

Lemma lor_in w a b : 0 <= w -> in_u w a -> in_u w b -> in_u w (Z.lor a b).
Proof.
  intros Hw Ha Hb. unfold in_u in *. assert (H : Z.lor a b = Z.lor a b mod 2 ^ w).
  { rewrite <- land_ones, Z.land_lor_distr_l, !land_ones by done. by rewrite !Z.mod_small. }
  rewrite H. apply Z.mod_pos_bound. lia.
Qed.

Lemma lxor_in w a b : 0 <= w -> in_u w a -> in_u w b -> in_u w (Z.lxor a b).
Proof.
  intros Hw Ha Hb. pose proof (proj1 Ha). pose proof (proj1 Hb).
  apply in_u_bits; [done|by apply Z.lxor_nonneg|]. intros k Hk.
  rewrite in_u_bits in Ha, Hb by done. by rewrite Z.lxor_spec, Ha, Hb.
Qed.

Lemma lxor_inj_l a b c : Z.lxor a c = Z.lxor b c -> a = b.
Proof.
  intros H. rewrite <- (Z.lxor_0_r a), <- (Z.lxor_0_r b), <- (Z.lxor_nilpotent c).
  by rewrite <- !Z.lxor_assoc, H.
Qed.

(** ** Little-endian bytes ([to_le_bytes] / [from_le_bytes]) *)
Fixpoint to_le_bytes (n : nat) (x : Z) : list Z :=
  match n with O => [] | S n => x mod 256 :: to_le_bytes n (x / 256) end.

Fixpoint from_le_bytes (l : list Z) : Z :=
  match l with [] => 0 | b :: l => b + 256 * from_le_bytes l end.

Lemma to_le_bytes_length n x : length (to_le_bytes n x) = n.
Proof. revert x. induction n; intros x; simpl; auto. Qed.

Lemma to_le_bytes_u8 n x : Forall is_u8 (to_le_bytes n x).
Proof.
  revert x. induction n; intros x; simpl; constructor; [|done].
  pose proof (Z.mod_pos_bound x 256 ltac:(lia)). mlia.
Qed.

Lemma from_to_le_bytes n x : in_u (8 * Z.of_nat n) x -> from_le_bytes (to_le_bytes n x) = x.
Proof.
  revert x. induction n as [|n IH]; intros x Hx.
  - change (8 * Z.of_nat 0) with 0 in Hx. unfold in_u in Hx. simpl in *. lia.
  - cbn [to_le_bytes from_le_bytes]. rewrite IH.
    + pose proof (Z.div_mod x 256 ltac:(lia)). lia.
    + unfold in_u in *. replace (8 * Z.of_nat (S n)) with (8 + 8 * Z.of_nat n) in Hx by lia.
      rewrite Z.pow_add_r in Hx by lia. change (2 ^ 8) with 256 in Hx.
      split; [apply Z.div_pos; lia|]. apply Z.div_lt_upper_bound; lia.
Qed.

#[export] Hint Rewrite to_le_bytes_length : colibri_rw.

Lemma to_from_le_bytes l : Forall is_u8 l -> to_le_bytes (length l) (from_le_bytes l) = l.
Proof.
  induction 1 as [|b l Hb Hl IH]; [done|]. cbn [length from_le_bytes to_le_bytes].
  unfold in_u in Hb. change (2 ^ 8) with 256 in Hb.
  replace ((b + 256 * from_le_bytes l) mod 256) with b.
  - replace ((b + 256 * from_le_bytes l) / 256) with (from_le_bytes l); [by rewrite IH|].
    rewrite Z.mul_comm, Z.div_add, Z.div_small by lia. lia.
  - rewrite Z.mul_comm, Z.mod_add, Z.mod_small by lia. done.
Qed.

Lemma from_le_bytes_bound l : Forall is_u8 l -> in_u (8 * Z.of_nat (length l)) (from_le_bytes l).
Proof.
  unfold in_u. induction 1 as [|b l Hb Hl IH]; [done|]. cbn [length from_le_bytes].
  replace (8 * Z.of_nat (S (length l))) with (8 + 8 * Z.of_nat (length l)) by lia.
  rewrite Z.pow_add_r by lia. change (2 ^ 8) with 256 in *. lia.
Qed.

(** ** Scanning loops

    [while i < l.len() && f(l[i]) { i += 1 }], started at [i]. *)

Fixpoint scan_fuel {A} (f : A -> bool) (l : list A) (fuel i : nat) : nat :=
  match fuel with
  | O => i
  | S fuel =>
      match l !! i with
      | Some x => if f x then scan_fuel f l fuel (S i) else i
      | None => i
      end
  end.

Definition scan_while {A} (f : A -> bool) (l : list A) (i : nat) : nat := scan_fuel f l (length l - i) i.

Lemma scan_fuel_spec {A} (f : A -> bool) (l : list A) fuel i :
  (length l - i <= fuel)%nat ->
  (i <= scan_fuel f l fuel i)%nat /\ (i <= length l -> scan_fuel f l fuel i <= length l)%nat /\
  (forall k x, (i <= k < scan_fuel f l fuel i)%nat -> l !! k = Some x -> f x = true) /\
  (forall x, l !! scan_fuel f l fuel i = Some x -> f x = false).
Proof.
  revert i. induction fuel as [|fuel IH]; intros i Hf; simpl.
  - split_and!; [lia|lia|intros; lia|]. intros x Hx%lookup_lt_Some. lia.
  - destruct (l !! i) as [x|] eqn:Hi.
    2:{ split_and!; [lia|lia|intros; lia|]. intros y. by rewrite Hi. }
    pose proof (lookup_lt_Some _ _ _ Hi) as Hlt.
    destruct (f x) eqn:Hfx.
    + destruct (IH (S i)) as (H1 & H2 & H3 & H4); [lia|]. split_and!; [lia|lia| |done].
      intros k y Hk Hy. destruct (decide (k = i)) as [->|]; [congruence|]. apply (H3 k); [lia|done].
    + split_and!; [lia|lia|intros; lia|]. intros y. rewrite Hi. congruence.
Qed.

Lemma scan_while_spec {A} (f : A -> bool) (l : list A) i :
  (i <= scan_while f l i)%nat /\ (i <= length l -> scan_while f l i <= length l)%nat /\
  (forall k x, (i <= k < scan_while f l i)%nat -> l !! k = Some x -> f x = true) /\
  (forall x, l !! scan_while f l i = Some x -> f x = false).
Proof. by apply scan_fuel_spec. Qed.

Lemma scan_while_ge {A} (f : A -> bool) (l : list A) i : (i <= scan_while f l i)%nat.
Proof. apply scan_while_spec. Qed.

Lemma scan_while_le {A} (f : A -> bool) (l : list A) i : (i <= length l -> scan_while f l i <= length l)%nat.
Proof. apply scan_while_spec. Qed.

(** It stops exactly at the end of the run it is started on. *)
Lemma scan_while_app {A} (f : A -> bool) (p run q : list A) i :
  i = length p -> Forall (fun x => f x = true) run ->
  match q with [] => True | x :: _ => f x = false end ->
  scan_while f (p ++ run ++ q) i = (length p + length run)%nat.
Proof.
  intros -> Hrun Hq. destruct (scan_while_spec f (p ++ run ++ q) (length p)) as (H1 & H2 & H3 & H4).
  set (j := scan_while f (p ++ run ++ q) (length p)) in *.
  assert (Hlen : (j <= length p + length run + length q)%nat).
  { rewrite !length_app in H2. lia. }
  destruct (lt_eq_lt_dec j (length p + length run)) as [[Hlt|]|Hgt]; [|done|].
  - exfalso. destruct (lookup_lt_is_Some_2 run (j - length p)) as [x Hx]; [lia|].
    assert (Hj : (p ++ run ++ q) !! j = Some x).
    { rewrite lookup_app_r, lookup_app_l by lia. done. }
    specialize (H4 x Hj). rewrite Forall_forall in Hrun.
    assert (f x = true) by (apply Hrun; by eapply list_elem_of_lookup_2). congruence.
  - exfalso. destruct q as [|x q]; [simpl in *; lia|].
    assert (Hj : (p ++ run ++ x :: q) !! (length p + length run)%nat = Some x).
    { rewrite app_assoc, lookup_app_r by (rewrite length_app; lia).
      rewrite length_app, Nat.sub_diag. done. }
    assert (f x = true) by (eapply H3; [|exact Hj]; lia). congruence.
Qed.
