(* ===== verification/Sharding.v ===== *)
(** * Expert-to-node assignment ([crates/colibri-cluster/src/sharding.rs])

    The three constructors of [ExpertSharding] (contiguous blocks, LPT
    balanced, capacity weighted), the owner queries and the FNV-1a
    fingerprint.  [num_nodes], [n_experts], node and expert ids are [u32];
    weights and loads [u64]; capacities enter as [u64] and are combined in
    [u128].  An [assert!] or an [expect] that fails is [None]. *)

From S2P Require Import Prelude.
Local Open Scope Z_scope.

Record ExpertSharding := mkSharding {
  num_nodes : Z;
  n_experts : Z;
  table : option (list Z)
}.

(** [l[i]] for an index the code keeps in range. *)
Definition ix (l : list Z) (i : Z) : Z := default 0 (l !! Z.to_nat i).
Definition set_ix (l : list Z) (i v : Z) : list Z := <[Z.to_nat i := v]> l.

(** ** Constructors *)

Definition new (nodes experts : Z) : option ExpertSharding :=
  if (1 <=? nodes) && (1 <=? experts)
  then Some {| num_nodes := nodes; n_experts := experts; table := None |} else None.

Definition single (experts : Z) : option ExpertSharding := new 1 experts.

(** [weights.get(e).copied().unwrap_or(0)]; [cap] is the same on capacities. *)
Definition weight_of (weights : list Z) (e : Z) : Z := default 0 (weights !! Z.to_nat e).

(** [w(b).cmp(&w(a)).then(a.cmp(&b))] is not [Greater]. *)
Definition heavier_first (weights : list Z) (a b : Z) : bool :=
  (weight_of weights b <? weight_of weights a)
  || ((weight_of weights b =? weight_of weights a) && (a <=? b)).

(** [load[i].cmp(&load[j]).then(i.cmp(&j))] is not [Greater]. *)
Definition lighter_first (load : list Z) (i j : Z) : bool :=
  (ix load i <? ix load j) || ((ix load i =? ix load j) && (i <=? j)).

(** The body of [balanced]'s placement loop on [(load, table)]. *)
Definition balanced_step (nodes : Z) (weights : list Z)
    (st : option (list Z * list Z)) (e : Z) : option (list Z * list Z) :=
  let* (load, tbl) := st in
  let* node := min_by (lighter_first load) (seqZ 0 nodes) in
  Some (set_ix load node (u64 (ix load node + weight_of weights e)),
        set_ix tbl e (u32 node)).

Definition balanced (nodes experts : Z) (weights : list Z) : option ExpertSharding :=
  if (1 <=? nodes) && (1 <=? experts) then
    if nodes =? 1 then single experts else
    let order := sort_by (heavier_first weights) (seqZ 0 experts) in
    let* (_, tbl) :=
      fold_left (balanced_step nodes weights) order
        (Some (replicate (Z.to_nat nodes) 0, replicate (Z.to_nat experts) 0)) in
    Some {| num_nodes := nodes; n_experts := experts; table := Some tbl |}
  else None.

(** Largest-remainder quotas: one step of the floor loop on
    [(quota, rem, assigned)]. *)
Definition quota_step (experts total : Z) (capacity : list Z)
    (st : list Z * list (Z * Z) * Z) (n : Z) : list Z * list (Z * Z) * Z :=
  let '(quota, rem, assigned) := st in
  let exact := weight_of capacity n * experts in
  let q := u32 (exact / total) in
  (set_ix quota n q, rem ++ [(exact mod total, n)], u32 (assigned + q)).

(** [b.0.cmp(&a.0).then(a.1.cmp(&b.1))] is not [Greater]. *)
Definition bigger_rem_first (a b : Z * Z) : bool :=
  (b.1 <? a.1) || ((b.1 =? a.1) && (a.2 <=? b.2)).

Definition quotas (nodes experts total : Z) (capacity : list Z) : list Z :=
  let '(quota, rem, assigned) :=
    fold_left (quota_step experts total capacity) (seqZ 0 nodes)
      (replicate (Z.to_nat nodes) 0, [], 0) in
  let rem := sort_by bigger_rem_first rem in
  fold_left (fun quota r => set_ix quota r.2 (u32 (ix quota r.2 + 1)))
    (take (Z.to_nat (u32 (experts - assigned))) rem) quota.

(** The body of [capacity_weighted]'s placement loop on [(load, used, table)]. *)
Definition capacity_step (nodes : Z) (quota weights : list Z)
    (st : option (list Z * list Z * list Z)) (e : Z) : option (list Z * list Z * list Z) :=
  let* (load, used, tbl) := st in
  let* node :=
    min_by (lighter_first load)
      (filter (fun i => ix used i < ix quota i) (seqZ 0 nodes)) in
  Some (set_ix load node (u64 (ix load node + weight_of weights e)),
        set_ix used node (u32 (ix used node + 1)),
        set_ix tbl e (u32 node)).

Definition total_capacity (nodes : Z) (capacity : list Z) : Z :=
  sumZ (map (weight_of capacity) (seqZ 0 nodes)).

Definition capacity_weighted (nodes experts : Z) (capacity weights : list Z)
    : option ExpertSharding :=
  if (1 <=? nodes) && (1 <=? experts) then
    let total := total_capacity nodes capacity in
    if (nodes =? 1) || (total =? 0) then balanced nodes experts weights else
    let quota := quotas nodes experts total capacity in
    let order := sort_by (heavier_first weights) (seqZ 0 experts) in
    let* (_, _, tbl) :=
      fold_left (capacity_step nodes quota weights) order
        (Some (replicate (Z.to_nat nodes) 0, replicate (Z.to_nat nodes) 0,
               replicate (Z.to_nat experts) 0)) in
    Some {| num_nodes := nodes; n_experts := experts; table := Some tbl |}
  else None.

(** ** Queries *)

Definition is_hot_aware (s : ExpertSharding) : bool :=
  match table s with Some _ => true | None => false end.

(** [None] is the index panic of an out-of-range expert. *)
Definition owner (s : ExpertSharding) (expert : Z) : option Z :=
  match table s with
  | Some t => t !! Z.to_nat expert
  | None => Some (u32 (u64 (expert * num_nodes s) / n_experts s))
  end.

Definition is_local (s : ExpertSharding) (node expert : Z) : bool :=
  bool_decide (owner s expert = Some node).

Definition range_for (s : ExpertSharding) (node : Z) : Z * Z :=
  let e := n_experts s in
  let n := num_nodes s in
  (u32 (div_ceil (u64 (node * e)) n), u32 (div_ceil (u64 ((node + 1) * e)) n)).

Definition local_experts (s : ExpertSharding) (node : Z) : list Z :=
  filter (fun e => owner s e = Some node) (seqZ 0 (n_experts s)).

Definition count_for (s : ExpertSharding) (node : Z) : Z :=
  u32 (Z.of_nat (length (local_experts s node))).

Definition node_weights (s : ExpertSharding) (weights : list Z) : option (list Z) :=
  fold_left (fun out e =>
      let* out := out in
      let* o := owner s e in
      Some (set_ix out o (u64 (ix out o + weight_of weights e))))
    (seqZ 0 (n_experts s)) (Some (replicate (Z.to_nat (num_nodes s)) 0)).

(** FNV-1a over the little-endian bytes of a [u32]. *)
Definition fnv_byte (h b : Z) : Z := u64 (Z.lxor h b * 1099511628211).
Definition fnv_mix (h x : Z) : Z := fold_left fnv_byte (to_le_bytes 4 x) h.

Definition fingerprint (s : ExpertSharding) : option Z :=
  fold_left (fun h e => let* h := h in let* o := owner s e in Some (fnv_mix h o))
    (seqZ 0 (n_experts s))
    (Some (fnv_mix (fnv_mix 14695981039346656037 (num_nodes s)) (n_experts s))).

Example balanced_ex : (let* s := balanced 2 4 [5; 9; 1; 4] in table s) = Some [1; 0; 0; 1].
Proof. vm_compute. reflexivity. Qed.
Example capacity_ex : (let* s := capacity_weighted 2 4 [2; 1] [] in Some (count_for s 0, count_for s 1))
  = Some (3, 1).
Proof. vm_compute. reflexivity. Qed.

(** ** Contiguous blocks *)

Section Contiguous.
Variables (nodes experts : Z).
Hypothesis Hn : 1 <= nodes < 2 ^ 32.
Hypothesis He : 1 <= experts < 2 ^ 32.

Definition contiguous : ExpertSharding :=
  {| num_nodes := nodes; n_experts := experts; table := None |}.

Lemma new_contiguous : new nodes experts = Some contiguous.
Proof. unfold new. by rewrite !(proj2 (Z.leb_le _ _)) by lia. Qed.

(** The unwrapped block start [ceil (n * experts / nodes)]. *)
Definition block (n : Z) : Z := div_ceil (n * experts) nodes.

Lemma block_bounds n : 0 <= n <= nodes -> 0 <= block n <= experts.
Proof.
  intros H. unfold block. pose proof (div_ceil_spec (n * experts) nodes ltac:(lia)).
  split; nia.
Qed.

Lemma block_mono n m : 0 <= n <= m -> block n <= block m.
Proof.
  intros H. unfold block. apply div_ceil_le_iff; [lia|].
  pose proof (div_ceil_spec (m * experts) nodes ltac:(lia)). nia.
Qed.

Lemma range_for_block n : 0 <= n < nodes ->
  range_for contiguous n = (block n, block (n + 1)).
Proof.
  intros H. unfold range_for; simpl. pose proof (block_bounds n ltac:(lia)).
  pose proof (block_bounds (n + 1) ltac:(lia)). fold (block n).
  rewrite (wrap_id 64 (n * experts)), (wrap_id 64 ((n + 1) * experts)) by (pow2; unfold in_u; pow2; nia).
  fold (block n) (block (n + 1)). by rewrite !wrap_id by mlia.
Qed.

Lemma owner_contiguous e : 0 <= e < experts ->
  owner contiguous e = Some (e * nodes / experts).
Proof.
  intros H. unfold owner; simpl. rewrite (wrap_id 64) by (unfold in_u; pow2; nia).
  rewrite wrap_id; [done|]. unfold in_u. pow2.
  split; [apply Z.div_pos; nia|]. apply Z.div_lt_upper_bound; nia.
Qed.

Lemma owner_block e n : 0 <= e < experts -> 0 <= n < nodes ->
  owner contiguous e = Some n <-> block n <= e < block (n + 1).
Proof.
  intros H1 H2. rewrite owner_contiguous by done.
  pose proof (Z.div_mod (e * nodes) experts ltac:(lia)).
  pose proof (Z.mod_pos_bound (e * nodes) experts ltac:(lia)).
  assert (Hb : forall m, block m <= e <-> m * experts <= nodes * e)
    by (intros m; apply div_ceil_le_iff; lia).
  rewrite Hb, <- Z.nle_gt, Hb. split.
  - intros [= <-]. nia.
  - intros [Ha Hc]. f_equal. nia.
Qed.

Lemma count_block n : 0 <= n < nodes ->
  count_for contiguous n = block (n + 1) - block n.
Proof.
  intros H. pose proof (block_bounds n ltac:(lia)). pose proof (block_bounds (n + 1) ltac:(lia)).
  pose proof (block_mono n (n + 1) ltac:(lia)).
  unfold count_for, local_experts; simpl.
  rewrite (filter_ext_in _ (fun e => block n <= e < block (n + 1))).
  2:{ intros e Hin%elem_of_seqZ. apply owner_block; lia. }
  rewrite filter_seqZ_between, length_seqZ by lia. rewrite wrap_id by mlia. lia.
Qed.
End Contiguous.

(** On a contiguous map the expert [e] is owned by node [n] exactly when
    [e] lies in the half-open range [range_for n]; no intermediate product
    overflows. *)
Theorem owner_iff_in_range nodes experts s e n :
  is_u32 nodes -> is_u32 experts -> new nodes experts = Some s ->
  0 <= e < experts -> 0 <= n < nodes ->
  owner s e = Some n <-> (range_for s n).1 <= e < (range_for s n).2.
Proof.
  intros Hn He Hs H1 H2. unfold in_u in *.
  rewrite new_contiguous in Hs by lia. injection Hs as <-.
  rewrite range_for_block by lia. simpl. apply owner_block; lia.
Qed.

Lemma owner_iff_in_range_witness :
  new 3 256 = Some (contiguous 3 256) /\
  (owner (contiguous 3 256) 85 = Some 0 <->
   (range_for (contiguous 3 256) 0).1 <= 85 < (range_for (contiguous 3 256) 0).2).
Proof.
  split; [reflexivity|].
  apply (owner_iff_in_range 3 256); [mlia..|reflexivity|lia|lia].
Defined.

(** The ranges of the nodes tile [0 .. n_experts) with no gap and no
    overlap, [count_for] is the length of the range, and every node owns
    [experts / nodes] experts or one more. *)
Theorem ranges_tile nodes experts s :
  is_u32 nodes -> is_u32 experts -> new nodes experts = Some s ->
  (range_for s 0).1 = 0 /\ (range_for s (nodes - 1)).2 = experts /\
  (forall n, 0 <= n < nodes - 1 -> (range_for s n).2 = (range_for s (n + 1)).1) /\
  (forall n, 0 <= n < nodes ->
     count_for s n = (range_for s n).2 - (range_for s n).1 /\
     experts / nodes <= count_for s n <= experts / nodes + 1).
Proof.
  intros Hn He Hs. unfold in_u in *.
  assert (H1 : 1 <= nodes /\ 1 <= experts).
  { unfold new in Hs. destruct (Z.leb_spec 1 nodes), (Z.leb_spec 1 experts); naive_solver. }
  rewrite new_contiguous in Hs by lia. injection Hs as <-.
  rewrite !range_for_block by lia. cbn [fst snd].
  replace (nodes - 1 + 1) with nodes by lia. split_and!.
  - unfold block. rewrite Z.mul_0_l. apply div_ceil_0. lia.
  - apply div_ceil_mul. lia.
  - intros n Hr. rewrite !range_for_block by lia. done.
  - intros n Hr. rewrite range_for_block, count_block by lia. split; [done|]. unfold block.
    pose proof (div_ceil_spec (n * experts) nodes ltac:(lia)).
    pose proof (div_ceil_spec ((n + 1) * experts) nodes ltac:(lia)).
    pose proof (Z.div_mod experts nodes ltac:(lia)).
    pose proof (Z.mod_pos_bound experts nodes ltac:(lia)). nia.
Qed.

Lemma ranges_tile_witness :
  (range_for (contiguous 3 256) 2).2 = 256 /\ count_for (contiguous 3 256) 0 = 86.
Proof.
  split; [|vm_compute; reflexivity].
  destruct (ranges_tile 3 256 (contiguous 3 256)) as (_ & H & _); [mlia..|reflexivity|exact H].
Defined.

(** ** Placement tables

    Both greedy loops write [tbl[e] = node] once per expert, in some order.
    [placed f tbl done n] sums [f] over the experts of [done] that [tbl] puts
    on node [n]: with the weights it is a node's load, with [1] its count. *)

Lemma ix_set_eq l i v : 0 <= i < Z.of_nat (length l) -> ix (set_ix l i v) i = v.
Proof. intros H. unfold ix, set_ix. by rewrite list_lookup_insert_eq by lia. Qed.

Lemma ix_set_ne l i j v : 0 <= i -> 0 <= j -> i <> j -> ix (set_ix l i v) j = ix l j.
Proof. intros Hi Hj H. unfold ix, set_ix. by rewrite list_lookup_insert_ne by lia. Qed.

Lemma ix_lookup l i : 0 <= i < Z.of_nat (length l) -> l !! Z.to_nat i = Some (ix l i).
Proof.
  intros H. unfold ix. destruct (l !! Z.to_nat i) eqn:E; [done|]. apply lookup_ge_None in E. lia.
Qed.

Lemma ix_replicate n i : ix (replicate n 0) i = 0.
Proof. unfold ix. destruct (replicate n 0 !! Z.to_nat i) eqn:E; [|done]. by apply lookup_replicate in E as [-> _]. Qed.

Lemma length_set_ix l i v : length (set_ix l i v) = length l.
Proof. apply length_insert. Qed.

Lemma sumZ_ix l : sumZ (map (ix l) (seqZ 0 (Z.of_nat (length l)))) = sumZ l.
Proof.
  f_equal. apply list_eq. intros i. rewrite list_lookup_fmap.
  destruct (decide (i < length l)%nat) as [Hi|Hi].
  - rewrite lookup_seqZ_lt by lia. simpl.
    rewrite <- (ix_lookup l (0 + Z.of_nat i)) by lia. f_equal. lia.
  - rewrite lookup_seqZ_ge by lia. simpl. by rewrite lookup_ge_None_2 by lia.
Qed.

Definition on_node (tbl : list Z) (n e : Z) : Prop := tbl !! Z.to_nat e = Some n.
#[export] Instance on_node_dec tbl n e : Decision (on_node tbl n e).
Proof. unfold on_node. solve_decision. Defined.

Definition placed (f : Z -> Z) (tbl done : list Z) (n : Z) : Z :=
  sumZ (map f (filter (on_node tbl n) done)).

Lemma on_node_set tbl e node n :
  0 <= e < Z.of_nat (length tbl) -> on_node (set_ix tbl e node) n e <-> node = n.
Proof.
  intros H. unfold on_node, set_ix. rewrite list_lookup_insert, decide_True by lia.
  split; congruence.
Qed.

Lemma placed_snoc f tbl done e node n :
  e ∉ done -> Forall (fun x => 0 <= x) done -> 0 <= e < Z.of_nat (length tbl) ->
  placed f (set_ix tbl e node) (done ++ [e]) n
  = placed f tbl done n + (if decide (node = n) then f e else 0).
Proof.
  intros He Hd Hr. rewrite Forall_forall in Hd.
  unfold placed. rewrite filter_app, map_app, sumZ_app. f_equal.
  - do 2 f_equal. apply filter_ext_in. intros x Hx. unfold on_node, set_ix.
    specialize (Hd x Hx). simpl in Hd.
    assert (x <> e) by (intros ->; done). by rewrite list_lookup_insert_ne by lia.
  - rewrite filter_cons, filter_nil. pose proof (on_node_set tbl e node n Hr).
    do 2 case_decide; simpl; try lia; tauto.
Qed.

Lemma placed_le f tbl done n :
  (forall e, 0 <= f e) -> placed f tbl done n <= sumZ (map f done).
Proof.
  intros Hf. unfold placed. induction done as [|e done IH]; [done|].
  rewrite filter_cons. pose proof (Hf e). case_decide; simpl; lia.
Qed.

Lemma placed_one tbl done n :
  placed (fun _ => 1) tbl done n = Z.of_nat (length (filter (on_node tbl n) done)).
Proof. unfold placed. induction (filter (on_node tbl n) done); simpl; lia. Qed.

Lemma placed_one_bound tbl done n : 0 <= placed (fun _ => 1) tbl done n <= Z.of_nat (length done).
Proof. rewrite placed_one. pose proof (length_filter (on_node tbl n) done). lia. Qed.

Lemma placed_perm f tbl done done' n :
  done ≡ₚ done' -> placed f tbl done n = placed f tbl done' n.
Proof. intros H. unfold placed. by rewrite H. Qed.

(** A node's share of the experts, and of anything additive over them. *)
Lemma placed_total f tbl done nodes :
  0 <= nodes -> (forall e, e ∈ done -> exists n, on_node tbl n e /\ 0 <= n < nodes) ->
  sumZ (map (placed f tbl done) (seqZ 0 nodes)) = sumZ (map f done).
Proof.
  intros Hn. induction done as [|e done IH]; intros Hd.
  - apply sumZ_map_zero. done.
  - destruct (Hd e ltac:(set_solver)) as (n & Hon & Hr).
    rewrite (sumZ_map_ext _ (fun m => (if decide (m = n) then f e else 0) + placed f tbl done m)).
    2:{ intros m Hm. unfold placed. rewrite filter_cons.
        assert (on_node tbl m e <-> m = n) by (unfold on_node in *; rewrite Hon; naive_solver).
        do 2 case_decide; simpl; try lia; tauto. }
    rewrite sumZ_map_add, IH by set_solver. simpl. f_equal.
    replace nodes with (n + (1 + (nodes - n - 1))) by lia.
    rewrite !seqZ_app, !map_app, !sumZ_app by lia.
    rewrite (sumZ_map_zero _ (seqZ 0 n)), (sumZ_map_zero _ (seqZ (0 + n + 1) _)).
    + change (seqZ (0 + n) 1) with [0 + n]. simpl. rewrite decide_True by lia. lia.
    + intros m Hm%elem_of_seqZ. rewrite decide_False by lia. done.
    + intros m Hm%elem_of_seqZ. rewrite decide_False by lia. done.
Qed.

Lemma lighter_first_spec load i l :
  min_by (lighter_first load) l = Some i ->
  i ∈ l /\ forall j, j ∈ l -> ix load i <= ix load j.
Proof.
  intros H. apply min_by_spec in H as [Hin Hmin].
  - split; [done|]. intros j Hj. specialize (Hmin j Hj). unfold lighter_first in Hmin.
    destruct (Z.ltb_spec (ix load i) (ix load j)); [lia|].
    destruct (Z.eqb_spec (ix load i) (ix load j)); [lia|done].
  - intros x y. unfold lighter_first. destruct (Z.ltb_spec (ix load x) (ix load y)),
      (Z.ltb_spec (ix load y) (ix load x)), (Z.eqb_spec (ix load x) (ix load y)),
      (Z.eqb_spec (ix load y) (ix load x)); simpl; try done; lia.
  - intros x. unfold lighter_first. rewrite Z.ltb_irrefl, Z.eqb_refl, Z.leb_refl. done.
  - intros x y z. unfold lighter_first. rewrite !orb_true_iff, !andb_true_iff, !Z.ltb_lt,
      !Z.eqb_eq, !Z.leb_le. lia.
Qed.

Section Placing.
Variables (nodes experts : Z) (weights : list Z).
Hypothesis Hn : 1 <= nodes < 2 ^ 32.
Hypothesis He : 1 <= experts < 2 ^ 32.
Hypothesis Hw : Forall is_u64 weights.
Hypothesis Hsum : sumZ (map (weight_of weights) (seqZ 0 experts)) < 2 ^ 64.

Record placing (done load tbl : list Z) : Prop := {
  pl_load_len : Z.of_nat (length load) = nodes;
  pl_tbl_len : Z.of_nat (length tbl) = experts;
  pl_range : forall e, e ∈ done -> exists n, on_node tbl n e /\ 0 <= n < nodes;
  pl_load : forall n, 0 <= n < nodes -> ix load n = placed (weight_of weights) tbl done n
}.

Lemma weight_of_nonneg e : 0 <= weight_of weights e.
Proof.
  unfold weight_of. destruct (weights !! Z.to_nat e) eqn:E; [|done].
  rewrite Forall_lookup in Hw. destruct (Hw _ _ E). done.
Qed.

Definition order : list Z := sort_by (heavier_first weights) (seqZ 0 experts).

Lemma order_perm : order ≡ₚ seqZ 0 experts.
Proof. apply sort_by_perm. Qed.

(** What a prefix of the order tells about the next expert. *)
Lemma order_split done e rest :
  order = done ++ e :: rest ->
  e ∉ done /\ 0 <= e < experts /\ Forall (fun x => 0 <= x < experts) done /\
  sumZ (map (weight_of weights) done) + weight_of weights e < 2 ^ 64 /\
  Z.of_nat (length done) + 1 <= experts.
Proof.
  intros Ho. pose proof order_perm as Hp. rewrite Ho in Hp.
  assert (Hin : forall x, x ∈ done ++ e :: rest -> 0 <= x < experts).
  { intros x. rewrite Hp, elem_of_seqZ. lia. }
  assert (Hnd : NoDup (done ++ e :: rest)) by (rewrite Hp; apply NoDup_seqZ).
  split_and!.
  - apply NoDup_app in Hnd as (_ & Hnd & _). intros Hx. apply (Hnd e); set_solver.
  - apply Hin. set_solver.
  - apply Hin. set_solver.
  - apply Forall_forall. intros x Hx. apply Hin. set_solver.
  - rewrite <- Hp, map_app, sumZ_app in Hsum. simpl in Hsum.
    assert (0 <= sumZ (map (weight_of weights) rest)).
    { apply sumZ_nonneg, Forall_forall. intros x (y & -> & _)%list_elem_of_fmap.
      apply weight_of_nonneg. }
    lia.
  - apply Permutation_length in Hp. rewrite length_app, length_seqZ in Hp. simpl in Hp. lia.
Qed.

Lemma placing_init : placing [] (replicate (Z.to_nat nodes) 0) (replicate (Z.to_nat experts) 0).
Proof.
  split; rewrite ?length_replicate; try lia; [set_solver|].
  intros n _. apply ix_replicate.
Qed.

Lemma placing_step done e rest load tbl node :
  order = done ++ e :: rest -> placing done load tbl -> 0 <= node < nodes ->
  placing (done ++ [e]) (set_ix load node (u64 (ix load node + weight_of weights e)))
    (set_ix tbl e (u32 node)).
Proof.
  intros Ho [Hl Ht Hr Hld] Hnode.
  destruct (order_split _ _ _ Ho) as (He1 & He2 & Hd & Hs & _).
  rewrite (wrap_id 32) by mlia.
  split; rewrite ?length_set_ix; try done.
  - intros x Hx. destruct (decide (x = e)) as [->|Hxe].
    + exists node. rewrite on_node_set by lia. done.
    + destruct (Hr x ltac:(set_solver)) as (n & Hon & Hrn). exists n. split; [|done].
      rewrite Forall_forall in Hd. pose proof (Hd x ltac:(set_solver)).
      unfold on_node, set_ix. by rewrite list_lookup_insert_ne by lia.
  - intros n Hrn. rewrite placed_snoc.
    2:{ done. } 2:{ eapply Forall_impl; [exact Hd|]. simpl. lia. } 2:{ lia. }
    pose proof (weight_of_nonneg e).
    pose proof (placed_le (weight_of weights) tbl done node weight_of_nonneg).
    assert (0 <= ix load node).
    { rewrite Hld by done. unfold placed. apply sumZ_nonneg, Forall_forall.
      intros x (y & -> & _)%list_elem_of_fmap. apply weight_of_nonneg. }
    pose proof (Hld node Hnode). case_decide as Hc.
    + subst n. rewrite ix_set_eq by lia. rewrite wrap_id by mlia. lia.
    + rewrite ix_set_ne by lia. rewrite Hld by done. lia.
Qed.
End Placing.

Section Balanced.
Variables (nodes experts : Z) (weights : list Z).
Hypothesis Hn : 1 <= nodes < 2 ^ 32.
Hypothesis He : 1 <= experts < 2 ^ 32.
Hypothesis Hw : Forall is_u64 weights.
Hypothesis Hsum : sumZ (map (weight_of weights) (seqZ 0 experts)) < 2 ^ 64.

Definition sharded (tbl : list Z) : ExpertSharding :=
  {| num_nodes := nodes; n_experts := experts; table := Some tbl |}.

(** [node_weights] reports each node's summed weight. *)
Lemma node_weights_placed load tbl :
  placing nodes experts weights (seqZ 0 experts) load tbl ->
  exists ws, node_weights (sharded tbl) weights = Some ws /\
    Z.of_nat (length ws) = nodes /\
    forall n, 0 <= n < nodes -> ix ws n = placed (weight_of weights) tbl (seqZ 0 experts) n.
Proof.
  intros [_ Ht Hr _]. unfold node_weights; simpl.
  destruct (fold_left_inv
    (fun out e => let* out := out in let* o := owner (sharded tbl) e in
       Some (set_ix out o (u64 (ix out o + weight_of weights e))))
    (fun done out => Z.of_nat (length out) = nodes /\
       forall n, 0 <= n < nodes -> ix out n = placed (weight_of weights) tbl done n)
    (seqZ 0 experts) (replicate (Z.to_nat nodes) 0)) as (ws & -> & Hws); [..|eauto].
  - rewrite length_replicate. split; [lia|]. intros n _. apply ix_replicate.
  - intros done e rest out Ho [Hl Hix].
    destruct (Hr e) as (o & Hon & Ho'); [rewrite Ho; set_solver|].
    unfold on_node in Hon. change (owner (sharded tbl) e) with (tbl !! Z.to_nat e). rewrite Hon. eexists. split; [done|].
    rewrite length_set_ix. split; [done|]. intros n Hr'.
    unfold placed. rewrite filter_app, map_app, sumZ_app. fold (placed (weight_of weights) tbl done n).
    rewrite filter_cons, filter_nil.
    assert (on_node tbl n e <-> o = n) by (unfold on_node; rewrite Hon; naive_solver).
    destruct (decide (o = n)) as [->|Hne].
    + rewrite decide_True by tauto. rewrite ix_set_eq by lia. rewrite Hix by done. simpl.
      rewrite Z.add_0_r. apply wrap_id.
      pose proof (weight_of_nonneg weights Hw) as Hnn. pose proof (Hnn e).
      pose proof (placed_le (weight_of weights) tbl done n Hnn).
      assert (0 <= placed (weight_of weights) tbl done n).
      { apply sumZ_nonneg, Forall_forall. intros x (y & -> & _)%list_elem_of_fmap. apply Hnn. }
      assert (sumZ (map (weight_of weights) done) + weight_of weights e < 2 ^ 64); [|mlia].
      rewrite Ho, map_app, sumZ_app in Hsum. simpl in Hsum.
      assert (0 <= sumZ (map (weight_of weights) rest)); [|lia].
      apply sumZ_nonneg, Forall_forall. intros x (y & -> & _)%list_elem_of_fmap. apply Hnn.
    + rewrite decide_False by tauto. rewrite ix_set_ne by lia. rewrite Hix by done. simpl. lia.
Qed.

Lemma placing_perm done done' load tbl :
  done ≡ₚ done' -> placing nodes experts weights done load tbl ->
  placing nodes experts weights done' load tbl.
Proof.
  intros Hp [H1 H2 H3 H4]. split; try done.
  - intros e Hin. apply H3. by rewrite Hp.
  - intros n Hr. rewrite H4 by done. by apply placed_perm.
Qed.

(** The greedy invariant: loads differ by at most one weight. *)
Definition level (B : Z) (load : list Z) : Prop :=
  forall i j, 0 <= i < nodes -> 0 <= j < nodes -> ix load i <= ix load j + B.

Lemma balanced_loop B :
  (forall e, weight_of weights e <= B) ->
  exists st, fold_left (balanced_step nodes weights) (order experts weights)
      (Some (replicate (Z.to_nat nodes) 0, replicate (Z.to_nat experts) 0)) = Some st /\
    placing nodes experts weights (order experts weights) st.1 st.2 /\ level B st.1.
Proof.
  intros HB. pose proof (weight_of_nonneg weights Hw) as Hnn.
  apply (fold_left_inv _ (fun done st => placing nodes experts weights done st.1 st.2 /\ level B st.1)).
  - split; [by apply placing_init|]. intros i j _ _. simpl. rewrite !ix_replicate.
    specialize (Hnn 0). specialize (HB 0). lia.
  - intros done e rest [load tbl] Ho [Hp Hlev]. simpl in *.
    destruct (min_by_is_Some (lighter_first load) (seqZ 0 nodes) 0) as [node Hnode];
      [apply elem_of_seqZ; lia|].
    rewrite Hnode. eexists. split; [done|]. simpl.
    apply lighter_first_spec in Hnode as [Hin%elem_of_seqZ Hmin].
    assert (Hr : 0 <= node < nodes) by lia.
    split; [eapply placing_step; eauto|].
    destruct Hp as [Hl _ _ Hld].
    intros i j Hi Hj.
    assert (Hmn : forall k, 0 <= k < nodes -> ix load node <= ix load k).
    { intros k Hk. apply Hmin, elem_of_seqZ. lia. }
    assert (Hwrap : u64 (ix load node + weight_of weights e) = ix load node + weight_of weights e).
    { destruct (order_split nodes experts weights Hn He Hw Hsum _ _ _ Ho) as (_ & _ & _ & Hs & _).
      pose proof (placed_le (weight_of weights) tbl done node Hnn). rewrite <- Hld in * by lia.
      apply wrap_id. specialize (Hnn e).
      assert (0 <= ix load node); [|mlia]. rewrite Hld by lia.
      apply sumZ_nonneg, Forall_forall. intros x (y & -> & _)%list_elem_of_fmap.
      apply weight_of_nonneg. done. }
    pose proof (HB e). pose proof (Hnn e). pose proof (Hmn j Hj). pose proof (Hmn i Hi).
    pose proof (Hlev i j Hi Hj). pose proof (Hlev i node Hi Hr).
    destruct (decide (i = node)) as [->|]; destruct (decide (j = node)) as [->|];
      rewrite ?Hwrap, ?ix_set_eq, ?ix_set_ne by lia; lia.
Qed.
End Balanced.

(** [balanced] assigns every expert to exactly one existing node, and the
    greedy longest-processing-time rule keeps the traffic level: the weights
    reported by [node_weights] for any two nodes differ by at most the weight
    of one expert. *)
Theorem balanced_level nodes experts weights B :
  2 <= nodes < 2 ^ 32 -> 1 <= experts < 2 ^ 32 -> Forall is_u64 weights ->
  sumZ (map (weight_of weights) (seqZ 0 experts)) < 2 ^ 64 ->
  (forall e, weight_of weights e <= B) ->
  exists s ws, balanced nodes experts weights = Some s /\
    (forall e, 0 <= e < experts -> exists n, owner s e = Some n /\ 0 <= n < nodes) /\
    node_weights s weights = Some ws /\
    (forall i j, 0 <= i < nodes -> 0 <= j < nodes -> ix ws i <= ix ws j + B).
Proof.
  intros Hn He Hw Hs HB.
  destruct (balanced_loop nodes experts weights ltac:(lia) He Hw Hs B HB)
    as ([load tbl] & Hf & Hp & Hlev). simpl in *.
  apply (placing_perm _ _ _ _ (seqZ 0 experts)) in Hp; [|apply order_perm].
  destruct (node_weights_placed nodes experts weights ltac:(lia) He Hw Hs load tbl Hp)
    as (ws & Hnw & Hlen & Hix).
  exists (sharded nodes experts tbl), ws. split_and!; [| |done|].
  - unfold balanced. rewrite !(proj2 (Z.leb_le _ _)) by lia. rewrite (proj2 (Z.eqb_neq _ _)) by lia.
    fold (order experts weights). by rewrite Hf.
  - intros e Her. apply (pl_range _ _ _ _ _ _ Hp). apply elem_of_seqZ. lia.
  - intros i j Hi Hj. rewrite !Hix, <- !(pl_load _ _ _ _ _ _ Hp) by done. by apply Hlev.
Qed.

Lemma balanced_level_witness :
  exists s ws, balanced 2 4 [5; 9; 1; 4] = Some s /\
    (forall e, 0 <= e < 4 -> exists n, owner s e = Some n /\ 0 <= n < 2) /\
    node_weights s [5; 9; 1; 4] = Some ws /\
    (forall i j, 0 <= i < 2 -> 0 <= j < 2 -> ix ws i <= ix ws j + 9).
Proof.
  apply (balanced_level 2 4 [5; 9; 1; 4] 9); [lia|lia|repeat constructor; mlia|vm_compute; done|].
  intros e. unfold weight_of.
  destruct (Z.to_nat e) as [|[|[|[|k]]]]; simpl; lia.
Defined.

(** ** Largest-remainder quotas *)

Section Quotas.
Local Set Default Proof Using "All".
Variables (nodes experts : Z) (capacity : list Z).
Hypothesis Hn : 1 <= nodes < 2 ^ 32.
Hypothesis He : 1 <= experts < 2 ^ 32.
Hypothesis Hc : Forall is_u64 capacity.
Abbreviation total := (total_capacity nodes capacity).
Hypothesis Ht : total <> 0.

Definition share_floor (n : Z) : Z := weight_of capacity n * experts / total.
Definition share_rem (n : Z) : Z := weight_of capacity n * experts mod total.

Lemma total_pos : 0 < total.
Proof.
  assert (0 <= total); [|lia]. apply sumZ_nonneg, Forall_forall.
  intros x (y & -> & _)%list_elem_of_fmap. by apply weight_of_nonneg.
Qed.

Lemma share_rem_bound n : 0 <= share_rem n < total.
Proof. apply Z.mod_pos_bound, total_pos. Qed.

Lemma share_floor_nonneg n : 0 <= share_floor n.
Proof.
  apply Z.div_pos; [|apply total_pos]. pose proof (weight_of_nonneg capacity Hc n). nia.
Qed.

(** The shares add up: floors and remainders account for every expert. *)
Lemma share_sum :
  total * sumZ (map share_floor (seqZ 0 nodes)) + sumZ (map share_rem (seqZ 0 nodes))
  = total * experts.
Proof.
  rewrite <- sumZ_map_scale, <- sumZ_map_add. transitivity (experts * total); [|lia].
  change (experts * total) with (experts * sumZ (map (weight_of capacity) (seqZ 0 nodes))).
  rewrite <- sumZ_map_scale. apply sumZ_map_ext. intros n _. unfold share_floor, share_rem.
  pose proof (Z.div_mod (weight_of capacity n * experts) total ltac:(auto)). lia.
Qed.

Definition leftover : Z := experts - sumZ (map share_floor (seqZ 0 nodes)).

Lemma rem_sum : sumZ (map share_rem (seqZ 0 nodes)) = total * leftover.
Proof. unfold leftover. pose proof share_sum. lia. Qed.

Lemma leftover_bound : 0 <= leftover < nodes.
Proof.
  pose proof rem_sum as Hr. pose proof total_pos.
  assert (0 <= sumZ (map share_rem (seqZ 0 nodes))).
  { apply sumZ_nonneg, Forall_forall. intros x (y & -> & _)%list_elem_of_fmap.
    apply share_rem_bound. }
  assert (sumZ (map share_rem (seqZ 0 nodes)) <= sumZ (map (fun _ => total - 1) (seqZ 0 nodes))).
  { apply sumZ_map_le. intros n _. pose proof (share_rem_bound n). lia. }
  assert (Hconst : forall c m, 0 <= m -> sumZ (map (fun _ => c) (seqZ 0 m)) = c * m).
  { intros c m Hm. pattern m. apply natlike_ind; [by rewrite Z.mul_0_r| |done].
    intros k Hk IHk.
    rewrite <- Z.add_1_r, seqZ_app, map_app, sumZ_app, IHk by lia. simpl.
    change (seqZ (0 + k) 1) with [0 + k]. simpl. lia. }
  rewrite Hconst in * by lia. nia.
Qed.

Lemma share_floor_le n : 0 <= n < nodes ->
  share_floor n <= sumZ (map share_floor (seqZ 0 nodes)).
Proof.
  intros H. apply sumZ_elem_le.
  - apply Forall_forall. intros x (y & -> & _)%list_elem_of_fmap. apply share_floor_nonneg.
  - apply list_elem_of_fmap. exists n. rewrite elem_of_seqZ. lia.
Qed.

Lemma share_floor_sum_le k : 0 <= k <= nodes ->
  0 <= sumZ (map share_floor (seqZ 0 k)) <= experts.
Proof.
  intros H. pose proof leftover_bound as Hl. unfold leftover in Hl.
  replace nodes with (k + (nodes - k)) in Hl by lia.
  rewrite seqZ_app, map_app, sumZ_app in Hl by lia.
  assert (Hnn : forall l, 0 <= sumZ (map share_floor l)).
  { intros l. apply sumZ_nonneg, Forall_forall. intros x (y & -> & _)%list_elem_of_fmap.
    apply share_floor_nonneg. }
  pose proof (Hnn (seqZ 0 k)). pose proof (Hnn (seqZ (0 + k) (nodes - k))). lia.
Qed.

Lemma quota_loop k : 0 <= k <= nodes ->
  exists quota,
    fold_left (quota_step experts total capacity) (seqZ 0 k)
      (replicate (Z.to_nat nodes) 0, [], 0)
    = (quota, map (fun n => (share_rem n, n)) (seqZ 0 k), sumZ (map share_floor (seqZ 0 k))) /\
    Z.of_nat (length quota) = nodes /\ forall n, 0 <= n < k -> ix quota n = share_floor n.
Proof.
  intros [Hk Hkn]. revert Hkn. pattern k. apply natlike_ind; [| |done].
  - intros _. exists (replicate (Z.to_nat nodes) 0). rewrite length_replicate.
    split_and!; [done|lia|lia].
  - intros m Hm IHm Hmn. rewrite <- Z.add_1_r.
    destruct IHm as (quota & Hf & Hl & Hq); [lia|].
    rewrite seqZ_app by lia. change (seqZ (0 + m) 1) with [m].
    rewrite fold_left_app, Hf. cbn [fold_left]. unfold quota_step. fold (share_floor m) (share_rem m).
    pose proof (share_floor_le m ltac:(lia)). pose proof (share_floor_nonneg m).
    pose proof (share_floor_sum_le m ltac:(lia)).
    pose proof (share_floor_sum_le (m + 1) ltac:(lia)) as Hs1.
    pose proof (share_floor_sum_le nodes ltac:(lia)).
    rewrite seqZ_app, map_app, sumZ_app in Hs1 by lia.
    change (seqZ (0 + m) 1) with [m] in Hs1. simpl in Hs1.
    rewrite (wrap_id 32 (share_floor m)) by mlia. rewrite wrap_id by mlia.
    eexists. split_and!.
    + f_equal; [by rewrite map_app|]. rewrite map_app, sumZ_app. simpl. lia.
    + rewrite length_set_ix. done.
    + intros n Hr. destruct (decide (n = m)) as [->|].
      * by rewrite ix_set_eq by lia.
      * rewrite ix_set_ne by lia. apply Hq. lia.
Qed.
End Quotas.

Section QuotaTotal.
Local Set Default Proof Using "All".
Variables (nodes experts : Z) (capacity : list Z).
Hypothesis Hn : 1 <= nodes < 2 ^ 32.
Hypothesis He : 1 <= experts < 2 ^ 32.
Hypothesis Hc : Forall is_u64 capacity.
Hypothesis Ht : total_capacity nodes capacity <> 0.
Abbreviation total := (total_capacity nodes capacity).
Abbreviation floor := (share_floor nodes experts capacity).
Abbreviation remainder := (share_rem nodes experts capacity).
Abbreviation extra := (leftover nodes experts capacity).

Definition ranked_rems : list (Z * Z) :=
  sort_by bigger_rem_first (map (fun n => (remainder n, n)) (seqZ 0 nodes)).

(** The nodes that receive one of the leftover experts. *)
Definition lucky : list Z := map snd (take (Z.to_nat extra) ranked_rems).

Lemma ranked_rems_perm : ranked_rems ≡ₚ map (fun n => (remainder n, n)) (seqZ 0 nodes).
Proof. apply sort_by_perm. Qed.

Lemma ranked_nodes_perm : map snd ranked_rems ≡ₚ seqZ 0 nodes.
Proof.
  rewrite ranked_rems_perm, map_map. simpl. by rewrite map_id.
Qed.

Lemma ranked_rem_of m n : (m, n) ∈ ranked_rems -> m = remainder n.
Proof. rewrite ranked_rems_perm. intros (k & [= -> ->] & _)%list_elem_of_fmap. done. Qed.

Lemma ranked_sorted : StronglySorted (fun x y => y <= x) (map fst ranked_rems).
Proof.
  assert (H : StronglySorted (fun x y => bigger_rem_first x y = true) ranked_rems).
  { apply sort_by_sorted; unfold bigger_rem_first.
    - intros x y. destruct (Z.ltb_spec y.1 x.1), (Z.ltb_spec x.1 y.1), (Z.eqb_spec y.1 x.1),
        (Z.eqb_spec x.1 y.1); simpl; try done; lia.
    - intros x y z. rewrite !orb_true_iff, !andb_true_iff, !Z.ltb_lt, !Z.eqb_eq, !Z.leb_le. lia. }
  induction H as [|x l Hs IH Hx]; simpl; constructor; [done|].
  apply Forall_map. eapply Forall_impl; [exact Hx|]. intros y. unfold bigger_rem_first.
  rewrite orb_true_iff, andb_true_iff, Z.ltb_lt, Z.eqb_eq. lia.
Qed.

Lemma lucky_nodup : NoDup lucky.
Proof.
  unfold lucky. rewrite fmap_take.
  apply (NoDup_app (take (Z.to_nat extra) (map snd ranked_rems)) (drop (Z.to_nat extra) (map snd ranked_rems))).
  rewrite take_drop, ranked_nodes_perm. apply NoDup_seqZ.
Qed.

Lemma lucky_length : Z.of_nat (length lucky) = extra.
Proof.
  pose proof (leftover_bound nodes experts capacity Hn He Hc Ht).
  unfold lucky. rewrite length_map, length_take.
  pose proof (Permutation_length ranked_nodes_perm) as Hl.
  rewrite length_map, length_seqZ in Hl. lia.
Qed.

Lemma lucky_spec n : n ∈ lucky -> 0 <= n < nodes /\ 0 < remainder n.
Proof.
  intros Hin. split.
  - assert (n ∈ map snd ranked_rems) as H.
    { unfold lucky in Hin. rewrite fmap_take in Hin. by eapply elem_of_take_1. }
    rewrite ranked_nodes_perm, elem_of_seqZ in H. lia.
  - apply list_elem_of_fmap in Hin as ([m n'] & -> & Hin). simpl.
    rewrite <- (ranked_rem_of m n') by (by eapply elem_of_take_1).
    assert (Hp : Forall (fun x => 0 < x) (take (Z.to_nat extra) (map fst ranked_rems))).
    { apply (desc_prefix_pos _ total).
      - exact (total_pos nodes experts capacity Hn He Hc Ht).
      - apply ranked_sorted.
      - rewrite ranked_rems_perm, map_map. apply Forall_forall. simpl.
        intros x (y & -> & _)%list_elem_of_fmap. by apply share_rem_bound.
      - rewrite ranked_rems_perm, map_map. by apply rem_sum. }
    rewrite <- fmap_take, Forall_forall in Hp. apply (Hp m), list_elem_of_fmap. by exists (m, n').
Qed.

Lemma bump_fold l quota :
  NoDup l -> Forall (fun n => 0 <= n < Z.of_nat (length quota) /\ 0 <= ix quota n < 2 ^ 32 - 1) l ->
  let q := fold_left (fun quota r => set_ix quota r (u32 (ix quota r + 1))) l quota in
  length q = length quota /\
  forall n, 0 <= n < Z.of_nat (length quota) -> ix q n = ix quota n + (if decide (n ∈ l) then 1 else 0).
Proof.
  revert quota. induction l as [|m l IH]; intros quota Hnd Hf; cbn [fold_left].
  - split; [done|]. intros n _. case_decide; [set_solver|]. lia.
  - apply NoDup_cons in Hnd as [Hm Hnd]. apply Forall_cons in Hf as [Hfm Hf].
    rewrite wrap_id by mlia.
    destruct (IH (set_ix quota m (ix quota m + 1))) as [Hl Hq]; [done| |].
    { apply Forall_forall. intros n Hnl. rewrite Forall_forall in Hf. specialize (Hf n Hnl).
      rewrite length_set_ix. assert (n <> m) by (intros ->; done). rewrite ix_set_ne by lia. done. }
    rewrite length_set_ix in Hl, Hq. split; [done|]. intros n Hnr. rewrite Hq by done.
    destruct (decide (n = m)) as [->|Hnm].
    + rewrite ix_set_eq by lia. rewrite decide_False, decide_True by set_solver. lia.
    + rewrite ix_set_ne by lia. f_equal. do 2 case_decide; set_solver.
Qed.

(** Every quota is the floor of the exact share, or one more on a lucky node. *)
Lemma quotas_spec :
  Z.of_nat (length (quotas nodes experts total capacity)) = nodes /\
  forall n, 0 <= n < nodes ->
    ix (quotas nodes experts total capacity) n = floor n + (if decide (n ∈ lucky) then 1 else 0).
Proof.
  unfold quotas.
  destruct (quota_loop nodes experts capacity Hn He Hc Ht nodes ltac:(lia)) as (q & -> & Hl & Hq).
  fold ranked_rems.
  pose proof (leftover_bound nodes experts capacity Hn He Hc Ht) as Hlb.
  change (experts - sumZ (map floor (seqZ 0 nodes))) with extra.
  rewrite wrap_id by mlia.
  assert (Hfm : forall l q0,
    fold_left (fun quota r => set_ix quota r.2 (u32 (ix quota r.2 + 1))) l q0
    = fold_left (fun quota r => set_ix quota r (u32 (ix quota r + 1))) (map (@snd Z Z) l) q0).
  { intros l. induction l as [|[a b] l IHl]; intros q0; simpl; [done|]. apply IHl. }
  rewrite Hfm. fold lucky.
  destruct (bump_fold lucky q) as [H1 H2]; [apply lucky_nodup| |].
  - apply Forall_forall. intros n Hin. pose proof (lucky_length) as Hll.
    assert (0 < length lucky)%nat by (destruct lucky; [set_solver|simpl; lia]).
    apply lucky_spec in Hin as [Hr _]. rewrite Hq by done.
    pose proof (share_floor_nonneg nodes experts capacity Hn He Hc Ht n).
    pose proof (share_floor_le nodes experts capacity Hn He Hc Ht n Hr).
    unfold leftover in *. lia.
  - rewrite H1. split; [done|]. intros n Hr. rewrite H2, Hq by lia. done.
Qed.

Lemma quotas_sum : sumZ (quotas nodes experts total capacity) = experts.
Proof.
  destruct quotas_spec as [Hl Hq]. rewrite <- sumZ_ix, Hl.
  rewrite (sumZ_map_ext _ (fun n => floor n + (if decide (n ∈ lucky) then 1 else 0))).
  2:{ intros n Hr%elem_of_seqZ. apply Hq. lia. }
  rewrite sumZ_map_add.
  assert (Hcount : forall l k : list Z, NoDup k -> (forall x, x ∈ k -> x ∈ l) -> NoDup l ->
    sumZ (map (fun n => if decide (n ∈ k) then 1 else 0) l) = Z.of_nat (length k)).
  { clear. intros l k Hk Hsub Hl.
    assert (Hp : filter (.∈ k) l ≡ₚ k).
    { apply NoDup_Permutation; [by apply NoDup_filter|done|]. intros x.
      rewrite list_elem_of_filter. naive_solver. }
    rewrite <- Hp. clear. induction l as [|x l IHl]; simpl; [done|].
    rewrite filter_cons. case_decide; simpl; lia. }
  rewrite (Hcount _ lucky lucky_nodup); [|intros x [Hx _]%lucky_spec; apply elem_of_seqZ; lia|apply NoDup_seqZ].
  rewrite lucky_length. unfold leftover. lia.
Qed.
End QuotaTotal.

Section CapacityLoop.
Local Set Default Proof Using "All".
Variables (nodes experts : Z) (quota weights : list Z).
Hypothesis Hn : 1 <= nodes < 2 ^ 32.
Hypothesis He : 1 <= experts < 2 ^ 32.
Hypothesis Hw : Forall is_u64 weights.
Hypothesis Hsum : sumZ (map (weight_of weights) (seqZ 0 experts)) < 2 ^ 64.
Hypothesis Hq : sumZ (map (ix quota) (seqZ 0 nodes)) = experts.
Hypothesis Hq0 : forall n, 0 <= n < nodes -> 0 <= ix quota n.

Abbreviation one := (fun _ : Z => 1).

Definition within (done used tbl : list Z) : Prop :=
  Z.of_nat (length used) = nodes /\
  forall n, 0 <= n < nodes -> ix used n = placed one tbl done n /\ ix used n <= ix quota n.

(** A node under quota exists as long as an expert is left to place. *)
Lemma under_quota done load used tbl :
  placing nodes experts weights done load tbl -> within done used tbl ->
  Z.of_nat (length done) < experts ->
  exists n, n ∈ filter (fun i => ix used i < ix quota i) (seqZ 0 nodes).
Proof.
  intros [_ _ Hr _] [_ Hu] Hlt.
  destruct (filter (fun i => ix used i < ix quota i) (seqZ 0 nodes)) as [|n l] eqn:E;
    [|exists n; set_solver].
  exfalso.
  assert (Hge : sumZ (map (ix quota) (seqZ 0 nodes)) <= sumZ (map (placed one tbl done) (seqZ 0 nodes))).
  { apply sumZ_map_le. intros n Hin. pose proof Hin as Hin'. apply elem_of_seqZ in Hin'.
    destruct (Hu n ltac:(lia)) as [<- _].
    destruct (decide (ix used n < ix quota n)) as [Hc|]; [|lia].
    assert (n ∈ @nil Z); [|set_solver]. rewrite <- E. by apply list_elem_of_filter. }
  rewrite (placed_total one tbl done nodes) in Hge by (try lia; exact Hr).
  assert (Hone : forall l : list Z, sumZ (map one l) = Z.of_nat (length l))
    by (intros l; induction l; simpl; lia).
  rewrite Hone in Hge. lia.
Qed.

Lemma capacity_loop :
  exists st, fold_left (capacity_step nodes quota weights) (order experts weights)
      (Some (replicate (Z.to_nat nodes) 0, replicate (Z.to_nat nodes) 0,
             replicate (Z.to_nat experts) 0)) = Some st /\
    placing nodes experts weights (order experts weights) st.1.1 st.2 /\
    within (order experts weights) st.1.2 st.2.
Proof.
  apply (fold_left_inv _ (fun done st => placing nodes experts weights done st.1.1 st.2 /\
    within done st.1.2 st.2)).
  - split; [by apply placing_init|]. split; simpl; [rewrite length_replicate; lia|].
    intros n Hr. rewrite ix_replicate. split; [done|]. by apply Hq0.
  - intros done e rest [[load used] tbl] Ho [Hp Hu]. simpl in *.
    destruct (order_split nodes experts weights Hn He Hw Hsum _ _ _ Ho)
      as (He1 & He2 & Hd & _ & Hlen).
    destruct (under_quota done load used tbl Hp Hu ltac:(lia)) as [n0 Hn0].
    destruct (min_by_is_Some (lighter_first load) _ n0 Hn0) as [node Hnode].
    rewrite Hnode. eexists. split; [done|]. simpl.
    apply lighter_first_spec in Hnode as [[Hlt Hin]%list_elem_of_filter _].
    apply elem_of_seqZ in Hin.
    split; [eapply placing_step; eauto; lia|].
    destruct Hp as [_ Htl _ _]. destruct Hu as [Hul Hu].
    split; [by rewrite length_set_ix|]. intros n Hr.
    rewrite (wrap_id 32 node) by mlia.
    rewrite placed_snoc.
    2:{ done. } 2:{ eapply Forall_impl; [exact Hd|]. simpl. lia. } 2:{ lia. }
    destruct (Hu n Hr) as [Hu1 Hu2]. destruct (Hu node ltac:(lia)) as [Hu3 Hu4].
    pose proof (placed_one_bound tbl done node).
    case_decide as Hc.
    + subst n. rewrite ix_set_eq by lia. rewrite wrap_id by mlia. lia.
    + rewrite ix_set_ne by lia. lia.
Qed.

(** When every expert is placed, every node has exactly its quota. *)
Lemma filled_up load used tbl :
  placing nodes experts weights (seqZ 0 experts) load tbl -> within (seqZ 0 experts) used tbl ->
  forall n, 0 <= n < nodes -> placed one tbl (seqZ 0 experts) n = ix quota n.
Proof.
  intros [_ _ Hr _] [_ Hu] n Hn'.
  pose proof (placed_total one tbl (seqZ 0 experts) nodes ltac:(lia) Hr) as Hp.
  assert (Hone : forall l : list Z, sumZ (map one l) = Z.of_nat (length l))
    by (intros l; induction l; simpl; lia).
  rewrite Hone, length_seqZ, Z2Nat.id in Hp by lia.
  assert (Hall : Forall (fun m => ix quota m - placed one tbl (seqZ 0 experts) m = 0) (seqZ 0 nodes)).
  { apply sumZ_zero_all.
    - intros m Hm%elem_of_seqZ. destruct (Hu m ltac:(lia)). lia.
    - rewrite (sumZ_map_ext _ (fun m => ix quota m + - 1 * placed one tbl (seqZ 0 experts) m)) by (intros; lia).
      rewrite sumZ_map_add, sumZ_map_scale, Hq, Hp. lia. }
  rewrite Forall_forall in Hall. specialize (Hall n ltac:(apply elem_of_seqZ; lia)). simpl in Hall. lia.
Qed.
End CapacityLoop.

Lemma count_for_placed nodes experts tbl n :
  0 <= experts < 2 ^ 32 ->
  count_for (sharded nodes experts tbl) n = placed (fun _ => 1) tbl (seqZ 0 experts) n.
Proof.
  intros He. rewrite placed_one. unfold count_for, local_experts; simpl. apply wrap_id.
  pose proof (length_filter (on_node tbl n) (seqZ 0 experts)) as Hl.
  rewrite length_seqZ in Hl. unfold on_node in Hl at 1. unfold owner; simpl.
  unfold in_u. split; [lia|].
  apply Z.le_lt_trans with (Z.of_nat (Z.to_nat experts)); [|lia]. apply Nat2Z.inj_le, Hl.
Qed.

(** [capacity_weighted] always succeeds: it assigns every expert to exactly
    one existing node, the counts add up to [experts], each count is within one
    of the node's exact proportional share, and a node without capacity owns
    nothing. *)
Theorem capacity_weighted_quotas nodes experts capacity weights :
  2 <= nodes < 2 ^ 32 -> 1 <= experts < 2 ^ 32 ->
  Forall is_u64 capacity -> Forall is_u64 weights ->
  sumZ (map (weight_of weights) (seqZ 0 experts)) < 2 ^ 64 ->
  total_capacity nodes capacity <> 0 ->
  exists s, capacity_weighted nodes experts capacity weights = Some s /\
    (forall e, 0 <= e < experts -> exists n, owner s e = Some n /\ 0 <= n < nodes) /\
    sumZ (map (count_for s) (seqZ 0 nodes)) = experts /\
    (forall n, 0 <= n < nodes ->
       Z.abs (total_capacity nodes capacity * count_for s n - weight_of capacity n * experts)
         < total_capacity nodes capacity /\
       (weight_of capacity n = 0 -> count_for s n = 0)).
Proof.
  intros Hn He Hc Hw Hs Ht. set (total := total_capacity nodes capacity) in *.
  set (quota := quotas nodes experts total capacity).
  destruct (quotas_spec nodes experts capacity ltac:(lia) He Hc Ht) as [Hql Hq]. fold total quota in Hql, Hq.
  pose proof (quotas_sum nodes experts capacity ltac:(lia) He Hc Ht) as Hqs. fold total quota in Hqs.
  assert (Hqs' : sumZ (map (ix quota) (seqZ 0 nodes)) = experts) by (rewrite <- Hql at 1; by rewrite sumZ_ix).
  assert (Hq0 : forall n, 0 <= n < nodes -> 0 <= ix quota n).
  { intros n Hr. rewrite Hq by done.
    pose proof (share_floor_nonneg nodes experts capacity ltac:(lia) He Hc Ht n). case_decide; lia. }
  destruct (capacity_loop nodes experts quota weights ltac:(lia) He Hw Hs Hqs' Hq0)
    as ([[load used] tbl] & Hf & Hp & Hu). simpl in *.
  apply (placing_perm _ _ _ _ (seqZ 0 experts)) in Hp; [|apply order_perm].
  assert (Hu' : within nodes quota (seqZ 0 experts) used tbl).
  { destruct Hu as [Hu1 Hu2]. split; [done|]. intros n Hr. destruct (Hu2 n Hr) as [Ha Hb].
    rewrite <- (placed_perm _ _ (order experts weights)) by apply order_perm. done. }
  assert (Hcount : forall n, 0 <= n < nodes -> count_for (sharded nodes experts tbl) n = ix quota n).
  { intros n Hr. rewrite count_for_placed by lia.
    exact (filled_up nodes experts quota weights ltac:(lia) He Hw Hs Hqs' Hq0 load used tbl Hp Hu' n Hr). }
  exists (sharded nodes experts tbl). split_and!.
  - unfold capacity_weighted. rewrite !(proj2 (Z.leb_le _ _)) by lia. fold total quota.
    rewrite !(proj2 (Z.eqb_neq _ _)) by lia. cbn [orb andb]. fold (order experts weights).
    by rewrite Hf.
  - intros e Her. apply (pl_range _ _ _ _ _ _ Hp). apply elem_of_seqZ. lia.
  - rewrite (sumZ_map_ext _ (ix quota)); [done|]. intros n Hr%elem_of_seqZ. apply Hcount. lia.
  - intros n Hr. rewrite Hcount, Hq by done.
    pose proof (share_rem_bound nodes experts capacity ltac:(lia) He Hc Ht n) as Hrem.
    assert (Hdm : weight_of capacity n * experts
      = total * share_floor nodes experts capacity n + share_rem nodes experts capacity n)
      by (apply Z.div_mod, Ht).
    fold total in Hrem.
    split; [|intros H0].
    + case_decide as Hl; [|lia].
      apply (lucky_spec nodes experts capacity ltac:(lia) He Hc Ht) in Hl as [_ Hpos]. lia.
    + rewrite H0, Z.mul_0_l in Hdm.
      assert (Hfr : share_floor nodes experts capacity n = 0 /\ share_rem nodes experts capacity n = 0).
      { unfold share_floor, share_rem. by rewrite H0, Z.mul_0_l, Z.div_0_l, Z.mod_0_l. }
      destruct Hfr as [-> Hr0]. case_decide as Hl; [|lia].
      apply (lucky_spec nodes experts capacity ltac:(lia) He Hc Ht) in Hl as [_ Hpos]. lia.
Qed.

Lemma capacity_weighted_quotas_witness :
  exists s, capacity_weighted 3 7 [5; 0; 1] [] = Some s /\
    sumZ (map (count_for s) (seqZ 0 3)) = 7 /\ count_for s 1 = 0.
Proof.
  destruct (capacity_weighted_quotas 3 7 [5; 0; 1] []) as (s & H1 & _ & H2 & H3);
    [lia|lia|repeat constructor; mlia|constructor|vm_compute; done|vm_compute; done|].
  exists s. split; [done|]. split; [done|]. apply (H3 1); [lia|done].
Defined.

(** The experts left over after the floors go to the nodes the floor
    short-changed most: a node that received one never has a smaller
    remainder than a node that did not. *)
Theorem leftover_to_largest_remainder nodes experts capacity n m :
  1 <= nodes < 2 ^ 32 -> 1 <= experts < 2 ^ 32 -> Forall is_u64 capacity ->
  let total := total_capacity nodes capacity in
  let quota := quotas nodes experts total capacity in
  total <> 0 -> 0 <= n < nodes -> 0 <= m < nodes ->
  weight_of capacity n * experts / total < ix quota n ->
  ix quota m <= weight_of capacity m * experts / total ->
  weight_of capacity m * experts mod total <= weight_of capacity n * experts mod total.
Proof.
  intros Hn He Hc total quota Ht Hnr Hmr Hlt Hge.
  destruct (quotas_spec nodes experts capacity Hn He Hc Ht) as [_ Hq].
  subst quota total. rewrite Hq in Hlt, Hge by done.
  fold (share_floor nodes experts capacity n) in Hlt. fold (share_floor nodes experts capacity m) in Hge.
  fold (share_rem nodes experts capacity n) (share_rem nodes experts capacity m).
  destruct (decide (n ∈ lucky nodes experts capacity)) as [Hl1|]; [|lia].
  destruct (decide (m ∈ lucky nodes experts capacity)) as [|Hl2]; [lia|].
  pose proof (ranked_sorted nodes experts capacity Hn He Hc Ht) as Hs.
  set (k := Z.to_nat (leftover nodes experts capacity)) in *.
  set (rs := ranked_rems nodes experts capacity) in *.
  assert (Hm : (share_rem nodes experts capacity m, m) ∈ drop k rs).
  { assert (Hin : (share_rem nodes experts capacity m, m) ∈ rs).
    { unfold rs. rewrite (ranked_rems_perm nodes experts capacity Hn He Hc Ht).
      apply list_elem_of_fmap. exists m. rewrite elem_of_seqZ. split; [done|lia]. }
    rewrite <- (take_drop k rs), elem_of_app in Hin. destruct Hin as [Hin|]; [|done].
    destruct Hl2. apply list_elem_of_fmap. by eexists (_, m). }
  apply list_elem_of_fmap in Hl1 as ([r n'] & -> & Hin). simpl in *.
  assert (r = share_rem nodes experts capacity n') as ->.
  { apply (ranked_rem_of nodes experts capacity Hn He Hc Ht). by eapply elem_of_take_1. }
  rewrite <- (take_drop k rs), map_app in Hs.
  apply (StronglySorted_app_cross _ _ _ _ _ Hs).
  - apply list_elem_of_fmap. by eexists (_, n').
  - apply list_elem_of_fmap. by eexists (_, m).
Qed.

Lemma leftover_to_largest_remainder_witness :
  weight_of [2; 1] 1 * 4 mod 3 <= weight_of [2; 1] 0 * 4 mod 3.
Proof.
  apply (leftover_to_largest_remainder 2 4 [2; 1] 0 1);
    [lia|lia|repeat constructor; mlia|vm_compute; done|lia|lia|vm_compute; done|vm_compute; done].
Defined.

(** ** The fingerprint *)

Lemma fnv_byte_in h b : is_u64 (fnv_byte h b).
Proof. apply wrap_in. lia. Qed.

(** The FNV prime is odd, hence invertible modulo [2^64]. *)
Lemma fnv_prime_cancel x y :
  is_u64 x -> is_u64 y -> u64 (x * 1099511628211) = u64 (y * 1099511628211) -> x = y.
Proof.
  intros Hx Hy H. unfold wrap in H.
  assert (Hi : forall z, is_u64 z -> z = (z * 1099511628211) mod 2 ^ 64 * 14886173955864302971 mod 2 ^ 64).
  { intros z Hz. rewrite Zmult_mod_idemp_l, <- Z.mul_assoc, Z.mul_mod by lia.
    change (1099511628211 * 14886173955864302971 mod 2 ^ 64) with 1.
    rewrite Z.mul_1_r, Z.mod_mod, Z.mod_small; [done|exact Hz|lia]. }
  rewrite (Hi x Hx), (Hi y Hy), H. done.
Qed.

Lemma fnv_byte_inj_state h h' b :
  is_u64 h -> is_u64 h' -> is_u64 b -> fnv_byte h b = fnv_byte h' b -> h = h'.
Proof.
  intros Hh Hh' Hb H. apply fnv_prime_cancel in H; [|by apply lxor_in..].
  by eapply lxor_inj_l.
Qed.

Lemma fnv_byte_inj_byte h b b' :
  is_u64 h -> is_u64 b -> is_u64 b' -> fnv_byte h b = fnv_byte h b' -> b = b'.
Proof.
  intros Hh Hb Hb' H. apply fnv_prime_cancel in H; [|by apply lxor_in..].
  rewrite !(Z.lxor_comm h) in H. by eapply lxor_inj_l.
Qed.

Lemma to_le_bytes_in n x b : b ∈ to_le_bytes n x -> is_u64 b.
Proof.
  intros H. pose proof (to_le_bytes_u8 n x) as Hf. rewrite Forall_forall in Hf.
  specialize (Hf b H). simpl in Hf. mlia.
Qed.

Lemma fnv_fold_inj l h h' :
  (forall b, b ∈ l -> is_u64 b) -> is_u64 h -> is_u64 h' ->
  fold_left fnv_byte l h = fold_left fnv_byte l h' -> h = h'.
Proof.
  revert h h'. induction l as [|b l IH]; intros h h' Hl Hh Hh' H; [done|]. simpl in H.
  apply IH in H; [|set_solver|apply fnv_byte_in..].
  apply fnv_byte_inj_state in H; [done..|]. apply Hl. set_solver.
Qed.

Lemma fnv_mix_in h x : is_u64 (fnv_mix h x).
Proof. unfold fnv_mix, to_le_bytes. simpl. apply fnv_byte_in. Qed.

Lemma fnv_mix_inj_state h h' x : is_u64 h -> is_u64 h' -> fnv_mix h x = fnv_mix h' x -> h = h'.
Proof. intros. eapply fnv_fold_inj; eauto. apply to_le_bytes_in. Qed.

Lemma fnv_mix_inj_small h x y :
  is_u64 h -> is_u8 x -> is_u8 y -> fnv_mix h x = fnv_mix h y -> x = y.
Proof.
  intros Hh Hx Hy H.
  assert (Hb : forall z, is_u8 z -> to_le_bytes 4 z = [z; 0; 0; 0]).
  { intros z Hz. cbn [to_le_bytes]. rewrite Z.mod_small by mlia.
    rewrite (Z.div_small z) by mlia. done. }
  unfold fnv_mix in H. rewrite !Hb in H by done. simpl in H.
  apply (fnv_fold_inj [0; 0; 0]) in H; [|set_solver by mlia|apply fnv_byte_in..].
  apply fnv_byte_inj_byte in H; [done|done|mlia|mlia].
Qed.

(** Two maps that disagree on the owner of exactly one expert never have
    the same fingerprint (for clusters of at most 256 nodes, where an owner is
    one byte): a single misassigned expert is always caught by the handshake. *)
Theorem fingerprint_detects_one s s' e0 a b :
  num_nodes s = num_nodes s' -> n_experts s = n_experts s' ->
  0 <= e0 < n_experts s ->
  (forall e, 0 <= e < n_experts s -> is_Some (owner s e)) ->
  (forall e, 0 <= e < n_experts s -> e <> e0 -> owner s' e = owner s e) ->
  owner s e0 = Some a -> owner s' e0 = Some b -> is_u8 a -> is_u8 b -> a <> b ->
  fingerprint s <> fingerprint s'.
Proof.
  intros Hn He Hr Hs Heq Ha Hb Ha8 Hb8 Hab. unfold fingerprint. rewrite <- Hn, <- He.
  set (E := n_experts s) in *.
  assert (Hsplit : seqZ 0 E = seqZ 0 e0 ++ e0 :: seqZ (e0 + 1) (E - e0 - 1)).
  { replace E with (e0 + (1 + (E - e0 - 1))) at 1 by lia. rewrite !seqZ_app by lia. done. }
  rewrite Hsplit, !fold_left_app.
  set (h0 := fnv_mix _ E).
  set (step := fun t => fun h e => let* h := h in let* o := owner t e in Some (fnv_mix h o)).
  fold (step s) (step s'). cbn [fold_left].
  assert (Hsame : forall l h, (forall e, e ∈ l -> 0 <= e < E /\ e <> e0) ->
    fold_left (step s') l h = fold_left (step s) l h).
  { intros l. induction l as [|e l IH]; intros h Hl; [done|]. simpl.
    destruct (Hl e ltac:(set_solver)) as [H1 H2].
    assert (step s' h e = step s h e) as -> by (unfold step; by rewrite Heq). apply IH. set_solver. }
  assert (Htot : forall l h, (forall e, e ∈ l -> 0 <= e < E) -> is_u64 h ->
    exists h', fold_left (step s) l (Some h) = Some h' /\ is_u64 h').
  { intros l. induction l as [|e l IH]; intros h Hl Hh; [by exists h|]. simpl.
    destruct (Hs e (Hl e ltac:(set_solver))) as [o ->].
    apply IH; [set_solver|apply fnv_mix_in]. }
  assert (Hinj : forall l h h', (forall e, e ∈ l -> 0 <= e < E) -> is_u64 h -> is_u64 h' ->
    fold_left (step s) l (Some h) = fold_left (step s) l (Some h') -> h = h').
  { intros l. induction l as [|e l IH]; intros h h' Hl Hh Hh' H; [by injection H|]. simpl in H.
    destruct (Hs e (Hl e ltac:(set_solver))) as [o Ho]. rewrite Ho in H.
    apply IH in H; [|set_solver|apply fnv_mix_in..]. by eapply fnv_mix_inj_state. }
  rewrite (Hsame (seqZ 0 e0)) by (intros e Hin%elem_of_seqZ; lia).
  destruct (Htot (seqZ 0 e0) h0) as (h & -> & Hh); [intros e Hin%elem_of_seqZ; lia|apply fnv_mix_in|].
  assert (step s (Some h) e0 = Some (fnv_mix h a)) as -> by (unfold step; by rewrite Ha).
  assert (step s' (Some h) e0 = Some (fnv_mix h b)) as -> by (unfold step; by rewrite Hb).
  rewrite Hsame by (intros e Hin%elem_of_seqZ; lia).
  intros H. apply Hinj in H; [|intros e Hin%elem_of_seqZ; lia|apply fnv_mix_in..].
  by apply fnv_mix_inj_small in H.
Qed.

Lemma fingerprint_detects_one_witness :
  fingerprint (sharded 2 3 [0; 1; 1]) <> fingerprint (sharded 2 3 [0; 0; 1]).
Proof.
  apply (fingerprint_detects_one _ _ 1 1 0); try reflexivity; try mlia.
  - simpl. lia.
  - simpl. intros e He. apply lookup_lt_is_Some_2. simpl. lia.
  - simpl. intros e He Hne. assert (e = 0 \/ e = 2) as [-> | ->] by lia; reflexivity.
Defined.
