(* ===== verification/Wire.v ===== *)
(** * Wire format of the expert-parallel transport
    ([crates/colibri-cluster/src/net.rs] lines 25-263, the message types of
    [transport.rs])

    Bytes are [Z] in [0, 256); an [f32] is its bit pattern (all the codec does
    is [to_le_bytes]/[from_le_bytes]); [usize] is 64-bit and wraps.  A decoder
    threads a cursor and returns [None] where the code's [?] does. *)

From S2P Require Import Prelude.
Local Open Scope Z_scope.

Definition REQ_MAGIC : Z := 1129465169.   (* 0x4352_4551 *)
Definition RSP_MAGIC : Z := 1129468752.   (* 0x4352_5350 *)
Definition AREQ_MAGIC : Z := 1128354385.  (* 0x4341_5251 *)
Definition ARSP_MAGIC : Z := 1128354384.  (* 0x4341_5250 *)
Definition HELLO_MAGIC : Z := 1128809804. (* 0x4348_454c *)
Definition HACK_MAGIC : Z := 1128808771.  (* 0x4348_4143 *)
Definition MAX_FRAME : Z := 1073741824.   (* 1 << 30 *)

(** ** Messages ([transport.rs]) *)

Record ExpertRequest := {
  er_experts : list Z; er_weights : list Z; er_activations : list Z;
  er_n_tokens : Z; er_hidden : Z; er_layer : Z }.

Record ExpertResponse := { rs_outputs : list Z; rs_n_tokens : Z; rs_hidden : Z }.

Record AttnRequest := {
  ar_activations : list Z; ar_sel : list (list Z); ar_n_tokens : Z; ar_hidden : Z;
  ar_pos_base : Z; ar_h_start : Z; ar_h_count : Z; ar_layer : Z }.

Record AttnResponse := { as_outputs : list Z; as_n_tokens : Z; as_hidden : Z }.

(** ** Encoders *)

Definition put_u32 (b : list Z) (v : Z) : list Z := b ++ to_le_bytes 4 v.
Definition put_u64 (b : list Z) (v : Z) : list Z := b ++ to_le_bytes 8 v.
Definition put_f32s (b : list Z) (v : list Z) : list Z := fold_left put_u32 v b.

(** [x.len() as u32]. *)
Definition len_u32 {A} (l : list A) : Z := u32 (Z.of_nat (length l)).

Definition encode_hello (node fingerprint : Z) : list Z :=
  put_u64 (put_u32 (put_u32 [] HELLO_MAGIC) node) fingerprint.

Definition encode_hello_ack (ok : bool) (fingerprint : Z) : list Z :=
  put_u64 (put_u32 (put_u32 [] HACK_MAGIC) (if ok then 1 else 0)) fingerprint.

Definition encode_request (r : ExpertRequest) : list Z :=
  let b := put_u32 [] REQ_MAGIC in
  let b := put_u32 b (er_layer r) in
  let b := put_u32 b (u32 (er_n_tokens r)) in
  let b := put_u32 b (u32 (er_hidden r)) in
  let b := put_u32 b (len_u32 (er_experts r)) in
  let b := put_u32 b (len_u32 (er_weights r)) in
  let b := fold_left put_u32 (er_experts r) b in
  let b := put_f32s b (er_weights r) in
  put_f32s b (er_activations r).

Definition encode_response (r : ExpertResponse) : list Z :=
  let b := put_u32 [] RSP_MAGIC in
  let b := put_u32 b (u32 (rs_n_tokens r)) in
  let b := put_u32 b (u32 (rs_hidden r)) in
  put_f32s b (rs_outputs r).

Definition encode_attn_request (r : AttnRequest) : list Z :=
  let b := put_u32 [] AREQ_MAGIC in
  let b := put_u32 b (ar_layer r) in
  let b := put_u32 b (u32 (ar_n_tokens r)) in
  let b := put_u32 b (u32 (ar_hidden r)) in
  let b := put_u32 b (ar_pos_base r) in
  let b := put_u32 b (ar_h_start r) in
  let b := put_u32 b (ar_h_count r) in
  let b := put_u32 b (len_u32 (ar_sel r)) in
  let b := fold_left (fun b q => fold_left put_u32 q (put_u32 b (len_u32 q))) (ar_sel r) b in
  put_f32s b (ar_activations r).

Definition encode_attn_response (r : AttnResponse) : list Z :=
  let b := put_u32 [] ARSP_MAGIC in
  let b := put_u32 b (u32 (as_n_tokens r)) in
  let b := put_u32 b (u32 (as_hidden r)) in
  put_f32s b (as_outputs r).

(** ** The cursor *)

Record Cur := { cur_b : list Z; cur_i : Z }.

(** [self.b.get(self.i..e)?] followed by [self.i = e]. *)
Definition cur_slice (c : Cur) (e : Z) : option (list Z * Cur) :=
  let* s := slice (cur_b c) (Z.to_nat (cur_i c)) (Z.to_nat e) in
  Some (s, {| cur_b := cur_b c; cur_i := e |}).

Definition cur_u32 (c : Cur) : option (Z * Cur) :=
  let* (s, c) := cur_slice c (u64 (cur_i c + 4)) in Some (from_le_bytes s, c).

Definition cur_u64 (c : Cur) : option (Z * Cur) :=
  let* (s, c) := cur_slice c (u64 (cur_i c + 8)) in Some (from_le_bytes s, c).

Definition cur_u32s (c : Cur) (n : Z) : option (list Z * Cur) :=
  let* (s, c) := cur_slice c (u64 (cur_i c + u64 (n * 4))) in
  Some (map from_le_bytes (chunks_exact 4 s), c).

Definition cur_f32s (c : Cur) (n : Z) : option (list Z * Cur) :=
  let* (s, c) := cur_slice c (u64 (cur_i c + u64 (n * 4))) in
  Some (map from_le_bytes (chunks_exact 4 s), c).

(** [usize::checked_mul]. *)
Definition checked_mul (a b : Z) : option Z := if a * b <? 2 ^ 64 then Some (a * b) else None.

(** ** Decoders *)

Definition expect_magic (m : Z) (b : list Z) : option Cur :=
  let* (v, c) := cur_u32 {| cur_b := b; cur_i := 0 |} in
  if v =? m then Some c else None.

Definition decode_hello (b : list Z) : option (Z * Z) :=
  let* c := expect_magic HELLO_MAGIC b in
  let* (node, c) := cur_u32 c in
  let* (fp, _) := cur_u64 c in
  Some (node, fp).

Definition decode_hello_ack (b : list Z) : option (bool * Z) :=
  let* c := expect_magic HACK_MAGIC b in
  let* (ok, c) := cur_u32 c in
  let* (fp, _) := cur_u64 c in
  Some (negb (ok =? 0), fp).

Definition decode_request (b : list Z) : option ExpertRequest :=
  let* c := expect_magic REQ_MAGIC b in
  let* (layer, c) := cur_u32 c in
  let* (n_tokens, c) := cur_u32 c in
  let* (hidden, c) := cur_u32 c in
  let* (n_experts, c) := cur_u32 c in
  let* (n_weights, c) := cur_u32 c in
  let* (experts, c) := cur_u32s c n_experts in
  let* (weights, c) := cur_f32s c n_weights in
  let* n := checked_mul n_tokens hidden in
  let* (activations, _) := cur_f32s c n in
  Some {| er_experts := experts; er_weights := weights; er_activations := activations;
          er_n_tokens := n_tokens; er_hidden := hidden; er_layer := layer |}.

Definition decode_response (b : list Z) : option ExpertResponse :=
  let* c := expect_magic RSP_MAGIC b in
  let* (n_tokens, c) := cur_u32 c in
  let* (hidden, c) := cur_u32 c in
  let* n := checked_mul n_tokens hidden in
  let* (outputs, _) := cur_f32s c n in
  Some {| rs_outputs := outputs; rs_n_tokens := n_tokens; rs_hidden := hidden |}.

(** The selection loop: a length, then that many positions, [n] times. *)
Fixpoint cur_sel (n : nat) (c : Cur) : option (list (list Z) * Cur) :=
  match n with
  | O => Some ([], c)
  | S n =>
      let* (len, c) := cur_u32 c in
      let* (q, c) := cur_u32s c len in
      let* (sel, c) := cur_sel n c in
      Some (q :: sel, c)
  end.

Definition decode_attn_request (b : list Z) : option AttnRequest :=
  let* c := expect_magic AREQ_MAGIC b in
  let* (layer, c) := cur_u32 c in
  let* (n_tokens, c) := cur_u32 c in
  let* (hidden, c) := cur_u32 c in
  let* (pos_base, c) := cur_u32 c in
  let* (h_start, c) := cur_u32 c in
  let* (h_count, c) := cur_u32 c in
  let* (n_sel, c) := cur_u32 c in
  let* (sel, c) := cur_sel (Z.to_nat n_sel) c in
  let* n := checked_mul n_tokens hidden in
  let* (activations, _) := cur_f32s c n in
  Some {| ar_activations := activations; ar_sel := sel; ar_n_tokens := n_tokens;
          ar_hidden := hidden; ar_pos_base := pos_base; ar_h_start := h_start;
          ar_h_count := h_count; ar_layer := layer |}.

Definition decode_attn_response (b : list Z) : option AttnResponse :=
  let* c := expect_magic ARSP_MAGIC b in
  let* (n_tokens, c) := cur_u32 c in
  let* (hidden, c) := cur_u32 c in
  let* n := checked_mul n_tokens hidden in
  let* (outputs, _) := cur_f32s c n in
  Some {| as_outputs := outputs; as_n_tokens := n_tokens; as_hidden := hidden |}.

(** ** Framing *)

Inductive io_error := UnexpectedEof | BrokenPipe | InvalidData (what : string) | NotFound.

(** [read_exact]: [n] bytes off the front of the stream, or end of file. *)
Definition read_exact (n : nat) (s : list Z) : io_error + list Z * list Z :=
  if decide (n <= length s)%nat then inr (take n s, drop n s) else inl UnexpectedEof.

(** The bytes [write_frame] puts on the stream. *)
Definition frame_bytes (payload : list Z) : list Z :=
  to_le_bytes 4 (len_u32 payload) ++ payload.

Definition read_frame (s : list Z) : io_error + list Z * list Z :=
  match read_exact 4 s with
  | inl e => inl e
  | inr (len, s) =>
      let n := from_le_bytes len in
      if MAX_FRAME <? n then inl (InvalidData "frame too large")
      else read_exact (Z.to_nat n) s
  end.

(** ** Reading back what was written

    [le32s l] is the image of a [u32] array on the wire; [cur_at p q] the
    cursor between the bytes [p] already read and [q] still to read. *)

Definition le32s (l : list Z) : list Z := concat (map (to_le_bytes 4) l).
Definition cur_at (p q : list Z) : Cur := {| cur_b := p ++ q; cur_i := Z.of_nat (length p) |}.

Lemma le32s_length l : length (le32s l) = (4 * length l)%nat.
Proof.
  unfold le32s. induction l as [|v l IH]; [done|].
  cbn [map concat length]. rewrite length_app, to_le_bytes_length, IH. lia.
Qed.

Lemma put_u32s_app l b : fold_left put_u32 l b = b ++ le32s l.
Proof.
  revert b. induction l as [|v l IH]; intros b; simpl; [by rewrite app_nil_r|].
  rewrite IH. unfold put_u32, le32s. simpl. by rewrite <- app_assoc.
Qed.

Definition fits (b : list Z) : Prop := Z.of_nat (length b) < 2 ^ 63.

Lemma cur_slice_at p s q e :
  fits (p ++ s ++ q) -> e = Z.of_nat (length p) + Z.of_nat (length s) ->
  cur_slice (cur_at p (s ++ q)) (u64 e) = Some (s, cur_at (p ++ s) q).
Proof.
  unfold fits. rewrite !length_app. intros Hf ->. rewrite wrap_id by mlia.
  unfold cur_slice, cur_at; simpl.
  rewrite (slice_app p s q) by lia. by rewrite <- app_assoc, length_app, Nat2Z.inj_add.
Qed.

Lemma cur_u32_at p v q :
  is_u32 v -> fits (p ++ to_le_bytes 4 v ++ q) ->
  cur_u32 (cur_at p (to_le_bytes 4 v ++ q)) = Some (v, cur_at (p ++ to_le_bytes 4 v) q).
Proof.
  intros Hv Hf. unfold cur_u32. simpl cur_i.
  rewrite (cur_slice_at p (to_le_bytes 4 v) q) by (rewrite ?to_le_bytes_length; done || lia).
  by rewrite from_to_le_bytes.
Qed.

Lemma cur_u64_at p v q :
  is_u64 v -> fits (p ++ to_le_bytes 8 v ++ q) ->
  cur_u64 (cur_at p (to_le_bytes 8 v ++ q)) = Some (v, cur_at (p ++ to_le_bytes 8 v) q).
Proof.
  intros Hv Hf. unfold cur_u64. simpl cur_i.
  rewrite (cur_slice_at p (to_le_bytes 8 v) q) by (rewrite ?to_le_bytes_length; done || lia).
  by rewrite from_to_le_bytes.
Qed.

Lemma le32s_chunks l : Forall is_u32 l -> map from_le_bytes (chunks_exact 4 (le32s l)) = l.
Proof.
  intros Hl. unfold le32s. rewrite chunks_exact_concat.
  - rewrite map_map. induction Hl as [|v l Hv Hl IH]; [done|].
    cbn [map]. by rewrite from_to_le_bytes, IH.
  - lia.
  - apply Forall_map, Forall_forall. intros v _. apply to_le_bytes_length.
Qed.

Lemma cur_u32s_at p l q n :
  n = Z.of_nat (length l) -> Forall is_u32 l -> fits (p ++ le32s l ++ q) ->
  cur_u32s (cur_at p (le32s l ++ q)) n = Some (l, cur_at (p ++ le32s l) q).
Proof.
  intros -> Hl Hf. unfold cur_u32s. simpl cur_i. pose proof Hf as Hf'.
  unfold fits in Hf'. rewrite !length_app, le32s_length in Hf'.
  rewrite (wrap_id 64 (_ * 4)) by mlia.
  rewrite (cur_slice_at p (le32s l) q) by (rewrite ?le32s_length; done || lia).
  by rewrite le32s_chunks.
Qed.

Lemma cur_f32s_at p l q n :
  n = Z.of_nat (length l) -> Forall is_u32 l -> fits (p ++ le32s l ++ q) ->
  cur_f32s (cur_at p (le32s l ++ q)) n = Some (l, cur_at (p ++ le32s l) q).
Proof. exact (cur_u32s_at p l q n). Qed.

Lemma expect_magic_at m q :
  is_u32 m -> fits (to_le_bytes 4 m ++ q) ->
  expect_magic m (to_le_bytes 4 m ++ q) = Some (cur_at (to_le_bytes 4 m) q).
Proof.
  intros Hm Hf. unfold expect_magic.
  change {| cur_b := to_le_bytes 4 m ++ q; cur_i := 0 |} with (cur_at [] (to_le_bytes 4 m ++ q)).
  rewrite cur_u32_at by done. by rewrite Z.eqb_refl.
Qed.

Lemma checked_mul_u32 a b : is_u32 a -> is_u32 b -> checked_mul a b = Some (a * b).
Proof. intros Ha Hb. unfold checked_mul. rewrite (proj2 (Z.ltb_lt _ _)); [done|]. mlia || (unfold in_u in *; pow2; nia). Qed.

(** [fits] of a re-bracketing of a list that fits. *)
Ltac fits_tac := unfold fits in *; rewrite ?length_app in *; lia.

(** Reads the next field of a decoder against the image of an encoder. *)
Ltac read_field :=
  first
    [ rewrite expect_magic_at by first [apply in_u_dec_spec; reflexivity | fits_tac]
    | rewrite cur_u32_at by first [assumption | mlia | fits_tac]
    | rewrite cur_u64_at by first [assumption | mlia | fits_tac]
    | rewrite cur_u32s_at by first [reflexivity | assumption | fits_tac]
    | rewrite cur_f32s_at by first [reflexivity | assumption | fits_tac]
    | rewrite checked_mul_u32 by done ].

(** The images of the encoders. *)
Definition request_image (r : ExpertRequest) : list Z :=
  to_le_bytes 4 REQ_MAGIC ++ to_le_bytes 4 (er_layer r) ++ to_le_bytes 4 (u32 (er_n_tokens r)) ++
  to_le_bytes 4 (u32 (er_hidden r)) ++ to_le_bytes 4 (len_u32 (er_experts r)) ++
  to_le_bytes 4 (len_u32 (er_weights r)) ++ le32s (er_experts r) ++ le32s (er_weights r) ++
  le32s (er_activations r).

Lemma encode_request_image r : encode_request r = request_image r.
Proof.
  unfold encode_request, put_f32s. rewrite !put_u32s_app. unfold put_u32, request_image.
  by rewrite <- !app_assoc.
Qed.

(** A request as the engine builds them: every field at its width, one
    activation row of [hidden] values per token. *)
Record wf_request (r : ExpertRequest) : Prop := {
  wr_layer : is_u32 (er_layer r);
  wr_n_tokens : is_u32 (er_n_tokens r);
  wr_hidden : is_u32 (er_hidden r);
  wr_experts : Forall is_u32 (er_experts r) /\ Z.of_nat (length (er_experts r)) < 2 ^ 32;
  wr_weights : Forall is_u32 (er_weights r) /\ Z.of_nat (length (er_weights r)) < 2 ^ 32;
  wr_activations : Forall is_u32 (er_activations r) /\
    Z.of_nat (length (er_activations r)) = er_n_tokens r * er_hidden r
}.

Lemma len_u32_id {A} (l : list A) : Z.of_nat (length l) < 2 ^ 32 -> len_u32 l = Z.of_nat (length l).
Proof. intros H. apply wrap_id. mlia. Qed.

Lemma decode_encode_request r tail :
  wf_request r -> fits (encode_request r ++ tail) ->
  decode_request (encode_request r ++ tail) = Some r.
Proof.
  intros [Hl Ht Hh [He He'] [Hw Hw'] [Ha Ha']] Hf. rewrite encode_request_image in *.
  unfold request_image in *. rewrite (wrap_id 32 (er_n_tokens r)), (wrap_id 32 (er_hidden r)) in * by done.
  rewrite (len_u32_id (er_experts r)), (len_u32_id (er_weights r)) in * by done.
  rewrite <- !app_assoc in *. unfold decode_request.
  repeat read_field. by destruct r.
Qed.

(** [decode_request] inverts [encode_request] on every well-formed
    request, whatever bytes follow it in the frame. *)
Theorem request_roundtrip r tail :
  wf_request r -> fits (encode_request r ++ tail) ->
  decode_request (encode_request r ++ tail) = Some r.
Proof. apply decode_encode_request. Qed.

Definition sample_request : ExpertRequest :=
  {| er_experts := [130; 200; 255]; er_weights := [1056964608; 1048576000; 1048576000];
     er_activations := [0; 1036831949; 1045220557; 1050253722]; er_n_tokens := 2; er_hidden := 2;
     er_layer := 7 |}.

Lemma request_roundtrip_witness :
  decode_request (encode_request sample_request ++ [1; 2; 3]) = Some sample_request.
Proof.
  apply request_roundtrip; [|vm_compute; done].
  constructor; simpl; try mlia; split; try (repeat constructor; mlia); lia.
Defined.

(** ** Attention requests *)

Definition sel_image (sel : list (list Z)) : list Z :=
  concat (map (fun q => to_le_bytes 4 (len_u32 q) ++ le32s q) sel).

Lemma put_sel_app sel b :
  fold_left (fun b q => fold_left put_u32 q (put_u32 b (len_u32 q))) sel b = b ++ sel_image sel.
Proof.
  revert b. induction sel as [|q sel IH]; intros b; cbn [fold_left]; [by rewrite app_nil_r|].
  rewrite IH, put_u32s_app. unfold put_u32, sel_image. cbn [map concat]. by rewrite <- !app_assoc.
Qed.

Definition wf_sel (sel : list (list Z)) : Prop :=
  Forall (fun q => Forall is_u32 q /\ Z.of_nat (length q) < 2 ^ 32) sel.

Lemma cur_sel_at p sel q :
  wf_sel sel -> fits (p ++ sel_image sel ++ q) ->
  cur_sel (length sel) (cur_at p (sel_image sel ++ q)) = Some (sel, cur_at (p ++ sel_image sel) q).
Proof.
  intros Hs. revert p. induction Hs as [|x sel [Hx Hlx] Hs IH]; intros p Hf.
  - simpl. by rewrite app_nil_r.
  - unfold sel_image in *. cbn [map concat cur_sel length] in *.
    rewrite (len_u32_id x) in * by done. rewrite <- !app_assoc in *.
    do 2 read_field. rewrite IH by fits_tac. by rewrite <- !app_assoc.
Qed.

Record wf_attn_request (r : AttnRequest) : Prop := {
  wa_fields : Forall is_u32 [ar_layer r; ar_n_tokens r; ar_hidden r; ar_pos_base r; ar_h_start r; ar_h_count r];
  wa_sel : wf_sel (ar_sel r) /\ Z.of_nat (length (ar_sel r)) < 2 ^ 32;
  wa_activations : Forall is_u32 (ar_activations r) /\
    Z.of_nat (length (ar_activations r)) = ar_n_tokens r * ar_hidden r
}.

Lemma decode_encode_attn_request r tail :
  wf_attn_request r -> fits (encode_attn_request r ++ tail) ->
  decode_attn_request (encode_attn_request r ++ tail) = Some r.
Proof.
  intros [Hfs [Hsel Hsl] [Ha Ha']] Hf.
  apply Forall_cons in Hfs as [? Hfs]. apply Forall_cons in Hfs as [? Hfs].
  apply Forall_cons in Hfs as [? Hfs]. apply Forall_cons in Hfs as [? Hfs].
  apply Forall_cons in Hfs as [? Hfs]. apply Forall_cons in Hfs as [? _].
  unfold encode_attn_request, put_f32s in *. rewrite put_u32s_app, put_sel_app in *.
  unfold put_u32 in *. rewrite (wrap_id 32 (ar_n_tokens r)), (wrap_id 32 (ar_hidden r)) in * by done.
  rewrite (len_u32_id (ar_sel r)) in * by done.
  rewrite app_nil_l in *. rewrite <- !app_assoc in *. unfold decode_attn_request.
  repeat read_field. rewrite Nat2Z.id, cur_sel_at by first [done | fits_tac].
  repeat read_field. by destruct r.
Qed.

(** [decode_attn_request] inverts [encode_attn_request], the nested
    per-query selection included. *)
Theorem attn_request_roundtrip r tail :
  wf_attn_request r -> fits (encode_attn_request r ++ tail) ->
  decode_attn_request (encode_attn_request r ++ tail) = Some r.
Proof. apply decode_encode_attn_request. Qed.

Definition sample_attn : AttnRequest :=
  {| ar_activations := [1; 2; 3; 4]; ar_sel := [[]; [0; 1]]; ar_n_tokens := 2; ar_hidden := 2;
     ar_pos_base := 0; ar_h_start := 4; ar_h_count := 4; ar_layer := 3 |}.

Lemma attn_request_roundtrip_witness :
  decode_attn_request (encode_attn_request sample_attn ++ []) = Some sample_attn.
Proof.
  apply attn_request_roundtrip; [|vm_compute; done].
  constructor; simpl; repeat constructor; mlia.
Defined.

(** ** Responses and handshake *)

Definition wf_response (r : ExpertResponse) : Prop :=
  is_u32 (rs_n_tokens r) /\ is_u32 (rs_hidden r) /\ Forall is_u32 (rs_outputs r) /\
  Z.of_nat (length (rs_outputs r)) = rs_n_tokens r * rs_hidden r.

Definition wf_attn_response (r : AttnResponse) : Prop :=
  is_u32 (as_n_tokens r) /\ is_u32 (as_hidden r) /\ Forall is_u32 (as_outputs r) /\
  Z.of_nat (length (as_outputs r)) = as_n_tokens r * as_hidden r.

Lemma response_roundtrip r :
  wf_response r -> fits (encode_response r) -> decode_response (encode_response r) = Some r.
Proof.
  intros (Ht & Hh & Ho & Hl) Hf. unfold encode_response, put_f32s in *.
  rewrite put_u32s_app in *. unfold put_u32 in *.
  rewrite (wrap_id 32 (rs_n_tokens r)), (wrap_id 32 (rs_hidden r)) in * by done.
  rewrite app_nil_l, <- !app_assoc, <- (app_nil_r (le32s _)) in *. unfold decode_response.
  repeat read_field. by destruct r.
Qed.

Lemma attn_response_roundtrip r :
  wf_attn_response r -> fits (encode_attn_response r) ->
  decode_attn_response (encode_attn_response r) = Some r.
Proof.
  intros (Ht & Hh & Ho & Hl) Hf. unfold encode_attn_response, put_f32s in *.
  rewrite put_u32s_app in *. unfold put_u32 in *.
  rewrite (wrap_id 32 (as_n_tokens r)), (wrap_id 32 (as_hidden r)) in * by done.
  rewrite app_nil_l, <- !app_assoc, <- (app_nil_r (le32s _)) in *. unfold decode_attn_response.
  repeat read_field. by destruct r.
Qed.

Lemma hello_roundtrip node fp :
  is_u32 node -> is_u64 fp -> decode_hello (encode_hello node fp) = Some (node, fp).
Proof.
  intros Hn Hfp. unfold encode_hello, put_u64, put_u32. rewrite app_nil_l, <- !app_assoc.
  rewrite <- (app_nil_r (to_le_bytes 8 fp)). unfold decode_hello.
  assert (Hf : fits (to_le_bytes 4 HELLO_MAGIC ++ to_le_bytes 4 node ++ to_le_bytes 8 fp ++ [])).
  { unfold fits. rewrite !length_app, !to_le_bytes_length. simpl. lia. }
  by repeat read_field.
Qed.

Lemma hello_ack_roundtrip ok fp :
  is_u64 fp -> decode_hello_ack (encode_hello_ack ok fp) = Some (ok, fp).
Proof.
  intros Hfp. unfold encode_hello_ack, put_u64, put_u32. rewrite app_nil_l, <- !app_assoc.
  rewrite <- (app_nil_r (to_le_bytes 8 fp)). unfold decode_hello_ack.
  assert (Hok : is_u32 (if ok then 1 else 0)) by (destruct ok; mlia).
  assert (Hf : fits (to_le_bytes 4 HACK_MAGIC ++ to_le_bytes 4 (if ok then 1 else 0) ++ to_le_bytes 8 fp ++ [])).
  { unfold fits. rewrite !length_app, !to_le_bytes_length. simpl. lia. }
  repeat read_field. by destruct ok.
Qed.

(** The responses and the handshake survive the wire, and no message is
    mistaken for another: the decoder of a kind rejects the other kinds. *)
Theorem responses_and_handshake_roundtrip r a node fp ok :
  wf_response r -> fits (encode_response r) -> wf_attn_response a -> fits (encode_attn_response a) ->
  is_u32 node -> is_u64 fp ->
  decode_response (encode_response r) = Some r /\
  decode_attn_response (encode_attn_response a) = Some a /\
  decode_hello (encode_hello node fp) = Some (node, fp) /\
  decode_hello_ack (encode_hello_ack ok fp) = Some (ok, fp) /\
  decode_hello (encode_hello_ack ok fp) = None /\ decode_hello_ack (encode_hello node fp) = None /\
  decode_response (encode_attn_response a) = None /\ decode_attn_response (encode_response r) = None.
Proof.
  intros Hr Hfr Ha Hfa Hn Hfp.
  assert (Hmagic : forall m m' q, is_u32 m' -> fits (to_le_bytes 4 m' ++ q) -> m' <> m ->
    expect_magic m (to_le_bytes 4 m' ++ q) = None).
  { intros m m' q Hm Hf Hne. unfold expect_magic.
    change {| cur_b := to_le_bytes 4 m' ++ q; cur_i := 0 |} with (cur_at [] (to_le_bytes 4 m' ++ q)).
    rewrite cur_u32_at by done. by rewrite (proj2 (Z.eqb_neq _ _)). }
  split_and!; [by apply response_roundtrip|by apply attn_response_roundtrip|by apply hello_roundtrip
    |by apply hello_ack_roundtrip|..].
  - unfold decode_hello, encode_hello_ack, put_u64, put_u32. rewrite app_nil_l, <- !app_assoc.
    rewrite Hmagic; [done|apply in_u_dec_spec; reflexivity| |done].
    unfold fits. rewrite !length_app, !to_le_bytes_length. simpl. lia.
  - unfold decode_hello_ack, encode_hello, put_u64, put_u32. rewrite app_nil_l, <- !app_assoc.
    rewrite Hmagic; [done|apply in_u_dec_spec; reflexivity| |done].
    unfold fits. rewrite !length_app, !to_le_bytes_length. simpl. lia.
  - unfold decode_response, encode_attn_response, put_f32s, put_u32 in *.
    rewrite put_u32s_app, app_nil_l, <- !app_assoc in *.
    by rewrite Hmagic; [|apply in_u_dec_spec; reflexivity|..].
  - unfold decode_attn_response, encode_response, put_f32s, put_u32 in *.
    rewrite put_u32s_app, app_nil_l, <- !app_assoc in *.
    by rewrite Hmagic; [|apply in_u_dec_spec; reflexivity|..].
Qed.

Lemma responses_and_handshake_roundtrip_witness :
  decode_response (encode_response {| rs_outputs := [7; 9]; rs_n_tokens := 1; rs_hidden := 2 |})
  = Some {| rs_outputs := [7; 9]; rs_n_tokens := 1; rs_hidden := 2 |}.
Proof.
  assert (H7 : Forall is_u32 [7; 9]) by
    (repeat first [apply Forall_nil_2 | apply Forall_cons_2; [apply in_u_dec_spec; reflexivity|]]).
  destruct (responses_and_handshake_roundtrip
    {| rs_outputs := [7; 9]; rs_n_tokens := 1; rs_hidden := 2 |}
    {| as_outputs := [7; 9]; as_n_tokens := 1; as_hidden := 2 |} 3 5 true) as (H & _);
    [..|exact H]; try done; try (apply in_u_dec_spec; reflexivity);
    split; try exact H7; try (apply in_u_dec_spec; reflexivity); reflexivity.
Defined.

(** ** What a decoder accepted was on the wire *)

Definition bytes (b : list Z) : Prop := Forall is_u8 b.

Lemma cur_slice_at_inv p q e s c :
  Z.of_nat (length p) <= e -> cur_slice (cur_at p q) e = Some (s, c) ->
  exists q', q = s ++ q' /\ c = cur_at (p ++ s) q' /\ Z.of_nat (length s) = e - Z.of_nat (length p).
Proof.
  intros He. unfold cur_slice. destruct (slice _ _ _) as [s'|] eqn:Hs; intros [= <- <-].
  apply slice_Some in Hs as [Hle ->]. unfold cur_at in *; simpl in *. rewrite length_app in Hle.
  rewrite drop_app, drop_ge, Nat2Z.id, Nat.sub_diag by lia. simpl. rewrite drop_0.
  exists (drop (Z.to_nat e - length p) q). rewrite take_drop, <- app_assoc, take_drop.
  rewrite !length_app, length_take. split_and!; [done| |lia]. f_equal. lia.
Qed.

Lemma fits_app_assoc p s q : fits (p ++ s ++ q) -> fits ((p ++ s) ++ q).
Proof. by rewrite app_assoc. Qed.

Lemma cur_u32_at_inv p q v c :
  bytes q -> fits (p ++ q) -> cur_u32 (cur_at p q) = Some (v, c) ->
  exists q', q = to_le_bytes 4 v ++ q' /\ c = cur_at (p ++ to_le_bytes 4 v) q' /\
    is_u32 v /\ bytes q' /\ fits ((p ++ to_le_bytes 4 v) ++ q').
Proof.
  intros Hb Hf. unfold cur_u32. destruct (cur_slice _ _) as [[s c']|] eqn:Hs; intros [= <- <-].
  simpl in Hs. rewrite wrap_id in Hs by (unfold fits in Hf; rewrite length_app in Hf; mlia).
  apply cur_slice_at_inv in Hs as (q' & -> & -> & Hlen); [|lia].
  unfold bytes in *. apply Forall_app in Hb as [Hb Hb']. exists q'.
  assert (Hl : length s = 4%nat) by lia. rewrite <- Hl, to_from_le_bytes by done.
  pose proof (from_le_bytes_bound s Hb) as Hv. rewrite Hl in Hv.
  split_and!; try done. by apply fits_app_assoc.
Qed.

Lemma chunks_le32s s n :
  bytes s -> length s = (4 * n)%nat ->
  le32s (map from_le_bytes (chunks_exact 4 s)) = s /\
  Forall is_u32 (map from_le_bytes (chunks_exact 4 s)) /\
  length (map from_le_bytes (chunks_exact 4 s)) = n.
Proof.
  intros Hb Hl.
  assert (Hs : exists l, Forall is_u32 l /\ length l = n /\ s = le32s l).
  { revert s Hb Hl. induction n as [|n IH]; intros s Hb Hl.
    - exists []. split_and!; [constructor|done|]. by apply length_zero_iff_nil.
    - destruct (IH (drop 4 s)) as (l & Hl32 & Hln & Hd).
      { by apply Forall_drop. } { rewrite length_drop. lia. }
      assert (Ht : bytes (take 4 s)) by by apply Forall_take.
      assert (Hl4 : length (take 4 s) = 4%nat) by (rewrite length_take; lia).
      pose proof (from_le_bytes_bound _ Ht) as Hv. rewrite Hl4 in Hv.
      exists (from_le_bytes (take 4 s) :: l). split_and!; [by constructor|simpl; lia|].
      unfold le32s in *. cbn [map concat]. rewrite <- Hd. rewrite <- Hl4 at 1.
      by rewrite to_from_le_bytes, take_drop. }
  destruct Hs as (l & Hl32 & Hln & ->). by rewrite le32s_chunks.
Qed.

Lemma cur_u32s_at_inv p q n l c :
  bytes q -> fits (p ++ q) -> 0 <= n < 2 ^ 62 -> cur_u32s (cur_at p q) n = Some (l, c) ->
  exists q', q = le32s l ++ q' /\ c = cur_at (p ++ le32s l) q' /\ Forall is_u32 l /\
    Z.of_nat (length l) = n /\ bytes q' /\ fits ((p ++ le32s l) ++ q').
Proof.
  intros Hb Hf Hn. unfold cur_u32s. destruct (cur_slice _ _) as [[s c']|] eqn:Hs; intros [= <- <-].
  simpl in Hs. unfold fits in Hf. rewrite length_app in Hf. rewrite (wrap_id 64 (n * 4)) in Hs by mlia.
  assert (Hw : is_u64 (Z.of_nat (length p) + n * 4)).
  { destruct (decide (Z.of_nat (length p) + n * 4 < 2 ^ 64)) as [|Hge]; [mlia|].
    unfold cur_slice in Hs. destruct (slice _ _ _) as [s'|] eqn:Hsl; [|discriminate Hs].
    apply slice_Some in Hsl as [Hle _]. exfalso. simpl in Hle. revert Hle. unfold wrap.
    rewrite <- (Z.mod_unique (Z.of_nat (length p) + n * 4) (2 ^ 64) 1 (Z.of_nat (length p) + n * 4 - 2 ^ 64))
      by (pow2; lia). pow2. lia. }
  rewrite wrap_id in Hs by done.
  apply cur_slice_at_inv in Hs as (q' & -> & -> & Hlen); [|lia].
  unfold bytes in *. apply Forall_app in Hb as [Hb Hb'].
  destruct (chunks_le32s s (Z.to_nat n)) as (Hle & Hl32 & Hln); [done|lia|].
  exists q'. rewrite Hle. split_and!; try done; [lia|].
  unfold fits. rewrite !length_app in *. lia.
Qed.

(** Turns one accepted field into the bytes it was read from. *)
Ltac field_inv :=
  match goal with
  | H : (match cur_u32 ?c with Some _ => _ | None => None end) = Some _ |- _ =>
      let E := fresh "E" in let v := fresh "v" in
      destruct (cur_u32 c) as [[v ?]|] eqn:E; [|discriminate H];
      apply cur_u32_at_inv in E as (? & -> & -> & ? & ? & ?); [|assumption..]
  | H : (match cur_u32s ?c ?n with Some _ => _ | None => None end) = Some _ |- _ =>
      let E := fresh "E" in
      destruct (cur_u32s c n) as [[? ?]|] eqn:E; [|discriminate H];
      apply cur_u32s_at_inv in E as (? & -> & -> & ? & ? & ? & ?); [|assumption || mlia..]
  | H : (match cur_f32s ?c ?n with Some _ => _ | None => None end) = Some _ |- _ =>
      change (cur_f32s c n) with (cur_u32s c n) in H
  end.

Lemma expect_magic_inv m b c :
  is_u32 m -> bytes b -> fits b -> expect_magic m b = Some c ->
  exists q, b = to_le_bytes 4 m ++ q /\ c = cur_at (to_le_bytes 4 m) q /\ bytes q /\
    fits (to_le_bytes 4 m ++ q).
Proof.
  intros Hm Hb Hf. unfold expect_magic.
  change {| cur_b := b; cur_i := 0 |} with (cur_at [] b). intros H. field_inv.
  destruct (Z.eqb_spec v m) as [->|]; [|discriminate H]. injection H as <-. by eexists.
Qed.

(** An accepted expert request is exactly what the sender encoded.  If
    the server decodes a frame to [r] and the announced shape does not wrap the
    byte count, the frame starts with [encode_request r], [r] is well formed
    (one row of [hidden] activations per token) and only bytes after it are
    ignored; so a truncated request never decodes. *)
Theorem decode_request_sound b r :
  bytes b -> fits b -> decode_request b = Some r -> er_n_tokens r * er_hidden r < 2 ^ 62 ->
  wf_request r /\ exists junk, b = encode_request r ++ junk.
Proof.
  intros Hb Hf H Hn. unfold decode_request in H.
  destruct (expect_magic REQ_MAGIC b) as [c|] eqn:E; [|discriminate H].
  apply expect_magic_inv in E as (q & -> & -> & Hq & Hfq); [|by apply in_u_dec_spec|done..].
  do 5 field_inv. do 3 field_inv.
  match type of H with (match checked_mul ?a ?b with _ => _ end) = _ =>
    rewrite (checked_mul_u32 a b) in H by done end.
  field_inv.
  destruct (cur_u32s _ (_ * _)) as [[act c']|] eqn:E; [|discriminate H].
  injection H as <-. cbn [er_n_tokens er_hidden] in Hn.
  apply cur_u32s_at_inv in E as (? & -> & -> & ? & ? & ? & ?); [|done|done|mlia || (unfold in_u in *; nia)].
  split; [constructor; simpl; try done; split; try done; mlia|].
  rewrite encode_request_image. unfold request_image. cbn [er_layer er_n_tokens er_hidden
    er_experts er_weights er_activations].
  rewrite !len_u32_id by mlia. rewrite !(wrap_id 32) by done.
  eexists. repeat match goal with H : Z.of_nat (length _) = _ |- _ => rewrite H end.
  rewrite <- !app_assoc. reflexivity.
Qed.

Lemma decode_request_sound_witness :
  exists r, decode_request (encode_request {| er_experts := [3]; er_weights := [7]; er_activations := [1; 2];
    er_n_tokens := 1; er_hidden := 2; er_layer := 4 |} ++ [9]) = Some r /\ wf_request r.
Proof.
  eexists. split; [reflexivity|].
  apply (fun Hb Hf H Hn => proj1 (decode_request_sound (encode_request {| er_experts := [3];
    er_weights := [7]; er_activations := [1; 2]; er_n_tokens := 1; er_hidden := 2;
    er_layer := 4 |} ++ [9]) _ Hb Hf H Hn)); [|reflexivity|reflexivity|reflexivity].
  change (Forall is_u8 [81; 69; 82; 67; 4; 0; 0; 0; 1; 0; 0; 0; 2; 0; 0; 0; 1; 0; 0; 0; 1; 0; 0; 0;
    3; 0; 0; 0; 7; 0; 0; 0; 1; 0; 0; 0; 2; 0; 0; 0; 9]).
  repeat first [apply Forall_nil_2 | apply Forall_cons_2; [apply in_u_dec_spec; reflexivity|]].
Defined.

(** The hypothesis on the byte count is needed: the code checks
    [n_tokens * hidden] but not the [n * 4] of [f32s], which wraps in a release
    build, so a request may announce 2^62 activations and carry none. *)
Theorem decode_request_wrapped_count :
  exists b r, bytes b /\ length b = 24%nat /\ decode_request b = Some r /\
    er_n_tokens r * er_hidden r = 2 ^ 62 /\ er_activations r = [].
Proof.
  exists (encode_request {| er_experts := []; er_weights := []; er_activations := [];
    er_n_tokens := 2 ^ 31; er_hidden := 2 ^ 31; er_layer := 0 |}).
  eexists. split_and!; [|reflexivity|reflexivity|reflexivity|reflexivity].
  change (Forall is_u8 [81; 69; 82; 67; 0; 0; 0; 0; 0; 0; 0; 128; 0; 0; 0; 128; 0; 0; 0; 0; 0; 0; 0; 0]).
  repeat first [apply Forall_nil_2 | apply Forall_cons_2; [apply in_u_dec_spec; reflexivity|]].
Qed.

(** ** Frames *)

Lemma read_exact_app p s : read_exact (length p) (p ++ s) = inr (p, s).
Proof.
  unfold read_exact. rewrite length_app. destruct (decide _); [|lia].
  by rewrite take_app_length, drop_app_length.
Qed.

Lemma read_frame_app p s :
  Z.of_nat (length p) <= MAX_FRAME -> read_frame (frame_bytes p ++ s) = inr (p, s).
Proof.
  intros Hp. unfold read_frame, frame_bytes. rewrite <- app_assoc.
  pose proof (to_le_bytes_length 4 (len_u32 p)) as Hl. rewrite <- Hl at 1. rewrite read_exact_app.
  assert (Hw : Z.of_nat (length p) < 2 ^ 32) by (unfold MAX_FRAME in Hp; pow2; lia).
  rewrite len_u32_id by done. rewrite from_to_le_bytes by mlia.
  rewrite (proj2 (Z.ltb_ge _ _)) by done. by rewrite Nat2Z.id, read_exact_app.
Qed.

(** Framing is exact and total.  On any byte stream [read_frame] returns a
    payload exactly when the stream starts with that payload's frame and the
    payload is at most [MAX_FRAME] bytes; an announced length above the cap is
    [InvalidData] without reading the body, a stream that ends early is
    [UnexpectedEof], and there is no other outcome. *)
Theorem read_frame_exact s :
  bytes s ->
  (forall p rest, read_frame s = inr (p, rest) <->
     s = frame_bytes p ++ rest /\ Z.of_nat (length p) <= MAX_FRAME) /\
  (forall e, read_frame s = inl e <->
     (e = UnexpectedEof /\ ((length s < 4)%nat \/
        (4 <= length s)%nat /\ from_le_bytes (take 4 s) <= MAX_FRAME /\
        Z.of_nat (length s) < 4 + from_le_bytes (take 4 s))) \/
     (e = InvalidData "frame too large" /\ (4 <= length s)%nat /\
        MAX_FRAME < from_le_bytes (take 4 s))).
Proof.
  intros Hb. split.
  - intros p rest. split; [|intros [-> Hp]; by apply read_frame_app].
    unfold read_frame, read_exact. destruct (decide (4 <= length s)%nat) as [Hl|]; [|done].
    destruct (Z.ltb_spec MAX_FRAME (from_le_bytes (take 4 s))) as [|Hm]; [done|].
    assert (Ht : bytes (take 4 s)) by by apply Forall_take.
    pose proof (from_le_bytes_bound _ Ht) as Hv. unfold in_u in Hv.
    set (n := from_le_bytes (take 4 s)) in *.
    destruct (decide (Z.to_nat n <= length (drop 4 s))%nat) as [Hn|]; [|done].
    intros [= <- <-]. rewrite length_take. split; [|lia].
    unfold frame_bytes, len_u32. rewrite length_take, Nat.min_l by done.
    rewrite Z2Nat.id by lia. rewrite wrap_id by (unfold MAX_FRAME in *; mlia).
    assert (Ht4 : length (take 4 s) = 4%nat) by (rewrite length_take; lia).
    rewrite <- app_assoc, take_drop. subst n. rewrite <- Ht4 at 1.
    by rewrite to_from_le_bytes, take_drop.
  - assert (Hpos : (4 <= length s)%nat -> 0 <= from_le_bytes (take 4 s)).
    { intros _. apply (from_le_bytes_bound (take 4 s)). by apply Forall_take. }
    intros e. unfold read_frame, read_exact. destruct (decide (4 <= length s)%nat) as [Hl|Hl].
    2:{ split; [intros [= <-]; left; split; [done|lia]|]. intros [[-> _]|(-> & ? & _)]; [done|lia]. }
    destruct (Z.ltb_spec MAX_FRAME (from_le_bytes (take 4 s))) as [Hm|Hm].
    { split; [intros [= <-]; right; auto|]. intros [[-> [|(_ & ? & _)]]|(-> & _)]; [lia|lia|done]. }
    specialize (Hpos Hl). rewrite length_drop.
    destruct (decide (Z.to_nat _ <= length s - 4)%nat) as [Hn|Hn].
    { split; [done|]. intros [[-> [|(_ & _ & ?)]]|(-> & _ & ?)]; lia. }
    split; [intros [= <-]; left; split; [done|right; lia]|].
    intros [[-> _]|(-> & _ & ?)]; [done|lia].
Qed.

Lemma read_frame_exact_witness :
  read_frame (frame_bytes [7; 8] ++ [9]) = inr ([7; 8], [9]).
Proof.
  apply (fun Hb => proj1 (read_frame_exact (frame_bytes [7; 8] ++ [9]) Hb)); [|split; [reflexivity|]].
  - change (Forall is_u8 [2; 0; 0; 0; 7; 8; 9]).
    repeat first [apply Forall_nil_2 | apply Forall_cons_2; [apply in_u_dec_spec; reflexivity|]].
  - unfold MAX_FRAME. simpl. lia.
Defined.
