(* ===== verification/Server.v ===== *)
(** * The worker side of the transport
    ([crates/colibri-cluster/src/net.rs] lines 246-386)

    A connection is a byte stream with two ends.  [ByteStream] is what the
    framing needs of it ([Write::write_all], [Read::read_exact]); the worker's
    theorems are proved on [Conn], an in-memory stream whose peer may stop
    accepting bytes at any point, and [Transport.v] reuses the framing over the
    sockets of a client.  The expert and attention handlers are parameters (the
    engine's closures); [conn_calls] records every call to them.  Socket options
    and the printed diagnostics are not modelled. *)

From S2P Require Import Prelude Wire.
Local Open Scope Z_scope.

Class ByteStream (T : Type) := {
  write_all : list Z -> T -> option io_error * T;
  recv_exact : nat -> T -> (io_error + list Z) * T
}.

(** [write_frame]: the length word, then the payload; [flush] does nothing on a
    socket. *)
Definition write_frame `{ByteStream T} (payload : list Z) (s : T) : option io_error * T :=
  match write_all (to_le_bytes 4 (len_u32 payload)) s with
  | (Some e, s) => (Some e, s)
  | (None, s) => write_all payload s
  end.

Definition recv_frame `{ByteStream T} (s : T) : (io_error + list Z) * T :=
  match recv_exact 4 s with
  | (inl e, s) => (inl e, s)
  | (inr len, s) =>
      let n := from_le_bytes len in
      if MAX_FRAME <? n then (inl (InvalidData "frame too large"), s)
      else recv_exact (Z.to_nat n) s
  end.

(** ** An in-memory connection *)

Inductive call := CallExpert (r : ExpertRequest) | CallAttn (r : AttnRequest).

(** [conn_in] are the bytes the peer sends, [conn_out] what has been written to
    it, [conn_room] how many more bytes it accepts. *)
Record Conn := { conn_in : list Z; conn_out : list Z; conn_room : nat; conn_calls : list call }.

#[export] Instance conn_stream : ByteStream Conn := {|
  write_all b s :=
    let s' := {| conn_in := conn_in s; conn_out := conn_out s ++ take (conn_room s) b;
                 conn_room := conn_room s - length b; conn_calls := conn_calls s |} in
    (if decide (length b <= conn_room s)%nat then None else Some BrokenPipe, s');
  recv_exact n s :=
    match read_exact n (conn_in s) with
    | inl e => (inl e, {| conn_in := []; conn_out := conn_out s; conn_room := conn_room s;
                          conn_calls := conn_calls s |})
    | inr (b, rest) => (inr b, {| conn_in := rest; conn_out := conn_out s; conn_room := conn_room s;
                                  conn_calls := conn_calls s |})
    end |}.

Definition log_call (c : call) (s : Conn) : Conn :=
  {| conn_in := conn_in s; conn_out := conn_out s; conn_room := conn_room s;
     conn_calls := conn_calls s ++ [c] |}.

(** ** The worker *)

Section Worker.
Context (expert : ExpertRequest -> ExpertResponse) (attn : AttnRequest -> AttnResponse).

(** One turn of the request loop: [inl e] leaves it with that error. *)
Definition serve_step (s : Conn) : (io_error + unit) * Conn :=
  match recv_frame s with
  | (inl e, s) => (inl e, s)
  | (inr frame, s) =>
      let magic := let* m := slice frame 0 4 in Some (from_le_bytes m) in
      match magic with
      | Some m =>
          if m =? REQ_MAGIC then
            match decode_request frame with
            | None => (inl (InvalidData "bad expert request frame"), s)
            | Some req =>
                match write_frame (encode_response (expert req)) (log_call (CallExpert req) s) with
                | (Some e, s) => (inl e, s)
                | (None, s) => (inr tt, s)
                end
            end
          else if m =? AREQ_MAGIC then
            match decode_attn_request frame with
            | None => (inl (InvalidData "bad attention request frame"), s)
            | Some req =>
                match write_frame (encode_attn_response (attn req)) (log_call (CallAttn req) s) with
                | (Some e, s) => (inl e, s)
                | (None, s) => (inr tt, s)
                end
            end
          else (inl (InvalidData "unknown request magic"), s)
      | None => (inl (InvalidData "unknown request magic"), s)
      end
  end.

(** The loop; [None] when the fuel is spent. *)
Fixpoint serve_loop (fuel : nat) (s : Conn) : option (io_error * Conn) :=
  match fuel with
  | O => None
  | S fuel =>
      match serve_step s with
      | (inl e, s) => Some (e, s)
      | (inr _, s) => serve_loop fuel s
      end
  end.

(** The function only ever returns an error: the loop ends by one. *)
Definition serve_conn (fuel : nat) (fingerprint : Z) (s : Conn) : option (io_error * Conn) :=
  match recv_frame s with
  | (inl e, s) => Some (e, s)
  | (inr hello, s) =>
      match decode_hello hello with
      | None => Some (InvalidData "expected a sharding hello as the first frame", s)
      | Some (peer, peer_fp) =>
          if negb (peer_fp =? fingerprint) then
            let '(_, s) := write_frame (encode_hello_ack false fingerprint) s in
            Some (InvalidData "sharding fingerprint mismatch", s)
          else
            match write_frame (encode_hello_ack true fingerprint) s with
            | (Some e, s) => Some (e, s)
            | (None, s) => serve_loop fuel s
            end
      end
  end.

(** The frame that answers a call. *)
Definition reply (c : call) : list Z :=
  match c with
  | CallExpert r => frame_bytes (encode_response (expert r))
  | CallAttn r => frame_bytes (encode_attn_response (attn r))
  end.
End Worker.

(** [serve_experts]: the handler of an expert-only worker for attention calls
    answers a zero partial ([+0.0] is the bit pattern 0).  The allocation of the
    zeros is not modelled: a request that asks for more of them than a vector can
    hold makes the code panic here. *)
Definition zero_attn (req : AttnRequest) : AttnResponse :=
  {| as_outputs := replicate (Z.to_nat (u64 (ar_n_tokens req * ar_hidden req))) 0;
     as_n_tokens := ar_n_tokens req; as_hidden := ar_hidden req |}.

Definition serve_experts (expert : ExpertRequest -> ExpertResponse) (fuel : nat) (fingerprint : Z)
    (s : Conn) : option (io_error * Conn) :=
  serve_conn expert zero_attn fuel fingerprint s.

#[local] Opaque to_le_bytes.

(** ** Framing on a connection *)

(** The connection after [conn_in] was advanced, bytes were written, calls made. *)
Definition conn_at (i o : list Z) (room : nat) (calls : list call) : Conn :=
  {| conn_in := i; conn_out := o; conn_room := room; conn_calls := calls |}.

Lemma recv_frame_conn i o room calls :
  recv_frame (conn_at i o room calls) =
  match read_frame i with
  | inr (p, rest) => (inr p, conn_at rest o room calls)
  | inl e => (inl e, snd (recv_frame (conn_at i o room calls)))
  end.
Proof.
  unfold recv_frame, read_frame, recv_exact, conn_stream. simpl.
  destruct (read_exact 4 i) as [e|[len rest]]; [done|]. simpl.
  destruct (MAX_FRAME <? _); [done|]. by destruct (read_exact (Z.to_nat _) rest) as [e|[p rest']].
Qed.

(** A failed read leaves the written bytes and the calls as they were. *)
Lemma recv_frame_frame s e s' :
  recv_frame s = (e, s') -> conn_out s' = conn_out s /\ conn_room s' = conn_room s /\ conn_calls s' = conn_calls s.
Proof.
  unfold recv_frame, recv_exact, conn_stream. simpl.
  destruct (read_exact 4 (conn_in s)) as [e1|[len rest]]; simpl; [by intros [= <- <-]|].
  destruct (MAX_FRAME <? _); [by intros [= <- <-]|]. simpl.
  by destruct (read_exact (Z.to_nat _) rest) as [e2|[p rest']]; intros [= <- <-].
Qed.

Lemma frame_bytes_length p : length (frame_bytes p) = (4 + length p)%nat.
Proof. unfold frame_bytes. by rewrite length_app, to_le_bytes_length. Qed.

(** With room for the frame it goes out whole. *)
Lemma write_frame_conn p i o room calls :
  (length (frame_bytes p) <= room)%nat ->
  write_frame p (conn_at i o room calls) =
    (None, conn_at i (o ++ frame_bytes p) (room - length (frame_bytes p)) calls).
Proof.
  rewrite frame_bytes_length. intros Hr. unfold write_frame, write_all, conn_stream, conn_at.
  cbn [conn_in conn_out conn_room conn_calls].
  rewrite !to_le_bytes_length. destruct (decide (4 <= room)%nat); [|lia].
  destruct (decide (length p <= room - 4)%nat); [|lia]. unfold frame_bytes.
  rewrite !take_ge by (rewrite ?to_le_bytes_length; lia). rewrite app_assoc. do 2 f_equal. lia.
Qed.

(** In any case what goes out is a prefix of the frame, the whole of it exactly
    when the write succeeds. *)
Lemma write_frame_prefix p s r s' :
  write_frame p s = (r, s') ->
  conn_in s' = conn_in s /\ conn_calls s' = conn_calls s /\
  exists k, conn_out s' = conn_out s ++ take k (frame_bytes p) /\
    (r = None -> conn_out s' = conn_out s ++ frame_bytes p).
Proof.
  destruct s as [i o room calls]. unfold write_frame, frame_bytes.
  generalize (to_le_bytes 4 (len_u32 p)) as w. intros w.
  unfold write_all, conn_stream. cbn [conn_in conn_out conn_room conn_calls].
  destruct (decide (length w <= room)%nat) as [Hw|Hw].
  - intros [= <- <-]. simpl. split_and!; [done..|].
    exists (length w + (room - length w))%nat. rewrite <- app_assoc, (take_ge w) by lia.
    rewrite take_app, (take_ge w), (Nat.add_comm (length w)), Nat.add_sub by lia. split; [done|].
    destruct (decide (length p <= _)%nat) as [Hp|]; [|done]. intros _. by rewrite take_ge.
  - intros [= <- <-]. simpl. split_and!; [done..|]. exists room.
    rewrite take_app_le by lia. done.
Qed.

(** ** What the worker guarantees, whatever the peer sends *)

Section WorkerProofs.
Context (expert : ExpertRequest -> ExpertResponse) (attn : AttnRequest -> AttnResponse).
Notation serve_step := (serve_step expert attn).
Notation serve_loop := (serve_loop expert attn).
Notation serve_conn := (serve_conn expert attn).
Notation reply := (reply expert attn).

Definition replies (calls : list call) : list Z := concat (map reply calls).

(** A frame read off a connection is strictly shorter input. *)
Lemma recv_frame_shrinks s p s' :
  recv_frame s = (inr p, s') -> (length (conn_in s') < length (conn_in s))%nat.
Proof using Type.
  destruct s as [i o room calls]. change (Build_Conn i o room calls) with (conn_at i o room calls).
  rewrite recv_frame_conn. destruct (read_frame i) as [e|[q rest]] eqn:Hr; [done|]. intros [= <- <-].
  simpl. unfold read_frame, read_exact in Hr. destruct (decide _) as [H4|]; [|done].
  destruct (MAX_FRAME <? _); [done|]. destruct (decide _) as [Hn|]; [|done]. injection Hr as <- <-.
  rewrite !length_drop in *. lia.
Qed.

(** One turn: it consumes input, and either answers the call it made in full
    or leaves with at most a prefix of that answer written. *)
Lemma serve_step_spec s r s' :
  serve_step s = (r, s') ->
  (r = inr tt -> (length (conn_in s') < length (conn_in s))%nat) /\
  exists c, conn_calls s' = conn_calls s ++ c /\ (length c <= 1)%nat /\
    (r = inr tt -> conn_out s' = conn_out s ++ replies c) /\
    exists k, conn_out s' = conn_out s ++ take k (replies c).
Proof using Type.
  unfold Server.serve_step. destruct (recv_frame s) as [[e|frame] s1] eqn:Hrecv.
  - intros [= <- <-]. destruct (recv_frame_frame _ _ _ Hrecv) as (-> & _ & ->).
    split; [done|]. exists []. rewrite app_nil_r. split_and!; [done|simpl; lia|done|].
    exists 0%nat. by rewrite take_0, app_nil_r.
  - pose proof (recv_frame_shrinks _ _ _ Hrecv) as Hsh.
    destruct (recv_frame_frame _ _ _ Hrecv) as (Ho & _ & Hc).
    assert (Hbad : forall e, (inl e : io_error + unit, s1) = (r, s') ->
      (r = inr tt -> (length (conn_in s') < length (conn_in s))%nat) /\
      exists c, conn_calls s' = conn_calls s ++ c /\ (length c <= 1)%nat /\
        (r = inr tt -> conn_out s' = conn_out s ++ replies c) /\
        exists k, conn_out s' = conn_out s ++ take k (replies c)).
    { intros e [= <- <-]. split; [done|]. exists []. rewrite app_nil_r.
      split_and!; [done|simpl; lia|done|]. exists 0%nat. by rewrite take_0, app_nil_r. }
    assert (Hgood : forall c payload, reply c = frame_bytes payload ->
      match write_frame payload (log_call c s1) with
      | (Some e, s) => (inl e, s) | (None, s) => (inr tt, s) end = (r, s') ->
      (r = inr tt -> (length (conn_in s') < length (conn_in s))%nat) /\
      exists c, conn_calls s' = conn_calls s ++ c /\ (length c <= 1)%nat /\
        (r = inr tt -> conn_out s' = conn_out s ++ replies c) /\
        exists k, conn_out s' = conn_out s ++ take k (replies c)).
    { intros c payload Hp Hw. destruct (write_frame payload (log_call c s1)) as [[e|] s2] eqn:Hwf;
        apply write_frame_prefix in Hwf as (Hi & Hc2 & k & Hk & Hfull); injection Hw as <- <-;
        simpl in *; (split; [try done; intros _; by rewrite Hi|]); exists [c];
        unfold replies; simpl; rewrite Hp, app_nil_r;
        (split_and!; [by rewrite Hc2, Hc|lia|try done; intros _; by rewrite Hfull, Ho|]);
        exists k; by rewrite Hk, Ho. }
    destruct (slice frame 0 4) as [m|]; [|apply Hbad].
    destruct (from_le_bytes m =? REQ_MAGIC).
    { destruct (decode_request frame) as [req|]; [|apply Hbad]. by apply Hgood. }
    destruct (from_le_bytes m =? AREQ_MAGIC); [|apply Hbad].
    destruct (decode_attn_request frame) as [req|]; [|apply Hbad]. by apply Hgood.
Qed.

Lemma replies_app l k : replies (l ++ k) = replies l ++ replies k.
Proof using Type. unfold replies. by rewrite map_app, concat_app. Qed.

(** The loop ends within one turn per byte of input, having written a prefix
    of the answers to the calls it made. *)
Lemma serve_loop_spec fuel s :
  (length (conn_in s) < fuel)%nat ->
  exists e s' c k, serve_loop fuel s = Some (e, s') /\ conn_calls s' = conn_calls s ++ c /\
    conn_out s' = conn_out s ++ take k (replies c) /\
    (length (replies (removelast c)) <= length (take k (replies c)))%nat.
Proof using Type.
  revert s. induction fuel as [|fuel IH]; intros s Hf; [lia|]. simpl.
  destruct (serve_step s) as [r s1] eqn:Hs. apply serve_step_spec in Hs as (Hsh & c & Hc & Hlc & Hfull & k & Hk).
  destruct r as [e|[]].
  - exists e, s1, c, k. split_and!; [done..|]. destruct c as [|? [|? ?]]; simpl in *; lia.
  - specialize (Hsh eq_refl). specialize (Hfull eq_refl).
    destruct (IH s1) as (e & s' & c' & k' & Hl & Hc' & Ho' & Hrm); [lia|].
    exists e, s', (c ++ c'), (length (replies c) + k')%nat.
    rewrite Hl, Hc', Ho', Hc, Hfull, replies_app, <- !app_assoc, take_app, (take_ge (replies c)) by lia.
    replace (length (replies c) + k' - length (replies c))%nat with k' by lia.
    split_and!; [done..|]. destruct c' as [|x c'].
    + rewrite app_nil_r, length_app. destruct c as [|? [|? ?]]; simpl in *; lia.
    + rewrite removelast_app by done. rewrite replies_app, !length_app. lia.
Qed.

(** C3: the worker is safe against any peer.  Whatever bytes arrive and
    whenever the peer stops reading, [serve_conn] returns (with fuel one more
    than the number of input bytes); a handler is called only if the first
    frame was a hello carrying the worker's own fingerprint; a mismatched
    hello is answered with at most the refusal; and otherwise the bytes sent
    are a prefix of the accepting ack followed by the replies to the calls
    made, in order, at most the last of them incomplete. *)
Theorem serve_conn_guarded fuel fingerprint i room :
  (length i < fuel)%nat ->
  exists e s, serve_conn fuel fingerprint (conn_at i [] room []) = Some (e, s) /\
    match (match read_frame i with inr (hello, _) => decode_hello hello | inl _ => None end) with
    | None => conn_calls s = [] /\ conn_out s = []
    | Some (_, peer_fp) =>
        if peer_fp =? fingerprint
        then (exists k, conn_out s = take k (frame_bytes (encode_hello_ack true fingerprint) ++
                                             replies (conn_calls s))) /\
             (conn_calls s <> [] ->
                (length (frame_bytes (encode_hello_ack true fingerprint) ++
                   replies (removelast (conn_calls s))) <= length (conn_out s))%nat)
        else conn_calls s = [] /\ exists k, conn_out s = take k (frame_bytes (encode_hello_ack false fingerprint))
    end.
Proof using Type.
  intros Hf. unfold Server.serve_conn. rewrite recv_frame_conn.
  destruct (recv_frame (conn_at i [] room [])) as [r0 s0] eqn:Hr0.
  pose proof (recv_frame_frame _ _ _ Hr0) as (Ho0 & _ & Hc0).
  pose proof (recv_frame_conn i [] room []) as Heq. rewrite Hr0 in Heq.
  destruct (read_frame i) as [e|[hello rest]] eqn:Hread; [by eexists _, _|].
  assert (Hlen : (length rest < length i)%nat).
  { injection Heq as -> ->. by apply recv_frame_shrinks in Hr0. }
  destruct (decode_hello hello) as [[peer peer_fp]|]; [|by eexists _, _].
  destruct (peer_fp =? fingerprint); simpl.
  - destruct (write_frame _ (conn_at rest [] room [])) as [[e|] s1] eqn:Hw;
      apply write_frame_prefix in Hw as (Hi & Hc & k & Hk & Hfull); simpl in *.
    + eexists _, _. split; [done|]. rewrite Hc. split; [|done]. exists k. change (replies []) with (@nil Z).
      by rewrite app_nil_r.
    + destruct (serve_loop_spec fuel s1) as (e & s & c & k' & Hl & Hc' & Ho' & Hrm); [rewrite Hi; lia|].
      exists e, s. split; [done|]. rewrite Hc', Hc, Ho', Hfull by done. simpl. split.
      * exists (length (frame_bytes (encode_hello_ack true fingerprint)) + k')%nat.
        rewrite take_app, (take_ge (frame_bytes _)) by lia. do 2 f_equal. lia.
      * intros _. rewrite !length_app. lia.
  - destruct (write_frame _ (conn_at rest [] room [])) as [r s1] eqn:Hw.
    apply write_frame_prefix in Hw as (_ & Hc & k & Hk & _). eexists _, _. split; [done|].
    simpl in *. split; [done|]. by exists k.
Qed.

(** *** A session of well-formed calls *)

Definition call_frame (c : call) : list Z :=
  match c with
  | CallExpert r => frame_bytes (encode_request r)
  | CallAttn r => frame_bytes (encode_attn_request r)
  end.

Definition call_payload (c : call) : list Z :=
  match c with CallExpert r => encode_request r | CallAttn r => encode_attn_request r end.

Definition wf_call (c : call) : Prop :=
  Z.of_nat (length (call_payload c)) <= MAX_FRAME /\
  match c with CallExpert r => wf_request r | CallAttn r => wf_attn_request r end.

Lemma call_payload_magic c :
  exists q, call_payload c =
    to_le_bytes 4 (match c with CallExpert _ => REQ_MAGIC | CallAttn _ => AREQ_MAGIC end) ++ q.
Proof using Type.
  destruct c as [r|r]; simpl.
  - rewrite encode_request_image. by eexists.
  - unfold encode_attn_request, put_f32s. rewrite put_u32s_app, put_sel_app. unfold put_u32.
    rewrite app_nil_l, <- !app_assoc. by eexists.
Qed.

Lemma slice_magic m q : is_u32 m ->
  (let* b := slice (to_le_bytes 4 m ++ q) 0 4 in Some (from_le_bytes b)) = Some m.
Proof using Type.
  intros Hm. change (to_le_bytes 4 m ++ q) with ([] ++ to_le_bytes 4 m ++ q).
  rewrite slice_app by (rewrite ?to_le_bytes_length; done). by rewrite from_to_le_bytes.
Qed.

Lemma serve_step_call c rest o room calls :
  wf_call c -> (length (reply c) <= room)%nat ->
  serve_step (conn_at (call_frame c ++ rest) o room calls) =
    (inr tt, conn_at rest (o ++ reply c) (room - length (reply c)) (calls ++ [c])).
Proof using Type.
  intros [Hmax Hwf] Hroom. unfold Server.serve_step. rewrite recv_frame_conn.
  replace (call_frame c) with (frame_bytes (call_payload c)) by by destruct c.
  rewrite read_frame_app by done.
  assert (Hf : fits (call_payload c ++ [])).
  { rewrite app_nil_r. unfold fits, MAX_FRAME in *. pow2; lia. }
  destruct (call_payload_magic c) as [q Hq]. rewrite Hq at 1.
  rewrite slice_magic by (destruct c; by apply in_u_dec_spec).
  destruct c as [r|r]; simpl in Hroom |- *; rewrite <- (app_nil_r (encode_request r)) || rewrite <- (app_nil_r (encode_attn_request r)).
  - rewrite decode_encode_request by done. unfold log_call. simpl.
    change (Build_Conn rest o room (calls ++ [CallExpert r])) with (conn_at rest o room (calls ++ [CallExpert r])).
    by rewrite write_frame_conn.
  - rewrite decode_encode_attn_request by done. unfold log_call. simpl.
    change (Build_Conn rest o room (calls ++ [CallAttn r])) with (conn_at rest o room (calls ++ [CallAttn r])).
    by rewrite write_frame_conn.
Qed.

Lemma serve_loop_calls cs : forall fuel o room calls,
  Forall wf_call cs -> (length cs < fuel)%nat -> (length (replies cs) <= room)%nat ->
  serve_loop fuel (conn_at (concat (map call_frame cs)) o room calls) =
    Some (UnexpectedEof, conn_at [] (o ++ replies cs) (room - length (replies cs)) (calls ++ cs)).
Proof using Type.
  induction cs as [|c cs IH]; intros fuel o room calls Hwf Hfuel Hroom;
    (destruct fuel as [|fuel]; [simpl in Hfuel; lia|]); cbn [Server.serve_loop map concat].
  - unfold Server.serve_step. simpl. unfold replies. simpl. by rewrite !app_nil_r, Nat.sub_0_r.
  - apply Forall_cons in Hwf as [Hc Hwf]. unfold replies in *. cbn [map concat] in *.
    rewrite length_app in *. rewrite serve_step_call by (done || lia).
    rewrite IH by (done || simpl in *; lia). rewrite <- !app_assoc. simpl.
    by rewrite Nat.sub_add_distr.
Qed.

Lemma serve_conn_calls fuel node fingerprint cs room :
  is_u32 node -> is_u64 fingerprint -> Forall wf_call cs -> (length cs < fuel)%nat ->
  (length (frame_bytes (encode_hello_ack true fingerprint) ++ replies cs) <= room)%nat ->
  exists s, serve_conn fuel fingerprint
      (conn_at (frame_bytes (encode_hello node fingerprint) ++ concat (map call_frame cs)) [] room []) =
      Some (UnexpectedEof, s) /\
    conn_calls s = cs /\
    conn_out s = frame_bytes (encode_hello_ack true fingerprint) ++ replies cs.
Proof using Type.
  intros Hn Hfp Hcs Hfuel Hroom. unfold Server.serve_conn. rewrite recv_frame_conn.
  rewrite read_frame_app by (unfold encode_hello, put_u64, put_u32, MAX_FRAME;
    rewrite !length_app, !to_le_bytes_length; simpl; lia).
  rewrite hello_roundtrip by done. rewrite Z.eqb_refl. simpl.
  rewrite length_app in Hroom. rewrite write_frame_conn by lia.
  rewrite serve_loop_calls by (done || lia). by eexists.
Qed.

(** C4: a session is served completely and in order.  A peer that sends its
    hello with the agreed fingerprint followed by any list of well-formed
    expert and attention requests, and that accepts the answers, gets the
    accepting ack and then exactly the reply to each request in order, each
    handler having been called once per request. *)
Theorem serve_conn_session fuel node fingerprint cs room :
  is_u32 node -> is_u64 fingerprint -> Forall wf_call cs -> (length cs < fuel)%nat ->
  (length (frame_bytes (encode_hello_ack true fingerprint) ++ replies cs) <= room)%nat ->
  exists s, serve_conn fuel fingerprint
      (conn_at (frame_bytes (encode_hello node fingerprint) ++ concat (map call_frame cs)) [] room []) =
      Some (UnexpectedEof, s) /\
    conn_calls s = cs /\
    conn_out s = frame_bytes (encode_hello_ack true fingerprint) ++ replies cs.
Proof using Type. apply serve_conn_calls. Qed.
End WorkerProofs.

#[local] Transparent to_le_bytes.

(** A worker whose experts answer with the activations they were sent. *)
Definition echo_expert (r : ExpertRequest) : ExpertResponse :=
  {| rs_outputs := er_activations r; rs_n_tokens := er_n_tokens r; rs_hidden := er_hidden r |}.

Lemma serve_conn_guarded_witness :
  exists e s, serve_conn echo_expert zero_attn 40 7 (conn_at (frame_bytes (encode_hello 3 8)) [] 99 []) = Some (e, s) /\
    conn_calls s = [] /\ exists k, conn_out s = take k (frame_bytes (encode_hello_ack false 7)).
Proof.
  destruct (serve_conn_guarded echo_expert zero_attn 40 7 (frame_bytes (encode_hello 3 8)) 99) as (e & s & H & Hs).
  - rewrite frame_bytes_length. unfold encode_hello, put_u64, put_u32.
    rewrite !length_app, !to_le_bytes_length. simpl. lia.
  - exists e, s. split; [exact H|]. exact Hs.
Defined.

Lemma serve_conn_session_witness :
  exists s, serve_conn echo_expert zero_attn 2 7
    (conn_at (frame_bytes (encode_hello 3 7) ++ call_frame (CallExpert {| er_experts := [1]; er_weights := [7];
      er_activations := [5; 6]; er_n_tokens := 1; er_hidden := 2; er_layer := 4 |}) ++ []) [] 100 []) =
    Some (UnexpectedEof, s) /\ length (conn_calls s) = 1%nat.
Proof.
  assert (Hwf : wf_call (CallExpert {| er_experts := [1]; er_weights := [7];
      er_activations := [5; 6]; er_n_tokens := 1; er_hidden := 2; er_layer := 4 |})).
  { split; [simpl; unfold MAX_FRAME; lia|].
    constructor; simpl; try (apply in_u_dec_spec; reflexivity); (split; [|reflexivity]);
    repeat first [apply Forall_nil_2 | apply Forall_cons_2; [apply in_u_dec_spec; reflexivity|]]. }
  destruct (serve_conn_session echo_expert zero_attn 2 3 7 [CallExpert {| er_experts := [1]; er_weights := [7];
      er_activations := [5; 6]; er_n_tokens := 1; er_hidden := 2; er_layer := 4 |}] 100)
    as (s & H & Hc & _); [by apply in_u_dec_spec|by apply in_u_dec_spec| |simpl; lia|simpl; lia|].
  - apply Forall_cons_2; [exact Hwf|apply Forall_nil_2].
  - exists s. split; [exact H|]. rewrite Hc. reflexivity.
Defined.
