(* ===== verification/Transport.v ===== *)
(** * The client side of the transport
    ([crates/colibri-cluster/src/net.rs] lines 388-515, [transport.rs], and the
    cluster configuration of [lib.rs])

    The operating system's sockets are parameters over a state [W] the client
    cannot see; [Net] adds the event log the safety theorems speak about and the
    counter that gives every connected [TcpStream] an identity of its own (the
    code owns each stream linearly, so two live streams are never confused).
    Dropping a stream closes it.  The connection table is behind a mutex held
    for a whole [roundtrip] or [verify_peers], so these run one at a time;
    poisoning of that mutex is not modelled. *)

From Stdlib Require Import Ascii.
From S2P Require Import Prelude Wire Server Sharding.
Local Open Scope Z_scope.

Inductive TransportError :=
  | NotConnected
  | RdmaUnavailable
  | FingerprintMismatch (node local remote : Z)
  | Io (what : string).

(** The result of code that can also panic. *)
Inductive outcome (A : Type) := Ret (a : A) | Panic.
Arguments Ret {A} a.
Arguments Panic {A}.

(** ** Single node *)

Definition local_is_local (node : Z) : bool := node =? 0.
Definition local_this_node : Z := 0.
Definition local_exchange (node : Z) (req : ExpertRequest) : TransportError + ExpertResponse :=
  inl NotConnected.
(** The trait's defaults. *)
Definition default_exchange_attn (node : Z) (req : AttnRequest) : TransportError + AttnResponse :=
  inl NotConnected.
Definition default_verify_peers : TransportError + unit := inr tt.

(** ** Configuration from the environment ([lib.rs]) *)

Record ClusterConfig := { num_nodes : Z; this_node : Z }.

(** [str::parse::<u32>]: an optional sign [+], then decimal digits, in range. *)
Definition digit_value (c : Ascii.ascii) : option Z :=
  let n := Z.of_nat (Ascii.nat_of_ascii c) in
  if (48 <=? n) && (n <=? 57) then Some (n - 48) else None.

Fixpoint parse_digits (s : string) (acc : Z) : option Z :=
  match s with
  | EmptyString => Some acc
  | String c s =>
      let* d := digit_value c in
      let v := acc * 10 + d in
      if v <? 2 ^ 32 then parse_digits s v else None
  end.

Definition parse_u32 (s : string) : option Z :=
  match s with
  | EmptyString => None
  | String c s' =>
      if Ascii.eqb c "+"%char then
        match s' with EmptyString => None | _ => parse_digits s' 0 end
      else parse_digits s 0
  end.

Section Env.
(** [std::env::var(..).ok()]. *)
Context (env : string -> option string).

Definition from_env : ClusterConfig :=
  let n := match (let* s := env "COLI_NUM_NODES"%string in parse_u32 s) with
           | Some n => if 1 <=? n then n else 1
           | None => 1
           end in
  let rank := match (let* s := env "COLI_NODE_RANK"%string in parse_u32 s) with
              | Some r => if r <? n then r else 0
              | None => 0
              end in
  {| num_nodes := n; this_node := rank |}.
End Env.

Definition single_config : ClusterConfig := {| num_nodes := 1; this_node := 0 |}.
Definition is_single_node (c : ClusterConfig) : bool := num_nodes c =? 1.
Definition expert_sharding (c : ClusterConfig) (n_experts : Z) := new (num_nodes c) n_experts.
Definition expert_sharding_balanced (c : ClusterConfig) (n_experts : Z) (weights : list Z) :=
  balanced (num_nodes c) n_experts weights.

Lemma parse_digits_u32 s acc v : is_u32 acc -> parse_digits s acc = Some v -> is_u32 v.
Proof.
  revert acc. induction s as [|c s IH]; intros acc Ha; simpl; [by intros [= <-]|].
  destruct (digit_value c) as [d|] eqn:Hd; [|done]. destruct (Z.ltb_spec (acc * 10 + d) (2 ^ 32)); [|done].
  apply IH. unfold digit_value in Hd. destruct (_ && _) eqn:Hr; [|done]. injection Hd as <-.
  apply andb_true_iff in Hr as [H1%Z.leb_le H2%Z.leb_le]. mlia.
Qed.

Lemma parse_u32_u32 s v : parse_u32 s = Some v -> is_u32 v.
Proof.
  assert (H0 : is_u32 0) by by apply in_u_dec_spec.
  destruct s as [|c s]; [done|]. unfold parse_u32. destruct (Ascii.eqb c "+").
  - destruct s; [done|]. by apply parse_digits_u32.
  - by apply parse_digits_u32.
Qed.

(** Whatever the environment holds, the configuration is usable: there is
    at least one node, the rank is one of them, and an unset, malformed or
    out-of-range variable falls back to the single-node values; so the sharding
    built from it gives every expert an owner among the nodes. *)
Theorem from_env_usable env :
  let c := from_env env in
  is_u32 (num_nodes c) /\ 1 <= num_nodes c /\ 0 <= this_node c < num_nodes c /\
  (env "COLI_NUM_NODES"%string = None -> c = single_config) /\
  (forall s, env "COLI_NUM_NODES"%string = Some s -> parse_u32 s = None -> c = single_config).
Proof.
  unfold from_env, single_config. simpl.
  assert (Hn : forall o : option string,
    is_u32 (match (let* s := o in parse_u32 s) with Some n => if 1 <=? n then n else 1 | None => 1 end) /\
    1 <= match (let* s := o in parse_u32 s) with Some n => if 1 <=? n then n else 1 | None => 1 end).
  { intros [s|]; [|split; [by apply in_u_dec_spec|lia]].
    destruct (parse_u32 s) as [n|] eqn:Hp; [|split; [by apply in_u_dec_spec|lia]].
    apply parse_u32_u32 in Hp. destruct (Z.leb_spec 1 n); split; [done|lia|by apply in_u_dec_spec|lia]. }
  assert (Hr : forall (o : option string) n, 1 <= n ->
    0 <= match (let* s := o in parse_u32 s) with Some r => if r <? n then r else 0 | None => 0 end < n).
  { intros [s|] n Hn1; [|lia]. destruct (parse_u32 s) as [r|] eqn:Hp; [|lia].
    apply parse_u32_u32 in Hp. destruct (Z.ltb_spec r n); mlia. }
  destruct (Hn (env "COLI_NUM_NODES"%string)) as [Hn1 Hn2].
  pose proof (Hr (env "COLI_NODE_RANK"%string) _ Hn2) as Hr1.
  split_and!; [done|done|apply Hr1|apply Hr1| |].
  - intros He. rewrite He in *. simpl in *. f_equal. lia.
  - intros s He Hs. rewrite He in *. simpl in *. rewrite Hs in *. f_equal. lia.
Qed.

Lemma from_env_usable_witness :
  from_env (fun v => if String.eqb v "COLI_NUM_NODES" then Some "4x"%string else None) = single_config.
Proof.
  destruct (from_env_usable (fun v => if String.eqb v "COLI_NUM_NODES" then Some "4x"%string else None))
    as (_ & _ & _ & _ & H).
  exact (H "4x"%string eq_refl eq_refl).
Defined.

(** ** TCP *)

Inductive event :=
  | EvConnect (h : nat) (addr : Z) (ok : bool)
  | EvWrite (h : nat) (b : list Z) (ok : bool)
  | EvRead (h : nat) (r : io_error + list Z)
  | EvClose (h : nat).

Record Net (W : Type) := { world : W; next : nat; events : list event }.
Arguments world {W}. Arguments next {W}. Arguments events {W}.
Arguments Build_Net {W}.

(** The sockets of the operating system, by stream identity. *)
Record SocketApi (W : Type) := {
  os_connect : nat -> Z -> W -> option io_error * W;
  os_write : nat -> list Z -> W -> option io_error * W;
  os_read : nat -> nat -> W -> (io_error + list Z) * W;
  os_close : nat -> W -> W
}.
Arguments os_connect {W}. Arguments os_write {W}. Arguments os_read {W}. Arguments os_close {W}.

Definition is_none {A} (o : option A) : bool := match o with None => true | Some _ => false end.

Section Sockets.
Context {W : Type} (os : SocketApi W).

(** [TcpStream::connect]: a new stream, or an error. *)
Definition connect (addr : Z) (n : Net W) : (io_error + nat) * Net W :=
  let h := next n in
  let '(r, w) := os_connect os h addr (world n) in
  let n' := {| world := w; next := S h; events := events n ++ [EvConnect h addr (is_none r)] |} in
  match r with Some e => (inl e, n') | None => (inr h, n') end.

Definition sock_stream (h : nat) : ByteStream (Net W) := {|
  write_all b n :=
    let '(r, w) := os_write os h b (world n) in
    (r, {| world := w; next := next n; events := events n ++ [EvWrite h b (is_none r)] |});
  recv_exact k n :=
    let '(r, w) := os_read os h k (world n) in
    (r, {| world := w; next := next n; events := events n ++ [EvRead h r] |}) |}.

(** The end of a [TcpStream]'s life. *)
Definition drop_stream (h : nat) (n : Net W) : Net W :=
  {| world := os_close os h (world n); next := next n; events := events n ++ [EvClose h] |}.
End Sockets.

Record TcpTransport := { this : Z; peers : gmap Z Z; tcp_fingerprint : Z }.
(** The transport's mutable part: the connection table and the network. *)
Record Client (W : Type) := { net : Net W; conns : gmap Z nat }.
Arguments net {W}. Arguments conns {W}. Arguments Build_Client {W}.

Section Tcp.
Context {W : Type} (os : SocketApi W) (t : TcpTransport).
(** [io::Error]'s [to_string]. *)
Context (show_error : io_error -> string).

Definition tcp_is_local (node : Z) : bool := node =? this t.
Definition tcp_this_node : Z := this t.

Definition connect_and_hello (node addr : Z) (n : Net W) : (TransportError + nat) * Net W :=
  match connect os addr n with
  | (inl e, n) => (inl (Io (show_error e)), n)
  | (inr h, n) =>
      match @write_frame _ (sock_stream os h) (encode_hello (this t) (tcp_fingerprint t)) n with
      | (Some e, n) => (inl (Io (show_error e)), drop_stream os h n)
      | (None, n) =>
          match @recv_frame _ (sock_stream os h) n with
          | (inl e, n) => (inl (Io (show_error e)), drop_stream os h n)
          | (inr ack, n) =>
              match decode_hello_ack ack with
              | None => (inl (Io "bad handshake ack"), drop_stream os h n)
              | Some (ok, peer_fp) =>
                  if negb ok then
                    (inl (FingerprintMismatch node (tcp_fingerprint t) peer_fp), drop_stream os h n)
                  else (inr h, n)
              end
          end
      end
  end.

(** The loop of [verify_peers] over the sorted targets. *)
Fixpoint verify_targets (targets : list (Z * Z)) (c : Client W) : (TransportError + unit) * Client W :=
  match targets with
  | [] => (inr tt, c)
  | (node, addr) :: targets =>
      if decide (is_Some (conns c !! node)) then verify_targets targets c
      else
        match connect_and_hello node addr (net c) with
        | (inl e, n) => (inl e, {| net := n; conns := conns c |})
        | (inr h, n) => verify_targets targets {| net := n; conns := <[node := h]> (conns c) |}
        end
  end.

Definition by_node (a b : Z * Z) : bool := fst a <=? fst b.

Definition verify_peers (c : Client W) : (TransportError + unit) * Client W :=
  verify_targets (sort_by by_node (map_to_list (peers t))) c.

(** The part of an attempt that uses the cached stream; [retry] is what
    follows a failed attempt. *)
Definition use_stream (attempt node : Z) (payload : list Z)
    (retry : Client W -> outcome (TransportError + list Z) * Client W) (c : Client W)
    : outcome (TransportError + list Z) * Client W :=
  match conns c !! node with
  | None => (Panic, c)
  | Some h =>
      let '(r, n) :=
        match @write_frame _ (sock_stream os h) payload (net c) with
        | (Some e, n) => (inl e, n)
        | (None, n) => @recv_frame _ (sock_stream os h) n
        end in
      match r with
      | inr frame => (Ret (inr frame), {| net := n; conns := conns c |})
      | inl e =>
          let c := {| net := drop_stream os h n; conns := delete node (conns c) |} in
          if attempt =? 1 then (Ret (inl (Io (show_error e))), c) else retry c
      end
  end.

(** The attempts of [roundtrip]; an empty list is the [unreachable!()]. *)
Fixpoint attempts (l : list Z) (node addr : Z) (payload : list Z) (c : Client W)
    : outcome (TransportError + list Z) * Client W :=
  match l with
  | [] => (Panic, c)
  | attempt :: l =>
      let retry := attempts l node addr payload in
      if decide (is_Some (conns c !! node)) then use_stream attempt node payload retry c
      else
        match connect_and_hello node addr (net c) with
        | (inr h, n) =>
            use_stream attempt node payload retry {| net := n; conns := <[node := h]> (conns c) |}
        | (inl (FingerprintMismatch _ _ _ as e), n) => (Ret (inl e), {| net := n; conns := conns c |})
        | (inl e, n) =>
            let c := {| net := n; conns := conns c |} in
            if attempt =? 1 then (Ret (inl e), c) else retry c
        end
  end.

Context (show_node : Z -> string). (* [format!] of a node number *)

Definition roundtrip (node : Z) (payload : list Z) (c : Client W)
    : outcome (TransportError + list Z) * Client W :=
  match peers t !! node with
  | None => (Ret (inl (Io ("no address for node " +:+ show_node node))), c)
  | Some addr => attempts [0; 1] node addr payload c
  end.

Definition exchange (node : Z) (req : ExpertRequest) (c : Client W)
    : outcome (TransportError + ExpertResponse) * Client W :=
  match roundtrip node (encode_request req) c with
  | (Panic, c) => (Panic, c)
  | (Ret (inl e), c) => (Ret (inl e), c)
  | (Ret (inr frame), c) =>
      (Ret (match decode_response frame with
            | Some r => inr r
            | None => inl (Io "bad response frame")
            end), c)
  end.

Definition exchange_attn (node : Z) (req : AttnRequest) (c : Client W)
    : outcome (TransportError + AttnResponse) * Client W :=
  match roundtrip node (encode_attn_request req) c with
  | (Panic, c) => (Panic, c)
  | (Ret (inl e), c) => (Ret (inl e), c)
  | (Ret (inr frame), c) =>
      (Ret (match decode_attn_response frame with
            | Some r => inr r
            | None => inl (Io "bad attention response frame")
            end), c)
  end.
End Tcp.

(** [TcpTransport::new]. *)
Definition tcp_new (node : Z) (peers : gmap Z Z) (fingerprint : Z) : TcpTransport :=
  {| this := node; peers := peers; tcp_fingerprint := fingerprint |}.

(** ** What the client does on the network, whatever the network does *)

Definition event_stream (e : event) : nat :=
  match e with EvConnect h _ _ | EvWrite h _ _ | EvRead h _ | EvClose h => h end.

(** Reads and writes on one stream. *)
Definition io_on (h : nat) (e : event) : Prop :=
  event_stream e = h /\ match e with EvRead _ _ | EvWrite _ _ _ => True | _ => False end.

Definition is_connect (e : event) : bool := match e with EvConnect _ _ _ => true | _ => false end.

Section TcpProofs.
Context {W : Type} (os : SocketApi W) (t : TcpTransport) (show_error : io_error -> string).
Local Set Default Proof Using "Type".

Definition hello : list Z := encode_hello (this t) (tcp_fingerprint t).

(** The peer accepted our hello on stream [h]. *)
Definition acked (ev : list event) (h : nat) : Prop :=
  exists ack fp, EvRead h (inr ack) ∈ ev /\ decode_hello_ack ack = Some (true, fp).

(** Nothing but a hello is written on a stream before its ack accepted us. *)
Definition guarded (ev : list event) : Prop :=
  forall p h b ok q, ev = p ++ EvWrite h b ok :: q ->
    b = to_le_bytes 4 (len_u32 hello) \/ b = hello \/ acked p h.

(** The network as seen by the owner of the connection table [cs] and perhaps
    of one more stream [own]: each cached stream is connected to its peer's
    address, accepted and open; every stream ever connected is cached, owned
    or closed. *)
Record net_inv (own : option nat) (cs : gmap Z nat) (n : Net W) : Prop := {
  ni_guarded : guarded (events n);
  ni_fresh : forall e, e ∈ events n -> (event_stream e < next n)%nat;
  ni_conn : forall node h, cs !! node = Some h ->
    (h < next n)%nat /\ acked (events n) h /\ EvClose h ∉ events n /\
    exists addr, peers t !! node = Some addr /\ EvConnect h addr true ∈ events n;
  ni_inj : forall a b h, cs !! a = Some h -> cs !! b = Some h -> a = b;
  ni_closed : forall h addr, EvConnect h addr true ∈ events n ->
    EvClose h ∈ events n \/ (exists node, cs !! node = Some h) \/ own = Some h;
  ni_own : forall h, own = Some h ->
    (h < next n)%nat /\ EvClose h ∉ events n /\ forall node, cs !! node <> Some h
}.

Definition client_inv (c : Client W) : Prop := net_inv None (conns c) (net c).

Lemma acked_app ev new h : acked ev h -> acked (ev ++ new) h.
Proof. intros (a & fp & H & Ha). exists a, fp. by rewrite elem_of_app; auto. Qed.

Lemma guarded_snoc ev e :
  guarded ev ->
  match e with
  | EvWrite h b _ => b = to_le_bytes 4 (len_u32 hello) \/ b = hello \/ acked ev h
  | _ => True
  end -> guarded (ev ++ [e]).
Proof.
  intros Hg He p h b ok q Hev. destruct q as [|e' q _] using rev_ind.
  - apply app_inj_tail in Hev as [-> ->]. done.
  - rewrite app_comm_cons, app_assoc in Hev. apply app_inj_tail in Hev as [-> _]. by eapply Hg.
Qed.

(** Reading and writing on a stream that may be written on. *)
Lemma net_inv_io own cs n n' h new :
  net_inv own cs n -> next n' = next n -> events n' = events n ++ new ->
  Forall (io_on h) new -> (h < next n)%nat ->
  (acked (events n) h \/ forall b ok, EvWrite h b ok ∈ new -> b = to_le_bytes 4 (len_u32 hello) \/ b = hello) ->
  net_inv own cs n'.
Proof.
  intros [Hg Hf Hc Hi Hl Ho] Hn Hev Hio Hh Hw.
  assert (Hg' : guarded (events n ++ new)).
  { clear Hc Hl Hev Ho. induction new as [|e new IH] using rev_ind; [by rewrite app_nil_r|].
    rewrite app_assoc. apply Forall_app in Hio as [Hio He]. apply Forall_cons in He as [[He Hk] _].
    apply guarded_snoc.
    - apply IH; [done|]. destruct Hw as [Hw|Hw]; [by left|right]. intros b ok Hb. apply (Hw b ok), elem_of_app. by left.
    - destruct e; try done; simpl in He; subst. destruct Hw as [Hw|Hw]; [right; right; by apply acked_app|].
      destruct (Hw b ok); [apply elem_of_app; right; by apply list_elem_of_singleton|auto..]. }
  assert (Hkeep : forall e, e ∈ events n' -> match e with EvConnect _ _ _ | EvClose _ => e ∈ events n | _ => True end).
  { intros e. rewrite Hev, elem_of_app. intros [He|He]; [by destruct e|].
    rewrite Forall_forall in Hio. destruct (Hio e He) as [_ Hk]. by destruct e. }
  constructor.
  - by rewrite Hev.
  - intros e. rewrite Hev, Hn, elem_of_app. intros [He|He]; [by apply Hf|].
    rewrite Forall_forall in Hio. by destruct (Hio e He) as [-> _].
  - intros node h' Hcs. destruct (Hc node h' Hcs) as (H1 & H2 & H3 & a & H4 & H5).
    rewrite Hn. split_and!; [done|rewrite Hev; by apply acked_app|by intros Hx%Hkeep|].
    exists a. split; [done|]. rewrite Hev, elem_of_app. by left.
  - done.
  - intros h' a He%Hkeep. destruct (Hl h' a He) as [H|H]; [left|by right]. rewrite Hev, elem_of_app. by left.
  - intros h' Hh'. rewrite Hn. destruct (Ho h' Hh') as (? & ? & ?).
    split_and!; [done|by intros Hx%Hkeep|done].
Qed.

Lemma net_inv_connect cs n addr r n' :
  net_inv None cs n -> connect os addr n = (r, n') ->
  next n' = S (next n) /\ exists ok, events n' = events n ++ [EvConnect (next n) addr ok] /\
    match r with
    | inl _ => ok = false /\ net_inv None cs n'
    | inr h => h = next n /\ ok = true /\ net_inv (Some h) cs n'
    end.
Proof.
  intros [Hg Hf Hc Hi Hl Ho]. unfold connect.
  destruct (os_connect os _ _ _) as [o w]. set (n1 := {| world := w; next := _; events := _ |}).
  assert (Hinv : forall own, (own = if o then None else Some (next n)) -> net_inv own cs n1).
  { intros own Hown. constructor; simpl.
    - by apply guarded_snoc.
    - intros e. rewrite elem_of_app, list_elem_of_singleton. intros [He| ->]; simpl; [specialize (Hf e He)|]; lia.
    - intros node h Hcs. destruct (Hc node h Hcs) as (H1 & H2 & H3 & a & H4 & H5).
      split_and!; [lia|by apply acked_app| |].
      + rewrite elem_of_app, list_elem_of_singleton. by intros [|].
      + exists a. split; [done|]. rewrite elem_of_app. by left.
    - done.
    - intros h a. rewrite elem_of_app, list_elem_of_singleton. intros [He|He].
      + destruct (Hl h a He) as [H|[H|H]]; [left; rewrite elem_of_app; by left|auto|done].
      + destruct o; simpl in *; [by inversion He|]. right; right. injection He as -> _. done.
    - intros h. rewrite Hown. destruct o as [e|]; [done|]. intros [= <-].
      assert (Hn : forall e, e ∈ events n -> event_stream e <> next n) by (intros e He; specialize (Hf e He); lia).
      split_and!; [lia| |].
      + rewrite elem_of_app, list_elem_of_singleton. intros [He|]; [|done]. by apply (Hn _ He).
      + intros node Hcs. destruct (Hc node _ Hcs). lia. }
  destruct o as [e|]; intros [= <- <-]; (split; [done|]); eexists; (split; [done|]); auto.
Qed.

Lemma net_inv_drop h cs n : net_inv (Some h) cs n -> net_inv None cs (drop_stream os h n).
Proof.
  intros [Hg Hf Hc Hi Hl Ho]. destruct (Ho h eq_refl) as (Hh & Hcl & Hnc). constructor; simpl.
  - by apply guarded_snoc.
  - intros e. rewrite elem_of_app, list_elem_of_singleton. intros [He| ->]; [by apply Hf|done].
  - intros node h' Hcs. destruct (Hc node h' Hcs) as (H1 & H2 & H3 & a & H4 & H5).
    split_and!; [lia|by apply acked_app| |].
    + rewrite elem_of_app, list_elem_of_singleton. intros [|[= ->]]; [done|]. by apply (Hnc node).
    + exists a. split; [done|]. rewrite elem_of_app. by left.
  - done.
  - intros h' a. rewrite elem_of_app, list_elem_of_singleton. intros [He|]; [|done].
    destruct (Hl h' a He) as [H|[H|[= <-]]]; [left; rewrite elem_of_app; by left|auto|left].
    rewrite elem_of_app, list_elem_of_singleton. auto.
  - done.
Qed.

Lemma net_inv_insert h cs n node addr :
  net_inv (Some h) cs n -> cs !! node = None -> acked (events n) h ->
  peers t !! node = Some addr -> EvConnect h addr true ∈ events n ->
  net_inv None (<[node := h]> cs) n.
Proof.
  intros [Hg Hf Hc Hi Hl Ho] Hcs Ha Hp He. destruct (Ho h eq_refl) as (Hh & Hcl & Hnc).
  constructor; [done|done| | | |done].
  - intros k h'. rewrite lookup_insert_Some. intros [[<- <-]|[Hk Hcs']]; [|by apply Hc].
    split_and!; try done. by exists addr.
  - intros a b h'. rewrite !lookup_insert_Some. intros [[<- <-]|[? Ha']] [[<- Hb]|[? Hb']]; try done.
    + by apply Hnc in Hb'. + subst h'. by apply Hnc in Ha'. + by eapply Hi.
  - intros h' a He'. destruct (Hl h' a He') as [H|[[k Hk]|[= <-]]]; [by left|right; left|right; left].
    + exists k. rewrite lookup_insert_ne; [done|]. intros <-. by rewrite Hcs in Hk.
    + exists node. by rewrite lookup_insert_eq.
Qed.

Lemma net_inv_delete h cs n node :
  net_inv None cs n -> cs !! node = Some h -> net_inv (Some h) (delete node cs) n.
Proof.
  intros [Hg Hf Hc Hi Hl Ho] Hcs. destruct (Hc node h Hcs) as (H1 & H2 & H3 & a & H4 & H5).
  constructor; [done|done| | | |].
  - intros k h'. rewrite lookup_delete_Some. intros [_ Hk]. by apply (Hc k).
  - intros x y h'. rewrite !lookup_delete_Some. intros [_ Hx] [_ Hy]. by eapply Hi.
  - intros h' a' He'. destruct (Hl h' a' He') as [H|[[k Hk]|]]; [by left| |done].
    destruct (decide (k = node)) as [->|Hne]; [right; right; congruence|right; left].
    exists k. by rewrite lookup_delete_ne.
  - intros h' [= <-]. split_and!; [done|done|]. intros k. rewrite lookup_delete_Some.
    intros [Hne Hk]. apply Hne. by apply (Hi node k h).
Qed.

(** The events of the framing. *)
Lemma write_frame_events h payload n r n' :
  @write_frame _ (sock_stream os h) payload n = (r, n') ->
  next n' = next n /\ exists new, events n' = events n ++ new /\ Forall (io_on h) new /\
    (forall b ok, EvWrite h b ok ∈ new -> b = to_le_bytes 4 (len_u32 payload) \/ b = payload) /\
    (r = None -> new = [EvWrite h (to_le_bytes 4 (len_u32 payload)) true; EvWrite h payload true]).
Proof.
  unfold write_frame, write_all, sock_stream.
  destruct (os_write os h _ (world n)) as [[e|] w]; simpl.
  - intros [= <- <-]. split; [done|]. eexists. split_and!; [done| |intros b ok|done].
    + by repeat constructor.
    + rewrite list_elem_of_singleton. intros [= ->]. by left.
  - destruct (os_write os h payload w) as [r' w'] eqn:Hw. intros [= <- <-]. simpl. split; [done|].
    rewrite <- app_assoc. eexists. split_and!; [done| |intros b ok|].
    + by repeat constructor.
    + simpl. rewrite elem_of_cons, list_elem_of_singleton. intros [[= -> ->]|[= -> ->]]; auto.
    + by intros ->.
Qed.

Lemma recv_frame_events h n r n' :
  @recv_frame _ (sock_stream os h) n = (r, n') ->
  next n' = next n /\ exists new, events n' = events n ++ new /\ Forall (io_on h) new /\
    (forall b ok, EvWrite h b ok ∉ new) /\
    (forall f, r = inr f -> exists len, new = [EvRead h (inr len); EvRead h (inr f)]).
Proof.
  unfold recv_frame, recv_exact, sock_stream.
  assert (Hone : forall r0 r1 b ok, EvWrite h b ok ∉ [EvRead h r0; EvRead h r1]).
  { intros r0 r1 b ok. by rewrite elem_of_cons, list_elem_of_singleton; intros [|]. }
  assert (Hone1 : forall r0 b ok, EvWrite h b ok ∉ [EvRead h r0]).
  { intros r0 b ok. by rewrite list_elem_of_singleton. }
  destruct (os_read os h 4 (world n)) as [[e|len] w]; simpl.
  { intros [= <- <-]. split; [done|]. eexists. split_and!; [done|by repeat constructor|apply Hone1|done]. }
  destruct (MAX_FRAME <? _).
  { intros [= <- <-]. split; [done|]. eexists. split_and!; [done|by repeat constructor|apply Hone1|done]. }
  destruct (os_read os h _ w) as [r' w'] eqn:Hr. intros [= <- <-]. split; [done|]. simpl.
  rewrite <- app_assoc. eexists. split_and!; [done|by repeat constructor|apply Hone|].
  intros f ->. by eexists.
Qed.

(** The events a call added. *)
Definition added (n n' : Net W) (new : list event) : Prop := events n' = events n ++ new.

Definition connects (ev : list event) : nat :=
  length (filter (fun e => is_connect e = true) ev).

Lemma connects_app a b : connects (a ++ b) = (connects a + connects b)%nat.
Proof. unfold connects. by rewrite filter_app, length_app. Qed.

Lemma connects_io h new : Forall (io_on h) new -> connects new = 0%nat.
Proof.
  intros H. unfold connects. rewrite filter_none; [done|].
  rewrite Forall_forall in *. intros e He. destruct (H e He) as [_ Hk]. by destruct e.
Qed.

(** What a refusal is: the peer read our hello and answered [no] with its own
    fingerprint; the stream was then closed. *)
Definition refused (node : Z) (e : TransportError) (ev : list event) : Prop :=
  exists h ack remote p, e = FingerprintMismatch node (tcp_fingerprint t) remote /\
    decode_hello_ack ack = Some (false, remote) /\ ev = p ++ [EvRead h (inr ack); EvClose h].

Lemma connect_and_hello_spec cs n node addr r n' :
  net_inv None cs n -> connect_and_hello os t show_error node addr n = (r, n') ->
  exists new, added n n' new /\ connects new = 1%nat /\
    match r with
    | inr h => net_inv (Some h) cs n' /\ acked (events n') h /\ EvConnect h addr true ∈ events n'
    | inl e => net_inv None cs n' /\ ((exists s, e = Io s) \/ refused node e (events n'))
    end.
Proof.
  intros Hinv. unfold connect_and_hello, added.
  destruct (connect os addr n) as [r1 n1] eqn:Hc.
  apply (net_inv_connect cs) in Hc as (Hn1 & ok & He1 & Hr1); [|done].
  destruct r1 as [e|h].
  { destruct Hr1 as [-> Hinv1]. intros [= <- <-]. eexists. split_and!; [done|done|done|]. left. by eexists. }
  destruct Hr1 as (-> & -> & Hinv1). set (h := next n) in *.
  assert (Hh : (h < next n1)%nat) by (subst h; lia).
  destruct (@write_frame _ (sock_stream os h) _ n1) as [r2 n2] eqn:Hw.
  apply write_frame_events in Hw as (Hn2 & new2 & He2 & Hio2 & Hb2 & _).
  assert (Hinv2 : net_inv (Some h) cs n2).
  { eapply (net_inv_io _ cs n1 n2 h new2); [done..|]. right. intros b k Hb. by apply (Hb2 b k). }
  assert (Hcon : EvConnect h addr true ∈ events n2).
  { rewrite He2, He1, !elem_of_app, list_elem_of_singleton. auto. }
  destruct r2 as [e|].
  { intros [= <- <-]. eexists. simpl. rewrite He2, He1, <- !app_assoc. split_and!; [done| |by apply net_inv_drop|].
    - rewrite !connects_app, (connects_io _ _ Hio2). done.
    - left. by eexists. }
  destruct (@recv_frame _ (sock_stream os h) n2) as [r3 n3] eqn:Hr.
  apply recv_frame_events in Hr as (Hn3 & new3 & He3 & Hio3 & Hb3 & Hf3).
  assert (Hinv3 : net_inv (Some h) cs n3).
  { eapply (net_inv_io _ cs n2 n3 h new3); [done..|lia|]. right. intros b k Hb. by destruct (Hb3 b k). }
  assert (Hfail : forall e, (exists s, e = Io s) \/ refused node e (events n3 ++ [EvClose h]) ->
    (inl e, drop_stream os h n3) = (r, n') ->
    exists new, events n' = events n ++ new /\ connects new = 1%nat /\
      match r with
      | inr h => net_inv (Some h) cs n' /\ acked (events n') h /\ EvConnect h addr true ∈ events n'
      | inl e => net_inv None cs n' /\ ((exists s, e = Io s) \/ refused node e (events n'))
      end).
  { intros e He [= <- <-]. eexists. split_and!; [|  |by apply net_inv_drop|exact He].
    - simpl. rewrite He3, He2, He1, <- !app_assoc. done.
    - rewrite !connects_app, (connects_io _ _ Hio2), (connects_io _ _ Hio3). done. }
  destruct r3 as [e|ack]; [apply Hfail; left; by eexists|].
  destruct (decode_hello_ack ack) as [[[] fp]|] eqn:Hd; simpl; [|apply Hfail|apply Hfail; left; by eexists].
  - destruct (Hf3 ack eq_refl) as [len ->]. intros [= <- <-]. exists ([EvConnect h addr true] ++ new2 ++ [EvRead h (inr len); EvRead h (inr ack)]).
    rewrite He3, He2, He1, <- !app_assoc. split_and!; [done| |done| |].
    + rewrite !connects_app, (connects_io _ _ Hio2). done.
    + exists ack, fp. split; [|done]. rewrite !elem_of_app, !elem_of_cons. auto 10.
    + rewrite !elem_of_app, list_elem_of_singleton. auto.
  - right. destruct (Hf3 ack eq_refl) as [len ->]. rewrite He3.
    exists h, ack, fp, (events n2 ++ [EvRead h (inr len)]). split_and!; [done|done|]. by rewrite <- !app_assoc.
Qed.

(** What a call leaves behind after at most [k] new connections. *)
Definition call_post (k : nat) (node addr : Z) (payload : list Z) (c : Client W)
    (r : outcome (TransportError + list Z)) (c' : Client W) : Prop :=
  client_inv c' /\ exists res new, r = Ret res /\ added (net c) (net c') new /\ (connects new <= k)%nat /\
  match res with
  | inr frame => exists h p len,
      conns c' !! node = Some h /\ EvConnect h addr true ∈ events (net c') /\
      events (net c') = p ++ [EvWrite h (to_le_bytes 4 (len_u32 payload)) true; EvWrite h payload true;
                              EvRead h (inr len); EvRead h (inr frame)]
  | inl e => conns c' !! node = None /\ ((exists s, e = Io s) \/ refused node e (events (net c')))
  end.

Lemma call_post_after k k' node addr payload c c1 new1 r c' :
  added (net c) (net c1) new1 -> (connects new1 + k <= k')%nat ->
  call_post k node addr payload c1 r c' -> call_post k' node addr payload c r c'.
Proof.
  intros H1 Hk (Hinv & res & new & Hr & Hn & Hc & Hres). split; [done|].
  exists res, (new1 ++ new). split_and!; [done| |rewrite connects_app; lia|done].
  unfold added in *. by rewrite Hn, H1, <- app_assoc.
Qed.

Lemma use_stream_spec k attempt node addr payload retry c h r c' :
  client_inv c -> peers t !! node = Some addr -> conns c !! node = Some h ->
  (attempt = 1 \/ forall c1 r c', client_inv c1 -> conns c1 !! node = None -> retry c1 = (r, c') ->
     call_post k node addr payload c1 r c') ->
  use_stream os show_error attempt node payload retry c = (r, c') ->
  call_post k node addr payload c r c'.
Proof.
  intros Hinv Hp Hh Hretry. unfold use_stream. rewrite Hh.
  pose proof (ni_conn _ _ _ Hinv node h Hh) as (Hlt & Hack & Hcl & addr' & Hp' & Hcon).
  assert (addr' = addr) as -> by congruence.
  destruct (@write_frame _ (sock_stream os h) payload (net c)) as [r1 n1] eqn:Hw.
  apply write_frame_events in Hw as (Hn1 & new1 & He1 & Hio1 & _ & Hall).
  assert (Hinv1 : net_inv None (conns c) n1) by (eapply net_inv_io; eauto).
  assert (Hfail : forall e n2 new2, next n2 = next n1 -> events n2 = events n1 ++ new2 ->
    Forall (io_on h) new2 -> net_inv None (conns c) n2 ->
    (let c := {| net := drop_stream os h n2; conns := delete node (conns c) |} in
     if attempt =? 1 then (Ret (inl (Io (show_error e))), c) else retry c) = (r, c') ->
    call_post k node addr payload c r c').
  { intros e n2 new2 _ He2 Hio2 Hinv2. simpl. set (c2 := {| net := drop_stream os h n2; conns := _ |}).
    assert (Hc2 : client_inv c2) by (by apply net_inv_drop, net_inv_delete).
    assert (Hnone : conns c2 !! node = None) by (simpl; by rewrite lookup_delete_eq).
    assert (Hadd : added (net c) (net c2) (new1 ++ new2 ++ [EvClose h])).
    { unfold added. simpl. by rewrite He2, He1, <- !app_assoc. }
    assert (Hcs : connects (new1 ++ new2 ++ [EvClose h]) = 0%nat).
    { by rewrite !connects_app, (connects_io _ _ Hio1), (connects_io _ _ Hio2). }
    destruct (Z.eqb_spec attempt 1) as [->|Hne].
    - intros [= <- <-]. split; [done|]. eexists _, _. split_and!; [done|exact Hadd|lia|]. split; [exact Hnone|].
      left. by eexists.
    - intros Hrt. destruct Hretry as [|Hretry]; [done|].
      eapply (call_post_after k k); [exact Hadd|lia|]. by apply Hretry. }
  destruct r1 as [e|].
  { apply (Hfail e n1 []); [done|by rewrite app_nil_r|constructor|done]. }
  specialize (Hall eq_refl).
  destruct (@recv_frame _ (sock_stream os h) n1) as [r2 n2] eqn:Hr2.
  apply recv_frame_events in Hr2 as (Hn2 & new2 & He2 & Hio2 & Hb2 & Hf2).
  assert (Hinv2 : net_inv None (conns c) n2).
  { eapply (net_inv_io _ _ n1 n2 h new2); [done..|lia|]. right. intros b ok Hb. by destruct (Hb2 b ok). }
  destruct r2 as [e|frame]; [by apply (Hfail e n2 new2)|].
  intros [= <- <-]. destruct (Hf2 frame eq_refl) as [len ->]. split; [done|].
  eexists _, (new1 ++ _). split_and!; [done| | |].
  - unfold added. simpl. by rewrite He2, He1, <- app_assoc.
  - rewrite connects_app, (connects_io _ _ Hio1), (connects_io _ _ Hio2). lia.
  - exists h, (events (net c)), len. simpl. rewrite He2, He1, Hall, <- !app_assoc. split_and!; [done| |done].
    rewrite !elem_of_app. by left.
Qed.

Lemma attempts_spec node addr payload l : forall c r c',
  client_inv c -> peers t !! node = Some addr -> last l = Some 1 ->
  attempts os t show_error l node addr payload c = (r, c') ->
  call_post (length l) node addr payload c r c'.
Proof.
  induction l as [|attempt l IH]; intros c r c' Hinv Hp Hl; [done|]. cbn [attempts length].
  assert (Hretry : attempt = 1 \/ forall c1 r c', client_inv c1 -> conns c1 !! node = None ->
      attempts os t show_error l node addr payload c1 = (r, c') ->
      call_post (length l) node addr payload c1 r c').
  { destruct l as [|x l]; [left; by injection Hl|right]. intros. by apply IH. }
  destruct (decide (is_Some (conns c !! node))) as [[h Hh]|Hnone].
  { intros H. eapply (call_post_after (length l) _ _ _ _ c c []); [by unfold added; rewrite app_nil_r|simpl; lia|].
    by eapply use_stream_spec. }
  apply eq_None_not_Some in Hnone.
  destruct (connect_and_hello os t show_error node addr (net c)) as [[e|h] n] eqn:Hc;
    eapply (connect_and_hello_spec (conns c)) in Hc as (new & Hadd & Hcnt & Hres); [|done| |done].
  - destruct Hres as [Hinv' He].
    assert (Hgive : (Ret (inl e), {| net := n; conns := conns c |}) = (r, c') ->
      call_post (S (length l)) node addr payload c r c').
    { intros [= <- <-]. split; [done|]. eexists _, new. by split_and!; [|exact Hadd|lia|..]. }
    assert (Hmore : (if attempt =? 1 then (Ret (inl e), {| net := n; conns := conns c |})
        else attempts os t show_error l node addr payload {| net := n; conns := conns c |}) = (r, c') ->
      call_post (S (length l)) node addr payload c r c').
    { destruct (Z.eqb_spec attempt 1); [done|]. intros H. destruct Hretry as [|Hretry]; [done|].
      eapply (call_post_after (length l) _ _ _ _ c {| net := n; conns := conns c |}); [exact Hadd|lia|]. by apply Hretry. }
    by destruct e.
  - destruct Hres as (Hinv' & Hack & Hcon). intros H.
    eapply (call_post_after (length l) _ _ _ _ c {| net := n; conns := <[node := h]> (conns c) |}); [exact Hadd|lia|].
    eapply use_stream_spec; [|exact Hp| |exact Hretry|exact H]; [|by apply lookup_insert_eq].
    by eapply net_inv_insert.
Qed.

(** C2: a remote call is safe on any network.  Starting from a consistent
    connection table (the empty one is), [roundtrip] never reaches its
    [unreachable!()] nor unwraps a missing connection, opens at most two
    connections, and leaves the table consistent: nothing but a hello is ever
    written on a stream whose peer has not accepted our fingerprint, and
    every stream opened is cached or closed.  If it returns a frame, the
    frame was read from the cached stream to that node's own address right
    after the payload was written on it; if it fails, no stream to the node
    stays cached, and a fingerprint mismatch is reported exactly as the peer
    answered it, with nothing done after it. *)
Theorem roundtrip_safe show_node node payload c r c' :
  client_inv c -> roundtrip os t show_error show_node node payload c = (r, c') ->
  match peers t !! node with
  | None => c' = c /\ exists s, r = Ret (inl (Io s))
  | Some addr => call_post 2 node addr payload c r c'
  end.
Proof.
  intros Hinv. unfold roundtrip. destruct (peers t !! node) as [addr|] eqn:Hp.
  - intros H. by eapply (attempts_spec node addr payload [0; 1]) in H.
  - intros [= <- <-]. split; [done|]. by eexists.
Qed.

(** The state a transport starts in. *)
Lemma client_inv_init w : client_inv {| net := {| world := w; next := 0; events := [] |}; conns := ∅ |}.
Proof.
  constructor; simpl.
  - intros p h b ok q H. by destruct p.
  - intros e H. by apply not_elem_of_nil in H.
  - done.
  - done.
  - intros h a H. by apply not_elem_of_nil in H.
  - done.
Qed.

Lemma verify_targets_spec targets : forall c r c',
  client_inv c -> (forall node addr, (node, addr) ∈ targets -> peers t !! node = Some addr) ->
  verify_targets os t show_error targets c = (r, c') ->
  client_inv c' /\ (forall node h, conns c !! node = Some h -> conns c' !! node = Some h) /\
  (forall node, is_Some (conns c' !! node) -> is_Some (conns c !! node) \/ exists addr, (node, addr) ∈ targets) /\
  match r with
  | inr _ => forall node addr, (node, addr) ∈ targets -> is_Some (conns c' !! node)
  | inl e => exists node addr, (node, addr) ∈ targets /\ conns c' !! node = None /\
      ((exists s, e = Io s) \/ refused node e (events (net c')))
  end.
Proof.
  induction targets as [|[node addr] targets IH]; intros c r c' Hinv Hp; simpl.
  { intros [= <- <-]. split_and!; [done|done|auto|]. by intros node addr ?%not_elem_of_nil. }
  assert (Hp' : forall k a, (k, a) ∈ targets -> peers t !! k = Some a).
  { intros k a Hk. apply Hp, elem_of_cons. by right. }
  destruct (decide (is_Some (conns c !! node))) as [[h Hh]|Hnone].
  - intros H. destruct (IH c r c' Hinv Hp' H) as (Hinv' & Hmono & Hdom & Hres).
    split_and!; [done|done| |].
    + intros k Hk. destruct (Hdom k Hk) as [|[a Ha]]; [by left|right]. exists a. apply elem_of_cons. by right.
    + destruct r as [e|[]].
      * destruct Hres as (k & a & Ha & Hk). exists k, a. split; [apply elem_of_cons; by right|done].
      * intros k a [[= -> ->]|Hk]%elem_of_cons; [|by eapply Hres]. eexists. by apply Hmono.
  - apply eq_None_not_Some in Hnone.
    destruct (connect_and_hello os t show_error node addr (net c)) as [[e|h] n] eqn:Hc;
      eapply (connect_and_hello_spec (conns c)) in Hc as (new & Hadd & Hcnt & Hres); [|done| |done].
    + destruct Hres as [Hinv' He]. intros [= <- <-]. split_and!; [done|done|auto|].
      exists node, addr. split_and!; [apply elem_of_cons; by left|done|done].
    + destruct Hres as (Hinv' & Hack & Hcon). intros H.
      destruct (IH {| net := n; conns := <[node := h]> (conns c) |} r c') as (Hi & Hmono & Hdom & Hres); [|done|done|].
      { eapply net_inv_insert; eauto. apply Hp, elem_of_cons. by left. }
      split_and!; [done| | |].
      * intros k h' Hk. apply Hmono. simpl. rewrite lookup_insert_ne; [done|]. intros <-. by rewrite Hnone in Hk.
      * intros k Hk. destruct (Hdom k Hk) as [[x Hx]|[a Ha]].
        -- simpl in Hx. apply lookup_insert_Some in Hx as [[<- _]|[_ Hx]]; [right; exists addr; apply elem_of_cons; by left|left; by eexists].
        -- right. exists a. apply elem_of_cons. by right.
      * destruct r as [e|[]].
        -- destruct Hres as (k & a & Ha & Hk). exists k, a. split; [apply elem_of_cons; by right|done].
        -- intros k a [[= -> ->]|Hk]%elem_of_cons; [|by eapply Hres]. exists h. apply Hmono. simpl. apply lookup_insert_eq.
Qed.

(** The startup check covers the cluster.  [verify_peers] keeps the
    connection table consistent and the streams already cached; on success
    every configured peer, and no other node, has a cached stream whose far
    end accepted our fingerprint; on failure it names a configured peer that
    has none. *)
Theorem verify_peers_covers c r c' :
  client_inv c -> verify_peers os t show_error c = (r, c') ->
  client_inv c' /\ (forall node h, conns c !! node = Some h -> conns c' !! node = Some h) /\
  match r with
  | inr _ => forall node, is_Some (conns c' !! node) <-> is_Some (peers t !! node)
  | inl e => exists node, is_Some (peers t !! node) /\ conns c' !! node = None /\
      ((exists s, e = Io s) \/ refused node e (events (net c')))
  end.
Proof.
  intros Hinv H.
  assert (Hts : forall node addr, (node, addr) ∈ sort_by by_node (map_to_list (peers t)) <->
    peers t !! node = Some addr).
  { intros node addr. rewrite (sort_by_perm by_node). apply elem_of_map_to_list. }
  apply verify_targets_spec in H as (Hinv' & Hmono & Hdom & Hres); [|done|intros; by apply Hts].
  split_and!; [done|done|]. destruct r as [e|[]].
  - destruct Hres as (node & addr & Ha%Hts & Hn & He). exists node. split_and!; [by eexists|done|done].
  - intros node. split.
    + intros [h Hh]. destruct (ni_conn _ _ _ Hinv' node h Hh) as (_ & _ & _ & a & Ha & _). by eexists.
    + intros [a Ha%Hts]. by eapply Hres.
Qed.
End TcpProofs.

(** A network whose one peer has already sent [script]. *)
Definition scripted : SocketApi (list Z) := {|
  os_connect h addr w := (None, w);
  os_write h b w := (None, w);
  os_read h n w :=
    match read_exact n w with inl e => (inl e, w) | inr (b, rest) => (inr b, rest) end;
  os_close h w := w |}.

Definition script (ok : bool) (fp : Z) (payload : list Z) : Client (list Z) :=
  {| net := {| world := frame_bytes (encode_hello_ack ok fp) ++ frame_bytes payload; next := 0; events := [] |};
     conns := ∅ |}.

Definition one_peer : TcpTransport := tcp_new 0 {[1 := 5]} 9.
Definition no_text {A} (_ : A) : string := ""%string.

Lemma roundtrip_safe_witness :
  let res := roundtrip scripted one_peer no_text no_text 1 [3; 4] (script true 9 [1; 2]) in
  fst res = Ret (inr [1; 2]) /\ client_inv one_peer (snd res).
Proof.
  split; [vm_compute; reflexivity|].
  exact (proj1 (roundtrip_safe scripted one_peer no_text no_text 1 [3; 4] (script true 9 [1; 2]) _ _
    (client_inv_init one_peer _) (surjective_pairing _))).
Defined.

Lemma verify_peers_covers_witness :
  let res := verify_peers scripted one_peer no_text (script true 9 []) in
  fst res = inr tt /\ (forall node h, conns (script true 9 []) !! node = Some h -> conns (snd res) !! node = Some h).
Proof.
  split; [vm_compute; reflexivity|].
  exact (proj1 (proj2 (verify_peers_covers scripted one_peer no_text (script true 9 []) _ _
    (client_inv_init one_peer _) (surjective_pairing _)))).
Defined.
