(* ===== verification/Cluster.v ===== *)
(** * A client and a worker together
    ([crates/colibri-cluster/src/net.rs])

    [Transport.v]'s client run over sockets whose far end is [Server.v]'s
    worker: a read on a stream returns the next bytes [serve_conn] sends after
    the bytes written so far.  The theorem is the transport's contract: a remote
    call is a call of the remote handler. *)

From S2P Require Import Prelude Wire Server Transport.
Local Open Scope Z_scope.

Record sock := { s_addr : Z; s_sent : list Z; s_pos : nat }.

Section Healthy.
(** The workers by address, and how many bytes a stream carries back. *)
Context (worker_fp : Z -> Z) (expert : Z -> ExpertRequest -> ExpertResponse)
  (attn : Z -> AttnRequest -> AttnResponse) (room : nat).

(** What the worker has sent back on a stream. *)
Definition sock_output (s : sock) : list Z :=
  match serve_conn (expert (s_addr s)) (attn (s_addr s)) (S (length (s_sent s))) (worker_fp (s_addr s))
          (conn_at (s_sent s) [] room []) with
  | Some (_, c) => conn_out c
  | None => []
  end.

Definition healthy : SocketApi (gmap nat sock) := {|
  os_connect h addr w := (None, <[h := {| s_addr := addr; s_sent := []; s_pos := 0 |}]> w);
  os_write h b w :=
    match w !! h with
    | Some s => (None, <[h := {| s_addr := s_addr s; s_sent := s_sent s ++ b; s_pos := s_pos s |}]> w)
    | None => (Some BrokenPipe, w)
    end;
  os_read h n w :=
    match w !! h with
    | Some s =>
        let out := drop (s_pos s) (sock_output s) in
        if decide (n <= length out)%nat
        then (inr (take n out), <[h := {| s_addr := s_addr s; s_sent := s_sent s; s_pos := s_pos s + n |}]> w)
        else (inl UnexpectedEof, w)
    | None => (inl BrokenPipe, w)
    end;
  os_close h w := delete h w |}.
End Healthy.

#[local] Opaque to_le_bytes.

Section Contract.
Context (worker_fp : Z -> Z) (expert : Z -> ExpertRequest -> ExpertResponse)
  (attn : Z -> AttnRequest -> AttnResponse) (room : nat).
Context (t : TcpTransport) (show_error : io_error -> string) (show_node : Z -> string).
Context (Hthis : is_u32 (this t)) (Hfp : is_u64 (tcp_fingerprint t)).
Local Set Default Proof Using "All".
Notation os := (healthy worker_fp expert attn room).
Notation replies a := (replies (expert a) (attn a)).

Definition hello_frame : list Z := frame_bytes (encode_hello (this t) (tcp_fingerprint t)).
Definition ack_frame : list Z := frame_bytes (encode_hello_ack true (tcp_fingerprint t)).

(** The stream [h] after the hello and the calls [cs], every answer read. *)
Definition in_session (w : gmap nat sock) (h : nat) (addr : Z) (cs : list call) : Prop :=
  w !! h = Some {| s_addr := addr; s_sent := hello_frame ++ concat (map call_frame cs);
                   s_pos := length (ack_frame ++ replies addr cs) |} /\
  Forall wf_call cs.

Lemma frame_len (p : list Z) : Z.of_nat (length p) <= MAX_FRAME -> from_le_bytes (to_le_bytes 4 (len_u32 p)) = Z.of_nat (length p).
Proof using Type.
  intros Hp. assert (Z.of_nat (length p) < 2 ^ 32) by (unfold MAX_FRAME in Hp; pow2; lia).
  rewrite len_u32_id by done. rewrite from_to_le_bytes; [done|]. mlia.
Qed.

Lemma calls_fuel cs : (length cs <= length (concat (map call_frame cs)))%nat.
Proof using Type.
  induction cs as [|c cs IH]; [done|]. cbn [map concat length]. rewrite length_app.
  assert (4 <= length (call_frame c))%nat by (destruct c; simpl; rewrite frame_bytes_length; lia). lia.
Qed.

(** After the calls [cs] the worker has sent exactly the ack and the replies. *)
Lemma session_output addr cs pos :
  worker_fp addr = tcp_fingerprint t -> Forall wf_call cs ->
  (length (ack_frame ++ replies addr cs) <= room)%nat ->
  sock_output worker_fp expert attn room
    {| s_addr := addr; s_sent := hello_frame ++ concat (map call_frame cs); s_pos := pos |} =
    ack_frame ++ replies addr cs.
Proof.
  intros Ha Hcs Hroom. unfold sock_output. cbn [s_addr s_sent]. rewrite Ha.
  destruct (serve_conn_calls (expert addr) (attn addr)
    (S (length (hello_frame ++ concat (map call_frame cs)))) (this t) (tcp_fingerprint t) cs room)
    as (s & Hs & _ & Ho); [done..| |done|].
  - rewrite length_app. pose proof (calls_fuel cs). lia.
  - unfold hello_frame in *. rewrite Hs. exact Ho.
Qed.

(** Writing a frame on a stream extends what was sent. *)
Lemma healthy_write h s payload (n : Net (gmap nat sock)) :
  world n !! h = Some s ->
  exists n', @write_frame _ (sock_stream os h) payload n = (None, n') /\
    world n' !! h = Some {| s_addr := s_addr s; s_sent := s_sent s ++ frame_bytes payload; s_pos := s_pos s |}.
Proof using Type.
  intros Hs. unfold write_frame, write_all, sock_stream, os_write, healthy. rewrite Hs. simpl.
  rewrite lookup_insert_eq. simpl. eexists. split; [done|]. simpl. rewrite lookup_insert_eq.
  unfold frame_bytes. by rewrite app_assoc.
Qed.

(** Reading the next frame of the worker's output. *)
Lemma healthy_read h s (n : Net (gmap nat sock)) payload seen rest :
  world n !! h = Some s -> Z.of_nat (length payload) <= MAX_FRAME -> s_pos s = length seen ->
  sock_output worker_fp expert attn room s = seen ++ frame_bytes payload ++ rest ->
  exists n', @recv_frame _ (sock_stream os h) n = (inr payload, n') /\
    world n' !! h = Some {| s_addr := s_addr s; s_sent := s_sent s; s_pos := length (seen ++ frame_bytes payload) |}.
Proof using Type.
  intros Hs Hp Hpos Hout. unfold recv_frame, recv_exact, sock_stream, os_read, healthy.
  rewrite Hs. cbn [world]. rewrite Hout, Hpos, drop_app_length. unfold frame_bytes. rewrite <- !app_assoc.
  assert (Hl : length (to_le_bytes 4 (len_u32 payload)) = 4%nat) by apply to_le_bytes_length.
  rewrite decide_True by (rewrite length_app; lia).
  rewrite take_app_length' by done. rewrite frame_len by done.
  rewrite (proj2 (Z.ltb_ge _ _)) by done. cbn [world]. rewrite lookup_insert_eq. cbn [s_addr s_sent s_pos].
  assert (Hsame : forall pos, sock_output worker_fp expert attn room
    {| s_addr := s_addr s; s_sent := s_sent s; s_pos := pos |} = sock_output worker_fp expert attn room s).
  { done. }
  rewrite Hsame, Hout. unfold frame_bytes. rewrite Nat2Z.id, <- !app_assoc.
  replace (drop (length seen + 4) (seen ++ to_le_bytes 4 (len_u32 payload) ++ payload ++ rest)) with (payload ++ rest).
  2:{ rewrite app_assoc, <- Hl, <- length_app, drop_app_length. done. }
  rewrite decide_True by (rewrite length_app; lia). rewrite take_app_length.
  eexists. split; [done|]. cbn [world]. rewrite lookup_insert_eq. do 2 f_equal. rewrite !length_app, Hl. lia.
Qed.

Lemma in_session_start w h addr :
  w !! h = Some {| s_addr := addr; s_sent := hello_frame; s_pos := length ack_frame |} ->
  in_session w h addr [].
Proof using Type.
  intros Hw. split; [|done]. cbn [map concat]. unfold Server.replies. cbn [map concat]. by rewrite !app_nil_r.
Qed.

Lemma ack_small ok fp : Z.of_nat (length (encode_hello_ack ok fp)) <= MAX_FRAME.
Proof using Type.
  unfold encode_hello_ack, put_u64, put_u32, MAX_FRAME.
  rewrite !length_app, !to_le_bytes_length. simpl. lia.
Qed.

(** Connecting to a worker with the same sharding. *)
Lemma healthy_connect node addr (n : Net (gmap nat sock)) :
  worker_fp addr = tcp_fingerprint t -> (length ack_frame <= room)%nat ->
  exists n', connect_and_hello os t show_error node addr n = (inr (next n), n') /\
    in_session (world n') (next n) addr [].
Proof.
  intros Ha Hroom. unfold connect_and_hello, connect. cbn [os_connect healthy].
  set (n1 := {| world := <[next n := _]> (world n); next := _; events := _ |}). set (h := next n).
  destruct (healthy_write h {| s_addr := addr; s_sent := []; s_pos := 0 |}
    (encode_hello (this t) (tcp_fingerprint t)) n1) as (n2 & -> & Hn2).
  { simpl. apply lookup_insert_eq. }
  cbn [s_addr s_sent s_pos app] in Hn2.
  pose proof (session_output addr [] 0 Ha) as Hout.
  assert (Happ : forall l, l ++ replies addr [] = l) by (intros l; apply app_nil_r).
  rewrite Happ in Hout. specialize (Hout (Forall_nil_2 _) Hroom). cbn [map concat] in Hout. rewrite app_nil_r in Hout.
  edestruct (healthy_read h {| s_addr := addr; s_sent := hello_frame; s_pos := 0 |} n2 (encode_hello_ack true (tcp_fingerprint t)) [] []) as (n3 & -> & Hn3);
    [exact Hn2|apply ack_small|done|exact (eq_trans Hout (eq_sym (app_nil_r _)))|].
  rewrite hello_ack_roundtrip by done. cbn [negb]. eexists. split; [done|]. by apply in_session_start.
Qed.

(** The payload of a reply, and what makes it travel. *)
Definition reply_payload (addr : Z) (cl : call) : list Z :=
  match cl with
  | CallExpert r => encode_response (expert addr r)
  | CallAttn r => encode_attn_response (attn addr r)
  end.

Definition wf_reply (addr : Z) (cl : call) : Prop :=
  Z.of_nat (length (reply_payload addr cl)) <= MAX_FRAME /\
  match cl with
  | CallExpert r => wf_response (expert addr r)
  | CallAttn r => wf_attn_response (attn addr r)
  end.

Lemma replies_snoc addr cs cl :
  replies addr (cs ++ [cl]) = replies addr cs ++ frame_bytes (reply_payload addr cl).
Proof using Type.
  rewrite replies_app. f_equal. unfold Server.replies. cbn [map concat]. rewrite app_nil_r. by destruct cl.
Qed.

(** One call on a stream in session. *)
Lemma healthy_call node h addr cs cl c attempt retry :
  worker_fp addr = tcp_fingerprint t -> conns c !! node = Some h -> in_session (world (net c)) h addr cs ->
  wf_call cl -> wf_reply addr cl -> (length (ack_frame ++ replies addr (cs ++ [cl])) <= room)%nat ->
  exists c', use_stream os show_error attempt node (call_payload cl) retry c =
      (Ret (inr (reply_payload addr cl)), c') /\
    conns c' = conns c /\ in_session (world (net c')) h addr (cs ++ [cl]).
Proof.
  intros Ha Hc [Hw Hcs] Hcl [Hmax Hr] Hroom. unfold use_stream. rewrite Hc.
  destruct (healthy_write h _ (call_payload cl) (net c) Hw) as (n1 & -> & Hn1).
  cbn [s_addr s_sent s_pos] in Hn1.
  assert (Hsent : (hello_frame ++ concat (map call_frame cs)) ++ frame_bytes (call_payload cl) =
    hello_frame ++ concat (map call_frame (cs ++ [cl]))).
  { rewrite map_app, concat_app. cbn [map concat]. rewrite app_nil_r, app_assoc. by destruct cl. }
  rewrite Hsent in Hn1.
  assert (Hcs' : Forall wf_call (cs ++ [cl])) by (apply Forall_app; split; [done|by apply Forall_cons_2]).
  pose proof (session_output addr (cs ++ [cl]) (length (ack_frame ++ replies addr cs)) Ha Hcs' Hroom) as Hout.
  rewrite replies_snoc, app_assoc in Hout. rewrite <- (app_nil_r (frame_bytes (reply_payload _ _))) in Hout.
  destruct (healthy_read h _ n1 (reply_payload addr cl) (ack_frame ++ replies addr cs) [] Hn1 Hmax eq_refl Hout)
    as (n2 & -> & Hn2).
  eexists. split; [done|]. cbn [conns net]. split; [done|]. split; [|done].
  rewrite Hn2. cbn [s_addr s_sent]. by rewrite replies_snoc, app_assoc.
Qed.

(** C1: over a healthy network a remote call is a call of the remote handler.
    For every node whose worker was started with the same sharding map, from
    any point of a session with it (no connection yet, or any calls already
    made on the cached one), [exchange] and [exchange_attn] return exactly
    what the worker's handler returns for that request, bit for bit, and
    extend the session by that one call. *)
Theorem exchange_is_remote_call node addr cs cl c :
  peers t !! node = Some addr -> worker_fp addr = tcp_fingerprint t ->
  (conns c !! node = None /\ cs = [] \/
   exists h, conns c !! node = Some h /\ in_session (world (net c)) h addr cs) ->
  wf_call cl -> wf_reply addr cl -> (length (ack_frame ++ replies addr (cs ++ [cl])) <= room)%nat ->
  exists c' h, conns c' !! node = Some h /\ in_session (world (net c')) h addr (cs ++ [cl]) /\
    match cl with
    | CallExpert r => exchange (healthy worker_fp expert attn room) t show_error show_node node r c = (Ret (inr (expert addr r)), c')
    | CallAttn r => exchange_attn (healthy worker_fp expert attn room) t show_error show_node node r c = (Ret (inr (attn addr r)), c')
    end.
Proof.
  intros Hp Ha Hstart Hcl Hr Hroom.
  assert (Hrt : exists c' h, conns c' !! node = Some h /\ in_session (world (net c')) h addr (cs ++ [cl]) /\
    roundtrip os t show_error show_node node (call_payload cl) c = (Ret (inr (reply_payload addr cl)), c')).
  { unfold roundtrip. rewrite Hp. cbn [attempts]. destruct Hstart as [[Hnone ->]|(h & Hh & Hin)].
    - rewrite decide_False by (rewrite Hnone; by intros [? [=]]).
      destruct (healthy_connect node addr (net c) Ha) as (n' & -> & Hin); [rewrite length_app in Hroom; lia|].
      set (c1 := {| net := n'; conns := <[node := next (net c)]> (conns c) |}).
      destruct (healthy_call node (next (net c)) addr [] cl c1 0 (attempts os t show_error [1] node addr (call_payload cl)))
        as (c' & Huse & Hcs & Hin'); [done|apply lookup_insert_eq|done..|].
      exists c', (next (net c)). split_and!; [|done|exact Huse]. rewrite Hcs. apply lookup_insert_eq.
    - rewrite decide_True by by eexists.
      destruct (healthy_call node h addr cs cl c 0 (attempts os t show_error [1] node addr (call_payload cl)))
        as (c' & Huse & Hcs & Hin'); [done..|].
      exists c', h. split_and!; [|done|exact Huse]. by rewrite Hcs. }
  destruct Hrt as (c' & h & Hc' & Hin & Hrt). exists c', h. split_and!; [done..|].
  destruct Hr as [Hmax Hr]. assert (Hfits : fits (reply_payload addr cl)) by (unfold fits, MAX_FRAME in *; pow2; lia).
  destruct cl as [r|r]; unfold exchange, exchange_attn; cbn [call_payload reply_payload] in *; rewrite Hrt.
  - by rewrite response_roundtrip.
  - by rewrite attn_response_roundtrip.
Qed.

(** Nodes that disagree on the expert map do not compute together.  When
    the worker of a node was started with another sharding fingerprint, a call
    to it fails with [FingerprintMismatch] carrying both fingerprints, after
    one connection, and no stream to it is kept. *)
Theorem exchange_refused node addr r c :
  peers t !! node = Some addr -> worker_fp addr <> tcp_fingerprint t -> is_u64 (worker_fp addr) ->
  (length (frame_bytes (encode_hello_ack false (worker_fp addr))) <= room)%nat -> conns c !! node = None ->
  exists c', exchange (healthy worker_fp expert attn room) t show_error show_node node r c =
      (Ret (inl (FingerprintMismatch node (tcp_fingerprint t) (worker_fp addr))), c') /\
    conns c' = conns c /\ next (net c') = S (next (net c)).
Proof.
  intros Hp Hne Hw Hroom Hnone. unfold exchange, roundtrip. rewrite Hp. cbn [attempts].
  rewrite decide_False by (rewrite Hnone; by intros [? [=]]).
  unfold connect_and_hello, connect. cbn [os_connect healthy].
  set (n1 := {| world := <[next (net c) := _]> _; next := _; events := _ |}). set (h := next (net c)).
  destruct (healthy_write h {| s_addr := addr; s_sent := []; s_pos := 0 |}
    (encode_hello (this t) (tcp_fingerprint t)) n1) as (n2 & Hw2 & Hn2).
  { simpl. apply lookup_insert_eq. }
  rewrite Hw2. cbn [s_addr s_sent s_pos app] in Hn2.
  assert (Hout : sock_output worker_fp expert attn room
    {| s_addr := addr; s_sent := frame_bytes (encode_hello (this t) (tcp_fingerprint t)); s_pos := 0 |} =
    frame_bytes (encode_hello_ack false (worker_fp addr))).
  { unfold sock_output, serve_conn. cbn [s_addr s_sent]. rewrite recv_frame_conn.
    rewrite <- (app_nil_r (frame_bytes (encode_hello _ _))), read_frame_app.
    2:{ unfold encode_hello, put_u64, put_u32, MAX_FRAME. rewrite !length_app, !to_le_bytes_length. simpl. lia. }
    rewrite hello_roundtrip by done. rewrite (proj2 (Z.eqb_neq _ _)) by congruence. cbn [negb].
    by rewrite write_frame_conn. }
  edestruct (healthy_read h {| s_addr := addr; s_sent := hello_frame; s_pos := 0 |} n2 (encode_hello_ack false (worker_fp addr)) [] []) as (n3 & Hr3 & Hn3);
    [exact Hn2|apply ack_small|done|exact (eq_trans Hout (eq_sym (app_nil_r _)))|].
  apply write_frame_events in Hw2 as (Hx2 & _). pose proof (recv_frame_events _ _ _ _ _ Hr3) as (Hx3 & _).
  rewrite Hr3, hello_ack_roundtrip by done. cbn [negb].
  eexists. split; [done|]. split; [done|]. simpl. by rewrite Hx3, Hx2.
Qed.
End Contract.

#[local] Transparent to_le_bytes.

Definition echo_attn (r : AttnRequest) : AttnResponse :=
  {| as_outputs := ar_activations r; as_n_tokens := ar_n_tokens r; as_hidden := ar_hidden r |}.

Definition tiny_request : ExpertRequest :=
  {| er_experts := [1]; er_weights := [7]; er_activations := [5; 6]; er_n_tokens := 1; er_hidden := 2; er_layer := 4 |}.

Definition fresh_client : Client (gmap nat sock) :=
  {| net := {| world := ∅; next := 0; events := [] |}; conns := ∅ |}.

Lemma exchange_is_remote_call_witness :
  exists c', exchange (healthy (fun _ => 9) (fun _ => echo_expert) (fun _ => echo_attn) 200) one_peer no_text no_text 1 tiny_request fresh_client =
    (Ret (inr {| rs_outputs := [5; 6]; rs_n_tokens := 1; rs_hidden := 2 |}), c').
Proof.
  assert (H56 : Forall is_u32 [5; 6]) by
    (repeat first [apply Forall_nil_2 | apply Forall_cons_2; [apply in_u_dec_spec; reflexivity|]]).
  destruct (exchange_is_remote_call (fun _ => 9) (fun _ => echo_expert) (fun _ => echo_attn) 200
    one_peer no_text no_text) with (node := 1) (addr := 5)
    (cs := @nil call) (cl := CallExpert tiny_request) (c := fresh_client) as (c' & h & _ & _ & H).
  - by apply in_u_dec_spec.
  - by apply in_u_dec_spec.
  - reflexivity.
  - reflexivity.
  - left. split; reflexivity.
  - split; [unfold MAX_FRAME; simpl; lia|].
    constructor; simpl; try (apply in_u_dec_spec; reflexivity); (split; [|reflexivity]); try exact H56;
    repeat first [apply Forall_nil_2 | apply Forall_cons_2; [apply in_u_dec_spec; reflexivity|]].
  - split; [unfold MAX_FRAME; simpl; lia|]. split_and!; [by apply in_u_dec_spec|by apply in_u_dec_spec|exact H56|reflexivity].
  - apply Nat.leb_le. vm_compute. reflexivity.
  - exists c'. exact H.
Defined.

Lemma exchange_refused_witness :
  exists c', exchange (healthy (fun _ => 8) (fun _ => echo_expert) (fun _ => echo_attn) 200) one_peer no_text no_text 1 tiny_request fresh_client =
    (Ret (inl (FingerprintMismatch 1 9 8)), c').
Proof.
  destruct (exchange_refused (fun _ => 8) (fun _ => echo_expert) (fun _ => echo_attn) 200
    one_peer no_text no_text) with (node := 1) (addr := 5)
    (r := tiny_request) (c := fresh_client) as (c' & H & _).
  - by apply in_u_dec_spec.
  - by apply in_u_dec_spec.
  - reflexivity.
  - discriminate.
  - by apply in_u_dec_spec.
  - apply Nat.leb_le. vm_compute. reflexivity.
  - reflexivity.
  - exists c'. exact H.
Defined.
