(* ===== verification/Tier.v ===== *)
(** * Hot-store eviction policy ([crates/colibri-core/src/tier.rs])

    Heats and clocks are [u32], scores [u64]; an index out of range panics, which
    the model returns as [None].  The release build does not check overflow, so
    the margins wrap. *)

From S2P Require Import Prelude.
Local Open Scope Z_scope.

Record Swap := { slot : nat; eid : nat; gain : Z }.

(** The scan for the slot with the least score; ties keep the earlier slot. *)
Definition coldest_step (score : nat -> option Z) (pinned : list nat) (cold : option nat) (z : nat)
    : option nat :=
  let* cold := cold in
  let* pz := pinned !! z in
  let* sz := score pz in
  let* pc := pinned !! cold in
  let* sc := score pc in
  Some (if sz <? sc then z else cold).

Definition coldest (score : nat -> option Z) (pinned : list nat) : option nat :=
  fold_left (coldest_step score pinned) (seq 1 (length pinned - 1)) (Some 0%nat).

Definition resident (pinned : list nat) (e : nat) : bool := existsb (Nat.eqb e) pinned.

(** One iteration of [pick_swap]'s second loop, over [(hot, fh)]. *)
Definition hottest_step (pinned : list nat) (st : option nat * Z) (eh : nat * Z) : option nat * Z :=
  let '(hot, fh) := st in
  let '(e, h) := eh in
  if negb (resident pinned e) && (fh <? h) then (Some e, h) else (hot, fh).

(** [heat.iter().enumerate()]. *)
Definition enumerate (heat : list Z) : list (nat * Z) := zip (seq 0 (length heat)) heat.

Definition margin32 (fc : Z) : Z := u32 (u32 (fc + Z.shiftr fc 2) + 4).

Definition pick_swap (heat : list Z) (pinned : list nat) : option (option Swap) :=
  if (length pinned =? 0)%nat || (length heat <? 1)%nat then Some None
  else
    let* cold := coldest (fun e => heat !! e) pinned in
    let '(hot, fh) := fold_left (hottest_step pinned) (enumerate heat) (None, 0) in
    match hot with
    | None => Some None
    | Some hot =>
        let* pc := pinned !! cold in
        let* fc := heat !! pc in
        if fh <=? margin32 fc then Some None
        else Some (Some {| slot := cold; eid := hot; gain := fh - fc |})
    end.

Definition lfru_score (heat last clock : Z) : Z :=
  let age := u32 (clock - last) in
  let recent := if age <? 255 then 255 - age else 0 in
  Z.lor (Z.shiftl heat 8) recent.

Definition evict_score (heat last clock : Z) : Z :=
  let age := u32 (clock - last) in
  let recency := 2 ^ 32 - 1 - age in
  Z.lor (Z.shiftl recency 16) (Z.min heat 65535).

(** The [score] closure of [pick_lfru]. *)
Definition lfru_at (heat last : list Z) (clock : Z) (e : nat) : option Z :=
  let* h := heat !! e in
  let* l := last !! e in
  Some (lfru_score h l clock).

Definition lfru_step (score : nat -> option Z) (pinned : list nat) (st : option (option nat * Z)) (e : nat)
    : option (option nat * Z) :=
  let* (hot, hs) := st in
  let* sc := score e in
  Some (if negb (resident pinned e) && (match hot with None => true | Some _ => hs <? sc end)
        then (Some e, sc) else (hot, hs)).

Definition margin64 (cs : Z) : Z := u64 (u64 (cs + Z.shiftr cs 2) + 1024).

Definition pick_lfru (heat last : list Z) (clock : Z) (pinned : list nat) : option (option Swap) :=
  let nexpert := length heat in
  if (length last <? nexpert)%nat || (length pinned =? 0)%nat || (nexpert <? 1)%nat then Some None
  else
    let score := lfru_at heat last clock in
    let* cold := coldest score pinned in
    let* (hot, hs) := fold_left (lfru_step score pinned) (seq 0 nexpert) (Some (None, 0)) in
    match hot with
    | None => Some None
    | Some hot =>
        let* pc := pinned !! cold in
        let* cs := score pc in
        if hs <=? margin64 cs then Some None
        else Some (Some {| slot := cold; eid := hot; gain := Z.shiftr (hs - cs) 8 |})
    end.

Definition decay (heat : list Z) : list Z := map (fun h => Z.shiftr h 1) heat.

(** ** The scores *)

Definition age (last clock : Z) : Z := u32 (clock - last).

Lemma age_u32 last clock : is_u32 (age last clock).
Proof. apply wrap_in. lia. Qed.

Lemma lfru_score_eq heat last clock :
  is_u32 heat -> lfru_score heat last clock = heat * 256 + (if age last clock <? 255 then 255 - age last clock else 0).
Proof.
  intros Hh. unfold lfru_score. fold (age last clock). pose proof (age_u32 last clock).
  rewrite lor_shiftl_add; [done|lia|mlia|]. destruct (Z.ltb_spec (age last clock) 255); mlia.
Qed.

Lemma evict_score_eq heat last clock :
  is_u32 heat -> evict_score heat last clock = (2 ^ 32 - 1 - age last clock) * 65536 + Z.min heat 65535.
Proof.
  intros Hh. unfold evict_score. fold (age last clock). pose proof (age_u32 last clock).
  rewrite lor_shiftl_add; [done|lia|mlia|mlia].
Qed.

(** The two rankings order as documented.  For [u32] heats and any clock,
    also one that has wrapped: [evict_score] puts the entry unused for longer
    first and breaks ties by heat capped at 65535, [lfru_score] puts the lower
    frequency first and breaks ties by age up to 255; both are below their
    64-bit bound, so neither overflows. *)
Theorem scores_order h1 l1 h2 l2 clock :
  is_u32 h1 -> is_u32 h2 ->
  (evict_score h1 l1 clock < evict_score h2 l2 clock <->
     age l2 clock < age l1 clock \/ age l1 clock = age l2 clock /\ Z.min h1 65535 < Z.min h2 65535) /\
  (lfru_score h1 l1 clock < lfru_score h2 l2 clock <->
     h1 < h2 \/ h1 = h2 /\ Z.min 255 (age l2 clock) < Z.min 255 (age l1 clock)) /\
  0 <= evict_score h1 l1 clock < 2 ^ 48 /\ 0 <= lfru_score h1 l1 clock < 2 ^ 40.
Proof.
  intros H1 H2. rewrite !evict_score_eq, !lfru_score_eq by done.
  pose proof (age_u32 l1 clock). pose proof (age_u32 l2 clock).
  destruct (Z.ltb_spec (age l1 clock) 255), (Z.ltb_spec (age l2 clock) 255); split_and!; try mlia; split; mlia.
Qed.

Lemma scores_order_witness : evict_score 70000 5 4 < evict_score 1 4294967290 4.
Proof.
  apply (proj2 (proj1 (scores_order 70000 5 1 4294967290 4 ltac:(by apply in_u_dec_spec) ltac:(by apply in_u_dec_spec)))).
  left. reflexivity.
Defined.

(** ** The picks *)

(** [cold] is a slot of least score. *)
Definition is_coldest (score : nat -> Z) (pinned : list nat) (cold : nat) : Prop :=
  exists pc, pinned !! cold = Some pc /\ forall z pz, pinned !! z = Some pz -> score pc <= score pz.

Lemma coldest_spec (sc : nat -> option Z) (score : nat -> Z) pinned :
  (forall p, p ∈ pinned -> sc p = Some (score p)) -> pinned <> [] ->
  exists cold, coldest sc pinned = Some cold /\ is_coldest score pinned cold.
Proof.
  intros Hsc Hne. unfold coldest.
  assert (H : forall n, (n < length pinned)%nat -> exists cold pc,
    fold_left (coldest_step sc pinned) (seq 1 n) (Some 0%nat) = Some cold /\
    pinned !! cold = Some pc /\ forall z pz, (z <= n)%nat -> pinned !! z = Some pz -> score pc <= score pz).
  { induction n as [|n IH]; intros Hn.
    - destruct (lookup_lt_is_Some_2 pinned 0 Hn) as [p0 Hp0].
      exists 0%nat, p0. split_and!; [done|done|]. intros z pz Hz Hpz.
      assert (z = 0%nat) as -> by lia. assert (pz = p0) as -> by congruence. lia.
    - destruct IH as (cold & pc & Hf & Hpc & Hmin); [lia|]. rewrite seq_S, fold_left_app, Hf. simpl.
      destruct (lookup_lt_is_Some_2 pinned (S n) Hn) as [p Hp]. rewrite Hp, Hpc.
      rewrite (Hsc p) by (by eapply list_elem_of_lookup_2). rewrite (Hsc pc) by (by eapply list_elem_of_lookup_2).
      assert (Hlast : forall z pz, (z <= S n)%nat -> pinned !! z = Some pz ->
        (z <= n)%nat \/ pz = p).
      { intros z pz Hz Hpz. destruct (decide (z = S n)) as [->|]; [right; congruence|left; lia]. }
      destruct (Z.ltb_spec (score p) (score pc)).
      + exists (S n), p. split_and!; [done|done|]. intros z pz Hz Hpz.
        destruct (Hlast z pz Hz Hpz) as [Hle| ->]; [|lia]. specialize (Hmin z pz Hle Hpz). lia.
      + exists cold, pc. split_and!; [done|done|]. intros z pz Hz Hpz.
        destruct (Hlast z pz Hz Hpz) as [Hle| ->]; [|lia]. by apply (Hmin z). }
  destruct (H (length pinned - 1)%nat) as (cold & pc & Hf & Hpc & Hmin).
  { destruct pinned; [done|simpl; lia]. }
  exists cold. split; [done|]. exists pc. split; [done|]. intros z pz Hpz.
  apply (Hmin z); [|done]. apply lookup_lt_Some in Hpz. lia.
Qed.

Lemma resident_spec pinned e : resident pinned e = true <-> e ∈ pinned.
Proof.
  unfold resident. rewrite existsb_exists. split.
  - intros (x & Hx & ->%Nat.eqb_eq). by apply list_elem_of_In.
  - intros H. exists e. split; [by apply list_elem_of_In|by apply Nat.eqb_refl].
Qed.

(** The hottest of the first experts that are not pinned; none when all are cold
    as [floor]. *)
Definition hottest_of (pinned : list nat) (score : nat -> Z) (floor : Z) (n : nat) (hot : option nat) (fh : Z) : Prop :=
  (forall e, (e < n)%nat -> e ∉ pinned -> score e <= fh) /\
  match hot with
  | Some h => (h < n)%nat /\ h ∉ pinned /\ fh = score h /\ floor < fh
  | None => fh = floor
  end.

Lemma hottest_spec pinned heat :
  let '(hot, fh) := fold_left (hottest_step pinned) (enumerate heat) (None, 0) in
  hottest_of pinned (fun e => default 0 (heat !! e)) 0 (length heat) hot fh.
Proof.
  induction heat as [|h heat IH] using rev_ind.
  - simpl. split; [lia|done].
  - unfold enumerate in *. rewrite length_app, Nat.add_1_r, seq_S, zip_with_app by by rewrite length_seq.
    rewrite fold_left_app. destruct (fold_left _ _ _) as [hot fh]. destruct IH as [Hall Hhot]. simpl.
    assert (Hold : forall e, (e < length heat)%nat -> (heat ++ [h]) !! e = heat !! e).
    { intros e He. by rewrite lookup_app_l. }
    assert (Hnew : (heat ++ [h]) !! length heat = Some h) by by apply list_lookup_middle.
    assert (Hsplit : forall e, (e < S (length heat))%nat -> (e < length heat)%nat \/ e = length heat) by lia.
    destruct (resident pinned (length heat)) eqn:Hr; simpl.
    { apply resident_spec in Hr. split.
      - intros e [He| ->]%Hsplit Hp; [|done]. rewrite Hold by done. by apply Hall.
      - destruct hot as [e|]; [|done]. destruct Hhot as (He & Hp & -> & Hf). rewrite Hold by done.
        split_and!; [lia|done..]. }
    assert (Hnr : length heat ∉ pinned) by (rewrite <- resident_spec; by rewrite Hr).
    destruct (Z.ltb_spec fh h) as [Hlt|Hge].
    + split.
      * intros e [He| ->]%Hsplit Hp; [rewrite Hold by done; specialize (Hall e He Hp); lia|]. rewrite Hnew. simpl. lia.
      * rewrite Hnew. split_and!; [lia|done|done|]. destruct hot; [destruct Hhot as (_ & _ & _ & ?)|subst]; lia.
    + split.
      * intros e [He| ->]%Hsplit Hp; [rewrite Hold by done; by apply Hall|]. rewrite Hnew. simpl. lia.
      * destruct hot as [e|]; [|done]. destruct Hhot as (He & Hp & -> & Hf). rewrite Hold by done.
        split_and!; [lia|done..].
Qed.

Definition heat_of (heat : list Z) (e : nat) : Z := default 0 (heat !! e).

Lemma heat_lookup heat pinned p :
  Forall (fun p => (p < length heat)%nat) pinned -> p ∈ pinned -> heat !! p = Some (heat_of heat p).
Proof.
  rewrite Forall_forall. intros H Hp. destruct (lookup_lt_is_Some_2 heat p) as [h Hh]; [by apply H|].
  unfold heat_of. by rewrite Hh.
Qed.

(** What a swap decision must be: never a panic, and a swap exactly when the
    best candidate outscores the coldest slot by the margin. *)
Definition pick_ok (margin : Z -> Z) (score : nat -> Z) (n : nat) (pinned : list nat) (gain_of : Z -> Z)
    (r : option Swap) : Prop :=
  match r with
  | Some s => is_coldest score pinned (slot s) /\ (eid s < n)%nat /\ eid s ∉ pinned /\
      (forall e, (e < n)%nat -> e ∉ pinned -> score e <= score (eid s)) /\
      exists pc, pinned !! slot s = Some pc /\ margin (score pc) < score (eid s) /\
        gain s = gain_of (score (eid s) - score pc)
  | None => pinned = [] \/ n = 0%nat \/ exists cold pc, is_coldest score pinned cold /\ pinned !! cold = Some pc /\
      forall e, (e < n)%nat -> e ∉ pinned -> score e <= margin (score pc)
  end.

Lemma margin32_id fc : 0 <= fc < 3435973832 -> margin32 fc = fc + fc / 4 + 4.
Proof.
  intros H. unfold margin32. rewrite Z.shiftr_div_pow2 by lia. change (2 ^ 2) with 4.
  assert (0 <= fc / 4 <= 858993457) by (Z.div_mod_to_equations; lia).
  rewrite (wrap_id 32 (fc + fc / 4)) by mlia. apply wrap_id. mlia.
Qed.

Lemma margin64_id cs : 0 <= cs < 2 ^ 40 -> margin64 cs = cs + cs / 4 + 1024.
Proof.
  intros H. unfold margin64. rewrite Z.shiftr_div_pow2 by lia. change (2 ^ 2) with 4.
  assert (0 <= cs / 4 <= cs) by (split; [apply Z.div_pos; lia|apply Z.div_le_upper_bound; lia]).
  rewrite (wrap_id 64 (cs + cs / 4)) by mlia. apply wrap_id. mlia.
Qed.

Lemma pick_swap_ok heat pinned :
  Forall (fun h => 0 <= h < 3435973832) heat -> Forall (fun p => (p < length heat)%nat) pinned ->
  exists r, pick_swap heat pinned = Some r /\
    pick_ok (fun fc => fc + fc / 4 + 4) (heat_of heat) (length heat) pinned (fun g => g) r.
Proof.
  intros Hheat Hpin. unfold pick_swap.
  destruct (Nat.eqb_spec (length pinned) 0) as [Hp|Hp]; [exists None; split; [done|left; by apply length_zero_iff_nil]|].
  destruct (Nat.ltb_spec (length heat) 1) as [Hn|Hn]; [exists None; split; [done|right; left; lia]|]. simpl.
  destruct (coldest_spec (fun e => heat !! e) (heat_of heat) pinned) as (cold & -> & Hcold).
  { intros p Hp'. by apply (heat_lookup heat pinned). } { by intros ->. }
  destruct Hcold as (pc & Hpc & Hmin).
  pose proof (hottest_spec pinned heat) as Hhot. destruct (fold_left _ _ _) as [hot fh].
  destruct Hhot as [Hall Hhot].
  assert (Hfc : heat !! pc = Some (heat_of heat pc)).
  { apply (heat_lookup heat pinned); [done|]. by eapply list_elem_of_lookup_2. }
  assert (Hb : 0 <= heat_of heat pc < 3435973832).
  { rewrite Forall_forall in Hheat. apply Hheat. by eapply list_elem_of_lookup_2. }
  assert (Hq : 0 <= heat_of heat pc / 4) by (apply Z.div_pos; lia).
  destruct hot as [hot|].
  - destruct Hhot as (Hlt & Hnp & -> & Hpos). rewrite Hpc, Hfc, margin32_id by done.
    destruct (Z.leb_spec (default 0 (heat !! hot)) (heat_of heat pc + heat_of heat pc / 4 + 4)) as [Hle|Hgt].
    + exists None. split; [done|]. right; right. exists cold, pc. split_and!; [by exists pc|done|].
      intros e He Hep. specialize (Hall e He Hep). unfold heat_of in *. lia.
    + eexists. split; [done|]. simpl. split_and!; [by exists pc|done|done|done|].
      by exists pc.
  - exists None. split; [done|]. right; right. exists cold, pc. split_and!; [by exists pc|done|].
    intros e He Hep. specialize (Hall e He Hep). unfold heat_of in *. lia.
Qed.

(** [pick_swap] decides correctly, in the range where its 32-bit margin does
    not wrap: it never panics, and it swaps exactly when the hottest expert that
    is not pinned beats the coldest pinned slot by more than a quarter plus
    four, naming that slot, that expert and the difference. *)
Theorem pick_swap_correct heat pinned :
  Forall (fun h => 0 <= h < 3435973832) heat -> Forall (fun p => (p < length heat)%nat) pinned ->
  exists r, pick_swap heat pinned = Some r /\
    pick_ok (fun fc => fc + fc / 4 + 4) (heat_of heat) (length heat) pinned (fun g => g) r.
Proof. apply pick_swap_ok. Qed.

Lemma pick_swap_correct_witness :
  pick_swap [10; 200; 500] [0; 1]%nat = Some (Some {| slot := 0; eid := 2; gain := 490 |}) /\
  (exists r, pick_swap [10; 200; 500] [0; 1]%nat = Some r /\
    pick_ok (fun fc => fc + fc / 4 + 4) (heat_of [10; 200; 500]) 3 [0; 1]%nat (fun g => g) r).
Proof.
  split; [reflexivity|]. apply (pick_swap_correct [10; 200; 500] [0; 1]%nat).
  - repeat first [apply Forall_nil_2 | apply Forall_cons_2; [lia|]].
  - repeat first [apply Forall_nil_2 | apply Forall_cons_2; [simpl; lia|]].
Defined.

(** Above that range the margin wraps: a pinned expert of heat 3,435,973,836 is
    given up for one of heat 100, a loss. *)
Theorem pick_swap_margin_wraps :
  pick_swap [3435973836; 100] [0%nat] = Some (Some {| slot := 0; eid := 1; gain := 100 - 3435973836 |}).
Proof. reflexivity. Qed.

(** No ping-pong.  After a swap was carried out, the same heats never swap
    the evicted expert back in. *)
Theorem pick_swap_no_ping_pong heat pinned s out :
  Forall (fun h => 0 <= h < 3435973832) heat -> Forall (fun p => (p < length heat)%nat) pinned ->
  pick_swap heat pinned = Some (Some s) -> pinned !! slot s = Some out ->
  forall s', pick_swap heat (<[slot s := eid s]> pinned) = Some (Some s') -> eid s' <> out.
Proof.
  intros Hheat Hpin Hs Hout s' Hs' Hback.
  destruct (pick_swap_ok heat pinned Hheat Hpin) as (r & Hr & Hok). rewrite Hs in Hr. injection Hr as <-.
  destruct Hok as (Hcold & Hlt & Hnp & Hbest & pc & Hpc & Hm & _).
  assert (pc = out) as -> by congruence.
  assert (Hpin' : Forall (fun p => (p < length heat)%nat) (<[slot s := eid s]> pinned)) by by apply Forall_insert.
  destruct (pick_swap_ok heat _ Hheat Hpin') as (r & Hr & Hok). rewrite Hs' in Hr. injection Hr as <-.
  destruct Hok as (_ & _ & _ & _ & pc' & Hpc' & Hm' & _). rewrite Hback in Hm'.
  assert (Hnn : forall e, 0 <= heat_of heat e).
  { intros e. unfold heat_of. destruct (heat !! e) as [h|] eqn:He; simpl; [|lia].
    rewrite Forall_forall in Hheat. apply (Hheat h). by eapply list_elem_of_lookup_2. }
  assert (Hq : forall e, 0 <= heat_of heat e / 4) by (intros e; apply Z.div_pos; [done|lia]).
  pose proof (Hq pc'). pose proof (Hq out).
  apply list_lookup_insert_Some in Hpc' as [(_ & Heq & _)|[_ Hpc']]; [rewrite <- Heq in *; lia|].
  destruct Hcold as (p0 & Hp0 & Hmin). specialize (Hmin _ _ Hpc'). assert (p0 = out) as -> by congruence. lia.
Qed.

Lemma pick_swap_no_ping_pong_witness :
  pick_swap [10; 200; 500] [0; 1]%nat = Some (Some {| slot := 0; eid := 2; gain := 490 |}) /\
  pick_swap [10; 200; 500] [2; 1]%nat <> Some (Some {| slot := 1; eid := 0; gain := -190 |}).
Proof.
  split; [reflexivity|]. intros H.
  refine (pick_swap_no_ping_pong [10; 200; 500] [0; 1]%nat {| slot := 0; eid := 2; gain := 490 |} 0%nat
    _ _ eq_refl eq_refl _ H eq_refl).
  - repeat first [apply Forall_nil_2 | apply Forall_cons_2; [lia|]].
  - repeat first [apply Forall_nil_2 | apply Forall_cons_2; [simpl; lia|]].
Defined.

Lemma lfru_loop_spec pinned (sc : nat -> option Z) (score : nat -> Z) n :
  (forall e, (e < n)%nat -> sc e = Some (score e)) ->
  exists hot hs, fold_left (lfru_step sc pinned) (seq 0 n) (Some (None, 0)) = Some (hot, hs) /\
    match hot with
    | Some h => (h < n)%nat /\ h ∉ pinned /\ hs = score h /\ (forall e, (e < n)%nat -> e ∉ pinned -> score e <= hs)
    | None => forall e, (e < n)%nat -> e ∈ pinned
    end.
Proof.
  intros Hsc. induction n as [|n IH]; [exists None, 0; split; [done|lia]|].
  destruct IH as (hot & hs & Hf & Hhot); [intros e He; apply Hsc; lia|].
  rewrite seq_S, fold_left_app, Hf. simpl. rewrite Hsc by lia.
  assert (Hsplit : forall e, (e < S n)%nat -> (e < n)%nat \/ e = n) by lia.
  destruct (resident pinned n) eqn:Hr; simpl.
  { apply resident_spec in Hr. exists hot, hs. split; [done|]. destruct hot as [h|].
    - destruct Hhot as (H1 & H2 & H3 & H4). split_and!; [lia|done|done|]. intros e [He| ->]%Hsplit Hp; [by apply H4|done].
    - intros e [He| ->]%Hsplit; [by apply Hhot|done]. }
  assert (Hnr : n ∉ pinned) by (rewrite <- resident_spec; by rewrite Hr).
  destruct hot as [h|].
  - destruct Hhot as (H1 & H2 & H3 & H4). destruct (Z.ltb_spec hs (score n)).
    + exists (Some n), (score n). split_and!; [done|lia|done|done|]. intros e [He| ->]%Hsplit Hp; [specialize (H4 e He Hp)|]; lia.
    + exists (Some h), hs. split_and!; [done|lia|done|done|]. intros e [He| ->]%Hsplit Hp; [by apply H4|done].
  - exists (Some n), (score n). split_and!; [done|lia|done|done|]. intros e [He| ->]%Hsplit Hp; [by destruct (Hp (Hhot e He))|lia].
Qed.

(** [pick_lfru] decides correctly for all [u32] heats and clocks: it never
    panics when the last-use table covers the experts, and it swaps exactly when
    the best-scored expert that is not pinned beats the worst-scored slot by
    more than a quarter plus four frequency counts. *)
Theorem pick_lfru_correct heat last clock pinned :
  Forall is_u32 heat -> (length heat <= length last)%nat -> Forall (fun p => (p < length heat)%nat) pinned ->
  exists r, pick_lfru heat last clock pinned = Some r /\
    pick_ok (fun cs => cs + cs / 4 + 1024) (fun e => lfru_score (heat_of heat e) (heat_of last e) clock)
      (length heat) pinned (fun g => g / 256) r.
Proof.
  intros Hheat Hlast Hpin. unfold pick_lfru. rewrite (proj2 (Nat.ltb_ge _ _)) by lia. simpl.
  destruct (Nat.eqb_spec (length pinned) 0) as [Hp|Hp]; [exists None; split; [done|left; by apply length_zero_iff_nil]|].
  destruct (Nat.ltb_spec (length heat) 1) as [Hn|Hn]; [exists None; split; [done|right; left; lia]|]. simpl.
  set (score := fun e => lfru_score (heat_of heat e) (heat_of last e) clock).
  assert (Hsc : forall e, (e < length heat)%nat -> lfru_at heat last clock e = Some (score e)).
  { intros e He. unfold lfru_at, score, heat_of.
    destruct (lookup_lt_is_Some_2 heat e He) as [h ->].
    by destruct (lookup_lt_is_Some_2 last e ltac:(lia)) as [l ->]. }
  assert (Hscp : forall p, p ∈ pinned -> lfru_at heat last clock p = Some (score p)).
  { intros p Hp'. apply Hsc. rewrite Forall_forall in Hpin. by apply Hpin. }
  destruct (coldest_spec _ score pinned Hscp) as (cold & -> & Hcold); [by intros ->|].
  destruct (lfru_loop_spec pinned _ score (length heat) Hsc) as (hot & hs & -> & Hhot).
  destruct Hcold as (pc & Hpc & Hmin). pose proof (list_elem_of_lookup_2 _ _ _ Hpc) as Hpcin.
  assert (Hb : 0 <= score pc < 2 ^ 40).
  { unfold score. rewrite lfru_score_eq.
    - pose proof (age_u32 (heat_of last pc) clock) as Ha. assert (is_u32 (heat_of heat pc)) as Hh.
      { unfold heat_of. destruct (heat !! pc) as [h|] eqn:He; [|by apply in_u_dec_spec].
        rewrite Forall_forall in Hheat. apply Hheat. by eapply list_elem_of_lookup_2. }
      destruct (Z.ltb_spec (age (heat_of last pc) clock) 255); mlia.
    - unfold heat_of. destruct (heat !! pc) as [h|] eqn:He; [|by apply in_u_dec_spec].
      rewrite Forall_forall in Hheat. apply Hheat. by eapply list_elem_of_lookup_2. }
  destruct hot as [hot|].
  - destruct Hhot as (Hlt & Hnp & -> & Hall). rewrite Hpc, Hscp, margin64_id by done.
    destruct (Z.leb_spec (score hot) (score pc + score pc / 4 + 1024)) as [Hle|Hgt].
    + exists None. split; [done|]. right; right. exists cold, pc. split_and!; [by exists pc|done|].
      intros e He Hep. specialize (Hall e He Hep). lia.
    + eexists. split; [done|]. simpl. split_and!; [by exists pc|done|done|done|].
      exists pc. split_and!; [done|done|]. by rewrite Z.shiftr_div_pow2 by lia.
  - exists None. split; [done|]. right; right. exists cold, pc. split_and!; [by exists pc|done|].
    intros e He Hep. by destruct (Hep (Hhot e He)).
Qed.

Lemma pick_lfru_correct_witness :
  pick_lfru [10; 200; 500] [0; 0; 7] 9 [0; 1]%nat = Some (Some {| slot := 0; eid := 2; gain := 490 |}) /\
  exists r, pick_lfru [10; 200; 500] [0; 0; 7] 9 [0; 1]%nat = Some r.
Proof.
  split; [reflexivity|].
  destruct (pick_lfru_correct [10; 200; 500] [0; 0; 7] 9 [0; 1]%nat) as (r & Hr & _).
  - repeat first [apply Forall_nil_2 | apply Forall_cons_2; [apply in_u_dec_spec; reflexivity|]].
  - simpl; lia.
  - repeat first [apply Forall_nil_2 | apply Forall_cons_2; [simpl; lia|]].
  - exists r. exact Hr.
Defined.
