(* ===== verification/Json.v ===== *)
(** * The JSON reader ([crates/colibri-json/src/lib.rs]) and the JSON string
    writer of the server ([crates/coli/src/serve.rs], [jstr])

    Strings and texts are lists of bytes.  A number is a binary64 [spec_float];
    [str::parse::<f64>] rounds the decimal value to nearest even.  The parser
    keeps the text and an index, which the bare literals may push past the end;
    a slice out of range panics, which the model returns as [None], like the end
    of the fuel.  The depth of the call stack is not modelled. *)

From Stdlib Require Import SpecFloat.
From S2P Require Import Prelude.
Local Open Scope Z_scope.

(** ** Values *)

Inductive Json :=
  | Null
  | Bool (b : bool)
  | Num (n : spec_float)
  | Str (s : list Z)
  | Arr (a : list Json)
  | Obj (o : JsonObj)
with JsonObj := mkObj (keys : list (list Z)) (vals : list Json) (index : gmap (list Z) nat).

Definition obj_keys (o : JsonObj) : list (list Z) := let '(mkObj ks _ _) := o in ks.
Definition obj_vals (o : JsonObj) : list Json := let '(mkObj _ vs _) := o in vs.
Definition obj_index (o : JsonObj) : gmap (list Z) nat := let '(mkObj _ _ ix) := o in ix.

Definition obj_new : JsonObj := mkObj [] [] ∅.

(** [push]; [vals[i] = val] panics out of range. *)
Definition obj_push (o : JsonObj) (key : list Z) (val : Json) : option JsonObj :=
  match obj_index o !! key with
  | Some i =>
      if decide (i < length (obj_vals o))%nat
      then Some (mkObj (obj_keys o) (<[i := val]> (obj_vals o)) (obj_index o)) else None
  | None =>
      Some (mkObj (obj_keys o ++ [key]) (obj_vals o ++ [val])
                  (<[key := length (obj_keys o)]> (obj_index o)))
  end.

(** [get]: the outer option is the panic of [&self.vals[i]]. *)
Definition obj_get (o : JsonObj) (key : list Z) : option (option Json) :=
  match obj_index o !! key with
  | Some i => let* v := obj_vals o !! i in Some (Some v)
  | None => Some None
  end.

Definition obj_len (o : JsonObj) : nat := length (obj_keys o).
Definition obj_is_empty (o : JsonObj) : bool := (length (obj_keys o) =? 0)%nat.
Definition obj_iter (o : JsonObj) : list (list Z * Json) := zip (obj_keys o) (obj_vals o).

Definition json_get (j : Json) (key : list Z) : option (option Json) :=
  match j with Obj o => obj_get o key | _ => Some None end.

(** [f64 as i64]: truncation toward zero, saturating, [NaN] to 0. *)
Definition clamp_i64 (z : Z) : Z := Z.max (- 2 ^ 63) (Z.min z (2 ^ 63 - 1)).
Definition f64_as_i64 (n : spec_float) : Z :=
  match n with
  | S754_zero _ | S754_nan => 0
  | S754_infinity s => if s then - 2 ^ 63 else 2 ^ 63 - 1
  | S754_finite s m e =>
      let a := Z.shiftl (Zpos m) e in
      clamp_i64 (if s then - a else a)
  end.

Definition as_f64 (j : Json) : option spec_float := match j with Num n => Some n | _ => None end.
Definition as_i64 (j : Json) : option Z := match j with Num n => Some (f64_as_i64 n) | _ => None end.
Definition as_bool (j : Json) : option bool := match j with Bool b => Some b | _ => None end.
Definition as_str (j : Json) : option (list Z) := match j with Str s => Some s | _ => None end.
Definition as_array (j : Json) : option (list Json) := match j with Arr a => Some a | _ => None end.
Definition as_object (j : Json) : option JsonObj := match j with Obj o => Some o | _ => None end.
Definition is_null (j : Json) : bool := match j with Null => true | _ => false end.

(** ** Decimal to binary64 *)

Definition is_ascii_digit (c : Z) : bool := (48 <=? c) && (c <=? 57).

Definition digits_value (l : list Z) : Z := fold_left (fun v c => v * 10 + (c - 48)) l 0.

(** The digits a literal has before its point or exponent. *)
Definition span_digits (l : list Z) : list Z * list Z :=
  let n := scan_while is_ascii_digit l 0 in (take n l, drop n l).

Definition dec_sign (l : list Z) : bool * list Z :=
  match l with
  | c :: l' => if c =? 45 then (true, l') else if c =? 43 then (false, l') else (false, l)
  | [] => (false, [])
  end.

(** The nearest binary64 to [m * 10^e]. *)
Definition dec_to_f64 (neg : bool) (m e : Z) : spec_float :=
  match m with
  | Zpos _ =>
      if 0 <=? e then
        match m * 10 ^ e with
        | Zpos p => binary_round 53 1024 neg p 0
        | _ => S754_zero neg
        end
      else
        let '(q, e', l) := SFdiv_core_binary 53 1024 m 0 (10 ^ (- e)) 0 in
        binary_round_aux 53 1024 neg q e' l
  | _ => S754_zero neg
  end.

(** [str::parse::<f64>] on the characters [parse_num] lets through: a sign,
    digits with at most one point and at least one digit, and an exponent that
    has digits. *)
Definition parse_f64 (l : list Z) : option spec_float :=
  let '(neg, l) := dec_sign l in
  let '(ds, l) := span_digits l in
  let '(fs, l) := match l with
                  | c :: l' => if c =? 46 then span_digits l' else ([], l)
                  | [] => ([], [])
                  end in
  if (length ds + length fs =? 0)%nat then None
  else
    let m := digits_value (ds ++ fs) in
    let e0 := - Z.of_nat (length fs) in
    match l with
    | [] => Some (dec_to_f64 neg m e0)
    | c :: l' =>
        if (c =? 101) || (c =? 69) then
          let '(eneg, l') := dec_sign l' in
          let '(es, rest) := span_digits l' in
          if (length es =? 0)%nat then None
          else match rest with
               | [] => Some (dec_to_f64 neg m (e0 + (if eneg then - digits_value es else digits_value es)))
               | _ => None
               end
        else None
    end.

(** ** UTF-8 *)

Definition in_range (lo hi c : Z) : bool := (lo <=? c) && (c <=? hi).
Definition cont (c : option Z) : bool := match c with Some c => in_range 128 191 c | None => false end.

(** The second byte a leading byte allows, and the length of its sequence; no
    length for a byte that cannot lead. *)
Definition utf8_lead (c : Z) : option (nat * (Z * Z)) :=
  if c <? 128 then Some (1%nat, (0, 0))
  else if in_range 194 223 c then Some (2%nat, (128, 191))
  else if c =? 224 then Some (3%nat, (160, 191))
  else if c =? 237 then Some (3%nat, (128, 159))
  else if in_range 225 239 c then Some (3%nat, (128, 191))
  else if c =? 240 then Some (4%nat, (144, 191))
  else if in_range 241 243 c then Some (4%nat, (128, 191))
  else if c =? 244 then Some (4%nat, (128, 143))
  else None.

(** The first sequence of [l]: its length, and whether it is a whole character;
    an ill-formed one is its maximal well-formed prefix, at least one byte. *)
Definition utf8_unit (l : list Z) : bool * nat :=
  match l with
  | [] => (true, 0%nat)
  | c :: _ =>
      match utf8_lead c with
      | None => (false, 1%nat)
      | Some (n, (lo, hi)) =>
          if (n =? 1)%nat then (true, 1%nat)
          else if negb (match l !! 1%nat with Some d => in_range lo hi d | None => false end) then (false, 1%nat)
          else if (n =? 2)%nat then (true, 2%nat)
          else if negb (cont (l !! 2%nat)) then (false, 2%nat)
          else if (n =? 3)%nat then (true, 3%nat)
          else if negb (cont (l !! 3%nat)) then (false, 3%nat)
          else (true, 4%nat)
      end
  end.

Definition replacement : list Z := [239; 191; 189]. (* U+FFFD *)

Fixpoint lossy_fuel (fuel : nat) (l : list Z) : list Z :=
  match fuel, l with
  | S fuel, _ :: _ =>
      let '(ok, n) := utf8_unit l in
      (if ok then take n l else replacement) ++ lossy_fuel fuel (drop n l)
  | _, _ => []
  end.

(** [String::from_utf8(out)], or [from_utf8_lossy] when it fails. *)
Definition utf8_string (l : list Z) : list Z := lossy_fuel (length l) l.

Fixpoint valid_utf8_fuel (fuel : nat) (l : list Z) : bool :=
  match fuel, l with
  | _, [] => true
  | O, _ => false
  | S fuel, _ => let '(ok, n) := utf8_unit l in ok && valid_utf8_fuel fuel (drop n l)
  end.
Definition valid_utf8 (l : list Z) : bool := valid_utf8_fuel (length l) l.

Definition push_utf8 (out : list Z) (cp : Z) : list Z :=
  if cp <? 128 then out ++ [cp]
  else if cp <? 2048 then out ++ [Z.lor 192 (u8 (Z.shiftr cp 6)); Z.lor 128 (u8 (Z.land cp 63))]
  else if cp <? 65536 then
    out ++ [Z.lor 224 (u8 (Z.shiftr cp 12)); Z.lor 128 (u8 (Z.land (Z.shiftr cp 6) 63));
            Z.lor 128 (u8 (Z.land cp 63))]
  else
    out ++ [Z.lor 240 (u8 (Z.shiftr cp 18)); Z.lor 128 (u8 (Z.land (Z.shiftr cp 12) 63));
            Z.lor 128 (u8 (Z.land (Z.shiftr cp 6) 63)); Z.lor 128 (u8 (Z.land cp 63))].

(** ** The parser *)

Section Parser.
Context (b : list Z). (* the text *)

Definition cur (i : nat) : Z := default 0 (b !! i).
Definition peek (i ahead : nat) : Z := default 0 (b !! (i + ahead)%nat).

(** [u8::is_ascii_whitespace]: tab, line feed, form feed, return, space. *)
Definition is_ws (c : Z) : bool := (c =? 9) || (c =? 10) || (c =? 12) || (c =? 13) || (c =? 32).
Definition ws (i : nat) : nat := scan_while is_ws b i.

Definition hex_digit (c : Z) : option Z :=
  if in_range 48 57 c then Some (c - 48)
  else if in_range 97 102 c then Some (c - 97 + 10)
  else if in_range 65 70 c then Some (c - 65 + 10)
  else None.

Fixpoint hex_loop (n : nat) (v : Z) (i : nat) : Z * nat :=
  match n with
  | O => (v, i)
  | S n => match hex_digit (cur i) with
           | Some d => hex_loop n (u32 (v * 16 + d)) (S i)
           | None => (v, i)
           end
  end.
Definition hex4 (i : nat) : Z * nat := hex_loop 4 0 i.

(** The escape after a backslash at [i - 1]; [b[i]] is there. *)
Definition parse_escape (i : nat) (out : list Z) : list Z * nat :=
  let e := cur i in
  let i := S i in
  if e =? 110 then (out ++ [10], i)
  else if e =? 116 then (out ++ [9], i)
  else if e =? 114 then (out ++ [13], i)
  else if e =? 98 then (out ++ [8], i)
  else if e =? 102 then (out ++ [12], i)
  else if e =? 47 then (out ++ [47], i)
  else if e =? 92 then (out ++ [92], i)
  else if e =? 34 then (out ++ [34], i)
  else if e =? 117 then
    let '(cp, i) := hex4 i in
    if in_range 55296 56319 cp && (peek i 0 =? 92) && (peek i 1 =? 117) then
      let '(lo, i') := hex4 (i + 2) in
      if in_range 56320 57343 lo
      then (push_utf8 out (u32 (65536 + Z.shiftl (cp - 55296) 10 + (lo - 56320))), i')
      else (push_utf8 out cp, i)
    else (push_utf8 out cp, i)
  else (out ++ [e], i).

Fixpoint str_loop (fuel : nat) (i : nat) (out : list Z) : option (list Z * nat) :=
  match fuel with
  | O => None
  | S fuel =>
      match b !! i with
      | None => Some (out, i)
      | Some c =>
          if c =? 34 then Some (out, i)
          else
            let i := S i in
            if (c =? 92) && (i <? length b)%nat
            then let '(out, i) := parse_escape i out in str_loop fuel i out
            else str_loop fuel i (out ++ [c])
      end
  end.

Definition parse_str_raw (i : nat) : option (list Z * nat) :=
  let i := if cur i =? 34 then S i else i in
  let* (out, i) := str_loop (S (length b)) i [] in
  let i := if cur i =? 34 then S i else i in
  Some (utf8_string out, i).

(** Past a sign at [e], if there is one. *)
Definition skip_sign (e : nat) : nat :=
  match b !! e with
  | Some c => if (c =? 43) || (c =? 45) then S e else e
  | None => e
  end.
Definition num_char (c : Z) : bool := is_ascii_digit c || (c =? 46).
(** Where the number starting at [start] ends. *)
Definition num_end (start : nat) : nat :=
  let e := scan_while num_char b (skip_sign start) in
  match b !! e with
  | Some c => if (c =? 101) || (c =? 69) then scan_while is_ascii_digit b (skip_sign (S e)) else e
  | None => e
  end.

(** [parse_num]; the slice panics if the index is past the end. *)
Definition parse_num (start : nat) : option (spec_float * nat) :=
  let e := num_end start in
  let* s := slice b start e in
  Some (default (S754_zero false) (parse_f64 s), e).

Fixpoint parse_val (fuel : nat) (i : nat) : option (Json * nat) :=
  match fuel with
  | O => None
  | S fuel =>
      let i := ws i in
      let c := cur i in
      if c =? 34 then let* (s, i) := parse_str_raw i in Some (Str s, i)
      else if c =? 123 then
        let i := ws (S i) in
        if cur i =? 125 then Some (Obj obj_new, S i)
        else let* (o, i) := obj_loop fuel obj_new i in Some (Obj o, i)
      else if c =? 91 then
        let i := ws (S i) in
        if cur i =? 93 then Some (Arr [], S i)
        else let* (a, i) := arr_loop fuel [] i in Some (Arr a, i)
      else if c =? 116 then Some (Bool true, (i + 4)%nat)
      else if c =? 102 then Some (Bool false, (i + 5)%nat)
      else if c =? 110 then Some (Null, (i + 4)%nat)
      else let* (n, i) := parse_num i in Some (Num n, i)
  end
with obj_loop (fuel : nat) (o : JsonObj) (i : nat) : option (JsonObj * nat) :=
  match fuel with
  | O => None
  | S fuel =>
      let i := ws i in
      let* (key, i) := parse_str_raw i in
      let i := ws i in
      let i := if cur i =? 58 then S i else i in
      let* (val, i) := parse_val fuel i in
      let* o := obj_push o key val in
      let i := ws i in
      if cur i =? 44 then obj_loop fuel o (S i)
      else if cur i =? 125 then Some (o, S i)
      else Some (o, i)
  end
with arr_loop (fuel : nat) (a : list Json) (i : nat) : option (list Json * nat) :=
  match fuel with
  | O => None
  | S fuel =>
      let* (val, i) := parse_val fuel i in
      let a := a ++ [val] in
      let i := ws i in
      if cur i =? 44 then arr_loop fuel a (S i)
      else if cur i =? 93 then Some (a, S i)
      else Some (a, i)
  end.
End Parser.

(** One level of the tree, or one separator, costs a byte; each byte pays for
    at most two calls. *)
Definition parse_fuel (text : list Z) : nat := 2 * length text + 2.

(** [Json::parse]: outer [None] is a panic or the end of the fuel. *)
Definition parse (text : list Z) : option (option Json) :=
  if (length text =? 0)%nat then Some None
  else let* (j, _) := parse_val text (parse_fuel text) 0 in Some (Some j).

(** ** The writer of JSON strings in the server's responses *)

(** [format!] of a byte below 32 with [{:04x}]. *)
Definition hex_char (d : Z) : Z := if d <? 10 then 48 + d else 87 + d.
Definition jstr_char (c : Z) : list Z :=
  if c =? 34 then [92; 34]
  else if c =? 92 then [92; 92]
  else if c =? 10 then [92; 110]
  else if c =? 13 then [92; 114]
  else if c =? 9 then [92; 116]
  else if c <? 32 then [92; 117; 48; 48; hex_char (c / 16); hex_char (c mod 16)]
  else [c].

(** [jstr]; bytes of a multi-byte character are above 127 and pass through. *)
Definition jstr (s : list Z) : list Z := [34] ++ concat (map jstr_char s) ++ [34].

Example parse_sample :
  parse [123; 34; 97; 34; 58; 91; 49; 46; 53; 44; 45; 50; 93; 125] =
  Some (Some (Obj (mkObj [[97]] [Arr [Num (S754_finite false 6755399441055744 (-52)); Num (S754_finite true 4503599627370496 (-51))]]
    {[ [97] := 0%nat ]}))).
Proof. vm_compute. reflexivity. Qed.

(** ** Objects *)

(** The keys are distinct and [index] is their position. *)
Record obj_wf (o : JsonObj) : Prop := {
  ow_len : length (obj_keys o) = length (obj_vals o);
  ow_index : forall k i, obj_index o !! k = Some i <-> obj_keys o !! i = Some k
}.

Lemma obj_new_wf : obj_wf obj_new.
Proof. split; [done|]. intros k i. simpl. by rewrite lookup_empty. Qed.

Lemma obj_push_wf o key val : obj_wf o -> exists o', obj_push o key val = Some o' /\ obj_wf o'.
Proof.
  destruct o as [ks vs ix]. intros [Hl Hi]. simpl in *. unfold obj_push. simpl.
  destruct (ix !! key) as [i|] eqn:Hk.
  - assert (Hlt : (i < length vs)%nat) by (rewrite <- Hl; by eapply lookup_lt_Some, Hi).
    rewrite decide_True by done. eexists. split; [done|]. split; simpl; [|done].
    by rewrite length_insert.
  - eexists. split; [done|]. split; simpl; [rewrite !length_app, Hl; done|].
    intros k i. rewrite lookup_insert_Some, lookup_snoc_Some. split.
    + intros [[<- <-]|[Hne Hx]]; [right; done|left]. apply Hi in Hx. split; [by eapply lookup_lt_Some|done].
    + intros [[Hlt Hx]|[-> <-]]; [right|by left]. apply Hi in Hx. split; [|done].
      intros <-. by rewrite Hk in Hx.
Qed.

Definition obj_lookup (o : JsonObj) (key : list Z) : option Json := default None (obj_get o key).

(** A JSON object is a map that remembers first insertion.  From the empty
    object, [push] never panics and keeps keys and index consistent; afterwards
    [get] finds the new value under its key and the old one under every other,
    a repeated key keeps its place and its last value, and a new key goes to the
    end of the iteration order. *)
Theorem obj_push_map o key val :
  obj_wf o ->
  exists o', obj_push o key val = Some o' /\ obj_wf o' /\
    obj_get o' key = Some (Some val) /\ (forall k, k <> key -> obj_get o' k = obj_get o k) /\
    (forall k, exists v, obj_get o k = Some v) /\
    obj_keys o' = (if decide (key ∈ obj_keys o) then obj_keys o else obj_keys o ++ [key]) /\
    NoDup (obj_keys o').
Proof.
  intros Hwf. destruct (obj_push_wf o key val Hwf) as (o' & Ho' & Hwf').
  assert (Hnd : forall o, obj_wf o -> NoDup (obj_keys o)).
  { intros x [Hl Hi]. apply NoDup_alt. intros i j k H1%Hi H2%Hi. congruence. }
  exists o'. split_and!; [done|done|..|by apply Hnd].
  - destruct o as [ks vs ix]. destruct Hwf as [Hl Hi]. simpl in *. unfold obj_push in Ho'. simpl in Ho'.
    unfold obj_get. destruct (ix !! key) as [i|] eqn:Hk.
    + rewrite decide_True in Ho' by (rewrite <- Hl; by eapply lookup_lt_Some, Hi). injection Ho' as <-. simpl.
      rewrite Hk, list_lookup_insert_eq; [done|]. rewrite <- Hl. by eapply lookup_lt_Some, Hi.
    + injection Ho' as <-. simpl. by rewrite lookup_insert_eq, Hl, list_lookup_middle.
  - intros k Hne. destruct o as [ks vs ix]. destruct Hwf as [Hl Hi]. simpl in *. unfold obj_push in Ho'. simpl in Ho'.
    unfold obj_get. destruct (ix !! key) as [i|] eqn:Hk.
    + rewrite decide_True in Ho' by (rewrite <- Hl; by eapply lookup_lt_Some, Hi). injection Ho' as <-. simpl.
      destruct (ix !! k) as [j|] eqn:Hj; [|done]. rewrite list_lookup_insert_ne; [done|].
      intros <-. apply Hi in Hk, Hj. congruence.
    + injection Ho' as <-. simpl. rewrite lookup_insert_ne by done. destruct (ix !! k) as [j|] eqn:Hj; [|done].
      rewrite lookup_app_l; [done|]. rewrite <- Hl. by eapply lookup_lt_Some, Hi.
  - intros k. destruct o as [ks vs ix]. destruct Hwf as [Hl Hi]. unfold obj_get. simpl in *.
    destruct (ix !! k) as [j|] eqn:Hj; [|by eexists].
    destruct (lookup_lt_is_Some_2 vs j) as [v ->]; [rewrite <- Hl; by eapply lookup_lt_Some, Hi|by eexists].
  - destruct o as [ks vs ix]. destruct Hwf as [Hl Hi]. simpl in *. unfold obj_push in Ho'. simpl in Ho'.
    destruct (ix !! key) as [i|] eqn:Hk.
    + rewrite decide_True in Ho' by (rewrite <- Hl; by eapply lookup_lt_Some, Hi). injection Ho' as <-. simpl.
      rewrite decide_True; [done|]. apply Hi in Hk. by eapply list_elem_of_lookup_2.
    + injection Ho' as <-. simpl. rewrite decide_False; [done|]. intros [i Hx]%list_elem_of_lookup.
      apply Hi in Hx. congruence.
Qed.

Lemma obj_push_map_witness :
  exists o', obj_push (mkObj [[97]] [Null] {[ [97] := 0%nat ]}) [97] (Bool true) = Some o' /\
    obj_get o' [97] = Some (Some (Bool true)).
Proof.
  destruct (obj_push_map (mkObj [[97]] [Null] {[ [97] := 0%nat ]}) [97] (Bool true)) as (o' & H & _ & Hg & _).
  - split; [reflexivity|]. intros k i. simpl. rewrite lookup_singleton_Some. split.
    + intros [<- <-]. reflexivity.
    + destruct i as [|[|i]]; simpl; [intros [= <-]; split; reflexivity|discriminate|discriminate].
  - exists o'. split; [exact H|exact Hg].
Defined.

(** ** The parser returns on every text *)

Section Total.
Context (b : list Z).
Local Set Default Proof Using "Type".
Notation n := (length b).

Lemma cur_lt i c : c <> 0 -> cur b i = c -> (i < n)%nat.
Proof. unfold cur. intros Hc. destruct (b !! i) as [x|] eqn:Hx; simpl; [by apply lookup_lt_Some in Hx|congruence]. Qed.

(** A test of the current byte that succeeds advances within the text. *)
Lemma skip_le (i : nat) c : c <> 0 -> (i <= n)%nat -> ((if (cur b i =? c)%Z then S i else i) <= n)%nat.
Proof. intros Hc Hi. destruct (Z.eqb_spec (cur b i) c) as [Hx|]; [|done]. by apply cur_lt in Hx. Qed.

Lemma skip_ge (i : nat) c : (i <= if (cur b i =? c)%Z then S i else i)%nat.
Proof. destruct (_ =? _); lia. Qed.

Lemma ws_ge i : (i <= ws b i)%nat.
Proof. apply scan_while_ge. Qed.
Lemma ws_le i : (i <= n -> ws b i <= n)%nat.
Proof. apply scan_while_le. Qed.

Lemma hex_loop_le k v i : (i <= n)%nat -> (i <= snd (hex_loop b k v i) <= n)%nat.
Proof.
  revert v i. induction k as [|k IH]; intros v i Hi; simpl; [lia|].
  destruct (hex_digit (cur b i)) as [d|] eqn:Hd; [|simpl; lia].
  assert (i < n)%nat.
  { unfold cur in Hd. destruct (b !! i) as [x|] eqn:Hx; [by apply lookup_lt_Some in Hx|]. done. }
  destruct (IH (u32 (v * 16 + d)) (S i)); lia.
Qed.

Lemma parse_escape_le i out : (i < n)%nat -> (i < snd (parse_escape b i out) <= n)%nat.
Proof.
  intros Hi. unfold parse_escape.
  repeat (match goal with |- context [if ?c =? ?d then _ else _] => destruct (c =? d) end; [simpl; lia|]).
  assert (Hu : (i < snd ((let '(cp, i0) := hex4 b (S i) in
    if in_range 55296 56319 cp && (peek b i0 0 =? 92) && (peek b i0 1 =? 117) then
      let '(lo, i') := hex4 b (i0 + 2)%nat in
      if in_range 56320 57343 lo
      then (push_utf8 out (u32 (65536 + Z.shiftl (cp - 55296) 10 + (lo - 56320))), i')
      else (push_utf8 out cp, i0)
    else (push_utf8 out cp, i0))%Z) <= n)%nat).
  { pose proof (hex_loop_le 4 0 (S i) Hi) as H1. fold (hex4 b (S i)) in H1.
    destruct (hex4 b (S i)) as [cp i0]. simpl in H1. destruct (_ && _) eqn:Hc; [|simpl; lia].
    apply andb_true_iff in Hc as [_ Hp]. apply Z.eqb_eq in Hp. unfold peek in Hp.
    assert (i0 + 1 < n)%nat.
    { destruct (b !! (i0 + 1)%nat) as [x|] eqn:Hx; [by apply lookup_lt_Some in Hx|done]. }
    pose proof (hex_loop_le 4 0 (i0 + 2) ltac:(lia)) as H2. fold (hex4 b (i0 + 2)) in H2.
    destruct (hex4 b (i0 + 2)) as [lo i']. simpl in H2. destruct (in_range _ _ lo); simpl; lia. }
  first [exact Hu | destruct (_ =? _); [exact Hu|simpl; lia]].
Qed.

Lemma str_loop_total fuel i out :
  (i <= n)%nat -> (n - i < fuel)%nat ->
  exists out' i', str_loop b fuel i out = Some (out', i') /\ (i <= i' <= n)%nat.
Proof.
  revert i out. induction fuel as [|fuel IH]; intros i out Hi Hf; [lia|]. simpl.
  destruct (b !! i) as [c|] eqn:Hc; [|by exists out, i]. apply lookup_lt_Some in Hc.
  destruct (c =? 34); [exists out, i; split; [done|lia]|].
  destruct ((c =? 92) && (S i <? n)%nat) eqn:He.
  - apply andb_true_iff in He as [_ He%Nat.ltb_lt]. pose proof (parse_escape_le (S i) out He) as Hp.
    destruct (parse_escape b (S i) out) as [out1 i1]. simpl in Hp.
    destruct (IH i1 out1) as (out' & i' & H & Hi'); [lia|lia|]. exists out', i'. split; [done|lia].
  - destruct (IH (S i) (out ++ [c])) as (out' & i' & H & Hi'); [lia|lia|]. exists out', i'. split; [done|lia].
Qed.

Lemma parse_str_total i :
  (i <= n)%nat -> exists s i', parse_str_raw b i = Some (s, i') /\ (i <= i' <= n)%nat.
Proof.
  intros Hi. unfold parse_str_raw. pose proof (skip_le i 34 ltac:(lia) Hi). pose proof (skip_ge i 34).
  set (i0 := if cur b i =? 34 then S i else i) in *.
  destruct (str_loop_total (S n) i0 []) as (out & i1 & -> & H1); [lia|lia|].
  pose proof (skip_le i1 34 ltac:(lia) ltac:(lia)). pose proof (skip_ge i1 34).
  eexists _, _. split; [done|]. lia.
Qed.

Lemma skip_sign_le e : (e <= n)%nat -> (e <= skip_sign b e <= n)%nat.
Proof.
  intros He. unfold skip_sign. destruct (b !! e) as [c|] eqn:Hc; [|lia]. apply lookup_lt_Some in Hc.
  destruct (_ || _); lia.
Qed.

Lemma num_end_le i : (i <= n)%nat -> (i <= num_end b i <= n)%nat.
Proof.
  intros Hi. unfold num_end. cbv zeta. pose proof (skip_sign_le i Hi).
  pose proof (scan_while_ge num_char b (skip_sign b i)).
  pose proof (scan_while_le num_char b (skip_sign b i) ltac:(lia)).
  set (e2 := scan_while num_char b _) in *.
  destruct (b !! e2) as [c|] eqn:Hc; [|lia]. apply lookup_lt_Some in Hc.
  destruct ((c =? 101) || (c =? 69)); [|lia]. pose proof (skip_sign_le (S e2) ltac:(lia)).
  pose proof (scan_while_ge is_ascii_digit b (skip_sign b (S e2))).
  pose proof (scan_while_le is_ascii_digit b (skip_sign b (S e2)) ltac:(lia)). lia.
Qed.

Lemma parse_num_total i : (i <= n)%nat -> exists v i', parse_num b i = Some (v, i') /\ (i <= i' <= n)%nat.
Proof.
  intros Hi. unfold parse_num. pose proof (num_end_le i Hi).
  unfold slice. rewrite decide_True by lia. eexists _, _. split; [done|lia].
Qed.

Lemma parse_total_aux fuel :
  (forall i, (i <= n)%nat -> (2 * (n - i) + 1 <= fuel)%nat ->
     exists j i', parse_val b fuel i = Some (j, i') /\ (i <= i')%nat) /\
  (forall o i, obj_wf o -> (i <= n)%nat -> (2 * (n - i) + 2 <= fuel)%nat ->
     exists o' i', obj_loop b fuel o i = Some (o', i') /\ (i <= i')%nat /\ obj_wf o') /\
  (forall a i, (i <= n)%nat -> (2 * (n - i) + 2 <= fuel)%nat ->
     exists a' i', arr_loop b fuel a i = Some (a', i') /\ (i <= i')%nat).
Proof.
  induction fuel as [|fuel (IHv & IHo & IHa)]; [split_and!; intros; lia|]. split_and!.
  - intros i Hi Hf. cbn [parse_val]. pose proof (ws_ge i). pose proof (ws_le i Hi). set (i0 := ws b i) in *.
    destruct (Z.eqb_spec (cur b i0) 34) as [Hc|_].
    { destruct (parse_str_total i0) as (s & i' & -> & ?); [lia|]. eexists _, _. split; [done|lia]. }
    destruct (Z.eqb_spec (cur b i0) 123) as [Hc|_].
    { apply cur_lt in Hc; [|done]. pose proof (ws_ge (S i0)). pose proof (ws_le (S i0) ltac:(lia)).
      destruct (cur b (ws b (S i0)) =? 125); [eexists _, _; split; [done|lia]|].
      destruct (IHo obj_new (ws b (S i0))) as (o' & i' & -> & ? & _); [apply obj_new_wf|lia|lia|].
      eexists _, _. split; [done|lia]. }
    destruct (Z.eqb_spec (cur b i0) 91) as [Hc|_].
    { apply cur_lt in Hc; [|done]. pose proof (ws_ge (S i0)). pose proof (ws_le (S i0) ltac:(lia)).
      destruct (cur b (ws b (S i0)) =? 93); [eexists _, _; split; [done|lia]|].
      destruct (IHa [] (ws b (S i0))) as (a' & i' & -> & ?); [lia|lia|].
      eexists _, _. split; [done|lia]. }
    destruct (cur b i0 =? 116); [eexists _, _; split; [done|lia]|].
    destruct (cur b i0 =? 102); [eexists _, _; split; [done|lia]|].
    destruct (cur b i0 =? 110); [eexists _, _; split; [done|lia]|].
    destruct (parse_num_total i0) as (v & i' & -> & ?); [lia|]. eexists _, _. split; [done|lia].
  - intros o i Ho Hi Hf. cbn [obj_loop]. pose proof (ws_ge i). pose proof (ws_le i Hi). set (i0 := ws b i) in *.
    destruct (parse_str_total i0) as (key & i1 & -> & ?); [lia|].
    pose proof (ws_ge i1). pose proof (ws_le i1 ltac:(lia)). set (i2 := ws b i1) in *.
    pose proof (skip_le i2 58 ltac:(lia) ltac:(lia)). pose proof (skip_ge i2 58).
    set (i3 := if cur b i2 =? 58 then S i2 else i2) in *.
    destruct (IHv i3) as (val & i4 & -> & ?); [lia|lia|].
    destruct (obj_push_wf o key val Ho) as (o1 & -> & Ho1). pose proof (ws_ge i4).
    destruct (Z.eqb_spec (cur b (ws b i4)) 44) as [Hc|_].
    { apply cur_lt in Hc; [|done]. destruct (IHo o1 (S (ws b i4))) as (o' & i' & -> & ? & ?); [done|lia|lia|].
      eexists _, _. split_and!; [done|lia|done]. }
    destruct (_ =? 125); eexists _, _; split_and!; try done; lia.
  - intros a i Hi Hf. cbn [arr_loop]. destruct (IHv i) as (val & i1 & -> & ?); [lia|lia|].
    pose proof (ws_ge i1). destruct (Z.eqb_spec (cur b (ws b i1)) 44) as [Hc|_].
    { apply cur_lt in Hc; [|done]. destruct (IHa (a ++ [val]) (S (ws b i1))) as (a' & i' & -> & ?); [lia|lia|].
      eexists _, _. split; [done|lia]. }
    destruct (_ =? 93); eexists _, _; (split; [done|lia]).
Qed.
End Total.

(** C38: the reader is total.  On any bytes at all, [Json::parse] returns: it
    never indexes or slices out of range, never loops, and yields a value
    exactly when the text is not empty. *)
Theorem parse_total text :
  (text = [] /\ parse text = Some None) \/ (text <> [] /\ exists j, parse text = Some (Some j)).
Proof.
  unfold parse, parse_fuel. destruct text as [|c text]; [by left|right]. split; [done|].
  destruct (parse_total_aux (c :: text) (2 * length (c :: text) + 2)) as (Hv & _).
  destruct (Hv 0%nat) as (j & i & -> & _); [lia|lia|]. simpl. by exists j.
Qed.

(** Objects are well-formed at every level. *)
Inductive json_wf : Json -> Prop :=
  | wf_scalar j : match j with Arr _ | Obj _ => False | _ => True end -> json_wf j
  | wf_arr a : Forall json_wf a -> json_wf (Arr a)
  | wf_obj o : obj_wf o -> Forall json_wf (obj_vals o) -> json_wf (Obj o).

Lemma obj_push_vals o key val o' (P : Json -> Prop) :
  obj_push o key val = Some o' -> Forall P (obj_vals o) -> P val -> Forall P (obj_vals o').
Proof.
  destruct o as [ks vs ix]. unfold obj_push. simpl. intros Hp Hvs Hv. destruct (ix !! key) as [i|].
  - destruct (decide _); [|done]. injection Hp as <-. by apply Forall_insert.
  - injection Hp as <-. apply Forall_app. split; [done|by apply Forall_singleton].
Qed.

Lemma parse_wf_aux b fuel :
  (forall i j i', parse_val b fuel i = Some (j, i') -> json_wf j) /\
  (forall o i o' i', obj_wf o -> Forall json_wf (obj_vals o) -> obj_loop b fuel o i = Some (o', i') ->
     obj_wf o' /\ Forall json_wf (obj_vals o')) /\
  (forall a i a' i', Forall json_wf a -> arr_loop b fuel a i = Some (a', i') -> Forall json_wf a').
Proof.
  induction fuel as [|fuel (IHv & IHo & IHa)]; [done|]. split_and!.
  - intros i j i'. cbn [parse_val]. set (i0 := ws b i). set (c := cur b i0).
    destruct (c =? 34). { destruct (parse_str_raw b i0) as [[s k]|]; [|done]. intros [= <- _]. by apply wf_scalar. }
    destruct (c =? 123).
    { destruct (cur b (ws b (S i0)) =? 125).
      { intros [= <- _]. apply wf_obj; [apply obj_new_wf|constructor]. }
      destruct (obj_loop b fuel obj_new _) as [[o k]|] eqn:Ho; [|done]. intros [= <- _].
      destruct (IHo _ _ _ _ obj_new_wf (@Forall_nil_2 _ json_wf) Ho). by apply wf_obj. }
    destruct (c =? 91).
    { destruct (cur b (ws b (S i0)) =? 93). { intros [= <- _]. by apply wf_arr. }
      destruct (arr_loop b fuel [] _) as [[a k]|] eqn:Ha; [|done]. intros [= <- _].
      apply wf_arr. by eapply IHa. }
    destruct (c =? 116); [intros [= <- _]; by apply wf_scalar|].
    destruct (c =? 102); [intros [= <- _]; by apply wf_scalar|].
    destruct (c =? 110); [intros [= <- _]; by apply wf_scalar|].
    destruct (parse_num b i0) as [[v k]|]; [|done]. intros [= <- _]. by apply wf_scalar.
  - intros o i o' i' Ho Hvs. cbn [obj_loop]. destruct (parse_str_raw b (ws b i)) as [[key i1]|]; [|done].
    set (i3 := if cur b (ws b i1) =? 58 then S (ws b i1) else ws b i1). destruct (parse_val b fuel i3) as [[val i4]|] eqn:Hv; [|done].
    apply IHv in Hv. destruct (obj_push_wf o key val Ho) as (o1 & Hp & Ho1). rewrite Hp.
    pose proof (obj_push_vals _ _ _ _ _ Hp Hvs Hv). destruct (_ =? 44); [by apply IHo|].
    destruct (_ =? 125); intros [= <- _]; done.
  - intros a i a' i' Ha. cbn [arr_loop]. destruct (parse_val b fuel i) as [[val i1]|] eqn:Hv; [|done].
    apply IHv in Hv. assert (Forall json_wf (a ++ [val])) by (apply Forall_app; split; [done|by apply Forall_singleton]).
    destruct (_ =? 44); [by apply IHa|]. destruct (_ =? 93); intros [= <- _]; done.
Qed.

Lemma parse_wf text j : parse text = Some (Some j) -> json_wf j.
Proof.
  unfold parse. destruct (_ =? _)%nat; [done|]. destruct (parse_val _ _ _) as [[k i]|] eqn:Hp; [|done].
  intros [= <-]. by eapply parse_wf_aux.
Qed.

(** Reading a member of a parsed value does not panic, and gives a parsed value. *)
Lemma json_get_wf j key : json_wf j ->
  exists v, json_get j key = Some v /\ match v with Some x => json_wf x | None => True end.
Proof.
  inversion 1 as [k Hk|a Ha|o Ho Hvs]; subst; simpl.
  - exists None. by destruct j.
  - by exists None.
  - unfold obj_get. destruct o as [ks vs ix]. destruct Ho as [Hl Hi]. simpl in *.
    destruct (ix !! key) as [i|] eqn:Hk; [|by exists None].
    destruct (lookup_lt_is_Some_2 vs i) as [v Hv]; [rewrite <- Hl; by eapply lookup_lt_Some, Hi|].
    exists (Some v). rewrite Hv. split; [done|]. by eapply Forall_lookup_1.
Qed.

Lemma f64_as_i64_in n : in_i 64 (f64_as_i64 n).
Proof. unfold in_i, f64_as_i64, clamp_i64. change (64 - 1) with 63. destruct n as [|[]| |]; lia. Qed.

(** ** Strings: the reader undoes the server's writer *)

Lemma lossy_valid fuel l : valid_utf8_fuel fuel l = true -> lossy_fuel fuel l = l.
Proof.
  revert l. induction fuel as [|fuel IH]; intros [|c l]; try done; cbn [valid_utf8_fuel lossy_fuel].
  destruct (utf8_unit (c :: l)) as [ok m]. intros [-> H]%andb_true_iff.
  rewrite IH by done. apply take_drop.
Qed.

Lemma utf8_string_valid l : valid_utf8 l = true -> utf8_string l = l.
Proof. apply lossy_valid. Qed.

Lemma lookup_mid {A} (p q : list A) c : (p ++ c :: q) !! length p = Some c.
Proof. by apply list_lookup_middle. Qed.

Lemma cur_mid p q c : cur (p ++ c :: q) (length p) = c.
Proof. unfold cur. by rewrite lookup_mid. Qed.

(** The text seen from one byte further. *)
Lemma shift1 {A} (p q : list A) c : p ++ c :: q = (p ++ [c]) ++ q.
Proof. by rewrite <- app_assoc. Qed.
Lemma length_shift1 {A} (p : list A) c : S (length p) = length (p ++ [c]).
Proof. rewrite length_app. simpl. lia. Qed.

Lemma hex_digit_char d : 0 <= d < 16 -> hex_digit (hex_char d) = Some d.
Proof.
  intros Hd. unfold hex_char, hex_digit, in_range. destruct (Z.ltb_spec d 10).
  - rewrite (proj2 (andb_true_iff _ _)) by (split; apply Z.leb_le; lia). f_equal. lia.
  - rewrite (proj2 (andb_false_iff (48 <=? _) _)) by (right; apply Z.leb_gt; lia).
    rewrite (proj2 (andb_true_iff _ _)) by (split; apply Z.leb_le; lia). f_equal. lia.
Qed.

Lemma hex_loop_step p q c d n v :
  hex_digit c = Some d ->
  hex_loop (p ++ c :: q) (S n) v (length p) = hex_loop ((p ++ [c]) ++ q) n (u32 (v * 16 + d)) (length (p ++ [c])).
Proof. intros Hd. cbn [hex_loop]. by rewrite cur_mid, Hd, <- shift1, <- length_shift1. Qed.

Lemma hex4_control p q c :
  0 <= c < 32 -> hex4 (p ++ 48 :: 48 :: hex_char (c / 16) :: hex_char (c mod 16) :: q) (length p) =
    (c, (length p + 4)%nat).
Proof.
  intros Hc. assert (H1 : 0 <= c / 16 < 16) by (Z.div_mod_to_equations; lia).
  assert (H2 : 0 <= c mod 16 < 16) by (apply Z.mod_pos_bound; lia).
  unfold hex4. rewrite (hex_loop_step _ _ _ 0), (hex_loop_step _ _ _ 0) by done.
  rewrite (hex_loop_step _ _ _ (c / 16)), (hex_loop_step _ _ _ (c mod 16)) by by apply hex_digit_char.
  cbn [hex_loop]. rewrite !length_app. cbn [length].
  assert (Hw : forall v, 0 <= v < 32 -> u32 v = v) by (intros v Hv; apply wrap_id; mlia).
  change (u32 (u32 (0 * 16 + 0) * 16 + 0)) with 0. rewrite (Hw (0 * 16 + c / 16)) by (Z.div_mod_to_equations; lia).
  f_equal; [|lia]. rewrite Hw; Z.div_mod_to_equations; lia.
Qed.

Lemma str_loop_plain fuel p q c out :
  c <> 34 -> c <> 92 ->
  str_loop (p ++ c :: q) (S fuel) (length p) out = str_loop ((p ++ [c]) ++ q) fuel (length (p ++ [c])) (out ++ [c]).
Proof.
  intros H1 H2. cbn [str_loop]. rewrite lookup_mid, (proj2 (Z.eqb_neq _ _) H1), (proj2 (Z.eqb_neq _ _) H2).
  by rewrite <- shift1, <- length_shift1.
Qed.

Lemma str_loop_escape fuel p q e out :
  str_loop (p ++ 92 :: e :: q) (S fuel) (length p) out =
    let '(out, i) := parse_escape ((p ++ [92]) ++ e :: q) (length (p ++ [92])) out in
    str_loop (p ++ 92 :: e :: q) fuel i out.
Proof.
  cbn [str_loop]. rewrite lookup_mid. cbn [Z.eqb Pos.eqb].
  rewrite <- shift1, <- length_shift1.
  rewrite (proj2 (Nat.ltb_lt _ _)) by (rewrite length_app; simpl; lia). done.
Qed.

Lemma str_loop_jstr s : forall fuel p q out,
  Forall is_u8 s -> (length (concat (map jstr_char s)) < fuel)%nat ->
  str_loop (p ++ concat (map jstr_char s) ++ 34 :: q) fuel (length p) out =
    Some (out ++ s, length (p ++ concat (map jstr_char s))).
Proof.
  induction s as [|c s IH]; intros fuel p q out Hs Hf; cbn [map concat] in *.
  - destruct fuel as [|fuel]; [simpl in Hf; lia|]. cbn [app str_loop]. rewrite lookup_mid. simpl. by rewrite !app_nil_r.
  - apply Forall_cons in Hs as [Hc Hs]. rewrite length_app in Hf.
    set (rest := concat (map jstr_char s)) in *.
    assert (Hgo : forall fuel', (length rest < fuel')%nat ->
      str_loop (p ++ (jstr_char c ++ rest) ++ 34 :: q) fuel' (length (p ++ jstr_char c)) (out ++ [c]) =
      Some (out ++ c :: s, length (p ++ jstr_char c ++ rest))).
    { intros fuel' Hf'. rewrite <- !app_assoc, (app_assoc p), IH by done.
      by rewrite <- !app_assoc. }
    destruct fuel as [|fuel]; [lia|].
    assert (Hesc : forall e w, jstr_char c = 92 :: e :: w ->
      parse_escape ((p ++ [92]) ++ e :: w ++ rest ++ 34 :: q) (length (p ++ [92])) out =
        (out ++ [c], length (p ++ jstr_char c)) ->
      str_loop (p ++ (jstr_char c ++ rest) ++ 34 :: q) (S fuel) (length p) out =
        Some (out ++ c :: s, length (p ++ jstr_char c ++ rest))).
    { intros e w Hj Hp. rewrite <- (Hgo fuel) by (rewrite Hj in Hf; simpl in Hf; lia).
      assert (HT : p ++ (jstr_char c ++ rest) ++ 34 :: q = p ++ 92 :: e :: w ++ rest ++ 34 :: q).
      { rewrite Hj, <- app_assoc. done. }
      by rewrite HT, str_loop_escape, Hp. }
    assert (Hsimple : forall e d, jstr_char c = [92; e] -> d = c ->
      parse_escape ((p ++ [92]) ++ e :: rest ++ 34 :: q) (length (p ++ [92])) out = (out ++ [d], S (length (p ++ [92]))) ->
      str_loop (p ++ (jstr_char c ++ rest) ++ 34 :: q) (S fuel) (length p) out =
        Some (out ++ c :: s, length (p ++ jstr_char c ++ rest))).
    { intros e d Hj -> Hp. apply (Hesc e []); [done|]. cbn [app]. rewrite Hp, Hj. f_equal.
      rewrite !length_app. simpl. lia. }
    unfold jstr_char in *.
    destruct (Z.eqb_spec c 34) as [->|H34]; [apply (Hsimple 34 34); [done|done|by unfold parse_escape; rewrite cur_mid]|].
    destruct (Z.eqb_spec c 92) as [->|H92]; [apply (Hsimple 92 92); [done|done|by unfold parse_escape; rewrite cur_mid]|].
    destruct (Z.eqb_spec c 10) as [->|H10]; [apply (Hsimple 110 10); [done|done|by unfold parse_escape; rewrite cur_mid]|].
    destruct (Z.eqb_spec c 13) as [->|H13]; [apply (Hsimple 114 13); [done|done|by unfold parse_escape; rewrite cur_mid]|].
    destruct (Z.eqb_spec c 9) as [->|H9]; [apply (Hsimple 116 9); [done|done|by unfold parse_escape; rewrite cur_mid]|].
    destruct (Z.ltb_spec c 32) as [Hlt|Hge].
    + apply (Hesc 117 [48; 48; hex_char (c / 16); hex_char (c mod 16)]); [done|].
      unfold parse_escape. rewrite cur_mid. cbn [Z.eqb Pos.eqb app].
      rewrite (shift1 (p ++ [92])), (length_shift1 _ 117), hex4_control by mlia.
      unfold in_range. rewrite (proj2 (Z.leb_gt 55296 c)) by lia. cbn [andb]. unfold push_utf8.
      rewrite (proj2 (Z.ltb_lt c 128)) by lia. f_equal. rewrite !length_app. simpl. lia.
    + pose proof (Hgo fuel ltac:(simpl in Hf; lia)) as H. cbn [app] in *.
      rewrite str_loop_plain by done. by rewrite <- shift1.
Qed.

Lemma parse_str_jstr p s q :
  Forall is_u8 s -> valid_utf8 s = true ->
  parse_str_raw (p ++ jstr s ++ q) (length p) = Some (s, length (p ++ jstr s)).
Proof.
  intros Hs Hv. unfold parse_str_raw, jstr. cbn [app]. rewrite cur_mid. cbn [Z.eqb Pos.eqb].
  rewrite shift1, (length_shift1 p 34). set (w := concat (map jstr_char s)).
  replace (((w ++ [34]) ++ q)) with (w ++ 34 :: q) by by rewrite <- app_assoc.
  unfold w. rewrite str_loop_jstr; [|done|rewrite !length_app; lia]. fold w. cbn [app].
  replace ((p ++ [34]) ++ w ++ 34 :: q) with (((p ++ [34]) ++ w) ++ 34 :: q) by by rewrite <- !app_assoc.
  rewrite cur_mid. cbn [Z.eqb Pos.eqb]. rewrite utf8_string_valid by done. f_equal. f_equal.
  rewrite !length_app. simpl. rewrite length_app. simpl. lia.
Qed.

(** What the server writes the reader reads: a string literal made by
    [jstr] from any valid UTF-8 text, wherever it stands, is read back by
    [parse_str_raw] to the same bytes, and reading stops just after its closing
    quote; so quotes, backslashes and control characters in model output cannot
    break out of a response's string. *)
Theorem jstr_roundtrip p s q :
  Forall is_u8 s -> valid_utf8 s = true ->
  parse_str_raw (p ++ jstr s ++ q) (length p) = Some (s, length (p ++ jstr s)).
Proof. apply parse_str_jstr. Qed.

Lemma jstr_roundtrip_witness :
  parse_str_raw ([] ++ jstr [97; 34; 7; 195; 169; 92] ++ [44]) 0 = Some ([97; 34; 7; 195; 169; 92], 15%nat).
Proof.
  apply (jstr_roundtrip [] [97; 34; 7; 195; 169; 92] [44]); [|reflexivity].
  repeat first [apply Forall_nil_2 | apply Forall_cons_2; [apply in_u_dec_spec; reflexivity|]].
Defined.

(** ** Numbers: integers of up to 53 bits are exact *)

Lemma digits2_lower p : 2 ^ (Zpos (digits2_pos p) - 1) <= Zpos p.
Proof.
  assert (Hs : forall q, 2 ^ (Zpos (Pos.succ (digits2_pos q)) - 1) = 2 * 2 ^ (Zpos (digits2_pos q) - 1)).
  { intros q. rewrite Pos2Z.inj_succ. replace (Z.succ (Zpos (digits2_pos q)) - 1) with (Z.succ (Zpos (digits2_pos q) - 1)) by lia.
    apply Z.pow_succ_r. lia. }
  induction p as [p IH|p IH|]; cbn [digits2_pos]; rewrite ?Hs; lia.
Qed.

Lemma digits2_iter p k : Zpos (digits2_pos (Pos.iter xO p k)) = Zpos (digits2_pos p) + Zpos k.
Proof.
  induction k as [|k IH] using Pos.peano_ind; [cbn [Pos.iter digits2_pos]; lia|].
  rewrite Pos.iter_succ. cbn [digits2_pos]. rewrite Pos2Z.inj_succ, IH. lia.
Qed.

(** No rounding happens to a mantissa of 53 digits in range. *)
Lemma binary_round_aux_exact s m e :
  Zpos (digits2_pos m) = 53 -> -1074 <= e <= 971 -> binary_round_aux 53 1024 s (Zpos m) e loc_Exact = S754_finite s m e.
Proof.
  intros Hd He. unfold binary_round_aux, shr_fexp.
  assert (Hsh : forall mrs, shr mrs e (fexp 53 1024 (Zdigits2 (Zpos m) + e) - e) = (mrs, e)).
  { intros mrs. unfold Zdigits2. rewrite Hd. unfold fexp, emin.
    replace (Z.max (53 + e - 53) (3 - 1024 - 53) - e) with 0 by lia. done. }
  rewrite Hsh. cbn [shr_record_of_loc shr_m loc_of_shr_record round_nearest_even]. rewrite Hsh. cbn [shr_m shr_record_of_loc].
  rewrite (proj2 (Z.leb_le _ _)) by lia. done.
Qed.

Lemma int_to_f64 neg m :
  0 < m < 2 ^ 53 -> exists p e, dec_to_f64 neg m 0 = S754_finite neg p e /\ Z.shiftl (Zpos p) e = m.
Proof.
  intros Hm. destruct m as [|m|]; [lia| |lia]. unfold dec_to_f64. simpl (0 <=? 0). rewrite Z.mul_1_r.
  unfold binary_round. pose proof (digits2_lower m) as Hlow. set (d := Zpos (digits2_pos m)) in *.
  assert (Hd : 1 <= d <= 53).
  { split; [lia|]. destruct (Z.le_gt_cases d 53) as [|Hgt]; [done|].
    assert (2 ^ 53 <= 2 ^ (d - 1)) by (apply Z.pow_le_mono_r; lia). lia. }
  assert (Hf : fexp 53 1024 (d + 0) = d - 53) by (unfold fexp, emin; lia). rewrite Hf.
  unfold shl_align. rewrite Z.sub_0_r. destruct (d - 53) as [|k|k] eqn:Hk; [|lia|].
  - rewrite binary_round_aux_exact by lia. eexists _, _. split; [done|]. by rewrite Z.shiftl_0_r.
  - rewrite binary_round_aux_exact; [|rewrite digits2_iter; lia|lia]. eexists _, _. split; [done|].
    rewrite iter_xO. replace (Zneg k) with (- Zpos k) by lia. rewrite Z.shiftl_opp_r, Z.shiftr_div_pow2 by lia.
    apply Z.div_mul. apply Z.pow_nonzero; lia.
Qed.

(** The value the reader gives to the integer literal [z]. *)
Definition int_f64 (z : Z) : spec_float := dec_to_f64 (z <? 0) (Z.abs z) 0.

Lemma int_f64_as_i64 z : - 2 ^ 53 < z < 2 ^ 53 -> f64_as_i64 (int_f64 z) = z.
Proof.
  intros Hz. unfold int_f64. destruct (Z.eq_dec z 0) as [->|Hnz]; [done|].
  destruct (int_to_f64 (z <? 0) (Z.abs z)) as (p & e & -> & Hp); [lia|]. unfold f64_as_i64, clamp_i64.
  rewrite Hp. destruct (Z.ltb_spec z 0); lia.
Qed.

(** ** Values: reading back a printed document

    A reference printer without whitespace; an object may repeat a key. *)

Inductive doc :=
  | DNull | DBool (b : bool) | DInt (z : Z) | DStr (s : list Z)
  | DArr (l : list doc) | DObj (l : list (list Z * doc)).

Fixpoint dec_fuel (fuel : nat) (z : Z) : list Z :=
  match fuel with
  | O => []
  | S fuel => (if z <? 10 then [] else dec_fuel fuel (z / 10)) ++ [48 + z mod 10]
  end.
Definition dec_digits (z : Z) : list Z := dec_fuel (S (Z.to_nat (Z.log2 z))) z.

Definition print_int (z : Z) : list Z := (if z <? 0 then [45] else []) ++ dec_digits (Z.abs z).

Definition join (ls : list (list Z)) : list Z :=
  match ls with [] => [] | l :: ls => l ++ concat (map (fun m => 44 :: m) ls) end.

Fixpoint print (d : doc) : list Z :=
  match d with
  | DNull => [110; 117; 108; 108]
  | DBool true => [116; 114; 117; 101]
  | DBool false => [102; 97; 108; 115; 101]
  | DInt z => print_int z
  | DStr s => jstr s
  | DArr l => [91] ++ join (map print l) ++ [93]
  | DObj l => [123] ++ join (map (fun kv => jstr (fst kv) ++ 58 :: print (snd kv)) l) ++ [125]
  end.

Definition obj_of (kvs : list (list Z * Json)) (o : JsonObj) : JsonObj :=
  fold_left (fun o kv => default o (obj_push o (fst kv) (snd kv))) kvs o.

Fixpoint value (d : doc) : Json :=
  match d with
  | DNull => Null
  | DBool b => Bool b
  | DInt z => Num (int_f64 z)
  | DStr s => Str s
  | DArr l => Arr (map value l)
  | DObj l => Obj (obj_of (map (fun kv => (fst kv, value (snd kv))) l) obj_new)
  end.

Definition text_ok (s : list Z) : bool := forallb (fun c => (0 <=? c) && (c <? 256)) s && valid_utf8 s.

Fixpoint doc_ok (d : doc) : bool :=
  match d with
  | DStr s => text_ok s
  | DArr l => forallb doc_ok l
  | DObj l => forallb (fun kv => text_ok (fst kv) && doc_ok (snd kv)) l
  | _ => true
  end.

Lemma text_ok_spec s : text_ok s = true -> Forall is_u8 s /\ valid_utf8 s = true.
Proof.
  unfold text_ok. intros [H ->]%andb_true_iff. split; [|done]. rewrite forallb_forall in H.
  apply Forall_forall. intros c Hc. apply in_u_dec_spec, H. by apply list_elem_of_In.
Qed.

Lemma digits_value_snoc l c : digits_value (l ++ [c]) = digits_value l * 10 + (c - 48).
Proof. unfold digits_value. by rewrite fold_left_app. Qed.

Lemma dec_fuel_spec fuel z :
  0 <= z -> (Z.to_nat (Z.log2 z) < fuel)%nat ->
  digits_value (dec_fuel fuel z) = z /\ Forall (fun c => is_ascii_digit c = true) (dec_fuel fuel z) /\
  dec_fuel fuel z <> [].
Proof.
  revert z. induction fuel as [|fuel IH]; intros z Hz Hf; [lia|]. cbn [dec_fuel].
  assert (Hm : 0 <= z mod 10 < 10) by (apply Z.mod_pos_bound; lia).
  assert (Hd : is_ascii_digit (48 + z mod 10) = true).
  { apply andb_true_iff. split; apply Z.leb_le; lia. }
  destruct (Z.ltb_spec z 10) as [Hlt|Hge].
  - cbn [app]. split_and!; [|by repeat constructor|done].
    unfold digits_value. cbn [fold_left]. rewrite Z.mod_small by lia. lia.
  - assert (Hq : 0 <= z / 10) by (Z.div_mod_to_equations; lia).
    assert (Hl : Z.log2 (z / 10) < Z.log2 z).
    { apply Z.log2_lt_pow2; [Z.div_mod_to_equations; lia|].
      pose proof (Z.log2_spec z ltac:(lia)) as [_ Hs].
      assert (Hl3 : 0 < Z.log2 z) by (apply Z.log2_pos; lia).
      rewrite Z.pow_succ_r in Hs by lia. Z.div_mod_to_equations; lia. }
    pose proof (Z.log2_nonneg (z / 10)).
    destruct (IH (z / 10) Hq ltac:(lia)) as (H1 & H2 & H3). split_and!.
    + rewrite digits_value_snoc, H1. Z.div_mod_to_equations; lia.
    + apply Forall_app. split; [done|by repeat constructor].
    + intros [_ H4]%app_eq_nil. done.
Qed.

Lemma dec_digits_spec z :
  0 <= z -> digits_value (dec_digits z) = z /\ Forall (fun c => is_ascii_digit c = true) (dec_digits z) /\
  dec_digits z <> [].
Proof. intros Hz. apply dec_fuel_spec; lia. Qed.

Definition num_stop (q : list Z) : Prop := match q with [] => True | c :: _ => c = 44 \/ c = 93 \/ c = 125 end.

Lemma digits_head z : 0 <= z -> exists c l, dec_digits z = c :: l /\ 48 <= c <= 57.
Proof.
  intros Hz. destruct (dec_digits_spec z Hz) as (_ & Hd & Hne). destruct (dec_digits z) as [|c l]; [done|].
  exists c, l. split; [done|]. apply Forall_cons in Hd as [Hc _].
  apply andb_true_iff in Hc as [H1%Z.leb_le H2%Z.leb_le]. lia.
Qed.

Lemma skip_sign_int p z q : skip_sign (p ++ print_int z ++ q) (length p) = length (p ++ (if z <? 0 then [45] else [])).
Proof.
  unfold print_int, skip_sign. destruct (Z.ltb_spec z 0).
  - cbn [app]. rewrite lookup_mid. cbn [Z.eqb Pos.eqb orb]. rewrite length_app. simpl. lia.
  - destruct (digits_head (Z.abs z) ltac:(lia)) as (c & l & -> & Hc). cbn [app]. rewrite lookup_mid.
    rewrite (proj2 (Z.eqb_neq c 43)), (proj2 (Z.eqb_neq c 45)) by lia. simpl. by rewrite app_nil_r.
Qed.

Lemma num_end_int p z q : num_stop q -> num_end (p ++ print_int z ++ q) (length p) = length (p ++ print_int z).
Proof.
  intros Hq. unfold num_end. rewrite skip_sign_int. unfold print_int. set (sg := if z <? 0 then [45] else []).
  destruct (dec_digits_spec (Z.abs z) ltac:(lia)) as (_ & Hd & _).
  assert (Hs : scan_while num_char (p ++ (sg ++ dec_digits (Z.abs z)) ++ q) (length (p ++ sg)) =
    length (p ++ sg ++ dec_digits (Z.abs z))).
  { assert (Hd' : Forall (fun c => num_char c = true) (dec_digits (Z.abs z))).
    { eapply Forall_impl; [exact Hd|]. intros c Hc. unfold num_char. by rewrite Hc. }
    rewrite <- app_assoc, (app_assoc p), (scan_while_app num_char (p ++ sg) (dec_digits (Z.abs z)) q); [|done|done|].
    - by rewrite <- length_app, <- app_assoc.
    - destruct q as [|c q]; [done|]. by destruct Hq as [-> |[-> | ->]]. }
  rewrite Hs. rewrite (app_assoc p (sg ++ _) q). set (w := p ++ sg ++ dec_digits (Z.abs z)). destruct q as [|c q].
  - rewrite app_nil_r. by rewrite (lookup_ge_None_2 w).
  - rewrite lookup_mid. destruct Hq as [-> |[-> | ->]]; done.
Qed.

Lemma parse_f64_int z : parse_f64 (print_int z) = Some (int_f64 z).
Proof.
  unfold parse_f64, print_int, int_f64.
  destruct (dec_digits_spec (Z.abs z) ltac:(lia)) as (Hv & Hd & Hne).
  assert (Hsign : dec_sign ((if z <? 0 then [45] else []) ++ dec_digits (Z.abs z)) = (z <? 0, dec_digits (Z.abs z))).
  { destruct (z <? 0); [done|]. destruct (digits_head (Z.abs z) ltac:(lia)) as (c & l & -> & Hc). simpl.
    by rewrite (proj2 (Z.eqb_neq c 43)), (proj2 (Z.eqb_neq c 45)) by lia. }
  rewrite Hsign. unfold span_digits.
  pose proof (scan_while_app is_ascii_digit [] (dec_digits (Z.abs z)) [] 0%nat eq_refl Hd I) as Hs.
  rewrite app_nil_r in Hs. cbn [app] in Hs. rewrite Hs. cbn [length Nat.add].
  rewrite take_ge, drop_ge by lia. cbn [length]. rewrite Nat.add_0_r, app_nil_r.
  destruct (Nat.eqb_spec (length (dec_digits (Z.abs z))) 0) as [H0|_]; [by apply length_zero_iff_nil in H0|].
  by rewrite Hv.
Qed.

Lemma parse_num_int p z q :
  num_stop q -> parse_num (p ++ print_int z ++ q) (length p) = Some (int_f64 z, length (p ++ print_int z)).
Proof.
  intros Hq. unfold parse_num. rewrite num_end_int by done.
  rewrite (slice_app p (print_int z) q) by (done || apply length_app). by rewrite parse_f64_int.
Qed.

(** The first byte of a printed value. *)
Lemma print_head d : doc_ok d = true -> exists c l, print d = c :: l /\ is_ws c = false /\ c <> 93 /\ c <> 125.
Proof.
  intros Hd. destruct d as [|[]|z|s|l|l]; simpl; try (eexists _, _; split_and!; [done|done|done|done]).
  unfold print_int. destruct (z <? 0); [eexists _, _; split_and!; done|].
  destruct (digits_head (Z.abs z) ltac:(lia)) as (c & l & -> & Hc). eexists _, _.
  split_and!; [done| |lia|lia]. unfold is_ws.
  by rewrite !(proj2 (Z.eqb_neq c _)) by lia.
Qed.

Lemma ws_mid p c q : is_ws c = false -> ws (p ++ c :: q) (length p) = length p.
Proof.
  intros Hc. unfold ws. pose proof (scan_while_app is_ws p [] (c :: q) (length p) eq_refl (Forall_nil_2 _) Hc) as H.
  cbn [app] in H. rewrite H. simpl. lia.
Qed.

Lemma ws_end p : ws p (length p) = length p.
Proof.
  unfold ws. pose proof (scan_while_app is_ws p [] [] (length p) eq_refl (Forall_nil_2 _) I) as H.
  rewrite app_nil_r in H. rewrite H. simpl. lia.
Qed.

(** The bytes after a value: nothing, a comma or a closing bracket. *)
Lemma ws_stop p q : num_stop q -> ws (p ++ q) (length p) = length p.
Proof.
  destruct q as [|c q]; [intros _; rewrite app_nil_r; apply ws_end|].
  intros [-> |[-> | ->]]; by apply ws_mid.
Qed.

(** Equality of texts up to the bracketing of appends. *)
Ltac app_eq := repeat (progress (rewrite <- ?app_assoc; cbn [app])); reflexivity.

Ltac len_eq := repeat (progress (rewrite ?length_app; cbn [length fst snd])); lia.

Definition parses_back (fuel : nat) (d : doc) : Prop :=
  forall p q, doc_ok d = true -> num_stop q -> (2 * length (print d) + 1 <= fuel)%nat ->
    parse_val (p ++ print d ++ q) fuel (length p) = Some (value d, length (p ++ print d)).

Definition tail_of (ls : list (list Z)) : list Z := concat (map (fun m => 44 :: m) ls).

Lemma join_cons l ls : join (l :: ls) = l ++ tail_of ls.
Proof. done. Qed.
Lemma tail_cons l ls : tail_of (l :: ls) = 44 :: l ++ tail_of ls.
Proof. done. Qed.

Lemma arr_loop_print fuel : forall f d l p q acc,
  (f <= fuel)%nat -> (forall f d, (f < fuel)%nat -> parses_back f d) ->
  doc_ok d = true -> forallb doc_ok l = true ->
  (2 * length (print d ++ tail_of (map print l)) + 2 <= f)%nat ->
  arr_loop (p ++ (print d ++ tail_of (map print l)) ++ 93 :: q) f acc (length p) =
    Some (acc ++ value d :: map value l, S (length (p ++ print d ++ tail_of (map print l)))).
Proof.
  intros f d l. revert f d. induction l as [|d' l IH]; intros f d p q acc Hf HV Hd Hl Hfuel;
    (destruct f as [|f]; [lia|]); cbn [arr_loop map] in *.
  - change (tail_of []) with (@nil Z) in *. rewrite app_nil_r in *.
    rewrite (HV f d ltac:(lia) p (93 :: q) Hd (or_intror (or_introl eq_refl)) ltac:(lia)).
    rewrite app_assoc, ws_mid, cur_mid by done. done.
  - cbn [forallb] in Hl. apply andb_true_iff in Hl as [Hd' Hl]. rewrite tail_cons in *.
    rewrite !length_app in Hfuel. cbn [length] in Hfuel. rewrite !length_app in Hfuel.
    replace (p ++ (print d ++ 44 :: print d' ++ tail_of (map print l)) ++ 93 :: q)
      with (p ++ print d ++ 44 :: (print d' ++ tail_of (map print l)) ++ 93 :: q) by app_eq.
    rewrite (HV f d ltac:(lia) p (44 :: (print d' ++ tail_of (map print l)) ++ 93 :: q) Hd (or_introl eq_refl) ltac:(lia)).
    rewrite app_assoc, ws_mid, cur_mid by done. cbn [Z.eqb Pos.eqb].
    rewrite shift1, (length_shift1 (p ++ print d) 44), IH; [|lia|done|done|done|rewrite length_app; lia].
    f_equal. f_equal; [by rewrite <- app_assoc|]. rewrite !length_app. cbn [length]. rewrite !length_app. lia.
Qed.

Definition entry (kv : list Z * doc) : list Z := jstr (fst kv) ++ 58 :: print (snd kv).
Definition entry_value (kv : list Z * doc) : list Z * Json := (fst kv, value (snd kv)).

Lemma obj_of_wf l o : obj_wf o -> obj_wf (obj_of l o).
Proof.
  revert o. induction l as [|[k v] l IH]; intros o Ho; [done|]. simpl. apply IH.
  destruct (obj_push_wf o k v Ho) as (o' & -> & Ho'). done.
Qed.

Lemma jstr_head s : jstr s = 34 :: concat (map jstr_char s) ++ [34].
Proof. done. Qed.

Lemma obj_loop_print fuel : forall f kv l p q o,
  (f <= fuel)%nat -> (forall f d, (f < fuel)%nat -> parses_back f d) -> obj_wf o ->
  text_ok (fst kv) && doc_ok (snd kv) = true -> forallb (fun kv => text_ok (fst kv) && doc_ok (snd kv)) l = true ->
  (2 * length (entry kv ++ tail_of (map entry l)) + 2 <= f)%nat ->
  obj_loop (p ++ (entry kv ++ tail_of (map entry l)) ++ 125 :: q) f o (length p) =
    Some (obj_of (map entry_value (kv :: l)) o, S (length (p ++ entry kv ++ tail_of (map entry l)))).
Proof.
  intros f kv l. revert f kv. induction l as [|kv' l IH]; intros f [k d] p q o Hf HV Ho Hd Hl Hfuel;
    (destruct f as [|f]; [lia|]); cbn [obj_loop map] in *;
    apply andb_true_iff in Hd as [Hk Hd]; cbn [fst snd] in Hk, Hd;
    apply text_ok_spec in Hk as [Hk8 Hkv];
    destruct (print_head d Hd) as (c & w & Hpd & Hcws & _ & _);
    destruct (obj_push_wf o k (value d) Ho) as (o1 & Ho1 & Hwf1);
    unfold entry at 1 in Hfuel; cbn [fst snd] in Hfuel; rewrite !length_app in Hfuel; cbn [length] in Hfuel.
  - change (tail_of []) with (@nil Z) in *. rewrite app_nil_r. unfold entry. cbn [fst snd].
    assert (Hw : ws (p ++ (jstr k ++ 58 :: print d) ++ 125 :: q) (length p) = length p).
    { rewrite jstr_head. cbn [app]. by apply ws_mid. }
    rewrite Hw, <- app_assoc.
    rewrite parse_str_jstr by done. cbn [app]. rewrite (app_assoc p). rewrite ws_mid, cur_mid by done.
    cbn [Z.eqb Pos.eqb]. rewrite shift1, (length_shift1 _ 58).
    rewrite (HV f d ltac:(lia) ((p ++ jstr k) ++ [58]) (125 :: q) Hd (or_intror (or_intror eq_refl)) ltac:(lia)).
    rewrite Ho1, app_assoc, ws_mid, cur_mid by done. cbn [Z.eqb Pos.eqb]. f_equal. f_equal.
    + unfold obj_of. simpl. by rewrite Ho1.
    + rewrite !length_app. cbn [length]. lia.
  - cbn [forallb] in Hl. apply andb_true_iff in Hl as [Hd' Hl]. rewrite tail_cons in *.
    cbn [length] in Hfuel. rewrite !length_app in Hfuel.
    set (more := entry kv' ++ tail_of (map entry l)) in *.
    replace (p ++ (entry (k, d) ++ 44 :: more) ++ 125 :: q)
      with (p ++ jstr k ++ 58 :: print d ++ 44 :: more ++ 125 :: q).
    2:{ unfold entry. cbn [fst snd]. app_eq. }
    assert (Hw : ws (p ++ jstr k ++ 58 :: print d ++ 44 :: more ++ 125 :: q) (length p) = length p).
    { rewrite jstr_head. cbn [app]. by apply ws_mid. }
    rewrite Hw, parse_str_jstr by done. rewrite (app_assoc p). rewrite ws_mid, cur_mid by done.
    cbn [Z.eqb Pos.eqb]. rewrite shift1, (length_shift1 _ 58).
    rewrite (HV f d ltac:(lia) ((p ++ jstr k) ++ [58]) (44 :: more ++ 125 :: q) Hd (or_introl eq_refl) ltac:(lia)).
    rewrite Ho1, app_assoc, ws_mid, cur_mid by done. cbn [Z.eqb Pos.eqb].
    rewrite shift1, (length_shift1 _ 44). unfold more.
    rewrite IH; [|lia|done|done|done|done|rewrite length_app; lia].
    f_equal. f_equal.
    + unfold obj_of. simpl. by rewrite Ho1.
    + unfold more, entry. cbn [fst snd]. len_eq.
Qed.

Lemma print_parses fuel d : parses_back fuel d.
Proof.
  revert d. induction fuel as [fuel IHf] using lt_wf_ind. intros d p q Hd Hq Hfuel.
  destruct fuel as [|fuel]; [lia|].
  destruct (print_head d Hd) as (c & w & Hpd & Hcws & _ & _).
  assert (Hws : ws (p ++ print d ++ q) (length p) = length p) by (rewrite Hpd; cbn [app]; by apply ws_mid).
  assert (Hcur : cur (p ++ print d ++ q) (length p) = c) by (rewrite Hpd; cbn [app]; apply cur_mid).
  cbn [parse_val]. rewrite Hws, Hcur.
  destruct d as [|[]|z|s|l|l]; cbn [print value] in *.
  - injection Hpd as <- <-. cbn [Z.eqb Pos.eqb]. by rewrite length_app.
  - injection Hpd as <- <-. cbn [Z.eqb Pos.eqb]. by rewrite length_app.
  - injection Hpd as <- <-. cbn [Z.eqb Pos.eqb]. by rewrite length_app.
  - assert (Hc : c = 45 \/ 48 <= c <= 57).
    { unfold print_int in Hpd. destruct (z <? 0); [injection Hpd as <- _; by left|].
      destruct (digits_head (Z.abs z) ltac:(lia)) as (c' & l & He & Hc). rewrite He in Hpd. injection Hpd as <- _. by right. }
    rewrite !(proj2 (Z.eqb_neq c _)) by lia. by rewrite parse_num_int.
  - injection Hpd as <- <-. cbn [Z.eqb Pos.eqb]. cbn [doc_ok] in Hd. apply text_ok_spec in Hd as [H8 Hv].
    by rewrite parse_str_jstr.
  - injection Hpd as <- <-. cbn [Z.eqb Pos.eqb]. destruct l as [|d l].
    + cbn [map join app]. rewrite (length_shift1 p 91), shift1, ws_mid, cur_mid by done. cbn [Z.eqb Pos.eqb].
      rewrite !length_app. simpl. f_equal. f_equal. lia.
    + cbn [doc_ok forallb] in Hd. apply andb_true_iff in Hd as [Hd Hl]. cbn [map] in *. rewrite join_cons in *.
      cbn [length] in Hfuel. rewrite !length_app in Hfuel. cbn [length] in Hfuel.
      replace (p ++ ([91] ++ (print d ++ tail_of (map print l)) ++ [93]) ++ q)
        with ((p ++ [91]) ++ (print d ++ tail_of (map print l)) ++ 93 :: q) by app_eq.
      rewrite (length_shift1 p 91).
      destruct (print_head d Hd) as (c & w & Hpd & Hcw & Hc93 & _).
      assert (Hw2 : ws ((p ++ [91]) ++ (print d ++ tail_of (map print l)) ++ 93 :: q) (length (p ++ [91])) = length (p ++ [91])).
      { rewrite Hpd. cbn [app]. by apply ws_mid. }
      assert (Hc2 : cur ((p ++ [91]) ++ (print d ++ tail_of (map print l)) ++ 93 :: q) (length (p ++ [91])) = c).
      { rewrite Hpd. cbn [app]. apply cur_mid. }
      rewrite Hw2, Hc2, (proj2 (Z.eqb_neq _ _) Hc93).
      rewrite (arr_loop_print fuel fuel d l (p ++ [91]) q []);
        [|lia|intros f d' Hlt; apply IHf; lia|done|done|rewrite length_app; lia].
      f_equal. f_equal. len_eq.
  - injection Hpd as <- <-. cbn [Z.eqb Pos.eqb]. destruct l as [|kv l].
    + cbn [map join app]. rewrite (length_shift1 p 123), shift1, ws_mid, cur_mid by done. cbn [Z.eqb Pos.eqb].
      rewrite !length_app. simpl. f_equal. f_equal. lia.
    + cbn [doc_ok forallb] in Hd. apply andb_true_iff in Hd as [Hd Hl].
      change (fun kv => jstr (fst kv) ++ 58 :: print (snd kv)) with entry in *.
      change (fun kv => (fst kv, value (snd kv))) with entry_value. cbn [map] in Hfuel |- *. rewrite join_cons in *.
      cbn [length] in Hfuel. rewrite !length_app in Hfuel. cbn [length] in Hfuel.
      replace (p ++ ([123] ++ (entry kv ++ tail_of (map entry l)) ++ [125]) ++ q)
        with ((p ++ [123]) ++ (entry kv ++ tail_of (map entry l)) ++ 125 :: q) by app_eq.
      rewrite (length_shift1 p 123).
      assert (Hw2 : ws ((p ++ [123]) ++ (entry kv ++ tail_of (map entry l)) ++ 125 :: q) (length (p ++ [123])) = length (p ++ [123])).
      { unfold entry at 1. rewrite jstr_head. cbn [app]. by apply ws_mid. }
      assert (Hc2 : cur ((p ++ [123]) ++ (entry kv ++ tail_of (map entry l)) ++ 125 :: q) (length (p ++ [123])) = 34).
      { unfold entry at 1. rewrite jstr_head. cbn [app]. apply cur_mid. }
      rewrite Hw2, Hc2. cbn [Z.eqb Pos.eqb].
      rewrite (obj_loop_print fuel fuel kv l (p ++ [123]) q obj_new);
        [|lia|intros f d' Hlt; apply IHf; lia|apply obj_new_wf|done|done|rewrite length_app; lia].
      f_equal. f_equal. len_eq.
Qed.

(** C37: the reader inverts a writer.  Every document, nested to any depth and
    with any valid UTF-8 strings, printed without whitespace, is read back as
    the value it denotes: literals, integers, strings, arrays in order and
    objects in which the last value of a repeated key wins; and an integer below
    2^53 in magnitude comes out of [as_i64] unchanged. *)
Theorem print_parse d :
  doc_ok d = true ->
  parse (print d) = Some (Some (value d)) /\
  forall z, - 2 ^ 53 < z < 2 ^ 53 -> as_i64 (value (DInt z)) = Some z.
Proof.
  intros Hd. split.
  - unfold parse, parse_fuel. destruct (print_head d Hd) as (c & w & Hp & _).
    pose proof (print_parses (2 * length (print d) + 2) d [] [] Hd I ltac:(lia)) as H.
    rewrite app_nil_r in H. cbn [app length] in H. rewrite H, Hp. done.
  - intros z Hz. cbn [value as_i64]. by rewrite int_f64_as_i64.
Qed.

Lemma print_parse_witness :
  parse (print (DObj [([97], DArr [DInt (-17); DStr [34]; DNull]); ([98], DBool true)])) =
  Some (Some (value (DObj [([97], DArr [DInt (-17); DStr [34]; DNull]); ([98], DBool true)]))).
Proof.
  exact (proj1 (print_parse (DObj [([97], DArr [DInt (-17); DStr [34]; DNull]); ([98], DBool true)]) eq_refl)).
Defined.
