(* ===== verification/Tokenizer.v ===== *)
(** * The byte-level BPE tokenizer ([crates/colibri-tokenizer/src/lib.rs])

    Texts and token strings are lists of bytes, ids are [i32], offsets [nat].
    A guarded test [j < n && f(cp[j])] is [at_cp f cp j]; an index or slice the
    code does not guard returns [None] where it panics.  The loops carry fuel,
    and the theorems show that it is enough. *)

From S2P Require Import Prelude Json Unicode.
Local Open Scope Z_scope.

Inductive PreTok := Cl100k | KimiK3.

Record Special := { sp_bytes : list Z; sp_id : Z }.

Record Tokenizer := {
  vocab : gmap (list Z) Z;
  merges : gmap (list Z) Z;
  id2str : list (option (list Z));
  id_added : list bool;
  specials : list Special;
  byte2str : list (list Z);
  cp2byte : list Z;
  pretok : PreTok
}.

Definition as_i32 (z : Z) : Z := (z + 2 ^ 31) mod 2 ^ 32 - 2 ^ 31.

(** ** UTF-8 steps *)

Definition u8_next (s : list Z) (i : nat) : option (Z * nat) :=
  let* c := s !! i in
  let b k := Z.land (default 0 (s !! (i + k)%nat)) 63 in
  if c <? 128 then Some (c, 1%nat)
  else if (Z.shiftr c 5 =? 6) && (i + 1 <? length s)%nat then
    Some (Z.lor (Z.shiftl (Z.land c 31) 6) (b 1%nat), 2%nat)
  else if (Z.shiftr c 4 =? 14) && (i + 2 <? length s)%nat then
    Some (Z.lor (Z.lor (Z.shiftl (Z.land c 15) 12) (Z.shiftl (b 1%nat) 6)) (b 2%nat), 3%nat)
  else if (Z.shiftr c 3 =? 30) && (i + 3 <? length s)%nat then
    Some (Z.lor (Z.lor (Z.lor (Z.shiftl (Z.land c 7) 18) (Z.shiftl (b 1%nat) 12)) (Z.shiftl (b 2%nat) 6)) (b 3%nat), 4%nat)
  else Some (c, 1%nat).

Definition u8_put (cp : Z) : list Z :=
  if cp <? 128 then [u8 cp]
  else if cp <? 2048 then [Z.lor 192 (u8 (Z.shiftr cp 6)); Z.lor 128 (u8 (Z.land cp 63))]
  else if cp <? 65536 then
    [Z.lor 224 (u8 (Z.shiftr cp 12)); Z.lor 128 (u8 (Z.land (Z.shiftr cp 6) 63)); Z.lor 128 (u8 (Z.land cp 63))]
  else
    [Z.lor 240 (u8 (Z.shiftr cp 18)); Z.lor 128 (u8 (Z.land (Z.shiftr cp 12) 63));
     Z.lor 128 (u8 (Z.land (Z.shiftr cp 6) 63)); Z.lor 128 (u8 (Z.land cp 63))].

(** ** The byte map *)

Definition is_direct (b : nat) : bool :=
  let b := Z.of_nat b in
  (33 <=? b) && (b <=? 126) || (161 <=? b) && (b <=? 172) || (174 <=? b) && (b <=? 255).

(** One turn of the loop over the bytes: [(byte2str, cp2byte, n)]. *)
Definition bytemap_step (st : list (list Z) * list Z * Z) (b : nat) : list (list Z) * list Z * Z :=
  let '(b2s, c2b, n) := st in
  let '(cp, n) := if is_direct b then (Z.of_nat b, n) else (256 + n, u32 (n + 1)) in
  (b2s ++ [u8_put cp], if cp <? 1024 then <[Z.to_nat cp := Z.of_nat b]> c2b else c2b, n).

Definition build_bytemap : list (list Z) * list Z :=
  let '(b2s, c2b, _) := fold_left bytemap_step (seq 0 256) ([], replicate 1024 (-1), 0) in (b2s, c2b).

Definition merge_key (l r : list Z) : list Z := l ++ 0 :: r.

(** ** Splitting: one step of each pre-tokenizer *)

Definition at_cp (f : Z -> bool) (cp : list Z) (j : nat) : bool :=
  match cp !! j with Some c => f c | None => false end.

Definition is_nl (c : Z) : bool := (c =? 13) || (c =? 10).
Definition low (c : Z) : Z := if (65 <=? c) && (c <=? 90) then c + 32 else c.
Definition is_two (d d2 : Z) : bool :=
  (d =? 114) && (d2 =? 101) || (d =? 118) && (d2 =? 101) || (d =? 108) && (d2 =? 108).
Definition is_one (d : Z) : bool := (d =? 115) || (d =? 116) || (d =? 109) || (d =? 100).
Definition is_punct (c : Z) : bool := negb (is_s c) && negb (is_l c) && negb (is_n c).

(** The length of a contraction at [i], 0 if there is none. *)
Definition contraction_len (cp : list Z) (i : nat) : nat :=
  if negb (at_cp (fun c => c =? 39) cp i) then 0%nat
  else match cp !! S i with
  | None => 0%nat
  | Some c1 =>
      let d := low c1 in
      match cp !! S (S i) with
      | Some c2 => if is_two d (low c2) then 3%nat else if is_one d then 2%nat else 0%nat
      | None => if is_one d then 2%nat else 0%nat
      end
  end.

(** Up to three numbers from [i]. *)
Fixpoint num_run (k : nat) (cp : list Z) (j : nat) : nat :=
  match k with
  | O => j
  | S k => if at_cp is_n cp j then num_run k cp (S j) else j
  end.

(** The alternative of an optional space, punctuation and line ends. *)
Definition punct_end (cp : list Z) (c : Z) (i : nat) : option nat :=
  let j := if (c =? 32) && at_cp is_punct cp (S i) then S i else i in
  if at_cp is_punct cp j then Some (scan_while is_nl cp (scan_while is_punct cp j)) else None.

(** The last line end in [i..r). *)
Definition last_nl (cp : list Z) (i r : nat) : option nat :=
  fold_left (fun acc j => if at_cp is_nl cp j then Some j else acc) (seq i (r - i)) None.

(** The white-space alternatives. *)
Definition space_end (cp : list Z) (i : nat) : option nat :=
  let r := scan_while is_s cp i in
  if (i <? r)%nat then
    match last_nl cp i r with
    | Some last => Some (S last)
    | None =>
        let e := if (r <? length cp)%nat then (r - 1)%nat else r in
        Some (if (e <=? i)%nat then S i else e)
    end
  else None.

(** One turn of [split_cl100k]'s loop: where the piece from [i] ends. *)
Definition cl100k_end (cp : list Z) (i : nat) (c : Z) : nat :=
  let k := if (c =? 39) then contraction_len cp i else 0%nat in
  if (0 <? k)%nat then (i + k)%nat
  else
    let j := if negb (is_l c) && negb (is_nl c) && negb (is_n c)
             then (if at_cp is_l cp (S i) then Some (S i) else None) else Some i in
    let letters := match j with
                   | Some j => if at_cp is_l cp j then Some (scan_while is_l cp j) else None
                   | None => None
                   end in
    match letters with
    | Some e => e
    | None =>
        if is_n c then num_run 3 cp i
        else match punct_end cp c i with
             | Some e => e
             | None => match space_end cp i with Some e => e | None => S i end
             end
    end.

Definition k3_can_prefix (c : Z) : bool := negb (is_nl c) && negb (is_l c) && negb (is_n c).

(** [k3_alt2]: the backtracking from the end of the upper-case run. *)
Fixpoint alt2_back (cp : list Z) (b k : nat) (fuel : nat) : option nat :=
  match fuel with
  | O => None
  | S fuel =>
      if at_cp is_k3_lower cp k then Some (scan_while is_k3_lower cp k)
      else if (k =? b)%nat then None
      else alt2_back cp b (k - 1) fuel
  end.
Definition k3_alt2 (cp : list Z) (b : nat) : option nat :=
  if (length cp <=? b)%nat then None
  else let u_end := scan_while is_k3_upper cp b in alt2_back cp b u_end (S (u_end - b)).

Definition k3_alt3 (cp : list Z) (b : nat) : option nat :=
  let u_end := scan_while is_k3_upper cp b in
  if (u_end =? b)%nat then None else Some (scan_while is_k3_lower cp u_end).

(** The two letter alternatives, each first with a prefix character. *)
Definition k3_letters (cp : list Z) (i : nat) (c : Z) : option nat :=
  let try_alt alt :=
    match (if k3_can_prefix c then alt cp (S i) else None) with
    | Some e => Some e
    | None => alt cp i
    end in
  match try_alt k3_alt2 with
  | Some e => Some (e + contraction_len cp e)%nat
  | None => match try_alt k3_alt3 with
            | Some e => Some (e + contraction_len cp e)%nat
            | None => None
            end
  end.

(** One turn of [k3_piece_ends]. *)
Definition k3_end (cp : list Z) (i : nat) (c : Z) : nat :=
  if is_han c then scan_while is_han cp i
  else match k3_letters cp i c with
  | Some e => e
  | None =>
      if is_n c then num_run 3 cp i
      else match punct_end cp c i with
           | Some e => e
           | None => match space_end cp i with Some e => e | None => S i end
           end
  end.

(** The loop both share: the ends of the pieces from [i]. *)
Fixpoint piece_ends (step : list Z -> nat -> Z -> nat) (fuel : nat) (cp : list Z) (i : nat) : option (list nat) :=
  match fuel with
  | O => None
  | S fuel =>
      match cp !! i with
      | None => Some []
      | Some c =>
          let e := step cp i c in
          let* es := piece_ends step fuel cp e in
          Some (e :: es)
      end
  end.

Definition k3_piece_ends (cp : list Z) : option (list nat) := piece_ends k3_end (S (length cp)) cp 0.
Definition cl100k_piece_ends (cp : list Z) : option (list nat) := piece_ends cl100k_end (S (length cp)) cp 0.

(** ** Byte-pair encoding of one piece *)

(** [s[soff[i]..soff[i] + slen[i]]]. *)
Definition sym (s : list Z) (soff slen : list nat) (i : nat) : option (list Z) :=
  let* o := soff !! i in
  let* l := slen !! i in
  slice s o (o + l).

(** The loop that cuts [s] into code points: offsets and lengths. *)
Fixpoint cut_symbols (fuel : nat) (s : list Z) (i : nat) : option (list nat * list nat) :=
  match fuel with
  | O => None
  | S fuel =>
      if (i <? length s)%nat then
        let* (_, k) := u8_next s i in
        let* (soff, slen) := cut_symbols fuel s (i + k) in
        Some (i :: soff, k :: slen)
      else Some ([], [])
  end.

Section Bpe.
Context (t : Tokenizer).

(** One candidate of the search for the best merge; [best] and [bp]. *)
Definition best_step (s : list Z) (soff slen : list nat) (st : option (Z * option nat)) (i : nat)
    : option (Z * option nat) :=
  let* (best, bp) := st in
  let* l := sym s soff slen i in
  let* r := sym s soff slen (S i) in
  match merges t !! merge_key l r with
  | Some rk => if rk <? best then Some (rk, Some i) else Some (best, bp)
  | None => Some (best, bp)
  end.

Definition best_merge (s : list Z) (soff slen : list nat) : option (option nat) :=
  let* (_, bp) := fold_left (best_step s soff slen) (seq 0 (length soff - 1)) (Some (2 ^ 31 - 1, None)) in
  Some bp.

(** Joins symbols [bp] and [bp + 1]. *)
Definition join_at (soff slen : list nat) (bp : nat) : option (list nat * list nat) :=
  let* o1 := soff !! S bp in
  let* l1 := slen !! S bp in
  let* o := soff !! bp in
  Some (delete (S bp) soff, delete (S bp) (<[bp := (o1 + l1 - o)%nat]> slen)).

Fixpoint merge_loop (fuel : nat) (s : list Z) (soff slen : list nat) : option (list nat * list nat) :=
  match fuel with
  | O => None
  | S fuel =>
      let* bp := best_merge s soff slen in
      match bp with
      | None => Some (soff, slen)
      | Some bp => let* (soff, slen) := join_at soff slen bp in merge_loop fuel s soff slen
      end
  end.

(** The ids of the final symbols; one that is not in the vocabulary is
    skipped. *)
Definition emit_step (s : list Z) (soff slen : list nat) (out : option (list Z)) (i : nat) : option (list Z) :=
  let* out := out in
  let* w := sym s soff slen i in
  Some (match vocab t !! w with Some id => out ++ [id] | None => out end).

Definition bpe_piece (p : list Z) (a b : nat) (out : list Z) : option (list Z) :=
  let* bs := slice p a b in
  let s := concat (map (fun bb => default [] (byte2str t !! Z.to_nat bb)) bs) in
  match vocab t !! s with
  | Some id => Some (out ++ [id])
  | None =>
      let* (soff, slen) := cut_symbols (S (length s)) s 0 in
      let* (soff, slen) := merge_loop (S (length soff)) s soff slen in
      fold_left (emit_step s soff slen) (seq 0 (length soff)) (Some out)
  end.

(** [bpe_piece] over the pieces whose ends are given. *)
Fixpoint bpe_pieces (p : list Z) (off : list nat) (start : nat) (ends : list nat) (out : list Z)
    : option (list Z) :=
  match ends with
  | [] => Some out
  | e :: ends =>
      let* a := off !! start in
      let* b := off !! e in
      let* out := bpe_piece p a b out in
      bpe_pieces p off e ends out
  end.

Definition split_cl100k (p cp : list Z) (off : list nat) (out : list Z) : option (list Z) :=
  let* ends := cl100k_piece_ends cp in bpe_pieces p off 0 ends out.

Definition split_k3 (p cp : list Z) (off : list nat) (out : list Z) : option (list Z) :=
  let* ends := k3_piece_ends cp in bpe_pieces p off 0 ends out.
End Bpe.

(** The code points of [p] from [i] to [b], and their offsets. *)
Fixpoint code_points (fuel : nat) (p : list Z) (i b : nat) : option (list Z * list nat) :=
  match fuel with
  | O => None
  | S fuel =>
      if (i <? b)%nat then
        let* (c, k) := u8_next p i in
        let* (cp, off) := code_points fuel p (i + k) b in
        Some (c :: cp, i :: off)
      else Some ([], [])
  end.

Section Encode.
Context (t : Tokenizer).

Definition pretok_chunk (p : list Z) (a b : nat) (out : list Z) : option (list Z) :=
  if (b <=? a)%nat then Some out
  else
    let* (cp, off) := code_points (S (b - a)) p a b in
    let off := off ++ [b] in
    match pretok t with
    | Cl100k => split_cl100k t p cp off out
    | KimiK3 => split_k3 t p cp off out
    end.

(** The special token at [j], if any: the first that matches. *)
Definition special_at (p : list Z) (j : nat) : option Special :=
  List.find (fun sp => let sl := length (sp_bytes sp) in
               (0 <? sl)%nat && (j + sl <=? length p)%nat && bool_decide (slice p j (j + sl) = Some (sp_bytes sp)))
            (specials t).

(** The scan for the next special token from [i]. *)
Fixpoint find_special (fuel : nat) (p : list Z) (j : nat) : option (nat * Special) :=
  match fuel with
  | O => None
  | S fuel =>
      if (j <? length p)%nat then
        match special_at p j with
        | Some sp => Some (j, sp)
        | None => find_special fuel p (S j)
        end
      else None
  end.

Fixpoint encode_loop (fuel : nat) (p : list Z) (i : nat) (out : list Z) : option (list Z) :=
  match fuel with
  | O => None
  | S fuel =>
      if (i <? length p)%nat then
        let hit := find_special (length p - i) p i in
        let chunk_end := match hit with Some (pos, _) => pos | None => length p end in
        let* out := if (i <? chunk_end)%nat then pretok_chunk p i chunk_end out else Some out in
        match hit with
        | Some (pos, sp) => encode_loop fuel p (pos + length (sp_bytes sp)) (out ++ [sp_id sp])
        | None => Some out
        end
      else Some out
  end.

Definition encode (text : list Z) : option (list Z) := encode_loop (S (length text)) text 0 [].

(** ** Decoding *)

(** The bytes a token string stands for. *)
Fixpoint decode_str (fuel : nat) (s : list Z) (j : nat) : option (list Z) :=
  match fuel with
  | O => None
  | S fuel =>
      if (j <? length s)%nat then
        let* (cp, k) := u8_next s j in
        let* rest := decode_str fuel s (j + k) in
        if cp <? 1024 then
          let* v := cp2byte t !! Z.to_nat cp in
          Some (if 0 <=? v then u8 v :: rest else rest)
        else Some rest
      else Some []
  end.

Definition decode_id (id : Z) : option (list Z) :=
  if (id <? 0) || (Z.of_nat (length (id2str t)) <=? id) then Some []
  else
    let* s := id2str t !! Z.to_nat id in
    match s with
    | None => Some []
    | Some s =>
        let* added := id_added t !! Z.to_nat id in
        if added : bool then Some s else decode_str (S (length s)) s 0
    end.

Fixpoint decode_bytes (ids : list Z) : option (list Z) :=
  match ids with
  | [] => Some []
  | id :: ids => let* b := decode_id id in let* rest := decode_bytes ids in Some (b ++ rest)
  end.

(** [String::from_utf8_lossy] of the bytes. *)
Definition decode (ids : list Z) : option (list Z) :=
  let* b := decode_bytes ids in Some (utf8_string b).

Definition n_ids : nat := length (id2str t).
Definition id_of (content : list Z) : option Z :=
  option_map sp_id (List.find (fun s => bool_decide (sp_bytes s = content)) (specials t)).
End Encode.

(** [k3_pretokenize]: the pieces of a text. *)
Fixpoint slices (p : list Z) (off : list nat) (start : nat) (ends : list nat) : option (list (list Z)) :=
  match ends with
  | [] => Some []
  | e :: ends =>
      let* a := off !! start in
      let* b := off !! e in
      let* s := slice p a b in
      let* rest := slices p off e ends in
      Some (s :: rest)
  end.

Definition k3_pretokenize (p : list Z) : option (list (list Z)) :=
  let* (cp, off) := code_points (S (length p)) p 0 (length p) in
  let* ends := k3_piece_ends cp in
  slices p (off ++ [length p]) 0 ends.

(** ** Loading *)

(** The name of a JSON member, as bytes. *)
Definition key (s : string) : list Z := map (fun c => Z.of_nat (Ascii.nat_of_ascii c)) (Stdlib.Strings.String.list_ascii_of_string s).

(** Objects whose [get] would panic do not exist; the options of [json_get] are
    collapsed. *)
Definition member (j : Json) (name : string) : option Json := default None (json_get j (key name)).

(** [id as usize] of an [i32]: negative values become huge. *)
Definition usize_of_i32 (id : Z) : Z := u64 id.

Definition set_id {A} (l : list A) (id : Z) (v : A) : list A :=
  if usize_of_i32 id <? Z.of_nat (length l) then <[Z.to_nat (usize_of_i32 id) := v]> l else l.

Definition max_id (vocab_j : list (list Z * Json)) (added : list Json) : Z :=
  let m := fold_left (fun m kv => match as_i64 (snd kv) with Some id => Z.max m (as_i32 id) | None => m end) vocab_j 0 in
  fold_left (fun m a => match (let* j := member a "id" in as_i64 j) with
                        | Some id => Z.max m (as_i32 id)
                        | None => m
                        end) added m.

Definition vocab_step (st : gmap (list Z) Z * list (option (list Z))) (kv : list Z * Json)
    : gmap (list Z) Z * list (option (list Z)) :=
  let '(vocab, id2str) := st in
  match as_i64 (snd kv) with
  | Some id =>
      let id := as_i32 id in
      (<[fst kv := id]> vocab, set_id id2str id (Some (fst kv)))
  | None => (vocab, id2str)
  end.

(** [str::split_once] at a space. *)
Definition split_once (s : list Z) : option (list Z * list Z) :=
  let i := scan_while (fun c => negb (c =? 32)) s 0 in
  if (i <? length s)%nat then Some (take i s, drop (S i) s) else None.

Definition merge_pair (pr : Json) : option (list Z * list Z) :=
  match pr with
  | Arr (a :: b :: _) => Some (default [] (as_str a), default [] (as_str b))
  | Str s => split_once s
  | _ => None
  end.

Definition merges_step (m : gmap (list Z) Z) (rp : nat * Json) : gmap (list Z) Z :=
  match merge_pair (snd rp) with
  | Some (l, r) => <[merge_key l r := as_i32 (Z.of_nat (fst rp))]> m
  | None => m
  end.

Definition added_step (st : list (option (list Z)) * list bool * list Special) (a : Json)
    : list (option (list Z)) * list bool * list Special :=
  let '(id2str, id_added, specials) := st in
  let content := default [] (let* j := member a "content" in as_str j) in
  let id := as_i32 (default (-1) (let* j := member a "id" in as_i64 j)) in
  if id <? 0 then st
  else (set_id id2str id (Some content), set_id id_added id true,
        specials ++ [{| sp_bytes := content; sp_id := id |}]).

Definition longest_first (a b : Special) : bool := (length (sp_bytes b) <=? length (sp_bytes a))%nat.

(** The pattern [detect_pretok] looks for. *)
Definition han_marker : list Z := key "&&[^\p{Han}]".
Fixpoint contains (pat s : list Z) : bool :=
  bool_decide (take (length pat) s = pat) || match s with [] => false | _ :: s => contains pat s end.

Fixpoint scan_han (j : Json) : bool :=
  match j with
  | Str s => contains han_marker s
  | Arr a => existsb scan_han a
  | Obj (mkObj _ vs _) => existsb scan_han vs
  | _ => false
  end.

Definition detect_pretok (root : Json) : PreTok :=
  match member root "pre_tokenizer" with
  | Some p => if scan_han p then KimiK3 else Cl100k
  | None => Cl100k
  end.

Definition from_json (root : Json) : option Tokenizer :=
  let* model := member root "model" in
  let* vocab_o := (let* v := member model "vocab" in as_object v) in
  let* merges_j := (let* m := member model "merges" in as_array m) in
  let added := default [] (let* a := member root "added_tokens" in as_array a) in
  let '(byte2str, cp2byte) := build_bytemap in
  let n_ids := Z.to_nat (Z.max (as_i32 (max_id (obj_iter vocab_o) added + 1)) 0) in
  let '(vocab, id2str) := fold_left vocab_step (obj_iter vocab_o) (∅, replicate n_ids None) in
  let merges := fold_left merges_step (zip (seq 0 (length merges_j)) merges_j) ∅ in
  let '(id2str, id_added, specials) := fold_left added_step added (id2str, replicate n_ids false, []) in
  Some {| vocab := vocab; merges := merges; id2str := id2str; id_added := id_added;
          specials := sort_by longest_first specials; byte2str := byte2str; cp2byte := cp2byte;
          pretok := detect_pretok root |}.

(** [Tokenizer::load] on the file's text. *)
Definition load (text : list Z) : option Tokenizer :=
  let* root := parse text in let* root := root in from_json root.

(** ** Every piece is not empty and the pieces cover the text *)

Section Steps.
Context (cp : list Z).
Local Set Default Proof Using "Type".
Notation n := (length cp).

Lemma at_cp_lt f j : at_cp f cp j = true -> (j < n)%nat.
Proof. unfold at_cp. destruct (cp !! j) eqn:H; [|done]. intros _. by eapply lookup_lt_Some. Qed.

Lemma at_cp_same f i c : cp !! i = Some c -> at_cp f cp i = f c.
Proof. unfold at_cp. by intros ->. Qed.

(** A run that starts on a member is not empty. *)
Lemma scan_run f i : at_cp f cp i = true -> (i < scan_while f cp i <= n)%nat.
Proof.
  intros H. pose proof (at_cp_lt _ _ H) as Hi. pose proof (scan_while_ge f cp i).
  pose proof (scan_while_le f cp i ltac:(lia)). unfold at_cp in H.
  destruct (cp !! i) as [c|] eqn:Hc; [|done].
  destruct (scan_while_spec f cp i) as (_ & _ & _ & Hstop).
  destruct (decide (scan_while f cp i = i)) as [He|]; [|lia]. rewrite He in Hstop.
  by rewrite (Hstop c Hc) in H.
Qed.

Lemma scan_le f i : (i <= n)%nat -> (i <= scan_while f cp i <= n)%nat.
Proof. intros Hi. split; [apply scan_while_ge|by apply scan_while_le]. Qed.

Lemma contraction_len_le i : (i <= n)%nat -> (i + contraction_len cp i <= n)%nat.
Proof.
  intros Hi. unfold contraction_len. destruct (at_cp _ cp i) eqn:Ha; simpl; [|lia]. apply at_cp_lt in Ha.
  destruct (cp !! S i) eqn:H1; [|lia]. apply lookup_lt_Some in H1.
  destruct (cp !! S (S i)) eqn:H2; [apply lookup_lt_Some in H2|]; repeat case_match; lia.
Qed.

Lemma num_run_le k i : (i <= n)%nat -> (i <= num_run k cp i <= n)%nat.
Proof.
  revert i. induction k as [|k IH]; intros i Hi; simpl; [lia|].
  destruct (at_cp is_n cp i) eqn:H; [|lia]. apply at_cp_lt in H. specialize (IH (S i) ltac:(lia)). lia.
Qed.

Lemma num_run_pos k i : at_cp is_n cp i = true -> (i < num_run (S k) cp i <= n)%nat.
Proof. intros H. simpl. rewrite H. apply at_cp_lt in H. pose proof (num_run_le k (S i) ltac:(lia)). lia. Qed.

Lemma punct_end_step i c e : punct_end cp c i = Some e -> (i < e <= n)%nat.
Proof.
  unfold punct_end. set (j := if _ : bool then S i else i).
  assert (Hj : (i <= j)%nat) by (subst j; destruct (_ && _); lia).
  destruct (at_cp is_punct cp j) eqn:Hp; intros [= <-]. pose proof (scan_run _ _ Hp).
  pose proof (scan_le is_nl (scan_while is_punct cp j) ltac:(lia)). lia.
Qed.

Lemma last_nl_range i r j : last_nl cp i r = Some j -> (i <= j < r)%nat.
Proof.
  unfold last_nl.
  assert (H : forall l acc, (forall x, x ∈ l -> (i <= x < r)%nat) ->
    (forall x, acc = Some x -> (i <= x < r)%nat) ->
    fold_left (fun acc j => if at_cp is_nl cp j then Some j else acc) l acc = Some j -> (i <= j < r)%nat).
  { induction l as [|x l IH]; intros acc Hl Hacc; simpl; [apply Hacc|]. apply IH.
    - intros y Hy. apply Hl, elem_of_cons. by right.
    - intros y. destruct (at_cp is_nl cp x); [intros [= <-]; apply Hl, elem_of_cons; by left|apply Hacc]. }
  apply H; [|done]. intros x Hx%elem_of_seq. lia.
Qed.

Lemma space_end_step i e : (i <= n)%nat -> space_end cp i = Some e -> (i < e <= n)%nat.
Proof.
  intros Hi. unfold space_end. pose proof (scan_le is_s i Hi). set (r := scan_while is_s cp i) in *.
  destruct (Nat.ltb_spec i r) as [Hlt|]; [|done]. destruct (last_nl cp i r) as [j|] eqn:Hj; intros [= <-].
  - apply last_nl_range in Hj. lia.
  - destruct (Nat.ltb_spec r n); match goal with |- context [(?a <=? i)%nat] => destruct (Nat.leb_spec a i) end; lia.
Qed.

Lemma rest_step i c e :
  cp !! i = Some c ->
  (if is_n c then num_run 3 cp i
   else match punct_end cp c i with
        | Some e => e
        | None => match space_end cp i with Some e => e | None => S i end
        end) = e -> (i < e <= n)%nat.
Proof.
  intros Hc <-. pose proof (lookup_lt_Some _ _ _ Hc) as Hi. destruct (is_n c) eqn:Hn.
  { apply num_run_pos. by rewrite (at_cp_same _ _ _ Hc). }
  destruct (punct_end cp c i) as [e|] eqn:He; [by apply punct_end_step in He|].
  destruct (space_end cp i) as [e|] eqn:He'; [apply space_end_step in He'; lia|lia].
Qed.

Lemma cl100k_step i c : cp !! i = Some c -> (i < cl100k_end cp i c <= n)%nat.
Proof.
  intros Hc. pose proof (lookup_lt_Some _ _ _ Hc) as Hi. unfold cl100k_end.
  set (k := if c =? 39 then _ else _). destruct (Nat.ltb_spec 0 k) as [Hk|_].
  { pose proof (contraction_len_le i ltac:(lia)). subst k. destruct (c =? 39); lia. }
  match goal with |- context [match ?o with Some _ => _ | None => None end] => destruct o as [j|] eqn:Hj end;
    [|by apply (rest_step i c)].
  assert (Hij : (i <= j)%nat).
  { destruct (_ && _); [destruct (at_cp is_l cp (S i)); [injection Hj as <-; lia|done]|injection Hj as <-; lia]. }
  destruct (at_cp is_l cp j) eqn:Hl; [pose proof (scan_run _ _ Hl); lia|by apply (rest_step i c)].
Qed.

Lemma alt2_back_step b k fuel e : (b <= k)%nat -> alt2_back cp b k fuel = Some e -> (b < e <= n)%nat.
Proof.
  revert k. induction fuel as [|fuel IH]; intros k Hk; simpl; [done|].
  destruct (at_cp is_k3_lower cp k) eqn:Hl; [intros [= <-]; pose proof (scan_run _ _ Hl); lia|].
  destruct (Nat.eqb_spec k b); [done|]. apply IH. lia.
Qed.

Lemma k3_alt2_step b e : k3_alt2 cp b = Some e -> (b < e <= n)%nat.
Proof. unfold k3_alt2. destruct (_ <=? _)%nat; [done|]. apply alt2_back_step, scan_while_ge. Qed.

Lemma k3_alt3_step b e : (b <= n)%nat -> k3_alt3 cp b = Some e -> (b < e <= n)%nat.
Proof.
  intros Hb. unfold k3_alt3. pose proof (scan_le is_k3_upper b Hb).
  destruct (Nat.eqb_spec (scan_while is_k3_upper cp b) b); [done|]. intros [= <-].
  pose proof (scan_le is_k3_lower (scan_while is_k3_upper cp b) ltac:(lia)). lia.
Qed.

Lemma k3_letters_step i c e : (i < n)%nat -> k3_letters cp i c = Some e -> (i < e <= n)%nat.
Proof.
  intros Hi. unfold k3_letters.
  assert (Htry : forall alt e0, (forall b e0, (b <= n)%nat -> alt b = Some e0 -> (b < e0 <= n)%nat) ->
    match (if k3_can_prefix c then alt (S i) else None) with Some e => Some e | None => alt i end = Some e0 ->
    (i < e0 <= n)%nat).
  { intros alt e0 Halt. destruct (k3_can_prefix c); [|apply Halt; lia].
    destruct (alt (S i)) as [e1|] eqn:H1; [intros [= <-]; apply Halt in H1; lia|apply Halt; lia]. }
  assert (Hadd : forall e0, (i < e0 <= n)%nat -> Some (e0 + contraction_len cp e0)%nat = Some e -> (i < e <= n)%nat).
  { intros e0 He0 [= <-]. pose proof (contraction_len_le e0 ltac:(lia)). lia. }
  destruct (match (if k3_can_prefix c then k3_alt2 cp (S i) else None) with Some e => Some e | None => k3_alt2 cp i end)
    as [e0|] eqn:H2.
  { apply (Htry (k3_alt2 cp)) in H2; [by apply Hadd|]. intros b e1 _. apply k3_alt2_step. }
  destruct (match (if k3_can_prefix c then k3_alt3 cp (S i) else None) with Some e => Some e | None => k3_alt3 cp i end)
    as [e0|] eqn:H3; [|done].
  apply (Htry (k3_alt3 cp)) in H3; [by apply Hadd|]. intros b e1. apply k3_alt3_step.
Qed.

Lemma k3_step i c : cp !! i = Some c -> (i < k3_end cp i c <= n)%nat.
Proof.
  intros Hc. pose proof (lookup_lt_Some _ _ _ Hc) as Hi. unfold k3_end.
  destruct (is_han c) eqn:Hh; [apply scan_run; by rewrite (at_cp_same _ _ _ Hc)|].
  destruct (k3_letters cp i c) as [e|] eqn:He; [by apply k3_letters_step in He|by apply (rest_step i c)].
Qed.

(** [ends] cut [i..n) into pieces that are not empty. *)
Fixpoint tiles (i : nat) (ends : list nat) : Prop :=
  match ends with [] => i = n | e :: ends => (i < e <= n)%nat /\ tiles e ends end.

Lemma piece_ends_tiles step fuel i :
  (forall i c, cp !! i = Some c -> (i < step cp i c <= n)%nat) -> (i <= n)%nat -> (n - i < fuel)%nat ->
  exists ends, piece_ends step fuel cp i = Some ends /\ tiles i ends.
Proof.
  intros Hstep. revert i. induction fuel as [|fuel IH]; intros i Hi Hf; [lia|]. simpl.
  destruct (cp !! i) as [c|] eqn:Hc.
  - pose proof (Hstep i c Hc). destruct (IH (step cp i c)) as (es & -> & Hes); [lia|lia|].
    eexists. split; [done|]. split; [lia|done].
  - apply lookup_ge_None in Hc. exists []. split; [done|]. simpl. lia.
Qed.
End Steps.

(** Both pre-tokenizers terminate and lose nothing.  On any sequence of code
    points the pieces of the cl100k and of the Kimi-K3 splitter are non-empty,
    consecutive and cover it exactly: every alternative advances, none runs past
    the end. *)
Theorem pieces_tile cp :
  (exists ends, cl100k_piece_ends cp = Some ends /\ tiles cp 0 ends) /\
  (exists ends, k3_piece_ends cp = Some ends /\ tiles cp 0 ends).
Proof.
  split; (apply piece_ends_tiles; [|lia|lia]); intros i c Hc; [by apply cl100k_step|by apply k3_step].
Qed.

(** ** The byte map *)

Definition byte_sym (b : Z) : list Z := default [] (fst build_bytemap !! Z.to_nat b).
Definition enc (bs : list Z) : list Z := concat (map byte_sym bs).

(** One code point in one or two bytes, none of them zero. *)
Definition small_char (s : list Z) : bool :=
  match s with
  | [c] => (0 <? c) && (c <? 128)
  | [h; d] => (192 <=? h) && (h <? 224) && (128 <=? d) && (d <? 192)
  | _ => false
  end.

Definition byte_ok (m : list (list Z) * list Z) (b : Z) : bool :=
  let s := default [] (fst m !! Z.to_nat b) in
  small_char s &&
  match u8_next s 0 with
  | Some (cp, k) => (cp <? 1024) && (k =? length s)%nat && bool_decide (snd m !! Z.to_nat cp = Some b)
  | None => false
  end.

Lemma bytemap_ok : (let m := build_bytemap in forallb (byte_ok m) (seqZ 0 256)) = true.
Proof. vm_compute. reflexivity. Qed.

#[local] Opaque build_bytemap.

Lemma byte_sym_ok b : is_u8 b ->
  small_char (byte_sym b) = true /\ exists cp, u8_next (byte_sym b) 0 = Some (cp, length (byte_sym b)) /\
    cp < 1024 /\ snd build_bytemap !! Z.to_nat cp = Some b.
Proof.
  intros Hb. pose proof bytemap_ok as H. cbv zeta in H. rewrite forallb_forall in H.
  specialize (H b). assert (Hin : List.In b (seqZ 0 256)) by (apply list_elem_of_In, elem_of_seqZ; mlia).
  apply H in Hin. unfold byte_ok in Hin. fold (byte_sym b) in Hin.
  apply andb_true_iff in Hin as [Hs Hu]. split; [done|]. destruct (u8_next (byte_sym b) 0) as [[cp k]|]; [|done].
  apply andb_true_iff in Hu as [[Hc%Z.ltb_lt Hk%Nat.eqb_eq]%andb_true_iff Hm%bool_decide_eq_true].
  subst k. exists cp. split_and!; [reflexivity|assumption|assumption].
Qed.

(** [u8_next] looks only at what follows its index. *)
Lemma u8_next_app p s : u8_next (p ++ s) (length p) = u8_next s 0.
Proof.
  unfold u8_next. rewrite lookup_app_r, Nat.sub_diag by lia.
  assert (H : forall k, (p ++ s) !! (length p + k)%nat = s !! k).
  { intros k. rewrite lookup_app_r by lia. f_equal. lia. }
  assert (Hl : forall k, (length p + k <? length (p ++ s))%nat = (0 + k <? length s)%nat).
  { intros k. rewrite length_app. destruct (Nat.ltb_spec (0 + k) (length s));
      [apply Nat.ltb_lt; lia|apply Nat.ltb_ge; lia]. }
  by rewrite !H, !Hl.
Qed.

Lemma u8_next_small s q : small_char s = true -> u8_next (s ++ q) 0 = u8_next s 0.
Proof.
  destruct s as [|h [|d [|? ?]]]; try done; simpl.
  - intros [_ Hc]%andb_true_iff. unfold u8_next. simpl. by rewrite Hc.
  - intros H. apply andb_true_iff in H as [[[H1%Z.leb_le H2%Z.ltb_lt]%andb_true_iff _]%andb_true_iff _].
    unfold u8_next. simpl. rewrite (proj2 (Z.ltb_ge h 128)) by lia.
    assert (Z.shiftr h 5 = 6) as ->.
    { rewrite Z.shiftr_div_pow2 by lia. change (2 ^ 5) with 32. Z.div_mod_to_equations; lia. }
    done.
Qed.

Lemma small_char_len s : small_char s = true -> (1 <= length s <= 2)%nat.
Proof. destruct s as [|? [|? [|? ?]]]; simpl; try done; lia. Qed.

Lemma enc_cons b bs : enc (b :: bs) = byte_sym b ++ enc bs.
Proof. done. Qed.
Lemma enc_app a b : enc (a ++ b) = enc a ++ enc b.
Proof. unfold enc. by rewrite map_app, concat_app. Qed.

Lemma enc_table b2s bs :
  b2s = fst build_bytemap -> concat (map (fun bb => default [] (b2s !! Z.to_nat bb)) bs) = enc bs.
Proof. intros ->. reflexivity. Qed.

#[local] Opaque byte_sym.

(** ** Symbols as a list of strings *)

Fixpoint offs (o : nat) (ws : list (list Z)) : list nat :=
  match ws with [] => [] | w :: ws => o :: offs (o + length w) ws end.

Lemma offs_length o ws : length (offs o ws) = length ws.
Proof. revert o. induction ws as [|w ws IH]; intros o; simpl; [done|by rewrite IH]. Qed.

Lemma offs_lookup o ws i :
  (i < length ws)%nat -> offs o ws !! i = Some (o + length (concat (take i ws)))%nat.
Proof.
  revert o i. induction ws as [|w ws IH]; intros o i Hi; [simpl in Hi; lia|].
  destruct i as [|i]; simpl; [f_equal; lia|]. rewrite IH by (simpl in Hi; lia). rewrite length_app. f_equal. lia.
Qed.

Lemma sym_words ws i w : ws !! i = Some w -> sym (concat ws) (offs 0 ws) (map length ws) i = Some w.
Proof.
  intros Hw. pose proof (lookup_lt_Some _ _ _ Hw) as Hi. unfold sym. rewrite offs_lookup by done.
  change (map length ws) with (length <$> ws). rewrite list_lookup_fmap, Hw. simpl.
  pose proof (take_drop_middle ws i w Hw) as Hsplit. rewrite <- Hsplit at 1.
  rewrite concat_app. cbn [concat]. apply slice_app; lia.
Qed.

Lemma cut_symbols_words ws : forall fuel p,
  Forall (fun w => small_char w = true /\ exists cp, u8_next w 0 = Some (cp, length w)) ws ->
  (length (concat ws) < fuel)%nat ->
  cut_symbols fuel (p ++ concat ws) (length p) = Some (offs (length p) ws, map length ws).
Proof.
  induction ws as [|w ws IH]; intros fuel p Hws Hf; (destruct fuel as [|fuel]; [lia|]); cbn [cut_symbols concat].
  - rewrite app_nil_r, Nat.ltb_irrefl. done.
  - apply Forall_cons in Hws as [[Hs [cp Hu]] Hws]. pose proof (small_char_len w Hs).
    cbn [concat] in Hf. rewrite length_app in Hf.
    rewrite (proj2 (Nat.ltb_lt _ _)) by (rewrite !length_app; lia).
    rewrite u8_next_app, u8_next_small, Hu by done.
    rewrite app_assoc, <- length_app, IH by (done || lia). cbn [offs map]. by rewrite length_app.
Qed.

(** ** One merge *)

Section Merging.
Context (t : Tokenizer).
Local Set Default Proof Using "Type".

(** The rank of merging the symbols [i] and [i + 1]. *)
Definition pair_rank (ws : list (list Z)) (i : nat) : option Z :=
  let* l := ws !! i in let* r := ws !! S i in merges t !! merge_key l r.

(** The merge a step makes: least rank, leftmost among equals. *)
Definition best_pair (ws : list (list Z)) (i : nat) : Prop :=
  exists rk, pair_rank ws i = Some rk /\ rk < 2 ^ 31 - 1 /\
    (forall j rk', pair_rank ws j = Some rk' -> rk <= rk') /\
    (forall j rk', (j < i)%nat -> pair_rank ws j = Some rk' -> rk < rk').

Definition joined (ws : list (list Z)) (i : nat) (l r : list Z) : list (list Z) :=
  take i ws ++ (l ++ r) :: drop (S (S i)) ws.

Inductive bpe_step (ws : list (list Z)) : list (list Z) -> Prop :=
  | bpe_join i l r : best_pair ws i -> ws !! i = Some l -> ws !! S i = Some r -> bpe_step ws (joined ws i l r).

Definition no_merge (ws : list (list Z)) : Prop := forall i rk, pair_rank ws i = Some rk -> 2 ^ 31 - 1 <= rk.

Definition best_inv (ws : list (list Z)) (n : nat) (best : Z) (bp : option nat) : Prop :=
  (forall j rk, (j < n)%nat -> pair_rank ws j = Some rk -> best <= rk) /\
  match bp with
  | None => best = 2 ^ 31 - 1
  | Some i => (i < n)%nat /\ pair_rank ws i = Some best /\ best < 2 ^ 31 - 1 /\
      forall j rk, (j < i)%nat -> pair_rank ws j = Some rk -> best < rk
  end.

Lemma best_fold ws n :
  (n <= length ws - 1)%nat ->
  exists best bp,
    fold_left (best_step t (concat ws) (offs 0 ws) (map length ws)) (seq 0 n) (Some (2 ^ 31 - 1, None)) =
      Some (best, bp) /\ best_inv ws n best bp.
Proof.
  induction n as [|n IH]; intros Hn; [exists (2 ^ 31 - 1), None; split; [done|]; split; [lia|done]|].
  destruct IH as (best & bp & Hf & Hall & Hbp); [lia|]. rewrite seq_S, fold_left_app, Hf. cbn [fold_left best_step].
  destruct (lookup_lt_is_Some_2 ws n) as [l Hl]; [lia|]. destruct (lookup_lt_is_Some_2 ws (S n)) as [r Hr]; [lia|].
  cbn [Nat.add]. rewrite (sym_words ws n l), (sym_words ws (S n) r) by done.
  assert (Hrk : pair_rank ws n = merges t !! merge_key l r) by (unfold pair_rank; by rewrite Hl, Hr).
  assert (Hsplit : forall j, (j < S n)%nat -> (j < n)%nat \/ j = n) by lia.
  assert (Hkeep : (forall rk, merges t !! merge_key l r = Some rk -> best <= rk) ->
    best_inv ws (S n) best bp).
  { intros Hle. split.
    - intros j rk [Hj| ->]%Hsplit Hp; [by apply (Hall j)|]. rewrite Hrk in Hp. by apply Hle.
    - destruct bp as [i|]; [|done]. destruct Hbp as (? & ? & ? & ?). split_and!; [lia|done..]. }
  destruct (merges t !! merge_key l r) as [rk|] eqn:Hm.
  2:{ exists best, bp. split; [done|]. by apply Hkeep. }
  destruct (Z.ltb_spec rk best) as [Hlt|Hge].
  - exists rk, (Some n). split; [done|]. split.
    + intros j rk' [Hj| ->]%Hsplit Hp; [specialize (Hall j rk' Hj Hp); lia|]. rewrite Hrk in Hp. injection Hp as <-. lia.
    + split_and!; [lia|done| |].
      * destruct bp as [i|]; [destruct Hbp as (_ & _ & ? & _); lia|lia].
      * intros j rk' Hj Hp. specialize (Hall j rk' Hj Hp). lia.
  - exists best, bp. split; [done|]. apply Hkeep. by intros rk' [= <-].
Qed.

Lemma best_merge_words ws :
  exists bp, best_merge t (concat ws) (offs 0 ws) (map length ws) = Some bp /\
    match bp with Some i => best_pair ws i | None => no_merge ws end.
Proof.
  unfold best_merge. rewrite offs_length.
  destruct (best_fold ws (length ws - 1)) as (best & bp & -> & Hall & Hbp); [lia|]. exists bp. split; [done|].
  assert (Hrange : forall j rk, pair_rank ws j = Some rk -> (j < length ws - 1)%nat).
  { intros j rk. unfold pair_rank. destruct (ws !! j); [|done]. destruct (ws !! S j) eqn:H; [|done].
    intros _. apply lookup_lt_Some in H. lia. }
  destruct bp as [i|].
  - destruct Hbp as (_ & Hp & Hlt & Hleft). exists best. split_and!; [done|done| |done].
    intros j rk Hj. eapply Hall; [by eapply Hrange|done].
  - intros i rk Hi. rewrite <- Hbp. eapply Hall; [by eapply Hrange|done].
Qed.

Lemma offs_app o a b : offs o (a ++ b) = offs o a ++ offs (o + length (concat a)) b.
Proof.
  revert o. induction a as [|w a IH]; intros o; simpl; [by rewrite Nat.add_0_r|].
  rewrite IH, length_app. do 3 f_equal. lia.
Qed.

Lemma join_words ws i l r :
  ws !! i = Some l -> ws !! S i = Some r ->
  join_at (offs 0 ws) (map length ws) i = Some (offs 0 (joined ws i l r), map length (joined ws i l r)) /\
  concat (joined ws i l r) = concat ws.
Proof.
  intros Hl Hr. pose proof (lookup_lt_Some _ _ _ Hl) as Hi.
  assert (Hws : ws = take i ws ++ l :: r :: drop (S (S i)) ws).
  { rewrite <- (take_drop_middle ws i l Hl) at 1. do 2 f_equal. by apply drop_S. }
  assert (Hlen : length (take i ws) = i) by (rewrite length_take; lia).
  unfold joined. revert Hws Hlen. generalize (take i ws) (drop (S (S i)) ws). intros a d -> <-. split.
  - set (k := (0 + length (concat a))%nat).
    assert (Ho : offs 0 (a ++ l :: r :: d) = offs 0 a ++ k :: (k + length l)%nat :: offs (k + length l + length r) d).
    { by rewrite offs_app. }
    assert (Hm : map length (a ++ l :: r :: d) = map length a ++ length l :: length r :: map length d).
    { by rewrite map_app. }
    pose proof (offs_length 0 a) as Hoa. pose proof (length_map (@length Z) a) as Hma.
    unfold join_at. rewrite Ho, Hm.
    rewrite !(lookup_app_r (offs 0 a)), !(lookup_app_r (map length a)), Hoa, Hma by lia.
    replace (S (length a) - length a)%nat with 1%nat by lia. rewrite Nat.sub_diag. cbn [lookup list_lookup].
    rewrite !insert_app_r_alt, Hma, Nat.sub_diag by lia. cbn [insert list_insert].
    assert (Hdel : forall (u v : list nat) x y, delete (S (length u)) (u ++ x :: y :: v) = u ++ x :: v).
    { intros u v x y. rewrite (shift1 u (y :: v) x), (length_shift1 u x), delete_middle. by rewrite <- app_assoc. }
    rewrite <- Hoa at 1. rewrite <- Hma at 1. rewrite !Hdel.
    rewrite offs_app, map_app. cbn [offs map]. rewrite !length_app, Nat.add_assoc.
    do 3 f_equal. f_equal. lia.
  - rewrite !concat_app. cbn [concat]. by rewrite <- !app_assoc.
Qed.

Lemma joined_length ws i l r :
  ws !! i = Some l -> ws !! S i = Some r -> (length (joined ws i l r) < length ws)%nat.
Proof.
  intros _ Hr%lookup_lt_Some. unfold joined. rewrite length_app, length_take. cbn [length]. rewrite length_drop. lia.
Qed.

Lemma best_pair_lookup ws i : best_pair ws i -> exists l r, ws !! i = Some l /\ ws !! S i = Some r.
Proof.
  intros (rk & Hp & _). unfold pair_rank in Hp. destruct (ws !! i) as [l|]; [|done].
  destruct (ws !! S i) as [r|]; [|done]. by exists l, r.
Qed.

(** The loop reaches the normal form of merging, in at most one turn per
    symbol. *)
Lemma merge_loop_words fuel : forall ws,
  (length ws < fuel)%nat ->
  exists ws', merge_loop t fuel (concat ws) (offs 0 ws) (map length ws) = Some (offs 0 ws', map length ws') /\
    rtc bpe_step ws ws' /\ no_merge ws' /\ concat ws' = concat ws.
Proof.
  induction fuel as [|fuel IH]; intros ws Hf; [lia|]. cbn [merge_loop].
  destruct (best_merge_words ws) as (bp & -> & Hbp). destruct bp as [i|].
  - destruct (best_pair_lookup ws i Hbp) as (l & r & Hl & Hr).
    destruct (join_words ws i l r Hl Hr) as [-> Hcat]. pose proof (joined_length ws i l r Hl Hr).
    destruct (IH (joined ws i l r)) as (ws' & Hm & Hrtc & Hno & Hcat'); [lia|]. rewrite Hcat in Hm, Hcat'.
    exists ws'. split_and!; [done| |done|done]. eapply rtc_l; [by apply (bpe_join ws i l r)|done].
  - exists ws. split_and!; [done|apply rtc_refl|done|done].
Qed.

Lemma emit_words ws out :
  fold_left (emit_step t (concat ws) (offs 0 ws) (map length ws)) (seq 0 (length (offs 0 ws))) (Some out) =
    Some (out ++ omap (fun w => vocab t !! w) ws).
Proof.
  rewrite offs_length.
  assert (H : forall n, (n <= length ws)%nat ->
    fold_left (emit_step t (concat ws) (offs 0 ws) (map length ws)) (seq 0 n) (Some out) =
      Some (out ++ omap (fun w => vocab t !! w) (take n ws))).
  { induction n as [|n IH]; intros Hn; [simpl; by rewrite app_nil_r|].
    rewrite seq_S, fold_left_app, IH by lia. cbn [fold_left emit_step Nat.add].
    destruct (lookup_lt_is_Some_2 ws n) as [w Hw]; [lia|]. rewrite (sym_words ws n w Hw).
    rewrite (take_S_r ws n w Hw), omap_app. cbn [omap list_omap].
    destruct (vocab t !! w); by rewrite ?app_nil_r, ?app_assoc. }
  rewrite H by lia. by rewrite take_ge by lia.
Qed.

(** What the ids of a piece are: its whole string if that is a token, else the
    tokens of the normal form of merging its byte symbols. *)
Definition piece_ids (bs ids : list Z) : Prop :=
  match vocab t !! enc bs with
  | Some id => ids = [id]
  | None => exists ws, rtc bpe_step (map byte_sym bs) ws /\ no_merge ws /\ ids = omap (fun w => vocab t !! w) ws
  end.

Lemma bpe_piece_spec p a b bs out :
  byte2str t = fst build_bytemap -> slice p a b = Some bs -> Forall is_u8 bs ->
  exists ids, bpe_piece t p a b out = Some (out ++ ids) /\ piece_ids bs ids.
Proof.
  intros Hb2s Hsl Hbs. unfold bpe_piece, piece_ids. rewrite Hsl, (enc_table _ bs Hb2s). clear Hb2s Hsl.
  destruct (vocab t !! enc bs) as [id|]; [by exists [id]|].
  assert (Hcut : cut_symbols (S (length (enc bs))) (enc bs) 0 =
    Some (offs 0 (map byte_sym bs), map length (map byte_sym bs))).
  { apply (cut_symbols_words (map byte_sym bs) (S (length (enc bs))) []); [|unfold enc; lia].
    apply Forall_map. eapply Forall_impl; [exact Hbs|]. intros x Hx.
    destruct (byte_sym_ok x Hx) as (? & cp & ? & _). split; [done|]. by exists cp. }
  rewrite Hcut, offs_length. unfold enc.
  destruct (merge_loop_words (S (length (map byte_sym bs))) (map byte_sym bs)) as (ws & Hm & Hrtc & Hno & Hcat); [lia|].
  rewrite Hm, <- Hcat, emit_words. eexists. split; [done|]. by exists ws.
Qed.
End Merging.

(** C20: the span-based encoder computes byte-pair encoding.  On any piece,
    [bpe_piece] never panics and always ends; the ids it appends are the id of
    the whole piece if the vocabulary has it, and otherwise the ids of the
    symbols reached by repeatedly joining the adjacent pair of least rank,
    leftmost first, until no pair can be merged. *)
Theorem bpe_piece_refines t p a b bs out :
  byte2str t = fst build_bytemap -> slice p a b = Some bs -> Forall is_u8 bs ->
  exists ids, bpe_piece t p a b out = Some (out ++ ids) /\ piece_ids t bs ids.
Proof. apply bpe_piece_spec. Qed.

Lemma bpe_piece_refines_witness :
  exists ids, bpe_piece {| vocab := {[ [97; 98] := 7 ]}; merges := {[ merge_key [97] [98] := 0 ]};
    id2str := []; id_added := []; specials := []; byte2str := fst build_bytemap; cp2byte := [];
    pretok := Cl100k |} [120; 97; 98] 0 3 [] = Some ids.
Proof.
  assert (Hb : Forall is_u8 [120; 97; 98]) by
    (repeat first [apply Forall_nil_2 | apply Forall_cons_2; [apply in_u_dec_spec; reflexivity|]]).
  destruct (bpe_piece_refines {| vocab := {[ [97; 98] := 7 ]}; merges := {[ merge_key [97] [98] := 0 ]};
    id2str := []; id_added := []; specials := []; byte2str := fst build_bytemap; cp2byte := [];
    pretok := Cl100k |} [120; 97; 98] 0 3 [120; 97; 98] [] eq_refl eq_refl Hb) as (ids & H & _).
  exists ids. exact H.
Defined.

(** ** Decoding undoes encoding *)

(** The inverse table takes every byte symbol back to its byte. *)
Definition decodes_syms (c2b : list Z) : Prop :=
  forall b, is_u8 b -> small_char (byte_sym b) = true /\
    exists cp, u8_next (byte_sym b) 0 = Some (cp, length (byte_sym b)) /\ cp < 1024 /\ c2b !! Z.to_nat cp = Some b.

Lemma build_bytemap_decodes c2b : c2b = snd build_bytemap -> decodes_syms c2b.
Proof. intros -> b. apply byte_sym_ok. Qed.

Section Decoding.
Context (t : Tokenizer) (Hc2b : decodes_syms (cp2byte t)).
Local Set Default Proof Using "All".

Lemma decode_enc bs : forall fuel p,
  Forall is_u8 bs -> (length (enc bs) < fuel)%nat ->
  decode_str t fuel (p ++ enc bs) (length p) = Some bs.
Proof.
  induction bs as [|b bs IH]; intros fuel p Hbs Hf; (destruct fuel as [|fuel]; [lia|]); cbn [decode_str].
  - change (enc []) with (@nil Z). by rewrite app_nil_r, Nat.ltb_irrefl.
  - apply Forall_cons in Hbs as [Hb Hbs]. rewrite enc_cons in *. rewrite length_app in Hf.
    destruct (Hc2b b Hb) as (Hs & cp & Hu & Hcp & Hm). pose proof (small_char_len _ Hs).
    rewrite (proj2 (Nat.ltb_lt _ _)) by (rewrite !length_app; lia).
    rewrite u8_next_app, u8_next_small, Hu by done.
    rewrite (app_assoc p), <- (length_app p (byte_sym b)), (IH fuel (p ++ byte_sym b)); [|exact Hbs|lia].
    rewrite (proj2 (Z.ltb_lt _ _)) by done. rewrite Hm.
    rewrite (proj2 (Z.leb_le _ _)) by mlia. by rewrite wrap_id.
Qed.
End Decoding.

(** A tokenizer whose tables agree: ids name their own strings, added tokens are
    marked, and a merge leads to a token. *)
Record wf_tok (t : Tokenizer) : Prop := {
  wt_b2s : byte2str t = fst build_bytemap;
  wt_c2b : cp2byte t = snd build_bytemap;
  wt_vocab : forall w id, vocab t !! w = Some id ->
    0 <= id /\ id2str t !! Z.to_nat id = Some (Some w) /\ id_added t !! Z.to_nat id = Some false;
  wt_merges : forall l r rk, merges t !! merge_key l r = Some rk -> is_Some (vocab t !! (l ++ r));
  wt_specials : forall sp, sp ∈ specials t ->
    0 <= sp_id sp /\ id2str t !! Z.to_nat (sp_id sp) = Some (Some (sp_bytes sp)) /\
    id_added t !! Z.to_nat (sp_id sp) = Some true
}.

Section Pieces.
Context (t : Tokenizer) (Hwf : wf_tok t).
Local Set Default Proof Using "All".

Lemma decode_vocab g id : Forall is_u8 g -> vocab t !! enc g = Some id -> decode_id t id = Some g.
Proof.
  intros Hg Hv. destruct (wt_vocab t Hwf _ _ Hv) as (Hid & Hs & Ha). unfold decode_id.
  pose proof (lookup_lt_Some _ _ _ Hs). rewrite (proj2 (Z.ltb_ge _ _)), (proj2 (Z.leb_gt _ _)) by lia. simpl.
  rewrite Hs, Ha. apply (decode_enc t (build_bytemap_decodes _ (wt_c2b t Hwf)) g (S (length (enc g))) []); [done|lia].
Qed.

Lemma decode_special sp : sp ∈ specials t -> decode_id t (sp_id sp) = Some (sp_bytes sp).
Proof.
  intros Hin. destruct (wt_specials t Hwf _ Hin) as (Hid & Hs & Ha). unfold decode_id.
  pose proof (lookup_lt_Some _ _ _ Hs). rewrite (proj2 (Z.ltb_ge _ _)), (proj2 (Z.leb_gt _ _)) by lia. simpl.
  by rewrite Hs, Ha.
Qed.

Lemma decode_bytes_app xs ys a b :
  decode_bytes t xs = Some a -> decode_bytes t ys = Some b -> decode_bytes t (xs ++ ys) = Some (a ++ b).
Proof using Type.
  revert a. induction xs as [|x xs IH]; intros a; simpl; [by intros [= <-]|].
  destruct (decode_id t x) as [c|]; [|done]. destruct (decode_bytes t xs) as [r|]; [|done].
  intros [= <-] Hb. rewrite (IH r) by done. by rewrite app_assoc.
Qed.

(** The symbols of a piece stay encodings of consecutive groups of its bytes,
    each of them a token. *)
Definition grouped (bs : list Z) (ws : list (list Z)) : Prop :=
  exists gs, ws = map enc gs /\ concat gs = bs /\ Forall (fun g => is_Some (vocab t !! enc g)) gs.

Lemma grouped_step bs ws ws' : grouped bs ws -> bpe_step t ws ws' -> grouped bs ws'.
Proof.
  intros (gs & -> & Hcat & Hv) [i l r Hbest Hl Hr].
  change (map enc gs) with (enc <$> gs) in *. rewrite list_lookup_fmap in Hl, Hr.
  destruct (gs !! i) as [g1|] eqn:H1; [|done]. destruct (gs !! S i) as [g2|] eqn:H2; [|done].
  injection Hl as <-. injection Hr as <-.
  exists (take i gs ++ (g1 ++ g2) :: drop (S (S i)) gs). split_and!.
  - unfold joined. rewrite <- fmap_take, <- fmap_drop, <- enc_app. exact (eq_sym (fmap_app enc (take i gs) ((g1 ++ g2) :: drop (S (S i)) gs))).
  - rewrite <- Hcat. rewrite <- (take_drop_middle gs i g1 H1) at 3.
    rewrite (drop_S gs g2 (S i) H2), !concat_app. cbn [concat]. by rewrite <- app_assoc.
  - apply Forall_app. split; [by apply Forall_take|]. apply Forall_cons. split; [|by apply Forall_drop].
    destruct Hbest as (rk & Hp & _). unfold pair_rank in Hp. rewrite !list_lookup_fmap, H1, H2 in Hp.
    rewrite enc_app. by eapply (wt_merges t Hwf).
Qed.

Lemma piece_ids_decode bs ids :
  Forall is_u8 bs -> Forall (fun b => is_Some (vocab t !! byte_sym b)) bs ->
  piece_ids t bs ids -> decode_bytes t ids = Some bs.
Proof.
  intros Hbs Hv. unfold piece_ids. destruct (vocab t !! enc bs) as [id|] eqn:Hid.
  - intros ->. cbn [decode_bytes]. rewrite (decode_vocab bs id) by done. by rewrite app_nil_r.
  - intros (ws & Hrtc & _ & ->).
    assert (Hg : grouped bs (map byte_sym bs)).
    { exists (map (fun b => [b]) bs).
      assert (Hone : forall b, enc [b] = byte_sym b) by (intros b; rewrite enc_cons; apply app_nil_r).
      split_and!.
      - rewrite map_map. apply map_ext. intros b. by rewrite Hone.
      - clear. induction bs as [|b bs IH]; [done|]. simpl. by rewrite IH.
      - apply Forall_map. eapply Forall_impl; [exact Hv|]. intros b Hb. by rewrite Hone. }
    assert (Hg' : grouped bs ws) by (clear -Hg Hrtc Hwf; induction Hrtc; eauto using grouped_step).
    destruct Hg' as (gs & -> & <- & Hgs). clear Hg Hrtc Hv Hid.
    induction gs as [|g gs IH]; [done|]. cbn [map concat] in *. apply Forall_app in Hbs as [Hbg Hbs].
    apply Forall_cons in Hgs as [[id Hid] Hgs]. cbn [omap list_omap]. rewrite Hid. cbn [decode_bytes].
    rewrite (decode_vocab g id) by done. by rewrite IH.
Qed.
End Pieces.

(** ** Characters of a text *)

Definition char_len (h : Z) : option nat :=
  if h <? 0 then None
  else if h <? 128 then Some 1%nat
  else if (192 <=? h) && (h <? 224) then Some 2%nat
  else if (224 <=? h) && (h <? 240) then Some 3%nat
  else if (240 <=? h) && (h <? 248) then Some 4%nat
  else None.

Definition is_cont (c : Z) : Prop := 128 <= c < 192.

(** A leading byte and the continuation bytes it announces; every UTF-8
    character has this form. *)
Definition wf_char (c : list Z) : Prop :=
  match c with [] => False | h :: tl => char_len h = Some (S (length tl)) /\ Forall is_cont tl end.

Lemma wf_char_pos c : wf_char c -> (1 <= length c)%nat.
Proof. destruct c; simpl; [done|lia]. Qed.

Lemma shiftr_eq h k m : 0 <= k -> m * 2 ^ k <= h < (m + 1) * 2 ^ k -> Z.shiftr h k = m.
Proof.
  intros Hk H. rewrite Z.shiftr_div_pow2 by done. assert (0 < 2 ^ k) by (apply Z.pow_pos_nonneg; lia).
  symmetry. apply (Z.div_unique _ _ _ (h - m * 2 ^ k)); nia.
Qed.

Lemma u8_next_char c q : wf_char c -> exists cp, u8_next (c ++ q) 0 = Some (cp, length c).
Proof.
  destruct c as [|h tl]; [done|]. intros [Hh _]. unfold char_len in Hh. unfold u8_next. cbn [app lookup list_lookup].
  destruct (Z.ltb_spec h 0); [done|]. destruct (Z.ltb_spec h 128); [injection Hh as Hh; cbn [length]; rewrite <- Hh; by eexists|].
  assert (Hlen : forall k, length tl = k -> (0 + k <? length (h :: tl ++ q))%nat = true).
  { intros k <-. apply Nat.ltb_lt. simpl. rewrite length_app. lia. }
  destruct ((192 <=? h) && (h <? 224)) eqn:H2.
  { apply andb_true_iff in H2 as [?%Z.leb_le ?%Z.ltb_lt]. injection Hh as Hh.
    rewrite (shiftr_eq h 5 6) by lia. rewrite (Hlen 1%nat) by lia. cbn [Z.eqb Pos.eqb andb length]. rewrite <- Hh. by eexists. }
  destruct ((224 <=? h) && (h <? 240)) eqn:H3.
  { apply andb_true_iff in H3 as [?%Z.leb_le ?%Z.ltb_lt]. injection Hh as Hh.
    rewrite (shiftr_eq h 5 7), (shiftr_eq h 4 14) by lia. rewrite (Hlen 2%nat) by lia.
    cbn [Z.eqb Pos.eqb andb length]. rewrite <- Hh. by eexists. }
  destruct ((240 <=? h) && (h <? 248)) eqn:H4; [|done].
  apply andb_true_iff in H4 as [?%Z.leb_le ?%Z.ltb_lt]. injection Hh as Hh.
  rewrite (shiftr_eq h 5 7), (shiftr_eq h 4 15), (shiftr_eq h 3 30) by lia. rewrite (Hlen 3%nat) by lia.
  cbn [Z.eqb Pos.eqb andb length]. rewrite <- Hh. by eexists.
Qed.

Lemma concat_pos cs : Forall wf_char cs -> (length cs <= length (concat cs))%nat.
Proof.
  induction 1 as [|c cs Hc Hcs IH]; simpl; [lia|]. rewrite length_app. pose proof (wf_char_pos c Hc). lia.
Qed.

Lemma code_points_chars cs : forall fuel p q,
  Forall wf_char cs -> (length (concat cs) < fuel)%nat ->
  exists cps, code_points fuel (p ++ concat cs ++ q) (length p) (length (p ++ concat cs)) = Some (cps, offs (length p) cs) /\
    length cps = length cs.
Proof.
  induction cs as [|c cs IH]; intros fuel p q Hcs Hf; (destruct fuel as [|fuel]; [lia|]); cbn [code_points concat].
  - rewrite app_nil_r, Nat.ltb_irrefl. by exists [].
  - apply Forall_cons in Hcs as [Hc Hcs]. cbn [concat] in Hf. rewrite length_app in Hf. pose proof (wf_char_pos c Hc).
    rewrite (proj2 (Nat.ltb_lt _ _)) by (rewrite !length_app; lia).
    rewrite u8_next_app, <- app_assoc. destruct (u8_next_char c (concat cs ++ q) Hc) as [cp ->].
    destruct (IH fuel (p ++ c) q Hcs ltac:(lia)) as (cps & Hcp & Hlen).
    rewrite <- (length_app p c), (app_assoc p c), (app_assoc p c), Hcp. cbn [offs].
    rewrite length_app. exists (cp :: cps). split; [done|]. simpl. by rewrite Hlen.
Qed.

(** A byte that is not a continuation starts a character. *)
Lemma boundary cs j x :
  Forall wf_char cs -> concat cs !! j = Some x -> ~ is_cont x ->
  exists cs1 cs2, cs = cs1 ++ cs2 /\ length (concat cs1) = j.
Proof.
  intros Hcs. revert j. induction Hcs as [|c cs Hc Hcs IH]; intros j Hj Hx; [done|]. cbn [concat] in Hj.
  destruct (decide (j = 0%nat)) as [->|Hj0]; [by exists [], (c :: cs)|].
  destruct (decide (j < length c)%nat) as [Hlt|Hge].
  - rewrite lookup_app_l in Hj by done. destruct c as [|h tl]; [done|]. destruct Hc as [_ Htl].
    destruct j as [|j]; [done|]. simpl in Hj. rewrite Forall_forall in Htl.
    destruct (Hx (Htl x (list_elem_of_lookup_2 _ _ _ Hj))).
  - rewrite lookup_app_r in Hj by lia. destruct (IH _ Hj Hx) as (cs1 & cs2 & -> & Hlen).
    exists (c :: cs1), cs2. split; [done|]. cbn [concat]. rewrite length_app. lia.
Qed.

(** Two readings of the same bytes agree character by character. *)
Lemma chars_prefix ds : forall cs rest,
  Forall wf_char ds -> Forall wf_char cs -> concat cs = concat ds ++ rest ->
  exists cs', cs = ds ++ cs' /\ rest = concat cs'.
Proof.
  induction ds as [|d ds IH]; intros cs rest Hds Hcs Heq; [by exists cs|].
  apply Forall_cons in Hds as [Hd Hds]. destruct cs as [|c cs].
  { destruct d; [done|]. discriminate Heq. }
  apply Forall_cons in Hcs as [Hc Hcs]. cbn [concat] in Heq. rewrite <- app_assoc in Heq.
  destruct c as [|h tl]; [done|]. destruct d as [|h' tl']; [done|]. destruct Hc as [Hc Hct], Hd as [Hd Hdt].
  injection Heq as -> Heq. rewrite Hc in Hd. injection Hd as Hd. apply app_inj_1 in Heq as [-> Heq]; [|done].
  destruct (IH cs rest Hds Hcs Heq) as (cs' & -> & ->). by exists cs'.
Qed.

(** ** From pieces to the whole text *)

Definition text_chars (s : list Z) : Prop := exists cs, s = concat cs /\ Forall wf_char cs.

Section RoundTrip.
Context (t : Tokenizer) (Hwf : wf_tok t).
Context (Hsp : forall sp, sp ∈ specials t -> text_chars (sp_bytes sp)).
Local Set Default Proof Using "All".

(** The bytes the vocabulary can spell. *)
Definition spelled (b : Z) : Prop := is_u8 b /\ is_Some (vocab t !! byte_sym b).

Lemma offs_end a (cs : list (list Z)) k : (k <= length cs)%nat ->
  (offs a cs ++ [(a + length (concat cs))%nat]) !! k = Some (a + length (concat (take k cs)))%nat.
Proof using Type.
  intros Hk. destruct (decide (k < length cs)%nat) as [Hlt|Hge].
  - rewrite lookup_app_l by by rewrite offs_length. by apply offs_lookup.
  - assert (k = length cs) as -> by lia. rewrite lookup_app_r, offs_length, Nat.sub_diag by (rewrite offs_length; lia).
    by rewrite firstn_all.
Qed.

Lemma slice_chars (p : list Z) cs q i e :
  (i <= e <= length cs)%nat ->
  slice (p ++ concat cs ++ q) (length p + length (concat (take i cs))) (length p + length (concat (take e cs))) =
    Some (concat (drop i (take e cs))).
Proof using Type.
  intros Hie.
  assert (Hc : concat cs = concat (take i cs) ++ concat (drop i (take e cs)) ++ concat (drop e cs)).
  { rewrite <- !concat_app. f_equal. rewrite app_assoc. rewrite <- (take_drop e cs) at 1. f_equal.
    rewrite <- (take_drop i (take e cs)) at 1. f_equal. rewrite take_take. f_equal. lia. }
  assert (Ht : concat (take e cs) = concat (take i cs) ++ concat (drop i (take e cs))).
  { rewrite <- concat_app. f_equal. rewrite <- (take_drop i (take e cs)) at 1. f_equal. rewrite take_take. f_equal. lia. }
  rewrite Hc, Ht. rewrite <- !app_assoc, (app_assoc p). apply slice_app; rewrite !length_app; lia.
Qed.

Lemma bpe_pieces_decode p cs q ends : forall cp start out,
  Forall spelled (concat cs) -> length cp = length cs -> (start <= length cs)%nat -> tiles cp start ends ->
  exists ids, bpe_pieces t (p ++ concat cs ++ q) (offs (length p) cs ++ [(length p + length (concat cs))%nat]) start ends out =
    Some (out ++ ids) /\ decode_bytes t ids = Some (concat (drop start cs)).
Proof.
  induction ends as [|e ends IH]; intros cp start out Hsp8 Hlen Hst Htiles; cbn [bpe_pieces tiles] in *.
  - exists []. rewrite app_nil_r. split; [done|]. by rewrite drop_ge by lia.
  - destruct Htiles as [He Htiles]. rewrite !offs_end by lia.
    pose proof (slice_chars p cs q start e ltac:(lia)) as Hsl.
    set (bs := concat (drop start (take e cs))) in *.
    assert (Hall : concat (drop start cs) = bs ++ concat (drop e cs)).
    { subst bs. rewrite <- concat_app. f_equal. rewrite <- (take_drop e cs) at 1.
      rewrite drop_app_le by (rewrite length_take; lia). done. }
    assert (Hbs : Forall spelled bs).
    { rewrite <- (take_drop start cs), concat_app, Hall in Hsp8. apply Forall_app in Hsp8 as [_ Hsp8].
      by apply Forall_app in Hsp8 as [? _]. }
    assert (Hb8 : Forall is_u8 bs) by (eapply Forall_impl; [exact Hbs|]; by intros x [? _]).
    assert (Hbv : Forall (fun b => is_Some (vocab t !! byte_sym b)) bs) by (eapply Forall_impl; [exact Hbs|]; by intros x [_ ?]).
    destruct (bpe_piece_spec t (p ++ concat cs ++ q) _ _ bs out (wt_b2s t Hwf) Hsl Hb8) as (ids & -> & Hids).
    apply (piece_ids_decode t Hwf bs ids Hb8 Hbv) in Hids.
    destruct (IH cp e (out ++ ids) Hsp8 Hlen ltac:(lia) Htiles) as (ids' & -> & Hids').
    exists (ids ++ ids'). rewrite app_assoc. split; [done|]. rewrite Hall. by apply decode_bytes_app.
Qed.

Lemma pretok_chunk_decode p cs q out :
  Forall wf_char cs -> Forall spelled (concat cs) ->
  exists ids, pretok_chunk t (p ++ concat cs ++ q) (length p) (length (p ++ concat cs)) out = Some (out ++ ids) /\
    decode_bytes t ids = Some (concat cs).
Proof.
  intros Hcs Hsp8. unfold pretok_chunk. rewrite length_app.
  destruct (Nat.leb_spec (length p + length (concat cs)) (length p)) as [Hle|Hgt].
  { exists []. rewrite app_nil_r. split; [done|]. assert (concat cs = []) as -> by (apply length_zero_iff_nil; lia). done. }
  destruct (code_points_chars cs (S (length p + length (concat cs) - length p)) p q Hcs ltac:(lia)) as (cps & Hcp & Hlen).
  rewrite length_app in Hcp. rewrite Hcp.
  assert (Hgo : forall ends, tiles cps 0 ends ->
    exists ids, bpe_pieces t (p ++ concat cs ++ q) (offs (length p) cs ++ [(length p + length (concat cs))%nat]) 0 ends out =
      Some (out ++ ids) /\ decode_bytes t ids = Some (concat cs)).
  { intros ends Ht. destruct (bpe_pieces_decode p cs q ends cps 0 out Hsp8 Hlen ltac:(lia) Ht) as (ids & H1 & H2).
    rewrite drop_0 in H2. by exists ids. }
  destruct (pretok t).
  - unfold split_cl100k.
    destruct (piece_ends_tiles cps cl100k_end (S (length cps)) 0) as (ends & Hends & Ht);
      [intros; by apply cl100k_step|lia|lia|]. unfold cl100k_piece_ends. rewrite Hends. by apply Hgo.
  - unfold split_k3.
    destruct (piece_ends_tiles cps k3_end (S (length cps)) 0) as (ends & Hends & Ht);
      [intros; by apply k3_step|lia|lia|]. unfold k3_piece_ends. rewrite Hends. by apply Hgo.
Qed.

(** The next special token, as the scan finds it. *)
Lemma find_special_spec p fuel : forall j,
  match find_special t fuel p j with
  | Some (pos, sp) => (j <= pos)%nat /\ sp ∈ specials t /\ (0 < length (sp_bytes sp))%nat /\
      slice p pos (pos + length (sp_bytes sp)) = Some (sp_bytes sp)
  | None => True
  end.
Proof using Type.
  induction fuel as [|fuel IH]; intros j; simpl; [done|]. destruct (Nat.ltb_spec j (length p)); [|done].
  destruct (special_at t p j) as [sp|] eqn:Hs.
  - apply List.find_some in Hs as [Hin Hc].
    apply andb_true_iff in Hc as [[Hpos%Nat.ltb_lt _]%andb_true_iff Hsl%bool_decide_eq_true].
    split_and!; [lia|by apply list_elem_of_In|done|done].
  - specialize (IH (S j)). destruct (find_special t fuel p (S j)) as [[pos sp]|]; [|done].
    destruct IH as (? & ? & ? & ?). split_and!; [lia|done..].
Qed.

(** A special token stands on whole characters of the text. *)
Lemma special_chars p cs pos sp :
  Forall wf_char cs -> sp ∈ specials t -> (0 < length (sp_bytes sp))%nat -> (length p <= pos)%nat ->
  slice (p ++ concat cs) pos (pos + length (sp_bytes sp)) = Some (sp_bytes sp) ->
  exists cs1 cs2, concat cs = concat cs1 ++ sp_bytes sp ++ concat cs2 /\ pos = (length p + length (concat cs1))%nat /\
    Forall wf_char cs1 /\ Forall wf_char cs2.
Proof.
  intros Hcs Hin Hpos Hp Hsl. apply slice_Some in Hsl as [Hle Heq]. rewrite length_app in Hle.
  rewrite drop_app, (drop_ge p) in Heq by lia. cbn [app] in Heq.
  set (j := (pos - length p)%nat) in *. replace (pos + length (sp_bytes sp) - pos)%nat with (length (sp_bytes sp)) in Heq by lia.
  assert (Hcat : concat cs = take j (concat cs) ++ sp_bytes sp ++ drop (j + length (sp_bytes sp)) (concat cs)).
  { rewrite Heq at 1. rewrite <- drop_drop, take_drop. by rewrite take_drop. }
  destruct (Hsp sp Hin) as (ds & Hds & Hdw). destruct ds as [|[|h tl] ds].
  { rewrite Hds in Hpos. simpl in Hpos. lia. } { apply Forall_cons in Hdw as [[] _]. }
  assert (Hj : concat cs !! j = Some h).
  { rewrite Hcat, lookup_app_r by (rewrite length_take; lia).
    replace (j - length (take j (concat cs)))%nat with 0%nat by (rewrite length_take; lia). by rewrite Hds. }
  destruct (boundary cs j h Hcs Hj) as (cs1 & cs2' & -> & Hlen).
  { apply Forall_cons in Hdw as [[Hh _] _]. unfold char_len in Hh. intros [H1 H2].
    destruct (Z.ltb_spec h 0); [lia|]. destruct (Z.ltb_spec h 128); [lia|].
    rewrite (proj2 (Z.leb_gt 192 h)), (proj2 (Z.leb_gt 224 h)), (proj2 (Z.leb_gt 240 h)) in Hh by lia. done. }
  apply Forall_app in Hcs as [Hcs1 Hcs2]. rewrite concat_app in Hcat |- *.
  rewrite take_app_le, take_ge in Hcat by lia. apply app_inv_head in Hcat.
  rewrite Hds in Hcat. destruct (chars_prefix _ _ _ Hdw Hcs2 Hcat) as (cs2 & -> & _).
  apply Forall_app in Hcs2 as [_ Hcs2]. exists cs1, cs2. rewrite concat_app, <- Hds. split_and!; [done|lia|done|done].
Qed.

Lemma encode_loop_decode fuel : forall p cs out,
  Forall wf_char cs -> Forall spelled (concat cs) -> (length (concat cs) < fuel)%nat ->
  exists ids, encode_loop t fuel (p ++ concat cs) (length p) out = Some (out ++ ids) /\
    decode_bytes t ids = Some (concat cs).
Proof.
  induction fuel as [|fuel IH]; intros p cs out Hcs Hsp8 Hf; [lia|]. cbn [encode_loop].
  destruct (Nat.ltb_spec (length p) (length (p ++ concat cs))) as [Hlt|Hge].
  2:{ rewrite length_app in Hge. assert (concat cs = []) as -> by (apply length_zero_iff_nil; lia).
      exists []. by rewrite app_nil_r. }
  pose proof (find_special_spec (p ++ concat cs) (length (p ++ concat cs) - length p) (length p)) as Hfind.
  destruct (find_special t _ _ _) as [[pos sp]|].
  - destruct Hfind as (Hpos & Hin & Hnz & Hsl).
    destruct (special_chars p cs pos sp Hcs Hin Hnz Hpos Hsl) as (cs1 & cs2 & Hcat & -> & Hcs1 & Hcs2).
    rewrite Hcat in *. apply Forall_app in Hsp8 as [Hs1 Hs2]. apply Forall_app in Hs2 as [_ Hs2].
    rewrite !length_app in Hf.
    assert (Hchunk : exists ids, (if (length p <? length p + length (concat cs1))%nat
      then pretok_chunk t (p ++ concat cs1 ++ sp_bytes sp ++ concat cs2) (length p) (length p + length (concat cs1)) out
      else Some out) = Some (out ++ ids) /\ decode_bytes t ids = Some (concat cs1)).
    { destruct (Nat.ltb_spec (length p) (length p + length (concat cs1))) as [_|Hz].
      - destruct (pretok_chunk_decode p cs1 (sp_bytes sp ++ concat cs2) out Hcs1 Hs1) as (ids & H1 & H2).
        rewrite length_app in H1. by exists ids.
      - exists []. rewrite app_nil_r. assert (concat cs1 = []) as -> by (apply length_zero_iff_nil; lia). done. }
    destruct Hchunk as (ids1 & -> & Hd1).
    destruct (IH (p ++ concat cs1 ++ sp_bytes sp) cs2 ((out ++ ids1) ++ [sp_id sp]) Hcs2 Hs2 ltac:(lia)) as (ids2 & H2 & Hd2).
    rewrite !length_app, <- !app_assoc in H2. rewrite Nat.add_assoc in H2. rewrite <- !app_assoc, H2.
    eexists. split; [done|]. apply decode_bytes_app; [done..|].
    change ([sp_id sp] ++ ids2) with (sp_id sp :: ids2). cbn [decode_bytes].
    rewrite (decode_special t Hwf sp Hin), Hd2. done.
  - rewrite (proj2 (Nat.ltb_lt _ _)) by done.
    pose proof (pretok_chunk_decode p cs [] out Hcs Hsp8) as H. rewrite app_nil_r in H.
    destruct H as (ids & -> & Hids). by exists ids.
Qed.

Lemma encode_decode text :
  text_chars text -> Forall spelled text ->
  exists ids, encode t text = Some ids /\ decode_bytes t ids = Some text.
Proof.
  intros (cs & -> & Hcs) Hs. unfold encode.
  destruct (encode_loop_decode (S (length (concat cs))) [] cs [] Hcs Hs ltac:(lia)) as (ids & H & Hd).
  by exists ids.
Qed.
End RoundTrip.

(** C19: tokenizing loses nothing.  For a tokenizer whose tables agree, with any
    special tokens and either pre-tokenizer, and any UTF-8 text whose bytes the
    vocabulary can spell, [encode] terminates without a panic and decoding its
    ids gives back the text byte for byte; the string [decode] makes of it is
    the text itself. *)
Theorem encode_decode_roundtrip t text :
  wf_tok t -> (forall sp, sp ∈ specials t -> text_chars (sp_bytes sp)) ->
  text_chars text -> Forall (spelled t) text -> valid_utf8 text = true ->
  exists ids, encode t text = Some ids /\ decode_bytes t ids = Some text /\ decode t ids = Some text.
Proof.
  intros Hwf Hsp Ht Hs Hv. destruct (encode_decode t Hwf Hsp text Ht Hs) as (ids & He & Hd).
  exists ids. split_and!; [done|done|]. unfold decode. by rewrite Hd, utf8_string_valid.
Qed.

#[local] Transparent build_bytemap byte_sym.

Definition tiny_tok : Tokenizer :=
  {| vocab := list_to_map [([97], 0); ([98], 1); ([97; 98], 2); ([60], 4); ([115], 5); ([62], 6)];
     merges := {[ merge_key [97] [98] := 0 ]};
     id2str := [Some [97]; Some [98]; Some [97; 98]; Some [60; 115; 62]; Some [60]; Some [115]; Some [62]];
     id_added := [false; false; false; true; false; false; false];
     specials := [{| sp_bytes := [60; 115; 62]; sp_id := 3 |}];
     byte2str := fst build_bytemap; cp2byte := snd build_bytemap; pretok := KimiK3 |}.

Lemma tiny_tok_wf : wf_tok tiny_tok.
Proof.
  split.
  - reflexivity.
  - reflexivity.
  - intros w id H. unfold tiny_tok in *. cbn [vocab id2str id_added] in *.
    apply elem_of_list_to_map_2 in H.
    repeat (apply elem_of_cons in H as [H|H]; [injection H as -> ->; done|]). by apply not_elem_of_nil in H.
  - intros l r rk H. cbn [merges tiny_tok] in H. apply lookup_singleton_Some in H as [H _].
    unfold merge_key in H. cbn [app] in H.
    destruct l as [|x [|y [|z l]]]; cbn [app] in H; injection H as; subst; try done.
    by destruct l.
  - intros sp [->|H%not_elem_of_nil]%elem_of_cons; [|done]. done.
Qed.

Lemma encode_decode_roundtrip_witness :
  encode tiny_tok [97; 98; 60; 115; 62; 98] = Some [2; 3; 1] /\
  exists ids, encode tiny_tok [97; 98; 60; 115; 62; 98] = Some ids /\ decode_bytes tiny_tok ids = Some [97; 98; 60; 115; 62; 98].
Proof.
  split; [vm_compute; reflexivity|].
  assert (Hc : forall l, Forall (fun c => 0 <= c < 128) l -> text_chars l).
  { intros l Hl. exists (map (fun c => [c]) l). split.
    - clear Hl. induction l as [|c l IH]; [done|]. cbn [map concat app]. by rewrite <- IH.
    - apply Forall_map. eapply Forall_impl; [exact Hl|]. cbv beta. intros c Hc. split; [|constructor].
      unfold char_len. rewrite (proj2 (Z.ltb_ge c 0)), (proj2 (Z.ltb_lt c 128)) by lia. done. }
  destruct (encode_decode_roundtrip tiny_tok [97; 98; 60; 115; 62; 98] tiny_tok_wf) as (ids & H1 & H2 & _).
  - intros sp [->|H%not_elem_of_nil]%elem_of_cons; [|done]. apply Hc.
    repeat first [apply Forall_nil_2 | apply Forall_cons_2; [lia|]].
  - apply Hc. repeat first [apply Forall_nil_2 | apply Forall_cons_2; [lia|]].
  - repeat first [apply Forall_nil_2 | apply Forall_cons_2;
      [split; [apply in_u_dec_spec; reflexivity|vm_compute; eexists; reflexivity]|]].
  - reflexivity.
  - exists ids. split; [exact H1|exact H2].
Defined.
