(* ===== verification/Ram.v ===== *)
(** * The host-RAM ledger ([crates/colibri-engine/src/ram.rs])

    The ledger is a few atomics shared by all threads.  [exec] is one atomic
    access of one thread: a thread begins an operation or advances the one it is
    in, and any interleaving of such steps is a run.  [compare_exchange_weak] may
    fail although the value matches.  The safety theorems speak of one atomic
    ([total]) or of states with no operation under way, so they do not depend on
    the memory order of different atomics.  Counters are [u64] and wrap.  Time is
    not modelled: [commit_or_wait] is given the results of its attempts. *)

From S2P Require Import Prelude.
Local Open Scope Z_scope.

Inductive Class := Dense | Experts | Kv | Scratch | ReadBuf.

(** [class as usize]. *)
Definition class_ix (c : Class) : nat :=
  match c with Dense => 0 | Experts => 1 | Kv => 2 | Scratch => 3 | ReadBuf => 4 end.

Definition N_CLASSES : nat := 5.

Record RamManager := { ceiling : Z; total : Z; per_class : list Z; peak_per_class : list Z }.

Definition ram_new (ceiling : Z) : RamManager :=
  {| ceiling := ceiling; total := 0; per_class := replicate N_CLASSES 0; peak_per_class := replicate N_CLASSES 0 |}.

Definition committed (m : RamManager) : Z := total m.
Definition committed_in (m : RamManager) (c : Class) : Z := default 0 (per_class m !! class_ix c).
Definition peak_in (m : RamManager) (c : Class) : Z := default 0 (peak_per_class m !! class_ix c).
Definition headroom (m : RamManager) : Z := saturating_sub (ceiling m) (total m).
Definition arena_grant (m : RamManager) (rigid_reserve : Z) : Z :=
  saturating_sub (saturating_sub (ceiling m) (committed m)) rigid_reserve.

(** The atomic writes. *)
Definition set_total (m : RamManager) (v : Z) : RamManager :=
  {| ceiling := ceiling m; total := v; per_class := per_class m; peak_per_class := peak_per_class m |}.
Definition set_class (m : RamManager) (c : Class) (v : Z) : RamManager :=
  {| ceiling := ceiling m; total := total m; per_class := <[class_ix c := v]> (per_class m);
     peak_per_class := peak_per_class m |}.
Definition set_peak (m : RamManager) (c : Class) (v : Z) : RamManager :=
  {| ceiling := ceiling m; total := total m; per_class := per_class m;
     peak_per_class := <[class_ix c := v]> (peak_per_class m) |}.

(** A live [Commitment]. *)
Record Commitment := { cm_class : Class; cm_bytes : Z }.

(** What follows [note_peak]. *)
Inductive after := AfterCommit (bytes : Z) | AfterUsage (prev : Z).

(** Where a thread is. *)
Inductive pc :=
  | Idle
  | CommitTest (c : Class) (bytes cur : Z)     (* [total] was read as [cur] *)
  | CommitClass (c : Class) (bytes : Z)        (* the exchange succeeded *)
  | PeakLoad (c : Class) (now : Z) (k : after)
  | PeakTest (c : Class) (now seen : Z) (k : after)
  | UsageTotal (c : Class) (bytes prev : Z)
  | ReleaseClass (c : Class) (bytes : Z).      (* [total] was lowered *)

Inductive op := Commit (c : Class) (bytes : Z) | SetUsage (c : Class) (bytes : Z) | Drop (i : nat).

(** Thread [t] begins [o], or makes its next access; [weak] says whether a
    matching weak exchange succeeds. *)
Inductive action := Begin (o : op) | Advance (weak : bool).

Record World := { ram : RamManager; threads : list pc; held : list Commitment }.

(** What one access gives: the ledger, where the thread is then, the live
    commitments. *)
Definition Outcome : Type := RamManager * pc * list Commitment.

(** [note_peak], and what its caller does once it is over. *)
Definition peak_done (c : Class) (now : Z) (k : after) (h : list Commitment) : pc * list Commitment :=
  match k with
  | AfterCommit bytes => (Idle, h ++ [{| cm_class := c; cm_bytes := bytes |}])
  | AfterUsage prev => (UsageTotal c now prev, h)
  end.

Definition peak_test (weak : bool) (m : RamManager) (c : Class) (now seen : Z) (k : after) (h : list Commitment) : Outcome :=
  if seen <? now then
    if (peak_in m c =? seen) && weak then let '(p, h) := peak_done c now k h in (set_peak m c now, p, h)
    else (m, PeakTest c now (peak_in m c) k, h)
  else let '(p, h) := peak_done c now k h in (m, p, h).

(** [commit]: the first load, a turn of the loop, the class counter. *)
Definition commit_begin (m : RamManager) (c : Class) (bytes : Z) (h : list Commitment) : Outcome :=
  if bytes =? 0 then (m, Idle, h ++ [{| cm_class := c; cm_bytes := 0 |}])
  else (m, CommitTest c bytes (total m), h).

Definition commit_test (weak : bool) (m : RamManager) (c : Class) (bytes cur : Z) (h : list Commitment) : Outcome :=
  if saturating_sub (ceiling m) cur <? bytes then (m, Idle, h)
  else if (total m =? cur) && weak then (set_total m (u64 (cur + bytes)), CommitClass c bytes, h)
  else (m, CommitTest c bytes (total m), h).

Definition commit_class (m : RamManager) (c : Class) (bytes : Z) (h : list Commitment) : Outcome :=
  let now := u64 (committed_in m c + bytes) in
  (set_class m c now, PeakLoad c now (AfterCommit bytes), h).

(** [set_usage]: the swap, and after [note_peak] the total.  The headroom it
    returns is read from the ledger afterwards. *)
Definition usage_begin (m : RamManager) (c : Class) (bytes : Z) (h : list Commitment) : Outcome :=
  let prev := committed_in m c in
  (set_class m c bytes, PeakLoad c bytes (AfterUsage prev), h).

Definition usage_apply (m : RamManager) (bytes prev : Z) (h : list Commitment) : Outcome :=
  let v := if prev <=? bytes then u64 (total m + (bytes - prev)) else u64 (total m - (prev - bytes)) in
  (set_total m v, Idle, h).

(** [drop] of a [Commitment]: the total, then the class counter. *)
Definition drop_begin (m : RamManager) (i : nat) (h : list Commitment) : option Outcome :=
  let* cm := h !! i in
  Some (set_total m (u64 (total m - cm_bytes cm)), ReleaseClass (cm_class cm) (cm_bytes cm), delete i h).

Definition drop_class (m : RamManager) (c : Class) (bytes : Z) (h : list Commitment) : Outcome :=
  (set_class m c (u64 (committed_in m c - bytes)), Idle, h).

(** One access by a thread at [p]. *)
Definition advance (weak : bool) (m : RamManager) (p : pc) (h : list Commitment) : option Outcome :=
  match p with
  | Idle => None
  | CommitTest c bytes cur => Some (commit_test weak m c bytes cur h)
  | CommitClass c bytes => Some (commit_class m c bytes h)
  | PeakLoad c now k => Some (m, PeakTest c now (peak_in m c) k, h)
  | PeakTest c now seen k => Some (peak_test weak m c now seen k h)
  | UsageTotal c bytes prev => Some (usage_apply m bytes prev h)
  | ReleaseClass c bytes => Some (drop_class m c bytes h)
  end.

Definition begin_op (o : op) (m : RamManager) (h : list Commitment) : option Outcome :=
  match o with
  | Commit c bytes => Some (commit_begin m c bytes h)
  | SetUsage c bytes => Some (usage_begin m c bytes h)
  | Drop i => drop_begin m i h
  end.

Arguments peak_test _ _ _ _ _ _ _ /.
Arguments commit_begin _ _ _ _ /.
Arguments commit_test _ _ _ _ _ _ /.
Arguments commit_class _ _ _ _ /.
Arguments usage_begin _ _ _ _ /.
Arguments usage_apply _ _ _ _ /.
Arguments drop_begin _ _ _ /.
Arguments drop_class _ _ _ _ /.

Definition exec (t : nat) (a : action) (w : World) : option World :=
  let* p := threads w !! t in
  let* (m, p', h) :=
    match a, p with
    | Begin o, Idle => begin_op o (ram w) (held w)
    | Begin _, _ => None
    | Advance weak, _ => advance weak (ram w) p (held w)
    end in
  Some {| ram := m; threads := <[t := p']> (threads w); held := h |}.

Definition world_new (ceiling : Z) (n : nat) : World :=
  {| ram := ram_new ceiling; threads := replicate n Idle; held := [] |}.

(** A run of the threads that performs operations of [allowed] only. *)
Inductive run (allowed : op -> Prop) (w0 : World) : World -> Prop :=
  | run_start : run allowed w0 w0
  | run_step w w' t a : run allowed w0 w -> (forall o, a = Begin o -> allowed o) ->
      exec t a w = Some w' -> run allowed w0 w'.

(** Operations on byte counts that are [u64]. *)
Definition op_ok (o : op) : Prop :=
  match o with Commit _ b | SetUsage _ b => is_u64 b | Drop _ => True end.
Definition is_commit_op (o : op) : Prop :=
  op_ok o /\ match o with SetUsage _ _ => False | _ => True end.

(** [commit_or_wait]: the attempts in the order they are made before the
    deadline, each the result of [try_commit]. *)
Inductive Admission := Ok | Busy | TooLarge.

Fixpoint first_granted (attempts : list (option Commitment)) : option Commitment :=
  match attempts with
  | [] => None
  | Some c :: _ => Some c
  | None :: rest => first_granted rest
  end.

Definition commit_or_wait (bytes rigid_budget : Z) (attempts : list (option Commitment))
    : Admission * option Commitment :=
  if rigid_budget <? bytes then (TooLarge, None)
  else match first_granted attempts with
       | Some c => (Ok, Some c)
       | None => (Busy, None)
       end.

(** ** Accounting *)

(** What a thread has taken from [total] for a commitment not yet handed out. *)
Definition taken (p : pc) : Z :=
  match p with
  | CommitClass _ b => b
  | PeakLoad _ _ (AfterCommit b) | PeakTest _ _ _ (AfterCommit b) => b
  | _ => 0
  end.

(** By how much [total] is ahead of the class counters because of a thread. *)
Definition ahead (p : pc) : Z :=
  match p with
  | CommitClass _ b => b
  | PeakLoad _ now (AfterUsage prev) | PeakTest _ now _ (AfterUsage prev) => prev - now
  | UsageTotal _ bytes prev => prev - bytes
  | ReleaseClass _ b => - b
  | _ => 0
  end.

Definition held_sum (h : list Commitment) : Z := sumZ (map cm_bytes h).

Definition commit_only (p : pc) : Prop :=
  match p with
  | PeakLoad _ _ (AfterUsage _) | PeakTest _ _ _ (AfterUsage _) | UsageTotal _ _ _ => False
  | CommitTest _ b _ => 0 <= b
  | _ => 0 <= taken p
  end.

Record ledger_inv (w : World) : Prop := {
  li_total : total (ram w) = held_sum (held w) + sumZ (map taken (threads w));
  li_ceiling : total (ram w) <= ceiling (ram w) < 2 ^ 64;
  li_threads : Forall commit_only (threads w);
  li_held : Forall (fun c => 0 <= cm_bytes c) (held w)
}.

Lemma sum_threads (f : pc -> Z) (l : list pc) t p p' :
  l !! t = Some p -> sumZ (map f (<[t := p']> l)) = sumZ (map f l) - f p + f p'.
Proof.
  intros Hp. assert (Hi : map f (<[t := p']> l) = <[t := f p']> (map f l)) by apply list_fmap_insert.
  rewrite Hi, (sumZ_insert _ _ (f p)); [lia|].
  assert (Hl : map f l !! t = f <$> (l !! t)) by apply list_lookup_fmap. by rewrite Hl, Hp.
Qed.

Lemma held_sum_snoc h c : held_sum (h ++ [c]) = held_sum h + cm_bytes c.
Proof. unfold held_sum. rewrite map_app, sumZ_app. simpl. lia. Qed.

Lemma held_sum_delete h i c : h !! i = Some c -> held_sum (delete i h) = held_sum h - cm_bytes c.
Proof.
  intros Hi. unfold held_sum. rewrite (sumZ_perm (map cm_bytes h) (map cm_bytes (c :: delete i h))); [simpl; lia|].
  apply Permutation_map. by apply delete_Permutation.
Qed.

Lemma sum_taken_nonneg l : Forall commit_only l -> 0 <= sumZ (map taken l).
Proof.
  intros H. apply sumZ_nonneg. apply Forall_map. eapply Forall_impl; [exact H|].
  intros [| | |? ? []|? ? ? []| |]; simpl; lia.
Qed.

Lemma held_sum_nonneg h : Forall (fun c => 0 <= cm_bytes c) h -> 0 <= held_sum h.
Proof. intros H. apply sumZ_nonneg. by apply Forall_map. Qed.

Lemma run_ledger ceil n w :
  0 <= ceil < 2 ^ 64 -> run is_commit_op (world_new ceil n) w -> ledger_inv w /\ ceiling (ram w) = ceil.
Proof.
  intros Hceil. induction 1 as [|w w' t a Hrun [[Ht Hc Hth Hh] Hcl] Hop Hex].
  - split; [|done]. constructor; simpl.
    + assert (H0 : forall k, sumZ (map taken (replicate k Idle)) = 0) by (induction k; simpl; lia). by rewrite H0.
    + lia.
    + by apply Forall_replicate.
    + constructor.
  - pose proof (sum_taken_nonneg _ Hth) as Hs. pose proof (held_sum_nonneg _ Hh) as Hhs.
    unfold exec in Hex. destruct (threads w !! t) as [p|] eqn:Hp; [|done].
    assert (Hpo : commit_only p) by (rewrite Forall_forall in Hth; by eapply Hth, list_elem_of_lookup_2).
    assert (Hfin : forall m p' h, ceiling m = ceiling (ram w) ->
      total m = held_sum h + (sumZ (map taken (threads w)) - taken p + taken p') -> total m <= ceiling m ->
      commit_only p' -> Forall (fun c => 0 <= cm_bytes c) h ->
      Some {| ram := m; threads := <[t := p']> (threads w); held := h |} = Some w' ->
      ledger_inv w' /\ ceiling (ram w') = ceil).
    { intros m p' h Hcm Htot Hle Hp' Hh' [= <-]. split; [|simpl; lia]. constructor; simpl.
      - rewrite (sum_threads taken _ _ _ p' Hp). lia.
      - lia.
      - by apply Forall_insert.
      - done. }
    destruct a as [o|weak].
    + destruct p; try done. specialize (Hop o eq_refl) as [Hok Hco]. destruct o as [c b|c b|i]; simpl in *; [|done|].
      * destruct (Z.eqb_spec b 0) as [->|Hb]; eapply Hfin; try exact Hex; simpl; try done; try lia.
        -- rewrite held_sum_snoc. simpl. lia.
        -- apply Forall_app. split; [done|]. by repeat constructor.
        -- mlia.
      * destruct (held w !! i) as [cm|] eqn:Hi; [|done].
        assert (Hcm : 0 <= cm_bytes cm) by (rewrite Forall_forall in Hh; by eapply Hh, list_elem_of_lookup_2).
        pose proof (held_sum_delete _ _ _ Hi) as Hd.
        assert (Hd0 : 0 <= held_sum (delete i (held w))) by (apply held_sum_nonneg; by apply Forall_delete).
        assert (Hw : u64 (total (ram w) - cm_bytes cm) = total (ram w) - cm_bytes cm) by (apply wrap_id; mlia).
        eapply Hfin; try exact Hex; simpl; rewrite ?Hw; try done; try lia. by apply Forall_delete.
    + destruct p as [|c b cur|c b|c now [b|]|c now seen [b|]|c b prev|c b]; simpl in *; try done.
      * destruct (Z.ltb_spec (saturating_sub (ceiling (ram w)) cur) b) as [Hlt|Hge]; [eapply Hfin; try exact Hex; simpl; try done; lia|].
        destruct (Z.eqb_spec (total (ram w)) cur) as [<-|]; simpl in Hex.
        -- destruct weak; [|eapply Hfin; try exact Hex; simpl; try done; lia].
           unfold saturating_sub in Hge.
           assert (Hw : u64 (total (ram w) + b) = total (ram w) + b) by (apply wrap_id; mlia).
           eapply Hfin; try exact Hex; simpl; rewrite ?Hw; try done; lia.
        -- eapply Hfin; try exact Hex; simpl; try done; lia.
      * eapply Hfin; try exact Hex; simpl; try done; lia.
      * eapply Hfin; try exact Hex; simpl; try done; lia.
      * assert (Hdone : Forall (fun c => 0 <= cm_bytes c) (held w ++ [{| cm_class := c; cm_bytes := b |}])).
        { apply Forall_app. split; [done|]. by repeat constructor. }
        destruct (seen <? now); [destruct (_ && weak)|]; eapply Hfin; try exact Hex; simpl; try done;
          rewrite ?held_sum_snoc; simpl; lia.
      * eapply Hfin; try exact Hex; simpl; try done; lia.
Qed.

(** C21: commitments never overshoot.  However any number of threads interleave
    commits and releases, at every moment the total is exactly the bytes of the
    live commitments and of those being granted, and never above the ceiling,
    not even transiently; no counter wraps. *)
Theorem commits_never_overshoot ceil n w :
  0 <= ceil < 2 ^ 64 -> run is_commit_op (world_new ceil n) w ->
  committed (ram w) = held_sum (held w) + sumZ (map taken (threads w)) /\
  held_sum (held w) <= committed (ram w) <= ceil /\
  headroom (ram w) = ceil - committed (ram w).
Proof.
  intros Hceil Hrun. destruct (run_ledger ceil n w Hceil Hrun) as [[Ht Hc Hth Hh] <-].
  pose proof (sum_taken_nonneg _ Hth). pose proof (held_sum_nonneg _ Hh).
  unfold committed, headroom, saturating_sub. split_and!; lia.
Qed.

(** ** The whole ledger, [set_usage] included *)

Definition class_sum (m : RamManager) : Z := sumZ (per_class m).

Record books_inv (w : World) : Prop := {
  bi_classes : length (per_class (ram w)) = N_CLASSES;
  bi_total : in_u 64 (total (ram w));
  bi_books : (total (ram w)) mod 2 ^ 64 = (class_sum (ram w) + sumZ (map ahead (threads w))) mod 2 ^ 64
}.

Lemma class_ix_lt c : (class_ix c < N_CLASSES)%nat.
Proof. destruct c; simpl; unfold N_CLASSES; lia. Qed.

Lemma class_sum_set m c v :
  length (per_class m) = N_CLASSES -> class_sum (set_class m c v) = class_sum m - committed_in m c + v.
Proof.
  intros Hl. unfold class_sum, committed_in. simpl.
  destruct (lookup_lt_is_Some_2 (per_class m) (class_ix c)) as [x Hx]; [rewrite Hl; apply class_ix_lt|].
  rewrite Hx. by apply sumZ_insert.
Qed.

(** Congruence modulo 2^64. *)
Definition eq64 (a b : Z) : Prop := exists k, a = b + k * 2 ^ 64.

Lemma eq64_mod a b : eq64 a b <-> a mod 2 ^ 64 = b mod 2 ^ 64.
Proof.
  split.
  - intros [k ->]. by rewrite Z_mod_plus_full.
  - intros H. exists (a / 2 ^ 64 - b / 2 ^ 64). pose proof (Z.div_mod a (2 ^ 64) ltac:(lia)).
    pose proof (Z.div_mod b (2 ^ 64) ltac:(lia)). lia.
Qed.

Lemma eq64_wrap a : eq64 (u64 a) a.
Proof. apply eq64_mod. unfold wrap. by rewrite Z.mod_mod by lia. Qed.

Lemma books_step w w' p t m p' h :
  books_inv w -> threads w !! t = Some p ->
  length (per_class m) = N_CLASSES -> in_u 64 (total m) ->
  eq64 (total m - total (ram w)) (class_sum m - class_sum (ram w) + (ahead p' - ahead p)) ->
  Some {| ram := m; threads := <[t := p']> (threads w); held := h |} = Some w' -> books_inv w'.
Proof.
  intros [Hl Ht Hb] Hp Hlm Htm [k Hk] [= <-]. constructor; simpl; [done|done|].
  rewrite (sum_threads ahead _ _ _ p' Hp). apply eq64_mod in Hb as [j Hj]. apply eq64_mod. exists (k + j). lia.
Qed.

Lemma books_run ceil n w : run op_ok (world_new ceil n) w -> books_inv w.
Proof.
  induction 1 as [|w w' t a Hrun IH Hop Hex].
  - assert (H0 : forall k, sumZ (map ahead (replicate k Idle)) = 0) by (induction k; simpl; lia).
    constructor; simpl; [done|by apply in_u_dec_spec|]. rewrite H0. reflexivity.
  - pose proof IH as [Hl Ht Hb]. unfold exec in Hex. destruct (threads w !! t) as [p|] eqn:Hp; [|done].
    assert (Hwrap : forall x, in_u 64 (u64 x)) by (intros x; apply wrap_in; lia).
    assert (Hset : forall c v, length (per_class (set_class (ram w) c v)) = N_CLASSES).
    { intros c v. simpl. by rewrite length_insert. }
    assert (Hsame : forall m, total m = total (ram w) -> class_sum m = class_sum (ram w) ->
      forall p', ahead p' = ahead p -> eq64 (total m - total (ram w)) (class_sum m - class_sum (ram w) + (ahead p' - ahead p))).
    { intros m -> -> p' ->. exists 0. lia. }
    destruct a as [o|weak].
    + destruct p; try done. destruct o as [c b|c b|i]; simpl in Hex.
      * destruct (b =? 0); eapply books_step; try exact Hex; try done; by apply Hsame.
      * eapply books_step; try exact Hex; try done. rewrite class_sum_set by done. simpl. exists 0. lia.
      * destruct (held w !! i) as [cm|]; [|done]. eapply books_step; try exact Hex; try done; [apply Hwrap|].
        change (class_sum (set_total (ram w) _)) with (class_sum (ram w)). simpl.
        destruct (eq64_wrap (total (ram w) - cm_bytes cm)) as [k Hk]. exists k. lia.
    + destruct p as [|c b cur|c b|c now k|c now seen k|c b prev|c b]; simpl in Hex; try done.
      * destruct (_ <? b); [eapply books_step; try exact Hex; try done; by apply Hsame|].
        destruct (Z.eqb_spec (total (ram w)) cur) as [<-|]; simpl in Hex; [destruct weak|];
          eapply books_step; try exact Hex; try done; try (by apply Hsame); [apply Hwrap|].
        change (class_sum (set_total (ram w) _)) with (class_sum (ram w)). simpl.
        destruct (eq64_wrap (total (ram w) + b)) as [k Hk]. exists k. lia.
      * eapply books_step; try exact Hex; try done. rewrite class_sum_set by done. simpl.
        destruct (eq64_wrap (committed_in (ram w) c + b)) as [k Hk]. exists (- k). lia.
      * eapply books_step; try exact Hex; try done. apply Hsame; try done.
      * assert (Hpd : forall p' h, peak_done c now k (held w) = (p', h) -> ahead p' = ahead (PeakTest c now seen k)).
        { intros p' h. destruct k; simpl; by intros [= <- _]. }
        destruct (peak_done c now k (held w)) as [p' h'] eqn:Hd. specialize (Hpd _ _ eq_refl).
        destruct (seen <? now); [destruct (_ && weak)|]; eapply books_step; try exact Hex; try done; by apply Hsame.
      * eapply books_step; try exact Hex; try done; [simpl; destruct (prev <=? b); apply Hwrap|].
        change (class_sum (set_total (ram w) _)) with (class_sum (ram w)). simpl. destruct (prev <=? b).
        -- destruct (eq64_wrap (total (ram w) + (b - prev))) as [j Hj]. exists j. lia.
        -- destruct (eq64_wrap (total (ram w) - (prev - b))) as [j Hj]. exists j. lia.
      * eapply books_step; try exact Hex; try done. rewrite class_sum_set by done. simpl.
        destruct (eq64_wrap (committed_in (ram w) c - b)) as [k Hk]. exists (- k). lia.
Qed.

(** C22: the books balance.  Under any interleaving of commits, releases and
    [set_usage] by any number of threads, in classes shared in any way, whenever
    no operation is under way the total is the sum of the five class counters,
    modulo 2^64. *)
Theorem books_balance ceil n w :
  run op_ok (world_new ceil n) w -> Forall (fun p => p = Idle) (threads w) ->
  committed (ram w) = u64 (sumZ (map (committed_in (ram w)) [Dense; Experts; Kv; Scratch; ReadBuf])).
Proof.
  intros Hrun Hidle. destruct (books_run ceil n w Hrun) as [Hl Ht Hb].
  assert (H0 : forall l, Forall (fun p => p = Idle) l -> sumZ (map ahead l) = 0).
  { induction 1 as [|p l -> _ IH]; [done|]. simpl. lia. }
  rewrite (H0 _ Hidle), Z.add_0_r in Hb. unfold committed, wrap. rewrite <- (Z.mod_small (total (ram w)) (2 ^ 64)) by done.
  rewrite Hb. f_equal. unfold class_sum, committed_in. destruct (per_class (ram w)) as [|a [|b [|c [|d [|e [|? ?]]]]]]; try done.
Qed.

(** A run given as a list of steps. *)
Fixpoint exec_all (l : list (nat * action)) (w : World) : option World :=
  match l with
  | [] => Some w
  | (t, a) :: l => let* w := exec t a w in exec_all l w
  end.

Definition step_allowed (allowed : op -> Prop) (ta : nat * action) : Prop :=
  match snd ta with Begin o => allowed o | Advance _ => True end.

Lemma exec_all_run allowed l w0 w w' :
  run allowed w0 w -> Forall (step_allowed allowed) l -> exec_all l w = Some w' -> run allowed w0 w'.
Proof.
  revert w. induction l as [|[t a] l IH]; intros w Hr Hl; simpl; [by intros [= <-]|].
  apply Forall_cons in Hl as [Ha Hl]. destruct (exec t a w) as [w1|] eqn:He; [|done].
  apply (IH w1); [|done]. apply (run_step allowed w0 w w1 t a); [done| |done]. intros o ->. exact Ha.
Qed.

(** Two threads committing at once under a ceiling that fits one of them. *)
Definition race : list (nat * action) :=
  [(0%nat, Begin (Commit Kv 60)); (1%nat, Begin (Commit Scratch 60)); (1%nat, Advance true); (0%nat, Advance true);
   (0%nat, Advance true); (1%nat, Advance true); (1%nat, Advance true); (1%nat, Advance true)].

Lemma commits_never_overshoot_witness :
  exists w, exec_all race (world_new 100 2) = Some w /\ committed (ram w) <= 100 /\ length (held w) = 1%nat.
Proof.
  eexists. split; [vm_compute; reflexivity|]. split; [|reflexivity].
  refine (proj2 (proj1 (proj2 (commits_never_overshoot 100 2 _ ltac:(lia) (exec_all_run is_commit_op race _ _ _ (run_start _ _) _ _))))).
  - repeat first [apply Forall_nil_2 | apply Forall_cons_2; [first [exact I | split; [apply in_u_dec_spec; reflexivity|exact I]]|]].
  - vm_compute. reflexivity.
Defined.

(** [set_usage] does overshoot: after one call by one thread the total stands
    above the ceiling, although nothing but the exchange of [commit] is said to
    move it. *)
Theorem set_usage_overshoots :
  exists l w, exec_all l (world_new 100 1) = Some w /\ Forall (step_allowed op_ok) l /\
    Forall (fun p => p = Idle) (threads w) /\ ceiling (ram w) = 100 /\ committed (ram w) = 150.
Proof.
  exists [(0%nat, Begin (SetUsage Experts 150)); (0%nat, Advance true); (0%nat, Advance true); (0%nat, Advance true)].
  eexists. split; [vm_compute; reflexivity|]. split_and!; try reflexivity.
  - repeat first [apply Forall_nil_2 | apply Forall_cons_2; [first [exact I | apply in_u_dec_spec; reflexivity]|]].
  - repeat first [apply Forall_nil_2 | apply Forall_cons_2; [reflexivity|]].
Qed.

Lemma books_balance_witness :
  exists w, exec_all [(0%nat, Begin (SetUsage Experts 150)); (0%nat, Advance true); (0%nat, Advance true); (0%nat, Advance true)]
    (world_new 100 1) = Some w /\
  committed (ram w) = u64 (sumZ (map (committed_in (ram w)) [Dense; Experts; Kv; Scratch; ReadBuf])).
Proof.
  eexists. split; [vm_compute; reflexivity|].
  refine (books_balance 100 1 _ (exec_all_run op_ok [(0%nat, Begin (SetUsage Experts 150)); (0%nat, Advance true);
    (0%nat, Advance true); (0%nat, Advance true)] _ _ _ (run_start _ _) _ _) _).
  - repeat first [apply Forall_nil_2 | apply Forall_cons_2; [first [exact I | apply in_u_dec_spec; reflexivity]|]].
  - vm_compute. reflexivity.
  - repeat first [apply Forall_nil_2 | apply Forall_cons_2; [reflexivity|]].
Defined.

(** ** One thread left to itself *)

Fixpoint advance_all (fuel : nat) (t : nat) (w : World) : option World :=
  match fuel with
  | O => Some w
  | S fuel =>
      match threads w !! t with
      | Some Idle => Some w
      | _ => let* w := exec t (Advance true) w in advance_all fuel t w
      end
  end.

(** A commit that fits is granted.  A thread that runs without interference
    gets its commitment, of the class and size it asked for, exactly when the
    headroom it started with holds the bytes; the total rises by those bytes,
    and a refusal leaves the ledger as it was. *)
Theorem commit_decides w t c b :
  threads w !! t = Some Idle -> 0 < b < 2 ^ 64 -> is_u64 (total (ram w)) -> 0 <= ceiling (ram w) < 2 ^ 64 ->
  exists w' w'', exec t (Begin (Commit c b)) w = Some w' /\ advance_all 5 t w' = Some w'' /\
    threads w'' = threads w /\
    if b <=? headroom (ram w)
    then held w'' = held w ++ [{| cm_class := c; cm_bytes := b |}] /\ committed (ram w'') = committed (ram w) + b /\
         committed (ram w'') <= ceiling (ram w)
    else held w'' = held w /\ ram w'' = ram w.
Proof.
  intros Ht Hb Htot Hceil. pose proof (lookup_lt_Some _ _ _ Ht) as Hlt.
  assert (Hins : forall p, <[t := p]> (threads w) !! t = Some p) by (intros p; by apply list_lookup_insert_eq).
  assert (Hback : <[t := Idle]> (threads w) = threads w) by by apply list_insert_id.
  unfold exec at 1. rewrite Ht. simpl. rewrite (proj2 (Z.eqb_neq b 0)) by lia.
  unfold headroom.
  exists {| ram := ram w; threads := <[t := CommitTest c b (total (ram w))]> (threads w); held := held w |}.
  assert (Hcase : (saturating_sub (ceiling (ram w)) (total (ram w)) <? b) = negb (b <=? saturating_sub (ceiling (ram w)) (total (ram w)))).
  { destruct (Z.ltb_spec (saturating_sub (ceiling (ram w)) (total (ram w))) b), (Z.leb_spec b (saturating_sub (ceiling (ram w)) (total (ram w)))); done || lia. }
  destruct (Z.leb_spec b (saturating_sub (ceiling (ram w)) (total (ram w)))) as [Hfit|]; cbn [negb] in Hcase;
    cbn [advance_all threads]; rewrite Hins; unfold exec at 1;
    cbn [threads ram held]; rewrite Hins; cbn [advance commit_test commit_class peak_test commit_begin]; rewrite Hcase.
  2:{ cbn [threads ram held]. rewrite list_insert_insert_eq, Hins. eexists.
      split_and!; [reflexivity|reflexivity|exact Hback|reflexivity|reflexivity]. }
  rewrite Z.eqb_refl. cbn [andb threads ram held]. rewrite list_insert_insert_eq, Hins.
  unfold exec at 1. cbn [threads ram held]. rewrite Hins. cbn [advance commit_test commit_class peak_test commit_begin threads ram held]. rewrite list_insert_insert_eq, Hins.
  unfold exec at 1. cbn [threads ram held]. rewrite Hins. cbn [advance commit_test commit_class peak_test commit_begin threads ram held]. rewrite list_insert_insert_eq, Hins.
  unfold exec at 1. cbn [threads ram held]. rewrite Hins. cbn [advance commit_test commit_class peak_test commit_begin].
  set (m := set_class _ _ _). set (now := u64 _). unfold saturating_sub in Hfit.
  assert (Hw : u64 (total (ram w) + b) = total (ram w) + b) by (apply wrap_id; mlia).
  destruct (peak_in m c <? now); [rewrite Z.eqb_refl|]; cbn [andb peak_done threads ram held];
    rewrite list_insert_insert_eq, Hins; eexists;
    (split_and!; [reflexivity|reflexivity|exact Hback|reflexivity|simpl; by rewrite Hw|simpl; rewrite Hw; lia]).
Qed.

Lemma commit_decides_witness :
  exists w', exec 0 (Begin (Commit Kv 60)) (world_new 100 1) = Some w'.
Proof.
  destruct (commit_decides (world_new 100 1) 0 Kv 60 eq_refl ltac:(lia) ltac:(by apply in_u_dec_spec) ltac:(simpl; lia))
    as (w' & w'' & H & _). exists w'. exact H.
Defined.
