(* ===== verification/Usage.v ===== *)
(** * Expert usage history ([crates/colibri-engine/src/usage.rs])

    Counts are [u64] and wrap; layers and experts are [usize].  A [HashMap] is
    iterated in an order of its own: [iter] stands for it, any enumeration of the
    entries, and the theorems show that no result depends on it.  A file is its
    text, a list of bytes; [None] from [load_text] is the error of a line that is
    not UTF-8.  The [f64] arithmetic of [knee] and [coverage_of_top] is binary64
    with rounding to nearest even. *)

From Stdlib Require Import SpecFloat.
From S2P Require Import Prelude Json Tokenizer.
Local Open Scope Z_scope.

Definition UsageHistory : Type := gmap (Z * Z) Z.

Definition usage_new : UsageHistory := ∅.

Definition usage_get (h : UsageHistory) (layer eid : Z) : Z := default 0 (h !! (layer, eid)).

Definition usage_add (h : UsageHistory) (layer eid count : Z) : UsageHistory :=
  <[(layer, eid) := u64 (usage_get h layer eid + count)]> h.

Definition usage_record (h : UsageHistory) (layer eid : Z) : UsageHistory := usage_add h layer eid 1.

Definition usage_len (h : UsageHistory) : nat := size h.
Definition usage_is_empty (h : UsageHistory) : bool := (size h =? 0)%nat.

(** [usize] keys in lexicographic order. *)
Definition key_leb (a b : Z * Z) : bool := (fst a <? fst b) || (fst a =? fst b) && (snd a <=? snd b).

(** Ranked before: the larger count, then the smaller key. *)
Definition ranked_leb (a b : (Z * Z) * Z) : bool :=
  (snd b <? snd a) || (snd a =? snd b) && key_leb (fst a) (fst b).

Definition desc_leb (a b : Z) : bool := b <=? a.

(** [u64 as f64]. *)
Definition f64_of_u64 (v : Z) : spec_float := binary_normalize 53 1024 v 0 false.
Definition f64_one : spec_float := f64_of_u64 1.
Definition f64_mul := SFmul 53 1024.
Definition f64_add := SFadd 53 1024.
Definition f64_sub := SFsub 53 1024.
Definition f64_div := SFdiv 53 1024.

(** One point of the loop of [knee]: [(i, cum, best_i, best_d)]. *)
Definition knee_step (inv_total inv_span y0 : spec_float) (st : nat * Z * nat * spec_float) (c : Z)
    : nat * Z * nat * spec_float :=
  let '(i, cum, best_i, best_d) := st in
  let cum := u64 (cum + c) in
  let y := f64_mul (f64_of_u64 cum) inv_total in
  let x := f64_mul (f64_of_u64 (Z.of_nat i)) inv_span in
  let chord := f64_add y0 (f64_mul x (f64_sub f64_one y0)) in
  let d := f64_sub y chord in
  if SFltb best_d d then (S i, cum, i, d) else (S i, cum, best_i, best_d).

Section Iteration.
Context (iter : UsageHistory -> list ((Z * Z) * Z)).

(** The wrapping sum of an iterator of [u64]. *)
Definition sum_u64 (l : list Z) : Z := fold_left (fun a c => u64 (a + c)) l 0.

Definition usage_total (h : UsageHistory) : Z := sum_u64 (map snd (iter h)).

Definition weight_step (n_experts : Z) (w : list Z) (kc : (Z * Z) * Z) : list Z :=
  let e := snd (fst kc) in
  if e <? n_experts
  then <[Z.to_nat e := u64 (default 0 (w !! Z.to_nat e) + snd kc)]> w
  else w.

Definition expert_weights (h : UsageHistory) (n_experts : Z) : list Z :=
  fold_left (weight_step n_experts) (iter h) (replicate (Z.to_nat n_experts) 0).

Definition ranked (h : UsageHistory) : list (Z * Z) := map fst (sort_by ranked_leb (iter h)).

Definition sorted_counts (h : UsageHistory) : list Z := sort_by desc_leb (map snd (iter h)).

Definition coverage_of_top (h : UsageHistory) (n : nat) : spec_float :=
  let total := usage_total h in
  if (total =? 0) || (n =? 0)%nat then S754_zero false
  else f64_div (f64_of_u64 (sum_u64 (take n (sorted_counts h)))) (f64_of_u64 total).

Definition knee (h : UsageHistory) : nat :=
  let counts := sorted_counts h in
  let n := length counts in
  if (n <=? 2)%nat then n
  else
    let total := sum_u64 counts in
    if total =? 0 then n
    else
      let inv_total := f64_div f64_one (f64_of_u64 total) in
      let inv_span := f64_div f64_one (f64_of_u64 (Z.of_nat n - 1)) in
      let y0 := f64_mul (f64_of_u64 (default 0 (counts !! 0%nat))) inv_total in
      let '(_, _, best_i, _) := fold_left (knee_step inv_total inv_span y0) counts (0%nat, 0, 0%nat, S754_infinity true) in
      S best_i.

Definition usage_merge (h other : UsageHistory) : UsageHistory :=
  fold_left (fun h kc => usage_add h (fst (fst kc)) (snd (fst kc)) (snd kc)) (iter other) h.

(** [save]: the sorted keys, a line for each positive count; indexing the map by
    its own key does not panic. *)
Definition save_line (kc : (Z * Z) * Z) : list Z :=
  dec_digits (fst (fst kc)) ++ [32] ++ dec_digits (snd (fst kc)) ++ [32] ++ dec_digits (snd kc) ++ [10].

Definition save_text (h : UsageHistory) : list Z :=
  concat (map (fun k => let c := default 0 (h !! k) in if 0 <? c then save_line (k, c) else [])
    (sort_by key_leb (map fst (iter h)))).
End Iteration.

Definition filter_experts (h : UsageHistory) (keep : Z -> bool) : UsageHistory :=
  filter (fun kc => keep (snd (fst kc)) = true) h.

(** ** Reading the file *)

(** [BufRead::lines]: cut at line feeds, a final carriage return dropped. *)
Definition strip_cr (l : list Z) : list Z :=
  match rev l with c :: r => if c =? 13 then rev r else l | [] => l end.

Fixpoint lines_fuel (fuel : nat) (l : list Z) : list (list Z) :=
  match fuel, l with
  | S fuel, _ :: _ =>
      let i := scan_while (fun c => negb (c =? 10)) l 0 in
      if (i <? length l)%nat
      then strip_cr (take i l) :: lines_fuel fuel (drop (S i) l)
      else [l]
  | _, _ => []
  end.
Definition lines (l : list Z) : list (list Z) := lines_fuel (length l) l.

(** [char::is_whitespace]. *)
Definition is_whitespace (c : Z) : bool :=
  in_range 9 13 c || (c =? 32) || (c =? 133) || (c =? 160) || (c =? 5760) || in_range 8192 8202 c ||
  in_range 8232 8233 c || (c =? 8239) || (c =? 8287) || (c =? 12288).

(** The words of a line, as code points. *)
Fixpoint words_fuel (fuel : nat) (l : list Z) : list (list Z) :=
  match fuel with
  | O => []
  | S fuel =>
      let l := drop (scan_while is_whitespace l 0) l in
      match l with
      | [] => []
      | _ :: _ =>
          let i := scan_while (fun c => negb (is_whitespace c)) l 0 in
          take i l :: words_fuel fuel (drop i l)
      end
  end.
Definition words (l : list Z) : list (list Z) := words_fuel (S (length l)) l.

(** [str::parse] of an unsigned integer of [w] bits. *)
Fixpoint parse_dec (w : Z) (l : list Z) (acc : Z) : option Z :=
  match l with
  | [] => Some acc
  | c :: l =>
      if is_ascii_digit c then
        let v := acc * 10 + (c - 48) in
        if v <? 2 ^ w then parse_dec w l v else None
      else None
  end.
Definition parse_uint (w : Z) (l : list Z) : option Z :=
  match l with
  | [] => None
  | c :: l' => if c =? 43 then (match l' with [] => None | _ => parse_dec w l' 0 end) else parse_dec w l 0
  end.
Definition parse_u64 (l : list Z) : option Z := parse_uint 64 l.

Definition load_line (h : UsageHistory) (cps : list Z) : UsageHistory :=
  match words cps with
  | l :: e :: c :: _ =>
      match parse_u64 l, parse_u64 e, parse_u64 c with
      | Some l, Some e, Some c => usage_add h l e c
      | _, _, _ => h
      end
  | _ => h
  end.

Fixpoint load_lines (ls : list (list Z)) (h : UsageHistory) : option UsageHistory :=
  match ls with
  | [] => Some h
  | l :: ls =>
      if valid_utf8 l then
        let* (cps, _) := code_points (S (length l)) l 0 (length l) in
        load_lines ls (load_line h cps)
      else None
  end.

Definition load_text (text : list Z) : option UsageHistory := load_lines (lines text) usage_new.

(** [load]: a file that does not exist is an empty history. *)
Definition usage_load (file : option (list Z)) : option UsageHistory :=
  match file with None => Some usage_new | Some text => load_text text end.

(** ** The order of a [HashMap] does not matter *)

(** Entries within their machine types, as every operation leaves them. *)
Definition entry_ok (k : Z * Z) (c : Z) : Prop := is_u64 (fst k) /\ is_u64 (snd k) /\ is_u64 c.
Definition usage_ok (h : UsageHistory) : Prop := map_Forall entry_ok h.

(** The counts of the entries of expert [e]. *)
Definition counts_of (l : list ((Z * Z) * Z)) (e : Z) : list Z :=
  map snd (filter (fun kc => snd (fst kc) = e) l).

Lemma counts_of_perm l1 l2 e : l1 ≡ₚ l2 -> counts_of l1 e ≡ₚ counts_of l2 e.
Proof. intros H. unfold counts_of. by rewrite H. Qed.

Lemma u64_add_l a b : u64 (u64 a + b) = u64 (a + b).
Proof. unfold wrap. by rewrite Zplus_mod_idemp_l. Qed.

Lemma u64_add_r a b : u64 (a + u64 b) = u64 (a + b).
Proof. unfold wrap. by rewrite Zplus_mod_idemp_r. Qed.

Lemma sum_u64_from l a : fold_left (fun a c => u64 (a + c)) l (u64 a) = u64 (a + sumZ l).
Proof.
  revert a. induction l as [|c l IH]; intros a; cbn; [by rewrite Z.add_0_r|].
  rewrite u64_add_l, IH. f_equal. cbn [sumZ]. lia.
Qed.

Lemma sum_u64_spec l : sum_u64 l = u64 (sumZ l).
Proof. exact (sum_u64_from l 0). Qed.

Lemma weights_fold n l : forall w, length w = Z.to_nat n -> Forall (fun kc => 0 <= snd (fst kc)) l ->
  length (fold_left (weight_step n) l w) = Z.to_nat n /\
  forall e, 0 <= e < n -> (exists a, w !! Z.to_nat e = Some (u64 a)) ->
    exists a, w !! Z.to_nat e = Some (u64 a) /\
    fold_left (weight_step n) l w !! Z.to_nat e = Some (u64 (a + sumZ (counts_of l e))).
Proof.
  induction l as [|[[ly x] c] l IH]; intros w Hw Hl.
  { split; [done|]. intros e He [a Ha]. exists a. cbn. by rewrite Z.add_0_r. }
  apply Forall_cons in Hl as [Hx Hl]. cbn [fst snd] in Hx. cbn [fold_left].
  assert (Hw' : length (weight_step n w ((ly, x), c)) = Z.to_nat n).
  { unfold weight_step. cbn [fst snd]. case_match; [by rewrite length_insert|done]. }
  destruct (IH _ Hw' Hl) as [Hlen IHe]. split; [done|]. intros e He [a Ha]. exists a. split; [done|].
  unfold counts_of. rewrite filter_cons. cbn [fst snd].
  assert (Hstep : weight_step n w ((ly, x), c) !! Z.to_nat e = Some (u64 (a + if decide (x = e) then c else 0))).
  { unfold weight_step. cbn [fst snd]. destruct (decide (x = e)) as [->|Hne].
    - rewrite (proj2 (Z.ltb_lt e n)) by lia. rewrite Ha. cbn [default].
      rewrite list_lookup_insert_eq by lia. cbn. by rewrite u64_add_l.
    - rewrite Z.add_0_r. destruct (Z.ltb_spec x n); [|done]. rewrite list_lookup_insert_ne by lia. done. }
  destruct (IHe e He (ex_intro _ _ Hstep)) as (a' & Ha' & ->). rewrite Hstep in Ha'. injection Ha' as Ha'.
  f_equal. fold (counts_of l e). rewrite <- u64_add_l, <- Ha', u64_add_l. f_equal.
  destruct (decide (x = e)); cbn [map sumZ]; unfold counts_of; cbn [snd]; lia.
Qed.

Lemma key_leb_total a b : key_leb a b = true \/ key_leb b a = true.
Proof. unfold key_leb. destruct a, b; simpl. rewrite !orb_true_iff, !andb_true_iff, !Z.ltb_lt, !Z.leb_le, !Z.eqb_eq. lia. Qed.

Lemma key_leb_trans a b c : key_leb a b = true -> key_leb b c = true -> key_leb a c = true.
Proof. unfold key_leb. destruct a, b, c; simpl. rewrite !orb_true_iff, !andb_true_iff, !Z.ltb_lt, !Z.leb_le, !Z.eqb_eq. lia. Qed.

Lemma ranked_leb_total a b : ranked_leb a b = true \/ ranked_leb b a = true.
Proof.
  unfold ranked_leb. rewrite !orb_true_iff, !andb_true_iff, !Z.ltb_lt, !Z.eqb_eq.
  destruct (key_leb_total (fst a) (fst b)), (Z.lt_trichotomy (snd a) (snd b)) as [|[|]]; auto with lia.
Qed.

Lemma ranked_leb_trans a b c : ranked_leb a b = true -> ranked_leb b c = true -> ranked_leb a c = true.
Proof.
  unfold ranked_leb. rewrite !orb_true_iff, !andb_true_iff, !Z.ltb_lt, !Z.eqb_eq.
  pose proof (key_leb_trans (fst a) (fst b) (fst c)). intros [?|[? ?]] [?|[? ?]]; auto with lia.
Qed.

Section Enumerated.
Context (iter : UsageHistory -> list ((Z * Z) * Z)).
(** A [HashMap] iterator yields each entry once, in some order. *)
Hypothesis iter_entries : forall h, iter h ≡ₚ map_to_list h.
Local Set Default Proof Using "All".

Lemma iter_lookup h k c : (k, c) ∈ iter h <-> h !! k = Some c.
Proof. rewrite iter_entries. apply elem_of_map_to_list. Qed.

Lemma iter_keys_NoDup h : NoDup (map fst (iter h)).
Proof. rewrite iter_entries. apply NoDup_fst_map_to_list. Qed.

Lemma expert_weights_spec h n e :
  usage_ok h -> 0 <= e < n ->
  length (expert_weights iter h n) = Z.to_nat n /\
  expert_weights iter h n !! Z.to_nat e = Some (u64 (sumZ (counts_of (map_to_list h) e))).
Proof.
  intros Hok He. unfold expert_weights.
  destruct (weights_fold n (iter h) (replicate (Z.to_nat n) 0)) as [Hl Hw]; [by rewrite length_replicate| |].
  { apply Forall_forall. intros [k c] Hk. apply iter_lookup in Hk. destruct (Hok _ _ Hk) as (_ & Hu & _).
    unfold is_u64, in_u in Hu. simpl. lia. }
  split; [done|]. assert (H0 : replicate (Z.to_nat n) 0 !! Z.to_nat e = Some (u64 0)) by (apply lookup_replicate_2; lia).
  destruct (Hw e He (ex_intro _ _ H0)) as (a & Ha & ->). rewrite H0 in Ha. injection Ha as Ha.
  f_equal. rewrite <- u64_add_l, <- Ha. change (u64 0) with 0. cbn [Z.add].
  f_equal. apply sumZ_perm, counts_of_perm, iter_entries.
Qed.

Lemma sorted_by_lookup {A} (leb : A -> A -> bool) (l : list A) i j x y :
  StronglySorted (fun x y => leb x y = true) l -> (i < j)%nat -> l !! i = Some x -> l !! j = Some y -> leb x y = true.
Proof.
  intros Hs. revert i j. induction Hs as [|z l Hs IH Hz]; intros [|i] [|j] Hij Hi Hj; try done; try lia.
  - injection Hi as <-. rewrite Forall_forall in Hz. apply Hz. by eapply list_elem_of_lookup_2.
  - apply (IH i j); [lia|done|done].
Qed.

Lemma usage_get_lookup h k : usage_get h (fst k) (snd k) = default 0 (h !! k).
Proof. by destruct k. Qed.

Lemma ranked_NoDup h : NoDup (ranked iter h).
Proof. unfold ranked. rewrite sort_by_perm. apply iter_keys_NoDup. Qed.

Lemma ranked_elem h k : k ∈ ranked iter h <-> is_Some (h !! k).
Proof.
  unfold ranked. rewrite sort_by_perm, list_elem_of_fmap. split.
  - intros ([k' c] & -> & H). apply iter_lookup in H. by exists c.
  - intros [c H]. exists (k, c). split; [done|]. by apply iter_lookup.
Qed.

Lemma ranked_in_order h i j k1 k2 :
  (i < j)%nat -> ranked iter h !! i = Some k1 -> ranked iter h !! j = Some k2 ->
  ranked_leb (k1, usage_get h (fst k1) (snd k1)) (k2, usage_get h (fst k2) (snd k2)) = true.
Proof.
  intros Hij Hi Hj. unfold ranked in Hi, Hj. rewrite list_lookup_fmap in Hi, Hj.
  apply fmap_Some in Hi as ([k1' c1] & Hi & ->). apply fmap_Some in Hj as ([k2' c2] & Hj & ->). cbn [fst].
  assert (forall i k c, sort_by ranked_leb (iter h) !! i = Some (k, c) -> c = usage_get h (fst k) (snd k)) as Hc.
  { intros i' k c H. rewrite usage_get_lookup. apply list_elem_of_lookup_2, elem_of_sort_by, iter_lookup in H. by rewrite H. }
  rewrite <- (Hc _ _ _ Hi), <- (Hc _ _ _ Hj). eapply sorted_by_lookup; [|exact Hij|exact Hi|exact Hj].
  apply sort_by_sorted; [|exact ranked_leb_trans].
  intros x y Hf. destruct (ranked_leb_total x y); congruence.
Qed.
End Enumerated.

(** Merging adds the counts key by key. *)
Lemma add_fold_get (l : list ((Z * Z) * Z)) : forall (h : UsageHistory) k,
  NoDup (map fst l) -> is_u64 (default 0 (h !! k)) ->
  default 0 (fold_left (fun h kc => usage_add h (fst (fst kc)) (snd (fst kc)) (snd kc)) l h !! k) =
  u64 (default 0 (h !! k) + default 0 ((list_to_map l : gmap (Z * Z) Z) !! k)).
Proof.
  induction l as [|[[a b] c] l IH]; intros h k Hnd Hu; cbn [fold_left map list_to_map foldr fst snd] in *.
  { rewrite lookup_empty. cbn [default from_option id]. by rewrite Z.add_0_r, wrap_id. }
  apply NoDup_cons in Hnd as [Hn Hnd]. unfold usage_add at 2. unfold UsageHistory in *.
  destruct (decide (k = (a, b))) as [->|Hne].
  - rewrite IH, !lookup_insert_eq; [|done|rewrite lookup_insert_eq; apply wrap_in; lia].
    rewrite not_elem_of_list_to_map_1 by exact Hn. cbn [default from_option id]. rewrite Z.add_0_r, wrap_id; [done|].
    apply wrap_in; lia.
  - rewrite IH; rewrite ?lookup_insert_ne by done; done.
Qed.

Lemma usage_merge_get (iter : UsageHistory -> list ((Z * Z) * Z)) h other l e :
  (forall h, iter h ≡ₚ map_to_list h) -> usage_ok h ->
  usage_get (usage_merge iter h other) l e = u64 (usage_get h l e + usage_get other l e).
Proof.
  intros Hiter Hok. unfold usage_merge, usage_get. rewrite add_fold_get.
  - f_equal. f_equal. f_equal. rewrite <- (list_to_map_to_list (M := gmap (Z * Z)) other) at 2.
    f_equal. apply list_to_map_proper; [by apply iter_keys_NoDup|apply Hiter].
  - by apply iter_keys_NoDup.
  - destruct (h !! (l, e)) as [c|] eqn:Hc; [|by vm_compute]. apply (Hok _ _ Hc).
Qed.

(** ** Reading back what [save] writes *)

Definition is_digit (c : Z) : Prop := is_ascii_digit c = true.
Definition ascii (c : Z) : Prop := 0 <= c < 128.

Lemma digit_range c : is_digit c -> 48 <= c <= 57.
Proof. unfold is_digit, is_ascii_digit. rewrite andb_true_iff, !Z.leb_le. lia. Qed.

Lemma parse_dec_spec w l : forall acc,
  Forall is_digit l -> 0 <= acc -> fold_left (fun v c => v * 10 + (c - 48)) l acc < 2 ^ w ->
  acc <= fold_left (fun v c => v * 10 + (c - 48)) l acc /\
  parse_dec w l acc = Some (fold_left (fun v c => v * 10 + (c - 48)) l acc).
Proof.
  induction l as [|c l IH]; intros acc Hl Ha Hv; cbn [fold_left parse_dec] in *; [split; [lia|done]|].
  apply Forall_cons in Hl as [Hc Hl]. pose proof (digit_range c Hc).
  destruct (IH (acc * 10 + (c - 48)) Hl ltac:(lia) Hv) as [Hle ->].
  unfold is_digit in Hc. rewrite Hc, (proj2 (Z.ltb_lt _ _)) by lia. split; [lia|done].
Qed.

Lemma parse_dec_digits w z : in_u w z -> parse_uint w (dec_digits z) = Some z.
Proof.
  intros Hz. unfold in_u in Hz. destruct (dec_digits_spec z ltac:(lia)) as (Hv & Hd & _).
  destruct (digits_head z ltac:(lia)) as (c & l & Heq & Hc).
  unfold parse_uint. rewrite Heq, (proj2 (Z.eqb_neq c 43)) by lia. rewrite <- Heq.
  unfold digits_value in Hv. destruct (parse_dec_spec w (dec_digits z) 0 Hd ltac:(lia)) as [_ ->]; [lia|].
  by rewrite Hv.
Qed.

(** The scan over a run of non-spaces up to a space or the end. *)
Lemma take_run {A} (f : A -> bool) (run q : list A) :
  Forall (fun x => f x = true) run -> match q with [] => True | x :: _ => f x = false end ->
  scan_while f (run ++ q) 0 = length run.
Proof. intros Hr Hq. exact (scan_while_app f [] run q 0%nat eq_refl Hr Hq). Qed.

Lemma take_none {A} (f : A -> bool) (q : list A) :
  match q with [] => True | x :: _ => f x = false end -> scan_while f q 0 = 0%nat.
Proof. intros Hq. exact (take_run f [] q (Forall_nil_2 _) Hq). Qed.

Lemma digit_not_space c : is_digit c -> is_whitespace c = false.
Proof.
  intros Hc%digit_range. unfold is_whitespace, in_range.
  repeat rewrite orb_false_iff. rewrite !andb_false_iff, !Z.eqb_neq, !Z.leb_gt. lia.
Qed.

Lemma words_word fuel w q :
  Forall is_digit w -> w <> [] -> match q with [] => True | x :: _ => is_whitespace x = true end ->
  words_fuel (S fuel) (w ++ q) = w :: words_fuel fuel q.
Proof.
  intros Hw Hne Hq. cbn [words_fuel]. destruct w as [|c w]; [done|].
  assert (Hc : is_whitespace c = false) by (apply digit_not_space; by apply Forall_cons in Hw as [? _]).
  rewrite (take_none is_whitespace ((c :: w) ++ q)) by done. cbn [length drop app].
  change (c :: w ++ q) with ((c :: w) ++ q).
  rewrite (take_run (fun c => negb (is_whitespace c)) (c :: w) q).
  - change ((c :: w) ++ q) with (c :: w ++ q). cbn [length take drop].
    by rewrite take_app_length, drop_app_length.
  - eapply Forall_impl; [exact Hw|]. intros x Hx. simpl. by rewrite digit_not_space.
  - destruct q; [done|]. by rewrite Hq.
Qed.

Lemma words_space fuel w q :
  Forall is_digit w -> w <> [] -> words_fuel fuel (32 :: w ++ q) = words_fuel fuel (w ++ q).
Proof.
  intros Hw Hne. destruct w as [|c w]; [done|]. destruct fuel as [|fuel]; [done|]. cbn [words_fuel].
  assert (Hc : is_whitespace c = false) by (apply digit_not_space; by apply Forall_cons in Hw as [? _]).
  change (32 :: (c :: w) ++ q) with ([32] ++ (c :: w) ++ q).
  rewrite (take_run is_whitespace [32] ((c :: w) ++ q)) by (auto using Forall_nil_2, Forall_cons_2).
  by rewrite (take_none is_whitespace ((c :: w) ++ q)) by done.
Qed.

Lemma words_three a b c :
  Forall is_digit a -> Forall is_digit b -> Forall is_digit c -> a <> [] -> b <> [] -> c <> [] ->
  words (a ++ [32] ++ b ++ [32] ++ c) = [a; b; c].
Proof.
  intros Ha Hb Hc Hna Hnb Hnc. unfold words. rewrite !length_app. cbn [length].
  destruct a as [|a0 a]; [done|]. destruct b as [|b0 b]; [done|]. cbn [length Nat.add].
  rewrite words_word by done. cbn [app]. rewrite <- !Nat.add_succ_comm. cbn [Nat.add].
  replace (length a + S (length b + S (length c)))%nat with (S (S (length a + length b + length c))) by lia.
  change (32 :: b0 :: b ++ 32 :: c) with (32 :: (b0 :: b) ++ 32 :: c).
  rewrite words_space, words_word by done. rewrite <- (app_nil_r c) at 2.
  rewrite words_space by done. rewrite words_word by done. by destruct (length a + length b + length c)%nat.
Qed.

Lemma valid_ascii l : Forall ascii l -> valid_utf8 l = true.
Proof.
  unfold valid_utf8. induction 1 as [|c l Hc Hl IH]; [done|]. unfold ascii in Hc.
  cbn [length valid_utf8_fuel]. unfold utf8_unit, utf8_lead.
  rewrite (proj2 (Z.ltb_lt c 128)) by lia. exact IH.
Qed.

Lemma code_points_ascii l : forall p q,
  Forall ascii l ->
  exists off, code_points (S (length l)) (p ++ l ++ q) (length p) (length p + length l) = Some (l, off).
Proof.
  induction l as [|c l IH]; intros p q Hl; cbn [length].
  - exists []. cbn [code_points]. by rewrite Nat.add_0_r, Nat.ltb_irrefl.
  - apply Forall_cons in Hl as [Hc Hl]. unfold ascii in Hc. remember (S (length l)) as n eqn:Hn. cbn [code_points].
    rewrite (proj2 (Nat.ltb_lt _ _)) by lia.
    assert (Hu : u8_next (p ++ (c :: l) ++ q) (length p) = Some (c, 1%nat)).
    { unfold u8_next. cbn [app]. rewrite list_lookup_middle by done. cbn [mbind option_bind]. by rewrite (proj2 (Z.ltb_lt c 128)) by lia. }
    rewrite Hu. destruct (IH (p ++ [c]) q Hl) as [off Hoff].
    rewrite length_app in Hoff. cbn [length] in Hoff. rewrite <- app_assoc in Hoff.
    exists (length p :: off). replace (length p + n)%nat with (length p + 1 + length l)%nat by lia.
    subst n. cbn [app] in Hoff |- *. by rewrite Hoff.
Qed.

Lemma load_ascii_line l ls h :
  Forall ascii l -> load_lines (l :: ls) h = load_lines ls (load_line h l).
Proof.
  intros Hl. cbn [load_lines]. rewrite valid_ascii by done.
  destruct (code_points_ascii l [] [] Hl) as [off Hoff].
  cbn [app length Nat.add] in Hoff. rewrite app_nil_r in Hoff. by rewrite Hoff.
Qed.

Lemma lines_fuel_enough l : forall f1 f2, (length l <= f1)%nat -> (length l <= f2)%nat -> lines_fuel f1 l = lines_fuel f2 l.
Proof.
  remember (length l) as n eqn:Hn. revert l Hn. induction n as [n IH] using lt_wf_ind. intros l Hn f1 f2 H1 H2.
  destruct f1 as [|f1], f2 as [|f2], l as [|c l]; cbn [length lines_fuel] in *; try done; try lia.
  set (i := scan_while _ _ _). destruct (Nat.ltb_spec i (S (length l))); [|done]. f_equal.
  apply (IH (length (drop (S i) (c :: l)))); rewrite ?length_drop; simpl; lia.
Qed.

Lemma lines_line l q :
  Forall (fun c => c <> 10 /\ c <> 13) l -> lines (l ++ 10 :: q) = l :: lines q.
Proof.
  intros Hl. unfold lines at 1. rewrite length_app. cbn [length]. rewrite Nat.add_succ_r. cbn [lines_fuel].
  assert (Hi : scan_while (fun c => negb (c =? 10)) (l ++ 10 :: q) 0 = length l).
  { apply take_run; [|done]. eapply Forall_impl; [exact Hl|]. intros x [Hx _]. simpl. by rewrite (proj2 (Z.eqb_neq x 10)). }
  rewrite Hi. destruct (l ++ 10 :: q) as [|x t] eqn:Ht; [by apply app_eq_nil in Ht as [_ ?]|]. rewrite <- Ht.
  rewrite (proj2 (Nat.ltb_lt _ _)) by (rewrite length_app; simpl; lia).
  rewrite take_app_length, <- Nat.add_1_r, drop_app_add. cbn [drop]. f_equal.
  - unfold strip_cr. destruct (rev l) as [|y r] eqn:Hr; [done|].
    destruct (Z.eqb_spec y 13) as [->|]; [|done]. exfalso. rewrite Forall_forall in Hl.
    apply (Hl 13); [|done]. apply list_elem_of_In, in_rev. rewrite Hr. by left.
  - apply lines_fuel_enough; lia.
Qed.

Lemma dec_digits_ok z : 0 <= z -> Forall is_digit (dec_digits z) /\ dec_digits z <> [].
Proof. intros Hz. by destruct (dec_digits_spec z Hz) as (_ & ? & ?). Qed.

(** A written line without its line feed. *)
Definition line_body (k : Z * Z) (c : Z) : list Z :=
  dec_digits (fst k) ++ [32] ++ dec_digits (snd k) ++ [32] ++ dec_digits c.

Lemma save_line_body k c : save_line (k, c) = line_body k c ++ [10].
Proof. unfold save_line, line_body. by rewrite <- !app_assoc. Qed.

Lemma line_body_chars (P : Z -> Prop) k c :
  P 32 -> (forall d, is_digit d -> P d) -> entry_ok k c -> Forall P (line_body k c).
Proof.
  intros H32 Hd (H1 & H2 & H3). unfold is_u64, in_u in *. unfold line_body. rewrite !Forall_app, !Forall_singleton.
  split_and!; try done; (eapply Forall_impl; [apply dec_digits_ok; lia|exact Hd]).
Qed.

Lemma load_body h k c :
  entry_ok k c -> load_line h (line_body k c) = usage_add h (fst k) (snd k) c.
Proof.
  intros (H1 & H2 & H3). unfold is_u64, in_u in *. unfold load_line, line_body.
  rewrite words_three by (apply dec_digits_ok; lia). unfold parse_u64. by rewrite !parse_dec_digits.
Qed.

(** Loading the lines of the keys [ks] of [h] into [h0], which has none of them. *)
Lemma load_saved (h : UsageHistory) ks : forall h0 : UsageHistory,
  NoDup ks -> (forall k, k ∈ ks -> h0 !! k = None /\ exists c, h !! k = Some c /\ entry_ok k c) ->
  exists h1 : UsageHistory, load_lines (lines (concat (map (fun k =>
                if 0 <? default 0 (h !! k) then save_line (k, default 0 (h !! k)) else []) ks))) h0 = Some h1 /\
    forall k, h1 !! k = if decide (k ∈ ks /\ 0 < default 0 (h !! k)) then h !! k else h0 !! k.
Proof.
  induction ks as [|k ks IH]; intros h0 Hnd Hks; cbn [map concat].
  { exists h0. split; [done|]. intros k. rewrite decide_False; [done|]. intros [Hk _]. by apply not_elem_of_nil in Hk. }
  apply NoDup_cons in Hnd as [Hk Hnd]. destruct (Hks k ltac:(left)) as (H0 & c & Hc & Hok). rewrite Hc. cbn [default from_option id].
  assert (Hu : 0 <= c < 2 ^ 64) by apply Hok. destruct (Z.ltb_spec 0 c) as [Hpos|Hz].
  - rewrite save_line_body, <- app_assoc. cbn [app]. rewrite lines_line.
    2: { apply line_body_chars; [lia| |done]. intros d Hd%digit_range. lia. }
    rewrite load_ascii_line.
    2: { apply line_body_chars; [unfold ascii; lia| |done]. intros d Hd%digit_range. unfold ascii. lia. }
    rewrite load_body by done. unfold usage_add, usage_get. destruct k as [l e]. cbn [fst snd]. rewrite H0. cbn [default from_option id Z.add].
    rewrite wrap_id by exact Hu.
    destruct (IH (<[(l, e) := c]> h0) Hnd) as (h1 & E1 & Hh1).
    { intros k Hin. unfold UsageHistory in *. destruct (Hks k ltac:(by right)) as (Hn & ?). split; [|done].
      rewrite lookup_insert_ne by (intros <-; done). done. }
    exists h1. split; [exact E1|]. intros k. rewrite Hh1. unfold UsageHistory in *. destruct (decide (k = (l, e))) as [->|Hne].
    + rewrite decide_False by tauto. rewrite lookup_insert_eq, decide_True; [done|]. rewrite Hc. split; [left|done].
    + rewrite lookup_insert_ne by done. apply decide_ext. rewrite elem_of_cons. tauto.
  - cbn [app]. destruct (IH h0 Hnd) as (h1 & E1 & Hh1); [intros k' Hin; apply Hks; by right|].
    exists h1. split; [exact E1|]. intros k'. rewrite Hh1. apply decide_ext. rewrite elem_of_cons.
    destruct (decide (k' = k)) as [->|]; [|tauto]. rewrite Hc. cbn. intuition lia.
Qed.

Section SavedHistory.
Context (iter : UsageHistory -> list ((Z * Z) * Z)).
Hypothesis iter_entries : forall h, iter h ≡ₚ map_to_list h.
Local Set Default Proof Using "All".

(** Whatever order the hash map is iterated in, loading the file [save]
    writes gives back the history, less its zero counts. *)
Theorem save_load_roundtrip h :
  usage_ok h -> load_text (save_text iter h) = Some (filter (fun kc => 0 < snd kc) h).
Proof.
  intros Hok. unfold load_text, save_text. cbv zeta.
  assert (Hin : forall k, k ∈ sort_by key_leb (map fst (iter h)) <-> is_Some (h !! k)).
  { intros k. rewrite elem_of_sort_by, list_elem_of_fmap. split.
    - intros ([k' c] & -> & H). apply (iter_lookup iter iter_entries) in H. by exists c.
    - intros [c H]. exists (k, c). split; [done|]. by apply (iter_lookup iter iter_entries). }
  destruct (load_saved h (sort_by key_leb (map fst (iter h))) usage_new) as (h1 & E1 & H1).
  - rewrite sort_by_perm. apply iter_keys_NoDup. done.
  - intros k Hk. split; [done|]. apply Hin in Hk as [c Hc]. exists c. split; [done|]. exact (Hok k c Hc).
  - etransitivity; [exact E1|]. f_equal. unfold UsageHistory in *. apply map_eq. intros k. rewrite H1, map_lookup_filter. destruct (h !! k) as [c|] eqn:Hk; cbn.
    + assert (Hk' : k ∈ sort_by key_leb (map fst (iter h))) by (apply Hin; rewrite Hk; by exists c).
      destruct (decide (0 < c)).
      * rewrite decide_True by done. by rewrite option_guard_True.
      * rewrite decide_False by tauto. by rewrite option_guard_False.
    + by case_decide.
Qed.

(** [expert_weights] has one weight per expert, the sum over the layers of
    the expert's counts modulo 2^64, whatever the hash map's order. *)
Theorem expert_weights_sum h n e :
  usage_ok h -> 0 <= e < n ->
  length (expert_weights iter h n) = Z.to_nat n /\
  expert_weights iter h n !! Z.to_nat e = Some (u64 (sumZ (counts_of (map_to_list h) e))).
Proof. apply expert_weights_spec. done. Qed.

(** [ranked] lists every key of the history once, by count descending and
    then by key ascending: the pin order does not depend on the hash map. *)
Theorem ranked_order h :
  NoDup (ranked iter h) /\ (forall k, k ∈ ranked iter h <-> is_Some (h !! k)) /\
  forall i j k1 k2, (i < j)%nat -> ranked iter h !! i = Some k1 -> ranked iter h !! j = Some k2 ->
    ranked_leb (k1, usage_get h (fst k1) (snd k1)) (k2, usage_get h (fst k2) (snd k2)) = true.
Proof.
  split_and!; [by apply ranked_NoDup|by apply ranked_elem|by apply ranked_in_order].
Qed.
End SavedHistory.

(** *** Witnesses *)

Definition hist_ex : UsageHistory := list_to_map [((1, 2), 7); ((0, 2), 12345678901234567890); ((0, 1), 0); ((3, 1), 7)].

Lemma hist_ex_ok : usage_ok hist_ex.
Proof. apply (bool_decide_unpack _). vm_compute. exact I. Qed.

Lemma save_load_roundtrip_witness :
  (forall h, map_to_list h ≡ₚ map_to_list (h : UsageHistory)) /\ usage_ok hist_ex /\
  load_text (save_text map_to_list hist_ex) = Some (filter (fun kc => 0 < snd kc) hist_ex).
Proof.
  split_and!; [done|exact hist_ex_ok|].
  exact (save_load_roundtrip map_to_list (fun h => Permutation_refl _) hist_ex hist_ex_ok).
Defined.

Lemma expert_weights_sum_witness :
  usage_ok hist_ex /\ expert_weights map_to_list hist_ex 4 !! 2%nat = Some 12345678901234567897.
Proof.
  split; [exact hist_ex_ok|].
  destruct (expert_weights_sum map_to_list (fun h => Permutation_refl _) hist_ex 4 2 hist_ex_ok ltac:(lia)) as [_ H].
  etransitivity; [exact H|]. vm_compute. reflexivity.
Defined.

Lemma ranked_order_witness :
  NoDup (ranked map_to_list hist_ex) /\ ranked map_to_list hist_ex = [(0, 2); (1, 2); (3, 1); (0, 1)].
Proof.
  split; [|vm_compute; reflexivity].
  exact (proj1 (ranked_order map_to_list (fun h => Permutation_refl _) hist_ex)).
Defined.

(** The file of the example, and reading a file with a carriage return, a blank
    line, a bad line, a sign and a repeated key. *)
Example save_ex :
  save_text map_to_list (list_to_map [((10, 2), 7); ((0, 21), 305); ((0, 1), 0)]) =
  [48; 32; 50; 49; 32; 51; 48; 53; 10; 49; 48; 32; 50; 32; 55; 10].
Proof. vm_compute. reflexivity. Qed.

Example load_ex :
  load_text ([49; 32; 50; 32; 43; 55; 13; 10; 10; 32; 120; 32; 49; 32; 49; 10; 49; 9; 50; 32; 51; 32; 57]) =
  Some {[ (1, 2) := 10 ]}.
Proof. vm_compute. reflexivity. Qed.

(** A zipf-like history: the knee keeps the head. *)
Example knee_ex :
  knee map_to_list (list_to_map [((0, 0), 1000); ((0, 1), 500); ((0, 2), 10); ((0, 3), 5); ((0, 4), 1); ((0, 5), 1)]) = 2%nat.
Proof. vm_compute. reflexivity. Qed.
