(* ===== verification/Cache.v ===== *)
(** * The resident expert cache ([crates/colibri-engine/src/cache.rs])

    The state behind the cache's mutex, each critical section an operation of its
    own: threads interleave between them, so a load runs between the section that
    misses and the one that inserts.  An expert is a value of a type [E] of which
    only its size is read; the provider behind the cache is a parameter.  Sizes
    and counters are [u64] and wrap, heats and the clock are [u32].  Ranking ties
    fall as the hash map and the unstable sort let them: [rank] is any sort of the
    candidates by score.  The monitor's tick is a function of the readings it
    takes.  Timers and log lines are left out. *)

From Stdlib Require Import SpecFloat.
From S2P Require Import Prelude Tier Json Tokenizer Usage.
Local Open Scope Z_scope.

(** ** The predictor *)

Record Predictor := {
  topn : nat;
  freq : gmap Z (gmap Z Z);
  trans : gmap Z (gmap Z (gmap Z Z));
  last : option (Z * list Z)
}.

Definition predictor_new (topn : nat) : Predictor := {| topn := topn; freq := ∅; trans := ∅; last := None |}.

(** [*m.entry(e).or_insert(0) += n], on [u32]. *)
Definition bump (n : Z) (m : gmap Z Z) (e : Z) : gmap Z Z := <[e := u32 (default 0 (m !! e) + n)]> m.

(** Ranked before: the larger count, then the smaller id. *)
Definition count_first (a b : Z * Z) : bool := (snd b <? snd a) || (snd a =? snd b) && (fst a <=? fst b).

(** Pushes until [topn] are there; the first form takes every candidate. *)
Fixpoint push_all (topn : nat) (out : list Z) (l : list (Z * Z)) : list Z :=
  match l with
  | [] => out
  | (e, _) :: l => if (topn <=? length out)%nat then out else push_all topn (out ++ [e]) l
  end.
Fixpoint push_new (topn : nat) (out : list Z) (l : list (Z * Z)) : list Z :=
  match l with
  | [] => out
  | (e, _) :: l =>
      if (topn <=? length out)%nat then out
      else push_new topn (if bool_decide (e ∈ out) then out else out ++ [e]) l
  end.

Definition score_of (p : Predictor) (target : Z) (from : list Z) : gmap Z Z :=
  match trans p !! target with
  | None => ∅
  | Some t =>
      fold_left (fun score e =>
          match t !! e with
          | None => score
          | Some c => fold_left (fun score nc => bump (snd nc) score (fst nc)) (map_to_list c) score
          end) from ∅
  end.

Definition predict (p : Predictor) (target : Z) (from : list Z) : list Z :=
  let out := push_all (topn p) [] (sort_by count_first (map_to_list (score_of p target from))) in
  if (length out <? topn p)%nat then
    match freq p !! target with
    | None => out
    | Some f => push_new (topn p) out (sort_by count_first (map_to_list f))
    end
  else out.

Definition observe_and_predict (p : Predictor) (layer : Z) (eids : list Z) : list Z * Predictor :=
  let cur := map u32 eids in
  let f := fold_left (bump 1) cur (default ∅ (freq p !! layer)) in
  let trans' :=
    match last p with
    | Some (ll, le) =>
        if u64 (ll + 1) =? layer then
          let t := fold_left (fun t pe => <[pe := fold_left (bump 1) cur (default ∅ (t !! pe))]> t)
                     le (default ∅ (trans p !! layer)) in
          <[layer := t]> (trans p)
        else trans p
    | None => trans p
    end in
  let p := {| topn := topn p; freq := <[layer := f]> (freq p); trans := trans'; last := None |} in
  let predicted := predict p (u64 (layer + 1)) cur in
  (predicted, {| topn := topn p; freq := freq p; trans := trans p; last := Some (layer, cur) |}).

(** When a layer's own set is queued for the next layer. *)
Definition PREFETCH_AHEAD_MIN : Z := 64.
Definition PREFETCH_AHEAD_MIN_PCT : Z := 50.

Definition ahead_predicts_next_layer (n_routed n_experts : Z) : bool :=
  if n_routed <? PREFETCH_AHEAD_MIN then false
  else if n_experts =? 0 then true
  else u64 (n_experts * PREFETCH_AHEAD_MIN_PCT) <=? u64 (n_routed * 100).

Definition prefetch_ahead_enabled (var : option (list Z)) : bool := bool_decide (var <> Some [48]).

(** ** The cache *)

Notation key := (Z * Z)%type.

Record Entry (E : Type) := { expert : E; bytes : Z; heat : Z; last_used : Z }.
Arguments expert {E}.
Arguments bytes {E}.
Arguments heat {E}.
Arguments last_used {E}.

Record State (E : Type) := {
  entries : gmap key (Entry E); pinned : gset key; st_bytes : Z; clock : Z;
  hits : Z; misses : Z; evictions : Z; session_usage : gmap key Z
}.
Arguments entries {E}.
Arguments pinned {E}.
Arguments st_bytes {E}.
Arguments clock {E}.
Arguments hits {E}.
Arguments misses {E}.
Arguments evictions {E}.
Arguments session_usage {E}.

Record CacheStats := {
  cs_hits : Z; cs_misses : Z; cs_evictions : Z; cs_resident : Z; cs_bytes : Z; cs_budget : Z
}.

Section Cache.
Context {E : Type} (bytes_of : E -> Z).
(** The order in which victims are taken. *)
Context (rank : list (key * Z * Z) -> list (key * Z * Z)).

Definition state_new : State E :=
  {| entries := ∅; pinned := ∅; st_bytes := 0; clock := 0; hits := 0; misses := 0; evictions := 0;
     session_usage := ∅ |}.

(** Field updates. *)
Definition with_entries (s : State E) (m : gmap key (Entry E)) (b : Z) : State E :=
  {| entries := m; pinned := pinned s; st_bytes := b; clock := clock s; hits := hits s; misses := misses s;
     evictions := evictions s; session_usage := session_usage s |}.

Definition evict_one (s : State E) (k : key) (b : Z) : State E :=
  {| entries := delete k (entries s); pinned := pinned s; st_bytes := u64 (st_bytes s - b); clock := clock s;
     hits := hits s; misses := misses s; evictions := u64 (evictions s + 1); session_usage := session_usage s |}.

(** The candidates with their score and size. *)
Definition candidates (s : State E) (protect : gset key) : list (key * Z * Z) :=
  omap (fun ke => if bool_decide (fst ke ∈ pinned s ∪ protect) then None
                  else Some (fst ke, evict_score (heat (snd ke)) (last_used (snd ke)) (clock s), bytes (snd ke)))
    (map_to_list (entries s)).

(** The loop over the victims: the state and the entries taken out. *)
Fixpoint evict_loop (budget : Z) (victims : list (key * Z * Z)) (s : State E) (freed : list (Entry E))
    : State E * list (Entry E) :=
  match victims with
  | [] => (s, freed)
  | (k, _, b) :: victims =>
      if st_bytes s <=? budget then (s, freed)
      else
        match entries s !! k with
        | Some e => evict_loop budget victims (evict_one s k b) (freed ++ [e])
        | None => evict_loop budget victims s freed
        end
  end.

(** Also the bytes published to the ledger on the way out. *)
Definition evict_to_protecting (budget : Z) (protect : gset key) (s : State E) : State E * list (Entry E) * Z :=
  if st_bytes s <=? budget then (s, [], st_bytes s)
  else
    let '(s, freed) := evict_loop budget (rank (candidates s protect)) s [] in
    (s, freed, st_bytes s).

Definition evict_to (budget : Z) (s : State E) : State E * list (Entry E) * Z := evict_to_protecting budget ∅ s.

(** The first critical section of [fetch]: the expert on a hit. *)
Definition fetch_lookup (k : key) (record : bool) (s : State E) : option E * State E :=
  let clock := u32 (clock s + 1) in
  let usage := if record then <[k := u64 (default 0 (session_usage s !! k) + 1)]> (session_usage s) else session_usage s in
  match entries s !! k with
  | Some e =>
      let e' := {| expert := expert e; bytes := bytes e; heat := Z.min (2 ^ 32 - 1) (heat e + 1); last_used := clock |} in
      (Some (expert e),
       {| entries := <[k := e']> (entries s); pinned := pinned s; st_bytes := st_bytes s; clock := clock;
          hits := u64 (hits s + 1); misses := misses s; evictions := evictions s; session_usage := usage |})
  | None =>
      (None,
       {| entries := entries s; pinned := pinned s; st_bytes := st_bytes s; clock := clock; hits := hits s;
          misses := u64 (misses s + 1); evictions := evictions s; session_usage := usage |})
  end.

Definition insert_entry (k : key) (ex : E) (s : State E) : State E :=
  with_entries s (<[k := {| expert := ex; bytes := bytes_of ex; heat := 1; last_used := clock s |}]> (entries s))
    (u64 (st_bytes s + bytes_of ex)).

(** The second, with the expert that was loaded. *)
Definition fetch_insert (k : key) (ex : E) (budget : Z) (s : State E) : E * State E :=
  match entries s !! k with
  | Some e => (expert e, s)
  | None => let '(s, _, _) := evict_to budget (insert_entry k ex s) in (ex, s)
  end.

(** The insertion of a loaded batch. *)
Definition batch_step (layer : Z) (s : State E) (ld : Z * E) : State E :=
  let '(e, ex) := ld in
  let k := (layer, e) in
  match entries s !! k with
  | Some _ => s
  | None =>
      let s := insert_entry k ex s in
      {| entries := entries s; pinned := pinned s; st_bytes := st_bytes s; clock := clock s; hits := hits s;
         misses := u64 (misses s + 1); evictions := evictions s; session_usage := session_usage s |}
  end.

Definition missing_of (layer : Z) (eids : list Z) (s : State E) : list Z :=
  List.filter (fun e => match entries s !! (layer, e) with Some _ => false | None => true end) eids.

Definition batch_insert (layer : Z) (missing : list Z) (loaded : list (Z * E)) (budget : Z) (s : State E) : State E :=
  let batch : gset key := list_to_set (map (fun e => (layer, e)) missing) in
  let '(s, _, _) := evict_to_protecting budget batch (fold_left (batch_step layer) loaded s) in s.

Definition pin_insert (k : key) (s : State E) : State E :=
  {| entries := entries s; pinned := {[k]} ∪ pinned s; st_bytes := st_bytes s; clock := clock s; hits := hits s;
     misses := misses s; evictions := evictions s; session_usage := session_usage s |}.

Definition stats (budget : Z) (s : State E) : CacheStats :=
  {| cs_hits := hits s; cs_misses := misses s; cs_evictions := evictions s; cs_resident := Z.of_nat (size (entries s));
     cs_bytes := st_bytes s; cs_budget := budget |}.

Definition pinned_count (s : State E) : Z := Z.of_nat (size (pinned s)).

Definition usage_snapshot (s : State E) : UsageHistory :=
  fold_left (fun h kc => usage_add h (fst (fst kc)) (snd (fst kc)) (snd kc)) (map_to_list (session_usage s)) usage_new.

(** ** Whole operations, run without another thread in between *)

Context {Err : Type} (provider : Z -> Z -> Err + E) (batch_provider : Z -> list Z -> Err + list E).

Definition fetch (layer eid : Z) (record : bool) (budget : Z) (s : State E) : (Err + E) * State E :=
  match fetch_lookup (layer, eid) record s with
  | (Some ex, s) => (inr ex, s)
  | (None, s) =>
      match provider layer eid with
      | inl e => (inl e, s)
      | inr ex => let '(ex, s) := fetch_insert (layer, eid) ex budget s in (inr ex, s)
      end
  end.

(** The best-effort loads, and the batch that replaces them when it can. *)
Definition load_each (layer : Z) (missing : list Z) : list (Z * E) :=
  omap (fun e => match provider layer e with inr ex => Some (e, ex) | inl _ => None end) missing.

Definition load_missing (layer : Z) (missing : list Z) : list (Z * E) :=
  match batch_provider layer missing with
  | inr exps => if (length exps =? length missing)%nat then combine missing exps else load_each layer missing
  | inl _ => load_each layer missing
  end.

Definition load_batch (layer : Z) (eids : list Z) (budget : Z) (s : State E) : State E :=
  match missing_of layer eids s with
  | [] => s
  | missing => batch_insert layer missing (load_missing layer missing) budget s
  end.

Definition pin (layer eid : Z) (budget : Z) (s : State E) : (Err + unit) * State E :=
  match fetch layer eid false budget s with
  | (inl e, s) => (inl e, s)
  | (inr _, s) => (inr tt, pin_insert (layer, eid) s)
  end.

Fixpoint pin_ranked (ranked : list key) (byte_cap : Z) (count_cap : Z) (budget : Z) (b n : Z) (s : State E)
    : (Err + Z * Z) * State E :=
  match ranked with
  | [] => (inr (n, b), s)
  | (layer, eid) :: ranked =>
      if count_cap <=? n then (inr (n, b), s)
      else
        match fetch layer eid false budget s with
        | (inl e, s) => (inl e, s)
        | (inr ex, s) =>
            let c := bytes_of ex in
            if (0 <? n) && (byte_cap <? u64 (b + c)) then (inr (n, b), s)
            else pin_ranked ranked byte_cap count_cap budget (u64 (b + c)) (u64 (n + 1)) (pin_insert (layer, eid) s)
        end
  end.

Definition warm_pin (iter : UsageHistory -> list (key * Z)) (h : UsageHistory) (pin_budget budget : Z) (s : State E)
    : (Err + Z) * State E :=
  match pin_ranked (ranked iter h) pin_budget (2 ^ 64 - 1) budget 0 0 s with
  | (inl e, s) => (inl e, s)
  | (inr (n, _), s) => (inr n, s)
  end.

Definition warm_pin_auto (iter : UsageHistory -> list (key * Z)) (h : UsageHistory) (cache_budget budget : Z) (s : State E)
    : (Err + Z * Z * spec_float) * State E :=
  let ranked := ranked iter h in
  let knee := Z.min (Z.of_nat (knee iter h)) (Z.of_nat (length ranked)) in
  let byte_cap := Z.min (2 ^ 64 - 1) (cache_budget / 5 * 4) in
  match pin_ranked ranked byte_cap knee budget 0 0 s with
  | (inl e, s) => (inl e, s)
  | (inr (n, b), s) => (inr (n, b, coverage_of_top iter h (Z.to_nat n)), s)
  end.
End Cache.

(** What [prefetch] offers the background loader before it loads the batch
    itself; [tx] says whether there is one. *)
Definition prefetch_offer (tx ahead_on : bool) (n_experts layer : Z) (eids : list Z) (p : option Predictor)
    : option (Z * list Z) * option Predictor :=
  if negb tx then (None, p)
  else if ahead_on && ahead_predicts_next_layer (Z.of_nat (length eids)) n_experts
  then (Some (u64 (layer + 1), eids), p)
  else
    match p with
    | None => (None, None)
    | Some p =>
        let '(pred, p) := observe_and_predict p layer eids in
        (match pred with [] => None | _ => Some (u64 (layer + 1), pred) end, Some p)
    end.

(** ** The adaptive budget *)

Definition saturating_add64 (a b : Z) : Z := Z.min (2 ^ 64 - 1) (a + b).
Definition saturating_mul64 (a b : Z) : Z := Z.min (2 ^ 64 - 1) (a * b).

Definition BRAKE_TICKS : Z := 4.
Definition MAX_BRAKE : Z := Z.shiftl 8 30.
Definition CAP_RECOVER_PER_TICK : Z := Z.shiftl 64 20.
Definition SUSTAIN : Z := 6.
Definition HARD_SLACK : Z := Z.shiftl 3 30.
Definition FLOOR_MIN : Z := Z.shiftl 2 30.
Definition SWAP_TOLERANCE : Z := Z.shiftl 256 20.

Definition braking_floor (hard_floor drop_per_tick : Z) : Z :=
  saturating_add64 hard_floor (Z.min (saturating_mul64 drop_per_tick BRAKE_TICKS) MAX_BRAKE).

Definition cap_margin (hard_floor : Z) : Z := saturating_add64 hard_floor (MAX_BRAKE / 2).

Definition supported_cap (resident avail hard_floor : Z) : Z :=
  saturating_sub (saturating_add64 resident avail) (cap_margin hard_floor).

Definition recover_cap (learned_cap fill_target : Z) : Z :=
  Z.min (saturating_add64 learned_cap CAP_RECOVER_PER_TICK) fill_target.

(** The levels the monitor is started with, raised to be consistent, and what it
    keeps from tick to tick. *)
Record Levels := { fill_target : Z; danger_floor : Z; hard_floor : Z; swap_baseline : Z }.
Record Guard := { low_ticks : Z; prev_avail : Z; learned_cap : Z }.

Definition levels_of (fill danger hard : Z) (swap : option Z) : Levels :=
  let fill := Z.max fill FLOOR_MIN in
  let hard := Z.max hard FLOOR_MIN in
  {| fill_target := fill; danger_floor := Z.max danger hard; hard_floor := hard; swap_baseline := default 0 swap |}.

Definition guard_new (lv : Levels) (avail : option Z) : Guard :=
  {| low_ticks := 0; prev_avail := default (2 ^ 64 - 1) avail;
     learned_cap := match avail with
                    | Some a => Z.min (fill_target lv) (Z.max (supported_cap 0 a (hard_floor lv)) FLOOR_MIN)
                    | None => fill_target lv
                    end |}.

(** What the tick decided. *)
Inductive verdict := SwapGuard | OomGuard | Hold.

(** One tick: the readings are the available memory, the swap in use, the
    resident bytes, the budget and the reservations.  The new budget is also what
    the cache is evicted to, under [Hold] only if it is below [resident]. *)
Definition tick (lv : Levels) (g : Guard) (avail : Z) (swap : option Z) (resident budget reserved : Z)
    : verdict * Z * Guard :=
  let drop_per_tick := saturating_sub (prev_avail g) avail in
  let paging := match swap with Some sw => u64 (swap_baseline lv + SWAP_TOLERANCE) <? sw | None => false end in
  if paging then
    let new_budget := Z.max (Z.min (saturating_sub resident (resident / 4)) budget) FLOOR_MIN in
    (SwapGuard, new_budget, {| low_ticks := 0; prev_avail := avail; learned_cap := learned_cap g |})
  else
    let floor_now := braking_floor (hard_floor lv) drop_per_tick in
    if avail <? floor_now then
      let reclaim := saturating_add64 (floor_now - avail) HARD_SLACK in
      let new_budget := Z.max (saturating_sub resident reclaim) FLOOR_MIN in
      (OomGuard, new_budget, {| low_ticks := 0; prev_avail := avail; learned_cap := new_budget |})
    else
      let low_ticks := if avail <? danger_floor lv then Z.min (2 ^ 32 - 1) (low_ticks g + 1) else 0 in
      let cap := Z.max (Z.min (learned_cap g) (supported_cap resident avail (hard_floor lv))) FLOOR_MIN in
      let cap := if (danger_floor lv <? avail) && (cap <=? saturating_add64 resident CAP_RECOVER_PER_TICK)
                 then recover_cap cap (fill_target lv) else cap in
      let held := saturating_sub cap reserved in
      let new_budget := if SUSTAIN <=? low_ticks
                        then Z.max (saturating_sub resident (u64 (danger_floor lv - avail))) FLOOR_MIN
                        else Z.max held FLOOR_MIN in
      (Hold, new_budget, {| low_ticks := low_ticks; prev_avail := avail; learned_cap := cap |}).

(** ** Reservations *)

Definition MAX_PASSES : nat := 4.

(** The passes of [reserve_ram]: [readings] are the samples of available memory
    in turn, [evict] takes the cache down to a target.  The result is the last
    sample before the final one, the state and the budget. *)
Section Reserve.
Context {S : Type} (st_size : S -> Z) (evict : Z -> S -> S).

Fixpoint reserve_passes (passes : nat) (need : Z) (readings : list (option Z)) (avail_after : option Z) (s : S) (budget : Z)
    : option Z * list (option Z) * S * Z :=
  match passes with
  | O => (avail_after, readings, s, budget)
  | Datatypes.S passes =>
      match head readings with
      | None | Some None => (avail_after, tail readings, s, budget)
      | Some (Some now) =>
          if need <=? now then (Some now, tail readings, s, budget)
          else
            let target := Z.max (saturating_sub (st_size s) (need - now)) FLOOR_MIN in
            if st_size s <=? target then (Some now, tail readings, s, budget)
            else reserve_passes passes need (tail readings) (Some now) (evict target s) target
      end
  end.

(** [reserve_ram]: whether the room is there, the reservations, the state and
    the budget. *)
Definition reserve_ram (nbytes fill hard : Z) (readings : list (option Z)) (reserved : Z) (s : S) (budget : Z)
    : bool * Z * S * Z :=
  let reserved' := u64 (reserved + nbytes) in
  if fill =? 0 then (true, reserved', s, budget)
  else
    match head readings with
    | None | Some None => (true, reserved', s, budget)
    | Some (Some avail) =>
        let need := saturating_add64 nbytes hard in
        if need <=? avail then (true, reserved', s, budget)
        else
          let '(avail_after, rest, s, budget) := reserve_passes MAX_PASSES need (tail readings) (Some avail) s budget in
          let final := match head rest with Some (Some a) => Some a | _ => avail_after end in
          let ok := match final with Some a => need <=? a | None => true end in
          (ok, if ok then reserved' else saturating_sub reserved' nbytes, s, budget)
    end.
End Reserve.

(** [release_ram] is a load and a store; a reservation is one atomic addition.
    The accesses of threads to [reserved], each thread with the value it loaded. *)
Inductive raccess := ReserveAdd (nbytes : Z) | ReleaseLoad (t : nat) | ReleaseStore (t : nat) (nbytes : Z).

Definition release_store (prev nbytes : Z) : Z := saturating_sub prev nbytes.

Definition raccess_step (st : Z * gmap nat Z) (a : raccess) : Z * gmap nat Z :=
  let '(reserved, loaded) := st in
  match a with
  | ReserveAdd nbytes => (u64 (reserved + nbytes), loaded)
  | ReleaseLoad t => (reserved, <[t := reserved]> loaded)
  | ReleaseStore t nbytes => (release_store (default 0 (loaded !! t)) nbytes, loaded)
  end.

(** ** Capacity *)

Definition qt_bytes (o i bits : Z) : Z :=
  let n := u64 (o * i) in
  if 16 <=? bits then u64 (n * 4)
  else if 5 <=? bits then u64 (n + u64 (o * 4))
  else if 3 <=? bits then u64 (u64 (o * div_ceil i 2) + u64 (o * 4))
  else u64 (u64 (o * div_ceil i 4) + u64 (o * 4)).

Definition bytes_per_expert (hidden moe_inter bits : Z) : Z :=
  u64 (u64 (2 * qt_bytes moe_inter hidden bits) + qt_bytes hidden moe_inter bits).

Definition experts_in_budget (budget_bytes bytes_per_expert : Z) : Z :=
  if bytes_per_expert =? 0 then 0 else budget_bytes / bytes_per_expert.

Definition context_in_kv_budget (budget_bytes kv_bytes_per_token : Z) : Z :=
  if kv_bytes_per_token =? 0 then 0 else budget_bytes / kv_bytes_per_token.

(** ** [/proc/meminfo] *)

Fixpoint strip_prefix (t s : list Z) : option (list Z) :=
  match t, s with
  | [], s => Some s
  | c :: t, d :: s => if c =? d then strip_prefix t s else None
  | _ :: _, [] => None
  end.

Fixpoint meminfo_lines (key : list Z) (ls : list (list Z)) : option Z :=
  match ls with
  | [] => None
  | l :: ls =>
      match strip_prefix key l with
      | Some rest =>
          let* w := head (words rest) in
          let* kb := parse_u64 w in
          Some (u64 (kb * 1024))
      | None => meminfo_lines key ls
      end
  end.

Definition meminfo_field (file : option (list Z)) (key : list Z) : option Z :=
  let* text := file in meminfo_lines key (lines text).

Definition MEM_AVAILABLE : list Z := [77; 101; 109; 65; 118; 97; 105; 108; 97; 98; 108; 101; 58].
Definition SWAP_TOTAL : list Z := [83; 119; 97; 112; 84; 111; 116; 97; 108; 58].
Definition SWAP_FREE : list Z := [83; 119; 97; 112; 70; 114; 101; 101; 58].
Definition MEM_TOTAL : list Z := [77; 101; 109; 84; 111; 116; 97; 108; 58].

Definition available_ram_bytes (file : option (list Z)) : option Z := meminfo_field file MEM_AVAILABLE.
Definition total_ram_bytes (file : option (list Z)) : option Z := meminfo_field file MEM_TOTAL.
(** The file is read twice. *)
Definition swap_used_bytes (file1 file2 : option (list Z)) : option Z :=
  let* total := meminfo_field file1 SWAP_TOTAL in
  let* free := meminfo_field file2 SWAP_FREE in
  Some (saturating_sub total free).

(** ** Eviction takes the least, one at a time *)

Section Eviction.
Context {E : Type} (rank : list (key * Z * Z) -> list (key * Z * Z)).
(** An unstable sort by score. *)
Hypothesis rank_perm : forall l, rank l ≡ₚ l.
Hypothesis rank_sorted : forall l, StronglySorted (fun x y => snd (fst x) <= snd (fst y)) (rank l).
Local Set Default Proof Using "All".

Definition score (s : State E) (e : Entry E) : Z := evict_score (heat e) (last_used e) (clock s).

(** May be evicted from [s]. *)
Definition evictable (s : State E) (protect : gset key) (k : key) (e : Entry E) : Prop :=
  entries s !! k = Some e /\ k ∉ pinned s ∪ protect.

(** The reference: while over the budget, take out an evictable entry of least
    score; stop when there is none. *)
Inductive evict_min (budget : Z) (protect : gset key) : State E -> list (Entry E) -> State E -> Prop :=
  | evict_fits s : st_bytes s <= budget -> evict_min budget protect s [] s
  | evict_none s : (forall k e, ~ evictable s protect k e) -> evict_min budget protect s [] s
  | evict_least s k e freed s' :
      budget < st_bytes s -> evictable s protect k e ->
      (forall k' e', evictable s protect k' e' -> score s e <= score s e') ->
      evict_min budget protect (evict_one s k (bytes e)) freed s' ->
      evict_min budget protect s (e :: freed) s'.

Definition candidate (s : State E) (protect : gset key) (ke : key * Entry E) : option (key * Z * Z) :=
  if bool_decide (fst ke ∈ pinned s ∪ protect) then None else Some (fst ke, score s (snd ke), bytes (snd ke)).

Lemma candidates_omap s protect : candidates s protect = omap (candidate s protect) (map_to_list (entries s)).
Proof. reflexivity. Qed.

Lemma candidate_elem s protect k sc b :
  (k, sc, b) ∈ candidates s protect <->
  exists e, evictable s protect k e /\ sc = score s e /\ b = bytes e.
Proof.
  rewrite candidates_omap, list_elem_of_omap. split.
  - intros ([k' e] & Hin & Hc). apply elem_of_map_to_list in Hin. unfold candidate in Hc. cbn [fst snd] in Hc.
    case_bool_decide; [done|]. injection Hc as -> <- <-. by exists e.
  - intros (e & [Hk Hp] & -> & ->). exists (k, e). split; [by apply elem_of_map_to_list|].
    unfold candidate. cbn [fst snd]. by rewrite bool_decide_false.
Qed.

Lemma candidates_delete s protect k e :
  evictable s protect k e ->
  candidates s protect ≡ₚ (k, score s e, bytes e) :: candidates (evict_one s k (bytes e)) protect.
Proof.
  intros [Hk Hp]. rewrite !candidates_omap. cbn [entries evict_one].
  rewrite <- (map_to_list_delete (entries s) k e Hk). cbn [omap list_omap].
  unfold candidate at 1. cbn [fst snd]. by rewrite bool_decide_false.
Qed.

Lemma evict_loop_min budget protect vs : forall s freed,
  vs ≡ₚ candidates s protect -> StronglySorted (fun x y => snd (fst x) <= snd (fst y)) vs ->
  exists s' taken, evict_loop budget vs s freed = (s', freed ++ taken) /\ evict_min budget protect s taken s'.
Proof.
  induction vs as [|[[k sc] b] vs IH]; intros s freed Hvs Hs; cbn [evict_loop].
  { exists s, []. rewrite app_nil_r. split; [done|]. apply evict_none. intros k e He.
    assert (Hin : (k, score s e, bytes e) ∈ candidates s protect) by (apply candidate_elem; eauto).
    rewrite <- Hvs in Hin. by apply not_elem_of_nil in Hin. }
  destruct (Z.leb_spec (st_bytes s) budget) as [Hle|Hgt].
  { exists s, []. rewrite app_nil_r. split; [done|]. by apply evict_fits. }
  assert (Hin : (k, sc, b) ∈ candidates s protect) by (rewrite <- Hvs; left).
  apply candidate_elem in Hin as (e & He & -> & ->). rewrite (proj1 He).
  apply StronglySorted_inv in Hs as [Hs Hmin].
  destruct (IH (evict_one s k (bytes e)) (freed ++ [e])) as (s' & taken & -> & Hm); [|done|].
  { apply (Permutation_cons_inv (a := (k, score s e, bytes e))). by rewrite Hvs, <- candidates_delete. }
  exists s', (e :: taken). rewrite <- app_assoc. split; [done|]. eapply evict_least; [done|done| |done].
  intros k' e' He'. assert (Hin : (k', score s e', bytes e') ∈ candidates s protect) by (apply candidate_elem; eauto).
  rewrite <- Hvs in Hin. apply elem_of_cons in Hin as [[= -> <- _]|Hin]; [lia|].
  rewrite Forall_forall in Hmin. exact (Hmin _ Hin).
Qed.

Lemma evict_protecting_min budget protect s :
  exists s' freed, evict_to_protecting rank budget protect s = (s', freed, st_bytes s') /\ evict_min budget protect s freed s'.
Proof.
  unfold evict_to_protecting. destruct (Z.leb_spec (st_bytes s) budget).
  { exists s, []. split; [done|]. by apply evict_fits. }
  destruct (evict_loop_min budget protect (rank (candidates s protect)) s []) as (s' & taken & -> & Hm);
    [apply rank_perm|apply rank_sorted|]. by exists s', taken.
Qed.
End Eviction.

Section EvictMin.
Context {E : Type} (budget : Z) (protect : gset key).

(** What a run of the reference keeps and reaches. *)
Lemma evict_min_frame (s s' : State E) freed :
  evict_min budget protect s freed s' ->
  pinned s' = pinned s /\ clock s' = clock s /\ session_usage s' = session_usage s /\
  (forall k e, entries s' !! k = Some e -> entries s !! k = Some e) /\
  (forall k, k ∈ pinned s ∪ protect -> entries s' !! k = entries s !! k) /\
  (st_bytes s' <= budget \/ forall k e, ~ evictable s' protect k e).
Proof.
  induction 1 as [s Hb|s Hn|s k e freed s' Hb He Hmin Hm (IHp & IHc & IHu & IHs & IHk & IHf)];
    [split_and!; auto..|]. cbn [pinned clock session_usage entries evict_one] in *.
  split_and!; try done.
  - intros k' e' Hk'. apply IHs in Hk'. by apply lookup_delete_Some in Hk' as [_ ?].
  - intros k' Hk'. rewrite IHk by done. apply lookup_delete_ne. intros ->. by destruct He.
Qed.

(** The survivors score at least as much as what was taken. *)
Lemma evict_min_order (s s' : State E) freed :
  evict_min budget protect s freed s' ->
  forall e k' e', e ∈ freed -> evictable s' protect k' e' -> score s e <= score s e'.
Proof.
  induction 1 as [s Hb|s Hn|s k e freed s' Hb He Hmin Hm IH]; intros x k' e' Hx He'; [by apply not_elem_of_nil in Hx..|].
  pose proof (evict_min_frame _ _ _ Hm) as (Hp & _ & _ & Hs & _).
  apply elem_of_cons in Hx as [->|Hx].
  - apply (Hmin k' e'). destruct He' as [Hk' Hp']. apply Hs in Hk'. cbn [entries evict_one pinned] in *.
    apply lookup_delete_Some in Hk' as [_ Hk']. split; [done|]. by rewrite <- Hp.
  - exact (IH x k' e' Hx He').
Qed.
End EvictMin.

(** ** The invariant, under any interleaving *)

Definition resident_sum {E} (m : gmap key (Entry E)) : Z := sumZ (map (fun ke => bytes (snd ke)) (map_to_list m)).

Section ResidentSum.
Context {E : Type}.
Implicit Types m : gmap key (Entry E).

Lemma resident_insert m k e : m !! k = None -> resident_sum (<[k := e]> m) = bytes e + resident_sum m.
Proof. intros Hk. unfold resident_sum. by rewrite (sumZ_perm _ _ (Permutation_map _ (map_to_list_insert m k e Hk))). Qed.

Lemma resident_delete m k e : m !! k = Some e -> resident_sum m = bytes e + resident_sum (delete k m).
Proof. intros Hk. unfold resident_sum. by rewrite <- (sumZ_perm _ _ (Permutation_map _ (map_to_list_delete m k e Hk))). Qed.

Lemma resident_replace m k e e' :
  m !! k = Some e -> bytes e' = bytes e -> resident_sum (<[k := e']> m) = resident_sum m.
Proof.
  intros Hk Hb. rewrite <- insert_delete_eq, resident_insert by apply lookup_delete_eq.
  by rewrite (resident_delete m k e Hk), Hb.
Qed.
End ResidentSum.

Section Coherence.
Context {E Err : Type} (bytes_of : E -> Z) (rank : list (key * Z * Z) -> list (key * Z * Z)).
Context (provider : Z -> Z -> Err + E).
Hypothesis rank_perm : forall l, rank l ≡ₚ l.
Hypothesis rank_sorted : forall l, StronglySorted (fun x y => snd (fst x) <= snd (fst y)) (rank l).
Local Set Default Proof Using "All".

(** What is resident is what the provider gives, and the counter is its size. *)
Record cache_inv (s : State E) : Prop := {
  ci_expert k e : entries s !! k = Some e -> provider (fst k) (snd k) = inr (expert e) /\ bytes e = bytes_of (expert e);
  ci_bytes : st_bytes s = u64 (resident_sum (entries s))
}.

Definition loaded_ok (layer : Z) (loaded : list (Z * E)) : Prop :=
  Forall (fun ld => provider layer (fst ld) = inr (snd ld)) loaded.

(** A critical section of some thread. *)
Inductive cache_step (s : State E) : State E -> Prop :=
  | step_lookup k record : cache_step s (snd (fetch_lookup k record s))
  | step_insert k ex budget : provider (fst k) (snd k) = inr ex -> cache_step s (snd (fetch_insert bytes_of rank k ex budget s))
  | step_batch layer missing loaded budget :
      loaded_ok layer loaded -> cache_step s (batch_insert bytes_of rank layer missing loaded budget s)
  | step_pin k : cache_step s (pin_insert k s)
  | step_evict budget : cache_step s (fst (fst (evict_to rank budget s))).

Inductive cache_run : State E -> Prop :=
  | run_new : cache_run state_new
  | run_next s s' : cache_run s -> cache_step s s' -> cache_run s'.

Lemma evict_one_inv s k e protect : cache_inv s -> evictable s protect k e -> cache_inv (evict_one s k (bytes e)).
Proof.
  intros [He Hb] [Hk _]. constructor; cbn [entries st_bytes evict_one].
  - intros k' e' Hk'. apply lookup_delete_Some in Hk' as [_ Hk']. by apply He.
  - rewrite Hb, (resident_delete _ _ _ Hk). unfold wrap. rewrite Zminus_mod_idemp_l. f_equal. lia.
Qed.

Lemma evict_min_inv budget protect s freed s' : evict_min budget protect s freed s' -> cache_inv s -> cache_inv s'.
Proof. induction 1; intros Hi; [done..|]. eauto using evict_one_inv. Qed.

Lemma evict_inv budget protect s :
  cache_inv s -> cache_inv (fst (fst (evict_to_protecting rank budget protect s))).
Proof.
  intros Hi. destruct (evict_protecting_min rank rank_perm rank_sorted budget protect s) as (s' & freed & -> & Hm).
  by eapply evict_min_inv.
Qed.

Lemma insert_inv k ex s :
  cache_inv s -> entries s !! k = None -> provider (fst k) (snd k) = inr ex -> cache_inv (insert_entry bytes_of k ex s).
Proof.
  intros [He Hb] Hk Hp. constructor; cbn [entries st_bytes insert_entry with_entries].
  - intros k' e' Hk'. apply lookup_insert_Some in Hk' as [[<- <-]|[_ Hk']]; [by split|by apply He].
  - rewrite resident_insert by done. cbn [bytes]. rewrite Hb. unfold wrap. rewrite Zplus_mod_idemp_l. f_equal. lia.
Qed.

Lemma lookup_inv k record s : cache_inv s -> cache_inv (snd (fetch_lookup k record s)).
Proof.
  intros [He Hb]. unfold fetch_lookup. destruct (entries s !! k) as [e|] eqn:Hk; constructor; cbn [snd entries st_bytes]; try done.
  - intros k' e' Hk'. apply lookup_insert_Some in Hk' as [[<- <-]|[_ Hk']]; [|by apply He]. by apply (He k e).
  - by rewrite (resident_replace _ _ e).
Qed.

Lemma fetch_insert_inv k ex budget s :
  cache_inv s -> provider (fst k) (snd k) = inr ex -> cache_inv (snd (fetch_insert bytes_of rank k ex budget s)).
Proof.
  intros Hi Hp. unfold fetch_insert. destruct (entries s !! k) eqn:Hk; [done|].
  pose proof (evict_inv budget ∅ (insert_entry bytes_of k ex s) (insert_inv k ex s Hi Hk Hp)) as H.
  unfold evict_to. by destruct (evict_to_protecting _ _ _ _) as [[s' ?] ?].
Qed.

Lemma batch_fold_inv layer loaded : forall s, cache_inv s -> loaded_ok layer loaded -> cache_inv (fold_left (batch_step bytes_of layer) loaded s).
Proof.
  induction loaded as [|[e ex] loaded IH]; intros s Hi Hl; [done|]. apply Forall_cons in Hl as [Hp Hl]. cbn [fold_left].
  apply IH; [|done]. unfold batch_step. destruct (entries s !! (layer, e)) eqn:Hk; [done|].
  destruct (insert_inv (layer, e) ex s Hi Hk Hp) as [He Hb]. by constructor.
Qed.

Lemma batch_inv layer missing loaded budget s :
  cache_inv s -> loaded_ok layer loaded -> cache_inv (batch_insert bytes_of rank layer missing loaded budget s).
Proof.
  intros Hi Hl. unfold batch_insert.
  pose proof (evict_inv budget (list_to_set (map (fun e => (layer, e)) missing)) _ (batch_fold_inv layer loaded s Hi Hl)) as H.
  by destruct (evict_to_protecting _ _ _ _) as [[s' ?] ?].
Qed.

Lemma run_inv s : cache_run s -> cache_inv s.
Proof.
  induction 1 as [|s s' _ IH Hs].
  - constructor; cbn [entries st_bytes state_new]; [intros k e Hk; by rewrite lookup_empty in Hk|].
    unfold resident_sum. by rewrite map_to_list_empty.
  - destruct Hs; [by apply lookup_inv|by apply fetch_insert_inv|by apply batch_inv| |by apply evict_inv].
    destruct IH as [He Hb]. by constructor.
Qed.
End Coherence.

Section CacheTheorems.
Context {E Err : Type} (bytes_of : E -> Z) (rank : list (key * Z * Z) -> list (key * Z * Z)).
Context (provider : Z -> Z -> Err + E).
Hypothesis rank_perm : forall l, rank l ≡ₚ l.
Hypothesis rank_sorted : forall l, StronglySorted (fun x y => snd (fst x) <= snd (fst y)) (rank l).
Local Set Default Proof Using "All".

(** C35: eviction in one ranked pass is repeated eviction of the minimum, and it
    takes no more than it must: it ends within the budget or with nothing left to
    evict, keeps every pinned and protected entry, never takes an entry that
    scores above one it leaves, and only takes one while over the budget. *)
Theorem eviction_is_repeated_min budget protect (s : State E) :
  exists s' freed, evict_to_protecting rank budget protect s = (s', freed, st_bytes s') /\
    evict_min budget protect s freed s' /\
    (st_bytes s' <= budget \/ forall k e, ~ evictable s' protect k e) /\
    (forall k, k ∈ pinned s ∪ protect -> entries s' !! k = entries s !! k) /\
    (forall e k' e', e ∈ freed -> evictable s' protect k' e' -> score s e <= score s e').
Proof using rank_perm rank_sorted.
  destruct (evict_protecting_min rank rank_perm rank_sorted budget protect s) as (s' & freed & Heq & Hm).
  exists s', freed. pose proof (evict_min_frame _ _ _ _ _ Hm) as (_ & _ & _ & _ & Hk & Hf).
  split_and!; [exact Heq|exact Hm|exact Hf|exact Hk|exact (evict_min_order _ _ _ _ _ Hm)].
Qed.

(** C34: the cache is transparent.  However threads interleave, a hit and an
    insertion return what the provider gives for that key, the byte counter is
    the size of what is resident, and a fetch with nothing in between returns
    exactly the provider's answer, its error included. *)
Theorem cache_transparent (s : State E) :
  cache_run bytes_of rank provider s ->
  st_bytes s = u64 (resident_sum (entries s)) /\
  (forall k record ex, fst (fetch_lookup k record s) = Some ex -> provider (fst k) (snd k) = inr ex) /\
  (forall k ex budget, provider (fst k) (snd k) = inr ex -> fst (fetch_insert bytes_of rank k ex budget s) = ex) /\
  (forall layer eid record budget, fst (fetch bytes_of rank provider layer eid record budget s) = provider layer eid).
Proof.
  intros Hrun. pose proof (run_inv bytes_of rank provider rank_perm rank_sorted s Hrun) as Hi. pose proof Hi as [He Hb].
  assert (Hhit : forall s k record ex, cache_inv bytes_of provider s -> fst (fetch_lookup k record s) = Some ex ->
                   provider (fst k) (snd k) = inr ex).
  { intros s1 k record ex [He1 _] Hf. unfold fetch_lookup in Hf. destruct (entries s1 !! k) as [e|] eqn:Hk; [|done].
    injection Hf as <-. by apply (He1 k e). }
  assert (Hins : forall s k ex budget, cache_inv bytes_of provider s -> provider (fst k) (snd k) = inr ex ->
                   fst (fetch_insert bytes_of rank k ex budget s) = ex).
  { intros s1 k ex budget [He1 _] Hp. unfold fetch_insert. destruct (entries s1 !! k) as [e|] eqn:Hk.
    - destruct (He1 k e Hk) as [Hp' _]. cbn [fst]. congruence.
    - by destruct (evict_to _ _ _) as [[? ?] ?]. }
  split_and!; [exact Hb|by intros; eapply Hhit|by intros; apply Hins|].
  intros layer eid record budget. unfold fetch.
  destruct (fetch_lookup (layer, eid) record s) as [[ex|] s1] eqn:Hl.
  - symmetry. apply (Hhit s (layer, eid) record ex Hi). by rewrite Hl.
  - destruct (provider layer eid) as [err|ex] eqn:Hp; [done|].
    pose proof (lookup_inv bytes_of rank provider rank_perm rank_sorted (layer, eid) record s Hi) as Hi1. rewrite Hl in Hi1.
    pose proof (Hins s1 (layer, eid) ex budget Hi1 Hp) as H.
    destruct (fetch_insert _ _ _ _ _ _) as [ex' s2]. cbn [fst] in *. by rewrite H.
Qed.

Lemma pinned_evict budget protect (s : State E) k e :
  k ∈ pinned s -> entries s !! k = Some e ->
  entries (fst (fst (evict_to_protecting rank budget protect s))) !! k = Some e /\
  pinned (fst (fst (evict_to_protecting rank budget protect s))) = pinned s.
Proof.
  intros Hp Hk. destruct (evict_protecting_min rank rank_perm rank_sorted budget protect s) as (s' & freed & -> & Hm).
  pose proof (evict_min_frame _ _ _ _ _ Hm) as (Hpin & _ & _ & _ & Hkeep & _). cbn [fst].
  split; [|done]. rewrite Hkeep by set_solver. done.
Qed.

Lemma batch_fold_keeps layer loaded : forall (s : State E) k e,
  entries s !! k = Some e -> entries (fold_left (batch_step bytes_of layer) loaded s) !! k = Some e.
Proof.
  induction loaded as [|[x ex] loaded IH]; intros s k e Hk; [done|]. cbn [fold_left]. apply IH. unfold batch_step.
  destruct (entries s !! (layer, x)) eqn:Hx; [done|]. cbn [entries insert_entry with_entries].
  rewrite lookup_insert_ne; [done|]. intros <-. congruence.
Qed.

Lemma batch_fold_pinned layer loaded : forall (s : State E), pinned (fold_left (batch_step bytes_of layer) loaded s) = pinned s.
Proof.
  induction loaded as [|[x ex] loaded IH]; intros s; [done|]. cbn [fold_left]. rewrite IH. unfold batch_step.
  by destruct (entries s !! (layer, x)).
Qed.

Lemma batch_fold_resident layer loaded : forall (s : State E) x,
  x ∈ map fst loaded -> is_Some (entries (fold_left (batch_step bytes_of layer) loaded s) !! (layer, x)).
Proof.
  induction loaded as [|[y ex] loaded IH]; intros s x Hx; [by apply not_elem_of_nil in Hx|].
  cbn [map fst] in Hx. apply elem_of_cons in Hx as [->|Hx]; [|by apply IH]. cbn [fold_left].
  assert (Hy : exists e, entries (batch_step bytes_of layer s (y, ex)) !! (layer, y) = Some e).
  { unfold batch_step. destruct (entries s !! (layer, y)) as [e|] eqn:Hk; [by exists e|].
    cbn [entries insert_entry with_entries]. rewrite lookup_insert_eq. by eexists. }
  destruct Hy as [e Hy]. exists e. by apply batch_fold_keeps.
Qed.

Lemma pinned_step (s s' : State E) k e :
  cache_step bytes_of rank provider s s' -> k ∈ pinned s -> entries s !! k = Some e ->
  k ∈ pinned s' /\ exists e', entries s' !! k = Some e' /\ expert e' = expert e.
Proof.
  intros Hstep Hp Hk. destruct Hstep as [k0 record|k0 ex budget Hpr|layer missing loaded budget Hl|k0|budget].
  - unfold fetch_lookup. destruct (entries s !! k0) as [e0|] eqn:H0; cbn [snd pinned entries]; (split; [done|]); [|by exists e].
    destruct (decide (k0 = k)) as [->|Hne]; [|exists e; by rewrite lookup_insert_ne].
    rewrite lookup_insert_eq. eexists. split; [done|]. cbn [expert]. congruence.
  - unfold fetch_insert. destruct (entries s !! k0) eqn:H0; [by split; [|exists e]|].
    destruct (pinned_evict budget ∅ (insert_entry bytes_of k0 ex s) k e) as [H1 H2]; [done| |].
    { cbn [entries insert_entry with_entries]. rewrite lookup_insert_ne; [done|]. intros <-. congruence. }
    unfold evict_to. destruct (evict_to_protecting _ _ _ _) as [[s1 ?] ?]. cbn [fst snd] in *.
    rewrite H2. split; [done|]. by exists e.
  - unfold batch_insert.
    destruct (pinned_evict budget (list_to_set (map (fun e => (layer, e)) missing)) (fold_left (batch_step bytes_of layer) loaded s) k e) as [H1 H2].
    { by rewrite batch_fold_pinned. }
    { by apply batch_fold_keeps. }
    destruct (evict_to_protecting _ _ _ _) as [[s1 ?] ?]. cbn [fst] in *. rewrite H2, batch_fold_pinned. split; [done|]. by exists e.
  - cbn [pinned entries pin_insert]. split; [set_solver|by exists e].
  - destruct (pinned_evict budget ∅ s k e Hp Hk) as [H1 H2]. unfold evict_to. rewrite H2. split; [done|by exists e].
Qed.

Lemma batch_keys layer missing k :
  k ∈ (list_to_set (map (fun e => (layer, e)) missing) : gset key) <-> fst k = layer /\ snd k ∈ missing.
Proof.
  destruct k as [l x]. rewrite elem_of_list_to_set, list_elem_of_fmap. cbn [fst snd]. split.
  - intros (y & [= -> ->] & Hy). done.
  - intros [-> Hx]. by exists x.
Qed.

(** C36: a pinned expert that is resident stays resident and unchanged whatever
    any thread does, and a loaded batch survives its own eviction: right after
    the insertion every expert of it that was loaded is resident, and the cache
    is within its budget or holds only pinned experts and the batch. *)
Theorem pins_and_batches_survive (s : State E) :
  (forall s' k e, cache_step bytes_of rank provider s s' -> k ∈ pinned s -> entries s !! k = Some e ->
     k ∈ pinned s' /\ exists e', entries s' !! k = Some e' /\ expert e' = expert e) /\
  (forall layer missing loaded budget, map fst loaded ⊆ missing ->
     let s' := batch_insert bytes_of rank layer missing loaded budget s in
     (forall x, x ∈ map fst loaded -> is_Some (entries s' !! (layer, x))) /\
     (st_bytes s' <= budget \/ forall k e, entries s' !! k = Some e -> k ∈ pinned s' \/ fst k = layer /\ snd k ∈ missing)).
Proof.
  split; [intros s' k e; apply pinned_step|].
  intros layer missing loaded budget Hsub. cbv zeta. unfold batch_insert.
  set (batch := list_to_set (map (fun e => (layer, e)) missing) : gset key).
  set (s0 := fold_left (batch_step bytes_of layer) loaded s).
  destruct (evict_protecting_min rank rank_perm rank_sorted budget batch s0) as (s1 & freed & -> & Hm).
  pose proof (evict_min_frame _ _ _ _ _ Hm) as (Hpin & _ & _ & _ & Hkeep & Hfin). split.
  - intros x Hx. rewrite Hkeep; [by apply batch_fold_resident|]. apply elem_of_union. right. apply batch_keys. split; [done|by apply Hsub].
  - destruct Hfin as [Hle|Hnone]; [by left|]. right. intros k e Hk.
    destruct (decide (k ∈ pinned s1 ∪ batch)) as [Hin|Hout].
    + apply elem_of_union in Hin as [?|?%batch_keys]; [by left|by right].
    + exfalso. by apply (Hnone k e).
Qed.
End CacheTheorems.

(** ** The predictor *)

Lemma push_all_spec n out l :
  NoDup (out ++ map fst l) -> (length out <= n)%nat ->
  NoDup (push_all n out l) /\ (length (push_all n out l) <= n)%nat /\
  forall x, x ∈ push_all n out l -> x ∈ out \/ x ∈ map fst l.
Proof.
  revert out. induction l as [|[e c] l IH]; intros out Hnd Hlen; cbn [push_all map fst] in *.
  { rewrite app_nil_r in Hnd. split_and!; [done|done|tauto]. }
  destruct (Nat.leb_spec n (length out)).
  { apply NoDup_app in Hnd as (Hnd & _ & _). split_and!; [done|done|tauto]. }
  destruct (IH (out ++ [e])) as (H1 & H2 & H3); [by rewrite <- app_assoc|rewrite length_app; simpl; lia|].
  split_and!; [done|done|]. intros x Hx. apply H3 in Hx. rewrite elem_of_app, list_elem_of_singleton in Hx.
  rewrite elem_of_cons. tauto.
Qed.

Lemma push_new_spec n out l :
  NoDup out -> (length out <= n)%nat ->
  NoDup (push_new n out l) /\ (length (push_new n out l) <= n)%nat /\
  forall x, x ∈ push_new n out l -> x ∈ out \/ x ∈ map fst l.
Proof.
  revert out. induction l as [|[e c] l IH]; intros out Hnd Hlen; cbn [push_new map fst] in *; [split_and!; tauto|].
  destruct (Nat.leb_spec n (length out)); [split_and!; [done|done|tauto]|].
  case_bool_decide as He.
  - destruct (IH out Hnd Hlen) as (H1 & H2 & H3). split_and!; [done|done|]. intros x Hx. apply H3 in Hx.
    rewrite elem_of_cons. tauto.
  - destruct (IH (out ++ [e])) as (H1 & H2 & H3); [|rewrite length_app; simpl; lia|].
    { apply NoDup_app. split_and!; [done|set_solver|apply NoDup_singleton]. }
    split_and!; [done|done|]. intros x Hx. apply H3 in Hx. rewrite elem_of_app, list_elem_of_singleton in Hx.
    rewrite elem_of_cons. tauto.
Qed.

Lemma bump_dom n m e x : is_Some (bump n m e !! x) <-> x = e \/ is_Some (m !! x).
Proof. unfold bump. rewrite lookup_insert_is_Some. destruct (decide (e = x)); intuition. Qed.

Lemma fold_bump_dom (l : list (Z * Z)) m x :
  is_Some (fold_left (fun score nc => bump (snd nc) score (fst nc)) l m !! x) -> x ∈ map fst l \/ is_Some (m !! x).
Proof.
  revert m. induction l as [|[e c] l IH]; intros m H; [by right|]. cbn [fold_left map fst] in *.
  apply IH in H as [H|H]; [left; by right|]. cbn [fst snd] in H. apply bump_dom in H as [->|H]; [left; left|by right].
Qed.

(** What has been seen after [from] on the way to layer [target]. *)
Definition followed (p : Predictor) (target : Z) (from : list Z) (x : Z) : Prop :=
  exists t e c, trans p !! target = Some t /\ e ∈ from /\ t !! e = Some c /\ is_Some (c !! x).

Lemma score_of_dom p target from x : is_Some (score_of p target from !! x) -> followed p target from x.
Proof.
  unfold score_of, followed. destruct (trans p !! target) as [t|]; [|rewrite lookup_empty; by intros [? ?]].
  assert (Hfold : forall l m, is_Some (fold_left (fun score e => match t !! e with
                     | None => score
                     | Some c => fold_left (fun score nc => bump (snd nc) score (fst nc)) (map_to_list c) score
                     end) l m !! x) -> is_Some (m !! x) \/ exists e c, e ∈ l /\ t !! e = Some c /\ is_Some (c !! x)).
  { induction l as [|e l IH]; intros m H; [by left|]. cbn [fold_left] in H. apply IH in H as [H|(e' & c & ? & ?)].
    - destruct (t !! e) as [c|] eqn:He; [|by left]. apply fold_bump_dom in H as [H|H]; [right|by left].
      exists e, c. split_and!; [left|done|]. apply list_elem_of_fmap in H as ([y v] & -> & Hy).
      apply elem_of_map_to_list in Hy. by exists v.
    - right. exists e', c. split; [by right|done]. }
  intros H. apply Hfold in H as [H|(e & c & ? & ? & ?)]; [rewrite lookup_empty in H; by destruct H|]. by exists t, e, c.
Qed.

Lemma sorted_keys (m : gmap Z Z) :
  NoDup (map fst (sort_by count_first (map_to_list m))) /\
  forall x, x ∈ map fst (sort_by count_first (map_to_list m)) <-> is_Some (m !! x).
Proof.
  rewrite sort_by_perm. split; [apply NoDup_fst_map_to_list|]. intros x. rewrite list_elem_of_fmap. split.
  - intros ([y v] & -> & Hy). apply elem_of_sort_by, elem_of_map_to_list in Hy. by exists v.
  - intros [v Hv]. exists (x, v). split; [done|]. by apply elem_of_sort_by, elem_of_map_to_list.
Qed.

(** A prediction names at most [topn] experts (none where [topn] is 0), each
    once, and only experts seen on the predicted layer: after one of the given
    experts, or at all. *)
Theorem predict_bounded p target from :
  (length (predict p target from) <= topn p)%nat /\ NoDup (predict p target from) /\
  forall x, x ∈ predict p target from ->
    followed p target from x \/ exists f, freq p !! target = Some f /\ is_Some (f !! x).
Proof.
  unfold predict. set (out := push_all _ _ _).
  destruct (sorted_keys (score_of p target from)) as [Hnd Hdom].
  destruct (push_all_spec (topn p) [] _ Hnd ltac:(simpl; lia)) as (H1 & H2 & H3). fold out in H1, H2, H3.
  assert (Hout : forall x, x ∈ out -> followed p target from x).
  { intros x Hx. apply score_of_dom, Hdom. destruct (H3 x Hx) as [?%not_elem_of_nil|?]; done. }
  destruct (length out <? topn p)%nat; [|split_and!; auto].
  destruct (freq p !! target) as [f|]; [|split_and!; auto].
  destruct (push_new_spec (topn p) out (sort_by count_first (map_to_list f)) H1 H2) as (H1' & H2' & H3').
  split_and!; [done|done|]. intros x Hx. destruct (H3' x Hx) as [?|Hf]; [left; by apply Hout|right].
  exists f. split; [done|]. by apply sorted_keys.
Qed.

(** ** The monitor *)

Lemma guard_constants :
  FLOOR_MIN = 2147483648 /\ HARD_SLACK = 3221225472 /\ MAX_BRAKE = 8589934592 /\ CAP_RECOVER_PER_TICK = 67108864.
Proof. split_and!; reflexivity. Qed.

(** What one tick guarantees, verdict by verdict. *)
Definition tick_post (lv : Levels) (g : Guard) (avail resident budget reserved : Z) (r : verdict * Z * Guard) : Prop :=
  let '(v, b, g') := r in
  let floor_now := braking_floor (hard_floor lv) (saturating_sub (prev_avail g) avail) in
  FLOOR_MIN <= b /\ prev_avail g' = avail /\
  match v with
  | SwapGuard => b <= Z.max FLOOR_MIN budget /\ b <= Z.max FLOOR_MIN (resident - resident / 4)
  | OomGuard =>
      avail < floor_now /\ learned_cap g' = b /\
      (b = FLOOR_MIN \/ avail + (resident - b) >= floor_now + HARD_SLACK)
  | Hold =>
      hard_floor lv <= floor_now <= avail /\
      learned_cap g' <= Z.max FLOOR_MIN (Z.min (learned_cap g) (supported_cap resident avail (hard_floor lv))) + CAP_RECOVER_PER_TICK /\
      (b <= Z.max FLOOR_MIN (learned_cap g' - reserved) \/
       SUSTAIN <= low_ticks g' /\ avail < danger_floor lv /\ b = Z.max FLOOR_MIN (resident - (danger_floor lv - avail)))
  end.

Lemma tick_ok lv g avail swap resident budget reserved :
  is_u64 (hard_floor lv) -> is_u64 (danger_floor lv) -> is_u64 avail -> is_u64 resident -> is_u64 budget -> is_u64 reserved ->
  0 <= low_ticks g ->
  tick_post lv g avail resident budget reserved (tick lv g avail swap resident budget reserved).
Proof.
  destruct guard_constants as (Hf & Hs & Hb & Hr). unfold in_u. intros Hhard Hdang Hav Hres Hbud Hrsv Hlow. unfold tick.
  set (paging := match swap with Some sw => _ | None => false end).
  assert (Hq : 0 <= resident / 4 <= resident) by (Z.div_mod_to_equations; lia).
  destruct paging; unfold tick_post.
  { cbn [prev_avail]. unfold saturating_sub. split_and!; lia. }
  set (drop := saturating_sub (prev_avail g) avail). assert (Hd : 0 <= drop) by (unfold drop, saturating_sub; lia).
  set (fl := braking_floor (hard_floor lv) drop).
  assert (Hfl : hard_floor lv <= fl < 2 ^ 64).
  { unfold fl, braking_floor, saturating_add64, saturating_mul64, BRAKE_TICKS. lia. }
  destruct (Z.ltb_spec avail fl) as [Hlt|Hge].
  { cbn [prev_avail learned_cap]. unfold saturating_sub, saturating_add64. split_and!; lia. }
  set (lt := if avail <? danger_floor lv then _ else 0). set (cap := Z.max (Z.min (learned_cap g) (supported_cap resident avail (hard_floor lv))) FLOOR_MIN).
  set (cap' := if (danger_floor lv <? avail) && (cap <=? saturating_add64 resident CAP_RECOVER_PER_TICK)
               then recover_cap cap (fill_target lv) else cap).
  assert (Hcap : cap' <= cap + CAP_RECOVER_PER_TICK).
  { unfold cap', recover_cap, saturating_add64. destruct (_ && _); lia. }
  cbn [prev_avail learned_cap low_ticks]. split_and!; [destruct (SUSTAIN <=? lt); lia|done|lia|lia|unfold cap in Hcap; lia|].
  destruct (Z.leb_spec SUSTAIN lt) as [Hsus|_]; [right|left; unfold saturating_sub; lia].
  unfold lt in Hsus. destruct (Z.ltb_spec avail (danger_floor lv)); [|unfold SUSTAIN in Hsus; lia].
  split_and!; [done|done|]. rewrite wrap_id by (unfold in_u; lia). unfold saturating_sub. lia.
Qed.

(** A tick never sets the budget under the floor of 2 GiB; it fires exactly
    when less is available than the floor the current fall asks for, and then the
    eviction brings the available memory back to that floor and the slack, or the
    cache down to its floor; a quiet tick raises the learned cap by at most one
    step above what memory supports and budgets within the cap less what is
    reserved, unless memory stayed under the danger line; and the cap stays
    within the plan as long as the cache does. *)
Theorem tick_safe lv g avail swap resident budget reserved :
  is_u64 (hard_floor lv) -> is_u64 (danger_floor lv) -> is_u64 avail -> is_u64 resident -> is_u64 budget -> is_u64 reserved ->
  0 <= low_ticks g ->
  tick_post lv g avail resident budget reserved (tick lv g avail swap resident budget reserved) /\
  (FLOOR_MIN <= fill_target lv -> resident <= fill_target lv -> learned_cap g <= fill_target lv ->
   learned_cap (snd (tick lv g avail swap resident budget reserved)) <= fill_target lv).
Proof.
  intros Hhard Hdang Hav Hres Hbud Hrsv Hlow. split; [by apply tick_ok|]. intros Hfill Hr Hc. unfold tick.
  destruct (match swap with Some sw => _ | None => false end); [done|].
  destruct (Z.ltb_spec avail (braking_floor (hard_floor lv) (saturating_sub (prev_avail g) avail))); cbn [snd learned_cap].
  - unfold in_u in *. destruct guard_constants as (Hf & Hs & _).
    set (fl := braking_floor _ _) in *. unfold saturating_sub, saturating_add64. lia.
  - unfold recover_cap. destruct (_ && _); lia.
Qed.

(** The learned cap can pass the plan: where the cache was over its target, as
    pins and a protected batch may leave it, the guard learns what remains. *)
Theorem guard_cap_exceeds_plan :
  let lv := levels_of (Z.shiftl 8 30) (Z.shiftl 6 30) (Z.shiftl 4 30) (Some 0) in
  let g := {| low_ticks := 0; prev_avail := Z.shiftl 3 30; learned_cap := Z.shiftl 8 30 |} in
  fill_target lv = Z.shiftl 8 30 /\ learned_cap (snd (tick lv g (Z.shiftl 3 30) (Some 0) (Z.shiftl 20 30) (Z.shiftl 8 30) 0)) = Z.shiftl 16 30.
Proof. split; vm_compute; reflexivity. Qed.

(** ** Reservations *)

Section ReserveTheorems.
Context {S : Type} (st_size : S -> Z) (evict : Z -> S -> S).

Lemma reserve_passes_spec passes need : forall readings aa (s : S) budget aa' rest s' budget',
  reserve_passes st_size evict passes need readings aa s budget = (aa', rest, s', budget') ->
  (aa' = aa \/ exists a, aa' = Some a /\ Some a ∈ readings) /\ (forall r, r ∈ rest -> r ∈ readings) /\
  (budget' = budget /\ s' = s \/ FLOOR_MIN <= budget').
Proof.
  induction passes as [|passes IH]; intros readings aa s budget aa' rest s' budget'; cbn [reserve_passes].
  { intros [= <- <- <- <-]. split_and!; auto. }
  destruct readings as [|[now|] readings]; cbn [head tail].
  - intros [= <- <- <- <-]. split_and!; auto.
  - destruct (need <=? now).
    { intros [= <- <- <- <-]. split_and!; [right; exists now; split; [done|left]|by right|by left]. }
    destruct (st_size s <=? _).
    { intros [= <- <- <- <-]. split_and!; [right; exists now; split; [done|left]|by right|by left]. }
    intros H. apply IH in H as (Ha & Hr & Hb). split_and!.
    + right. destruct Ha as [->|(a & -> & Ha)]; [exists now; split; [done|left]|exists a; split; [done|by right]].
    + intros r Hin. right. by apply Hr.
    + right. destruct Hb as [[-> _]|?]; [lia|done].
  - intros [= <- <- <- <-]. split_and!; [by left|by right|by left].
Qed.

(** A reservation that is granted is entered and was covered, room for the
    bytes above the hard floor having been read, unless the cache is unmanaged or
    nothing can be read; one that is refused is rolled back after a reading
    without that room; and the budget is only lowered to 2 GiB or more. *)
Theorem reserve_ram_decides nbytes fill hard readings reserved (s : S) budget :
  0 <= nbytes -> 0 <= reserved -> reserved + nbytes < 2 ^ 64 ->
  let '(ok, reserved', s', budget') := reserve_ram st_size evict nbytes fill hard readings reserved s budget in
  let need := saturating_add64 nbytes hard in
  (if ok then reserved' = reserved + nbytes /\
              (fill = 0 \/ head readings = None \/ head readings = Some None \/ exists a, Some a ∈ readings /\ need <= a)
   else reserved' = reserved /\ exists a, Some a ∈ readings /\ a < need) /\
  (budget' = budget /\ s' = s \/ FLOOR_MIN <= budget').
Proof.
  intros Hn Hr Hsum. unfold reserve_ram. rewrite wrap_id by (unfold in_u; lia).
  destruct (Z.eqb_spec fill 0) as [Hf|_]; [split; [split; auto|by left]|].
  destruct readings as [|[avail|] readings]; cbn [head tail]; [split; [split; auto|by left]| |split; [split; auto|by left]].
  set (need := saturating_add64 nbytes hard). cbv zeta. destruct (Z.leb_spec need avail) as [Hle|Hgt].
  { split; [split; [done|]|by left]. right; right; right. exists avail. split; [left|done]. }
  destruct (reserve_passes _ _ _ _ _ _ _ _) as [[[aa rest] s'] budget'] eqn:Hp.
  apply reserve_passes_spec in Hp as (Ha & Hrest & Hb).
  assert (Hfin : exists a, match head rest with Some (Some a) => Some a | _ => aa end = Some a /\ Some a ∈ Some avail :: readings).
  { assert (Haa : exists a, aa = Some a /\ Some a ∈ Some avail :: readings).
    { destruct Ha as [->|(a & -> & Ha)]; [exists avail; split; [done|left]|exists a; split; [done|by right]]. }
    destruct rest as [|[a|] rest]; cbn [head]; [exact Haa| |exact Haa]. exists a. split; [done|]. right. apply Hrest. left. }
  destruct Hfin as (a & -> & Hin). destruct (Z.leb_spec need a); (split; [|exact Hb]).
  - split; [done|]. right; right; right. by exists a.
  - split; [unfold saturating_sub; lia|by exists a].
Qed.
End ReserveTheorems.

(** A release that overlaps a reservation takes it back: of 3 bytes reserved and
    released and 5 reserved meanwhile, none is left on the counter. *)
Theorem release_drops_reservation :
  fst (fold_left raccess_step [ReserveAdd 3; ReleaseLoad 0; ReserveAdd 5; ReleaseStore 0 3] (0, ∅)) = 0 /\
  fst (fold_left raccess_step [ReserveAdd 3; ReleaseLoad 0; ReleaseStore 0 3; ReserveAdd 5] (0, ∅)) = 5.
Proof. split; reflexivity. Qed.

(** ** Counting *)

(** Pinning does not always leave the expert resident: where the budget has no
    room its own insertion evicts it. *)
Theorem pin_not_resident :
  let rank := sort_by (fun x y : key * Z * Z => snd (fst x) <=? snd (fst y)) in
  let '(r, s) := pin (E := Z) (Err := unit) (fun e => e) rank (fun _ _ => inr 100) 3 7 50 state_new in
  r = inr tt /\ (3, 7) ∈ pinned s /\ entries s !! (3, 7) = None.
Proof. vm_compute. split_and!; try reflexivity. Qed.

(** *** Witnesses *)

Definition by_score (x y : key * Z * Z) : bool := snd (fst x) <=? snd (fst y).
Definition rank_ex (l : list (key * Z * Z)) : list (key * Z * Z) := sort_by by_score l.

Lemma rank_ex_perm l : rank_ex l ≡ₚ l.
Proof. apply sort_by_perm. Qed.

Lemma rank_ex_sorted l : StronglySorted (fun x y => snd (fst x) <= snd (fst y)) (rank_ex l).
Proof.
  assert (H : StronglySorted (fun x y => by_score x y = true) (rank_ex l)).
  { apply sort_by_sorted; unfold by_score; intros *; rewrite ?Z.leb_le, ?Z.leb_gt; lia. }
  induction H as [|x l' Hs IH Hx]; constructor; [done|]. eapply Forall_impl; [exact Hx|].
  intros y Hy. by apply Z.leb_le in Hy.
Qed.

(** Experts are their sizes; the third of each layer cannot be read. *)
Definition provider_ex (layer eid : Z) : string + Z := if eid =? 2 then inl "unreadable"%string else inr (100 + eid).

Definition state_ex : State Z :=
  snd (fetch (fun e => e) rank_ex provider_ex 1 5 true 250
         (pin_insert (1, 3) (snd (fetch (fun e => e) rank_ex provider_ex 1 3 true 250
           (snd (fetch (fun e => e) rank_ex provider_ex 1 4 true 250 state_new)))))).

Lemma eviction_is_repeated_min_witness :
  (forall l, rank_ex l ≡ₚ l) /\
  exists s' freed, evict_to_protecting rank_ex 110 {[(1, 5)]} state_ex = (s', freed, st_bytes s') /\
    evict_min 110 {[(1, 5)]} state_ex freed s'.
Proof.
  split; [exact rank_ex_perm|].
  destruct (eviction_is_repeated_min rank_ex rank_ex_perm rank_ex_sorted 110 {[(1, 5)]} state_ex)
    as (s' & freed & H1 & H2 & _).
  exists s', freed. split; [exact H1|exact H2].
Defined.

Lemma cache_transparent_witness :
  cache_run (fun e => e) rank_ex provider_ex (snd (fetch_lookup (1, 3) true state_new)) /\
  fst (fetch (fun e => e) rank_ex provider_ex 1 2 true 250 (snd (fetch_lookup (1, 3) true state_new))) = inl "unreadable"%string.
Proof.
  assert (H : cache_run (fun e => e) rank_ex provider_ex (snd (fetch_lookup (1, 3) true state_new))).
  { eapply run_next; [apply run_new|]. apply step_lookup. }
  split; [exact H|].
  exact (proj2 (proj2 (proj2 (cache_transparent (fun e => e) rank_ex provider_ex rank_ex_perm rank_ex_sorted _ H))) 1 2 true 250).
Defined.

Lemma pins_and_batches_survive_witness :
  (1, 3) ∈ pinned state_ex /\
  is_Some (entries (batch_insert (fun e => e) rank_ex 1 [6; 7] [(6, 106); (7, 107)] 150 state_ex) !! (1, 7)).
Proof.
  split; [apply (bool_decide_unpack _); vm_compute; exact I|].
  destruct (pins_and_batches_survive (fun e => e) rank_ex provider_ex rank_ex_perm rank_ex_sorted state_ex) as [_ H].
  apply (proj1 (H 1 [6; 7] [(6, 106); (7, 107)] 150 ltac:(done)) 7). right. left.
Defined.

Definition predictor_ex : Predictor :=
  snd (observe_and_predict (snd (observe_and_predict (snd (observe_and_predict (predictor_new 3) 4 [1; 2])) 5 [7; 8])) 4 [1; 9]).

Lemma predict_bounded_witness :
  7 ∈ predict predictor_ex 5 [1] /\
  (followed predictor_ex 5 [1] 7 \/ exists f, freq predictor_ex !! 5 = Some f /\ is_Some (f !! 7)).
Proof.
  assert (H : 7 ∈ predict predictor_ex 5 [1]) by (apply (bool_decide_unpack _); vm_compute; exact I).
  split; [exact H|]. exact (proj2 (proj2 (predict_bounded predictor_ex 5 [1])) 7 H).
Defined.

Lemma tick_safe_witness :
  let lv := levels_of (Z.shiftl 50 30) (Z.shiftl 6 30) (Z.shiftl 4 30) (Some 0) in
  let g := guard_new lv (Some (Z.shiftl 60 30)) in
  FLOOR_MIN <= fill_target lv /\ learned_cap g <= fill_target lv /\
  tick_post lv g (Z.shiftl 3 30) (Z.shiftl 40 30) (Z.shiftl 50 30) 0
    (tick lv g (Z.shiftl 3 30) (Some 0) (Z.shiftl 40 30) (Z.shiftl 50 30) 0).
Proof.
  intros lv g. split; [vm_compute; congruence|]. split; [vm_compute; congruence|].
  apply (tick_safe lv g (Z.shiftl 3 30) (Some 0) (Z.shiftl 40 30) (Z.shiftl 50 30) 0);
    try (apply in_u_dec_spec; reflexivity). vm_compute. congruence.
Defined.

Lemma reserve_ram_decides_witness :
  reserve_ram (fun s => s) (fun target _ => target) (Z.shiftl 10 30) (Z.shiftl 50 30) (Z.shiftl 4 30)
    [Some (Z.shiftl 5 30); Some (Z.shiftl 5 30); Some (Z.shiftl 13 30); Some (Z.shiftl 15 30)] 0 (Z.shiftl 30 30) (Z.shiftl 50 30) =
  (true, Z.shiftl 10 30, Z.shiftl 20 30, Z.shiftl 20 30) /\
  (exists a, Some a ∈ [Some (Z.shiftl 5 30); Some (Z.shiftl 5 30); Some (Z.shiftl 13 30); Some (Z.shiftl 15 30)] /\ Z.shiftl 14 30 <= a).
Proof.
  assert (Hc : reserve_ram (fun s => s) (fun target _ => target) (Z.shiftl 10 30) (Z.shiftl 50 30) (Z.shiftl 4 30)
    [Some (Z.shiftl 5 30); Some (Z.shiftl 5 30); Some (Z.shiftl 13 30); Some (Z.shiftl 15 30)] 0 (Z.shiftl 30 30) (Z.shiftl 50 30) =
    (true, Z.shiftl 10 30, Z.shiftl 20 30, Z.shiftl 20 30)) by (vm_compute; reflexivity).
  split; [exact Hc|].
  pose proof (reserve_ram_decides (fun s => s) (fun target _ => target) (Z.shiftl 10 30) (Z.shiftl 50 30) (Z.shiftl 4 30)
    [Some (Z.shiftl 5 30); Some (Z.shiftl 5 30); Some (Z.shiftl 13 30); Some (Z.shiftl 15 30)] 0 (Z.shiftl 30 30) (Z.shiftl 50 30)
    ltac:(vm_compute; congruence) ltac:(lia) ltac:(vm_compute; reflexivity)) as H.
  rewrite Hc in H. destruct H as [[_ H] _]. destruct H as [H|[H|[H|H]]]; [vm_compute in H; discriminate H|discriminate H|discriminate H|].
  destruct H as (a & Ha & Hle). exists a. split; [exact Ha|]. vm_compute in Hle |- *. exact Hle.
Defined.
