(* ===== verification/Chunk.v ===== *)
(** * Expert chunks ([crates/colibri-engine/src/chunk.rs])

    The plan that cuts an expert's three weight matrices into bands of rows, and
    the local source that copies a band out of the packed buffer.  [usize] wraps
    at 64 bits; a slice of [u8] is a [list Z].  [Expert] and [QTensor] are other
    files' records, of which only the fields read here are kept.  [None] is a
    panic, [inl] an [io::Error]. *)

From S2P Require Import Prelude Usage.
Local Open Scope Z_scope.

Definition DEFAULT_CHUNK_BYTES : Z := Z.shiftl 2 20.

Inductive ExpertMatrix := Gate | Up | Down.
#[export] Instance ExpertMatrix_eq_dec : EqDecision ExpertMatrix.
Proof. solve_decision. Defined.

Record ChunkDesc := {
  layer : Z; eid : Z; matrix : ExpertMatrix;
  o_start : Z; o_count : Z; byte_off : Z; byte_len : Z
}.

(** The fields of [QTensor] used here. *)
Record QTensor := { fmt_code : Z; q4 : list Z; o : Z; i : Z }.

Record Expert := { gate : QTensor; up : QTensor; down : QTensor }.

Definition row_bytes (fmt i : Z) : Z :=
  match fmt with
  | 0 => u64 (i * 4)
  | 1 | 4 => i
  | 3 => div_ceil i 4
  | _ => 0
  end.

(** The loop of [plan_matrix_chunks]: [fuel] bounds the bands still to cut. *)
Fixpoint plan_bands (fuel : nat) (layer eid : Z) (m : ExpertMatrix) (o rb band_rows o0 : Z) : option (list ChunkDesc) :=
  if o0 <? o then
    match fuel with
    | O => None
    | S fuel =>
        let cnt := Z.min band_rows (o - o0) in
        let* out := plan_bands fuel layer eid m o rb band_rows (u64 (o0 + cnt)) in
        Some ({| layer := layer; eid := eid; matrix := m; o_start := o0; o_count := cnt;
                 byte_off := u64 (o0 * rb); byte_len := u64 (cnt * rb) |} :: out)
    end
  else Some [].

Definition plan_matrix_chunks (layer eid : Z) (m : ExpertMatrix) (o i fmt target_bytes : Z) : option (list ChunkDesc) :=
  let rb := row_bytes fmt i in
  if (rb =? 0) || (o =? 0) then Some []
  else plan_bands (Z.to_nat o) layer eid m o rb (Z.max (target_bytes / rb) 1) 0.

(** [t.o as usize] is the sign extension of an [i32]. *)
Definition plan_tensor (layer eid : Z) (m : ExpertMatrix) (t : QTensor) (target_bytes : Z) : option (list ChunkDesc) :=
  plan_matrix_chunks layer eid m (u64 (o t)) (u64 (i t)) (fmt_code t) target_bytes.

Definition plan_expert_chunks (layer eid : Z) (ex : Expert) (target_bytes : Z) : option (list ChunkDesc) :=
  let* v := plan_tensor layer eid Gate (gate ex) target_bytes in
  let* u := plan_tensor layer eid Up (up ex) target_bytes in
  let* d := plan_tensor layer eid Down (down ex) target_bytes in
  Some (v ++ u ++ d).

Inductive ChunkError := Unsupported (fmt : Z) | OutOfRange.

Definition tensor_of (ex : Expert) (m : ExpertMatrix) : QTensor :=
  match m with Gate => gate ex | Up => up ex | Down => down ex end.

Definition matrix_weight_bytes (ex : Expert) (m : ExpertMatrix) : ChunkError + list Z :=
  let t := tensor_of ex m in
  match fmt_code t with
  | 3 | 4 => inr (q4 t)
  | other => inl (Unsupported other)
  end.

(** [fetch_into] of the local source: the buffer's new contents.  The slice
    [src[off..end]] panics where the wrapped end is below the start. *)
Definition fetch_into (ex : Expert) (d : ChunkDesc) (dst : list Z) : option (ChunkError + list Z) :=
  match matrix_weight_bytes ex (matrix d) with
  | inl e => Some (inl e)
  | inr src =>
      let end_ := u64 (byte_off d + byte_len d) in
      if (Z.of_nat (length src) <? end_) || negb (Z.of_nat (length dst) =? byte_len d) then Some (inl OutOfRange)
      else if end_ <? byte_off d then None
      else Some (inr (take (Z.to_nat (end_ - byte_off d)) (drop (Z.to_nat (byte_off d)) src)))
  end.

(** [chunk_bytes]: [var] is the value of [COLI_EXPERT_CHUNK_BYTES], if it is set. *)
Definition chunk_bytes (var : option (list Z)) : Z :=
  Z.max (default DEFAULT_CHUNK_BYTES (let* v := var in parse_u64 v)) (Z.shiftl 64 10).

Definition chunk_enabled (var : option (list Z)) : bool := bool_decide (var = Some [49]).

(** ** The bands tile the matrix *)

(** Fetching each chunk of [ds] into a buffer of its length, one after the other. *)
Fixpoint fetch_all (ex : Expert) (ds : list ChunkDesc) : option (list Z) :=
  match ds with
  | [] => Some []
  | d :: ds =>
      match fetch_into ex d (replicate (Z.to_nat (byte_len d)) 0) with
      | Some (inr bs) => let* rest := fetch_all ex ds in Some (bs ++ rest)
      | _ => None
      end
  end.

(** The rows [o0 .. o) of a matrix in bands of at most [target] bytes or one row. *)
Inductive bands (ly e : Z) (m : ExpertMatrix) (rb target o : Z) : Z -> list ChunkDesc -> Prop :=
  | bands_nil : bands ly e m rb target o o []
  | bands_cons o0 d ds :
      layer d = ly -> eid d = e -> matrix d = m -> o_start d = o0 -> 1 <= o_count d ->
      byte_off d = o0 * rb -> byte_len d = o_count d * rb -> byte_len d <= Z.max target rb ->
      bands ly e m rb target o (o0 + o_count d) ds -> bands ly e m rb target o o0 (d :: ds).

Lemma plan_bands_bands ly e m o rb target fuel : forall o0,
  0 < rb -> 0 <= target -> 0 <= o0 <= o -> o * rb < 2 ^ 64 -> (Z.to_nat (o - o0) <= fuel)%nat ->
  exists ds, plan_bands fuel ly e m o rb (Z.max (target / rb) 1) o0 = Some ds /\ bands ly e m rb target o o0 ds.
Proof.
  induction fuel as [|fuel IH]; intros o0 Hrb Ht Ho Hsz Hf; cbn [plan_bands].
  { rewrite (proj2 (Z.ltb_ge o0 o)) by lia. exists []. split; [done|]. replace o0 with o by lia. constructor. }
  destruct (Z.ltb_spec o0 o); [|exists []; split; [done|]; replace o0 with o by lia; constructor].
  set (cnt := Z.min (Z.max (target / rb) 1) (o - o0)). assert (Hcnt : 1 <= cnt <= o - o0) by lia.
  assert (Hcb : cnt * rb <= Z.max target rb).
  { assert (target / rb * rb <= target) by (rewrite Z.mul_comm; by apply Z.mul_div_le). nia. }
  rewrite !wrap_id by (unfold in_u; nia).
  destruct (IH (o0 + cnt)) as (ds & -> & Hds); [lia..|]. eexists. split; [done|].
  constructor; cbn; done || lia.
Qed.

(** Fetched from a buffer of [o] rows, the bands from [o0] on are its tail. *)
Lemma bands_fetch ex ly e m rb target o o0 ds :
  bands ly e m rb target o o0 ds -> 0 < rb -> 0 <= o0 -> o * rb < 2 ^ 64 ->
  matrix_weight_bytes ex m = inr (q4 (tensor_of ex m)) -> Z.of_nat (length (q4 (tensor_of ex m))) = o * rb ->
  o0 <= o /\ fetch_all ex ds = Some (drop (Z.to_nat (o0 * rb)) (q4 (tensor_of ex m))).
Proof.
  intros Hds Hrb Ho Hsz Hw Hlen. set (src := q4 (tensor_of ex m)) in *.
  induction Hds as [|o0 d ds Hly He Hm Hst Hc Hoff Hbl _ Hds IH]; cbn [fetch_all].
  { split; [lia|]. by rewrite drop_ge by lia. }
  destruct IH as [Hle ->]; [lia|]. split; [lia|].
  unfold fetch_into. rewrite Hm, Hw. fold src. rewrite wrap_id by (unfold in_u; nia).
  rewrite (proj2 (Z.ltb_ge (Z.of_nat (length src)) _)) by nia.
  rewrite length_replicate, (proj2 (Z.eqb_eq (Z.of_nat (Z.to_nat (byte_len d))) (byte_len d))) by nia.
  rewrite (proj2 (Z.ltb_ge (byte_off d + byte_len d) _)) by nia. cbn [orb negb mbind option_bind]. f_equal.
  replace (byte_off d + byte_len d - byte_off d) with (byte_len d) by lia.
  replace (Z.to_nat ((o0 + o_count d) * rb)) with (Z.to_nat (byte_off d) + Z.to_nat (byte_len d))%nat by nia.
  rewrite <- drop_drop, take_drop. by rewrite Hoff.
Qed.

(** A packed tensor: its buffer has a row of [row_bytes] for each output. *)
Definition packed (t : QTensor) : Prop :=
  (fmt_code t = 3 \/ fmt_code t = 4) /\ 0 <= o t < 2 ^ 31 /\ 0 <= i t < 2 ^ 31 /\
  Z.of_nat (length (q4 t)) = o t * row_bytes (fmt_code t) (i t).

Definition packed_expert (ex : Expert) : Prop := packed (gate ex) /\ packed (up ex) /\ packed (down ex).

(** The chunks of a plan that belong to one matrix. *)
Definition chunks_of (m : ExpertMatrix) (ds : list ChunkDesc) : list ChunkDesc :=
  List.filter (fun d => bool_decide (matrix d = m)) ds.

Lemma row_bytes_bound fmt i : fmt = 3 \/ fmt = 4 -> 0 <= i < 2 ^ 31 -> 0 <= row_bytes fmt i < 2 ^ 31.
Proof. intros [-> | ->] Hi; cbn [row_bytes]; [|done]. unfold div_ceil. case_match; Z.div_mod_to_equations; lia. Qed.

(** A plan for [t] as matrix [m]: empty where the tensor has no bytes. *)
Definition plans (ly e : Z) (m : ExpertMatrix) (t : QTensor) (target : Z) (ds : list ChunkDesc) : Prop :=
  let rb := row_bytes (fmt_code t) (i t) in
  ds = [] /\ q4 t = [] \/ 0 < rb /\ bands ly e m rb target (o t) 0 ds.

Lemma plan_tensor_plans ly e m t target :
  packed t -> 0 <= target -> exists ds, plan_tensor ly e m t target = Some ds /\ plans ly e m t target ds.
Proof.
  intros (Hf & Ho & Hi & Hlen) Ht. pose proof (row_bytes_bound _ _ Hf Hi).
  unfold plan_tensor, plan_matrix_chunks, plans. rewrite !wrap_id by (unfold in_u; lia).
  destruct (Z.eqb_spec (row_bytes (fmt_code t) (i t)) 0) as [H0|]; cbn [orb].
  { exists []. split; [done|]. left. split; [done|]. apply length_zero_iff_nil. rewrite H0 in Hlen. lia. }
  destruct (Z.eqb_spec (o t) 0) as [H0|].
  { exists []. split; [done|]. left. split; [done|]. apply length_zero_iff_nil. rewrite H0 in Hlen. lia. }
  destruct (plan_bands_bands ly e m (o t) (row_bytes (fmt_code t) (i t)) target (Z.to_nat (o t)) 0) as (ds & -> & Hds); [nia..|].
  exists ds. split; [done|]. right. split; [lia|done].
Qed.

Lemma bands_matrix ly e m rb target o o0 ds : bands ly e m rb target o o0 ds -> Forall (fun d => matrix d = m) ds.
Proof. induction 1; constructor; done. Qed.

Lemma chunks_of_plan ly e m t target ds m' :
  plans ly e m t target ds -> chunks_of m' ds = if decide (m' = m) then ds else [].
Proof.
  intros Hp. assert (Hm : Forall (fun d => matrix d = m) ds).
  { destruct Hp as [[-> _]|[_ Hp]]; [constructor|]. by eapply bands_matrix. }
  clear Hp. induction Hm as [|d ds Hd Hds IH]; unfold chunks_of in *; cbn [List.filter]; [by case_decide|].
  rewrite Hd, IH. by destruct m', m.
Qed.

Lemma plans_fetch ex ly e m target ds :
  plans ly e m (tensor_of ex m) target ds -> packed (tensor_of ex m) ->
  fetch_all ex ds = Some (q4 (tensor_of ex m)).
Proof.
  intros [[-> ->]|[Hrb Hds]] (Hf & Ho & Hi & Hlen); [done|]. pose proof (row_bytes_bound _ _ Hf Hi).
  destruct (bands_fetch ex _ _ _ _ _ _ _ _ Hds Hrb) as [_ ->]; [lia|nia| |done|done].
  unfold matrix_weight_bytes. by destruct Hf as [-> | ->].
Qed.

Lemma chunks_of_app m d1 d2 : chunks_of m (d1 ++ d2) = chunks_of m d1 ++ chunks_of m d2.
Proof. apply List.filter_app. Qed.

(** An expert is planned whole, every chunk a contiguous band of at most the
    target size (or one row), and fetching the chunks of a matrix one after the
    other gives back its packed buffer byte for byte. *)
Theorem chunks_reassemble ly e ex target :
  packed_expert ex -> 0 <= target ->
  exists ds, plan_expert_chunks ly e ex target = Some ds /\
    forall m, plans ly e m (tensor_of ex m) target (chunks_of m ds) /\
      fetch_all ex (chunks_of m ds) = Some (q4 (tensor_of ex m)).
Proof.
  intros (Hg & Hu & Hd) Ht. unfold plan_expert_chunks.
  destruct (plan_tensor_plans ly e Gate _ _ Hg Ht) as (dg & -> & Pg).
  destruct (plan_tensor_plans ly e Up _ _ Hu Ht) as (du & -> & Pu).
  destruct (plan_tensor_plans ly e Down _ _ Hd Ht) as (dd & -> & Pd).
  exists (dg ++ du ++ dd). split; [done|]. intros m.
  rewrite !chunks_of_app, (chunks_of_plan _ _ _ _ _ _ m Pg), (chunks_of_plan _ _ _ _ _ _ m Pu), (chunks_of_plan _ _ _ _ _ _ m Pd).
  destruct m; repeat (rewrite decide_True by done || rewrite decide_False by done); rewrite ?app_nil_r; cbn [app];
    (split; [done|]); by eapply plans_fetch.
Qed.

Definition expert_ex : Expert :=
  {| gate := {| fmt_code := 3; q4 := [1; 2; 3; 4; 5; 6]; o := 3; i := 5 |};
     up := {| fmt_code := 4; q4 := [10; 20; 30; 40; 50]; o := 5; i := 1 |};
     down := {| fmt_code := 4; q4 := []; o := 0; i := 9 |} |}.

Lemma chunks_reassemble_witness :
  packed_expert expert_ex /\
  exists ds, plan_expert_chunks 7 1 expert_ex 4 = Some ds /\
    forall m, plans 7 1 m (tensor_of expert_ex m) 4 (chunks_of m ds) /\
      fetch_all expert_ex (chunks_of m ds) = Some (q4 (tensor_of expert_ex m)).
Proof.
  assert (H : packed_expert expert_ex) 
    by (unfold packed_expert, packed; split_and!; first [left; reflexivity | right; reflexivity | vm_compute; congruence]).
  split; [exact H|]. exact (chunks_reassemble 7 1 expert_ex 4 H ltac:(lia)).
Defined.

Example plan_ex :
  (fun ds => map (fun d => (o_start d, o_count d, byte_off d, byte_len d)) ds) <$> plan_expert_chunks 7 1 expert_ex 4 =
  Some [(0, 2, 0, 4); (2, 1, 4, 2); (0, 4, 0, 4); (4, 1, 4, 1)].
Proof. vm_compute. reflexivity. Qed.
