(* ===== verification/DType.v ===== *)
(** * Element types ([crates/colibri-core/src/dtype.rs])

    The on-disk element types and their decoding to [f32].  The bf16 and f16
    conversions move bits: a bit pattern of [u16] or [u32] is a [Z].  The float8
    decoders compute in [f32], binary32 with rounding to nearest even of
    [SpecFloat]; [powi] is repeated squaring, inverted at the end for a negative
    exponent, as the compiler's runtime computes it. *)

From Stdlib Require Import SpecFloat String.
From S2P Require Import Prelude.
Local Open Scope Z_scope.

Inductive DType := Bf16 | F16 | F32 | U8 | F8E4M3 | F8E5M2 | I64.

Definition parse_dtype (s : string) : option DType :=
  match s with
  | "BF16" => Some Bf16
  | "F16" => Some F16
  | "F32" => Some F32
  | "U8" | "I8" | "F8_E8M0" => Some U8
  | "F8_E4M3" | "F8_E4M3FN" => Some F8E4M3
  | "F8_E5M2" => Some F8E5M2
  | "I64" => Some I64
  | _ => None
  end%string.

Definition safetensors_str (d : DType) : string :=
  match d with
  | Bf16 => "BF16" | F16 => "F16" | F32 => "F32" | U8 => "U8"
  | F8E4M3 => "F8_E4M3" | F8E5M2 => "F8_E5M2" | I64 => "I64"
  end%string.

Definition elem_size (d : DType) : Z :=
  match d with F32 => 4 | Bf16 | F16 => 2 | U8 | F8E4M3 | F8E5M2 => 1 | I64 => 8 end.

Definition code (d : DType) : Z :=
  match d with Bf16 => 0 | F16 => 1 | F32 => 2 | U8 => 3 | F8E4M3 => 4 | F8E5M2 => 5 | I64 => 6 end.

(** ** Arithmetic of [f32] *)

Definition f32_of_Z (z : Z) : spec_float := binary_normalize 24 128 z 0 false.
Definition f32_mul := SFmul 24 128.
Definition f32_add := SFadd 24 128.
Definition f32_div := SFdiv 24 128.
Definition f32_one : spec_float := f32_of_Z 1.

(** [f32::powi]. *)
Fixpoint powi_loop (fuel : nat) (a r : spec_float) (b : Z) : spec_float :=
  let r := if Z.odd b then f32_mul r a else r in
  let b := Z.quot b 2 in
  match fuel with
  | S fuel => if b =? 0 then r else powi_loop fuel (f32_mul a a) r b
  | O => r
  end.
Definition powi (a : spec_float) (b : Z) : spec_float :=
  let r := powi_loop 32 a f32_one b in
  if b <? 0 then f32_div f32_one r else r.

(** ** Decoders *)

Definition f8e4m3_to_f32 (b : Z) : spec_float :=
  let sign := if negb (Z.land b 128 =? 0) then SFopp f32_one else f32_one in
  let exp := Z.land (Z.shiftr b 3) 15 in
  let man := f32_of_Z (Z.land b 7) in
  if exp =? 0 then f32_mul (f32_mul sign man) (f32_div f32_one (f32_of_Z 512))
  else if (exp =? 15) && SFeqb man (f32_of_Z 7) then S754_nan
  else f32_mul (f32_mul sign (f32_add f32_one (f32_div man (f32_of_Z 8)))) (powi (f32_of_Z 2) (exp - 7)).

Definition f8e8m0_to_f32 (b : Z) : spec_float :=
  if b =? 255 then S754_nan else powi (f32_of_Z 2) (b - 127).

Definition f8e5m2_to_f32 (b : Z) : spec_float :=
  let sign := if negb (Z.land b 128 =? 0) then SFopp f32_one else f32_one in
  let exp := Z.land (Z.shiftr b 2) 31 in
  let man := f32_of_Z (Z.land b 3) in
  if exp =? 0 then
    f32_mul (f32_mul (f32_mul sign man) (f32_div f32_one (f32_of_Z 4))) (powi (f32_of_Z 2) (-14))
  else if exp =? 31 then
    if SFeqb man (f32_of_Z 0) then f32_mul sign (S754_infinity false) else S754_nan
  else f32_mul (f32_mul sign (f32_add f32_one (f32_div man (f32_of_Z 4)))) (powi (f32_of_Z 2) (exp - 15)).

(** Bits of an [f32]. *)
Definition bf16_to_f32 (h : Z) : Z := u32 (Z.shiftl h 16).

Definition is_nan_bits (bits : Z) : bool := 2139095040 <? Z.land bits 2147483647.

Definition f32_to_bf16 (bits : Z) : Z :=
  if is_nan_bits bits then Z.lor (u16 (Z.shiftr bits 16)) 64
  else
    let rounded := u32 (u32 (bits + 32767) + Z.land (Z.shiftr bits 16) 1) in
    u16 (Z.shiftr rounded 16).

(** The loop that normalizes a subnormal: [(exp, man)]. *)
Fixpoint f16_normalize (fuel : nat) (exp man : Z) : option (Z * Z) :=
  if Z.land man 1024 =? 0 then
    match fuel with
    | O => None
    | S fuel => f16_normalize fuel (u32 (exp - 1)) (u32 (Z.shiftl man 1))
    end
  else Some (exp, man).

Definition f16_to_f32 (h : Z) : option Z :=
  let sign := u32 (Z.shiftl (Z.land h 32768) 16) in
  let exp := Z.land (Z.shiftr h 10) 31 in
  let man := Z.land h 1023 in
  if exp =? 0 then
    if man =? 0 then Some sign
    else
      let* (exp, man) := f16_normalize 10 (127 - 15 + 1) man in
      let man := Z.land man 1023 in
      Some (Z.lor (Z.lor sign (u32 (Z.shiftl exp 23))) (u32 (Z.shiftl man 13)))
  else if exp =? 31 then Some (Z.lor (Z.lor sign 2139095040) (u32 (Z.shiftl man 13)))
  else Some (Z.lor (Z.lor sign (u32 (Z.shiftl (u32 (u32 (exp - 15) + 127)) 23))) (u32 (Z.shiftl man 13))).

(** ** What the decoders compute *)

(** [m1 * 2^e1 = m2 * 2^e2]. *)
Definition same_dyadic (m1 e1 m2 e2 : Z) : bool :=
  let e := Z.min e1 e2 in m1 * 2 ^ (e1 - e) =? m2 * 2 ^ (e2 - e).

(** [v] is the number (-1)^s * m * 2^e, exactly. *)
Definition sf_is (v : spec_float) (s : bool) (m e : Z) : bool :=
  match v with
  | S754_zero s' => Bool.eqb s s' && (m =? 0)
  | S754_finite s' m' e' => Bool.eqb s s' && same_dyadic (Z.pos m') e' m e
  | _ => false
  end.

Definition is_nan (v : spec_float) : bool := match v with S754_nan => true | _ => false end.

(** The [f32] of these bits is that number. *)
Definition f32_is (bits : Z) (s : bool) (m e : Z) : bool :=
  let ex := Z.land (Z.shiftr bits 23) 255 in
  let mt := Z.land bits 8388607 in
  negb (ex =? 255) && Bool.eqb s (Z.testbit bits 31) &&
  same_dyadic (if ex =? 0 then mt else 8388608 + mt) (Z.max ex 1 - 150) m e.

(** Significand and exponent of a format with [wm] bits of mantissa, [we] of
    exponent and this bias; the exponent 0 holds the subnormals. *)
Definition exponent (wm we b : Z) : Z := Z.land (Z.shiftr b wm) (2 ^ we - 1).
Definition mantissa (wm b : Z) : Z := Z.land b (2 ^ wm - 1).
Definition significand (wm we b : Z) : Z :=
  if exponent wm we b =? 0 then mantissa wm b else 2 ^ wm + mantissa wm b.
Definition scale (wm we bias b : Z) : Z := Z.max (exponent wm we b) 1 - bias - wm.

Definition e4m3_spec (b : Z) : bool :=
  let v := f8e4m3_to_f32 b in
  if Z.land b 127 =? 127 then is_nan v
  else sf_is v (Z.testbit b 7) (significand 3 4 b) (scale 3 4 7 b).

Definition e5m2_spec (b : Z) : bool :=
  let v := f8e5m2_to_f32 b in
  if exponent 2 5 b =? 31 then
    match v with
    | S754_infinity s => (mantissa 2 b =? 0) && Bool.eqb s (Z.testbit b 7)
    | S754_nan => negb (mantissa 2 b =? 0)
    | _ => false
    end
  else sf_is v (Z.testbit b 7) (significand 2 5 b) (scale 2 5 15 b).

Definition e8m0_spec (b : Z) : bool :=
  if b =? 255 then is_nan (f8e8m0_to_f32 b) else sf_is (f8e8m0_to_f32 b) false 1 (b - 127).

(** A NaN keeps its payload, the infinities are the infinities. *)
Definition f16_spec (h : Z) : bool :=
  match f16_to_f32 h with
  | None => false
  | Some bits =>
      if exponent 10 5 h =? 31
      then bits =? (if Z.testbit h 15 then 2 ^ 31 else 0) + 2139095040 + mantissa 10 h * 2 ^ 13
      else f32_is bits (Z.testbit h 15) (significand 10 5 h) (scale 10 5 15 h)
  end.

(** [f] on [z], ..., [z + n - 1]. *)
Fixpoint all_from (f : Z -> bool) (n : nat) (z : Z) : bool :=
  match n with O => true | S n => f z && all_from f n (z + 1) end.

Lemma all_from_spec f n z0 z : all_from f n z0 = true -> z0 <= z < z0 + Z.of_nat n -> f z = true.
Proof.
  revert z0. induction n as [|n IH]; intros z0 H Hz; [lia|]. cbn [all_from] in H.
  apply andb_true_iff in H as [H0 H]. destruct (decide (z = z0)) as [->|]; [done|]. apply (IH (z0 + 1)); [done|lia].
Qed.

Lemma e4m3_all : all_from e4m3_spec 256 0 = true. Proof. vm_compute. reflexivity. Qed.
Lemma e5m2_all : all_from e5m2_spec 256 0 = true. Proof. vm_compute. reflexivity. Qed.
Lemma e8m0_all : all_from e8m0_spec 256 0 = true. Proof. vm_compute. reflexivity. Qed.

(** An assembled [f32] and its fields. *)
Lemma lor_fields s e m :
  0 <= s <= 1 -> 0 <= e < 256 -> 0 <= m < 2 ^ 23 ->
  Z.lor (Z.lor (s * 2 ^ 31) (e * 2 ^ 23)) m = s * 2 ^ 31 + e * 2 ^ 23 + m.
Proof.
  intros Hs He Hm. rewrite <- Z.lor_assoc.
  rewrite <- (Z.shiftl_mul_pow2 e), (lor_shiftl_add e m 23) by (done || unfold in_u; lia).
  rewrite <- (Z.shiftl_mul_pow2 s), lor_shiftl_add by (done || unfold in_u; lia).
  rewrite !Z.shiftl_mul_pow2 by done. lia.
Qed.

Lemma fields_is s e m s' m' e' :
  0 <= s <= 1 -> 0 <= e < 255 -> 0 <= m < 2 ^ 23 -> s' = (s =? 1) ->
  same_dyadic (if e =? 0 then m else 8388608 + m) (Z.max e 1 - 150) m' e' = true ->
  f32_is (s * 2 ^ 31 + e * 2 ^ 23 + m) s' m' e' = true.
Proof.
  intros Hs He Hm -> Hsame. unfold f32_is.
  assert (H8 : forall z, Z.land z 255 = z mod 2 ^ 8) by (intros z; apply (land_ones z 8); lia).
  assert (H23 : forall z, Z.land z 8388607 = z mod 2 ^ 23) by (intros z; apply (land_ones z 23); lia).
  rewrite H8, H23, Z.shiftr_div_pow2, Z.testbit_eqb by lia.
  rewrite <- (Z.div_unique (s * 2 ^ 31 + e * 2 ^ 23 + m) (2 ^ 23) (s * 2 ^ 8 + e) m) by lia.
  rewrite <- (Z.div_unique (s * 2 ^ 31 + e * 2 ^ 23 + m) (2 ^ 31) s (e * 2 ^ 23 + m)) by lia.
  rewrite <- (Z.mod_unique (s * 2 ^ 31 + e * 2 ^ 23 + m) (2 ^ 23) (s * 2 ^ 8 + e) m) by lia.
  rewrite <- (Z.mod_unique (s * 2 ^ 8 + e) (2 ^ 8) s e) by lia.
  rewrite (Z.mod_small s 2) by lia.
  rewrite Hsame, (proj2 (Z.eqb_neq e 255)) by lia. by rewrite eqb_reflx.
Qed.

(** The loop ends within ten steps on every subnormal, with the leading bit in place. *)
Definition normalize_spec (m : Z) : bool :=
  match f16_normalize 10 113 m with
  | Some (e, n) => (103 <=? e) && (e <=? 112) && (1024 <=? n) && (n <? 2048) && (n =? m * 2 ^ (113 - e))
  | None => false
  end.

Lemma normalize_all : all_from normalize_spec 1023 1 = true. Proof. vm_compute. reflexivity. Qed.

Lemma land_pow2 z n : 0 <= n -> Z.land z (2 ^ n) = (z / 2 ^ n) mod 2 * 2 ^ n.
Proof.
  intros Hn. apply Z.bits_inj'. intros k Hk. rewrite Z.land_spec, Z.pow2_bits_eqb by done.
  destruct (Z.lt_ge_cases k n) as [Hlt|Hge].
  - rewrite Z.mul_pow2_bits_low by done. rewrite (proj2 (Z.eqb_neq n k)) by lia. apply andb_false_r.
  - rewrite Z.mul_pow2_bits by done. destruct (Z.eqb_spec n k) as [->|Hne].
    + rewrite Z.sub_diag, andb_true_r, <- Z.bit0_mod, Z.b2z_bit0, <- Z.shiftr_div_pow2, Z.shiftr_spec by done. done.
    + rewrite andb_false_r, <- Z.bit0_mod. destruct (Z.testbit _ 0); symmetry; [|apply Z.bits_0].
      apply (Z.pow2_bits_false 0); lia.
Qed.

(** The three fields of a binary16. *)
Lemma f16_fields h :
  is_u16 h -> exists s e m, h = s * 2 ^ 15 + e * 2 ^ 10 + m /\ 0 <= s <= 1 /\ 0 <= e < 32 /\ 0 <= m < 1024 /\
    Z.land h 32768 = s * 2 ^ 15 /\ exponent 10 5 h = e /\ mantissa 10 h = m /\ Z.testbit h 15 = (s =? 1).
Proof.
  intros Hh. unfold in_u in Hh. exists (h / 2 ^ 15), (h / 2 ^ 10 mod 2 ^ 5), (h mod 2 ^ 10).
  assert (Hs : 0 <= h / 2 ^ 15 <= 1) by (Z.div_mod_to_equations; lia).
  split_and!; try (Z.div_mod_to_equations; lia).
  - change 32768 with (2 ^ 15) at 1. rewrite land_pow2 by lia. by rewrite (Z.mod_small (h / 2 ^ 15) 2) by lia.
  - unfold exponent. by rewrite land_ones, Z.shiftr_div_pow2 by lia.
  - unfold mantissa. by rewrite land_ones by lia.
  - rewrite Z.testbit_eqb by lia. by rewrite (Z.mod_small (h / 2 ^ 15) 2) by lia.
Qed.

Lemma same_dyadic_intro m1 e1 m2 e2 : e1 <= e2 -> m1 = m2 * 2 ^ (e2 - e1) -> same_dyadic m1 e1 m2 e2 = true.
Proof.
  intros He ->. unfold same_dyadic. rewrite Z.min_l by done. rewrite Z.sub_diag. apply Z.eqb_eq. lia.
Qed.

Lemma f16_ok h : is_u16 h -> f16_spec h = true.
Proof.
  intros Hh. destruct (f16_fields h Hh) as (s & e & m & _ & Hs & He & Hm & Hsg & Hex & Hmt & Hbit).
  unfold f16_spec, f16_to_f32, significand, scale. rewrite Hex, Hmt, Hbit.
  change (Z.land (Z.shiftr h 10) 31) with (exponent 10 5 h). change (Z.land h 1023) with (mantissa 10 h).
  rewrite Hsg, Hex, Hmt. rewrite !Z.shiftl_mul_pow2 by done. rewrite (wrap_id 32 (s * 2 ^ 15 * 2 ^ 16)) by (unfold in_u; lia).
  replace (s * 2 ^ 15 * 2 ^ 16) with (s * 2 ^ 31) by lia.
  destruct (Z.eqb_spec e 0) as [He0|He0]; [|destruct (Z.eqb_spec e 31) as [He31|He31]].
  - rewrite He0. cbn [Z.eqb]. destruct (Z.eqb_spec m 0) as [Hm0|Hm0].
    + replace (s * 2 ^ 31) with (s * 2 ^ 31 + 0 * 2 ^ 23 + 0) by lia.
      apply fields_is; [lia..|done|]. rewrite Hm0. reflexivity.
    + pose proof (all_from_spec _ _ _ m normalize_all ltac:(lia)) as Hn. unfold normalize_spec in Hn.
      change (127 - 15 + 1) with 113. destruct (f16_normalize 10 113 m) as [[x n]|]; [|done].
      rewrite !andb_true_iff, !Z.leb_le, Z.ltb_lt, Z.eqb_eq in Hn. destruct Hn as [[[[Hx1 Hx2] Hn1] Hn2] Hn].
      change 1023 with (2 ^ 10 - 1). rewrite land_ones by lia.
      rewrite <- (Z.mod_unique n (2 ^ 10) 1 (n - 1024)) by lia. rewrite !Z.shiftl_mul_pow2 by done.
      rewrite !wrap_id by (unfold in_u; lia). rewrite lor_fields by lia.
      apply fields_is; [lia..|done|]. rewrite (proj2 (Z.eqb_neq x 0)) by lia.
      apply same_dyadic_intro; [lia|]. rewrite (Z.max_l x) by lia. change (Z.max 0 1) with 1.
      replace (1 - 15 - 10 - (x - 150)) with (113 - x + 13) by lia.
      rewrite Z.pow_add_r by lia. lia.
  - rewrite wrap_id by (unfold in_u; lia). change 2139095040 with (255 * 2 ^ 23).
    rewrite lor_fields by lia. apply Z.eqb_eq. destruct (Z.eqb_spec s 1); lia.
  - rewrite (wrap_id 32 (m * 2 ^ 13)) by (unfold in_u; lia).
    assert (He' : u32 (u32 (e - 15) + 127) = e + 112).
    { unfold wrap. rewrite Zplus_mod_idemp_l, Z.mod_small; lia. }
    rewrite He', wrap_id by (unfold in_u; lia). rewrite lor_fields by lia.
    apply fields_is; [lia..|done|]. rewrite (proj2 (Z.eqb_neq (e + 112) 0)) by lia.
    apply same_dyadic_intro; [lia|]. rewrite !Z.max_l by lia.
    replace (e - 15 - 10 - (e + 112 - 150)) with 13 by lia. lia.
Qed.

(** C40: every bit pattern is decoded to the number its format gives it, exactly:
    E4M3 with its one NaN per sign, E5M2 with infinities and NaNs, the power of
    two of E8M0, and binary16 with its subnormals, infinities and NaN payloads. *)
Theorem decoders_exact :
  (forall b, is_u8 b -> e4m3_spec b = true /\ e5m2_spec b = true /\ e8m0_spec b = true) /\
  (forall h, is_u16 h -> f16_spec h = true).
Proof.
  split.
  - intros b Hb. unfold in_u in Hb.
    split_and!; eapply all_from_spec; [apply e4m3_all| |apply e5m2_all| |apply e8m0_all|]; lia.
  - intros h Hh. by apply f16_ok.
Qed.

Lemma parse_safetensors_str d : parse_dtype (safetensors_str d) = Some d.
Proof. by destruct d. Qed.

(** ** Rounding to bf16 *)

Lemma not_nan_bits bits :
  is_u32 bits -> is_nan_bits bits = false -> bits mod 2 ^ 31 <= 2139095040.
Proof.
  intros Hb Hn. unfold is_nan_bits in Hn. apply Z.ltb_ge in Hn.
  change 2147483647 with (2 ^ 31 - 1) in Hn. by rewrite land_ones in Hn by lia.
Qed.

(** The bf16 of a number: the nearest, the even one of two. *)
Lemma f32_to_bf16_round bits :
  is_u32 bits -> is_nan_bits bits = false ->
  f32_to_bf16 bits = (bits + 32767 + bits / 2 ^ 16 mod 2) / 2 ^ 16.
Proof.
  intros Hb Hn. pose proof (not_nan_bits bits Hb Hn) as Hm. unfold f32_to_bf16. rewrite Hn. cbv zeta.
  rewrite !Z.shiftr_div_pow2 by lia. change (Z.land (bits / 2 ^ 16) 1) with (Z.land (bits / 2 ^ 16) (2 ^ 1 - 1)).
  rewrite land_ones by lia. change (2 ^ 1) with 2.
  unfold is_u32, in_u in Hb. assert (0 <= bits / 2 ^ 16 mod 2 < 2) by (apply Z.mod_pos_bound; lia).
  assert (Hle : bits + 32768 < 2 ^ 32) by (clear Hn; Z.div_mod_to_equations; lia).
  rewrite (wrap_id 32 (bits + 32767)), (wrap_id 32) by (unfold in_u; lia).
  apply wrap_id. unfold in_u. Z.div_mod_to_equations. lia.
Qed.

Lemma round_cases bits :
  is_u32 bits -> is_nan_bits bits = false ->
  exists q m, bits = q * 65536 + m /\ 0 <= m < 65536 /\
    (f32_to_bf16 bits = q /\ m + q mod 2 <= 32768 \/ f32_to_bf16 bits = q + 1 /\ 32768 < m + q mod 2).
Proof.
  intros Hb Hn. rewrite f32_to_bf16_round by done. exists (bits / 2 ^ 16), (bits mod 2 ^ 16).
  pose proof (Z.div_mod bits (2 ^ 16) ltac:(lia)). pose proof (Z.mod_pos_bound bits (2 ^ 16) ltac:(lia)) as Hm.
  pose proof (Z.mod_pos_bound (bits / 2 ^ 16) 2 ltac:(lia)).
  set (q := bits / 2 ^ 16) in *. set (m := bits mod 2 ^ 16) in *. set (p := q mod 2) in *.
  split_and!; [lia..|]. destruct (Z.le_gt_cases (m + p) 32768).
  - left. split; [|done]. symmetry. apply (Z.div_unique _ _ _ (m + 32767 + p)); lia.
  - right. split; [|done]. symmetry. apply (Z.div_unique _ _ _ (m + 32767 + p - 65536)); lia.
Qed.

Lemma bf16_to_f32_mul h : is_u16 h -> bf16_to_f32 h = h * 2 ^ 16.
Proof.
  intros Hh. unfold in_u in Hh. unfold bf16_to_f32. rewrite Z.shiftl_mul_pow2 by lia. apply wrap_id. unfold in_u. lia.
Qed.

(** Rounding to bf16 is to the nearest, ties to even, the sign kept, so it
    gives every bf16 back unchanged; a NaN stays a NaN. *)
Theorem bf16_nearest_even :
  (forall bits, is_u32 bits -> is_nan_bits bits = false ->
     let r := f32_to_bf16 bits in
     is_u16 r /\ Z.testbit r 15 = Z.testbit bits 31 /\ Z.abs (bits - bf16_to_f32 r) <= 2 ^ 15 /\
     (Z.abs (bits - bf16_to_f32 r) = 2 ^ 15 -> Z.even r = true)) /\
  (forall h, is_u16 h -> is_nan_bits (bf16_to_f32 h) = false -> f32_to_bf16 (bf16_to_f32 h) = h) /\
  (forall bits, is_u32 bits -> is_nan_bits bits = true -> is_nan_bits (bf16_to_f32 (f32_to_bf16 bits)) = true).
Proof.
  split_and!.
  - intros bits Hb Hn r. pose proof (not_nan_bits bits Hb Hn) as Hm.
    destruct (round_cases bits Hb Hn) as (q & m & Hbits & Hmr & Hcase). fold r in Hcase. unfold in_u in Hb. clear Hn.
    assert (Hq : 0 <= q < 2 ^ 16) by lia.
    pose proof (Z.div_mod q (2 ^ 15) ltac:(lia)) as Hd. pose proof (Z.mod_pos_bound q (2 ^ 15) ltac:(lia)) as Hd'.
    assert (Hm' : bits mod 2 ^ 31 = q mod 2 ^ 15 * 65536 + m) by (symmetry; apply (Z.mod_unique _ _ (q / 2 ^ 15)); lia).
    set (s := q / 2 ^ 15) in *. set (e := q mod 2 ^ 15) in *.
    pose proof (Z.mod_pos_bound q 2 ltac:(lia)) as Hp.
    assert (Hru : 0 <= r < 2 ^ 16) by lia.
    rewrite (bf16_to_f32_mul r Hru). clearbody r. split_and!; [exact Hru| | |].
    + rewrite !Z.testbit_eqb by lia. f_equal. f_equal.
      rewrite <- (Z.div_unique r (2 ^ 15) s (r - s * 2 ^ 15)), <- (Z.div_unique bits (2 ^ 31) s (bits - s * 2 ^ 31)) by lia. done.
    + lia.
    + intros Ha. rewrite Zeven_mod. apply Z.eqb_eq. clear Hm' Hd Hd'. Z.div_mod_to_equations. lia.
  - intros h Hh Hn. unfold in_u in Hh.
    pose proof (bf16_to_f32_mul h Hh) as Hw.
    rewrite f32_to_bf16_round by (done || rewrite Hw; unfold in_u; lia). rewrite Hw.
    clear Hn Hw. Z.div_mod_to_equations. lia.
  - intros bits Hb Hn. unfold in_u in Hb. unfold f32_to_bf16. rewrite Hn.
    pose proof (Z.mod_pos_bound (bits / 2 ^ 16) (2 ^ 15) ltac:(lia)) as Hz.
    assert (Hge : 32640 <= (bits / 2 ^ 16) mod 2 ^ 15).
    { unfold is_nan_bits in Hn. apply Z.ltb_lt in Hn. change 2147483647 with (2 ^ 31 - 1) in Hn.
      rewrite land_ones in Hn by lia. Z.div_mod_to_equations. lia. }
    assert (Hx : is_u16 (Z.lor (u16 (Z.shiftr bits 16)) 64)).
    { apply lor_in; [lia|apply wrap_in; lia|unfold in_u; lia]. }
    unfold is_nan_bits. rewrite bf16_to_f32_mul by done. change 2147483647 with (2 ^ 31 - 1).
    rewrite land_ones by lia. change (2 ^ 31) with (2 ^ 15 * 2 ^ 16). rewrite Z.mul_mod_distr_r by lia.
    rewrite <- (land_ones _ 15), Z.land_lor_distr_l, !land_ones by lia.
    unfold wrap. rewrite Z.shiftr_div_pow2 by lia.
    rewrite Z.mod_mod_divide by (exists 2; done).
    apply Z.ltb_lt. set (z := (bits / 2 ^ 16) mod 2 ^ 15) in *.
    assert (Hs : (32640 <? Z.lor z 64) = true).
    { apply (all_from_spec (fun z => 32640 <? Z.lor z 64) 128 32640); [vm_compute; reflexivity|lia]. }
    apply Z.ltb_lt in Hs. change (64 mod 2 ^ 15) with 64. lia.
Qed.

(** *** Witnesses *)

Lemma decoders_exact_witness :
  is_u8 126 /\ is_u16 1 /\ e4m3_spec 126 = true /\ f16_spec 1 = true.
Proof.
  assert (H8 : is_u8 126) by (apply in_u_dec_spec; reflexivity).
  assert (H16 : is_u16 1) by (apply in_u_dec_spec; reflexivity).
  split; [exact H8|]. split; [exact H16|].
  split; [exact (proj1 (proj1 decoders_exact 126 H8))|exact (proj2 decoders_exact 1 H16)].
Defined.

(** 1 + 3/256 lies halfway between two bf16s, of which the upper is even. *)
Lemma bf16_nearest_even_witness :
  is_u32 1065451520 /\ is_nan_bits 1065451520 = false /\ Z.even (f32_to_bf16 1065451520) = true.
Proof.
  assert (H32 : is_u32 1065451520) by (apply in_u_dec_spec; reflexivity).
  split; [exact H32|]. split; [reflexivity|].
  destruct (proj1 bf16_nearest_even 1065451520 H32 eq_refl) as (_ & _ & _ & H). apply H. vm_compute. reflexivity.
Defined.

Example bf16_ex : f32_to_bf16 1065451520 = 16258 /\ f32_to_bf16 1065385984 = 16256 /\ f32_to_bf16 2139095040 = 32640.
Proof. vm_compute. split_and!; reflexivity. Qed.

Example e4m3_ex : sf_is (f8e4m3_to_f32 126) false 448 0 = true /\ sf_is (f8e8m0_to_f32 0) false 1 (-127) = true.
Proof. vm_compute. split; reflexivity. Qed.
