(* ===== verification/Rows.v ===== *)
(** * Slices and rows

    Flat buffers that hold rows of one width, as the engine keeps its keys, its
    pools and its tables: the slices the code takes of them, and the lemmas that
    read them row by row.  A slice or index out of range is [None]. *)

From Stdlib Require Import ZifyBool ZifyNat.
From S2P Require Import Prelude.
Local Open Scope nat_scope.

Section Rows.
Context {A : Type}.
Implicit Types (l buf : list A).

(** ** Slices *)

(** [&l[start..end]]. *)
Definition range (l : list A) (s e : nat) : option (list A) :=
  if (s <=? e) && (e <=? length l) then Some (take (e - s) (drop s l)) else None.

(** [l[s..].copy_from_slice(d)] over [d]'s length. *)
Definition blit (l : list A) (s : nat) (d : list A) : list A := take s l ++ d ++ drop (s + length d) l.

(** An in-place update of [&mut l[s..e]] by [f], which keeps its length. *)
Definition update (l : list A) (s e : nat) (f : list A -> list A) : option (list A) :=
  let* old := range l s e in Some (blit l s (f old)).

(** [l[s..s + d.len()].copy_from_slice(d)]: panics past the end. *)
Definition copy_in (l : list A) (s : nat) (d : list A) : option (list A) :=
  if s + length d <=? length l then Some (blit l s d) else None.

(** [for j in i..i+n], each step of which may panic. *)
Fixpoint for_range {S : Type} (f : nat -> S -> option S) (i n : nat) (x : S) : option S :=
  match n with
  | 0 => Some x
  | Datatypes.S n => let* x := f i x in for_range f (i + 1) n x
  end.

(** [for i in 0..n] over the rows of width [w] of a buffer. *)
Definition each_row {B : Type} (w n : nat) (f : list A -> option B) (buf : list A) : option (list B) :=
  mapM (fun i => let* r := range buf (i * w) ((i + 1) * w) in f r) (seq 0 n).

(** Row [i] of a buffer of rows of width [w]. *)
Definition row_at (w : nat) (buf : list A) (i : nat) : option (list A) := range buf (i * w) ((i + 1) * w).

(** ** Slices *)

Lemma range_some l s e : (s <= e <= length l) -> range l s e = Some (take (e - s) (drop s l)).
Proof. unfold range. intros [? ?]. by rewrite (proj2 (Nat.leb_le _ _)), (proj2 (Nat.leb_le _ _)). Qed.

Lemma range_inv l s e r :
  range l s e = Some r -> (s <= e <= length l) /\ r = take (e - s) (drop s l).
Proof.
  unfold range. destruct (s <=? e) eqn:?; [|done]. destruct (e <=? length l) eqn:?; [|done].
  intros [= <-]. split; [lia|done].
Qed.

Lemma range_length l s e r : range l s e = Some r -> length r = (e - s).
Proof. intros ([? ?] & ->)%range_inv. rewrite length_take, length_drop. lia. Qed.

Lemma range_app l s m e a b :
  range l s m = Some a -> range l m e = Some b -> range l s e = Some (a ++ b).
Proof.
  intros ([? ?] & ->)%range_inv ([? ?] & ->)%range_inv. rewrite range_some by lia. f_equal.
  replace (drop m l) with (drop (m - s) (drop s l)) by (rewrite drop_drop; f_equal; lia).
  rewrite take_take_drop. f_equal. lia.
Qed.

(** A slice of a slice. *)
Lemma range_sub l a b m s e : range l a b = Some m -> e <= b - a -> range m s e = range l (a + s) (a + e).
Proof.
  intros ([H1 H2] & ->)%range_inv He. unfold range.
  assert (((s <=? e) && (e <=? length (take (b - a) (drop a l)))) = ((a + s <=? a + e) && (a + e <=? length l))) as ->
    by (rewrite length_take, length_drop; lia).
  destruct (_ && _); [|done]. f_equal. rewrite skipn_firstn_comm, drop_drop, take_take. f_equal; lia.
Qed.

Lemma blit_length l s d : (s + length d <= length l) -> length (blit l s d) = length l.
Proof. intros. unfold blit. rewrite !length_app, length_take, length_drop. lia. Qed.

Lemma blit_lookup l s d i : (s + length d <= length l) ->
  blit l s d !! i = if decide (s <= i < s + length d) then d !! (i - s) else l !! i.
Proof.
  intros. unfold blit. assert (length (take s l) = s) by (rewrite length_take; lia).
  destruct (decide (i < s)).
  { rewrite lookup_app_l by lia. rewrite lookup_take_lt by lia. case_decide; [lia|done]. }
  rewrite lookup_app_r by lia. rewrite H0. case_decide.
  - by rewrite lookup_app_l by lia.
  - rewrite lookup_app_r by lia. rewrite lookup_drop. f_equal. lia.
Qed.

Lemma range_ext l l' s e : length l = length l' ->
  (forall i, (s <= i < e) -> l !! i = l' !! i) -> range l s e = range l' s e.
Proof.
  intros Hl H. unfold range. rewrite Hl. destruct (_ && _) eqn:Hg; [|done]. f_equal.
  apply list_eq. intros i. destruct (decide (i < e - s)).
  - rewrite !lookup_take_lt, !lookup_drop by lia. apply H. lia.
  - rewrite !lookup_take_ge by lia. done.
Qed.

Lemma range_blit l s d : (s + length d <= length l) -> range (blit l s d) s (s + length d) = Some d.
Proof.
  intros. rewrite range_some by (rewrite blit_length; lia). f_equal. unfold blit.
  rewrite drop_app_length' by (rewrite length_take; lia). apply take_app_length'. lia.
Qed.

(** ** Rows *)

Lemma row_at_some w buf n i : length buf = (n * w) -> (i < n) -> is_Some (row_at w buf i).
Proof. intros. unfold row_at. rewrite range_some; [eauto|nia]. Qed.

Lemma row_at_length w buf i r : row_at w buf i = Some r -> length r = w.
Proof. intros H%range_length. nia. Qed.

Lemma row_blit_same w buf n i r : length buf = (n * w) -> (i < n) -> length r = w ->
  row_at w (blit buf (i * w) r) i = Some r.
Proof.
  intros. unfold row_at. replace ((i + 1) * w) with (i * w + length r) by nia. apply range_blit. nia.
Qed.

Lemma row_blit_other w buf n i j r : length buf = (n * w) -> (i < n) -> length r = w -> i <> j ->
  row_at w (blit buf (i * w) r) j = row_at w buf j.
Proof.
  intros. assert (i * w + length r <= length buf) by nia. apply range_ext; [by apply blit_length|].
  intros k Hk. rewrite blit_lookup by done. case_decide; [nia|done].
Qed.

Lemma row_run w buf : forall rs a,
  (a * w <= length buf) -> (forall i r, rs !! i = Some r -> row_at w buf (a + i) = Some r) ->
  range buf (a * w) ((a + length rs) * w) = Some (concat rs).
Proof.
  induction rs as [|r rs IH]; intros a Ha H; simpl.
  - rewrite range_some by lia. f_equal. replace (_ - _) with 0 by lia. apply take_0.
  - pose proof (H 0 r eq_refl) as H0. rewrite Nat.add_0_r in H0.
    replace (a + S (length rs)) with (a + 1 + length rs) by lia.
    refine (range_app _ _ _ _ _ _ H0 _). apply IH.
    + by apply range_inv in H0 as [[? ?] _].
    + intros i r' Hi. replace (a + 1 + i) with (a + S i) by lia. by apply H.
Qed.

Lemma copy_in_some l s d : s + length d <= length l -> copy_in l s d = Some (blit l s d).
Proof. intros. unfold copy_in. by rewrite (proj2 (Nat.leb_le _ _)). Qed.

Lemma row_at_ge w buf n i : length buf = n * w -> n <= i -> 0 < w -> row_at w buf i = None.
Proof. intros. unfold row_at, range. destruct (_ && _) eqn:E; [nia|done]. Qed.

(** A row of two halves. *)
Lemma half_rows d buf i x : row_at (2 * d) buf i = Some x ->
  row_at d buf (2 * i) = Some (take d x) /\ row_at d buf (2 * i + 1) = Some (drop d x).
Proof.
  unfold row_at. intros ([? ?] & ->)%range_inv. rewrite !range_some by nia. split; f_equal.
  - replace ((2 * i + 1) * d - 2 * i * d) with d by nia. rewrite take_take.
    replace (2 * i * d) with (i * (2 * d)) by nia. f_equal. nia.
  - replace ((2 * i + 1 + 1) * d - (2 * i + 1) * d) with d by nia.
    rewrite skipn_firstn_comm, drop_drop. f_equal; [nia|f_equal; nia].
Qed.

(** A buffer that is exactly its rows. *)
Lemma rows_eq w buf rs :
  length buf = length rs * w -> (forall i r, rs !! i = Some r -> row_at w buf i = Some r) -> buf = concat rs.
Proof.
  intros Hl H. pose proof (row_run w buf rs 0 ltac:(lia) H) as E. simpl in E.
  apply range_inv in E as [_ ->]. rewrite drop_0, take_ge by lia. done.
Qed.

(** ** Filling rows *)

(** [buf'] is [buf] with the [n] rows from [dst] on replaced by [f]'s. *)
Definition filled (w : nat) (buf buf' : list A) (dst n : nat) (f : nat -> list A) : Prop :=
  length buf' = length buf /\
  forall i, row_at w buf' i = if decide (dst <= i < dst + n) then Some (f (i - dst)) else row_at w buf i.

Lemma filled_nil w buf dst f : filled w buf buf dst 0 f.
Proof. split; [done|]. intros i. rewrite decide_False by lia. done. Qed.

Lemma filled_app w buf buf1 buf2 dst n m f :
  filled w buf buf1 dst n f -> filled w buf1 buf2 (dst + n) m (fun i => f (n + i)) -> filled w buf buf2 dst (n + m) f.
Proof.
  intros [L1 H1] [L2 H2]. split; [congruence|]. intros i. rewrite H2, H1.
  destruct (decide (dst + n <= i < dst + n + m)).
  - rewrite decide_True by lia. do 2 f_equal. lia.
  - destruct (decide (dst <= i < dst + n)); [by rewrite decide_True by lia|by rewrite decide_False by lia].
Qed.

Lemma filled_ext w buf buf' dst n f g :
  (forall i, i < n -> f i = g i) -> filled w buf buf' dst n f -> filled w buf buf' dst n g.
Proof. intros H [L Hr]. split; [done|]. intros i. rewrite Hr. case_decide; [|done]. by rewrite H by lia. Qed.

Lemma filled_one w buf n dst x :
  length buf = n * w -> dst < n -> length x = w -> filled w buf (blit buf (dst * w) x) dst 1 (fun _ => x).
Proof.
  intros Hb Hd Hx. split; [apply blit_length; nia|]. intros i. case_decide.
  - replace i with dst by lia. by eapply row_blit_same.
  - eapply row_blit_other; try done. lia.
Qed.

(** Loops. *)
Lemma for_range_ind {S : Type} (P : nat -> S -> Prop) f : forall n i x,
  P i x -> (forall j y, i <= j < i + n -> P j y -> exists y', f j y = Some y' /\ P (j + 1) y') ->
  exists x', for_range f i n x = Some x' /\ P (i + n) x'.
Proof.
  induction n as [|n IH]; intros i x Hx Hf; simpl.
  { exists x. by rewrite Nat.add_0_r. }
  destruct (Hf i x ltac:(lia) Hx) as (y & -> & Hy). cbn.
  destruct (IH (i + 1) y Hy) as (x' & E & H); [intros; apply Hf; [lia|done]|].
  exists x'. split; [done|]. by replace (i + Datatypes.S n) with (i + 1 + n) by lia.
Qed.
End Rows.

(** A loop none of whose steps panics. *)
Lemma for_range_fold {S : Type} (f : nat -> S -> option S) (g : S -> nat -> S) n i x :
  (forall j y, i <= j < i + n -> f j y = Some (g y j)) -> for_range f i n x = Some (fold_left g (seq i n) x).
Proof.
  revert i x. induction n as [|n IH]; intros i x H; [done|]. cbn [for_range seq fold_left]. rewrite H by lia. rewrite Nat.add_1_r.
  apply IH. intros j y Hj. apply H. lia.
Qed.

Lemma map_seq_shift {B} (f : nat -> B) a s : map f (seq a s) = map (fun i => f (a + i)) (seq 0 s).
Proof.
  transitivity (map f (map (Nat.add a) (seq 0 s))); [f_equal|by rewrite map_map].
  change (map ?g ?k) with (g <$> k). by rewrite fmap_add_seq, Nat.add_0_r.
Qed.

(** ** Rows of a concatenation *)

Lemma concat_map_concat {A B} (f : A -> list B) (ls : list (list A)) : concat (map f (concat ls)) = concat (map (fun l => concat (map f l)) ls).
Proof. induction ls as [|l0 ls IH]; [done|]. cbn. by rewrite map_app, concat_app, IH. Qed.

Lemma concat_row {A} w (rs : list (list A)) i r :
  Forall (fun r => length r = w) rs -> rs !! i = Some r -> row_at w (concat rs) i = Some r.
Proof.
  intros Hall. revert i. induction Hall as [|x rs Hx _ IH]; intros i Hi; [done|].
  destruct i as [|i]; simpl in *.
  - injection Hi as ->. unfold row_at. rewrite range_some by (rewrite length_app; lia). f_equal.
    simpl. rewrite drop_0. apply take_app_length'. lia.
  - apply IH in Hi. unfold row_at in *. apply range_inv in Hi as ([H1 H2] & ->).
    rewrite range_some by (rewrite length_app; lia). f_equal. rewrite drop_app_ge by lia. f_equal; [lia|f_equal; lia].
Qed.

Lemma row_at_replicate {A} w n (x : A) i : i < n -> row_at w (replicate (n * w) x) i = Some (replicate w x).
Proof.
  intros. unfold row_at. rewrite range_some by (rewrite length_replicate; nia). f_equal.
  rewrite drop_replicate, take_replicate. f_equal. nia.
Qed.

Lemma row_blit w {A} (buf : list A) n i j r : length buf = n * w -> i < n -> length r = w ->
  row_at w (blit buf (i * w) r) j = if decide (j = i) then Some r else row_at w buf j.
Proof. intros. case_decide; [subst; by eapply row_blit_same|by eapply row_blit_other; eauto]. Qed.

Lemma row_lookup {A} w (buf : list A) b r i : row_at w buf b = Some r -> i < w -> buf !! (b * w + i) = r !! i.
Proof. intros ([? ?] & ->)%range_inv Hi. rewrite lookup_take_lt by nia. by rewrite lookup_drop. Qed.

Lemma concat_len {A} n (rs : list (list A)) : Forall (fun r => length r = n) rs -> length (concat rs) = length rs * n.
Proof. induction 1 as [|r rs Hr _ IH]; [done|]. simpl. rewrite length_app. lia. Qed.

(** ** Row by row *)

Lemma mapM_app_opt {A B} (f : A -> option B) l k :
  mapM f (l ++ k) = (let* a := mapM f l in let* b := mapM f k in Some (a ++ b)).
Proof.
  induction l as [|x l IH]; cbn; [by destruct (mapM f k)|].
  destruct (f x); cbn; [|done]. change (foldr _ _ ?l) with (mapM f l). rewrite IH.
  destruct (mapM f l); cbn; [|done]. by destruct (mapM f k).
Qed.

Lemma mapM_cons_eq {A B} (f : A -> option B) a l :
  mapM f (a :: l) = let* b := f a in let* k := mapM f l in Some (b :: k).
Proof. done. Qed.

Lemma mapM_map {A B} (f : A -> B) l : mapM (fun x => Some (f x)) l = Some (map f l).
Proof. by apply (mapM_Some_2 (fun x => Some (f x))), Forall2_fmap_r, Forall_Forall2_diag, Forall_true. Qed.

Lemma mapM_ext_in {A B} (f g : A -> option B) l : (forall x, x ∈ l -> f x = g x) -> mapM f l = mapM g l.
Proof.
  induction l as [|x l IH]; intros H; simpl; [done|].
  rewrite H by (by left). by rewrite IH by (intros; apply H; by right).
Qed.

Lemma mapM_total {A B} (f : A -> option B) l : (forall x, x ∈ l -> is_Some (f x)) -> is_Some (mapM f l).
Proof. intros H. apply mapM_is_Some. apply Forall_forall. intros. by apply H. Qed.

Lemma mapM_len {A B} (f : A -> option B) l k : mapM f l = Some k -> length k = length l.
Proof. intros H%mapM_Some. symmetry. by eapply Forall2_length. Qed.

Lemma mapM_all {A B} (f : A -> option B) (P : B -> Prop) l : (forall x, x ∈ l -> exists y, f x = Some y /\ P y) ->
  exists k, mapM f l = Some k /\ Forall P k /\ length k = length l.
Proof.
  intros H. destruct (mapM_total f l) as [k E]; [intros x Hx; destruct (H x Hx) as (y & -> & _); by eexists|].
  exists k. split_and!; [done| |by eapply mapM_len]. apply mapM_Some in E. apply Forall_lookup. intros i y Hy.
  destruct (Forall2_lookup_r _ _ _ _ _ E Hy) as (x & Hx & Hf). apply list_elem_of_lookup_2 in Hx. destruct (H x Hx) as (y' & E' & Hp). congruence.
Qed.

Lemma mapM_shift {A} (f g : nat -> option A) a : forall s i, (forall j, i <= j < i + s -> f j = g (a + j)) ->
  mapM f (seq i s) = mapM g (seq (a + i) s).
Proof.
  induction s as [|s IH]; intros i H; [done|]. simpl. rewrite H by lia. destruct (g (a + i)); [|done]. simpl.
  replace (S (a + i)) with (a + S i) by lia. rewrite (IH (S i)); [done|]. intros. apply H. lia.
Qed.

Lemma mapM_take {A B} (f : A -> option B) l k n : mapM f l = Some k -> mapM f (take n l) = Some (take n k).
Proof. intros H. apply mapM_Some. apply mapM_Some in H. by apply Forall2_take. Qed.

(** A loop over the rows of a concatenation is a loop over the rows. *)
Lemma each_row_concat {A B} w (f : list A -> option B) rs :
  Forall (fun r => length r = w) rs -> each_row w (length rs) f (concat rs) = mapM f rs.
Proof.
  intros Hw. unfold each_row.
  transitivity (mapM (fun i => let* r := rs !! i in f r) (seq 0 (length rs))).
  - apply Forall2_mapM_ext. apply Forall_Forall2_diag, Forall_forall. intros i [_ Hi]%elem_of_seq.
    destruct (lookup_lt_is_Some_2 rs i Hi) as [r Hr]. rewrite Hr. by rewrite (concat_row w rs i r Hw Hr : range _ _ _ = _).
  - clear Hw. assert (forall k, mapM (fun i => let* r := (k ++ rs) !! i in f r) (seq (length k) (length rs)) = mapM f rs) as H.
    { induction rs as [|r rs IH]; intros k; [done|]. cbn. rewrite list_lookup_middle by done. cbn.
      specialize (IH (k ++ [r])). rewrite length_app in IH. cbn in IH. rewrite Nat.add_1_r, <- app_assoc in IH. cbn in IH.
      change (foldr _ _ ?l) with (mapM (fun i => let* r := (k ++ r :: rs) !! i in f r) l) in *. by rewrite IH. }
    apply (H []).
Qed.

Lemma each_row_id {A} w n (rs : list (list A)) : Forall (fun r => length r = w) rs -> length rs = n ->
  each_row w n Some (concat rs) = Some rs.
Proof.
  intros H <-. rewrite each_row_concat by done. change (mapM Some rs) with (mapM (fun x => Some (id x)) rs).
  by rewrite mapM_map, map_id.
Qed.

(** Overwriting a part of one row of a concatenation. *)
Lemma copy_in_row {A} w (os : list (list A)) t o off y : Forall (fun o => length o = w) os -> os !! t = Some o -> off + length y <= w ->
  copy_in (concat os) (t * w + off) y = Some (concat (<[t := blit o off y]> os)).
Proof.
  intros Hos Ht Hy. pose proof (lookup_lt_Some _ _ _ Ht) as Hlt.
  assert (length o = w) as Ho by (rewrite Forall_lookup in Hos; by eapply Hos).
  rewrite copy_in_some by (rewrite (concat_len w) by done; nia). f_equal.
  rewrite insert_take_drop by done. rewrite <- (take_drop_middle os t o Ht) at 1. rewrite !concat_app. cbn [concat].
  assert (length (concat (take t os)) = t * w) as Hl by (rewrite (concat_len w) by (by apply Forall_take); rewrite length_take; lia).
  unfold blit. rewrite (take_app_ge (concat (take t os))), (drop_app_ge (concat (take t os))) by lia.
  rewrite Hl. replace (t * w + off - t * w) with off by lia. replace (t * w + off + length y - t * w) with (off + length y) by lia.
  rewrite take_app_le, drop_app_le by lia. by rewrite <- !app_assoc.
Qed.

Lemma combine_fst_snd {A B} (l : list A) (k : list B) : length l = length k -> map fst (combine l k) = l /\ map snd (combine l k) = k.
Proof.
  revert k. induction l as [|x l IH]; intros [|y k] Hl; try done. injection Hl as Hl. destruct (IH k Hl) as [H1 H2]. cbn. split; by f_equal.
Qed.

(** A loop over positions that gives each row a value of its own. *)
Lemma mapM_seq_imap {A B} (f : nat -> option B) (g : nat -> A -> B) xs :
  (forall i x, xs !! i = Some x -> f i = Some (g i x)) -> mapM f (seq 0 (length xs)) = Some (imap g xs).
Proof.
  intros H. apply mapM_Some, Forall2_same_length_lookup_2; [by rewrite length_seq, length_imap|].
  intros i j y Hj Hy. apply lookup_seq in Hj as [-> _]. rewrite list_lookup_imap in Hy. cbn.
  apply fmap_Some in Hy as (x & Hx & ->). by apply H.
Qed.

Lemma Forall_imap_all {A B} (P : B -> Prop) (Q : A -> Prop) (g : nat -> A -> B) xs :
  (forall i x, Q x -> P (g i x)) -> Forall Q xs -> Forall P (imap g xs).
Proof.
  intros H Hx. apply Forall_lookup. intros i y Hy. rewrite list_lookup_imap in Hy. apply fmap_Some in Hy as (x & Hxi & ->).
  apply H. rewrite Forall_lookup in Hx. by eapply Hx.
Qed.

(** The same slice of every row. *)
Lemma mapM_slice {A B} (f : A -> list B) w l a b : (forall x, length (f x) = w) -> a <= b <= w ->
  mapM (fun r => range r a b) (map f l) = Some (map (fun x => take (b - a) (drop a (f x))) l).
Proof.
  intros Hf Hab. change (map f l) with (f <$> l). change (map ?g l) with (g <$> l).
  apply mapM_Some, Forall2_fmap_l, Forall2_fmap_r, Forall_Forall2_diag, Forall_true. intros x. apply range_some. rewrite Hf. lia.
Qed.

Lemma Forall2_with_l {A B} (R : A -> B -> Prop) (P : A -> Prop) l k :
  Forall2 R l k -> Forall P l -> Forall2 (fun x y => R x y /\ P x) l k.
Proof. induction 1 as [|x y l k Hxy _ IH]; intros Hp; [constructor|]. apply Forall_cons in Hp as [Hx Hp]. constructor; auto. Qed.

Lemma combine_app_eq {A B} (l1 l2 : list A) (k1 k2 : list B) :
  length l1 = length k1 -> combine (l1 ++ l2) (k1 ++ k2) = combine l1 k1 ++ combine l2 k2.
Proof.
  revert k1. induction l1 as [|x l1 IH]; intros [|y k1] H; [done|done|done|].
  cbn in *. f_equal. apply IH. lia.
Qed.

(** A buffer of [n * w] values is [n] rows. *)
Lemma split_rows {A} w n (buf : list A) : length buf = n * w ->
  exists rs, length rs = n /\ Forall (fun r => length r = w) rs /\ buf = concat rs.
Proof.
  revert buf. induction n as [|n IH]; intros buf H.
  - exists []. split_and!; [done|done|]. by destruct buf.
  - destruct (IH (drop w buf)) as (rs & Hl & Hw & E); [rewrite length_drop; lia|].
    exists (take w buf :: rs). split_and!; [simpl; lia| |].
    + constructor; [rewrite length_take; lia|done].
    + simpl. by rewrite <- E, take_drop.
Qed.

Lemma concat_row_range {A} w (rs : list (list A)) i r :
  Forall (fun r => length r = w) rs -> rs !! i = Some r -> range (concat rs) (i * w) ((i + 1) * w) = Some r.
Proof. apply concat_row. Qed.

(** Overwriting one row of a concatenation. *)
Lemma copy_row {A} w (os : list (list A)) t r : Forall (fun o => length o = w) os -> t < length os -> length r = w ->
  copy_in (concat os) (t * w) r = Some (concat (<[t := r]> os)).
Proof.
  intros Hos Ht Hr. rewrite copy_in_some by (rewrite (concat_len w) by done; nia). f_equal.
  apply (rows_eq w).
  - rewrite blit_length, (concat_len w), length_insert by (done || rewrite (concat_len w) by done; nia). done.
  - intros i o Hi. rewrite (row_blit w _ (length os)) by (done || by rewrite (concat_len w)). case_decide as Hd.
    + subst. rewrite list_lookup_insert_eq in Hi by done. congruence.
    + rewrite list_lookup_insert_ne in Hi by done. by apply concat_row.
Qed.

#[global] Arguments range : simpl never.
#[global] Arguments blit : simpl never.
#[global] Arguments copy_in : simpl never.
#[global] Arguments row_at : simpl never.
