(* ===== verification/Math.v ===== *)
(** * Numeric primitives ([crates/colibri-engine/src/math.rs], [sampling.rs])

    [f32] and [f64] are [spec_float]s, computed with by [SpecFloat] at the
    code's precision and in the code's order of operations; a NaN has no
    payload.  The norms, activations, rotations and softmaxes every layer is
    built from, and the choice of the next token from its logits.  [exp],
    [tanh], [powf] and [sin_cos] are the platform's, parameters.  An index out
    of range, or a failed assertion, is [None]; the assertions that only a
    debug build checks are not modelled. *)

From Stdlib Require Import ZifyBool ZifyNat SpecFloat.
From S2P Require Import Prelude DType.
Local Open Scope nat_scope.

(** ** Arithmetic *)

Abbreviation f32 := spec_float.
Abbreviation f0 := (S754_zero false).
Abbreviation f64 := spec_float.
Definition NEG_INFINITY : f32 := S754_infinity true.
Abbreviation f32_sub := (SFsub 24 128).
Abbreviation f32_sqrt := (SFsqrt 24 128).

(** [as f64] is exact; [as f32] rounds. *)
Definition convert (prec emax : Z) (x : spec_float) : spec_float :=
  match x with
  | S754_finite s m e => binary_normalize prec emax (if s then Zneg m else Zpos m) e s
  | _ => x
  end.
Definition f64_of_f32 (x : f32) : f64 := convert 53 1024 x.
Definition f32_of_f64 (x : f64) : f32 := convert 24 128 x.

(** [f32::max]: the other operand of a NaN. *)
Definition f32_max (a b : f32) : f32 :=
  if is_nan a then b else if is_nan b then a else if SFltb a b then b else a.
(** The values a sort may be given: on them [partial_cmp] is a total preorder. *)
Definition all_numbers (l : list f32) : bool := forallb (fun x => negb (is_nan x)) l.
Definition is_finite (x : f32) : bool :=
  match x with S754_finite _ _ _ | S754_zero _ => true | _ => false end.

Definition f32_floor (x : f32) : f32 :=
  match x with
  | S754_finite s m e =>
      if (0 <=? e)%Z then x
      else
        let q := ((if s then Zneg m else Zpos m) / 2 ^ (- e))%Z in
        if (q =? 0)%Z then S754_zero s else f32_of_Z q
  | _ => x
  end.
Definition f32_ceil (x : f32) : f32 := SFopp (f32_floor (SFopp x)).
Definition f32_min (a b : f32) : f32 := if is_nan a then b else if is_nan b then a else if SFltb b a then b else a.
Definition f32_clamp (x lo hi : f32) : f32 := if SFltb x lo then lo else if SFltb hi x then hi else x.

(** [as f32], [as f64] of an unsigned integer. *)
Definition f32_of_nat (n : nat) : f32 := f32_of_Z (Z.of_nat n).
Definition f64_of_nat (n : nat) : f64 := binary_normalize 53 1024 (Z.of_nat n) 0 false.

(** The running [f64] sum of products. *)
Definition dot64 (a b : list f32) : f64 :=
  fold_left (fun acc '(x, y) => SFadd 53 1024 acc (SFmul 53 1024 (f64_of_f32 x) (f64_of_f32 y))) (combine a b) f0.

(** [rmsnorm] of [math.rs]. *)
Definition rmsnorm (x w : list f32) (eps : f32) : option (list f32) :=
  let ms := dot64 x x in
  let r := f32_div f32_one (f32_sqrt (f32_add (f32_of_f64 (SFdiv 53 1024 ms (f64_of_nat (length x)))) eps)) in
  mapM (fun k => let* a := x !! k in let* b := w !! k in Some (f32_mul (f32_mul a r) b)) (seq 0 (length x)).

(** [round_ties_even]; a zero keeps the sign. *)
Definition f32_round_ties_even (x : f32) : f32 :=
  match x with
  | S754_finite s m e =>
      if (0 <=? e)%Z then x
      else
        let u := (2 ^ (- e))%Z in
        let '(q, r) := (Zpos m / u, Zpos m mod u)%Z in
        let n := (if (2 * r <? u) || ((2 * r =? u) && Z.even q) then q else q + 1)%Z in
        if (n =? 0)%Z then S754_zero s else f32_of_Z (if s then - n else n)%Z
  | _ => x
  end.

(** [as i8], [as i32]: towards zero, saturating, a NaN is 0. *)
Definition f32_trunc (x : f32) : Z :=
  match x with
  | S754_finite s m e =>
      let a := (if 0 <=? e then Zpos m * 2 ^ e else Zpos m / 2 ^ (- e))%Z in if s then (- a)%Z else a
  | _ => 0%Z
  end.
Definition f32_to_i (w : Z) (x : f32) : Z :=
  match x with
  | S754_infinity s => (if s then - 2 ^ (w - 1) else 2 ^ (w - 1) - 1)%Z
  | _ => Z.max (- 2 ^ (w - 1)) (Z.min (2 ^ (w - 1) - 1) (f32_trunc x))
  end.

(** [f32::from_bits]. *)
Definition f32_from_bits (b : Z) : f32 :=
  let '(s, e, m) := (Z.testbit b 31, exponent 23 8 b, mantissa 23 b) in
  (if e =? 255 then if m =? 0 then S754_infinity s else S754_nan
   else if e =? 0 then if m =? 0 then S754_zero s else S754_finite s (Z.to_pos m) (-149)
   else S754_finite s (Z.to_pos (m + 8388608)) (e - 150))%Z.

(** ** Activations, norms, rotations *)

Definition f32_two : f32 := f32_of_Z 2.
Definition f32_zip (f : f32 -> f32 -> f32) (a b : list f32) : list f32 := map (fun '(x, y) => f x y) (combine a b).

(** [iter().sum()]. *)
Definition f32_sum (l : list f32) : f32 := fold_left f32_add l f0.

(** [acc += a * v] over the rows: their mean by the weights. *)
Definition mix_values (vh : nat) (weights : list f32) (values : list (list f32)) : list f32 :=
  foldl (fun c '(a, v) => f32_zip (fun x y => f32_add x (f32_mul a y)) c v) (replicate vh f0) (combine weights values).

Section Math.
Context (expf tanhf sinf cosf : f32 -> f32) (powf : f32 -> f32 -> f32).

Definition sigmoid (x : f32) : f32 := f32_div f32_one (f32_add f32_one (expf (SFopp x))).
Definition silu (x : f32) : f32 := f32_div x (f32_add f32_one (expf (SFopp x))).

(** [clamp] asserts that its bounds are ordered. *)
Definition swiglu_oai (gate up alpha limit : f32) : option f32 :=
  let g := f32_min gate limit in
  if negb (SFleb (SFopp limit) limit) then None
  else
    let u := f32_clamp up (SFopp limit) limit in
    let gated := f32_div g (f32_add f32_one (expf (f32_mul (SFopp alpha) g))) in
    Some (f32_mul gated (f32_add u f32_one)).

Definition situ (gate up beta linear_beta : f32) : f32 :=
  let a := f32_mul (f32_mul beta (tanhf (f32_div gate beta))) (sigmoid gate) in
  let u := if SFltb f0 linear_beta then f32_mul linear_beta (tanhf (f32_div up linear_beta)) else up in
  f32_mul a u.

(** The exponentials are summed as they are made. *)
Definition exp_sum (f : f32 -> f32) (l : list f32) : list f32 * f32 :=
  let es := map f l in (es, f32_sum es).
Definition normalized (es : list f32 * f32) : list f32 :=
  if SFltb f0 es.2 then map (fun v => f32_div v es.2) es.1 else es.1.
Definition max_of (l : list f32) : f32 := fold_left f32_max l NEG_INFINITY.

Definition softmax (x : list f32) : list f32 :=
  match x with
  | [] => []
  | _ => let m := max_of x in normalized (exp_sum (fun v => expf (f32_sub v m)) x)
  end.

Abbreviation f64_add := (SFadd 53 1024).
Abbreviation f64_sub := (SFsub 53 1024).
Abbreviation f64_mul := (SFmul 53 1024).
Abbreviation f64_div := (SFdiv 53 1024).

Definition layernorm (v w b : list f32) (eps : f32) : option (list f32) :=
  let n := f64_of_nat (length v) in
  let mu := f64_div (fold_left (fun acc x => f64_add acc (f64_of_f32 x)) v f0) n in
  let var := f64_div (fold_left (fun acc x => let d := f64_sub (f64_of_f32 x) mu in f64_add acc (f64_mul d d)) v f0) n in
  let r := f32_div f32_one (f32_sqrt (f32_add (f32_of_f64 var) eps)) in
  mapM (fun k =>
    let* x := v !! k in let* wk := w !! k in let* bk := b !! k in
    Some (f32_add (f32_mul (f32_mul (f32_of_f64 (f64_sub (f64_of_f32 x) mu)) r) wk) bk)) (seq 0 (length v)).

(** The angle of pair [j] at position [pos]. *)
Definition rope_angle (theta : f32) (dim pos j : nat) : f32 :=
  f32_mul (f32_of_nat pos) (powf theta (f32_div (f32_mul (SFopp f32_two) (f32_of_nat j)) (f32_of_nat dim))).

(** One rotated pair [a], [b], written to [i] and [k]. *)
Definition rotate_pair (ang a b : f32) (i k : nat) (v : list f32) : option (list f32) :=
  let '(sn, cs) := (sinf ang, cosf ang) in
  if (i <? length v) && (k <? length v) then
    Some (<[k := f32_add (f32_mul b cs) (f32_mul a sn)]> (<[i := f32_sub (f32_mul a cs) (f32_mul b sn)]> v))
  else None.

(** The input is copied to a scratch array of 512. *)
Definition rope_interleave (v : list f32) (pos qk_rope : nat) (theta : f32) : option (list f32) :=
  let half := qk_rope / 2 in
  if (length v <? qk_rope) || (512 <? qk_rope) then None
  else
    foldl (fun acc j =>
      let* out := acc in
      let* a := v !! (2 * j) in let* b := v !! (2 * j + 1) in
      rotate_pair (rope_angle theta qk_rope pos j) a b j (half + j) out) (Some v) (seq 0 half).

Definition rope_neox (v : list f32) (pos dim : nat) (theta : f32) : option (list f32) :=
  let half := dim / 2 in
  foldl (fun acc j =>
    let* out := acc in
    let* a := out !! j in let* b := out !! (half + j) in
    rotate_pair (rope_angle theta dim pos j) a b j (half + j) out) (Some v) (seq 0 half).
End Math.

(** ** Choosing a token *)

Record SampleConfig := { temperature : f32; top_p : f32 }.

(** The scan keeps the first index that beats everything before it. *)
Definition argmax_step (acc : nat * f32) (iv : nat * f32) : nat * f32 :=
  if SFltb acc.2 iv.2 then iv else acc.
Definition argmax (logits : list f32) : nat :=
  (foldl argmax_step (0, NEG_INFINITY) (imap pair logits)).1.

Section Sampling.
Context (expf : f32 -> f32).

Definition softmax_temp (logits : list f32) (temp : f32) : list f32 :=
  if SFleb temp f0 then
    let a := argmax logits in imap (fun i _ => if i =? a then f32_one else f0) logits
  else
    let inv_t := f32_div f32_one temp in
    let m := max_of logits in
    normalized (exp_sum (fun v => expf (f32_mul (f32_sub v m) inv_t)) logits).

(** [1.0 - f32::EPSILON]. *)
Definition below_one : f32 := f32_sub f32_one (powi f32_two (-23)).

(** Descending, ties in index order.  With a NaN among the probabilities the
    comparison is not a total order and [sort_by] promises nothing, a panic
    included: no answer. *)
Definition nucleus_order (probs : list f32) : option (list nat) :=
  if all_numbers probs then Some (sort_by (fun a b => negb (SFltb (nth a probs f0) (nth b probs f0))) (seq 0 (length probs))) else None.
Fixpoint cutoff (probs : list f32) (p cum : f32) (order : list nat) : nat :=
  match order with
  | [] => 0
  | i :: order => let cum := f32_add cum (nth i probs f0) in if SFleb p cum then 1 else S (cutoff probs p cum order)
  end.
Fixpoint pick (probs : list f32) (target acc : f32) (last : nat) (nucleus : list nat) : nat :=
  match nucleus with
  | [] => last
  | i :: nucleus =>
      let acc := f32_add acc (nth i probs f0) in if SFltb target acc then i else pick probs target acc i nucleus
  end.
Definition sample_top_p (logits : list f32) (cfg : SampleConfig) (uniform : f32) : option nat :=
  if SFleb (temperature cfg) f0 then Some (argmax logits)
  else
    let probs := softmax_temp logits (temperature cfg) in
    let* order := nucleus_order probs in
    let nucleus := take (cutoff probs (top_p cfg) f0 order) order in
    let mass := f32_sum (map (fun i => nth i probs f0) nucleus) in
    let target := f32_mul (f32_clamp uniform f0 below_one) mass in
    Some (pick probs target f0 (argmax logits) nucleus).
End Sampling.

(** ** The order of [f32] *)

(** A value other than a NaN, as a triple the comparison is lexicographic on. *)
Definition key (x : f32) : Z * Z * Z :=
  match x with
  | S754_infinity s => (if s then -2 else 2, 0, 0)%Z
  | S754_finite true m e => (-1, - e, Zneg m)%Z
  | S754_finite false m e => (1, e, Zpos m)%Z
  | _ => (0, 0, 0)%Z
  end.
Definition key_lt (a b : Z * Z * Z) : Prop :=
  let '(a1, a2, a3) := a in let '(b1, b2, b3) := b in
  (a1 < b1 \/ a1 = b1 /\ (a2 < b2 \/ a2 = b2 /\ a3 < b3))%Z.

Lemma SFltb_key x y : SFltb x y = true <-> is_nan x = false /\ is_nan y = false /\ key_lt (key x) (key y).
Proof.
  destruct x as [sx|sx| |sx mx ex], y as [sy|sy| |sy my ey]; cbn; try (destruct sx); try (destruct sy); cbn;
    try (split; [done || (intros; repeat split; lia)|intros (? & ? & ?); done || lia]).
  all: try (destruct (Z.compare_spec ex ey)); try (subst; change (Pos.compare_cont Eq) with Pos.compare;
    destruct (Pos.compare_spec mx my)); cbn; split; (done || (intros; repeat split; lia) || (intros (? & ? & ?); done || lia)).
Qed.

Lemma SFltb_irrefl x : SFltb x x = false.
Proof. destruct (SFltb x x) eqn:E; [|done]. apply SFltb_key in E as (_ & _ & E). destruct (key x) as [[??]?]. cbn in E. lia. Qed.

Lemma SFltb_trans x y z : SFltb x y = true -> SFltb y z = true -> SFltb x z = true.
Proof.
  rewrite !SFltb_key. intros (? & ? & H1) (? & ? & H2). repeat split; try done.
  destruct (key x) as [[??]?], (key y) as [[??]?], (key z) as [[??]?]. cbn in *. lia.
Qed.

(** Not being beaten is transitive away from NaN. *)
Lemma SFltb_neg_trans x y z :
  is_nan y = false -> SFltb x z = true -> SFltb x y = true \/ SFltb y z = true.
Proof.
  rewrite !SFltb_key. intros Hy (? & ? & H).
  destruct (key x) as [[a b] c], (key y) as [[a' b'] c'], (key z) as [[a'' b''] c'']. cbn in *.
  assert ((a < a' \/ a = a' /\ (b < b' \/ b = b' /\ c < c')) \/ (a' < a'' \/ a' = a'' /\ (b' < b'' \/ b' = b'' /\ c' < c'')))%Z as [?|?] by lia; auto.
Qed.

(** ** The argmax scan *)

Lemma argmax_scan l : forall acc, is_nan acc.2 = false ->
  (foldl argmax_step acc l = acc /\ Forall (fun p => SFltb acc.2 p.2 = false) l) \/
  (exists l1 r l2, l = l1 ++ r :: l2 /\ foldl argmax_step acc l = r /\ SFltb acc.2 r.2 = true /\
     Forall (fun p => SFltb r.2 p.2 = false) l /\ Forall (fun p => is_nan p.2 = true \/ SFltb p.2 r.2 = true) l1).
Proof.
  induction l as [|p l IH]; intros acc Hacc; [by left|].
  cbn [foldl]. unfold argmax_step at 2 4. destruct (SFltb acc.2 p.2) eqn:Hp.
  - right. assert (is_nan p.2 = false) as Hn by (by apply SFltb_key in Hp as (_ & ? & _)).
    destruct (IH p Hn) as [[-> H]|(l1 & r & l2 & -> & E & Hr & H & H1)].
    + exists [], p, l. repeat split; auto. constructor; [apply SFltb_irrefl|done].
    + exists (p :: l1), r, l2. rewrite E. repeat split; eauto using SFltb_trans.
      constructor; [|done]. destruct (SFltb r.2 p.2) eqn:F; [|done].
      by rewrite <- (SFltb_irrefl p.2), (SFltb_trans _ _ _ Hr F).
  - destruct (IH acc Hacc) as [[-> H]|(l1 & r & l2 & -> & E & Hr & H & H1)].
    + left. by repeat constructor.
    + right. exists (p :: l1), r, l2. rewrite E. repeat split; [done| |].
      * constructor; [|done]. destruct (SFltb r.2 p.2) eqn:F; [|done].
        by rewrite <- Hp, (SFltb_trans _ _ _ Hr F).
      * constructor; [|done]. destruct (is_nan p.2) eqn:Hn; [by left|right].
        destruct (SFltb_neg_trans _ _ _ Hn Hr) as [F|F]; [by rewrite Hp in F|exact F].
Qed.

Lemma lookup_pairs (l : list f32) p : p ∈ imap pair l -> l !! p.1 = Some p.2.
Proof. intros (i & y & -> & H)%elem_of_lookup_imap. done. Qed.

(** What [argmax] answers. *)
Definition argmax_of (logits : list f32) (a : nat) : Prop :=
  exists v, logits !! a = Some v /\ SFltb NEG_INFINITY v = true /\
    (forall j w, logits !! j = Some w -> SFltb v w = false) /\
    (forall j w, j < a -> logits !! j = Some w -> is_nan w = true \/ SFltb w v = true).

Lemma argmax_spec logits :
  argmax_of logits (argmax logits) \/
  argmax logits = 0 /\ Forall (fun v => SFltb NEG_INFINITY v = false) logits.
Proof.
  unfold argmax. destruct (argmax_scan (imap pair logits) (0, NEG_INFINITY) eq_refl)
    as [[-> H]|(l1 & r & l2 & E & -> & Hr & H & H1)].
  - right. split; [done|]. apply Forall_lookup. intros i v Hi. rewrite Forall_lookup in H.
    apply (H i (i, v)). by rewrite list_lookup_imap, Hi.
  - left. exists r.2. assert (imap pair logits !! length l1 = Some r) as Hl by (by rewrite E, list_lookup_middle).
    rewrite list_lookup_imap in Hl. apply fmap_Some in Hl as (v & Hv & ->). cbn in *. repeat split; [done|done| |].
    + intros j w Hj. rewrite Forall_lookup in H. apply (H j (j, w)). by rewrite list_lookup_imap, Hj.
    + intros j w Hlt Hj. rewrite Forall_lookup in H1. apply (H1 j (j, w)).
      rewrite <- (lookup_app_l l1 ((length l1, v) :: l2)) by done. by rewrite <- E, list_lookup_imap, Hj.
Qed.

Lemma argmax_lt logits : logits <> [] -> argmax logits < length logits.
Proof.
  intros Hne. destruct (argmax_spec logits) as [(v & H & _)|[-> _]]; [by eapply lookup_lt_Some|].
  destruct logits; [done|simpl; lia].
Qed.

(** ** Means of rows *)

Lemma mix_values_length w ws vs : Forall (fun v => length v = w) vs -> length (mix_values w ws vs) = w.
Proof.
  intros Hv. unfold mix_values. assert (length (replicate w f0) = w) as H0 by apply length_replicate. revert ws H0.
  generalize (replicate w f0). induction Hv as [|v vs Hv _ IH]; intros acc ws Ha; [by destruct ws|]. destruct ws as [|a ws]; [done|].
  cbn [combine foldl]. apply IH. unfold f32_zip. rewrite length_map, length_combine. lia.
Qed.

(** ** Sampling *)

Lemma all_numbers_iff l : all_numbers l = true <-> Forall (fun x => is_nan x = false) l.
Proof.
  unfold all_numbers. rewrite forallb_forall, Forall_forall. split; intros H x Hx; specialize (H x);
    rewrite ?list_elem_of_In, ?negb_true_iff in *; auto.
Qed.

Lemma pick_in probs target nucleus : forall acc last, nucleus <> [] -> pick probs target acc last nucleus ∈ nucleus.
Proof.
  induction nucleus as [|i nucleus IH]; intros acc last Hn; [done|]. cbn [pick]. destruct (SFltb _ _); [left|].
  destruct nucleus as [|j nucleus]; [left|]. right. by apply IH.
Qed.

(** What comes first: the more probable token, of equals the earlier one. *)
Definition ahead (probs : list f32) (i j : nat) : Prop :=
  SFltb (nth j probs f0) (nth i probs f0) = true \/ SFltb (nth i probs f0) (nth j probs f0) = false /\ i < j.

Lemma nucleus_order_sorted probs order : nucleus_order probs = Some order ->
  order ≡ₚ seq 0 (length probs) /\ StronglySorted (ahead probs) order.
Proof.
  unfold nucleus_order. destruct (all_numbers probs) eqn:Hn; [|done]. apply all_numbers_iff in Hn. intros [= <-].
  split; [apply sort_by_perm|]. set (p i := nth i probs f0).
  assert (forall i, is_nan (p i) = false) as Hp.
  { intros i. unfold p. destruct (decide (i < length probs)); [|by rewrite nth_overflow by lia].
    rewrite Forall_forall in Hn. by apply Hn, list_elem_of_In, nth_In. }
  set (lex i j := SFltb (p j) (p i) || negb (SFltb (p i) (p j)) && (i <=? j)).
  rewrite (sort_by_agree _ lex).
  - assert (StronglySorted (fun i j => lex i j = true) (sort_by lex (seq 0 (length probs)))) as Hs.
    { apply sort_by_sorted; unfold lex.
      - intros i j. destruct (SFltb (p i) (p j)) eqn:E1, (SFltb (p j) (p i)) eqn:E2; cbn; try done; try lia.
      - intros i j k H H0. apply orb_true_iff in H as [H|H], H0 as [H0|H0]; rewrite ?andb_true_iff, ?negb_true_iff in *.
        + by rewrite (SFltb_trans _ _ _ H0 H).
        + destruct (SFltb_neg_trans _ _ _ (Hp k) H) as [F| ->]; [|done]. destruct H0. congruence.
        + destruct (SFltb_neg_trans _ _ _ (Hp i) H0) as [->|F]; [done|]. destruct H. congruence.
        + destruct H as [H1 H2], H0 as [H3 H4]. rewrite (proj2 (Nat.leb_le i k)) by lia. rewrite andb_true_r.
          destruct (SFltb (p i) (p k)) eqn:F; [|by rewrite orb_true_r]. destruct (SFltb_neg_trans _ _ _ (Hp j) F); congruence. }
    eapply StronglySorted_distinct; [|exact Hs|].
    + rewrite sort_by_perm. apply NoDup_seq.
    + unfold lex, ahead. fold p. intros i j Hij H. apply orb_true_iff in H as [H|H]; [by left|right]. apply andb_true_iff in H as [H1%negb_true_iff H2%Nat.leb_le]. split; [done|lia].
  - apply StronglySorted_seq. unfold lex. intros i j Hij. rewrite (proj2 (Nat.leb_le i j)) by lia. rewrite andb_true_r.
    change (nth i probs f0) with (p i). change (nth j probs f0) with (p j). destruct (SFltb (p i) (p j)) eqn:E1; cbn [negb]; [|by rewrite orb_true_r]. rewrite orb_false_r. symmetry. apply not_true_is_false.
    intros E2. pose proof (SFltb_trans _ _ _ E1 E2) as E. by rewrite SFltb_irrefl in E.
Qed.

(** The mass of the first tokens of an order, summed in that order. *)
Definition mass_of (probs : list f32) (order : list nat) (k : nat) : f32 :=
  foldl (fun cum i => f32_add cum (nth i probs f0)) f0 (take k order).

(** The cut-off: the first place where the mass reaches [p], or the end. *)
Lemma cutoff_first probs p order : forall cum, order <> [] ->
  let k := cutoff probs p cum order in
  let mass j := foldl (fun cum i => f32_add cum (nth i probs f0)) cum (take j order) in
  0 < k <= length order /\ (forall j, 0 < j < k -> SFleb p (mass j) = false) /\ (k = length order \/ SFleb p (mass k) = true).
Proof.
  induction order as [|i order IH]; intros cum Hn; [done|]. cbv zeta. cbn [cutoff length].
  destruct (SFleb p (f32_add cum (nth i probs f0))) eqn:E; [split_and!; [lia|lia|lia|by right]|].
  destruct order as [|i' order]; [cbn; split_and!; [lia|lia| |by left]; intros [|[|j]] Hj; [lia|exact E|lia]|].
  destruct (IH (f32_add cum (nth i probs f0))) as (H1 & H2 & H3); [done|]. cbv zeta in H1, H2, H3.
  set (k := cutoff _ _ _ _) in *. split_and!; [lia|lia| |].
  - intros [|[|j]] Hj; [lia|exact E|]. apply (H2 (S j)). lia.
  - destruct H3 as [->|H3]; [by left|by right].
Qed.

(** C31: the next token.  At temperature zero or less sampling is greedy, and the
    greedy choice is the first of the largest logits, a NaN never chosen over a
    number (token 0 when nothing exceeds minus infinity).  Above, when no
    probability is a NaN, the tokens are ranked by probability, of equals the
    earlier first, and the answer, for any draw, is one of the shortest prefix of
    that ranking whose mass reaches [top_p] (of all, when none does). *)
Theorem sampling_correct expf logits cfg uniform :
  logits <> [] ->
  let probs := softmax_temp expf logits (temperature cfg) in
  (SFleb (temperature cfg) f0 = true ->
   exists t, sample_top_p expf logits cfg uniform = Some t /\ t < length logits /\
     (argmax_of logits t \/ t = 0 /\ Forall (fun v => SFltb NEG_INFINITY v = false) logits)) /\
  (SFleb (temperature cfg) f0 = false -> Forall (fun p => is_nan p = false) probs ->
   exists t order k, sample_top_p expf logits cfg uniform = Some t /\ t < length logits /\
     order ≡ₚ seq 0 (length logits) /\ StronglySorted (ahead probs) order /\ t ∈ take k order /\
     0 < k <= length order /\ (forall j, 0 < j < k -> SFleb (top_p cfg) (mass_of probs order j) = false) /\
     (k = length order \/ SFleb (top_p cfg) (mass_of probs order k) = true)).
Proof.
  intros Hne probs. unfold sample_top_p. fold probs. split; intros Ht; rewrite Ht.
  { exists (argmax logits). split; [done|]. split; [by apply argmax_lt|apply argmax_spec]. }
  intros Hn. assert (length probs = length logits) as Hl.
  { unfold probs, softmax_temp. rewrite Ht. unfold normalized. destruct (SFltb _ _); cbn; by rewrite ?length_map. }
  assert (is_Some (nucleus_order probs)) as [order Ho].
  { unfold nucleus_order. rewrite (proj2 (all_numbers_iff probs) Hn). by eexists. }
  destruct (nucleus_order_sorted probs order Ho) as [Hp Hs]. rewrite Hl in Hp.
  assert (order <> []) as Hon.
  { intros ->. apply Permutation_length in Hp. rewrite length_seq in Hp. destruct logits; [done|discriminate Hp]. }
  destruct (cutoff_first probs (top_p cfg) order f0 Hon) as (H1 & H2 & H3). rewrite Ho. set (k := cutoff _ _ _ order) in *.
  set (t := pick _ _ _ _ _). assert (t ∈ take k order) as Hin.
  { apply pick_in. destruct order; [done|]. by destruct k; [lia|]. }
  exists t, order, k. split_and!; try done; try lia.
  assert (t ∈ seq 0 (length logits)) as Hi by (rewrite <- Hp; by eapply (subseteq_take k)). apply elem_of_seq in Hi. lia.
Qed.

Definition sample_logits : list f32 := [f32_one; S754_nan; f32_two; f32_two].
(** Greedy in spite of a NaN; and drawn from the more probable of two tokens. *)
Lemma sampling_correct_witness :
  argmax sample_logits = 2 /\
  (exists t, sample_top_p (fun x => x) sample_logits {| temperature := f0; top_p := f32_one |} f0 = Some t /\ t < length sample_logits /\
    (argmax_of sample_logits t \/ t = 0 /\ Forall (fun v => SFltb NEG_INFINITY v = false) sample_logits)) /\
  let expf x := if SFltb x f0 then f32_from_bits 0x3E800000 else f32_one in
  exists t order k, sample_top_p expf [f0; f32_one] {| temperature := f32_one; top_p := f32_from_bits 0x3F000000 |} f0 = Some t /\ t < 2 /\
     order ≡ₚ seq 0 2 /\ StronglySorted (ahead (softmax_temp expf [f0; f32_one] f32_one)) order /\ t ∈ take k order /\
     0 < k <= length order /\
     (forall j, 0 < j < k -> SFleb (f32_from_bits 0x3F000000) (mass_of (softmax_temp expf [f0; f32_one] f32_one) order j) = false) /\
     (k = length order \/ SFleb (f32_from_bits 0x3F000000) (mass_of (softmax_temp expf [f0; f32_one] f32_one) order k) = true).
Proof.
  split; [by vm_compute|]. split.
  - apply (proj1 (sampling_correct (fun x => x) sample_logits {| temperature := f0; top_p := f32_one |} f0 ltac:(done))). reflexivity.
  - intros expf. apply (proj2 (sampling_correct expf [f0; f32_one] {| temperature := f32_one; top_p := f32_from_bits 0x3F000000 |} f0 ltac:(done))).
    + reflexivity.
    + repeat constructor.
Defined.
