(* ===== verification/Floats.v ===== *)
(** * Facts on binary32 arithmetic

    [SpecFloat]'s rounding computed exactly where the value is representable,
    and bounded where it is not: what the proofs about codes and scales need. *)

From Stdlib Require Import ZifyBool SpecFloat.
From S2P Require Import Prelude DType Math.
Local Open Scope Z_scope.

(** ** Shifts *)

Lemma digits_log2 p : Zpos (digits2_pos p) = Z.log2 (Zpos p) + 1.
Proof.
  induction p as [p IH|p IH|]; cbn [digits2_pos]; [| |done]; rewrite Pos2Z.inj_succ, IH.
  - change (Zpos p~1) with (2 * Zpos p + 1). rewrite Z.log2_succ_double by lia. lia.
  - change (Zpos p~0) with (2 * Zpos p). rewrite Z.log2_double by lia. lia.
Qed.

Lemma shr_1_m r : 0 <= shr_m r -> shr_m (shr_1 r) = shr_m r / 2.
Proof.
  intros Hm. rewrite <- Z.div2_div. destruct r as [[|[p|p|]|p] a b]; cbn in *; done || lia.
Qed.

Lemma iter_pos_nat {A} (f : A -> A) p : forall x, SpecFloat.iter_pos f p x = Nat.iter (Pos.to_nat p) f x.
Proof.
  induction p as [p IH|p IH|]; intros x; cbn [SpecFloat.iter_pos]; [| |done]; rewrite !IH.
  - rewrite Pos2Nat.inj_xI, Nat.iter_succ_r. replace (2 * Pos.to_nat p)%nat with (Pos.to_nat p + Pos.to_nat p)%nat by lia.
    by rewrite Nat.iter_add.
  - rewrite Pos2Nat.inj_xO. replace (2 * Pos.to_nat p)%nat with (Pos.to_nat p + Pos.to_nat p)%nat by lia.
    by rewrite Nat.iter_add.
Qed.

Lemma shr_iter_m n r : 0 <= shr_m r -> shr_m (Nat.iter n shr_1 r) = shr_m r / 2 ^ Z.of_nat n.
Proof.
  intros Hr. induction n as [|n IH]; [by rewrite Z.div_1_r|].
  rewrite Nat.iter_succ, shr_1_m; rewrite IH by done.
  - rewrite Nat2Z.inj_succ, Z.pow_succ_r, Z.mul_comm, Z.div_div by lia. done.
  - apply Z.div_pos; lia.
Qed.

Lemma shr_iter_exact n q : 0 <= q ->
  Nat.iter n shr_1 {| shr_m := q * 2 ^ Z.of_nat n; shr_r := false; shr_s := false |} =
  {| shr_m := q; shr_r := false; shr_s := false |}.
Proof.
  intros Hq. induction n as [|n IH]; [cbn; by rewrite Z.mul_1_r|].
  rewrite Nat.iter_succ_r, Nat2Z.inj_succ, Z.pow_succ_r by lia.
  replace (q * (2 * 2 ^ Z.of_nat n)) with (2 * (q * 2 ^ Z.of_nat n)) by lia.
  assert (shr_1 {| shr_m := 2 * (q * 2 ^ Z.of_nat n); shr_r := false; shr_s := false |} =
          {| shr_m := q * 2 ^ Z.of_nat n; shr_r := false; shr_s := false |}) as ->; [|done].
  assert (0 <= q * 2 ^ Z.of_nat n) by lia. destruct (q * 2 ^ Z.of_nat n); [done|done|lia].
Qed.

(** ** Rounding to 24 digits *)

Abbreviation fexp32 := (fexp 24 128).

Lemma fexp32_eq e : fexp32 e = Z.max (e - 24) (-149).
Proof. done. Qed.

(** A shift the format asks for leaves at most 24 digits. *)
Lemma shr_fexp_m m e l mrs e' :
  0 <= m -> shr_fexp 24 128 m e l = (mrs, e') ->
  shr_m mrs = m / 2 ^ (e' - e) /\ e <= e' /\ 0 <= shr_m mrs < 2 ^ 24.
Proof.
  intros Hm. unfold shr_fexp. rewrite fexp32_eq.
  assert (shr_m (shr_record_of_loc m l) = m) as Hl by (by destruct l as [|[]]).
  assert (m < 2 ^ Zdigits2 m /\ 0 <= Zdigits2 m) as [Hd Hd0].
  { destruct m as [|p|p]; cbn [Zdigits2]; [lia| |lia]. rewrite digits_log2.
    pose proof (Z.log2_spec (Zpos p) ltac:(lia)). pose proof (Z.log2_nonneg (Zpos p)).
    rewrite <- Z.add_1_r in *. lia. }
  destruct (Z.max (Zdigits2 m + e - 24) (-149) - e) as [|p|p] eqn:Hk; unfold shr.
  - intros [= <- <-]. rewrite Hl, Z.sub_diag, Z.div_1_r. repeat split; try lia.
    eapply Z.lt_le_trans; [exact Hd|]. apply Z.pow_le_mono_r; lia.
  - intros [= <- <-]. rewrite iter_pos_nat, shr_iter_m, Hl by lia. rewrite positive_nat_Z.
    replace (e + Z.pos p - e) with (Z.pos p) by lia. repeat split; try lia.
    apply Z.div_lt_upper_bound; [lia|]. rewrite <- Z.pow_add_r by lia.
    eapply Z.lt_le_trans; [exact Hd|]. apply Z.pow_le_mono_r; lia.
  - intros [= <- <-]. rewrite Hl, Z.sub_diag, Z.div_1_r. repeat split; try lia.
    eapply Z.lt_le_trans; [exact Hd|]. apply Z.pow_le_mono_r; lia.
Qed.

Lemma round_even_bound q l : q <= round_nearest_even q l <= q + 1.
Proof. destruct l as [|[]]; cbn; try destruct (Z.even q); lia. Qed.

Lemma round_aux_bound s m e l s' m' e' :
  0 <= m -> binary_round_aux 24 128 s m e l = S754_finite s' m' e' -> s' = s /\ Zpos m' < 2 ^ 24.
Proof.
  intros Hm. unfold binary_round_aux. destruct (shr_fexp 24 128 m e l) as [r1 e1] eqn:E1.
  apply shr_fexp_m in E1 as (_ & _ & H1); [|done].
  destruct (shr_fexp _ _ (round_nearest_even _ _) _ _) as [r2 e2] eqn:E2.
  apply shr_fexp_m in E2 as (_ & _ & H2); [|pose proof (round_even_bound (shr_m r1) (loc_of_shr_record r1)); lia].
  destruct (shr_m r2) as [|p|p]; [done| |done]. destruct (_ <=? _); [|done]. intros [= <- <- <-]. split; [done|lia].
Qed.

(** A representable value is returned as it is. *)
Lemma shr_fexp_exact q k e : 0 < q ->
  Z.max (Z.log2 q + 1 + Z.of_nat k + e - 24) (-149) = e + Z.of_nat k ->
  shr_fexp 24 128 (q * 2 ^ Z.of_nat k) e loc_Exact =
  ({| shr_m := q; shr_r := false; shr_s := false |}, e + Z.of_nat k).
Proof.
  intros Hq He. unfold shr_fexp. rewrite fexp32_eq.
  assert (Zdigits2 (q * 2 ^ Z.of_nat k) = Z.log2 q + 1 + Z.of_nat k) as ->.
  { assert (0 < q * 2 ^ Z.of_nat k) by lia. destruct (q * 2 ^ Z.of_nat k) as [|p|p] eqn:Hp; try lia. cbn [Zdigits2].
    rewrite digits_log2, <- Hp, Z.log2_mul_pow2 by lia. lia. }
  replace (Z.max _ _ - e) with (Z.of_nat k) by lia. cbn [shr_record_of_loc].
  destruct k as [|k].
  - cbn. by rewrite Z.mul_1_r, Z.add_0_r.
  - change (Z.of_nat (S k)) with (Zpos (Pos.of_succ_nat k)) at 2 3. unfold shr.
    by rewrite iter_pos_nat, SuccNat2Pos.id_succ, shr_iter_exact by lia.
Qed.

Lemma round_aux_exact s p k e :
  let e' := e + Z.of_nat k in
  Z.max (Z.log2 (Zpos p) + 1 + e' - 24) (-149) = e' -> e' <= 104 ->
  binary_round_aux 24 128 s (Zpos p * 2 ^ Z.of_nat k) e loc_Exact = S754_finite s p e'.
Proof.
  intros e' He Hm. unfold binary_round_aux. rewrite shr_fexp_exact by (unfold e' in *; lia).
  cbn [loc_of_shr_record round_nearest_even shr_m].
  pose proof (shr_fexp_exact (Zpos p) 0 e' ltac:(lia) ltac:(lia)) as E.
  rewrite Z.mul_1_r in E. change (Z.of_nat 0) with 0 in E. rewrite Z.add_0_r in E. fold e'. rewrite E. cbn [shr_m].
  destruct (Z.leb_spec e' (128 - 24)); [done|lia].
Qed.

(** ** Integers *)

Definition exact24 (s : bool) (n : Z) : spec_float :=
  S754_finite s (Z.to_pos (n * 2 ^ (23 - Z.log2 n))) (Z.log2 n - 23).

Lemma round_small s p : Zpos p < 2 ^ 24 -> binary_round 24 128 s p 0 = exact24 s (Zpos p).
Proof.
  intros Hp. pose proof (Z.log2_nonneg (Zpos p)).
  assert (Z.log2 (Zpos p) <= 23) by (pose proof (proj1 (Z.log2_lt_pow2 (Zpos p) 24 ltac:(lia)) Hp); lia).
  unfold binary_round, exact24. rewrite digits_log2, fexp32_eq.
  replace (Z.max _ _) with (Z.log2 (Z.pos p) - 23) by lia. unfold shl_align. rewrite Z.sub_0_r.
  destruct (Z.log2 (Z.pos p) - 23) as [|d|d] eqn:Hd; [|lia|].
  - replace (23 - _) with 0 by lia. rewrite Z.mul_1_r. cbn [Z.to_pos].
    rewrite <- (Z.mul_1_r (Z.pos p)). change 1 with (2 ^ Z.of_nat 0). rewrite round_aux_exact by lia. done.
  - replace (23 - _) with (Zpos d) by lia. rewrite <- iter_xO. cbn [Z.to_pos].
    rewrite <- (Z.mul_1_r (Z.pos (Pos.iter xO p d))). change 1 with (2 ^ Z.of_nat 0).
    rewrite round_aux_exact; [f_equal; lia| |lia]. rewrite iter_xO, Z.log2_mul_pow2 by lia. lia.
Qed.

Lemma f32_of_Z_exact n : 0 < n < 2 ^ 24 -> f32_of_Z n = exact24 false n /\ f32_of_Z (- n) = exact24 true n.
Proof. intros Hn. destruct n as [|p|p]; try lia. split; unfold f32_of_Z, binary_normalize; cbn [Z.opp]; apply round_small; lia. Qed.

(** ** Products *)

Abbreviation valid32 := (valid_binary 24 128).

Lemma bounded_log2 m e : bounded 24 128 m e = true -> e = Z.max (Z.log2 (Zpos m) + 1 + e - 24) (-149) /\ e <= 104.
Proof.
  unfold bounded, canonical_mantissa. rewrite digits_log2, fexp32_eq. intros [H1%Zeq_bool_eq H2]%andb_prop. lia.
Qed.

Lemma mul_one_l x : valid32 x = true -> f32_mul f32_one x = x.
Proof.
  intros H. destruct x as [s|s| |s m e]; try done.
  apply bounded_log2 in H as [H1 H2]. change f32_one with (S754_finite false 8388608 (-23)).
  unfold f32_mul, SFmul. rewrite Pos.mul_comm. rewrite Pos2Z.inj_mul. change 8388608 with (2 ^ Z.of_nat 23).
  rewrite round_aux_exact; [f_equal; [try (by destruct s)..|]; lia|lia|lia].
Qed.

Lemma mul_neg_one_l x : valid32 x = true -> f32_mul (f32_of_Z (-1)) x = SFopp x.
Proof.
  intros H. destruct x as [s|s| |s m e]; try done.
  apply bounded_log2 in H as [H1 H2]. change (f32_of_Z (-1)) with (S754_finite true 8388608 (-23)).
  unfold f32_mul, SFmul. rewrite Pos.mul_comm. rewrite Pos2Z.inj_mul. change 8388608 with (2 ^ Z.of_nat 23).
  rewrite round_aux_exact; [cbn; f_equal; lia|lia|lia].
Qed.

(** A product has at most 24 digits. *)
Lemma mul_digits x y s m e : f32_mul x y = S754_finite s m e -> Zpos m < 2 ^ 24.
Proof.
  destruct x as [|[]| |], y as [|[]| |]; cbn; try done. intros H. by apply round_aux_bound in H as [_ H].
Qed.

(** ** Small integers as floats *)

Lemma exact24_key s n : 0 < n < 2 ^ 24 ->
  exists m e, exact24 s n = S754_finite s m e /\ Zpos m = n * 2 ^ (- e) /\ e = Z.log2 n - 23 /\ e <= 0.
Proof.
  intros Hn. assert (Z.log2 n <= 23) by (pose proof (proj1 (Z.log2_lt_pow2 n 24 ltac:(lia)) ltac:(lia)); lia).
  exists (Z.to_pos (n * 2 ^ (23 - Z.log2 n))), (Z.log2 n - 23). split; [done|].
  replace (- (Z.log2 n - 23)) with (23 - Z.log2 n) by lia. rewrite Z2Pos.id by lia. lia.
Qed.

Lemma f32_of_Z_cases n : - 2 ^ 24 < n < 2 ^ 24 ->
  n = 0 /\ f32_of_Z n = f0 \/
  exists m e, f32_of_Z n = S754_finite (n <? 0) m e /\ Zpos m = Z.abs n * 2 ^ (- e) /\ e = Z.log2 (Z.abs n) - 23 /\ e <= 0.
Proof.
  intros Hn. destruct (Z.lt_trichotomy n 0) as [H|[->|H]]; [right|by left|right].
  - destruct (exact24_key true (- n) ltac:(lia)) as (m & e & E & Hm & He).
    exists m, e. rewrite <- (Z.opp_involutive n) at 1. rewrite (proj2 (f32_of_Z_exact (- n) ltac:(lia))), E.
    replace (Z.abs n) with (- n) by lia. replace (n <? 0) with true by lia. done.
  - destruct (exact24_key false n ltac:(lia)) as (m & e & E & Hm & He).
    exists m, e. rewrite (proj1 (f32_of_Z_exact n ltac:(lia))), E.
    replace (Z.abs n) with n by lia. replace (n <? 0) with false by lia. done.
Qed.

Lemma exact24_mono a b ma mb ea eb : 0 < a < b ->
  ma = a * 2 ^ (- ea) -> mb = b * 2 ^ (- eb) -> ea = Z.log2 a - 23 -> eb = Z.log2 b - 23 -> eb <= 0 ->
  ea < eb \/ ea = eb /\ ma < mb.
Proof.
  intros Hab -> -> -> -> He. pose proof (Z.log2_le_mono a b ltac:(lia)).
  destruct (Z.eq_dec (Z.log2 a) (Z.log2 b)) as [->|]; [right|left; lia].
  split; [done|]. apply Z.mul_lt_mono_pos_r; lia.
Qed.

Lemma f32_of_Z_lt a b : - 2 ^ 24 < a < 2 ^ 24 -> - 2 ^ 24 < b < 2 ^ 24 -> SFltb (f32_of_Z a) (f32_of_Z b) = (a <? b).
Proof.
  intros Ha Hb. apply eq_true_iff_eq. rewrite SFltb_key, Z.ltb_lt.
  destruct (f32_of_Z_cases a Ha) as [[-> ->]|(ma & ea & -> & Hma & Hea & ?)],
           (f32_of_Z_cases b Hb) as [[-> ->]|(mb & eb & -> & Hmb & Heb & ?)]; cbn [is_nan key].
  - cbn. lia.
  - destruct (Z.ltb_spec b 0); cbn [key key_lt]; intuition lia.
  - destruct (Z.ltb_spec a 0); cbn [key key_lt]; intuition lia.
  - assert (a <> 0 /\ b <> 0) as [Ha0 Hb0] by (split; intros ->; cbn in *; lia).
    destruct (Z.ltb_spec a 0) as [La|La], (Z.ltb_spec b 0) as [Lb|Lb]; cbn [key key_lt]; try (intuition lia).
    + destruct (Z.lt_trichotomy a b) as [L|[->|L]].
      * destruct (exact24_mono (Z.abs b) (Z.abs a) _ _ _ _ ltac:(lia) Hmb Hma Heb Hea ltac:(lia)); intuition lia.
      * rewrite Hea, Heb in *. intuition lia.
      * destruct (exact24_mono (Z.abs a) (Z.abs b) _ _ _ _ ltac:(lia) Hma Hmb Hea Heb ltac:(lia)); intuition lia.
    + destruct (Z.lt_trichotomy a b) as [L|[->|L]].
      * destruct (exact24_mono (Z.abs a) (Z.abs b) _ _ _ _ ltac:(lia) Hma Hmb Hea Heb ltac:(lia)); intuition lia.
      * rewrite Hea, Heb in *. intuition lia.
      * destruct (exact24_mono (Z.abs b) (Z.abs a) _ _ _ _ ltac:(lia) Hmb Hma Heb Hea ltac:(lia)); intuition lia.
Qed.

Lemma f32_trunc_of_Z n : - 2 ^ 24 < n < 2 ^ 24 -> f32_trunc (f32_of_Z n) = n.
Proof.
  intros Hn. destruct (f32_of_Z_cases n Hn) as [[-> ->]|(m & e & -> & Hm & He & Hle)]; [done|].
  unfold f32_trunc. assert ((if 0 <=? e then Z.pos m * 2 ^ e else Z.pos m / 2 ^ (- e)) = Z.abs n) as ->.
  { destruct (Z.leb_spec 0 e).
    - replace e with 0 in * by lia. rewrite Hm. cbn. lia.
    - rewrite Hm. apply Z.div_mul. lia. }
  destruct (Z.ltb_spec n 0); lia.
Qed.

Lemma f32_to_i_of_Z w n : - 2 ^ 24 < n < 2 ^ 24 -> - 2 ^ (w - 1) <= n < 2 ^ (w - 1) -> f32_to_i w (f32_of_Z n) = n.
Proof.
  intros Hn Hw. pose proof (f32_trunc_of_Z n Hn) as Ht. unfold f32_to_i.
  destruct (f32_of_Z_cases n Hn) as [[-> E]|(m & e & E & _)]; rewrite E in *; rewrite Ht; lia.
Qed.

(** A rounded product, clamped between small integers, is an integer between
    them (a NaN is cast to 0). *)
Lemma clamped_code w lo hi x y :
  - 2 ^ 23 < lo <= 0 -> 0 <= hi < 2 ^ 23 -> - 2 ^ (w - 1) <= lo -> hi < 2 ^ (w - 1) ->
  lo <= f32_to_i w (f32_clamp (f32_round_ties_even (f32_mul x y)) (f32_of_Z lo) (f32_of_Z hi)) <= hi.
Proof.
  intros Hlo Hhi Hw1 Hw2. set (p := f32_mul x y). pose proof (mul_digits x y) as Hd. fold p in Hd.
  assert (forall n, - 2 ^ 24 < n < 2 ^ 24 -> lo <= f32_to_i w (f32_clamp (f32_of_Z n) (f32_of_Z lo) (f32_of_Z hi)) <= hi) as Hint.
  { intros n Hn. unfold f32_clamp. rewrite !f32_of_Z_lt by lia.
    destruct (Z.ltb_spec n lo); [|destruct (Z.ltb_spec hi n)]; rewrite f32_to_i_of_Z; lia. }
  assert (forall z, (exists s, z = S754_infinity s) \/ (exists s m e, z = S754_finite s m e /\ 0 <= e) ->
    lo <= f32_to_i w (f32_clamp z (f32_of_Z lo) (f32_of_Z hi)) <= hi) as Hbig.
  { intros z Hz. unfold f32_clamp.
    assert (forall n, - 2 ^ 23 < n < 2 ^ 23 -> is_nan (f32_of_Z n) = false /\ forall s m e, f32_of_Z n = S754_finite s m e -> e < 0) as Hk.
    { intros n Hn. destruct (f32_of_Z_cases n ltac:(lia)) as [[-> ->]|(m & e & -> & Hm & He & _)]; [done|]. split; [done|].
      intros s' m' e' [= <- <- <-]. destruct (Z.eq_dec n 0) as [->|]; [cbn in *; lia|].
      pose proof (proj1 (Z.log2_lt_pow2 (Z.abs n) 23 ltac:(lia)) ltac:(lia)). lia. }
    destruct (Hk lo ltac:(lia)) as [Nlo Klo], (Hk hi ltac:(lia)) as [Nhi Khi].
    assert (SFltb z (f32_of_Z lo) = true \/ SFltb z (f32_of_Z lo) = false /\ SFltb (f32_of_Z hi) z = true) as Hc.
    { rewrite <- not_true_iff_false, !SFltb_key.
      destruct Hz as [[s ->]|(s & m & e & -> & He)]; destruct s.
      - left. repeat split; [done|]. destruct (f32_of_Z lo) as [[]|[]| |[] ? ?] eqn:El; cbn in *; try lia.
        destruct (f32_of_Z_cases lo ltac:(lia)) as [[_ ?]|(?&?&?&_)]; congruence.
      - right. split.
        + intros (_ & _ & H). destruct (f32_of_Z lo) as [[]|[]| |[] ? ?] eqn:El; cbn in *; try lia.
        + repeat split; [done|]. destruct (f32_of_Z hi) as [[]|[]| |[] ? ?] eqn:El; cbn in *; try lia.
          destruct (f32_of_Z_cases hi ltac:(lia)) as [[_ ?]|(?&?&?&_)]; congruence.
      - left. repeat split; [done|]. destruct (f32_of_Z lo) as [[]|[]| |[] ? ?] eqn:El; cbn in *; try lia.
        + destruct (f32_of_Z_cases lo ltac:(lia)) as [[_ ?]|(?&?&?&_)]; congruence.
        + specialize (Klo _ _ _ eq_refl). lia.
      - right. split.
        + intros (_ & _ & H). destruct (f32_of_Z lo) as [[]|[]| |[] ? ?] eqn:El; cbn in *; try lia;
            destruct (f32_of_Z_cases lo ltac:(lia)) as [[_ ?]|(?&?&?&_)]; try congruence.
          rewrite El in *. destruct (Z.ltb_spec lo 0); [congruence|].
          replace lo with 0 in * by lia. done.
        + repeat split; [done|]. destruct (f32_of_Z hi) as [[]|[]| |[] ? ?] eqn:El; cbn in *; try lia.
          * destruct (f32_of_Z_cases hi ltac:(lia)) as [[_ ?]|(?&?&?&_)]; congruence.
          * specialize (Khi _ _ _ eq_refl). lia. }
    destruct Hc as [->|[-> ->]]; rewrite f32_to_i_of_Z; lia. }
  assert (forall s, lo <= f32_to_i w (f32_clamp (S754_zero s) (f32_of_Z lo) (f32_of_Z hi)) <= hi) as Hzero.
  { intros s. pose proof (Hint 0 ltac:(lia)) as H. unfold f32_clamp in *.
    assert (forall z, SFltb (S754_zero s) z = SFltb (f32_of_Z 0) z) as -> by (by intros []).
    assert (forall z, SFltb z (S754_zero s) = SFltb z (f32_of_Z 0)) as -> by (by intros []).
    destruct (SFltb _ _); [done|]. by destruct (SFltb _ _). }
  destruct p as [s|s| |s m e] eqn:Ep; cbn [f32_round_ties_even].
  - apply Hzero.
  - apply Hbig. eauto.
  - unfold f32_clamp. assert (forall z, SFltb z S754_nan = false) as -> by (by intros [[]|[]| |[]]). cbn. lia.
  - destruct (Z.leb_spec 0 e); [apply Hbig; right; eauto 6|].
    specialize (Hd s m e eq_refl). set (u := 2 ^ (- e)). assert (2 <= u) by (unfold u; apply (Z.pow_le_mono_r 2 1); lia).
    assert (0 <= Zpos m / u < 2 ^ 23) by (split; [apply Z.div_pos; lia|apply Z.div_lt_upper_bound; lia]).
    set (n := if _ || _ then _ else _). assert (0 <= n <= 2 ^ 23) by (unfold n; destruct (_ || _); lia).
    destruct (Z.eqb_spec n 0); [apply Hzero|]. destruct s; apply Hint; lia.
Qed.

(** ** Sums *)

Lemma f32_add_comm x y : f32_add x y = f32_add y x.
Proof.
  destruct x as [sx|sx| |sx mx ex], y as [sy|sy| |sy my ey]; cbn; try done; try (by destruct sx, sy).
  by rewrite (Z.min_comm ey ex), Z.add_comm.
Qed.

(** Two terms may be added to zero in either order; three may not. *)
Lemma f32_add_swap a b : f32_add (f32_add f0 a) b = f32_add (f32_add f0 b) a.
Proof.
  destruct a as [sa|sa| |sa ma ea] eqn:Ea, b as [sb|sb| |sb mb eb] eqn:Eb; try (by destruct sa, sb); try (by destruct sa);
    try (by destruct sb); try done.
  change (f32_add f0 (S754_finite sa ma ea)) with (S754_finite sa ma ea).
  change (f32_add f0 (S754_finite sb mb eb)) with (S754_finite sb mb eb). apply f32_add_comm.
Qed.

(** ** Sums that are not minus zero *)

Lemma shr_fexp_e m e l mrs e' : shr_fexp 24 128 m e l = (mrs, e') -> e' = Z.max e (Z.max (Zdigits2 m + e - 24) (-149)).
Proof.
  unfold shr_fexp. rewrite fexp32_eq. destruct (Z.max (Zdigits2 m + e - 24) (-149) - e) eqn:Hk; unfold shr; intros [= _ <-]; lia.
Qed.

Lemma shr_fexp_pos m e l mrs e' : 0 < m -> -149 <= e -> shr_fexp 24 128 m e l = (mrs, e') -> 0 < shr_m mrs /\ -149 <= e'.
Proof.
  intros Hm He E. pose proof (shr_fexp_e _ _ _ _ _ E) as He'. apply shr_fexp_m in E as (-> & _ & _); [|lia].
  split; [|lia]. apply Z.div_str_pos. split; [apply Z.pow_pos_nonneg; lia|].
  destruct m as [|p|p]; try lia. cbn [Zdigits2] in He'. rewrite digits_log2 in He'.
  pose proof (Z.log2_spec (Zpos p) ltac:(lia)). pose proof (Z.log2_nonneg (Zpos p)).
  eapply Z.le_trans; [|apply H]. apply Z.pow_le_mono_r; lia.
Qed.

(** No exponent below the format's. *)
Definition in_range (x : spec_float) : Prop := match x with S754_finite _ _ e => -149 <= e | _ => True end.

Lemma round_aux_in_range s m e l : in_range (binary_round_aux 24 128 s m e l).
Proof.
  unfold binary_round_aux. destruct (shr_fexp 24 128 m e l) as [r1 e1]. destruct (shr_fexp _ _ _ e1 _) as [r2 e2] eqn:E2.
  apply shr_fexp_e in E2. destruct (shr_m r2); cbn; [done| |done]. destruct (_ <=? _); cbn; [lia|done].
Qed.

Lemma round_aux_nonzero s m e l s' : 0 < m -> -149 <= e -> binary_round_aux 24 128 s m e l <> S754_zero s'.
Proof.
  intros Hm He. unfold binary_round_aux. destruct (shr_fexp 24 128 m e l) as [r1 e1] eqn:E1.
  apply shr_fexp_pos in E1 as [H1 He1]; [|done|done]. destruct (shr_fexp _ _ _ e1 _) as [r2 e2] eqn:E2.
  apply shr_fexp_pos in E2 as [H2 _]; [|pose proof (round_even_bound (shr_m r1) (loc_of_shr_record r1)); lia|done].
  destruct (shr_m r2); [lia| |done]. by destruct (_ <=? _).
Qed.

Lemma mul_in_range x y : in_range (f32_mul x y).
Proof. destruct x as [|[]| |], y as [|[]| |]; try exact I. apply round_aux_in_range. Qed.

Lemma binary_round_nonzero s p e s' : -149 <= e -> binary_round 24 128 s p e <> S754_zero s'.
Proof.
  intros He. unfold binary_round. rewrite fexp32_eq. unfold shl_align.
  destruct (Z.max _ _ - e) eqn:Hk; apply round_aux_nonzero; lia.
Qed.

Lemma add_neg_zero x y : in_range x -> in_range y -> x <> S754_zero true -> f32_add x y <> S754_zero true.
Proof.
  intros Hx Hy Hn. destruct x as [[]|[]| |sx mx ex], y as [[]|[]| |sy my ey]; try done.
  unfold f32_add, SFadd, binary_normalize. cbn in Hx, Hy.
  destruct (_ + _) as [|p|p]; [done|..]; apply binary_round_nonzero; lia.
Qed.

Lemma add_zero_r x : x <> S754_zero true -> f32_add x f0 = x.
Proof. by destruct x as [[]|[]| |[] m e]. Qed.
Lemma add_zero_l x : x <> S754_zero true -> f32_add f0 x = x.
Proof. by destruct x as [[]|[]| |[] m e]. Qed.
Lemma zero_add_pos x : f32_add f0 x <> S754_zero true.
Proof. by destruct x as [[]|[]| |[] m e]. Qed.
Lemma zero_add_in_range x : in_range x -> in_range (f32_add f0 x).
Proof. by destruct x as [[]|[]| |[] m e]. Qed.
(** Adding a zero first makes no difference to a sum that is not minus zero. *)
Lemma add_zero_add x y : x <> S754_zero true -> f32_add x (f32_add f0 y) = f32_add x y.
Proof. intros H. by destruct y as [[]|[]| |[] m e], x as [[]|[]| |[] m' e']. Qed.
