(* ===== verification/Linear.v ===== *)
(** * Weight tensors and matrix products ([crates/colibri-core/src/quant.rs],
      [crates/colibri-engine/src/linear.rs])

    A weight is a [QTensor]: rows of codes in one of seven formats with the
    scales the format needs.  The products are the portable ones: [dot_i8_f32]
    is the scalar loop (the aarch64 build vectorises it), and the CUDA
    dispatch is not modelled.  A dimension is an [i32] that is not negative.
    [Bytes] is what it dereferences to, a list of bytes. *)

From Stdlib Require Import ZifyBool ZifyNat SpecFloat.
From S2P Require Import Prelude Rows DType Math.
Local Open Scope nat_scope.

(** ** Formats and tensors *)

Inductive QFormat := F32 | Int8 | Bf16 | Int2.
Definition from_code (fmt : Z) : option QFormat :=
  if (fmt =? 0)%Z then Some F32 else if (fmt =? 1)%Z then Some Int8
  else if (fmt =? 2)%Z then Some Bf16 else if (fmt =? 3)%Z then Some Int2 else None.
Definition bits (f : QFormat) : Z := match f with F32 => 32 | Bf16 => 16 | Int8 => 8 | Int2 => 2 end.
Definition has_row_scale (f : QFormat) : bool := match f with F32 | Bf16 => false | Int8 | Int2 => true end.

Record QTensor := {
  fmt_code : Z; qt_qf : list f32; qt_q8 : list Z; qt_q4 : list Z; qt_s : list f32; qt_bs : list Z; qt_g : f32;
  qt_o : Z; qt_i : Z; gpu_eligible : bool
}.
Definition empty_qt : QTensor :=
  {| fmt_code := 0; qt_qf := []; qt_q8 := []; qt_q4 := []; qt_s := []; qt_bs := []; qt_g := f0;
     qt_o := 0; qt_i := 0; gpu_eligible := false |}.
Definition rows_of (w : QTensor) : nat := Z.to_nat (qt_o w).
Definition cols_of (w : QTensor) : nat := Z.to_nat (qt_i w).

(** [QTensor::bytes], in [i64]. *)
Definition qt_bytes (w : QTensor) : Z :=
  let '(o, i) := (qt_o w, qt_i w) in
  let n := i64 (o * i) in
  let c := fmt_code w in
  (if c =? 0 then i64 (n * 4)
   else if c =? 1 then i64 (n + o * 4)
   else if c =? 2 then i64 (n * 2)
   else if c =? 4 then i64 (n + o * 4)
   else if c =? 5 then i64 (o * Z.quot (i + 1) 2 + o * Z.quot (i + 15) 16 + 4)
   else if c =? 6 then i64 (o * Z.quot (i + 1) 2 + o * Z.quot (i + 31) 32 + 4)
   else if c =? 3 then i64 (o * Z.quot (i + 3) 4 + o * 4)
   else 0)%Z.

(** ** Codes *)

Definition half : f32 := f32_div f32_one f32_two.
Definition E2M1_mag : list f32 :=
  map (fun n => f32_mul (f32_of_Z n) half) [0; 1; 2; 3; 4; 6; 8; 12]%Z.
Definition E2M1 : list f32 := E2M1_mag ++ map SFopp E2M1_mag.
Definition e2m1 (nib : Z) : f32 := nth (Z.to_nat nib) E2M1 f0.

(** [e4m3_to_f32] of [linear.rs]: no code is a NaN. *)
Definition e4m3_to_f32 (b : Z) : f32 :=
  let sign := if negb (Z.land b 128 =? 0)%Z then SFopp f32_one else f32_one in
  let e := Z.land (Z.shiftr b 3) 15 in
  let m := f32_of_Z (Z.land b 7) in
  let eighth := f32_div m (f32_of_Z 8) in
  if (e =? 0)%Z then f32_mul (f32_mul sign eighth) (powi f32_two (-6))
  else f32_mul (f32_mul sign (f32_add f32_one eighth)) (powi f32_two (e - 7)).

(** The [k]-th two-bit code of a row, the [k]-th four-bit one. *)
Definition int2_code (row : list Z) (k : nat) : Z :=
  (Z.land (Z.shiftr (nth (k / 4) row 0%Z) (Z.of_nat (k mod 4) * 2)) 3 - 2)%Z.
Definition nibble (row : list Z) (k : nat) : Z :=
  let byte := nth (k / 2) row 0%Z in if (k mod 2 =? 1) then Z.shiftr byte 4 else Z.land byte 15.
Definition bf16_at (row : list Z) (k : nat) : f32 :=
  f32_from_bits (bf16_to_f32 (nth (2 * k) row 0 + 256 * nth (2 * k + 1) row 0)%Z).

(** ** One row of a weight *)

(** The factors a row contributes to a product, and what the sum is scaled by. *)
Definition row_factors (w : QTensor) (row : nat) : option (list f32 * option f32) :=
  let i := cols_of w in
  let slice {A} (l : list A) n := range l (row * n) ((row + 1) * n) in
  let c := fmt_code w in
  if (c =? 0)%Z then let* wr := slice (qt_qf w) i in Some (wr, None)
  else if (c =? 2)%Z then
    let* wr := slice (qt_q4 w) (i * 2) in Some (map (bf16_at wr) (seq 0 i), None)
  else if (c =? 1)%Z then
    let* wr := slice (qt_q8 w) i in let* sc := qt_s w !! row in Some (map f32_of_Z wr, Some sc)
  else if (c =? 3)%Z then
    let* wr := slice (qt_q4 w) ((i + 3) / 4) in let* sc := qt_s w !! row in
    Some (map (fun k => f32_of_Z (int2_code wr k)) (seq 0 i), Some sc)
  else if (c =? 4)%Z then
    let* wr := slice (qt_q4 w) i in let* sc := qt_s w !! row in Some (map e4m3_to_f32 wr, Some sc)
  else if (c =? 5)%Z then
    let* wr := slice (qt_q4 w) ((i + 1) / 2) in let* br := slice (qt_bs w) ((i + 15) / 16) in
    Some (map (fun k => f32_mul (e2m1 (nibble wr k)) (e4m3_to_f32 (nth (k / 16) br 0%Z))) (seq 0 i), Some (qt_g w))
  else if (c =? 6)%Z then
    let* wr := slice (qt_q4 w) ((i + 1) / 2) in let* br := slice (qt_bs w) ((i + 31) / 32) in
    Some (map (fun k => f32_mul (e2m1 (nibble wr k)) (f8e8m0_to_f32 (nth (k / 32) br 0%Z))) (seq 0 i), Some (qt_g w))
  else None.

(** ** Products *)

Definition dot_f32 (a b : list f32) : f32 :=
  fold_left (fun acc '(x, y) => f32_add acc (f32_mul x y)) (combine a b) f0.

(** Element [row] of the product for one input row: the [f32] and int8 loops
    multiply the input by the weight, the others the weight by the input. *)
Definition row_product (c : Z) (xs : list f32) (r : list f32 * option f32) : f32 :=
  let a := if (c =? 0)%Z || (c =? 1)%Z then dot_f32 xs r.1 else dot_f32 r.1 xs in
  match r.2 with Some sc => f32_mul a sc | None => a end.

(** [y] has length [y_len], and is overwritten.  Every row of the weight is
    sliced whatever [s] is. *)
Definition qt_rows (w : QTensor) : option (list (list f32 * option f32)) := mapM (row_factors w) (seq 0 (rows_of w)).
Definition qt_matvec (w : QTensor) (rows : list (list f32 * option f32)) (xs : list f32) : list f32 :=
  map (row_product (fmt_code w) xs) rows.
Definition matmul_qt (y_len : nat) (x : list f32) (w : QTensor) (s : nat) : option (list f32) :=
  let i := cols_of w in
  if negb ((length x =? s * i) && (y_len =? s * rows_of w)) then None
  else
    let* rows := qt_rows w in
    let* ys := each_row i s (fun xs => Some (qt_matvec w rows xs)) x in
    Some (concat ys).

Definition matmul_f32 (y_len : nat) (x w : list f32) (s i o : nat) : option (list f32) :=
  if negb ((length w =? o * i) && (length x =? s * i) && (y_len =? s * o)) then None
  else
    let* rows := each_row i o Some w in
    let* ys := each_row i s (fun xs => Some (map (dot_f32 xs) rows)) x in
    Some (concat ys).

(** ** Rows *)

(** [qt_row_dequant]: no MXFP4. *)
Definition qt_row_dequant (w : QTensor) (row : nat) : option (list f32) :=
  if (fmt_code w =? 6)%Z then None
  else
    let* r := row_factors w row in
    Some (match r.2 with Some sc => map (fun v => f32_mul v sc) r.1 | None => r.1 end).

Definition qt_addrow (w : QTensor) (row : nat) (scale : f32) (acc : list f32) : option (list f32) :=
  let* r := qt_row_dequant w row in
  Some (imap (fun k a => match r !! k with Some v => f32_add a (f32_mul scale v) | None => a end) acc).

Definition qt_matvec_rows (w : QTensor) (row0 nrows : nat) (vec : list f32) : option (list f32) :=
  mapM (fun d => let* r := qt_row_dequant w (row0 + d) in Some (dot_f32 r vec)) (seq 0 nrows).

(** [embed_row]: the formats an embedding table has. *)
Definition embed_row (embed : QTensor) (tok : nat) : option (list f32) :=
  let d := cols_of embed in
  if negb (tok <? rows_of embed) then None
  else
    let c := fmt_code embed in
    if (c =? 0)%Z then range (qt_qf embed) (tok * d) ((tok + 1) * d)
    else if (c =? 1)%Z then
      let* q := range (qt_q8 embed) (tok * d) ((tok + 1) * d) in
      let* s := qt_s embed !! tok in Some (map (fun c => f32_mul (f32_of_Z c) s) q)
    else if (c =? 2)%Z then
      let* q := range (qt_q4 embed) (tok * d * 2) ((tok + 1) * d * 2) in Some (map (bf16_at q) (seq 0 d))
    else if (c =? 3)%Z then
      let rb := (d + 3) / 4 in
      let* q := range (qt_q4 embed) (tok * rb) ((tok + 1) * rb) in
      let* s := qt_s embed !! tok in Some (map (fun k => f32_mul (f32_of_Z (int2_code q k)) s) (seq 0 d))
    else None.

(** ** A normed row *)

Lemma rmsnorm_total x w eps : length x <= length w -> exists y, rmsnorm x w eps = Some y /\ length y = length x.
Proof.
  intros Hl. unfold rmsnorm. set (f := fun k : nat => _).
  destruct (mapM_total f (seq 0 (length x))) as [y E].
  - intros k Hk%elem_of_seq. unfold f. destruct (lookup_lt_is_Some_2 x k) as [a ->]; [lia|].
    destruct (lookup_lt_is_Some_2 w k) as [b ->]; [lia|]. by eexists.
  - exists y. split; [done|]. by rewrite (mapM_len _ _ _ E), length_seq.
Qed.

(** ** A product row by row *)

Lemma matmul_qt_rows w y_len rs :
  Forall (fun r => length r = cols_of w) rs -> y_len = length rs * rows_of w ->
  matmul_qt y_len (concat rs) w (length rs) = let* rows := qt_rows w in Some (concat (map (qt_matvec w rows) rs)).
Proof.
  intros H ->. unfold matmul_qt. rewrite (concat_len (cols_of w)), !Nat.eqb_refl by done. cbn.
  destruct (qt_rows w) as [rows|]; cbn; [|done]. by rewrite each_row_concat, mapM_map.
Qed.

Lemma qt_rows_length w rows : qt_rows w = Some rows -> length rows = rows_of w.
Proof. intros H%mapM_len. by rewrite length_seq in H. Qed.

Lemma qt_matvec_length w rows xs : qt_rows w = Some rows -> length (qt_matvec w rows xs) = rows_of w.
Proof. intros H. unfold qt_matvec. rewrite length_map. by apply qt_rows_length. Qed.

(** A weight of [o] rows of [i] values that decodes. *)
Definition wf_qt (w : QTensor) (i o : nat) : Prop := cols_of w = i /\ rows_of w = o /\ is_Some (qt_rows w).
Definition matvec (w : QTensor) (x : list f32) : list f32 := qt_matvec w (default [] (qt_rows w)) x.

Lemma matvec_length w i o x : wf_qt w i o -> length (matvec w x) = o.
Proof. intros (_ & <- & [rows E]). unfold matvec. rewrite E. by apply qt_matvec_length. Qed.

Lemma matmul_qt_wf w i o rs : wf_qt w i o -> Forall (fun r => length r = i) rs ->
  matmul_qt (length rs * o) (concat rs) w (length rs) = Some (concat (map (matvec w) rs)).
Proof.
  intros (<- & <- & [rows E]) H. rewrite matmul_qt_rows by done. unfold matvec. by rewrite E.
Qed.

Lemma matmul_qt_one w i o x : wf_qt w i o -> length x = i -> matmul_qt o x w 1 = Some (matvec w x).
Proof.
  intros Hw Hx. pose proof (matmul_qt_wf w i o [x] Hw ltac:(by constructor)) as H.
  cbn [length concat map] in H. by rewrite !app_nil_r, Nat.mul_1_l in H.
Qed.

Lemma matmul_f32_rows i o rs rows :
  Forall (fun r => length r = i) rs -> Forall (fun r => length r = i) rows -> length rows = o ->
  matmul_f32 (length rs * o) (concat rs) (concat rows) (length rs) i o =
  Some (concat (map (fun xs => map (dot_f32 xs) rows) rs)).
Proof.
  intros Hrs Hrows <-. unfold matmul_f32. rewrite !(concat_len i), !Nat.eqb_refl by done. cbn.
  rewrite each_row_concat by done. change (mapM Some rows) with (mapM (fun x => Some (id x)) rows).
  rewrite mapM_map, map_id. cbn. by rewrite each_row_concat, mapM_map.
Qed.

(** ** Rows by format *)

Lemma row_factors_f32 w row : fmt_code w = 0%Z ->
  row_factors w row = let* wr := range (qt_qf w) (row * cols_of w) ((row + 1) * cols_of w) in Some (wr, None).
Proof. intros E. unfold row_factors. by rewrite E. Qed.

Lemma row_factors_int8 w row : fmt_code w = 1%Z ->
  row_factors w row = let* wr := range (qt_q8 w) (row * cols_of w) ((row + 1) * cols_of w) in
                      let* sc := qt_s w !! row in Some (map f32_of_Z wr, Some sc).
Proof. intros E. unfold row_factors. by rewrite E. Qed.

Lemma row_factors_int2 w row : fmt_code w = 3%Z ->
  row_factors w row = let* wr := range (qt_q4 w) (row * ((cols_of w + 3) / 4)) ((row + 1) * ((cols_of w + 3) / 4)) in
                      let* sc := qt_s w !! row in
                      Some (map (fun k => f32_of_Z (int2_code wr k)) (seq 0 (cols_of w)), Some sc).
Proof. intros E. unfold row_factors. by rewrite E. Qed.

Lemma dequant_factors w row : fmt_code w <> 6%Z ->
  qt_row_dequant w row = let* r := row_factors w row in
    Some (match r.2 with Some sc => map (fun v => f32_mul v sc) r.1 | None => r.1 end).
Proof. intros E. unfold qt_row_dequant. by rewrite (proj2 (Z.eqb_neq _ _) E). Qed.

(** The embedding lookup decodes the row the products use. *)
Lemma embed_row_dequant w tok : (0 <= fmt_code w <= 3)%Z -> tok < rows_of w -> embed_row w tok = qt_row_dequant w tok.
Proof.
  intros Hc Ht. rewrite dequant_factors by lia. unfold embed_row. rewrite (proj2 (Nat.ltb_lt _ _) Ht). cbn [negb].
  assert (fmt_code w = 0 \/ fmt_code w = 1 \/ fmt_code w = 2 \/ fmt_code w = 3)%Z as [E|[E|[E|E]]] by lia.
  - rewrite row_factors_f32, E by done. cbn. by destruct (range _ _ _).
  - rewrite row_factors_int8, E by done. cbn. destruct (range _ _ _); [|done]. cbn. destruct (_ !! _); [|done]. cbn.
    by rewrite map_map.
  - unfold row_factors. rewrite E. cbn. replace (tok * cols_of w * 2) with (tok * (cols_of w * 2)) by lia.
    replace ((tok + 1) * cols_of w * 2) with ((tok + 1) * (cols_of w * 2)) by lia. by destruct (range _ _ _).
  - rewrite row_factors_int2, E by done. cbn. destruct (range _ _ _); [|done]. cbn. destruct (_ !! _); [|done]. cbn.
    by rewrite map_map.
Qed.
