(* ===== verification/Quantize.v ===== *)
(** * Quantisation ([crates/colibri-engine/src/quantize.rs], and the ternary
      packer of [convert.rs])

    Rows of weights become codes and scales.  What a packed row decodes to is
    [Linear.qt_row_dequant]; the theorems say that packing loses nothing the
    codes hold, and when the codes hold everything. *)

From Stdlib Require Import ZifyBool ZifyNat SpecFloat.
From S2P Require Import Prelude Rows DType Math Floats Linear.
Local Open Scope nat_scope.

(** ** Row scales and codes *)

(** [((1i32 << (bits - 1)) - 1) as f32], wrapping as a release build does. *)
Definition qmax_of (bits : Z) : f32 := f32_of_Z (i32 (i32 (Z.shiftl 1 (Z.land (u32 (bits - 1)) 31)) - 1)).
Definition amax (l : list f32) : f32 := fold_left (fun m v => f32_max m (SFabs v)) l f0.
(** [1e-8]. *)
Definition tiny_scale : f32 := S754_finite false 11258999 (-50).
Definition row_scale (qmax : f32) (wr : list f32) : f32 := f32_max (f32_div (amax wr) qmax) tiny_scale.

(** A weight as a code before the cast: scaled, rounded, clamped. *)
Definition coded (lo hi s v : f32) : f32 := f32_clamp (f32_round_ties_even (f32_mul v (f32_div f32_one s))) lo hi.

Definition quantize_rows (w : list f32) (o i : nat) (bits : Z) : option (list Z * list f32) :=
  let qmax := qmax_of bits in
  let* rows := each_row i o (fun wr =>
    let s := row_scale qmax wr in
    Some (map (fun v => f32_to_i 8 (coded (SFopp (f32_add qmax f32_one)) qmax s v)) wr, s)) w in
  Some (concat (map fst rows), map snd rows).

(** ** Two-bit codes *)

(** Four codes a byte; a code is shifted as an [i32] and cut to [u8]. *)
Fixpoint pack_byte (codes : list Z) (k : Z) : Z :=
  match codes with
  | [] => 0
  | v :: codes => Z.lor (u8 (Z.shiftl (v + 2) (k * 2))) (pack_byte codes (k + 1))
  end.
Fixpoint pack_codes (fuel : nat) (codes : list Z) : list Z :=
  match fuel, codes with
  | S fuel, _ :: _ => pack_byte (take 4 codes) 0 :: pack_codes fuel (drop 4 codes)
  | _, _ => []
  end.
Definition int2_codes (qmax : f32) (wr : list f32) : list Z :=
  map (fun v => f32_to_i 32 (coded (SFopp f32_two) qmax (row_scale qmax wr) v)) wr.
Definition pack_int2 (w : list f32) (o i : nat) (bits : Z) : option (list Z * list f32) :=
  let qmax := qmax_of bits in
  let* rows := each_row i o (fun wr =>
    let codes := int2_codes qmax wr in Some (pack_codes (length codes) codes, row_scale qmax wr)) w in
  Some (concat (map fst rows), map snd rows).

Definition qtensor_from_f32 (w : list f32) (o i : nat) (bits : Z) : option QTensor :=
  let t := {| fmt_code := 0; qt_qf := []; qt_q8 := []; qt_q4 := []; qt_s := []; qt_bs := []; qt_g := f0;
              qt_o := i32 (Z.of_nat o); qt_i := i32 (Z.of_nat i); gpu_eligible := false |} in
  if (16 <=? bits)%Z then
    Some {| fmt_code := 0; qt_qf := w; qt_q8 := []; qt_q4 := []; qt_s := []; qt_bs := []; qt_g := f0;
            qt_o := qt_o t; qt_i := qt_i t; gpu_eligible := false |}
  else if (5 <=? bits)%Z then
    let* (q, s) := quantize_rows w o i bits in
    Some {| fmt_code := 1; qt_qf := []; qt_q8 := q; qt_q4 := []; qt_s := s; qt_bs := []; qt_g := f0;
            qt_o := qt_o t; qt_i := qt_i t; gpu_eligible := false |}
  else
    let* (q, s) := pack_int2 w o i bits in
    Some {| fmt_code := 3; qt_qf := []; qt_q8 := []; qt_q4 := q; qt_s := s; qt_bs := []; qt_g := f0;
            qt_o := qt_o t; qt_i := qt_i t; gpu_eligible := false |}.

(** ** Row blocks *)

Definition row_block (w : QTensor) (rows i gi : nat) : option QTensor :=
  let r0 := gi * rows in
  let t (qf : list f32) (q8 : list Z) (s : list f32) :=
    {| fmt_code := fmt_code w; qt_qf := qf; qt_q8 := q8; qt_q4 := []; qt_s := s; qt_bs := []; qt_g := f0;
       qt_o := i32 (Z.of_nat rows); qt_i := qt_i w; gpu_eligible := gpu_eligible w |} in
  if (fmt_code w =? 0)%Z then
    let* qf := range (qt_qf w) (r0 * i) ((r0 + rows) * i) in Some (t qf [] [])
  else
    let* q8 := range (qt_q8 w) (r0 * i) ((r0 + rows) * i) in
    let* s := range (qt_s w) r0 (r0 + rows) in Some (t [] q8 s).

(** [None] is a panic, [Some None] the code's [None]. *)
Definition split_row_blocks (w : QTensor) (g : nat) : option (option (list QTensor)) :=
  if (g =? 0) || negb (rows_of w mod g =? 0) then Some None
  else if negb ((fmt_code w =? 0)%Z || (fmt_code w =? 1)%Z) then Some None
  else
    let rows := rows_of w / g in
    let* out := mapM (row_block w rows (cols_of w)) (seq 0 g) in Some (Some out).

(** [concat_rows] of [loader.rs]: the inverse, for the fused projections. *)
Definition concat_rows (parts : list QTensor) : option (option QTensor) :=
  match parts with
  | [] => None
  | p0 :: _ =>
      let fmt := fmt_code p0 in
      if negb (forallb (fun p => (qt_i p =? qt_i p0)%Z && (fmt_code p =? fmt)%Z) parts) then Some None
      else if negb ((fmt =? 0)%Z || (fmt =? 1)%Z) then Some None
      else
        Some (Some {| fmt_code := fmt;
          qt_qf := if (fmt =? 0)%Z then concat (map qt_qf parts) else qt_qf p0;
          qt_q8 := if (fmt =? 0)%Z then qt_q8 p0 else concat (map qt_q8 parts);
          qt_q4 := qt_q4 p0;
          qt_s := if (fmt =? 0)%Z then qt_s p0 else concat (map qt_s parts);
          qt_bs := qt_bs p0; qt_g := qt_g p0;
          qt_o := i32 (fold_left Z.add (map qt_o parts) 0%Z); qt_i := qt_i p0;
          gpu_eligible := forallb gpu_eligible parts |})
  end.

(** ** Ternary weights *)

(** The one magnitude of a row's non-zero weights. *)
Fixpoint ternary_scale (s : f32) (row : list f32) : option f32 :=
  match row with
  | [] => Some s
  | v :: row =>
      if SFeqb v f0 then ternary_scale s row
      else if negb (is_finite v) then None
      else
        let a := SFabs v in
        if SFeqb s f0 then ternary_scale a row else if SFeqb a s then ternary_scale s row else None
  end.
(** [None] is a panic, [Some None] the code's [None]. *)
Definition ternary_row_scales (w : list f32) (o i : nat) : option (option (list f32)) :=
  let* rows := each_row i o (fun row => Some (ternary_scale f0 row)) w in
  Some (mapM id rows).

Definition ternary_code (v : f32) : Z := if SFeqb v f0 then 0 else if SFltb f0 v then 1 else -1.
Definition ternary_row_ok (row : list f32) (s : f32) (packed : list Z) : bool :=
  forallb (fun '(c, want) => SFeqb (f32_mul (f32_of_Z (int2_code packed c)) s) want) (imap pair row).
(** The codes and the scales; the names and shapes of the two tensors are the
    caller's. *)
Definition pack_ternary_int2 (w : list f32) (o i : nat) : option (option (list Z * list f32)) :=
  let* scales := ternary_row_scales w o i in
  match scales with
  | None => Some None
  | Some scales =>
      let* rows := each_row i o Some w in
      let codes := map (fun row => pack_codes (length row) (map ternary_code row)) rows in
      if forallb (fun '(row, s, packed) => ternary_row_ok row s packed) (combine (combine rows scales) codes)
      then Some (Some (concat codes, scales)) else Some None
  end.

(** ** Packing and unpacking *)

Definition is_code (c : Z) : Prop := (-2 <= c <= 1)%Z.

Lemma pack_byte_code codes j : length codes <= 4 -> Forall is_code codes -> j < length codes ->
  (Z.land (Z.shiftr (pack_byte codes 0) (Z.of_nat j * 2)) 3 - 2)%Z = nth j codes 0%Z.
Proof.
  intros Hl H Hj. assert (forall c, is_code c -> c = -2 \/ c = -1 \/ c = 0 \/ c = 1)%Z as Hc by (unfold is_code; lia).
  destruct H as [|a l Ha H]; [simpl in *; lia|]. apply Hc in Ha.
  destruct H as [|b l Hb H].
  { destruct j; [|simpl in *; lia]. by decompose [or] Ha; subst. }
  apply Hc in Hb. destruct H as [|c l Hcc H].
  { destruct j as [|[|j]]; [| |simpl in *; lia]; by decompose [or] Ha; decompose [or] Hb; subst. }
  apply Hc in Hcc. destruct H as [|d l Hd H].
  { destruct j as [|[|[|j]]]; [| | |simpl in *; lia]; by decompose [or] Ha; decompose [or] Hb; decompose [or] Hcc; subst. }
  apply Hc in Hd. destruct H; [|simpl in *; lia].
  destruct j as [|[|[|[|j]]]]; [| | | |simpl in *; lia];
    by decompose [or] Ha; decompose [or] Hb; decompose [or] Hcc; decompose [or] Hd; subst.
Qed.

Lemma pack_codes_length fuel : forall codes, length codes <= fuel -> length (pack_codes fuel codes) = (length codes + 3) / 4.
Proof.
  induction fuel as [|fuel IH]; intros codes H; [by destruct codes; [|simpl in H; lia]|].
  destruct codes as [|c codes]; [done|]. cbn [pack_codes]. cbn [length]. rewrite IH by (rewrite length_drop; simpl in *; lia).
  rewrite length_drop. cbn [length].
  destruct (le_lt_dec (S (length codes)) 4).
  - replace (S (length codes) - 4) with 0 by lia. change ((0 + 3) / 4) with 0.
    apply Nat.div_unique with (length codes); lia.
  - replace (S (length codes) + 3) with ((S (length codes) - 4 + 3) + 1 * 4) by lia. rewrite Nat.div_add by lia. lia.
Qed.

(** Unpacking a code gives the code packed. *)
Lemma unpack_pack fuel : forall codes k, length codes <= fuel -> Forall is_code codes -> k < length codes ->
  int2_code (pack_codes fuel codes) k = nth k codes 0%Z.
Proof.
  induction fuel as [|fuel IH]; intros codes k Hf Hc Hk; [lia|].
  destruct codes as [|c codes]; [simpl in Hk; lia|]. cbn [pack_codes]. set (l := c :: codes) in *. unfold int2_code.
  destruct (le_lt_dec 4 k).
  - assert (k / 4 = S ((k - 4) / 4)) as ->.
    { replace k with ((k - 4) + 1 * 4) at 1 by lia. rewrite Nat.div_add by lia. lia. }
    assert (k mod 4 = (k - 4) mod 4) as ->.
    { replace k with ((k - 4) + 1 * 4) at 1 by lia. by rewrite Nat.Div0.mod_add. }
    cbn [nth]. fold (int2_code (pack_codes fuel (drop 4 l)) (k - 4)).
    rewrite IH; [|rewrite length_drop; lia|by apply Forall_drop|rewrite length_drop; lia].
    rewrite !nth_lookup, lookup_drop. by replace (4 + (k - 4)) with k by lia.
  - rewrite Nat.div_small, Nat.mod_small by lia. cbn [nth].
    rewrite pack_byte_code; [|rewrite length_take; lia|by apply Forall_take|rewrite length_take; lia].
    by rewrite !nth_lookup, lookup_take_lt by lia.
Qed.

Lemma unpack_all codes : Forall is_code codes ->
  map (int2_code (pack_codes (length codes) codes)) (seq 0 (length codes)) = codes.
Proof.
  intros H. apply list_eq. intros k. change (map ?f ?l) with (f <$> l). rewrite list_lookup_fmap.
  destruct (decide (k < length codes)) as [Hk|Hk].
  - rewrite lookup_seq_lt by done. cbn. rewrite unpack_pack by done. rewrite nth_lookup.
    by destruct (lookup_lt_is_Some_2 codes k Hk) as [x ->].
  - rewrite lookup_seq_ge by lia. by rewrite lookup_ge_None_2 by lia.
Qed.

(** ** Codes in range *)

Lemma qmax_cases bits : (1 <= bits <= 8)%Z ->
  qmax_of bits = f32_of_Z (2 ^ (bits - 1) - 1) /\ SFopp (f32_add (qmax_of bits) f32_one) = f32_of_Z (- 2 ^ (bits - 1)).
Proof.
  intros H. assert (bits = 1 \/ bits = 2 \/ bits = 3 \/ bits = 4 \/ bits = 5 \/ bits = 6 \/ bits = 7 \/ bits = 8)%Z as Hb by lia.
  decompose [or] Hb; subst; by vm_compute.
Qed.

Lemma coded_range w lo hi s v : (- 2 ^ 23 < lo <= 0)%Z -> (0 <= hi < 2 ^ 23)%Z -> (- 2 ^ (w - 1) <= lo)%Z -> (hi < 2 ^ (w - 1))%Z ->
  (lo <= f32_to_i w (coded (f32_of_Z lo) (f32_of_Z hi) s v) <= hi)%Z.
Proof. intros. by apply clamped_code. Qed.

Lemma int2_codes_ok bits wr : (1 <= bits <= 2)%Z -> Forall is_code (int2_codes (qmax_of bits) wr).
Proof.
  intros Hb. unfold int2_codes. apply Forall_map, Forall_forall. intros v _. unfold is_code, compose.
  change (SFopp f32_two) with (f32_of_Z (-2)). rewrite (proj1 (qmax_cases bits ltac:(lia))).
  assert (0 <= 2 ^ (bits - 1) - 1 <= 1)%Z by (assert (bits = 1 \/ bits = 2)%Z as [-> | ->] by lia; done).
  pose proof (coded_range 32 (-2) (2 ^ (bits - 1) - 1) (row_scale (f32_of_Z (2 ^ (bits - 1) - 1)) wr) v). lia.
Qed.

(** ** What a row decodes to *)

#[local] Arguments f32_one : simpl never.
#[local] Arguments f32_of_Z : simpl never.

Lemma f32_to_i_narrow x : (-128 <= f32_to_i 32 x <= 127)%Z -> f32_to_i 8 x = f32_to_i 32 x.
Proof. unfold f32_to_i. destruct x as [s|s| |s m e]; cbn; [done|destruct s; lia|done|lia]. Qed.

(** The code of a weight in a row, and the bounds it is clamped to. *)
Definition code_lo (bits : Z) : Z := (if bits <? 5 then -2 else - 2 ^ (bits - 1))%Z.
Definition weight_code (bits : Z) (wr : list f32) (v : f32) : Z :=
  f32_to_i 32 (coded (f32_of_Z (code_lo bits)) (f32_of_Z (2 ^ (bits - 1) - 1)) (row_scale (qmax_of bits) wr) v).

Lemma quantised_int2 rs i bits : (1 <= bits <= 2)%Z -> (Z.of_nat i < 2 ^ 31)%Z -> (Z.of_nat (length rs) < 2 ^ 31)%Z ->
  Forall (fun r => length r = i) rs ->
  exists t, qtensor_from_f32 (concat rs) (length rs) i bits = Some t /\
    forall r wr, rs !! r = Some wr ->
      qt_row_dequant t r = Some (map (fun v => f32_mul (f32_of_Z (weight_code bits wr v)) (row_scale (qmax_of bits) wr)) wr).
Proof.
  intros Hb Hi Ho Hrs. unfold qtensor_from_f32. replace (16 <=? bits)%Z with false by lia.
  replace (5 <=? bits)%Z with false by lia. unfold pack_int2. rewrite each_row_concat, mapM_map by done. cbv beta iota zeta.
  eexists. split; [done|]. intros r wr Hr. rewrite dequant_factors, row_factors_int2 by done.
  unfold cols_of. cbn [qt_i qt_q4 qt_s]. rewrite wrap_i_id, Nat2Z.id by (unfold in_i; lia).
  rewrite !map_map. cbn [fst snd].
  rewrite (concat_row_range _ _ r (pack_codes (length (int2_codes (qmax_of bits) wr)) (int2_codes (qmax_of bits) wr))).
  2: { apply Forall_map, Forall_forall. intros l Hl. cbn. rewrite pack_codes_length by done. unfold int2_codes.
       rewrite length_map. rewrite Forall_forall in Hrs. by rewrite (Hrs l Hl). }
  2: { change (map ?f ?l) with (f <$> l). by rewrite list_lookup_fmap, Hr. }
  cbn. change (map (fun x : list f32 => row_scale (qmax_of bits) x) rs) with (row_scale (qmax_of bits) <$> rs).
  rewrite list_lookup_fmap, Hr. cbn. f_equal. rewrite map_map.
  assert (length wr = i) as <- by (rewrite Forall_forall in Hrs; eapply Hrs, list_elem_of_lookup_2; done).
  pose proof (unpack_all (int2_codes (qmax_of bits) wr) (int2_codes_ok bits wr Hb)) as E.
  assert (length (int2_codes (qmax_of bits) wr) = length wr) as Hl by (unfold int2_codes; by rewrite length_map).
  rewrite <- (map_map (int2_code (pack_codes (length (int2_codes (qmax_of bits) wr)) (int2_codes (qmax_of bits) wr)))
    (fun c => f32_mul (f32_of_Z c) (row_scale (qmax_of bits) wr))). rewrite <- Hl, E.
  unfold int2_codes. rewrite map_map. apply map_ext. intros v. unfold weight_code, code_lo.
  replace (bits <? 5)%Z with true by lia. by rewrite (proj1 (qmax_cases bits ltac:(lia))).
Qed.

Lemma quantised_int8 rs i bits : (5 <= bits <= 8)%Z -> (Z.of_nat i < 2 ^ 31)%Z -> (Z.of_nat (length rs) < 2 ^ 31)%Z ->
  Forall (fun r => length r = i) rs ->
  exists t, qtensor_from_f32 (concat rs) (length rs) i bits = Some t /\
    forall r wr, rs !! r = Some wr ->
      qt_row_dequant t r = Some (map (fun v => f32_mul (f32_of_Z (weight_code bits wr v)) (row_scale (qmax_of bits) wr)) wr).
Proof.
  intros Hb Hi Ho Hrs. unfold qtensor_from_f32. replace (16 <=? bits)%Z with false by lia.
  replace (5 <=? bits)%Z with true by lia. unfold quantize_rows. rewrite each_row_concat, mapM_map by done. cbv beta iota zeta.
  eexists. split; [done|]. intros r wr Hr. rewrite dequant_factors, row_factors_int8 by done.
  unfold cols_of. cbn [qt_i qt_q8 qt_s]. rewrite wrap_i_id, Nat2Z.id by (unfold in_i; lia).
  rewrite !map_map. cbn [fst snd].
  assert (length wr = i) as <- by (rewrite Forall_forall in Hrs; eapply Hrs, list_elem_of_lookup_2; done).
  rewrite (concat_row_range _ _ r (map (fun v => weight_code bits wr v) wr)).
  2: { apply Forall_map, Forall_forall. intros l Hl. cbn. rewrite length_map.
       rewrite Forall_forall in Hrs. by rewrite (Hrs l Hl). }
  2: { change (map ?f rs) with (f <$> rs). rewrite list_lookup_fmap, Hr. cbn. f_equal. apply map_ext. intros v.
       destruct (qmax_cases bits ltac:(lia)) as [Eq Eo]. unfold weight_code, code_lo. replace (bits <? 5)%Z with false by lia.
       rewrite Eo, Eq. apply f32_to_i_narrow.
       assert (2 ^ (5 - 1) <= 2 ^ (bits - 1) <= 2 ^ (8 - 1))%Z by (split; apply Z.pow_le_mono_r; lia).
       pose proof (coded_range 32 (- 2 ^ (bits - 1)) (2 ^ (bits - 1) - 1)
         (row_scale (f32_of_Z (2 ^ (bits - 1) - 1)) wr) v). lia. }
  cbn. change (map (fun x : list f32 => row_scale (qmax_of bits) x) rs) with (row_scale (qmax_of bits) <$> rs).
  rewrite list_lookup_fmap, Hr. cbn. f_equal. by rewrite !map_map.
Qed.

(** C30: what the runtime quantiser keeps.  At one or two bits, at five to eight,
    and from sixteen up, every weight matrix is quantised, and each row decodes
    to its scale times its codes, each the weight over the scale rounded to the
    nearest integer and clamped, never damaged by the packing or the narrowing
    cast; from sixteen bits up a row decodes to itself. *)
Theorem quantised_rows_decode w o i bits :
  length w = o * i -> (Z.of_nat o < 2 ^ 31)%Z -> (Z.of_nat i < 2 ^ 31)%Z ->
  (1 <= bits <= 2 \/ 5 <= bits <= 8 \/ 16 <= bits)%Z ->
  exists t, qtensor_from_f32 w o i bits = Some t /\
    forall r, r < o -> exists wr, range w (r * i) ((r + 1) * i) = Some wr /\
      (forall v, bits < 16 -> code_lo bits <= weight_code bits wr v <= 2 ^ (bits - 1) - 1)%Z /\
      qt_row_dequant t r = Some (if (16 <=? bits)%Z then wr
        else map (fun v => f32_mul (f32_of_Z (weight_code bits wr v)) (row_scale (qmax_of bits) wr)) wr).
Proof.
  intros Hw Ho Hi Hb. destruct (split_rows i o w Hw) as (rs & <- & Hrs & ->).
  assert (forall wr v, (bits < 16 -> code_lo bits <= weight_code bits wr v <= 2 ^ (bits - 1) - 1)%Z) as Hrange.
  { intros wr v Hlt. unfold weight_code, code_lo. assert (bits <= 8)%Z by lia.
    assert (2 ^ (bits - 1) <= 2 ^ (8 - 1))%Z by (apply Z.pow_le_mono_r; lia).
    assert (1 <= 2 ^ (bits - 1))%Z by (apply (Z.pow_le_mono_r 2 0); lia).
    destruct (Z.ltb_spec bits 5); apply coded_range; lia. }
  destruct (Z.leb_spec 16 bits).
  - unfold qtensor_from_f32. replace (16 <=? bits)%Z with true by lia. eexists. split; [done|].
    intros r Hr. destruct (lookup_lt_is_Some_2 rs r Hr) as [wr Hwr]. exists wr.
    rewrite (concat_row_range i rs r wr) by done. split_and!; [done|intros; lia|].
    rewrite dequant_factors, row_factors_f32 by done. unfold cols_of. cbn [qt_i qt_qf].
    rewrite wrap_i_id, Nat2Z.id by (unfold in_i; lia). by rewrite (concat_row_range i rs r wr).
  - assert (exists t, qtensor_from_f32 (concat rs) (length rs) i bits = Some t /\
      forall r wr, rs !! r = Some wr ->
        qt_row_dequant t r = Some (map (fun v => f32_mul (f32_of_Z (weight_code bits wr v)) (row_scale (qmax_of bits) wr)) wr))
      as (t & E & H1) by (destruct Hb as [?|[?|?]]; [by apply quantised_int2|by apply quantised_int8|lia]).
    exists t. split; [done|]. intros r Hr. destruct (lookup_lt_is_Some_2 rs r Hr) as [wr Hwr]. exists wr.
    rewrite (concat_row_range i rs r wr) by done. split_and!; [done|by auto|]. by apply H1.
Qed.

Definition sample_row : list f32 := [f32_one; SFopp half].
Lemma quantised_rows_decode_witness :
  length sample_row = 1 * 2 /\
  exists t, qtensor_from_f32 sample_row 1 2 8 = Some t /\
    forall r, r < 1 -> exists wr, range sample_row (r * 2) ((r + 1) * 2) = Some wr /\
      (forall v, 8 < 16 -> code_lo 8 <= weight_code 8 wr v <= 2 ^ (8 - 1) - 1)%Z /\
      qt_row_dequant t r = Some (if (16 <=? 8)%Z then wr
        else map (fun v => f32_mul (f32_of_Z (weight_code 8 wr v)) (row_scale (qmax_of 8) wr)) wr).
Proof. split; [done|]. apply (quantised_rows_decode sample_row 1 2 8); [done|lia|lia|lia]. Defined.

(** Between the ranges of [quantised_rows_decode] weights are damaged.  At four
    bits the largest weight's code is 7 and is stored as 9 in a two-bit field: 1
    decodes to -1/7.  At twelve bits its code is 2047 and the cast to [i8]
    leaves 127: 1 decodes to 127/2047. *)
Theorem other_widths_damage :
  (let* t := qtensor_from_f32 sample_row 1 2 4 in qt_row_dequant t 0) =
    Some [SFopp (f32_div f32_one (f32_of_Z 7)); f0] /\
  (let* t := qtensor_from_f32 sample_row 1 2 12 in let* r := qt_row_dequant t 0 in r !! 0) =
    Some (f32_mul (f32_of_Z 127) (f32_div f32_one (f32_of_Z 2047))).
Proof. split; by vm_compute. Qed.

(** ** Row blocks *)

Lemma split_block_rows w g parts gi b r : (0 <= qt_o w < 2 ^ 31)%Z ->
  split_row_blocks w g = Some (Some parts) -> parts !! gi = Some b -> r < rows_of w / g ->
  rows_of b = rows_of w / g /\ qt_row_dequant b r = qt_row_dequant w (gi * (rows_of w / g) + r).
Proof.
  intros Ho. unfold split_row_blocks. destruct (Nat.eqb_spec g 0); cbn [orb]; [done|].
  destruct (Nat.eqb_spec (rows_of w mod g) 0); cbn [negb]; [|done].
  destruct ((fmt_code w =? 0)%Z || (fmt_code w =? 1)%Z) eqn:Hf; cbn [negb]; [|done]. set (rows := rows_of w / g).
  destruct (mapM _ _) as [ps|] eqn:E; [|done]. intros [= ->] Hb Hr.
  apply mapM_Some in E. assert (Hgi : gi < g) by (apply Forall2_length in E; rewrite length_seq in E; apply lookup_lt_Some in Hb; lia).
  eapply Forall2_lookup_r in E as (x & Hx & Hb'); [|exact Hb]. rewrite lookup_seq_lt in Hx by done. injection Hx as <-.
  cbn [Nat.add] in Hb'. assert (rows_of w = g * rows) as Hrows by (unfold rows; pose proof (Nat.div_mod_eq (rows_of w) g); lia).
  assert (Hsmall : (Z.of_nat rows < 2 ^ 31)%Z) by (unfold rows_of in *; nia).
  clearbody rows. unfold row_block in Hb'. destruct (Z.eqb_spec (fmt_code w) 0) as [E0|E0].
  - destruct (range (qt_qf w) _ _) as [qf|] eqn:Er; [|done]. injection Hb' as <-.
    split; [unfold rows_of; cbn [qt_o]; rewrite wrap_i_id by (unfold in_i; lia); lia|].
    rewrite !dequant_factors, !row_factors_f32 by (cbn; lia). cbn [qt_qf]. unfold cols_of in *. cbn [qt_i].
    rewrite (range_sub _ _ _ _ _ _ Er) by nia.
    replace (gi * rows * Z.to_nat (qt_i w) + r * Z.to_nat (qt_i w)) with ((gi * rows + r) * Z.to_nat (qt_i w)) by lia.
    by replace (gi * rows * Z.to_nat (qt_i w) + (r + 1) * Z.to_nat (qt_i w)) with ((gi * rows + r + 1) * Z.to_nat (qt_i w)) by lia.
  - destruct (range (qt_q8 w) _ _) as [q8|] eqn:Er; [|done]. destruct (range (qt_s w) _ _) as [s|] eqn:Es; [|done].
    injection Hb' as <-.
    split; [unfold rows_of; cbn [qt_o]; rewrite wrap_i_id by (unfold in_i; lia); lia|].
    rewrite !dequant_factors, !row_factors_int8 by (cbn; lia). cbn [qt_q8 qt_s]. unfold cols_of in *. cbn [qt_i].
    rewrite (range_sub _ _ _ _ _ _ Er) by nia.
    assert (s !! r = qt_s w !! (gi * rows + r)) as ->.
    { apply range_inv in Es as ([? ?] & ->). rewrite lookup_take_lt by lia. by rewrite lookup_drop. }
    replace (gi * rows * Z.to_nat (qt_i w) + r * Z.to_nat (qt_i w)) with ((gi * rows + r) * Z.to_nat (qt_i w)) by nia.
    by replace (gi * rows * Z.to_nat (qt_i w) + (r + 1) * Z.to_nat (qt_i w)) with ((gi * rows + r + 1) * Z.to_nat (qt_i w)) by nia.
Qed.

(** ** Ternary weights *)

(** A row whose non-zero weights have one finite magnitude. *)
Definition ternary (row : list f32) : Prop :=
  exists m e, Forall (fun v => SFeqb v f0 = true \/ exists s, v = S754_finite s m e) row.
Definition int2_tensor (codes : list Z) (scales : list f32) (o i : nat) : QTensor :=
  {| fmt_code := 3; qt_qf := []; qt_q8 := []; qt_q4 := codes; qt_s := scales; qt_bs := []; qt_g := f0;
     qt_o := Z.of_nat o; qt_i := Z.of_nat i; gpu_eligible := false |}.

Lemma SFeqb_finite s m e s' m' e' :
  SFeqb (S754_finite s m e) (S754_finite s' m' e') = true <-> s = s' /\ m = m' /\ e = e'.
Proof.
  unfold SFeqb. cbn. split.
  - destruct s, s'; try done; destruct (Z.compare_spec e e') as [->| |]; try done;
      change (Pos.compare_cont Eq) with Pos.compare; destruct (Pos.compare_spec m m') as [->| |]; done.
  - intros (-> & -> & ->). rewrite Z.compare_refl. change (Pos.compare_cont Eq) with Pos.compare.
    rewrite Pos.compare_refl. by destruct s'.
Qed.

Lemma SFeqb_refl x : is_nan x = false -> SFeqb x x = true.
Proof. destruct x as [|[]| |]; cbn; try done. intros _. by apply SFeqb_finite. Qed.

Lemma SFeqb_zero v : SFeqb v f0 = true -> exists s, v = S754_zero s.
Proof. destruct v as [s|[]| |[]]; cbn; try done. eauto. Qed.

(** The scan finds the magnitude, and fails only where there are two. *)
Lemma ternary_scan row : forall s,
  (s = f0 \/ exists m e, s = S754_finite false m e) ->
  match ternary_scale s row with
  | Some s' => (s <> f0 -> s' = s) /\ (s' = f0 \/ exists m e, s' = S754_finite false m e) /\
      Forall (fun v => SFeqb v f0 = true \/ exists sg m e, s' = S754_finite false m e /\ v = S754_finite sg m e) row
  | None => ~ exists m e, (s = f0 \/ s = S754_finite false m e) /\
      Forall (fun v => SFeqb v f0 = true \/ exists sg, v = S754_finite sg m e) row
  end.
Proof.
  induction row as [|v row IH]; intros s Hs; [by cbn; split_and!|]. cbn [ternary_scale].
  destruct (SFeqb v f0) eqn:Hv.
  { specialize (IH s Hs). destruct (ternary_scale s row).
    - destruct IH as (H1 & H2 & H3). repeat split; try done. constructor; auto.
    - intros (m & e & H1 & H2). apply IH. exists m, e. split; [done|]. by inversion H2. }
  destruct v as [sg|sg| |sg mv ev]; cbn [is_finite negb].
  - done.
  - intros (m & e & _ & H). apply Forall_cons in H as [[?|[? ?]] _]; congruence.
  - intros (m & e & _ & H). apply Forall_cons in H as [[?|[? ?]] _]; congruence.
  - cbn [SFabs]. destruct Hs as [->|(m & e & ->)].
    + change (SFeqb f0 f0) with true. cbv iota. specialize (IH (S754_finite false mv ev) ltac:(eauto)).
      destruct (ternary_scale _ row).
      * destruct IH as (H1 & H2 & H3). repeat split; try done. constructor; [|done]. right.
        rewrite H1 by done. eauto.
      * intros (m & e & _ & H). apply Forall_cons in H as [[?|[sg' [= -> -> ->]]] H']; [congruence|].
        apply IH. exists m, e. eauto.
    + replace (SFeqb (S754_finite false m e) f0) with false by done.
      destruct (SFeqb (S754_finite false mv ev) (S754_finite false m e)) eqn:E.
      * apply SFeqb_finite in E as (_ & -> & ->). specialize (IH (S754_finite false m e) ltac:(eauto)).
        destruct (ternary_scale _ row).
        -- destruct IH as (H1 & H2 & H3). repeat split; try done. constructor; [|done]. right.
           rewrite H1 by done. eauto.
        -- intros (m' & e' & Hc & H). destruct Hc as [?|[= -> ->]]; [done|]. apply Forall_cons in H as [_ H]. apply IH. exists m', e'. eauto.
      * intros (m' & e' & Hc & H). destruct Hc as [?|[= -> ->]]; [done|].
        apply Forall_cons in H as [[?|[sg' [= -> -> ->]]] H']; [congruence|]. by rewrite (proj2 (SFeqb_finite _ _ _ _ _ _)) in E.
Qed.

Lemma ternary_code_ok v : is_code (ternary_code v).
Proof. unfold ternary_code, is_code. destruct (SFeqb _ _); [lia|]. destruct (SFltb _ _); lia. Qed.

(** A weight is its code times the scale. *)
Lemma ternary_exact_one s v : valid32 v = true -> (s = f0 \/ exists m e, s = S754_finite false m e) ->
  SFeqb v f0 = true \/ (exists sg m e, s = S754_finite false m e /\ v = S754_finite sg m e) ->
  SFeqb (f32_mul (f32_of_Z (ternary_code v)) s) v = true.
Proof.
  intros Hval Hs [Hz|(sg & m & e & -> & ->)].
  - unfold ternary_code. rewrite Hz. apply SFeqb_zero in Hz as [sv ->]. by destruct Hs as [->|(m & e & ->)].
  - unfold ternary_code. replace (SFeqb (S754_finite sg m e) f0) with false by (by destruct sg). destruct sg.
    + change (SFltb f0 (S754_finite true m e)) with false. cbv iota. rewrite mul_neg_one_l by done. by apply SFeqb_finite.
    + change (SFltb f0 (S754_finite false m e)) with true. cbv iota. change (f32_of_Z 1) with f32_one.
      rewrite mul_one_l by done. by apply SFeqb_finite.
Qed.

Definition ternary_packed (row : list f32) : list Z := pack_codes (length row) (map ternary_code row).

Lemma ternary_unpack row k v : row !! k = Some v -> int2_code (ternary_packed row) k = ternary_code v.
Proof.
  intros Hk. unfold ternary_packed. rewrite unpack_pack.
  - rewrite nth_lookup. change (map ?f row) with (f <$> row). by rewrite list_lookup_fmap, Hk.
  - by rewrite length_map.
  - apply Forall_map, Forall_forall. intros. apply ternary_code_ok.
  - rewrite length_map. by eapply lookup_lt_Some.
Qed.

Lemma ternary_row_checks row s : Forall (fun v => valid32 v = true) row ->
  (s = f0 \/ exists m e, s = S754_finite false m e) ->
  Forall (fun v => SFeqb v f0 = true \/ exists sg m e, s = S754_finite false m e /\ v = S754_finite sg m e) row ->
  ternary_row_ok row s (ternary_packed row) = true.
Proof.
  intros Hval Hs Hrow. unfold ternary_row_ok. apply forallb_forall. intros [c want] Hin.
  apply list_elem_of_In, elem_of_lookup_imap in Hin as (k & v & [= -> ->] & Hk).
  rewrite (ternary_unpack row k v Hk). rewrite Forall_lookup in Hval, Hrow.
  apply ternary_exact_one; eauto.
Qed.

(** Ternary weights are packed without loss.  The packer never panics; it
    refuses exactly the matrices that have a row with two magnitudes or a weight
    that is not finite; and what it packs, the decoder the products use gives
    back weight for weight (a negative zero as zero). *)
Theorem ternary_exact w o i :
  length w = o * i -> Forall (fun v => valid32 v = true) w ->
  exists packed, pack_ternary_int2 w o i = Some packed /\
    match packed with
    | None => exists r row, range w (r * i) ((r + 1) * i) = Some row /\ ~ ternary row
    | Some (codes, scales) => forall r, r < o -> exists row,
        range w (r * i) ((r + 1) * i) = Some row /\ ternary row /\
        exists dec, qt_row_dequant (int2_tensor codes scales o i) r = Some dec /\
          Forall2 (fun d v => SFeqb d v = true) dec row
    end.
Proof.
  intros Hw Hval. destruct (split_rows i o w Hw) as (rs & <- & Hrs & ->).
  unfold pack_ternary_int2, ternary_row_scales. rewrite each_row_concat, mapM_map by done. cbv beta iota zeta.
  assert (forall r row, rs !! r = Some row -> Forall (fun v => valid32 v = true) row) as Hv.
  { intros r row Hr. rewrite Forall_concat in Hval. rewrite Forall_lookup in Hval. by eapply Hval. }
  destruct (mapM id (map (ternary_scale f0) rs)) as [scales|] eqn:E.
  - rewrite each_row_concat by done. change (mapM Some rs) with (mapM (fun x => Some (id x)) rs).
    rewrite mapM_map, map_id. cbv beta iota zeta.
    change (fun row => pack_codes (length row) (map ternary_code row)) with ternary_packed.
    assert (Forall2 (fun row s => ternary_scale f0 row = Some s) rs scales) as Hsc.
    { apply mapM_Some in E. change (map ?f rs) with (f <$> rs) in E. by apply Forall2_fmap_l in E. }
    assert (forall r row, rs !! r = Some row -> exists s, scales !! r = Some s /\ (s = f0 \/ exists m e, s = S754_finite false m e) /\
      Forall (fun v => SFeqb v f0 = true \/ exists sg m e, s = S754_finite false m e /\ v = S754_finite sg m e) row) as Hrow.
    { intros r row Hr. destruct (Forall2_lookup_l _ _ _ _ _ Hsc Hr) as (s & Hs & Es). exists s.
      pose proof (ternary_scan row f0 ltac:(by left)) as H. rewrite Es in H. by destruct H as (_ & ? & ?). }
    rewrite (proj2 (forallb_forall _ _)).
    2: { intros [[row s] packed] Hin. apply list_elem_of_In, list_elem_of_lookup in Hin as [r Hr].
         apply lookup_zip_with_Some in Hr as ([row' s'] & p' & [= <- <- <-] & Hr & Hp).
         apply lookup_zip_with_Some in Hr as (row2 & s2 & [= <- <-] & Hr & Hs).
         change (map ternary_packed rs) with (ternary_packed <$> rs) in Hp. rewrite list_lookup_fmap, Hr in Hp. injection Hp as <-.
         destruct (Hrow r row Hr) as (s0 & Hs0 & ? & ?). rewrite Hs in Hs0. injection Hs0 as <-.
         apply ternary_row_checks; eauto. }
    eexists. split; [done|]. cbv iota beta. intros r Hr. destruct (lookup_lt_is_Some_2 rs r Hr) as [row Hrr]. exists row.
    split; [by apply (concat_row_range i rs r row)|]. destruct (Hrow r row Hrr) as (s & Hs & Hsg & Hall). split.
    { destruct Hsg as [->|(m & e & ->)].
      - exists 1%positive, 0%Z. eapply Forall_impl; [exact Hall|]. intros v [?|(? & ? & ? & [=] & _)]. by left.
      - exists m, e. eapply Forall_impl; [exact Hall|]. intros v [?|(sg & ? & ? & [= <- <-] & ->)]; eauto. }
    assert (length row = i) as <- by (rewrite Forall_lookup in Hrs; by eapply Hrs).
    rewrite dequant_factors, row_factors_int2 by done. unfold cols_of. cbn [qt_i qt_q4 qt_s int2_tensor]. rewrite Nat2Z.id.
    rewrite (concat_row_range _ _ r (ternary_packed row)).
    2: { apply Forall_map, Forall_forall. intros l Hl. unfold compose, ternary_packed. rewrite pack_codes_length by (by rewrite length_map).
         rewrite length_map. rewrite Forall_forall in Hrs. by rewrite (Hrs l Hl). }
    2: { change (map ternary_packed rs) with (ternary_packed <$> rs). by rewrite list_lookup_fmap, Hrr. }
    cbv beta iota zeta. rewrite Hs. cbv beta iota zeta. cbn [fst snd]. eexists. split; [done|].
    apply Forall2_same_length_lookup_2; [by rewrite !length_map, length_seq|].
    intros k d v Hd Hk. change (map ?f (map ?g ?l)) with (f <$> (g <$> l)) in Hd. rewrite !list_lookup_fmap in Hd.
    rewrite lookup_seq_lt in Hd by (by eapply lookup_lt_Some). cbn in Hd. injection Hd as <-.
    rewrite (ternary_unpack row k v Hk). specialize (Hv r row Hrr). rewrite Forall_lookup in Hv, Hall.
    apply ternary_exact_one; eauto.
  - exists None. split; [done|]. apply mapM_None in E. change (map ?f rs) with (f <$> rs) in E. apply Exists_fmap in E.
    apply Exists_exists in E as (row & Hin & Hn). apply list_elem_of_lookup in Hin as [r Hr]. exists r, row.
    split; [by apply (concat_row_range i rs r row)|]. pose proof (ternary_scan row f0 ltac:(by left)) as H.
    cbn in Hn. rewrite Hn in H. intros (m & e & Ht). apply H. exists m, e. split; [by left|done].
Qed.

Definition sample_ternary : list f32 := [SFopp half; f0; half; half; f0; f0; f0; f0].
Lemma ternary_exact_witness :
  Forall (fun v => valid32 v = true) sample_ternary /\
  exists packed, pack_ternary_int2 sample_ternary 2 4 = Some packed /\
    match packed with
    | None => exists r row, range sample_ternary (r * 4) ((r + 1) * 4) = Some row /\ ~ ternary row
    | Some (codes, scales) => forall r, r < 2 -> exists row,
        range sample_ternary (r * 4) ((r + 1) * 4) = Some row /\ ternary row /\
        exists dec, qt_row_dequant (int2_tensor codes scales 2 4) r = Some dec /\
          Forall2 (fun d v => SFeqb d v = true) dec row
    end.
Proof.
  assert (Forall (fun v => valid32 v = true) sample_ternary) as H by (repeat constructor).
  split; [exact H|]. by apply (ternary_exact sample_ternary 2 4).
Defined.
