(* ===== verification/Discovery.v ===== *)
(** * Peer discovery ([crates/colibri-cluster/src/discovery.rs])

    What the node makes of what it reads: the output of [ip addr], the kernel's
    ARP table, the RDMA devices of sysfs and the beacons other nodes send.  The
    reading itself is input to the functions here; a file that cannot be read is
    [None].  A string is the list of its characters (code points); bytes become a
    string by [from_utf8_lossy].  An [Ipv4Addr] is its [u32]. *)

From S2P Require Import Prelude Json Tokenizer Usage.
Local Open Scope Z_scope.

Definition DISC_PORT : Z := 48757.
Definition BEACON_MAGIC : list Z := [67; 79; 76; 73; 83; 80; 82; 75; 49]. (* COLISPRK1 *)
Definition MAX_SWEEP_HOSTS : Z := 512.
Definition U32_MAX : Z := 4294967295.

Record ConnectXLink := {
  rdma_dev : list Z; netdev : list Z; mac : list Z; ipv4 : option Z; prefix : Z; active : bool
}.

Inductive PeerKind := Coli | FabricNeighbor.

Record Peer := {
  ip : Z; peer_mac : option (list Z); peer_hostname : option (list Z); peer_rank : option Z;
  serve_port : option Z; via : list Z; kind : PeerKind; nic_match : bool
}.

Record Discovery := { hostname : list Z; links : list ConnectXLink; peers : list Peer }.

Definition active_links (d : Discovery) : list ConnectXLink :=
  List.filter (fun l => active l && match ipv4 l with Some _ => true | None => false end) (links d).
Definition is_coli (p : Peer) : bool := match kind p with Coli => true | FabricNeighbor => false end.
Definition coli_peers (d : Discovery) : list Peer := List.filter is_coli (peers d).

(** ** Strings *)

(** [String::from_utf8_lossy]. *)
Definition from_utf8_lossy (bytes : list Z) : list Z :=
  let s := utf8_string bytes in
  match code_points (S (length s)) s 0 (length s) with Some (cps, _) => cps | None => [] end.

Definition trim_start (s : list Z) : list Z := drop (scan_while is_whitespace s 0) s.
Definition trim (s : list Z) : list Z := rev (trim_start (rev (trim_start s))).

Definition to_ascii_lowercase (s : list Z) : list Z := map (fun c => if in_range 65 90 c then c + 32 else c) s.

(** The part before the first [sep], and the part after it, if there is one. *)
Fixpoint split_once_char (sep : Z) (s : list Z) : option (list Z * list Z) :=
  match s with
  | [] => None
  | c :: s =>
      if c =? sep then Some ([], s)
      else let* (a, b) := split_once_char sep s in Some (c :: a, b)
  end.

(** [splitn(n, sep)]; [split(sep)] cuts as often as it can. *)
Fixpoint splitn (n : nat) (sep : Z) (s : list Z) : list (list Z) :=
  match n with
  | O => []
  | S O => [s]
  | S n => match split_once_char sep s with Some (a, b) => a :: splitn n sep b | None => [s] end
  end.
Definition split (sep : Z) (s : list Z) : list (list Z) := splitn (S (length s)) sep s.

(** [s.contains(t)]. *)
Fixpoint prefix_of (t s : list Z) : bool :=
  match t, s with
  | [], _ => true
  | c :: t, d :: s => (c =? d) && prefix_of t s
  | _ :: _, [] => false
  end.
Fixpoint contains_str (t s : list Z) : bool :=
  prefix_of t s || match s with [] => false | _ :: s => contains_str t s end.

Definition hostname_of (file : option (list Z)) (env : option (list Z)) : list Z :=
  match (let* s := file in let s := trim s in match s with [] => None | _ => Some s end) with
  | Some s => s
  | None => default [63] env
  end.

Definition oui_of (mac : list Z) : list Z :=
  to_ascii_lowercase (match take 3 (split 58 mac) with
                      | [] => []
                      | p :: ps => p ++ concat (map (fun q => 58 :: q) ps)
                      end).
Definition oui (l : ConnectXLink) : list Z := oui_of (mac l).

(** ** Addresses *)

(** [Ipv4Addr::from_str]: four decimal octets without leading zeros. *)
Definition parse_octet (s : list Z) : option Z :=
  if (length s =? 0)%nat || (3 <? length s)%nat || negb (forallb is_ascii_digit s) then None
  else if (1 <? length s)%nat && (default 0 (s !! 0%nat) =? 48) then None
  else let v := digits_value s in if v <? 256 then Some v else None.

Definition parse_ipv4 (s : list Z) : option Z :=
  match split 46 s with
  | [a; b; c; d] =>
      let* a := parse_octet a in
      let* b := parse_octet b in
      let* c := parse_octet c in
      let* d := parse_octet d in
      Some (((a * 256 + b) * 256 + c) * 256 + d)
  | _ => None
  end.

Definition parse_cidr (s : list Z) : option (Z * Z) :=
  let* (ip, pfx) := split_once_char 47 s in
  let* ip := parse_ipv4 ip in
  let* pfx := parse_uint 8 pfx in
  Some (ip, pfx).

(** [<<] of [u32]: the amount is taken modulo 32. *)
Definition shl32 (a n : Z) : Z := u32 (Z.shiftl a (u32 n mod 32)).

Definition broadcast_addr (ip prefix : Z) : Z :=
  if prefix =? 0 then U32_MAX
  else
    let mask := if 32 <=? prefix then U32_MAX else Z.lxor U32_MAX (Z.shiftr U32_MAX prefix) in
    Z.lor ip (Z.lxor U32_MAX mask).

(** The network mask of a link: [discover] and [sweep_subnets]. *)
Definition net_mask (prefix : Z) : Z := shl32 U32_MAX (32 - prefix).

(** ** Local interfaces *)

Definition read_trim (file : option (list Z)) : list Z := match file with Some s => trim s | None => [] end.

Definition eq_str (a b : list Z) : bool := bool_decide (a = b).

(** The word after the first occurrence of [w]. *)
Definition word_after (w : list Z) (t : list (list Z)) : option (list Z) :=
  let* (i, _) := list_find (fun x => x = w) t in t !! S i.

(** A line of [ip -o -4 addr show]. *)
Definition ip_addr_line (map : gmap (list Z) (Z * Z * option Z)) (line : list Z) : gmap (list Z) (Z * Z * option Z) :=
  let t := words line in
  match t !! 1%nat with
  | None => map
  | Some iface =>
      match word_after [105; 110; 101; 116] t with (* inet *)
      | None => map
      | Some cidr =>
          match parse_cidr cidr with
          | None => map
          | Some (ip, pfx) =>
              let brd := let* s := word_after [98; 114; 100] t in parse_ipv4 s in (* brd *)
              <[iface := (ip, pfx, brd)]> map
          end
      end
  end.

Definition read_ip_addrs (output : option (list Z)) : gmap (list Z) (Z * Z * option Z) :=
  match output with
  | None => ∅
  | Some out => fold_left ip_addr_line (lines (from_utf8_lossy out)) ∅
  end.

(** A device directory of [/sys/class/infiniband] and the files read for it. *)
Record RdmaEntry := {
  en_dev : list Z; en_netdev : option (list Z); en_state : option (list Z);
  en_phys : option (list Z); en_address : option (list Z)
}.

Definition link_of (ipmap : gmap (list Z) (Z * Z * option Z)) (e : RdmaEntry) : option ConnectXLink :=
  let* netdev := en_netdev e in
  let state := read_trim (en_state e) in
  let phys := read_trim (en_phys e) in
  let active := contains_str [65; 67; 84; 73; 86; 69] state && (* ACTIVE, linkup *)
                contains_str [108; 105; 110; 107; 117; 112] (to_ascii_lowercase phys) in
  let mac := read_trim (en_address e) in
  let '(ipv4, prefix) := match ipmap !! netdev with Some (ip, pfx, _) => (Some ip, pfx) | None => (None, 0) end in
  Some {| rdma_dev := en_dev e; netdev := netdev; mac := mac; ipv4 := ipv4; prefix := prefix; active := active |}.

(** Byte order of strings, which for their characters is lexicographic. *)
Fixpoint str_leb (a b : list Z) : bool :=
  match a, b with
  | [], _ => true
  | _ :: _, [] => false
  | x :: a, y :: b => (x <? y) || (x =? y) && str_leb a b
  end.

Definition connectx_links (dir : option (list RdmaEntry)) (ip_output : option (list Z)) : list ConnectXLink :=
  let ipmap := read_ip_addrs ip_output in
  match dir with
  | None => []
  | Some es => sort_by (fun a b => str_leb (netdev a) (netdev b)) (omap (link_of ipmap) es)
  end.

(** ** The ARP table and the sweep *)

Definition arp_line (line : list Z) : option (Z * list Z * list Z) :=
  match words line with
  | f0 :: _ :: f2 :: f3 :: _ :: f5 :: _ =>
      if eq_str f2 [48; 120; 48] (* 0x0 *)
         || eq_str f3 [48; 48; 58; 48; 48; 58; 48; 48; 58; 48; 48; 58; 48; 48; 58; 48; 48] then None
      else let* ip := parse_ipv4 f0 in Some (ip, to_ascii_lowercase f3, f5)
  | _ => None
  end.

Definition read_arp (text : option (list Z)) : list (Z * list Z * list Z) :=
  match text with None => [] | Some s => omap arp_line (drop 1 (lines s)) end.

(** The addresses one link has pinged, in order. *)
Definition sweep_link (l : ConnectXLink) : list Z :=
  if negb (active l) then []
  else
    match ipv4 l with
    | None => []
    | Some ip =>
        let pfx := prefix l in
        if pfx <? 8 then []
        else
          let hosts := shl32 1 (32 - pfx) in
          if MAX_SWEEP_HOSTS <? saturating_sub hosts 2 then []
          else
            let base := Z.land ip (net_mask pfx) in
            List.filter (fun addr => negb (addr =? ip))
              (map (fun h => Z.lor base h) (seqZ 1 (saturating_sub hosts 1 - 1)))
    end.

Definition sweep_subnets (links : list ConnectXLink) : list Z := concat (map sweep_link links).

(** ** Beacons *)

(** 16 lower-case hexadecimal digits. *)
Fixpoint hex_digits (n : nat) (v : Z) : list Z :=
  match n with
  | O => []
  | S n => hex_digits n (v / 16) ++ [let d := v mod 16 in if d <? 10 then 48 + d else 87 + d]
  end.

Definition replace_char (c d : Z) (s : list Z) : list Z := map (fun x => if x =? c then d else x) s.

Definition beacon_msg (nonce rank serve_port : Z) (host : list Z) : list Z :=
  let host := replace_char 124 95 host in
  BEACON_MAGIC ++ [124] ++ hex_digits 16 nonce ++ [124] ++ dec_digits rank ++ [124] ++
  dec_digits serve_port ++ [124] ++ host.

Definition hex_value (c : Z) : option Z :=
  if in_range 48 57 c then Some (c - 48)
  else if in_range 97 102 c then Some (c - 87)
  else if in_range 65 70 c then Some (c - 55)
  else None.

(** [u64::from_str_radix(s, 16)]. *)
Fixpoint parse_hex_digits (l : list Z) (acc : Z) : option Z :=
  match l with
  | [] => Some acc
  | c :: l =>
      let* d := hex_value c in
      let v := acc * 16 + d in
      if v <? 2 ^ 64 then parse_hex_digits l v else None
  end.
Definition parse_hex (l : list Z) : option Z :=
  match l with
  | [] => None
  | c :: l' => if c =? 43 then (match l' with [] => None | _ => parse_hex_digits l' 0 end) else parse_hex_digits l 0
  end.

Definition parse_beacon (s : list Z) : option (Z * Z * Z * list Z) :=
  match splitn 5 124 (trim s) with
  | [] => None
  | magic :: it =>
      if negb (eq_str magic BEACON_MAGIC) then None
      else
        match it with
        | nonce :: rank :: port :: host :: _ =>
            let* nonce := parse_hex nonce in
            let* rank := parse_uint 32 rank in
            let* port := parse_uint 16 port in
            Some (nonce, rank, port, host)
        | _ => None
        end
  end.

(** [urandom] is the eight bytes read, when they could be. *)
Definition make_nonce (urandom : option (list Z)) (nanos pid : Z) : Z :=
  match urandom with
  | Some b => from_le_bytes b
  | None => Z.lxor (u64 nanos) (u64 (Z.shiftl (u64 pid) 32))
  end.

(** ** A scan *)

Definition fresh_peer (a : Z) (v : list Z) : Peer :=
  {| ip := a; peer_mac := None; peer_hostname := None; peer_rank := None; serve_port := None;
     via := v; kind := FabricNeighbor; nic_match := false |}.

(** What [recv_from] puts in the buffer of 512 bytes, as a string. *)
Definition received (bytes : list Z) : list Z := from_utf8_lossy (take (Z.to_nat 512) bytes).

(** One datagram at the listener: its bytes and its source, [None] if that is
    not an IPv4 address. *)
Definition hear (nonce : Z) (local_ips : list Z) (peers : gmap Z Peer) (pkt : option Z * list Z) : gmap Z Peer :=
  match parse_beacon (received (snd pkt)) with
  | None => peers
  | Some (bn, brank, bport, bhost) =>
      if bn =? nonce then peers
      else
        match fst pkt with
        | None => peers
        | Some a =>
            if bool_decide (a ∈ local_ips) then peers
            else
              let e := default (fresh_peer a []) (peers !! a) in
              <[a := {| ip := ip e; peer_mac := peer_mac e; peer_hostname := Some bhost; peer_rank := Some brank;
                        serve_port := Some bport; via := via e; kind := Coli; nic_match := nic_match e |}]> peers
        end
  end.

Definition subnet_of (l : ConnectXLink) : option (Z * Z * list Z) :=
  if active l then
    let* a := ipv4 l in
    let mask := if prefix l =? 0 then 0 else net_mask (prefix l) in
    Some (Z.land a mask, mask, netdev l)
  else None.

Definition on_link (subnets : list (Z * Z * list Z)) (a : Z) : option (list Z) :=
  let* (_, s) := list_find (fun s => Z.land a (snd (fst s)) = fst (fst s)) subnets in Some (snd s).

(** One entry of the ARP table. *)
Definition fold_arp (local_ips : list Z) (local_ouis : list (list Z)) (subnets : list (Z * Z * list Z))
    (peers : gmap Z Peer) (ent : Z * list Z * list Z) : gmap Z Peer :=
  let '(a, mac, _) := ent in
  if bool_decide (a ∈ local_ips) then peers
  else
    match on_link subnets a with
    | None => peers
    | Some v =>
        let nic := bool_decide (oui_of mac ∈ local_ouis) in
        let e := default (fresh_peer a v) (peers !! a) in
        <[a := {| ip := ip e; peer_mac := Some (default mac (peer_mac e)); peer_hostname := peer_hostname e;
                  peer_rank := peer_rank e; serve_port := serve_port e;
                  via := match via e with [] => v | _ => via e end; kind := kind e; nic_match := nic |}]> peers
    end.

Definition by_ip (p q : Peer) : bool := ip p <=? ip q.

(** [discover]: the datagrams received before the listener is joined, then the
    ARP table. *)
Definition discover (host : list Z) (links : list ConnectXLink) (nonce : Z)
    (packets : list (option Z * list Z)) (arp : option (list Z)) : Discovery :=
  let local_ouis := List.filter (fun o => negb (eq_str o [])) (map oui links) in
  let local_ips := omap ipv4 links in
  let heard := fold_left (hear nonce local_ips) packets ∅ in
  let subnets := omap subnet_of links in
  let map := fold_left (fold_arp local_ips local_ouis subnets) (read_arp arp) heard in
  {| hostname := host; links := links; peers := sort_by by_ip (List.map snd (map_to_list map)) |}.

(** ** Beacons come back *)

Definition clean (s : list Z) : Prop := Forall (fun c => c <> 124) s.

Lemma split_once_char_app a b : clean a -> split_once_char 124 (a ++ 124 :: b) = Some (a, b).
Proof.
  induction 1 as [|c a Hc Ha IH]; cbn [app split_once_char]; [done|]. by rewrite (proj2 (Z.eqb_neq c 124)), IH.
Qed.

Lemma split_once_char_none a : clean a -> split_once_char 124 a = None.
Proof. induction 1 as [|c a Hc Ha IH]; cbn [split_once_char]; [done|]. by rewrite (proj2 (Z.eqb_neq c 124)), IH. Qed.

Lemma parse_hex_snoc l c : forall acc,
  parse_hex_digits (l ++ [c]) acc = let* v := parse_hex_digits l acc in parse_hex_digits [c] v.
Proof.
  induction l as [|d l IH]; intros acc; cbn [app parse_hex_digits]; [done|].
  destruct (hex_value d); [|done]. by destruct (_ <? _).
Qed.

Lemma hex_value_digit d : 0 <= d < 16 -> hex_value (if d <? 10 then 48 + d else 87 + d) = Some d.
Proof.
  intros Hd. unfold hex_value, in_range. destruct (Z.ltb_spec d 10).
  - rewrite (proj2 (Z.leb_le 48 _)), (proj2 (Z.leb_le _ 57)) by lia. cbn [andb]. f_equal. lia.
  - rewrite (proj2 (Z.leb_gt (87 + d) 57)) by lia. rewrite andb_false_r.
    rewrite (proj2 (Z.leb_le 97 _)), (proj2 (Z.leb_le _ 102)) by lia. cbn [andb]. f_equal. lia.
Qed.

Lemma parse_hex_digits_spec n : forall v,
  0 <= v < 16 ^ Z.of_nat n -> 16 ^ Z.of_nat n <= 2 ^ 64 -> parse_hex_digits (hex_digits n v) 0 = Some v.
Proof.
  induction n as [|n IH]; intros v Hv Hn; cbn [hex_digits]; [cbn in *; f_equal; lia|].
  rewrite Nat2Z.inj_succ, Z.pow_succ_r in Hv, Hn by lia.
  pose proof (Z.mod_pos_bound v 16 ltac:(lia)). pose proof (Z.div_mod v 16 ltac:(lia)).
  rewrite parse_hex_snoc, IH; [|lia|lia]. cbn [parse_hex_digits mbind option_bind]. rewrite hex_value_digit by lia.
  rewrite (proj2 (Z.ltb_lt _ _)) by lia. f_equal. lia.
Qed.

Definition is_hex_char (c : Z) : Prop := 48 <= c <= 57 \/ 97 <= c <= 102.

Lemma hex_digits_chars n : forall v, 0 <= v -> Forall is_hex_char (hex_digits n v) /\ length (hex_digits n v) = n.
Proof.
  induction n as [|n IH]; intros v Hv; cbn [hex_digits]; [by split|].
  destruct (IH (v / 16)) as [Hc Hl]; [apply Z.div_pos; lia|].
  rewrite length_app, Hl, Forall_app, Forall_singleton. cbn [length]. split; [|lia]. split; [done|].
  pose proof (Z.mod_pos_bound v 16 ltac:(lia)). unfold is_hex_char. cbv zeta. destruct (Z.ltb_spec (v mod 16) 10); lia.
Qed.

Lemma parse_hex_nonce v : is_u64 v -> parse_hex (hex_digits 16 v) = Some v.
Proof.
  intros Hv. destruct (hex_digits_chars 16 v ltac:(apply Hv)) as [Hc Hl].
  pose proof (parse_hex_digits_spec 16 v Hv ltac:(reflexivity)) as Hp.
  destruct (hex_digits 16 v) as [|c l]; [done|]. apply Forall_cons in Hc as [Hc _].
  unfold parse_hex. rewrite (proj2 (Z.eqb_neq c 43)); [done|]. unfold is_hex_char in Hc. lia.
Qed.

(** A string that neither begins nor ends with white space is trimmed already. *)
Lemma trim_id s c d : is_whitespace c = false -> is_whitespace d = false ->
  s !! 0%nat = Some c -> last s = Some d -> trim s = s.
Proof.
  intros Hc Hd H0 Hl.
  assert (Hs : forall l x, is_whitespace x = false -> l !! 0%nat = Some x -> trim_start l = l).
  { intros l x Hx Hl0. unfold trim_start. destruct l as [|y l]; [done|]. injection Hl0 as ->.
    by rewrite take_none by done. }
  unfold trim. rewrite (Hs s c) by done. rewrite (Hs (rev s) d); [apply rev_involutive|done|].
  apply last_Some in Hl as [s' ->]. by rewrite rev_app_distr.
Qed.

Lemma digits_clean z : 0 <= z -> clean (dec_digits z).
Proof. intros Hz. eapply Forall_impl; [apply dec_digits_ok; done|]. intros c Hc%digit_range; simpl; lia. Qed.

Lemma replace_clean s : clean (replace_char 124 95 s).
Proof. apply Forall_map, Forall_true. intros c; simpl; destruct (Z.eqb_spec c 124); lia. Qed.

Lemma beacon_parts nonce rank port host :
  is_u64 nonce -> is_u32 rank -> is_u16 port ->
  splitn 5 124 (beacon_msg nonce rank port host) =
  [BEACON_MAGIC; hex_digits 16 nonce; dec_digits rank; dec_digits port; replace_char 124 95 host].
Proof.
  intros Hn Hr Hp. unfold beacon_msg. cbn [splitn]. cbn [app].
  assert (Hm : clean BEACON_MAGIC) by (repeat constructor; done).
  assert (Hh : clean (hex_digits 16 nonce)).
  { destruct (hex_digits_chars 16 nonce ltac:(apply Hn)) as [Hc _]. eapply Forall_impl; [exact Hc|].
    intros c. unfold is_hex_char. simpl. lia. }
  rewrite (split_once_char_app BEACON_MAGIC) by done. rewrite split_once_char_app by done.
  rewrite split_once_char_app by (apply digits_clean; apply Hr). rewrite split_once_char_app by (apply digits_clean; apply Hp). done.
Qed.

Lemma beacon_last nonce rank port host :
  match last host with Some c => is_whitespace c = false | None => True end ->
  exists d, last (beacon_msg nonce rank port host) = Some d /\ is_whitespace d = false.
Proof.
  intros Hl. unfold beacon_msg. rewrite !app_assoc. destruct (last host) as [c|] eqn:Hc.
  - apply last_Some in Hc as [h ->]. unfold replace_char. rewrite map_app. cbn [map]. rewrite app_assoc, last_snoc.
    eexists. split; [done|]. destruct (Z.eqb_spec c 124); [done|exact Hl].
  - apply last_None in Hc as ->. cbn [replace_char map]. rewrite app_nil_r, last_snoc. by eexists.
Qed.

Lemma parse_beacon_msg nonce rank port host :
  is_u64 nonce -> is_u32 rank -> is_u16 port ->
  match last host with Some c => is_whitespace c = false | None => True end ->
  parse_beacon (beacon_msg nonce rank port host) = Some (nonce, rank, port, replace_char 124 95 host).
Proof.
  intros Hn Hr Hp Hl. destruct (beacon_last nonce rank port host Hl) as (d & Hd & Hw).
  unfold parse_beacon. rewrite (trim_id _ 67 d) by done. rewrite beacon_parts by done.
  unfold eq_str. rewrite bool_decide_true by done. cbn [negb].
  rewrite parse_hex_nonce by done. by rewrite !parse_dec_digits.
Qed.

Lemma from_utf8_lossy_ascii l : Forall ascii l -> from_utf8_lossy l = l.
Proof.
  intros Hl. unfold from_utf8_lossy. rewrite utf8_string_valid by (by apply valid_ascii).
  destruct (code_points_ascii l [] [] Hl) as [off Hoff]. cbn [app length Nat.add] in Hoff.
  rewrite app_nil_r in Hoff. by rewrite Hoff.
Qed.

Lemma beacon_ascii nonce rank port host :
  0 <= nonce -> 0 <= rank -> 0 <= port -> Forall ascii host -> Forall ascii (beacon_msg nonce rank port host).
Proof.
  intros Hn Hr Hp Hh. unfold beacon_msg. rewrite !Forall_app, !Forall_singleton. unfold ascii in *.
  assert (Hd : forall z, 0 <= z -> Forall (fun c => 0 <= c < 128) (dec_digits z)).
  { intros z Hz. eapply Forall_impl; [by apply dec_digits_ok|]. intros c Hc%digit_range; simpl; lia. }
  split_and!; try lia; try (by apply Hd).
  - apply (bool_decide_unpack _). vm_compute. exact I.
  - destruct (hex_digits_chars 16 nonce Hn) as [Hc _]. eapply Forall_impl; [exact Hc|]. intros c. unfold is_hex_char. simpl. lia.
  - apply Forall_map. eapply Forall_impl; [exact Hh|]. intros c Hc. simpl in *. destruct (Z.eqb_spec c 124); lia.
Qed.

(** A beacon is read back: its nonce, rank and port exactly and its host name
    with bars replaced, and a listener that receives the bytes of one with an
    ASCII host name enters its sender as a running node under these. *)
Theorem beacon_roundtrip nonce rank port host :
  is_u64 nonce -> is_u32 rank -> is_u16 port ->
  match last host with Some c => is_whitespace c = false | None => True end ->
  parse_beacon (beacon_msg nonce rank port host) = Some (nonce, rank, port, replace_char 124 95 host) /\
  forall mine local_ips peers a, Forall ascii host -> Z.of_nat (length (beacon_msg nonce rank port host)) <= 512 ->
    mine <> nonce -> a ∉ local_ips -> peers !! a = None ->
    hear mine local_ips peers (Some a, beacon_msg nonce rank port host) =
    <[a := {| ip := a; peer_mac := None; peer_hostname := Some (replace_char 124 95 host); peer_rank := Some rank;
              serve_port := Some port; via := []; kind := Coli; nic_match := false |}]> peers.
Proof.
  intros Hn Hr Hp Hl. split; [by apply parse_beacon_msg|].
  intros mine local_ips peers a Hh Hlen Hne Ha Hnone. unfold hear, received. cbn [fst snd]. rewrite take_ge by lia.
  rewrite from_utf8_lossy_ascii by (apply beacon_ascii; [apply Hn|apply Hr|apply Hp|done]).
  rewrite parse_beacon_msg by done. rewrite (proj2 (Z.eqb_neq nonce mine)) by done.
  rewrite bool_decide_false by done. by rewrite Hnone.
Qed.

(** ** What a scan finds *)

(** The beacon a datagram carries, if it is one of another node at [a]. *)
Definition beacon_from (nonce a : Z) (pkt : option Z * list Z) : option (Z * Z * list Z) :=
  let* (n, r, p, h) := parse_beacon (received (snd pkt)) in
  if (n =? nonce) || bool_decide (fst pkt <> Some a) then None else Some (r, p, h).

Definition mac_of (a : Z) (ent : Z * list Z * list Z) : option (list Z) :=
  if fst (fst ent) =? a then Some (snd (fst ent)) else None.

Section Scan.
Context (local_ips : list Z) (local_ouis : list (list Z)) (subnets : list (Z * Z * list Z)) (nonce : Z).

(** The entry of the address [a]: its last beacon, and the first hardware
    address the ARP table gives for it on a link. *)
Definition peer_entry (a : Z) (beacon : option (Z * Z * list Z)) (macs : list (list Z)) (v : list Z) : option Peer :=
  match beacon, macs with
  | None, [] => None
  | _, _ =>
      Some {| ip := a; peer_mac := head macs; peer_hostname := snd <$> beacon;
              peer_rank := (fun b => fst (fst b)) <$> beacon; serve_port := (fun b => snd (fst b)) <$> beacon;
              via := match macs with [] => [] | _ => v end;
              kind := match beacon with Some _ => Coli | None => FabricNeighbor end;
              nic_match := match last macs with Some m => bool_decide (oui_of m ∈ local_ouis) | None => false end |}
  end.

Lemma hear_lookup packets : forall a,
  fold_left (hear nonce local_ips) packets (∅ : gmap Z Peer) !! a =
  if decide (a ∈ local_ips) then None else peer_entry a (last (omap (beacon_from nonce a) packets)) [] [].
Proof.
  induction packets as [|[src bytes] packets IH] using rev_ind; intros a.
  { cbn. rewrite lookup_empty. by case_decide. }
  specialize (IH a). rewrite fold_left_app, omap_app. cbn [fold_left]. set (m := fold_left _ packets ∅) in *.
  set (bs := omap (beacon_from nonce a) packets) in *.
  unfold hear, beacon_from. cbn [omap list_omap fst snd].
  destruct (parse_beacon (received bytes)) as [[[[n r] p] h]|]; [|rewrite app_nil_r; exact IH].
  destruct (n =? nonce); cbn [orb]; [rewrite app_nil_r; exact IH|].
  destruct src as [b|]; [|rewrite bool_decide_true by done; rewrite app_nil_r; exact IH].
  destruct (decide (b = a)) as [->|Hne].
  - rewrite (bool_decide_false (Some a <> Some a)) by (by intros ?). rewrite last_snoc.
    destruct (decide (a ∈ local_ips)) as [Hin|Hin].
    + rewrite bool_decide_true by done. exact IH.
    + rewrite (bool_decide_false _ Hin), lookup_insert_eq. rewrite IH.
      by destruct (last bs) as [[[? ?] ?]|].
  - rewrite (bool_decide_true (Some b <> Some a)) by congruence. rewrite app_nil_r.
    destruct (bool_decide (b ∈ local_ips)); [exact IH|]. rewrite lookup_insert_ne by done. exact IH.
Qed.

Lemma arp_lookup es : forall (m : gmap Z Peer) a,
  fold_left (fold_arp local_ips local_ouis subnets) es m !! a =
  match (if decide (a ∈ local_ips) then None else on_link subnets a), omap (mac_of a) es with
  | Some v, (mac :: _) as macs =>
      let e := default (fresh_peer a v) (m !! a) in
      Some {| ip := ip e; peer_mac := Some (default mac (peer_mac e)); peer_hostname := peer_hostname e;
              peer_rank := peer_rank e; serve_port := serve_port e;
              via := match via e with [] => v | _ => via e end; kind := kind e;
              nic_match := bool_decide (oui_of (default [] (last macs)) ∈ local_ouis) |}
  | _, _ => m !! a
  end.
Proof.
  induction es as [|[[b mac] dev] es IH] using rev_ind; intros m a.
  { cbn. by destruct (if decide _ then _ else _). }
  specialize (IH m a). rewrite fold_left_app, omap_app. cbn [fold_left]. set (m' := fold_left _ es m) in *.
  set (macs := omap (mac_of a) es) in *.
  cbn [omap list_omap fst snd]. change (mac_of a (b, mac, dev)) with (if b =? a then Some mac else None).
  unfold fold_arp. destruct (Z.eqb_spec b a) as [->|Hne].
  - destruct (decide (a ∈ local_ips)) as [Hin|Hin].
    { rewrite bool_decide_true by done. exact IH. }
    rewrite (bool_decide_false _ Hin). destruct (on_link subnets a) as [v|] eqn:Hv.
    2:{ exact IH. }
    rewrite lookup_insert_eq. rewrite IH.
    destruct macs as [|mac0 macs']; [done|]. cbn [app].
    change (mac0 :: macs' ++ [mac]) with ((mac0 :: macs') ++ [mac]). rewrite last_snoc.
    destruct (m !! a) as [e|]; cbn [default from_option id ip peer_mac peer_hostname peer_rank serve_port via kind fresh_peer];
      [destruct (via e); [by destruct v|done]|by destruct v].
  - rewrite app_nil_r.
    destruct (bool_decide (b ∈ local_ips)); [exact IH|]. destruct (on_link subnets b); [|exact IH].
    rewrite lookup_insert_ne by done. exact IH.
Qed.
End Scan.

(** The peers a scan reports, by address. *)
Definition found (links : list ConnectXLink) (nonce : Z) (packets : list (option Z * list Z))
    (arp : option (list Z)) (a : Z) : option Peer :=
  if bool_decide (a ∈ omap ipv4 links) then None
  else
    let '(macs, v) := match on_link (omap subnet_of links) a with
                      | Some v => (omap (mac_of a) (read_arp arp), v)
                      | None => ([], [])
                      end in
    peer_entry (List.filter (fun o => negb (eq_str o [])) (map oui links)) a
      (last (omap (beacon_from nonce a) packets)) macs v.

Lemma scan_lookup links nonce packets arp a :
  fold_left (fold_arp (omap ipv4 links) (List.filter (fun o => negb (eq_str o [])) (map oui links)) (omap subnet_of links))
    (read_arp arp) (fold_left (hear nonce (omap ipv4 links)) packets (∅ : gmap Z Peer)) !! a =
  found links nonce packets arp a.
Proof.
  rewrite arp_lookup. set (ouis := List.filter _ _). rewrite (hear_lookup _ ouis). unfold found. fold ouis.
  set (bs := omap (beacon_from nonce a) packets). set (ms := omap (mac_of a) (read_arp arp)).
  destruct (decide (a ∈ omap ipv4 links)) as [Hin|Hin].
  { by rewrite bool_decide_true by done. }
  rewrite bool_decide_false by done. destruct (on_link _ a) as [v|].
  2:{ done. }
  destruct ms as [|mac macs]; [by destruct (last bs) as [[[? ?] ?]|]|].
  assert (Hl : exists m, last (mac :: macs) = Some m) by (apply last_is_Some; done).
  destruct Hl as [m Hm]. rewrite Hm. unfold peer_entry. rewrite Hm.
  destruct (last bs) as [[[? ?] ?]|]; [done|]. cbn [default from_option id fresh_peer via]. by destruct v.
Qed.

Lemma found_ip links nonce packets arp a p : found links nonce packets arp a = Some p -> ip p = a.
Proof.
  unfold found, peer_entry. destruct (bool_decide _); [done|]. destruct (on_link _ a); cbv zeta iota;
    destruct (last _); [|destruct (omap _ _)| |]; by intros [= <-].
Qed.

Lemma sorted_strict {A} (f : A -> Z) (l : list A) :
  StronglySorted (fun p q => f p <=? f q = true) l -> NoDup (map f l) -> StronglySorted (fun p q => f p < f q) l.
Proof.
  induction 1 as [|p l Hs IH Hp]; intros Hnd; [constructor|]. cbn [map] in Hnd. apply NoDup_cons in Hnd as [Hn Hnd].
  constructor; [by apply IH|]. rewrite Forall_forall in Hp |- *. intros q Hq. specialize (Hp q Hq).
  apply Z.leb_le in Hp. assert (f p <> f q); [|lia]. intros He. apply Hn. rewrite He. by apply list_elem_of_fmap_2.
Qed.

Lemma peers_found host links nonce packets arp p :
  p ∈ peers (discover host links nonce packets arp) <-> found links nonce packets arp (ip p) = Some p.
Proof.
  unfold discover. cbn [peers]. rewrite elem_of_sort_by, list_elem_of_fmap. split.
  - intros ([a q] & -> & Hq). apply elem_of_map_to_list in Hq. rewrite scan_lookup in Hq. cbn [snd].
    by rewrite (found_ip _ _ _ _ _ _ Hq).
  - intros Hf. exists (ip p, p). split; [done|]. apply elem_of_map_to_list. by rewrite scan_lookup.
Qed.

(** C39: a scan reports each address once, in ascending order, and exactly these:
    not an address of its own; as a running node, under the rank, port and name
    of its last beacon, what sent a beacon of another nonce; as a neighbour what
    the ARP table has on the subnet of an active link; and it marks as matching
    what the table gives last a hardware address of a local vendor. *)
Theorem discover_peers host links nonce packets arp :
  (forall p, p ∈ peers (discover host links nonce packets arp) <-> found links nonce packets arp (ip p) = Some p) /\
  (forall a p, found links nonce packets arp a = Some p -> ip p = a /\ a ∉ omap ipv4 links /\
     (kind p = Coli <-> last (omap (beacon_from nonce a) packets) <> None)) /\
  StronglySorted (fun p q => ip p < ip q) (peers (discover host links nonce packets arp)).
Proof.
  split_and!; [apply peers_found| |].
  - intros a p Hf. pose proof (found_ip _ _ _ _ _ _ Hf) as Hip. split; [done|].
    unfold found in Hf. case_bool_decide as Ha; [done|]. split; [done|]. revert Hf.
    destruct (on_link _ a) as [v|]; unfold peer_entry; destruct (last (omap (beacon_from nonce a) packets)) as [b|];
      [|destruct (omap (mac_of a) (read_arp arp))| |]; cbv beta iota zeta; intros Hf; try discriminate Hf; injection Hf as <-; by cbn [kind].
  - unfold discover. cbn [peers]. apply sorted_strict.
    + apply sort_by_sorted; unfold by_ip; intros *; rewrite ?Z.leb_le, ?Z.leb_gt; lia.
    + rewrite (sort_by_perm by_ip), map_map.
      assert (He : map (fun x : Z * Peer => ip (snd x)) (map_to_list (fold_left (fold_arp (omap ipv4 links)
                (List.filter (fun o => negb (eq_str o [])) (map oui links)) (omap subnet_of links)) (read_arp arp)
                (fold_left (hear nonce (omap ipv4 links)) packets (∅ : gmap Z Peer)))) = map fst (map_to_list (fold_left (fold_arp (omap ipv4 links)
                (List.filter (fun o => negb (eq_str o [])) (map oui links)) (omap subnet_of links)) (read_arp arp)
                (fold_left (hear nonce (omap ipv4 links)) packets (∅ : gmap Z Peer))))).
      { apply map_ext_in. intros [a q] Hq%list_elem_of_In%elem_of_map_to_list. rewrite scan_lookup in Hq.
        exact (found_ip _ _ _ _ _ _ Hq). }
      rewrite He. apply NoDup_fst_map_to_list.
Qed.

(** ** Subnets *)

Lemma u32_max : U32_MAX = Z.ones 32. Proof. reflexivity. Qed.

Lemma net_mask_ones p : 1 <= p <= 32 -> net_mask p = Z.shiftl (Z.ones p) (32 - p).
Proof.
  intros Hp. assert (H : p ∈ seqZ 1 32) by (apply elem_of_seqZ; lia).
  assert (Hall : Forall (fun p => net_mask p = Z.shiftl (Z.ones p) (32 - p)) (seqZ 1 32)).
  { apply (bool_decide_unpack _). vm_compute. exact I. }
  rewrite Forall_forall in Hall. by apply Hall.
Qed.

Lemma land_mask a p : is_u32 a -> 1 <= p <= 32 -> Z.land a (net_mask p) = a / 2 ^ (32 - p) * 2 ^ (32 - p).
Proof.
  intros Ha Hp. rewrite net_mask_ones by done. rewrite <- Z.shiftr_div_pow2, <- Z.shiftl_mul_pow2 by lia.
  apply Z.bits_inj'. intros n Hn. rewrite Z.land_spec, !Z.shiftl_spec by done.
  destruct (Z.lt_ge_cases n (32 - p)); [by rewrite !(Z.testbit_neg_r _ (n - (32 - p))), andb_false_r by lia|].
  rewrite Z.shiftr_spec, Z.sub_add by lia. destruct (Z.lt_ge_cases n 32).
  - rewrite Z.ones_spec_low by lia. apply andb_true_r.
  - rewrite (proj1 (in_u_bits 32 a ltac:(lia) (proj1 Ha)) Ha) by lia. done.
Qed.

Lemma broadcast_last a p : is_u32 a -> 1 <= p <= 32 ->
  broadcast_addr a p = a / 2 ^ (32 - p) * 2 ^ (32 - p) + 2 ^ (32 - p) - 1.
Proof.
  intros Ha Hp. unfold broadcast_addr. rewrite (proj2 (Z.eqb_neq p 0)) by lia.
  assert (Hm : Z.lxor U32_MAX (if 32 <=? p then U32_MAX else Z.lxor U32_MAX (Z.shiftr U32_MAX p)) = Z.ones (32 - p)).
  { destruct (Z.leb_spec 32 p); [rewrite Z.lxor_nilpotent; by replace (32 - p) with 0 by lia|].
    rewrite <- Z.lxor_assoc, Z.lxor_nilpotent, Z.lxor_0_l, u32_max.
    rewrite Z.shiftr_div_pow2, !Z.ones_equiv by lia. replace 32 with (p + (32 - p)) at 1 by lia.
    rewrite Z.pow_add_r by lia. symmetry. assert (0 < 2 ^ p) by (apply Z.pow_pos_nonneg; lia).
    apply (Z.div_unique _ _ _ (2 ^ p - 1)); lia. }
  cbv zeta. rewrite Hm. set (k := 32 - p). pose proof (Z.pow_pos_nonneg 2 k ltac:(lia) ltac:(lia)) as Hk.
  pose proof (Z.div_mod a (2 ^ k) ltac:(lia)) as Hd. pose proof (Z.mod_pos_bound a (2 ^ k) ltac:(lia)) as Hr.
  assert (Hq : 0 <= a / 2 ^ k) by (apply Z.div_pos; [apply Ha|lia]).
  replace (Z.lor a (Z.ones k)) with (Z.lor (Z.shiftl (a / 2 ^ k) k) (Z.ones k)).
  - rewrite Z.ones_equiv, lor_shiftl_add by (lia || unfold in_u; lia). lia.
  - apply Z.bits_inj'. intros n Hn. rewrite !Z.lor_spec. destruct (Z.lt_ge_cases n k).
    + by rewrite Z.ones_spec_low, !orb_true_r by lia.
    + rewrite Z.shiftl_spec, <- Z.shiftr_div_pow2, Z.shiftr_spec by lia. by rewrite Z.sub_add.
Qed.

Lemma shl32_hosts p : 8 <= p <= 32 -> shl32 1 (32 - p) = 2 ^ (32 - p).
Proof.
  intros Hp. assert (H : p ∈ seqZ 8 25) by (apply elem_of_seqZ; lia).
  assert (Hall : Forall (fun p => shl32 1 (32 - p) = 2 ^ (32 - p)) (seqZ 8 25)).
  { apply (bool_decide_unpack _). vm_compute. exact I. }
  rewrite Forall_forall in Hall. by apply Hall.
Qed.

(** The sweep of an active link pings every host of its subnet but itself,
    each once, and neither the network nor the broadcast address, on a subnet of
    at most 510 hosts, and nothing on a larger one. *)
Theorem sweep_hosts l a :
  active l = true -> ipv4 l = Some a -> is_u32 a -> 0 <= prefix l <= 32 ->
  NoDup (sweep_link l) /\
  forall x, x ∈ sweep_link l <->
    23 <= prefix l /\ a / 2 ^ (32 - prefix l) * 2 ^ (32 - prefix l) < x < broadcast_addr a (prefix l) /\ x <> a.
Proof.
  intros Hact Hip Ha Hp. unfold sweep_link. rewrite Hact, Hip. cbn [negb].
  destruct (Z.ltb_spec (prefix l) 8); [split; [constructor|]; intros x; split; [by intros ?%not_elem_of_nil|lia]|].
  rewrite shl32_hosts by lia. cbv zeta. set (p := prefix l) in *. unfold MAX_SWEEP_HOSTS, saturating_sub.
  assert (Hk : p < 23 -> 2 ^ 10 <= 2 ^ (32 - p)) by (intros; apply Z.pow_le_mono_r; lia).
  assert (Hk' : 23 <= p -> 2 ^ (32 - p) <= 2 ^ 9) by (intros; apply Z.pow_le_mono_r; lia).
  assert (Hpos : 0 < 2 ^ (32 - p)) by (apply Z.pow_pos_nonneg; lia).
  destruct (Z.ltb_spec 512 (Z.max 0 (2 ^ (32 - p) - 2))) as [Hbig|Hsmall].
  { split; [constructor|]. intros x. split; [by intros ?%not_elem_of_nil|lia]. }
  rewrite land_mask, broadcast_last by (done || lia). set (q := a / 2 ^ (32 - p)).
  assert (Hq : 0 <= q) by (apply Z.div_pos; [apply Ha|lia]).
  assert (Hmap : map (fun h => Z.lor (q * 2 ^ (32 - p)) h) (seqZ 1 (Z.max 0 (2 ^ (32 - p) - 1) - 1)) =
                 map (fun h => q * 2 ^ (32 - p) + h) (seqZ 1 (Z.max 0 (2 ^ (32 - p) - 1) - 1))).
  { apply map_ext_in. intros h Hh%list_elem_of_In%elem_of_seqZ.
    rewrite <- (Z.shiftl_mul_pow2 q) by lia. rewrite lor_shiftl_add by (lia || unfold in_u; lia).
    by rewrite !Z.shiftl_mul_pow2 by lia. }
  rewrite Hmap. split.
  - apply NoDup_ListNoDup, List.NoDup_filter, NoDup_ListNoDup. apply NoDup_fmap_2; [intros ? ?; lia|apply NoDup_seqZ].
  - intros x. rewrite list_elem_of_In, filter_In, <- list_elem_of_In, list_elem_of_fmap, negb_true_iff, Z.eqb_neq. split.
    + intros [(h & -> & Hh%elem_of_seqZ) Hne]. split_and!; lia.
    + intros (Hp23 & Hx & Hne). split; [|done]. exists (x - q * 2 ^ (32 - p)). split; [lia|]. apply elem_of_seqZ. lia.
Qed.

(** *** Witnesses *)

Definition link_ex : ConnectXLink :=
  {| rdma_dev := [109]; netdev := [101; 110; 112]; mac := [51; 48; 58; 67; 53; 58; 57; 57; 58; 48]; ipv4 := Some 3232261131;
     prefix := 29; active := true |}. (* 192.168.100.11/29 *)

Lemma beacon_roundtrip_witness :
  is_u64 16045690984503111693 /\
  parse_beacon (beacon_msg 16045690984503111693 1 8080 [103; 120; 124; 49]) =
    Some (16045690984503111693, 1, 8080, [103; 120; 95; 49]).
Proof.
  assert (Hn : is_u64 16045690984503111693) by (apply in_u_dec_spec; reflexivity).
  split; [exact Hn|].
  exact (proj1 (beacon_roundtrip 16045690984503111693 1 8080 [103; 120; 124; 49] Hn
    ltac:(apply in_u_dec_spec; reflexivity) ltac:(apply in_u_dec_spec; reflexivity) eq_refl)).
Defined.

Lemma sweep_hosts_witness :
  active link_ex = true /\ 3232261134 ∈ sweep_link link_ex /\ sweep_link link_ex = [3232261129; 3232261130; 3232261132; 3232261133; 3232261134].
Proof.
  split; [reflexivity|]. split; [|vm_compute; reflexivity].
  apply (sweep_hosts link_ex 3232261131 eq_refl eq_refl ltac:(apply in_u_dec_spec; reflexivity) ltac:(cbn; lia)).
  vm_compute. split_and!; congruence.
Defined.

(** Two beacons of one node, one of this node's, and an ARP table of three rows. *)
Definition arp_ex : list Z :=
  [72; 10] ++ (* header *)
  [49; 57; 50; 46; 49; 54; 56; 46; 49; 48; 48; 46; 49; 50; 32; 49; 32; 50; 32; 51; 48; 58; 99; 53; 58; 57; 57; 58; 49; 32; 42; 32; 101; 10] ++
  [49; 57; 50; 46; 49; 54; 56; 46; 49; 48; 48; 46; 49; 52; 32; 49; 32; 50; 32; 97; 98; 58; 99; 32; 42; 32; 101; 10] ++
  [49; 48; 46; 48; 46; 48; 46; 49; 32; 49; 32; 50; 32; 97; 32; 42; 32; 101; 10].

Definition scan_ex : Discovery :=
  discover [104] [link_ex] 7
    [(Some 3232261132, beacon_msg 8 1 80 [97]); (Some 3232261130, beacon_msg 7 1 80 [97]);
     (Some 3232261132, beacon_msg 8 2 81 [98]); (None, beacon_msg 9 2 81 [98]); (Some 3232261133, [1; 2])] (Some arp_ex).

Lemma discover_peers_witness :
  (forall p, p ∈ peers scan_ex <->
     found [link_ex] 7 [(Some 3232261132, beacon_msg 8 1 80 [97]); (Some 3232261130, beacon_msg 7 1 80 [97]);
       (Some 3232261132, beacon_msg 8 2 81 [98]); (None, beacon_msg 9 2 81 [98]); (Some 3232261133, [1; 2])] (Some arp_ex) (ip p) = Some p) /\
  map (fun p => (ip p, is_coli p, peer_rank p, nic_match p)) (peers scan_ex) =
    [(3232261132, true, Some 2, true); (3232261134, false, None, false)].
Proof.
  split; [|vm_compute; reflexivity].
  exact (proj1 (discover_peers [104] [link_ex] 7 _ (Some arp_ex))).
Defined.
