(* ===== verification/Safetensors.v ===== *)
(** * Safetensors shards ([crates/colibri-safetensors/src/lib.rs]) and their
    writers ([Shards::write_subset] there, [write_shard] of
    [crates/colibri-engine/src/convert.rs])

    A directory is the list of its regular files in the order [read_dir] gives
    them, a path the bytes of the file's name in it, and a file the list of its
    bytes.  The lazily opened second descriptors and mappings ([dio], [maps])
    hold no data of their own; whether a span is served from the mapping is the
    argument [resident].  File offsets are [u64] and sizes [usize], both 64 bits
    wide and wrapping; an allocation above [isize::MAX] panics. *)

From Stdlib Require Import SpecFloat String Ascii.
From S2P Require Import Prelude Json Usage DType Discovery.
Local Open Scope Z_scope.

Definition bytes_of (s : string) : list Z :=
  map (fun c => Z.of_N (N_of_ascii c)) (list_ascii_of_string s).
Definition string_of (l : list Z) : string :=
  string_of_list_ascii (map (fun c => ascii_of_N (Z.to_N c)) l).

Definition isize_max : Z := 2 ^ 63 - 1.

(** ** Data *)

Record StTensor := {
  st_name : list Z; file_idx : nat; st_off : Z; st_nbytes : Z;
  st_dtype : DType; st_numel : Z; st_shape : list Z
}.

Abbreviation file := (list Z * list Z)%type.

Record Shards := { st_tensors : list StTensor; st_files : list file; st_index : gmap (list Z) nat }.

Inductive StError :=
  | UnexpectedEof
  | Unparseable (path : list Z)
  | NotAnObject
  | MissingField (path name : list Z) (field : string)
  | UnsupportedDtype (dtype : list Z)
  | MissingTensor (name : list Z).

(** ** Opening *)

(** [Path::extension] of a file name. *)
Fixpoint rsplit_dot (l : list Z) : option (list Z * list Z) :=
  match l with
  | [] => None
  | c :: l =>
      match rsplit_dot l with
      | Some (b, a) => Some (c :: b, a)
      | None => if c =? 46 then Some ([], l) else None
      end
  end.
Definition extension (name : list Z) : option (list Z) :=
  match rsplit_dot name with
  | Some (_ :: _, a) => Some a
  | _ => None
  end.

(** [read_exact_at] of [len] bytes at [off]. *)
Definition read_exact_at (content : list Z) (off len : Z) : res StError (list Z) :=
  if len =? 0 then ROk []
  else if off + len <=? Z.of_nat (length content)
  then ROk (take (Z.to_nat len) (drop (Z.to_nat off) content))
  else RErr UnexpectedEof.

(** [vec![0u8; n]]. *)
Definition alloc (n : Z) : res StError (list Z) :=
  if n <=? isize_max then ROk (repeat 0 (Z.to_nat n)) else RPanic.

Definition product (dims : list Z) : Z := fold_left (fun p d => i64 (p * d)) dims 1.

(** [meta.get(field).and_then(as_x).ok_or_else(bad)]; [get] itself panics only
    on an object whose index is broken. *)
Definition field {A} (path name : list Z) (f : string) (as_x : Json -> option A) (meta : Json) : res StError A :=
  let? v := unwrap (json_get meta (bytes_of f)) in
  ok_or (MissingField path name f) (let* j := v in as_x j).

Definition metadata_key : list Z := bytes_of "__metadata__".

Definition push_tensor (s : Shards) (t : StTensor) : Shards :=
  {| st_tensors := st_tensors s ++ [t]; st_files := st_files s;
     st_index := <[st_name t := length (st_tensors s)]> (st_index s) |}.

Definition open_entry (path : list Z) (data_start : Z) (s : Shards) (kv : list Z * Json) : res StError Shards :=
  let '(name, meta) := kv in
  if bool_decide (name = metadata_key) then ROk s else
  let? dtype_str := field path name "dtype" as_str meta in
  let? dtype := ok_or (UnsupportedDtype dtype_str) (parse_dtype (string_of dtype_str)) in
  let? offsets := field path name "data_offsets" as_array meta in
  let? shape := field path name "shape" as_array meta in
  let a0 := default 0 (let* j := offsets !! 0%nat in as_i64 j) in
  let b0 := default 0 (let* j := offsets !! 1%nat in as_i64 j) in
  let dims := map (fun d => default 0 (as_i64 d)) shape in
  ROk (push_tensor s
    {| st_name := name; file_idx := length (st_files s);
       st_off := u64 (data_start + u64 a0); st_nbytes := u64 (i64 (b0 - a0));
       st_dtype := dtype; st_numel := product dims; st_shape := dims |}).

Definition open_file (s : Shards) (f : file) : res StError Shards :=
  let '(path, content) := f in
  let? len_buf := read_exact_at content 0 8 in
  let hlen := from_le_bytes len_buf in
  let? _ := alloc hlen in
  let? hdr := read_exact_at content 8 hlen in
  let data_start := 8 + hlen in
  let? parsed := unwrap (parse (utf8_string hdr)) in
  let? root := ok_or (Unparseable path) parsed in
  let? obj := ok_or NotAnObject (as_object root) in
  let? s := for_each (open_entry path data_start) (obj_iter obj) s in
  ROk {| st_tensors := st_tensors s; st_files := st_files s ++ [f]; st_index := st_index s |}.

Definition shards_new : Shards := {| st_tensors := []; st_files := []; st_index := ∅ |}.

Definition is_shard (f : file) : bool := bool_decide (extension (fst f) = Some (bytes_of "safetensors")).

Definition open (dir : list file) : res StError Shards :=
  for_each open_file (sort_by (fun a b => str_leb (fst a) (fst b)) (List.filter is_shard dir)) shards_new.

(** ** Queries *)

Definition len (s : Shards) : nat := length (st_tensors s).
Definition is_empty (s : Shards) : bool := (length (st_tensors s) =? 0)%nat.
(** The outer option is the panic of [&self.tensors[i]]. *)
Definition find (s : Shards) (name : list Z) : option (option StTensor) :=
  match st_index s !! name with
  | Some i => let* t := st_tensors s !! i in Some (Some t)
  | None => Some None
  end.
Definition num_files (s : Shards) : nat := length (st_files s).
Definition has (s : Shards) (name : list Z) : bool := bool_decide (is_Some (st_index s !! name)).
Definition numel (s : Shards) (name : list Z) : option Z :=
  let* t := find s name in Some (match t with Some t => st_numel t | None => -1 end).
Definition nbytes (s : Shards) (name : list Z) : option Z :=
  let* t := find s name in Some (match t with Some t => i64 (st_nbytes t) | None => -1 end).
Definition tensor (s : Shards) (name : list Z) : res StError StTensor :=
  let? t := unwrap (find s name) in ok_or (MissingTensor name) t.

(** ** Positioned reads *)

Definition pread_into (s : Shards) (idx : nat) (off len : Z) : res StError (list Z) :=
  let? f := unwrap (st_files s !! idx) in read_exact_at (snd f) off len.

Definition pread (s : Shards) (idx : nat) (off len : Z) : res StError (list Z) :=
  let? _ := alloc len in pread_into s idx off len.

(** [out] is the caller's slice; slicing past its end panics. *)
Definition read_raw (s : Shards) (name : list Z) (out : list Z) : res StError (list Z) :=
  let? t := tensor s name in
  if Z.of_nat (length out) <? st_nbytes t then RPanic else
  let? b := pread_into s (file_idx t) (st_off t) (st_nbytes t) in
  ROk (b ++ drop (Z.to_nat (st_nbytes t)) out).

(** The binary32 number a bit pattern denotes (NaN payloads are not kept). *)
Definition f32_of_bits (bits : Z) : spec_float :=
  let s := Z.testbit bits 31 in
  let e := Z.land (Z.shiftr bits 23) 255 in
  let m := Z.land bits 8388607 in
  if e =? 255 then (if m =? 0 then S754_infinity s else S754_nan)
  else if e =? 0 then (match m with Zpos p => S754_finite s p (-149) | _ => S754_zero s end)
  else match m + 8388608 with Zpos p => S754_finite s p (e - 150) | _ => S754_zero s end.

(** [i64::from_le_bytes]. *)
Definition i64_of_le (chunk : list Z) : Z := i64 (from_le_bytes chunk).

(** One element; [None] is the assertion on an [I64] index or [f16_to_f32]'s. *)
Definition element (d : DType) (chunk : list Z) : option spec_float :=
  match d with
  | I64 => let v := i64_of_le chunk in
           if (0 <=? v) && (v <=? Z.shiftl 1 24) then Some (f32_of_Z v) else None
  | F32 => Some (f32_of_bits (from_le_bytes chunk))
  | Bf16 => Some (f32_of_bits (bf16_to_f32 (from_le_bytes chunk)))
  | F16 => let* b := f16_to_f32 (from_le_bytes chunk) in Some (f32_of_bits b)
  | U8 => Some (f32_of_Z (from_le_bytes chunk))
  | F8E4M3 => Some (f8e4m3_to_f32 (from_le_bytes chunk))
  | F8E5M2 => Some (f8e5m2_to_f32 (from_le_bytes chunk))
  end.

(** [out.iter_mut().zip(raw.chunks_exact(size))]: the elements that have both a
    slot and a whole chunk are written, the rest of [out] is left. *)
Fixpoint convert_chunks (d : DType) (cs : list (list Z)) (out : list spec_float) : res StError (list spec_float) :=
  match out, cs with
  | _ :: out, c :: cs =>
      let? v := unwrap (element d c) in
      let? rest := convert_chunks d cs out in ROk (v :: rest)
  | _, _ => ROk out
  end.
Definition convert_to_f32 (d : DType) (raw : list Z) (out : list spec_float) : res StError (list spec_float) :=
  convert_chunks d (chunks_exact (Z.to_nat (elem_size d)) raw) out.

Definition read_f32 (s : Shards) (name : list Z) (out : list spec_float) : res StError (Z * list spec_float) :=
  let? t := tensor s name in
  let? raw := pread s (file_idx t) (st_off t) (st_nbytes t) in
  let? out := convert_to_f32 (st_dtype t) raw out in
  ROk (st_numel t, out).

Definition read_slice_f32 (s : Shards) (name : list Z) (elem_off n_elems : Z) (out : list spec_float)
    : res StError (list spec_float) :=
  let? t := tensor s name in
  let esz := elem_size (st_dtype t) in
  let boff := u64 (st_off t + u64 (u64 elem_off * esz)) in
  let nb := u64 (u64 n_elems * esz) in
  let? raw := pread s (file_idx t) boff nb in
  let n := u64 n_elems in
  if Z.of_nat (length out) <? n then RPanic else
  let? w := convert_to_f32 (st_dtype t) raw (take (Z.to_nat n) out) in
  ROk (w ++ drop (Z.to_nat n) out).

(** ** Writing *)

(** One member of the header object. *)
Definition header_entry (name dtype : list Z) (shape : list Z) (a b : Z) : list Z :=
  [34] ++ name ++ [34; 58; 123; 34] ++ bytes_of "dtype" ++ [34; 58; 34] ++ dtype ++
  [34; 44; 34] ++ bytes_of "shape" ++ [34; 58; 91] ++ join (map print_int shape) ++
  [93; 44; 34] ++ bytes_of "data_offsets" ++ [34; 58; 91] ++ print_int a ++ [44] ++ print_int b ++ [93; 125].

Fixpoint subset_entries (rel : Z) (group : list StTensor) : list (list Z) :=
  match group with
  | [] => []
  | t :: group =>
      let e := u64 (rel + st_nbytes t) in
      header_entry (st_name t) (bytes_of (safetensors_str (st_dtype t))) (st_shape t) rel e
        :: subset_entries e group
  end.
Definition subset_header (group : list StTensor) : list Z := [123] ++ join (subset_entries 0 group) ++ [125].

(** [for t in group { .. }] with the recycled [buf]. *)
Fixpoint copy_group (s : Shards) (group : list StTensor) (buf out : list Z) : res StError (list Z * list Z) :=
  match group with
  | [] => ROk (buf, out)
  | t :: group =>
      let n := st_nbytes t in
      if isize_max <? n then RPanic else
      let buf := if Z.of_nat (length buf) <? n then buf ++ repeat 0 (Z.to_nat n - length buf) else buf in
      let? b := read_raw s (st_name t) (take (Z.to_nat n) buf) in
      copy_group s group (b ++ drop (Z.to_nat n) buf) (out ++ b)
  end.

(** The longest prefix within the cap, of at least one tensor. *)
Fixpoint pack (max acc : Z) (first : bool) (items : list StTensor) : list StTensor * list StTensor :=
  match items with
  | [] => ([], [])
  | t :: rest =>
      let acc' := u64 (acc + st_nbytes t) in
      if first || (acc' <=? max) then let '(g, r) := pack max acc' false rest in (t :: g, r) else ([], items)
  end.

Fixpoint pad_zeros (n : nat) (l : list Z) : list Z :=
  match n with O => l | S n => if (length l <? 5)%nat then pad_zeros n (48 :: l) else l end.
Definition out_name (file_no : Z) : list Z :=
  bytes_of "out-" ++ pad_zeros 5 (dec_digits file_no) ++ bytes_of ".safetensors".

Fixpoint write_groups (fuel : nat) (s : Shards) (max : Z) (items : list StTensor) (buf : list Z) (file_no : Z)
    (done : list file) : res StError (list file * Z) :=
  match fuel, items with
  | _, [] => ROk (done, file_no)
  | S fuel, _ =>
      let '(group, rest) := pack max 0 true items in
      let header := subset_header group in
      let? (buf, data) := copy_group s group buf [] in
      write_groups fuel s max rest buf (file_no + 1)
        (done ++ [(out_name file_no, to_le_bytes 8 (Z.of_nat (length header)) ++ header ++ data)])
  | O, _ => RPanic
  end.

(** Into an empty [out_dir]; an error leaves there the files already complete and
    a torn one, which are not returned. *)
Definition write_subset (s : Shards) (names : list (list Z)) (max_file_bytes : Z) : res StError (list file * Z) :=
  let? items := rmap (tensor s) names in
  write_groups (length items) s max_file_bytes items [] 0 [].

(** [write_shard] of the converter: tensors materialised in memory. *)
Record OutTensor := { ot_name : list Z; ot_dtype : string; ot_shape : list Z; ot_bytes : list Z }.

Fixpoint shard_entries (off : Z) (ts : list OutTensor) : list (list Z) :=
  match ts with
  | [] => []
  | t :: ts =>
      let e := off + Z.of_nat (length (ot_bytes t)) in
      header_entry (ot_name t) (bytes_of (ot_dtype t)) (ot_shape t) off e :: shard_entries e ts
  end.
Definition write_shard (ts : list OutTensor) : list Z :=
  let header := [123] ++ join (shard_entries 0 ts) ++ [125] in
  to_le_bytes 8 (Z.of_nat (length header)) ++ header ++ concat (map ot_bytes ts).

Example write_shard_sample :
  match open [(bytes_of "a.safetensors",
      write_shard [{| ot_name := [120]; ot_dtype := "U8"; ot_shape := [3]; ot_bytes := [7; 8; 9] |}])] with
  | ROk s => read_raw s [120] [0; 0; 0; 5] = ROk [7; 8; 9; 5]
  | _ => False
  end.
Proof. vm_compute. reflexivity. Qed.

(** ** What opening guarantees *)

Record tensor_wf (files : nat) (t : StTensor) : Prop := {
  tw_file : (file_idx t < files)%nat;
  tw_off : is_u64 (st_off t);
  tw_nbytes : is_u64 (st_nbytes t);
  tw_shape : Forall (in_i 64) (st_shape t);
  tw_numel : st_numel t = product (st_shape t)
}.

(** The index sends a name to the last tensor that has it. *)
Definition is_last (ts : list StTensor) (name : list Z) (i : nat) : Prop :=
  exists t, ts !! i = Some t /\ st_name t = name /\
    forall j t', ts !! j = Some t' -> st_name t' = name -> (j <= i)%nat.

Record index_wf (files : nat) (s : Shards) : Prop := {
  iw_tensors : Forall (tensor_wf files) (st_tensors s);
  iw_last : forall name i, st_index s !! name = Some i -> is_last (st_tensors s) name i;
  iw_all : Forall (fun t => is_Some (st_index s !! st_name t)) (st_tensors s)
}.
Abbreviation shards_wf s := (index_wf (length (st_files s)) s).

Lemma push_tensor_wf n s t : index_wf n s -> tensor_wf n t -> index_wf n (push_tensor s t).
Proof.
  intros [Ht Hi Ha] Hw. split; simpl.
  - apply Forall_app. by rewrite Forall_singleton.
  - intros name i [[<- <-]|[Hne Hx]]%lookup_insert_Some.
    + exists t. rewrite lookup_app_r, Nat.sub_diag by done. split_and!; [done|done|].
      intros j t' Hj%lookup_lt_Some _. rewrite length_app in Hj. simpl in Hj. lia.
    + destruct (Hi name i Hx) as (t1 & H1 & Hn & Hlast). exists t1.
      split_and!; [by apply lookup_app_l_Some|done|].
      intros j t' [[_ Hj]|[-> <-]]%lookup_snoc_Some Hn'; [by eapply Hlast|done].
  - apply Forall_app. split.
    + eapply Forall_impl; [exact Ha|]. intros t' [i Hx]. simpl. destruct (decide (st_name t = st_name t')) as [->|].
      * rewrite lookup_insert_eq. by eexists.
      * rewrite lookup_insert_ne by done. by eexists.
    + apply Forall_singleton. rewrite lookup_insert_eq. by eexists.
Qed.

Lemma index_wf_mono n n' s : (n <= n')%nat -> index_wf n s -> index_wf n' s.
Proof.
  intros Hn [Ht Hi Ha]. split; [|done|done]. eapply Forall_impl; [exact Ht|]. intros t []. split; try done. lia.
Qed.

Lemma field_wf {A} path name f (as_x : Json -> option A) meta : json_wf meta -> field path name f as_x meta <> RPanic.
Proof.
  intros Hm. unfold field. destruct (json_get_wf meta (bytes_of f) Hm) as (v & -> & _). simpl.
  destruct v as [j|]; simpl; [by destruct (as_x j)|done].
Qed.

Lemma dims_in_i64 (l : list Json) : Forall (in_i 64) (map (fun d => default 0 (as_i64 d)) l).
Proof.
  apply Forall_fmap, Forall_true. intros []; cbn [compose as_i64 default]; try (unfold in_i; lia). apply f64_as_i64_in.
Qed.

(** Every entry either adds one well-formed tensor, is the metadata, or is refused. *)
Lemma open_entry_step path ds s kv : json_wf (snd kv) -> index_wf (S (length (st_files s))) s ->
  open_entry path ds s kv <> RPanic /\
  forall s', open_entry path ds s kv = ROk s' -> st_files s' = st_files s /\ index_wf (S (length (st_files s))) s'.
Proof.
  destruct kv as [name meta]. simpl. intros Hm Hs. case_bool_decide; [split; [done|by intros s' [= <-]]|].
  pose proof (field_wf path name "dtype" as_str meta Hm) as H1.
  destruct (field path name "dtype" as_str meta) as [d| |]; [|done|done].
  destruct (parse_dtype (string_of d)) as [dt|]; simpl; [|done].
  pose proof (field_wf path name "data_offsets" as_array meta Hm) as H2.
  destruct (field path name "data_offsets" as_array meta) as [os| |]; [|done|done].
  pose proof (field_wf path name "shape" as_array meta Hm) as H3.
  destruct (field path name "shape" as_array meta) as [sh| |]; [|done|done].
  split; [done|]. intros s' [= <-]. split; [done|]. apply push_tensor_wf; [done|].
  split; simpl; [lia|by apply wrap_in|by apply wrap_in|apply dims_in_i64|done].
Qed.

Lemma open_entries path ds kvs : forall s,
  Forall (fun kv => json_wf (snd kv)) kvs -> index_wf (S (length (st_files s))) s ->
  for_each (open_entry path ds) kvs s <> RPanic /\
  forall s', for_each (open_entry path ds) kvs s = ROk s' ->
    st_files s' = st_files s /\ index_wf (S (length (st_files s))) s'.
Proof.
  induction kvs as [|kv kvs IH]; intros s Hk Hs; cbn [for_each].
  { split; [done|by intros s' [= <-]]. }
  apply Forall_cons in Hk as [Hkv Hk]. destruct (open_entry_step path ds s kv Hkv Hs) as [Hp Hok].
  destruct (open_entry path ds s kv) as [s1| |]; [|done|done].
  destruct (Hok s1 eq_refl) as [Hf Hs1]. rewrite <- Hf in Hs1 |- *. by apply IH.
Qed.

Lemma obj_iter_wf o : json_wf (Obj o) -> Forall (fun kv => json_wf (snd kv)) (obj_iter o).
Proof.
  inversion 1 as [j Hj| |o' Ho Hvs]; subst; [done|]. unfold obj_iter.
  apply Forall_forall. intros [k v] Hkv%elem_of_zip_r. simpl in *. rewrite Forall_forall in Hvs. by apply Hvs.
Qed.

(** The length a shard's first eight bytes declare. *)
Definition declared_header (f : file) : Z := from_le_bytes (take 8 (snd f)).

Lemma read_header_len content :
  read_exact_at content 0 8 = if 8 <=? Z.of_nat (length content) then ROk (take 8 content) else RErr UnexpectedEof.
Proof. done. Qed.

Lemma read_exact_at_no_panic content off len : read_exact_at content off len <> RPanic.
Proof. unfold read_exact_at. by repeat case_match. Qed.

Lemma open_file_step s f : shards_wf s -> declared_header f <= isize_max ->
  open_file s f <> RPanic /\
  forall s', open_file s f = ROk s' -> st_files s' = st_files s ++ [f] /\ shards_wf s'.
Proof.
  intros Hs Hd. destruct f as [path content]. unfold open_file, declared_header in *. cbn [snd] in Hd.
  rewrite read_header_len. destruct (8 <=? Z.of_nat (length content)); [|done].
  set (hlen := from_le_bytes (take 8 content)) in *. unfold alloc. rewrite (proj2 (Z.leb_le _ _) Hd).
  pose proof (read_exact_at_no_panic content 8 hlen) as Hh.
  destruct (read_exact_at content 8 hlen) as [hdr| |]; [|done|done].
  pose proof (parse_total (utf8_string hdr)) as Hp. destruct (parse (utf8_string hdr)) as [[root|]|] eqn:Hparse.
  3:{ exfalso. destruct Hp as [[_ [=]]|[_ [j [=]]]]. }
  2:{ done. }
  cbn [unwrap ok_or]. destruct root as [| | | | |o]; try done. cbn [as_object ok_or].
  pose proof (obj_iter_wf o (parse_wf _ _ Hparse)) as Ho.
  destruct (open_entries path (8 + hlen) (obj_iter o) s Ho) as [Hn Hok]; [by eapply index_wf_mono; [|exact Hs]; lia|].
  destruct (for_each _ _ s) as [s1| |]; [|done|done]. split; [done|]. intros s' [= <-]. cbn [st_files].
  destruct (Hok s1 eq_refl) as [-> [Ht Hi Ha]]. split; [done|]. rewrite length_app, Nat.add_1_r. done.
Qed.

Lemma open_files l : forall s, shards_wf s -> Forall (fun f => declared_header f <= isize_max) l ->
  for_each open_file l s <> RPanic /\
  forall s', for_each open_file l s = ROk s' -> st_files s' = st_files s ++ l /\ shards_wf s'.
Proof.
  induction l as [|f l IH]; intros s Hs Hl; cbn [for_each].
  { split; [done|]. intros s' [= <-]. by rewrite app_nil_r. }
  apply Forall_cons in Hl as [Hf Hl]. destruct (open_file_step s f Hs Hf) as [Hp Hok].
  destruct (open_file s f) as [s1| |]; [|done|done]. destruct (Hok s1 eq_refl) as [Hfiles Hs1].
  destruct (IH s1 Hs1 Hl) as [Hp' Hok']. split; [done|]. intros s' Hs'.
  destruct (Hok' s' Hs') as [Hf' ?]. split; [by rewrite Hf', Hfiles, <- app_assoc|done].
Qed.

Lemma shards_new_wf : shards_wf shards_new.
Proof. split; [constructor|done|constructor]. Qed.

Definition shard_files (dir : list file) : list file :=
  sort_by (fun a b => str_leb (fst a) (fst b)) (List.filter is_shard dir).

Lemma find_last s name : shards_wf s ->
  (exists i t, find s name = Some (Some t) /\ has s name = true /\ is_last (st_tensors s) name i /\
     st_tensors s !! i = Some t) \/
  (find s name = Some None /\ has s name = false /\ Forall (fun t => st_name t <> name) (st_tensors s)).
Proof.
  intros [Ht Hi Ha]. unfold find, has. destruct (st_index s !! name) as [i|] eqn:Hn.
  - left. destruct (Hi name i Hn) as (t & H1 & H2 & H3). exists i, t. rewrite H1.
    split_and!; [done|by rewrite bool_decide_true|by exists t|done].
  - right. split_and!; [done|by rewrite bool_decide_false by (by intros [])|].
    eapply Forall_impl; [exact Ha|]. intros t [i Hx] <-. simpl in Hx. congruence.
Qed.


(** ** Reading back what the writers write *)

Lemma valid_fuel_mono f : forall f' l, (f <= f')%nat -> valid_utf8_fuel f l = true -> valid_utf8_fuel f' l = true.
Proof.
  induction f as [|f IH]; intros [|f'] [|c l]; try done; try lia. cbn [valid_utf8_fuel].
  destruct (utf8_unit (c :: l)) as [ok n]. intros Hf [Hok Hv]%andb_true_iff. rewrite Hok. simpl. apply IH; [lia|done].
Qed.

(** A whole character at the head stays one when more text follows. *)
Lemma utf8_unit_app c a b n :
  utf8_unit (c :: a) = (true, n) ->
  utf8_unit ((c :: a) ++ b) = (true, n) /\ drop n ((c :: a) ++ b) = drop n (c :: a) ++ b.
Proof.
  unfold utf8_unit. cbn [app]. destruct (utf8_lead c) as [[k [lo hi]]|]; [|done].
  destruct (k =? 1)%nat; [intros [= <-]; done|].
  destruct a as [|c1 a]; [done|]. cbn [lookup list_lookup]. destruct (negb (in_range lo hi c1)) eqn:E1.
  { simpl. by rewrite E1. }
  simpl. rewrite E1. destruct (k =? 2)%nat; [intros [= <-]; done|].
  destruct a as [|c2 a]; [done|]. simpl. destruct (negb (in_range 128 191 c2)); [done|].
  destruct (k =? 3)%nat; [intros [= <-]; done|].
  destruct a as [|c3 a]; [done|]. simpl. destruct (negb (in_range 128 191 c3)); [done|].
  by intros [= <-].
Qed.

Lemma valid_fuel_app f : forall g a b,
  valid_utf8_fuel f a = true -> valid_utf8_fuel g b = true -> valid_utf8_fuel (f + g) (a ++ b) = true.
Proof.
  induction f as [|f IH]; intros g [|c a] b Ha Hb; try done; cbn [app].
  - eapply valid_fuel_mono; [|exact Hb]. lia.
  - cbn [valid_utf8_fuel Nat.add] in *. destruct (utf8_unit (c :: a)) as [ok n] eqn:Hu.
    apply andb_true_iff in Ha as [-> Ha]. destruct (utf8_unit_app c a b n Hu) as [Hu' Hd].
    cbn [app] in Hu', Hd. rewrite Hu', Hd. simpl. by apply IH.
Qed.

Lemma valid_app a b : valid_utf8 a = true -> valid_utf8 b = true -> valid_utf8 (a ++ b) = true.
Proof. unfold valid_utf8. rewrite length_app. apply valid_fuel_app. Qed.

Lemma valid_cons c l : 0 <= c < 128 -> valid_utf8 l = true -> valid_utf8 (c :: l) = true.
Proof. intros Hc Hl. apply (valid_app [c] l); [|done]. apply valid_ascii, Forall_singleton, Hc. Qed.

Lemma valid_join ls : Forall (fun l => valid_utf8 l = true) ls -> valid_utf8 (join ls) = true.
Proof.
  destruct 1 as [|l ls Hl Hls]; [done|]. apply valid_app; [done|].
  induction Hls as [|m ls Hm _ IH]; [done|]. simpl. apply valid_cons; [lia|]. by apply valid_app.
Qed.

Lemma valid_int z : valid_utf8 (print_int z) = true.
Proof.
  unfold print_int. apply valid_app; [by destruct (z <? 0)|]. apply valid_ascii.
  destruct (dec_digits_spec (Z.abs z)) as (_ & H & _); [lia|]. eapply Forall_impl; [exact H|].
  intros c Hc%andb_true_iff. unfold ascii. lia.
Qed.

(** Text that a JSON string literal holds as it is. *)
Definition clean (s : list Z) : bool :=
  text_ok s && forallb (fun c => (32 <=? c) && negb (c =? 34) && negb (c =? 92)) s.

Lemma jstr_clean s : clean s = true -> jstr s = [34] ++ s ++ [34].
Proof.
  unfold clean, jstr. intros [_ Hs]%andb_true_iff. do 2 f_equal.
  induction s as [|c s IH]; [done|]. simpl in *. apply andb_true_iff in Hs as [Hc Hs]. rewrite (IH Hs).
  unfold jstr_char. rewrite !(proj2 (Z.eqb_neq _ _)) by lia. by rewrite (proj2 (Z.ltb_ge _ _)) by lia.
Qed.

Lemma clean_text s : clean s = true -> text_ok s = true.
Proof. unfold clean. intros H. by apply andb_true_iff in H as [? _]. Qed.

Definition entry_doc (dtype : list Z) (shape : list Z) (a b : Z) : doc :=
  DObj [(bytes_of "dtype", DStr dtype); (bytes_of "shape", DArr (map DInt shape));
        (bytes_of "data_offsets", DArr [DInt a; DInt b])].

Lemma header_entry_print name dtype shape a b :
  clean name = true -> clean dtype = true ->
  header_entry name dtype shape a b = jstr name ++ 58 :: print (entry_doc dtype shape a b).
Proof.
  intros Hn Hd. unfold entry_doc. cbn [print map fst snd].
  rewrite (jstr_clean name Hn), (jstr_clean dtype Hd), map_map. cbn [print].
  change (map (fun x => print_int x) shape) with (map print_int shape).
  unfold header_entry. rewrite (jstr_clean (bytes_of "dtype")), (jstr_clean (bytes_of "shape")),
    (jstr_clean (bytes_of "data_offsets")) by reflexivity.
  generalize (bytes_of "dtype") (bytes_of "shape") (bytes_of "data_offsets") (join (map print_int shape))
    (print_int a) (print_int b). intros k1 k2 k3 j pa pb.
  unfold join. cbn [map concat]. rewrite !app_nil_r. cbn [app].
  repeat (rewrite <- app_assoc; cbn [app]). done.
Qed.

Lemma header_entry_valid name dtype shape a b :
  clean name = true -> clean dtype = true -> valid_utf8 (header_entry name dtype shape a b) = true.
Proof.
  intros [_ Hn]%clean_text%text_ok_spec [_ Hd]%clean_text%text_ok_spec. unfold header_entry.
  repeat (apply valid_app; [first [done|apply valid_int|apply valid_join; apply Forall_fmap, Forall_true; intros; apply valid_int]|]).
  done.
Qed.

(** Pushing distinct new keys keeps the order. *)
Lemma obj_iter_obj_of kvs : forall o,
  obj_wf o -> NoDup (obj_keys o ++ map fst kvs) -> obj_iter (obj_of kvs o) = obj_iter o ++ kvs.
Proof.
  induction kvs as [|[k v] kvs IH]; intros o Ho Hnd; [by rewrite app_nil_r|]. unfold obj_of in *. cbn [fold_left fst snd].
  destruct (obj_push_wf o k v Ho) as (o1 & Hp & Ho1). rewrite Hp. cbn [default].
  destruct o as [ks vs ix]. pose proof Ho as [Hl Hi]. simpl in *. unfold obj_push in Hp. simpl in Hp.
  destruct (ix !! k) as [i|] eqn:Hk.
  { exfalso. apply Hi in Hk. apply NoDup_app in Hnd as (_ & Hd & _).
    apply (Hd k); [by eapply list_elem_of_lookup_2|left]. }
  injection Hp as <-. rewrite IH; [|done|simpl; by rewrite <- app_assoc].
  unfold obj_iter. simpl. rewrite zip_with_app by done. by rewrite <- app_assoc.
Qed.

(** What a tensor must be for its header member to read back. *)
Definition out_ok (t : OutTensor) : bool :=
  clean (ot_name t) && negb (bool_decide (ot_name t = metadata_key)) &&
  clean (bytes_of (ot_dtype t)) && bool_decide (string_of (bytes_of (ot_dtype t)) = ot_dtype t) &&
  bool_decide (is_Some (parse_dtype (ot_dtype t))) &&
  forallb (fun d => (- 2 ^ 53 <? d) && (d <? 2 ^ 53)) (ot_shape t).

Definition size (t : OutTensor) : Z := Z.of_nat (length (ot_bytes t)).

(** The tensors a shard written from [ts] holds, the header ending at [base]. *)
Fixpoint placed (idx : nat) (base rel : Z) (ts : list OutTensor) : list StTensor :=
  match ts with
  | [] => []
  | t :: ts =>
      {| st_name := ot_name t; file_idx := idx; st_off := base + rel; st_nbytes := size t;
         st_dtype := default U8 (parse_dtype (ot_dtype t)); st_numel := product (ot_shape t);
         st_shape := ot_shape t |} :: placed idx base (rel + size t) ts
  end.

Definition shard_header (ts : list OutTensor) : list Z := [123] ++ join (shard_entries 0 ts) ++ [125].
Definition data_start (ts : list OutTensor) : Z := 8 + Z.of_nat (length (shard_header ts)).

Lemma write_shard_split ts :
  write_shard ts = to_le_bytes 8 (Z.of_nat (length (shard_header ts))) ++ shard_header ts ++ concat (map ot_bytes ts).
Proof. done. Qed.

Fixpoint entry_docs (rel : Z) (ts : list OutTensor) : list (list Z * doc) :=
  match ts with
  | [] => []
  | t :: ts => (ot_name t, entry_doc (bytes_of (ot_dtype t)) (ot_shape t) rel (rel + size t)) :: entry_docs (rel + size t) ts
  end.

Lemma out_ok_spec t : out_ok t = true ->
  clean (ot_name t) = true /\ ot_name t <> metadata_key /\ clean (bytes_of (ot_dtype t)) = true /\
  string_of (bytes_of (ot_dtype t)) = ot_dtype t /\ is_Some (parse_dtype (ot_dtype t)) /\
  Forall (fun d => - 2 ^ 53 < d < 2 ^ 53) (ot_shape t).
Proof.
  unfold out_ok. intros [[[[[H1 H2%negb_true_iff%bool_decide_eq_false]%andb_true_iff H3]%andb_true_iff
    H4%bool_decide_eq_true]%andb_true_iff H5%bool_decide_eq_true]%andb_true_iff H6]%andb_true_iff.
  split_and!; try done. apply Forall_forall. intros d Hd%list_elem_of_In. rewrite forallb_forall in H6.
  specialize (H6 d Hd). lia.
Qed.

Lemma header_print ts : forall rel, Forall (fun t => out_ok t = true) ts ->
  shard_entries rel ts = map (fun kv => jstr (fst kv) ++ 58 :: print (snd kv)) (entry_docs rel ts) /\
  forallb (fun kv => text_ok (fst kv) && doc_ok (snd kv)) (entry_docs rel ts) = true /\
  Forall (fun l => valid_utf8 l = true) (shard_entries rel ts) /\ map fst (entry_docs rel ts) = map ot_name ts.
Proof.
  induction ts as [|t ts IH]; intros rel Hts; [by repeat constructor|]. apply Forall_cons in Hts as [Ht Hts].
  destruct (out_ok_spec t Ht) as (Hn & _ & Hd & _). destruct (IH (rel + size t) Hts) as (H1 & H2 & H3 & H4).
  cbn [shard_entries entry_docs map forallb fst snd]. fold (size t). rewrite H1, H2, H4. split_and!.
  - f_equal. by apply header_entry_print.
  - rewrite (clean_text _ Hn). unfold entry_doc. cbn [doc_ok forallb fst snd]. rewrite (clean_text _ Hd).
    assert (Hsh : forallb doc_ok (map DInt (ot_shape t)) = true)
      by (apply forallb_forall; intros d [z [<- _]]%in_map_iff; done).
    rewrite Hsh. reflexivity.
  - constructor; [by apply header_entry_valid|]. by rewrite <- H1.
  - done.
Qed.

(** Header text to header value. *)
Lemma header_parses ts : Forall (fun t => out_ok t = true) ts -> NoDup (map ot_name ts) ->
  exists o, parse (utf8_string (shard_header ts)) = Some (Some (Obj o)) /\
    obj_iter o = map (fun kv => (fst kv, value (snd kv))) (entry_docs 0 ts).
Proof.
  intros Hts Hnd. destruct (header_print ts 0 Hts) as (H1 & H2 & H3 & H4).
  assert (Hh : shard_header ts = print (DObj (entry_docs 0 ts))) by (unfold shard_header; by rewrite H1).
  rewrite utf8_string_valid.
  2:{ apply valid_cons; [lia|]. apply valid_app; [by apply valid_join|done]. }
  pose proof (print_parses (2 * length (shard_header ts) + 2) (DObj (entry_docs 0 ts)) [] [] H2 I ltac:(rewrite Hh; lia)) as Hp.
  rewrite app_nil_r in Hp. cbn [app length] in Hp. eexists. split.
  - unfold parse, parse_fuel. rewrite Hh in *. rewrite Hp. done.
  - rewrite obj_iter_obj_of; [done|apply obj_new_wf|]. cbn [obj_new obj_keys app]. rewrite map_map.
    change (NoDup (map fst (entry_docs 0 ts))). by rewrite H4.
Qed.

Lemma as_i64_ints l : Forall (fun d => - 2 ^ 53 < d < 2 ^ 53) l ->
  map (fun d => default 0 (as_i64 d)) (map value (map DInt l)) = l.
Proof.
  induction 1 as [|d l Hd _ IH]; [done|]. cbn [map value as_i64]. rewrite int_f64_as_i64 by done. by rewrite IH.
Qed.

Lemma entry_fields {A} path name (f : Json -> option A) d sh off :
  let j := Obj (obj_of [(bytes_of "dtype", d); (bytes_of "shape", sh); (bytes_of "data_offsets", off)] obj_new) in
  field path name "dtype" f j = ok_or (MissingField path name "dtype") (f d) /\
  field path name "shape" f j = ok_or (MissingField path name "shape") (f sh) /\
  field path name "data_offsets" f j = ok_or (MissingField path name "data_offsets") (f off).
Proof. split_and!; reflexivity. Qed.

Lemma open_entry_doc path base s t rel :
  out_ok t = true -> 0 <= rel -> rel + size t < 2 ^ 53 -> 0 <= base < 2 ^ 63 + 8 ->
  open_entry path base s (ot_name t, value (entry_doc (bytes_of (ot_dtype t)) (ot_shape t) rel (rel + size t))) =
  ROk (foldl push_tensor s (placed (length (st_files s)) base rel [t])).
Proof.
  intros Ht Hrel Hsize Hbase. destruct (out_ok_spec t Ht) as (_ & Hm & _ & Hstr & [dt Hdt] & Hsh).
  assert (0 <= size t) by (unfold size; lia).
  unfold open_entry. rewrite bool_decide_false by done. unfold entry_doc. cbn [value map fst snd].
  edestruct (@entry_fields (list Z)) as (-> & _ & _). cbn [as_str ok_or]. rewrite Hstr, Hdt. cbn [ok_or].
  edestruct (@entry_fields (list Json)) as (_ & _ & ->). edestruct (@entry_fields (list Json)) as (_ & -> & _).
  cbn [as_array ok_or lookup list_lookup]. simpl (_ !! _). cbn [as_i64 value default].
  rewrite !int_f64_as_i64 by lia. rewrite (as_i64_ints (ot_shape t) Hsh).
  cbn [foldl placed]. rewrite Hdt. cbn [default]. unfold id. do 2 f_equal.
  rewrite (wrap_id 64 rel) by (unfold in_u; lia). rewrite (wrap_i_id 64) by (unfold in_i; lia).
  rewrite !wrap_id by (unfold in_u; lia). f_equal. lia.
Qed.

Lemma foldl_push ts : forall s,
  st_files (foldl push_tensor s ts) = st_files s /\ st_tensors (foldl push_tensor s ts) = st_tensors s ++ ts.
Proof.
  induction ts as [|t ts IH]; intros s; cbn [foldl]; [by rewrite app_nil_r|].
  destruct (IH (push_tensor s t)) as [-> ->]. simpl. by rewrite <- app_assoc.
Qed.

Lemma size_nonneg t : 0 <= size t. Proof. unfold size. lia. Qed.

Lemma sizes_nonneg ts : 0 <= sumZ (map size ts).
Proof. apply sumZ_nonneg, Forall_fmap, Forall_true. intros t. apply size_nonneg. Qed.

Lemma open_entry_docs path base ts : forall s rel,
  Forall (fun t => out_ok t = true) ts -> 0 <= rel -> rel + sumZ (map size ts) < 2 ^ 53 -> 0 <= base < 2 ^ 63 + 8 ->
  for_each (open_entry path base) (map (fun kv => (fst kv, value (snd kv))) (entry_docs rel ts)) s =
  ROk (foldl push_tensor s (placed (length (st_files s)) base rel ts)).
Proof.
  induction ts as [|t ts IH]; intros s rel Hts Hrel Hsum Hbase; [done|]. apply Forall_cons in Hts as [Ht Hts].
  pose proof (sizes_nonneg ts). pose proof (size_nonneg t). cbn [map sumZ] in Hsum.
  cbn [entry_docs map for_each fst snd]. rewrite open_entry_doc by (done || lia). cbn [placed foldl].
  rewrite IH by (done || lia). reflexivity.
Qed.

(** A list of tensors whose shard reads back. *)
Record shard_ok (ts : list OutTensor) : Prop := {
  so_tensors : Forall (fun t => out_ok t = true) ts;
  so_names : NoDup (map ot_name ts);
  so_size : sumZ (map size ts) < 2 ^ 53;
  so_file : Z.of_nat (length (write_shard ts)) <= isize_max
}.

Lemma length_write_shard ts : Z.of_nat (length (write_shard ts)) = data_start ts + Z.of_nat (length (concat (map ot_bytes ts))).
Proof. rewrite write_shard_split, !length_app, to_le_bytes_length. unfold data_start. lia. Qed.

Lemma header_len ts : shard_ok ts -> is_u64 (Z.of_nat (length (shard_header ts))) /\ 8 + Z.of_nat (length (shard_header ts)) <= isize_max.
Proof.
  intros [_ _ _ Hf]. rewrite length_write_shard in Hf. unfold data_start, isize_max, in_u in *. lia.
Qed.

Lemma header_at ts rest : shard_ok ts ->
  let content := to_le_bytes 8 (Z.of_nat (length (shard_header ts))) ++ shard_header ts ++ rest in
  read_exact_at content 0 8 = ROk (to_le_bytes 8 (Z.of_nat (length (shard_header ts)))) /\
  read_exact_at content 8 (Z.of_nat (length (shard_header ts))) = ROk (shard_header ts).
Proof.
  intros Hok content. assert (Hl : Z.of_nat (length content) = 8 + Z.of_nat (length (shard_header ts)) + Z.of_nat (length rest)).
  { unfold content. rewrite !length_app, to_le_bytes_length. lia. }
  split.
  - rewrite read_header_len. by rewrite (proj2 (Z.leb_le _ _)) by lia.
  - unfold read_exact_at. rewrite (proj2 (Z.eqb_neq _ _)), (proj2 (Z.leb_le _ _)) by (try done; lia). f_equal.
    unfold content. rewrite drop_app_length' by (rewrite to_le_bytes_length; done).
    rewrite Nat2Z.id. by rewrite take_app_length.
Qed.

Lemma open_write_shard path s ts : shard_ok ts ->
  exists s', open_file s (path, write_shard ts) = ROk s' /\
    st_files s' = st_files s ++ [(path, write_shard ts)] /\
    st_tensors s' = st_tensors s ++ placed (length (st_files s)) (data_start ts) 0 ts.
Proof.
  intros Hok. pose proof (header_len ts Hok) as [H64 Hmax].
  destruct (header_at ts (concat (map ot_bytes ts)) Hok) as [Hlen Hhdr].
  destruct (header_parses ts (so_tensors _ Hok) (so_names _ Hok)) as (o & Hp & Ho).
  eexists. split; [|split].
  - unfold open_file. rewrite write_shard_split, Hlen. rewrite from_to_le_bytes by exact H64.
    unfold alloc. rewrite (proj2 (Z.leb_le _ _)) by lia. rewrite Hhdr, Hp. cbn [unwrap ok_or as_object]. rewrite Ho.
    change (8 + _) with (data_start ts).
    rewrite open_entry_docs; [reflexivity|by apply Hok|lia|apply Hok|].
    unfold data_start, isize_max in *. lia.
  - cbn [st_files]. by rewrite (proj1 (foldl_push _ _)), <- write_shard_split.
  - cbn [st_tensors]. apply (proj2 (foldl_push _ _)).
Qed.

Definition image (f : list Z * list OutTensor) : file := (fst f, write_shard (snd f)).

Fixpoint placed_all (idx : nat) (l : list (list Z * list OutTensor)) : list StTensor :=
  match l with
  | [] => []
  | f :: l => placed idx (data_start (snd f)) 0 (snd f) ++ placed_all (S idx) l
  end.

Lemma open_images l : forall s, Forall (fun f => shard_ok (snd f)) l ->
  exists s', for_each open_file (map image l) s = ROk s' /\ st_files s' = st_files s ++ map image l /\
    st_tensors s' = st_tensors s ++ placed_all (length (st_files s)) l.
Proof.
  induction l as [|[path ts] l IH]; intros s Hl; cbn [map for_each].
  { exists s. by rewrite !app_nil_r. }
  apply Forall_cons in Hl as [Hts Hl]. destruct (open_write_shard path s ts Hts) as (s1 & Hs1 & Hf1 & Ht1).
  change (image (path, ts)) with (path, write_shard ts). rewrite Hs1.
  destruct (IH s1 Hl) as (s2 & Hs2 & Hf2 & Ht2). exists s2. split; [done|]. split.
  - by rewrite Hf2, Hf1, <- app_assoc.
  - rewrite Ht2, Ht1, Hf1, length_app, Nat.add_1_r, <- app_assoc. done.
Qed.

Lemma placed_names idx base ts : forall rel, map st_name (placed idx base rel ts) = map ot_name ts.
Proof. induction ts as [|t ts IH]; intros rel; [done|]. cbn [placed map st_name]. by rewrite IH. Qed.

Lemma placed_all_names l : forall idx, map st_name (placed_all idx l) = map ot_name (concat (map snd l)).
Proof.
  induction l as [|f l IH]; intros idx; [done|]. cbn [placed_all map concat]. by rewrite !map_app, placed_names, IH.
Qed.

(** Each tensor of a shard is placed where its bytes are. *)
Lemma placed_read idx ts : forall hdr pre t,
  t ∈ ts ->
  exists st, st ∈ placed idx (Z.of_nat (length hdr)) (Z.of_nat (length pre)) ts /\ st_name st = ot_name t /\
    file_idx st = idx /\ st_nbytes st = size t /\ st_dtype st = default U8 (parse_dtype (ot_dtype t)) /\
    st_shape st = ot_shape t /\ st_numel st = product (ot_shape t) /\
    read_exact_at (hdr ++ pre ++ concat (map ot_bytes ts)) (st_off st) (st_nbytes st) = ROk (ot_bytes t).
Proof.
  induction ts as [|u ts IH]; intros hdr pre t Ht; [by apply not_elem_of_nil in Ht|].
  cbn [placed map concat]. apply elem_of_cons in Ht as [->|Ht].
  - eexists. split; [left|]. split_and!; try done. cbn [st_off st_nbytes]. unfold read_exact_at, size.
    destruct (Z.eqb_spec (Z.of_nat (length (ot_bytes u))) 0) as [Hz|_].
    { f_equal. symmetry. apply nil_length_inv. lia. }
    rewrite (proj2 (Z.leb_le _ _)) by (rewrite !length_app; lia). f_equal.
    replace (Z.to_nat (_ + _)) with (length (hdr ++ pre)) by (rewrite length_app; lia).
    rewrite app_assoc, drop_app_length, Nat2Z.id. apply take_app_length.
  - destruct (IH hdr (pre ++ ot_bytes u) t Ht) as (st & Hst & H1 & H2 & H3 & H4 & H5 & H6 & H7).
    exists st. rewrite length_app, Nat2Z.inj_add in Hst. split; [by right|].
    rewrite <- !app_assoc in H7. by split_and!.
Qed.

Lemma placed_all_read l : forall idx k f t,
  l !! k = Some f -> t ∈ snd f ->
  exists st, st ∈ placed_all idx l /\ st_name st = ot_name t /\ file_idx st = (idx + k)%nat /\
    st_nbytes st = size t /\ st_dtype st = default U8 (parse_dtype (ot_dtype t)) /\
    st_shape st = ot_shape t /\ st_numel st = product (ot_shape t) /\
    read_exact_at (write_shard (snd f)) (st_off st) (st_nbytes st) = ROk (ot_bytes t).
Proof.
  induction l as [|g l IH]; intros idx k f t Hk Ht; [done|]. destruct k as [|k]; cbn [lookup list_lookup] in Hk.
  - injection Hk as ->. destruct (placed_read idx (snd f) (to_le_bytes 8 (Z.of_nat (length (shard_header (snd f)))) ++ shard_header (snd f)) [] t Ht)
      as (st & Hst & H1 & H2 & H3 & H4 & H5 & H6 & H7).
    exists st. cbn [placed_all]. split.
    + apply elem_of_app. left. rewrite length_app, to_le_bytes_length in Hst. unfold data_start.
      by rewrite Nat2Z.inj_add in Hst.
    + rewrite <- app_assoc in H7. rewrite Nat.add_0_r. by split_and!.
  - destruct (IH (S idx) k f t Hk Ht) as (st & Hst & H1 & H2 & H3). exists st. cbn [placed_all].
    split; [apply elem_of_app; by right|]. rewrite <- Nat.add_succ_comm. done.
Qed.

Lemma NoDup_map_inj {A B} (f : A -> B) l x y : NoDup (map f l) -> x ∈ l -> y ∈ l -> f x = f y -> x = y.
Proof.
  intros Hnd [i Hi]%list_elem_of_lookup [j Hj]%list_elem_of_lookup Hf.
  assert (i = j); [|congruence]. rewrite NoDup_alt in Hnd. apply (Hnd i j (f x)).
  - by rewrite list_lookup_fmap, Hi.
  - by rewrite list_lookup_fmap, Hj, Hf.
Qed.

Lemma find_unique s st : shards_wf s -> NoDup (map st_name (st_tensors s)) -> st ∈ st_tensors s ->
  find s (st_name st) = Some (Some st).
Proof.
  intros Hwf Hnd Hst. destruct (find_last s (st_name st) Hwf) as [(i & t & -> & _ & (u & Hu & Hn & _) & Ht)|(_ & _ & Hno)].
  - do 2 f_equal. assert (t = u) by congruence. subst u. eapply NoDup_map_inj; [done| |done|done].
    by eapply list_elem_of_lookup_2.
  - rewrite Forall_forall in Hno. by destruct (Hno st Hst).
Qed.

Lemma declared_image f : shard_ok (snd f) -> declared_header (image f) <= isize_max.
Proof.
  intros Hok. pose proof (header_len _ Hok) as [H64 Hmax]. unfold declared_header, image. cbn [snd].
  rewrite write_shard_split, take_app_length' by (by rewrite to_le_bytes_length).
  rewrite from_to_le_bytes by exact H64. lia.
Qed.

(** What a reader of a directory must find of a tensor written there. *)
Definition holds (s : Shards) (t : OutTensor) : Prop :=
  exists st, find s (ot_name t) = Some (Some st) /\ st_nbytes st = size t /\
    Some (st_dtype st) = parse_dtype (ot_dtype t) /\ st_shape st = ot_shape t /\
    st_numel st = product (ot_shape t) /\
    pread_into s (file_idx st) (st_off st) (st_nbytes st) = ROk (ot_bytes t).

Lemma open_dir_images l dir :
  Forall (fun f => shard_ok (snd f)) l -> Forall (fun f => is_shard (image f) = true) l ->
  NoDup (map ot_name (concat (map snd l))) -> dir ≡ₚ map image l ->
  exists s, open dir = ROk s /\ shards_wf s /\ num_files s = length l /\ Forall (holds s) (concat (map snd l)) /\
    forall name, name ∉ map ot_name (concat (map snd l)) -> find s name = Some None.
Proof.
  intros Hok Hshard Hnd Hdir. unfold open.
  assert (Hfilter : List.filter is_shard dir = dir).
  { assert (Hall : Forall (fun f => is_shard f = true) dir).
    { rewrite Hdir. by apply Forall_fmap. }
    clear -Hall. induction Hall as [|f dir Hf _ IH]; [done|]. simpl. by rewrite Hf, IH. }
  rewrite Hfilter. set (sorted := sort_by (fun a b => str_leb (fst a) (fst b)) dir).
  assert (Hperm : sorted ≡ₚ map image l) by (unfold sorted; by rewrite sort_by_perm).
  clearbody sorted. destruct (Permutation_map_inv image l Hperm) as (l' & -> & Hl).
  assert (Hcat : concat (map snd l) ≡ₚ concat (map snd l')) by (by rewrite Hl).
  rewrite Hl in Hok. rewrite (Permutation_map ot_name Hcat) in Hnd.
  destruct (open_images l' shards_new Hok) as (s & Hs & Hf & Ht). exists s. split; [done|].
  destruct (open_files (map image l') shards_new shards_new_wf) as [_ Hwf].
  { apply Forall_fmap. eapply Forall_impl; [exact Hok|]. intros f. apply declared_image. }
  destruct (Hwf s Hs) as [_ Hs']. cbn [shards_new st_files st_tensors app length] in Hf, Ht.
  assert (Hnames : map st_name (st_tensors s) = map ot_name (concat (map snd l'))) by (rewrite Ht; apply placed_all_names).
  split_and!; [done| | |].
  - unfold num_files. rewrite Hf, length_map. symmetry. by apply Permutation_length.
  - rewrite Hcat. apply Forall_forall. intros t (ts & Hin & Ht')%list_elem_of_In%in_concat.
    apply in_map_iff in Hin as (f & <- & [k Hk]%list_elem_of_In%list_elem_of_lookup).
    apply list_elem_of_In in Ht'.
    destruct (placed_all_read l' 0 k f t Hk Ht') as (st & Hst & Hn & Hidx & H3 & H4 & H5 & H6 & H7).
    exists st. rewrite <- Hn. split_and!; try done.
    + apply find_unique; [done|by rewrite Hnames|by rewrite Ht].
    + assert (Hts : out_ok t = true).
      { rewrite Forall_forall in Hok. destruct (Hok f) as [Hots _ _ _]; [by eapply list_elem_of_lookup_2|].
        rewrite Forall_forall in Hots. by apply Hots. }
      destruct (out_ok_spec t Hts) as (_ & _ & _ & _ & [dt Hdt] & _). rewrite H4, Hdt. done.
    + unfold pread_into. rewrite Hf, list_lookup_fmap, Hidx. simpl. by rewrite Hk.
  - intros name Hn. destruct (find_last s name Hs') as [(i & st & _ & _ & (u & Hu & Hnu & _) & _)|(? & _)]; [|done].
    exfalso. apply Hn. rewrite (Permutation_map ot_name Hcat), <- Hnames, <- Hnu.
    apply list_elem_of_In, in_map, list_elem_of_In. by eapply list_elem_of_lookup_2.
Qed.

(** [t] of [s] with the bytes it holds. *)
Record reads (s : Shards) (t : StTensor) (o : OutTensor) : Prop := {
  rd_find : tensor s (st_name t) = ROk t;
  rd_bytes : pread_into s (file_idx t) (st_off t) (st_nbytes t) = ROk (ot_bytes o);
  rd_name : ot_name o = st_name t;
  rd_dtype : ot_dtype o = safetensors_str (st_dtype t);
  rd_shape : ot_shape o = st_shape t
}.

Lemma read_exact_at_length content off len b :
  0 <= off -> 0 <= len -> read_exact_at content off len = ROk b -> Z.of_nat (length b) = len.
Proof.
  unfold read_exact_at. intros Ho Hl. destruct (Z.eqb_spec len 0) as [->|]; [by intros [= <-]|].
  destruct (Z.leb_spec (off + len) (Z.of_nat (length content))); [|done]. intros [= <-].
  rewrite length_take, length_drop. lia.
Qed.

Lemma tensor_spec s name t : shards_wf s -> tensor s name = ROk t ->
  st_name t = name /\ tensor_wf (num_files s) t.
Proof.
  intros Hwf. unfold tensor. destruct (find_last s name Hwf) as [(i & u & -> & _ & (v & Hv & Hn & _) & Hu)|(-> & _)]; [|done].
  intros [= <-]. split; [congruence|]. destruct Hwf as [Ht _ _]. by eapply Forall_lookup_1.
Qed.

Lemma reads_size s t o : shards_wf s -> reads s t o -> st_nbytes t = size o.
Proof.
  intros Hwf [Hf Hb _ _ _]. destruct (tensor_spec s _ t Hwf Hf) as [_ [_ Ho Hn _ _]]. unfold pread_into in Hb.
  destruct (st_files s !! file_idx t) as [f|]; [|done]. unfold size, in_u in *.
  symmetry. eapply read_exact_at_length; [| |exact Hb]; lia.
Qed.

Lemma subset_entries_shard s group ots : shards_wf s -> Forall2 (reads s) group ots -> forall rel,
  0 <= rel -> rel + sumZ (map size ots) < 2 ^ 64 -> subset_entries rel group = shard_entries rel ots.
Proof.
  intros Hwf. induction 1 as [|t o group ots Ht _ IH]; intros rel Hrel Hsum; [done|].
  pose proof (size_nonneg o). pose proof (sizes_nonneg ots). cbn [map sumZ] in Hsum.
  cbn [subset_entries shard_entries]. rewrite (reads_size s t o Hwf Ht), wrap_id by (unfold in_u; lia).
  destruct Ht as [_ _ -> -> ->]. fold (size o). f_equal. apply IH; lia.
Qed.

Lemma copy_group_ok s group ots : shards_wf s -> Forall2 (reads s) group ots ->
  Forall (fun o => size o <= isize_max) ots -> forall buf out,
  exists buf', copy_group s group buf out = ROk (buf', out ++ concat (map ot_bytes ots)).
Proof.
  intros Hwf. induction 1 as [|t o group ots Ht _ IH]; intros Hmax buf out.
  { exists buf. cbn [copy_group map concat]. by rewrite app_nil_r. }
  apply Forall_cons in Hmax as [Ho Hmax]. cbn [copy_group].
  pose proof (reads_size s t o Hwf Ht) as Hn. rewrite Hn, (proj2 (Z.ltb_ge _ _) Ho).
  set (buf1 := if Z.of_nat (length buf) <? size o then buf ++ repeat 0 (Z.to_nat (size o) - length buf) else buf).
  assert (Hbuf : (Z.to_nat (size o) <= length buf1)%nat).
  { unfold buf1. destruct (Z.ltb_spec (Z.of_nat (length buf)) (size o)); [rewrite length_app, repeat_length|]; lia. }
  unfold read_raw. destruct Ht as [-> Hb Hname _ _]. rewrite length_take, Nat.min_l by done.
  pose proof (size_nonneg o). rewrite Hn, (proj2 (Z.ltb_ge _ _)) by lia. rewrite Hn in Hb. rewrite Hb.
  rewrite drop_ge, app_nil_r by (rewrite length_take; lia).
  destruct (IH Hmax (ot_bytes o ++ drop (Z.to_nat (size o)) buf1) (out ++ ot_bytes o)) as [buf' ->].
  exists buf'. cbn [map concat]. by rewrite <- app_assoc.
Qed.

Lemma pack_split max items : forall acc first g r, pack max acc first items = (g, r) ->
  g ++ r = items /\ (first = true -> items <> [] -> g <> []).
Proof.
  induction items as [|t items IH]; intros acc first g r; cbn [pack]; [by intros [= <- <-]|].
  destruct (first || _) eqn:Hf.
  - destruct (pack max _ false items) as [g' r'] eqn:Hp. intros [= <- <-]. destruct (IH _ _ _ _ Hp) as [<- _]. done.
  - intros [= <- <-]. split; [done|]. intros ->. done.
Qed.

Lemma write_groups_ok s max : shards_wf s -> forall fuel items ots buf no done,
  Forall2 (reads s) items ots -> (length items <= fuel)%nat ->
  Forall (fun o => size o <= isize_max) ots -> sumZ (map size ots) < 2 ^ 64 ->
  exists groups, concat groups = ots /\ Forall (fun g => g <> []) groups /\
    write_groups fuel s max items buf no done =
    ROk (done ++ imap (fun k g => (out_name (no + Z.of_nat k), write_shard g)) groups, no + Z.of_nat (length groups)).
Proof.
  intros Hwf. induction fuel as [|fuel IH]; intros items ots buf no done Hits Hfuel Hmax Hsum.
  { destruct items; [|simpl in Hfuel; lia]. inversion Hits; subst. exists []. split_and!; [done|constructor|].
    simpl. by rewrite app_nil_r, Z.add_0_r. }
  destruct items as [|t items].
  { inversion Hits; subst. exists []. split_and!; [done|constructor|]. simpl. by rewrite app_nil_r, Z.add_0_r. }
  cbn [write_groups]. destruct (pack max 0 true (t :: items)) as [g r] eqn:Hp.
  destruct (pack_split max (t :: items) _ _ _ _ Hp) as [Hsplit Hne]. specialize (Hne eq_refl ltac:(done)).
  rewrite <- Hsplit in Hits. apply Forall2_app_inv_l in Hits as (og & or & Hg & Hr & ->).
  rewrite map_app, sumZ_app in Hsum. apply Forall_app in Hmax as [Hmaxg Hmaxr].
  pose proof (sizes_nonneg og). pose proof (sizes_nonneg or).
  destruct (copy_group_ok s g og Hwf Hg Hmaxg buf []) as [buf' ->]. cbv beta iota zeta.
  assert (Hlen : (length g + length r = S (length items))%nat) by (rewrite <- length_app, Hsplit; done).
  destruct g as [|t' g]; [done|]. simpl in Hlen, Hfuel.
  destruct (IH r or buf' (no + 1) (done ++ [(out_name no, write_shard og)]) Hr ltac:(lia) Hmaxr ltac:(lia))
    as (groups & <- & Hgs & Hw).
  exists (og :: groups). split_and!; [done| |].
  { constructor; [|done]. inversion Hg; subst. done. }
  unfold subset_header. rewrite (subset_entries_shard s _ og Hwf Hg) by lia.
  change (to_le_bytes 8 _ ++ _ ++ _) with (write_shard og). rewrite Hw. f_equal. f_equal; [|simpl length; lia].
  rewrite <- app_assoc. cbn [imap app]. do 2 f_equal; [by rewrite Z.add_0_r|].
  apply imap_ext. intros k x _. simpl. f_equal. f_equal. lia.
Qed.

(** ** Names of the written files *)

Lemma pad_zeros_value n : forall l, digits_value (pad_zeros n l) = digits_value l.
Proof.
  induction n as [|n IH]; intros l; cbn [pad_zeros]; [done|]. destruct (_ <? _)%nat; [|done]. by rewrite IH.
Qed.

Lemma out_name_inj a b : 0 <= a -> 0 <= b -> out_name a = out_name b -> a = b.
Proof.
  unfold out_name. intros Ha Hb H%app_inv_head%app_inv_tail.
  apply (f_equal digits_value) in H. rewrite !pad_zeros_value in H.
  destruct (dec_digits_spec a Ha) as [<- _], (dec_digits_spec b Hb) as [<- _]. done.
Qed.

Lemma rsplit_dot_none a : 46 ∉ a -> rsplit_dot a = None.
Proof.
  induction a as [|c a IH]; [done|]. intros [Hc Ha]%not_elem_of_cons. cbn [rsplit_dot]. rewrite (IH Ha).
  by rewrite (proj2 (Z.eqb_neq c 46)) by done.
Qed.

Lemma rsplit_dot_app b a : 46 ∉ a -> rsplit_dot (b ++ 46 :: a) = Some (b, a).
Proof.
  intros Ha. induction b as [|c b IH]; cbn [app rsplit_dot]; [by rewrite rsplit_dot_none|by rewrite IH].
Qed.

Lemma out_name_shard k ts : is_shard (image (out_name k, ts)) = true.
Proof.
  apply bool_decide_eq_true. unfold extension, image, out_name. cbn [fst].
  change (bytes_of ".safetensors") with (46 :: bytes_of "safetensors"). rewrite app_assoc.
  rewrite rsplit_dot_app by (apply (bool_decide_unpack _); vm_compute; exact I).
  destruct (bytes_of "out-" ++ pad_zeros 5 (dec_digits k)) eqn:H; [|done]. discriminate.
Qed.

(** ** Round trips *)

(** The shards the converter writes read back.  Tensors are written into
    shard files with distinct [.safetensors] names, however they are divided;
    then opening the directory, in whatever order it lists the files, succeeds
    and every tensor is found under its name with its type, shape, element
    count and exactly its bytes, and no other name is.  Names must be distinct,
    valid UTF-8 without characters JSON escapes and not the metadata key,
    dimensions and total sizes below 2^53. *)
Theorem write_shard_open l dir :
  Forall (fun f => shard_ok (snd f)) l -> Forall (fun f => is_shard (image f) = true) l ->
  NoDup (map ot_name (concat (map snd l))) ->
  dir ≡ₚ map (fun f => (fst f, write_shard (snd f))) l ->
  exists s, open dir = ROk s /\ num_files s = length l /\
    (forall t, t ∈ concat (map snd l) -> holds s t) /\
    (forall name, name ∉ map ot_name (concat (map snd l)) -> tensor s name = RErr (MissingTensor name)).
Proof.
  intros Hok Hsh Hnd Hdir. destruct (open_dir_images l dir Hok Hsh Hnd Hdir) as (s & Hs & _ & Hn & Hh & Hno).
  exists s. split_and!; [done|done|by apply Forall_forall|].
  intros name Hname. unfold tensor. by rewrite (Hno name Hname).
Qed.

(** A tensor is the same in two sets. *)
Definition same_tensor (s s' : Shards) (name : list Z) : Prop :=
  exists t t' b, tensor s name = ROk t /\ tensor s' name = ROk t' /\
    st_nbytes t' = st_nbytes t /\ st_dtype t' = st_dtype t /\ st_shape t' = st_shape t /\ st_numel t' = st_numel t /\
    pread_into s (file_idx t) (st_off t) (st_nbytes t) = ROk b /\
    pread_into s' (file_idx t') (st_off t') (st_nbytes t') = ROk b.

(** The tensor [name] of [s], with its bytes, as a writer sees it. *)
Definition stored (s : Shards) (name : list Z) (o : OutTensor) : Prop :=
  exists t b, tensor s name = ROk t /\ pread_into s (file_idx t) (st_off t) (st_nbytes t) = ROk b /\
    o = {| ot_name := st_name t; ot_dtype := safetensors_str (st_dtype t); ot_shape := st_shape t; ot_bytes := b |}.

Lemma stored_reads s names ots : shards_wf s -> Forall2 (stored s) names ots ->
  exists items, rmap (tensor s) names = ROk items /\ Forall2 (reads s) items ots /\ map ot_name ots = names.
Proof.
  intros Hwf. induction 1 as [|name o names ots (t & b & Ht & Hb & ->) _ (items & Hm & Hr & Hn)].
  { by exists []. }
  destruct (tensor_spec s name t Hwf Ht) as [Hname _]. exists (t :: items). cbn [rmap map ot_name].
  rewrite Ht, Hm, Hn, Hname. split_and!; [done| |done]. constructor; [|done]. split; try done. by rewrite Hname.
Qed.

Lemma holds_same s s' name o : shards_wf s -> stored s name o -> holds s' o -> same_tensor s s' name.
Proof.
  intros Hwf (t & b & Ht & Hb & ->) (t' & Hf & Hn & Hd & Hsh & Hnum & Hb'). cbn in *.
  destruct (tensor_spec s name t Hwf Ht) as [<- [_ Ho Hnb _ Hnumel]].
  exists t, t', b. unfold tensor at 2. rewrite Hf. rewrite parse_safetensors_str in Hd. injection Hd as Hd.
  rewrite Hnumel. split_and!; try done. rewrite Hn. unfold size. simpl. unfold in_u, pread_into in *.
  destruct (st_files s !! file_idx t) as [f|]; [|done].
  eapply read_exact_at_length; [| |exact Hb]; lia.
Qed.

Lemma map_imap {A B C} (f : nat -> A -> B) (g : B -> C) (l : list A) : map g (imap f l) = imap (fun k x => g (f k x)) l.
Proof. revert f. induction l as [|x l IH]; intros f; [done|]. simpl. f_equal. apply (IH (f ∘ S)). Qed.


(** ** Witnesses *)

Definition sample_x : OutTensor := {| ot_name := [120]; ot_dtype := "U8"; ot_shape := [3]; ot_bytes := [7; 8; 9] |}.
Definition sample_y : OutTensor :=
  {| ot_name := [121; 46; 113]; ot_dtype := "BF16"; ot_shape := [1; 2]; ot_bytes := [128; 63; 0; 64] |}.
Definition sample_dir : list file := [(bytes_of "a.safetensors", write_shard [sample_x; sample_y])].
Definition sample_shards : Shards := match open sample_dir with ROk s => s | _ => shards_new end.

Lemma sample_opens : open sample_dir = ROk sample_shards.
Proof. vm_compute. reflexivity. Qed.

Lemma sample_small : Forall (fun f => declared_header f <= isize_max) sample_dir.
Proof. apply (bool_decide_unpack _). vm_compute. exact I. Qed.


Lemma write_shard_open_witness :
  exists s, open sample_dir = ROk s /\ num_files s = 1%nat /\ (forall t, t ∈ [sample_x; sample_y] -> holds s t).
Proof.
  destruct (write_shard_open [(bytes_of "a.safetensors", [sample_x; sample_y])] sample_dir) as (s & Hs & Hn & Hh & _).
  - constructor; [|constructor]. split; [repeat constructor| | |].
    + apply (bool_decide_unpack _). vm_compute. exact I.
    + vm_compute. reflexivity.
    + vm_compute. discriminate.
  - constructor; [vm_compute; reflexivity|constructor].
  - apply (bool_decide_unpack _). vm_compute. exact I.
  - reflexivity.
  - exists s. split; [exact Hs|]. split; [exact Hn|]. exact Hh.
Defined.

