(* ===== verification/Spans.v ===== *)
(** * Coalesced and chunked reads of shards ([crates/colibri-safetensors/src/lib.rs])

    [read_raw_shared], [read_raw_shared_batched] and [pread_chunked]: names are
    coalesced into spans of contiguous bytes, spans are tiled into jobs, and a
    pool of threads runs the jobs.  The arguments stand for what the code gets
    from outside: [view] says which spans the page cache holds ([mincore]),
    [addr] where the allocator put a buffer, [fresh] what a recycled buffer
    holds, [sched] the order in which the pool's threads complete the jobs.  A
    buffer is named by its position among the spans.  io_uring, off by default,
    is not modelled. *)

From stdpp Require Import sorting.
From S2P Require Import Prelude Usage DType Discovery Safetensors.
Local Open Scope Z_scope.

Definition DIO_ALIGN : Z := 512.
Definition MIN_CHUNK : Z := Z.shiftl 1 20.

(** [parse_sub_kb] of the value of [COLI_READ_SUB_KB]. *)
Definition parse_sub_kb (v : option (list Z)) : Z :=
  default (Z.shiftl 2 20)
    (let* s := v in let* kb := parse_uint 64 (trim s) in
     let b := Z.land (Z.min (kb * 1024) (2 ^ 64 - 1)) (Z.lnot 511) in
     if 512 <=? b then Some b else None).

(** ** Jobs *)

Record Job := { j_file : nat; j_off : Z; j_buf : nat; j_pos : Z; j_len : Z }.

(** [while o < total { clen = sub.min(total - o); ..; o += clen }]. *)
Fixpoint tile (fuel : nat) (sub total o : Z) : list (Z * Z) :=
  match fuel with
  | O => []
  | S fuel =>
      if o <? total
      then let clen := Z.min sub (total - o) in (o, clen) :: tile fuel sub total (o + clen)
      else []
  end.
Definition tiles (sub total : Z) : list (Z * Z) := tile (Z.to_nat (div_ceil total sub)) sub total 0.

Definition write_at (buf : list Z) (pos : Z) (d : list Z) : list Z :=
  take (Z.to_nat pos) buf ++ d ++ drop (Z.to_nat pos + length d) buf.

(** A worker reads its job's bytes into the job's range; an error is kept and
    the others go on. *)
Definition run_job (s : Shards) (st : list (list Z) * option StError) (j : Job)
    : res StError (list (list Z) * option StError) :=
  let '(bufs, err) := st in
  match pread_into s (j_file j) (j_off j) (j_len j) with
  | ROk d => ROk (alter (fun b => write_at b (j_pos j) d) (j_buf j) bufs, err)
  | RErr e => ROk (bufs, Some e)
  | RPanic => RPanic
  end.

Definition drain (s : Shards) (js : list Job) (bufs : list (list Z)) : res StError (list (list Z)) :=
  let? (bufs, err) := for_each (run_job s) js (bufs, None) in
  match err with Some e => RErr e | None => ROk bufs end.

(** [pread_chunked] into [buf]. *)
Definition pread_chunked (s : Shards) (sched : list Job -> list Job) (idx : nat) (off : Z) (buf : list Z) (nthreads : Z)
    : res StError (list Z) :=
  let len := Z.of_nat (length buf) in
  let nt := Z.max (Z.min nthreads (len / MIN_CHUNK)) 1 in
  if nt <=? 1 then pread_into s idx off len
  else
    let per := div_ceil len nt in
    let js := map (fun '(start, clen) =>
      {| j_file := idx; j_off := u64 (off + start); j_buf := 0; j_pos := start; j_len := clen |}) (tiles per len) in
    let? bufs := drain s (sched js) [buf] in unwrap (bufs !! 0%nat).

(** [mapped_view]: the mapping's bounds are checked before the page cache. *)
Definition mapped_view (s : Shards) (view : nat -> Z -> Z -> bool) (idx : nat) (off len : Z) : option (list Z) :=
  let* f := st_files s !! idx in
  if (len =? 0) || (Z.of_nat (length (snd f)) <? Z.min (off + len) (2 ^ 64 - 1)) then None
  else if view idx off len then Some (take (Z.to_nat len) (drop (Z.to_nat off) (snd f))) else None.

(** ** Coalescing *)

Abbreviation Meta := (nat * Z * Z)%type. (* file, offset, bytes *)

Definition meta_of (s : Shards) (names : list (list Z)) : res StError (list Meta) :=
  rmap (fun name => let? t := tensor s name in ROk (file_idx t, st_off t, st_nbytes t)) names.

Section Coalesce.
Context (meta : list Meta).

Definition meta_at (i : nat) : Meta := default (0%nat, 0, 0) (meta !! i).

(** [order.sort_by_key(|&i| (meta[i].0, meta[i].1))]. *)
Definition span_leb (i j : nat) : bool :=
  let '(f, o, _) := meta_at i in
  let '(g, p, _) := meta_at j in
  (f <? g)%nat || ((f =? g)%nat && (o <=? p)).
Definition order : list nat := sort_by span_leb (seq 0 (length meta)).

Record Group := { g_file : nat; g_off0 : Z; g_end : Z; g_members : list nat }.

Fixpoint extend (file : nat) (span_end : Z) (rest : list nat) : list nat * Z * list nat :=
  match rest with
  | [] => ([], span_end, [])
  | i :: rest' =>
      let '(f, o, nb) := meta_at i in
      if (f =? file)%nat && (o =? span_end)
      then let '(ms, e, r) := extend file (u64 (o + nb)) rest' in (i :: ms, e, r)
      else ([], span_end, rest)
  end.

Fixpoint groups_fuel (fuel : nat) (ord : list nat) : list Group :=
  match fuel, ord with
  | S fuel, i :: rest =>
      let '(file, off0, nb0) := meta_at i in
      let '(ms, e, r) := extend file (u64 (off0 + nb0)) rest in
      {| g_file := file; g_off0 := off0; g_end := e; g_members := i :: ms |} :: groups_fuel fuel r
  | _, _ => []
  end.
Definition coalesce : list Group := groups_fuel (length order) order.
End Coalesce.

(** A view: buffer, offset in it, length. *)
Abbreviation View := (nat * Z * Z)%type.

(** [result[idx] = Some((buf, prefix + (o - off0), nb))] for the group's members. *)
Definition set_views {A} (wrap_view : View -> A) (meta : list Meta) (buf : nat) (prefix : Z) (g : Group) (l : list A) : list A :=
  fold_left (fun l i => let '(_, o, nb) := meta_at meta i in
               <[i := wrap_view (buf, prefix + u64 (o - g_off0 g), nb)]> l) (g_members g) l.

Section Reads.
Context (s : Shards) (view : nat -> Z -> Z -> bool) (fresh : nat -> Z -> list Z) (sched : list Job -> list Job).

(** ** [read_raw_shared] *)

Definition read_group (nthreads : Z) (meta : list Meta) (st : list (list Z) * list (option View)) (g : Group)
    : res StError (list (list Z) * list (option View)) :=
  let '(bufs, result) := st in
  let span := u64 (g_end g - g_off0 g) in
  let? buf :=
    match mapped_view s view (g_file g) (g_off0 g) span with
    | Some b => ROk b
    | None => let? _ := alloc span in pread_chunked s sched (g_file g) (g_off0 g) (fresh (length bufs) span) nthreads
    end in
  ROk (bufs ++ [buf], set_views Some meta (length bufs) 0 g result).

Definition read_raw_shared (names : list (list Z)) (nthreads : Z) : res StError (list (list Z) * list View) :=
  let? meta := meta_of s names in
  let? (bufs, result) := for_each (read_group nthreads meta) (coalesce meta) ([], replicate (length names) None) in
  let? views := rmap unwrap result in
  ROk (bufs, views).

(** ** [read_raw_shared_batched] *)

Record Span := { sp_file : nat; read_off : Z; read_len : Z; skew : Z; sp_view : option (list Z); sp_cap : Z }.

Definition next_multiple_of (n m : Z) : Z := u64 (m * div_ceil n m).

Context (dio : bool) (addr : nat -> Z).

Definition plan_span (meta : list Meta) (st : list Span * list View) (g : Group) : res StError (list Span * list View) :=
  let '(spans, names_map) := st in
  let span_idx := length spans in
  let span_len := u64 (g_end g - g_off0 g) in
  match mapped_view s view (g_file g) (g_off0 g) span_len with
  | Some b =>
      ROk (spans ++ [{| sp_file := g_file g; read_off := g_off0 g; read_len := 0; skew := 0;
                        sp_view := Some b; sp_cap := span_len |}],
           set_views id meta span_idx 0 g names_map)
  | None =>
      let '(pad, extra) := if dio then (Z.land (g_off0 g) (DIO_ALIGN - 1), DIO_ALIGN) else (0, 0) in
      let read_off := g_off0 g - pad in
      let read_len := if dio then next_multiple_of (u64 (pad + span_len)) DIO_ALIGN else span_len in
      let? _ := alloc (u64 (read_len + extra)) in
      let skew := if dio then Z.land (u64 (- addr span_idx)) (DIO_ALIGN - 1) else 0 in
      let prefix := skew + pad in
      ROk (spans ++ [{| sp_file := g_file g; read_off := read_off; read_len := read_len; skew := skew;
                        sp_view := None; sp_cap := u64 (read_len + extra) |}],
           set_views id meta span_idx prefix g names_map)
  end.

Definition plan_names (st : list Span * list (list View)) (names : list (list Z))
    : res StError (list Span * list (list View)) :=
  let '(spans, mapping) := st in
  let? meta := meta_of s names in
  let? (spans, names_map) := for_each (plan_span meta) (coalesce meta) (spans, replicate (length names) (0%nat, 0, 0)) in
  ROk (spans, mapping ++ [names_map]).

Definition plan_batch (groups : list (list (list Z))) : res StError (list Span * list (list View)) :=
  for_each plan_names groups ([], []).

Definition span_jobs (sub : Z) (k : nat) (sp : Span) : list Job :=
  match sp_view sp with
  | Some _ => []
  | None => map (fun '(o, clen) =>
      {| j_file := sp_file sp; j_off := u64 (read_off sp + o); j_buf := k; j_pos := skew sp + o; j_len := clen |})
      (tiles sub (read_len sp))
  end.
Definition jobs_of (sub : Z) (spans : list Span) : list Job := concat (imap (span_jobs sub) spans).

Definition buffers (spans : list Span) : list (list Z) :=
  imap (fun k sp => default (fresh k (sp_cap sp)) (sp_view sp)) spans.

Definition read_raw_shared_batched (sub_kb : option (list Z)) (groups : list (list (list Z)))
    : res StError (list (list Z) * list (list View)) :=
  let? (spans, mapping) := plan_batch groups in
  let? bufs := drain s (sched (jobs_of (parse_sub_kb sub_kb) spans)) (buffers spans) in
  ROk (bufs, mapping).
End Reads.

(** ** Running jobs *)

Lemma write_at_length buf pos d :
  0 <= pos -> pos + Z.of_nat (length d) <= Z.of_nat (length buf) -> length (write_at buf pos d) = length buf.
Proof. intros Hp Hl. unfold write_at. rewrite !length_app, length_take, length_drop. lia. Qed.

Lemma write_at_lookup buf pos d p :
  0 <= pos -> pos + Z.of_nat (length d) <= Z.of_nat (length buf) -> 0 <= p ->
  write_at buf pos d !! Z.to_nat p =
  if (pos <=? p) && (p <? pos + Z.of_nat (length d)) then d !! Z.to_nat (p - pos) else buf !! Z.to_nat p.
Proof.
  intros Hp Hl H0. unfold write_at. destruct (Z.leb_spec pos p); cbn [andb].
  - rewrite lookup_app_r by (rewrite length_take; lia). rewrite length_take, Nat.min_l by lia.
    destruct (Z.ltb_spec p (pos + Z.of_nat (length d))).
    + rewrite lookup_app_l by lia. f_equal. lia.
    + rewrite lookup_app_r by lia. rewrite lookup_drop. f_equal. lia.
  - rewrite lookup_app_l by (rewrite length_take; lia). rewrite lookup_take. by rewrite decide_True by lia.
Qed.

Section Drain.
Context (s : Shards).

Definition contents (idx : nat) : list Z := match st_files s !! idx with Some f => snd f | None => [] end.

(** The job reads bytes the file has into a range the buffer has. *)
Definition job_in (bufs : list (list Z)) (j : Job) : Prop :=
  is_Some (st_files s !! j_file j) /\ 0 <= j_off j /\ 0 <= j_pos j /\ 0 <= j_len j /\
  j_off j + j_len j <= Z.of_nat (length (contents (j_file j))) /\
  exists buf, bufs !! j_buf j = Some buf /\ j_pos j + j_len j <= Z.of_nat (length buf).

Definition covers (j : Job) (k : nat) (p : Z) : Prop := j_buf j = k /\ j_pos j <= p < j_pos j + j_len j.

(** Buffer [k] is filled from file [F k], displaced by [D k]. *)
Context (F : nat -> nat) (D : nat -> Z).
Definition follows (j : Job) : Prop := j_file j = F (j_buf j) /\ j_off j = j_pos j + D (j_buf j).
Definition right_at (bufs : list (list Z)) (k : nat) (p : Z) : Prop :=
  exists buf, bufs !! k = Some buf /\ buf !! Z.to_nat p = contents (F k) !! Z.to_nat (p + D k).

Lemma read_exact_in c off len : 0 <= off -> 0 <= len -> off + len <= Z.of_nat (length c) ->
  read_exact_at c off len = ROk (take (Z.to_nat len) (drop (Z.to_nat off) c)).
Proof.
  intros Ho Hl Hc. unfold read_exact_at. destruct (Z.eqb_spec len 0) as [->|_]; [done|].
  by rewrite (proj2 (Z.leb_le _ _)) by lia.
Qed.

Lemma job_in_resized bufs bufs' j : map length bufs' = map length bufs -> job_in bufs j -> job_in bufs' j.
Proof.
  intros Hl (Hf & H1 & H2 & H3 & H4 & buf & Hb & H5). repeat (split; [done|]).
  assert (Hm : map length bufs' !! j_buf j = Some (length buf)) by (rewrite Hl; change (map length) with (fmap (M := list) (@length Z)); by rewrite list_lookup_fmap, Hb).
  change (map length) with (fmap (M := list) (@length Z)) in Hm. rewrite list_lookup_fmap in Hm.
  destruct (bufs' !! j_buf j) as [buf'|]; [|done]. injection Hm as Hm. exists buf'. split; [done|]. by rewrite Hm.
Qed.

Lemma run_job_step bufs err j : job_in bufs j -> follows j ->
  exists bufs', run_job s (bufs, err) j = ROk (bufs', err) /\ map length bufs' = map length bufs /\
    (forall k, k <> j_buf j -> bufs' !! k = bufs !! k) /\
    forall k p, 0 <= p -> right_at bufs k p \/ covers j k p -> right_at bufs' k p.
Proof.
  intros ([f Hf] & H1 & H2 & H3 & H4 & buf & Hb & H5) [HF HD]. unfold run_job, pread_into. rewrite Hf. cbn [unwrap].
  assert (Hc : contents (j_file j) = snd f) by (unfold contents; by rewrite Hf). rewrite Hc in H4.
  rewrite read_exact_in by done. set (d := take _ _).
  assert (Hd : Z.of_nat (length d) = j_len j) by (unfold d; rewrite length_take, length_drop; lia).
  set (bufs' := alter _ _ bufs). exists bufs'. split; [done|].
  assert (Hb' : bufs' !! j_buf j = Some (write_at buf (j_pos j) d)) by (unfold bufs'; by rewrite list_lookup_alter_eq, Hb).
  assert (Hne : forall k, k <> j_buf j -> bufs' !! k = bufs !! k) by (intros k Hk; unfold bufs'; by rewrite list_lookup_alter_ne).
  split_and!; [|done|].
  - apply list_eq. intros k. change (map length) with (fmap (M := list) (@length Z)). rewrite !list_lookup_fmap.
    destruct (decide (k = j_buf j)) as [->|Hk]; [|by rewrite Hne]. rewrite Hb', Hb. simpl. f_equal.
    apply write_at_length; lia.
  - intros k p Hp Hor. destruct (decide (k = j_buf j)) as [->|Hk].
    2:{ destruct Hor as [(b & Hbk & Hr)|[Hk' _]]; [|congruence]. exists b. by rewrite Hne. }
    exists (write_at buf (j_pos j) d). split; [done|]. rewrite write_at_lookup by (done || lia). rewrite Hd.
    destruct ((j_pos j <=? p) && (p <? j_pos j + j_len j)) eqn:Hin.
    + unfold d. rewrite lookup_take, decide_True by lia. rewrite lookup_drop, <- HF, Hc. f_equal. lia.
    + destruct Hor as [(b & Hbk & Hr)|[_ Hcov]]; [congruence|]. lia.
Qed.

Lemma run_jobs js : forall bufs err, Forall (job_in bufs) js -> Forall follows js ->
  exists bufs', for_each (run_job s) js (bufs, err) = ROk (bufs', err) /\ map length bufs' = map length bufs /\
    (forall k, Forall (fun j => j_buf j <> k) js -> bufs' !! k = bufs !! k) /\
    forall k p, 0 <= p -> right_at bufs k p \/ Exists (fun j => covers j k p) js -> right_at bufs' k p.
Proof.
  induction js as [|j js IH]; intros bufs err Hin Hfo.
  { exists bufs. split_and!; try done. intros k p _ [?|H]; [done|by apply Exists_nil in H]. }
  apply Forall_cons in Hin as [Hj Hin]. apply Forall_cons in Hfo as [Hfj Hfo].
  destruct (run_job_step bufs err j Hj Hfj) as (b1 & Hr & Hl & Hk1 & Hc1). cbn [for_each]. rewrite Hr.
  destruct (IH b1 err) as (b2 & Hr2 & Hl2 & Hk2 & Hc2); [|done|].
  { eapply Forall_impl; [exact Hin|]. intros j' Hj'. by eapply job_in_resized. }
  exists b2. split_and!; [done|by rewrite Hl2| |].
  - intros k [Hjk Hk]%Forall_cons. rewrite Hk2 by done. by apply Hk1.
  - intros k p Hp Hor. apply Hc2; [done|]. destruct Hor as [Hr'|[Hc|Hc]%Exists_cons].
    + left. apply Hc1; [done|by left].
    + left. apply Hc1; [done|by right].
    + by right.
Qed.

(** Whatever order the jobs complete in, every byte some job covers is right
    and every buffer no job writes is untouched. *)
Lemma drain_right js js' bufs : js' ≡ₚ js -> Forall (job_in bufs) js -> Forall follows js ->
  exists bufs', drain s js' bufs = ROk bufs' /\ map length bufs' = map length bufs /\
    (forall k, Forall (fun j => j_buf j <> k) js -> bufs' !! k = bufs !! k) /\
    forall k p, 0 <= p -> Exists (fun j => covers j k p) js -> right_at bufs' k p.
Proof.
  intros Hperm Hin Hfo. rewrite <- Hperm in Hin, Hfo. destruct (run_jobs js' bufs None Hin Hfo) as (b & Hr & Hl & Hk & Hc).
  exists b. unfold drain. rewrite Hr. split_and!; [done|done| |].
  - intros k H. apply Hk. by rewrite Hperm.
  - intros k p Hp H. apply Hc; [done|]. right. apply Exists_exists in H as (j & Hj & Hcov).
    apply Exists_exists. exists j. split; [|done]. by rewrite Hperm.
Qed.

(** A job that reads past the end of its file makes the whole batch fail. *)
Lemma run_jobs_err js : forall bufs err, Forall (fun j => is_Some (st_files s !! j_file j)) js ->
  exists bufs' err', for_each (run_job s) js (bufs, err) = ROk (bufs', err') /\
    (is_Some err \/ Exists (fun j => pread_into s (j_file j) (j_off j) (j_len j) = RErr UnexpectedEof) js -> is_Some err').
Proof.
  induction js as [|j js IH]; intros bufs err Hf; cbn [for_each].
  { exists bufs, err. split; [done|]. intros [?|H]; [done|by apply Exists_nil in H]. }
  apply Forall_cons in Hf as [[f Hj] Hf]. unfold run_job at 1.
  destruct (pread_into s (j_file j) (j_off j) (j_len j)) as [d|e|] eqn:Hp.
  - destruct (IH (alter (fun b => write_at b (j_pos j) d) (j_buf j) bufs) err Hf) as (b & e & Hr & He).
    exists b, e. split; [done|]. intros [?|[?|?]%Exists_cons]; [apply He; by left|congruence|apply He; by right].
  - destruct (IH bufs (Some e) Hf) as (b & e' & Hr & He). exists b, e'. split; [done|]. intros _. apply He. by left.
  - exfalso. unfold pread_into in Hp. rewrite Hj in Hp. by apply read_exact_at_no_panic in Hp.
Qed.
End Drain.

(** ** Tiles *)

Lemma tile_spec sub total fuel : forall o, 0 < sub -> 0 <= o ->
  total - o <= Z.of_nat fuel * sub ->
  Forall (fun t => o <= fst t /\ 0 < snd t /\ fst t + snd t <= total) (tile fuel sub total o) /\
  StronglySorted (fun t u => fst t + snd t <= fst u) (tile fuel sub total o) /\
  (forall x, o <= x < total -> Exists (fun t => fst t <= x < fst t + snd t) (tile fuel sub total o)) /\
  forall m, (m | sub) -> (m | total) -> (m | o) -> Forall (fun t => (m | fst t) /\ (m | snd t)) (tile fuel sub total o).
Proof.
  induction fuel as [|fuel IH]; intros o Hs Ho Hf; cbn [tile].
  { split_and!; [constructor|constructor|intros; lia|constructor]. }
  destruct (Z.ltb_spec o total) as [Hlt|Hge].
  2:{ split_and!; [constructor|constructor|intros; lia|constructor]. }
  set (c := Z.min sub (total - o)). destruct (IH (o + c)) as (H1 & H2 & H3 & H4); [done|lia|lia|].
  split_and!.
  - constructor; [simpl; lia|]. eapply Forall_impl; [exact H1|]. simpl. intros t. lia.
  - constructor; [done|]. eapply Forall_impl; [exact H1|]. simpl. intros t. lia.
  - intros x Hx. apply Exists_cons. destruct (decide (x < o + c)); [left; simpl; lia|]. right. apply H3. lia.
  - intros m Hm1 Hm2 Hm3. assert (Hc : (m | c)).
    { unfold c. destruct (Z.min_spec sub (total - o)) as [[_ ->]|[_ ->]]; [done|by apply Z.divide_sub_r]. }
    constructor; [done|]. apply H4; try done. by apply Z.divide_add_r.
Qed.

Lemma tiles_spec sub total : 0 < sub -> 0 <= total ->
  Forall (fun t => 0 <= fst t /\ 0 < snd t /\ fst t + snd t <= total) (tiles sub total) /\
  StronglySorted (fun t u => fst t + snd t <= fst u) (tiles sub total) /\
  (forall x, 0 <= x < total -> Exists (fun t => fst t <= x < fst t + snd t) (tiles sub total)) /\
  forall m, (m | sub) -> (m | total) -> Forall (fun t => (m | fst t) /\ (m | snd t)) (tiles sub total).
Proof.
  intros Hs Ht. pose proof (div_ceil_spec total sub Hs).
  assert (0 <= div_ceil total sub) by nia.
  destruct (tile_spec sub total (Z.to_nat (div_ceil total sub)) 0) as (H1 & H2 & H3 & H4); [done|lia|nia|].
  split_and!; [done|done|done|]. intros m ? ?. apply H4; [done|done|apply Z.divide_0_r].
Qed.

(** ** Coalesced groups *)

Definition m_file (m : Meta) : nat := fst (fst m).
Definition m_off (m : Meta) : Z := snd (fst m).
Definition m_len (m : Meta) : Z := snd m.
Definition m_end (m : Meta) : Z := m_off m + m_len m.
Definition sane (m : Meta) : Prop := 0 <= m_off m /\ 0 <= m_len m /\ m_end m < 2 ^ 63.

Section Groups.
Context (meta : list Meta) (Hsane : Forall sane meta).
Local Set Default Proof Using "All".
Abbreviation at_ := (meta_at meta).

Record group_ok (g : Group) : Prop := {
  go_in : Forall (fun i => m_file (at_ i) = g_file g /\ g_off0 g <= m_off (at_ i) /\ m_end (at_ i) <= g_end g) (g_members g);
  go_lt : Forall (fun i => (i < length meta)%nat) (g_members g);
  go_range : 0 <= g_off0 g <= g_end g;
  go_end : Exists (fun i => m_end (at_ i) = g_end g) (g_members g)
}.

Lemma sane_at i : sane (at_ i).
Proof.
  unfold meta_at. destruct (meta !! i) as [m|] eqn:Hi; [by eapply Forall_lookup_1|].
  unfold sane, m_end, m_off, m_len. simpl. lia.
Qed.

Lemma sane_u64 i : u64 (m_end (at_ i)) = m_end (at_ i).
Proof. destruct (sane_at i) as (? & ? & ?). apply wrap_id. unfold in_u, m_end in *. lia. Qed.

Lemma extend_spec file rest : forall e ms e' r,
  extend meta file e rest = (ms, e', r) ->
  rest = ms ++ r /\ e <= e' /\
  Forall (fun i => m_file (at_ i) = file /\ e <= m_off (at_ i) /\ m_end (at_ i) <= e') ms /\
  (e' = e \/ Exists (fun i => m_end (at_ i) = e') ms).
Proof.
  induction rest as [|i rest IH]; intros e ms e' r; cbn [extend].
  { intros [= <- <- <-]. split_and!; [done|lia|constructor|by left]. }
  pose proof (sane_at i) as Hi. pose proof (sane_u64 i) as Hu.
  destruct (at_ i) as [[f o] nb] eqn:Hm. unfold sane, m_end, m_off, m_len in Hi, Hu. cbn [fst snd] in Hi, Hu.
  destruct ((f =? file)%nat && (o =? e)) eqn:Hc.
  2:{ intros [= <- <- <-]. split_and!; [done|lia|constructor|by left]. }
  apply andb_true_iff in Hc as [->%Nat.eqb_eq ->%Z.eqb_eq].
  destruct (extend meta file (u64 (e + nb)) rest) as [[ms1 e1] r1] eqn:Hx. intros [= <- <- <-].
  destruct (IH _ _ _ _ Hx) as (-> & Hle & Hall & Hex). rewrite Hu in Hle, Hall, Hex. split_and!; [done|lia| |].
  - constructor.
    + rewrite Hm. unfold m_file, m_end, m_off, m_len. cbn [fst snd]. lia.
    + eapply Forall_impl; [exact Hall|]. cbv beta. intros j. lia.
  - right. destruct Hex as [->|Hex]; [left|by right]. rewrite Hm. done.
Qed.

Lemma groups_spec fuel : forall ord, (length ord <= fuel)%nat -> Forall (fun i => (i < length meta)%nat) ord ->
  concat (map g_members (groups_fuel meta fuel ord)) = ord /\ Forall group_ok (groups_fuel meta fuel ord).
Proof.
  induction fuel as [|fuel IH]; intros [|i ord] Hl Hlt; cbn [groups_fuel]; try (split; [done|constructor]).
  { simpl in Hl. lia. }
  pose proof (sane_at i) as Hi. pose proof (sane_u64 i) as Hu.
  destruct (at_ i) as [[f o] nb] eqn:Hm. unfold sane, m_end, m_off, m_len in Hi, Hu. cbn [fst snd] in Hi, Hu.
  destruct (extend meta f (u64 (o + nb)) ord) as [[ms e] r] eqn:Hx. apply Forall_cons in Hlt as [Hli Hlt].
  destruct (extend_spec f ord _ _ _ _ Hx) as (-> & Hle & Hall & Hex). rewrite Hu in Hle, Hall, Hex.
  apply Forall_app in Hlt as [Hlm Hlr]. simpl in Hl. rewrite length_app in Hl.
  destruct (IH r ltac:(lia) Hlr) as [Hcat Hok]. cbn [map concat g_members]. rewrite Hcat. split; [done|].
  constructor; [|done]. split; cbn [g_members g_file g_off0 g_end].
  - constructor.
    + rewrite Hm. unfold m_file, m_end, m_off, m_len. cbn [fst snd]. lia.
    + eapply Forall_impl; [exact Hall|]. cbv beta. intros j. lia.
  - by constructor.
  - lia.
  - destruct Hex as [->|Hex]; [left|by right]. rewrite Hm. done.
Qed.

Lemma coalesce_spec :
  concat (map g_members (coalesce meta)) ≡ₚ seq 0 (length meta) /\ Forall group_ok (coalesce meta).
Proof.
  destruct (groups_spec (length (order meta)) (order meta)) as [Hc Ho]; [done| |].
  - apply Forall_forall. intros i Hi%elem_of_sort_by%elem_of_seq. lia.
  - split; [|done]. unfold coalesce. rewrite Hc. apply sort_by_perm.
Qed.

Lemma set_views_lookup {A} (w : View -> A) buf prefix g l i : group_ok g -> (i < length l)%nat ->
  length (set_views w meta buf prefix g l) = length l /\
  set_views w meta buf prefix g l !! i =
  if decide (i ∈ g_members g) then Some (w (buf, prefix + (m_off (at_ i) - g_off0 g), m_len (at_ i))) else l !! i.
Proof.
  intros [Hin _ Hr _]. unfold set_views. revert l. destruct g as [file off0 e ms]. cbn [g_members g_off0 g_end g_file] in *.
  induction Hin as [|j ms (_ & Hj & He) _ IH]; intros l Hi; cbn [fold_left]; [by rewrite decide_False by apply not_elem_of_nil|].
  destruct (sane_at j) as (? & ? & ?). destruct (at_ j) as [[f o] nb] eqn:Hm.
  unfold m_end, m_off, m_len in Hj, He |- *. cbn [fst snd] in *.
  rewrite wrap_id by (unfold in_u, m_end, m_off, m_len in *; cbn [fst snd] in *; lia).
  edestruct IH as [Hl Hx]; [|split; [rewrite Hl; apply length_insert|rewrite Hx]].
  { by rewrite length_insert. }
  destruct (decide (i ∈ ms)) as [Him|Him].
  - by rewrite decide_True by (by right).
  - destruct (decide (i = j)) as [->|Hne].
    + rewrite decide_True by (by left). rewrite list_lookup_insert_eq by done. by rewrite Hm.
    + rewrite decide_False by (by apply not_elem_of_cons). by rewrite list_lookup_insert_ne.
Qed.
End Groups.

(** ** The plan of a batch *)

Lemma land_511 z : Z.land z (DIO_ALIGN - 1) = z mod 512.
Proof. apply (land_ones z 9). lia. Qed.

Section Plan.
Context (s : Shards) (view : nat -> Z -> Z -> bool) (dio : bool) (addr : nat -> Z).
Local Set Default Proof Using "All".
(** Files are real: their sizes leave room for the alignment. *)
Context (Hfiles : Forall (fun f => Z.of_nat (length (snd f)) <= isize_max - 1024) (st_files s)).
Abbreviation content := (contents s).

(** A tensor's bytes lie in its file; read directly, so do the whole blocks. *)
Definition in_file (m : Meta) : Prop :=
  is_Some (st_files s !! m_file m) /\ 0 <= m_off m /\ 0 <= m_len m /\
  m_end m <= Z.of_nat (length (content (m_file m))) /\
  (dio = true -> DIO_ALIGN * div_ceil (m_end m) DIO_ALIGN <= Z.of_nat (length (content (m_file m)))).

Definition extent (sp : Span) : Z := match sp_view sp with Some _ => sp_cap sp | None => read_len sp end.

Record span_ok (k : nat) (sp : Span) : Prop := {
  sk_file : is_Some (st_files s !! sp_file sp);
  sk_off : 0 <= read_off sp;
  sk_extent : 0 <= extent sp /\ read_off sp + extent sp <= Z.of_nat (length (content (sp_file sp)));
  sk_skew : 0 <= skew sp /\ skew sp + extent sp <= sp_cap sp;
  sk_view : forall b, sp_view sp = Some b ->
    skew sp = 0 /\ b = take (Z.to_nat (extent sp)) (drop (Z.to_nat (read_off sp)) (content (sp_file sp)));
  sk_align : dio = true -> sp_view sp = None ->
    (512 | read_off sp) /\ (512 | read_len sp) /\ (512 | addr k + skew sp)
}.
Definition spans_ok (spans : list Span) : Prop := forall k sp, spans !! k = Some sp -> span_ok k sp.

(** The view points at the tensor's bytes within its span. *)
Definition promise (spans : list Span) (m : Meta) (v : View) : Prop :=
  exists k sp, v = (k, skew sp + (m_off m - read_off sp), m_len m) /\ spans !! k = Some sp /\
    sp_file sp = m_file m /\ read_off sp <= m_off m /\ m_end m <= read_off sp + extent sp.

Lemma promise_mono spans spans' m v : spans `prefix_of` spans' -> promise spans m v -> promise spans' m v.
Proof.
  intros Hpre (k & sp & Hv & Hk & H). exists k, sp. split; [done|]. split; [|done]. by eapply prefix_lookup_Some.
Qed.

Lemma content_len idx : Z.of_nat (length (content idx)) <= isize_max - 1024.
Proof.
  unfold contents. destruct (st_files s !! idx) as [f|] eqn:Hf; [|simpl; unfold isize_max; lia].
  by eapply (Forall_lookup_1 _ _ _ _ Hfiles).
Qed.

Lemma neg_skew a : 0 <= (- a) mod 512 < 512 /\ (512 | a + (- a) mod 512).
Proof.
  split; [apply Z.mod_pos_bound; lia|]. pose proof (Z.div_mod (- a) 512). exists (- ((- a) / 512)). lia.
Qed.

(** A span that covers a group serves its members. *)
Lemma span_promise meta g spans sp pre : group_ok meta g ->
  sp_file sp = g_file g -> read_off sp <= g_off0 g -> g_end g <= read_off sp + extent sp ->
  pre = skew sp + (g_off0 g - read_off sp) ->
  Forall (fun i => promise (spans ++ [sp]) (meta_at meta i)
    (length spans, pre + (m_off (meta_at meta i) - g_off0 g), m_len (meta_at meta i))) (g_members g).
Proof.
  intros [Hm _ _ _] H1 H2 H3 ->. apply Forall_forall. intros i Hi. rewrite Forall_forall in Hm.
  destruct (Hm i Hi) as (Hfi & Hoi & Hei). exists (length spans), sp.
  split; [do 2 f_equal; lia|]. split; [by rewrite lookup_app_r, Nat.sub_diag|]. split; [congruence|]. lia.
Qed.

(** What is known of a group of tensors that lie in their file. *)
Record group_in (g : Group) : Prop := {
  gi_file : is_Some (st_files s !! g_file g);
  gi_range : 0 <= g_off0 g <= g_end g;
  gi_end : g_end g <= Z.of_nat (length (content (g_file g)));
  gi_dio : dio = true -> DIO_ALIGN * div_ceil (g_end g) DIO_ALIGN <= Z.of_nat (length (content (g_file g)))
}.

Lemma group_in_file meta g : Forall in_file meta -> group_ok meta g -> group_in g.
Proof.
  intros Hin [Hm Hlt Hr Hend]. apply Exists_exists in Hend as (ie & Hie & Hend).
  rewrite Forall_forall in Hm, Hlt. destruct (Hm ie Hie) as (Hfile & _).
  assert (Hat : in_file (meta_at meta ie)).
  { unfold meta_at. destruct (lookup_lt_is_Some_2 meta ie (Hlt ie Hie)) as [m Hmi]. rewrite Hmi.
    by eapply (Forall_lookup_1 _ _ _ _ Hin). }
  destruct Hat as (Hf & Ho & Hl & Hle & Hdio). rewrite Hfile, Hend in *. by split.
Qed.

(** The block-aligned read of [off, end) ends with the block that holds [end]. *)
Lemma aligned_read off e : 0 <= off <= e -> exists a, off - off mod 512 = 512 * a /\
  512 * div_ceil (off mod 512 + (e - off)) 512 = 512 * div_ceil e 512 - 512 * a.
Proof.
  intros Hr. exists (off / 512). pose proof (Z.div_mod off 512 ltac:(lia)).
  pose proof (Z.mod_pos_bound off 512 ltac:(lia)). split; [lia|].
  pose proof (div_ceil_spec e 512 ltac:(lia)). pose proof (div_ceil_spec (off mod 512 + (e - off)) 512 ltac:(lia)). lia.
Qed.

Lemma span_ok_buffered k g : group_in g -> dio = false ->
  span_ok k {| sp_file := g_file g; read_off := g_off0 g - 0; read_len := g_end g - g_off0 g; skew := 0;
               sp_view := None; sp_cap := g_end g - g_off0 g |}.
Proof.
  intros [Hf Hr He _] Hd. split; unfold extent; cbn [sp_file read_off read_len skew sp_view sp_cap]; [done|lia..|done|].
  by rewrite Hd.
Qed.

Lemma span_ok_view k g : group_in g ->
  span_ok k {| sp_file := g_file g; read_off := g_off0 g; read_len := 0; skew := 0;
    sp_view := Some (take (Z.to_nat (g_end g - g_off0 g)) (drop (Z.to_nat (g_off0 g)) (content (g_file g))));
    sp_cap := g_end g - g_off0 g |}.
Proof.
  intros [Hf Hr He _]. split; unfold extent; cbn [sp_file read_off read_len skew sp_view sp_cap]; [done|lia..| |done].
  by intros b [= <-].
Qed.

Lemma span_ok_direct k g a : group_in g -> dio = true -> g_off0 g - g_off0 g mod 512 = 512 * a ->
  span_ok k {| sp_file := g_file g; read_off := 512 * a; read_len := 512 * div_ceil (g_end g) 512 - 512 * a;
               skew := (- addr k) mod 512; sp_view := None;
               sp_cap := 512 * div_ceil (g_end g) 512 - 512 * a + 512 |}.
Proof.
  intros [Hf Hr He Hdio] Hd Ha. specialize (Hdio Hd). unfold DIO_ALIGN in Hdio.
  destruct (neg_skew (addr k)) as [Hsk Hskd]. pose proof (Z.mod_pos_bound (g_off0 g) 512 ltac:(lia)).
  pose proof (div_ceil_spec (g_end g) 512 ltac:(lia)).
  split; unfold extent; cbn [sp_file read_off read_len skew sp_view sp_cap]; [done|lia|lia|lia|done|].
  intros _ _. split_and!; [exists a; lia|exists (div_ceil (g_end g) 512 - a); lia|done].
Qed.

(** One group becomes one more span, which serves its members. *)
Lemma plan_span_ok meta g spans nm : Forall in_file meta -> group_ok meta g ->
  exists sp pre, plan_span s view dio addr meta (spans, nm) g =
      ROk (spans ++ [sp], set_views id meta (length spans) pre g nm) /\
    span_ok (length spans) sp /\
    Forall (fun i => promise (spans ++ [sp]) (meta_at meta i)
      (length spans, pre + (m_off (meta_at meta i) - g_off0 g), m_len (meta_at meta i))) (g_members g).
Proof.
  intros Hin Hg. pose proof (group_in_file meta g Hin Hg) as Hgi. destruct Hgi as [[f Hf] Hr He Hdio] eqn:Hgi'. clear Hgi'.
  pose proof (content_len (g_file g)) as Hcl. unfold isize_max in Hcl.
  assert (Hcf : content (g_file g) = snd f) by (unfold contents; by rewrite Hf).
  unfold plan_span. rewrite wrap_id by (unfold in_u; lia). set (len := g_end g - g_off0 g).
  destruct (mapped_view s view (g_file g) (g_off0 g) len) as [b|] eqn:Hv.
  - assert (Hb : b = take (Z.to_nat len) (drop (Z.to_nat (g_off0 g)) (content (g_file g)))).
    { unfold mapped_view in Hv. rewrite Hf in Hv. destruct (_ || _); [done|]. destruct (view _ _ _); [|done].
      injection Hv as <-. by rewrite Hcf. }
    subst b. eexists _, _. split; [reflexivity|]. split; [by apply span_ok_view|].
    apply span_promise; unfold extent; cbn [sp_file read_off sp_view sp_cap skew]; [done|done|lia..].
  - clear Hv. destruct dio eqn:Hd.
    + destruct (aligned_read (g_off0 g) (g_end g) Hr) as (a & Ha & Heq). specialize (Hdio eq_refl).
      pose proof (Z.mod_pos_bound (g_off0 g) 512 ltac:(lia)). pose proof (div_ceil_spec (g_end g) 512 ltac:(lia)).
      rewrite !land_511. unfold next_multiple_of, DIO_ALIGN in *. fold len in Heq.
      rewrite (wrap_id 64 (g_off0 g mod 512 + len)) by (unfold in_u, len; lia). rewrite Heq, Ha.
      rewrite (wrap_id 64 (_ - 512 * a)) by (unfold in_u; lia). rewrite (wrap_id 64 (_ + 512)) by (unfold in_u; lia).
      unfold alloc. rewrite (proj2 (Z.leb_le _ _)) by (unfold isize_max; lia).
      assert (Hsk : u64 (- addr (length spans)) mod 512 = (- addr (length spans)) mod 512).
      { unfold wrap. rewrite <- (Znumtheory.Zmod_div_mod 512 (2 ^ 64)); [done|lia|lia|]. exists (2 ^ 55). lia. }
      rewrite Hsk. eexists _, _. split; [reflexivity|]. split; [by apply span_ok_direct|].
      apply span_promise; unfold extent; cbn [sp_file read_off sp_view read_len skew]; [done|done|lia..].
    + unfold alloc. rewrite Z.add_0_r, (wrap_id 64) by (unfold in_u, len; lia).
      rewrite (proj2 (Z.leb_le _ _)) by (unfold isize_max, len; lia). eexists _, _. split; [reflexivity|].
      split; [by apply span_ok_buffered|].
      apply span_promise; unfold extent; cbn [sp_file read_off sp_view read_len skew]; [done|done|lia..].
Qed.

Lemma spans_ok_snoc spans sp : spans_ok spans -> span_ok (length spans) sp -> spans_ok (spans ++ [sp]).
Proof. intros Hs Hsp k sp' [[_ Hk]|[-> <-]]%lookup_snoc_Some; [by apply Hs|done]. Qed.

(** All groups of one list of names. *)
Lemma plan_spans_ok meta gs : Forall in_file meta -> Forall sane meta -> Forall (group_ok meta) gs -> forall spans nm,
  spans_ok spans ->
  exists spans' nm', for_each (plan_span s view dio addr meta) gs (spans, nm) = ROk (spans', nm') /\
    spans `prefix_of` spans' /\ spans_ok spans' /\ length nm' = length nm /\
    forall i, (i < length nm)%nat ->
      if decide (i ∈ concat (map g_members gs))
      then exists v, nm' !! i = Some v /\ promise spans' (meta_at meta i) v
      else nm' !! i = nm !! i.
Proof.
  intros Hin Hsane. induction 1 as [|g gs Hg _ IH]; intros spans nm Hsp; cbn [for_each].
  { exists spans, nm. by split_and!. }
  destruct (plan_span_ok meta g spans nm Hin Hg) as (sp & pre & -> & Hspok & Hprom).
  set (nm1 := set_views _ _ _ _ _ _).
  destruct (IH (spans ++ [sp]) nm1) as (spans' & nm' & Hr & Hpre & Hok & Hlen & Hnm); [by apply spans_ok_snoc|].
  assert (Hl1 : length nm1 = length nm).
  { unfold nm1. destruct nm as [|v nm]; [|apply (set_views_lookup meta Hsane id _ _ g (v :: nm) 0 Hg ltac:(simpl; lia))].
    unfold set_views. generalize (g_members g). intros ms. induction ms as [|j ms IHm]; [done|]. cbn [fold_left].
    by destruct (meta_at meta j) as [[? ?] ?]. }
  exists spans', nm'. split_and!; [done|by etrans; [apply prefix_app_r|]|done|by rewrite Hlen|].
  intros i Hi. specialize (Hnm i). rewrite Hl1 in Hnm. specialize (Hnm Hi). cbn [map concat].
  destruct (set_views_lookup meta Hsane id (length spans) pre g nm i Hg Hi) as [_ Hset].
  destruct (decide (i ∈ concat (map g_members gs))) as [Hc|Hc].
  { rewrite decide_True by (apply elem_of_app; by right). done. }
  fold nm1 in Hset. rewrite Hset in Hnm. destruct (decide (i ∈ g_members g)) as [Hm|Hm].
  - rewrite decide_True by (apply elem_of_app; by left). eexists. split; [done|].
    eapply promise_mono; [exact Hpre|]. rewrite Forall_forall in Hprom. by apply Hprom.
  - rewrite decide_False; [done|]. intros [?|?]%elem_of_app; done.
Qed.

(** The name's tensor lies in its file. *)
Definition present (name : list Z) : Prop :=
  exists t, tensor s name = ROk t /\ in_file (file_idx t, st_off t, st_nbytes t).

Lemma in_file_sane m : in_file m -> sane m.
Proof.
  intros (_ & H1 & H2 & H3 & _). pose proof (content_len (m_file m)) as H. unfold isize_max in H. unfold sane. lia.
Qed.

Lemma meta_of_present names : Forall present names ->
  exists meta, meta_of s names = ROk meta /\ Forall in_file meta /\
    Forall2 (fun name m => exists t, tensor s name = ROk t /\ m = (file_idx t, st_off t, st_nbytes t)) names meta.
Proof.
  unfold meta_of. induction 1 as [|name names (t & Ht & Hin) _ (meta & Hm & Hf & H2)]; [by exists []|].
  exists ((file_idx t, st_off t, st_nbytes t) :: meta). cbn [rmap]. rewrite Ht, Hm. split_and!; [done|by constructor|].
  constructor; [by exists t|done].
Qed.

Definition served (spans : list Span) (name : list Z) (v : View) : Prop :=
  exists t, tensor s name = ROk t /\ promise spans (file_idx t, st_off t, st_nbytes t) v.

Lemma plan_names_ok names spans mapping : Forall present names -> spans_ok spans ->
  exists spans' nm, plan_names s view dio addr (spans, mapping) names = ROk (spans', mapping ++ [nm]) /\
    spans `prefix_of` spans' /\ spans_ok spans' /\ Forall2 (served spans') names nm.
Proof.
  intros Hn Hsp. unfold plan_names. destruct (meta_of_present names Hn) as (meta & -> & Hin & H2).
  assert (Hsane : Forall sane meta) by (eapply Forall_impl; [exact Hin|apply in_file_sane]).
  destruct (coalesce_spec meta Hsane) as [Hperm Hgs].
  destruct (plan_spans_ok meta (coalesce meta) Hin Hsane Hgs spans (replicate (length names) (0%nat, 0, 0)) Hsp)
    as (spans' & nm & -> & Hpre & Hok & Hlen & Hnm).
  rewrite length_replicate in Hlen, Hnm. exists spans', nm. split_and!; [done|done|done|].
  apply Forall2_same_length_lookup. split; [done|]. intros i name v Hi Hv.
  pose proof (lookup_lt_Some _ _ _ Hi) as Hlt. specialize (Hnm i Hlt). pose proof (Forall2_length _ _ _ H2) as Hl2.
  rewrite decide_True in Hnm.
  2:{ rewrite Hperm. apply elem_of_seq. lia. }
  destruct Hnm as (v' & Hv' & Hp). rewrite Hv in Hv'. injection Hv' as <-.
  destruct (Forall2_lookup_l _ _ _ _ _ H2 Hi) as (m & Hm & t & Ht & ->). exists t. split; [done|].
  unfold meta_at in Hp. by rewrite Hm in Hp.
Qed.

Lemma served_mono spans spans' names nm : spans `prefix_of` spans' ->
  Forall2 (served spans) names nm -> Forall2 (served spans') names nm.
Proof.
  intros Hpre H. eapply Forall2_impl; [exact H|]. intros name v (t & Ht & Hp). exists t. split; [done|].
  by eapply promise_mono.
Qed.

Lemma plan_batch_ok groups : forall spans mapping, Forall (Forall present) groups -> spans_ok spans ->
  exists spans' maps, for_each (plan_names s view dio addr) groups (spans, mapping) = ROk (spans', mapping ++ maps) /\
    spans `prefix_of` spans' /\ spans_ok spans' /\ Forall2 (Forall2 (served spans')) groups maps.
Proof.
  induction groups as [|names groups IH]; intros spans mapping Hg Hsp; cbn [for_each].
  { exists spans, []. rewrite app_nil_r. by split_and!. }
  apply Forall_cons in Hg as [Hn Hg]. destruct (plan_names_ok names spans mapping Hn Hsp) as (s1 & nm & -> & Hp1 & Hok1 & Hs1).
  destruct (IH s1 (mapping ++ [nm]) Hg Hok1) as (s2 & maps & -> & Hp2 & Hok2 & Hs2).
  exists s2, (nm :: maps). rewrite <- app_assoc. split_and!; [done|by etrans|done|].
  constructor; [|done]. by eapply served_mono.
Qed.

(** ** Jobs of a plan *)

Lemma span_jobs_job sub k sp j : j ∈ span_jobs sub k sp ->
  sp_view sp = None /\ exists o c, (o, c) ∈ tiles sub (read_len sp) /\
    j = {| j_file := sp_file sp; j_off := u64 (read_off sp + o); j_buf := k; j_pos := skew sp + o; j_len := c |}.
Proof using.
  unfold span_jobs. destruct (sp_view sp); [by intros ?%not_elem_of_nil|].
  intros ([o c] & <- & Hin)%list_elem_of_In%in_map_iff. split; [done|]. exists o, c. split; [by apply list_elem_of_In|done].
Qed.

Lemma jobs_of_job sub spans j : j ∈ jobs_of sub spans <-> exists k sp, spans !! k = Some sp /\ j ∈ span_jobs sub k sp.
Proof using.
  unfold jobs_of. rewrite list_elem_of_In, in_concat. split.
  - intros (js & Hjs & Hj). apply list_elem_of_In, elem_of_lookup_imap_1 in Hjs as (k & sp & -> & Hk).
    exists k, sp. by rewrite list_elem_of_In.
  - intros (k & sp & Hk & Hj). exists (span_jobs sub k sp). split; [|by apply list_elem_of_In].
    apply list_elem_of_In. by apply elem_of_lookup_imap_2.
Qed.

Context (fresh : nat -> Z -> list Z) (Hfresh : forall k n, length (fresh k n) = Z.to_nat n).

Lemma buffers_lookup spans k sp : spans !! k = Some sp ->
  buffers fresh spans !! k = Some (default (fresh k (sp_cap sp)) (sp_view sp)).
Proof. intros Hk. unfold buffers. by rewrite list_lookup_imap, Hk. Qed.

Definition span_of (spans : list Span) (k : nat) : nat := match spans !! k with Some sp => sp_file sp | None => 0%nat end.
Definition shift_of (spans : list Span) (k : nat) : Z := match spans !! k with Some sp => read_off sp - skew sp | None => 0 end.

(** A tile of a span is a job inside its file and its buffer. *)
Lemma jobs_in spans sub : 0 < sub -> spans_ok spans ->
  Forall (fun j => job_in s (buffers fresh spans) j /\ follows (span_of spans) (shift_of spans) j) (jobs_of sub spans).
Proof.
  intros Hsub Hok. apply Forall_forall. intros j (k & sp & Hk & Hj)%jobs_of_job.
  destruct (span_jobs_job sub k sp j Hj) as (Hv & o & c & Hoc & ->). destruct (Hok k sp Hk) as [Hf Ho He Hs _ _].
  unfold extent in He, Hs. rewrite Hv in He, Hs. destruct (tiles_spec sub (read_len sp) Hsub) as (Ht & _); [lia|].
  rewrite Forall_forall in Ht. specialize (Ht (o, c) Hoc). simpl in Ht.
  pose proof (content_len (sp_file sp)) as Hcl. unfold isize_max in Hcl.
  rewrite wrap_id by (unfold in_u; lia). split.
  - split; cbn [j_file j_off j_pos j_len j_buf]; [done|]. split_and!; [lia..|].
    exists (fresh k (sp_cap sp)). rewrite (buffers_lookup spans k sp Hk), Hv. split; [done|].
    rewrite Hfresh. lia.
  - split; cbn [j_file j_off j_pos j_len j_buf]; unfold span_of, shift_of; rewrite Hk; lia.
Qed.

Definition view_reads (bufs : list (list Z)) (name : list Z) (v : View) : Prop :=
  exists t b buf, tensor s name = ROk t /\
    pread_into s (file_idx t) (st_off t) (st_nbytes t) = ROk b /\
    let '(k, p, n) := v in n = st_nbytes t /\ bufs !! k = Some buf /\ 0 <= p /\ p + n <= Z.of_nat (length buf) /\
    take (Z.to_nat n) (drop (Z.to_nat p) buf) = b.

(** Buffers that are right over every span's extent give right views. *)
Lemma promise_view bufs spans name v : spans_ok spans ->
  (forall k sp x, spans !! k = Some sp -> 0 <= x < extent sp ->
     exists buf, bufs !! k = Some buf /\ skew sp + extent sp <= Z.of_nat (length buf) /\
       buf !! Z.to_nat (skew sp + x) = content (sp_file sp) !! Z.to_nat (read_off sp + x)) ->
  (forall k sp, spans !! k = Some sp -> exists buf, bufs !! k = Some buf /\ skew sp + extent sp <= Z.of_nat (length buf)) ->
  (exists t, tensor s name = ROk t /\ in_file (file_idx t, st_off t, st_nbytes t) /\
     promise spans (file_idx t, st_off t, st_nbytes t) v) ->
  view_reads bufs name v.
Proof.
  intros Hok Hright Hlen (t & Ht & (Hf & H1 & H2 & H3 & _) & k & sp & -> & Hk & Hfile & Hlo & Hhi).
  unfold m_file, m_off, m_len, m_end in *. cbn [fst snd] in *. unfold m_off, m_len in *. cbn [fst snd] in *.
  destruct (Hok k sp Hk) as [_ Ho He Hs _ _]. destruct (Hlen k sp Hk) as (buf & Hb & Hbl). destruct Hf as [f Hf].
  exists t, (take (Z.to_nat (st_nbytes t)) (drop (Z.to_nat (st_off t)) (content (file_idx t)))), buf.
  assert (Hc : content (file_idx t) = snd f) by (unfold contents; by rewrite Hf).
  split; [done|]. split.
  { unfold pread_into. rewrite Hf. simpl. rewrite Hc in *. by apply read_exact_in. }
  split_and!; [done|done|lia|lia|].
  apply list_eq. intros i. rewrite !lookup_take. destruct (decide (i < Z.to_nat (st_nbytes t))%nat) as [Hi|]; [|done].
  rewrite !lookup_drop. destruct (Hright k sp (st_off t - read_off sp + Z.of_nat i) Hk) as (buf' & Hb' & _ & Hx); [lia|].
  assert (buf' = buf) as -> by congruence. rewrite <- Hfile.
  replace (Z.to_nat (skew sp + (st_off t - read_off sp)) + i)%nat with (Z.to_nat (skew sp + (st_off t - read_off sp + Z.of_nat i))) by lia.
  rewrite Hx. f_equal. lia.
Qed.

Lemma drained_right sub sched spans : 0 < sub -> (forall js, sched js ≡ₚ js) -> spans_ok spans ->
  exists bufs, drain s (sched (jobs_of sub spans)) (buffers fresh spans) = ROk bufs /\
    (forall k sp, spans !! k = Some sp -> exists buf, bufs !! k = Some buf /\ skew sp + extent sp <= Z.of_nat (length buf)) /\
    forall k sp x, spans !! k = Some sp -> 0 <= x < extent sp ->
      exists buf, bufs !! k = Some buf /\ skew sp + extent sp <= Z.of_nat (length buf) /\
        buf !! Z.to_nat (skew sp + x) = content (sp_file sp) !! Z.to_nat (read_off sp + x).
Proof.
  intros Hsub Hsched Hok. pose proof (jobs_in spans sub Hsub Hok) as Hjobs.
  destruct (drain_right s (span_of spans) (shift_of spans) (jobs_of sub spans) (sched (jobs_of sub spans)) (buffers fresh spans))
    as (bufs & Hd & Hl & Hsame & Hcov); [done|eapply Forall_impl; [exact Hjobs|]; by intros j []..|].
  exists bufs. split; [done|].
  assert (Hlen : forall k sp, spans !! k = Some sp -> exists buf, bufs !! k = Some buf /\ skew sp + extent sp <= Z.of_nat (length buf)).
  { intros k sp Hk. destruct (Hok k sp Hk) as [_ Ho He Hs Hv _].
    pose proof (buffers_lookup spans k sp Hk) as Hb. apply (f_equal (fun l => l !! k)) in Hl.
    change (map length) with (fmap (M := list) (@length Z)) in Hl. rewrite !list_lookup_fmap, Hb in Hl.
    destruct (bufs !! k) as [buf|]; [|done]. injection Hl as Hl. exists buf. split; [done|]. rewrite Hl.
    unfold extent in *. destruct (sp_view sp) as [b|]; simpl.
    - destruct (Hv b eq_refl) as [-> ->]. rewrite length_take, length_drop. lia.
    - rewrite Hfresh. lia. }
  split; [done|]. intros k sp x Hk Hx. destruct (Hlen k sp Hk) as (buf & Hb & Hbl). exists buf. split; [done|]. split; [done|].
  destruct (Hok k sp Hk) as [_ Ho He Hs Hv _]. destruct (sp_view sp) as [b|] eqn:Hview.
  - destruct (Hv b eq_refl) as [Hsk ->]. rewrite Hsame in Hb.
    2:{ apply Forall_forall. intros j (k' & sp' & Hk' & Hj)%jobs_of_job. destruct (span_jobs_job _ _ _ _ Hj) as (Hn & o & c & _ & ->).
        cbn [j_buf]. intros ->. congruence. }
    rewrite (buffers_lookup spans k sp Hk), Hview in Hb. injection Hb as <-.
    rewrite lookup_take, decide_True by lia. rewrite lookup_drop. f_equal. lia.
  - assert (Hex : extent sp = read_len sp) by (unfold extent; by rewrite Hview).
    destruct (tiles_spec sub (read_len sp) Hsub) as (Ht & _ & Hcover & _); [lia|].
    specialize (Hcover x ltac:(lia)). apply Exists_exists in Hcover as ([o c] & Hoc & Hxc). simpl in Hxc.
    destruct (Hcov k (skew sp + x)) as (buf' & Hb' & Hr); [lia| |].
    + apply Exists_exists. exists {| j_file := sp_file sp; j_off := u64 (read_off sp + o); j_buf := k; j_pos := skew sp + o; j_len := c |}.
      split; [|unfold covers; cbn [j_buf j_pos j_len]; lia]. apply jobs_of_job. exists k, sp. split; [done|].
      unfold span_jobs. rewrite Hview. apply list_elem_of_In. apply in_map_iff. exists (o, c). split; [done|by apply list_elem_of_In].
    + assert (buf' = buf) as -> by congruence. rewrite Hr. unfold span_of, shift_of. rewrite Hk. f_equal. lia.
Qed.
End Plan.

(** ** The theorems *)

Lemma lnot_511 z : Z.land z (Z.lnot 511) = z - z mod 512.
Proof.
  rewrite <- Z.ldiff_land. change 511 with (Z.ones 9). rewrite Z.ldiff_ones_r, Z.shiftr_div_pow2, Z.shiftl_mul_pow2 by lia.
  change (2 ^ 9) with 512. pose proof (Z.div_mod z 512). lia.
Qed.

(** The sub-chunk size is a positive multiple of the block size, whatever the
    environment says. *)
Lemma parse_sub_kb_spec v : 512 <= parse_sub_kb v /\ (512 | parse_sub_kb v).
Proof.
  unfold parse_sub_kb. assert (H0 : 512 <= Z.shiftl 2 20 /\ (512 | Z.shiftl 2 20)) by (split; [done|by exists 4096]).
  destruct v as [v|]; [|exact H0]. destruct (parse_uint 64 (trim v)) as [kb|]; [|exact H0].
  set (b := Z.land _ _). destruct (Z.leb_spec 512 b) as [Hb|]; [|exact H0]. cbn [default]. unfold id. split; [done|].
  unfold b. rewrite lnot_511. set (m := Z.min _ _). exists (m / 512). pose proof (Z.div_mod m 512). lia.
Qed.

(** C23: pooled reads are exact.  Whatever spans happen to be in the page cache,
    wherever the allocator puts the buffers and whatever they held before, with
    buffered or direct reads, for any sub-chunk setting and any order in which
    the threads complete their jobs, reading groups of names whose bytes (with
    direct reads, whose whole 512-byte blocks) lie in their files succeeds, and
    gives for each name, in its group's order, a view of exactly the tensor's
    bytes. *)
Theorem batched_exact s view fresh sched dio addr sub_kb groups :
  Forall (fun f => Z.of_nat (length (snd f)) <= isize_max - 1024) (st_files s) ->
  (forall k n, length (fresh k n) = Z.to_nat n) -> (forall js, sched js ≡ₚ js) ->
  Forall (Forall (present s dio)) groups ->
  exists bufs views, read_raw_shared_batched s view fresh sched dio addr sub_kb groups = ROk (bufs, views) /\
    Forall2 (Forall2 (view_reads s bufs)) groups views.
Proof.
  intros Hfiles Hfresh Hsched Hg. destruct (plan_batch_ok s view dio addr Hfiles groups [] [] Hg) as (spans & maps & Hplan & _ & Hok & Hs).
  { by intros k sp Hk. }
  destruct (parse_sub_kb_spec sub_kb) as [Hsub _].
  destruct (drained_right s view dio addr Hfiles fresh Hfresh (parse_sub_kb sub_kb) sched spans ltac:(lia) Hsched Hok)
    as (bufs & Hd & Hlen & Hright).
  exists bufs, maps. unfold read_raw_shared_batched, plan_batch. rewrite Hplan, Hd. split; [done|].
  clear Hplan. induction Hs as [|names nm groups maps Hn _ IH]; [constructor|].
  apply Forall_cons in Hg as [Hp Hg]. constructor; [|by apply IH]. clear IH Hg.
  induction Hn as [|name v names nm (t & Ht & Hv) _ IH]; [constructor|]. apply Forall_cons in Hp as [(t' & Ht' & Hin) Hp].
  assert (t' = t) as -> by congruence. constructor; [|by apply IH].
  apply (promise_view s view dio addr Hfiles fresh Hfresh bufs spans); [done|done|done|by exists t].
Qed.

(** Two jobs of one buffer, the first before the second. *)
Definition apart (i j : Job) : Prop := j_buf i = j_buf j -> j_pos i + j_len i <= j_pos j.

Lemma StronglySorted_map {A B} (f : A -> B) (R : B -> B -> Prop) l :
  StronglySorted (fun x y => R (f x) (f y)) l -> StronglySorted R (map f l).
Proof. induction 1 as [|x l _ IH Hx]; [constructor|]. simpl. constructor; [done|]. by apply Forall_fmap. Qed.

Lemma jobs_apart sub spans : 0 < sub -> (forall k sp, spans !! k = Some sp -> sp_view sp = None -> 0 <= read_len sp) ->
  forall k0, StronglySorted apart (concat (imap (fun k sp => span_jobs sub (k0 + k) sp) spans)).
Proof.
  intros Hsub. induction spans as [|sp spans IH]; intros Hlen k0; [constructor|]. cbn [imap concat].
  apply StronglySorted_app_2.
  - intros i j Hi Hj. destruct (span_jobs_job _ _ _ _ Hi) as (_ & o & c & _ & ->).
    apply list_elem_of_In, in_concat in Hj as (js & Hjs & Hj).
    apply list_elem_of_In, elem_of_lookup_imap_1 in Hjs as (k & sp' & -> & _). apply list_elem_of_In in Hj.
    destruct (span_jobs_job _ _ _ _ Hj) as (_ & o' & c' & _ & ->). unfold apart. cbn [j_buf]. lia.
  - unfold span_jobs. destruct (sp_view sp) eqn:Hv; [constructor|]. apply StronglySorted_map.
    destruct (tiles_spec sub (read_len sp) Hsub) as (_ & Hs & _); [by apply (Hlen 0%nat)|].
    induction Hs as [|t ts _ IHt Ht]; [constructor|]. constructor; [done|]. eapply Forall_impl; [exact Ht|].
    intros [o' c'] Hle. destruct t as [o c]. unfold apart. cbn [j_buf j_pos j_len fst snd] in *. lia.
  - rewrite (imap_ext _ (fun k sp0 => span_jobs sub (S k0 + k) sp0)).
    + apply (IH (fun k sp' Hk => Hlen (S k) sp' Hk)).
    + intros k sp' _. simpl. by rewrite Nat.add_succ_r.
Qed.

Lemma StronglySorted_lookup {A} (R : A -> A -> Prop) l a b x y :
  StronglySorted R l -> l !! a = Some x -> l !! b = Some y -> (a < b)%nat -> R x y.
Proof.
  intros Hs. revert a b. induction Hs as [|z l _ IH Hz]; intros [|a] [|b]; simpl; try done; try lia.
  - intros [= ->] Hb _. by eapply (Forall_lookup_1 _ _ _ _ Hz).
  - intros Ha Hb Hab. eapply IH; [done..|lia].
Qed.

(** The jobs of a batch obey the device and never alias.  For any batch
    whose plan succeeds on tensors inside their files, each job stays inside its
    file and its buffer, no two jobs write overlapping ranges of a buffer, and
    with direct reads every job's file offset, memory address and length are
    multiples of the 512-byte block. *)
Theorem jobs_aligned s view fresh dio addr sub_kb groups spans maps :
  Forall (fun f => Z.of_nat (length (snd f)) <= isize_max - 1024) (st_files s) ->
  (forall k n, length (fresh k n) = Z.to_nat n) ->
  Forall (Forall (present s dio)) groups ->
  plan_batch s view dio addr groups = ROk (spans, maps) ->
  let js := jobs_of (parse_sub_kb sub_kb) spans in
  Forall (job_in s (buffers fresh spans)) js /\
  (forall a b i j, js !! a = Some i -> js !! b = Some j -> (a < b)%nat -> apart i j) /\
  (dio = true -> Forall (fun j => (DIO_ALIGN | j_off j) /\ (DIO_ALIGN | j_len j) /\ (DIO_ALIGN | addr (j_buf j) + j_pos j)) js).
Proof.
  intros Hfiles Hfresh Hg Hplan js. destruct (plan_batch_ok s view dio addr Hfiles groups [] [] Hg) as (spans' & maps' & Hp & _ & Hok & _).
  { by intros k sp Hk. }
  unfold plan_batch in Hplan. rewrite Hp in Hplan. injection Hplan as -> _.
  destruct (parse_sub_kb_spec sub_kb) as [Hsub Hdiv].
  pose proof (jobs_in s view dio addr Hfiles fresh Hfresh spans (parse_sub_kb sub_kb) ltac:(lia) Hok) as Hin. split_and!.
  - eapply Forall_impl; [exact Hin|]. by intros j [].
  - intros a b i j Ha Hb Hab. eapply StronglySorted_lookup; [|exact Ha|exact Hb|exact Hab].
    apply (jobs_apart (parse_sub_kb sub_kb) spans ltac:(lia)) with (k0 := 0%nat). intros k sp Hk Hv.
    destruct (Hok k sp Hk) as [_ _ He _ _ _]. unfold extent in He. rewrite Hv in He. lia.
  - intros Hd. apply Forall_forall. intros j Hj. rewrite Forall_forall in Hin. destruct (Hin j Hj) as [Hji _].
    apply jobs_of_job in Hj as (k & sp & Hk & Hj). destruct (span_jobs_job _ _ _ _ Hj) as (Hv & o & c & Hoc & ->).
    destruct (Hok k sp Hk) as [_ Ho He _ _ Ha]. destruct (Ha Hd Hv) as (H1 & H2 & H3).
    unfold extent in He. rewrite Hv in He. unfold isize_max in Hfiles.
    destruct (tiles_spec (parse_sub_kb sub_kb) (read_len sp)) as (Ht & _ & _ & Hm); [lia|lia|].
    specialize (Hm 512 Hdiv H2). rewrite Forall_forall in Hm, Ht. destruct (Hm (o, c) Hoc) as [Hmo Hmc].
    specialize (Ht (o, c) Hoc). simpl in Hmo, Hmc, Ht. cbn [j_off j_len j_buf j_pos]. unfold DIO_ALIGN.
    pose proof (content_len s view dio addr Hfiles (sp_file sp)) as Hcl. unfold isize_max in Hcl.
    rewrite wrap_id by (unfold in_u; lia). split_and!; [by apply Z.divide_add_r|done|].
    rewrite Z.add_assoc. by apply Z.divide_add_r.
Qed.

(** ** [pread_chunked] and [read_raw_shared] *)

Section Shared.
Context (s : Shards) (sched : list Job -> list Job) (Hsched : forall js, sched js ≡ₚ js).
Local Set Default Proof Using "All".

(** Chunking changes nothing: for any number of threads and any order, the
    buffer ends up holding the file's bytes. *)
Lemma pread_chunked_exact idx off buf nthreads f : st_files s !! idx = Some f ->
  0 <= off -> off + Z.of_nat (length buf) <= Z.of_nat (length (snd f)) -> Z.of_nat (length (snd f)) < 2 ^ 63 ->
  pread_chunked s sched idx off buf nthreads = ROk (take (length buf) (drop (Z.to_nat off) (snd f))).
Proof.
  intros Hf Ho Hl Hmax. unfold pread_chunked. set (nt := Z.max _ 1).
  assert (Hc : contents s idx = snd f) by (unfold contents; by rewrite Hf).
  destruct (Z.leb_spec nt 1) as [|Hnt].
  { unfold pread_into. rewrite Hf. cbn [unwrap]. rewrite read_exact_in by lia. by rewrite Nat2Z.id. }
  pose proof (div_ceil_spec (Z.of_nat (length buf)) nt ltac:(lia)) as Hdc. set (per := div_ceil _ nt) in *.
  assert (Hb0 : 0 < Z.of_nat (length buf)).
  { destruct buf; [|simpl; lia]. exfalso. unfold nt in Hnt. simpl in Hnt. rewrite Z.div_0_l in Hnt by done. lia. }
  assert (Hper : 0 < per) by nia.
  destruct (tiles_spec per (Z.of_nat (length buf)) Hper) as (Ht & _ & Hcov & _); [lia|].
  rewrite Forall_forall in Ht. set (js := map _ (tiles per _)).
  destruct (drain_right s (fun _ => idx) (fun _ => off) js (sched js) [buf]) as (bufs & Hd & Hlen & _ & Hr); [done| | |].
  - apply Forall_forall. intros j ([o c] & <- & Hoc)%list_elem_of_In%in_map_iff. apply list_elem_of_In in Hoc.
    specialize (Ht (o, c) Hoc). simpl in Ht. rewrite wrap_id by (unfold in_u; lia).
    unfold job_in. cbn [j_file j_off j_pos j_len j_buf]. rewrite Hc. split_and!; [by eexists|lia..|].
    exists buf. split; [done|lia].
  - apply Forall_forall. intros j ([o c] & <- & Hoc)%list_elem_of_In%in_map_iff. apply list_elem_of_In in Hoc.
    specialize (Ht (o, c) Hoc). simpl in Ht. rewrite wrap_id by (unfold in_u; lia). split; simpl; lia.
  - rewrite Hd. destruct bufs as [|b bufs]; [done|]. injection Hlen as Hlen _. cbn [lookup list_lookup unwrap].
    change (ROk (E := StError) b = ROk (take (length buf) (drop (Z.to_nat off) (snd f)))). f_equal.
    apply list_eq_same_length with (n := length buf); [rewrite length_take, length_drop; lia|done|].
    intros i x y Hi Hx Hy. destruct (Hr 0%nat (Z.of_nat i)) as (b' & [= <-] & Hbi); [lia| |].
    { destruct (proj1 (Exists_exists _ _) (Hcov (Z.of_nat i) ltac:(lia))) as ([o c] & Hoc & Hin). simpl in Hin.
      apply Exists_exists. exists {| j_file := idx; j_off := u64 (off + o); j_buf := 0; j_pos := o; j_len := c |}.
      split; [apply list_elem_of_In, in_map_iff; exists (o, c); split; [done|by apply list_elem_of_In]|].
      unfold covers. cbn [j_buf j_pos j_len]. lia. }
    rewrite Nat2Z.id, Hx, Hc in Hbi. rewrite lookup_take, decide_True, lookup_drop in Hy by lia.
    replace (Z.to_nat (Z.of_nat i + off)) with (Z.to_nat off + i)%nat in Hbi by lia. congruence.
Qed.

Context (view : nat -> Z -> Z -> bool) (fresh : nat -> Z -> list Z) (Hfresh : forall k n, length (fresh k n) = Z.to_nat n).
Context (Hfiles : Forall (fun f => Z.of_nat (length (snd f)) <= isize_max - 1024) (st_files s)).

Definition slice_view (bufs : list (list Z)) (m : Meta) (v : View) : Prop :=
  let '(k, p, n) := v in
  n = m_len m /\ exists buf, bufs !! k = Some buf /\ 0 <= p /\ p + n <= Z.of_nat (length buf) /\
    take (Z.to_nat n) (drop (Z.to_nat p) buf) = take (Z.to_nat n) (drop (Z.to_nat (m_off m)) (contents s (m_file m))).

Lemma slice_view_mono bufs bufs' m v : bufs `prefix_of` bufs' -> slice_view bufs m v -> slice_view bufs' m v.
Proof.
  destruct v as [[k p] n]. intros Hpre (Hn & buf & Hb & H). split; [done|]. exists buf. split; [|done].
  by eapply prefix_lookup_Some.
Qed.

(** The buffer of a group is the file's bytes over its span. *)
Lemma read_group_ok nthreads meta g bufs result : Forall (in_file s false) meta -> Forall sane meta -> group_ok meta g ->
  exists buf, read_group s view fresh sched nthreads meta (bufs, result) g =
      ROk (bufs ++ [buf], set_views Some meta (length bufs) 0 g result) /\
    Forall (fun i => slice_view (bufs ++ [buf]) (meta_at meta i)
      (length bufs, 0 + (m_off (meta_at meta i) - g_off0 g), m_len (meta_at meta i))) (g_members g).
Proof.
  intros Hin Hsane Hg. destruct (group_in_file s view false (fun _ => 0) Hfiles meta g Hin Hg) as [[f Hf] Hr He _].
  pose proof (content_len s view false (fun _ => 0) Hfiles (g_file g)) as Hcl. unfold isize_max in Hcl.
  assert (Hc : contents s (g_file g) = snd f) by (unfold contents; by rewrite Hf).
  unfold read_group. rewrite wrap_id by (unfold in_u; lia). set (len := g_end g - g_off0 g).
  exists (take (Z.to_nat len) (drop (Z.to_nat (g_off0 g)) (snd f))). split.
  - unfold mapped_view. rewrite Hf. destruct (_ || _).
    2: destruct (view (g_file g) (g_off0 g) len); [done|].
    all: unfold alloc; rewrite (proj2 (Z.leb_le _ _)) by (unfold isize_max, len; lia).
    all: rewrite (pread_chunked_exact _ _ _ _ f) by (first [exact Hf|rewrite ?Hfresh, <- ?Hc; unfold len; lia]).
    all: by rewrite Hfresh.
  - destruct Hg as [Hm _ _ _]. eapply Forall_impl; [exact Hm|]. cbv beta. intros i (Hfi & Ho & Hend).
    destruct (sane_at meta Hsane i) as (? & ? & ?). unfold m_end in *. split; [done|].
    eexists. split; [by rewrite lookup_app_r, Nat.sub_diag|]. rewrite length_take, length_drop.
    rewrite Hc in He. split_and!; [lia|unfold len; lia|]. rewrite Hfi, Hc.
    apply list_eq. intros x. rewrite !lookup_take. destruct (decide _) as [Hx|]; [|done].
    rewrite !lookup_drop, lookup_take, decide_True by (unfold len; lia). rewrite lookup_drop. f_equal. lia.
Qed.

Lemma read_groups_ok nthreads meta gs : Forall (in_file s false) meta -> Forall sane meta -> Forall (group_ok meta) gs ->
  forall bufs result,
  exists bufs' result', for_each (read_group s view fresh sched nthreads meta) gs (bufs, result) = ROk (bufs', result') /\
    bufs `prefix_of` bufs' /\ length result' = length result /\
    forall i, (i < length result)%nat ->
      if decide (i ∈ concat (map g_members gs))
      then exists v, result' !! i = Some (Some v) /\ slice_view bufs' (meta_at meta i) v
      else result' !! i = result !! i.
Proof.
  intros Hin Hsane. induction 1 as [|g gs Hg _ IH]; intros bufs result; cbn [for_each].
  { exists bufs, result. by split_and!. }
  destruct (read_group_ok nthreads meta g bufs result Hin Hsane Hg) as (buf & -> & Hsl).
  set (r1 := set_views _ _ _ _ _ _).
  destruct (IH (bufs ++ [buf]) r1) as (bufs' & result' & Hr & Hpre & Hlen & Hres).
  assert (Hl1 : length r1 = length result).
  { unfold r1, set_views. generalize (g_members g) result. intros ms. induction ms as [|j ms IHm]; [done|].
    intros r. cbn [fold_left]. rewrite IHm. destruct (meta_at meta j) as [[? ?] ?]. apply length_insert. }
  exists bufs', result'. split_and!; [done|by etrans; [apply prefix_app_r|]|by rewrite Hlen|].
  intros i Hi. specialize (Hres i). rewrite Hl1 in Hres. specialize (Hres Hi). cbn [map concat].
  destruct (set_views_lookup meta Hsane Some (length bufs) 0 g result i Hg Hi) as [_ Hset].
  destruct (decide (i ∈ concat (map g_members gs))) as [Hc|Hc].
  { rewrite decide_True by (apply elem_of_app; by right). done. }
  fold r1 in Hset. rewrite Hset in Hres. destruct (decide (i ∈ g_members g)) as [Hm|Hm].
  - rewrite decide_True by (apply elem_of_app; by left). eexists. split; [done|].
    eapply slice_view_mono; [exact Hpre|]. rewrite Forall_forall in Hsl. by apply Hsl.
  - rewrite decide_False; [done|]. intros [?|?]%elem_of_app; done.
Qed.
End Shared.

Lemma rmap_unwrap_ok {E A} (l : list (option A)) : Forall is_Some l -> exists ys, rmap (E := E) unwrap l = ROk ys /\ map Some ys = l.
Proof.
  induction 1 as [|o l [x ->] _ (ys & Hy & Hm)]; [by exists []|]. exists (x :: ys). simpl. rewrite Hy. simpl. by rewrite Hm.
Qed.

(** Coalesced reads are exact.  Whatever is in the page cache, for any
    number of threads finishing in any order, [read_raw_shared] on tensors that
    lie in their files succeeds and gives for each name, in the order of the
    names, a view of exactly the tensor's bytes. *)
Theorem read_raw_shared_exact s view fresh sched names nthreads :
  Forall (fun f => Z.of_nat (length (snd f)) <= isize_max - 1024) (st_files s) ->
  (forall k n, length (fresh k n) = Z.to_nat n) -> (forall js, sched js ≡ₚ js) ->
  Forall (present s false) names ->
  exists bufs views, read_raw_shared s view fresh sched names nthreads = ROk (bufs, views) /\
    Forall2 (view_reads s bufs) names views.
Proof.
  intros Hfiles Hfresh Hsched Hn. unfold read_raw_shared.
  destruct (meta_of_present s view false (fun _ => 0) Hfiles names Hn) as (meta & -> & Hin & H2).
  assert (Hsane : Forall sane meta) by (eapply Forall_impl; [exact Hin|apply (in_file_sane s view false (fun _ => 0) Hfiles)]).
  destruct (coalesce_spec meta Hsane) as [Hperm Hgs]. pose proof (Forall2_length _ _ _ H2) as Hl2.
  destruct (read_groups_ok s sched Hsched view fresh Hfresh Hfiles nthreads meta (coalesce meta) Hin Hsane Hgs [] (replicate (length names) None))
    as (bufs & result & -> & _ & Hlen & Hres).
  rewrite length_replicate in Hlen, Hres.
  assert (Hview : forall i, (i < length names)%nat -> exists v, result !! i = Some (Some v) /\ slice_view s bufs (meta_at meta i) v).
  { intros i Hi. specialize (Hres i Hi). rewrite decide_True in Hres; [done|]. rewrite Hperm. apply elem_of_seq. lia. }
  destruct (rmap_unwrap_ok (E := StError) result) as (views & -> & Hmap).
  { apply Forall_lookup. intros i o Hi. pose proof (lookup_lt_Some _ _ _ Hi) as Hlt.
    destruct (Hview i ltac:(lia)) as (v & Hv & _). rewrite Hi in Hv. injection Hv as ->. by eexists. }
  exists bufs, views. split; [done|]. apply Forall2_same_length_lookup. split; [by rewrite <- Hlen, <- Hmap, length_map|].
  intros i name v Hi Hv. destruct (Hview i) as (v' & Hv' & Hs); [by eapply lookup_lt_Some|].
  rewrite <- Hmap in Hv'. change (map Some views) with (Some <$> views) in Hv'. rewrite list_lookup_fmap, Hv in Hv'. injection Hv' as <-.
  destruct (Forall2_lookup_l _ _ _ _ _ H2 Hi) as (m & Hm & t & Ht & ->). unfold meta_at in Hs. rewrite Hm in Hs.
  pose proof (Forall_lookup_1 _ _ _ _ Hin Hm) as ([f Hf] & Ho & Hnb & Hle & _). destruct v as [[k p] n].
  destruct Hs as (-> & buf & Hb & Hp & Hpl & Heq). cbn [default] in *. unfold id, m_end, m_file, m_off, m_len in *. cbn [fst snd] in *.
  exists t, (take (Z.to_nat (st_nbytes t)) (drop (Z.to_nat (st_off t)) (contents s (file_idx t)))), buf.
  assert (Hc : contents s (file_idx t) = snd f) by (unfold contents; by rewrite Hf). rewrite Hc in *.
  split_and!; try done. unfold pread_into. rewrite Hf. by apply read_exact_in.
Qed.

(** Direct reads of the last tensor of a file whose length is no multiple of
    the block fail, although the tensor's bytes are there. *)
Example direct_tail_fails :
  match open [(bytes_of "a.safetensors",
      write_shard [{| ot_name := [120]; ot_dtype := "U8"; ot_shape := [3]; ot_bytes := [7; 8; 9] |}])] with
  | ROk s =>
      let run dio := read_raw_shared_batched s (fun _ _ _ => false) (fun _ n => repeat 0 (Z.to_nat n)) id dio (fun _ => 64) None [[[120]]] in
      (let? (bufs, _) := run false in ROk bufs) = ROk [[7; 8; 9]] /\ run true = RErr UnexpectedEof
  | _ => False
  end.
Proof. vm_compute. split; reflexivity. Qed.

(** ** Witnesses *)

Lemma sample_files : Forall (fun f => Z.of_nat (length (snd f)) <= isize_max - 1024) (st_files sample_shards).
Proof. apply (bool_decide_unpack _). vm_compute. exact I. Qed.

Lemma sample_fresh (k : nat) (n : Z) : length (repeat 170 (Z.to_nat n)) = Z.to_nat n.
Proof. apply repeat_length. Qed.

Lemma sample_sched (js : list Job) : rev js ≡ₚ js.
Proof. symmetry. apply Permutation_rev. Qed.

Lemma sample_present : Forall (present sample_shards false) [[121; 46; 113]; [120]].
Proof.
  repeat constructor.
  all: eexists; split; [vm_compute; reflexivity|]; unfold in_file.
  all: split; [vm_compute; by eexists|]. all: split_and!; vm_compute; congruence.
Qed.

Lemma batched_exact_witness :
  exists bufs views, read_raw_shared_batched sample_shards (fun _ _ _ => false) (fun _ n => repeat 170 (Z.to_nat n)) (@rev Job)
      false (fun _ => 3) None [[[121; 46; 113]; [120]]; []] = ROk (bufs, views) /\
    Forall2 (Forall2 (view_reads sample_shards bufs)) [[[121; 46; 113]; [120]]; []] views.
Proof.
  apply (batched_exact sample_shards (fun _ _ _ => false) (fun _ n => repeat 170 (Z.to_nat n)) (@rev Job) false (fun _ => 3) None);
    [exact sample_files|exact sample_fresh|exact sample_sched|].
  constructor; [exact sample_present|]. constructor; constructor.
Defined.

Lemma read_raw_shared_exact_witness :
  exists bufs views, read_raw_shared sample_shards (fun _ o _ => o =? 0) (fun _ n => repeat 170 (Z.to_nat n)) (@rev Job)
      [[121; 46; 113]; [120]] 8 = ROk (bufs, views) /\
    Forall2 (view_reads sample_shards bufs) [[121; 46; 113]; [120]] views.
Proof.
  apply (read_raw_shared_exact sample_shards (fun _ o _ => o =? 0) (fun _ n => repeat 170 (Z.to_nat n)) (@rev Job));
    [exact sample_files|exact sample_fresh|exact sample_sched|exact sample_present].
Defined.

(** A directory whose file is long enough for direct reads. *)
Definition sample_padded : Shards :=
  {| st_tensors := st_tensors sample_shards; st_index := st_index sample_shards;
     st_files := map (fun f => (fst f, snd f ++ repeat 0 1024)) (st_files sample_shards) |}.

Lemma jobs_aligned_witness :
  exists spans maps, plan_batch sample_padded (fun _ _ _ => false) true (fun _ => 3) [[[120]]] = ROk (spans, maps) /\
    Forall (fun j => (512 | j_off j) /\ (512 | j_len j) /\ (512 | 3 + j_pos j)) (jobs_of (parse_sub_kb None) spans).
Proof.
  destruct (plan_batch sample_padded (fun _ _ _ => false) true (fun _ => 3) [[[120]]]) as [[spans maps]| |] eqn:Hp;
    [|vm_compute in Hp; discriminate..].
  exists spans, maps. split; [reflexivity|].
  refine (proj2 (proj2 (jobs_aligned sample_padded (fun _ _ _ => false) (fun _ n => repeat 170 (Z.to_nat n)) true (fun _ => 3) None
    [[[120]]] spans maps _ sample_fresh _ Hp)) eq_refl).
  - apply (bool_decide_unpack _). vm_compute. exact I.
  - repeat constructor. eexists. split; [vm_compute; reflexivity|]. unfold in_file.
    split; [vm_compute; by eexists|]. split_and!; vm_compute; congruence.
Defined.
