(* ===== verification/Config.v ===== *)
(** * Model configuration ([crates/colibri-core/src/config.rs])

    [Config::from_json] and [Config::load] for every architecture.  An [i32] is
    a [Z] with wrapping arithmetic, as in a release build; [as i32] wraps an
    [i64] and saturates a float; an [f32] is binary32 of [SpecFloat].  Reading a
    member of a parsed value never panics ([Json.json_get_wf]), so a lookup here
    returns an option.  The text of a file is its bytes, [None] a file that
    cannot be read as UTF-8. *)

From Stdlib Require Import SpecFloat String Ascii.
From S2P Require Import Prelude Json DType Safetensors.
Local Open Scope Z_scope.

Definition MAX_STOP_IDS : nat := 8.
Definition MAX_LAYERS_IDX : nat := 128.

(** ** Data *)

Inductive Arch := GlmMoeDsa | MinimaxM3 | MinimaxM2 | NemotronH | KimiK3 | DeepseekV4 | Maple.
Inductive RouterScore := Sigmoid | Softmax.
Inductive LayerKind := Mamba | Attn | Moe | Kda.
#[export] Instance Arch_eq_dec : EqDecision Arch.
Proof. solve_decision. Defined.
#[export] Instance LayerKind_eq_dec : EqDecision LayerKind.
Proof. solve_decision. Defined.

Definition is_gqa (a : Arch) : bool := match a with MinimaxM3 | MinimaxM2 | Maple => true | _ => false end.
Definition routed_experts_are_latent (a : Arch) : bool := match a with NemotronH | KimiK3 => true | _ => false end.

Record Config := {
  hidden : Z; n_layers : Z; n_heads : Z; n_experts : Z; topk : Z; moe_inter : Z; dense_inter : Z;
  first_dense : Z; q_lora : Z; o_lora : Z; o_groups : Z; kv_lora : Z; qk_nope : Z; qk_rope : Z; qk_head : Z;
  v_head : Z; n_shared : Z; vocab : Z; max_ctx : Z; n_group : Z; topk_group : Z; norm_topk : bool;
  stop_ids : list Z; index_topk : Z; index_nh : Z; index_hd : Z; index_block_size : Z; index_topk_blocks : Z;
  index_local_blocks : Z; idx_type : list bool; eps : spec_float; theta : spec_float;
  attn_scale : spec_float; routed_scale : spec_float; arch : Arch; n_kv_heads : Z; shared_inter : Z;
  qk_norm : bool; gemma_norm : bool; swiglu_oai : bool; swiglu_alpha : spec_float; swiglu_limit : spec_float;
  compress_ratios : list Z; compress_theta : spec_float; n_hash_layers : Z; dspark_block : Z;
  dspark_noise_id : Z; markov_rank : Z; dspark_targets : list Z; hc_mult : Z; hc_sinkhorn_iters : Z;
  hc_eps : spec_float; window : Z; sigmoid_route : bool; router_score : RouterScore; swa_window : Z;
  layer_swa : list bool; nope_on_global : bool; layer_kind : list LayerKind; mtp_layer_kind : list LayerKind;
  mamba_d_state : Z; mamba_d_conv : Z; mamba_n_heads : Z; mamba_head_dim : Z; mamba_n_groups : Z;
  mamba_inter : Z; mamba_chunk : Z; moe_latent : Z; relu2 : bool; mamba_dt_min : spec_float; kda_n_heads : Z;
  kda_head_dim : Z; situ : bool; situ_beta : spec_float; situ_linear_beta : spec_float; mla_nope : bool;
  kda_d_conv : Z; attn_res_block_size : Z
}.

(** [Io] carries no description of the failure. *)
Inductive ConfigError :=
  | Io
  | Parse (msg : list Z)
  | Range (name : string) (value lo hi : Z)
  | Unsupported (msg : list Z).

(** ** Reading members *)

Definition f64_lit (m e : Z) : spec_float := dec_to_f64 false m e.

(** [f64 as f32]: to nearest even. *)
Definition f64_as_f32 (n : spec_float) : spec_float :=
  match n with
  | S754_finite s m e => binary_normalize 24 128 (if s then Zneg m else Zpos m) e s
  | _ => n
  end.

(** [f64 as i32]. *)
Definition clamp_i32 (z : Z) : Z := Z.max (- 2 ^ 31) (Z.min z (2 ^ 31 - 1)).
Definition f64_as_i32 (n : spec_float) : Z :=
  match n with
  | S754_zero _ | S754_nan => 0
  | S754_infinity s => if s then - 2 ^ 31 else 2 ^ 31 - 1
  | S754_finite s m e =>
      let a := Z.shiftl (Zpos m) e in
      clamp_i32 (if s then - a else a)
  end.

(** [f64::round] followed by [as i32]: half away from zero. *)
Definition round_as_i32 (n : spec_float) : Z :=
  match n with
  | S754_finite s m e =>
      let a := if 0 <=? e then Z.shiftl (Zpos m) e else Z.shiftl (Zpos m + Z.shiftl 1 (- e - 1)) e in
      clamp_i32 (if s then - a else a)
  | _ => f64_as_i32 n
  end.

Definition get (r : Json) (k : string) : option Json := default None (json_get r (bytes_of k)).
Definition gi_in (r : Json) (k : string) : Z := i32 (default 0 (let* j := get r k in as_i64 j)).
Definition get_f64 (r : Json) (k : string) (d : spec_float) : spec_float := default d (let* j := get r k in as_f64 j).
Definition get_f32 (r : Json) (k : string) (d : spec_float) : spec_float := f64_as_f32 (get_f64 r k d).
Definition get_bool (r : Json) (k : string) (d : bool) : bool := default d (let* j := get r k in as_bool j).
Definition get_str (r : Json) (k : string) : option (list Z) := let* j := get r k in as_str j.
Definition get_arr (r : Json) (k : string) : option (list Json) := let* j := get r k in as_array j.
Definition str_is (s : option (list Z)) (lit : string) : bool := bool_decide (s = Some (bytes_of lit)).
Definition get_i32s (r : Json) (k : string) : list Z :=
  default [] (let* a := get_arr r k in Some (map f64_as_i32 (omap as_f64 a))).

(** [1.0 / (d as f32).sqrt()]. *)
Definition rsqrt (d : Z) : spec_float := f32_div f32_one (SFsqrt 24 128 (f32_of_Z d)).

Definition parse_stop_ids (r : Json) (out : list Z) : list Z :=
  match get r "eos_token_id" with
  | Some (Num n) => out ++ [f64_as_i32 n]
  | Some (Arr a) => out ++ omap (fun v => let* id := as_i64 v in Some (i32 id)) (take MAX_STOP_IDS a)
  | _ => out
  end.

(** The [ckr!] macro. *)
Definition ckr (name : string) (v lo hi : Z) : res ConfigError unit :=
  if (v <? lo) || (hi <? v) then RErr (Range name v lo hi) else ROk tt.

Definition validate_common (c : Config) : res ConfigError unit :=
  let? _ := ckr "hidden_size" (hidden c) 1 (Z.shiftl 1 20) in
  let? _ := ckr "num_hidden_layers" (n_layers c) 1 128 in
  let? _ := ckr "num_attention_heads" (n_heads c) 1 1024 in
  let? _ := ckr "n_routed_experts" (n_experts c) 1 4096 in
  let? _ := ckr "num_experts_per_tok" (topk c) 1 64 in
  let? _ := ckr "moe_intermediate_size" (moe_inter c) 1 (Z.shiftl 1 20) in
  let? _ := (if 0 <? first_dense c
             then ckr "intermediate_size" (dense_inter c) 1 (Z.shiftl 1 24)
             else ckr "intermediate_size" (dense_inter c) 0 (Z.shiftl 1 24)) in
  let? _ := ckr "first_k_dense_replace" (first_dense c) 0 (n_layers c) in
  let? _ := ckr "v_head_dim" (v_head c) 1 (Z.shiftl 1 16) in
  let? _ := ckr "n_shared_experts" (n_shared c) 0 64 in
  ckr "vocab_size" (vocab c) 1 (Z.shiftl 1 24).

Definition layers_capped (n : Z) : nat := Nat.min (Z.to_nat (Z.max n 0)) MAX_LAYERS_IDX.

(** ** GLM *)

Definition glm_theta (r : Json) : spec_float :=
  match (let* rp := get r "rope_parameters" in let* th := get rp "rope_theta" in as_f64 th) with
  | Some th => f64_as_f32 th
  | None => f32_of_Z 10000
  end.

(** Slot [i] of [idx_type]. *)
Definition glm_idx_slot (it : option (list Json)) (freq off : Z) (i : nat) : bool :=
  match (let* arr := it in let* v := arr !! i in as_str v) with
  | Some s => str_is (Some s) "full"
  | None => Z.rem (Z.max (i32 (i32 (Z.of_nat i - off) + 1)) 0) freq =? 0
  end.

Definition glm_idx_type (r : Json) : list bool :=
  let freq := gi_in r "index_topk_freq" in
  let freq := if freq <? 1 then 1 else freq in
  let off := i32 (default 2 (let* j := get r "index_skip_topk_offset" in as_i64 j)) in
  map (glm_idx_slot (get_arr r "indexer_types") freq off) (seq 0 (layers_capped (gi_in r "num_hidden_layers"))).

Definition glm_qk_head (r : Json) : Z := i32 (gi_in r "qk_nope_head_dim" + gi_in r "qk_rope_head_dim").

Definition glm_config (r : Json) : Config :=
  let gi := gi_in r in
  {| hidden := gi "hidden_size"; n_layers := gi "num_hidden_layers"; n_heads := gi "num_attention_heads";
     n_experts := gi "n_routed_experts"; topk := gi "num_experts_per_tok";
     moe_inter := gi "moe_intermediate_size"; dense_inter := gi "intermediate_size";
     first_dense := gi "first_k_dense_replace"; q_lora := gi "q_lora_rank"; o_lora := 0; o_groups := 0;
     kv_lora := gi "kv_lora_rank"; qk_nope := gi "qk_nope_head_dim"; qk_rope := gi "qk_rope_head_dim";
     qk_head := glm_qk_head r; v_head := gi "v_head_dim"; n_shared := gi "n_shared_experts";
     vocab := gi "vocab_size"; max_ctx := gi "max_position_embeddings"; n_group := gi "n_group";
     topk_group := gi "topk_group"; norm_topk := get_bool r "norm_topk_prob" false;
     stop_ids := parse_stop_ids r []; index_topk := gi "index_topk"; index_nh := gi "index_n_heads";
     index_hd := gi "index_head_dim"; index_block_size := 0; index_topk_blocks := 0; index_local_blocks := 0;
     idx_type := glm_idx_type r; eps := get_f32 r "rms_norm_eps" (f64_lit 1 (-5)); theta := glm_theta r;
     attn_scale := rsqrt (glm_qk_head r); routed_scale := get_f32 r "routed_scaling_factor" (f64_lit 1 0);
     arch := GlmMoeDsa; n_kv_heads := gi "num_attention_heads";
     shared_inter := i32 (gi "n_shared_experts" * gi "moe_intermediate_size"); qk_norm := false;
     gemma_norm := false; swiglu_oai := false; swiglu_alpha := f32_of_Z 0; swiglu_limit := f32_of_Z 0;
     compress_ratios := []; compress_theta := f32_of_Z 0; n_hash_layers := 0; dspark_block := 0;
     dspark_noise_id := 0; markov_rank := 0; dspark_targets := []; hc_mult := 0; hc_sinkhorn_iters := 0;
     hc_eps := f32_of_Z 0; window := 0; sigmoid_route := false; router_score := Sigmoid; swa_window := 0;
     layer_swa := []; nope_on_global := false; layer_kind := []; mtp_layer_kind := []; mamba_d_state := 0;
     mamba_d_conv := 0; mamba_n_heads := 0; mamba_head_dim := 0; mamba_n_groups := 0; mamba_inter := 0;
     mamba_chunk := 0; moe_latent := 0; relu2 := false; mamba_dt_min := f32_of_Z 0; kda_n_heads := 0;
     kda_head_dim := 0; situ := false; situ_beta := f32_of_Z 0; situ_linear_beta := f32_of_Z 0;
     mla_nope := false; kda_d_conv := 0; attn_res_block_size := 0 |}.

Definition from_json_glm (r : Json) : res ConfigError Config :=
  let c := glm_config r in
  if negb (n_group c =? 1)
  then RErr (Unsupported (bytes_of "this engine requires n_group=1 (GLM-5.2)"))
  else
    let? _ := validate_common c in
    let? _ := ckr "q_lora_rank" (q_lora c) 0 (Z.shiftl 1 20) in
    let? _ := ckr "kv_lora_rank" (kv_lora c) 1 (Z.shiftl 1 20) in
    let? _ := ckr "qk_nope_head_dim" (qk_nope c) 1 (Z.shiftl 1 16) in
    let? _ := ckr "qk_rope_head_dim" (qk_rope c) 1 (Z.shiftl 1 16) in
    let? _ := ckr "index_topk" (index_topk c) 0 (Z.shiftl 1 20) in
    let? _ := ckr "index_n_heads" (index_nh c) 0 1024 in
    let? _ := ckr "index_head_dim" (index_hd c) 0 (Z.shiftl 1 16) in
    ROk c.

(** ** MiniMax *)

(** [take_while(|v| v.as_i64() == Some(0)).count()]. *)
Fixpoint leading_zeros (l : list Json) : nat :=
  match l with
  | v :: l => if bool_decide (as_i64 v = Some 0) then S (leading_zeros l) else 0%nat
  | [] => 0%nat
  end.

Definition minimax_stop_ids (r t : Json) : list Z :=
  let ids := parse_stop_ids t [] in
  if (length ids =? 0)%nat then parse_stop_ids r ids else ids.

Definition minimax_idx_type (sac : option Json) (nlc : nat) : list bool :=
  match (let* s := sac in get_arr s "sparse_attention_freq") with
  | Some arr => map (fun i => negb (default 0 (let* v := arr !! i in as_i64 v) =? 0)) (seq 0 nlc)
  | None => replicate nlc false
  end.

Definition minimax_config (r t : Json) (arch : Arch) : Config :=
  let gi := gi_in t in
  let head_dim := gi "head_dim" in
  let rotary_dim := gi "rotary_dim" in
  let qk_rope := rotary_dim in
  let qk_nope := i32 (head_dim - rotary_dim) in
  let first_dense :=
    match get_arr t "moe_layer_freq" with
    | Some arr => i32 (Z.of_nat (leading_zeros arr))
    | None => gi "first_k_dense_replace"
    end in
  let act := Some (default [] (get_str t "hidden_act")) in
  let scoring := Some (default [] (get_str t "scoring_func")) in
  let sac := get t "sparse_attention_config" in
  let sg k d := match (let* s := sac in let* j := get s k in as_i64 j) with Some v => i32 v | None => d end in
  let index_nh := sg "sparse_num_index_heads"%string 0 in
  let index_hd := sg "sparse_index_dim"%string 0 in
  let index_block_size := sg "sparse_block_size"%string 0 in
  let index_topk_blocks := sg "sparse_topk_blocks"%string 0 in
  let index_local_blocks := sg "sparse_local_block"%string 0 in
  let idx_type := minimax_idx_type sac (layers_capped (gi "num_hidden_layers")) in
  {| hidden := gi "hidden_size"; n_layers := gi "num_hidden_layers"; n_heads := gi "num_attention_heads";
     n_experts := gi "num_local_experts"; topk := gi "num_experts_per_tok";
     moe_inter := gi "intermediate_size"; dense_inter := gi "dense_intermediate_size";
     first_dense := first_dense; q_lora := 0; o_lora := 0; o_groups := 0; kv_lora := 0; qk_nope := qk_nope;
     qk_rope := qk_rope; qk_head := head_dim; v_head := head_dim; n_shared := gi "n_shared_experts";
     vocab := gi "vocab_size"; max_ctx := gi "max_position_embeddings"; n_group := 1; topk_group := 1;
     norm_topk := true; stop_ids := minimax_stop_ids r t;
     index_topk := i32 (index_topk_blocks * index_block_size); index_nh := index_nh; index_hd := index_hd;
     index_block_size := index_block_size; index_topk_blocks := index_topk_blocks;
     index_local_blocks := index_local_blocks; idx_type := idx_type;
     eps := get_f32 t "rms_norm_eps" (f64_lit 1 (-6)); theta := get_f32 t "rope_theta" (f64_lit 10000 0);
     attn_scale := if 0 <? head_dim then rsqrt head_dim else f32_of_Z 0;
     routed_scale := get_f32 t "routed_scaling_factor" (f64_lit 1 0); arch := arch;
     n_kv_heads := gi "num_key_value_heads"; shared_inter := gi "shared_intermediate_size";
     qk_norm := get_bool t "use_qk_norm" false; gemma_norm := get_bool t "use_gemma_norm" false;
     swiglu_oai := str_is act "swigluoai"; swiglu_alpha := get_f32 t "swiglu_alpha" (f64_lit 1702 (-3));
     swiglu_limit := get_f32 t "swiglu_limit" (f64_lit 7 0); compress_ratios := [];
     compress_theta := f32_of_Z 0; n_hash_layers := 0; dspark_block := 0; dspark_noise_id := 0;
     markov_rank := 0; dspark_targets := []; hc_mult := 0; hc_sinkhorn_iters := 0; hc_eps := f32_of_Z 0;
     window := 0; sigmoid_route := str_is scoring "sigmoid"; router_score := Sigmoid; swa_window := 0;
     layer_swa := []; nope_on_global := false; layer_kind := []; mtp_layer_kind := []; mamba_d_state := 0;
     mamba_d_conv := 0; mamba_n_heads := 0; mamba_head_dim := 0; mamba_n_groups := 0; mamba_inter := 0;
     mamba_chunk := 0; moe_latent := 0; relu2 := false; mamba_dt_min := f32_of_Z 0; kda_n_heads := 0;
     kda_head_dim := 0; situ := false; situ_beta := f32_of_Z 0; situ_linear_beta := f32_of_Z 0;
     mla_nope := false; kda_d_conv := 0; attn_res_block_size := 0 |}.

Definition from_json_minimax (r t : Json) (arch : Arch) : res ConfigError Config :=
  let head_dim := gi_in t "head_dim" in
  let rotary_dim := gi_in t "rotary_dim" in
  let c := minimax_config r t arch in
  let? _ := validate_common c in
  let? _ := ckr "head_dim" head_dim 1 (Z.shiftl 1 16) in
  let? _ := ckr "rotary_dim" rotary_dim 1 head_dim in
  let? _ := ckr "num_key_value_heads" (n_kv_heads c) 1 (n_heads c) in
  let? _ := ckr "shared_intermediate_size" (shared_inter c) 0 (Z.shiftl 1 24) in
  ROk c.

(** ** Maple *)

Definition maple_head_dim (r : Json) : Z :=
  let n_heads := gi_in r "num_attention_heads" in
  let hd := gi_in r "head_dim" in
  if 0 <? hd then hd
  else if 0 <? n_heads then Z.quot (gi_in r "hidden_size") n_heads
  else 0.

(** [((head_dim as f64) * frac) as i32]. *)
Definition maple_rotary_dim (r : Json) : Z :=
  f64_as_i32 (SFmul 53 1024 (int_f64 (maple_head_dim r)) (get_f64 r "partial_rotary_factor" (f64_lit 1 0))).

Definition maple_layer_swa (r : Json) : list bool :=
  let nlc := layers_capped (gi_in r "num_hidden_layers") in
  match get_arr r "layer_types" with
  | Some arr => map (fun i => str_is (let* v := arr !! i in as_str v) "sliding_attention") (seq 0 nlc)
  | None => replicate nlc false
  end.

Definition maple_config (r : Json) : Config :=
  let gi := gi_in r in
  let n_heads := gi "num_attention_heads" in
  let head_dim := maple_head_dim r in
  let rotary_dim := maple_rotary_dim r in
  let n_layers := gi "num_hidden_layers" in
  let layer_swa := maple_layer_swa r in
  let swa_window := if existsb id layer_swa then gi "sliding_window" else 0 in
  {| hidden := gi "hidden_size"; n_layers := n_layers; n_heads := n_heads; n_experts := gi "num_experts";
     topk := gi "num_experts_per_tok"; moe_inter := gi "moe_intermediate_size"; dense_inter := 0;
     first_dense := 0; q_lora := 0; o_lora := 0; o_groups := 0; kv_lora := 0;
     qk_nope := i32 (head_dim - rotary_dim); qk_rope := rotary_dim; qk_head := head_dim; v_head := head_dim;
     n_shared := gi "num_shared_experts"; vocab := gi "vocab_size"; max_ctx := gi "max_position_embeddings";
     n_group := 1; topk_group := 1; norm_topk := true; stop_ids := parse_stop_ids r []; index_topk := 0;
     index_nh := 0; index_hd := 0; index_block_size := 0; index_topk_blocks := 0; index_local_blocks := 0;
     idx_type := []; eps := get_f32 r "rms_norm_eps" (f64_lit 1 (-6));
     theta := get_f32 r "rope_theta" (f64_lit 10000 0);
     attn_scale := if 0 <? head_dim then rsqrt head_dim else f32_of_Z 0; routed_scale := f32_of_Z 1;
     arch := Maple; n_kv_heads := gi "num_key_value_heads"; shared_inter := 0;
     qk_norm := get_bool r "use_qk_norm" false; gemma_norm := false; swiglu_oai := false;
     swiglu_alpha := f32_of_Z 0; swiglu_limit := f32_of_Z 7; compress_ratios := [];
     compress_theta := f32_of_Z 0; n_hash_layers := 0; dspark_block := 0; dspark_noise_id := 0;
     markov_rank := 0; dspark_targets := []; hc_mult := 0; hc_sinkhorn_iters := 0; hc_eps := f32_of_Z 0;
     window := 0; sigmoid_route := false; router_score := Softmax; swa_window := swa_window;
     layer_swa := layer_swa; nope_on_global := get_bool r "nope_on_global_attention" false; layer_kind := [];
     mtp_layer_kind := []; mamba_d_state := 0; mamba_d_conv := 0; mamba_n_heads := 0; mamba_head_dim := 0;
     mamba_n_groups := 0; mamba_inter := 0; mamba_chunk := 0; moe_latent := 0; relu2 := false;
     mamba_dt_min := f32_of_Z 0; kda_n_heads := 0; kda_head_dim := 0; situ := false; situ_beta := f32_of_Z 0;
     situ_linear_beta := f32_of_Z 0; mla_nope := false; kda_d_conv := 0; attn_res_block_size := 0 |}.

Definition from_json_maple (r : Json) : res ConfigError Config :=
  let c := maple_config r in
  let? _ := validate_common c in
  let? _ := ckr "head_dim" (maple_head_dim r) 1 (Z.shiftl 1 16) in
  let? _ := ckr "rotary_dim" (maple_rotary_dim r) 1 (maple_head_dim r) in
  let? _ := ckr "num_key_value_heads" (n_kv_heads c) 1 (n_heads c) in
  let? _ := ckr "sliding_window" (swa_window c) 0 (Z.shiftl 1 24) in
  ROk c.

(** ** DeepSeek-V4 *)

Definition deepseek_config (r : Json) : Config :=
  let gi := gi_in r in
  {| hidden := gi "hidden_size"; n_layers := gi "num_hidden_layers"; n_heads := gi "num_attention_heads";
     n_experts := gi "n_routed_experts"; topk := gi "num_experts_per_tok";
     moe_inter := gi "moe_intermediate_size"; dense_inter := 0; first_dense := 0; q_lora := gi "q_lora_rank";
     o_lora := gi "o_lora_rank"; o_groups := Z.max (gi "o_groups") 1; kv_lora := gi "head_dim";
     qk_nope := i32 (gi "head_dim" - gi "qk_rope_head_dim"); qk_rope := gi "qk_rope_head_dim";
     qk_head := gi "head_dim"; v_head := gi "head_dim"; n_shared := gi "n_shared_experts";
     vocab := gi "vocab_size"; max_ctx := gi "max_position_embeddings"; n_group := Z.max (gi "n_group") 1;
     topk_group := Z.max (gi "topk_group") 1; norm_topk := get_bool r "norm_topk_prob" true;
     stop_ids := parse_stop_ids r []; index_topk := gi "index_topk"; index_nh := gi "index_n_heads";
     index_hd := gi "index_head_dim"; index_block_size := 0; index_topk_blocks := 0; index_local_blocks := 0;
     idx_type := []; eps := get_f32 r "rms_norm_eps" (f64_lit 1 (-6));
     theta := get_f32 r "rope_theta" (f64_lit 10000 0); attn_scale := f32_of_Z 0;
     routed_scale := get_f32 r "routed_scaling_factor" (f64_lit 1 0); arch := DeepseekV4;
     n_kv_heads := gi "num_key_value_heads";
     shared_inter := i32 (gi "n_shared_experts" * gi "moe_intermediate_size"); qk_norm := false;
     gemma_norm := false; swiglu_oai := false; swiglu_alpha := f32_of_Z 0;
     swiglu_limit := get_f32 r "swiglu_limit" (f64_lit 0 0); compress_ratios := get_i32s r "compress_ratios";
     compress_theta := get_f32 r "compress_rope_theta" (f64_lit 10000 0);
     n_hash_layers := f64_as_i32 (get_f64 r "num_hash_layers" (f64_lit 0 0));
     dspark_block := f64_as_i32 (get_f64 r "dspark_block_size" (f64_lit 0 0));
     dspark_noise_id := f64_as_i32 (get_f64 r "dspark_noise_token_id" (f64_lit 0 0));
     markov_rank := f64_as_i32 (get_f64 r "dspark_markov_rank" (f64_lit 0 0));
     dspark_targets := get_i32s r "dspark_target_layer_ids"; hc_mult := gi "hc_mult";
     hc_sinkhorn_iters := gi "hc_sinkhorn_iters"; hc_eps := get_f32 r "hc_eps" (f64_lit 1 (-6));
     window := gi "sliding_window"; sigmoid_route := false; router_score := Sigmoid; swa_window := 0;
     layer_swa := []; nope_on_global := false; layer_kind := []; mtp_layer_kind := []; mamba_d_state := 0;
     mamba_d_conv := 0; mamba_n_heads := 0; mamba_head_dim := 0; mamba_n_groups := 0; mamba_inter := 0;
     mamba_chunk := 0; moe_latent := 0; relu2 := false; mamba_dt_min := f32_of_Z 0; kda_n_heads := 0;
     kda_head_dim := 0; situ := false; situ_beta := f32_of_Z 0; situ_linear_beta := f32_of_Z 0;
     mla_nope := false; kda_d_conv := 0; attn_res_block_size := 0 |}.

(** No check at all. *)
Definition from_json_deepseek_v4 (r : Json) : res ConfigError Config := ROk (deepseek_config r).

(** ** Kimi-K3 *)

Definition kimi_qk_head (t : Json) : Z := i32 (gi_in t "qk_nope_head_dim" + gi_in t "qk_rope_head_dim").

(** The list of full-attention layers is 1-indexed. *)
Definition kimi_layer_kind (t : Json) : list LayerKind :=
  let lac := get t "linear_attn_config" in
  let full := default [] (let* s := lac in let* a := get_arr s "full_attn_layers" in Some (omap as_i64 a)) in
  map (fun i => if bool_decide (Z.of_nat i + 1 ∈ full) then Attn else Kda)
      (seq 0 (layers_capped (gi_in t "num_hidden_layers"))).

Definition kimi_config (r t : Json) : Config :=
  let gi := gi_in t in
  let lac := get t "linear_attn_config" in
  let lg k d := match (let* s := lac in let* j := get s k in as_i64 j) with Some v => i32 v | None => d end in
  let layer_kind := kimi_layer_kind t in
  {| hidden := gi "hidden_size"; n_layers := gi "num_hidden_layers"; n_heads := gi "num_attention_heads";
     n_experts := gi "num_experts"; topk := gi "num_experts_per_token";
     moe_inter := gi "moe_intermediate_size"; dense_inter := gi "intermediate_size";
     first_dense := gi "first_k_dense_replace"; q_lora := gi "q_lora_rank"; o_lora := 0; o_groups := 0;
     kv_lora := gi "kv_lora_rank"; qk_nope := gi "qk_nope_head_dim"; qk_rope := gi "qk_rope_head_dim";
     qk_head := kimi_qk_head t; v_head := gi "v_head_dim"; n_shared := gi "num_shared_experts";
     vocab := gi "vocab_size"; max_ctx := gi "max_position_embeddings";
     n_group := Z.max (gi "num_expert_group") 1; topk_group := Z.max (gi "topk_group") 1;
     norm_topk := get_bool t "moe_renormalize" false; stop_ids := minimax_stop_ids r t; index_topk := 0;
     index_nh := 0; index_hd := 0; index_block_size := 0; index_topk_blocks := 0; index_local_blocks := 0;
     idx_type := []; eps := get_f32 t "rms_norm_eps" (f64_lit 1 (-5));
     theta := get_f32 t "rope_theta" (f64_lit 10000 0); attn_scale := rsqrt (kimi_qk_head t);
     routed_scale := get_f32 t "routed_scaling_factor" (f64_lit 1 0); arch := KimiK3;
     n_kv_heads := gi "num_key_value_heads";
     shared_inter := i32 (gi "num_shared_experts" * gi "moe_intermediate_size"); qk_norm := false;
     gemma_norm := false; swiglu_oai := false; swiglu_alpha := f32_of_Z 0; swiglu_limit := f32_of_Z 0;
     compress_ratios := []; compress_theta := f32_of_Z 0; n_hash_layers := 0; dspark_block := 0;
     dspark_noise_id := 0; markov_rank := 0; dspark_targets := []; hc_mult := 0; hc_sinkhorn_iters := 0;
     hc_eps := f32_of_Z 0; window := 0;
     sigmoid_route := str_is (get_str t "moe_router_activation_func") "sigmoid"; router_score := Sigmoid;
     swa_window := 0; layer_swa := []; nope_on_global := false; layer_kind := layer_kind; mtp_layer_kind := [];
     mamba_d_state := 0; mamba_d_conv := 0; mamba_n_heads := 0; mamba_head_dim := 0; mamba_n_groups := 0;
     mamba_inter := 0; mamba_chunk := 0; moe_latent := gi "routed_expert_hidden_size"; relu2 := false;
     mamba_dt_min := f32_of_Z 0; kda_n_heads := lg "num_heads" 0; kda_head_dim := lg "head_dim" 0;
     situ := str_is (get_str t "hidden_act") "situ";
     situ_beta := get_f32 t "activation_situ_beta" (f64_lit 1 0);
     situ_linear_beta := get_f32 t "activation_situ_linear_beta" (f64_lit 0 0);
     mla_nope := get_bool t "mla_use_nope" false; kda_d_conv := lg "short_conv_kernel_size" 0;
     attn_res_block_size := gi "attn_res_block_size" |}.

Definition from_json_kimi (r t : Json) : res ConfigError Config :=
  let c := kimi_config r t in
  let? _ := validate_common c in
  if negb (Z.of_nat (length (layer_kind c)) =? u64 (n_layers c)) then
    RErr (Unsupported (bytes_of "kimi_k3: layer_kind length " ++ print_int (Z.of_nat (length (layer_kind c))) ++
                       bytes_of " != num_hidden_layers " ++ print_int (n_layers c)))
  else if negb (bool_decide (Attn ∈ layer_kind c)) then
    RErr (Unsupported (bytes_of "kimi_k3: linear_attn_config.full_attn_layers named no layer of this stack (the list is 1-indexed); every layer would be KDA and the KV cache would size to zero"))
  else
    let? _ := ckr "linear_attn_config.num_heads" (kda_n_heads c) 1 (Z.shiftl 1 16) in
    let? _ := ckr "linear_attn_config.head_dim" (kda_head_dim c) 1 (Z.shiftl 1 16) in
    let? _ := ckr "linear_attn_config.short_conv_kernel_size" (kda_d_conv c) 1 (Z.shiftl 1 8) in
    let? _ := ckr "routed_expert_hidden_size" (moe_latent c) 0 (Z.shiftl 1 24) in
    let? _ := ckr "kv_lora_rank" (kv_lora c) 1 (Z.shiftl 1 16) in
    let? _ := ckr "attn_res_block_size" (attn_res_block_size c) 1 (Z.shiftl 1 16) in
    ROk c.

(** ** Nemotron-H *)

(** One character of the pattern; the bytes of a multi-byte character are
    reported together ([utf8_unit] of a valid text). *)
Fixpoint hybrid_fuel (fuel : nat) (pattern : list Z) (field : string) : res ConfigError (list LayerKind) :=
  match fuel, pattern with
  | S fuel, c :: rest =>
      let more k := let? ks := hybrid_fuel fuel rest field in ROk (k :: ks) in
      if c =? 77 then more Mamba
      else if c =? 69 then more Moe
      else if c =? 42 then more Attn
      else RErr (Unsupported (bytes_of "nemotron_h: unknown " ++ bytes_of field ++ bytes_of " char '" ++
                              take (snd (utf8_unit pattern)) pattern ++ [39]))
  | _, _ => ROk []
  end.
Definition parse_hybrid_pattern (pattern : list Z) (field : string) : res ConfigError (list LayerKind) :=
  hybrid_fuel (length pattern) pattern field.

Definition nemotron_config (r : Json) (layer_kind mtp_layer_kind : list LayerKind) : Config :=
  let gi := gi_in r in
  let head_dim := gi "head_dim" in
  let rot := get_f64 r "partial_rotary_factor" (f64_lit 1 0) in
  let qk_rope := round_as_i32 (SFmul 53 1024 (int_f64 head_dim) rot) in
  let qk_nope := i32 (head_dim - qk_rope) in
  let mamba_n_heads := gi "mamba_num_heads" in
  let mamba_head_dim := gi "mamba_head_dim" in
  let mamba_inter := i32 (mamba_n_heads * mamba_head_dim) in
  {| hidden := gi "hidden_size"; n_layers := gi "num_hidden_layers"; n_heads := gi "num_attention_heads";
     n_experts := gi "n_routed_experts"; topk := gi "num_experts_per_tok";
     moe_inter := gi "moe_intermediate_size"; dense_inter := Z.max (gi "moe_intermediate_size") 1;
     first_dense := 0; q_lora := 0; o_lora := 0; o_groups := 0; kv_lora := 0; qk_nope := qk_nope;
     qk_rope := qk_rope; qk_head := head_dim; v_head := head_dim; n_shared := Z.max (gi "n_shared_experts") 0;
     vocab := gi "vocab_size"; max_ctx := gi "max_position_embeddings"; n_group := Z.max (gi "n_group") 1;
     topk_group := Z.max (gi "topk_group") 1; norm_topk := get_bool r "norm_topk_prob" true;
     stop_ids := parse_stop_ids r []; index_topk := 0; index_nh := 0; index_hd := 0; index_block_size := 0;
     index_topk_blocks := 0; index_local_blocks := 0; idx_type := [];
     eps := f64_as_f32 (get_f64 r "layer_norm_epsilon" (get_f64 r "norm_eps" (f64_lit 1 (-5))));
     theta := get_f32 r "rope_theta" (f64_lit 10000 0);
     attn_scale := if 0 <? head_dim then rsqrt head_dim else f32_of_Z 0;
     routed_scale := get_f32 r "routed_scaling_factor" (f64_lit 1 0); arch := NemotronH;
     n_kv_heads := gi "num_key_value_heads";
     shared_inter := Z.max (gi "moe_shared_expert_intermediate_size") 0; qk_norm := false; gemma_norm := false;
     swiglu_oai := false; swiglu_alpha := f32_of_Z 0; swiglu_limit := f32_of_Z 0; compress_ratios := [];
     compress_theta := f32_of_Z 0; n_hash_layers := 0; dspark_block := 0; dspark_noise_id := 0;
     markov_rank := 0; dspark_targets := []; hc_mult := 0; hc_sinkhorn_iters := 0; hc_eps := f32_of_Z 0;
     window := 0; sigmoid_route := true; router_score := Sigmoid; swa_window := 0; layer_swa := [];
     nope_on_global := false; layer_kind := layer_kind; mtp_layer_kind := mtp_layer_kind;
     mamba_d_state := gi "ssm_state_size"; mamba_d_conv := gi "conv_kernel"; mamba_n_heads := mamba_n_heads;
     mamba_head_dim := mamba_head_dim; mamba_n_groups := Z.max (gi "n_groups") 1; mamba_inter := mamba_inter;
     mamba_chunk := Z.max (gi "chunk_size") 1; moe_latent := gi "moe_latent_size";
     relu2 := str_is (get_str r "mlp_hidden_act") "relu2";
     mamba_dt_min := get_f32 r "time_step_min" (f64_lit 0 0); kda_n_heads := 0; kda_head_dim := 0;
     situ := false; situ_beta := f32_of_Z 0; situ_linear_beta := f32_of_Z 0; mla_nope := false;
     kda_d_conv := 0; attn_res_block_size := 0 |}.

Definition from_json_nemotron (r : Json) : res ConfigError Config :=
  let? layer_kinds := parse_hybrid_pattern (default [] (get_str r "hybrid_override_pattern")) "hybrid_override_pattern" in
  let? mtp_kinds := parse_hybrid_pattern (default [] (get_str r "mtp_hybrid_override_pattern")) "mtp_hybrid_override_pattern" in
  let c := nemotron_config r layer_kinds mtp_kinds in
  let? _ := validate_common c in
  let? _ := ckr "head_dim" (gi_in r "head_dim") 1 (Z.shiftl 1 16) in
  let? _ := ckr "num_key_value_heads" (n_kv_heads c) 1 (n_heads c) in
  let? _ := ckr "ssm_state_size" (mamba_d_state c) 1 (Z.shiftl 1 16) in
  let? _ := ckr "conv_kernel" (mamba_d_conv c) 1 64 in
  let? _ := ckr "mamba_num_heads" (mamba_n_heads c) 1 (Z.shiftl 1 16) in
  let? _ := ckr "mamba_head_dim" (mamba_head_dim c) 1 (Z.shiftl 1 16) in
  let? _ := ckr "n_groups" (mamba_n_groups c) 1 (mamba_n_heads c) in
  let? _ := ckr "chunk_size" (mamba_chunk c) 1 (Z.shiftl 1 16) in
  let? _ := ckr "moe_latent_size" (moe_latent c) 1 (Z.shiftl 1 20) in
  let? _ := ckr "moe_shared_expert_intermediate_size" (shared_inter c) 1 (Z.shiftl 1 24) in
  if negb (Z.of_nat (length (layer_kind c)) =? u64 (n_layers c)) then
    RErr (Unsupported (bytes_of "nemotron_h: hybrid_override_pattern length " ++ print_int (Z.of_nat (length (layer_kind c))) ++
                       bytes_of " != num_hidden_layers " ++ print_int (n_layers c)))
  else ROk c.

(** ** Dispatch *)

Definition arch_is (r : Json) (name : string) : bool :=
  match get_arr r "architectures" with
  | Some a => existsb (fun v => str_is (as_str v) name) a
  | None => false
  end.

Definition from_json (r : Json) : res ConfigError Config :=
  let model_type := get_str r "model_type" in
  if str_is model_type "nemotron_h" || arch_is r "NemotronHForCausalLM" then from_json_nemotron r
  else if str_is model_type "minimax_m2" || arch_is r "MiniMaxM2ForCausalLM" then from_json_minimax r r MinimaxM2
  else if str_is model_type "deepseek_v4" || arch_is r "DeepseekV4ForCausalLM" then from_json_deepseek_v4 r
  else if str_is model_type "kimi_k3" || arch_is r "KimiK3ForConditionalGeneration" || arch_is r "KimiLinearForCausalLM"
  then from_json_kimi r (default r (get r "text_config"))
  else if str_is model_type "maple" || arch_is r "MapleForCausalLM" then from_json_maple r
  else if str_is model_type "minimax_m3_vl" || bool_decide (is_Some (get r "text_config"))
  then from_json_minimax r (default r (get r "text_config")) MinimaxM3
  else from_json_glm r.

(** The ids of [generation_config.json] join those of [config.json]. *)
Fixpoint merge_stop_ids (ids extra : list Z) : list Z :=
  match extra with
  | [] => ids
  | id :: extra =>
      if (MAX_STOP_IDS <=? length ids)%nat then ids
      else merge_stop_ids (if bool_decide (id ∈ ids) then ids else ids ++ [id]) extra
  end.

Definition with_stop_ids (c : Config) (ids : list Z) : Config :=
  {| hidden := hidden c; n_layers := n_layers c; n_heads := n_heads c; n_experts := n_experts c;
     topk := topk c; moe_inter := moe_inter c; dense_inter := dense_inter c; first_dense := first_dense c;
     q_lora := q_lora c; o_lora := o_lora c; o_groups := o_groups c; kv_lora := kv_lora c;
     qk_nope := qk_nope c; qk_rope := qk_rope c; qk_head := qk_head c; v_head := v_head c;
     n_shared := n_shared c; vocab := vocab c; max_ctx := max_ctx c; n_group := n_group c;
     topk_group := topk_group c; norm_topk := norm_topk c; stop_ids := ids; index_topk := index_topk c;
     index_nh := index_nh c; index_hd := index_hd c; index_block_size := index_block_size c;
     index_topk_blocks := index_topk_blocks c; index_local_blocks := index_local_blocks c;
     idx_type := idx_type c; eps := eps c; theta := theta c; attn_scale := attn_scale c;
     routed_scale := routed_scale c; arch := arch c; n_kv_heads := n_kv_heads c;
     shared_inter := shared_inter c; qk_norm := qk_norm c; gemma_norm := gemma_norm c;
     swiglu_oai := swiglu_oai c; swiglu_alpha := swiglu_alpha c; swiglu_limit := swiglu_limit c;
     compress_ratios := compress_ratios c; compress_theta := compress_theta c;
     n_hash_layers := n_hash_layers c; dspark_block := dspark_block c; dspark_noise_id := dspark_noise_id c;
     markov_rank := markov_rank c; dspark_targets := dspark_targets c; hc_mult := hc_mult c;
     hc_sinkhorn_iters := hc_sinkhorn_iters c; hc_eps := hc_eps c; window := window c;
     sigmoid_route := sigmoid_route c; router_score := router_score c; swa_window := swa_window c;
     layer_swa := layer_swa c; nope_on_global := nope_on_global c; layer_kind := layer_kind c;
     mtp_layer_kind := mtp_layer_kind c; mamba_d_state := mamba_d_state c; mamba_d_conv := mamba_d_conv c;
     mamba_n_heads := mamba_n_heads c; mamba_head_dim := mamba_head_dim c; mamba_n_groups := mamba_n_groups c;
     mamba_inter := mamba_inter c; mamba_chunk := mamba_chunk c; moe_latent := moe_latent c; relu2 := relu2 c;
     mamba_dt_min := mamba_dt_min c; kda_n_heads := kda_n_heads c; kda_head_dim := kda_head_dim c;
     situ := situ c; situ_beta := situ_beta c; situ_linear_beta := situ_linear_beta c; mla_nope := mla_nope c;
     kda_d_conv := kda_d_conv c; attn_res_block_size := attn_res_block_size c |}.

(** [text], [gtext]: the two files, [None] unreadable; [path] as displayed. *)
Definition load (path : list Z) (text gtext : option (list Z)) : res ConfigError Config :=
  let? text := ok_or Io text in
  let? root := unwrap (parse text) in
  let? root := ok_or (Parse (path ++ bytes_of ": empty or invalid")) root in
  let? cfg := from_json root in
  match gtext with
  | None => ROk cfg
  | Some gtext =>
      let? gc := unwrap (parse gtext) in
      match gc with
      | Some gc => ROk (with_stop_ids cfg (merge_stop_ids (stop_ids cfg) (parse_stop_ids gc [])))
      | None => ROk cfg
      end
  end.

(** ** Queries *)

Definition is_moe (k : LayerKind) : bool := match k with Moe => true | _ => false end.

Fixpoint position_moe (l : list LayerKind) : option nat :=
  match l with
  | [] => None
  | k :: l => if is_moe k then Some 0%nat else let* i := position_moe l in Some (S i)
  end.

Definition moe_layers (c : Config) : Z * Z :=
  match position_moe (layer_kind c) with
  | Some idx => (Z.of_nat (length (List.filter is_moe (layer_kind c))), Z.of_nat idx)
  | None => (Z.max (i32 (n_layers c - first_dense c)) 0, Z.max (first_dense c) 0)
  end.

Definition layer_is_swa (c : Config) (i : nat) : bool :=
  (0 <? swa_window c) && default false (layer_swa c !! i).

Definition layer_uses_rope (c : Config) (i : nat) : bool := negb (nope_on_global c) || layer_is_swa c i.

Definition layer_kv_span (c : Config) (i : nat) (ctx : Z) : Z :=
  if layer_is_swa c i then Z.min ctx (Z.max (swa_window c) 0) else ctx.

Definition mtp_head_layers (c : Config) : nat := Nat.max (length (mtp_layer_kind c)) 1.

(** ** Checks *)

Lemma ckr_spec name v lo hi :
  (ckr name v lo hi = ROk tt /\ lo <= v <= hi) \/ (ckr name v lo hi = RErr (Range name v lo hi) /\ (v < lo \/ hi < v)).
Proof. unfold ckr. destruct (Z.ltb_spec v lo), (Z.ltb_spec hi v); simpl; [right..|left]; lia || (split; [done|lia]). Qed.

(** Splits a conjunction down to what the hypotheses say. *)
Ltac conj := repeat match goal with |- _ /\ _ => first [assumption | split] end; try done.

(** What a loader may answer. *)
Definition answer (x : res ConfigError Config) (P : Config -> Prop) : Prop :=
  match x with
  | ROk c => P c
  | RErr (Range _ v lo hi) => v < lo \/ hi < v
  | RErr (Unsupported _) => True
  | RErr _ | RPanic => False
  end.

(** One check at a time: either it passes and its bounds are known, or the
    answer is its error. *)
Ltac ckr_step :=
  match goal with
  | |- context [ckr ?n ?v ?lo ?hi] => destruct (ckr_spec n v lo hi) as [[-> ?]|[-> ?]]; [|assumption]
  end.

Record common_ok (c : Config) : Prop := {
  co_hidden : 1 <= hidden c <= Z.shiftl 1 20;
  co_layers : 1 <= n_layers c <= 128;
  co_heads : 1 <= n_heads c <= 1024;
  co_experts : 1 <= n_experts c <= 4096;
  co_topk : 1 <= topk c <= 64;
  co_moe_inter : 1 <= moe_inter c <= Z.shiftl 1 20;
  co_dense_inter : (if 0 <? first_dense c then 1 else 0) <= dense_inter c <= Z.shiftl 1 24;
  co_first_dense : 0 <= first_dense c <= n_layers c;
  co_v_head : 1 <= v_head c <= Z.shiftl 1 16;
  co_shared : 0 <= n_shared c <= 64;
  co_vocab : 1 <= vocab c <= Z.shiftl 1 24
}.

(** The rest of a loader runs only on a config that passed the common checks. *)
Lemma validate_then c (k : res ConfigError Config) P :
  (common_ok c -> answer k P) -> answer (let? _ := validate_common c in k) P.
Proof.
  intros Hk. unfold validate_common. do 6 ckr_step.
  destruct (0 <? first_dense c) eqn:Hf; do 5 ckr_step; apply Hk; (split; [assumption..| | | | |]; try assumption; by rewrite Hf).
Qed.

Lemma layers_capped_id n : 1 <= n <= 128 -> Z.of_nat (layers_capped n) = n.
Proof. unfold layers_capped, MAX_LAYERS_IDX. lia. Qed.

Lemma parse_stop_ids_cap r out : (length (parse_stop_ids r out) <= length out + MAX_STOP_IDS)%nat.
Proof.
  assert (Ho : forall (f : Json -> option Z) l, (length (omap f l) <= length l)%nat).
  { intros f l. induction l as [|x l IH]; [done|]. change (omap f (x :: l)) with (match f x with Some y => y :: omap f l | None => omap f l end).
    destruct (f x); simpl; lia. }
  unfold parse_stop_ids, MAX_STOP_IDS. destruct (get r "eos_token_id") as [[]|]; rewrite ?length_app; simpl; try lia.
  pose proof (Ho (fun v => let* id := as_i64 v in Some (i32 id)) (take 8 a)). rewrite length_take in *. lia.
Qed.

Lemma minimax_stop_ids_cap r t : (length (minimax_stop_ids r t) <= MAX_STOP_IDS)%nat.
Proof.
  unfold minimax_stop_ids. pose proof (parse_stop_ids_cap t []) as Ht. destruct (Nat.eqb_spec (length (parse_stop_ids t [])) 0) as [H0|]; [|exact Ht].
  pose proof (parse_stop_ids_cap r (parse_stop_ids t [])). lia.
Qed.

Lemma i32_sum a b : 1 <= a <= Z.shiftl 1 16 -> 1 <= b <= Z.shiftl 1 16 -> i32 (a + b) = a + b.
Proof. change (Z.shiftl 1 16) with 65536. intros. apply wrap_i_id; [lia|]. unfold in_i. lia. Qed.

Lemma i32_in z : in_i 32 (i32 z).
Proof. apply wrap_i_in. lia. Qed.

Lemma i32_rotary h r : 1 <= h <= Z.shiftl 1 16 -> 1 <= r <= h -> i32 (h - r) + r = h.
Proof. change (Z.shiftl 1 16) with 65536. intros. rewrite wrap_i_id; [lia|lia|]. unfold in_i. lia. Qed.

(** The grouped-query geometry shared by the MiniMax and Maple families. *)
Record gqa_ok (c : Config) : Prop := {
  gq_head : 1 <= qk_head c <= Z.shiftl 1 16;
  gq_v : v_head c = qk_head c;
  gq_rope : 1 <= qk_rope c <= qk_head c;
  gq_nope : qk_nope c + qk_rope c = qk_head c;
  gq_kv : 1 <= n_kv_heads c <= n_heads c
}.

Record mla_ok (c : Config) : Prop := {
  ml_kv : 1 <= kv_lora c <= Z.shiftl 1 20;
  ml_q : 0 <= q_lora c <= Z.shiftl 1 20;
  ml_nope : 1 <= qk_nope c <= Z.shiftl 1 16;
  ml_rope : 1 <= qk_rope c <= Z.shiftl 1 16;
  ml_head : qk_head c = qk_nope c + qk_rope c
}.

Record mamba_ok (c : Config) : Prop := {
  mb_state : 1 <= mamba_d_state c <= Z.shiftl 1 16;
  mb_conv : 1 <= mamba_d_conv c <= 64;
  mb_heads : 1 <= mamba_n_heads c <= Z.shiftl 1 16;
  mb_head_dim : 1 <= mamba_head_dim c <= Z.shiftl 1 16;
  mb_groups : 1 <= mamba_n_groups c <= mamba_n_heads c;
  mb_chunk : 1 <= mamba_chunk c <= Z.shiftl 1 16
}.

(** What each architecture guarantees beyond the common bounds. *)
Definition arch_ok (c : Config) : Prop :=
  match arch c with
  | GlmMoeDsa =>
      mla_ok c /\ n_group c = 1 /\ 0 <= index_topk c <= Z.shiftl 1 20 /\ 0 <= index_nh c <= 1024 /\
      0 <= index_hd c <= Z.shiftl 1 16 /\ Z.of_nat (length (idx_type c)) = n_layers c /\ layer_kind c = []
  | MinimaxM3 | MinimaxM2 =>
      gqa_ok c /\ 0 <= shared_inter c <= Z.shiftl 1 24 /\ Z.of_nat (length (idx_type c)) = n_layers c /\ layer_kind c = []
  | Maple =>
      gqa_ok c /\ 0 <= swa_window c <= Z.shiftl 1 24 /\ Z.of_nat (length (layer_swa c)) = n_layers c /\ layer_kind c = []
  | KimiK3 =>
      Z.of_nat (length (layer_kind c)) = n_layers c /\ Attn ∈ layer_kind c /\
      Forall (fun k => k = Attn \/ k = Kda) (layer_kind c) /\
      1 <= kda_n_heads c <= Z.shiftl 1 16 /\ 1 <= kda_head_dim c <= Z.shiftl 1 16 /\ 1 <= kda_d_conv c <= Z.shiftl 1 8 /\
      0 <= moe_latent c <= Z.shiftl 1 24 /\ 1 <= kv_lora c <= Z.shiftl 1 16 /\ 1 <= attn_res_block_size c <= Z.shiftl 1 16
  | NemotronH =>
      Z.of_nat (length (layer_kind c)) = n_layers c /\ mamba_ok c /\ 1 <= qk_head c <= Z.shiftl 1 16 /\
      v_head c = qk_head c /\ 1 <= n_kv_heads c <= n_heads c /\ 1 <= moe_latent c <= Z.shiftl 1 20 /\
      1 <= shared_inter c <= Z.shiftl 1 24 /\ first_dense c = 0
  | DeepseekV4 => layer_kind c = [] /\ first_dense c = 0
  end.

Definition config_ok (c : Config) : Prop :=
  (arch c <> DeepseekV4 -> common_ok c) /\ arch_ok c /\ (length (stop_ids c) <= MAX_STOP_IDS)%nat.

Lemma glm_ok r : answer (from_json_glm r) (fun c => config_ok c /\ arch c = GlmMoeDsa).
Proof.
  unfold from_json_glm. destruct (Z.eqb_spec (n_group (glm_config r)) 1) as [Hg|]; [|done]. cbn [negb].
  apply validate_then. intros Hc. do 7 ckr_step. simpl. unfold config_ok. split; [|done]. split_and!; [done| |apply (parse_stop_ids_cap r [])].
  unfold arch_ok. cbn [arch glm_config]. conj.
  - split; try done. by apply i32_sum.
  - cbn [glm_config idx_type n_layers]. unfold glm_idx_type. rewrite length_map, length_seq. apply layers_capped_id, Hc.
Qed.

Lemma minimax_ok r t a : a = MinimaxM3 \/ a = MinimaxM2 ->
  answer (from_json_minimax r t a) (fun c => config_ok c /\ arch c = a).
Proof.
  intros Ha. unfold from_json_minimax. apply validate_then. intros Hc. do 4 ckr_step. simpl. unfold config_ok. split; [|done].
  split_and!; [done| |apply minimax_stop_ids_cap]. unfold arch_ok. cbn [arch minimax_config].
  assert (Hok : gqa_ok (minimax_config r t a) /\ 0 <= shared_inter (minimax_config r t a) <= Z.shiftl 1 24 /\
    Z.of_nat (length (idx_type (minimax_config r t a))) = n_layers (minimax_config r t a) /\ layer_kind (minimax_config r t a) = []).
  { conj.
    - split; try done. by apply i32_rotary.
    - unfold minimax_config. cbn [idx_type n_layers]. unfold minimax_idx_type.
      destruct Hc as [_ Hl _ _ _ _ _ _ _ _ _]. cbn [n_layers minimax_config] in Hl.
      destruct (let* s := get t "sparse_attention_config" in _); [rewrite length_map, length_seq|rewrite length_replicate]; by apply layers_capped_id. }
  by destruct Ha as [-> | ->].
Qed.

Lemma maple_ok r : answer (from_json_maple r) (fun c => config_ok c /\ arch c = Maple).
Proof.
  unfold from_json_maple. apply validate_then. intros Hc. do 4 ckr_step. simpl. unfold config_ok. split; [|done].
  split_and!; [done| |apply (parse_stop_ids_cap r [])]. unfold arch_ok. cbn [arch maple_config]. conj.
  - split; try done. by apply i32_rotary.
  - unfold maple_config. cbn [layer_swa n_layers]. unfold maple_layer_swa.
    destruct Hc as [_ Hl _ _ _ _ _ _ _ _ _]. cbn [n_layers maple_config] in Hl.
    destruct (get_arr r "layer_types"); [rewrite length_map, length_seq|rewrite length_replicate]; by apply layers_capped_id.
Qed.

Lemma kimi_ok r t : answer (from_json_kimi r t) (fun c => config_ok c /\ arch c = KimiK3).
Proof.
  unfold from_json_kimi. apply validate_then. intros Hc. destruct (Z.eqb_spec (Z.of_nat (length (layer_kind (kimi_config r t)))) (u64 (n_layers (kimi_config r t)))) as [Hl|]; [|done].
  cbn [negb]. case_bool_decide as Hattn; [|done]. cbn [negb]. do 6 ckr_step. simpl. unfold config_ok. split; [|done].
  split_and!; [done| |apply minimax_stop_ids_cap]. unfold arch_ok. cbn [arch kimi_config].
  rewrite wrap_id in Hl by (unfold in_u; destruct Hc; lia). conj.
  cbn [kimi_config layer_kind]. unfold kimi_layer_kind. apply Forall_fmap, Forall_true. intros i. simpl. case_bool_decide; auto.
Qed.

Lemma hybrid_answer fuel pattern field : exists x, hybrid_fuel fuel pattern field = x /\
  match x with ROk _ | RErr (Unsupported _) => True | _ => False end.
Proof.
  eexists. split; [reflexivity|]. revert pattern. induction fuel as [|fuel IH]; intros [|c l]; try exact I. cbn [hybrid_fuel].
  specialize (IH l). destruct (hybrid_fuel fuel l field) as [|[]|]; try done; by repeat case_match.
Qed.

Lemma nemotron_ok r : answer (from_json_nemotron r) (fun c => config_ok c /\ arch c = NemotronH).
Proof.
  unfold from_json_nemotron, parse_hybrid_pattern.
  destruct (hybrid_answer (length (default [] (get_str r "hybrid_override_pattern"))) (default [] (get_str r "hybrid_override_pattern")) "hybrid_override_pattern") as (x & -> & Hx).
  destruct x as [ks|[]|]; try done.
  destruct (hybrid_answer (length (default [] (get_str r "mtp_hybrid_override_pattern"))) (default [] (get_str r "mtp_hybrid_override_pattern")) "mtp_hybrid_override_pattern") as (y & -> & Hy).
  destruct y as [ms|[]|]; try done. apply validate_then. intros Hc. do 10 ckr_step.
  destruct (Z.eqb_spec (Z.of_nat (length (layer_kind (nemotron_config r ks ms)))) (u64 (n_layers (nemotron_config r ks ms)))) as [Hl|]; [|done].
  cbn [negb]. simpl. unfold config_ok. split; [|done].
  split_and!; [done| |apply (parse_stop_ids_cap r [])]. unfold arch_ok. cbn [arch nemotron_config].
  rewrite wrap_id in Hl by (unfold in_u; destruct Hc; lia). conj.
Qed.

Lemma deepseek_ok r : config_ok (deepseek_config r) /\ arch (deepseek_config r) = DeepseekV4.
Proof. split; [|done]. split_and!; [done|done|apply (parse_stop_ids_cap r [])]. Qed.

Lemma answer_impl x (P Q : Config -> Prop) : (forall c, P c -> Q c) -> answer x P -> answer x Q.
Proof. destruct x as [c|[]|]; simpl; auto. Qed.

Lemma from_json_answer r : answer (from_json r) config_ok.
Proof.
  assert (H : forall (x : res ConfigError Config) a, answer x (fun c => config_ok c /\ arch c = a) -> answer x config_ok)
    by (intros x a; apply answer_impl; tauto).
  unfold from_json. repeat match goal with |- context [if ?b then _ else _] => destruct b end.
  - eapply H, nemotron_ok.
  - eapply H, minimax_ok; auto.
  - apply deepseek_ok.
  - eapply H, kimi_ok.
  - eapply H, maple_ok.
  - eapply H, minimax_ok; auto.
  - eapply H, glm_ok.
Qed.

(** C32: the validation choke point.  On any parsed [config.json] the loader
    returns; a range error names a value that really is outside its bounds; and
    a config it accepts has at most eight stop ids; on every architecture but
    DeepSeek-V4, which has no checks at all, the common dimensions lie in their
    ranges, and so do those the architecture's own parser checks, with its
    geometry consistent (rotary and unrotated parts add up to the head, head
    counts divide as grouped, per-layer tables are as long as the stack, a Kimi
    stack has a full-attention layer).  What is not checked is not claimed: the
    widths [qk_nope], [qk_rope] and [q_lora] of Kimi-K3 may even be negative
    ([kimi_negative_heads]). *)
Theorem from_json_valid r :
  match from_json r with
  | ROk c => config_ok c
  | RErr (Range _ v lo hi) => v < lo \/ hi < v
  | RErr (Unsupported _) => True
  | RErr Io | RErr (Parse _) | RPanic => False
  end.
Proof. pose proof (from_json_answer r) as H. destruct (from_json r) as [c|[]|]; exact H. Qed.

(** ** Stop ids *)

Lemma merge_prefix extra : forall ids, ids `prefix_of` merge_stop_ids ids extra.
Proof.
  induction extra as [|id extra IH]; intros ids; cbn [merge_stop_ids]; [done|].
  destruct (_ <=? _)%nat; [done|]. case_bool_decide; [apply IH|]. etrans; [by apply prefix_app_r|apply IH].
Qed.

Lemma merge_spec extra : forall ids,
  (length (merge_stop_ids ids extra) <= Nat.max (length ids) MAX_STOP_IDS)%nat /\
  (forall id, id ∈ merge_stop_ids ids extra -> id ∈ ids \/ id ∈ extra) /\
  (forall id, id ∈ extra -> id ∈ merge_stop_ids ids extra \/ (MAX_STOP_IDS <= length (merge_stop_ids ids extra))%nat) /\
  (NoDup ids -> NoDup (merge_stop_ids ids extra)).
Proof.
  induction extra as [|id extra IH]; intros ids; cbn [merge_stop_ids].
  { split_and!; [lia|by left|by intros id ?%not_elem_of_nil|done]. }
  destruct (Nat.leb_spec MAX_STOP_IDS (length ids)) as [Hf|Hf].
  { split_and!; [lia|by left|by right|done]. }
  set (ids' := if bool_decide (id ∈ ids) then ids else ids ++ [id]).
  destruct (IH ids') as (H1 & H2 & H3 & H4).
  assert (Hid : id ∈ ids') by (unfold ids'; case_bool_decide; [done|]; apply elem_of_app; right; left).
  assert (Hlen : (length ids' <= S (length ids))%nat) by (unfold ids'; case_bool_decide; rewrite ?length_app; simpl; lia).
  split_and!.
  - lia.
  - intros x [Hx|Hx]%H2; [|right; by right]. unfold ids' in Hx. case_bool_decide; [by left|].
    apply elem_of_app in Hx as [?|Hx]; [by left|]. apply list_elem_of_singleton in Hx as ->. right. left.
  - intros x [->|Hx]%elem_of_cons; [|by apply H3]. left. destruct (merge_prefix extra ids') as [k ->].
    apply elem_of_app. by left.
  - intros Hnd. apply H4. unfold ids'. case_bool_decide; [done|]. apply NoDup_app. split_and!; [done| |apply NoDup_singleton].
    intros x Hx ->%list_elem_of_singleton. done.
Qed.

(** C33: loading reads both files or says why not.  An unreadable config is the
    I/O error, an empty one the parse error, and otherwise the answer is that of
    the config's root, whatever the generation config holds.  The stop ids of an
    accepted config start with those of [config.json]; an id of the generation
    config is added unless it is there already or the eight places are taken,
    and no other id is. *)
Theorem load_answer path text gtext :
  match load path text gtext with
  | RErr Io => text = None
  | RErr (Parse _) => text = Some []
  | RErr e => exists s root, text = Some s /\ parse s = Some (Some root) /\ from_json root = RErr e
  | RPanic => False
  | ROk c =>
      exists s root c0, text = Some s /\ parse s = Some (Some root) /\ from_json root = ROk c0 /\
        c = with_stop_ids c0 (stop_ids c) /\ stop_ids c0 `prefix_of` stop_ids c /\
        (length (stop_ids c) <= MAX_STOP_IDS)%nat /\
        forall g gc, gtext = Some g -> parse g = Some (Some gc) ->
          (forall id, id ∈ stop_ids c -> id ∈ stop_ids c0 \/ id ∈ parse_stop_ids gc []) /\
          (forall id, id ∈ parse_stop_ids gc [] -> id ∈ stop_ids c \/ length (stop_ids c) = MAX_STOP_IDS)
  end.
Proof.
  unfold load. destruct text as [s|]; [|done]. cbn [ok_or].
  destruct (parse_total s) as [[-> ->]|[_ [root Hroot]]]; [done|]. rewrite Hroot. cbn [unwrap ok_or].
  pose proof (from_json_valid root) as Hv. destruct (from_json root) as [c0|e|] eqn:Hc; [|by destruct e; try done; exists s, root|done].
  assert (Hid : c0 = with_stop_ids c0 (stop_ids c0)) by by destruct c0. destruct Hv as (_ & _ & Hcap).
  destruct gtext as [g|].
  2:{ exists s, root, c0. by split_and!. }
  destruct (parse_total g) as [[-> Hg]|[_ [gc Hg]]].
  { rewrite Hg. cbn [unwrap]. exists s, root, c0. split_and!; try done. intros g gc [= <-]. by rewrite Hg. }
  rewrite Hg. cbn [unwrap]. destruct (merge_spec (parse_stop_ids gc []) (stop_ids c0)) as (H1 & H2 & H3 & _).
  exists s, root, c0. cbn [with_stop_ids stop_ids]. split_and!; try done.
  - apply merge_prefix.
  - lia.
  - intros g' gc' [= <-]. rewrite Hg. intros [= <-]. split; [exact H2|]. intros id [?|?]%H3; [by left|right; lia].
Qed.

(** ** The layers of an accepted config *)

Lemma position_moe_spec l :
  match position_moe l with
  | Some i => l !! i = Some Moe /\ (1 <= length (List.filter is_moe l) /\ length (List.filter is_moe l) + i <= length l)%nat /\
      forall j k, l !! j = Some k -> is_moe k = true -> (i <= j)%nat
  | None => Forall (fun k => is_moe k = false) l
  end.
Proof.
  induction l as [|k l IH]; simpl; [constructor|]. pose proof (List.filter_length_le is_moe l).
  destruct (is_moe k) eqn:Hk; simpl.
  - destruct k; try done. split_and!; [done|lia|lia|intros; lia].
  - destruct (position_moe l) as [i|]; [|by constructor]. destruct IH as (Hi & Hr & Hmin). simpl.
    split_and!; [done|lia|lia|]. intros [|j] k' Hj Hk'; simpl in Hj; [congruence|].
    specialize (Hmin j k' Hj Hk'). lia.
Qed.

(** What the cache is sized from.  In an accepted config other than
    DeepSeek-V4 the mixture-of-experts layers reported lie in the stack: they
    are the marked layers of a hybrid stack, the first one reported being the
    first marked, and the layers after the dense prefix of any other; and the
    span of keys and values a layer needs never exceeds the context, is the
    whole context on every layer without a sliding window, and is the window at
    most on the others. *)
Theorem layers_consistent r c i ctx :
  from_json r = ROk c -> arch c <> DeepseekV4 -> 0 <= ctx ->
  (let '(n, first) := moe_layers c in
   0 <= n /\ 0 <= first /\ n + first <= n_layers c /\
   (arch c = NemotronH -> n = Z.of_nat (length (List.filter is_moe (layer_kind c))) \/ n = n_layers c) /\
   (arch c <> NemotronH -> n = n_layers c - first_dense c /\ first = first_dense c)) /\
  0 <= layer_kv_span c i ctx <= ctx /\
  (arch c <> Maple -> swa_window c = 0 -> layer_kv_span c i ctx = ctx) /\
  (layer_is_swa c i = true -> layer_kv_span c i ctx <= swa_window c).
Proof.
  intros Hr Ha Hctx. pose proof (from_json_valid r) as Hv. rewrite Hr in Hv. destruct Hv as (Hc & Harch & _).
  destruct (Hc Ha) as [_ Hl _ _ _ _ _ Hf _ _ _]. split_and!.
  - unfold moe_layers. pose proof (position_moe_spec (layer_kind c)) as Hp. unfold arch_ok in Harch.
    destruct (position_moe (layer_kind c)) as [idx|].
    + destruct Hp as (Hm & Hr' & _). assert (HN : arch c = NemotronH).
      { destruct (arch c) eqn:HA; try done; [destruct Harch as (_ & _ & _ & _ & _ & _ & Hk)|destruct Harch as (_ & _ & _ & Hk)
          |destruct Harch as (_ & _ & _ & Hk)|destruct Harch as (_ & _ & Hk & _)|destruct Harch as (_ & _ & _ & Hk)];
          try (by rewrite Hk in Hm). exfalso. rewrite Forall_forall in Hk.
        destruct (Hk Moe) as [?|?]; [by eapply list_elem_of_lookup_2|done|done]. }
      rewrite HN in Harch |- *. destruct Harch as (Hlen & _). split_and!; [lia|lia|lia|by left|done].
    + assert (Hw : i32 (n_layers c - first_dense c) = n_layers c - first_dense c).
      { apply wrap_i_id; [lia|]. unfold in_i. lia. }
      rewrite Hw. split_and!; [lia|lia|lia| |lia].
      intros HN. rewrite HN in Harch. destruct Harch as (_ & _ & _ & _ & _ & _ & _ & Hfd). right. lia.
  - unfold layer_kv_span. destruct (layer_is_swa c i); lia.
  - unfold layer_kv_span. destruct (layer_is_swa c i); lia.
  - intros _ Hz. unfold layer_kv_span, layer_is_swa. by rewrite Hz.
  - unfold layer_kv_span. destruct (layer_is_swa c i) eqn:Hs; [|done]. intros _. unfold layer_is_swa in Hs. lia.
Qed.

(** A DeepSeek-V4 config is accepted whatever its dimensions: negative widths
    and an empty model pass the choke point. *)
Lemma deepseek_unchecked r : str_is (get_str r "model_type") "deepseek_v4" = true ->
  arch_is r "NemotronHForCausalLM" = false -> arch_is r "MiniMaxM2ForCausalLM" = false ->
  from_json r = ROk (deepseek_config r).
Proof.
  intros Hm H1 H2. unfold from_json. rewrite Hm, H1, H2. apply bool_decide_eq_true in Hm. rewrite Hm. reflexivity.
Qed.

(** ** Witnesses *)

Definition members (l : list (string * doc)) : doc := DObj (map (fun kv => (bytes_of (fst kv), snd kv)) l).

Definition glm_small : doc := members
  [("hidden_size", DInt 64); ("num_hidden_layers", DInt 3); ("num_attention_heads", DInt 4); ("n_routed_experts", DInt 8);
   ("num_experts_per_tok", DInt 2); ("moe_intermediate_size", DInt 16); ("intermediate_size", DInt 32);
   ("first_k_dense_replace", DInt 1); ("kv_lora_rank", DInt 8); ("qk_nope_head_dim", DInt 8); ("qk_rope_head_dim", DInt 4);
   ("v_head_dim", DInt 8); ("vocab_size", DInt 100); ("n_group", DInt 1); ("eos_token_id", DArr [DInt 2; DInt 7])]%string.
Definition glm_small_config : Config := match from_json (value glm_small) with ROk c => c | _ => glm_config Null end.

Example glm_small_loads :
  match load [] (Some (print glm_small)) (Some (print (members [("eos_token_id", DArr [DInt 7; DInt 9])])%string)) with
  | ROk c => stop_ids c = [2; 7; 9] /\ moe_layers c = (2, 1) /\ arch c = GlmMoeDsa
  | _ => False
  end.
Proof. vm_compute. split_and!; reflexivity. Qed.

Example glm_refused :
  from_json (value (members [("n_group", DInt 1); ("hidden_size", DInt (-5))])%string) = RErr (Range "hidden_size" (-5) 1 1048576).
Proof. vm_compute. reflexivity. Qed.

Example deepseek_negative :
  match load [] (Some (print (members [("model_type", DStr (bytes_of "deepseek_v4")); ("hidden_size", DInt (-5))])%string)) None with
  | ROk c => hidden c = -5 /\ n_layers c = 0 /\ vocab c = 0
  | _ => False
  end.
Proof. vm_compute. split_and!; reflexivity. Qed.

(** Kimi-K3's reader checks no query width: not the unrotated part, nor the
    rotated one, nor the rank of the query projection. *)
Definition kimi_headless : Json :=
  value (members [("model_type", DStr (bytes_of "kimi_k3")); ("hidden_size", DInt 8); ("num_hidden_layers", DInt 1); ("num_attention_heads", DInt 1);
    ("num_experts", DInt 1); ("num_experts_per_token", DInt 1); ("moe_intermediate_size", DInt 1); ("intermediate_size", DInt 8);
    ("v_head_dim", DInt 1); ("vocab_size", DInt 8); ("kv_lora_rank", DInt 1); ("attn_res_block_size", DInt 1);
    ("qk_nope_head_dim", DInt (-5)); ("qk_rope_head_dim", DInt (-3)); ("q_lora_rank", DInt (-1));
    ("linear_attn_config", DObj [(bytes_of "num_heads", DInt 1); (bytes_of "head_dim", DInt 1); (bytes_of "short_conv_kernel_size", DInt 1);
       (bytes_of "full_attn_layers", DArr [DInt 1])])]%string).
Theorem kimi_negative_heads : exists c, from_json kimi_headless = ROk c /\ qk_nope c = -5 /\ qk_rope c = -3 /\ q_lora c = -1 /\ qk_head c = -8.
Proof. eexists. split; [vm_compute; reflexivity|]. vm_compute. by split_and!. Qed.

Lemma glm_small_ok : from_json (value glm_small) = ROk glm_small_config.
Proof. vm_compute. reflexivity. Qed.

Lemma glm_small_arch : arch glm_small_config <> DeepseekV4.
Proof. vm_compute. discriminate. Qed.

Lemma layers_consistent_witness : 0 <= layer_kv_span glm_small_config 1 1000 <= 1000.
Proof.
  destruct (layers_consistent (value glm_small) glm_small_config 1 1000 glm_small_ok glm_small_arch ltac:(lia)) as (_ & H & _).
  exact H.
Defined.
