(* ===== verification/Model.v ===== *)
(** * The loaded model ([crates/colibri-engine/src/model.rs])

    [Layer] with every weight any architecture has, the draft heads and
    [Model]; what is counted as resident, against the weights there are; and
    [mark_gpu_eligible] of [crates/colibri-engine/src/lib.rs]. *)

From Stdlib Require Import ZifyBool SpecFloat.
From S2P Require Import Prelude DType Math Linear Json Safetensors Config.
Local Open Scope Z_scope.

(** ** Data *)

Record Layer := {
  l_in_ln : list f32; l_post_ln : list f32; l_q_a : QTensor; l_q_b : QTensor; l_kv_a : QTensor;
  l_kv_b : QTensor; l_o : QTensor; l_q_a_ln : list f32; l_kv_a_ln : list f32; l_o_a : option QTensor;
  l_o_b : option QTensor; l_o_a_groups : list QTensor; l_attn_sink : list f32; l_idx_wq_b : option QTensor;
  l_idx_wproj : option QTensor; l_idx_comp_wkv : option QTensor; l_idx_comp_wgate : option QTensor;
  l_idx_comp_ape : list f32; l_idx_comp_norm : list f32; l_comp_ratio : Z; l_comp_wkv : option QTensor;
  l_comp_wgate : option QTensor; l_comp_ape : list f32; l_comp_norm : list f32; l_tid2eid : list Z;
  l_hc_attn_fn : list f32; l_hc_attn_base : list f32; l_hc_attn_scale : list f32; l_hc_ffn_fn : list f32;
  l_hc_ffn_base : list f32; l_hc_ffn_scale : list f32; l_q_proj : option QTensor; l_k_proj : option QTensor;
  l_v_proj : option QTensor; l_qkv_proj : option QTensor; l_q_norm : list f32; l_k_norm : list f32;
  l_idx_q_proj : option QTensor; l_idx_k_proj : option QTensor; l_idx_q_norm : list f32;
  l_idx_k_norm : list f32; l_sparse : bool; l_gate_proj : QTensor; l_up_proj : QTensor; l_down_proj : QTensor;
  l_router : list f32; l_router_bias : list f32; l_sh_gate : QTensor; l_sh_up : QTensor; l_sh_down : QTensor;
  l_ix_wk : option QTensor; l_ix_wq : option QTensor; l_ix_wp : option QTensor; l_ix_knorm_w : list f32;
  l_ix_knorm_b : list f32; l_mamba_in_proj : option QTensor; l_mamba_out_proj : option QTensor;
  l_mamba_conv_w : list f32; l_mamba_conv_b : list f32; l_mamba_a_log : list f32; l_mamba_d : list f32;
  l_mamba_dt_bias : list f32; l_mamba_norm : list f32; l_fc1_latent : option QTensor;
  l_fc2_latent : option QTensor; l_attn_gate : option QTensor; l_kda_b_proj : option QTensor;
  l_kda_f_a : option QTensor; l_kda_f_b : option QTensor; l_kda_conv_q : list f32; l_kda_conv_k : list f32;
  l_kda_conv_v : list f32; l_kda_a_log : list f32; l_kda_dt_bias : list f32; l_kda_o_norm : list f32;
  l_attn_res_norm : list f32; l_attn_res_proj : list f32; l_mlp_res_norm : list f32; l_mlp_res_proj : list f32;
  l_routed_expert_norm : list f32
}.

Definition empty_layer : Layer := {|
  l_in_ln := []; l_post_ln := []; l_q_a := empty_qt; l_q_b := empty_qt; l_kv_a := empty_qt; l_kv_b := empty_qt;
  l_o := empty_qt; l_q_a_ln := []; l_kv_a_ln := []; l_o_a := None; l_o_b := None; l_o_a_groups := [];
  l_attn_sink := []; l_idx_wq_b := None; l_idx_wproj := None; l_idx_comp_wkv := None; l_idx_comp_wgate := None;
  l_idx_comp_ape := []; l_idx_comp_norm := []; l_comp_ratio := 0%Z; l_comp_wkv := None; l_comp_wgate := None;
  l_comp_ape := []; l_comp_norm := []; l_tid2eid := []; l_hc_attn_fn := []; l_hc_attn_base := [];
  l_hc_attn_scale := []; l_hc_ffn_fn := []; l_hc_ffn_base := []; l_hc_ffn_scale := []; l_q_proj := None;
  l_k_proj := None; l_v_proj := None; l_qkv_proj := None; l_q_norm := []; l_k_norm := []; l_idx_q_proj := None;
  l_idx_k_proj := None; l_idx_q_norm := []; l_idx_k_norm := []; l_sparse := false; l_gate_proj := empty_qt;
  l_up_proj := empty_qt; l_down_proj := empty_qt; l_router := []; l_router_bias := []; l_sh_gate := empty_qt;
  l_sh_up := empty_qt; l_sh_down := empty_qt; l_ix_wk := None; l_ix_wq := None; l_ix_wp := None;
  l_ix_knorm_w := []; l_ix_knorm_b := []; l_mamba_in_proj := None; l_mamba_out_proj := None;
  l_mamba_conv_w := []; l_mamba_conv_b := []; l_mamba_a_log := []; l_mamba_d := []; l_mamba_dt_bias := [];
  l_mamba_norm := []; l_fc1_latent := None; l_fc2_latent := None; l_attn_gate := None; l_kda_b_proj := None;
  l_kda_f_a := None; l_kda_f_b := None; l_kda_conv_q := []; l_kda_conv_k := []; l_kda_conv_v := [];
  l_kda_a_log := []; l_kda_dt_bias := []; l_kda_o_norm := []; l_attn_res_norm := []; l_attn_res_proj := [];
  l_mlp_res_norm := []; l_mlp_res_proj := []; l_routed_expert_norm := []
|}.

Record MtpBlock := { mb_layer : Layer; mb_kind : option LayerKind }.
Record MtpHead := {
  mtp_blocks : list MtpBlock; eh_proj : QTensor; enorm : list f32; hnorm : list f32; mtp_norm : list f32
}.
Record DsparkHead := {
  ds_stages : list Layer; ds_main_proj : option QTensor; ds_main_norm : list f32; ds_norm : list f32;
  ds_markov_w1 : option QTensor; ds_markov_w2 : option QTensor; ds_confidence : list f32;
  ds_hc_head_fn : list f32; ds_hc_head_base : list f32; ds_hc_head_scale : f32
}.
Record Model := {
  m_cfg : Config; m_shards : Shards; m_ebits : Z; m_dbits : Z; m_embed : QTensor; m_lm_head : QTensor;
  m_final_norm : list f32; m_layers : list Layer; m_output_attn_res_norm : list f32;
  m_output_attn_res_proj : list f32; m_hc_head_fn : list f32; m_hc_head_base : list f32; m_hc_head_scale : f32;
  m_has_dsa : bool; m_has_mtp : bool; m_mtp : option MtpHead; m_dspark : option DsparkHead
}.

(** ** Resident bytes

    Sums of [u64]s, below [2 ^ 64] for weights that exist. *)

Definition q_bytes (t : QTensor) : Z := Z.max (qt_bytes t) 0.
Definition oq_bytes (t : option QTensor) : Z := match t with Some t => q_bytes t | None => 0 end.
Definition v_bytes (x : list f32) : Z := Z.of_nat (length x) * 4.

Definition layer_resident_bytes (l : Layer) : Z :=
  (q_bytes (l_q_a l) + q_bytes (l_q_b l) + q_bytes (l_kv_a l) + q_bytes (l_kv_b l) + q_bytes (l_o l) +
   oq_bytes (l_o_a l) + oq_bytes (l_o_b l) + sumZ (map q_bytes (l_o_a_groups l)) +
   (Z.of_nat (length (l_tid2eid l)) * 4) + v_bytes (l_attn_sink l) + oq_bytes (l_idx_wq_b l) +
   oq_bytes (l_idx_wproj l) + oq_bytes (l_idx_comp_wkv l) + oq_bytes (l_idx_comp_wgate l) +
   v_bytes (l_idx_comp_ape l) + v_bytes (l_idx_comp_norm l) + oq_bytes (l_comp_wkv l) +
   oq_bytes (l_comp_wgate l) + v_bytes (l_comp_ape l) + v_bytes (l_comp_norm l) + v_bytes (l_hc_attn_fn l) +
   v_bytes (l_hc_attn_base l) + v_bytes (l_hc_attn_scale l) + v_bytes (l_hc_ffn_fn l) +
   v_bytes (l_hc_ffn_base l) + v_bytes (l_hc_ffn_scale l) + q_bytes (l_gate_proj l) + q_bytes (l_up_proj l) +
   q_bytes (l_down_proj l) + q_bytes (l_sh_gate l) + q_bytes (l_sh_up l) + q_bytes (l_sh_down l) +
   oq_bytes (l_q_proj l) + oq_bytes (l_k_proj l) + oq_bytes (l_v_proj l) + oq_bytes (l_qkv_proj l) +
   oq_bytes (l_idx_q_proj l) + oq_bytes (l_idx_k_proj l) + oq_bytes (l_ix_wk l) + oq_bytes (l_ix_wq l) +
   oq_bytes (l_ix_wp l) + oq_bytes (l_mamba_in_proj l) + oq_bytes (l_mamba_out_proj l) +
   oq_bytes (l_fc1_latent l) + oq_bytes (l_fc2_latent l) + oq_bytes (l_attn_gate l) +
   oq_bytes (l_kda_b_proj l) + oq_bytes (l_kda_f_a l) + oq_bytes (l_kda_f_b l) + v_bytes (l_in_ln l) +
   v_bytes (l_post_ln l) + v_bytes (l_q_a_ln l) + v_bytes (l_kv_a_ln l) + v_bytes (l_q_norm l) +
   v_bytes (l_k_norm l) + v_bytes (l_idx_q_norm l) + v_bytes (l_idx_k_norm l) + v_bytes (l_router l) +
   v_bytes (l_router_bias l) + v_bytes (l_ix_knorm_w l) + v_bytes (l_ix_knorm_b l) +
   v_bytes (l_mamba_conv_w l) + v_bytes (l_mamba_conv_b l) + v_bytes (l_mamba_a_log l) +
   v_bytes (l_mamba_d l) + v_bytes (l_mamba_dt_bias l) + v_bytes (l_mamba_norm l) + v_bytes (l_kda_conv_q l) +
   v_bytes (l_kda_conv_k l) + v_bytes (l_kda_conv_v l) + v_bytes (l_kda_a_log l) + v_bytes (l_kda_dt_bias l) +
   v_bytes (l_kda_o_norm l) + v_bytes (l_attn_res_norm l) + v_bytes (l_attn_res_proj l) +
   v_bytes (l_mlp_res_norm l) + v_bytes (l_mlp_res_proj l) + v_bytes (l_routed_expert_norm l))%Z.

Definition dspark_resident_bytes (d : DsparkHead) : Z :=
  sumZ (map layer_resident_bytes (ds_stages d)) +
  sumZ (map v_bytes [ds_main_norm d; ds_norm d; ds_confidence d; ds_hc_head_fn d; ds_hc_head_base d]) +
  sumZ (map oq_bytes [ds_main_proj d; ds_markov_w1 d; ds_markov_w2 d]).
Definition resident_bytes (m : Model) : Z :=
  q_bytes (m_embed m) + q_bytes (m_lm_head m) + v_bytes (m_final_norm m) +
  sumZ (map layer_resident_bytes (m_layers m)) +
  match m_dspark m with Some d => dspark_resident_bytes d | None => 0 end.

(** ** Marking *)

Definition eligible (t : QTensor) : QTensor :=
  {| fmt_code := fmt_code t; qt_qf := qt_qf t; qt_q8 := qt_q8 t; qt_q4 := qt_q4 t; qt_s := qt_s t; qt_bs := qt_bs t;
     qt_g := qt_g t; qt_o := qt_o t; qt_i := qt_i t; gpu_eligible := true |}.

Definition mark_layer_eligible (l : Layer) : Layer := {|
  l_in_ln := l_in_ln l; l_post_ln := l_post_ln l; l_q_a := eligible (l_q_a l); l_q_b := eligible (l_q_b l);
  l_kv_a := eligible (l_kv_a l); l_kv_b := eligible (l_kv_b l); l_o := eligible (l_o l);
  l_q_a_ln := l_q_a_ln l; l_kv_a_ln := l_kv_a_ln l; l_o_a := option_map eligible (l_o_a l);
  l_o_b := option_map eligible (l_o_b l); l_o_a_groups := map eligible (l_o_a_groups l);
  l_attn_sink := l_attn_sink l; l_idx_wq_b := option_map eligible (l_idx_wq_b l);
  l_idx_wproj := option_map eligible (l_idx_wproj l); l_idx_comp_wkv := option_map eligible (l_idx_comp_wkv l);
  l_idx_comp_wgate := option_map eligible (l_idx_comp_wgate l); l_idx_comp_ape := l_idx_comp_ape l;
  l_idx_comp_norm := l_idx_comp_norm l; l_comp_ratio := l_comp_ratio l;
  l_comp_wkv := option_map eligible (l_comp_wkv l); l_comp_wgate := option_map eligible (l_comp_wgate l);
  l_comp_ape := l_comp_ape l; l_comp_norm := l_comp_norm l; l_tid2eid := l_tid2eid l;
  l_hc_attn_fn := l_hc_attn_fn l; l_hc_attn_base := l_hc_attn_base l; l_hc_attn_scale := l_hc_attn_scale l;
  l_hc_ffn_fn := l_hc_ffn_fn l; l_hc_ffn_base := l_hc_ffn_base l; l_hc_ffn_scale := l_hc_ffn_scale l;
  l_q_proj := option_map eligible (l_q_proj l); l_k_proj := option_map eligible (l_k_proj l);
  l_v_proj := option_map eligible (l_v_proj l); l_qkv_proj := option_map eligible (l_qkv_proj l);
  l_q_norm := l_q_norm l; l_k_norm := l_k_norm l; l_idx_q_proj := option_map eligible (l_idx_q_proj l);
  l_idx_k_proj := option_map eligible (l_idx_k_proj l); l_idx_q_norm := l_idx_q_norm l;
  l_idx_k_norm := l_idx_k_norm l; l_sparse := l_sparse l; l_gate_proj := eligible (l_gate_proj l);
  l_up_proj := eligible (l_up_proj l); l_down_proj := eligible (l_down_proj l); l_router := l_router l;
  l_router_bias := l_router_bias l; l_sh_gate := eligible (l_sh_gate l); l_sh_up := eligible (l_sh_up l);
  l_sh_down := eligible (l_sh_down l); l_ix_wk := option_map eligible (l_ix_wk l);
  l_ix_wq := option_map eligible (l_ix_wq l); l_ix_wp := option_map eligible (l_ix_wp l);
  l_ix_knorm_w := l_ix_knorm_w l; l_ix_knorm_b := l_ix_knorm_b l;
  l_mamba_in_proj := option_map eligible (l_mamba_in_proj l);
  l_mamba_out_proj := option_map eligible (l_mamba_out_proj l); l_mamba_conv_w := l_mamba_conv_w l;
  l_mamba_conv_b := l_mamba_conv_b l; l_mamba_a_log := l_mamba_a_log l; l_mamba_d := l_mamba_d l;
  l_mamba_dt_bias := l_mamba_dt_bias l; l_mamba_norm := l_mamba_norm l;
  l_fc1_latent := option_map eligible (l_fc1_latent l); l_fc2_latent := option_map eligible (l_fc2_latent l);
  l_attn_gate := option_map eligible (l_attn_gate l); l_kda_b_proj := option_map eligible (l_kda_b_proj l);
  l_kda_f_a := option_map eligible (l_kda_f_a l); l_kda_f_b := option_map eligible (l_kda_f_b l);
  l_kda_conv_q := l_kda_conv_q l; l_kda_conv_k := l_kda_conv_k l; l_kda_conv_v := l_kda_conv_v l;
  l_kda_a_log := l_kda_a_log l; l_kda_dt_bias := l_kda_dt_bias l; l_kda_o_norm := l_kda_o_norm l;
  l_attn_res_norm := l_attn_res_norm l; l_attn_res_proj := l_attn_res_proj l;
  l_mlp_res_norm := l_mlp_res_norm l; l_mlp_res_proj := l_mlp_res_proj l;
  l_routed_expert_norm := l_routed_expert_norm l
|}.

(** ** What a layer holds

    Every weight field of the structure, in its order. *)

Inductive Weight :=
  | One (t : QTensor)
  | Opt (t : option QTensor)
  | Many (ts : list QTensor)
  | Vec (x : list f32)
  | Ids (x : list Z).
Definition weight_tensors (w : Weight) : list QTensor :=
  match w with One t => [t] | Opt (Some t) => [t] | Many ts => ts | _ => [] end.
Definition weight_bytes (w : Weight) : Z :=
  match w with
  | One t => q_bytes t
  | Opt t => oq_bytes t
  | Many ts => sumZ (map q_bytes ts)
  | Vec x => v_bytes x
  | Ids x => Z.of_nat (length x) * 4
  end.

Definition layer_weights (l : Layer) : list Weight := [
  Vec (l_in_ln l); Vec (l_post_ln l); One (l_q_a l); One (l_q_b l); One (l_kv_a l); One (l_kv_b l);
  One (l_o l); Vec (l_q_a_ln l); Vec (l_kv_a_ln l); Opt (l_o_a l); Opt (l_o_b l); Many (l_o_a_groups l);
  Vec (l_attn_sink l); Opt (l_idx_wq_b l); Opt (l_idx_wproj l); Opt (l_idx_comp_wkv l);
  Opt (l_idx_comp_wgate l); Vec (l_idx_comp_ape l); Vec (l_idx_comp_norm l); Opt (l_comp_wkv l);
  Opt (l_comp_wgate l); Vec (l_comp_ape l); Vec (l_comp_norm l); Ids (l_tid2eid l); Vec (l_hc_attn_fn l);
  Vec (l_hc_attn_base l); Vec (l_hc_attn_scale l); Vec (l_hc_ffn_fn l); Vec (l_hc_ffn_base l);
  Vec (l_hc_ffn_scale l); Opt (l_q_proj l); Opt (l_k_proj l); Opt (l_v_proj l); Opt (l_qkv_proj l);
  Vec (l_q_norm l); Vec (l_k_norm l); Opt (l_idx_q_proj l); Opt (l_idx_k_proj l); Vec (l_idx_q_norm l);
  Vec (l_idx_k_norm l); One (l_gate_proj l); One (l_up_proj l); One (l_down_proj l); Vec (l_router l);
  Vec (l_router_bias l); One (l_sh_gate l); One (l_sh_up l); One (l_sh_down l); Opt (l_ix_wk l);
  Opt (l_ix_wq l); Opt (l_ix_wp l); Vec (l_ix_knorm_w l); Vec (l_ix_knorm_b l); Opt (l_mamba_in_proj l);
  Opt (l_mamba_out_proj l); Vec (l_mamba_conv_w l); Vec (l_mamba_conv_b l); Vec (l_mamba_a_log l);
  Vec (l_mamba_d l); Vec (l_mamba_dt_bias l); Vec (l_mamba_norm l); Opt (l_fc1_latent l); Opt (l_fc2_latent l);
  Opt (l_attn_gate l); Opt (l_kda_b_proj l); Opt (l_kda_f_a l); Opt (l_kda_f_b l); Vec (l_kda_conv_q l);
  Vec (l_kda_conv_k l); Vec (l_kda_conv_v l); Vec (l_kda_a_log l); Vec (l_kda_dt_bias l); Vec (l_kda_o_norm l);
  Vec (l_attn_res_norm l); Vec (l_attn_res_proj l); Vec (l_mlp_res_norm l); Vec (l_mlp_res_proj l);
  Vec (l_routed_expert_norm l)
].

Definition dspark_weights (d : DsparkHead) : list Weight :=
  concat (map layer_weights (ds_stages d)) ++
  [Opt (ds_main_proj d); Vec (ds_main_norm d); Vec (ds_norm d); Opt (ds_markov_w1 d); Opt (ds_markov_w2 d);
   Vec (ds_confidence d); Vec (ds_hc_head_fn d); Vec (ds_hc_head_base d)].
Definition mtp_weights (h : MtpHead) : list Weight :=
  concat (map (fun b => layer_weights (mb_layer b)) (mtp_blocks h)) ++
  [One (eh_proj h); Vec (enorm h); Vec (hnorm h); Vec (mtp_norm h)].
Definition option_weights {A} (f : A -> list Weight) (o : option A) : list Weight :=
  match o with Some a => f a | None => [] end.
Definition counted_weights (m : Model) : list Weight :=
  [One (m_embed m); One (m_lm_head m); Vec (m_final_norm m)] ++ concat (map layer_weights (m_layers m)) ++
  option_weights dspark_weights (m_dspark m).
Definition uncounted_weights (m : Model) : list Weight :=
  option_weights mtp_weights (m_mtp m) ++
  [Vec (m_output_attn_res_norm m); Vec (m_output_attn_res_proj m); Vec (m_hc_head_fn m); Vec (m_hc_head_base m)].

Lemma layer_bytes_sum l : layer_resident_bytes l = sumZ (map weight_bytes (layer_weights l)).
Proof. unfold layer_resident_bytes, layer_weights. cbn [map weight_bytes sumZ fold_right]. lia. Qed.

Lemma concat_bytes {A} (f : A -> list Weight) l :
  sumZ (map weight_bytes (concat (map f l))) = sumZ (map (fun x => sumZ (map weight_bytes (f x))) l).
Proof. induction l as [|x l IH]; [done|]. cbn [map concat]. rewrite map_app, sumZ_app, IH. done. Qed.

Lemma dspark_bytes_sum d : dspark_resident_bytes d = sumZ (map weight_bytes (dspark_weights d)).
Proof.
  unfold dspark_resident_bytes, dspark_weights. rewrite map_app, sumZ_app, concat_bytes.
  rewrite (map_ext _ _ layer_bytes_sum). cbn [map weight_bytes sumZ fold_right]. lia.
Qed.

(** What the expert cache is sized against.  [resident_bytes] counts every
    weight of every layer and of the block-diffusion head exactly once; it falls
    short of all the model holds by exactly the next-token-prediction head and
    the four output vectors of Kimi-K3 and DeepSeek-V4.  Marking a layer
    reaches every tensor it has. *)
Theorem resident_exact m l :
  resident_bytes m + sumZ (map weight_bytes (uncounted_weights m)) =
    sumZ (map weight_bytes (counted_weights m ++ uncounted_weights m)) /\
  Forall (fun t => gpu_eligible t = true) (concat (map weight_tensors (layer_weights (mark_layer_eligible l)))).
Proof.
  split.
  - rewrite map_app, sumZ_app. f_equal.
    unfold resident_bytes, counted_weights. rewrite !map_app, !sumZ_app, concat_bytes.
    rewrite (map_ext _ _ layer_bytes_sum). destruct (m_dspark m) as [d|]; cbn [option_weights].
    + rewrite dspark_bytes_sum. cbn [map weight_bytes sumZ fold_right]. lia.
    + cbn [map weight_bytes sumZ fold_right]. lia.
  - apply Forall_concat, Forall_map, Forall_forall. intros w Hw.
    assert (forall t, Forall (fun t => gpu_eligible t = true) (weight_tensors (One (eligible t)))) as H1 by (by repeat constructor).
    assert (forall t, Forall (fun t => gpu_eligible t = true) (weight_tensors (Opt (option_map eligible t)))) as H2
      by (intros [t|]; by repeat constructor).
    assert (forall ts, Forall (fun t => gpu_eligible t = true) (weight_tensors (Many (map eligible ts)))) as H3
      by (intros ts; cbn; by apply Forall_map, Forall_true).
    unfold compose. unfold layer_weights, mark_layer_eligible in Hw. cbn in Hw.
    repeat (apply elem_of_cons in Hw as [->|Hw]; [first [apply H1|apply H2|apply H3|by constructor]|]).
    by apply not_elem_of_nil in Hw.
Qed.

