(* ===== verification/Moe.v ===== *)
(** * Routed experts ([crates/colibri-engine/src/moe.rs])

    The router, the union of a batch's choices, the experts' feed-forward on
    the tokens that chose them, and the sum over the nodes of a cluster.  The
    portable path: the CUDA kernels are not modelled, [matmul_qt] is
    [Linear.matmul_qt].  Scratch buffers that are reused are overwritten before
    they are read, so a call allocates its own; profiling and the routing log
    are left out.  An expert comes from an [ExpertProvider], a remote node is
    reached through a [Transport]: interfaces. *)

From Stdlib Require Import ZifyBool ZifyNat SpecFloat.
From S2P Require Import Prelude Rows DType Math Floats Linear Sharding Config Model.
Local Open Scope nat_scope.

(** ** Activation *)

Record ActCfg := {
  act_oai : bool; act_alpha : f32; act_limit : f32; act_relu2 : bool; act_situ : bool; act_situ_beta : f32;
  act_situ_linear_beta : f32
}.
Definition set_activation (c : Config) : ActCfg :=
  {| act_oai := swiglu_oai c; act_alpha := swiglu_alpha c; act_limit := swiglu_limit c; act_relu2 := relu2 c;
     act_situ := situ c; act_situ_beta := situ_beta c; act_situ_linear_beta := situ_linear_beta c |}.
Definition default_activation : ActCfg :=
  {| act_oai := false; act_alpha := f0; act_limit := f0; act_relu2 := false; act_situ := false; act_situ_beta := f0;
     act_situ_linear_beta := f0 |}.

Record Expert := { ex_gate : QTensor; ex_up : QTensor; ex_down : QTensor }.
Definition expert_bytes (e : Expert) : Z := u64 (i64 (i64 (qt_bytes (ex_gate e) + qt_bytes (ex_up e)) + qt_bytes (ex_down e))).

(** [mark_gpu_eligible]: not the formats cached by address. *)
Definition cacheable (t : QTensor) : bool := negb ((fmt_code t =? 0)%Z || (fmt_code t =? 1)%Z).
Definition set_eligible (b : bool) (t : QTensor) : QTensor :=
  {| fmt_code := fmt_code t; qt_qf := qt_qf t; qt_q8 := qt_q8 t; qt_q4 := qt_q4 t; qt_s := qt_s t; qt_bs := qt_bs t;
     qt_g := qt_g t; qt_o := qt_o t; qt_i := qt_i t; gpu_eligible := b |}.
Definition mark_gpu_eligible (e : Expert) : Expert :=
  let mark t := set_eligible (cacheable t) t in
  {| ex_gate := mark (ex_gate e); ex_up := mark (ex_up e); ex_down := mark (ex_down e) |}.

(** ** Interfaces *)

Class ExpertProvider (E : Type) := {
  expert : nat -> nat -> res E Expert;
  prefetch : nat -> list nat -> res E unit
}.

(** A request carries its weights as [n_tokens] rows. *)
Record Request := {
  rq_layer : Z; rq_experts : list Z; rq_weights : list f32; rq_activations : list f32; rq_n_tokens : nat; rq_hidden : nat
}.
(** [RPanic]: the thread that made the exchange panicked. *)
Class Transport (X : Type) := {
  this_node : Z;
  exchange : Z -> Request -> res X (list f32)
}.

Inductive MoeError (E X : Type) :=
  | ProviderError (e : E)
  | ExchangeError (node : Z) (x : X)
  | WrongOutputs (node : Z) (want got : nat)
  | ThreadPanicked (node : Z).
Arguments ProviderError {E X}.
Arguments ExchangeError {E X}.
Arguments WrongOutputs {E X}.
Arguments ThreadPanicked {E X}.

(** ** Routing *)

(** The best of the experts not chosen yet: 0 when none exceeds minus infinity. *)
Definition best_step (choice : list f32) (chosen : list nat) (acc : nat * f32) (e : nat) : nat * f32 :=
  let v := nth e choice f0 in
  if negb (bool_decide (e ∈ chosen)) && SFltb acc.2 v then (e, v) else acc.
Definition best_unchosen (choice : list f32) (chosen : list nat) : nat :=
  (foldl (best_step choice chosen) (0, NEG_INFINITY) (seq 0 (length choice))).1.
Fixpoint choose (choice : list f32) (k : nat) (chosen : list nat) : list nat :=
  match k with
  | 0 => []
  | S k => let best := best_unchosen choice chosen in best :: choose choice k (best :: chosen)
  end.

(** [1e-20]. *)
Definition weight_guard : f32 := S754_finite false 12379400 (-90).
Definition scale_weights (c : Config) (w : list f32) : list f32 :=
  let w := if norm_topk c then let sm := f32_add (f32_sum w) weight_guard in map (fun x => f32_div x sm) w else w in
  map (fun x => f32_mul x (routed_scale c)) w.

Definition zip_add (o p : list f32) : list f32 :=
  imap (fun i v => match p !! i with Some x => f32_add v x | None => v end) o.

Section Moe.
(** The platform's [exp] and [tanh], and the process-wide activation. *)
Context (expf tanhf : f32 -> f32) (act : ActCfg).

(** [route]; the weights are read where the choice was made. *)
Definition route (c : Config) (logits bias : list f32) : option (list nat * list f32) :=
  let k := capped (topk c) (length logits) in
  match router_score c with
  | Softmax =>
      let p := normalized (exp_sum (fun z => expf (f32_sub z (max_of logits))) logits) in
      let idx := choose p k [] in
      Some (idx, scale_weights c (map (fun e => nth e p f0) idx))
  | Sigmoid =>
      let logit := map (sigmoid expf) logits in
      let* choice := mapM (fun '(e, l) => let* b := bias !! e in Some (f32_add l b)) (imap pair logit) in
      let idx := choose choice k [] in
      Some (idx, scale_weights c (map (fun e => nth e logit f0) idx))
  end.

(** ** Feed-forward *)

(** [swiglu_clamped_one] of [dsv4.rs]. *)
Definition swiglu_clamped_one (gate up limit : f32) : option f32 :=
  let g := f32_min gate limit in
  if negb (SFleb (SFopp limit) limit) then None
  else Some (f32_mul (silu expf g) (f32_clamp up (SFopp limit) limit)).

Definition gate_one (g u : f32) : option f32 :=
  if act_situ act then Some (Math.situ expf tanhf g u (act_situ_beta act) (act_situ_linear_beta act))
  else if act_oai act then Math.swiglu_oai expf g u (act_alpha act) (act_limit act)
  else if SFltb f0 (act_limit act) then swiglu_clamped_one g u (act_limit act)
  else Some (f32_mul (silu expf g) u).

Definition relu2_one (u : f32) : f32 := let r := f32_max u f0 in f32_mul r r.

(** [ffn], which is [ffn_cpu]; [out] has length [out_len]. *)
Definition ffn (gate up down : QTensor) (x : list f32) (nr out_len : nat) : option (list f32) :=
  if act_relu2 act then
    let inter := rows_of up in
    let* uu := matmul_qt (nr * inter) x up nr in
    matmul_qt out_len (map relu2_one uu) down nr
  else
    let inter := rows_of gate in
    let* gg := matmul_qt (nr * inter) x gate nr in
    let* uu := matmul_qt (nr * inter) x up nr in
    let* gg := mapM (fun '(g, u) => gate_one g u) (combine gg uu) in
    matmul_qt out_len gg down nr.

Definition dense_mlp (l : Layer) (x : list f32) (s_len out_len : nat) : option (list f32) :=
  ffn (l_gate_proj l) (l_up_proj l) (l_down_proj l) x s_len out_len.

(** ** The union of the choices *)

(** The experts in the order they are first seen, and a [seen] entry per
    expert, its column. *)
Fixpoint union (e_n : nat) (idxs : list nat) (uniq : list nat) : option (list nat) :=
  match idxs with
  | [] => Some uniq
  | e :: idxs =>
      if negb (e <? e_n) then None
      else union e_n idxs (if bool_decide (e ∈ uniq) then uniq else uniq ++ [e])
  end.
Definition column (uniq : list nat) (e : nat) : option nat := fst <$> list_find (eq e) uniq.

(** Row [s] of the weight matrix: a repeated expert keeps its last weight. *)
Fixpoint weight_row (uniq : list nat) (picks : list (nat * f32)) (row : list f32) : option (list f32) :=
  match picks with
  | [] => Some row
  | (e, w) :: picks => let* c := column uniq e in weight_row uniq picks (<[c := w]> row)
  end.
Definition union_and_weights (idxs : list nat) (ws : list f32) (s_len k e_n : nat) : option (list nat * list f32) :=
  let* uniq := union e_n idxs [] in
  let* rows := mapM (fun s =>
    let* i := range idxs (s * k) (s * k + k) in let* w := range ws (s * k) (s * k + k) in
    weight_row uniq (combine i w) (replicate (length uniq) f0)) (seq 0 s_len) in
  Some (uniq, concat rows).

(** ** The experts of one node *)

Section Local.
Context {E X : Type} `{!ExpertProvider E}.

Definition lift {A} (r : res E A) : res (MoeError E X) A :=
  match r with ROk a => ROk a | RErr e => RErr (ProviderError e) | RPanic => RPanic end.

(** The tokens that gave column [ei] a weight other than zero. *)
Definition tokens_of (weights : list f32) (ne n_tokens ei : nat) : option (list (nat * f32)) :=
  let* ws := mapM (fun t => let* w := weights !! (t * ne + ei) in Some (t, w)) (seq 0 n_tokens) in
  Some (filter (fun tw => SFeqb tw.2 f0 = false) ws).

Definition scatter (d : nat) (rows : list (nat * f32)) (hh out : list f32) : option (list f32) :=
  for_range (fun r out =>
    let* tw := rows !! r in
    let* o := range out (tw.1 * d) ((tw.1 + 1) * d) in
    let* h := range hh (r * d) ((r + 1) * d) in
    copy_in out (tw.1 * d) (f32_zip (fun a b => f32_add a (f32_mul tw.2 b)) o h)) 0 (length rows) out.

Definition run_expert (layer : nat) (activations : list f32) (d : nat) (out : list f32) (er : nat * list (nat * f32))
    : res (MoeError E X) (list f32) :=
  let '(e, rows) := er in
  let? ex := lift (expert layer e) in
  unwrap (
    let nr := length rows in
    let* xg := mapM (fun tw => range activations (tw.1 * d) ((tw.1 + 1) * d)) rows in
    let* hh := ffn (ex_gate ex) (ex_up ex) (ex_down ex) (concat xg) nr (nr * d) in
    scatter d rows hh out).

Definition compute_experts_partial_into (layer : nat) (experts : list Z) (weights activations : list f32)
    (n_tokens d : nat) (out : list f32) : res (MoeError E X) (list f32) :=
  let ne := length experts in
  if ne =? 0 then ROk out
  else
    let eids := map Z.to_nat experts in
    let? _ := lift (prefetch layer eids) in
    let? per := unwrap (mapM (fun '(ei, e) =>
      let* rows := tokens_of weights ne n_tokens ei in Some (e, rows)) (imap pair eids)) in
    for_each (run_expert layer activations d) (filter (fun er => er.2 <> []) per) out.

Definition compute_experts_partial (layer : nat) (experts : list Z) (weights activations : list f32) (n_tokens d : nat)
    : res (MoeError E X) (list f32) :=
  compute_experts_partial_into layer experts weights activations n_tokens d (replicate (n_tokens * d) f0).
End Local.

(** ** The experts of a cluster *)

Definition subcols (w_mat : list f32) (s_len n_uniq : nat) (cols : list nat) : option (list f32) :=
  let* rows := mapM (fun s => mapM (fun c => w_mat !! (s * n_uniq + c)) cols) (seq 0 s_len) in
  Some (concat rows).

(** The nodes that own some of the experts, ascending, with their columns. *)
Definition by_node (owners : list Z) : list (Z * list nat) :=
  map (fun n => (n, map fst (filter (fun io => io.2 = n) (imap pair owners))))
      (remove_dups (sort_by Z.leb owners)).

Section Cluster.
Context {E X : Type} `{!ExpertProvider E} `{!Transport X}.

(** One node's answer: computed here, or awaited from its thread. *)
Definition node_answer (layer : nat) (a : list f32) (s_len dim : nat) (job : Z * (list Z * list f32))
    : res (MoeError E X) (list f32) :=
  let '(node, (experts, weights)) := job in
  if (node =? this_node)%Z then compute_experts_partial layer experts weights a s_len dim
  else
    match exchange node {| rq_layer := u32 (Z.of_nat layer); rq_experts := experts; rq_weights := weights;
                           rq_activations := a; rq_n_tokens := s_len; rq_hidden := dim |} with
    | ROk out => if length out =? s_len * dim then ROk out else RErr (WrongOutputs node (s_len * dim) (length out))
    | RErr x => RErr (ExchangeError node x)
    | RPanic => RErr (ThreadPanicked node)
    end.

(** Every answer is awaited: the local one first, then the others in order;
    the first error is kept. *)
Fixpoint collect (answers : list (Z * res (MoeError E X) (list f32))) : res (MoeError E X) (list (Z * list f32)) :=
  match answers with
  | [] => ROk []
  | (n, ROk p) :: answers => let? ps := collect answers in ROk ((n, p) :: ps)
  | (_, RErr e) :: answers => match collect answers with RPanic => RPanic | _ => RErr e end
  | (_, RPanic) :: _ => RPanic
  end.

Definition sharded_experts_partial (layer : nat) (uniq : list nat) (w_mat a : list f32) (s_len dim : nat)
    (sharding : ExpertSharding) : res (MoeError E X) (list f32) :=
  let? owners := unwrap (mapM (fun e => owner sharding (u32 (Z.of_nat e))) uniq) in
  let? jobs := unwrap (mapM (fun '(node, cols) =>
    let* experts := mapM (fun ui => let* e := uniq !! ui in Some (u32 (Z.of_nat e))) cols in
    let* weights := subcols w_mat s_len (length uniq) cols in
    Some (node, (experts, weights))) (by_node owners)) in
  let local_first := filter (fun j => j.1 = this_node) jobs ++ filter (fun j => j.1 <> this_node) jobs in
  let? partials := collect (map (fun j => (j.1, node_answer layer a s_len dim j)) local_first) in
  ROk (foldl (fun o np => zip_add o np.2) (replicate (s_len * dim) f0)
         (sort_by (fun x y => (x.1 <=? y.1)%Z) partials)).

(** ** The blocks *)

Definition active_experts (c : Config) : nat := capped (topk c) (Z.to_nat (n_experts c)).

(** The router's scores, then each token's choice. *)
Definition route_rows (c : Config) (l : Layer) (x : list f32) (s_len : nat) : option (list (list nat * list f32)) :=
  let '(d, e_n) := (Z.to_nat (hidden c), Z.to_nat (n_experts c)) in
  let* logits := matmul_f32 (s_len * e_n) x (l_router l) s_len d e_n in
  each_row e_n s_len (fun row => route c row (l_router_bias l)) logits.
Definition route_all (c : Config) (l : Layer) (x : list f32) (s_len : nat) : option (list nat * list f32) :=
  let* rows := route_rows c l x s_len in
  union_and_weights (concat (map fst rows)) (concat (map snd rows)) s_len (active_experts c) (Z.to_nat (n_experts c)).

(** The routed sum: on one node, or over the cluster when there is one of more
    than one node. *)
Definition routed (layer : nat) (uniq : list nat) (w_mat a : list f32) (s_len dim : nat) (cluster : option ExpertSharding)
    : res (MoeError E X) (list f32) :=
  match cluster with
  | Some sh =>
      if (1 <? num_nodes sh)%Z then sharded_experts_partial layer uniq w_mat a s_len dim sh
      else compute_experts_partial layer (map (fun e => u32 (Z.of_nat e)) uniq) w_mat a s_len dim
  | None => compute_experts_partial layer (map (fun e => u32 (Z.of_nat e)) uniq) w_mat a s_len dim
  end.

(** [moe_sharded]: [out] has length [out_len]. *)
Definition moe_sharded (c : Config) (l : Layer) (layer : nat) (x : list f32) (s_len out_len : nat) (with_shared : bool)
    (sharding : ExpertSharding) : res (MoeError E X) (list f32) :=
  let d := Z.to_nat (hidden c) in
  let? (uniq, w_mat) := unwrap (route_all c l x s_len) in
  let? summed := sharded_experts_partial layer uniq w_mat x s_len d sharding in
  let out := zip_add (replicate out_len f0) summed in
  if with_shared then
    unwrap (let* sh := ffn (l_sh_gate l) (l_sh_up l) (l_sh_down l) x s_len (s_len * d) in Some (zip_add out sh))
  else ROk out.

Definition moe (c : Config) (l : Layer) (layer : nat) (x : list f32) (s_len out_len : nat) (with_shared : bool)
    (cluster : option ExpertSharding) : res (MoeError E X) (list f32) :=
  let single :=
    let d := Z.to_nat (hidden c) in
    let? (uniq, w_mat) := unwrap (route_all c l x s_len) in
    let? out := compute_experts_partial_into layer (map (fun e => u32 (Z.of_nat e)) uniq) w_mat x s_len d
                  (replicate out_len f0) in
    if with_shared then
      unwrap (let* sh := ffn (l_sh_gate l) (l_sh_up l) (l_sh_down l) x s_len (s_len * d) in Some (zip_add out sh))
    else ROk out in
  match cluster with
  | Some sh => if (1 <? num_nodes sh)%Z then moe_sharded c l layer x s_len out_len with_shared sh else single
  | None => single
  end.

(** [nemotron_moe]: the experts run in a latent space. *)
Definition nemotron_moe (c : Config) (l : Layer) (layer : nat) (x : list f32) (s_len out_len : nat)
    (cluster : option ExpertSharding) : res (MoeError E X) (list f32) :=
  let '(d, dl) := (Z.to_nat (hidden c), Z.to_nat (moe_latent c)) in
  let? rows := unwrap (route_rows c l x s_len) in
  let? fc1 := unwrap (l_fc1_latent l) in
  let? fc2 := unwrap (l_fc2_latent l) in
  let? h_lat := unwrap (matmul_qt (s_len * dl) x fc1 s_len) in
  let? (uniq, w_mat) := unwrap (union_and_weights (concat (map fst rows)) (concat (map snd rows)) s_len
                                  (active_experts c) (Z.to_nat (n_experts c))) in
  let? moe_lat := routed layer uniq w_mat h_lat s_len dl cluster in
  unwrap (
    let* out := matmul_qt out_len moe_lat fc2 s_len in
    let* sh := ffn (l_gate_proj l) (l_up_proj l) (l_down_proj l) x s_len (s_len * d) in
    Some (zip_add out sh)).

(** [chunks_mut(dl)] panics on zero; the last chunk may be short. *)
Fixpoint norm_chunks (fuel dl : nat) (w : list f32) (eps : f32) (buf : list f32) : option (list f32) :=
  match fuel, buf with
  | S fuel, _ :: _ =>
      let* row := rmsnorm (take dl buf) w eps in let* rest := norm_chunks fuel dl w eps (drop dl buf) in Some (row ++ rest)
  | _, _ => Some []
  end.

(** [kimi_moe]: the routed sum is normalised before it is expanded. *)
Definition kimi_moe (c : Config) (l : Layer) (layer : nat) (x : list f32) (s_len out_len : nat)
    (cluster : option ExpertSharding) : res (MoeError E X) (list f32) :=
  let '(d, dl) := (Z.to_nat (hidden c), Z.to_nat (moe_latent c)) in
  let? rows := unwrap (route_rows c l x s_len) in
  let? fc1 := unwrap (l_fc1_latent l) in
  let? fc2 := unwrap (l_fc2_latent l) in
  let? h_lat := unwrap (matmul_qt (s_len * dl) x fc1 s_len) in
  let? (uniq, w_mat) := unwrap (union_and_weights (concat (map fst rows)) (concat (map snd rows)) s_len
                                  (active_experts c) (Z.to_nat (n_experts c))) in
  let? moe_lat := routed layer uniq w_mat h_lat s_len dl cluster in
  unwrap (
    let* moe_lat :=
      match l_routed_expert_norm l with
      | [] => Some moe_lat
      | w => if dl =? 0 then None else norm_chunks (length moe_lat) dl w (eps c) moe_lat
      end in
    let* out := matmul_qt out_len moe_lat fc2 s_len in
    let* sh := ffn (l_sh_gate l) (l_sh_up l) (l_sh_down l) x s_len (s_len * d) in
    Some (zip_add out sh)).
End Cluster.
End Moe.

(** ** The choice *)

(** [i] goes before [e]: a greater score, or the same score and a lower index. *)
Definition beats (choice : list f32) (i e : nat) : Prop :=
  SFltb (nth e choice f0) (nth i choice f0) = true \/
  SFltb (nth i choice f0) (nth e choice f0) = false /\ i < e.

Lemma best_masked choice chosen l : forall acc,
  foldl (best_step choice chosen) acc l =
  foldl argmax_step acc (map (fun e => (e, nth e choice f0)) (filter (fun e => e ∉ chosen) l)).
Proof.
  induction l as [|e l IH]; intros acc; [done|]. cbn [foldl]. unfold best_step at 2. rewrite filter_cons.
  destruct (decide (e ∉ chosen)) as [H|H].
  - rewrite bool_decide_eq_false_2 by done. cbn [negb andb map foldl]. unfold argmax_step at 2. cbn [snd]. by destruct (SFltb _ _).
  - rewrite bool_decide_eq_true_2 by (by apply dec_stable). cbn [negb andb]. apply IH.
Qed.

Lemma best_unchosen_spec choice chosen :
  Forall (fun v => SFltb NEG_INFINITY v = true) choice ->
  (exists e, e < length choice /\ e ∉ chosen) ->
  let b := best_unchosen choice chosen in
  b < length choice /\ b ∉ chosen /\ forall e, e < length choice -> e ∉ chosen -> e <> b -> beats choice b e.
Proof.
  intros Hall (e0 & He0 & Hc0). unfold best_unchosen. rewrite best_masked.
  assert (forall e, e < length choice -> SFltb NEG_INFINITY (nth e choice f0) = true) as Hinf.
  { intros e He. rewrite Forall_lookup in Hall. destruct (lookup_lt_is_Some_2 choice e He) as [v Hv].
    rewrite nth_lookup, Hv. by eapply Hall. }
  set (l := filter (fun e => e ∉ chosen) (seq 0 (length choice))).
  assert (forall e, e ∈ l <-> e < length choice /\ e ∉ chosen) as Hl.
  { intros e. unfold l. rewrite list_elem_of_filter, elem_of_seq. intuition lia. }
  destruct (argmax_scan (map (fun e => (e, nth e choice f0)) l) (0, NEG_INFINITY) eq_refl)
    as [[_ H]|(l1 & r & l2 & E & -> & Hr & H & H1)].
  { rewrite Forall_forall in H. specialize (H (e0, nth e0 choice f0)). cbn in H. rewrite Hinf in H by done.
    exfalso. apply diff_true_false, H. apply list_elem_of_fmap. exists e0. split; [done|]. by apply Hl. }
  assert (exists k1 k2, l = k1 ++ r.1 :: k2 /\ l1 = map (fun e => (e, nth e choice f0)) k1 /\ r = (r.1, nth r.1 choice f0))
    as (k1 & k2 & El & El1 & Er).
  { apply map_eq_app in E as (k1 & k2 & -> & <- & E2). destruct k2 as [|b k2]; [done|]. cbn in E2. injection E2 as <- <-.
    exists k1, k2. done. }
  assert (r.1 ∈ l) as Hin by (rewrite El; apply elem_of_app; right; left). apply Hl in Hin as [Hb1 Hb2].
  split_and!; [done|done|]. intros e He Hec Hne. destruct r as [b v]. cbn in *. injection Er as ->.
  assert (e ∈ l) as Hel by (by apply Hl). rewrite El in Hel. apply elem_of_app in Hel as [Hel|Hel].
  - left. rewrite Forall_forall in H1. destruct (H1 (e, nth e choice f0)) as [Hn|Hlt]; [|cbn in Hn|exact Hlt].
    + rewrite El1. apply list_elem_of_fmap. eauto.
    + pose proof (Hinf e He) as Hi. apply SFltb_key in Hi as (_ & Hn' & _). congruence.
  - apply elem_of_cons in Hel as [->|Hel]; [done|]. right. split.
    + rewrite Forall_forall in H. apply (H (e, nth e choice f0)). apply list_elem_of_fmap. exists e. split; [done|].
      rewrite El. apply elem_of_app. by right; right.
    + assert (StronglySorted lt l) as Hs.
      { unfold l. clear. generalize 0. induction (length choice) as [|n IH]; intros a; cbn [seq]; [constructor|].
        rewrite filter_cons. assert (StronglySorted lt (a :: filter (fun e => e ∉ chosen) (seq (S a) n))) as Hs.
        { constructor; [apply IH|]. apply Forall_forall. intros x [_ Hx]%list_elem_of_filter. apply elem_of_seq in Hx. lia. }
        case_decide; [done|]. by inversion Hs. }
      rewrite El, cons_middle, app_assoc in Hs.
      apply (StronglySorted_app_cross lt (k1 ++ [b]) k2 b e Hs); [apply elem_of_app; right; left|done].
Qed.

Lemma choose_spec choice k : forall chosen,
  Forall (fun v => SFltb NEG_INFINITY v = true) choice -> NoDup chosen -> Forall (fun e => e < length choice) chosen ->
  length chosen + k <= length choice ->
  let idx := choose choice k chosen in
  length idx = k /\ NoDup idx /\
  forall j i, idx !! j = Some i -> i < length choice /\ i ∉ chosen /\
    forall e, e < length choice -> e ∉ chosen -> e ∉ take j idx -> e <> i -> beats choice i e.
Proof.
  induction k as [|k IH]; intros chosen Hall Hnd Hlt Hk; [split_and!; [done|constructor|done]|].
  cbn [choose]. set (b := best_unchosen choice chosen).
  assert (exists e, e < length choice /\ e ∉ chosen) as Hex.
  { destruct (decide (Exists (fun e => e ∉ chosen) (seq 0 (length choice)))) as [He|He].
    - apply Exists_exists in He as (e & He%elem_of_seq & Hc). exists e. split; [lia|done].
    - apply not_Exists_Forall in He; [|apply _]. assert (seq 0 (length choice) ⊆+ chosen) as Hsm.
      { apply NoDup_submseteq; [apply NoDup_seq|]. intros e He'. rewrite Forall_forall in He. apply dec_stable, He, He'. }
      apply submseteq_length in Hsm. rewrite length_seq in Hsm. lia. }
  destruct (best_unchosen_spec choice chosen Hall Hex) as (Hb1 & Hb2 & Hb3). fold b in Hb1, Hb2, Hb3.
  destruct (IH (b :: chosen)) as (L & N & H); [done|by constructor|by constructor|simpl; lia|].
  split_and!.
  - simpl. by rewrite L.
  - constructor; [|done]. intros Hin. apply list_elem_of_lookup in Hin as [j Hj]. apply H in Hj as (_ & Hn & _).
    apply Hn. left.
  - intros [|j] i Hi; cbn in Hi.
    + injection Hi as <-. split_and!; [done|done|]. intros e He Hec _ Hne. by apply Hb3.
    + destruct (H j i Hi) as (H1 & H2 & H3). split_and!; [done|intros Hin; apply H2; by right|].
      intros e He Hec Ht Hne. cbn [take] in Ht. apply not_elem_of_cons in Ht as [Ht1 Ht2].
      apply H3; [done| |done|done]. apply not_elem_of_cons. done.
Qed.

Definition route_scores (expf : f32 -> f32) (c : Config) (logits : list f32) : list f32 :=
  match router_score c with
  | Softmax => normalized (exp_sum (fun z => expf (f32_sub z (max_of logits))) logits)
  | Sigmoid => map (sigmoid expf) logits
  end.
Definition route_choice (expf : f32 -> f32) (c : Config) (logits bias : list f32) : list f32 :=
  match router_score c with
  | Softmax => route_scores expf c logits
  | Sigmoid => f32_zip f32_add (route_scores expf c logits) bias
  end.

Lemma route_eq expf c logits bias : (router_score c = Sigmoid -> length logits <= length bias) ->
  let idx := choose (route_choice expf c logits bias) (capped (topk c) (length logits)) [] in
  route expf c logits bias = Some (idx, scale_weights c (map (fun e => nth e (route_scores expf c logits) f0) idx)).
Proof.
  intros Hb. unfold route, route_choice, route_scores. destruct (router_score c); [|done].
  specialize (Hb eq_refl). set (logit := map (sigmoid expf) logits).
  assert (mapM (fun '(e, l) => let* b := bias !! e in Some (f32_add l b)) (imap pair logit) = Some (f32_zip f32_add logit bias)) as ->.
  { apply mapM_Some. apply Forall2_same_length_lookup_2.
    - unfold f32_zip. rewrite length_imap, length_map, length_combine. unfold logit. rewrite length_map. lia.
    - intros i [e l] v H1 H2. rewrite list_lookup_imap in H1. apply fmap_Some in H1 as (l' & Hl & [= -> ->]).
      unfold f32_zip in H2. change (map ?f ?l) with (f <$> l) in H2. rewrite list_lookup_fmap in H2.
      apply fmap_Some in H2 as ([x y] & H2 & ->). apply lookup_zip_with_Some in H2 as (x' & y' & [= <- <-] & Hx & Hy).
      rewrite Hl in Hx. injection Hx as ->. by rewrite Hy. }
  done.
Qed.

(** C26: the router picks the best.  When every score is a number above minus
    infinity, [route] answers with [topk] distinct experts (all of them, when
    there are fewer), the best first: each goes before every expert not yet
    picked, by score with its selection bias and then by index; and the weights
    are those experts' scores without the bias, normalised and scaled. *)
Theorem route_selects expf c logits bias :
  (router_score c = Sigmoid -> length logits <= length bias) ->
  Forall (fun v => SFltb NEG_INFINITY v = true) (route_choice expf c logits bias) ->
  exists idx w, route expf c logits bias = Some (idx, w) /\
    length idx = capped (topk c) (length logits) /\ NoDup idx /\
    (forall j i, idx !! j = Some i -> i < length logits /\
       forall e, e < length logits -> e ∉ take j idx -> e <> i -> beats (route_choice expf c logits bias) i e) /\
    w = scale_weights c (map (fun e => nth e (route_scores expf c logits) f0) idx).
Proof.
  intros Hb Hall. rewrite (route_eq expf c logits bias Hb).
  set (k := capped _ _). pose proof (capped_le (topk c) (length logits)) as Hk. fold k in Hk. set (choice := route_choice expf c logits bias) in *.
  assert (length choice = length logits) as Hlen.
  { unfold choice, route_choice, route_scores, f32_zip. destruct (router_score c).
    - rewrite length_map, length_combine, length_map. specialize (Hb eq_refl). lia.
    - unfold normalized. destruct (SFltb _ _); cbn; by rewrite ?length_map. }
  destruct (choose_spec choice k [] Hall ltac:(constructor) ltac:(constructor)) as (L & N & H); [simpl; lia|].
  eexists _, _. split; [done|]. split_and!; [done|done| |done].
  intros j i Hj. rewrite <- Hlen. destruct (H j i Hj) as (H1 & _ & H2). split; [done|].
  intros e He Ht Hne. apply H2; try done. apply not_elem_of_nil.
Qed.

(** ** Feed-forward row by row *)

Section Rows.
Context (expf tanhf : f32 -> f32) (act : ActCfg).

(** The shapes an expert of outer width [d] has, and a clamp that is not
    inverted. *)
Definition wf_ffn (gate up down : QTensor) (d : nat) : Prop :=
  exists inter, wf_qt up d inter /\ wf_qt down inter d /\ (act_relu2 act = false -> wf_qt gate d inter).
Definition gate_total : Prop := forall g u, is_Some (gate_one expf tanhf act g u).

Lemma ffn_rows gate up down d rs : wf_ffn gate up down d -> gate_total -> Forall (fun r => length r = d) rs ->
  exists ys, Forall2 (fun x y => ffn expf tanhf act gate up down x 1 d = Some y) rs ys /\
    Forall (fun y => length y = d) ys /\
    ffn expf tanhf act gate up down (concat rs) (length rs) (length rs * d) = Some (concat ys).
Proof.
  intros (inter & (Uc & Ur & [ur Eu]) & (Dc & Dr & [dr Ed]) & Hg) Htot Hrs.
  assert (forall xs, Forall (fun r => length r = inter) xs ->
    matmul_qt (length xs * d) (concat xs) down (length xs) = Some (concat (map (qt_matvec down dr) xs))) as Hdown.
  { intros xs Hxs. rewrite matmul_qt_rows by (by rewrite ?Dc, ?Dr). by rewrite Ed. }
  assert (forall (f : list f32 -> option (list f32)) (xs : list (list f32)),
    (forall x, length x = d -> exists y, f x = Some y /\ length y = d) ->
    Forall (fun r => length r = d) xs -> exists ys, Forall2 (fun x y => f x = Some y) xs ys /\ Forall (fun y => length y = d) ys) as Hpick.
  { intros f xs Hf Hxs. induction Hxs as [|x xs Hx _ (ys & IH1 & IH2)]; [exists []; by split|].
    destruct (Hf x Hx) as (y & Hy & Hl). exists (y :: ys). by repeat constructor. }
  unfold ffn. destruct (act_relu2 act) eqn:Er.
  - assert (forall xs, Forall (fun r => length r = d) xs -> 
      (let* uu := matmul_qt (length xs * rows_of up) (concat xs) up (length xs) in
       matmul_qt (length xs * d) (map relu2_one uu) down (length xs)) =
      Some (concat (map (fun x => qt_matvec down dr (map relu2_one (qt_matvec up ur x))) xs))) as Hall.
    { intros xs Hxs. rewrite matmul_qt_rows by (by rewrite ?Uc). rewrite Eu. cbv beta iota.
      rewrite concat_map, map_map. rewrite <- (length_map (fun x => map relu2_one (qt_matvec up ur x)) xs) at 1 2.
      rewrite Hdown; [by rewrite map_map|]. apply Forall_map, Forall_true. intros x. unfold compose.
      by rewrite length_map, (qt_matvec_length up). }
    destruct (Hpick (fun x => Some (qt_matvec down dr (map relu2_one (qt_matvec up ur x)))) rs) as (ys & H1 & H2); [|done|].
    { intros x _. eexists. split; [done|]. by rewrite (qt_matvec_length down). }
    exists ys. split_and!; [|done|].
    + eapply Forall2_impl; [exact (Forall2_with_l _ _ _ _ H1 Hrs)|]. intros x y [Hy Hx].
      pose proof (Hall [x]) as E. cbn [length concat map] in E. rewrite !app_nil_r, !Nat.mul_1_l in E.
      rewrite Nat.mul_1_l, E; [done|by constructor].
    + rewrite Hall by done. f_equal. f_equal. clear - H1. induction H1 as [|x y xs ys Hx _ IH]; [done|]. cbn. injection Hx as ->. by rewrite IH.
  - destruct (Hg eq_refl) as (Gc & Gr & [gr Eg]).
    set (row x := let* gg := mapM (fun '(g, u) => gate_one expf tanhf act g u) (combine (qt_matvec gate gr x) (qt_matvec up ur x)) in
                  Some (qt_matvec down dr gg)).
    assert (forall xs, Forall (fun r => length r = d) xs -> exists ys, Forall2 (fun x y => row x = Some y) xs ys /\
      (let* gg := matmul_qt (length xs * rows_of gate) (concat xs) gate (length xs) in
       let* uu := matmul_qt (length xs * rows_of gate) (concat xs) up (length xs) in
       let* gg := mapM (fun '(g, u) => gate_one expf tanhf act g u) (combine gg uu) in
       matmul_qt (length xs * d) gg down (length xs)) = Some (concat ys)) as Hall.
    { intros xs Hxs. rewrite !matmul_qt_rows by (by rewrite ?Uc, ?Gc, ?Gr, ?Ur). rewrite Eu, Eg. cbv beta iota.
      assert (exists gs, Forall2 (fun x g => mapM (fun '(g, u) => gate_one expf tanhf act g u)
                 (combine (qt_matvec gate gr x) (qt_matvec up ur x)) = Some g) xs gs /\ Forall (fun g => length g = inter) gs /\
              mapM (fun '(g, u) => gate_one expf tanhf act g u)
                (combine (concat (map (qt_matvec gate gr) xs)) (concat (map (qt_matvec up ur) xs))) = Some (concat gs))
        as (gs & G1 & G2 & G3).
      { clear Hxs. induction xs as [|x xs (gs & G1 & G2 & G3)]; [exists []; by repeat constructor|].
        destruct (mapM_total (fun '(g, u) => gate_one expf tanhf act g u) (combine (qt_matvec gate gr x) (qt_matvec up ur x))) as [g Hgx].
        { intros [a b] _. apply Htot. }
        exists (g :: gs). split_and!; [by constructor| |].
        - constructor; [|done]. rewrite (mapM_len _ _ _ Hgx), length_combine, (qt_matvec_length gate), (qt_matvec_length up) by done. lia.
        - cbn [map concat]. rewrite combine_app_eq, mapM_app_opt, Hgx, G3; [done|].
          by rewrite (qt_matvec_length gate), (qt_matvec_length up), Gr, Ur. }
      rewrite G3. cbv beta iota. exists (map (qt_matvec down dr) gs). split.
      - apply Forall2_fmap_r. eapply Forall2_impl; [exact G1|]. intros x g E. unfold row. by rewrite E.
      - rewrite (Forall2_length _ _ _ G1). by apply Hdown. }
    destruct (Hall rs Hrs) as (ys & H1 & H2). exists ys. split_and!; [| |exact H2].
    + eapply Forall2_impl; [exact (Forall2_with_l _ _ _ _ H1 Hrs)|]. intros x y [Hy Hx].
      destruct (Hall [x]) as (ys' & F & E); [by constructor|]. inversion F as [|? y' ? ? Hy' F']; subst. inversion F'; subst.
      cbn [length concat] in E. rewrite !app_nil_r, !Nat.mul_1_l in E. rewrite Nat.mul_1_l, E. congruence.
    + clear - H1 Ed Dr. induction H1 as [|x y xs ys Hy _ IH]; constructor; [|done]. unfold row in Hy.
      destruct (mapM _ _); [|done]. injection Hy as <-. by rewrite (qt_matvec_length down).
Qed.
End Rows.

(** ** The union and its weights *)

Lemma union_spec e_n idxs : forall uniq,
  NoDup uniq -> Forall (fun e => e < e_n) uniq -> Forall (fun e => e < e_n) idxs ->
  exists u, union e_n idxs uniq = Some u /\ NoDup u /\ Forall (fun e => e < e_n) u /\
    forall e, e ∈ u <-> e ∈ uniq \/ e ∈ idxs.
Proof.
  induction idxs as [|i idxs IH]; intros uniq Hn Hu Hi.
  { exists uniq. split_and!; try done. intros e. split; [by left|]. intros [|[]%not_elem_of_nil]; done. }
  apply Forall_cons in Hi as [Hi Hi']. cbn [union]. rewrite (proj2 (Nat.ltb_lt _ _) Hi). cbn [negb].
  case_bool_decide as Hin.
  - destruct (IH uniq Hn Hu Hi') as (u & E & H1 & H2 & H3). exists u. split_and!; try done.
    intros e. rewrite H3, elem_of_cons. split; [intuition|]. intros [|[->|]]; auto.
  - destruct (IH (uniq ++ [i])) as (u & E & H1 & H2 & H3); [| |done|].
    + apply NoDup_app. split_and!; [done| |by apply NoDup_singleton]. intros e He ->%list_elem_of_singleton. done.
    + by apply Forall_app; split; [|constructor].
    + exists u. split_and!; try done. intros e. rewrite H3, elem_of_app, list_elem_of_singleton, elem_of_cons. tauto.
Qed.

Lemma column_some uniq c e : NoDup uniq -> uniq !! c = Some e -> column uniq e = Some c.
Proof.
  intros Hn Hc. unfold column. destruct (list_find (eq e) uniq) as [[c' x]|] eqn:E.
  - apply list_find_Some in E as (E & <- & _). cbn. f_equal. by eapply NoDup_lookup.
  - apply list_find_None in E. rewrite Forall_lookup in E. by destruct (E c e Hc).
Qed.

(** The weight a token gives an expert: its last, zero when it did not choose it. *)
Definition pick_weight (picks : list (nat * f32)) (w0 : f32) (e : nat) : f32 :=
  foldl (fun acc p => if p.1 =? e then p.2 else acc) w0 picks.

Lemma weight_row_spec uniq picks : forall g,
  NoDup uniq -> Forall (fun p => p.1 ∈ uniq) picks ->
  weight_row uniq picks (map g uniq) = Some (map (fun e => pick_weight picks (g e) e) uniq).
Proof.
  induction picks as [|[e w] picks IH]; intros g Hn Hp; [done|]. apply Forall_cons in Hp as [He Hp]. cbn in He.
  apply list_elem_of_lookup in He as [c Hc]. cbn [weight_row]. rewrite (column_some uniq c e Hn Hc).
  assert (<[c := w]> (map g uniq) = map (fun x => if e =? x then w else g x) uniq) as ->; [|by rewrite IH].
  apply list_eq. intros i. change (map ?f uniq) with (f <$> uniq). destruct (decide (i = c)) as [->|Hne].
  - rewrite list_lookup_insert_eq by (rewrite length_fmap; by eapply lookup_lt_Some).
    rewrite list_lookup_fmap, Hc. cbn. by rewrite Nat.eqb_refl.
  - rewrite list_lookup_insert_ne, !list_lookup_fmap by done. destruct (uniq !! i) as [x|] eqn:Hx; [|done]. cbn.
    destruct (Nat.eqb_spec e x) as [<-|]; [|done]. exfalso. apply Hne. by eapply NoDup_lookup.
Qed.

Lemma pick_weight_other picks w0 e : e ∉ picks.*1 -> pick_weight picks w0 e = w0.
Proof.
  revert w0. induction picks as [|[x w] picks IH]; intros w0 H; [done|]. cbn in H. apply not_elem_of_cons in H as [H1 H2].
  cbn. destruct (Nat.eqb_spec x e); [done|]. by apply IH.
Qed.

(** The tokens' choices, [k] experts and weights each. *)
Definition choices (k e_n : nat) (rows : list (list nat * list f32)) : Prop :=
  Forall (fun r => length r.1 = k /\ length r.2 = k /\ Forall (fun e => e < e_n) r.1) rows.
Definition picks_of (r : list nat * list f32) : list (nat * f32) := combine r.1 r.2.

Lemma range_concat_row {A} (rs : list (list A)) w s r : Forall (fun r => length r = w) rs -> rs !! s = Some r ->
  range (concat rs) (s * w) (s * w + w) = Some r.
Proof. intros. replace (s * w + w) with ((s + 1) * w) by lia. by apply concat_row_range. Qed.

Lemma union_weights_spec k e_n rows : choices k e_n rows ->
  exists uniq, union_and_weights (concat (map fst rows)) (concat (map snd rows)) (length rows) k e_n =
      Some (uniq, concat (map (fun r => map (pick_weight (picks_of r) f0) uniq) rows)) /\
    NoDup uniq /\ Forall (fun e => e < e_n) uniq /\ (forall e, e ∈ uniq <-> exists r, r ∈ rows /\ e ∈ r.1).
Proof.
  intros Hc. destruct (union_spec e_n (concat (map fst rows)) []) as (uniq & E & H1 & H2 & H3); [constructor|constructor| |].
  { apply Forall_concat, Forall_map. eapply Forall_impl; [exact Hc|]. by intros r (_ & _ & ?). }
  assert (forall e, e ∈ uniq <-> exists r, r ∈ rows /\ e ∈ r.1) as Hin.
  { intros e. rewrite H3. split.
    - intros [[]%not_elem_of_nil|He]. apply list_elem_of_In, in_concat in He as (l & Hl & He). apply in_map_iff in Hl as (r & <- & Hr).
      exists r. by rewrite !list_elem_of_In.
    - intros (r & Hr & He). right. apply list_elem_of_In, in_concat. exists r.1. split; [apply in_map|]; by apply list_elem_of_In. }
  exists uniq. unfold union_and_weights. rewrite E. cbv beta iota.
  assert (mapM (fun s => let* i := range (concat (map fst rows)) (s * k) (s * k + k) in
                         let* w := range (concat (map snd rows)) (s * k) (s * k + k) in
                         weight_row uniq (combine i w) (replicate (length uniq) f0)) (seq 0 (length rows)) =
          Some (map (fun r => map (pick_weight (picks_of r) f0) uniq) rows)) as ->; [|done].
  apply mapM_Some, Forall2_same_length_lookup_2; [by rewrite length_seq, length_map|].
  intros i s y Hi Hy. apply lookup_seq in Hi as [-> Hi]. cbn in *. change (map ?f rows) with (f <$> rows) in *.
  rewrite list_lookup_fmap in Hy. destruct (rows !! i) as [r|] eqn:Hr; [|done]. injection Hy as <-.
  unfold choices in Hc. rewrite Forall_lookup in Hc. rewrite (range_concat_row (fst <$> rows) k i r.1).
  2: { apply Forall_fmap, Forall_lookup. intros. by eapply Hc. }
  2: { by rewrite list_lookup_fmap, Hr. }
  rewrite (range_concat_row (snd <$> rows) k i r.2).
  2: { apply Forall_fmap, Forall_lookup. intros. by eapply Hc. }
  2: { by rewrite list_lookup_fmap, Hr. }
  assert (replicate (length uniq) f0 = map (fun _ => f0) uniq) as -> by (clear; induction uniq; cbn; by f_equal).
  apply (weight_row_spec uniq (combine r.1 r.2) (fun _ => f0)); [done|]. apply Forall_forall. intros [e w] He.
  apply Hin. exists r. split; [by eapply list_elem_of_lookup_2|]. apply list_elem_of_In in He. cbn.
  apply list_elem_of_In. by eapply in_combine_l.
Qed.

(** ** The experts of one node, token by token *)

Lemma foldl_alter_other {P A} (f : nat * P -> A -> A) ps : forall (os : list A) t, t ∉ ps.*1 ->
  foldl (fun os p => alter (f p) p.1 os) os ps !! t = os !! t.
Proof.
  induction ps as [|p ps IH]; intros os t H; [done|]. cbn in H. apply not_elem_of_cons in H as [H1 H2]. cbn.
  rewrite IH by done. by apply list_lookup_alter_ne.
Qed.

Lemma foldl_alter_in {P A} (f : nat * P -> A -> A) ps : forall (os : list A) p, NoDup ps.*1 -> p ∈ ps ->
  foldl (fun os p => alter (f p) p.1 os) os ps !! p.1 = f p <$> os !! p.1.
Proof.
  induction ps as [|q ps IH]; intros os p Hn Hp; [by apply not_elem_of_nil in Hp|].
  cbn in Hn. apply NoDup_cons in Hn as [Hq Hn]. apply elem_of_cons in Hp as [->|Hp]; cbn.
  - rewrite foldl_alter_other by done. by rewrite list_lookup_alter_eq.
  - rewrite IH by done. rewrite list_lookup_alter_ne; [done|]. intros E. apply Hq. rewrite E.
    apply list_elem_of_fmap. eauto.
Qed.

Lemma foldl_alter_length {P A} (f : nat * P -> A -> A) ps : forall os : list A,
  length (foldl (fun os p => alter (f p) p.1 os) os ps) = length os.
Proof. induction ps as [|p ps IH]; intros os; [done|]. cbn. by rewrite IH, length_alter. Qed.

Definition acc_row (w : f32) (y o : list f32) : list f32 := f32_zip (fun a b => f32_add a (f32_mul w b)) o y.

Lemma acc_row_length w y o : length y = length o -> length (acc_row w y o) = length o.
Proof. intros H. unfold acc_row, f32_zip. rewrite length_map, length_combine. lia. Qed.

Lemma scatter_rows d rows ys os :
  Forall (fun y => length y = d) ys -> Forall (fun o => length o = d) os -> length ys = length rows ->
  Forall (fun tw => tw.1 < length os) rows ->
  scatter d rows (concat ys) (concat os) =
  Some (concat (foldl (fun os (p : nat * (f32 * list f32)) => alter (acc_row p.2.1 p.2.2) p.1 os) os
                  (map (fun '(tw, y) => (tw.1, (tw.2, y))) (combine rows ys)))).
Proof.
  intros Hys Hos Hl Ht. unfold scatter.
  set (ps := map (fun '(tw, y) => (tw.1, (tw.2, y))) (combine rows ys)).
  set (run := fun r => foldl (fun os (p : nat * (f32 * list f32)) => alter (acc_row p.2.1 p.2.2) p.1 os) os (take r ps)).
  assert (length ps = length rows) as Hps by (unfold ps; rewrite length_map, length_combine; lia).
  edestruct (for_range_ind (fun r out => out = concat (run r) /\ Forall (fun o => length o = d) (run r) /\ length (run r) = length os))
    as (x' & E & HP).
  3: { rewrite E. destruct HP as (-> & _). do 2 f_equal. unfold run. by rewrite take_ge by lia. }
  { split_and!; [done|done|done]. }
  intros r out Hr (-> & Hrun & Hlen). rewrite Nat.add_0_l in Hr.
  destruct (lookup_lt_is_Some_2 rows r ltac:(lia)) as [[t w] Htw]. destruct (lookup_lt_is_Some_2 ys r ltac:(lia)) as [y Hy].
  assert (t < length os) as Hto by (rewrite Forall_lookup in Ht; by apply (Ht r (t, w))).
  destruct (lookup_lt_is_Some_2 (run r) t ltac:(lia)) as [o Ho].
  rewrite Htw. cbn [fst snd]. rewrite (concat_row_range d (run r) t o), (concat_row_range d ys r y) by done.
  rewrite Forall_lookup in Hys. pose proof (Hys r y Hy) as Hyl.
  assert (length o = d) as Hol by (rewrite Forall_lookup in Hrun; by eapply Hrun).
  change (f32_zip (fun a b => f32_add a (f32_mul w b)) o y) with (acc_row w y o).
  rewrite (copy_row d) by (done || lia || by rewrite acc_row_length; lia).
  eexists. split; [done|].
  assert (run (r + 1) = <[t := acc_row w y o]> (run r)) as ->.
  { unfold run at 1. rewrite Nat.add_1_r, (take_S_r ps r (t, (w, y))).
    - rewrite foldl_app. cbn. fold (run r). apply list_eq. intros i. destruct (decide (i = t)) as [->|Hne].
      + by rewrite list_lookup_alter_eq, Ho, list_lookup_insert_eq by lia.
      + by rewrite list_lookup_alter_ne, list_lookup_insert_ne by done.
    - unfold ps. change (map ?f ?l) with (f <$> l). rewrite list_lookup_fmap.
      assert (combine rows ys !! r = Some ((t, w), y)) as -> by (apply lookup_zip_with_Some; eauto 6). done. }
  split_and!; [done| |by rewrite length_insert].
  apply Forall_insert; [done|]. by rewrite acc_row_length; lia.
Qed.

Section Partial.
Context (expf tanhf : f32 -> f32) (act : ActCfg) {E X : Type} `{!ExpertProvider E}.
Local Set Default Proof Using "All".

(** An expert on one token. *)
Definition row_out (layer d e : nat) (x : list f32) : list f32 :=
  match expert layer e with
  | ROk ex => default [] (ffn expf tanhf act (ex_gate ex) (ex_up ex) (ex_down ex) x 1 d)
  | _ => []
  end.
Definition add_expert (layer d : nat) (x o : list f32) (ew : nat * f32) : list f32 :=
  if SFeqb ew.2 f0 then o else acc_row ew.2 (row_out layer d ew.1 x) o.

(** The provider has the experts, in the shape the layer needs. *)
Definition has_expert (layer d e : nat) : Prop :=
  exists ex, expert layer e = ROk ex /\ wf_ffn act (ex_gate ex) (ex_up ex) (ex_down ex) d.
Definition serves (layer d : nat) (eids : list nat) : Prop :=
  (exists u, prefetch layer eids = ROk u) /\ Forall (has_expert layer d) eids.

Context (layer d : nat) (total : gate_total expf tanhf act).

(** A token: its activation and its row of weights. *)
Abbreviation token := (list f32 * list f32)%type.
Definition wf_tokens (ne : nat) (toks : list token) : Prop :=
  Forall (fun t => length t.1 = d /\ length t.2 = ne) toks.

Lemma row_out_length e x : has_expert layer d e -> length x = d -> length (row_out layer d e x) = d.
Proof using total.
  intros (ex & He & Hwf) Hx. unfold row_out. rewrite He.
  destruct (ffn_rows expf tanhf act _ _ _ d [x] Hwf total) as (ys & H1 & H2 & _); [by constructor|].
  inversion H1 as [|? y ? ? Hy H1']; subst. rewrite Hy. cbn. by inversion H2.
Qed.

Lemma add_expert_length e w x o : has_expert layer d e -> length x = d -> length o = d ->
  length (add_expert layer d x o (e, w)) = d.
Proof using total.
  intros He Hx Ho. unfold add_expert. cbn. destruct (SFeqb w f0); [done|].
  rewrite acc_row_length; [done|]. by rewrite row_out_length.
Qed.

(** The tokens of one column. *)
Definition column_rows (ei : nat) (toks : list token) : list (nat * f32) :=
  filter (fun tw => SFeqb tw.2 f0 = false) (imap (fun t tok => (t, nth ei tok.2 f0)) toks).

Lemma tokens_of_rows ne toks ei : wf_tokens ne toks -> ei < ne ->
  tokens_of (concat (map snd toks)) ne (length toks) ei = Some (column_rows ei toks).
Proof using.
  intros Hw Hei. unfold tokens_of, column_rows.
  assert (mapM (fun t => let* w := concat (map snd toks) !! (t * ne + ei) in Some (t, w)) (seq 0 (length toks)) =
          Some (imap (fun t tok => (t, nth ei tok.2 f0)) toks)) as ->; [|done].
  apply mapM_Some, Forall2_same_length_lookup_2; [by rewrite length_seq, length_imap|].
  intros t t' p Ht Hp. apply lookup_seq in Ht as [-> Ht]. cbn in *. rewrite list_lookup_imap in Hp.
  apply fmap_Some in Hp as (tok & Htok & ->). unfold wf_tokens in Hw.
  assert (length tok.2 = ne) as Hl by (rewrite Forall_lookup in Hw; by eapply Hw).
  rewrite (row_lookup ne (concat (map snd toks)) t tok.2 ei); [|apply concat_row|done].
  - destruct (lookup_lt_is_Some_2 tok.2 ei ltac:(lia)) as [w Hx]. by rewrite nth_lookup, Hx.
  - apply Forall_map. eapply Forall_impl; [exact Hw|]. by intros ? [].
  - change (map snd toks) with (snd <$> toks). by rewrite list_lookup_fmap, Htok.
Qed.

Lemma column_rows_in ei toks t w : (t, w) ∈ column_rows ei toks <->
  exists tok, toks !! t = Some tok /\ w = nth ei tok.2 f0 /\ SFeqb w f0 = false.
Proof using.
  unfold column_rows. rewrite list_elem_of_filter, elem_of_lookup_imap. cbn. split.
  - intros (H & i & tok & [= -> ->] & Ht). eauto.
  - intros (tok & Ht & -> & H). eauto 6.
Qed.

Lemma column_rows_nodup ei toks : NoDup (column_rows ei toks).*1.
Proof using.
  unfold column_rows. assert (forall k, NoDup (filter (fun tw => SFeqb tw.2 f0 = false)
    (imap (fun t tok => (k + t, nth ei tok.2 f0)) toks)).*1 /\
    Forall (fun t => k <= t) (filter (fun tw => SFeqb tw.2 f0 = false) (imap (fun t tok => (k + t, nth ei tok.2 f0)) toks)).*1) as H.
  { induction toks as [|tok toks IH]; intros k; [split; constructor|]. rewrite imap_cons, filter_cons.
    assert (imap ((fun t tok => (k + t, nth ei tok.2 f0)) ∘ S) toks = imap (fun t tok => (S k + t, nth ei tok.2 f0)) toks) as ->
      by (apply imap_ext; intros; cbn; f_equal; lia).
    destruct (IH (S k)) as [H1 H2]. assert (Forall (fun t => k <= t) (filter (fun tw => SFeqb tw.2 f0 = false)
      (imap (fun t tok => (S k + t, nth ei tok.2 f0)) toks)).*1) as H3 by (eapply Forall_impl; [exact H2|cbn; lia]).
    case_decide; [|done]. rewrite fmap_cons. cbn. rewrite Nat.add_0_r. split; [|by constructor].
    constructor; [|done]. intros Hin. rewrite Forall_forall in H2. apply H2 in Hin. lia. }
  apply (H 0).
Qed.

Lemma run_expert_rows ne toks os ei e : wf_tokens ne toks -> ei < ne -> has_expert layer d e ->
  length os = length toks -> Forall (fun o => length o = d) os ->
  run_expert expf tanhf act (X := X) layer (concat (map fst toks)) d (concat os) (e, column_rows ei toks) =
  ROk (concat (zip_with (fun tok o => add_expert layer d tok.1 o (e, nth ei tok.2 f0)) toks os)).
Proof.
  intros Hw Hei Hex Hl Hos. pose proof Hex as (ex & He & Hwf). unfold run_expert. rewrite He. cbn [lift].
  set (rows := column_rows ei toks). set (nth_tok := fun t => default ([], []) (toks !! t)).
  assert (forall t w, (t, w) ∈ rows -> t < length toks /\ toks !! t = Some (nth_tok t) /\ length (nth_tok t).1 = d) as Hrows.
  { intros t w (tok & Ht & _)%column_rows_in. unfold nth_tok. rewrite Ht. cbn. split_and!; [by eapply lookup_lt_Some|done|].
    unfold wf_tokens in Hw. rewrite Forall_lookup in Hw. by eapply Hw. }
  assert (mapM (fun tw => range (concat (map fst toks)) (tw.1 * d) ((tw.1 + 1) * d)) rows =
          Some (map (fun tw => (nth_tok tw.1).1) rows)) as ->.
  { rewrite <- mapM_map. apply mapM_ext_in. intros [t w] Hin. destruct (Hrows t w Hin) as (H1 & H2 & H3). cbn.
    apply concat_row_range.
    - apply Forall_map. eapply Forall_impl; [exact Hw|]. by intros ? [].
    - change (map fst toks) with (fst <$> toks). by rewrite list_lookup_fmap, H2. }
  cbv beta iota zeta.
  destruct (ffn_rows expf tanhf act _ _ _ d (map (fun tw => (nth_tok tw.1).1) rows) Hwf total) as (ys & H1 & H2 & H3).
  { apply Forall_map, Forall_forall. intros [t w] Hin. by apply (Hrows t w). }
  rewrite length_map in H3. rewrite H3. cbv beta iota.
  assert (ys = map (fun tw => row_out layer d e (nth_tok tw.1).1) rows) as ->.
  { apply Forall2_fmap_l in H1. clear - H1 He. induction H1 as [|tw y rs ys Hy _ IH]; [done|]. cbn.
    f_equal; [|exact IH]. unfold row_out. rewrite He. unfold compose in Hy. by rewrite Hy. }
  rewrite scatter_rows; [|done|done|by rewrite length_map|].
  2: { apply Forall_forall. intros [t w] Hin. cbn. rewrite Hl. by apply (Hrows t w). }
  cbn [unwrap]. do 2 f_equal.
  assert (map (fun '(tw, y) => (tw.1, (tw.2, y))) (combine rows (map (fun tw => row_out layer d e (nth_tok tw.1).1) rows)) =
          map (fun tw => (tw.1, (tw.2, row_out layer d e (nth_tok tw.1).1))) rows) as ->.
  { clear. induction rows as [|tw rows IH]; [done|]. cbn. by f_equal. }
  set (ps := map _ rows).
  assert (ps.*1 = rows.*1) as Hps by (unfold ps; change (map ?f ?l) with (f <$> l); by rewrite <- list_fmap_compose).
  apply list_eq. intros t. rewrite lookup_zip_with. destruct (toks !! t) as [tok|] eqn:Ht; cbn.
  2: { apply lookup_ge_None_2. rewrite foldl_alter_length. apply lookup_ge_None_1 in Ht. lia. }
  assert (nth_tok t = tok) as Hnt by (unfold nth_tok; by rewrite Ht).
  unfold add_expert. cbn. destruct (SFeqb (nth ei tok.2 f0) f0) eqn:Ez.
  - rewrite foldl_alter_other; [by destruct (os !! t)|]. rewrite Hps. intros ([t' w] & -> & Hin)%list_elem_of_fmap.
    apply column_rows_in in Hin as (tok' & Ht' & -> & Hz). cbn in *. congruence.
  - assert ((t, (nth ei tok.2 f0, row_out layer d e tok.1)) ∈ ps) as Hin.
    { unfold ps. apply list_elem_of_fmap. exists (t, nth ei tok.2 f0). cbn. rewrite Hnt. split; [done|].
      apply column_rows_in. eauto. }
    pose proof (foldl_alter_in (fun p : nat * (f32 * list f32) => acc_row p.2.1 p.2.2) ps os _
      ltac:(rewrite Hps; apply column_rows_nodup) Hin) as Hf. cbn [fst snd] in Hf. rewrite Hf.
    by destruct (os !! t).
Qed.

Lemma add_column ei e toks os : length os = length toks -> Forall (fun o => length o = d) os ->
  column_rows ei toks = [] ->
  zip_with (fun tok o => add_expert layer d tok.1 o (e, nth ei tok.2 f0)) toks os = os.
Proof using.
  intros Hl Hos He. apply list_eq. intros t. rewrite lookup_zip_with. destruct (toks !! t) as [tok|] eqn:Ht; cbn.
  2: { apply lookup_ge_None_1 in Ht. by rewrite lookup_ge_None_2 by lia. }
  destruct (os !! t) as [o|]; [|done]. cbn. f_equal. unfold add_expert. cbn. destruct (SFeqb _ _) eqn:Hz; [done|].
  exfalso. apply (not_elem_of_nil (t, nth ei tok.2 f0)). rewrite <- He. apply column_rows_in. eauto.
Qed.

Lemma experts_rows ne toks cols : forall os,
  wf_tokens ne toks -> Forall (fun c : nat * nat => c.1 < ne /\ has_expert layer d c.2) cols ->
  length os = length toks -> Forall (fun o => length o = d) os ->
  exists per, mapM (fun '(ei, e) => let* rows := tokens_of (concat (map snd toks)) ne (length toks) ei in Some (e, rows)) cols = Some per /\
    for_each (run_expert expf tanhf act (X := X) layer (concat (map fst toks)) d) (filter (fun er => er.2 <> []) per) (concat os) =
    ROk (concat (zip_with (fun tok o => foldl (fun o c => add_expert layer d tok.1 o (c.2, nth c.1 tok.2 f0)) o cols) toks os)).
Proof.
  induction cols as [|[ei e] cols IH]; intros os Hw Hc Hl Hos.
  { exists []. split; [done|]. cbn. do 2 f_equal. revert toks Hw Hl. induction os as [|o os IHo]; intros [|tok toks] Hw Hl; try done.
    cbn. f_equal. apply IHo; [by inversion Hos|by inversion Hw|by injection Hl]. }
  apply Forall_cons in Hc as [[Hei Hex] Hc]. cbn in Hei, Hex.
  set (os1 := zip_with (fun tok o => add_expert layer d tok.1 o (e, nth ei tok.2 f0)) toks os).
  assert (length os1 = length toks) as Hl1 by (unfold os1; rewrite length_zip_with; lia).
  assert (Forall (fun o => length o = d) os1) as Hos1.
  { apply Forall_lookup. intros t o1 Ho. unfold os1 in Ho. rewrite lookup_zip_with in Ho.
    destruct (toks !! t) as [tok|] eqn:Ht; [|done]. cbn in Ho. destruct (os !! t) as [o|] eqn:Hot; [|done]. injection Ho as <-.
    unfold wf_tokens in Hw. rewrite Forall_lookup in Hw. rewrite Forall_lookup in Hos. apply add_expert_length; [done|by eapply Hw|by eapply Hos]. }
  destruct (IH os1 Hw Hc Hl1 Hos1) as (per & Em & Hrun). cbn [mapM]. cbn.
  change (foldr _ _ cols) with (mapM (fun '(ei, e) => let* rows := tokens_of (concat (map snd toks)) ne (length toks) ei in Some (e, rows)) cols).
  rewrite (tokens_of_rows ne toks ei Hw Hei). cbn. rewrite Em. cbn.
  exists ((e, column_rows ei toks) :: per). split; [done|].
  assert (zip_with (fun tok o => foldl (fun o c => add_expert layer d tok.1 o (c.2, nth c.1 tok.2 f0))
            (add_expert layer d tok.1 o (e, nth ei tok.2 f0)) cols) toks os =
          zip_with (fun tok o => foldl (fun o c => add_expert layer d tok.1 o (c.2, nth c.1 tok.2 f0)) o cols) toks os1) as ->.
  { apply list_eq. intros t. unfold os1. rewrite !lookup_zip_with. destruct (toks !! t); [|done]. cbn. by destruct (os !! t). }
  rewrite <- Hrun. rewrite filter_cons. cbn [fst snd].
  destruct (column_rows ei toks) as [|p ps] eqn:Hd.
  - rewrite decide_False by auto. unfold os1. by rewrite add_column.
  - rewrite decide_True by done. rewrite <- Hd. cbn [for_each]. by rewrite (run_expert_rows ne).
Qed.

Lemma foldl_columns {B} (g : B -> nat * f32 -> B) eids : forall (wr : list f32) o, length wr = length eids ->
  foldl (fun o c => g o (c.2, nth c.1 wr f0)) o (imap pair eids) = foldl g o (combine eids wr).
Proof using.
  assert (forall (wr p : list f32) o, length wr = length eids ->
    foldl (fun o c => g o (c.2, nth c.1 (p ++ wr) f0)) o (imap (fun i e => (length p + i, e)) eids) = foldl g o (combine eids wr)) as H.
  { induction eids as [|e eids IH]; intros [|w wr] p o Hl; try done. rewrite imap_cons. cbn [foldl combine fst snd].
    rewrite app_nth2, Nat.add_0_r, Nat.sub_diag by lia. cbn [nth].
    rewrite <- (IH wr (p ++ [w])) by (cbn in Hl; lia). rewrite <- app_assoc. cbn [app]. f_equal.
    apply imap_ext. intros. cbn. rewrite length_app. cbn. f_equal. lia. }
  intros wr o Hl. apply (H wr [] o Hl).
Qed.

(** A token's sum over experts and weights, in their order. *)
Definition token_sum (x o : list f32) (ews : list (nat * f32)) : list f32 := foldl (add_expert layer d x) o ews.

Lemma partial_into_rows experts toks os :
  serves layer d (map Z.to_nat experts) -> wf_tokens (length experts) toks -> length os = length toks ->
  Forall (fun o => length o = d) os ->
  compute_experts_partial_into expf tanhf act (X := X) layer experts (concat (map snd toks)) (concat (map fst toks))
    (length toks) d (concat os) =
  ROk (concat (zip_with (fun tok o => token_sum tok.1 o (combine (map Z.to_nat experts) tok.2)) toks os)).
Proof.
  intros [[u Hpre] Hs] Hw Hl Hos. unfold compute_experts_partial_into. destruct (Nat.eqb_spec (length experts) 0) as [H0|H0].
  { destruct experts; [|done]. cbn. do 2 f_equal. revert toks Hw Hl. clear. induction os as [|o os IH]; intros [|tok toks] Hw Hl; try done.
    cbn. f_equal. apply IH; [by inversion Hw|by injection Hl]. }
  rewrite Hpre. cbn [lift].
  destruct (experts_rows (length experts) toks (imap pair (map Z.to_nat experts)) os Hw) as (per & Em & Hrun); [|done|done|].
  { apply Forall_forall. intros [ei e] Hin. apply elem_of_lookup_imap in Hin as (i & e' & [= -> ->] & Hi). cbn. split.
    - apply lookup_lt_Some in Hi. by rewrite length_map in Hi.
    - rewrite Forall_lookup in Hs. by eapply Hs. }
  rewrite Em. cbn [unwrap]. rewrite Hrun. do 2 f_equal. apply list_eq. intros t. rewrite !lookup_zip_with.
  destruct (toks !! t) as [tok|] eqn:Ht; [|done]. cbn. destruct (os !! t) as [o|]; [|done]. cbn. f_equal.
  unfold token_sum. apply foldl_columns. unfold wf_tokens in Hw. rewrite Forall_lookup in Hw. rewrite length_map. by eapply Hw.
Qed.

Lemma replicate_rows n : replicate (n * d) f0 = concat (replicate n (replicate d f0)).
Proof using. induction n as [|n IH]; [done|]. cbn. by rewrite replicate_add, IH. Qed.

Lemma zip_with_replicate {A} (g : token -> list f32 -> A) toks o :
  zip_with g toks (replicate (length toks) o) = map (fun tok => g tok o) toks.
Proof using. induction toks as [|tok toks IH]; [done|]. cbn. by rewrite IH. Qed.

Lemma partial_rows experts toks :
  serves layer d (map Z.to_nat experts) -> wf_tokens (length experts) toks ->
  compute_experts_partial expf tanhf act (X := X) layer experts (concat (map snd toks)) (concat (map fst toks)) (length toks) d =
  ROk (concat (map (fun tok => token_sum tok.1 (replicate d f0) (combine (map Z.to_nat experts) tok.2)) toks)).
Proof.
  intros Hs Hw. unfold compute_experts_partial. rewrite replicate_rows, partial_into_rows; [|done|done|by rewrite length_replicate|].
  - by rewrite (zip_with_replicate (fun tok o => token_sum tok.1 o (combine (map Z.to_nat experts) tok.2))).
  - apply Forall_replicate. apply length_replicate.
Qed.
End Partial.

(** ** Sums of at most two experts *)

Lemma combine_map_fst {A B} (f : A -> B) (l : list A) : combine l (map f l) = map (fun x => (x, f x)) l.
Proof. induction l as [|x l IH]; [done|]. cbn. by f_equal. Qed.

Section Sums.
Context (expf tanhf : f32 -> f32) (act : ActCfg) {E : Type} `{!ExpertProvider E} (layer d : nat).
Local Set Default Proof Using "All".

Definition nonzero (ews : list (nat * f32)) : list (nat * f32) := filter (fun ew => SFeqb ew.2 f0 = false) ews.

Lemma token_sum_nonzero x ews : forall o,
  token_sum expf tanhf act layer d x o ews = token_sum expf tanhf act layer d x o (nonzero ews).
Proof.
  induction ews as [|[e w] ews IH]; intros o; [done|]. unfold nonzero. rewrite filter_cons. cbn. fold (nonzero ews).
  unfold add_expert at 2. cbn. destruct (SFeqb w f0) eqn:Hw.
  - rewrite decide_False by done. apply IH.
  - rewrite decide_True by done. cbn. unfold add_expert at 3. cbn. rewrite Hw. apply IH.
Qed.

Lemma acc_row_swap n wa ya wb yb : length ya = n -> length yb = n ->
  acc_row wb yb (acc_row wa ya (replicate n f0)) = acc_row wa ya (acc_row wb yb (replicate n f0)).
Proof using.
  unfold acc_row, f32_zip. revert ya yb. induction n as [|n IH]; intros [|a ya] [|b yb] Ha Hb; try done.
  injection Ha as Ha. injection Hb as Hb. cbn. f_equal; [apply f32_add_swap|by apply IH].
Qed.

Lemma token_sum_perm x ews1 ews2 :
  nonzero ews1 ≡ₚ nonzero ews2 -> length (nonzero ews1) <= 2 ->
  Forall (fun ew => length (row_out expf tanhf act layer d ew.1 x) = d) (nonzero ews1) ->
  token_sum expf tanhf act layer d x (replicate d f0) ews1 = token_sum expf tanhf act layer d x (replicate d f0) ews2.
Proof.
  intros Hp Hl Hrow. rewrite (token_sum_nonzero x ews1), (token_sum_nonzero x ews2).
  assert (Forall (fun ew => SFeqb ew.2 f0 = false) (nonzero ews1)) as Hnz.
  { apply Forall_forall. intros ew. unfold nonzero. by intros [? _]%list_elem_of_filter. }
  destruct (nonzero ews1) as [|[a wa] [|[b wb] [|]]]; [| | |simpl in Hl; lia].
  - by apply Permutation_nil_l in Hp as <-.
  - by apply Permutation_singleton_l in Hp as ->.
  - apply Forall_cons in Hrow as [Ha Hrow]. apply Forall_cons in Hrow as [Hb _]. cbn in Ha, Hb.
    apply Forall_cons in Hnz as [Na Hnz]. apply Forall_cons in Hnz as [Nb _]. cbn in Na, Nb.
    apply Permutation_length_2_inv in Hp as [->| ->]; [done|].
    cbn. unfold add_expert. cbn. rewrite Na, Nb. by apply acc_row_swap.
Qed.

(** What a token sums, over a union of choices. *)
Definition over (uniq : list nat) (r : list nat * list f32) : list (nat * f32) :=
  combine uniq (map (pick_weight (picks_of r) f0) uniq).

Lemma over_nonzero (uniq : list nat) r : nonzero (over uniq r) =
  map (fun e => (e, pick_weight (picks_of r) f0 e)) (filter (fun e => SFeqb (pick_weight (picks_of r) f0 e) f0 = false) uniq).
Proof using.
  unfold over, nonzero. rewrite combine_map_fst. induction uniq as [|e uniq IH]; [done|]. cbn [map].
  rewrite !filter_cons. cbn. case_decide; [cbn; by f_equal|done].
Qed.

Lemma picked (uniq : list nat) r e : e ∈ filter (fun e => SFeqb (pick_weight (picks_of r) f0 e) f0 = false) uniq -> e ∈ r.1.
Proof using.
  intros [Hz _]%list_elem_of_filter. apply dec_stable. intros Hn. rewrite pick_weight_other in Hz; [done|].
  intros ([x w] & -> & Hin)%list_elem_of_fmap. apply Hn. unfold picks_of in Hin. apply list_elem_of_In in Hin.
  apply list_elem_of_In. by eapply in_combine_l.
Qed.

Lemma over_perm (u1 u2 : list nat) r : NoDup u1 -> NoDup u2 -> (forall e, e ∈ r.1 -> e ∈ u1 /\ e ∈ u2) ->
  nonzero (over u1 r) ≡ₚ nonzero (over u2 r) /\ length (nonzero (over u1 r)) <= length r.1.
Proof using.
  intros H1 H2 Hin. rewrite !over_nonzero. split.
  - apply Permutation_map, NoDup_Permutation; [by apply NoDup_filter|by apply NoDup_filter|]. intros e. split; intros He.
    + pose proof (picked _ _ _ He) as Hr. apply list_elem_of_filter in He as [Hz _]. apply list_elem_of_filter. split; [done|by apply Hin].
    + pose proof (picked _ _ _ He) as Hr. apply list_elem_of_filter in He as [Hz _]. apply list_elem_of_filter. split; [done|by apply Hin].
  - rewrite length_map. apply submseteq_length, NoDup_submseteq; [by apply NoDup_filter|]. intros e. apply picked.
Qed.
End Sums.
