(* ===== verification/MoeBatch.v ===== *)
(** * A batch through the routed experts

    The routed block of [Moe.v] on a block of tokens, token by token: what the
    union of the choices does to each, and when it does not show. *)

From Stdlib Require Import ZifyBool ZifyNat SpecFloat.
From S2P Require Import Prelude Rows DType Math Floats Linear Sharding Config Model Moe.
Local Open Scope nat_scope.

(** ** A block, token by token *)

Lemma best_in choice chosen l acc : (foldl (best_step choice chosen) acc l).1 ∈ acc.1 :: l.
Proof.
  revert acc. induction l as [|e l IH]; intros acc; [left|]. cbn [foldl]. specialize (IH (best_step choice chosen acc e)).
  apply elem_of_cons in IH as [->|IH]; [|by right; right]. unfold best_step. destruct (_ && _); [right; left|left].
Qed.

Lemma choose_lt choice k : forall chosen, 0 < length choice -> Forall (fun e => e < length choice) (choose choice k chosen).
Proof.
  induction k as [|k IH]; intros chosen Hl; [constructor|]. cbn [choose]. constructor; [|by apply IH].
  pose proof (best_in choice chosen (seq 0 (length choice)) (0, NEG_INFINITY)) as H. unfold best_unchosen.
  apply elem_of_cons in H as [->|H]; [done|]. apply elem_of_seq in H. lia.
Qed.

Lemma choose_length choice k : forall chosen, length (choose choice k chosen) = k.
Proof. induction k as [|k IH]; intros chosen; [done|]. cbn. by rewrite IH. Qed.

Lemma scale_weights_length c w : length (scale_weights c w) = length w.
Proof. unfold scale_weights. destruct (norm_topk c); by rewrite !length_map. Qed.

Lemma zip_add_rows d : forall (os ps : list (list f32)), Forall (fun o => length o = d) os -> Forall (fun p => length p = d) ps ->
  length os = length ps -> zip_add (concat os) (concat ps) = concat (zip_with (f32_zip f32_add) os ps).
Proof.
  assert (forall o p, length o = length p -> zip_add o p = f32_zip f32_add o p) as Heq.
  { intros o p Hl. unfold zip_add, f32_zip. apply list_eq. intros i. rewrite list_lookup_imap.
    change (map ?f ?l) with (f <$> l). rewrite list_lookup_fmap. destruct (o !! i) as [x|] eqn:Hx; cbn.
    - destruct (lookup_lt_is_Some_2 p i) as [y Hy]; [apply lookup_lt_Some in Hx; lia|]. rewrite Hy.
      by rewrite (lookup_zip_with_Some pair o p i (x, y) : combine o p !! i = Some (x, y) <-> _) || (assert (combine o p !! i = Some (x, y)) as -> by (apply lookup_zip_with_Some; eauto)).
    - assert (combine o p !! i = None) as ->; [|done]. apply lookup_ge_None_2. rewrite length_combine. apply lookup_ge_None_1 in Hx. lia. }
  intros os ps Hos Hps Hl. rewrite Heq by (rewrite !(concat_len d) by done; lia).
  revert ps Hps Hl. induction Hos as [|o os Ho Hos IH]; intros [|p ps] Hps Hl; try done.
  apply Forall_cons in Hps as [Hp Hps]. cbn. unfold f32_zip. rewrite combine_app_eq, map_app by lia. f_equal.
  apply IH; [done|by injection Hl].
Qed.

Lemma norm_chunks_rows dl w ep rs : 0 < dl -> dl <= length w -> Forall (fun r => length r = dl) rs ->
  forall fuel, length (concat rs) <= fuel ->
  norm_chunks fuel dl w ep (concat rs) = Some (concat (map (fun r => default [] (rmsnorm r w ep)) rs)) /\
  Forall (fun r => length r = dl) (map (fun r => default [] (rmsnorm r w ep)) rs).
Proof.
  intros Hdl Hw. induction 1 as [|r rs Hr _ IH]; intros fuel Hf; [by destruct fuel|].
  cbn [concat] in *. rewrite length_app in Hf. destruct fuel as [|fuel]; [lia|]. destruct (rmsnorm_total r w ep) as (y & E1 & Hy); [lia|].
  destruct (IH fuel) as [E2 H2]; [lia|]. cbn [norm_chunks map concat]. rewrite take_app_length', drop_app_length' by done. rewrite E1, E2.
  destruct r as [|a r]; [simpl in Hr; lia|]. cbn [app]. cbv beta iota. split; [done|]. constructor; [cbn; lia|done].
Qed.

(** ** Tokens that pick their experts *)

(** Tokens of any kind, each with its row and its choice. *)
Section Picks.
Context (expf tanhf : f32 -> f32) (act : ActCfg) {E X : Type} `{!ExpertProvider E} (layer e_n k w : nat).
Context {A : Type} (pick : A -> list nat * list f32) (row : A -> list f32).

(** What the experts of [uniq], in its order, add up to for one token. *)
Definition picks_sum (uniq : list nat) (a : A) : list f32 :=
  token_sum expf tanhf act layer w (row a) (replicate w f0) (over uniq (pick a)).

Lemma union_picks ts : choices k e_n (map pick ts) ->
  exists uniq, union_and_weights (concat (map fst (map pick ts))) (concat (map snd (map pick ts))) (length ts) k e_n =
      Some (uniq, concat (map (fun a => map (pick_weight (picks_of (pick a)) f0) uniq) ts)) /\
    NoDup uniq /\ Forall (fun e => e < e_n) uniq /\ (forall e, e ∈ uniq <-> exists a, a ∈ ts /\ e ∈ (pick a).1).
Proof using Type.
  intros Hc. destruct (union_weights_spec _ _ _ Hc) as (uniq & E' & H1 & H2 & H3). rewrite length_map in E'.
  exists uniq. rewrite E', map_map. split_and!; [done|done|done|].
  intros e. rewrite H3. split.
  - intros (r & (a & -> & Ha)%list_elem_of_fmap & He). eauto.
  - intros (a & Ha & He). exists (pick a). split; [|done]. apply list_elem_of_fmap. eauto.
Qed.

(** The union as the experts of a request. *)
Lemma request_ids n uniq : (n < 2 ^ 32)%Z -> Forall (fun e => e < Z.to_nat n) uniq ->
  map Z.to_nat (map (fun e => u32 (Z.of_nat e)) uniq) = uniq.
Proof using Type.
  intros Hn Hu. rewrite map_map. rewrite <- (map_id uniq) at 2. apply map_ext_Forall.
  eapply Forall_impl; [exact Hu|]. intros e He. cbn in He. unfold u32. rewrite Z.mod_small; lia.
Qed.

Context (total : gate_total expf tanhf act) (ready_for : forall eids, exists u, prefetch layer eids = ROk u)
  (has : forall e, e < e_n -> has_expert act layer w e).

Lemma partial_picks uniq ts : (Z.of_nat e_n < 2 ^ 32)%Z -> Forall (fun e => e < e_n) uniq -> Forall (fun a => length (row a) = w) ts ->
  compute_experts_partial expf tanhf act (X := X) layer (map (fun e => u32 (Z.of_nat e)) uniq)
    (concat (map (fun a => map (pick_weight (picks_of (pick a)) f0) uniq) ts)) (concat (map row ts)) (length ts) w =
  ROk (concat (map (picks_sum uniq) ts)).
Proof using total ready_for has.
  intros Hn Hu Hts. pose proof (request_ids (Z.of_nat e_n) uniq Hn) as Hids. rewrite Nat2Z.id in Hids. specialize (Hids Hu).
  pose proof (partial_rows expf tanhf act (X := X) layer w total (map (fun e => u32 (Z.of_nat e)) uniq)
    (map (fun a => (row a, map (pick_weight (picks_of (pick a)) f0) uniq)) ts)) as Hp.
  rewrite Hids in Hp. rewrite !map_map, !length_map in Hp. cbn [fst snd] in Hp. change (map (fun a => row a) ts) with (map row ts) in Hp.
  rewrite Hp; [done| |].
  - split; [apply ready_for|]. eapply Forall_impl; [exact Hu|exact has].
  - apply Forall_map. eapply Forall_impl; [exact Hts|]. intros a Ha. cbn. by rewrite length_map.
Qed.

Lemma token_sum_length x ews : forall o, Forall (fun ew => has_expert act layer w ew.1) ews -> length x = w -> gate_total expf tanhf act ->
  length o = w -> length (token_sum expf tanhf act layer w x o ews) = w.
Proof using Type.
  induction ews as [|ew ews IH]; intros o He Hx Ht Ho; [done|]. apply Forall_cons in He as [He He']. cbn. apply IH; [done|done|done|].
  by apply add_expert_length.
Qed.

Lemma picks_sum_length uniq a : Forall (fun e => e < e_n) uniq -> length (row a) = w -> length (picks_sum uniq a) = w.
Proof using total has.
  intros Hu Hx. apply token_sum_length; [|done|done|apply length_replicate].
  unfold over. rewrite combine_map_fst. apply Forall_map. eapply Forall_impl; [exact Hu|]. intros e He. by apply has.
Qed.

(** With at most two experts a token, the union does not show. *)
Lemma picks_sum_own uniq a : Forall (fun e => e < e_n) (pick a).1 -> length (pick a).1 <= 2 -> length (row a) = w ->
  NoDup uniq -> (forall e, e ∈ (pick a).1 -> e ∈ uniq) -> picks_sum uniq a = picks_sum (remove_dups (pick a).1) a.
Proof using total has.
  intros Hlt Hlen Ho Hn Hin. symmetry. unfold picks_sum.
  destruct (over_perm (remove_dups (pick a).1) uniq (pick a)) as [Hp Hlp]; [apply NoDup_remove_dups|done| |].
  { intros e He. split; [by apply elem_of_remove_dups|by apply Hin]. }
  rewrite (token_sum_perm expf tanhf act layer w (row a) _ _ Hp); [done|lia|].
  rewrite over_nonzero. apply Forall_map, Forall_forall. intros e He%picked. cbn.
  apply (row_out_length expf tanhf act layer _ total); [|done].
  apply has. rewrite Forall_forall in Hlt. by apply Hlt.
Qed.
End Picks.

(** ** The blocks' parts, token by token *)

Section Block.
Context (expf tanhf : f32 -> f32) (act : ActCfg) {E X : Type} `{!ExpertProvider E} `{!Transport X}.
Context (c : Config) (l : Layer) (layer : nat).
Local Set Default Proof Using "All".

Abbreviation d := (Z.to_nat (hidden c)).
Abbreviation e_n := (Z.to_nat (n_experts c)).

(** The router of a layer the loader accepts. *)
Record routable : Prop := {
  rt_experts : 0 < e_n /\ (n_experts c < 2 ^ 32)%Z;
  rt_router : length (l_router l) = e_n * d;
  rt_bias : router_score c = Sigmoid -> e_n <= length (l_router_bias l)
}.

(** A node that has every expert of the layer, on rows of width [w]. *)
Record stocked (w : nat) : Prop := {
  sk_gate : gate_total expf tanhf act;
  sk_prefetch : forall eids, exists u, prefetch layer eids = ROk u;
  sk_has : forall e, e < e_n -> has_expert act layer w e
}.

(** What the block of the hidden width needs, and the block of the latent one. *)
Record ready (with_shared : bool) : Prop := {
  rd_routable : routable;
  rd_stocked : stocked d;
  rd_shared : with_shared = true -> wf_ffn act (l_sh_gate l) (l_sh_up l) (l_sh_down l) d
}.
Record ready_latent (dl : nat) : Prop := {
  rl_routable : routable;
  rl_stocked : stocked dl;
  rl_fc1 : exists w, l_fc1_latent l = Some w /\ wf_qt w d dl;
  rl_fc2 : exists w, l_fc2_latent l = Some w /\ wf_qt w dl d;
  rl_shared : wf_ffn act (l_gate_proj l) (l_up_proj l) (l_down_proj l) d
}.

(** One token's scores, choice and shared expert. *)
Definition token_route (x : list f32) : list nat * list f32 :=
  default ([], [])
    (let* rows := each_row d e_n Some (l_router l) in route expf c (map (dot_f32 x) rows) (l_router_bias l)).
Definition token_shared (x : list f32) : list f32 :=
  default [] (ffn expf tanhf act (l_sh_gate l) (l_sh_up l) (l_sh_down l) x 1 d).

Lemma route_rows_tokens xs : routable -> Forall (fun x => length x = d) xs ->
  route_rows expf c l (concat xs) (length xs) = Some (map token_route xs) /\
  choices (active_experts c) e_n (map token_route xs).
Proof.
  intros R Hxs. destruct (split_rows d e_n (l_router l) (rt_router R)) as (rows & Hl & Hrows & Hr).
  assert (forall x, token_route x = default ([], []) (route expf c (map (dot_f32 x) rows) (l_router_bias l))) as Htr.
  { intros x. unfold token_route. rewrite Hr, <- Hl, each_row_concat by done.
    change (mapM Some rows) with (mapM (fun x => Some (id x)) rows). by rewrite mapM_map, map_id. }
  assert (forall x, exists idx w, route expf c (map (dot_f32 x) rows) (l_router_bias l) = Some (idx, w) /\
    length idx = active_experts c /\ length w = active_experts c /\ Forall (fun e => e < e_n) idx) as Hroute.
  { intros x. eexists _, _. split; [apply route_eq; intros Hs; rewrite length_map, Hl; by apply (rt_bias R)|].
    rewrite scale_weights_length, !length_map, choose_length, Hl. split_and!; [done|done|].
    eapply Forall_impl; [apply choose_lt|cbn].
    all: assert (length (route_choice expf c (map (dot_f32 x) rows) (l_router_bias l)) = e_n) as ->; [|try apply (rt_experts R); lia].
    all: unfold route_choice, route_scores, f32_zip; destruct (router_score c) eqn:Hs;
      [rewrite length_map, length_combine, !length_map, Hl; pose proof (rt_bias R Hs); lia|];
      unfold normalized; destruct (SFltb _ _); cbn; by rewrite ?length_map. }
  split.
  - unfold route_rows. rewrite Hr, <- Hl. rewrite matmul_f32_rows by done. cbv beta iota zeta.
    rewrite <- (length_map (fun xs => map (dot_f32 xs) rows) xs) at 1. rewrite each_row_concat.
    + change (map (fun x => map (dot_f32 x) rows) xs) with ((fun x => map (dot_f32 x) rows) <$> xs).
      change (map token_route xs) with (token_route <$> xs).
      apply mapM_Some, Forall2_fmap_l, Forall2_fmap_r, Forall_Forall2_diag, Forall_true. intros x. cbn.
      rewrite Htr. destruct (Hroute x) as (idx & w & E' & _). by rewrite E'.
    + apply Forall_map, Forall_true. intros x. unfold compose. by rewrite length_map.
  - unfold choices. apply Forall_map, Forall_true. intros x. unfold compose. rewrite Htr.
    destruct (Hroute x) as (idx & w & E' & H1 & H2 & H3). by rewrite E'.
Qed.

Lemma routed_in x : routable -> length x = d -> Forall (fun e => e < e_n) (token_route x).1 /\ length (token_route x).1 = active_experts c.
Proof. intros R Hx. destruct (route_rows_tokens [x] R) as [_ Hc]; [by constructor|]. apply Forall_cons in Hc as [(? & _ & ?) _]. done. Qed.

Lemma union_tokens xs : routable -> Forall (fun x => length x = d) xs ->
  exists uniq, union_and_weights (concat (map fst (map token_route xs))) (concat (map snd (map token_route xs))) (length xs) (active_experts c) e_n =
      Some (uniq, concat (map (fun x => map (pick_weight (picks_of (token_route x)) f0) uniq) xs)) /\
    NoDup uniq /\ Forall (fun e => e < e_n) uniq /\ (forall e, e ∈ uniq <-> exists x, x ∈ xs /\ e ∈ (token_route x).1).
Proof. intros R Hxs. by apply union_picks, route_rows_tokens. Qed.

(** ** The experts' sum, token by token *)

(** What the experts of [uniq], in its order, add up to for one token: the
    experts work on the tokens' rows, or on their projections. *)
Definition sum_over (g : list f32 -> list f32) (w : nat) : list nat -> list f32 -> list f32 :=
  picks_sum expf tanhf act layer w token_route g.

Lemma partial_tokens g w uniq xs : stocked w -> (n_experts c < 2 ^ 32)%Z -> Forall (fun e => e < e_n) uniq ->
  Forall (fun x => length (g x) = w) xs ->
  compute_experts_partial expf tanhf act (X := X) layer (map (fun e => u32 (Z.of_nat e)) uniq)
    (concat (map (fun x => map (pick_weight (picks_of (token_route x)) f0) uniq) xs)) (concat (map g xs)) (length xs) w =
  ROk (concat (map (sum_over g w uniq) xs)).
Proof. intros [] Hn. apply partial_picks; [done..|lia]. Qed.

Lemma sum_over_length g w uniq x : stocked w -> Forall (fun e => e < e_n) uniq -> length (g x) = w -> length (sum_over g w uniq x) = w.
Proof. intros []. by apply picks_sum_length. Qed.

Lemma sum_over_own g w uniq x : routable -> stocked w -> active_experts c <= 2 -> length x = d -> length (g x) = w ->
  NoDup uniq -> (forall e, e ∈ (token_route x).1 -> e ∈ uniq) ->
  sum_over g w uniq x = sum_over g w (remove_dups (token_route x).1) x.
Proof. intros R [] Hk Hx. destruct (routed_in x R Hx). eapply picks_sum_own; [done..|lia]. Qed.

Lemma ffn_tokens gate up down xs : gate_total expf tanhf act -> wf_ffn act gate up down d -> Forall (fun x => length x = d) xs ->
  let one x := default [] (ffn expf tanhf act gate up down x 1 d) in
  ffn expf tanhf act gate up down (concat xs) (length xs) (length xs * d) = Some (concat (map one xs)) /\
  Forall (fun x => length (one x) = d) xs.
Proof using Type.
  intros Ht Hw Hxs one. destruct (ffn_rows expf tanhf act gate up down d xs Hw Ht Hxs) as (ys & H1 & H2 & H3).
  assert (ys = map one xs) as ->; [|split; [done|by apply Forall_map in H2]].
  clear - H1. induction H1 as [|x y xs ys Hx _ IH]; [done|]. cbn. f_equal; [|exact IH]. unfold one. by rewrite Hx.
Qed.

(** ** The blocks, token by token *)

(** What one token gets, its experts added in the order of [uniq]. *)
Definition token_out (with_shared : bool) (uniq : list nat) (x : list f32) : list f32 :=
  let o := sum_over id d uniq x in
  if with_shared then f32_zip f32_add o (token_shared x) else o.

(** What it gets alone. *)
Definition token_row (with_shared : bool) (x : list f32) : list f32 :=
  token_out with_shared (remove_dups (token_route x).1) x.

(** A block on one node. *)
Lemma moe_rows ws xs : ready ws -> Forall (fun x => length x = d) xs ->
  exists uniq, NoDup uniq /\ Forall (fun e => e < e_n) uniq /\ (forall e, e ∈ uniq <-> exists x, x ∈ xs /\ e ∈ (token_route x).1) /\
    moe expf tanhf act (X := X) c l layer (concat xs) (length xs) (length xs * d) ws None =
    ROk (concat (map (token_out ws uniq) xs)).
Proof.
  intros R Hxs. destruct (union_tokens xs (rd_routable _ R) Hxs) as (uniq & E' & H1 & H2 & H3). exists uniq. split_and!; [done|done|done|].
  unfold moe, route_all. destruct (route_rows_tokens xs (rd_routable _ R) Hxs) as [-> _]. cbv beta iota. rewrite E'. cbn [unwrap]. cbv beta iota.
  pose proof (partial_tokens id d uniq xs (rd_stocked _ R) (proj2 (rt_experts (rd_routable _ R))) H2 Hxs) as Hp.
  rewrite map_id in Hp. unfold compute_experts_partial in Hp. rewrite Hp. clear Hp.
  destruct ws; [|done]. destruct (ffn_tokens _ _ _ xs (sk_gate _ (rd_stocked _ R)) (rd_shared _ R eq_refl) Hxs) as [-> Hs].
  cbn [unwrap]. cbv beta iota. rewrite (zip_add_rows d).
  - do 2 f_equal. rewrite zip_with_fmap_l, zip_with_fmap_r. by rewrite zip_with_diag.
  - apply Forall_map. eapply Forall_impl; [exact Hxs|]. intros x Hx. by apply (sum_over_length id d uniq x (rd_stocked _ R) H2).
  - by apply Forall_map.
  - by rewrite !length_map.
Qed.

Lemma token_out_length ws uniq x : ready ws -> Forall (fun e => e < e_n) uniq -> length x = d -> length (token_out ws uniq x) = d.
Proof.
  intros R Hu Hx. pose proof (sum_over_length id d uniq x (rd_stocked _ R) Hu Hx) as Hs. unfold token_out. destruct ws; [|done].
  destruct (ffn_tokens _ _ _ [x] (sk_gate _ (rd_stocked _ R)) (rd_shared _ R eq_refl)) as [_ Hf]; [by constructor|].
  apply Forall_cons in Hf as [Hf _]. unfold f32_zip, token_shared. rewrite length_map, length_combine, Hs, Hf. lia.
Qed.

Lemma moe_tokens ws xs : ready ws -> active_experts c <= 2 -> Forall (fun x => length x = d) xs ->
  moe expf tanhf act (X := X) c l layer (concat xs) (length xs) (length xs * d) ws None = ROk (concat (map (token_row ws) xs)) /\
  Forall (fun x => length (token_row ws x) = d) xs.
Proof.
  intros R Hk Hxs. destruct (moe_rows ws xs R Hxs) as (uniq & Hn & Hlt & Hu & ->). split.
  - do 2 f_equal. apply map_ext_Forall, Forall_forall. intros x Hx. rewrite Forall_forall in Hxs. unfold token_row, token_out.
    rewrite (sum_over_own id d uniq x (rd_routable _ R) (rd_stocked _ R) Hk (Hxs x Hx) (Hxs x Hx) Hn); [done|].
    intros e He. apply Hu. eauto.
  - eapply Forall_impl; [exact Hxs|]. intros x Hx. apply token_out_length; [done| |done].
    apply Forall_forall. intros e He. rewrite elem_of_remove_dups in He. destruct (routed_in x (rd_routable _ R) Hx) as [Hl _].
    rewrite Forall_forall in Hl. by apply Hl.
Qed.

(** The block whose experts work in the latent space. *)
Definition latent (x : list f32) : list f32 := match l_fc1_latent l with Some w => matvec w x | None => [] end.
Definition lat_row (dl : nat) (x : list f32) : list f32 :=
  let y := sum_over latent dl (remove_dups (token_route x).1) x in
  f32_zip f32_add (match l_fc2_latent l with Some w => matvec w y | None => [] end)
    (default [] (ffn expf tanhf act (l_gate_proj l) (l_up_proj l) (l_down_proj l) x 1 d)).

Lemma latent_tokens xs : let dl := Z.to_nat (moe_latent c) in
  ready_latent dl -> active_experts c <= 2 -> Forall (fun x => length x = d) xs ->
  nemotron_moe expf tanhf act (X := X) c l layer (concat xs) (length xs) (length xs * d) None = ROk (concat (map (lat_row dl) xs)) /\
  Forall (fun x => length (lat_row dl x) = d) xs.
Proof.
  intros dl R Hk Hxs. destruct (rl_fc1 _ R) as (w1 & E1 & W1). destruct (rl_fc2 _ R) as (w2 & E2 & W2).
  destruct (union_tokens xs (rl_routable _ R) Hxs) as (uniq & E' & H1 & H2 & H3).
  assert (forall x, length (latent x) = dl) as Hlat by (intros x; unfold latent; rewrite E1; by apply (matvec_length w1 d)).
  destruct (ffn_tokens _ _ _ xs (sk_gate _ (rl_stocked _ R)) (rl_shared _ R) Hxs) as [Ef Hf]. split.
  - unfold nemotron_moe. fold dl. destruct (route_rows_tokens xs (rl_routable _ R) Hxs) as [-> _]. cbn [unwrap]. cbv beta iota.
    rewrite E1, E2. cbn [unwrap]. cbv beta iota. rewrite (matmul_qt_wf w1 d dl) by done. cbn [unwrap]. cbv beta iota. rewrite E'. cbn [unwrap]. cbv beta iota.
    assert (map (matvec w1) xs = map latent xs) as -> by (apply map_ext; intros x; unfold latent; by rewrite E1).
    cbn [routed]. rewrite (partial_tokens latent dl uniq xs (rl_stocked _ R) (proj2 (rt_experts (rl_routable _ R))) H2) by (by apply Forall_true).
    cbn iota. pose proof (matmul_qt_wf w2 dl d (map (sum_over latent dl uniq) xs) W2) as Hm. rewrite length_map in Hm. rewrite Hm; clear Hm.
    2: { apply Forall_map, Forall_true. intros x. by apply sum_over_length; [apply R|..]. }
    cbv beta iota. rewrite Ef. cbv beta iota. cbn [unwrap]. rewrite (zip_add_rows d).
    + do 2 f_equal. rewrite map_map, zip_with_fmap_l, zip_with_fmap_r, zip_with_diag. apply map_ext_Forall, Forall_forall. intros x Hx.
      rewrite Forall_forall in Hxs. unfold lat_row. rewrite E2. f_equal. f_equal.
      apply sum_over_own; [apply R|apply R|done|by apply Hxs|apply Hlat|done|]. intros e He. apply H3. eauto.
    + apply Forall_map, Forall_true. intros x. by apply (matvec_length w2 dl).
    + by apply Forall_map.
    + by rewrite !length_map.
  - eapply Forall_impl; [exact Hf|]. intros x Hx. cbv beta in Hx. unfold lat_row, f32_zip.
    rewrite length_map, length_combine, E2, Hx, (matvec_length w2 dl d) by done. lia.
Qed.
(** Kimi's: the sum is normalised in the latent space, and the shared experts
    are those of the other families. *)
Record ready_kimi (dl : nat) : Prop := {
  rk_latent_width : 0 < dl;
  rk_routable : routable;
  rk_stocked : stocked dl;
  rk_fc1 : exists w, l_fc1_latent l = Some w /\ wf_qt w d dl;
  rk_fc2 : exists w, l_fc2_latent l = Some w /\ wf_qt w dl d;
  rk_norm : l_routed_expert_norm l = [] \/ dl <= length (l_routed_expert_norm l);
  rk_shared : wf_ffn act (l_sh_gate l) (l_sh_up l) (l_sh_down l) d
}.
Definition lat_normed (y : list f32) : list f32 :=
  match l_routed_expert_norm l with [] => y | w => default [] (rmsnorm y w (eps c)) end.
Definition kimi_row (dl : nat) (x : list f32) : list f32 :=
  let y := lat_normed (sum_over latent dl (remove_dups (token_route x).1) x) in
  f32_zip f32_add (match l_fc2_latent l with Some w => matvec w y | None => [] end)
    (default [] (ffn expf tanhf act (l_sh_gate l) (l_sh_up l) (l_sh_down l) x 1 d)).

Lemma kimi_tokens xs : let dl := Z.to_nat (moe_latent c) in
  ready_kimi dl -> active_experts c <= 2 -> Forall (fun x => length x = d) xs ->
  kimi_moe expf tanhf act (X := X) c l layer (concat xs) (length xs) (length xs * d) None = ROk (concat (map (kimi_row dl) xs)) /\
  Forall (fun x => length (kimi_row dl x) = d) xs.
Proof.
  intros dl R Hk Hxs. destruct (rk_fc1 _ R) as (w1 & E1 & W1). destruct (rk_fc2 _ R) as (w2 & E2 & W2). pose proof (rk_latent_width _ R) as Hdl.
  destruct (union_tokens xs (rk_routable _ R) Hxs) as (uniq & E' & H1 & H2 & H3).
  assert (forall x, length (latent x) = dl) as Hlat by (intros x; unfold latent; rewrite E1; by apply (matvec_length w1 d)).
  assert (Forall (fun r => length r = dl) (map (sum_over latent dl uniq) xs)) as Hsum by (apply Forall_map, Forall_true; intros x; by apply sum_over_length; [apply R|..]).
  destruct (ffn_tokens _ _ _ xs (sk_gate _ (rk_stocked _ R)) (rk_shared _ R) Hxs) as [Ef Hf]. split.
  - unfold kimi_moe. fold dl. destruct (route_rows_tokens xs (rk_routable _ R) Hxs) as [-> _]. cbn [unwrap]. cbv beta iota.
    rewrite E1, E2. cbn [unwrap]. cbv beta iota. rewrite (matmul_qt_wf w1 d dl) by done. cbn [unwrap]. cbv beta iota. rewrite E'. cbn [unwrap]. cbv beta iota.
    assert (map (matvec w1) xs = map latent xs) as -> by (apply map_ext; intros x; unfold latent; by rewrite E1).
    cbn [routed]. rewrite (partial_tokens latent dl uniq xs (rk_stocked _ R) (proj2 (rt_experts (rk_routable _ R))) H2) by (by apply Forall_true).
    cbn iota. assert (exists zs, match l_routed_expert_norm l with
      | [] => Some (concat (map (sum_over latent dl uniq) xs))
      | w => if dl =? 0 then None else norm_chunks (length (concat (map (sum_over latent dl uniq) xs))) dl w (eps c) (concat (map (sum_over latent dl uniq) xs))
      end = Some (concat zs) /\ zs = map (fun x => lat_normed (sum_over latent dl uniq x)) xs /\ Forall (fun r => length r = dl) zs) as (zs & -> & -> & Hz).
    { unfold lat_normed. destruct (l_routed_expert_norm l) as [|a w] eqn:Ew; [by eexists|]. destruct (Nat.eqb_spec dl 0); [lia|].
      destruct (rk_norm _ R) as [Hn|Hn]; rewrite Ew in Hn; [done|].
      destruct (norm_chunks_rows dl (a :: w) (eps c) _ Hdl Hn Hsum (length (concat (map (sum_over latent dl uniq) xs)))) as [-> Hz]; [done|].
      rewrite map_map in *. by eexists. }
    cbv beta iota. pose proof (matmul_qt_wf w2 dl d _ W2 Hz) as Hm. rewrite length_map in Hm. rewrite Hm; clear Hm.
    cbv beta iota. rewrite Ef. cbv beta iota. cbn [unwrap]. rewrite (zip_add_rows d).
    + do 2 f_equal. rewrite map_map, zip_with_fmap_l, zip_with_fmap_r, zip_with_diag. apply map_ext_Forall, Forall_forall. intros x Hx.
      rewrite Forall_forall in Hxs. unfold kimi_row. rewrite E2. do 3 f_equal.
      apply sum_over_own; [apply R|apply R|done|by apply Hxs|apply Hlat|done|]. intros e He. apply H3. eauto.
    + apply Forall_map, Forall_true. intros x. by apply (matvec_length w2 dl).
    + by apply Forall_map.
    + by rewrite !length_map.
  - eapply Forall_impl; [exact Hf|]. intros x Hx. cbv beta in Hx. unfold kimi_row, f32_zip.
    rewrite length_map, length_combine, E2, Hx, (matvec_length w2 dl d) by done. lia.
Qed.
End Block.

(** C11: a batch is its tokens.  When a token takes at most two experts, the
    routed block, run on any number of tokens together, gives every token
    exactly the row it would get alone: the union of the choices, and the order
    in which it adds the experts, do not show. *)
Theorem moe_batch_independent expf tanhf act {E X : Type} `{!ExpertProvider E} `{!Transport X} c l layer ws xs :
  ready expf tanhf act c l layer ws -> active_experts c <= 2 ->
  Forall (fun x => length x = Z.to_nat (hidden c)) xs ->
  exists ys,
    moe expf tanhf act (X := X) c l layer (concat xs) (length xs) (length xs * Z.to_nat (hidden c)) ws None = ROk (concat ys) /\
    Forall2 (fun x y => moe expf tanhf act (X := X) c l layer x 1 (Z.to_nat (hidden c)) ws None = ROk y) xs ys.
Proof.
  intros R Hk Hxs. exists (map (token_row expf tanhf act c l layer ws) xs).
  destruct (moe_tokens expf tanhf act (X := X) c l layer ws xs R Hk Hxs) as [-> _]. split; [done|].
  apply Forall2_fmap_r, Forall_Forall2_diag. eapply Forall_impl; [exact Hxs|]. intros x Hx.
  destruct (moe_tokens expf tanhf act (X := X) c l layer ws [x] R Hk) as [E1 _]; [by constructor|].
  cbn [concat map length] in E1. by rewrite !app_nil_r, Nat.mul_1_l in E1.
Qed.

(** ** A small mixture *)

(** One channel; expert [e] multiplies the squared positive part of it by its
    weight.  [exp] is the platform's at the three points used. *)
Definition toy_config (n k : Z) : Config := ({|
  Config.hidden := 1; Config.n_layers := 0; Config.n_heads := 0; Config.n_experts := n; Config.topk := k;
  Config.moe_inter := 0; Config.dense_inter := 0; Config.first_dense := 0; Config.q_lora := 0; Config.o_lora := 0;
  Config.o_groups := 0; Config.kv_lora := 0; Config.qk_nope := 0; Config.qk_rope := 0; Config.qk_head := 0;
  Config.v_head := 0; Config.n_shared := 0; Config.vocab := 0; Config.max_ctx := 0; Config.n_group := 0;
  Config.topk_group := 0; Config.norm_topk := false; Config.stop_ids := []; Config.index_topk := 0;
  Config.index_nh := 0; Config.index_hd := 0; Config.index_block_size := 0; Config.index_topk_blocks := 0;
  Config.index_local_blocks := 0; Config.idx_type := []; Config.eps := f0; Config.theta := f0;
  Config.attn_scale := f0; Config.routed_scale := f32_one; Config.arch := Maple; Config.n_kv_heads := 0;
  Config.shared_inter := 0; Config.qk_norm := false; Config.gemma_norm := false; Config.swiglu_oai := false;
  Config.swiglu_alpha := f0; Config.swiglu_limit := f0; Config.compress_ratios := []; Config.compress_theta := f0;
  Config.n_hash_layers := 0; Config.dspark_block := 0; Config.dspark_noise_id := 0; Config.markov_rank := 0;
  Config.dspark_targets := []; Config.hc_mult := 0; Config.hc_sinkhorn_iters := 0; Config.hc_eps := f0;
  Config.window := 0; Config.sigmoid_route := false; Config.router_score := Softmax; Config.swa_window := 0;
  Config.layer_swa := []; Config.nope_on_global := false; Config.layer_kind := []; Config.mtp_layer_kind := [];
  Config.mamba_d_state := 0; Config.mamba_d_conv := 0; Config.mamba_n_heads := 0; Config.mamba_head_dim := 0;
  Config.mamba_n_groups := 0; Config.mamba_inter := 0; Config.mamba_chunk := 0; Config.moe_latent := 0;
  Config.relu2 := false; Config.mamba_dt_min := f0; Config.kda_n_heads := 0; Config.kda_head_dim := 0;
  Config.situ := false; Config.situ_beta := f0; Config.situ_linear_beta := f0; Config.mla_nope := false;
  Config.kda_d_conv := 0; Config.attn_res_block_size := 0
|})%Z.
Definition one_by_one (v : f32) : QTensor :=
  {| fmt_code := 0; qt_qf := [v]; qt_q8 := []; qt_q4 := []; qt_s := []; qt_bs := []; qt_g := f0;
     qt_o := 1; qt_i := 1; gpu_eligible := false |}.
Definition toy_exp (x : f32) : f32 :=
  if SFeqb x (f32_of_Z (-1)) then f32_from_bits 0x3EBC5AB2
  else if SFeqb x (f32_of_Z (-2)) then f32_from_bits 0x3E0A9555 else f32_one.
Definition toy_act : ActCfg :=
  {| act_oai := false; act_alpha := f0; act_limit := f0; act_relu2 := true; act_situ := false; act_situ_beta := f0;
     act_situ_linear_beta := f0 |}.
Definition toy_layer (scores : list Z) : Layer := {|
  l_in_ln := []; l_post_ln := []; l_q_a := empty_qt; l_q_b := empty_qt; l_kv_a := empty_qt; l_kv_b := empty_qt;
  l_o := empty_qt; l_q_a_ln := []; l_kv_a_ln := []; l_o_a := None; l_o_b := None; l_o_a_groups := [];
  l_attn_sink := []; l_idx_wq_b := None; l_idx_wproj := None; l_idx_comp_wkv := None; l_idx_comp_wgate := None;
  l_idx_comp_ape := []; l_idx_comp_norm := []; l_comp_ratio := 0%Z; l_comp_wkv := None; l_comp_wgate := None;
  l_comp_ape := []; l_comp_norm := []; l_tid2eid := []; l_hc_attn_fn := []; l_hc_attn_base := [];
  l_hc_attn_scale := []; l_hc_ffn_fn := []; l_hc_ffn_base := []; l_hc_ffn_scale := []; l_q_proj := None;
  l_k_proj := None; l_v_proj := None; l_qkv_proj := None; l_q_norm := []; l_k_norm := []; l_idx_q_proj := None;
  l_idx_k_proj := None; l_idx_q_norm := []; l_idx_k_norm := []; l_sparse := false; l_gate_proj := empty_qt;
  l_up_proj := empty_qt; l_down_proj := empty_qt; l_router := map f32_of_Z scores; l_router_bias := []; l_sh_gate := one_by_one f32_one;
  l_sh_up := one_by_one f32_one; l_sh_down := one_by_one f32_one; l_ix_wk := None; l_ix_wq := None; l_ix_wp := None;
  l_ix_knorm_w := []; l_ix_knorm_b := []; l_mamba_in_proj := None; l_mamba_out_proj := None;
  l_mamba_conv_w := []; l_mamba_conv_b := []; l_mamba_a_log := []; l_mamba_d := []; l_mamba_dt_bias := [];
  l_mamba_norm := []; l_fc1_latent := None; l_fc2_latent := None; l_attn_gate := None; l_kda_b_proj := None;
  l_kda_f_a := None; l_kda_f_b := None; l_kda_conv_q := []; l_kda_conv_k := []; l_kda_conv_v := [];
  l_kda_a_log := []; l_kda_dt_bias := []; l_kda_o_norm := []; l_attn_res_norm := []; l_attn_res_proj := [];
  l_mlp_res_norm := []; l_mlp_res_proj := []; l_routed_expert_norm := []
|}.

#[export] Instance toy_transport : Transport unit := {this_node := 0; exchange _ _ := RErr ()}.
Definition toy_provider (ws : list f32) : ExpertProvider (list Z) := {|
  expert _ e :=
    match ws !! e with
    | Some w => ROk {| ex_gate := empty_qt; ex_up := one_by_one f32_one; ex_down := one_by_one w |}
    | None => RErr []
    end;
  prefetch _ _ := ROk ()
|}.
Definition toy_moe (ws : list f32) (k : Z) (x : list Z) (with_shared : bool) : res (MoeError (list Z) unit) (list f32) :=
  moe (ExpertProvider0 := toy_provider ws) toy_exp toy_exp toy_act (toy_config 3 k) (toy_layer [2; 1; 0]%Z) 0
    (map f32_of_Z x) (length x) (length x) with_shared None.

(** Weights that cancel in one order and not in another. *)
Definition cancelling : list f32 := [f32_of_Z (2 ^ 24); SFopp (f32_from_bits 0x4C2DF854); f32_one].

(** With three experts a token the order shows.  The token 1 alone gives a
    row above zero; beside the token -1, whose choices come first in the union,
    its row is zero: the same experts with the same weights, added in another
    order. *)
Theorem batch_changes_output :
  exists y, SFltb f0 y = true /\ toy_moe cancelling 3 [1]%Z false = ROk [y] /\
    toy_moe cancelling 3 [-1]%Z false = ROk [f0] /\ toy_moe cancelling 3 [-1; 1]%Z false = ROk [f0; f0].
Proof. eexists. split_and!; [|vm_compute; reflexivity..]. vm_compute. reflexivity. Qed.

Definition toy_weights : list f32 := [f32_of_Z 2; f32_of_Z 3; f32_of_Z 5].
Lemma toy_ready :
  ready (ExpertProvider0 := toy_provider toy_weights) toy_exp toy_exp toy_act (toy_config 3 2) (toy_layer [2; 1; 0]%Z) 0 true.
Proof.
  assert (forall g w, wf_ffn toy_act g (one_by_one f32_one) (one_by_one w) 1) as Hwf.
  { intros g w. exists 1. split_and!; [by split_and!|by split_and!|done]. }
  split.
  - split; [split; [vm_compute; lia|reflexivity]|reflexivity|discriminate].
  - split.
    + intros g u. by exists (f32_mul (silu toy_exp g) u).
    + intros eids. by exists ().
    + intros [|[|[|e]]] He; [..|vm_compute in He; lia]; eexists; (split; [reflexivity|apply Hwf]).
  - intros _. exact (Hwf _ f32_one).
Defined.

Lemma moe_batch_independent_witness :
  exists ys,
    moe (ExpertProvider0 := toy_provider toy_weights) (X := unit) toy_exp toy_exp toy_act (toy_config 3 2) (toy_layer [2; 1; 0]%Z) 0
      (concat (map (fun z => [f32_of_Z z]) [1; -1; 3]%Z)) 3 3 true None = ROk (concat ys) /\
    Forall2 (fun x y => moe (ExpertProvider0 := toy_provider toy_weights) (X := unit) toy_exp toy_exp toy_act (toy_config 3 2)
      (toy_layer [2; 1; 0]%Z) 0 x 1 1 true None = ROk y) (map (fun z => [f32_of_Z z]) [1; -1; 3]%Z) ys.
Proof.
  apply (moe_batch_independent (ExpertProvider0 := toy_provider toy_weights) (X := unit) toy_exp toy_exp toy_act
    (toy_config 3 2) (toy_layer [2; 1; 0]%Z) 0 true (map (fun z => [f32_of_Z z]) [1; -1; 3]%Z)).
  - exact toy_ready.
  - vm_compute. lia.
  - repeat constructor.
Defined.

Lemma route_selects_witness :
  exists idx w, route toy_exp (toy_config 3 2) (map f32_of_Z [2; 1; 0]%Z) [] = Some (idx, w) /\
    length idx = 2 /\ NoDup idx /\
    (forall j i, idx !! j = Some i -> i < 3 /\
       forall e, e < 3 -> e ∉ take j idx -> e <> i ->
         beats (route_choice toy_exp (toy_config 3 2) (map f32_of_Z [2; 1; 0]%Z) []) i e) /\
    w = scale_weights (toy_config 3 2) (map (fun e => nth e (route_scores toy_exp (toy_config 3 2) (map f32_of_Z [2; 1; 0]%Z)) f0) idx).
Proof.
  apply (route_selects toy_exp (toy_config 3 2) (map f32_of_Z [2; 1; 0]%Z) []).
  - discriminate.
  - repeat constructor.
Defined.
