(* ===== verification/MoeCluster.v ===== *)
(** * The routed experts over a cluster

    The partition of a batch's experts over their owners, the sum of the nodes'
    answers, and the comparison with one node. *)

From Stdlib Require Import ZifyBool ZifyNat SpecFloat.
From S2P Require Import Prelude Rows DType Math Floats Linear Sharding Config Model Moe MoeBatch.
Local Open Scope nat_scope.

(** ** A cluster *)

(** The columns of one node, read in a list that has an entry per expert. *)
Definition owned_in {A} (l : list A) (owners : list Z) (n : Z) : list A :=
  map fst (filter (fun io => io.2 = n) (combine l owners)).

Lemma pick_cols {A} (l : list A) owners n : length l = length owners ->
  mapM (fun c => l !! c) (map fst (filter (fun io => io.2 = n) (imap pair owners))) = Some (owned_in l owners n).
Proof.
  assert (forall l p : list A, length l = length owners ->
    mapM (fun c => (p ++ l) !! c) (map fst (filter (fun io => io.2 = n) (imap (fun i o => (length p + i, o)) owners))) =
    Some (owned_in l owners n)) as H; [|apply (H l [])].
  clear l. unfold owned_in. induction owners as [|o owners IH]; intros [|a l] p Hl; try done.
  rewrite imap_cons. cbn [combine]. rewrite !filter_cons. cbn [snd].
  assert (imap ((fun i o => (length p + i, o)) ∘ S) owners = imap (fun i o => (length (p ++ [a]) + i, o)) owners) as ->.
  { apply imap_ext. intros i x _. unfold compose. rewrite length_app. cbn. f_equal. lia. }
  assert (forall k, mapM (fun c => (p ++ a :: l) !! c) k = mapM (fun c => ((p ++ [a]) ++ l) !! c) k) as Hk by (intros k; by rewrite <- app_assoc).
  case_decide.
  - cbn [map fst]. rewrite mapM_cons_eq, Nat.add_0_r, list_lookup_middle, Hk, IH by (done || by injection Hl). done.
  - rewrite Hk. apply IH. by injection Hl.
Qed.

Lemma owned_in_map {A B} (g : A -> B) (l : list A) owners n : owned_in (map g l) owners n = map g (owned_in l owners n).
Proof.
  unfold owned_in. revert owners. induction l as [|a l IH]; intros [|o owners]; try done. cbn [map combine].
  rewrite !filter_cons. cbn. case_decide; cbn; by rewrite IH.
Qed.

Lemma owned_in_elem {A} (l : list A) owners n a : a ∈ owned_in l owners n <-> exists i, l !! i = Some a /\ owners !! i = Some n.
Proof.
  unfold owned_in. rewrite list_elem_of_fmap. split.
  - intros ([x o] & -> & [Ho Hi]%list_elem_of_filter). cbn in Ho. subst. apply list_elem_of_lookup in Hi as [i Hi].
    apply lookup_zip_with_Some in Hi as (? & ? & [= <- <-] & H1 & H2). eauto.
  - intros (i & H1 & H2). exists (a, n). split; [done|]. apply list_elem_of_filter. split; [done|].
    apply list_elem_of_lookup. exists i. apply lookup_zip_with_Some. eauto.
Qed.

Lemma owned_in_nodup {A} (l : list A) owners n : NoDup l -> NoDup (owned_in l owners n).
Proof.
  intros Hn. unfold owned_in. revert owners. induction Hn as [|a l Ha Hn IH]; intros [|o owners]; try constructor.
  cbn [combine]. rewrite filter_cons. case_decide; [|apply IH]. cbn. constructor; [|apply IH].
  intros (i & Hi & _)%(owned_in_elem l owners n a). apply Ha. by eapply list_elem_of_lookup_2.
Qed.

Lemma subcols_rows {A} (g : A -> list f32) (xs : list A) owners n : Forall (fun x => length (g x) = length owners) xs ->
  subcols (concat (map g xs)) (length xs) (length owners) (map fst (filter (fun io => io.2 = n) (imap pair owners))) =
  Some (concat (map (fun x => owned_in (g x) owners n) xs)).
Proof.
  intros Hg. unfold subcols.
  assert (mapM (fun s => mapM (fun c => concat (map g xs) !! (s * length owners + c))
    (map fst (filter (fun io => io.2 = n) (imap pair owners)))) (seq 0 (length xs)) =
    Some (map (fun x => owned_in (g x) owners n) xs)) as ->; [|done].
  apply mapM_Some, Forall2_same_length_lookup_2; [by rewrite length_seq, length_map|].
  intros i s y Hi Hy. apply lookup_seq in Hi as [-> Hi]. cbn. change (map ?f xs) with (f <$> xs) in Hy.
  rewrite list_lookup_fmap in Hy. destruct (xs !! i) as [x|] eqn:Hx; [|done]. injection Hy as <-.
  rewrite Forall_lookup in Hg. pose proof (Hg i x Hx) as Hl. rewrite <- (pick_cols (g x)) by done.
  apply mapM_ext_in. intros c Hc.
  assert (c < length owners) as Hco.
  { apply list_elem_of_fmap in Hc as ([c' o] & -> & [_ Hc]%list_elem_of_filter).
    apply elem_of_lookup_imap in Hc as (i' & o' & [= -> ->] & H). by apply lookup_lt_Some in H. }
  apply (row_lookup (length owners)); [|done]. unfold row_at. apply concat_row_range.
  - apply Forall_map, Forall_lookup. intros j z Hz. by eapply Hg.
  - change (map ?f xs) with (f <$> xs). by rewrite list_lookup_fmap, Hx.
Qed.

Lemma sorted_remove_dups (l : list Z) : StronglySorted (fun x y => (x <=? y)%Z = true) l ->
  StronglySorted (fun x y => (x <= y)%Z) (remove_dups l).
Proof.
  induction 1 as [|x l Hl IH Hx]; [constructor|]. cbn. case_decide; [done|]. constructor; [done|].
  apply Forall_forall. intros y Hy. rewrite elem_of_remove_dups in Hy. rewrite Forall_forall in Hx. specialize (Hx y Hy). lia.
Qed.

Lemma collect_ok {E X B} (h : B -> list f32) (key : B -> Z) jl :
  collect (E := E) (X := X) (map (fun j => (key j, ROk (h j))) jl) = ROk (map (fun j => (key j, h j)) jl).
Proof. induction jl as [|j jl IH]; [done|]. cbn. by rewrite IH. Qed.

Lemma fold_rows {B} d (out : B -> list f32 -> list f32) xs ns : forall os,
  Forall (fun n => Forall (fun x => length (out n x) = d) xs) ns -> Forall (fun o => length o = d) os -> length os = length xs ->
  foldl (fun o np => zip_add o np.2) (concat os) (map (fun n => (n, concat (map (out n) xs))) ns) =
  concat (zip_with (fun x o => foldl (f32_zip f32_add) o (map (fun n => out n x) ns)) xs os).
Proof.
  induction ns as [|n ns IH]; intros os Hn Hos Hl; cbn [map foldl].
  { f_equal. revert xs Hl Hn. clear. induction os as [|o os IH]; intros [|x xs] Hl Hn; try done. cbn. f_equal.
    apply IH; [by injection Hl|constructor]. }
  apply Forall_cons in Hn as [Hn Hns]. cbn [snd]. rewrite (zip_add_rows d); [|done|by apply Forall_map|by rewrite length_map].
  rewrite IH; [|done| |by rewrite length_zip_with, length_map; lia].
  - f_equal. apply list_eq. intros i. rewrite !lookup_zip_with. destruct (xs !! i) as [x|] eqn:Hx; [|done]. cbn.
    change (map (out n) xs) with (out n <$> xs). rewrite list_lookup_fmap, Hx. cbn. by destruct (os !! i).
  - apply Forall_lookup. intros i y Hy. rewrite lookup_zip_with in Hy. destruct (os !! i) as [o|] eqn:Ho; [|done]. cbn in Hy.
    change (map (out n) xs) with (out n <$> xs) in Hy. rewrite list_lookup_fmap in Hy. destruct (xs !! i) as [x|] eqn:Hx; [|done]. injection Hy as <-.
    unfold f32_zip. rewrite length_map, length_combine. rewrite Forall_lookup in Hn, Hos. rewrite (Hn i x Hx), (Hos i o Ho). lia.
Qed.

Section Sharded.
Context (expf tanhf : f32 -> f32) (act : ActCfg) {E X : Type} `{!ExpertProvider E} `{!Transport X}.
Context (c : Config) (l : Layer) (layer : nat).
Local Set Default Proof Using "All".

Abbreviation d := (Z.to_nat (hidden c)).
Abbreviation e_n := (Z.to_nat (n_experts c)).
Abbreviation zeros := (replicate d f0).

(** A peer answers with what this node would compute from its own experts. *)
Definition exact_peers : Prop := forall node rq out, node <> this_node ->
  compute_experts_partial expf tanhf act (X := X) (Z.to_nat (rq_layer rq)) (rq_experts rq) (rq_weights rq) (rq_activations rq)
    (rq_n_tokens rq) (rq_hidden rq) = ROk out ->
  exchange node rq = ROk out.

(** What one node adds for one token. *)
Definition node_out (uniq : list nat) (owners : list Z) (x : list f32) (n : Z) : list f32 :=
  token_sum expf tanhf act layer d x zeros (over (owned_in uniq owners n) (token_route expf c l x)).
Definition nodes_of (owners : list Z) : list Z := remove_dups (sort_by Z.leb owners).

Context (K : stocked expf tanhf act c layer d) (Hn : (n_experts c < 2 ^ 32)%Z) (Hlayer : (Z.of_nat layer < 2 ^ 32)%Z) (Hpeers : exact_peers).

Lemma node_answer_rows xs eids n : Forall (fun x => length x = d) xs -> Forall (fun e => e < e_n) eids ->
  node_answer expf tanhf act (X := X) layer (concat xs) (length xs) d
    (n, (map (fun e => u32 (Z.of_nat e)) eids, concat (map (fun x => map (pick_weight (picks_of (token_route expf c l x)) f0) eids) xs))) =
  ROk (concat (map (fun x => token_sum expf tanhf act layer d x zeros (over eids (token_route expf c l x))) xs)).
Proof.
  intros Hxs He. pose proof (partial_tokens expf tanhf act (X := X) c l layer id d eids xs K Hn He Hxs) as Hc. rewrite map_id in Hc.
  assert (Z.to_nat (u32 (Z.of_nat layer)) = layer) as Hu by (unfold u32; rewrite Z.mod_small; lia).
  unfold node_answer. destruct (Z.eqb_spec n this_node) as [|Hne]; [exact Hc|].
  erewrite Hpeers; [|exact Hne|cbn [rq_layer rq_experts rq_weights rq_activations rq_n_tokens rq_hidden]; rewrite Hu; exact Hc].
  rewrite (concat_len d), length_map, Nat.eqb_refl; [done|].
  apply Forall_map. eapply Forall_impl; [exact Hxs|]. intros x Hx. by apply (sum_over_length expf tanhf act (X := X) c l layer id d eids x).
Qed.

Lemma sharded_rows xs sh uniq owners : Forall (fun x => length x = d) xs -> Forall (fun e => e < e_n) uniq ->
  mapM (fun e => owner sh (u32 (Z.of_nat e))) uniq = Some owners ->
  sharded_experts_partial expf tanhf act (X := X) layer uniq
    (concat (map (fun x => map (pick_weight (picks_of (token_route expf c l x)) f0) uniq) xs)) (concat xs) (length xs) d sh =
  ROk (concat (map (fun x => foldl (f32_zip f32_add) zeros (map (node_out uniq owners x) (nodes_of owners))) xs)).
Proof.
  intros Hxs He Ho. unfold sharded_experts_partial. rewrite Ho. cbn [unwrap].
  pose proof (mapM_len _ _ _ Ho) as Hol.
  set (out n := concat (map (fun x => node_out uniq owners x n) xs)).
  set (job n := (n, (map (fun e => u32 (Z.of_nat e)) (owned_in uniq owners n),
                     concat (map (fun x => map (pick_weight (picks_of (token_route expf c l x)) f0) (owned_in uniq owners n)) xs)))).
  assert (mapM (fun '(node, cols) =>
    let* experts := mapM (fun ui => let* e := uniq !! ui in Some (u32 (Z.of_nat e))) cols in
    let* weights := subcols (concat (map (fun x => map (pick_weight (picks_of (token_route expf c l x)) f0) uniq) xs)) (length xs) (length uniq) cols in
    Some (node, (experts, weights))) (by_node owners) = Some (map job (nodes_of owners))) as ->.
  { unfold by_node. fold (nodes_of owners). change (map ?f (nodes_of owners)) with (f <$> nodes_of owners).
    apply mapM_Some, Forall2_fmap_l, Forall2_fmap_r, Forall_Forall2_diag, Forall_true. intros n. cbn.
    rewrite (mapM_ext_in _ (fun ui => map (fun e => u32 (Z.of_nat e)) uniq !! ui)).
    2: { intros ui _. change (map ?f uniq) with (f <$> uniq). rewrite list_lookup_fmap. by destruct (uniq !! ui). }
    rewrite pick_cols, owned_in_map by (by rewrite length_map). rewrite <- Hol, subcols_rows.
    - unfold job. do 4 f_equal. apply map_ext. intros x. apply owned_in_map.
    - apply Forall_true. intros x. by rewrite length_map. }
  cbn [unwrap]. cbv zeta.
  set (jl := filter (fun j => j.1 = this_node) _ ++ _).
  assert (jl ≡ₚ map job (nodes_of owners)) as Hjl by apply filter_app_complement.
  assert (map (fun j => (j.1, node_answer expf tanhf act (X := X) layer (concat xs) (length xs) d j)) jl =
          map (fun j => (j.1, ROk (out j.1))) jl) as ->.
  { apply map_ext_in. intros j Hj%list_elem_of_In. rewrite Hjl in Hj. apply list_elem_of_fmap in Hj as (n & -> & _). cbn [fst]. f_equal.
    apply node_answer_rows; [done|]. apply Forall_forall. intros e (i & Hi & _)%owned_in_elem. rewrite Forall_lookup in He. by eapply He. }
  rewrite (collect_ok (fun j : Z * (list Z * list f32) => out j.1) fst). f_equal.
  assert (sort_by (fun x y => (x.1 <=? y.1)%Z) (map (fun j => (j.1, out j.1)) jl) = map (fun n => (n, out n)) (nodes_of owners)) as ->.
  { apply sorted_keys_unique.
    - rewrite sort_by_perm, Hjl, map_map. done.
    - rewrite sort_by_perm, Hjl, map_map. cbn [job fst]. change (?f <$> ?l) with (map f l). rewrite map_map. cbn [fst].
      rewrite map_id. apply NoDup_remove_dups.
    - eapply sorted_weaken; [|apply sort_by_sorted]; cbn; intros; lia.
    - assert (StronglySorted (fun x y => (x <= y)%Z) (nodes_of owners)) as Hs.
      { apply sorted_remove_dups, sort_by_sorted; intros; lia. }
      clear - Hs. induction Hs as [|n ns Hs IH Hn]; [constructor|]. cbn. constructor; [done|]. by apply Forall_map. }
  rewrite replicate_rows. unfold out. rewrite (fold_rows d (fun n x => node_out uniq owners x n)).
  - f_equal. pose proof (zip_with_replicate (fun (tok : list f32 * list f32) o => foldl (f32_zip f32_add) o (map (node_out uniq owners tok.1) (nodes_of owners)))
      (map (fun x => (x, x)) xs) zeros) as Hz. rewrite length_map, map_map in Hz. cbn [fst] in Hz. rewrite <- Hz. 
    clear. apply list_eq. intros i. rewrite !lookup_zip_with. change (map ?f xs) with (f <$> xs). rewrite list_lookup_fmap. by destruct (xs !! i).
  - apply Forall_true. intros n. eapply Forall_impl; [exact Hxs|]. intros x Hx.
    apply (sum_over_length expf tanhf act (X := X) c l layer id d (owned_in uniq owners n) x); [done| |done].
    apply Forall_forall. intros e (i & Hi & _)%owned_in_elem. rewrite Forall_lookup in He. by eapply He.
  - apply Forall_replicate, length_replicate.
  - by rewrite length_replicate.
Qed.
End Sharded.

(** ** One node or several, for at most two experts *)

Definition no_neg_zero (l : list f32) : Prop := Forall (fun v => v <> S754_zero true) l.

Section Nodes.
#[local] Arguments f32_add : simpl never.
Context (d : nat) (out : Z -> list f32).
Abbreviation zeros := (replicate d f0).

Lemma zip_zero_r o : no_neg_zero o -> length o = d -> f32_zip f32_add o zeros = o.
Proof. intros Ho <-. induction Ho as [|v o Hv Ho IH]; [done|]. cbn. unfold f32_zip in IH. by rewrite add_zero_r, IH. Qed.
Lemma zip_zero_l o : no_neg_zero o -> length o = d -> f32_zip f32_add zeros o = o.
Proof. intros Ho <-. induction Ho as [|v o Hv Ho IH]; [done|]. cbn. unfold f32_zip in IH. by rewrite add_zero_l, IH. Qed.

Lemma zeros_no_neg : no_neg_zero zeros.
Proof. by apply Forall_replicate. Qed.

Lemma fold_zero ns o : Forall (fun n => out n = zeros) ns -> no_neg_zero o -> length o = d ->
  foldl (f32_zip f32_add) o (map out ns) = o.
Proof. intros Hz Ho Hl. induction Hz as [|n ns Hn Hz IH]; [done|]. cbn. by rewrite Hn, zip_zero_r. Qed.

Lemma fold_one n1 a n2 : Forall (fun n => out n = zeros) (n1 ++ n2) -> no_neg_zero (out a) -> length (out a) = d ->
  foldl (f32_zip f32_add) zeros (map out (n1 ++ a :: n2)) = out a.
Proof.
  intros [H1 H2]%Forall_app Ho Hl. rewrite map_app, foldl_app. cbn [map foldl].
  rewrite (fold_zero n1), (zip_zero_l (out a)) by (done || apply zeros_no_neg || apply length_replicate). by apply fold_zero.
Qed.

Lemma fold_two n1 a n2 b n3 : Forall (fun n => out n = zeros) (n1 ++ n2 ++ n3) ->
  no_neg_zero (out a) -> no_neg_zero (f32_zip f32_add (out a) (out b)) -> length (out a) = d -> length (out b) = d ->
  foldl (f32_zip f32_add) zeros (map out (n1 ++ a :: n2 ++ b :: n3)) = f32_zip f32_add (out a) (out b).
Proof.
  intros [H1 [H2 H3]%Forall_app]%Forall_app Ha Hab La Lb.
  rewrite app_comm_cons, app_assoc, map_app, foldl_app. cbn [map foldl].
  rewrite (fold_one n1 a n2) by (done || by apply Forall_app). apply fold_zero; [done|done|].
  unfold f32_zip. rewrite length_map, length_combine. lia.
Qed.

Lemma fold_in a ns : NoDup ns -> a ∈ ns -> (forall n, n ∈ ns -> n <> a -> out n = zeros) ->
  no_neg_zero (out a) -> length (out a) = d -> foldl (f32_zip f32_add) zeros (map out ns) = out a.
Proof.
  intros Hn Hin Hz Ho Hl. apply list_elem_of_split in Hin as (n1 & n2 & ->). apply fold_one; [|done|done].
  apply Forall_forall. intros n Hi. apply Hz; [set_solver|]. intros ->. apply NoDup_app in Hn as (_ & H1 & [H2 _]%NoDup_cons).
  apply elem_of_app in Hi as [Hi|Hi]; [|done]. apply (H1 _ Hi). left.
Qed.

Lemma fold_pair a b ns : NoDup ns -> a ∈ ns -> b ∈ ns -> a <> b -> (forall n, n ∈ ns -> n <> a -> n <> b -> out n = zeros) ->
  no_neg_zero (out a) -> no_neg_zero (out b) -> no_neg_zero (f32_zip f32_add (out a) (out b)) ->
  f32_zip f32_add (out b) (out a) = f32_zip f32_add (out a) (out b) -> length (out a) = d -> length (out b) = d ->
  foldl (f32_zip f32_add) zeros (map out ns) = f32_zip f32_add (out a) (out b).
Proof.
  intros Hn Ha Hb Hab Hz Na Nb Nab Hc La Lb.
  assert (exists n1 n2 n3 p q, (p = a /\ q = b \/ p = b /\ q = a) /\ ns = n1 ++ p :: n2 ++ q :: n3) as (n1 & n2 & n3 & p & q & Hpq & ->).
  { apply list_elem_of_split in Ha as (n1 & n2 & ->). rewrite elem_of_app, elem_of_cons in Hb.
    destruct Hb as [Hb|[->|Hb]]; [|done|]; apply list_elem_of_split in Hb as (k1 & k2 & ->).
    - exists k1, k2, n2, b, a. split; [by right|]. by rewrite <- app_assoc.
    - exists n1, k1, k2, a, b. split; [by left|done]. }
  assert (Forall (fun n => out n = zeros) (n1 ++ n2 ++ n3)) as Hothers.
  { apply Forall_forall. intros n Hi. apply NoDup_app in Hn as (_ & H1 & [H2 Hn]%NoDup_cons). apply NoDup_app in Hn as (_ & H3 & [H4 _]%NoDup_cons).
    assert (n <> p /\ n <> q) as [].
    { split; intros ->; rewrite !elem_of_app in Hi; set_solver. }
    apply Hz; [set_solver|destruct Hpq as [[]|[]]; congruence..]. }
  destruct Hpq as [[-> ->]|[-> ->]]; rewrite fold_two; try done. by rewrite Hc.
Qed.

Lemma acc_no_neg w y o : no_neg_zero o -> Forall Floats.in_range o -> no_neg_zero (acc_row w y o).
Proof.
  intros Ho Hr. unfold acc_row, f32_zip. revert y. induction Ho as [|v o Hv Ho IH]; intros [|u y]; try constructor.
  - apply Forall_cons in Hr as [Hr _]. by apply add_neg_zero; [|apply mul_in_range|].
  - apply Forall_cons in Hr as [_ Hr]. by apply IH.
Qed.

Lemma acc_zeros_range w y n : Forall Floats.in_range (acc_row w y (replicate n f0)).
Proof.
  unfold acc_row, f32_zip. revert y. induction n as [|n IH]; intros [|u y]; try constructor; [|apply IH].
  apply zero_add_in_range, mul_in_range.
Qed.

Lemma zip_acc w y n : forall o, length y = n -> length o = n -> no_neg_zero o ->
  f32_zip f32_add o (acc_row w y (replicate n f0)) = acc_row w y o.
Proof.
  unfold acc_row, f32_zip. revert y. induction n as [|n IH]; intros [|u y] [|v o] Hy Ho Hn; try done.
  apply Forall_cons in Hn as [Hv Hn]. cbn. rewrite add_zero_add by done. f_equal. apply IH; [by injection Hy|by injection Ho|done].
Qed.
End Nodes.

Section Token.
Context (expf tanhf : f32 -> f32) (act : ActCfg) {E : Type} `{!ExpertProvider E} (c : Config) (l : Layer) (layer : nat).
Context (x : list f32) (uniq : list nat) (owners : list Z).
Local Set Default Proof Using "All".

Abbreviation d := (Z.to_nat (hidden c)).
Abbreviation zeros := (replicate d f0).
Abbreviation w e := (pick_weight (picks_of (token_route expf c l x)) f0 e).
Abbreviation row e := (row_out expf tanhf act layer d e x).
Abbreviation out := (node_out expf tanhf act c l layer uniq owners x).
Definition chosen (u : list nat) : list nat := filter (fun e => SFeqb (w e) f0 = false) u.

Lemma sum_chosen u : token_sum expf tanhf act layer d x zeros (over u (token_route expf c l x)) =
  token_sum expf tanhf act layer d x zeros (map (fun e => (e, w e)) (chosen u)).
Proof. by rewrite token_sum_nonzero, over_nonzero. Qed.

Lemma sum_one a : SFeqb (w a) f0 = false ->
  token_sum expf tanhf act layer d x zeros (map (fun e => (e, w e)) [a]) = acc_row (w a) (row a) zeros.
Proof. intros H. cbn. unfold add_expert. cbn. by rewrite H. Qed.
Lemma sum_two a b : SFeqb (w a) f0 = false -> SFeqb (w b) f0 = false ->
  token_sum expf tanhf act layer d x zeros (map (fun e => (e, w e)) [a; b]) = acc_row (w b) (row b) (acc_row (w a) (row a) zeros).
Proof. intros Ha Hb. cbn. unfold add_expert. cbn. by rewrite Ha, Hb. Qed.

Context (Hn : NoDup uniq) (Ho : length owners = length uniq).
Context (Hrow : forall e, e ∈ uniq -> length (row e) = d).

Lemma chosen_owned n e : e ∈ chosen (owned_in uniq owners n) <-> e ∈ chosen uniq /\ exists i, uniq !! i = Some e /\ owners !! i = Some n.
Proof.
  unfold chosen. rewrite !list_elem_of_filter, owned_in_elem. split.
  - intros (H & i & H1 & H2). split_and!; [done|by eapply list_elem_of_lookup_2|eauto].
  - intros ((H & _) & Hi). done.
Qed.

(** The node of a chosen expert, and the nodes that have none. *)
Lemma node_of e : e ∈ chosen uniq -> exists n, n ∈ nodes_of owners /\
  forall n', e ∈ chosen (owned_in uniq owners n') <-> n' = n.
Proof.
  intros He. assert (e ∈ uniq) as Hu by (by apply list_elem_of_filter in He as [_ ?]).
  apply list_elem_of_lookup in Hu as [i Hi]. destruct (lookup_lt_is_Some_2 owners i) as [n Hni].
  { rewrite Ho. by eapply lookup_lt_Some. }
  exists n. split; [unfold nodes_of; rewrite elem_of_remove_dups, elem_of_sort_by; by eapply list_elem_of_lookup_2|].
  intros n'. rewrite chosen_owned. split; [|intros ->; eauto].
  intros (_ & j & Hj & Hnj). rewrite (NoDup_lookup _ _ _ _ Hn Hj Hi) in Hnj. congruence.
Qed.

Lemma out_zero n : (forall e, e ∉ chosen (owned_in uniq owners n)) -> out n = zeros.
Proof.
  intros H. unfold node_out. rewrite sum_chosen. destruct (chosen _) as [|e es]; [done|]. destruct (H e). left.
Qed.

Lemma chosen_nodup n : NoDup (chosen (owned_in uniq owners n)).
Proof. by apply NoDup_filter, owned_in_nodup. Qed.

Lemma zeros_range : Forall Floats.in_range zeros.
Proof. by apply Forall_replicate. Qed.

Lemma chosen_nz e : e ∈ chosen uniq -> SFeqb (w e) f0 = false /\ length (row e) = d.
Proof. intros [H1 H2]%list_elem_of_filter. split; [done|by apply Hrow]. Qed.

Lemma out_one n a : a ∈ chosen uniq -> (forall e, e ∈ chosen (owned_in uniq owners n) <-> e = a) -> out n = acc_row (w a) (row a) zeros.
Proof.
  intros Ha H. assert (chosen (owned_in uniq owners n) ≡ₚ [a]) as Hp.
  { apply NoDup_Permutation; [apply chosen_nodup|apply NoDup_singleton|]. intros e. by rewrite H, list_elem_of_singleton. }
  symmetry in Hp. apply Permutation_singleton_l in Hp. unfold node_out. rewrite sum_chosen, <- Hp. apply sum_one, chosen_nz, Ha.
Qed.

Lemma acc_a_length e o : e ∈ chosen uniq -> length o = d -> length (acc_row (w e) (row e) o) = d.
Proof. intros He Hl. rewrite acc_row_length; [done|]. rewrite Hl. by apply chosen_nz. Qed.

(** The nodes' sums, added in order, are the sum of one node. *)
Lemma nodes_sum : length (chosen uniq) <= 2 ->
  foldl (f32_zip f32_add) zeros (map out (nodes_of owners)) =
    token_sum expf tanhf act layer d x zeros (over uniq (token_route expf c l x)) /\
  no_neg_zero (token_sum expf tanhf act layer d x zeros (over uniq (token_route expf c l x))).
Proof.
  intros Hl. rewrite sum_chosen. pose proof node_of as Hnode. pose proof chosen_owned as Hco. pose proof chosen_nz as Hnz.
  pose proof acc_a_length as Hlen.
  assert (NoDup (nodes_of owners)) as Hns by apply NoDup_remove_dups.
  assert (NoDup (chosen uniq)) as Hcn by (by apply NoDup_filter).
  pose proof zeros_range as Hzr. pose proof (zeros_no_neg d) as Hzn.
  destruct (chosen uniq) as [|a [|b [|]]] eqn:Hes; [| | |simpl in Hl; lia].
  - split; [|done]. apply (fold_zero d); [|done|apply length_replicate]. apply Forall_forall. intros n _. apply out_zero. intros e He.
    apply Hco in He as [He _]. by apply not_elem_of_nil in He.
  - destruct (Hnode a) as (na & Hin & Ha); [left|]. destruct (Hnz a) as [Wa La]; [left|].
    assert (out na = acc_row (w a) (row a) zeros) as Oa.
    { apply out_one; [rewrite Hes; left|]. intros e. split; [intros [He _]%Hco; by apply list_elem_of_singleton in He|intros ->; by apply Ha]. }
    rewrite (sum_one a Wa). split; [|by apply acc_no_neg].
    rewrite (fold_in d out na); [done|done|done| |rewrite Oa; by apply acc_no_neg|rewrite Oa; apply Hlen; [left|apply length_replicate]].
    intros n _ Hne. apply out_zero. intros e He. pose proof He as He'. apply Hco in He' as [Hea _]. apply list_elem_of_singleton in Hea as ->. by apply Hne, Ha.
  - destruct (Hnode a) as (na & Hina & Ha); [left|]. destruct (Hnode b) as (nb & Hinb & Hb); [right; left|].
    destruct (Hnz a) as [Wa La]; [left|]. destruct (Hnz b) as [Wb Lb]; [right; left|]. rewrite (sum_two a b Wa Wb).
    assert (no_neg_zero (acc_row (w b) (row b) (acc_row (w a) (row a) zeros))) as Hnn.
    { apply acc_no_neg; [by apply acc_no_neg|apply acc_zeros_range]. }
    split; [|done]. assert (a <> b) as Hab by (apply NoDup_cons in Hcn as [Hcn _]; intros ->; apply Hcn; left).
    assert (forall n e, e ∈ chosen (owned_in uniq owners n) -> e = a /\ n = na \/ e = b /\ n = nb) as Hown.
    { intros n e He. pose proof He as He'. apply Hco in He' as [He' _]. apply elem_of_cons in He' as [->|Heb]; [left|apply list_elem_of_singleton in Heb as ->; right].
      - split; [done|by apply Ha].
      - split; [done|by apply Hb]. }
    destruct (decide (na = nb)) as [<-|Hne].
    + assert (chosen (owned_in uniq owners na) ≡ₚ [a; b]) as Hp.
      { apply NoDup_Permutation; [apply chosen_nodup|done|]. intros e. rewrite elem_of_cons, list_elem_of_singleton. split.
        - intros [[-> _]|[-> _]]%Hown; [by left|by right].
        - intros [->| ->]; [by apply Ha|by apply Hb]. }
      assert (out na = acc_row (w b) (row b) (acc_row (w a) (row a) zeros)) as Oa.
      { unfold node_out. rewrite sum_chosen. symmetry in Hp. apply Permutation_length_2_inv in Hp as [->| ->]; rewrite sum_two by done; [done|].
        by apply acc_row_swap. }
      rewrite (fold_in d out na); [done|done|done| |by rewrite Oa|rewrite Oa; apply Hlen; [right; left|apply Hlen; [left|apply length_replicate]]].
      intros n _ Hne. apply out_zero. intros e He. apply Hne. by apply Hown in He as [[_ ?]|[_ ?]].
    + assert (out na = acc_row (w a) (row a) zeros) as Oa.
      { apply out_one; [rewrite Hes; left|]. intros e. split; [intros [[-> _]|[_ ?]]%Hown; done|intros ->; by apply Ha]. }
      assert (out nb = acc_row (w b) (row b) zeros) as Ob.
      { apply out_one; [rewrite Hes; right; left|]. intros e. split; [intros [[_ ?]|[-> _]]%Hown; done|intros ->; by apply Hb]. }
      assert (length (acc_row (w a) (row a) zeros) = d) as Lena by (apply Hlen; [left|apply length_replicate]).
      assert (length (acc_row (w b) (row b) zeros) = d) as Lenb by (apply Hlen; [right; left|apply length_replicate]).
      rewrite (fold_pair d out na nb), Oa, Ob; try done; rewrite ?Oa, ?Ob, ?zip_acc; try done; try (by apply acc_no_neg).
      * intros n _ H1 H2. apply out_zero. intros e He. by apply Hown in He as [[_ ?]|[_ ?]].
      * by apply acc_row_swap.
Qed.
End Token.

(** C12: a cluster is one node.  With at most two experts a token, spreading the
    experts over nodes changes nothing: when every expert has an owner and the
    peers answer with what they compute, the block returns on a cluster exactly
    the bits it returns on one node, whatever the table. *)
Theorem cluster_is_one_node expf tanhf act {E X : Type} `{!ExpertProvider E} `{!Transport X} c l layer ws sh xs :
  ready expf tanhf act c l layer ws -> active_experts c <= 2 -> (Z.of_nat layer < 2 ^ 32)%Z ->
  exact_peers expf tanhf act (E := E) (X := X) ->
  (forall e, e < Z.to_nat (n_experts c) -> is_Some (owner sh (Z.of_nat e))) ->
  Forall (fun x => length x = Z.to_nat (hidden c)) xs ->
  let out sharding := moe expf tanhf act (X := X) c l layer (concat xs) (length xs) (length xs * Z.to_nat (hidden c)) ws sharding in
  out (Some sh) = out None /\ exists y, out None = ROk y.
Proof.
  intros R Hk Hlay Hpeers Hown Hxs. cbv zeta. pose proof (rd_routable _ _ _ _ _ _ _ R) as Rt. pose proof (rd_stocked _ _ _ _ _ _ _ R) as K.
  destruct (moe_tokens expf tanhf act (X := X) c l layer ws xs R Hk Hxs) as [E1 _]. split; [|eauto].
  rewrite E1. unfold moe. destruct (1 <? num_nodes sh)%Z; [|exact E1].
  destruct (union_tokens expf tanhf act (X := X) c l layer xs Rt Hxs) as (uniq & Er & Hn & Hlt & Hu). destruct (rt_experts _ _ Rt) as [_ Hne].
  destruct (mapM_total (fun e => owner sh (u32 (Z.of_nat e))) uniq) as [owners Ho].
  { intros e He. rewrite Forall_forall in Hlt. specialize (Hlt e He). unfold u32. rewrite Z.mod_small by lia. by apply Hown. }
  unfold moe_sharded, route_all. destruct (route_rows_tokens expf tanhf act (X := X) c l layer xs Rt Hxs) as [-> _]. cbv beta iota. rewrite Er. cbn [unwrap]. cbv beta iota.
  rewrite (sharded_rows expf tanhf act c l layer K Hne Hlay Hpeers xs sh uniq owners Hxs Hlt Ho).
  set (own x := sum_over expf tanhf act c l layer id (Z.to_nat (hidden c)) (remove_dups (token_route expf c l x).1) x).
  assert (forall x, x ∈ xs -> let s := foldl (f32_zip f32_add) (replicate (Z.to_nat (hidden c)) f0)
      (map (node_out expf tanhf act c l layer uniq owners x) (nodes_of owners)) in
    s = own x /\ no_neg_zero s /\ length s = Z.to_nat (hidden c)) as Htok.
  { intros x Hx. rewrite Forall_forall in Hxs. pose proof (Hxs x Hx) as Hlx. destruct (routed_in expf tanhf act (X := X) c l layer x Rt Hlx) as [_ Hlen].
    assert (forall e, e ∈ (token_route expf c l x).1 -> e ∈ uniq) as Hin by (intros e He; apply Hu; eauto).
    unfold own. rewrite <- (sum_over_own expf tanhf act (X := X) c l layer id (Z.to_nat (hidden c)) uniq x Rt K Hk Hlx Hlx Hn Hin).
    cbv zeta. destruct (nodes_sum expf tanhf act c l layer x uniq owners Hn (mapM_len _ _ _ Ho)) as [Es Hz].
    - intros e He. apply (row_out_length expf tanhf act layer _ (sk_gate _ _ _ _ _ _ K)); [|done].
      apply (sk_has _ _ _ _ _ _ K). rewrite Forall_forall in Hlt. by apply Hlt.
    - destruct (over_perm uniq uniq (token_route expf c l x) Hn Hn) as [_ Hlp]; [auto|].
      rewrite over_nonzero, length_map in Hlp. unfold chosen. lia.
    - rewrite Es. split_and!; [done|done|]. by apply (sum_over_length expf tanhf act (X := X) c l layer id). }
  assert (map (fun x => foldl (f32_zip f32_add) (replicate (Z.to_nat (hidden c)) f0)
      (map (node_out expf tanhf act c l layer uniq owners x) (nodes_of owners))) xs =
    map own xs) as ->.
  { apply map_ext_in. intros x Hx%list_elem_of_In. by apply Htok. }
  assert (Forall (fun y => length y = Z.to_nat (hidden c)) (map own xs)) as Hl.
  { apply Forall_map, Forall_forall. intros x Hx. destruct (Htok x Hx) as (Hs & _ & H). by rewrite Hs in H. }
  assert (zip_add (replicate (length xs * Z.to_nat (hidden c)) f0) (concat (map own xs)) =
          concat (map own xs)) as ->.
  { rewrite replicate_rows, (zip_add_rows (Z.to_nat (hidden c))); [|apply Forall_replicate, length_replicate|done|by rewrite length_replicate, length_map].
    f_equal. apply list_eq. intros i. rewrite lookup_zip_with. change (map ?f xs) with (f <$> xs). rewrite !list_lookup_fmap.
    destruct (xs !! i) as [x|] eqn:Hx; cbn.
    - rewrite lookup_replicate_2 by (by eapply lookup_lt_Some). cbn. f_equal.
      destruct (Htok x) as (Hs & H1 & H2); [by eapply list_elem_of_lookup_2|]. rewrite Hs in H1, H2. by apply zip_zero_l.
    - by destruct (replicate _ _ !! i). }
  destruct ws; [|done].
  destruct (ffn_tokens expf tanhf act c _ _ _ xs (sk_gate _ _ _ _ _ _ K) (rd_shared _ _ _ _ _ _ _ R eq_refl) Hxs) as [-> Hsh]. cbn [unwrap]. cbv beta iota.
  rewrite (zip_add_rows (Z.to_nat (hidden c))); [|done|by apply Forall_map|by rewrite !length_map].
  do 2 f_equal. rewrite zip_with_fmap_l, zip_with_fmap_r. by rewrite zip_with_diag.
Qed.

(** Two nodes, where the peer computes from the same experts; a table owns
    expert 1 to the peer. *)
Definition pair_transport (ws : list f32) : Transport unit := {|
  this_node := 0;
  exchange _ rq :=
    match compute_experts_partial (ExpertProvider0 := toy_provider ws) (X := unit) toy_exp toy_exp toy_act (Z.to_nat (rq_layer rq)) (rq_experts rq)
            (rq_weights rq) (rq_activations rq) (rq_n_tokens rq) (rq_hidden rq) with
    | ROk out => ROk out
    | _ => RErr ()
    end
|}.
Definition pair_sharding : ExpertSharding := {| num_nodes := 2; Sharding.n_experts := 3; table := Some [0; 1; 0]%Z |}.

Lemma cluster_is_one_node_witness :
  let out sharding := moe (ExpertProvider0 := toy_provider toy_weights) (Transport0 := pair_transport toy_weights) toy_exp toy_exp toy_act
    (toy_config 3 2) (toy_layer [2; 1; 0]%Z) 0 (concat (map (fun z => [f32_of_Z z]) [1; -1; 3]%Z)) 3 3 true sharding in
  out (Some pair_sharding) = out None /\ exists y, out None = ROk y.
Proof.
  apply (cluster_is_one_node (ExpertProvider0 := toy_provider toy_weights) (Transport0 := pair_transport toy_weights) toy_exp toy_exp toy_act
    (toy_config 3 2) (toy_layer [2; 1; 0]%Z) 0 true pair_sharding (map (fun z => [f32_of_Z z]) [1; -1; 3]%Z)).
  - exact toy_ready.
  - vm_compute. lia.
  - reflexivity.
  - intros node rq out _ H. cbn. by rewrite H.
  - intros [|[|[|e]]] He; [eexists; reflexivity..|vm_compute in He; lia].
  - repeat constructor.
Defined.

(** ** A node that fails *)

Lemma collect_failed {E X} (answers : list (Z * res (MoeError E X) (list f32))) n e :
  (n, RErr e) ∈ answers -> forall ps, collect answers <> ROk ps.
Proof.
  induction answers as [|[m [p|e'|]] answers IH]; intros Hin ps; [by apply not_elem_of_nil in Hin| | |done]; cbn.
  - apply elem_of_cons in Hin as [|Hin]; [done|]. specialize (IH Hin). destruct (collect answers); [|done|done]. by destruct (IH a).
  - by destruct (collect answers).
Qed.

(** A node whose answers never have the number of values asked for, if it
    answers at all. *)
Definition never_answers {X : Type} `{!Transport X} (n : Z) (want : nat) : Prop :=
  forall rq out, exchange n rq = ROk out -> length out <> want.

(** No answer is left out of the sum.  When a node that owns a chosen expert
    cannot be reached, answers with an error, or answers with another number of
    values than the tokens have, the call does not succeed with what the other
    nodes sent. *)
Theorem node_failure_fails expf tanhf act {E X : Type} `{!ExpertProvider E} `{!Transport X} layer uniq w_mat a s_len dim sh owners n :
  mapM (fun e => owner sh (u32 (Z.of_nat e))) uniq = Some owners -> n ∈ owners -> n <> this_node ->
  never_answers (X := X) n (s_len * dim) ->
  forall out, sharded_experts_partial expf tanhf act (X := X) layer uniq w_mat a s_len dim sh <> ROk out.
Proof.
  intros Ho Hin Hne Hfail out. unfold sharded_experts_partial. rewrite Ho. cbn [unwrap].
  destruct (mapM _ (by_node owners)) as [jobs|] eqn:Ej; [|done]. cbn [unwrap]. cbv zeta.
  set (jl := filter _ jobs ++ _). assert (jl ≡ₚ jobs) as Hjl by apply filter_app_complement.
  assert (exists es ws, (n, (es, ws)) ∈ jobs) as (es & ws & Hjob).
  { apply mapM_Some in Ej.
    assert (n ∈ remove_dups (sort_by Z.leb owners)) as Hn by (rewrite elem_of_remove_dups; by apply elem_of_sort_by).
    apply list_elem_of_lookup in Hn as [i Hi].
    assert (by_node owners !! i = Some (n, map fst (filter (fun io => io.2 = n) (imap pair owners)))) as Hl.
    { unfold by_node. change (map ?f (remove_dups ?l)) with (f <$> remove_dups l). by rewrite list_lookup_fmap, Hi. }
    destruct (Forall2_lookup_l _ _ _ _ _ Ej Hl) as (j & Hj & Hf).
    cbv beta iota in Hf. destruct (mapM _ (map fst _)) as [es|]; [|done]. cbv beta iota in Hf.
    destruct (subcols _ _ _ _) as [w|]; [|done]. injection Hf as <-.
    exists es, w. by eapply list_elem_of_lookup_2. }
  assert (exists e, node_answer expf tanhf act (X := X) layer a s_len dim (n, (es, ws)) = RErr e) as [e He].
  { unfold node_answer. destruct (Z.eqb_spec n this_node) as [|_]; [done|]. destruct (exchange n _) as [o|x|] eqn:Ex; [|by eexists..].
    pose proof (Hfail _ _ Ex) as Hl. destruct (Nat.eqb_spec (length o) (s_len * dim)); [done|by eexists]. }
  destruct (collect _) as [ps| |] eqn:Ec; [|done|done]. exfalso. revert Ec. apply (collect_failed _ n e).
  apply list_elem_of_fmap. exists (n, (es, ws)). rewrite He. split; [done|]. by rewrite Hjl.
Qed.

Lemma node_failure_fails_witness :
  sharded_experts_partial (ExpertProvider0 := toy_provider toy_weights) (X := unit) toy_exp toy_exp toy_act 0 [0; 1]
    [f32_one; f32_one] [f32_one] 1 1 pair_sharding <> ROk [f32_one].
Proof.
  apply (node_failure_fails (ExpertProvider0 := toy_provider toy_weights) (X := unit) toy_exp toy_exp toy_act 0 [0; 1]
    [f32_one; f32_one] [f32_one] 1 1 pair_sharding [0; 1]%Z 1%Z).
  - reflexivity.
  - right. left.
  - discriminate.
  - intros rq out H. discriminate H.
Defined.
