(* ===== verification/KvCache.v ===== *)
(** * The key/value cache ([crates/colibri-engine/src/model.rs], [KvCache])

    The buffers hold binary32 values that are only moved: a value is a
    [spec_float], which has one NaN.  Positions, widths and lengths are
    natural numbers: they index buffers that exist, so no product of them
    overflows; the accounting functions at the end compute in 64 bits as the
    code does.  A slice or index out of range, or a failed assertion, is [None].
    The device shadow of the CUDA build is not modelled.  [dsv4_ring_for] and
    the chunk policy are those of [crates/colibri-engine/src/forward.rs];
    [CompressorState] is of [dsv4.rs], [SsmState] of [mamba2.rs]. *)

From Stdlib Require Import ZifyBool ZifyNat SpecFloat.
From S2P Require Import Prelude Rows Json DType Math Usage Config.
Local Open Scope Z_scope.

(** ** Data *)

Record CompressorState := { cs_kv : list f32; cs_score : list f32; cs_ratio : nat; cs_coff : nat; cs_d : nat }.
Definition compressor_new (ratio d : nat) : CompressorState :=
  let coff := if (ratio =? 4)%nat then 2%nat else 1%nat in
  let slots := (coff * ratio)%nat in
  {| cs_kv := replicate (slots * coff * d) f0; cs_score := replicate (slots * coff * d) NEG_INFINITY;
     cs_ratio := ratio; cs_coff := coff; cs_d := d |}.

Record SsmState := { ss_data : list f32; ss_n_heads : nat; ss_head_dim : nat; ss_d_state : nat }.
Definition ssm_zeros (n_heads head_dim d_state : nat) : SsmState :=
  {| ss_data := replicate (n_heads * head_dim * d_state) f0;
     ss_n_heads := n_heads; ss_head_dim := head_dim; ss_d_state := d_state |}.

Record KvCache := {
  kc_max_t : nat; kc_kv_lora : nat; kc_qk_rope : nat; kc_latent : list (list f32); kc_k_rot : list (list f32);
  kc_kv_dim : nat; kc_comp : list (list f32); kc_comp_len : list nat;
  kc_comp_state : list (option CompressorState); kc_comp_dim : nat; kc_icomp : list (list f32);
  kc_icomp_len : list nat; kc_icomp_state : list (option CompressorState); kc_icomp_dim : nat;
  kc_k_full : list (list f32); kc_v_full : list (list f32); kc_mamba_conv : list (list f32);
  kc_mamba_ssm : list SsmState; kc_mamba_d_conv : nat; kc_mamba_conv_dim : nat; kc_kda_conv : list (list f32);
  kc_kda_state : list (list f32); kc_ring : nat; kc_ring_hi : nat; kc_kv_start : list Z
}.

Definition KV_UNSET : Z := 2 ^ 64 - 1.

(** ** Allocation *)

Definition lazy_zeros (n_rows len : nat) : list (list f32) := replicate n_rows (replicate len f0).

Definition ring_slot (pos ring : nat) : nat := if (ring =? 0)%nat then pos else (pos mod ring)%nat.

Definition kv_new (n_rows kv_lora qk_rope max_t : nat) : KvCache :=
  {| kc_max_t := max_t; kc_kv_lora := kv_lora; kc_qk_rope := qk_rope;
     kc_latent := lazy_zeros n_rows (max_t * kv_lora); kc_k_rot := lazy_zeros n_rows (max_t * qk_rope);
     kc_kv_dim := 0%nat; kc_comp := []; kc_comp_len := []; kc_comp_state := []; kc_comp_dim := 0%nat;
     kc_icomp := []; kc_icomp_len := []; kc_icomp_state := []; kc_icomp_dim := 0%nat;
     kc_k_full := replicate n_rows []; kc_v_full := replicate n_rows []; kc_mamba_conv := replicate n_rows [];
     kc_mamba_ssm := replicate n_rows (ssm_zeros 0 0 0); kc_mamba_d_conv := 0%nat; kc_mamba_conv_dim := 0%nat;
     kc_kda_conv := replicate n_rows []; kc_kda_state := replicate n_rows []; kc_ring := 0%nat;
     kc_ring_hi := 0%nat; kc_kv_start := replicate n_rows 0 |}.

(** Updates of groups of fields. *)
Definition set_rows (kv : KvCache) (lat rot : list (list f32)) (ring hi : nat) : KvCache :=
  {| kc_max_t := kc_max_t kv; kc_kv_lora := kc_kv_lora kv; kc_qk_rope := kc_qk_rope kv; kc_latent := lat;
     kc_k_rot := rot; kc_kv_dim := kc_kv_dim kv; kc_comp := kc_comp kv; kc_comp_len := kc_comp_len kv;
     kc_comp_state := kc_comp_state kv; kc_comp_dim := kc_comp_dim kv; kc_icomp := kc_icomp kv;
     kc_icomp_len := kc_icomp_len kv; kc_icomp_state := kc_icomp_state kv; kc_icomp_dim := kc_icomp_dim kv;
     kc_k_full := kc_k_full kv; kc_v_full := kc_v_full kv; kc_mamba_conv := kc_mamba_conv kv;
     kc_mamba_ssm := kc_mamba_ssm kv; kc_mamba_d_conv := kc_mamba_d_conv kv;
     kc_mamba_conv_dim := kc_mamba_conv_dim kv; kc_kda_conv := kc_kda_conv kv; kc_kda_state := kc_kda_state kv;
     kc_ring := ring; kc_ring_hi := hi; kc_kv_start := kc_kv_start kv |}.
Definition set_full (kv : KvCache) (dim : nat) (k v : list (list f32)) : KvCache :=
  {| kc_max_t := kc_max_t kv; kc_kv_lora := kc_kv_lora kv; kc_qk_rope := kc_qk_rope kv;
     kc_latent := kc_latent kv; kc_k_rot := kc_k_rot kv; kc_kv_dim := dim; kc_comp := kc_comp kv;
     kc_comp_len := kc_comp_len kv; kc_comp_state := kc_comp_state kv; kc_comp_dim := kc_comp_dim kv;
     kc_icomp := kc_icomp kv; kc_icomp_len := kc_icomp_len kv; kc_icomp_state := kc_icomp_state kv;
     kc_icomp_dim := kc_icomp_dim kv; kc_k_full := k; kc_v_full := v; kc_mamba_conv := kc_mamba_conv kv;
     kc_mamba_ssm := kc_mamba_ssm kv; kc_mamba_d_conv := kc_mamba_d_conv kv;
     kc_mamba_conv_dim := kc_mamba_conv_dim kv; kc_kda_conv := kc_kda_conv kv; kc_kda_state := kc_kda_state kv;
     kc_ring := kc_ring kv; kc_ring_hi := kc_ring_hi kv; kc_kv_start := kc_kv_start kv |}.
Definition set_mamba (kv : KvCache) (conv : list (list f32)) (ssm : list SsmState) (d_conv conv_dim : nat) : KvCache :=
  {| kc_max_t := kc_max_t kv; kc_kv_lora := kc_kv_lora kv; kc_qk_rope := kc_qk_rope kv;
     kc_latent := kc_latent kv; kc_k_rot := kc_k_rot kv; kc_kv_dim := kc_kv_dim kv; kc_comp := kc_comp kv;
     kc_comp_len := kc_comp_len kv; kc_comp_state := kc_comp_state kv; kc_comp_dim := kc_comp_dim kv;
     kc_icomp := kc_icomp kv; kc_icomp_len := kc_icomp_len kv; kc_icomp_state := kc_icomp_state kv;
     kc_icomp_dim := kc_icomp_dim kv; kc_k_full := kc_k_full kv; kc_v_full := kc_v_full kv;
     kc_mamba_conv := conv; kc_mamba_ssm := ssm; kc_mamba_d_conv := d_conv; kc_mamba_conv_dim := conv_dim;
     kc_kda_conv := kc_kda_conv kv; kc_kda_state := kc_kda_state kv; kc_ring := kc_ring kv;
     kc_ring_hi := kc_ring_hi kv; kc_kv_start := kc_kv_start kv |}.
Definition set_kda (kv : KvCache) (conv state : list (list f32)) : KvCache :=
  {| kc_max_t := kc_max_t kv; kc_kv_lora := kc_kv_lora kv; kc_qk_rope := kc_qk_rope kv;
     kc_latent := kc_latent kv; kc_k_rot := kc_k_rot kv; kc_kv_dim := kc_kv_dim kv; kc_comp := kc_comp kv;
     kc_comp_len := kc_comp_len kv; kc_comp_state := kc_comp_state kv; kc_comp_dim := kc_comp_dim kv;
     kc_icomp := kc_icomp kv; kc_icomp_len := kc_icomp_len kv; kc_icomp_state := kc_icomp_state kv;
     kc_icomp_dim := kc_icomp_dim kv; kc_k_full := kc_k_full kv; kc_v_full := kc_v_full kv;
     kc_mamba_conv := kc_mamba_conv kv; kc_mamba_ssm := kc_mamba_ssm kv; kc_mamba_d_conv := kc_mamba_d_conv kv;
     kc_mamba_conv_dim := kc_mamba_conv_dim kv; kc_kda_conv := conv; kc_kda_state := state;
     kc_ring := kc_ring kv; kc_ring_hi := kc_ring_hi kv; kc_kv_start := kc_kv_start kv |}.
Definition set_comp (kv : KvCache) (c : list (list f32)) (cl : list nat) (cs : list (option CompressorState)) (cd : nat) : KvCache :=
  {| kc_max_t := kc_max_t kv; kc_kv_lora := kc_kv_lora kv; kc_qk_rope := kc_qk_rope kv;
     kc_latent := kc_latent kv; kc_k_rot := kc_k_rot kv; kc_kv_dim := kc_kv_dim kv; kc_comp := c;
     kc_comp_len := cl; kc_comp_state := cs; kc_comp_dim := cd; kc_icomp := kc_icomp kv;
     kc_icomp_len := kc_icomp_len kv; kc_icomp_state := kc_icomp_state kv; kc_icomp_dim := kc_icomp_dim kv;
     kc_k_full := kc_k_full kv; kc_v_full := kc_v_full kv; kc_mamba_conv := kc_mamba_conv kv;
     kc_mamba_ssm := kc_mamba_ssm kv; kc_mamba_d_conv := kc_mamba_d_conv kv;
     kc_mamba_conv_dim := kc_mamba_conv_dim kv; kc_kda_conv := kc_kda_conv kv; kc_kda_state := kc_kda_state kv;
     kc_ring := kc_ring kv; kc_ring_hi := kc_ring_hi kv; kc_kv_start := kc_kv_start kv |}.
Definition set_icomp (kv : KvCache) (c : list (list f32)) (cl : list nat) (cs : list (option CompressorState)) (cd : nat) : KvCache :=
  {| kc_max_t := kc_max_t kv; kc_kv_lora := kc_kv_lora kv; kc_qk_rope := kc_qk_rope kv;
     kc_latent := kc_latent kv; kc_k_rot := kc_k_rot kv; kc_kv_dim := kc_kv_dim kv; kc_comp := kc_comp kv;
     kc_comp_len := kc_comp_len kv; kc_comp_state := kc_comp_state kv; kc_comp_dim := kc_comp_dim kv;
     kc_icomp := c; kc_icomp_len := cl; kc_icomp_state := cs; kc_icomp_dim := cd; kc_k_full := kc_k_full kv;
     kc_v_full := kc_v_full kv; kc_mamba_conv := kc_mamba_conv kv; kc_mamba_ssm := kc_mamba_ssm kv;
     kc_mamba_d_conv := kc_mamba_d_conv kv; kc_mamba_conv_dim := kc_mamba_conv_dim kv;
     kc_kda_conv := kc_kda_conv kv; kc_kda_state := kc_kda_state kv; kc_ring := kc_ring kv;
     kc_ring_hi := kc_ring_hi kv; kc_kv_start := kc_kv_start kv |}.
Definition set_start (kv : KvCache) (st : list Z) : KvCache :=
  {| kc_max_t := kc_max_t kv; kc_kv_lora := kc_kv_lora kv; kc_qk_rope := kc_qk_rope kv;
     kc_latent := kc_latent kv; kc_k_rot := kc_k_rot kv; kc_kv_dim := kc_kv_dim kv; kc_comp := kc_comp kv;
     kc_comp_len := kc_comp_len kv; kc_comp_state := kc_comp_state kv; kc_comp_dim := kc_comp_dim kv;
     kc_icomp := kc_icomp kv; kc_icomp_len := kc_icomp_len kv; kc_icomp_state := kc_icomp_state kv;
     kc_icomp_dim := kc_icomp_dim kv; kc_k_full := kc_k_full kv; kc_v_full := kc_v_full kv;
     kc_mamba_conv := kc_mamba_conv kv; kc_mamba_ssm := kc_mamba_ssm kv; kc_mamba_d_conv := kc_mamba_d_conv kv;
     kc_mamba_conv_dim := kc_mamba_conv_dim kv; kc_kda_conv := kc_kda_conv kv; kc_kda_state := kc_kda_state kv;
     kc_ring := kc_ring kv; kc_ring_hi := kc_ring_hi kv; kc_kv_start := st |}.

Definition enable_gqa (kv : KvCache) (kv_dim : nat) : KvCache :=
  let rows := length (kc_k_full kv) in
  set_full kv kv_dim (lazy_zeros rows (kc_max_t kv * kv_dim)) (lazy_zeros rows (kc_max_t kv * kv_dim)).

(** [as usize] of a field of the configuration, as a length. *)
Definition len_of (z : Z) : nat := Z.to_nat (u64 z).

Definition mamba_conv_dim_of (cfg : Config) : nat :=
  (len_of (mamba_inter cfg) + 2 * len_of (mamba_n_groups cfg) * len_of (mamba_d_state cfg))%nat.

Definition enable_mamba2 (kv : KvCache) (cfg : Config) : KvCache :=
  let conv_dim := mamba_conv_dim_of cfg in
  let k := len_of (mamba_d_conv cfg) in
  let '(nh, hd, ds) := (len_of (mamba_n_heads cfg), len_of (mamba_head_dim cfg), len_of (mamba_d_state cfg)) in
  let is_mamba li := bool_decide (layer_kind cfg !! li = Some Mamba) in
  set_mamba kv
    (imap (fun li old => if is_mamba li then replicate (k * conv_dim) f0 else old) (kc_mamba_conv kv))
    (imap (fun li old => if is_mamba li then ssm_zeros nh hd ds else old) (kc_mamba_ssm kv)) k conv_dim.

Definition kda_state_lens (cfg : Config) : nat * nat :=
  let '(nh, hd) := (len_of (kda_n_heads cfg), len_of (kda_head_dim cfg)) in
  ((len_of (kda_d_conv cfg) * 3 * nh * hd)%nat, (nh * hd * hd)%nat).

Definition enable_kda (kv : KvCache) (cfg : Config) : KvCache :=
  let '(conv, state) := kda_state_lens cfg in
  let is_kda li := bool_decide (layer_kind cfg !! li = Some Kda) in
  set_kda kv
    (imap (fun li old => if is_kda li then replicate conv f0 else old) (kc_kda_conv kv))
    (imap (fun li old => if is_kda li then replicate state f0 else old) (kc_kda_state kv)).

Definition allocates_gqa_kv (cfg : Config) : bool := is_gqa (arch cfg) || bool_decide (arch cfg = NemotronH).

(** [for_model] of a model with [cfg] and [head_rows] MTP blocks. *)
Definition for_model (cfg : Config) (head_rows max_t : nat) : KvCache :=
  let n_layers := len_of (n_layers cfg) in
  let kv := kv_new (n_layers + head_rows) (len_of (kv_lora cfg)) (len_of (qk_rope cfg)) max_t in
  let kv := set_start kv (imap (fun r old => if (n_layers <=? r)%nat then KV_UNSET else old) (kc_kv_start kv)) in
  let kv := if allocates_gqa_kv cfg then enable_gqa kv (len_of (n_kv_heads cfg) * len_of (qk_head cfg)) else kv in
  let kv := if bool_decide (arch cfg = NemotronH) then enable_mamba2 kv cfg else kv in
  if bool_decide (arch cfg = KimiK3) then enable_kda kv cfg else kv.

(** [start_at]; indexing past the rows panics. *)
Definition start_at (kv : KvCache) (layer : nat) (pos : Z) : option KvCache :=
  let* cur := kc_kv_start kv !! layer in
  Some (if pos <? cur then set_start kv (<[layer := pos]> (kc_kv_start kv)) else kv).

(** ** The ring of raw rows *)

Definition slot (kv : KvCache) (pos : nat) : nat := ring_slot pos (kc_ring kv).

(** The inner loop of [ring_ensure] over one layer's buffer of row width [w]:
    [w = 0] copies nothing. *)
Fixpoint rehome (w old rows : nat) (src : list f32) (ps : list nat) (dst : list f32) : option (list f32) :=
  match ps with
  | [] => Some dst
  | p :: ps =>
      let '(from, to) := (ring_slot p old, ring_slot p rows) in
      if (0 <? w)%nat then
        let* row := range src (from * w) ((from + 1) * w) in
        let* _ := range dst (to * w) ((to + 1) * w) in
        rehome w old rows src ps (blit dst (to * w) row)
      else rehome w old rows src ps dst
  end.

Definition ring_ensure (kv : KvCache) (rows : nat) : option KvCache :=
  if (rows =? 0)%nat || (rows <=? kc_ring kv)%nat then Some kv
  else
    let '(kvl, r) := (kc_kv_lora kv, kc_qk_rope kv) in
    let n_rows := length (kc_latent kv) in
    let old := kc_ring kv in
    if (old =? 0)%nat then
      Some (set_rows kv (lazy_zeros n_rows (rows * kvl)) (lazy_zeros n_rows (rows * r)) rows (kc_ring_hi kv))
    else
      let lo := (kc_ring_hi kv - old)%nat in
      let ps := seq lo (kc_ring_hi kv - lo) in
      let* latent := mapM (fun src => rehome kvl old rows src ps (replicate (rows * kvl) f0)) (kc_latent kv) in
      let* k_rot := mapM (fun src => rehome r old rows src ps (replicate (rows * r) f0)) (take n_rows (kc_k_rot kv)) in
      Some (set_rows kv latent k_rot rows (kc_ring_hi kv)).

Definition ring_touch (kv : KvCache) (pos : nat) : KvCache :=
  if negb (kc_ring kv =? 0)%nat && (kc_ring_hi kv <? pos + 1)%nat
  then set_rows kv (kc_latent kv) (kc_k_rot kv) (kc_ring kv) (pos + 1) else kv.

(** [extend_rows]: what is appended to [out]. *)
Definition extend_rows (kv : KvCache) (buf : list f32) (w start stop : nat) : option (list f32) :=
  if (kc_ring kv =? 0)%nat then range buf (start * w) (stop * w)
  else if (stop <? start)%nat || (kc_ring kv <? stop - start)%nat then None
  else
    let lo := slot kv start in
    let n := (stop - start)%nat in
    let head := Nat.min n (kc_ring kv - lo) in
    let* a := range buf (lo * w) ((lo + head) * w) in
    if (head <? n)%nat
    then let* b := range buf 0 ((n - head) * w) in Some (a ++ b)
    else Some a.

Definition extend_latent_rows (kv : KvCache) (layer start stop : nat) : option (list f32) :=
  let* buf := kc_latent kv !! layer in extend_rows kv buf (kc_kv_lora kv) start stop.
Definition extend_krot_rows (kv : KvCache) (layer start stop : nat) : option (list f32) :=
  let* buf := kc_k_rot kv !! layer in extend_rows kv buf (kc_qk_rope kv) start stop.

Definition latent_row (kv : KvCache) (layer pos : nat) : option (list f32) :=
  let p := slot kv pos in
  let* buf := kc_latent kv !! layer in range buf (p * kc_kv_lora kv) ((p + 1) * kc_kv_lora kv).
Definition krot_row (kv : KvCache) (layer pos : nat) : option (list f32) :=
  let p := slot kv pos in
  let* buf := kc_k_rot kv !! layer in range buf (p * kc_qk_rope kv) ((p + 1) * kc_qk_rope kv).

(** [latent_row_mut], [krot_row_mut]: the caller's update [f] of the row. *)
Definition latent_row_mut (kv : KvCache) (layer pos : nat) (f : list f32 -> list f32) : option KvCache :=
  let kv := ring_touch kv pos in
  let p := slot kv pos in
  let* buf := kc_latent kv !! layer in
  let* buf := update buf (p * kc_kv_lora kv) ((p + 1) * kc_kv_lora kv) f in
  Some (set_rows kv (<[layer := buf]> (kc_latent kv)) (kc_k_rot kv) (kc_ring kv) (kc_ring_hi kv)).
Definition krot_row_mut (kv : KvCache) (layer pos : nat) (f : list f32 -> list f32) : option KvCache :=
  let kv := ring_touch kv pos in
  let p := slot kv pos in
  let* buf := kc_k_rot kv !! layer in
  let* buf := update buf (p * kc_qk_rope kv) ((p + 1) * kc_qk_rope kv) f in
  Some (set_rows kv (kc_latent kv) (<[layer := buf]> (kc_k_rot kv)) (kc_ring kv) (kc_ring_hi kv)).

Definition latent_rows (kv : KvCache) (layer start stop : nat) : option (list f32) :=
  if negb (kc_ring kv =? 0)%nat then None
  else let* buf := kc_latent kv !! layer in range buf (start * kc_kv_lora kv) (stop * kc_kv_lora kv).
Definition krot_rows (kv : KvCache) (layer start stop : nat) : option (list f32) :=
  if negb (kc_ring kv =? 0)%nat then None
  else let* buf := kc_k_rot kv !! layer in range buf (start * kc_qk_rope kv) (stop * kc_qk_rope kv).

(** ** Full keys and values *)

Definition full_row_mut (bufs : list (list f32)) (w layer pos : nat) (f : list f32 -> list f32) : option (list (list f32)) :=
  let* buf := bufs !! layer in
  let* buf := update buf (pos * w) ((pos + 1) * w) f in Some (<[layer := buf]> bufs).
Definition k_full_row_mut (kv : KvCache) (layer pos : nat) (f : list f32 -> list f32) : option KvCache :=
  let* k := full_row_mut (kc_k_full kv) (kc_kv_dim kv) layer pos f in Some (set_full kv (kc_kv_dim kv) k (kc_v_full kv)).
Definition v_full_row_mut (kv : KvCache) (layer pos : nat) (f : list f32 -> list f32) : option KvCache :=
  let* v := full_row_mut (kc_v_full kv) (kc_kv_dim kv) layer pos f in Some (set_full kv (kc_kv_dim kv) (kc_k_full kv) v).
Definition k_full_rows (kv : KvCache) (layer start stop : nat) : option (list f32) :=
  let* buf := kc_k_full kv !! layer in range buf (start * kc_kv_dim kv) (stop * kc_kv_dim kv).
Definition v_full_rows (kv : KvCache) (layer start stop : nat) : option (list f32) :=
  let* buf := kc_v_full kv !! layer in range buf (start * kc_kv_dim kv) (stop * kc_kv_dim kv).

(** ** Compressed rows *)

Definition ratio_at (ratios : list Z) (i : nat) : Z := default 0 (ratios !! i).

Definition comp_init (kv : KvCache) (n_layers : nat) (ratios : list Z) (head_dim max_blocks : nat) : KvCache :=
  let ls := seq 0 n_layers in
  set_comp kv
    (map (fun i => if 0 <? ratio_at ratios i then replicate (max_blocks * head_dim) f0 else []) ls)
    (replicate n_layers 0%nat)
    (map (fun i => let r := ratio_at ratios i in if 0 <? r then Some (compressor_new (Z.to_nat r) head_dim) else None) ls)
    head_dim.

(** [copy_from_slice] panics on a row of another width. *)
Definition push_row (bufs : list (list f32)) (lens : list nat) (d layer : nat) (row : list f32)
    : option (list (list f32) * list nat) :=
  let* n := lens !! layer in
  let* buf := bufs !! layer in
  if ((n + 1) * d <=? length buf)%nat
  then if (length row =? d)%nat
       then Some (<[layer := blit buf (n * d) row]> bufs, <[layer := (n + 1)%nat]> lens)
       else None
  else Some (bufs, lens).

Definition comp_push (kv : KvCache) (layer : nat) (row : list f32) : option KvCache :=
  let* (c, l) := push_row (kc_comp kv) (kc_comp_len kv) (kc_comp_dim kv) layer row in
  Some (set_comp kv c l (kc_comp_state kv) (kc_comp_dim kv)).

Definition rows_of (bufs : list (list f32)) (lens : list nat) (d layer : nat) : option (list f32) :=
  match bufs !! layer with
  | Some v => let* n := lens !! layer in range v 0 (n * d)
  | None => Some []
  end.
Definition comp_rows (kv : KvCache) (layer : nat) : option (list f32) :=
  rows_of (kc_comp kv) (kc_comp_len kv) (kc_comp_dim kv) layer.
Definition comp_rows_len (kv : KvCache) : nat := length (kc_comp kv).

Definition icomp_init (kv : KvCache) (n_layers : nat) (ratios : list Z) (want : Z) (head_dim max_blocks : nat) : KvCache :=
  let ls := seq 0 n_layers in
  let has i := ratio_at ratios i =? want in
  set_icomp kv
    (map (fun i => if has i then replicate (max_blocks * head_dim) f0 else []) ls)
    (replicate n_layers 0%nat)
    (map (fun i => if has i then Some (compressor_new (len_of want) head_dim) else None) ls)
    head_dim.
Definition icomp_push (kv : KvCache) (layer : nat) (row : list f32) : option KvCache :=
  let* (c, l) := push_row (kc_icomp kv) (kc_icomp_len kv) (kc_icomp_dim kv) layer row in
  Some (set_icomp kv c l (kc_icomp_state kv) (kc_icomp_dim kv)).
Definition icomp_rows (kv : KvCache) (layer : nat) : option (list f32) :=
  rows_of (kc_icomp kv) (kc_icomp_len kv) (kc_icomp_dim kv) layer.
Definition icomp_ready (kv : KvCache) : bool := negb (length (kc_icomp kv) =? 0)%nat.

(** ** Recurrent state *)

Definition kda_conv_take (kv : KvCache) (layer c k : nat) : list f32 :=
  let need := (3 * (k - 1) * c)%nat in
  match kc_kda_conv kv !! layer with
  | Some v => if (need <=? length v)%nat && (0 <? need)%nat then take need v else replicate need f0
  | None => replicate need f0
  end.

Definition kda_conv_store (kv : KvCache) (layer : nat) (carries : list f32) : KvCache :=
  match kc_kda_conv kv !! layer with
  | None => kv
  | Some s =>
      let s := if (length s <? length carries)%nat then s ++ replicate (length carries - length s) f0 else s in
      set_kda kv (<[layer := blit s 0 carries]> (kc_kda_conv kv)) (kc_kda_state kv)
  end.

Definition has_mamba (kv : KvCache) : bool := negb (kc_mamba_conv_dim kv =? 0)%nat.

(** What [snapshot_mamba_into] leaves in the snapshot, whatever it held. *)
Record MambaSnapshot := { sn_conv : list (list f32); sn_ssm : list (list f32) }.
Definition snapshot_mamba_into (kv : KvCache) (snap : MambaSnapshot) : MambaSnapshot :=
  let n := length (kc_mamba_conv kv) in
  let '(conv, ssm) :=
    if negb (length (sn_conv snap) =? n)%nat then (replicate n [], replicate n []) else (sn_conv snap, sn_ssm snap) in
  {| sn_conv := imap (fun li old => default old (kc_mamba_conv kv !! li)) conv;
     sn_ssm := imap (fun li old => default old (let* st := kc_mamba_ssm kv !! li in Some (ss_data st))) ssm |}.

(** [dst.copy_from_slice(src)]. *)
Definition copy_from_slice (dst src : list f32) : option (list f32) :=
  if (length dst =? length src)%nat then Some src else None.

Fixpoint restore_from (convs : list (list f32)) (ssms : list SsmState) (sc ss : list (list f32))
    : option (list (list f32) * list SsmState) :=
  match convs with
  | [] => Some ([], ssms)
  | c :: convs =>
      match sc, ssms, ss with
      | sc0 :: sc, m :: ssms, ss0 :: ss =>
          let* c := copy_from_slice c sc0 in
          let* d := copy_from_slice (ss_data m) ss0 in
          let* (cs, ms) := restore_from convs ssms sc ss in
          Some (c :: cs, {| ss_data := d; ss_n_heads := ss_n_heads m; ss_head_dim := ss_head_dim m;
                            ss_d_state := ss_d_state m |} :: ms)
      | _, _, _ => None
      end
  end.
Definition restore_mamba_from (kv : KvCache) (snap : MambaSnapshot) : option KvCache :=
  let* (cs, ms) := restore_from (kc_mamba_conv kv) (kc_mamba_ssm kv) (sn_conv snap) (sn_ssm snap) in
  Some (set_mamba kv cs ms (kc_mamba_d_conv kv) (kc_mamba_conv_dim kv)).

(** ** One call of DeepSeek-V4 attention on a layer ([forward.rs]) *)

Definition dsv4_raw_span (pos_base s : nat) (window : Z) : nat * nat * nat :=
  let total := (pos_base + s)%nat in
  let win := if 0 <? window then Z.to_nat window else total in
  ((pos_base + 1 - Nat.min win (pos_base + 1))%nat, total, win).

Definition dsv4_ring_for (kv : KvCache) (pos_base s : nat) (window : Z) : option (KvCache * (nat * nat * nat)) :=
  let '(raw_lo, total, win) := dsv4_raw_span pos_base s window in
  let* kv := (if 0 <? window then ring_ensure kv (total - raw_lo) else Some kv) in
  Some (kv, (raw_lo, total, win)).

(** [for i in 0..s { kv.latent_row_mut(li, pos_base + i).copy_from_slice(row) }]. *)
Fixpoint write_rows (kv : KvCache) (li pos : nat) (rows : list (list f32)) : option KvCache :=
  match rows with
  | [] => Some kv
  | r :: rows =>
      if (length r =? kc_kv_lora kv)%nat
      then let* kv := latent_row_mut kv li pos (fun _ => r) in write_rows kv li (pos + 1) rows
      else None
  end.

(** The raw keys the call attends to: [cache] before the compressed rows. *)
Definition dsv4_raw_keys (kv : KvCache) (li pos_base : nat) (window : Z) (rows : list (list f32))
    : option (KvCache * list f32) :=
  let* (kv, (raw_lo, total, _)) := dsv4_ring_for kv pos_base (length rows) window in
  let* kv := write_rows kv li pos_base rows in
  let* cache := extend_latent_rows kv li raw_lo total in
  Some (kv, cache).

(** ** Accounting *)

Definition mul64 (a b : Z) : Z := u64 (a * b).
Definition add64 (a b : Z) : Z := u64 (a + b).
Definition sat64 (z : Z) : Z := Z.min z (2 ^ 64 - 1).

Section Accounting.
(** [cuda]: the feature of the build; [budget_mb]: COLI_DSV4_KV_BUDGET_MB. *)
Context (cuda : bool) (budget_mb : option (list Z)).

Definition kv_layers (cfg : Config) : Z :=
  match layer_kind cfg with
  | [] => u64 (n_layers cfg)
  | ks => Z.of_nat (length (List.filter (fun k => bool_decide (k = Attn)) ks))
  end.

Definition mirrors_kv_on_device (cfg : Config) : bool := negb (allocates_gqa_kv cfg) && (window cfg =? 0).

Definition raw_row_bytes (cfg : Config) : Z :=
  let latent := u64 (kv_lora cfg) in
  let mla := if mirrors_kv_on_device cfg then u64 (qk_rope cfg) else 0 in
  let gqa_full := if allocates_gqa_kv cfg then mul64 (mul64 2 (u64 (n_kv_heads cfg))) (u64 (qk_head cfg)) else 0 in
  let device_shadow := if cuda && mirrors_kv_on_device cfg then add64 latent mla else 0 in
  mul64 (mul64 (kv_layers cfg) (add64 (add64 (add64 latent mla) gqa_full) device_shadow)) 4.

Definition ring_budget_bytes (cfg : Config) : Z :=
  if window cfg <=? 0 then 0
  else u64 (Z.shiftl (default 1024 (let* v := budget_mb in parse_uint 64 v)) 20).

Definition ring_rows (cfg : Config) : Z :=
  if window cfg <=? 0 then 0
  else
    let row := Z.max (raw_row_bytes cfg) 1 in
    add64 (Z.max (ring_budget_bytes cfg / row) (u64 (window cfg))) (u64 (window cfg)).

Definition raw_rows (cfg : Config) (n_prompt n_new : Z) : Z :=
  if 0 <? window cfg then Z.min (sat64 (n_prompt + n_new)) (ring_rows cfg) else sat64 (n_prompt + n_new).

Definition compressed_bytes_per_token (cfg : Config) : Z :=
  let n := Z.max (Z.of_nat (length (layer_kind cfg))) (u64 (n_layers cfg)) in
  fold_left add64
    (map (fun r => let main := u64 (qk_head cfg) / r in
                   let idx := if r =? 4 then u64 (index_hd cfg) / r else 0 in mul64 (add64 main idx) 4)
         (List.filter (fun r => 0 <? r) (take (Z.to_nat n) (compress_ratios cfg)))) 0.

Definition bytes_per_token (cfg : Config) : Z :=
  let raw := if 0 <? window cfg then 0 else raw_row_bytes cfg in
  add64 raw (compressed_bytes_per_token cfg).

Definition fixed_bytes (cfg : Config) : Z :=
  match layer_kind cfg with
  | [] => 0
  | ks =>
      let count want := Z.of_nat (length (List.filter (fun k => bool_decide (k = want)) ks)) in
      let n_mamba := count Mamba in
      let conv_dim := add64 (u64 (mamba_inter cfg)) (mul64 (mul64 2 (u64 (mamba_n_groups cfg))) (u64 (mamba_d_state cfg))) in
      let conv := mul64 (u64 (mamba_d_conv cfg)) conv_dim in
      let ssm := mul64 (mul64 (u64 (mamba_n_heads cfg)) (u64 (mamba_head_dim cfg))) (u64 (mamba_d_state cfg)) in
      let n_kda := count Kda in
      let kda_conv := mul64 (mul64 (mul64 (u64 (kda_d_conv cfg)) 3) (u64 (kda_n_heads cfg))) (u64 (kda_head_dim cfg)) in
      let kda_state := mul64 (mul64 (u64 (kda_n_heads cfg)) (u64 (kda_head_dim cfg))) (u64 (kda_head_dim cfg)) in
      let ring := sat64 (ring_rows cfg * raw_row_bytes cfg) in
      add64 (mul64 (add64 (mul64 n_mamba (add64 conv ssm)) (mul64 n_kda (add64 kda_conv kda_state))) 4) ring
  end.

Definition bytes_for_split (cfg : Config) (n_prompt n_new : Z) : Z :=
  sat64 (sat64 (bytes_per_token cfg * sat64 (n_prompt + n_new)) + fixed_bytes cfg).
Definition bytes_for (cfg : Config) (n_tokens : Z) : Z := bytes_for_split cfg n_tokens 0.

(** [dsv4_prefill_chunk]; [chunk]: COLI_DSV4_CHUNK; [usize::MAX] is "never". *)
Definition dsv4_prefill_chunk (chunk : option (list Z)) (cfg : Config) (s : Z) : Z :=
  match (let* v := chunk in parse_uint 64 v) with
  | Some 0 => 2 ^ 64 - 1
  | Some n => Z.max n 1
  | None =>
      let row := Z.max (raw_row_bytes cfg) 1 in
      let budget_rows := Z.max (ring_budget_bytes cfg / row) (u64 (Z.max (window cfg) 1)) in
      if s <=? budget_rows then 2 ^ 64 - 1 else budget_rows
  end.
End Accounting.

(** ** Slots *)

Lemma mod_inj L n p q : (L <= p < L + n)%nat -> (L <= q < L + n)%nat -> (p mod n = q mod n)%nat -> p = q.
Proof.
  intros. assert (n <> 0)%nat by lia.
  pose proof (Nat.div_mod_eq p n) as Hp. pose proof (Nat.div_mod_eq q n) as Hq.
  generalize dependent (p / n)%nat. generalize dependent (q / n)%nat. intros b Hb a Ha.
  generalize dependent (p mod n)%nat. intros r Hr Ha.
  assert (~ (a + 1 <= b)%nat) by (intros ?%(Nat.mul_le_mono_l _ _ n); lia).
  assert (~ (b + 1 <= a)%nat) by (intros ?%(Nat.mul_le_mono_l _ _ n); lia).
  assert (a = b) as -> by lia. lia.
Qed.

Lemma mod_run p n i : (p mod n + i < n)%nat -> ((p + i) mod n = p mod n + i)%nat.
Proof.
  intros. rewrite (Nat.div_mod_eq p n) at 1.
  replace (n * (p / n) + p mod n + i)%nat with (p mod n + i + p / n * n)%nat by lia.
  rewrite Nat.Div0.mod_add. by apply Nat.mod_small.
Qed.

Lemma mod_wrap p n i : (i < n)%nat -> ((p + (n - p mod n) + i) mod n = i)%nat.
Proof.
  intros. assert (p mod n < n)%nat by (apply Nat.mod_upper_bound; lia).
  rewrite (Nat.div_mod_eq p n) at 1.
  replace (n * (p / n) + p mod n + (n - p mod n) + i)%nat with (i + (p / n + 1) * n)%nat by nia.
  rewrite Nat.Div0.mod_add. by apply Nat.mod_small.
Qed.

(** A span no wider than the ring reads back the rows of its positions, one run or two. *)
Lemma extend_rows_spec kv buf w start rs :
  (0 < kc_ring kv)%nat -> length buf = (kc_ring kv * w)%nat -> (length rs <= kc_ring kv)%nat ->
  (forall i r, rs !! i = Some r -> row_at w buf (slot kv (start + i)) = Some r) ->
  extend_rows kv buf w start (start + length rs) = Some (concat rs).
Proof.
  intros Hr Hb Hl H. unfold extend_rows. unfold slot, ring_slot in *. set (n := kc_ring kv) in *.
  destruct (n =? 0)%nat eqn:E0; [lia|]. destruct (start + length rs <? start)%nat eqn:E1; [lia|].
  replace (start + length rs - start)%nat with (length rs) by lia. destruct (n <? length rs)%nat eqn:E2; [lia|].
  simpl. set (head := Nat.min (length rs) (n - start mod n)).
  assert (start mod n < n)%nat by (apply Nat.mod_upper_bound; lia).
  assert (Hh : length (take head rs) = head) by (rewrite length_take; lia).
  rewrite <- Hh at 1. rewrite (row_run w buf (take head rs) (start mod n)); [simpl| nia |].
  2:{ intros i r [Hi Hlt]%lookup_take_Some. specialize (H i r Hi). rewrite mod_run in H by lia. done. }
  destruct (head <? length rs)%nat eqn:E3.
  - assert (length (drop head rs) = length rs - head)%nat as Hd by (rewrite length_drop; lia).
    rewrite <- Hd. change 0%nat with (0 * w)%nat at 1.
    replace (length (drop head rs) * w)%nat with ((0 + length (drop head rs)) * w)%nat by lia.
    rewrite (row_run w buf (drop head rs) 0); [simpl| lia |].
    + by rewrite <- concat_app, take_drop.
    + intros i r Hi. pose proof (lookup_lt_Some _ _ _ Hi). rewrite lookup_drop in Hi. specialize (H _ _ Hi).
      replace (start + (head + i))%nat with (start + (n - start mod n) + i)%nat in H by lia.
      rewrite mod_wrap in H by lia. done.
  - replace (take head rs) with rs by (symmetry; apply take_ge; lia). done.
Qed.

(** ** The ring holds the rows of the positions above [L] *)

(** [M] is what each layer has been given, position by position. *)
Record ring_ok (kv : KvCache) (M : list (list (list f32))) (L : nat) : Prop := {
  ro_n : length (kc_latent kv) = length M;
  ro_n_rot : length (kc_k_rot kv) = length M;
  ro_lat : kc_ring kv <> 0%nat -> Forall (fun b => length b = (kc_ring kv * kc_kv_lora kv)%nat) (kc_latent kv);
  ro_rot : kc_ring kv <> 0%nat -> Forall (fun b => length b = (kc_ring kv * kc_qk_rope kv)%nat) (kc_k_rot kv);
  ro_empty : kc_ring kv = 0%nat -> kc_ring_hi kv = 0%nat;
  ro_hi : (kc_ring_hi kv <= L + kc_ring kv)%nat;
  ro_len : forall li m, M !! li = Some m -> (length m <= kc_ring_hi kv)%nat;
  ro_row : forall li m p r, M !! li = Some m -> (L <= p)%nat -> m !! p = Some r -> latent_row kv li p = Some r
}.

Lemma ring_ok_raise kv M L L' : ring_ok kv M L -> (L <= L')%nat -> ring_ok kv M L'.
Proof. intros [] ?. split; try done; [lia|]. intros. eapply ro_row0; eauto. lia. Qed.

Lemma ring_ok_take kv M L li m n : ring_ok kv M L -> M !! li = Some m -> ring_ok kv (<[li := take n m]> M) L.
Proof.
  intros [] Hm. pose proof (lookup_lt_Some _ _ _ Hm). split; try done; try (by rewrite length_insert).
  - intros lj m'. destruct (decide (lj = li)) as [->|].
    + rewrite list_lookup_insert_eq by done. intros [= <-]. rewrite length_take. specialize (ro_len0 _ _ Hm). lia.
    + rewrite list_lookup_insert_ne by done. eauto.
  - intros lj m' p r. destruct (decide (lj = li)) as [->|].
    + rewrite list_lookup_insert_eq by done. intros [= <-] ? [? ?]%lookup_take_Some. eauto.
    + rewrite list_lookup_insert_ne by done. eauto.
Qed.

(** Moving the rows of the positions [ps] to a wider ring. *)
Lemma rehome_spec w old rows src a :
  (0 < old)%nat -> length src = (old * w)%nat -> forall ps dst,
  NoDup ps -> (forall p, p ∈ ps -> (a <= p < a + rows)%nat) -> length dst = (rows * w)%nat ->
  exists dst', rehome w old rows src ps dst = Some dst' /\ length dst' = (rows * w)%nat /\
    (forall p, p ∈ ps -> row_at w dst' (ring_slot p rows) = row_at w src (ring_slot p old)) /\
    (forall q, (a <= q < a + rows)%nat -> q ∉ ps -> row_at w dst' (ring_slot q rows) = row_at w dst (ring_slot q rows)).
Proof.
  intros Ho Hs. induction ps as [|p ps IH]; intros dst Hn Hin Hd; simpl.
  { exists dst. split_and!; try done. by intros p ?%elem_of_nil. }
  apply NoDup_cons in Hn as [Hp Hn].
  assert (a <= p < a + rows)%nat as Hpr by (apply Hin; by left).
  assert (forall q, q ∈ ps -> (a <= q < a + rows)%nat) as Hin' by (intros; apply Hin; by right).
  assert (ring_slot p old < old)%nat as Hfo.
  { unfold ring_slot. destruct (Nat.eqb_spec old 0); [lia|]. apply Nat.mod_upper_bound. lia. }
  assert (forall q, ring_slot q rows = (q mod rows)%nat) as Hsl.
  { intros. unfold ring_slot. destruct (Nat.eqb_spec rows 0); [lia|done]. }
  assert (p mod rows < rows)%nat as Hto by (apply Nat.mod_upper_bound; lia).
  destruct (Nat.ltb_spec 0 w) as [Hw|Hw].
  - destruct (row_at_some w src old (ring_slot p old) Hs Hfo) as [row Hrow].
    destruct (row_at_some w dst rows (ring_slot p rows)) as [row' Hrow']; [done|by rewrite Hsl|].
    unfold row_at in Hrow, Hrow'. rewrite Hrow; cbn. rewrite Hrow'; cbn.
    change (row_at w src (ring_slot p old) = Some row) in Hrow. rewrite Hsl.
    assert (length row = w) by (by eapply row_at_length).
    assert (length (blit dst (p mod rows * w) row) = (rows * w)%nat) by (rewrite blit_length; [done|nia]).
    destruct (IH (blit dst (p mod rows * w) row)) as (dst' & -> & Hl & Hin2 & Hout); try done.
    exists dst'. split_and!; try done.
    + intros q [->|Hq]%elem_of_cons; [|by apply Hin2].
      rewrite Hout by (try done; lia). rewrite Hsl, Hrow. by eapply row_blit_same.
    + intros q Hq [Hqp Hqs]%not_elem_of_cons. rewrite Hout by done. rewrite !Hsl. eapply row_blit_other; try done.
      intros E. apply Hqp. symmetry. by eapply mod_inj; [exact Hpr|exact Hq|].
  - assert (w = 0%nat) as -> by lia.
    assert (forall (b : list f32) i, row_at 0 b i = Some []) as H0.
    { intros. unfold row_at. rewrite range_some by lia. f_equal. by replace (_ - _)%nat with 0%nat by lia. }
    destruct (IH dst Hn Hin' Hd) as (dst' & -> & Hl & _). exists dst'. by split_and!; intros; rewrite ?H0.
Qed.

Lemma rehome_all w old rows ps (bufs : list (list f32)) a :
  (0 < old)%nat -> NoDup ps -> (forall p, p ∈ ps -> (a <= p < a + rows)%nat) ->
  Forall (fun b => length b = (old * w)%nat) bufs ->
  exists bufs', mapM (fun src => rehome w old rows src ps (replicate (rows * w) f0)) bufs = Some bufs' /\
    Forall2 (fun b b' => length b' = (rows * w)%nat /\
      forall p, p ∈ ps -> row_at w b' (ring_slot p rows) = row_at w b (ring_slot p old)) bufs bufs'.
Proof.
  intros Ho Hn Hin. induction 1 as [|b bufs Hb _ IH]; [by exists []|]. destruct IH as (bufs' & E & IH).
  destruct (rehome_spec w old rows b a Ho Hb ps (replicate (rows * w) f0)) as (b' & Eb & Hl & Hp & _); try done.
  { by rewrite length_replicate. }
  exists (b' :: bufs'). simpl. rewrite Eb; cbn. rewrite E; cbn. split; [done|]. by constructor.
Qed.

Lemma Forall2_len {A B} (P : A -> B -> Prop) (Q : B -> Prop) l k :
  Forall2 P l k -> (forall a b, P a b -> Q b) -> Forall Q k.
Proof. induction 1; constructor; eauto. Qed.

(** Widening the ring loses no row the invariant keeps. *)
Lemma ring_ensure_ok kv M L rows : ring_ok kv M L -> (0 < rows)%nat ->
  exists kv', ring_ensure kv rows = Some kv' /\ ring_ok kv' M L /\
    (0 < kc_ring kv' /\ rows <= kc_ring kv')%nat /\ kc_kv_lora kv' = kc_kv_lora kv.
Proof.
  intros Hok Hr. pose proof Hok as []. unfold ring_ensure. destruct (Nat.eqb_spec rows 0); [lia|].
  destruct (Nat.leb_spec rows (kc_ring kv)).
  { exists kv. split_and!; try done; lia. }
  simpl. destruct (Nat.eqb_spec (kc_ring kv) 0) as [E|E].
  - eexists. split; [done|]. split; [|cbn; lia].
    assert (forall li m, M !! li = Some m -> m = []) as Hm.
    { intros li m Hm. apply ro_len0 in Hm. rewrite ro_empty0 in Hm by done. by apply nil_length_inv; lia. }
    split; cbn; try done; try (unfold lazy_zeros; rewrite length_replicate; congruence).
    + intros _. apply Forall_replicate. by rewrite length_replicate.
    + intros _. apply Forall_replicate. by rewrite length_replicate.
    + lia.
    + intros li m p r Hl _. by rewrite (Hm _ _ Hl).
  - set (old := kc_ring kv) in *. set (hi := kc_ring_hi kv) in *. set (ps := seq (hi - old) (hi - (hi - old))).
    assert (NoDup ps) by apply NoDup_seq.
    assert (forall p, p ∈ ps -> (hi - old <= p < hi - old + rows)%nat) as Hps.
    { intros p Hp%elem_of_seq. lia. }
    destruct (rehome_all (kc_kv_lora kv) old rows ps (kc_latent kv) (hi - old)) as (lat & -> & Hlat); auto; [lia|].
    destruct (rehome_all (kc_qk_rope kv) old rows ps (kc_k_rot kv) (hi - old)) as (rot & Er & Hrot); auto; [lia|].
    cbn. rewrite take_ge, Er by lia. cbn. eexists. split; [done|]. split; [|cbn; lia].
    split; cbn; try done; try lia.
    + by rewrite <- (Forall2_length _ _ _ Hlat).
    + by rewrite <- (Forall2_length _ _ _ Hrot).
    + intros _. eapply Forall2_len; [exact Hlat|]. by intros ? ? [].
    + intros _. eapply Forall2_len; [exact Hrot|]. by intros ? ? [].
    + intros li m p r Hm HL Hp. pose proof (ro_row0 _ _ _ _ Hm HL Hp) as Hrow. unfold latent_row in *; cbn in *.
      destruct (kc_latent kv !! li) as [b|] eqn:Hb; [|done]. cbn in Hrow.
      destruct (Forall2_lookup_l _ _ _ _ _ Hlat Hb) as (b' & -> & _ & Hrows). cbn.
      unfold slot in *; cbn. rewrite <- Hrow. apply Hrows. apply elem_of_seq.
      pose proof (lookup_lt_Some _ _ _ Hp). specialize (ro_len0 _ _ Hm). lia.
Qed.

Lemma Forall_insert_len {A} (P : A -> Prop) (l : list A) i x : Forall P l -> P x -> Forall P (<[i := x]> l).
Proof. intros. by apply Forall_insert. Qed.

(** Writing the next row of a layer, no further than a ring above [L]. *)
Lemma write_row_ok kv M L li m r :
  ring_ok kv M L -> M !! li = Some m -> length r = kc_kv_lora kv ->
  (0 < kc_ring kv)%nat -> (L <= length m < L + kc_ring kv)%nat ->
  exists kv', latent_row_mut kv li (length m) (fun _ => r) = Some kv' /\ ring_ok kv' (<[li := m ++ [r]]> M) L /\
    kc_ring kv' = kc_ring kv /\ kc_kv_lora kv' = kc_kv_lora kv.
Proof.
  intros [] Hm Hr Hring HL. set (p := length m) in *.
  pose proof (lookup_lt_Some _ _ _ Hm) as Hli. rewrite <- ro_n0 in Hli.
  destruct (lookup_lt_is_Some_2 _ _ Hli) as [b Hb].
  assert (length b = (kc_ring kv * kc_kv_lora kv)%nat) as Hlb.
  { assert (kc_ring kv <> 0%nat) by lia. by eapply Forall_lookup_1 in Hb; [|by apply ro_lat0]. }
  assert (forall q, ring_slot q (kc_ring kv) = (q mod kc_ring kv)%nat) as Hsl.
  { intros. unfold ring_slot. destruct (Nat.eqb_spec (kc_ring kv) 0); [lia|done]. }
  assert (p mod kc_ring kv < kc_ring kv)%nat by (apply Nat.mod_upper_bound; lia).
  set (hi := Nat.max (kc_ring_hi kv) (p + 1)).
  assert (ring_touch kv p = set_rows kv (kc_latent kv) (kc_k_rot kv) (kc_ring kv) hi) as Ht.
  { unfold ring_touch, hi. destruct (Nat.eqb_spec (kc_ring kv) 0); [lia|]. simpl.
    destruct (Nat.ltb_spec (kc_ring_hi kv) (p + 1)).
    - by rewrite Nat.max_r by lia.
    - rewrite Nat.max_l by lia. by destruct kv. }
  set (b' := blit b (p mod kc_ring kv * kc_kv_lora kv) r).
  exists (set_rows kv (<[li := b']> (kc_latent kv)) (kc_k_rot kv) (kc_ring kv) hi). split_and!; try done.
  { unfold latent_row_mut. rewrite Ht. unfold slot; cbn. rewrite Hb, Hsl; cbn. unfold update.
    destruct (row_at_some _ _ _ (p mod kc_ring kv) Hlb) as [old Ho]; [lia|]. unfold row_at in Ho. by rewrite Ho. }
  split; cbn; try done.
  - by rewrite !length_insert.
  - by rewrite length_insert.
  - intros. apply Forall_insert; [by apply ro_lat0|]. unfold b'. rewrite blit_length; [done|nia].
  - lia.
  - lia.
  - intros lj m'. destruct (decide (lj = li)) as [->|].
    + rewrite list_lookup_insert_eq by lia. intros [= <-]. rewrite length_app. cbn. lia.
    + rewrite list_lookup_insert_ne by done. intros Hj. specialize (ro_len0 _ _ Hj). lia.
  - intros lj m' q r' Hj Hq Hr'. unfold latent_row, slot; cbn. rewrite Hsl.
    assert (lj = li \/ lj <> li) as [->|] by lia.
    + rewrite list_lookup_insert_eq in Hj by lia. injection Hj as <-.
      rewrite list_lookup_insert_eq by lia. cbn. fold (row_at (kc_kv_lora kv) b' (q mod kc_ring kv)).
      destruct (decide (q = p)) as [->|].
      * unfold p in Hr' at 1. rewrite list_lookup_middle in Hr' by done. injection Hr' as <-.
        by apply (row_blit_same _ _ (kc_ring kv)).
      * assert (m !! q = Some r') as Hmq.
        { rewrite lookup_app_l in Hr'; [done|]. apply lookup_lt_Some in Hr'. rewrite length_app in Hr'. cbn in Hr'. lia. }
        unfold b'. rewrite (row_blit_other _ _ (kc_ring kv)); try done.
        -- specialize (ro_row0 _ _ _ _ Hm Hq Hmq). unfold latent_row, slot in ro_row0. rewrite Hb, Hsl in ro_row0. done.
        -- apply lookup_lt_Some in Hmq. intros E. symmetry in E. apply (mod_inj L) in E; lia.
    + rewrite list_lookup_insert_ne in Hj by done. rewrite list_lookup_insert_ne by done. specialize (ro_row0 _ _ _ _ Hj Hq Hr').
      unfold latent_row, slot in ro_row0. by rewrite Hsl in ro_row0.
Qed.

Lemma write_rows_ok rows : forall kv M L li m,
  ring_ok kv M L -> M !! li = Some m -> Forall (fun r => length r = kc_kv_lora kv) rows ->
  (0 < kc_ring kv)%nat -> (L <= length m)%nat -> (length m + length rows <= L + kc_ring kv)%nat ->
  exists kv', write_rows kv li (length m) rows = Some kv' /\ ring_ok kv' (<[li := m ++ rows]> M) L /\
    kc_ring kv' = kc_ring kv /\ kc_kv_lora kv' = kc_kv_lora kv.
Proof.
  induction rows as [|r rows IH]; intros kv M L li m Hok Hm Hw Hr HL Hs; simpl.
  { exists kv. rewrite app_nil_r, list_insert_id by done. by split_and!. }
  apply Forall_cons in Hw as [Hw0 Hw]. rewrite Hw0, Nat.eqb_refl. cbn in Hs.
  destruct (write_row_ok kv M L li m r) as (kv1 & -> & Hok1 & Hr1 & Hl1); try done; [lia|]. cbn.
  destruct (IH kv1 _ L li (m ++ [r]) Hok1) as (kv' & E & Hok' & ? & ?); rewrite ?length_app in *; cbn in *.
  - apply list_lookup_insert_eq. by eapply lookup_lt_Some.
  - by rewrite Hl1.
  - lia.
  - lia.
  - lia.
  - exists kv'. rewrite E. rewrite list_insert_insert_eq, <- app_assoc in Hok'. split_and!; try done; congruence.
Qed.

(** ** Sequences of attention calls *)

(** What the same calls read from a cache that never forgets: [m] is the layer's rows so far. *)
Definition linear_call (window : Z) (m : list (list f32)) (pos_base : nat) (rows : list (list f32))
    : list (list f32) * list f32 :=
  let m := take pos_base m ++ rows in (m, concat (drop (pos_base + 1 - Z.to_nat window) m)).

Fixpoint run_linear (window : Z) (M : list (list (list f32))) (calls : list (nat * nat * list (list f32)))
    : list (list f32) :=
  match calls with
  | [] => []
  | (li, pos_base, rows) :: calls =>
      let '(m, keys) := linear_call window (default [] (M !! li)) pos_base rows in
      keys :: run_linear window (<[li := m]> M) calls
  end.

Fixpoint run_ring (window : Z) (kv : KvCache) (calls : list (nat * nat * list (list f32)))
    : option (KvCache * list (list f32)) :=
  match calls with
  | [] => Some (kv, [])
  | (li, pos_base, rows) :: calls =>
      let* (kv, keys) := dsv4_raw_keys kv li pos_base window rows in
      let* (kv, rest) := run_ring window kv calls in Some (kv, keys :: rest)
  end.

(** Calls the engine makes: positions never go back before the last call's
    first, and a call extends the rows its layer has. *)
Fixpoint calls_ok (w : nat) (M : list (list (list f32))) (lo : nat) (calls : list (nat * nat * list (list f32))) : Prop :=
  match calls with
  | [] => True
  | (li, pos_base, rows) :: calls =>
      exists m, M !! li = Some m /\ (lo <= pos_base <= length m)%nat /\ rows <> [] /\
        Forall (fun r => length r = w) rows /\ calls_ok w (<[li := take pos_base m ++ rows]> M) pos_base calls
  end.

Lemma raw_keys_ok window kv M L li m pos_base rows :
  0 < window -> ring_ok kv M L -> M !! li = Some m -> (L <= pos_base + 1 - Z.to_nat window)%nat ->
  (pos_base <= length m)%nat -> rows <> [] -> Forall (fun r => length r = kc_kv_lora kv) rows ->
  exists kv', dsv4_raw_keys kv li pos_base window rows = Some (kv', (linear_call window m pos_base rows).2) /\
    ring_ok kv' (<[li := take pos_base m ++ rows]> M) (pos_base + 1 - Z.to_nat window) /\
    kc_kv_lora kv' = kc_kv_lora kv.
Proof.
  intros Hw Hok Hm HL Hp Hne Hrows.
  assert (0 < length rows)%nat by (destruct rows; cbn; [done|lia]).
  unfold dsv4_raw_keys, dsv4_ring_for, dsv4_raw_span. rewrite (proj2 (Z.ltb_lt _ _)) by done.
  replace (pos_base + 1 - _)%nat with (pos_base + 1 - Z.to_nat window)%nat by lia.
  set (lo := (pos_base + 1 - Z.to_nat window)%nat) in *. assert (lo <= pos_base)%nat by lia.
  destruct (ring_ensure_ok kv M L (pos_base + length rows - lo) Hok) as (kv1 & -> & Hok1 & [Hr1 Hr2] & Hl1); [lia|].
  cbn. pose proof (ring_ok_take _ _ _ _ _ pos_base (ring_ok_raise _ _ _ lo Hok1 HL) Hm) as Hok2.
  assert (length (take pos_base m) = pos_base) as Ht by (rewrite length_take; lia).
  assert (<[li:=take pos_base m]> M !! li = Some (take pos_base m)) as Hmi.
  { apply list_lookup_insert_eq. by eapply lookup_lt_Some. }
  destruct (write_rows_ok rows kv1 _ lo li (take pos_base m) Hok2 Hmi) as (kv2 & E & Hok3 & Hr3 & Hl3); rewrite ?Ht in *.
  - by rewrite Hl1.
  - lia.
  - done.
  - lia.
  - rewrite E; cbn. rewrite list_insert_insert_eq in Hok3. set (m' := take pos_base m ++ rows) in *.
    assert (length m' = pos_base + length rows)%nat as Hm' by (unfold m'; rewrite length_app; lia).
    assert (<[li:=m']> M !! li = Some m') as Hmi' by (apply list_lookup_insert_eq; by eapply lookup_lt_Some).
    unfold extend_latent_rows. pose proof Hok3 as [].
    pose proof (lookup_lt_Some _ _ _ Hmi') as Hlt. rewrite <- ro_n0 in Hlt.
    destruct (lookup_lt_is_Some_2 _ _ Hlt) as [b Hb]. rewrite Hb; cbn.
    replace (pos_base + length rows)%nat with (lo + length (drop lo m'))%nat by (rewrite length_drop; lia).
    rewrite extend_rows_spec; cbn.
    + exists kv2. split_and!; try done. congruence.
    + lia.
    + assert (kc_ring kv2 <> 0%nat) by lia. by eapply Forall_lookup_1 in Hb; [|by apply ro_lat0].
    + rewrite length_drop. lia.
    + intros i r Hi. rewrite lookup_drop in Hi. specialize (ro_row0 _ _ (lo + i)%nat _ Hmi' ltac:(lia) Hi).
      unfold latent_row in ro_row0. by rewrite Hb in ro_row0.
Qed.

Lemma run_ring_ok window calls : forall kv M L lo,
  0 < window -> ring_ok kv M L -> (L <= lo + 1 - Z.to_nat window)%nat -> calls_ok (kc_kv_lora kv) M lo calls ->
  exists kv', run_ring window kv calls = Some (kv', run_linear window M calls).
Proof.
  induction calls as [|[[li pb] rows] calls IH]; intros kv M L lo Hw Hok HL; simpl; [by eauto|].
  intros (m & Hm & Hp & Hne & Hrows & Hc).
  destruct (raw_keys_ok window kv M L li m pb rows) as (kv1 & -> & Hok1 & Hl1); try done; [lia..|]. cbn.
  rewrite <- Hl1 in Hc. destruct (IH kv1 _ _ pb Hw Hok1 (le_n _) Hc) as (kv' & ->). cbn. rewrite Hm. by eauto.
Qed.

Lemma for_model_rows cfg heads max_t :
  let kv := for_model cfg heads max_t in
  kc_latent kv = lazy_zeros (len_of (n_layers cfg) + heads) (max_t * len_of (kv_lora cfg)) /\
  kc_k_rot kv = lazy_zeros (len_of (n_layers cfg) + heads) (max_t * len_of (qk_rope cfg)) /\
  kc_ring kv = 0%nat /\ kc_ring_hi kv = 0%nat /\ kc_kv_lora kv = len_of (kv_lora cfg).
Proof.
  unfold for_model, enable_kda. destruct (kda_state_lens cfg). by destruct (allocates_gqa_kv cfg), (bool_decide _), (bool_decide _).
Qed.

Lemma ring_ok_fresh cfg heads max_t : ring_ok (for_model cfg heads max_t) (replicate (len_of (n_layers cfg) + heads) []) 0.
Proof.
  destruct (for_model_rows cfg heads max_t) as (Hl & Hk & Hr & Hhi & _).
  split; try done; rewrite ?Hl, ?Hk, ?Hr, ?Hhi; unfold lazy_zeros; rewrite ?length_replicate; try done.
  - intros li m [-> _]%lookup_replicate. done.
  - intros li m p r [-> _]%lookup_replicate. done.
Qed.

(** C18: the ring of raw rows is never seen: for a model with a sliding window,
    every sequence of attention calls over the layers, in any order of layers,
    with positions that never go back before the first position of the last
    call (so a rejected draft may be rewritten), succeeds, and each call attends to
    exactly the rows a linear cache would give it, however the ring was widened
    and wrapped in between. *)
Theorem ring_keys_linear cfg heads max_t calls :
  0 < window cfg ->
  calls_ok (len_of (kv_lora cfg)) (replicate (len_of (n_layers cfg) + heads) []) 0 calls ->
  exists kv', run_ring (window cfg) (for_model cfg heads max_t) calls =
    Some (kv', run_linear (window cfg) (replicate (len_of (n_layers cfg) + heads) []) calls).
Proof.
  intros Hw Hc. destruct (for_model_rows cfg heads max_t) as (Hl & Hk & Hr & Hhi & Hlora).
  eapply (run_ring_ok _ _ _ _ 0 0); try done; [apply ring_ok_fresh|lia|by rewrite Hlora].
Qed.

(** ** Rolling back the recurrent state *)

(** Two caches of one model: the recurrent buffers have the same shapes. *)
Record same_mamba (a b : KvCache) : Prop := {
  sm_conv : Forall2 (fun x y => length x = length y) (kc_mamba_conv a) (kc_mamba_conv b);
  sm_ssm : Forall2 (fun x y => length (ss_data x) = length (ss_data y) /\ ss_n_heads x = ss_n_heads y /\
                               ss_head_dim x = ss_head_dim y /\ ss_d_state x = ss_d_state y)
                   (kc_mamba_ssm a) (kc_mamba_ssm b)
}.

Lemma imap_fill {A B} (f : A -> B) (old : list B) (l : list A) : length old = length l ->
  imap (fun i o => default o (let* x := l !! i in Some (f x))) old = map f l.
Proof.
  intros H. apply list_eq. intros i. rewrite list_lookup_imap. change (map f l) with (f <$> l).
  rewrite list_lookup_fmap. destruct (l !! i) as [x|] eqn:E; simpl.
  - destruct (lookup_lt_is_Some_2 old i) as [o ->]; [|done]. rewrite H. by eapply lookup_lt_Some.
  - rewrite lookup_ge_None in E. by rewrite (proj2 (lookup_ge_None old i)) by lia.
Qed.

Lemma snapshot_contents kv snap :
  length (sn_conv snap) = length (sn_ssm snap) -> length (kc_mamba_ssm kv) = length (kc_mamba_conv kv) ->
  snapshot_mamba_into kv snap = {| sn_conv := kc_mamba_conv kv; sn_ssm := map ss_data (kc_mamba_ssm kv) |}.
Proof.
  intros Hs Hk. unfold snapshot_mamba_into. set (n := length (kc_mamba_conv kv)) in *.
  assert (forall conv ssm, length conv = n -> length ssm = n ->
    {| sn_conv := imap (fun li old => default old (kc_mamba_conv kv !! li)) conv;
       sn_ssm := imap (fun li old => default old (let* st := kc_mamba_ssm kv !! li in Some (ss_data st))) ssm |} =
    {| sn_conv := kc_mamba_conv kv; sn_ssm := map ss_data (kc_mamba_ssm kv) |}) as H.
  { intros conv ssm Hc Hm. f_equal; [|apply imap_fill; congruence].
    transitivity (map id (kc_mamba_conv kv)); [|apply map_id]. rewrite <- (imap_fill id conv) by done.
    apply imap_ext. intros i x _. unfold id. by destruct (kc_mamba_conv kv !! i). }
  destruct (Nat.eqb_spec (length (sn_conv snap)) n); simpl; apply H; rewrite ?length_replicate; congruence.
Qed.

Lemma restore_from_ok : forall ca cb sa sb,
  Forall2 (fun x y => length x = length y) ca cb -> length ca = length sa ->
  Forall2 (fun x y => length (ss_data x) = length (ss_data y) /\ ss_n_heads x = ss_n_heads y /\
                      ss_head_dim x = ss_head_dim y /\ ss_d_state x = ss_d_state y) sa sb ->
  restore_from cb sb ca (map ss_data sa) = Some (ca, sa).
Proof.
  intros ca cb sa sb Hc. revert sa sb. induction Hc as [|x y ca cb Hxy Hc IH]; intros sa sb Hl Hs.
  - destruct sa; [|done]. by inversion Hs.
  - inversion Hs as [|m m' sa' sb' (Hd & Hh & Hhd & Hds)]; subst; [done|]. simpl. unfold copy_from_slice.
    rewrite Hxy, Hd, !Nat.eqb_refl. cbn. rewrite IH; [|by injection Hl|done]. cbn. rewrite <- Hh, <- Hhd, <- Hds. by destruct m.
Qed.

(** Rolling back rejected draft tokens puts every recurrent layer's state
    back as it was: whatever the forward pass wrote into the convolution and
    state buffers in between, and whatever the reused snapshot held before,
    restoring the snapshot succeeds and yields exactly the buffers of the
    moment it was taken. *)
Theorem mamba_rollback kv kv' snap :
  length (sn_conv snap) = length (sn_ssm snap) ->
  length (kc_mamba_ssm kv) = length (kc_mamba_conv kv) -> same_mamba kv kv' ->
  restore_mamba_from kv' (snapshot_mamba_into kv snap) =
    Some (set_mamba kv' (kc_mamba_conv kv) (kc_mamba_ssm kv) (kc_mamba_d_conv kv') (kc_mamba_conv_dim kv')).
Proof.
  intros Hs Hk [Hc Hm]. rewrite snapshot_contents by done. unfold restore_mamba_from; cbn.
  by rewrite (restore_from_ok _ _ (kc_mamba_ssm kv) _ Hc) by (try done; congruence).
Qed.

(** ** Witnesses *)

(** Two layers of rows of width 2, a window of 3 positions. *)
Definition windowed_config : Config :=
  deepseek_config (value (members
    [("num_hidden_layers", DInt 2); ("head_dim", DInt 2); ("qk_rope_head_dim", DInt 1); ("sliding_window", DInt 3)]%string)).

(** A prompt of two tokens on both layers, three single tokens, then a call
    that rewrites the last one and adds four. *)
Definition rows_of_Z (l : list (list Z)) : list (list f32) := map (map f32_of_Z) l.
Definition sample_calls : list (nat * nat * list (list f32)) :=
  map (fun c => (c.1, rows_of_Z c.2))
  [(0%nat, 0%nat, [[1; 2]; [3; 4]]); (1%nat, 0%nat, [[101; 102]; [103; 104]]); (0%nat, 2%nat, [[5; 6]]); (1%nat, 2%nat, [[105; 106]]);
   (0%nat, 3%nat, [[7; 8]]); (1%nat, 3%nat, [[107; 108]]); (0%nat, 4%nat, [[9; 10]]); (1%nat, 4%nat, [[109; 110]]);
   (1%nat, 4%nat, [[11; 11]; [12; 12]; [13; 13]; [14; 14]]); (0%nat, 4%nat, [[1; 1]; [2; 2]; [3; 3]; [4; 4]])].

Lemma windowed : 0 < window windowed_config.
Proof. vm_compute. reflexivity. Qed.

Lemma sample_calls_ok :
  calls_ok (len_of (kv_lora windowed_config)) (replicate (len_of (n_layers windowed_config) + 0) []) 0 sample_calls.
Proof.
  replace (len_of (kv_lora windowed_config)) with 2%nat by (vm_compute; reflexivity).
  replace (len_of (n_layers windowed_config)) with 2%nat by (vm_compute; reflexivity).
  repeat (eexists; split_and!; [reflexivity|cbn; lia|cbn; lia|discriminate|repeat constructor|]). exact I.
Qed.

(** The ring is 3 rows wide after the prompt and the single tokens, 6 after the last calls. *)
Example sample_ring :
  (let* (kv, _) := run_ring 3 (for_model windowed_config 0 0) (take 8 sample_calls) in Some (kc_ring kv)) = Some 3%nat /\
  (let* (kv, keys) := run_ring 3 (for_model windowed_config 0 0) sample_calls in Some (kc_ring kv, last keys)) =
    Some (6%nat, Some (map f32_of_Z [5; 6; 7; 8; 1; 1; 2; 2; 3; 3; 4; 4])).
Proof. vm_compute. split; reflexivity. Qed.

Lemma ring_keys_linear_witness : exists kv',
  run_ring (window windowed_config) (for_model windowed_config 0 0) sample_calls =
    Some (kv', run_linear (window windowed_config) (replicate (len_of (n_layers windowed_config) + 0) []) sample_calls).
Proof. exact (ring_keys_linear windowed_config 0 0 sample_calls windowed sample_calls_ok). Defined.

Definition recurrent (c s : list Z) : KvCache :=
  set_mamba (kv_new 1 0 0 0) [map f32_of_Z c] [{| ss_data := map f32_of_Z s; ss_n_heads := 1; ss_head_dim := 2; ss_d_state := 1 |}] 2 1.

Lemma recurrent_shapes : same_mamba (recurrent [1; 2] [3; 4]) (recurrent [5; 6] [7; 8]).
Proof. by repeat constructor. Qed.

Lemma mamba_rollback_witness :
  restore_mamba_from (recurrent [5; 6] [7; 8])
    (snapshot_mamba_into (recurrent [1; 2] [3; 4]) {| sn_conv := [[f0]]; sn_ssm := [[]] |}) = Some (recurrent [1; 2] [3; 4]).
Proof. exact (mamba_rollback (recurrent [1; 2] [3; 4]) (recurrent [5; 6] [7; 8]) {| sn_conv := [[f0]]; sn_ssm := [[]] |} eq_refl eq_refl recurrent_shapes). Defined.
