(* ===== verification/Generate.v ===== *)
(** * Greedy and speculative generation ([crates/colibri-engine/src/forward.rs])

    The decode loop: the token the model prefers is handed to the caller, drafts
    of the tokens after it are verified in one forward pass, the longest prefix
    the model agrees with is kept, and a recurrent state is rolled back over the
    rest.  The engine the loop drives is an interface, [Engine], with the laws
    the loop relies on, [EngineLaws].  Timing and profiling are left out;
    counters are natural numbers, far below [2 ^ 64]. *)

From Stdlib Require Import ZifyBool ZifyNat SpecFloat.
From S2P Require Import Prelude Usage Rows DType Math Floats KvCache.
Local Open Scope nat_scope.

(** ** The engine *)

Class Engine (E : Type) := {
  forward : KvCache -> list Z -> nat -> res E (KvCache * list f32);
  logits : list f32 -> option (list f32);
  draft : KvCache -> Z -> nat -> nat -> list f32 -> res E (KvCache * list Z);
  absorb : KvCache -> list Z -> list f32 -> nat -> res E KvCache
}.

(** What the loop reads of the model. *)
Record Params := { pr_hidden : nat; pr_stop_ids : list Z; pr_has_mtp : bool }.

Record DecodeStats := { emitted : nat; forwards : nat; drafts_proposed : nat; drafts_accepted : nat }.

(** [draft_budget] of the value of [DRAFT]. *)
Definition draft_budget (v : option (list Z)) : nat :=
  Z.to_nat (Z.min (default 0%Z (let* v := v in parse_uint 64 v)) 63).
(** [COLI_MTP_ROLLBACK]: on unless it is 0. *)
Definition rollback (v : option (list Z)) : bool :=
  match v with Some v => negb (bool_decide (v = [48%Z])) | None => true end.

Section Generate.
Context {E : Type} `{!Engine E} (p : Params).
(** The caller, with its state: a token, and whether to go on. *)
Context {C : Type} (on_token : C -> Z -> C * bool).

Abbreviation d := (pr_hidden p).
Definition is_stop (t : Z) : bool := bool_decide (t ∈ pr_stop_ids p).
Definition token_of (logit : list f32) : Z := i32 (Z.of_nat (argmax logit)).

Record Decode := {
  dc_kv : KvCache; dc_cb : C; dc_logit : list f32; dc_pos : nat; dc_hlast : list f32; dc_budget : nat;
  dc_proposed : nat; dc_accepted : nat; dc_forwards : nat; dc_emitted : nat; dc_snap : MambaSnapshot
}.

(** One turn of the loop: another, out of it, or out of the function. *)
Inductive Turn :=
  | Again (st : Decode)
  | Break (st : Decode)
  | Return (cb : C) (e : E)
  | Panic (cb : C).

(** The accept loop, over [drafts[..g]]: the caller, how many were accepted, and
    [done]. *)
Fixpoint accept (n_new : nat) (drafts : list Z) (los : list (list f32)) (cb : C) (emitted k : nat)
    : option (C * nat * nat * bool) :=
  match drafts with
  | [] => Some (cb, emitted, k, false)
  | t :: drafts =>
      if negb (emitted <? n_new) then Some (cb, emitted, k, false)
      else
        match los with
        | [] => None
        | lo :: los =>
            if negb (token_of lo =? t)%Z then Some (cb, emitted, k, false)
            else
              let '(cb, keep) := on_token cb t in
              if is_stop t || negb keep then Some (cb, emitted + 1, k + 1, true)
              else accept n_new drafts los cb (emitted + 1) (k + 1)
        end
  end.

(** The auto-off guard. *)
Definition guarded_budget (st : Decode) : nat :=
  if (0 <? dc_budget st) && (24 <=? dc_proposed st) && (dc_accepted st * 10 <? dc_proposed st) then 0 else dc_budget st.

(** How many of the drafts are verified. *)
Definition clamped (n_new emitted pos max_t n_drafts : nat) : nat :=
  let g := Nat.min n_drafts (n_new - emitted) in
  if max_t <? pos + g + 2 then Nat.min (max_t - (pos + 2)) g else g.

(** From the verified batch on: [next], [drafts[..g]]. *)
Definition verify (track : bool) (n_new : nat) (st : Decode) (kv : KvCache) (next : Z) (drafts : list Z) : Turn :=
  let '(cb, pos, emitted) := (dc_cb st, dc_pos st, dc_emitted st) in
  let g := clamped n_new emitted pos (kc_max_t kv) (length drafts) in
  let batch := next :: take g drafts in
  let snap := if track && (0 <? g) then snapshot_mamba_into kv (dc_snap st) else dc_snap st in
  match forward kv batch pos with
  | RErr e => Return cb e
  | RPanic => Panic cb
  | ROk (kv, h_all) =>
      match
        let* los := mapM (fun i => let* h := row_at d h_all i in logits h) (seq 0 (length batch)) in
        let* acc := accept n_new (take g drafts) los cb emitted 0 in
        Some (los, acc)
      with
      | None => Panic cb
      | Some (los, (cb, emitted, k, done)) =>
          let rolled :=
            if track && (k <? g) && negb done then
              match restore_mamba_from kv snap with
              | None => RPanic
              | Some kv => let? (kv, _) := forward kv (take (1 + k) batch) pos in ROk kv
              end
            else ROk kv in
          let synced := let? kv := rolled in if 1 <=? k then absorb kv (take k drafts) h_all pos else ROk kv in
          match synced with
          | RErr e => Return cb e
          | RPanic => Panic cb
          | ROk kv =>
              match row_at d h_all k, los !! k with
              | Some hlast, Some logit =>
                  let st := {| dc_kv := kv; dc_cb := cb; dc_logit := logit; dc_pos := pos + (1 + k); dc_hlast := hlast;
                               dc_budget := dc_budget st; dc_proposed := dc_proposed st; dc_accepted := dc_accepted st + k;
                               dc_forwards := dc_forwards st + 1; dc_emitted := emitted; dc_snap := snap |} in
                  if done then Break st else Again st
              | _, _ => Panic cb
              end
          end
      end
  end.

Definition turn (track : bool) (n_new : nat) (st : Decode) : Turn :=
  let next := token_of (dc_logit st) in
  let '(cb, keep_going) := on_token (dc_cb st) next in
  let st := {| dc_kv := dc_kv st; dc_cb := cb; dc_logit := dc_logit st; dc_pos := dc_pos st; dc_hlast := dc_hlast st;
               dc_budget := dc_budget st; dc_proposed := dc_proposed st; dc_accepted := dc_accepted st;
               dc_forwards := dc_forwards st; dc_emitted := dc_emitted st + 1; dc_snap := dc_snap st |} in
  if is_stop next then Break st
  else if negb keep_going || (n_new <=? dc_emitted st) then Break st
  else
    let budget := guarded_budget st in
    let drafted :=
      if 0 <? budget then draft (dc_kv st) next (dc_pos st) budget (dc_hlast st) else ROk (dc_kv st, []) in
    match drafted with
    | RErr e => Return cb e
    | RPanic => Panic cb
    | ROk (kv, drafts) =>
        let st := {| dc_kv := kv; dc_cb := cb; dc_logit := dc_logit st; dc_pos := dc_pos st; dc_hlast := dc_hlast st;
                     dc_budget := budget;
                     dc_proposed := dc_proposed st + (if 0 <? budget then length drafts else 0);
                     dc_accepted := dc_accepted st; dc_forwards := dc_forwards st; dc_emitted := dc_emitted st;
                     dc_snap := dc_snap st |} in
        verify track n_new st kv next drafts
    end.

(** [while emitted < n_new]; [None] is a turn too many. *)
Fixpoint decode (fuel : nat) (track : bool) (n_new : nat) (st : Decode) : option (C * res E Decode) :=
  if negb (dc_emitted st <? n_new) then Some (dc_cb st, ROk st)
  else
    match fuel with
    | 0 => None
    | S fuel =>
        match turn track n_new st with
        | Again st => decode fuel track n_new st
        | Break st => Some (dc_cb st, ROk st)
        | Return cb e => Some (cb, RErr e)
        | Panic cb => Some (cb, RPanic)
        end
    end.

(** [generate_stream_drafting]: the caller afterwards, with the result. *)
Definition generate_stream_drafting (env : option (list Z)) (kv : KvCache) (prompt : list Z) (n_new budget : nat) (cb : C)
    : option (C * res E (KvCache * DecodeStats)) :=
  let s := length prompt in
  if (s =? 0) || (kc_max_t kv <? s + n_new) then Some (cb, RPanic)
  else
    match forward kv prompt 0 with
    | RErr e => Some (cb, RErr e)
    | RPanic => Some (cb, RPanic)
    | ROk (kv, hidden) =>
        match let* h := row_at d hidden (s - 1) in let* lo := logits h in Some (h, lo) with
        | None => Some (cb, RPanic)
        | Some (hlast, logit) =>
            let track := has_mamba kv && rollback env in
            let* (cb, r) := decode n_new track n_new
              {| dc_kv := kv; dc_cb := cb; dc_logit := logit; dc_pos := s; dc_hlast := hlast;
                 dc_budget := if pr_has_mtp p then budget else 0; dc_proposed := 0; dc_accepted := 0; dc_forwards := 0;
                 dc_emitted := 0; dc_snap := {| sn_conv := []; sn_ssm := [] |} |} in
            Some (cb,
              let? st := r in
              ROk (dc_kv st, {| emitted := dc_emitted st; forwards := dc_forwards st; drafts_proposed := dc_proposed st;
                                drafts_accepted := dc_accepted st |}))
        end
    end.

Definition generate_stream (draft_env rollback_env : option (list Z)) (kv : KvCache) (prompt : list Z) (n_new : nat) (cb : C)
    : option (C * res E KvCache) :=
  let budget := if pr_has_mtp p then draft_budget draft_env else 0 in
  let* (cb, r) := generate_stream_drafting rollback_env kv prompt n_new budget cb in
  Some (cb, let? (kv, _) := r in ROk kv).
End Generate.

Definition generate_greedy {E} `{!Engine E} (p : Params) (draft_env rollback_env : option (list Z)) (kv : KvCache)
    (prompt : list Z) (n_new : nat) : option (res E (KvCache * list Z)) :=
  let* (out, r) := generate_stream p (fun out tok => (out ++ [tok], true)) draft_env rollback_env kv prompt n_new prompt in
  Some (let? kv := r in ROk (kv, out)).

(** ** What the loop relies on *)

Definition same_shape (kv kv' : KvCache) : Prop := kc_max_t kv' = kc_max_t kv /\ has_mamba kv' = has_mamba kv.

(** A snapshot has as many states as windows. *)
Definition paired (snap : MambaSnapshot) : Prop := length (sn_ssm snap) = length (sn_conv snap).
Lemma snapshot_paired kv snap : paired snap -> paired (snapshot_mamba_into kv snap).
Proof.
  unfold paired, snapshot_mamba_into. intros H. destruct (negb _); cbn; rewrite !length_imap; [by rewrite !length_replicate|done].
Qed.

(** [holds kv hist]: the cache stands for the tokens [hist].  [row hist] is the
    hidden row the model gives the last of them.  [fails e]: the engine may fail
    with [e]. *)
Class EngineLaws (E : Type) `{!Engine E} (d : nat) := {
  holds : KvCache -> list Z -> Prop;
  fails : E -> Prop;
  row : list Z -> list f32;
  valid : Z -> Prop;
  (** Whether what it has read can be taken back. *)
  retracts : Prop;
  row_length hist : hist <> [] -> Forall valid hist -> length (row hist) = d;
  logits_total hist : hist <> [] -> Forall valid hist -> exists lo, logits (row hist) = Some lo /\ valid (token_of lo);
  (** A forward pass extends the history, and its state can be taken back. *)
  forward_extends kv hist toks : holds kv hist -> Forall valid hist -> Forall valid toks -> toks <> [] ->
    length hist + length toks <= kc_max_t kv ->
    match forward kv toks (length hist) with
    | ROk (kv', h) =>
        holds kv' (hist ++ toks) /\ same_shape kv kv' /\
        h = concat (map (fun i => row (hist ++ take (S i) toks)) (seq 0 (length toks))) /\
        (retracts -> forall snap, paired snap -> exists kv'', restore_mamba_from kv' (snapshot_mamba_into kv snap) = Some kv'' /\
                                                 holds kv'' hist /\ same_shape kv kv'')
    | RErr e => fails e
    | RPanic => False
    end;
  (** Without a recurrent state a cache stands for any prefix too. *)
  holds_prefix kv hist more : retracts -> has_mamba kv = false -> holds kv (hist ++ more) -> holds kv hist;
  draft_keeps kv hist next budget : holds kv hist -> hist <> [] -> Forall valid hist -> valid next ->
    match draft kv next (length hist) budget (row hist) with
    | ROk (kv', ds) => holds kv' hist /\ same_shape kv kv' /\ Forall valid ds /\ length ds <= budget
    | RErr e => fails e
    | RPanic => False
    end;
  absorb_keeps kv hist ds h pos : holds kv hist -> Forall valid ds -> ds <> [] -> pos + length ds <= length hist ->
    length hist <= kc_max_t kv -> length ds * d <= length h ->
    match absorb kv ds h pos with
    | ROk kv' => holds kv' hist /\ same_shape kv kv'
    | RErr e => fails e
    | RPanic => False
    end
}.

Section Spec.
Context {E : Type} `{!Engine E} (p : Params) `{!EngineLaws E (pr_hidden p)}.
Context {C : Type} (on_token : C -> Z -> C * bool).

(** ** Greedy decoding, the specification *)

(** The token the model prefers after [hist]. *)
Definition next_token (hist : list Z) : Z := token_of (default [] (logits (row hist))).

(** One token at a time: the caller afterwards, and how many tokens it was given. *)
Fixpoint greedy (n : nat) (hist : list Z) (cb : C) : C * nat :=
  match n with
  | 0 => (cb, 0)
  | S n =>
      let t := next_token hist in
      let '(cb, keep) := on_token cb t in
      if is_stop p t || negb keep then (cb, 1)
      else let '(cb, m) := greedy n (hist ++ [t]) cb in (cb, S m)
  end.

(** A stretch of greedy decoding that does not end. *)
Inductive goes : list Z -> C -> list Z -> C -> Prop :=
  | goes_refl h cb : goes h cb h cb
  | goes_step h cb cb1 h' cb' :
      on_token cb (next_token h) = (cb1, true) -> is_stop p (next_token h) = false ->
      goes (h ++ [next_token h]) cb1 h' cb' -> goes h cb h' cb'.

Lemma goes_length h cb h' cb' : goes h cb h' cb' -> length h <= length h'.
Proof. induction 1; [done|]. rewrite length_app in *. simpl in *. lia. Qed.

Lemma goes_trans h cb h1 cb1 h2 cb2 : goes h cb h1 cb1 -> goes h1 cb1 h2 cb2 -> goes h cb h2 cb2.
Proof. induction 1; [done|]. intros. eapply goes_step; eauto. Qed.

Lemma goes_greedy h cb h' cb' : goes h cb h' cb' -> forall n, length h' - length h <= n ->
  greedy n h cb = let '(c, m) := greedy (n - (length h' - length h)) h' cb' in (c, m + (length h' - length h)).
Proof.
  induction 1 as [h cb|h cb cb1 h' cb' Ht Hs Hg IH]; intros n Hn.
  - rewrite Nat.sub_diag, Nat.sub_0_r. destruct (greedy n h cb). by rewrite Nat.add_0_r.
  - pose proof (goes_length _ _ _ _ Hg) as Hl. rewrite length_app in Hl, IH. simpl in Hl, IH.
    destruct n as [|n]; [lia|]. cbn [greedy]. rewrite Ht, Hs. cbn [orb negb]. rewrite IH by lia.
    replace (n - (length h' - (length h + 1))) with (S n - (length h' - length h)) by lia.
    destruct (greedy (S n - _) h' cb'). f_equal. lia.
Qed.

Lemma goes_prefix h cb h' cb' : goes h cb h' cb' -> greedy (length h' - length h) h cb = (cb', length h' - length h).
Proof. intros H. rewrite (goes_greedy _ _ _ _ H _ (le_n _)), Nat.sub_diag. done. Qed.

(** ** The accepted drafts *)

Lemma accept_spec n_new ds : forall los h cb em k,
  length ds <= length los ->
  (forall i lo, i < length ds -> los !! i = Some lo -> token_of lo = next_token (h ++ take i ds)) ->
  exists cb' j done, accept p on_token n_new ds los cb em k = Some (cb', em + j, k + j, done) /\
    j <= length ds /\ (em <= n_new -> em + j <= n_new) /\
    if done : bool then 1 <= j /\ greedy (n_new - em) h cb = (cb', j) else goes h cb (h ++ take j ds) cb'.
Proof.
  induction ds as [|t ds IH]; intros los h cb em k Hl Hlos.
  { exists cb, 0, false. cbn. rewrite app_nil_r, !Nat.add_0_r. split_and!; [done|done|lia|constructor]. }
  cbn [accept]. destruct (Nat.ltb_spec em n_new) as [Hem|Hem]; cbn [negb].
  2: { exists cb, 0, false. cbn. rewrite app_nil_r, !Nat.add_0_r. split_and!; [done|lia|lia|constructor]. }
  destruct los as [|lo los]; [simpl in Hl; lia|].
  pose proof (Hlos 0 lo ltac:(simpl; lia) eq_refl) as Ht. cbn in Ht. rewrite app_nil_r in Ht.
  destruct (Z.eqb_spec (token_of lo) t) as [He|He]; cbn [negb].
  2: { exists cb, 0, false. cbn. rewrite app_nil_r, !Nat.add_0_r. split_and!; [done|lia|lia|constructor]. }
  destruct (on_token cb t) as [cb1 keep] eqn:Hcb. assert (next_token h = t) as Hn by congruence.
  destruct (is_stop p t || negb keep) eqn:Hstop.
  - exists cb1, 1, true. cbn [length]. split_and!; [done|lia|lia|done|].
    destruct (n_new - em) as [|n] eqn:Hd; [lia|]. cbn [greedy]. by rewrite Hn, Hcb, Hstop.
  - apply orb_false_elim in Hstop as [Hs Hk]. destruct keep; [|done].
    destruct (IH los (h ++ [t]) cb1 (em + 1) (k + 1)) as (cb' & j & dn & E1 & H1 & H2 & H3).
    { simpl in Hl. lia. }
    { intros i lo' Hi Hlo. rewrite <- app_assoc. apply (Hlos (S i) lo'); [simpl; lia|done]. }
    exists cb', (S j), dn. cbn [length take]. split_and!.
    + rewrite E1. do 3 f_equal; [f_equal|]; lia.
    + lia.
    + lia.
    + destruct dn.
      * destruct H3 as [H3 H4]. split; [lia|]. destruct (n_new - em) as [|n] eqn:Hd; [lia|]. cbn [greedy].
        rewrite Hn, Hcb, Hs. cbn [orb negb]. replace n with (n_new - (em + 1)) by lia. by rewrite H4.
      * rewrite <- app_assoc in H3. eapply goes_step; rewrite Hn; done.
Qed.

(** ** One turn *)

Abbreviation d := (pr_hidden p).
Context (M : nat) (hm track : bool) (n_new : nat).

Lemma clamped_bound em pos n : em < n_new -> pos + (n_new - em) + 1 <= M ->
  let g := clamped n_new em pos M n in g <= n /\ g <= n_new - em /\ pos + (1 + g) <= M.
Proof. intros. subst g. unfold clamped. cbv zeta. destruct (Nat.ltb_spec M (pos + Nat.min n (n_new - em) + 2)); lia. Qed.

(** A cache that stands for [h], in the shape of the run. *)
Definition stands (kv : KvCache) (h : list Z) : Prop := holds kv h /\ kc_max_t kv = M /\ has_mamba kv = hm.

Record inv (st : Decode (C := C)) (h : list Z) : Prop := {
  iv_kv : stands (dc_kv st) h;
  iv_nonempty : h <> [];
  iv_valid : Forall valid h;
  iv_pos : length h = dc_pos st;
  iv_logit : logits (row h) = Some (dc_logit st);
  iv_hlast : dc_hlast st = row h;
  iv_room : dc_pos st + (n_new - dc_emitted st) <= M;
  iv_track : retracts /\ track = hm \/ dc_budget st = 0;
  iv_snap : paired (dc_snap st);
  iv_accepted : dc_accepted st <= dc_proposed st;
  iv_count : dc_forwards st + dc_accepted st = dc_emitted st
}.

(** What leaving the loop leaves. *)
Record finished (st0 st : Decode (C := C)) (h : list Z) : Prop := {
  fi_greedy : greedy (n_new - dc_emitted st0) h (dc_cb st0) = (dc_cb st, dc_emitted st - dc_emitted st0);
  fi_emitted : dc_emitted st0 <= dc_emitted st <= n_new;
  fi_accepted : dc_accepted st <= dc_proposed st;
  fi_count : dc_forwards st + dc_accepted st <= dc_emitted st <= dc_forwards st + dc_accepted st + 1
}.

(** The rows of a verified batch and their logits. *)
Lemma batch_rows h batch : Forall valid h -> Forall valid batch ->
  let hs := concat (map (fun i => row (h ++ take (S i) batch)) (seq 0 (length batch))) in
  length hs = length batch * d /\
  (forall i, i < length batch -> row_at d hs i = Some (row (h ++ take (S i) batch))) /\
  exists los, mapM (fun i => let* x := row_at d hs i in logits x) (seq 0 (length batch)) = Some los /\ length los = length batch /\
    forall i lo, los !! i = Some lo -> logits (row (h ++ take (S i) batch)) = Some lo.
Proof.
  intros Hh Hb hs.
  assert (forall i, i < length batch -> h ++ take (S i) batch <> [] /\ Forall valid (h ++ take (S i) batch)) as Hne.
  { intros i Hi. split; [destruct batch; [simpl in Hi; lia|]; by destruct h|]. apply Forall_app. split; [done|by apply Forall_take]. }
  assert (Forall (fun r => length r = d) (map (fun i => row (h ++ take (S i) batch)) (seq 0 (length batch)))) as Hrows.
  { apply Forall_map, Forall_forall. intros i Hi%elem_of_seq. apply row_length; apply Hne; lia. }
  assert (forall i, i < length batch -> row_at d hs i = Some (row (h ++ take (S i) batch))) as Hat.
  { intros i Hi. apply concat_row; [done|]. change (map ?f ?l) with (f <$> l). by rewrite list_lookup_fmap, lookup_seq_lt. }
  split_and!; [|done|].
  - unfold hs. by rewrite (concat_len d), length_map, length_seq.
  - destruct (mapM_total (fun i => let* x := row_at d hs i in logits x) (seq 0 (length batch))) as [los Hl].
    { intros i Hi%elem_of_seq. rewrite Hat by lia. destruct (logits_total (h ++ take (S i) batch)) as (lo & E1 & _); [apply Hne; lia..|]. by rewrite E1. }
    exists los. split_and!; [done|by rewrite (mapM_len _ _ _ Hl), length_seq|].
    intros i lo Hi. apply mapM_Some in Hl. destruct (Forall2_lookup_r _ _ _ _ _ Hl Hi) as (j & Hj & Hf).
    apply lookup_seq in Hj as [-> Hj]. cbn in Hf. by rewrite Hat in Hf.
Qed.

Lemma next_token_of h lo : logits (row h) = Some lo -> next_token h = token_of lo.
Proof. intros H. unfold next_token. by rewrite H. Qed.

(** Rolled back over the rejected drafts, or long enough: a cache for the
    accepted prefix. *)
Lemma rolled_back kv kv1 h batch hs k snap : stands kv h -> Forall valid h -> Forall valid batch ->
  length h + length batch <= M -> k < length batch -> (retracts /\ track = hm \/ length batch = 1) -> paired snap ->
  forward kv batch (length h) = ROk (kv1, hs) ->
  match (if track && (k + 1 <? length batch) then
           match restore_mamba_from kv1 (snapshot_mamba_into kv snap) with
           | None => RPanic
           | Some kv => let? (kv, _) := forward kv (take (1 + k) batch) (length h) in ROk kv
           end
         else ROk kv1 : res E KvCache) with
  | ROk kv2 => stands kv2 (h ++ take (S k) batch)
  | RErr e => fails e
  | RPanic => False
  end.
Proof.
  intros (Hk & Hmax & Hmam) Hh Hb Hlen Hkb Htr Hpair Ef.
  assert (batch <> []) as Hbn by (by destruct batch; simpl in Hkb; [lia|]).
  pose proof (forward_extends kv h batch Hk Hh Hb Hbn ltac:(lia)) as Hf. rewrite Ef in Hf.
  destruct Hf as (Hk1 & [Hm1 Hh1] & _ & Hsnap).
  destruct (Nat.ltb_spec (k + 1) (length batch)) as [Hlt|Hge]; [|rewrite andb_false_r].
  - destruct Htr as [[Hret ->]|Hone]; [|lia]. destruct hm eqn:Ehm; cbn [andb].
    + destruct (Hsnap Hret snap Hpair) as (kv2 & -> & Hk2 & [Hm2 Hh2]).
      assert (take (1 + k) batch <> []) as Htn by (by destruct batch).
      pose proof (forward_extends kv2 h (take (1 + k) batch) Hk2 Hh ltac:(by apply Forall_take) Htn
                    ltac:(rewrite length_take; lia)) as Hf2.
      destruct (forward kv2 _ _) as [[kv3 h3]| |]; [|done|done]. destruct Hf2 as (Hk3 & [Hm3 Hh3] & _).
      split_and!; [done|congruence|congruence].
    + split_and!; [|congruence|congruence]. apply (holds_prefix _ _ (drop (S k) batch)); [done|congruence|].
      by rewrite <- app_assoc, take_drop.
  - split_and!; [|congruence|congruence]. by rewrite take_ge by lia.
Qed.

(** The verified batch and what follows it, after [next] has been handed over. *)
Definition verified (st0 : Decode (C := C)) (h1 : list Z) (t : Turn (E := E)) : Prop :=
  match t with
  | Again st => exists h', goes h1 (dc_cb st0) h' (dc_cb st) /\ inv st h' /\
                  dc_emitted st = dc_emitted st0 + (length h' - length h1) /\ dc_emitted st <= n_new
  | Break st => finished st0 st h1
  | Return cb e => fails e /\ exists m, m <= n_new - dc_emitted st0 /\ (greedy m h1 (dc_cb st0)).1 = cb
  | Panic _ => False
  end.

Lemma verify_spec st kv h next drafts :
  stands kv h -> Forall valid h -> h <> [] -> next_token h = next -> valid next -> Forall valid drafts ->
  length h = dc_pos st -> dc_emitted st < n_new -> dc_pos st + (n_new - dc_emitted st) + 1 <= M ->
  retracts /\ track = hm \/ drafts = [] /\ dc_budget st = 0 -> dc_accepted st + length drafts <= dc_proposed st ->
  dc_forwards st + dc_accepted st + 1 = dc_emitted st -> paired (dc_snap st) ->
  verified st (h ++ [next]) (verify p on_token track n_new st kv next drafts).
Proof.
  intros Hk Hh Hne Hnext Hvn Hds Hpos Hem Hroom Htr Hacc Hcnt Hpair. unfold verify.
  assert (kc_max_t kv = M) as HM by apply Hk. rewrite HM.
  destruct (clamped_bound (dc_emitted st) (dc_pos st) (length drafts) Hem Hroom) as (G1 & G2 & G3).
  set (g := clamped _ _ _ _ _) in *. set (batch := next :: take g drafts).
  assert (length batch = 1 + g) as Hb by (unfold batch; simpl; rewrite length_take; lia).
  assert (Forall valid batch) as Hbv by (constructor; [done|by apply Forall_take]).
  pose proof (forward_extends kv h batch ltac:(apply Hk) Hh Hbv ltac:(done) ltac:(lia)) as Hf.
  rewrite <- Hpos. destruct (forward kv batch (length h)) as [[kv1 hs]| |] eqn:Ef; [|split; [done|]; exists 0; by split; [lia|]|done].
  destruct Hf as (Hk1 & [Hm1 Hh1] & -> & _).
  destruct (batch_rows h batch Hh Hbv) as (Hl & Hrow & los & -> & Hlos & Hlog).
  set (hs := concat _) in *. rewrite Hb in *.
  destruct (accept_spec n_new (take g drafts) los (h ++ [next]) (dc_cb st) (dc_emitted st) 0) as (cb & k & done & -> & Hk' & Hkn & Hgo).
  { rewrite length_take. lia. }
  { intros i lo Hi Hlo. rewrite <- app_assoc. symmetry. apply next_token_of. by apply (Hlog i). }
  rewrite length_take in Hk'. cbn [Nat.add].
  assert (forall snap, paired snap -> match (if track && (k + 1 <? 1 + g) then
           match restore_mamba_from kv1 (snapshot_mamba_into kv snap) with
           | None => RPanic
           | Some kv => let? (kv, _) := forward kv (take (S k) batch) (length h) in ROk kv
           end
         else ROk kv1 : res E KvCache) with
  | ROk kv2 => stands kv2 (h ++ take (S k) batch)
  | RErr e => fails e
  | RPanic => False
  end) as Hrolled.
  { intros snap Hsp. rewrite <- Hb. eapply rolled_back; [exact Hk|done|done|lia|lia| |exact Hsp|exact Ef].
    destruct Htr as [|[-> _]]; [by left|right]. simpl in G1. lia. }
  assert (exists m, m <= n_new - dc_emitted st /\ (greedy m (h ++ [next]) (dc_cb st)).1 = cb) as Herr.
  { destruct done.
    - destruct Hgo as [_ Hgo]. exists (n_new - dc_emitted st). split; [lia|]. by rewrite Hgo.
    - apply goes_prefix in Hgo. rewrite (length_app (h ++ [next])), length_take, length_take in Hgo.
      replace (_ + _ - _) with k in Hgo by lia. exists k. split; [lia|]. by rewrite Hgo. }
  set (snap := if track && (0 <? g) then _ else _).
  assert (paired snap) as Hps by (unfold snap; destruct (track && (0 <? g)); [by apply snapshot_paired|done]).
  assert (match (if track && (k <? g) && negb done then
           match restore_mamba_from kv1 snap with
           | None => RPanic
           | Some kv => let? (kv, _) := forward kv (take (S k) batch) (length h) in ROk kv
           end
         else ROk kv1 : res E KvCache) with
  | ROk kv2 => kc_max_t kv2 = M /\ has_mamba kv2 = hm /\
      exists more, holds kv2 (h ++ take (S k) batch ++ more) /\ length h + (1 + k) + length more <= M /\ (done = false -> more = [])
  | RErr e => fails e
  | RPanic => False
  end) as Hsync.
  { destruct done; cbn [negb]; [rewrite andb_false_r|rewrite andb_true_r].
    - split_and!; [destruct Hk; lia|destruct Hk as (_ & _ & Hk); congruence|]. exists (drop (S k) batch).
      rewrite take_drop. split_and!; [done|rewrite length_drop; lia|done].
    - specialize (Hrolled (dc_snap st) Hpair). replace (k + 1 <? 1 + g) with (k <? g) in Hrolled by lia.
      assert (track && (k <? g) = true -> snap = snapshot_mamba_into kv (dc_snap st)) as Hsn.
      { intros [-> Hc]%andb_prop. unfold snap. by replace (0 <? g) with true by lia. }
      destruct (track && (k <? g)); [rewrite (Hsn eq_refl)|].
      1: lazymatch type of Hrolled with match ?x with _ => _ end => destruct x as [kv2| |] end; [|done|done].
      all: destruct Hrolled as (R1 & R2 & R3); split_and!; [done|done|]; exists []; rewrite app_nil_r; (split_and!; [done|simpl; lia|done]). }
  destruct (if track && (k <? g) && negb done then _ else ROk kv1 : res E KvCache) as [kv2| |]; [|by split|done].
  destruct Hsync as (HM2 & Hh2 & more & Hk2 & Hmore & Hdone).
  assert (match (if 1 <=? k then absorb kv2 (take k drafts) hs (length h) else ROk kv2) with
          | ROk kv3 => kc_max_t kv3 = M /\ has_mamba kv3 = hm /\ holds kv3 (h ++ take (S k) batch ++ more)
          | RErr e => fails e | RPanic => False end) as Habs.
  { destruct (Nat.leb_spec 1 k) as [Hk1'|]; [|done].
    assert (length (h ++ take (S k) batch ++ more) = length h + (1 + k) + length more) as Hlen.
    { rewrite !length_app, length_take. lia. }
    assert (length (take k drafts) = k) as Hlk by (rewrite length_take; lia).
    pose proof (absorb_keeps kv2 _ (take k drafts) hs (length h) Hk2) as Ha. rewrite Hlk, Hlen, HM2, Hl in Ha.
    specialize (Ha ltac:(by apply Forall_take) ltac:(intros Hn; rewrite Hn in Hlk; simpl in Hlk; lia) ltac:(lia) ltac:(lia) ltac:(nia)).
    destruct (absorb _ _ _ _); [|done|done]. destruct Ha as (H1 & [H2 H3]). split_and!; [congruence|congruence|done]. }
  destruct (if 1 <=? k then _ else ROk kv2) as [kv3| |]; [|by split|done]. destruct Habs as (HM3 & Hh3 & Hk3).
  rewrite (Hrow k) by lia. destruct (lookup_lt_is_Some_2 los k) as [lo Hlo]; [lia|]. rewrite Hlo.
  destruct done; cbn [verified].
  - destruct Hgo as [Hk1' Hgo]. split; cbn; [|lia|lia|lia]. rewrite Hgo. f_equal. lia.
  - exists (h ++ take (S k) batch). rewrite (Hdone eq_refl), app_nil_r in Hk3. cbn [dc_cb dc_emitted].
    assert (h ++ take (S k) batch = (h ++ [next]) ++ take k (take g drafts)) as Heq by (by rewrite <- app_assoc).
    split_and!; [by rewrite Heq| |rewrite Heq, !length_app, !length_take; simpl; lia|lia].
    split; cbn [dc_kv dc_cb dc_logit dc_pos dc_hlast dc_budget dc_proposed dc_accepted dc_forwards dc_emitted].
    + done.
    + by destruct h.
    + apply Forall_app. split; [done|exact (Forall_take valid (S k) batch Hbv)].
    + rewrite length_app, length_take. lia.
    + by apply Hlog.
    + done.
    + lia.
    + destruct Htr as [|[_ ?]]; [by left|by right].
    + exact Hps.
    + lia.
    + lia.
Qed.

Lemma turn_spec st h : inv st h -> dc_emitted st < n_new ->
  match turn p on_token track n_new st with
  | Again st' => exists h', goes h (dc_cb st) h' (dc_cb st') /\ inv st' h' /\
                  dc_emitted st' = dc_emitted st + (length h' - length h) /\ dc_emitted st < dc_emitted st' <= n_new
  | Break st' => finished st st' h
  | Return cb e => fails e /\ exists m, m <= n_new - dc_emitted st /\ (greedy m h (dc_cb st)).1 = cb
  | Panic _ => False
  end.
Proof.
  intros I Hem. pose proof (iv_pos _ _ I) as Hpos. pose proof (iv_room _ _ I) as Hroom.
  pose proof (iv_accepted _ _ I) as Hac. pose proof (iv_count _ _ I) as Hcnt.
  destruct (logits_total h (iv_nonempty _ _ I) (iv_valid _ _ I)) as (lo & Hlo & Hval). rewrite (iv_logit _ _ I) in Hlo. injection Hlo as <-.
  pose proof (next_token_of h _ (iv_logit _ _ I)) as Hnext. unfold turn. rewrite <- Hnext in *.
  destruct (on_token (dc_cb st) (next_token h)) as [cb keep] eqn:Hcb.
  destruct (n_new - dc_emitted st) as [|n] eqn:Hn; [lia|].
  assert (forall b, is_stop p (next_token h) || negb keep = b -> forall m,
    greedy (S m) h (dc_cb st) = if b then (cb, 1) else let '(c, j) := greedy m (h ++ [next_token h]) cb in (c, S j)) as Hg.
  { intros b <- m. cbn [greedy]. rewrite Hcb. done. }
  destruct (is_stop p (next_token h)) eqn:Hstop.
  { split; cbn; [|lia|lia|lia]. rewrite Hn, (Hg true) by done. f_equal. lia. }
  cbn [dc_emitted]. destruct keep; cbn [negb orb] in *.
  2: { split; cbn; [|lia|lia|lia]. rewrite Hn, (Hg true) by done. f_equal. lia. }
  destruct (Nat.leb_spec n_new (dc_emitted st + 1)) as [Hlast|Hmore].
  { split; cbn; [|lia|lia|lia]. rewrite Hn, (Hg false) by done. replace n with 0 by lia. cbn. f_equal. lia. }
  set (st1 := {| dc_kv := dc_kv st; dc_cb := cb |}).
  assert (guarded_budget st1 = 0 \/ guarded_budget st1 = dc_budget st) as Hbud.
  { unfold guarded_budget. destruct (_ && _); [by left|by right]. }
  cbn [st1 dc_kv dc_cb dc_logit dc_pos dc_hlast dc_budget dc_proposed dc_accepted dc_forwards dc_emitted dc_snap].
  assert (match (if 0 <? guarded_budget st1 then draft (dc_kv st) (next_token h) (dc_pos st) (guarded_budget st1) (dc_hlast st)
                 else ROk (dc_kv st, [])) with
          | ROk (kv, ds) => stands kv h /\ Forall valid ds /\ (0 <? guarded_budget st1 = false -> ds = [])
          | RErr e => fails e | RPanic => False end) as Hd.
  { destruct (Nat.ltb_spec 0 (guarded_budget st1)); [|split_and!; [apply I|constructor|done]].
    rewrite (iv_hlast _ _ I), <- Hpos. destruct (iv_kv _ _ I) as (K1 & K2 & K3).
    pose proof (draft_keeps (dc_kv st) h (next_token h) (guarded_budget st1) K1 (iv_nonempty _ _ I) (iv_valid _ _ I) Hval) as Hd.
    destruct (draft _ _ _ _ _) as [[kv ds]| |]; [|done|done]. destruct Hd as (D1 & [D2 D3] & D4 & _).
    split_and!; [split_and!; [done|congruence|congruence]|done|done]. }
  destruct (if 0 <? guarded_budget st1 then _ else _) as [[kv ds]| |].
  2: { split; [done|]. exists 1. split; [lia|]. by rewrite (Hg false). }
  2: done.
  destruct Hd as (Hk & Hds & Hno).
  set (st2 := {| dc_kv := kv; dc_cb := cb |}).
  pose proof (verify_spec st2 kv h (next_token h) ds Hk (iv_valid _ _ I) (iv_nonempty _ _ I) eq_refl Hval Hds Hpos) as Hv.
  cbn [st2 dc_pos dc_emitted dc_budget dc_accepted dc_proposed dc_forwards] in Hv.
  specialize (Hv ltac:(lia) ltac:(lia)).
  assert (retracts /\ track = hm \/ ds = [] /\ guarded_budget st1 = 0) as Ht.
  { destruct (iv_track _ _ I) as [|H0]; [by left|right]. assert (guarded_budget st1 = 0) as H1 by (destruct Hbud; congruence).
    split; [apply Hno; by rewrite H1|done]. }
  assert (dc_accepted st + length ds <= dc_proposed st + (if 0 <? guarded_budget st1 then length ds else 0)) as Ha.
  { destruct (0 <? guarded_budget st1); [lia|]. rewrite Hno by done. simpl. lia. }
  specialize (Hv Ht Ha ltac:(lia) (iv_snap _ _ I)). fold st2 in Hv |- *.
  assert (goes h (dc_cb st) (h ++ [next_token h]) cb) as Hstep.
  { eapply goes_step; [exact Hcb|done|constructor]. }
  destruct (verify _ _ _ _ st2 kv _ ds) as [st'|st'|cb' e|cb']; cbn [verified] in Hv; [| | |done].
  - destruct Hv as (h' & H1 & H2 & H3 & H4). exists h'. pose proof (goes_length _ _ _ _ H1) as Hl.
    rewrite length_app in Hl, H3. simpl in Hl, H3. split_and!; [by eapply goes_trans|done|lia|lia|lia].
  - destruct Hv as [V1 V2 V3 V4]. cbn in V1, V2. split; [|lia|done|done]. rewrite Hn, (Hg false) by done.
    replace n with (n_new - (dc_emitted st + 1)) by lia. rewrite V1. f_equal. lia.
  - destruct Hv as (Vf & m & V1 & V2). cbn in V1, V2. split; [done|]. exists (S m). split; [lia|]. rewrite (Hg false) by done.
    destruct (greedy m _ cb). done.
Qed.

(** The loop returns, within [n_new] turns. *)
Lemma decode_spec fuel : forall st h, inv st h -> dc_emitted st <= n_new -> n_new - dc_emitted st <= fuel ->
  exists cb r, decode p on_token fuel track n_new st = Some (cb, r) /\
    match r with
    | ROk st' => dc_cb st' = cb /\ finished st st' h
    | RErr e => fails e /\ exists m, m <= n_new - dc_emitted st /\ (greedy m h (dc_cb st)).1 = cb
    | RPanic => False
    end.
Proof.
  induction fuel as [|fuel IH]; intros st h I Hle Hf; cbn [decode].
  all: destruct (Nat.ltb_spec (dc_emitted st) n_new) as [Hlt|Hge]; cbn [negb].
  1: lia.
  1, 3: eexists _, _; split; [done|]; split; [done|]; pose proof (iv_accepted _ _ I); pose proof (iv_count _ _ I);
    split; [|lia|done|lia]; by replace (n_new - dc_emitted st) with 0 by lia; rewrite Nat.sub_diag.
  pose proof (turn_spec st h I Hlt) as Ht. destruct (turn _ _ _ _ st) as [st'|st'|cb e|cb].
  - destruct Ht as (h' & Hg & I' & He & Hl). destruct (IH st' h' I' ltac:(lia) ltac:(lia)) as (cb & r & E1 & Hr).
    exists cb, r. split; [done|]. pose proof (goes_length _ _ _ _ Hg) as Hlen. destruct r as [st''|e|]; [| |done].
    + destruct Hr as [Hc [F1 F2 F3 F4]]. split; [done|]. split; [|lia|done|done].
      rewrite (goes_greedy _ _ _ _ Hg) by lia. replace (n_new - dc_emitted st - _) with (n_new - dc_emitted st') by lia.
      rewrite F1. f_equal. lia.
    + destruct Hr as (Hfl & m & Hm & Hc). split; [done|]. exists (length h' - length h + m). split; [lia|].
      rewrite (goes_greedy _ _ _ _ Hg) by lia. replace (_ + m - _) with m by lia. destruct (greedy m h' (dc_cb st')). done.
  - eexists _, _. split; [done|]. done.
  - eexists _, _. split; [done|]. done.
  - done.
Qed.
End Spec.

(** ** What the loop computes *)

Section Main.
Context {E : Type} `{!Engine E} (p : Params) `{!EngineLaws E (pr_hidden p)}.

(** What a run leaves its caller with, against greedy decoding. *)
Definition as_greedy {C : Type} (on_token : C -> Z -> C * bool) (n_new : nat) (prompt : list Z) (cb cb' : C)
    (r : res E (KvCache * DecodeStats)) : Prop :=
  match r with
  | ROk (_, st) =>
      greedy p on_token n_new prompt cb = (cb', emitted st) /\ emitted st <= n_new /\
      drafts_accepted st <= drafts_proposed st /\
      forwards st + drafts_accepted st <= emitted st <= forwards st + drafts_accepted st + 1
  | RErr e => fails e /\ exists m, m <= n_new /\ (greedy p on_token m prompt cb).1 = cb'
  | RPanic => False
  end.

Lemma drafting_spec {C : Type} (on_token : C -> Z -> C * bool) env kv prompt n_new budget (cb : C) :
  holds kv [] -> prompt <> [] -> Forall valid prompt -> length prompt + n_new <= kc_max_t kv ->
  (pr_has_mtp p = true -> retracts) ->
  (has_mamba kv = true -> rollback env = true \/ (if pr_has_mtp p then budget else 0) = 0) ->
  exists cb' r, generate_stream_drafting p on_token env kv prompt n_new budget cb = Some (cb', r) /\
    as_greedy on_token n_new prompt cb cb' r.
Proof.
  intros Hk Hne Hv Hmax Hret Hroll. unfold generate_stream_drafting.
  assert (length prompt <> 0) as Hl0 by (by destruct prompt).
  destruct (Nat.eqb_spec (length prompt) 0) as [|_]; [done|].
  destruct (Nat.ltb_spec (kc_max_t kv) (length prompt + n_new)) as [|_]; [lia|]. cbn [orb].
  pose proof (forward_extends kv [] prompt Hk ltac:(constructor) Hv Hne ltac:(simpl; lia)) as Hf. cbn [length app] in Hf.
  destruct (forward kv prompt 0) as [[kv1 hs]| |]; [|by eexists _, _; split; [done|]; split; [done|]; exists 0; split; [lia|]|done].
  destruct Hf as (Hk1 & [Hm1 Hh1] & -> & _).
  destruct (batch_rows p [] prompt ltac:(constructor) Hv) as (_ & Hrow & _). cbn [app] in Hrow. rewrite Hrow by lia.
  replace (S (length prompt - 1)) with (length prompt) by lia. rewrite take_ge by done.
  destruct (logits_total prompt Hne Hv) as (lo & Hlo & _). rewrite Hlo. cbv zeta.
  destruct (decode_spec p on_token (kc_max_t kv) (has_mamba kv) (has_mamba kv1 && rollback env) n_new n_new
    {| dc_kv := kv1; dc_cb := cb; dc_logit := lo; dc_pos := length prompt; dc_hlast := row prompt;
       dc_budget := if pr_has_mtp p then budget else 0; dc_proposed := 0; dc_accepted := 0; dc_forwards := 0;
       dc_emitted := 0; dc_snap := {| sn_conv := []; sn_ssm := [] |} |} prompt) as (cb' & r & -> & Hr); [|cbn; lia|cbn; lia|].
  { split; cbn; try done; [lia|]. rewrite Hh1. destruct (pr_has_mtp p); [|by right]. specialize (Hret eq_refl).
    destruct (has_mamba kv); [|by left]. destruct (Hroll eq_refl) as [->|]; [by left|by right]. }
  eexists _, _. split; [done|]. destruct r as [st|e|]; [| |done]; cbn in Hr |- *.
  - destruct Hr as [Hcb [F1 F2 F3 F4]]. cbn in F1, F2. rewrite Nat.sub_0_r in F1. subst cb'.
    split_and!; try lia. rewrite F1. f_equal. lia.
  - destruct Hr as (Hfl & m & Hm & Hr). split; [done|]. exists m. split; [lia|done].
Qed.


(** The tokens of greedy decoding, for a caller that always goes on. *)
Fixpoint greedy_tokens (n : nat) (hist : list Z) : list Z :=
  match n with
  | 0 => []
  | S n => let t := next_token p hist in if is_stop p t then [t] else t :: greedy_tokens n (hist ++ [t])
  end.

Lemma greedy_collects n : forall hist out,
  (greedy p (fun out tok => (out ++ [tok], true)) n hist out).1 = out ++ greedy_tokens n hist.
Proof.
  induction n as [|n IH]; intros hist out; cbn [greedy greedy_tokens]; [by rewrite app_nil_r|].
  cbn [negb]. rewrite orb_false_r. destruct (is_stop p _); [done|].
  specialize (IH (hist ++ [next_token p hist]) (out ++ [next_token p hist])).
  destruct (greedy _ _ n _ _). cbn in *. by rewrite IH, <- app_assoc.
Qed.

Lemma generate_greedy_spec draft_env env kv prompt n_new :
  holds kv [] -> prompt <> [] -> Forall valid prompt -> length prompt + n_new <= kc_max_t kv ->
  (pr_has_mtp p = true -> retracts) -> rollback env = true ->
  exists r, generate_greedy p draft_env env kv prompt n_new = Some r /\
    match r with
    | ROk (_, out) => out = prompt ++ greedy_tokens n_new prompt
    | RErr e => fails e
    | RPanic => False
    end.
Proof.
  intros Hk Hne Hv Hmax Hret Hroll. unfold generate_greedy, generate_stream.
  destruct (drafting_spec (fun out tok => (out ++ [tok], true)) env kv prompt n_new
              (if pr_has_mtp p then draft_budget draft_env else 0) prompt Hk Hne Hv Hmax Hret ltac:(by left)) as (out & r & -> & Hr).
  eexists. split; [done|]. destruct r as [[kv' st]|e|]; [|by destruct Hr|done]. cbn.
  destruct Hr as [Hg _]. pose proof (greedy_collects n_new prompt prompt) as Hc. by rewrite Hg in Hc.
Qed.
End Main.

(** ** A recurrent engine of five tokens *)

(** Its state is the sum of the tokens, kept as a Mamba state; it prefers the
    next one, and its head drafts one token right and then token 1. *)
Definition total (a : Z) (toks : list Z) : Z := foldl (fun a t => ((a + t) mod 5)%Z) a toks.
Fixpoint totals (a : Z) (toks : list Z) : list Z :=
  match toks with [] => [] | t :: toks => let b := ((a + t) mod 5)%Z in b :: totals b toks end.
Definition with_state (kv : KvCache) (a : Z) : KvCache := set_mamba kv [[f32_of_Z a]] [ssm_zeros 0 0 0] 4 1.
Definition state_of (kv : KvCache) : Z := match kc_mamba_conv kv with [[x]] => f32_to_i 32 x | _ => 0%Z end.
Definition five_kv (max_t : nat) : KvCache := with_state (kv_new 1 0 0 max_t) 0.
Definition five_logits (h : list f32) : option (list f32) :=
  match h with
  | [x] => Some (map (fun i => if (i =? (f32_to_i 32 x + 1) mod 5)%Z then f32_one else f0) [0; 1; 2; 3; 4]%Z)
  | _ => None
  end.
#[export] Instance five : Engine unit := {
  forward kv toks _ := ROk (with_state kv (total (state_of kv) toks), map f32_of_Z (totals (state_of kv) toks));
  logits := five_logits;
  draft kv _ _ budget h :=
    match h with
    | [x] => ROk (kv, take budget [(2 * f32_to_i 32 x + 2) mod 5; 1]%Z)
    | _ => RPanic
    end;
  absorb kv _ _ _ := ROk kv
}.

Lemma total_range toks : forall a, (0 <= a < 5)%Z -> (0 <= total a toks < 5)%Z.
Proof. induction toks as [|t toks IH]; intros a Ha; [done|]. cbn. apply IH. lia. Qed.

Lemma code_of a : (0 <= a < 5)%Z -> f32_to_i 32 (f32_of_Z a) = a.
Proof. intros H. apply f32_to_i_of_Z; lia. Qed.

Lemma totals_rows toks : forall a,
  map f32_of_Z (totals a toks) = concat (map (fun i => [f32_of_Z (total a (take (S i) toks))]) (seq 0 (length toks))).
Proof.
  induction toks as [|t toks IH]; intros a; [done|]. cbn [totals map length seq concat]. cbn [take total foldl app].
  f_equal. rewrite <- seq_shift, map_map. exact (IH ((a + t) mod 5)%Z).
Qed.

Lemma total_app a hist toks : total a (hist ++ toks) = total (total a hist) toks.
Proof. apply foldl_app. Qed.

Definition five_holds (kv : KvCache) (hist : list Z) : Prop :=
  kc_mamba_conv kv = [[f32_of_Z (total 0 hist)]] /\ kc_mamba_ssm kv = [ssm_zeros 0 0 0] /\ has_mamba kv = true.

#[export, refine] Instance five_laws : EngineLaws unit 1 := {
  holds := five_holds;
  fails _ := False;
  row hist := [f32_of_Z (total 0 hist)];
  valid t := (0 <= t < 5)%Z;
  retracts := True
}.
Proof.
  - done.
  - intros hist _ _. cbn [logits five five_logits]. eexists. split; [done|]. rewrite code_of by (apply total_range; lia).
    pose proof (total_range hist 0 ltac:(lia)) as H. remember (total 0 hist) as n eqn:Hn.
    assert (n = 0 \/ n = 1 \/ n = 2 \/ n = 3 \/ n = 4)%Z as [->|[->|[->|[->| ->]]]] by lia; vm_compute; done.
  - intros kv hist toks (H1 & H2 & H3) _ _ _ _. cbn [forward five].
    assert (state_of kv = total 0 hist) as -> by (unfold state_of; rewrite H1; apply code_of, total_range; lia).
    split; [|split; [|split]].
    + unfold five_holds. by rewrite total_app.
    + split; [done|]. by rewrite H3.
    + rewrite totals_rows. f_equal. apply map_ext. intros i. by rewrite total_app.
    + intros _ snap Hp. rewrite snapshot_contents by (done || by rewrite H1, H2). unfold restore_mamba_from. cbn [sn_conv sn_ssm].
      rewrite H1, H2. eexists. split; [cbn; reflexivity|]. split; [done|]. split; [done|]. by rewrite H3.
  - intros kv hist more _ H. unfold five_holds. intros (_ & _ & H3). congruence.
  - intros kv hist next budget Hk _ _ _. cbn [draft five]. rewrite code_of by (apply total_range; lia). do 2 (split; [done|]). split.
    + apply Forall_take. repeat constructor; lia.
    + rewrite length_take. lia.
  - done.
Defined.

Definition five_params : Params := {| pr_hidden := 1; pr_stop_ids := []; pr_has_mtp := true |}.

Lemma five_starts max_t : five_holds (five_kv max_t) [].
Proof. done. Defined.


(** The rollback is what makes it so.  With [COLI_MTP_ROLLBACK] at 0 a
    rejected draft stays in the recurrent state and the output is another one;
    with it, the drafts change nothing but the number of passes. *)
Theorem rollback_needed :
  let run env budget :=
    let* (out, r) := generate_stream_drafting five_params (fun out t => (out ++ [t], true)) env (five_kv 20) [2; 3]%Z 6 budget [] in
    match r with ROk (_, st) => Some (out, forwards st) | _ => None end in
  run None 0 = Some ([1; 2; 4; 3; 1; 2]%Z, 5) /\ run None 2 = Some ([1; 2; 4; 3; 1; 2]%Z, 2) /\
  run (Some [48%Z]) 2 = Some ([1; 2; 4; 4; 2; 3]%Z, 4).
Proof. vm_compute. split_and!; reflexivity. Qed.
