(* ===== verification/Gqa.v ===== *)
(** * Grouped-query attention ([crates/colibri-engine/src/attention.rs])

    [attention_gqa]: full multi-head attention over the cached keys and values,
    with the per-head or per-layer query and key norms, the rotary embedding, the
    sliding window, and MiniMax's block selection.  The portable path: the CUDA
    kernels are not modelled.  The platform's functions are parameters. *)

From Stdlib Require Import ZifyBool ZifyNat SpecFloat.
From S2P Require Import Prelude Rows DType Math Linear Config Model KvCache.
Local Open Scope nat_scope.

(** ** Loops over rows *)

Definition div_up (a b : nat) : nat := (a + b - 1) / b.

(** What the layer reads of the configuration. *)
Record Gqa := {
  gq_h : nat; gq_kvh : nat; gq_hd : nat; gq_rot : nat; gq_eps : f32; gq_theta : f32; gq_scale : f32
}.
Definition gqa_of (c : Config) : Gqa :=
  {| gq_h := Z.to_nat (n_heads c); gq_kvh := Z.to_nat (n_kv_heads c); gq_hd := Z.to_nat (qk_head c);
     gq_rot := Z.to_nat (qk_rope c); gq_eps := eps c; gq_theta := theta c; gq_scale := attn_scale c |}.
Definition kv_width (g : Gqa) : nat := gq_kvh g * gq_hd g.
Definition q_width (g : Gqa) : nat := gq_h g * gq_hd g.
(** [(h / kvh).max(1)]: no heads to share the keys of panics. *)
Definition head_group (g : Gqa) : option nat := if gq_kvh g =? 0 then None else Some (Nat.max (gq_h g / gq_kvh g) 1).

Section Gqa.
Context (expf sinf cosf : f32 -> f32) (powf : f32 -> f32 -> f32).

(** ** Queries, keys and values *)

Definition project (g : Gqa) (l : Layer) (x : list f32) (s_len : nat) : option (list (list f32) * list (list f32) * list (list f32)) :=
  let '(qsz, kv) := (q_width g, kv_width g) in
  match l_qkv_proj l with
  | Some w =>
      let* y := matmul_qt (s_len * (qsz + 2 * kv)) x w s_len in
      let* rows := each_row (qsz + 2 * kv) s_len Some y in
      let* qs := mapM (fun r => range r 0 qsz) rows in
      let* ks := mapM (fun r => range r qsz (qsz + kv)) rows in
      let* vs := mapM (fun r => range r (qsz + kv) (qsz + 2 * kv)) rows in
      Some (qs, ks, vs)
  | None =>
      let* wq := l_q_proj l in let* wk := l_k_proj l in let* wv := l_v_proj l in
      let* q := matmul_qt (s_len * qsz) x wq s_len in
      let* k := matmul_qt (s_len * kv) x wk s_len in
      let* v := matmul_qt (s_len * kv) x wv s_len in
      let* qs := each_row qsz s_len Some q in let* ks := each_row kv s_len Some k in let* vs := each_row kv s_len Some v in
      Some (qs, ks, vs)
  end.

(** One row of [n_heads] heads, normed and rotated; [norm] empty is no norm. *)
Definition rope_head (g : Gqa) (rope : bool) (pos : nat) (head : list f32) : option (list f32) :=
  if rope then
    let* r := range head 0 (gq_rot g) in
    let* r := rope_neox sinf cosf powf r pos (gq_rot g) (gq_theta g) in Some (blit head 0 r)
  else Some head.
Definition norm_rope (g : Gqa) (per_layer use_norm rope : bool) (norm : list f32) (n_heads pos : nat) (row : list f32)
    : option (list f32) :=
  let* row := if use_norm && per_layer then rmsnorm row norm (gq_eps g) else Some row in
  let* heads := mapM (fun hh =>
    let* hd := range row (hh * gq_hd g) (hh * gq_hd g + gq_hd g) in
    let* hd := if use_norm && negb per_layer then rmsnorm hd norm (gq_eps g) else Some hd in
    rope_head g rope pos hd) (seq 0 n_heads) in
  Some (concat heads).

(** [copy_from_slice] into the row of a position. *)
Definition store_kv (kv : KvCache) (layer pos : nat) (k v : list f32) : option KvCache :=
  if negb ((length k =? kc_kv_dim kv) && (length v =? kc_kv_dim kv)) then None
  else let* kv := k_full_row_mut kv layer pos (fun _ => k) in v_full_row_mut kv layer pos (fun _ => v).

Fixpoint store_rows (g : Gqa) (l : Layer) (rope : bool) (layer pos : nat) (kv : KvCache)
    (rows : list (list f32 * list f32 * list f32)) : option (KvCache * list (list f32)) :=
  match rows with
  | [] => Some (kv, [])
  | (q, k, v) :: rows =>
      let per_layer := gq_hd g <? length (l_q_norm l) in
      let use_norm := negb (length (l_q_norm l) =? 0) in
      let* q := norm_rope g per_layer use_norm rope (l_q_norm l) (gq_h g) pos q in
      let* k := norm_rope g per_layer use_norm rope (l_k_norm l) (gq_kvh g) pos k in
      let* kv := store_kv kv layer pos k v in
      let* (kv, qs) := store_rows g l rope layer (pos + 1) kv rows in
      Some (kv, q :: qs)
  end.

(** ** Block selection *)

(** The scores are numbers: the order of [sort_by] is a total one. *)
Definition topk_blocks (scores : list f32) (keep : nat) : list nat :=
  let n := length scores in
  let keep := Nat.min keep n in
  let at_ i := nth i scores f0 in
  let before a b := if SFltb (at_ b) (at_ a) then true else if SFltb (at_ a) (at_ b) then false else (a <=? b) in
  sort_by Nat.leb (take keep (sort_by before (seq 0 n))).

Definition block_scores (qv : list f32) (keys : list (list f32)) (bs nb : nat) : list f32 :=
  foldl (fun sc '(t, k) =>
    let dot := f32_sum (f32_zip f32_mul qv k) in
    if SFltb (nth (t / bs) sc f0) dot then <[t / bs := dot]> sc else sc)
    (replicate nb NEG_INFINITY) (imap pair keys).

(** [m3_block_select], when [COLI_M3_SPARSE] is on: the blocks by index head and
    token, or [None] when every block is kept. *)
Definition m3_block_select (sparse : bool) (c : Config) (l : Layer) (x : list f32) (s_len pos_base : nat)
    : option (option (list (list nat))) :=
  if negb sparse || negb (pos_base =? 0) || (s_len <=? 1) then Some None
  else
    match l_idx_q_proj l, l_idx_k_proj l with
    | Some wq, Some wk =>
        let '(inh, ihd) := (Z.to_nat (index_nh c), Z.to_nat (index_hd c)) in
        let bs := Nat.max (Z.to_nat (index_block_size c)) 1 in
        let rot := Nat.min (Z.to_nat (qk_rope c)) ihd in
        if div_up s_len bs <=? Z.to_nat (index_topk_blocks c) then Some None
        else
          let* iq := matmul_qt (s_len * inh * ihd) x wq s_len in
          let* ik := matmul_qt (s_len * ihd) x wk s_len in
          let turn norm pos v :=
            let* v := rmsnorm v norm (eps c) in
            let* r := range v 0 rot in
            let* r := rope_neox sinf cosf powf r pos rot (theta c) in Some (blit v 0 r) in
          let* qs := mapM (fun i => let* v := range iq (i * ihd) (i * ihd + ihd) in turn (l_idx_q_norm l) (pos_base + i / inh) v)
                       (seq 0 (s_len * inh)) in
          let* ks := mapM (fun s => let* v := range ik (s * ihd) ((s + 1) * ihd) in turn (l_idx_k_norm l) (pos_base + s) v)
                       (seq 0 s_len) in
          let* sel := mapM (fun gs =>
            let '(h, s) := (gs / s_len, gs mod s_len) in
            let pos := pos_base + s in
            let* qv := qs !! (s * inh + h) in
            let sc := block_scores qv (take (pos + 1) ks) bs (div_up (pos + 1) bs) in
            let sc := foldl (fun sc lb => <[pos / bs - lb := S754_infinity false]> sc) sc
                        (seq 0 (Z.to_nat (index_local_blocks c))) in
            Some (topk_blocks sc (Z.to_nat (index_topk_blocks c)))) (seq 0 (inh * s_len)) in
          Some (Some sel)
    | _, _ => Some None
    end.

(** ** The core *)

Definition attend (g : Gqa) (qvec krows vrows : list f32) (kvhh st0 : nat) (keys : list nat) : option (list f32) :=
  let hd := gq_hd g in
  let base key := (key - st0) * kv_width g + kvhh * hd in
  let* ks := mapM (fun key => range krows (base key) (base key + hd)) keys in
  let scores := softmax expf (map (fun k => f32_mul (f32_sum (f32_zip f32_mul qvec k)) (gq_scale g)) ks) in
  let* vs := mapM (fun key => range vrows (base key) (base key + hd)) keys in
  Some (foldl (fun c '(sc, v) => f32_zip (fun x y => f32_add x (f32_mul sc y)) c v) (replicate hd f0) (combine scores vs)).

(** The keys a query at [pos] attends to: the selected blocks, or what the
    window leaves; [tk - lo] underflows when nothing was stored yet. *)
Definition keys_of (win st0 tk bsize : nat) (sel : option (list nat)) : option (list nat) :=
  match sel with
  | Some blocks =>
      Some (concat (map (fun b => let lo := Nat.max (b * bsize) st0 in let hi := Nat.min ((b + 1) * bsize) tk in
                                  seq lo (hi - lo)) blocks))
  | None =>
      let lo := if 0 <? win then Nat.max st0 (tk - win) else st0 in
      if tk <? lo then None else Some (seq lo (tk - lo))
  end.

Definition attend_row (g : Gqa) (kv : KvCache) (layer win st0 bsize s s_len pos : nat) (sel : option (list (list nat))) (q : list f32)
    : option (list f32) :=
  let tk := pos + 1 in
  let* group := head_group g in
  let* krows := k_full_rows kv layer st0 tk in
  let* vrows := v_full_rows kv layer st0 tk in
  let* heads := mapM (fun hh =>
    let kvhh := hh / group in
    let* qvec := range q (hh * gq_hd g) (hh * gq_hd g + gq_hd g) in
    let* blocks := match sel with Some sel => let* b := sel !! (kvhh * s_len + s) in Some (Some b) | None => Some None end in
    let* keys := keys_of win st0 tk bsize blocks in
    attend g qvec krows vrows kvhh st0 keys) (seq 0 (gq_h g)) in
  Some (concat heads).

(** [attention_gqa]; [out] has length [out_len]. *)
Definition attention_gqa (sparse : bool) (c : Config) (l : Layer) (layer : nat) (kv : KvCache) (x : list f32) (s_len pos_base out_len : nat)
    : option (KvCache * list f32) :=
  let g := gqa_of c in
  let* _ := head_group g in
  let* (qk, vs) := project g l x s_len in
  let rope := is_gqa (arch c) && layer_uses_rope c layer in
  let win := if layer_is_swa c layer then Z.to_nat (swa_window c) else 0 in
  let* (kv, qs) := store_rows g l rope layer pos_base kv (combine (combine qk.1 qk.2) vs) in
  let* sel := m3_block_select sparse c l x s_len pos_base in
  let bsize := Nat.max (Z.to_nat (index_block_size c)) 1 in
  let* st0 := kc_kv_start kv !! layer in
  let* ctx := mapM (fun '(s, q) => attend_row g kv layer win (Z.to_nat st0) bsize s s_len (pos_base + s) sel q) (imap pair qs) in
  let* out := matmul_qt out_len (concat ctx) (l_o l) s_len in
  Some (kv, out).
End Gqa.

(** ** Rows that keep their length *)

Lemma foldl_option_total {S A} (f : S -> A -> option S) (P : S -> Prop) (l : list A) s :
  P s -> (forall s a, a ∈ l -> P s -> exists s', f s a = Some s' /\ P s') ->
  exists s', foldl (fun acc a => let* s := acc in f s a) (Some s) l = Some s' /\ P s'.
Proof.
  revert s. induction l as [|a l IH]; intros s Hs Hf; [by exists s|]. cbn.
  destruct (Hf s a) as (s1 & -> & H1); [left|done|]. apply IH; [done|]. intros. apply Hf; [by right|done].
Qed.

Lemma rope_neox_total sinf cosf powf v pos theta :
  exists y, rope_neox sinf cosf powf v pos (length v) theta = Some y /\ length y = length v.
Proof.
  unfold rope_neox. pose proof (Nat.Div0.div_le_mono 0 (length v) 2 ltac:(lia)).
  pose proof (Nat.div_mod (length v) 2 ltac:(lia)).
  apply (foldl_option_total (fun out j => let* a := out !! j in let* b := out !! (length v / 2 + j) in
    rotate_pair sinf cosf (rope_angle powf theta (length v) pos j) a b j (length v / 2 + j) out) (fun y => length y = length v)); [done|].
  intros s j Hj%elem_of_seq Hs. destruct (lookup_lt_is_Some_2 s j) as [a ->]; [lia|].
  destruct (lookup_lt_is_Some_2 s (length v / 2 + j)) as [b ->]; [lia|]. unfold rotate_pair.
  rewrite (proj2 (Nat.ltb_lt _ _)) by lia. rewrite (proj2 (Nat.ltb_lt _ _)) by lia. cbn.
  eexists. split; [done|]. by rewrite !length_insert.
Qed.

Section Rows.
Context (expf sinf cosf : f32 -> f32) (powf : f32 -> f32 -> f32) (g : Gqa).

Lemma rope_head_total rope pos head : (rope = true -> gq_rot g <= length head) ->
  exists y, rope_head sinf cosf powf g rope pos head = Some y /\ length y = length head.
Proof.
  intros Hr. unfold rope_head. destruct rope; [|by eexists]. specialize (Hr eq_refl).
  rewrite range_some by lia. destruct (rope_neox_total sinf cosf powf (take (gq_rot g - 0) (drop 0 head)) pos (gq_theta g)) as (y & E & Hl).
  rewrite length_take, length_drop in E, Hl. replace (Nat.min (gq_rot g - 0) (length head - 0)) with (gq_rot g) in E, Hl by lia. rewrite E.
  eexists. split; [done|]. apply blit_length. lia.
Qed.

Lemma norm_rope_total per_layer use_norm rope norm n_heads pos row :
  length row = n_heads * gq_hd g -> (rope = true -> gq_rot g <= gq_hd g) ->
  (use_norm = true -> (if per_layer : bool then n_heads * gq_hd g else gq_hd g) <= length norm) ->
  exists y, norm_rope sinf cosf powf g per_layer use_norm rope norm n_heads pos row = Some y /\ length y = n_heads * gq_hd g.
Proof.
  intros Hl Hr Hn. unfold norm_rope.
  assert (exists r, (if use_norm && per_layer then rmsnorm row norm (gq_eps g) else Some row) = Some r /\ length r = n_heads * gq_hd g)
    as (r & -> & Hrl).
  { destruct (use_norm && per_layer) eqn:Hb; [|eauto]. apply andb_prop in Hb as [-> ->].
    destruct (rmsnorm_total row norm (gq_eps g)) as (y & E & Hy); [specialize (Hn eq_refl); lia|]. exists y. split; [done|lia]. }
  set (f := fun hh : nat => _).
  assert (forall hh, hh < n_heads -> exists y, f hh = Some y /\ length y = gq_hd g) as Hf.
  { intros hh Hh. unfold f. rewrite range_some by nia. set (hd := take _ _).
    assert (length hd = gq_hd g) as Hhd by (unfold hd; rewrite length_take, length_drop; nia).
    assert (exists z, (if use_norm && negb per_layer then rmsnorm hd norm (gq_eps g) else Some hd) = Some z /\ length z = gq_hd g)
      as (z & -> & Hz).
    { destruct (use_norm && negb per_layer) eqn:Hb; [|eauto]. apply andb_prop in Hb as [-> Hp]. destruct per_layer; [done|].
      destruct (rmsnorm_total hd norm (gq_eps g)) as (y & E & Hy); [specialize (Hn eq_refl); lia|]. exists y. split; [done|lia]. }
    destruct (rope_head_total rope pos z) as (y & -> & Hy); [rewrite Hz; auto|]. exists y. split; [done|lia]. }
  destruct (mapM_all f (fun y => length y = gq_hd g) (seq 0 n_heads)) as (heads & -> & Hhl & Hhn).
  { intros hh Hh%elem_of_seq. apply Hf. lia. }
  eexists. split; [done|]. by rewrite (concat_len (gq_hd g)), Hhn, length_seq.
Qed.

(** The layer's weights fit its heads, and the heads share the keys evenly. *)
Record wf_gqa (l : Layer) (rope : bool) (d : nat) : Prop := {
  wg_heads : exists m, gq_h g = m * gq_kvh g /\ 0 < gq_kvh g;
  wg_proj : match l_qkv_proj l with
            | Some w => wf_qt w d (q_width g + 2 * kv_width g)
            | None => exists wq wk wv, l_q_proj l = Some wq /\ l_k_proj l = Some wk /\ l_v_proj l = Some wv /\
                wf_qt wq d (q_width g) /\ wf_qt wk d (kv_width g) /\ wf_qt wv d (kv_width g)
            end;
  wg_norm : l_q_norm l <> [] ->
            if gq_hd g <? length (l_q_norm l) then q_width g <= length (l_q_norm l) /\ kv_width g <= length (l_k_norm l)
            else gq_hd g <= length (l_q_norm l) /\ gq_hd g <= length (l_k_norm l);
  wg_rope : rope = true -> gq_rot g <= gq_hd g;
  wg_out : wf_qt (l_o l) (q_width g) d
}.

(** One token's query, key and value before the norms. *)
Definition project_one (l : Layer) (x : list f32) : list f32 * list f32 * list f32 :=
  let '(qsz, kv) := (q_width g, kv_width g) in
  match l_qkv_proj l with
  | Some w => let y := matvec w x in (take qsz y, take kv (drop qsz y), take kv (drop (qsz + kv) y))
  | None =>
      let mv o := match o with Some w => matvec w x | None => [] end in
      (mv (l_q_proj l), mv (l_k_proj l), mv (l_v_proj l))
  end.

Lemma project_rows l rope d xs : wf_gqa l rope d -> Forall (fun x => length x = d) xs ->
  project g l (concat xs) (length xs) =
    Some (map (fun x => (project_one l x).1.1) xs, map (fun x => (project_one l x).1.2) xs, map (fun x => (project_one l x).2) xs) /\
  Forall (fun x => length (project_one l x).1.1 = q_width g /\ length (project_one l x).1.2 = kv_width g /\
                   length (project_one l x).2 = kv_width g) xs.
Proof.
  intros W Hxs. pose proof (wg_proj _ _ _ W) as Hp. unfold project, project_one. destruct (l_qkv_proj l) as [w|].
  - assert (forall x, length (matvec w x) = q_width g + 2 * kv_width g) as Hl by (intros x; by apply (matvec_length w d)).
    rewrite (matmul_qt_wf w d) by done. cbv beta iota.
    rewrite each_row_id by (apply Forall_map, Forall_true || rewrite length_map; done). cbv beta iota.
    rewrite !(mapM_slice (matvec w) (q_width g + 2 * kv_width g)) by (done || lia). cbn [fst snd]. split.
    + rewrite Nat.sub_0_r. replace (q_width g + kv_width g - q_width g) with (kv_width g) by lia.
      by replace (q_width g + 2 * kv_width g - (q_width g + kv_width g)) with (kv_width g) by lia.
    + apply Forall_true. intros x. rewrite !length_take, !length_drop, Hl. lia.
  - destruct Hp as (wq & wk & wv & -> & -> & -> & Wq & Wk & Wv). rewrite !(matmul_qt_wf _ d) by done. cbv beta iota.
    assert (forall w n, wf_qt w d n -> each_row n (length xs) Some (concat (map (matvec w) xs)) = Some (map (matvec w) xs)) as Hr.
    { intros w n Hw. apply each_row_id; [|by rewrite length_map]. apply Forall_map, Forall_true. intros x. by apply (matvec_length w d). }
    rewrite !Hr by done. cbn [fst snd]. split; [done|]. apply Forall_true. intros x. split_and!; by apply (matvec_length _ d).
Qed.
End Rows.

(** ** What the cache holds of a layer *)

(** Only one layer's keys and values differ. *)
Definition full_at (layer : nat) (kv kv' : KvCache) : Prop :=
  exists kb vb, kv' = set_full kv (kc_kv_dim kv) (<[layer := kb]> (kc_k_full kv)) (<[layer := vb]> (kc_v_full kv)).

Lemma full_at_trans layer kv1 kv2 kv3 : full_at layer kv1 kv2 -> full_at layer kv2 kv3 -> full_at layer kv1 kv3.
Proof. intros (k & v & ->) (k' & v' & ->). exists k', v'. cbn. by rewrite !list_insert_insert_eq. Qed.

Section Causal.
Context (expf sinf cosf : f32 -> f32) (powf : f32 -> f32 -> f32) (g : Gqa) (l : Layer) (rope : bool) (d win bsize layer : nat).
Context (W : wf_gqa g l rope d).
Local Set Default Proof Using "All".

(** The query, the key and the value of a token at a position. *)
Definition tok_qk (norm : list f32) (n pos : nat) (row : list f32) : list f32 :=
  default [] (norm_rope sinf cosf powf g (gq_hd g <? length (l_q_norm l)) (negb (length (l_q_norm l) =? 0)) rope norm n pos row).
Definition tok_q (pos : nat) (x : list f32) : list f32 := tok_qk (l_q_norm l) (gq_h g) pos (project_one g l x).1.1.
Definition tok_k (pos : nat) (x : list f32) : list f32 := tok_qk (l_k_norm l) (gq_kvh g) pos (project_one g l x).1.2.
Definition tok_v (x : list f32) : list f32 := (project_one g l x).2.

Record stored (kv : KvCache) (xs : list (list f32)) : Prop := {
  st_dim : kc_kv_dim kv = kv_width g;
  st_start : kc_kv_start kv !! layer = Some 0%Z;
  st_rows : exists kb vb, kc_k_full kv !! layer = Some kb /\ kc_v_full kv !! layer = Some vb /\
    length kb = kc_max_t kv * kv_width g /\ length vb = kc_max_t kv * kv_width g /\
    forall i x, xs !! i = Some x -> row_at (kv_width g) kb i = Some (tok_k i x) /\ row_at (kv_width g) vb i = Some (tok_v x)
}.

Lemma use_norm : negb (length (l_q_norm l) =? 0) = true -> l_q_norm l <> [].
Proof using. intros H E. by rewrite E in H. Qed.

Lemma tok_q_some pos x : length (project_one g l x).1.1 = q_width g ->
  norm_rope sinf cosf powf g (gq_hd g <? length (l_q_norm l)) (negb (length (l_q_norm l) =? 0)) rope (l_q_norm l) (gq_h g) pos (project_one g l x).1.1
    = Some (tok_q pos x) /\ length (tok_q pos x) = q_width g.
Proof.
  intros Hl. edestruct (norm_rope_total sinf cosf powf g (gq_hd g <? length (l_q_norm l)) (negb (length (l_q_norm l) =? 0)) rope (l_q_norm l) (gq_h g) pos)
    as (y & E & Hy); [exact Hl|apply (wg_rope _ _ _ _ W)| |].
  - intros Hn%use_norm. pose proof (wg_norm _ _ _ _ W Hn) as Hw. by destruct (gq_hd g <? length (l_q_norm l)), Hw.
  - unfold tok_q, tok_qk. by rewrite E.
Qed.

Lemma tok_k_some pos x : length (project_one g l x).1.2 = kv_width g ->
  norm_rope sinf cosf powf g (gq_hd g <? length (l_q_norm l)) (negb (length (l_q_norm l) =? 0)) rope (l_k_norm l) (gq_kvh g) pos (project_one g l x).1.2
    = Some (tok_k pos x) /\ length (tok_k pos x) = kv_width g.
Proof.
  intros Hl. edestruct (norm_rope_total sinf cosf powf g (gq_hd g <? length (l_q_norm l)) (negb (length (l_q_norm l) =? 0)) rope (l_k_norm l) (gq_kvh g) pos)
    as (y & E & Hy); [exact Hl|apply (wg_rope _ _ _ _ W)| |].
  - intros Hn%use_norm. pose proof (wg_norm _ _ _ _ W Hn) as Hw. by destruct (gq_hd g <? length (l_q_norm l)), Hw.
  - unfold tok_k, tok_qk. by rewrite E.
Qed.

Lemma store_kv_spec kv xs x : stored kv xs -> length (project_one g l x).1.2 = kv_width g -> length (project_one g l x).2 = kv_width g ->
  length xs < kc_max_t kv ->
  exists kv', store_kv kv layer (length xs) (tok_k (length xs) x) (tok_v x) = Some kv' /\ stored kv' (xs ++ [x]) /\ full_at layer kv kv'.
Proof.
  intros [Hd Hs (kb & vb & Hk & Hv & Lk & Lv & Hrows)] Hpk Hpv Hlt.
  destruct (tok_k_some (length xs) x Hpk) as [_ Hkl]. unfold store_kv, tok_v in *. rewrite Hd, Hkl, Hpv, !Nat.eqb_refl. cbn.
  unfold k_full_row_mut, v_full_row_mut, full_row_mut, update. cbn. rewrite Hk, Hd.
  rewrite range_some by nia. cbn. rewrite Hv. rewrite range_some by nia. cbn.
  eexists. split; [done|]. split; [|unfold full_at; rewrite Hd; by eexists _, _].
  split; cbn; [done|done|]. exists (blit kb (length xs * kv_width g) (tok_k (length xs) x)), (blit vb (length xs * kv_width g) (project_one g l x).2).
  split_and!.
  - apply list_lookup_insert_eq. by eapply lookup_lt_Some.
  - apply list_lookup_insert_eq. by eapply lookup_lt_Some.
  - rewrite blit_length; [done|nia].
  - rewrite blit_length; [done|nia].
  - intros i y Hi. rewrite !(row_blit (kv_width g) _ (kc_max_t kv)) by done.
    apply lookup_snoc_Some in Hi as [[Hi Hy]|[-> <-]].
    + case_decide; [lia|]. by apply Hrows.
    + case_decide; [done|lia].
Qed.

Lemma store_rows_spec ys : forall kv xs, stored kv xs -> length xs + length ys <= kc_max_t kv ->
  Forall (fun x => length (project_one g l x).1.1 = q_width g /\ length (project_one g l x).1.2 = kv_width g /\
                   length (project_one g l x).2 = kv_width g) ys ->
  exists kv', store_rows sinf cosf powf g l rope layer (length xs) kv (map (project_one g l) ys) =
      Some (kv', imap (fun i y => tok_q (length xs + i) y) ys) /\ stored kv' (xs ++ ys) /\ (ys = [] -> kv' = kv) /\ (ys <> [] -> full_at layer kv kv').
Proof.
  induction ys as [|y ys IH]; intros kv xs Hst Hlen Hys.
  { exists kv. rewrite app_nil_r. by split_and!. }
  apply Forall_cons in Hys as [(Lq & Lk & Lv) Hys]. cbn [map store_rows]. destruct (project_one g l y) as [[q k] v] eqn:Hp. cbn [fst snd] in Lq, Lk, Lv.
  destruct (tok_q_some (length xs) y) as [Eq _]; [by rewrite Hp|]. destruct (tok_k_some (length xs) y) as [Ek _]; [by rewrite Hp|].
  rewrite Hp in Eq, Ek. cbn [fst snd] in Eq, Ek. rewrite Eq, Ek. cbv beta iota.
  destruct (store_kv_spec kv xs y Hst) as (kv1 & E1 & Hst1 & Hf1); [by rewrite Hp|by rewrite Hp|simpl in Hlen; lia|].
  unfold tok_v in E1. rewrite Hp in E1. cbn [snd] in E1. rewrite E1.
  destruct (IH kv1 (xs ++ [y]) Hst1) as (kv2 & E2 & Hst2 & Hn & Hf2); [|done|].
  { rewrite length_app. cbn in *. destruct Hf1 as (? & ? & ->). cbn. lia. }
  rewrite length_app in E2. cbn [length] in E2. rewrite E2. exists kv2. split_and!.
  - do 2 f_equal. rewrite imap_cons. f_equal; [by rewrite Nat.add_0_r|]. apply imap_ext. intros i x _. cbn. f_equal. lia.
  - by rewrite <- app_assoc in Hst2.
  - done.
  - intros _. destruct ys as [|y' ys]; [by rewrite Hn|]. by eapply full_at_trans, Hf2.
Qed.

(** ** One row of the output *)

(** The output at the last token of a history. *)
Definition gqa_ctx (hist : list (list f32)) : option (list f32) :=
  let pos := length hist - 1 in
  let* x := last hist in
  let* heads := mapM (fun hh =>
    let* qvec := range (tok_q pos x) (hh * gq_hd g) (hh * gq_hd g + gq_hd g) in
    let* keys := keys_of win 0 (pos + 1) bsize None in
    attend expf g qvec (concat (imap tok_k hist)) (concat (map tok_v hist)) (hh / Nat.max (gq_h g / gq_kvh g) 1) 0 keys) (seq 0 (gq_h g)) in
  Some (concat heads).
Definition gqa_out (hist : list (list f32)) : list f32 := matvec (l_o l) (default [] (gqa_ctx hist)).

Definition fits (x : list f32) : Prop :=
  length (project_one g l x).1.1 = q_width g /\ length (project_one g l x).1.2 = kv_width g /\ length (project_one g l x).2 = kv_width g.

Lemma attend_length qvec krows vrows kvhh keys st0 n : length krows = n * kv_width g -> length vrows = n * kv_width g ->
  kvhh < gq_kvh g -> Forall (fun k => k - st0 < n) keys ->
  exists y, attend expf g qvec krows vrows kvhh st0 keys = Some y /\ length y = gq_hd g.
Proof.
  intros Lk Lv Hh Hkeys. unfold attend.
  assert (forall rows : list f32, length rows = n * kv_width g -> exists ks,
    mapM (fun key => range rows ((key - st0) * kv_width g + kvhh * gq_hd g) ((key - st0) * kv_width g + kvhh * gq_hd g + gq_hd g)) keys = Some ks /\
    Forall (fun k => length k = gq_hd g) ks /\ length ks = length keys) as Hr.
  { intros rows Lr. apply mapM_all. intros key Hk. rewrite Forall_forall in Hkeys. specialize (Hkeys key Hk).
    pose proof (Nat.mul_le_mono_r (kvhh + 1) (gq_kvh g) (gq_hd g) ltac:(lia)).
    pose proof (Nat.mul_le_mono_r (key - st0 + 1) n (kv_width g) ltac:(lia)). unfold kv_width in *.
    rewrite range_some by lia. eexists. split; [done|]. rewrite length_take, length_drop. lia. }
  destruct (Hr krows Lk) as (ks & -> & _). destruct (Hr vrows Lv) as (vs & -> & Hvs & _). eexists. split; [done|].
  set (ps := combine _ vs). assert (Forall (fun p => length p.2 = gq_hd g) ps) as Hps.
  { apply Forall_forall. intros [a b] Hin. apply list_elem_of_In in Hin. apply in_combine_r in Hin. rewrite Forall_forall in Hvs. apply Hvs. by apply list_elem_of_In. }
  clearbody ps. clear - Hps. assert (length (replicate (gq_hd g) f0) = gq_hd g) as H by apply length_replicate. revert H. generalize (replicate (gq_hd g) f0).
  induction Hps as [|[a b] ps Hp _ IH]; intros c Hc; [done|]. cbn. apply IH. unfold f32_zip. rewrite length_map, length_combine. cbn in Hp. lia.
Qed.

Lemma head_shared hh : hh < gq_h g -> hh / Nat.max (gq_h g / gq_kvh g) 1 < gq_kvh g.
Proof.
  destruct (wg_heads _ _ _ _ W) as (m & E & Hk). intros Hh. rewrite E, Nat.div_mul by lia.
  apply Nat.Div0.div_lt_upper_bound. rewrite E in Hh. destruct m; nia.
Qed.

Lemma hist_rows hist : Forall fits hist ->
  length (concat (imap tok_k hist)) = length hist * kv_width g /\ length (concat (map tok_v hist)) = length hist * kv_width g.
Proof.
  intros Hf. rewrite !(concat_len (kv_width g)), length_imap, length_map; [done| |].
  - apply Forall_map. eapply Forall_impl; [exact Hf|]. intros x (_ & _ & H). exact H.
  - apply Forall_forall. intros k Hk. apply elem_of_lookup_imap in Hk as (i & x & -> & Hi). rewrite Forall_lookup in Hf.
    apply tok_k_some. by apply (Hf i x).
Qed.

Lemma gqa_ctx_some hist : Forall fits hist -> hist <> [] ->
  exists ctx, gqa_ctx hist = Some ctx /\ length ctx = q_width g.
Proof.
  intros Hf Hne. destruct (hist_rows hist Hf) as [Lk Lv]. unfold gqa_ctx.
  destruct (last hist) as [x|] eqn:Hx; [|by apply last_None in Hx].
  assert (0 < length hist) as Hpos by (destruct hist; simpl; [done|lia]).
  destruct (tok_q_some (length hist - 1) x) as [_ Lq].
  { apply last_Some_elem_of in Hx. rewrite Forall_forall in Hf. by apply Hf. }
  set (f := fun hh : nat => _).
  assert (forall hh, hh < gq_h g -> exists y, f hh = Some y /\ length y = gq_hd g) as Hhead.
  { intros hh Hh. unfold f. rewrite range_some by (rewrite Lq; unfold q_width; nia). unfold keys_of.
    set (lo := if 0 <? win then _ else _). assert (lo <= length hist - 1 + 1) by (unfold lo; destruct (0 <? win); lia).
    destruct (Nat.ltb_spec (length hist - 1 + 1) lo); [lia|].
    eapply (attend_length _ _ _ _ _ 0 (length hist)); [exact Lk|exact Lv|by apply head_shared|].
    apply Forall_forall. intros k Hk%elem_of_seq. lia. }
  destruct (mapM_all f (fun y => length y = gq_hd g) (seq 0 (gq_h g))) as (heads & -> & Hhl & Hhn).
  { intros hh Hh%elem_of_seq. apply Hhead. lia. }
  eexists. split; [done|]. by rewrite (concat_len (gq_hd g)), Hhn, length_seq.
Qed.

Lemma gqa_out_length hist : length (gqa_out hist) = d.
Proof. apply (matvec_length _ (q_width g)), (wg_out _ _ _ _ W). Qed.

Lemma full_rows kv hist n : stored kv hist -> n <= length hist -> length hist <= kc_max_t kv ->
  k_full_rows kv layer 0 n = Some (concat (imap tok_k (take n hist))) /\
  v_full_rows kv layer 0 n = Some (concat (map tok_v (take n hist))).
Proof.
  intros [Hd _ (kb & vb & Hk & Hv & Lk & Lv & Hrows)] Hn Hm. unfold k_full_rows, v_full_rows. rewrite Hk, Hv, Hd.
  split.
  - pose proof (row_run (kv_width g) kb (imap tok_k (take n hist)) 0) as H. rewrite length_imap, length_take, Nat.min_l in H by done.
    apply H; [lia|]. intros i r Hi. rewrite list_lookup_imap in Hi. destruct (decide (i < n)).
    + rewrite lookup_take_lt in Hi by done. destruct (hist !! i) as [x|] eqn:Hx; [|done]. injection Hi as <-. by apply Hrows.
    + by rewrite lookup_take_ge in Hi by lia.
  - pose proof (row_run (kv_width g) vb (map tok_v (take n hist)) 0) as H. rewrite length_map, length_take, Nat.min_l in H by done.
    apply H; [lia|]. intros i r Hi. change (map ?f ?l) with (f <$> l) in Hi. rewrite list_lookup_fmap in Hi. destruct (decide (i < n)).
    + rewrite lookup_take_lt in Hi by done. destruct (hist !! i) as [x|] eqn:Hx; [|done]. injection Hi as <-. by apply Hrows.
    + by rewrite lookup_take_ge in Hi by lia.
Qed.

Lemma attend_row_hist kv hist n s s_len x : stored kv hist -> n < length hist -> length hist <= kc_max_t kv -> Forall fits hist ->
  hist !! n = Some x ->
  attend_row expf g kv layer win 0 bsize s s_len n None (tok_q n x) = gqa_ctx (take (n + 1) hist).
Proof.
  intros Hst Hn Hm Hf Hx. unfold attend_row, gqa_ctx, head_group. destruct (wg_heads _ _ _ _ W) as (_ & _ & Hkv).
  destruct (Nat.eqb_spec (gq_kvh g) 0); [lia|]. destruct (full_rows kv hist (n + 1) Hst ltac:(lia) Hm) as [-> ->].
  rewrite length_take, Nat.min_l by lia. rewrite (Nat.add_sub n 1).
  assert (last (take (n + 1) hist) = Some x) as ->; [|done].
  rewrite last_lookup, length_take, Nat.min_l by lia. replace (pred (n + 1)) with n by lia. by rewrite lookup_take_lt by lia.
Qed.

(** ** Any cache of the right shape *)

(** The layer's buffers have a row per position. *)
Definition shaped (kv : KvCache) : Prop :=
  kc_kv_dim kv = kv_width g /\ exists kb vb, kc_k_full kv !! layer = Some kb /\ kc_v_full kv !! layer = Some vb /\
    length kb = kc_max_t kv * kv_width g /\ length vb = kc_max_t kv * kv_width g.

Lemma stored_shaped kv hist : stored kv hist -> shaped kv.
Proof using. intros [Hd _ (kb & vb & Hk & Hv & Lk & Lv & _)]. split; [done|]. by exists kb, vb. Qed.

(** Only the layer's keys and values differ, in the same shape. *)
Definition refilled (kv kv' : KvCache) : Prop := full_at layer kv kv' /\ shaped kv'.

Lemma store_kv_shaped kv pos k v : shaped kv -> length k = kv_width g -> length v = kv_width g -> pos < kc_max_t kv ->
  exists kv', store_kv kv layer pos k v = Some kv' /\ refilled kv kv'.
Proof.
  intros (Hd & kb & vb & Hk & Hv & Lk & Lv) Hkl Hvl Hlt. unfold store_kv. rewrite Hd, Hkl, Hvl, !Nat.eqb_refl. cbn.
  unfold k_full_row_mut, v_full_row_mut, full_row_mut, update. cbn. rewrite Hk, Hd.
  rewrite range_some by nia. cbn. rewrite Hv. rewrite range_some by nia. cbn.
  eexists. split; [done|]. split; [unfold full_at; rewrite Hd; by eexists _, _|]. split; [done|]. cbn. eexists _, _. split_and!.
  - apply list_lookup_insert_eq. by eapply lookup_lt_Some.
  - apply list_lookup_insert_eq. by eapply lookup_lt_Some.
  - rewrite blit_length; [done|nia].
  - rewrite blit_length; [done|nia].
Qed.

Lemma store_rows_shaped ys : forall kv pos, shaped kv -> pos + length ys <= kc_max_t kv -> Forall fits ys ->
  exists kv' qs, store_rows sinf cosf powf g l rope layer pos kv (map (project_one g l) ys) = Some (kv', qs) /\
    length qs = length ys /\ Forall (fun q => length q = q_width g) qs /\ shaped kv' /\ (ys = [] -> kv' = kv) /\ (ys <> [] -> full_at layer kv kv').
Proof.
  induction ys as [|y ys IH]; intros kv pos Hst Hlen Hys; [by exists kv, []|].
  apply Forall_cons in Hys as [(Lq & Lk & Lv) Hys]. cbn [map store_rows]. destruct (project_one g l y) as [[q k] v] eqn:Hp. cbn [fst snd] in Lq, Lk, Lv.
  destruct (tok_q_some pos y) as [Eq Hq]; [by rewrite Hp|]. destruct (tok_k_some pos y) as [Ek Hk]; [by rewrite Hp|].
  rewrite Hp in Eq, Ek. cbn [fst snd] in Eq, Ek. rewrite Eq, Ek. cbv beta iota.
  destruct (store_kv_shaped kv pos (tok_k pos y) v Hst Hk Lv) as (kv1 & -> & Hf1 & Hst1); [simpl in Hlen; lia|].
  destruct (IH kv1 (pos + 1) Hst1) as (kv2 & qs & -> & Hl & Hqs & Hst2 & Hn & Hf2); [|done|].
  { destruct Hf1 as (? & ? & ->). cbn in *. lia. }
  exists kv2, (tok_q pos y :: qs). split_and!; [done|cbn; lia|by constructor|done|done|].
  intros _. destruct ys as [|y' ys]; [by rewrite Hn|]. by eapply full_at_trans, Hf2.
Qed.

Lemma attend_row_shaped kv st0 bsz s s_len pos q : shaped kv -> st0 <= pos -> pos < kc_max_t kv -> length q = q_width g ->
  exists y, attend_row expf g kv layer win st0 bsz s s_len pos None q = Some y /\ length y = q_width g.
Proof.
  intros (Hd & kb & vb & Hk & Hv & Lk & Lv) Hst Hpos Hq. unfold attend_row, head_group, k_full_rows, v_full_rows.
  destruct (wg_heads _ _ _ _ W) as (_ & _ & Hkv). destruct (Nat.eqb_spec (gq_kvh g) 0); [lia|]. rewrite Hk, Hv, Hd.
  pose proof (Nat.mul_le_mono_r (pos + 1) (kc_max_t kv) (kv_width g) ltac:(lia)).
  pose proof (Nat.mul_le_mono_r st0 (pos + 1) (kv_width g) ltac:(lia)). rewrite !range_some by lia.
  set (f := fun hh : nat => _).
  assert (forall hh, hh < gq_h g -> exists y, f hh = Some y /\ length y = gq_hd g) as Hhead.
  { intros hh Hh. unfold f. rewrite range_some by (rewrite Hq; unfold q_width; nia). unfold keys_of.
    set (lo := if 0 <? win then _ else _). assert (st0 <= lo <= pos + 1) by (unfold lo; destruct (0 <? win); lia).
    destruct (Nat.ltb_spec (pos + 1) lo); [lia|].
    eapply (attend_length _ _ _ _ _ st0 (pos + 1 - st0)); [..|by apply head_shared|].
    - rewrite length_take, length_drop. lia.
    - rewrite length_take, length_drop. lia.
    - apply Forall_forall. intros k Hk'%elem_of_seq. lia. }
  destruct (mapM_all f (fun y => length y = gq_hd g) (seq 0 (gq_h g))) as (heads & -> & Hhl & Hhn).
  { intros hh Hh%elem_of_seq. apply Hhead. lia. }
  eexists. split; [done|]. by rewrite (concat_len (gq_hd g)), Hhn, length_seq.
Qed.
End Causal.

(** ** The layer on a block of tokens *)

Section Layer.
Context (expf sinf cosf : f32 -> f32) (powf : f32 -> f32 -> f32) (c : Config) (l : Layer) (layer d : nat).

Abbreviation g := (gqa_of c).
Abbreviation rope := (is_gqa (arch c) && layer_uses_rope c layer).
Abbreviation win := (if layer_is_swa c layer then Z.to_nat (swa_window c) else 0).
Abbreviation bsize := (Nat.max (Z.to_nat (index_block_size c)) 1).
Definition layer_out : list (list f32) -> list f32 := gqa_out expf sinf cosf powf g l rope win bsize.
Definition layer_stored : KvCache -> list (list f32) -> Prop := stored sinf cosf powf g l rope layer.

Lemma combine_project (ys : list (list f32)) :
  combine (combine (map (fun x => (project_one g l x).1.1) ys) (map (fun x => (project_one g l x).1.2) ys))
    (map (fun x => (project_one g l x).2) ys) = map (project_one g l) ys.
Proof. induction ys as [|y ys IH]; [done|]. cbn [map combine]. rewrite IH. by destruct (project_one g l y) as [[q k] v]. Qed.

Lemma layer_fits rope' ys : wf_gqa g l rope' d -> Forall (fun x => length x = d) ys -> Forall (fits g l) ys.
Proof. intros W H. by apply (project_rows g l rope' d ys W H). Qed.

(** The block extends what the cache holds, and every token gets the output of
    its history, whatever the block it came in. *)
Lemma attention_gqa_spec kv xs ys : wf_gqa g l rope d -> layer_stored kv xs ->
  Forall (fun x => length x = d) xs -> Forall (fun x => length x = d) ys -> ys <> [] ->
  length xs + length ys <= kc_max_t kv ->
  exists kv', attention_gqa expf sinf cosf powf false c l layer kv (concat ys) (length ys) (length xs) (length ys * d) =
      Some (kv', concat (map (fun i => layer_out (xs ++ take (S i) ys)) (seq 0 (length ys)))) /\
    layer_stored kv' (xs ++ ys) /\ full_at layer kv kv'.
Proof.
  intros W Hst Hxs Hys Hne Hlen. unfold attention_gqa. pose proof (layer_fits _ _ W Hys) as Hfy. pose proof (layer_fits _ _ W Hxs) as Hfx.
  destruct (wg_heads _ _ _ _ W) as (_ & _ & Hkv). unfold head_group at 1. destruct (Nat.eqb_spec (gq_kvh g) 0) as [|_]; [lia|].
  destruct (project_rows g l rope d ys W Hys) as [-> _]. cbv beta iota.
  change (fst (?a, ?b)) with a. change (snd (?a, ?b)) with b. rewrite combine_project.
  destruct (store_rows_spec expf sinf cosf powf g l rope d win bsize layer W ys kv xs Hst Hlen Hfy) as (kv' & -> & Hst' & _ & Hfull).
  specialize (Hfull Hne). cbv beta iota. cbn [m3_block_select negb orb]. rewrite (st_start _ _ _ _ _ _ _ _ _ Hst'). cbv beta iota.
  set (hist := xs ++ ys) in *. assert (length hist <= kc_max_t kv') as Hm.
  { unfold hist. rewrite length_app. destruct Hfull as (? & ? & ->). cbn. lia. }
  assert (Forall (fits g l) hist) as Hfh by (by apply Forall_app).
  set (ctx_of i := default [] (gqa_ctx expf sinf cosf powf g l rope win bsize (xs ++ take (S i) ys))).
  assert (forall i, i < length ys -> gqa_ctx expf sinf cosf powf g l rope win bsize (xs ++ take (S i) ys) = Some (ctx_of i) /\
                                 length (ctx_of i) = q_width g) as Hctx.
  { intros i Hi. unfold ctx_of. destruct (gqa_ctx_some expf sinf cosf powf g l rope d win bsize layer W (xs ++ take (S i) ys)) as (ctx & -> & Hl); [| |done].
    - apply Forall_app. split; [done|by apply Forall_take].
    - destruct ys; [done|]. by destruct xs. }
  assert (mapM (fun '(s, q) => attend_row expf g kv' layer win (Z.to_nat 0) bsize s (length ys) (length xs + s) None q)
    (imap pair (imap (fun i y => tok_q sinf cosf powf g l rope (length xs + i) y) ys)) =
    Some (map ctx_of (seq 0 (length ys)))) as ->.
  { apply mapM_Some, Forall2_same_length_lookup_2; [by rewrite !length_imap, length_map, length_seq|].
    intros i sq y Hi Hy. rewrite !list_lookup_imap in Hi. destruct (ys !! i) as [x|] eqn:Hx; [|done]. injection Hi as <-.
    pose proof (lookup_lt_Some _ _ _ Hx) as Hil. change (map ctx_of ?k) with (ctx_of <$> k) in Hy.
    rewrite list_lookup_fmap, lookup_seq_lt in Hy by done. injection Hy as <-. cbn [fst snd].
    change (Z.to_nat 0) with 0. rewrite (attend_row_hist expf sinf cosf powf g l rope d win bsize layer W kv' hist (length xs + i) i (length ys) x Hst'); [|unfold hist; rewrite length_app; lia|done|done|].
    - unfold hist. rewrite take_app_ge by lia. replace (length xs + i + 1 - length xs) with (S i) by lia. by apply Hctx.
    - unfold hist. rewrite lookup_app_r by lia. by replace (length xs + i - length xs) with i by lia. }
  cbv beta iota.
  assert (matmul_qt (length ys * d) (concat (map ctx_of (seq 0 (length ys)))) (l_o l) (length ys) =
    Some (concat (map (fun i => layer_out (xs ++ take (S i) ys)) (seq 0 (length ys))))) as ->; [|by exists kv'].
  pose proof (matmul_qt_wf (l_o l) (q_width g) d (map ctx_of (seq 0 (length ys))) (wg_out _ _ _ _ W)) as Hmm.
  rewrite length_map, length_seq, map_map in Hmm. apply Hmm. apply Forall_map, Forall_forall. intros i Hi%elem_of_seq. apply Hctx. lia.
Qed.

Lemma layer_out_length hist : wf_gqa g l rope d -> length (layer_out hist) = d.
Proof. intros W. by apply (gqa_out_length _ _ _ _ _ _ _ _ _ _ layer). Qed.
(** On any cache of the right shape, from any start, the block gives rows. *)
Definition layer_shaped : KvCache -> Prop := shaped g layer.

Lemma attention_gqa_total kv ys pos st0 : wf_gqa g l rope d -> layer_shaped kv -> kc_kv_start kv !! layer = Some st0 -> (st0 <= Z.of_nat pos)%Z ->
  Forall (fun x => length x = d) ys -> ys <> [] -> pos + length ys <= kc_max_t kv ->
  exists kv' zs, attention_gqa expf sinf cosf powf false c l layer kv (concat ys) (length ys) pos (length ys * d) = Some (kv', concat zs) /\
    Forall (fun z => length z = d) zs /\ length zs = length ys /\ full_at layer kv kv' /\ layer_shaped kv'.
Proof.
  intros W Hsh Hst Hle Hys Hne Hlen. unfold attention_gqa. pose proof (layer_fits _ _ W Hys) as Hfy.
  destruct (wg_heads _ _ _ _ W) as (_ & _ & Hkv). unfold head_group at 1. destruct (Nat.eqb_spec (gq_kvh g) 0) as [|_]; [lia|].
  destruct (project_rows g l rope d ys W Hys) as [-> _]. cbv beta iota.
  change (fst (?a, ?b)) with a. change (snd (?a, ?b)) with b. rewrite combine_project.
  destruct (store_rows_shaped expf sinf cosf powf g l rope d win bsize layer W ys kv pos Hsh Hlen Hfy) as (kv' & qs & -> & Lqs & Hqs & Hsh' & _ & Hfull).
  specialize (Hfull Hne). cbv beta iota. cbn [m3_block_select negb orb].
  assert (kc_kv_start kv' !! layer = Some st0 /\ kc_max_t kv' = kc_max_t kv) as [-> Hm] by (destruct Hfull as (? & ? & ->); done). cbv beta iota.
  destruct (mapM_all (fun '(s, q) => attend_row expf g kv' layer win (Z.to_nat st0) bsize s (length ys) (pos + s) None q)
    (fun y => length y = q_width g) (imap pair qs)) as (ctx & -> & Hctx & Lctx).
  { intros [s q] Hin. apply elem_of_lookup_imap in Hin as (i & q' & [= -> ->] & Hi). pose proof (lookup_lt_Some _ _ _ Hi) as Hlt.
    rewrite Forall_lookup in Hqs. apply (attend_row_shaped expf sinf cosf powf g l rope d win bsize layer W); [done|lia|lia|by eapply Hqs]. }
  cbv beta iota. rewrite length_imap, Lqs in Lctx.
  pose proof (matmul_qt_wf (l_o l) (q_width g) d ctx (wg_out _ _ _ _ W) Hctx) as Hmm. rewrite Lctx in Hmm. rewrite Hmm.
  eexists _, _. split; [done|]. split_and!; [|by rewrite length_map|done|done].
  apply Forall_map, Forall_true. intros y. apply (matvec_length _ (q_width g)), (wg_out _ _ _ _ W).
Qed.
End Layer.
