(* ===== verification/Indexer.v ===== *)
(** * The lightning indexer ([crates/colibri-engine/src/dsa.rs])

    Scores of the past keys against a query, the choice of the best
    [index_topk] of them, and the selection of a whole block of tokens; the CPU
    code, to the bit.  The numbers [f32] are IEEE values; the sort's comparison is
    the one of the code, total on scores that are numbers. *)

From Stdlib Require Import ZifyBool ZifyNat SpecFloat.
From stdpp Require Import sorting.
From S2P Require Import Prelude Rows DType Math Linear.
Local Open Scope nat_scope.

(** ** Scores and choice *)

Definition eps_1e6 : f32 := f32_from_bits 0x358637BD.

Definition indexer_score (q_heads key head_w : list f32) (nh hd : nat) : option f32 :=
  let rs := f32_div f32_one (f32_sqrt (f32_of_nat hd)) in
  let wsc := f32_div f32_one (f32_sqrt (f32_of_nat nh)) in
  let* ds := mapM (fun h => let* qh := range q_heads (h * hd) ((h + 1) * hd) in let* w := head_w !! h in
                            Some (w, f32_mul (dot_f32 qh key) rs)) (seq 0 nh) in
  Some (f32_mul (foldl (fun a '(w, d0) => if SFltb f0 d0 then f32_add a (f32_mul w d0) else a) f0 ds) wsc).

(** The positions of at most [room] scores that pass a test, in order. *)
Definition positions (test : f32 -> bool) (room : nat) (scores : list f32) : list nat :=
  take room (map fst (filter (fun p => test p.2 = true) (imap pair scores))).

(** [select_topk].  With a NaN among the scores the comparison is not a total
    order and the sort promises nothing, a panic included: no answer. *)
Definition select_topk (scores : list f32) (index_topk : nat) : option (list nat) :=
  let nk := length scores in
  let keep := Nat.min nk index_topk in
  if keep =? nk then Some (seq 0 nk)
  else if negb (all_numbers scores) then None
  else
    let* thr := (if keep =? 0 then None else sort_by (fun a b => SFleb b a) scores !! (keep - 1)) in
    let above := positions (fun s => SFltb thr s) keep scores in
    let equal := positions (fun s => SFeqb s thr) (keep - length above) scores in
    Some (sort_by Nat.leb (above ++ equal)).

Definition is_dense (nk index_topk : nat) : bool := nk <=? index_topk.

(** What a call attends to: for every query, the positions, or none for all. *)
Abbreviation selection := (list (list nat)).

Record IndexerWeights := { iw_wk : QTensor; iw_knorm_w : list f32; iw_knorm_b : list f32; iw_wq : QTensor; iw_wp : QTensor }.

Section Indexer.
Context (sinf cosf : f32 -> f32) (powf : f32 -> f32 -> f32).

(** [rope_interleave] of [v[base..base + r]]. *)
Definition rope_at (v : list f32) (base r pos : nat) (theta : f32) : option (list f32) :=
  let* w := range v base (base + r) in
  let* w := rope_interleave sinf cosf powf w pos r theta in Some (blit v base w).

Definition indexer_key (w : IndexerWeights) (rope : nat) (theta : f32) (pos : nat) (k : list f32) : option (list f32) :=
  let* k := layernorm k (iw_knorm_w w) (iw_knorm_b w) eps_1e6 in rope_at k 0 rope pos theta.

Definition indexer_forward (w : IndexerWeights) (x q_lora : list f32) (s_len nh index_hd index_topk qk_rope : nat) (theta : f32)
    (pos_base : nat) : option selection :=
  let '(q_lora_dim, hid) := (cols_of (iw_wq w), cols_of (iw_wk w)) in
  let rope := Nat.min qk_rope index_hd in
  let* keys := matmul_qt (s_len * index_hd) x (iw_wk w) s_len in
  let* krows := each_row index_hd s_len Some keys in
  let* keys := mapM (fun '(s, k) => indexer_key w rope theta (pos_base + s) k) (imap pair krows) in
  let s0 := Nat.min (index_topk - pos_base) s_len in
  let nsp := s_len - s0 in
  let stride := nh * index_hd in
  let* (qs, hw) :=
    if nsp =? 0 then Some ([], [])
    else
      let* ql := range q_lora (s0 * q_lora_dim) (length q_lora) in
      let* xs := range x (s0 * hid) (length x) in
      let* qi := matmul_qt (nsp * stride) ql (iw_wq w) nsp in
      let* hw := matmul_qt (nsp * nh) xs (iw_wp w) nsp in
      let* qrows := each_row stride nsp Some qi in
      let* qs := mapM (fun '(si, q) =>
        foldl (fun q h => let* q := q in rope_at q (h * index_hd) rope (pos_base + s0 + si) theta) (Some q) (seq 0 nh)) (imap pair qrows) in
      let* hw := each_row nh nsp Some hw in Some (qs, hw) in
  mapM (fun s =>
    let nk := pos_base + s + 1 in
    if is_dense nk index_topk then Some []
    else
      let* qi := qs !! (s - s0) in
      let* h := hw !! (s - s0) in
      let* scores := mapM (fun t => let* kt := keys !! t in indexer_score qi kt h nh index_hd) (seq 0 nk) in
      select_topk scores index_topk) (seq 0 s_len).
End Indexer.

(** ** The choice of keys *)

Lemma SFleb_key x y : SFleb x y = true <-> is_nan x = false /\ is_nan y = false /\ ~ key_lt (key y) (key x).
Proof.
  destruct x as [sx|sx| |sx mx ex], y as [sy|sy| |sy my ey]; cbn; try (destruct sx); try (destruct sy); cbn;
    try (split; [done || (intros; repeat split; lia)|intros (? & ? & ?); done || lia]).
  all: try (destruct (Z.compare_spec ex ey)); try (subst; change (Pos.compare_cont Eq) with Pos.compare;
    destruct (Pos.compare_spec mx my)); cbn; split; (done || (intros; repeat split; lia) || (intros (? & ? & ?); done || lia)).
Qed.

Lemma SFeqb_key x y : SFeqb x y = true <-> is_nan x = false /\ is_nan y = false /\ key x = key y.
Proof.
  destruct x as [sx|sx| |sx mx ex], y as [sy|sy| |sy my ey]; cbn; try (destruct sx); try (destruct sy); cbn;
    try (split; [done || (intros; repeat split; done)|intros (? & ? & H); done || (injection H; lia)]).
  all: try (destruct (Z.compare_spec ex ey)); try (subst; change (Pos.compare_cont Eq) with Pos.compare;
    destruct (Pos.compare_spec mx my)); cbn; subst; split; (done || (intros; repeat split; by f_equal) || (intros (? & ? & H'); injection H'; lia)).
Qed.

Lemma key_total x y : ~ key_lt (key x) (key y) -> ~ key_lt (key y) (key x) -> key x = key y.
Proof.
  destruct (key x) as [[a b] e], (key y) as [[a' b'] e']. cbn. intros Hx Hy.
  assert (a = a' /\ b = b' /\ e = e')%Z as (-> & -> & ->); [|done]. lia.
Qed.

(** Where a test holds, in order. *)
Definition hits (test : f32 -> bool) (scores : list f32) : list nat := map fst (filter (fun p => test p.2 = true) (imap pair scores)).

Lemma hits_snoc test scores s : hits test (scores ++ [s]) = hits test scores ++ if test s then [length scores] else [].
Proof.
  unfold hits. rewrite imap_app, filter_app, map_app. f_equal. cbn. unfold filter, list_filter. cbn.
  destruct (test s) eqn:E; [rewrite decide_True by done|rewrite decide_False by congruence]; cbn; [by rewrite Nat.add_0_r|done].
Qed.

Lemma elem_of_hits test scores i : i ∈ hits test scores <-> exists s, scores !! i = Some s /\ test s = true.
Proof.
  unfold hits. rewrite list_elem_of_fmap. split.
  - intros ([j s] & -> & Hp). apply list_elem_of_filter in Hp as [Ht Hp]. apply lookup_pairs in Hp. by exists s.
  - intros (s & Hs & Ht). exists (i, s). split; [done|]. apply list_elem_of_filter. split; [done|]. apply elem_of_lookup_imap. by exists i, s.
Qed.

Lemma hits_sorted test scores : StronglySorted lt (hits test scores).
Proof.
  induction scores as [|s scores IH] using rev_ind; [constructor|]. rewrite hits_snoc. destruct (test s); [|by rewrite app_nil_r].
  assert (Forall (fun i => i < length scores) (hits test scores)) as H.
  { apply Forall_forall. intros i (x & Hx & _)%elem_of_hits. by eapply lookup_lt_Some. }
  induction IH as [|i l Hl IH Hi]; [repeat constructor|]. apply Forall_cons in H as [Hlt H]. cbn. constructor; [by apply IH|].
  apply Forall_app. split; [done|by repeat constructor].
Qed.

Lemma hits_length test scores : length (hits test scores) = length (filter (fun s => test s = true) scores).
Proof.
  induction scores as [|s scores IH] using rev_ind; [done|]. rewrite hits_snoc, filter_app, !length_app, IH. f_equal.
  unfold filter, list_filter. cbn. destruct (test s) eqn:E; [by rewrite decide_True by done|by rewrite decide_False by congruence].
Qed.

Lemma filter_both {A} (P Q : A -> Prop) `{!forall x, Decision (P x), !forall x, Decision (Q x)} l : (forall x, x ∈ l -> P x \/ Q x) ->
  length l <= length (filter P l) + length (filter Q l).
Proof.
  intros Hpq. induction l as [|x l IH]; [done|].
  assert (length l <= length (filter P l) + length (filter Q l)) as Hrec by (apply IH; intros; apply Hpq; by right).
  rewrite !filter_cons. destruct (Hpq x ltac:(by left)) as [Hx|Hx]; repeat case_decide; simpl; try done; lia.
Qed.

Section Threshold.
Context (scores : list f32) (keep : nat).
Hypothesis (Hnum : Forall (fun s => is_nan s = false) scores) (Hkeep : 0 < keep < length scores).
Local Set Default Proof Using "All".

Abbreviation ranked := (sort_by (fun a b => SFleb b a) scores).

Lemma ranked_desc : StronglySorted (fun a b => SFltb a b = false) ranked.
Proof.
  assert (Forall (fun s => is_nan s = false) ranked) as Hn by (by rewrite sort_by_perm).
  assert (forall (l : list f32), Forall (fun s => is_nan s = false) l -> StronglySorted (fun a b => SFltb a b = false) (sort_by (fun a b => SFleb b a) l)) as H; [|by apply H].
  clear Hn. induction 1 as [|x l Hx Hl IH]; [constructor|]. cbn [sort_by]. revert IH.
  assert (Forall (fun s => is_nan s = false) (sort_by (fun a b => SFleb b a) l)) as Hs by (by rewrite sort_by_perm). revert Hs.
  generalize (sort_by (fun a b => SFleb b a) l). clear Hl l. intros l Hl Hs. induction Hs as [|y l Hs IH Hy]; [repeat constructor|].
  apply Forall_cons in Hl as [Hyn Hl]. cbn [insert_by]. destruct (SFleb y x) eqn:E.
  - apply SFleb_key in E as (_ & _ & E). assert (SFltb x y = false) as Hxy by (apply not_true_is_false; rewrite SFltb_key; tauto).
    constructor; [by constructor|]. constructor; [done|]. rewrite Forall_forall in *. intros z Hz. specialize (Hy z Hz).
    destruct (SFltb x z) eqn:F; [|done]. destruct (SFltb_neg_trans x y z Hyn F) as [G|G]; congruence.
  - constructor; [by apply IH|]. apply Forall_forall. intros z Hz. rewrite insert_by_perm in Hz. apply elem_of_cons in Hz as [->|Hz].
    + destruct (SFltb y x) eqn:F; [|done]. exfalso. apply SFltb_key in F as (_ & _ & F). assert (SFleb y x = true); [|congruence].
      apply SFleb_key. split_and!; [done|done|]. destruct (key x) as [[??]?], (key y) as [[??]?]. cbn in *. lia.
    + rewrite Forall_forall in Hy. by apply Hy.
Qed.

(** The last score to be kept. *)
Lemma threshold : exists thr, ranked !! (keep - 1) = Some thr /\ is_nan thr = false /\
  length (hits (fun s => SFltb thr s) scores) < keep /\
  keep <= length (hits (fun s => SFltb thr s) scores) + length (hits (fun s => SFeqb s thr) scores).
Proof.
  assert (Forall (fun s => is_nan s = false) ranked) as Hn by (by rewrite sort_by_perm).
  destruct (lookup_lt_is_Some_2 ranked (keep - 1)) as [thr Ht]; [rewrite sort_by_length; lia|]. exists thr. split; [done|].
  assert (is_nan thr = false) as Htn by (rewrite Forall_lookup in Hn; by eapply Hn). split; [done|].
  pose proof ranked_desc as Hd. apply list_elem_of_split_length in Ht as (l1 & l2 & E & Hl1).
  rewrite !hits_length.
  assert (forall (P : f32 -> Prop) `{!forall x, Decision (P x)}, length (filter P scores) = length (filter P ranked)) as Hf.
  { intros P HP. apply Permutation_length. by rewrite sort_by_perm. }
  rewrite !Hf, E. rewrite E in Hd, Hn. clear Hf E. apply StronglySorted_app in Hd as (Hb & Hs1 & Hs2).
  apply StronglySorted_inv in Hs2 as [_ H2]. split.
  - rewrite filter_app, length_app. pose proof (length_filter (fun s => SFltb thr s = true) l1).
    assert (filter (fun s => SFltb thr s = true) (thr :: l2) = []) as ->; [|simpl; lia]. apply filter_none. constructor.
    + by rewrite SFltb_irrefl.
    + eapply Forall_impl; [exact H2|]. intros s Hs. cbv beta in Hs. congruence.
  - change (l1 ++ thr :: l2) with (l1 ++ [thr] ++ l2). rewrite app_assoc, !(filter_app _ (l1 ++ [thr])), !length_app.
    assert (length (l1 ++ [thr]) <= length (filter (fun s => SFltb thr s = true) (l1 ++ [thr])) + length (filter (fun s => SFeqb s thr = true) (l1 ++ [thr]))) as Hlen.
    { apply filter_both. intros s Hs. assert (is_nan s = false) as Hsn.
      { rewrite Forall_forall in Hn. apply Hn. apply elem_of_app in Hs as [Hs|Hs%list_elem_of_singleton]; apply elem_of_app; [by left|right; subst; left]. }
      assert (SFltb s thr = false) as Hst.
      { apply elem_of_app in Hs as [Hs|Hs%list_elem_of_singleton]; [|subst; apply SFltb_irrefl]. apply Hb; [done|left]. }
      destruct (SFltb thr s) eqn:F; [by left|right]. apply SFeqb_key. split_and!; [done|done|].
      apply not_true_iff_false in Hst, F. rewrite SFltb_key in Hst, F. apply key_total; tauto. }
    rewrite length_app in Hlen. cbn [length] in Hlen. lia.
Qed.
End Threshold.

Lemma positions_hits test room scores : positions test room scores = take room (hits test scores).
Proof. done. Qed.

Lemma hits_nodup test scores : NoDup (hits test scores).
Proof.
  pose proof (hits_sorted test scores) as Hs. induction Hs as [|i l Hs IH Hi]; constructor; [|done].
  intros Hin. rewrite Forall_forall in Hi. specialize (Hi _ Hin). lia.
Qed.

Lemma ltb_eqb_exclusive thr s : SFltb thr s = true -> SFeqb s thr = true -> False.
Proof. intros Hl (_ & _ & E)%SFeqb_key. apply SFltb_key in Hl as (_ & _ & Hl). rewrite E in Hl. destruct (key thr) as [[??]?]. cbn in Hl. lia. Qed.

(** Sorting positions without duplicates. *)
Lemma sort_leb_lt l : NoDup l -> StronglySorted lt (sort_by Nat.leb l).
Proof.
  intros Hn. assert (NoDup (sort_by Nat.leb l)) as Hn' by (by rewrite sort_by_perm).
  assert (StronglySorted (fun x y => (x <=? y) = true) (sort_by Nat.leb l)) as Hs by (apply sort_by_sorted; intros; lia).
  induction Hs as [|x k Hs IH Hx]; [constructor|]. apply NoDup_cons in Hn' as [Hx' Hn']. constructor; [by apply IH|].
  rewrite Forall_forall in *. intros y Hy. specialize (Hx y Hy). destruct (decide (x = y)) as [->|]; [done|]. lia.
Qed.

(** C14: the indexer's choice is the best [topk].  Of scores that are numbers,
    [select_topk] keeps exactly [min nk topk] positions, in increasing order and
    in range; every position kept has a larger score than every position left
    out, or the same score and an earlier position. *)
Theorem select_topk_correct scores topk : Forall (fun s => is_nan s = false) scores -> 0 < topk ->
  exists sel, select_topk scores topk = Some sel /\ length sel = Nat.min (length scores) topk /\ StronglySorted lt sel /\
    Forall (fun i => i < length scores) sel /\
    forall i j s t, i ∈ sel -> j ∉ sel -> scores !! i = Some s -> scores !! j = Some t ->
      SFltb t s = true \/ SFltb s t = false /\ i < j.
Proof.
  intros Hnum Hpos. unfold select_topk. set (nk := length scores). destruct (Nat.eqb_spec (Nat.min nk topk) nk) as [E|E].
  { exists (seq 0 nk). split; [done|]. split_and!.
    - by rewrite length_seq.
    - clear. generalize 0. induction nk as [|nk IH]; intros a; constructor; [done|]. apply Forall_forall. intros i Hi%elem_of_seq. lia.
    - apply Forall_forall. intros i Hi%elem_of_seq. lia.
    - intros i j s t _ Hj _ Ht%lookup_lt_Some. exfalso. apply Hj, elem_of_seq. unfold nk in *. lia. }
  rewrite (proj2 (all_numbers_iff scores) Hnum). cbn [negb].
  set (keep := Nat.min nk topk) in *. destruct (Nat.eqb_spec keep 0); [lia|].
  destruct (threshold scores keep Hnum ltac:(unfold nk in *; lia)) as (thr & -> & Hthr & Habove & Hboth).
  rewrite !positions_hits. set (A := hits (fun s => SFltb thr s) scores) in *. set (Q := hits (fun s => SFeqb s thr) scores) in *.
  rewrite (take_ge A) by lia. set (B := take (keep - length A) Q).
  assert (NoDup (A ++ B)) as Hnd.
  { apply NoDup_app. split_and!; [apply hits_nodup| |].
    - intros i Hi Hb. apply (subseteq_take _ Q) in Hb. apply elem_of_hits in Hi as (s & Hs & Hi), Hb as (s' & Hs' & Hb).
      rewrite Hs in Hs'. injection Hs' as <-. by eapply ltb_eqb_exclusive.
    - eapply sublist_NoDup; [apply (hits_nodup (fun s => SFeqb s thr) scores)|apply sublist_take]. }
  assert (forall i, i ∈ sort_by Nat.leb (A ++ B) <-> i ∈ A \/ i ∈ B) as Hmem by (intros i; by rewrite sort_by_perm, elem_of_app).
  exists (sort_by Nat.leb (A ++ B)). split; [done|]. split_and!.
  - rewrite sort_by_length, length_app. unfold B. rewrite length_take. lia.
  - by apply sort_leb_lt.
  - apply Forall_forall. intros i [Hi|Hi%(subseteq_take _ Q)]%Hmem; apply elem_of_hits in Hi as (s & Hs & _); by eapply lookup_lt_Some.
  - intros i j s t Hi Hj Hs Ht. rewrite Hmem in Hi, Hj. rewrite Forall_lookup in Hnum.
    assert (SFltb thr t = false) as Hjt.
    { destruct (SFltb thr t) eqn:F; [|done]. destruct Hj. left. apply elem_of_hits. eauto. }
    destruct Hi as [Hi|Hi].
    { apply elem_of_hits in Hi as (s' & Hs' & Hi). rewrite Hs in Hs'. injection Hs' as <-. left.
      destruct (SFltb_neg_trans thr t s (Hnum _ _ Ht) Hi); congruence. }
    pose proof Hi as Hi'. apply (subseteq_take _ Q), elem_of_hits in Hi as (s' & Hs' & Hi). rewrite Hs in Hs'. injection Hs' as <-.
    apply SFeqb_key in Hi as (Hsn & _ & Hk).
    assert (SFltb s t = false) as Hst.
    { apply not_true_is_false. apply not_true_iff_false in Hjt. rewrite SFltb_key in Hjt |- *. rewrite Hk. tauto. }
    destruct (SFltb t s) eqn:F; [by left|right]. split; [done|].
    assert (j ∈ Q) as HjQ.
    { apply elem_of_hits. exists t. split; [done|]. apply SFeqb_key. split_and!; [by eapply Hnum|done|].
      apply not_true_iff_false in Hst, F. rewrite SFltb_key in Hst, F. rewrite Hk in Hst, F. pose proof (Hnum _ _ Ht). cbv beta in *.
      apply key_total; tauto. }
    assert (j ∈ drop (keep - length A) Q) as Hd.
    { rewrite <- (take_drop (keep - length A) Q) in HjQ. apply elem_of_app in HjQ as [?|?]; [destruct Hj; by right|done]. }
    pose proof (hits_sorted (fun s => SFeqb s thr) scores) as Hsort. change (hits _ _) with Q in Hsort. rewrite <- (take_drop (keep - length A) Q) in Hsort.
    by eapply StronglySorted_app_cross.
Qed.

(** Ties at the threshold go to the earlier positions. *)
Lemma select_topk_correct_witness :
  Forall (fun s => is_nan s = false) [f0; f32_one; f0; f32_one; f0] /\ select_topk [f0; f32_one; f0; f32_one; f0] 3 = Some [0; 1; 3] /\
  exists sel, select_topk [f0; f32_one; f0; f32_one; f0] 3 = Some sel /\ length sel = Nat.min (length [f0; f32_one; f0; f32_one; f0]) 3 /\
    StronglySorted lt sel /\ Forall (fun i => i < length [f0; f32_one; f0; f32_one; f0]) sel /\
    forall i j s t, i ∈ sel -> j ∉ sel -> [f0; f32_one; f0; f32_one; f0] !! i = Some s -> [f0; f32_one; f0; f32_one; f0] !! j = Some t ->
      SFltb t s = true \/ SFltb s t = false /\ i < j.
Proof.
  assert (Forall (fun s => is_nan s = false) [f0; f32_one; f0; f32_one; f0]) as H by repeat constructor.
  split; [exact H|]. split; [by vm_compute|]. apply (select_topk_correct _ 3 H). lia.
Defined.

(** What is chosen exists. *)
Lemma select_topk_within scores topk sel : select_topk scores topk = Some sel -> Forall (fun i => i < length scores) sel.
Proof.
  unfold select_topk. destruct (Nat.eqb _ _).
  { intros [= <-]. apply Forall_forall. intros i Hi%elem_of_seq. lia. }
  destruct (all_numbers scores); cbn [negb]; [|done]. match goal with |- (match ?t with Some _ => _ | None => None end) = _ -> _ => destruct t as [thr|]; [|done] end. intros [= <-]. rewrite !positions_hits, sort_by_perm.
  assert (forall test k, Forall (fun i => i < length scores) (take k (hits test scores))) as H.
  { intros test k. apply Forall_take, Forall_forall. intros i (s & Hs & _)%elem_of_hits. by eapply lookup_lt_Some. }
  apply Forall_app. split; apply H.
Qed.

Lemma indexer_forward_within sinf cosf powf w x q s_len nh ihd topk rope theta sel :
  indexer_forward sinf cosf powf w x q s_len nh ihd topk rope theta 0 = Some sel ->
  length sel = s_len /\ Forall (Forall (fun t => t < s_len)) sel.
Proof.
  unfold indexer_forward. destruct (matmul_qt _ x _ _) as [ks|]; [|done]. destruct (each_row _ _ _ ks) as [krows|]; [|done].
  destruct (mapM _ (imap pair krows)) as [keys|]; [|done]. cbv beta iota zeta.
  match goal with |- (match ?t with Some _ => _ | None => None end) = _ -> _ => destruct t as [[qs hw]|]; [|done] end.
  intros E. pose proof (mapM_len _ _ _ E) as Hl. rewrite length_seq in Hl. split; [done|]. apply mapM_Some in E. apply Forall_lookup. intros i v Hv.
  destruct (Forall2_lookup_r _ _ _ _ _ E Hv) as (s & Hs & Hf). apply lookup_seq in Hs as [-> Hs].
  destruct (is_dense _ _); [by injection Hf as <-|]. destruct (qs !! _) as [qi|]; [|done]. destruct (hw !! _) as [h|]; [|done].
  destruct (mapM _ (seq 0 (0 + (0 + i) + 1))) as [scores|] eqn:Esc; [|done]. apply mapM_len in Esc. rewrite length_seq in Esc.
  apply select_topk_within in Hf. eapply Forall_impl; [exact Hf|]. intros t Ht. cbv beta in Ht. lia.
Qed.

(** ** The rotations keep the lengths *)

Lemma foldl_some {A B} (P : A -> Prop) (f : A -> B -> option A) (bs : list B) a :
  P a -> (forall a b, b ∈ bs -> P a -> exists a', f a b = Some a' /\ P a') ->
  exists a', foldl (fun acc b => let* a := acc in f a b) (Some a) bs = Some a' /\ P a'.
Proof.
  revert a. induction bs as [|b bs IH]; intros a Ha H; cbn [foldl]; [by exists a|].
  destruct (H a b ltac:(by left) Ha) as (a1 & -> & H1). apply IH; [done|]. intros a2 b2 Hb. apply H. by right.
Qed.

Section Turn.
Context (sinf cosf : f32 -> f32) (powf : f32 -> f32 -> f32).

Lemma rope_interleave_total v pos r theta : length v = r -> r <= 512 ->
  exists w, rope_interleave sinf cosf powf v pos r theta = Some w /\ length w = r.
Proof.
  intros Hl Hr. unfold rope_interleave. destruct (Nat.ltb_spec (length v) r); [lia|]. destruct (Nat.ltb_spec 512 r); [lia|]. cbn [orb].
  apply (foldl_some (fun w => length w = r)); [done|]. intros w j Hj%elem_of_seq Hw. pose proof (Nat.div_mod r 2 ltac:(lia)) as Hd.
  destruct (lookup_lt_is_Some_2 v (2 * j)) as [a ->]; [lia|]. destruct (lookup_lt_is_Some_2 v (2 * j + 1)) as [b ->]; [lia|].
  unfold rotate_pair. rewrite Hw, !(proj2 (Nat.ltb_lt _ _)) by lia. eexists. split; [done|]. by rewrite !length_insert.
Qed.

Lemma rope_at_total v base r pos theta : base + r <= length v -> r <= 512 ->
  exists w, rope_at sinf cosf powf v base r pos theta = Some w /\ length w = length v.
Proof.
  intros Hl Hr. unfold rope_at. rewrite range_some by lia.
  destruct (rope_interleave_total (take (base + r - base) (drop base v)) pos r theta) as (w & -> & Hw); [rewrite length_take, length_drop; lia|done|].
  eexists. split; [done|]. apply blit_length. lia.
Qed.

End Turn.
