(* ===== verification/Dsv4Num.v ===== *)
(** * DeepSeek-V4's rounding of activations ([crates/colibri-engine/src/dsv4.rs])

    The Walsh-Hadamard rotation, the FP8 and FP4 simulations that round a row as
    the model saw it rounded in training, and their block scale, a power of two.
    [powf], [log2] and [exp2] are the platform's, parameters; what is proved of
    the scale supposes [exp2] exact on the integers it is given.  [f32] here has
    one NaN: a zero that takes its sign from a NaN is taken positive. *)

From Stdlib Require Import ZifyBool ZifyNat SpecFloat.
From S2P Require Import Prelude Rows DType Math Quantize Indexer.
Local Open Scope nat_scope.

(** ** The rotation *)

Definition butterfly (h j : nat) (row : list f32) : option (list f32) :=
  let* a := row !! j in
  let* b := row !! (j + h) in
  Some (<[j + h := f32_sub a b]> (<[j := f32_add a b]> row)).
(** One level: the blocks of [2 h] in turn. *)
Definition wht_level (h blocks : nat) (row : list f32) : option (list f32) :=
  for_range (fun k row => for_range (butterfly h) (k * (2 * h)) h row) 0 blocks row.
Fixpoint wht_levels (fuel h n : nat) (row : list f32) : option (list f32) :=
  match fuel with
  | 0 => Some row
  | S fuel =>
      if h <? n then let* row := wht_level h ((n + 2 * h - 1) / (2 * h)) row in wht_levels fuel (2 * h) n row
      else Some row
  end.
Definition f32_minus_half : f32 := SFopp (f32_div f32_one f32_two).
Definition rotate_row (powf : f32 -> f32 -> f32) (n : nat) (row : list f32) : option (list f32) :=
  let* row := wht_levels n 1 n row in
  Some (map (fun v => f32_mul v (powf (f32_of_nat n) f32_minus_half)) row).
Definition hadamard_rotate (powf : f32 -> f32 -> f32) (x : list f32) (n : nat) : option (list f32) :=
  if n =? 0 then None
  else
    let* rows := mapM (fun i => rotate_row powf n (take n (drop (i * n) x))) (seq 0 (length x / n)) in
    Some (concat rows ++ drop (length x / n * n) x).

(** ** The scale of a block *)

Definition f32_to_bits (x : f32) : Z :=
  (match x with
   | S754_zero s => if s then 2 ^ 31 else 0
   | S754_infinity s => (if s then 2 ^ 31 else 0) + 2139095040
   | S754_nan => 2143289344
   | S754_finite s m e =>
       (if s then 2 ^ 31 else 0) + (if 8388608 <=? Zpos m then (e + 150) * 8388608 + (Zpos m - 8388608) else Zpos m)
   end)%Z.

Definition copysign (x v : f32) : f32 :=
  match v with
  | S754_zero true | S754_infinity true | S754_finite true _ _ => SFopp (SFabs x)
  | _ => SFabs x
  end.

Section Rounding.
Context (log2f exp2f : f32 -> f32).

Definition round_pow2_scale (amax fmt_max : f32) : f32 :=
  let bits := f32_to_bits (f32_div amax fmt_max) in
  let exp := (Z.land (Z.shiftr bits 23) 255 - 127)%Z in
  let man := Z.land bits 8388607 in
  exp2f (f32_of_Z (exp + (if man =? 0 then 0 else 1)))%Z.

(** ** FP8 *)

Definition f32_448 : f32 := f32_of_Z 448.
Definition e4m3_round (v : f32) : f32 :=
  if SFeqb v f0 || negb (is_finite v) then v
  else
    let a := SFabs v in
    if SFleb f32_448 a then copysign f32_448 v
    else
      let e := f32_max (f32_floor (log2f a)) (f32_of_Z (-6)) in
      let step := exp2f (f32_sub e (f32_of_Z 3)) in
      copysign (f32_min (f32_mul (f32_round_ties_even (f32_div a step)) step) f32_448) v.

(** [1e-4]. *)
Definition f32_1e_4 : f32 := f32_from_bits 0x38D1B717.

(** [chunks_mut(block)]: panics on zero; the last chunk may be short. *)
Fixpoint by_chunks (fuel block : nat) (f : list f32 -> list f32) (x : list f32) : list f32 :=
  match fuel, x with
  | S fuel, _ :: _ => f (take block x) ++ by_chunks fuel block f (drop block x)
  | _, _ => []
  end.
Definition chunks_mut (block : nat) (f : list f32 -> list f32) (x : list f32) : option (list f32) :=
  if block =? 0 then None else Some (by_chunks (length x) block f x).

Definition act_quant_block (grp : list f32) : list f32 :=
  let s := round_pow2_scale (f32_max (amax grp) f32_1e_4) f32_448 in
  map (fun v => f32_mul (e4m3_round (f32_div v s)) s) grp.
Definition act_quant_sim (x : list f32) (block : nat) : option (list f32) := chunks_mut block act_quant_block x.

(** ** FP4 *)

Definition E2M1_LEVELS : list f32 := map (fun n => f32_div (f32_of_Z n) f32_two) [0; 1; 2; 3; 4; 6; 8; 12]%Z.
Definition E2M1_EVEN (k : nat) : bool := Nat.even k.
Definition level (k : nat) : f32 := nth k E2M1_LEVELS f0.
Definition e2m1_step (a : f32) (best k : nat) : nat :=
  let dk := SFabs (f32_sub a (level k)) in
  let db := SFabs (f32_sub a (level best)) in
  if SFltb dk db || (SFeqb dk db && E2M1_EVEN k && negb (E2M1_EVEN best)) then k else best.
Definition f32_6 : f32 := f32_of_Z 6.
Definition e2m1_round (v : f32) : f32 :=
  let a := SFabs v in
  if SFleb f32_6 a then copysign f32_6 v
  else copysign (level (foldl (e2m1_step a) 0 (seq 1 (length E2M1_LEVELS - 1)))) v.

Definition fp4_block (grp : list f32) : list f32 :=
  let s := round_pow2_scale (f32_max (amax grp) (f32_mul f32_6 (exp2f (f32_of_Z (-126))))) f32_6 in
  map (fun v => f32_mul (e2m1_round (f32_clamp (f32_div v s) (SFopp f32_6) f32_6)) s) grp.
Definition fp4_act_quant_sim (x : list f32) (block : nat) : option (list f32) := chunks_mut block fp4_block x.
End Rounding.

(** ** Lengths *)

Lemma by_chunks_length block f : 0 < block -> (forall g, length (f g) = length g) -> forall fuel x,
  length x <= fuel -> length (by_chunks fuel block f x) = length x.
Proof.
  intros Hb Hf. induction fuel as [|fuel IH]; intros x Hl; [destruct x; simpl in *; lia|]. destruct x as [|a x]; [done|].
  cbn [by_chunks]. rewrite length_app, Hf, IH by (rewrite length_drop; simpl in *; lia). rewrite length_take, length_drop. lia.
Qed.

Lemma chunks_mut_some block f x : 0 < block -> (forall g, length (f g) = length g) ->
  exists y, chunks_mut block f x = Some y /\ length y = length x.
Proof.
  intros Hb Hf. unfold chunks_mut. destruct (Nat.eqb_spec block 0); [lia|]. eexists. split; [done|]. by apply by_chunks_length.
Qed.

Lemma act_quant_some log2f exp2f x : exists y, act_quant_sim log2f exp2f x 64 = Some y /\ length y = length x.
Proof. apply chunks_mut_some; [lia|]. intros g. unfold act_quant_block. by rewrite length_map. Qed.

Lemma fp4_some exp2f x : exists y, fp4_act_quant_sim exp2f x 32 = Some y /\ length y = length x.
Proof. apply chunks_mut_some; [lia|]. intros g. unfold fp4_block. by rewrite length_map. Qed.

(** ** The rotation is the transform *)

(** The transform of [2^k] values, by halves. *)
Fixpoint wht (k : nat) (row : list f32) : list f32 :=
  match k with
  | 0 => row
  | S k =>
      let a := wht k (take (2 ^ k) row) in
      let b := wht k (drop (2 ^ k) row) in
      f32_zip f32_add a b ++ f32_zip f32_sub a b
  end.

Lemma butterflies h x : forall y pre mid post, length y = length x -> length x + length mid = h ->
  for_range (butterfly h) (length pre) (length x) (pre ++ x ++ mid ++ y ++ post) =
  Some (pre ++ f32_zip f32_add x y ++ mid ++ f32_zip f32_sub x y ++ post).
Proof.
  induction x as [|a x IH]; intros [|b y] pre mid post Hy Hh; try done. cbn [length for_range app].
  unfold butterfly at 1. rewrite list_lookup_middle by done.
  assert (pre ++ a :: x ++ mid ++ b :: y ++ post = (pre ++ a :: x ++ mid) ++ b :: y ++ post) as Hs by (by rewrite <- !app_assoc; cbn; rewrite <- app_assoc).
  assert (length (pre ++ a :: x ++ mid) = length pre + h) as Hl by (rewrite length_app; cbn; rewrite length_app; simpl in Hh; lia).
  rewrite Hs at 1. rewrite list_lookup_middle by done. cbv beta iota.
  assert (<[length pre + h := f32_sub a b]> (<[length pre := f32_add a b]> (pre ++ a :: x ++ mid ++ b :: y ++ post)) =
    (pre ++ [f32_add a b]) ++ x ++ (mid ++ [f32_sub a b]) ++ y ++ post) as ->.
  { rewrite insert_app_r_alt, Nat.sub_diag by lia. cbn [list_insert insert]. 
    assert (pre ++ f32_add a b :: x ++ mid ++ b :: y ++ post = (pre ++ f32_add a b :: x ++ mid) ++ b :: y ++ post) as ->
      by (by rewrite <- !app_assoc; cbn; rewrite <- app_assoc).
    rewrite insert_app_r_alt by (rewrite length_app in *; cbn in *; lia). replace (length pre + h - _) with 0 by (rewrite length_app in *; cbn in *; lia).
    cbn. rewrite <- !app_assoc. cbn. by rewrite <- !app_assoc. }
  replace (length pre + 1) with (length (pre ++ [f32_add a b])) by (rewrite length_app; simpl; lia).
  rewrite IH by (rewrite ?length_app; simpl in *; lia). unfold f32_zip. cbn. rewrite <- !app_assoc. done.
Qed.

(** What a level makes of one block. *)
Definition level_block (h : nat) (b : list f32) : list f32 :=
  f32_zip f32_add (take h b) (drop h b) ++ f32_zip f32_sub (take h b) (drop h b).

Lemma level_block_length h b : length b = 2 * h -> length (level_block h b) = 2 * h.
Proof. intros Hb. unfold level_block, f32_zip. rewrite length_app, !length_map, !length_combine, length_take, length_drop. lia. Qed.

Lemma level_blocks h bs : forall pre q, length pre = q * (2 * h) -> Forall (fun b => length b = 2 * h) bs ->
  for_range (fun k row => for_range (butterfly h) (k * (2 * h)) h row) q (length bs) (pre ++ concat bs) =
  Some (pre ++ concat (map (level_block h) bs)).
Proof.
  induction bs as [|b bs IH]; intros pre q Hp Hb; [done|]. apply Forall_cons in Hb as [Hb Hbs]. cbn [length for_range concat map].
  assert (length (take h b) = h /\ length (drop h b) = h) as [Lt Ld] by (rewrite length_take, length_drop; lia).
  pose proof (butterflies h (take h b) (drop h b) pre [] (concat bs) ltac:(lia) ltac:(simpl; lia)) as Hbf.
  rewrite Lt in Hbf. cbn [app] in Hbf. rewrite (app_assoc (take h b)), take_drop in Hbf. rewrite <- Hp, Hbf. cbv beta iota.
  rewrite (app_assoc (f32_zip f32_add _ _)). fold (level_block h b). rewrite app_assoc, IH; [by rewrite <- app_assoc| |done].
  rewrite length_app, level_block_length by done. lia.
Qed.

(** A level on a whole row, and [j] levels from [h] on. *)
Definition lev (h : nat) (row : list f32) : list f32 := default [] (wht_level h (length row / (2 * h)) row).
Fixpoint levs (j h : nat) (row : list f32) : list f32 :=
  match j with 0 => row | S j => levs j (2 * h) (lev h row) end.

Lemma wht_level_blocks h bs : Forall (fun b => length b = 2 * h) bs ->
  wht_level h (length bs) (concat bs) = Some (concat (map (level_block h) bs)).
Proof. intros Hb. unfold wht_level. by rewrite <- (app_nil_l (concat bs)), level_blocks. Qed.

Lemma lev_blocks h bs : 0 < h -> Forall (fun b => length b = 2 * h) bs -> lev h (concat bs) = concat (map (level_block h) bs).
Proof. intros Hh Hb. unfold lev. rewrite (concat_len (2 * h)), Nat.div_mul by (done || lia). by rewrite wht_level_blocks. Qed.

Lemma row_blocks w q (row : list f32) : length row = q * w -> exists bs, row = concat bs /\ length bs = q /\ Forall (fun b => length b = w) bs.
Proof. intros Hl. destruct (split_rows w q row Hl) as (bs & H1 & H2 & H3). eauto. Qed.

Lemma lev_app h qa qb a b : 0 < h -> length a = qa * (2 * h) -> length b = qb * (2 * h) -> lev h (a ++ b) = lev h a ++ lev h b.
Proof.
  intros Hh Ha Hb. destruct (row_blocks _ _ a Ha) as (xs & -> & _ & Hx). destruct (row_blocks _ _ b Hb) as (ys & -> & _ & Hy).
  rewrite <- concat_app, !lev_blocks by (done || by apply Forall_app). by rewrite map_app, concat_app.
Qed.

Lemma lev_length h q row : 0 < h -> length row = q * (2 * h) -> length (lev h row) = length row.
Proof.
  intros Hh Hl. destruct (row_blocks _ _ row Hl) as (bs & -> & _ & Hb). rewrite lev_blocks by done.
  rewrite !(concat_len (2 * h)); [by rewrite length_map|done|]. apply Forall_map. eapply Forall_impl; [exact Hb|]. intros b. apply level_block_length.
Qed.

Lemma levs_length j : forall h q row, 0 < h -> length row = q * (2 ^ j * h) -> length (levs j h row) = length row.
Proof.
  induction j as [|j IH]; intros h q row Hh Hl; [done|]. cbn [levs Nat.pow] in *.
  assert (length (lev h row) = length row) as Hlev by (apply (lev_length h (q * 2 ^ j)); lia).
  rewrite (IH _ q); [done|lia|lia].
Qed.

Lemma levs_app j : forall h qa qb a b, 0 < h -> length a = qa * (2 ^ j * h) -> length b = qb * (2 ^ j * h) ->
  levs j h (a ++ b) = levs j h a ++ levs j h b.
Proof.
  induction j as [|j IH]; intros h qa qb a b Hh Ha Hb; [done|]. cbn [levs Nat.pow] in *.
  rewrite (lev_app h (qa * 2 ^ j) (qb * 2 ^ j)) by lia. apply (IH _ qa qb); [lia|rewrite (lev_length h (qa * 2 ^ j)); lia|rewrite (lev_length h (qb * 2 ^ j)); lia].
Qed.

Lemma levs_snoc j : forall h row, levs (S j) h row = lev (2 ^ j * h) (levs j h row).
Proof.
  induction j as [|j IH]; intros h row; [cbn; by rewrite Nat.add_0_r|]. cbn [levs] in *. rewrite IH. f_equal. cbn. lia.
Qed.

Lemma levs_wht k : forall row, length row = 2 ^ k -> levs k 1 row = wht k row.
Proof.
  induction k as [|k IH]; intros row Hl; [done|]. rewrite levs_snoc, Nat.mul_1_r. cbn [wht Nat.pow] in *.
  assert (exists a b, row = a ++ b /\ length a = 2 ^ k /\ length b = 2 ^ k) as (a & b & -> & La & Lb).
  { exists (take (2 ^ k) row), (drop (2 ^ k) row). rewrite take_drop, length_take, length_drop. split_and!; [done|lia|lia]. }
  rewrite (levs_app k 1 1 1) by lia.
  rewrite !IH by done. rewrite take_app_length', drop_app_length' by done.
  assert (length (wht k a) = 2 ^ k /\ length (wht k b) = 2 ^ k) as [Wa Wb].
  { rewrite <- !IH by done. rewrite !(levs_length k 1 1) by lia. done. }
  assert (0 < 2 ^ k) by (apply Nat.neq_0_lt_0, Nat.pow_nonzero; lia).
  assert (wht k a ++ wht k b = concat [wht k a ++ wht k b]) as -> by (cbn; by rewrite app_nil_r).
  rewrite lev_blocks by (done || (repeat constructor; rewrite length_app; lia)). cbn [map concat]. rewrite app_nil_r. unfold level_block.
  by rewrite take_app_length', drop_app_length' by done.
Qed.

Lemma wht_levels_levs k j : forall t fuel row, t + j = k -> j <= fuel -> length row = 2 ^ k ->
  wht_levels fuel (2 ^ t) (2 ^ k) row = Some (levs j (2 ^ t) row).
Proof.
  induction j as [|j IH]; intros t fuel row Ht Hf Hl.
  - rewrite Nat.add_0_r in Ht. subst t. destruct fuel; [done|]. cbn [wht_levels levs]. by rewrite Nat.ltb_irrefl.
  - destruct fuel as [|fuel]; [lia|]. cbn [wht_levels levs].
    assert (0 < 2 ^ t) by (apply Nat.neq_0_lt_0, Nat.pow_nonzero; lia).
    assert (2 ^ k = 2 ^ j * (2 * 2 ^ t)) as Hk by (rewrite <- Ht, Nat.pow_add_r; cbn; lia).
    rewrite (proj2 (Nat.ltb_lt _ _)) by (rewrite Hk; assert (0 < 2 ^ j) by (apply Nat.neq_0_lt_0, Nat.pow_nonzero; lia); nia).
    destruct (row_blocks (2 * 2 ^ t) (2 ^ j) row) as (bs & -> & Hbs & Hb); [lia|].
    assert ((2 ^ k + 2 * 2 ^ t - 1) / (2 * 2 ^ t) = length bs) as ->.
    { rewrite Hk, Hbs. replace (2 ^ j * (2 * 2 ^ t) + 2 * 2 ^ t - 1) with (2 * 2 ^ t - 1 + 2 ^ j * (2 * 2 ^ t)) by lia.
      rewrite Nat.div_add, Nat.div_small by lia. done. }
    rewrite wht_level_blocks by done. cbv beta iota. rewrite lev_blocks by done. change (2 * 2 ^ t) with (2 ^ S t). apply IH; [lia|lia|].
    rewrite (concat_len (2 * 2 ^ t)); [by rewrite length_map, Hbs|]. apply Forall_map. eapply Forall_impl; [exact Hb|]. intros b. apply level_block_length.
Qed.

Lemma pow2_pos k : 0 < 2 ^ k.
Proof. apply Nat.neq_0_lt_0, Nat.pow_nonzero. lia. Qed.

Lemma wht_length k row : length row = 2 ^ k -> length (wht k row) = 2 ^ k.
Proof. intros Hl. rewrite <- levs_wht by done. rewrite (levs_length k 1 1); lia. Qed.

Lemma rotate_row_wht powf k row : length row = 2 ^ k ->
  rotate_row powf (2 ^ k) row = Some (map (fun v => f32_mul v (powf (f32_of_nat (2 ^ k)) f32_minus_half)) (wht k row)).
Proof.
  intros Hl. unfold rotate_row.
  pose proof (wht_levels_levs k k 0 (2 ^ k) row ltac:(lia) ltac:(apply Nat.lt_le_incl, Nat.pow_gt_lin_r; lia) Hl) as Hw.
  change (2 ^ 0) with 1 in Hw. by rewrite Hw, levs_wht by done.
Qed.

Lemma hadamard_some powf k row : length row = 2 ^ k -> exists y, hadamard_rotate powf row (2 ^ k) = Some y /\ length y = 2 ^ k.
Proof.
  intros Hl. pose proof (pow2_pos k). unfold hadamard_rotate. destruct (Nat.eqb_spec (2 ^ k) 0); [lia|].
  rewrite Hl, Nat.div_same by lia. cbn [seq mapM]. rewrite Nat.mul_0_l, drop_0, take_ge by lia. rewrite rotate_row_wht by done.
  eexists. split; [done|]. cbn. rewrite !length_app, length_drop, length_map, wht_length by done. cbn. lia.
Qed.

(** C28: the in-place butterflies are the Walsh-Hadamard transform.  On a row of
    [2^k] values [hadamard_rotate] never reads out of range, and its result is
    the transform by halves (sums of the halves' transforms, then differences),
    every value scaled by the platform's [n^-0.5]: the same additions in the same
    order, so equal to the last bit. *)
Theorem hadamard_rotate_correct powf k row : length row = 2 ^ k ->
  hadamard_rotate powf row (2 ^ k) =
  Some (map (fun v => f32_mul v (powf (f32_of_nat (2 ^ k)) f32_minus_half)) (wht k row)).
Proof.
  intros Hl. pose proof (pow2_pos k). unfold hadamard_rotate. destruct (Nat.eqb_spec (2 ^ k) 0); [lia|].
  rewrite Hl, Nat.div_same by lia. cbn [seq mapM].
  rewrite Nat.mul_0_l, Nat.mul_1_l, drop_0, take_ge, drop_ge, rotate_row_wht by lia. cbn. by rewrite !app_nil_r.
Qed.

(** ** The scale is the least power of two that fits *)

Local Open Scope Z_scope.

(** C29: the scale of a block.  Where the [f32] quotient of the magnitude handed in
    by the format's maximum is a normal number [m 2^e], and with a platform whose
    [exp2] is exact on integers, [round_pow2_scale] is the least power of two not
    below that quotient, the [2^k] with [m 2^e <= 2^k < 2 m 2^e]: an exact power
    keeps its own exponent, everything else goes up to the next.  The magnitude is
    the block's largest after the caller's floor ([1e-4] for FP8, [6 2^-126] for
    FP4), which [act_quant_block] and [fp4_block] apply. *)
Theorem round_pow2_scale_least exp2f amax fmt_max m e :
  (forall k, -126 <= k <= 127 -> exp2f (f32_of_Z k) = S754_finite false 8388608 (k - 23)) ->
  f32_div amax fmt_max = S754_finite false m e -> 2 ^ 23 <= Zpos m < 2 ^ 24 -> -149 <= e <= 103 ->
  exists k, round_pow2_scale exp2f amax fmt_max = S754_finite false 8388608 (k - 23) /\
    Zpos m * 2 ^ (e + 149) <= 2 ^ (k + 149) /\ 2 ^ (k + 149) < 2 * (Zpos m * 2 ^ (e + 149)).
Proof.
  intros Hx Hd Hm He. unfold round_pow2_scale. rewrite Hd. cbn [f32_to_bits].
  rewrite (proj2 (Z.leb_le 8388608 (Zpos m))) by lia. rewrite Z.add_0_l.
  change 8388607 with (Z.ones 23). change 255 with (Z.ones 8). rewrite !Z.land_ones, Z.shiftr_div_pow2 by lia.
  change (2 ^ 23) with 8388608 in *. change (2 ^ 24) with 16777216 in *. change (2 ^ 8) with 256.
  replace (((e + 150) * 8388608 + (Zpos m - 8388608)) mod 8388608) with (Zpos m - 8388608)
    by (rewrite Z.add_comm, Z.mod_add by lia; symmetry; apply Z.mod_small; lia).
  replace (((e + 150) * 8388608 + (Zpos m - 8388608)) / 8388608) with (e + 150)
    by (rewrite Z.div_add_l, Z.div_small by lia; lia).
  rewrite Z.mod_small by lia.
  assert (0 < 2 ^ (e + 149)) as Hp by (apply Z.pow_pos_nonneg; lia).
  destruct (Z.eqb_spec (Zpos m - 8388608) 0) as [Hz|Hz].
  - exists (e + 23). replace (e + 150 - 127 + 0) with (e + 23) by lia. split; [apply Hx; lia|].
    replace (e + 23 + 149) with (e + 149 + 23) by lia. rewrite (Z.pow_add_r 2 (e + 149) 23) by lia. change (2 ^ 23) with 8388608. lia.
  - exists (e + 24). replace (e + 150 - 127 + 1) with (e + 24) by lia. split; [apply Hx; lia|].
    replace (e + 24 + 149) with (e + 149 + 24) by lia. rewrite (Z.pow_add_r 2 (e + 149) 24) by lia. change (2 ^ 24) with 16777216. nia.
Qed.

(** ** Witnesses *)

Definition exact_exp2 (x : f32) : f32 := S754_finite false 8388608 (f32_trunc x - 23).

Lemma round_pow2_scale_least_witness : exists k,
  round_pow2_scale exact_exp2 (f32_of_Z 3) f32_6 = S754_finite false 8388608 (k - 23) /\
    8388608 * 2 ^ (-24 + 149) <= 2 ^ (k + 149) /\ 2 ^ (k + 149) < 2 * (8388608 * 2 ^ (-24 + 149)).
Proof.
  apply (round_pow2_scale_least exact_exp2 (f32_of_Z 3) f32_6 8388608 (-24)); [|vm_compute; reflexivity|lia|lia].
  intros k Hk. assert (forallb (fun i => f32_trunc (f32_of_Z (Z.of_nat i - 126)) =? Z.of_nat i - 126) (seq 0 254) = true) as Hall by (vm_compute; reflexivity).
  rewrite forallb_forall in Hall. specialize (Hall (Z.to_nat (k + 126)) ltac:(apply in_seq; lia)). apply Z.eqb_eq in Hall.
  replace (Z.of_nat (Z.to_nat (k + 126)) - 126) with k in Hall by lia. unfold exact_exp2. by rewrite Hall.
Defined.

Lemma hadamard_rotate_correct_witness :
  hadamard_rotate (fun x _ => x) (map f32_of_Z [3; 1; 4; 1; 5; 9; 2; 6]) (2 ^ 3) =
  Some (map (fun v => f32_mul v (f32_of_nat (2 ^ 3))) (wht 3 (map f32_of_Z [3; 1; 4; 1; 5; 9; 2; 6]))).
Proof. apply (hadamard_rotate_correct (fun x _ => x) 3 (map f32_of_Z [3; 1; 4; 1; 5; 9; 2; 6])). reflexivity. Defined.
