(* ===== verification/Dsv4.v ===== *)
(** * DeepSeek-V4's compressor and key selection ([crates/colibri-engine/src/dsv4.rs])

    The functions of [dsv4.rs] that decide what a query attends to: pooling
    tokens into compressed rows in one call or token by token, and the list of
    key indices; the attention core over an explicit index list; and the norm
    and rotation a compressed row gets.  [f32] and [f64] arithmetic is that of
    [SpecFloat] at the code's precision and operation order; [exp] is the
    platform's, a parameter. *)

From Stdlib Require Import ZifyBool ZifyNat SpecFloat.
From S2P Require Import Prelude Rows DType Math KvCache.
Local Open Scope nat_scope.

(** [per_head_rms] on one head. *)
Definition per_head_rms_one (head : list f32) (eps : f32) : list f32 :=
  let ms := SFdiv 53 1024 (dot64 head head) (f64_of_nat (length head)) in
  let one := f64_of_nat 1 in
  let r := f32_of_f64 (SFdiv 53 1024 one (SFsqrt 53 1024 (SFadd 53 1024 ms (f64_of_f32 eps)))) in
  map (fun v => f32_mul v r) head.

Definition rope_interleaved (x cos sin : list f32) (rd : nat) (inverse : bool) : option (list f32) :=
  if length x <? rd then None
  else
    let off := length x - rd in
    for_range (fun k x =>
      let '(i, j) := (off + 2 * k, off + 2 * k + 1) in
      let* a := x !! i in let* b := x !! j in
      let* c := cos !! k in let* s := sin !! k in
      Some (if inverse
            then <[j := f32_add (f32_mul (SFopp a) s) (f32_mul b c)]> (<[i := f32_add (f32_mul a c) (f32_mul b s)]> x)
            else <[j := f32_add (f32_mul a s) (f32_mul b c)]> (<[i := f32_sub (f32_mul a c) (f32_mul b s)]> x)))
      0 (rd / 2) x.

(** ** Key indices *)

(** One row of [idxs], for the query at position [p]; a subtraction below
    zero wraps, as in a release build. *)
Definition key_row (win win_w topk n_raw raw_lo p : nat) (sel : list nat) : option (list Z) :=
  let wcount := Nat.min win (p + 1) in
  let wstart := p + 1 - wcount in
  let row := replicate topk (-1)%Z in
  let* row := copy_in row 0 (map (fun k => i32 (u64 (Z.of_nat (wstart + k) - Z.of_nat raw_lo))) (seq 0 wcount)) in
  copy_in row win_w (map (fun t => i32 (Z.of_nat (n_raw + t))) sel).

Definition key_indices (win total pos_base s raw_lo n_raw : nat) (sel : list (list nat)) : option (list Z * nat) :=
  let win_w := Nat.min win total in
  let comp_w := fold_left Nat.max (map length sel) 0 in
  let topk := win_w + comp_w in
  let* rows := mapM (fun i => let* v := sel !! i in key_row win win_w topk n_raw raw_lo (pos_base + i) v) (seq 0 s) in
  Some (concat rows, topk).

(** ** The compressor *)

Definition overlap_slot (t : list f32) (ratio d i r : nat) (out : list f32) : option (list f32) :=
  let src := (i * ratio + r) * 2 * d + d in
  let dst := (i * 2 * ratio + ratio + r) * d in
  let* x := range t src (src + d) in
  let* out := copy_in out dst x in
  if 0 <? i then
    let src := ((i - 1) * ratio + r) * 2 * d in
    let dst := (i * 2 * ratio + r) * d in
    let* x := range t src (src + d) in copy_in out dst x
  else Some out.
Definition overlap_transform (t : list f32) (nblk ratio d : nat) (fill : f32) : option (list f32) :=
  for_range (fun i => for_range (overlap_slot t ratio d i) 0 ratio) 0 nblk (replicate (nblk * 2 * ratio * d) fill).

(** One token's row [src] of the projections, at row [dst] of the value and
    score buffers; the score gets the position-within-window term. *)
Definition gate_row (w : nat) (scorep ape : list f32) (src slot : nat) : option (list f32) :=
  mapM (fun k => let* a := scorep !! (src * w + k) in let* b := ape !! (slot * w + k) in Some (f32_add a b)) (seq 0 w).
Definition absorb (w : nat) (kvp scorep ape : list f32) (src slot dst : nat) (bufs : list f32 * list f32)
    : option (list f32 * list f32) :=
  let* row := range kvp (src * w) (src * w + w) in
  let* kv := copy_in bufs.1 (dst * w) row in
  let* g := gate_row w scorep ape src slot in
  let* score := copy_in bufs.2 (dst * w) g in
  Some (kv, score).

Definition with_bufs (st : CompressorState) (bufs : list f32 * list f32) : CompressorState :=
  {| cs_kv := bufs.1; cs_score := bufs.2; cs_ratio := cs_ratio st; cs_coff := cs_coff st; cs_d := cs_d st |}.

(** [chunks_exact(d)]: panics on zero. *)
Definition chunks_exact (d : nat) (l : list f32) : option (list (list f32)) :=
  if d =? 0 then None else Some (map (fun i => take d (drop (i * d) l)) (seq 0 (length l / d))).

Section Compressor.
(** The platform's [exp]. *)
Context (expf : f32 -> f32).

(** Channel [k] of the window [b]: a softmax over the window's [win] slots. *)
Definition pool_channel (kv score : list f32) (win d b k : nat) : option f32 :=
  let* sc := mapM (fun w => score !! ((b * win + w) * d + k)) (seq 0 win) in
  let m := fold_left f32_max sc NEG_INFINITY in
  if negb (is_finite m) then Some f0
  else
    let* vs := mapM (fun w => kv !! ((b * win + w) * d + k)) (seq 0 win) in
    let '(den, acc) :=
      fold_left (fun '(den, acc) '(x, v) => let e := expf (f32_sub x m) in (f32_add den e, f32_add acc (f32_mul e v)))
                (combine sc vs) (f0, f0) in
    Some (f32_div acc den).
Definition gated_pool (kv score : list f32) (nblk win d : nat) : option (list f32) :=
  let* rows := mapM (fun b => mapM (pool_channel kv score win d b) (seq 0 d)) (seq 0 nblk) in Some (concat rows).

Definition compress_prefill (kvp scorep ape : list f32) (s ratio d : nat) (st : CompressorState)
    : option (CompressorState * list f32) :=
  if ratio =? 0 then None
  else
    let coff := if ratio =? 4 then 2 else 1 in
    let w := coff * d in
    let overlap := coff =? 2 in
    let remainder := s mod ratio in
    let cutoff := s - remainder in
    let offset := if overlap then ratio else 0 in
    let* bufs :=
      if overlap && (ratio <=? cutoff)
      then for_range (fun r => absorb w kvp scorep ape (cutoff - ratio + r) r r) 0 ratio (cs_kv st, cs_score st)
      else Some (cs_kv st, cs_score st) in
    let* bufs := for_range (fun r => absorb w kvp scorep ape (cutoff + r) r (offset + r)) 0 remainder bufs in
    let st := with_bufs st bufs in
    let nblk := cutoff / ratio in
    if nblk =? 0 then Some (st, [])
    else
      let zeros := replicate (nblk * ratio * w) f0 in
      let* (kvb, scb) :=
        for_range (fun b => for_range (fun r => absorb w kvp scorep ape (b * ratio + r) r (b * ratio + r)) 0 ratio)
                  0 nblk (zeros, zeros) in
      let* (kvb, scb) :=
        if overlap then
          let* kvb := overlap_transform kvb nblk ratio d f0 in
          let* scb := overlap_transform scb nblk ratio d NEG_INFINITY in Some (kvb, scb)
        else Some (kvb, scb) in
      let win := if overlap then 2 * ratio else ratio in
      let* out := gated_pool kvb scb nblk win d in
      Some (st, out).

(** The halves of a stored window that are pooled together. *)
Definition overlap_window (buf : list f32) (w ratio d : nat) : option (list f32) :=
  for_range (fun r win =>
    let* x := range buf (r * w) (r * w + d) in
    let* win := copy_in win (r * d) x in
    let src := (ratio + r) * w + d in
    let* x := range buf src (src + d) in
    copy_in win ((ratio + r) * d) x) 0 ratio (replicate (2 * ratio * d) f0).

(** [a.copy_from_slice(&b[..n])] after [split_at_mut(n)]. *)
Definition rotate (buf : list f32) (n : nat) : option (list f32) :=
  let* b := range buf n (n + n) in copy_in buf 0 b.

Definition compress_decode (kvp scorep ape : list f32) (pos : nat) (st : CompressorState)
    : option (CompressorState * option (list f32)) :=
  let '(ratio, coff, d) := (cs_ratio st, cs_coff st, cs_d st) in
  if ratio =? 0 then None
  else
    let w := coff * d in
    let overlap := coff =? 2 in
    let slot := pos mod ratio in
    let base := if overlap then ratio + slot else slot in
    let* bufs := absorb w kvp scorep ape 0 slot base (cs_kv st, cs_score st) in
    let st := with_bufs st bufs in
    if negb ((pos + 1) mod ratio =? 0) then Some (st, None)
    else
      let win := if overlap then 2 * ratio else ratio in
      let* (kvw, scw) :=
        if overlap then
          let* kvw := overlap_window (cs_kv st) w ratio d in
          let* scw := overlap_window (cs_score st) w ratio d in Some (kvw, scw)
        else
          let* kvw := range (cs_kv st) 0 (ratio * d) in
          let* scw := range (cs_score st) 0 (ratio * d) in Some (kvw, scw) in
      let* out := gated_pool kvw scw 1 win d in
      if overlap then
        let* kv := rotate (cs_kv st) (ratio * w) in
        let* score := rotate (cs_score st) (ratio * w) in
        Some (with_bufs st (kv, score), Some out)
      else Some (st, Some out).

(** The token loop of [dsv4_attention] for a call that is not the first. *)
Fixpoint decode_tokens (ckv csc ape : list f32) (cw pos_base i n : nat) (st : CompressorState)
    : option (CompressorState * list (list f32)) :=
  match n with
  | 0 => Some (st, [])
  | S n =>
      let* a := range ckv (i * cw) ((i + 1) * cw) in
      let* b := range csc (i * cw) ((i + 1) * cw) in
      let* (st, r) := compress_decode a b ape (pos_base + i) st in
      let* (st, rows) := decode_tokens ckv csc ape cw pos_base (i + 1) n st in
      Some (st, match r with Some r => r :: rows | None => rows end)
  end.

(** The rows one call emits. *)
Definition compress_rows (ckv csc ape : list f32) (cw s ratio d pos_base : nat) (st : CompressorState)
    : option (CompressorState * list (list f32)) :=
  if pos_base =? 0 then
    let* (st, out) := compress_prefill ckv csc ape s ratio d st in
    let* rows := chunks_exact d out in Some (st, rows)
  else decode_tokens ckv csc ape cw pos_base 0 s st.

(** ** The attention core *)

(** The score of key [t]; a masked key has none. *)
Definition key_score (qv kv : list f32) (hd : nat) (scale : f32) (t : Z) : option f32 :=
  if (t <? 0)%Z then Some NEG_INFINITY
  else
    let j := Z.to_nat t in
    let* kr := range kv (j * hd) ((j + 1) * hd) in
    Some (f32_mul (f32_of_f64 (dot64 qv kr)) scale).

(** One head of one query over its key list. *)
Definition attend_head (qv kv : list f32) (sink : f32) (hd : nat) (scale : f32) (sel : list Z) : option (list f32) :=
  let* scores := mapM (key_score qv kv hd scale) sel in
  let m := fold_left (fun m '(t, sc) => if (t <? 0)%Z then m else f32_max m sc) (combine sel scores) NEG_INFINITY in
  let weights := map (fun v => if is_finite v then expf (f32_sub v m) else f0) scores in
  let den := f32_add (fold_left f32_add weights f0) (expf (f32_sub sink m)) in
  let inv := f32_div f32_one den in
  fold_left (fun dst '(t, w) =>
    let* dst := dst in
    if SFeqb w f0 then Some dst
    else
      let j := Z.to_nat (u64 t) in
      let* vr := range kv (j * hd) ((j + 1) * hd) in
      Some (zip_with (fun o v => f32_add o (f32_mul (f32_mul w inv) v)) dst vr))
    (combine sel weights) (Some (replicate hd f0)).

Definition attention_dsv4_sparse (q kv attn_sink : list f32) (s h hd : nat) (idxs : list Z) (topk : nat) (scale : f32)
    : option (list (list (list f32))) :=
  mapM (fun i =>
    let* sel := range idxs (i * topk) ((i + 1) * topk) in
    mapM (fun hh =>
      let* qv := range q ((i * h + hh) * hd) ((i * h + hh) * hd + hd) in
      let* sink := attn_sink !! hh in
      attend_head qv kv sink hd scale sel) (seq 0 h)) (seq 0 s).
End Compressor.

(** ** Pooling, block by block *)

Section Pool.
Context (expf : f32 -> f32).

Lemma pool_channel_row kv score win d b k kb sb :
  row_at (win * d) kv b = Some kb -> row_at (win * d) score b = Some sb -> k < d ->
  pool_channel expf kv score win d b k = pool_channel expf kb sb win d 0 k.
Proof.
  intros Hk Hs Hd. unfold pool_channel.
  assert (forall (l r : list f32), row_at (win * d) l b = Some r ->
    mapM (fun w => l !! ((b * win + w) * d + k)) (seq 0 win) = mapM (fun w => r !! ((0 * win + w) * d + k)) (seq 0 win)) as H.
  { intros l r Hr. apply mapM_ext_in. intros w [_ Hw]%elem_of_seq.
    replace ((b * win + w) * d + k) with (b * (win * d) + (w * d + k)) by nia. by apply row_lookup; [|nia]. }
  by rewrite (H _ _ Hs), (H _ _ Hk).
Qed.

Lemma gated_pool_rows kv score nblk win d (kb sb : nat -> list f32) :
  (forall b, b < nblk -> row_at (win * d) kv b = Some (kb b)) ->
  (forall b, b < nblk -> row_at (win * d) score b = Some (sb b)) ->
  gated_pool expf kv score nblk win d =
    (let* rows := mapM (fun b => gated_pool expf (kb b) (sb b) 1 win d) (seq 0 nblk) in Some (concat rows)).
Proof.
  intros Hk Hs. unfold gated_pool at 1.
  rewrite (mapM_ext_in _ (fun b => gated_pool expf (kb b) (sb b) 1 win d)); [done|].
  intros b [_ Hb]%elem_of_seq. unfold gated_pool. simpl.
  rewrite (mapM_ext_in _ (pool_channel expf (kb b) (sb b) win d 0)).
  - destruct (mapM _ _); simpl; [by rewrite app_nil_r|done].
  - intros k [_ Hd]%elem_of_seq. apply pool_channel_row; [by apply Hk|by apply Hs|lia].
Qed.

Lemma gated_pool_one kb sb win d : length kb = win * d -> length sb = win * d ->
  exists row, gated_pool expf kb sb 1 win d = Some row /\ length row = d.
Proof.
  intros Hk Hs. unfold gated_pool. simpl.
  assert (forall (l : list f32) k, length l = win * d -> k < d -> is_Some (mapM (fun w => l !! (w * d + k)) (seq 0 win))) as H.
  { intros l k Hl Hd. apply mapM_total. intros w [_ Hw]%elem_of_seq. apply lookup_lt_is_Some. nia. }
  destruct (mapM_total (pool_channel expf kb sb win d 0) (seq 0 d)) as [row Hrow].
  { intros k [_ Hd]%elem_of_seq. unfold pool_channel. simpl. destruct (H sb k Hs Hd) as [? ->]. simpl.
    destruct (negb _); [done|]. destruct (H kb k Hk Hd) as [? ->]. simpl.
    by destruct (fold_left _ _ _) as [den acc]. }
  rewrite Hrow. simpl. exists row. rewrite app_nil_r. split; [done|]. apply mapM_len in Hrow. by rewrite length_seq in Hrow.
Qed.

Lemma chunks_exact_rows d rows : 0 < d -> Forall (fun r => length r = d) rows -> chunks_exact d (concat rows) = Some rows.
Proof.
  intros Hd H. unfold chunks_exact. rewrite (proj2 (Nat.eqb_neq d 0)) by lia. f_equal.
  assert (length (concat rows) = length rows * d) as Hl.
  { induction H as [|r rows Hr _ IH]; [done|]. simpl. rewrite length_app. lia. }
  rewrite Hl, Nat.div_mul by lia. apply list_eq. intros i.
  change (map ?f ?l) with (f <$> l). rewrite list_lookup_fmap.
  destruct (decide (i < length rows)) as [Hi|Hi].
  - rewrite lookup_seq_lt by done. cbn. symmetry. clear Hl. revert i Hi.
    induction H as [|r rows Hr _ IH]; intros i Hi; [simpl in Hi; lia|]. destruct i as [|i]; simpl.
    + by rewrite drop_0, take_app_length' by done.
    + rewrite IH by (simpl in Hi; lia). do 2 f_equal. rewrite drop_app_ge by lia. f_equal. lia.
  - rewrite lookup_seq_ge by lia. by rewrite lookup_ge_None_2 by lia.
Qed.
End Pool.

(** ** Index arithmetic *)

Lemma pair_inj n a c a' c' : c < n -> c' < n -> a * n + c = a' * n + c' -> a = a' /\ c = c'.
Proof.
  intros H1 H2 E. assert (~ (a + 1 <= a')) by (intros ?%(Nat.mul_le_mono_r _ _ n); lia).
  assert (~ (a' + 1 <= a)) by (intros ?%(Nat.mul_le_mono_r _ _ n); lia).
  assert (a = a') as -> by lia. lia.
Qed.

Lemma mod_close t n : 0 < n -> (t + 1) mod n = 0 -> t mod n = n - 1 /\ t - t mod n = t / n * n /\ (t + 1) / n = t / n + 1.
Proof.
  intros Hn H. pose proof (Nat.div_mod_eq t n) as E. pose proof (Nat.mod_upper_bound t n ltac:(lia)) as Hb.
  pose proof (Nat.div_mod_eq (t + 1) n) as E1. rewrite H in E1.
  destruct (pair_inj n ((t + 1) / n - 1) (n - 1) (t / n) (t mod n)) as [E2 E3]; try lia.
  assert (1 <= (t + 1) / n) by (destruct ((t + 1) / n); lia). nia.
Qed.

Lemma mod_open t n : 0 < n -> (t + 1) mod n <> 0 ->
  (t + 1) mod n = t mod n + 1 /\ (t + 1) / n = t / n /\ (t < n <-> t + 1 < n).
Proof.
  intros Hn H. pose proof (Nat.div_mod_eq t n) as E. pose proof (Nat.mod_upper_bound t n ltac:(lia)) as Hb.
  pose proof (Nat.div_mod_eq (t + 1) n) as E1. pose proof (Nat.mod_upper_bound (t + 1) n ltac:(lia)) as Hb1.
  assert (t mod n + 1 <> n).
  { intros E2. apply H. replace (t + 1) with ((t / n + 1) * n) by lia. apply Nat.Div0.mod_mul. }
  destruct (pair_inj n ((t + 1) / n) ((t + 1) mod n) (t / n) (t mod n + 1)) as [E2 E3]; try lia.
  split_and!; try lia. split; [|lia]. intros. destruct (decide (t + 1 = n)) as [e|]; [|lia].
  rewrite e, Nat.Div0.mod_same in H. done.
Qed.

Section Overlap.
Context (ratio d : nat) (fill : f32).
Implicit Types (f : nat -> list f32).

(** Row [c] of the overlapping ([h] = 0) or the normal half of window [b]. *)
Definition half_row f (b h c : nat) : list f32 :=
  if h =? 0 then if b =? 0 then replicate d fill else take d (f ((b - 1) * ratio + c)) else drop d (f (b * ratio + c)).
Definition halves f (b : nat) : list (list f32) := map (half_row f b 0) (seq 0 ratio) ++ map (half_row f b 1) (seq 0 ratio).

Lemma halves_lookup f b q r : halves f b !! q = Some r ->
  exists h c, h < 2 /\ c < ratio /\ q = h * ratio + c /\ r = half_row f b h c.
Proof.
  unfold halves. change (map ?g ?l) with (g <$> l). intros [H|[Hq H]]%lookup_app_Some.
  - rewrite list_lookup_fmap in H. destruct (seq 0 ratio !! q) as [c|] eqn:E; [|done]. injection H as <-.
    apply lookup_seq in E as [-> ?]. exists 0, (0 + q). split_and!; try done; lia.
  - rewrite list_lookup_fmap, length_fmap, length_seq in *. destruct (seq 0 ratio !! (q - ratio)) as [c|] eqn:E; [|done].
    injection H as <-. apply lookup_seq in E as [-> ?]. exists 1, (0 + (q - ratio)). split_and!; try done; lia.
Qed.

Lemma halves_length f b : length (halves f b) = 2 * ratio.
Proof. unfold halves. rewrite length_app, !length_map, !length_seq. lia. Qed.

Lemma half_row_pos nblk i h c : i < nblk -> h < 2 -> c < ratio -> (2 * i + h) * ratio + c < nblk * 2 * ratio.
Proof using.
  intros Hi Hh Hc. assert ((2 * i + h + 1) * ratio <= nblk * 2 * ratio) by (apply Nat.mul_le_mono_r; lia). lia.
Qed.

(** The output after the first [i] windows and [j] slots of the next. *)
Definition partly nblk f (i j : nat) (out : list f32) : Prop :=
  length out = nblk * 2 * ratio * d /\
  forall b h c, b < nblk -> h < 2 -> c < ratio -> row_at d out ((2 * b + h) * ratio + c) =
    Some (if decide (b < i \/ b = i /\ c < j) then half_row f b h c else replicate d fill).

(** One row written where it belongs. *)
Lemma half_row_write nblk (out : list f32) i h j (x : list f32) b h' c :
  length out = nblk * 2 * ratio * d -> i < nblk -> h < 2 -> j < ratio -> length x = d -> h' < 2 -> c < ratio ->
  row_at d (blit out (((2 * i + h) * ratio + j) * d) x) ((2 * b + h') * ratio + c) =
    if decide (b = i /\ h' = h /\ c = j) then Some x else row_at d out ((2 * b + h') * ratio + c).
Proof using.
  intros Hl Hi Hh Hj Hx Hh' Hc. pose proof (half_row_pos nblk i h j Hi Hh Hj).
  rewrite (row_blit d _ (nblk * 2 * ratio)) by done. case_decide as E.
  - apply pair_inj in E as [E ->]; [|done..]. by rewrite decide_True by lia.
  - case_decide as E2; [|done]. destruct E2 as (-> & -> & ->). done.
Qed.

Lemma half_row_write_len nblk (out : list f32) i h j (x : list f32) :
  length out = nblk * 2 * ratio * d -> i < nblk -> h < 2 -> j < ratio -> length x = d ->
  ((2 * i + h) * ratio + j) * d + length x <= length out.
Proof using.
  intros -> Hi Hh Hj ->. pose proof (half_row_pos nblk i h j Hi Hh Hj).
  transitivity (((2 * i + h) * ratio + j + 1) * d); [lia|]. apply Nat.mul_le_mono_r. lia.
Qed.

Section Transform.
Context (t : list f32) (nblk : nat) (f : nat -> list f32).
Context (Ht : forall j, j < nblk * ratio -> row_at (2 * d) t j = Some (f j)).

Lemma source_halves i c : i < nblk -> c < ratio ->
  range t ((i * ratio + c) * 2 * d) ((i * ratio + c) * 2 * d + d) = Some (take d (f (i * ratio + c))) /\
  range t ((i * ratio + c) * 2 * d + d) ((i * ratio + c) * 2 * d + d + d) = Some (drop d (f (i * ratio + c))) /\
  length (take d (f (i * ratio + c))) = d /\ length (drop d (f (i * ratio + c))) = d.
Proof using Ht.
  intros Hi Hc. assert (i * ratio + c < nblk * ratio) as Hj.
  { assert ((i + 1) * ratio <= nblk * ratio) by (apply Nat.mul_le_mono_r; lia). lia. }
  set (j := i * ratio + c) in *. destruct (half_rows d t j (f j) (Ht j Hj)) as [H0 H1].
  pose proof (row_at_length _ _ _ _ H0). pose proof (row_at_length _ _ _ _ H1). unfold row_at in *.
  replace (j * 2 * d) with (2 * j * d) by lia. replace (2 * j * d + d) with ((2 * j + 1) * d) by lia.
  replace ((2 * j + 1) * d + d) with ((2 * j + 1 + 1) * d) by lia. done.
Qed.

Lemma overlap_slot_ok i j out : partly nblk f i j out -> i < nblk -> j < ratio ->
  exists out', overlap_slot t ratio d i j out = Some out' /\ partly nblk f i (j + 1) out'.
Proof using Ht.
  intros [Hl Hr] Hi Hj. destruct (source_halves i j Hi Hj) as (_ & H1 & _ & L1).
  unfold overlap_slot. rewrite H1. cbv beta iota.
  replace (i * 2 * ratio + ratio + j) with ((2 * i + 1) * ratio + j) by lia.
  replace (i * 2 * ratio + j) with ((2 * i + 0) * ratio + j) by lia.
  pose proof (half_row_write_len nblk out i 1 j _ Hl Hi ltac:(lia) Hj L1) as W1. rewrite copy_in_some by done. cbv beta iota.
  assert (length (blit out (((2 * i + 1) * ratio + j) * d) (drop d (f (i * ratio + j)))) = nblk * 2 * ratio * d) as Hl1.
  { by rewrite blit_length. }
  destruct (Nat.ltb_spec 0 i) as [Hi0|Hi0].
  - destruct (source_halves (i - 1) j ltac:(lia) Hj) as (H0 & _ & L0 & _). rewrite H0. cbv beta iota.
    pose proof (half_row_write_len nblk _ i 0 j _ Hl1 Hi ltac:(lia) Hj L0) as W0. rewrite copy_in_some by done.
    eexists. split; [done|]. split; [by rewrite blit_length|]. intros b h c Hb Hh Hc.
    rewrite (half_row_write nblk) by (try done; lia). rewrite (half_row_write nblk) by (try done; lia). rewrite Hr by done.
    destruct (decide (b = i /\ c = j)) as [[-> ->]|Hbc].
    + rewrite (decide_True (P := i < i \/ i = i /\ j < j + 1)) by lia. unfold half_row.
      assert (h = 0 \/ h = 1) as [->| ->] by lia; simpl.
      * rewrite decide_True by done. by destruct (Nat.eqb_spec i 0); [lia|].
      * rewrite decide_False by lia. by rewrite decide_True by done.
    + rewrite !(decide_False (P := b = i /\ _ /\ c = j)) by tauto. f_equal. repeat case_decide; done || lia.
  - eexists. split; [done|]. split; [done|]. intros b h c Hb Hh Hc.
    rewrite (half_row_write nblk) by (try done; lia). rewrite Hr by done. assert (i = 0) as -> by lia.
    destruct (decide (b = 0 /\ c = j)) as [[-> ->]|Hbc].
    + rewrite (decide_True (P := 0 < 0 \/ 0 = 0 /\ j < j + 1)) by lia. unfold half_row.
      assert (h = 0 \/ h = 1) as [->| ->] by lia; simpl.
      * rewrite !decide_False by lia. done.
      * by rewrite decide_True by done.
    + rewrite !(decide_False (P := b = 0 /\ _ /\ c = j)) by tauto. f_equal. repeat case_decide; done || lia.
Qed.

(** Every pooled window of the transform is the two halves it should be. *)
Lemma overlap_transform_rows : exists out, overlap_transform t nblk ratio d fill = Some out /\
  length out = nblk * (2 * ratio * d) /\
  forall b, b < nblk -> row_at (2 * ratio * d) out b = Some (concat (halves f b)).
Proof using Ht.
  destruct (for_range_ind (fun i out => partly nblk f i 0 out) (fun i => for_range (overlap_slot t ratio d i) 0 ratio)
    nblk 0 (replicate (nblk * 2 * ratio * d) fill)) as (out & E & [Hl Hr]).
  - split; [apply length_replicate|]. intros b h c Hb Hh Hc.
    rewrite row_at_replicate by (by apply half_row_pos). by rewrite decide_False by lia.
  - intros i out Hi HP.
    destruct (for_range_ind (partly nblk f i) (overlap_slot t ratio d i) ratio 0 out HP) as (out' & E & [Hl Hr]).
    + intros j out1 Hj HP1. apply overlap_slot_ok; try done; lia.
    + exists out'. split; [done|]. split; [done|]. intros b h c Hb Hh Hc. rewrite Hr by done. f_equal.
      repeat case_decide; done || lia.
  - exists out. split; [exact E|]. split; [lia|]. intros b Hb. unfold row_at.
    replace (b * (2 * ratio * d)) with ((b * 2 * ratio) * d) by lia.
    replace ((b + 1) * (2 * ratio * d)) with ((b * 2 * ratio + length (halves f b)) * d) by (rewrite halves_length; lia).
    apply row_run; [rewrite Hl; apply Nat.mul_le_mono_r; nia|]. intros q r (h & c & Hh & Hc & -> & ->)%halves_lookup.
    replace (b * 2 * ratio + (h * ratio + c)) with ((2 * b + h) * ratio + c) by lia. rewrite Hr by done.
    by rewrite decide_True by lia.
Qed.
End Transform.
End Overlap.

(** ** The reference: block [b] pools tokens, whatever calls brought them *)

Section Stream.
(** A layer's compressor, and the projected rows of all its tokens. *)
Context (ratio d : nat) (ape : list f32) (T : list (list f32 * list f32)).

Definition width : nat := (if ratio =? 4 then 2 else 1) * d.
Definition win : nat := if ratio =? 4 then 2 * ratio else ratio.
Definition tok_kv (t : nat) : list f32 := default [] (fst <$> T !! t).
Definition tok_gate (t : nat) : list f32 :=
  zip_with f32_add (default [] (snd <$> T !! t)) (take width (drop (t mod ratio * width) ape)).

(** The window of block [b]: its tokens, and at ratio 4 the half rows of the
    block before it, which block 0 does not have. *)
Definition window (fill : f32) (f : nat -> list f32) (b : nat) : list (list f32) :=
  if ratio =? 4
  then map (fun r => if b =? 0 then replicate d fill else take d (f ((b - 1) * ratio + r))) (seq 0 ratio) ++
       map (fun r => drop d (f (b * ratio + r))) (seq 0 ratio)
  else map (fun r => f (b * ratio + r)) (seq 0 ratio).
Definition block (expf : f32 -> f32) (b : nat) : option (list f32) :=
  gated_pool expf (concat (window f0 tok_kv b)) (concat (window NEG_INFINITY tok_gate b)) 1 win d.

Definition well_formed : Prop :=
  0 < ratio /\ 0 < d /\ length ape = ratio * width /\
  Forall (fun x => length x.1 = width /\ length x.2 = width) T.

(** The projections of the [s] tokens from [a] on, as the code has them. *)
Definition proj (f : list f32 * list f32 -> list f32) (a s : nat) : list f32 := concat (map f (take s (drop a T))).

(** ** What the state holds after [t] tokens *)

(** One of the two buffers: the tail of the open window and, at ratio 4, the
    last closed one. *)
Definition off : nat := if ratio =? 4 then ratio else 0.
Definition slots : nat := if ratio =? 4 then 2 * ratio else ratio.
Record live_buf (fill : f32) (f : nat -> list f32) (t : nat) (buf : list f32) : Prop := {
  lb_len : length buf = slots * width;
  lb_tail : forall r, r < t mod ratio -> row_at width buf (off + r) = Some (f (t - t mod ratio + r));
  lb_prev : ratio = 4 -> forall r, r < ratio ->
    row_at width buf r = Some (if t <? ratio then replicate width fill else f (t - t mod ratio - ratio + r))
}.
Record live (t : nat) (st : CompressorState) : Prop := {
  lv_kv : live_buf f0 tok_kv t (cs_kv st);
  lv_score : live_buf NEG_INFINITY tok_gate t (cs_score st);
  lv_ratio : cs_ratio st = ratio;
  lv_coff : cs_coff st = if ratio =? 4 then 2 else 1;
  lv_d : cs_d st = d
}.

Context (Hwf : well_formed).

Lemma width_pos : 0 < ratio /\ 0 < width.
Proof using Hwf. destruct Hwf as (? & ? & _). unfold width. destruct (ratio =? 4); lia. Qed.

Lemma tok_len t : t < length T -> length (tok_kv t) = width /\ length (tok_gate t) = width.
Proof using Hwf.
  intros Ht. destruct Hwf as (Hr & _ & Ha & HT). destruct (lookup_lt_is_Some_2 _ _ Ht) as [x Hx].
  destruct (Forall_lookup_1 _ _ _ _ HT Hx) as [H1 H2]. unfold tok_kv, tok_gate. rewrite Hx. simpl. split; [done|].
  rewrite length_zip_with, length_take, length_drop, H2, Ha.
  assert (t mod ratio < ratio) by (apply Nat.mod_upper_bound; lia). nia.
Qed.

Lemma proj_row f a s i x :
  (forall y, y ∈ T -> length (f y) = width) -> i < s -> T !! (a + i) = Some x ->
  row_at width (proj f a s) i = Some (f x).
Proof using.
  intros Hf Hi Hx. unfold proj.
  assert (map f (take s (drop a T)) !! i = Some (f x)) as Hm.
  { change (map ?g ?l) with (g <$> l). rewrite list_lookup_fmap, lookup_take_lt, lookup_drop, Hx by done. done. }
  assert (Forall (fun r => length r = width) (map f (take s (drop a T)))) as Hall.
  { apply Forall_forall. intros r [y [-> Hy]]%list_elem_of_fmap. apply Hf.
    apply elem_of_take in Hy as (j & Hy & _). rewrite lookup_drop in Hy. by eapply list_elem_of_lookup_2. }
  by apply concat_row.
Qed.

(** What a call absorbs at row [dst] is a token's rows. *)
Lemma absorb_token a s src slot dst n k c :
  src < s -> a + src < length T -> slot = (a + src) mod ratio -> dst < n ->
  length k = n * width -> length c = n * width ->
  absorb width (proj fst a s) (proj snd a s) ape src slot dst (k, c) =
    Some (blit k (dst * width) (tok_kv (a + src)), blit c (dst * width) (tok_gate (a + src))).
Proof using Hwf.
  intros Hs Ht -> Hd Hk Hc. pose proof (tok_len _ Ht) as [Lk Lg]. pose proof Hwf as (Hr & _ & Ha & HT).
  destruct (lookup_lt_is_Some_2 _ _ Ht) as [x Hx]. rewrite Forall_forall in HT.
  assert ((a + src) mod ratio < ratio) by (apply Nat.mod_upper_bound; lia).
  pose proof (proj_row fst a s src x (fun y Hy => proj1 (HT y Hy)) Hs Hx) as H1.
  pose proof (proj_row snd a s src x (fun y Hy => proj2 (HT y Hy)) Hs Hx) as H2.
  unfold absorb, row_at in *. replace (src * width + width) with ((src + 1) * width) by lia. rewrite H1. simpl.
  assert (fst x = tok_kv (a + src)) as -> by (unfold tok_kv; by rewrite Hx).
  rewrite copy_in_some by nia. simpl.
  assert (gate_row width (proj snd a s) ape src ((a + src) mod ratio) = Some (tok_gate (a + src))) as ->.
  { unfold gate_row. apply mapM_Some. apply Forall2_same_length_lookup_2; [rewrite length_seq; lia|].
    intros i y z Hy Hz. pose proof (lookup_lt_Some _ _ _ Hz). rewrite lookup_seq_lt in Hy by lia. injection Hy as <-.
    rewrite (row_lookup _ _ _ _ i H2) by lia. unfold tok_gate in Hz. rewrite Hx in Hz. simpl in Hz.
    apply lookup_zip_with_Some in Hz as (u & v & -> & Hu & Hv). rewrite Hu. simpl.
    apply lookup_take_Some in Hv as [Hv _]. rewrite lookup_drop in Hv. by rewrite Hv. }
  simpl. by rewrite copy_in_some by nia.
Qed.

(** The loop that absorbs [m] tokens into consecutive rows. *)
Lemma absorb_loop a s src0 slot0 dst0 n m k c :
  src0 + m <= s -> a + src0 + m <= length T -> (forall r, r < m -> slot0 + r = (a + src0 + r) mod ratio) ->
  dst0 + m <= n -> length k = n * width -> length c = n * width ->
  exists k' c', for_range (fun r => absorb width (proj fst a s) (proj snd a s) ape (src0 + r) (slot0 + r) (dst0 + r)) 0 m (k, c)
      = Some (k', c') /\
    filled width k k' dst0 m (fun i => tok_kv (a + src0 + i)) /\
    filled width c c' dst0 m (fun i => tok_gate (a + src0 + i)).
Proof using Hwf.
  intros Hs Ht Hslot Hd Hk Hc.
  destruct (for_range_ind (fun j (b : list f32 * list f32) =>
      filled width k b.1 dst0 j (fun i => tok_kv (a + src0 + i)) /\
      filled width c b.2 dst0 j (fun i => tok_gate (a + src0 + i)))
    (fun r => absorb width (proj fst a s) (proj snd a s) ape (src0 + r) (slot0 + r) (dst0 + r)) m 0 (k, c))
    as ([k' c'] & E & H).
  - split; apply filled_nil.
  - intros j [kj cj] Hj [Fk Fc]. simpl in Fk, Fc. pose proof Fk as [Lk _]. pose proof Fc as [Lc _].
    destruct (tok_len (a + (src0 + j))) as [L1 L2]; [lia|].
    rewrite (absorb_token a s (src0 + j) (slot0 + j) (dst0 + j) n kj cj); try lia.
    2:{ rewrite Hslot by lia. f_equal. lia. }
    eexists. split; [done|]. simpl. replace (j + 1) with (j + 1)%nat by lia.
    split; (eapply filled_app; [eassumption|]); (eapply filled_ext; [|eapply (filled_one width _ n); [lia|lia|done]]);
      intros i Hi; simpl; f_equal; lia.
  - simpl in H. exists k', c'. by rewrite E.
Qed.

Lemma slots_cases : slots = (if ratio =? 4 then 2 else 1) * ratio /\ off + ratio = slots.
Proof using. unfold slots, off. destruct (ratio =? 4); lia. Qed.

Lemma fresh_live : live 0 (compressor_new ratio d).
Proof using.
  destruct slots_cases as [Hs _]. split; try done; simpl.
  - split; [rewrite length_replicate, Hs; unfold width; lia| |].
    + rewrite Nat.Div0.mod_0_l. lia.
    + intros H4 r Hr. destruct (Nat.ltb_spec 0 ratio); [|lia].
      replace ((if ratio =? 4 then 2 else 1) * ratio * (if ratio =? 4 then 2 else 1) * d) with (slots * width)
        by (rewrite Hs; unfold width; lia). apply row_at_replicate. rewrite Hs, H4. simpl. lia.
  - split; [rewrite length_replicate, Hs; unfold width; lia| |].
    + rewrite Nat.Div0.mod_0_l. lia.
    + intros H4 r Hr. destruct (Nat.ltb_spec 0 ratio); [|lia].
      replace ((if ratio =? 4 then 2 else 1) * ratio * (if ratio =? 4 then 2 else 1) * d) with (slots * width)
        by (rewrite Hs; unfold width; lia). apply row_at_replicate. rewrite Hs, H4. simpl. lia.
Qed.

Lemma window_halves fill f b : ratio = 4 -> window fill f b = halves ratio d fill f b.
Proof using. intros H4. unfold window, halves. by rewrite (proj2 (Nat.eqb_eq _ _) H4). Qed.

(** Token [t] put at its row. *)
Definition stored (fill : f32) (f : nat -> list f32) (t : nat) (buf : list f32) : Prop :=
  length buf = slots * width /\
  (forall r, r <= t mod ratio -> row_at width buf (off + r) = Some (f (t - t mod ratio + r))) /\
  (ratio = 4 -> forall r, r < ratio ->
    row_at width buf r = Some (if t <? ratio then replicate width fill else f (t - t mod ratio - ratio + r))).

Lemma live_store fill f t buf : live_buf fill f t buf -> length (f t) = width ->
  stored fill f t (blit buf ((off + t mod ratio) * width) (f t)).
Proof using Hwf.
  intros [Hl Ht Hp] Hf. destruct width_pos as [Hr _]. destruct slots_cases as [_ Hs].
  assert (t mod ratio < ratio) by (apply Nat.mod_upper_bound; lia).
  split; [|split].
  - rewrite blit_length; [done|]. rewrite Hl, Hf. transitivity ((off + t mod ratio + 1) * width); [lia|].
    apply Nat.mul_le_mono_r. lia.
  - intros r Hrt. rewrite (row_blit width _ slots) by (done || lia). case_decide as E.
    + do 2 f_equal. pose proof (Nat.Div0.mod_le t ratio). lia.
    + apply Ht. lia.
  - intros H4 r Hrr. rewrite (row_blit width _ slots) by (done || lia). rewrite decide_False; [by apply Hp|].
    unfold off. rewrite (proj2 (Nat.eqb_eq _ _) H4). lia.
Qed.

Lemma stored_live fill f t buf : stored fill f t buf -> (t + 1) mod ratio <> 0 -> live_buf fill f (t + 1) buf.
Proof using Hwf.
  intros (Hl & Ht & Hp) Hm. destruct width_pos as [Hr _]. destruct (mod_open t ratio Hr Hm) as (E & _ & Hlt).
  pose proof (Nat.Div0.mod_le t ratio).
  split; [done| |].
  - intros r Hrr. rewrite E in *. replace (t + 1 - (t mod ratio + 1)) with (t - t mod ratio) by lia. apply Ht. lia.
  - intros H4 r Hrr. rewrite E. replace (t + 1 - (t mod ratio + 1)) with (t - t mod ratio) by lia.
    rewrite Hp by done. do 2 f_equal. destruct (Nat.ltb_spec t ratio), (Nat.ltb_spec (t + 1) ratio); lia || done.
Qed.

(** When [t] closes its window, the rows of the state are the window's. *)
Lemma stored_closed fill f t buf : stored fill f t buf -> (t + 1) mod ratio = 0 ->
  forall r, r < ratio -> row_at width buf (off + r) = Some (f (t / ratio * ratio + r)) /\
    (ratio = 4 -> row_at width buf r =
      Some (if t / ratio =? 0 then replicate width fill else f ((t / ratio - 1) * ratio + r))).
Proof using Hwf.
  intros (Hl & Ht & Hp) Hm r Hr. destruct width_pos as [Hr0 _]. destruct (mod_close t ratio Hr0 Hm) as (E & E2 & _).
  split.
  - rewrite <- E2. apply Ht. lia.
  - intros H4. rewrite Hp by done. f_equal. pose proof (Nat.div_small_iff t ratio ltac:(lia)).
    destruct (Nat.ltb_spec t ratio), (Nat.eqb_spec (t / ratio) 0); try lia; try done.
    f_equal. rewrite E2. nia.
Qed.

Lemma closed_window fill f t buf : ratio <> 4 -> stored fill f t buf -> (t + 1) mod ratio = 0 ->
  range buf 0 (ratio * d) = Some (concat (window fill f (t / ratio))).
Proof using Hwf.
  intros H4 Hs Hm. unfold window. pose proof (stored_closed _ _ _ _ Hs Hm) as Hrow.
  rewrite (proj2 (Nat.eqb_neq _ _) H4). destruct Hs as [Hl _].
  assert (width = d /\ off = 0 /\ slots = ratio) as (Hw & Ho & Hsl).
  { unfold width, off, slots. rewrite (proj2 (Nat.eqb_neq _ _) H4). lia. }
  set (rs := map (fun r => f (t / ratio * ratio + r)) (seq 0 ratio)).
  assert (length rs = ratio) as Hrs by (unfold rs; by rewrite length_map, length_seq).
  pose proof (row_run width buf rs 0 ltac:(lia)) as H. rewrite Hrs, Hw in H. apply H. intros i r Hi.
  unfold rs in Hi. change (map ?g ?l) with (g <$> l) in Hi. apply list_lookup_fmap_Some in Hi as (j & -> & Hj).
  apply lookup_seq in Hj as [-> ?]. destruct (Hrow (0 + i) ltac:(lia)) as [H1 _]. rewrite Hw, Ho in H1. exact H1.
Qed.

Lemma overlap_window_ok fill f t buf : ratio = 4 -> stored fill f t buf -> (t + 1) mod ratio = 0 ->
  overlap_window buf width ratio d = Some (concat (window fill f (t / ratio))).
Proof using Hwf.
  intros H4 Hs Hm. rewrite window_halves by done. pose proof (stored_closed _ _ _ _ Hs Hm) as Hrow. destruct Hs as [Hl _].
  assert (width = 2 * d /\ off = ratio /\ slots = 2 * ratio) as (Hw & Ho & Hsl).
  { unfold width, off, slots. rewrite (proj2 (Nat.eqb_eq _ _) H4). lia. }
  set (b := t / ratio) in *.
  destruct (for_range_ind (fun j (out : list f32) => length out = 2 * ratio * d /\
      forall h c, h < 2 -> c < j -> row_at d out (h * ratio + c) = Some (half_row ratio d fill f b h c))
    (fun r win =>
      let* x := range buf (r * width) (r * width + d) in
      let* win := copy_in win (r * d) x in
      let src := (ratio + r) * width + d in
      let* x := range buf src (src + d) in
      copy_in win ((ratio + r) * d) x) ratio 0 (replicate (2 * ratio * d) f0)) as (out & E & [Lo Ro]).
  - split; [apply length_replicate|]. lia.
  - intros r out [_ Hr] [Lo Ro]. destruct (Hrow r Hr) as [H1 H0]. specialize (H0 H4). rewrite Hw, Ho in *.
    apply half_rows in H0 as [H0 _], H1 as [_ H1].
    pose proof (row_at_length _ _ _ _ H0) as L0. pose proof (row_at_length _ _ _ _ H1) as L1. unfold row_at in H0, H1.
    replace (r * (2 * d)) with (2 * r * d) by lia. replace (2 * r * d + d) with ((2 * r + 1) * d) by lia.
    rewrite H0. cbv beta iota. assert ((r + 1) * d <= 2 * ratio * d) by (apply Nat.mul_le_mono_r; lia).
    rewrite copy_in_some by lia. cbv beta iota zeta.
    replace ((ratio + r) * (2 * d) + d) with ((2 * (ratio + r) + 1) * d) by lia.
    replace ((2 * (ratio + r) + 1) * d + d) with ((2 * (ratio + r) + 1 + 1) * d) by lia. rewrite H1. cbv beta iota zeta.
    assert ((ratio + r + 1) * d <= 2 * ratio * d) by (apply Nat.mul_le_mono_r; lia).
    rewrite copy_in_some by (rewrite blit_length; lia). eexists. split; [done|].
    assert (length (blit out (r * d) (take d (if b =? 0 then replicate (2 * d) fill else f ((b - 1) * ratio + r)))) = 2 * ratio * d)
      as Lo1 by (rewrite blit_length; lia).
    split; [rewrite blit_length; lia|]. intros h c Hh Hc.
    rewrite (row_blit d _ (2 * ratio)) by (done || lia). rewrite (row_blit d _ (2 * ratio)) by (done || lia).
    unfold half_row. assert (h = 0 \/ h = 1) as [->| ->] by lia; simpl.
    + rewrite decide_False by lia. case_decide as E; [subst|apply (Ro 0 c); lia].
      destruct (b =? 0); [|done]. rewrite take_replicate. do 2 f_equal. lia.
    + case_decide as E; [by assert (c = r) as -> by lia|]. rewrite decide_False by lia.
      apply (Ro 1 c); lia.
  - assert (overlap_window buf width ratio d = Some out) as -> by exact E. f_equal. apply (rows_eq d); [rewrite halves_length; lia|].
    intros q r (h & c & Hh & Hc & -> & ->)%halves_lookup. apply Ro; lia.
Qed.

Lemma rotate_ok fill f t buf : ratio = 4 -> stored fill f t buf -> (t + 1) mod ratio = 0 ->
  exists buf', rotate buf (ratio * width) = Some buf' /\ live_buf fill f (t + 1) buf'.
Proof using Hwf.
  intros H4 Hs Hm. pose proof (stored_closed _ _ _ _ Hs Hm) as Hrow. destruct Hs as [Hl _].
  destruct width_pos as [Hr0 _]. destruct (mod_close t ratio Hr0 Hm) as (E & E2 & E3).
  assert (off = ratio /\ slots = 2 * ratio) as (Ho & Hsl).
  { unfold off, slots. rewrite (proj2 (Nat.eqb_eq _ _) H4). lia. }
  unfold rotate. rewrite range_some by lia. cbv beta iota.
  set (b := take (ratio * width + ratio * width - ratio * width) (drop (ratio * width) buf)).
  assert (length b = ratio * width) as Lb by (unfold b; rewrite length_take, length_drop; lia).
  rewrite copy_in_some by lia. eexists. split; [done|]. split.
  - rewrite blit_length; lia.
  - rewrite Hm. lia.
  - intros _ r Hr. destruct (Hrow r Hr) as [H1 _]. rewrite Ho in H1.
    destruct (Nat.ltb_spec (t + 1) ratio) as [Hlt|_].
    { rewrite Nat.mod_small in Hm by done. lia. }
    rewrite Hm. replace (t + 1 - 0 - ratio + r) with (t / ratio * ratio + r) by lia. rewrite <- H1.
    unfold row_at in *. assert ((r + 1) * width <= ratio * width) by (apply Nat.mul_le_mono_r; lia).
    rewrite !range_some by (rewrite ?blit_length; lia). f_equal. unfold blit. simpl.
    rewrite drop_app_le, take_app_le by (rewrite ?length_drop; lia). unfold b.
    rewrite skipn_firstn_comm, take_take, drop_drop. f_equal; [lia|f_equal; lia].
Qed.

Lemma window_len fill f b : (forall t, t < (b + 1) * ratio -> length (f t) = width) ->
  length (window fill f b) = win /\ Forall (fun r => length r = d) (window fill f b).
Proof using.
  intros Hf. unfold window, win, width in *. destruct (Nat.eqb_spec ratio 4) as [H4|H4].
  - rewrite length_app, !length_map, !length_seq. split; [lia|]. apply Forall_app. split; apply Forall_forall; intros r Hr;
      apply list_elem_of_fmap in Hr as (c & -> & [_ Hc]%elem_of_seq).
    + destruct (Nat.eqb_spec b 0); [apply length_replicate|]. rewrite length_take, Hf by nia. lia.
    + rewrite length_drop, Hf by nia. lia.
  - rewrite length_map, length_seq. split; [done|]. apply Forall_forall. intros r Hr.
    apply list_elem_of_fmap in Hr as (c & -> & [_ Hc]%elem_of_seq). rewrite Hf by nia. lia.
Qed.

Lemma block_some expf b : (b + 1) * ratio <= length T -> exists r, block expf b = Some r /\ length r = d.
Proof using Hwf.
  intros Hb. unfold block. apply gated_pool_one.
  - destruct (window_len f0 tok_kv b) as [Hl Ha]; [|by rewrite (concat_len _ _ Ha), Hl].
    intros t Ht. apply tok_len. lia.
  - destruct (window_len NEG_INFINITY tok_gate b) as [Hl Ha]; [|by rewrite (concat_len _ _ Ha), Hl].
    intros t Ht. apply tok_len. lia.
Qed.

(** The blocks that close between two token counts. *)
Definition closing (expf : f32 -> f32) (a b : nat) : option (list (list f32)) :=
  mapM (block expf) (seq (a / ratio) (b / ratio - a / ratio)).

Lemma closing_some expf a b : b <= length T -> exists rows, closing expf a b = Some rows /\
  Forall (fun r => length r = d) rows /\ length rows = b / ratio - a / ratio.
Proof using Hwf.
  intros Hb. destruct width_pos as [Hr _].
  assert (forall x, x ∈ seq (a / ratio) (b / ratio - a / ratio) -> exists r, block expf x = Some r /\ length r = d) as H.
  { intros x Hx%elem_of_seq. apply block_some. pose proof (Nat.div_mod_eq b ratio).
    assert ((x + 1) * ratio <= b / ratio * ratio) by (apply Nat.mul_le_mono_r; lia). lia. }
  destruct (mapM_total (block expf) (seq (a / ratio) (b / ratio - a / ratio))) as [rows E].
  { intros x Hx. destruct (H x Hx) as (r & -> & _). done. }
  exists rows. split; [done|]. split.
  - apply mapM_Some in E. apply Forall_forall. intros r [i Hi]%list_elem_of_lookup.
    destruct (Forall2_lookup_r _ _ _ _ _ E Hi) as (x & Hx & Hbx). apply list_elem_of_lookup_2 in Hx.
    destruct (H x Hx) as (r' & Hr' & Hl). congruence.
  - apply mapM_len in E. by rewrite length_seq in E.
Qed.

Lemma closing_step_open expf t b : (t + 1) mod ratio <> 0 -> closing expf t b = closing expf (t + 1) b.
Proof using Hwf. intros H. destruct width_pos as [Hr _]. unfold closing. by rewrite (proj1 (proj2 (mod_open t ratio Hr H))). Qed.

Lemma closing_step_close expf t b r rows : t < b -> (t + 1) mod ratio = 0 -> block expf (t / ratio) = Some r ->
  closing expf (t + 1) b = Some rows -> closing expf t b = Some (r :: rows).
Proof using Hwf.
  intros Hb Hm Hr Hrows. destruct width_pos as [Hr0 _]. destruct (mod_close t ratio Hr0 Hm) as (_ & _ & E).
  assert ((t + 1) / ratio <= b / ratio) by (apply Nat.Div0.div_le_mono; lia).
  unfold closing in *. rewrite E in *. replace (b / ratio - t / ratio) with (S (b / ratio - (t / ratio + 1))) by lia.
  simpl. rewrite Hr. simpl. replace (S (t / ratio)) with (t / ratio + 1) by lia. by rewrite Hrows.
Qed.

(** ** One token *)

Lemma decode_step expf t st x : live t st -> T !! t = Some x ->
  exists st' r, compress_decode expf x.1 x.2 ape t st = Some (st', r) /\ live (t + 1) st' /\
    r = if (t + 1) mod ratio =? 0 then block expf (t / ratio) else None.
Proof using Hwf.
  intros [Hk Hs Hr Hc Hd] Hx. destruct width_pos as [Hr0 _]. pose proof (lookup_lt_Some _ _ _ Hx) as Ht.
  destruct (tok_len t Ht) as [Lk Lg]. destruct slots_cases as [_ Hsl].
  assert (t mod ratio < ratio) by (apply Nat.mod_upper_bound; lia).
  unfold compress_decode. rewrite Hr, Hc, Hd. rewrite (proj2 (Nat.eqb_neq ratio 0)) by lia. cbv beta iota zeta.
  fold width. set (kv' := blit (cs_kv st) ((off + t mod ratio) * width) (tok_kv t)).
  set (sc' := blit (cs_score st) ((off + t mod ratio) * width) (tok_gate t)).
  assert (absorb width x.1 x.2 ape 0 (t mod ratio)
    (if (if ratio =? 4 then 2 else 1) =? 2 then ratio + t mod ratio else t mod ratio) (cs_kv st, cs_score st) = Some (kv', sc')) as ->.
  { assert (forall f : list f32 * list f32 -> list f32, proj f t 1 = f x) as Hp.
    { intros f. unfold proj. rewrite (drop_S _ x) by done. simpl. rewrite ?take_0. simpl. by rewrite app_nil_r. }
    assert ((if (if ratio =? 4 then 2 else 1) =? 2 then ratio + t mod ratio else t mod ratio) = off + t mod ratio) as ->.
    { unfold off. by destruct (ratio =? 4). }
    pose proof (absorb_token t 1 0 (t mod ratio) (off + t mod ratio) slots (cs_kv st) (cs_score st)) as H1.
    rewrite !Hp, Nat.add_0_r in H1. apply H1; try done; try lia; [apply Hk|apply Hs]. }
  pose proof (live_store _ _ _ _ Hk Lk) as Sk. pose proof (live_store _ _ _ _ Hs Lg) as Ss. fold kv' in Sk. fold sc' in Ss.
  destruct (Nat.eqb_spec ((t + 1) mod ratio) 0) as [Hm|Hm]; simpl.
  2:{ eexists _, None. split; [done|]. split; [|done]. split; simpl; try done; by apply stored_live. }
  destruct (block_some expf (t / ratio)) as (r & Hblk & _).
  { destruct (mod_close t ratio Hr0 Hm) as (E & E2 & _). lia. }
  destruct (Nat.eqb_spec ratio 4) as [H4|H4]; simpl.
  - rewrite (overlap_window_ok _ _ _ _ H4 Sk Hm), (overlap_window_ok _ _ _ _ H4 Ss Hm). cbv beta iota.
    replace (ratio + (ratio + 0)) with win by (unfold win; rewrite (proj2 (Nat.eqb_eq _ _) H4); lia).
    unfold block in Hblk. rewrite Hblk. cbv beta iota.
    destruct (rotate_ok _ _ _ _ H4 Sk Hm) as (kv2 & -> & Hk2). destruct (rotate_ok _ _ _ _ H4 Ss Hm) as (sc2 & -> & Hs2).
    eexists _, (Some r). split; [done|]. split; [|done]. split; simpl; try done. by rewrite Hc, (proj2 (Nat.eqb_eq _ _) H4).
  - rewrite (closed_window _ _ _ _ H4 Sk Hm), (closed_window _ _ _ _ H4 Ss Hm). cbv beta iota.
    replace (gated_pool expf _ _ 1 ratio d) with (Some r).
    2:{ rewrite <- Hblk. unfold block, win. by rewrite (proj2 (Nat.eqb_neq _ _) H4). }
    eexists _, (Some r). split; [done|]. split; [|done].
    assert (forall fill f buf, stored fill f t buf -> live_buf fill f (t + 1) buf) as Hl.
    { intros fill f buf [Hl _]. split; [done| |done]. rewrite Hm. lia. }
    split; simpl; try done; [by apply Hl..|]. by rewrite Hc, (proj2 (Nat.eqb_neq _ _) H4).
Qed.

Lemma decode_tokens_ok expf a s : a + s <= length T -> forall n i st, i + n = s -> live (a + i) st ->
  exists st' rows, decode_tokens expf (proj fst a s) (proj snd a s) ape width a i n st = Some (st', rows) /\
    live (a + s) st' /\ closing expf (a + i) (a + s) = Some rows.
Proof using Hwf.
  intros Ha. destruct Hwf as (_ & _ & _ & HT). rewrite Forall_forall in HT. induction n as [|n IH]; intros i st Hi Hl; simpl.
  - replace (a + i) with (a + s) in * by lia. exists st, []. split_and!; try done. unfold closing. by rewrite Nat.sub_diag.
  - destruct (lookup_lt_is_Some_2 T (a + i)) as [x Hx]; [lia|].
    pose proof (proj_row fst a s i x (fun y Hy => proj1 (HT y Hy)) ltac:(lia) Hx) as H1.
    pose proof (proj_row snd a s i x (fun y Hy => proj2 (HT y Hy)) ltac:(lia) Hx) as H2.
    unfold row_at in H1, H2. rewrite H1, H2. cbv beta iota.
    destruct (decode_step expf (a + i) st x Hl Hx) as (st1 & r & -> & Hl1 & Hr). cbv beta iota.
    replace (a + i + 1) with (a + (i + 1)) in * by lia.
    destruct (IH (i + 1) st1 ltac:(lia) Hl1) as (st' & rows & -> & Hl' & Hc). cbv beta iota.
    destruct (Nat.eqb_spec ((a + (i + 1)) mod ratio) 0) as [Hm|Hm].
    + destruct (block_some expf ((a + i) / ratio)) as (b & Hb & _).
      { destruct width_pos as [Hr0 _]. replace (a + (i + 1)) with (a + i + 1) in Hm by lia.
        destruct (mod_close (a + i) ratio Hr0 Hm) as (? & ? & _). lia. }
      rewrite Hr, Hb. eexists _, _. split_and!; try done. replace (a + (i + 1)) with (a + i + 1) in * by lia.
      apply closing_step_close; try done. lia.
    + rewrite Hr. eexists _, _. split_and!; try done. replace (a + (i + 1)) with (a + i + 1) in * by lia.
      by rewrite closing_step_open.
Qed.

(** ** The first call, in one piece *)

Lemma mod_whole s : 0 < ratio -> s - s mod ratio = s / ratio * ratio /\ s mod ratio < ratio /\ (ratio <= s - s mod ratio <-> ratio <= s).
Proof using.
  intros Hr. pose proof (Nat.div_mod_eq s ratio). pose proof (Nat.mod_upper_bound s ratio ltac:(lia)).
  split_and!; try lia. split; [lia|]. intros. assert (s / ratio <> 0) by (intros E; rewrite E in *; lia).
  assert (1 * ratio <= s / ratio * ratio) by (apply Nat.mul_le_mono_r; lia). lia.
Qed.

Definition carried (fill : f32) (f : nat -> list f32) (s : nat) (buf : list f32) : Prop :=
  length buf = slots * width /\ (ratio = 4 -> forall r, r < ratio ->
    row_at width buf r = Some (if s <? ratio then replicate width fill else f (s - s mod ratio - ratio + r))).

Lemma prefill_carry st s : live 0 st -> s <= length T ->
  exists k c, (if (ratio =? 4) && (ratio <=? s - s mod ratio)
    then for_range (fun r => absorb width (proj fst 0 s) (proj snd 0 s) ape (s - s mod ratio - ratio + r) r r) 0 ratio (cs_kv st, cs_score st)
    else Some (cs_kv st, cs_score st)) = Some (k, c) /\ carried f0 tok_kv s k /\ carried NEG_INFINITY tok_gate s c.
Proof using Hwf.
  intros [[Lk _ Pk] [Ls _ Ps] _ _ _] Hs. destruct width_pos as [Hr _]. destruct (mod_whole s Hr) as (E & Hb & Hc).
  destruct (Nat.eqb_spec ratio 4) as [H4|H4]; simpl.
  2:{ eexists _, _. split; [done|]. by repeat split; intros. }
  assert (forall r, r < ratio -> 0 <? ratio = true) as Hz by (intros; lia).
  destruct (Nat.leb_spec ratio (s - s mod ratio)) as [Hl|Hl].
  - destruct (absorb_loop 0 s (s - s mod ratio - ratio) 0 0 slots ratio (cs_kv st) (cs_score st))
      as (k & c & Ek & [Lk' Fk] & [Lc' Fc]); try done; try lia.
    { destruct slots_cases as [-> _]. rewrite H4. simpl. lia. }
    exists k, c. split; [exact Ek|]. split; (split; [congruence|]); intros _ r Hrr.
    + rewrite Fk, decide_True by lia. simpl. rewrite Nat.sub_0_r. destruct (Nat.ltb_spec s ratio); [lia|done].
    + rewrite Fc, decide_True by lia. simpl. rewrite Nat.sub_0_r. destruct (Nat.ltb_spec s ratio); [lia|done].
  - eexists _, _. split; [done|]. assert (s < ratio) as Hsr by lia. apply Nat.ltb_lt in Hsr.
    split; (split; [done|]); intros _ r Hrr; rewrite Hsr.
    + rewrite Pk by done. by rewrite (Hz r Hrr).
    + rewrite Ps by done. by rewrite (Hz r Hrr).
Qed.

Lemma carried_live fill f s buf buf' : carried fill f s buf ->
  filled width buf buf' off (s mod ratio) (fun i => f (s - s mod ratio + i)) -> live_buf fill f s buf'.
Proof using.
  intros [Lb Pb] [Ll Fl]. split; [congruence| |].
  - intros r Hr. rewrite Fl, decide_True by lia. do 3 f_equal. lia.
  - intros H4 r Hr. rewrite Fl, decide_False; [by apply Pb|]. unfold off. rewrite (proj2 (Nat.eqb_eq _ _) H4). lia.
Qed.

Lemma prefill_blocks s n : n * ratio <= s -> s <= length T ->
  let zeros := replicate (n * ratio * width) f0 in
  exists kvb scb, for_range (fun b => for_range (fun r => absorb width (proj fst 0 s) (proj snd 0 s) ape (b * ratio + r) r (b * ratio + r)) 0 ratio)
    0 n (zeros, zeros) = Some (kvb, scb) /\
    filled width zeros kvb 0 (n * ratio) tok_kv /\ filled width zeros scb 0 (n * ratio) tok_gate.
Proof using Hwf.
  intros Hn Hs zeros. destruct width_pos as [Hr _].
  assert (length zeros = n * ratio * width) as Lz by apply length_replicate.
  destruct (for_range_ind (fun b (x : list f32 * list f32) =>
      filled width zeros x.1 0 (b * ratio) tok_kv /\ filled width zeros x.2 0 (b * ratio) tok_gate)
    (fun b => for_range (fun r => absorb width (proj fst 0 s) (proj snd 0 s) ape (b * ratio + r) r (b * ratio + r)) 0 ratio)
    n 0 (zeros, zeros)) as ([kvb scb] & E & Fk & Fs).
  - split; apply filled_nil.
  - intros b [k c] Hb [Fk Fc]. simpl in Fk, Fc. pose proof Fk as [Lk _]. pose proof Fc as [Lc _].
    assert ((b + 1) * ratio <= n * ratio) by (apply Nat.mul_le_mono_r; lia).
    destruct (absorb_loop 0 s (b * ratio) 0 (b * ratio) (n * ratio) ratio k c) as (k' & c' & E & Fk' & Fc'); try lia.
    { intros r Hrr. simpl. rewrite Nat.add_comm, Nat.Div0.mod_add, Nat.mod_small by done. done. }
    exists (k', c'). split; [exact E|]. simpl. replace ((b + 1) * ratio) with (b * ratio + ratio) by lia.
    split; (eapply filled_app; [eassumption|]); assumption.
  - exists kvb, scb. by split_and!.
Qed.

(** Rows of width [width] give the pooled windows, transformed or not. *)
Lemma windows_of fill f n buf : filled width (replicate (n * ratio * width) f0) buf 0 (n * ratio) f ->
  exists out, (if ratio =? 4 then overlap_transform buf n ratio d fill else Some buf) = Some out /\
    forall b, b < n -> row_at (win * d) out b = Some (concat (window fill f b)).
Proof using Hwf.
  intros [Lb Fb]. rewrite length_replicate in Lb. destruct width_pos as [Hr _].
  assert (forall j, j < n * ratio -> row_at width buf j = Some (f j)) as Hrow.
  { intros j Hj. rewrite Fb, decide_True by lia. by rewrite Nat.sub_0_r. }
  destruct (Nat.eqb_spec ratio 4) as [H4|H4].
  - assert (width = 2 * d /\ win = 2 * ratio) as [Hw ->].
    { unfold width, win. rewrite (proj2 (Nat.eqb_eq _ _) H4). lia. }
    rewrite Hw in Hrow. destruct (overlap_transform_rows ratio d fill buf n f Hrow) as (out & E & _ & Hout).
    exists out. split; [done|]. intros b Hb. rewrite Hout by done. by rewrite window_halves.
  - exists buf. split; [done|]. intros b Hb.
    assert (width = d /\ win = ratio) as [Hw ->].
    { unfold width, win. rewrite (proj2 (Nat.eqb_neq _ _) H4). lia. }
    rewrite Hw in *. unfold window. rewrite (proj2 (Nat.eqb_neq _ _) H4). unfold row_at.
    set (rs := map (fun r => f (b * ratio + r)) (seq 0 ratio)).
    assert (length rs = ratio) as Hrs by (unfold rs; by rewrite length_map, length_seq).
    replace (b * (ratio * d)) with (b * ratio * d) by lia.
    replace ((b + 1) * (ratio * d)) with ((b * ratio + length rs) * d) by lia.
    assert ((b + 1) * ratio <= n * ratio) by (apply Nat.mul_le_mono_r; lia).
    apply row_run; [rewrite Lb; apply Nat.mul_le_mono_r; lia|]. intros i r Hi.
    unfold rs in Hi. change (map ?g ?l) with (g <$> l) in Hi. apply list_lookup_fmap_Some in Hi as (j & -> & Hj).
    apply lookup_seq in Hj as [-> ?]. apply Hrow. lia.
Qed.

Lemma compress_prefill_ok expf st s : live 0 st -> s <= length T ->
  exists st' rows, compress_prefill expf (proj fst 0 s) (proj snd 0 s) ape s ratio d st = Some (st', concat rows) /\
    live s st' /\ closing expf 0 s = Some rows.
Proof using Hwf.
  intros Hl Hs. destruct width_pos as [Hr _]. destruct (mod_whole s Hr) as (E & Hb & _).
  destruct (prefill_carry st s Hl Hs) as (k & c & Ec & Ck & Cc).
  pose proof Ck as [Lk _]. pose proof Cc as [Lc _]. destruct slots_cases as [_ Hsl].
  destruct (absorb_loop 0 s (s - s mod ratio) 0 off slots (s mod ratio) k c) as (k' & c' & Et & Fk & Fc); try lia.
  { intros r Hrr. simpl. rewrite E, Nat.add_comm, Nat.Div0.mod_add, Nat.mod_small by lia. done. }
  apply (carried_live f0 tok_kv) in Fk; [|done]. apply (carried_live NEG_INFINITY tok_gate) in Fc; [|done].
  unfold compress_prefill. rewrite (proj2 (Nat.eqb_neq ratio 0)) by lia. cbv beta iota zeta. fold width.
  assert (((if ratio =? 4 then 2 else 1) =? 2) = (ratio =? 4)) as -> by (by destruct (ratio =? 4)).
  rewrite Ec. cbv beta iota. change (if ratio =? 4 then ratio else 0) with off.
  assert (for_range (fun r => absorb width (proj fst 0 s) (proj snd 0 s) ape (s - s mod ratio + r) r (off + r)) 0 (s mod ratio) (k, c)
    = Some (k', c')) as -> by exact Et. cbv beta iota.
  assert (live s (with_bufs st (k', c'))) as Hlive by (destruct Hl; split; done).
  rewrite E, Nat.div_mul by lia. unfold closing. rewrite Nat.Div0.div_0_l, Nat.sub_0_r.
  destruct (Nat.eqb_spec (s / ratio) 0) as [H0|H0].
  { rewrite H0. eexists _, []. by split_and!. }
  destruct (prefill_blocks s (s / ratio) ltac:(lia) Hs) as (kvb & scb & -> & Fkb & Fsb). cbv beta iota.
  destruct (windows_of f0 tok_kv _ _ Fkb) as (kvw & Ek & Hkw). destruct (windows_of NEG_INFINITY tok_gate _ _ Fsb) as (scw & Es & Hsw).
  destruct (closing_some expf 0 s Hs) as (rows & Hrows & _). unfold closing in Hrows.
  rewrite Nat.Div0.div_0_l, Nat.sub_0_r in Hrows.
  assert (gated_pool expf kvw scw (s / ratio) win d = Some (concat rows)) as Hg.
  { rewrite (gated_pool_rows expf _ _ _ _ _ _ _ Hkw Hsw). unfold block in Hrows. by rewrite Hrows. }
  exists (with_bufs st (k', c')), rows. split_and!; try done. revert Hg. unfold win.
  destruct (ratio =? 4); [rewrite Ek, Es|injection Ek as ->; injection Es as ->]; cbv beta iota; by intros ->.
Qed.

(** ** One call, first or later *)

Lemma compress_rows_ok expf st a s : live a st -> a + s <= length T ->
  exists st' rows, compress_rows expf (proj fst a s) (proj snd a s) ape width s ratio d a st = Some (st', rows) /\
    live (a + s) st' /\ closing expf a (a + s) = Some rows.
Proof using Hwf.
  intros Hl Ha. unfold compress_rows. destruct (Nat.eqb_spec a 0) as [->|H0].
  - destruct (compress_prefill_ok expf st s Hl Ha) as (st' & rows & -> & Hl' & Hc). cbv beta iota.
    destruct (closing_some expf 0 s Ha) as (rows' & Hc' & Hlen & _). rewrite Hc in Hc'. injection Hc' as <-.
    destruct Hwf as (_ & Hd & _). rewrite chunks_exact_rows by done. by eexists _, _.
  - destruct (decode_tokens_ok expf a s Ha s 0 st eq_refl) as (st' & rows & -> & Hl' & Hc); [by rewrite Nat.add_0_r|].
    rewrite Nat.add_0_r in Hc. by eexists _, _.
Qed.

Lemma closing_app expf a b c r1 r2 : a <= b -> b <= c ->
  closing expf a b = Some r1 -> closing expf b c = Some r2 -> closing expf a c = Some (r1 ++ r2).
Proof using.
  intros Hab Hbc H1 H2. unfold closing in *.
  assert (a / ratio <= b / ratio /\ b / ratio <= c / ratio) as [? ?] by (split; apply Nat.Div0.div_le_mono; lia).
  replace (c / ratio - a / ratio) with ((b / ratio - a / ratio) + (c / ratio - b / ratio)) by lia.
  rewrite seq_app. replace (a / ratio + (b / ratio - a / ratio)) with (b / ratio) by lia.
  apply mapM_Some in H1, H2. apply mapM_Some. by apply Forall2_app.
Qed.
End Stream.

(** A layer's compressor over the calls of a forward pass, [chunks] tokens each. *)
Fixpoint run_compressor (expf : f32 -> f32) (ratio d : nat) (ape : list f32) (T : list (list f32 * list f32))
    (a : nat) (chunks : list nat) (st : CompressorState) : option (CompressorState * list (list f32)) :=
  match chunks with
  | [] => Some (st, [])
  | s :: chunks =>
      let* (st, rows) := compress_rows expf (proj T fst a s) (proj T snd a s) ape (width ratio d) s ratio d a st in
      let* (st, rest) := run_compressor expf ratio d ape T (a + s) chunks st in
      Some (st, rows ++ rest)
  end.

Lemma run_compressor_ok expf ratio d ape T (Hwf : well_formed ratio d ape T) : forall chunks a st,
  live ratio d ape T a st -> a + sum_list chunks <= length T ->
  exists st' rows, run_compressor expf ratio d ape T a chunks st = Some (st', rows) /\
    live ratio d ape T (a + sum_list chunks) st' /\ closing ratio d ape T expf a (a + sum_list chunks) = Some rows.
Proof.
  induction chunks as [|s chunks IH]; intros a st Hl Ha; simpl in *.
  - rewrite Nat.add_0_r. eexists _, []. split_and!; try done. unfold closing. by rewrite Nat.sub_diag.
  - destruct (compress_rows_ok ratio d ape T Hwf expf st a s Hl) as (st1 & rows & -> & Hl1 & Hc); [lia|]. cbv beta iota.
    destruct (IH (a + s) st1 Hl1) as (st' & rest & -> & Hl' & Hc'); [lia|]. cbv beta iota.
    rewrite <- Nat.add_assoc in *. eexists _, _. split_and!; try done.
    eapply closing_app; [| |exact Hc|exact Hc']; lia.
Qed.

(** C17: prefill and decode are one compressor: however a sequence is cut into
    forward calls (the first pooled in one piece, the later ones token by
    token), the calls succeed and the compressed rows they emit are, block by
    block, the pool of the block's own tokens (and, at ratio 4, of the
    overlapping half of the block before), with none emitted for an unfinished
    block. *)
Theorem compressor_chunking expf ratio d ape T chunks :
  well_formed ratio d ape T -> sum_list chunks <= length T ->
  exists st rows, run_compressor expf ratio d ape T 0 chunks (compressor_new ratio d) = Some (st, rows) /\
    mapM (block ratio d ape T expf) (seq 0 (sum_list chunks / ratio)) = Some rows.
Proof.
  intros Hwf Hs. destruct (run_compressor_ok expf ratio d ape T Hwf chunks 0 _ (fresh_live ratio d ape T) Hs)
    as (st & rows & E & _ & Hc).
  exists st, rows. split; [done|]. unfold closing in Hc. by rewrite Nat.Div0.div_0_l, Nat.sub_0_r in Hc.
Qed.

(** ** Witnesses *)

(** A platform whose [exp] is one everywhere: the pool is the mean. *)
Definition flat_exp (x : f32) : f32 := f32_one.
Definition z32 (l : list Z) : list f32 := map f32_of_Z l.

(** Five tokens of width 1, pooled in twos. *)
Definition sample_stream : list (list f32 * list f32) :=
  map (fun z => (z32 [z], z32 [10 - z]%Z)) [1; 3; 5; 8; 9]%Z.

Lemma sample_stream_ok : well_formed 2 1 (z32 [0; 1]%Z) sample_stream.
Proof. split_and!; [lia|lia|reflexivity|repeat constructor]. Qed.

Example sample_pool :
  (let* (_, rows) := run_compressor flat_exp 2 1 (z32 [0; 1]%Z) sample_stream 0 [3; 2] (compressor_new 2 1) in Some (map (map (fun x => SFcompare x (f32_of_Z 2))) rows)) =
    Some [[Some Eq]; [Some Gt]].
Proof. vm_compute. reflexivity. Qed.

Lemma compressor_chunking_witness : exists st rows,
  run_compressor flat_exp 2 1 (z32 [0; 1]%Z) sample_stream 0 [3; 2] (compressor_new 2 1) = Some (st, rows) /\
  mapM (block 2 1 (z32 [0; 1]%Z) sample_stream flat_exp) (seq 0 (sum_list [3; 2] / 2)) = Some rows.
Proof. apply (compressor_chunking flat_exp 2 1 (z32 [0; 1]%Z) sample_stream [3; 2] sample_stream_ok). simpl. lia. Defined.
