(* ===== verification/Dsv4Store.v ===== *)
(** * The compressed rows of a layer

    A store keeps, for each layer, the rows pooled so far and the state of the
    pool; the cache has two, the Compressor's and the Indexer's, with the same
    code.  What a store holds after some tokens of a stream, how a call moves it
    on, and why the second store behaves as the first: exchanged, they are each
    other. *)

From Stdlib Require Import ZifyBool ZifyNat SpecFloat.
From S2P Require Import Prelude Rows DType Math Config KvCache Dsv4.
Local Open Scope nat_scope.

(** ** The two stores *)

Definition swap (kv : KvCache) : KvCache :=
  set_icomp (set_comp kv (kc_icomp kv) (kc_icomp_len kv) (kc_icomp_state kv) (kc_icomp_dim kv))
    (kc_comp kv) (kc_comp_len kv) (kc_comp_state kv) (kc_comp_dim kv).

Lemma swap_swap kv : swap (swap kv) = kv.
Proof. by destruct kv. Qed.
Lemma swap_rows kv li : comp_rows (swap kv) li = icomp_rows kv li.
Proof. done. Qed.
Lemma swap_set kv c l st d : swap (set_comp kv c l st d) = set_icomp (swap kv) c l st d.
Proof. done. Qed.
Lemma swap_push kv li r : icomp_push kv li r = let* kv' := comp_push (swap kv) li r in Some (swap kv').
Proof.
  unfold icomp_push, comp_push. cbn. destruct (push_row _ _ _ _ _) as [[c l]|]; [|done]. by destruct kv.
Qed.

(** Two caches with the same first store; with the same second. *)
Definition same_comp (kv kv' : KvCache) : Prop :=
  kc_comp kv' = kc_comp kv /\ kc_comp_len kv' = kc_comp_len kv /\ kc_comp_state kv' = kc_comp_state kv /\
  kc_comp_dim kv' = kc_comp_dim kv.
Definition same_icomp (kv kv' : KvCache) : Prop := same_comp (swap kv) (swap kv').

#[export] Instance same_comp_preorder : PreOrder same_comp.
Proof. split; [by intros kv|]. intros a b c (? & ? & ? & ?) (? & ? & ? & ?). unfold same_comp. split_and!; congruence. Qed.
#[export] Instance same_icomp_preorder : PreOrder same_icomp.
Proof. unfold same_icomp. split; [by intros kv|]. intros a b c. apply transitivity. Qed.

(** ** A store and a stream *)

Section Store.
(** The rows of a stream's tokens, and the row each block comes to. *)
Context (ratio hd : nat) (ape : list f32) (S : list (list f32 * list f32)) (ref : nat -> option (list f32)).

Record store_ok (kv : KvCache) (li n : nat) : Prop := {
  so_held : exists fins, mapM ref (seq 0 (if 0 <? ratio then n / ratio else 0)) = Some fins /\
    comp_rows kv li = Some (concat fins) /\ Forall (fun r => length r = hd) fins;
  so_state : 0 < ratio -> exists st buf, kc_comp_state kv !! li = Some (Some st) /\
    live ratio hd ape S n st /\ kc_comp_dim kv = hd /\
    kc_comp_len kv !! li = Some (n / ratio) /\ kc_comp kv !! li = Some buf /\
    length S / ratio * hd <= length buf
}.

Lemma store_ok_same kv kv' li n : same_comp kv kv' -> store_ok kv li n -> store_ok kv' li n.
Proof.
  intros (H1 & H2 & H3 & H4) [(fins & Hf & Hh & Hl) Hs]. split.
  - exists fins. unfold comp_rows in *. by rewrite H1, H2, H4.
  - intros Hr. destruct (Hs Hr) as (st & buf & H). exists st, buf. by rewrite H1, H2, H3, H4.
Qed.

(** A store with room for the stream, at its start; or of a layer that pools
    nothing. *)
Lemma store_ok_fresh kv li n buf : n = 0 \/ ratio = 0 ->
  kc_comp kv !! li = Some buf -> kc_comp_len kv !! li = Some 0 -> kc_comp_dim kv = hd ->
  (0 < ratio -> kc_comp_state kv !! li = Some (Some (compressor_new ratio hd)) /\ length S / ratio * hd <= length buf) ->
  store_ok kv li n.
Proof.
  intros Hn Hb Hl Hd Hs. assert ((if 0 <? ratio then n / ratio else 0) = 0) as E0.
  { destruct Hn as [-> | ->]; [|done]. destruct (0 <? ratio); [apply Nat.Div0.div_0_l|done]. }
  split.
  - exists []. rewrite E0. split_and!; [done| |constructor]. unfold comp_rows, rows_of. rewrite Hb, Hl. by rewrite range_some by lia.
  - intros Hr. assert (n = 0) as -> by lia. destruct (Hs Hr) as [Hst Hcap]. exists (compressor_new ratio hd), buf.
    split_and!; [done|apply fresh_live|done|by rewrite Nat.Div0.div_0_l|done|done].
Qed.

(** ** One call *)

(** The rows of the blocks that closed, each finished and pushed. *)
Fixpoint pushes (fin : nat -> list f32 -> option (list f32)) (kv : KvCache) (li b : nat) (rows : list (list f32)) : option KvCache :=
  match rows with
  | [] => Some kv
  | row :: rows => let* nr := fin b row in let* kv := comp_push kv li nr in pushes fin kv li (b + 1) rows
  end.
Definition store_step (expf : f32 -> f32) (fin : nat -> list f32 -> option (list f32)) (cw : nat) (kv : KvCache) (li pos_base s : nat)
    (ckv csc : list f32) : option KvCache :=
  let* (kv, rows) :=
    match mjoin (kc_comp_state kv !! li) with
    | Some st =>
        let* (st, rows) := compress_rows expf ckv csc ape cw s ratio hd pos_base st in
        Some (set_comp kv (kc_comp kv) (kc_comp_len kv) (<[li := Some st]> (kc_comp_state kv)) (kc_comp_dim kv), rows)
    | None => Some (kv, [])
    end in
  let* held := comp_rows kv li in pushes fin kv li (length held / hd) rows.

Context (expf : f32 -> f32) (Hr : 0 < ratio) (Hwf : well_formed ratio hd ape S).

(** What finishes the rows of the first [n] tokens' blocks. *)
Definition finishes (n : nat) (fin : nat -> list f32 -> option (list f32)) : Prop :=
  forall b row, (b + 1) * ratio <= n -> block ratio hd ape S expf b = Some row ->
    exists r, fin b row = Some r /\ ref b = Some r /\ length r = hd.

Lemma pushes_ok n fin li : finishes n fin -> n <= length S -> forall rows b kv,
  (b + length rows) * ratio <= n -> mapM (block ratio hd ape S expf) (seq b (length rows)) = Some rows ->
  (exists fins buf, mapM ref (seq 0 b) = Some fins /\ kc_comp_dim kv = hd /\
    kc_comp_len kv !! li = Some b /\ kc_comp kv !! li = Some buf /\ range buf 0 (b * hd) = Some (concat fins) /\
    length S / ratio * hd <= length buf) ->
  exists kv', pushes fin kv li b rows = Some kv' /\
    (exists c l, kv' = set_comp kv c l (kc_comp_state kv) (kc_comp_dim kv) /\ length c = length (kc_comp kv) /\
      (forall lj, lj <> li -> c !! lj = kc_comp kv !! lj /\ l !! lj = kc_comp_len kv !! lj)) /\
    exists fins buf, mapM ref (seq 0 (b + length rows)) = Some fins /\
      kc_comp_len kv' !! li = Some (b + length rows) /\ kc_comp kv' !! li = Some buf /\
      range buf 0 ((b + length rows) * hd) = Some (concat fins) /\ length S / ratio * hd <= length buf.
Proof using Hr.
  intros Hfin Hn. induction rows as [|row rows IH]; intros b kv Hb Hrows (fins & buf & Hf & Hdim & Hlen & Hbuf & Hran & Hcap).
  { simpl in *. rewrite Nat.add_0_r. exists kv. split; [done|]. split; [|by exists fins, buf].
    exists (kc_comp kv), (kc_comp_len kv). split; [by destruct kv|done]. }
  simpl in Hb, Hrows. simpl.
  destruct (block _ _ _ _ _ b) as [row0|] eqn:Eb; simpl in Hrows; [|done].
  destruct (mapM _ (seq (Datatypes.S b) (length rows))) as [rows0|] eqn:Er; simpl in Hrows; [|done]. injection Hrows as -> ->.
  assert ((b + 1) * ratio <= n) as Hb1 by nia.
  destruct (Hfin b row Hb1 Eb) as (r & -> & Hfr & Lr). cbv beta iota.
  assert (b + 1 <= length S / ratio) as Hbc by (apply Nat.div_le_lower_bound; lia).
  assert ((b + 1) * hd <= length S / ratio * hd) as Hcap1 by (apply Nat.mul_le_mono_r; lia).
  set (buf1 := blit buf (b * hd) r).
  assert (length buf1 = length buf) as Lb1 by (unfold buf1; rewrite blit_length; lia).
  unfold comp_push, push_row. rewrite Hlen, Hbuf, Hdim. cbv beta iota.
  rewrite (proj2 (Nat.leb_le _ _)) by lia. rewrite (proj2 (Nat.eqb_eq _ _) Lr). cbv beta iota. fold buf1.
  set (kv1 := set_comp kv _ _ _ _). pose proof (lookup_lt_Some _ _ _ Hlen). pose proof (lookup_lt_Some _ _ _ Hbuf).
  destruct (IH (b + 1) kv1) as (kv' & Hpush & (c & l & Hkv' & Hlc & Hoth) & (fins' & buf' & Hf' & Hrest)).
  - lia.
  - by replace (b + 1) with (Datatypes.S b) by lia.
  - exists (fins ++ [r]), buf1. split_and!.
    + rewrite seq_app. apply mapM_Some. apply mapM_Some in Hf. apply Forall2_app; [done|]. simpl. by repeat constructor.
    + done.
    + unfold kv1. simpl. by apply list_lookup_insert_eq.
    + unfold kv1. simpl. by apply list_lookup_insert_eq.
    + rewrite concat_app. simpl. rewrite app_nil_r. apply range_app with (b * hd).
      * rewrite <- Hran. symmetry. apply range_ext; [done|]. intros i Hi. unfold buf1. rewrite blit_lookup by lia.
        by rewrite decide_False by lia.
      * unfold buf1. replace ((b + 1) * hd) with (b * hd + length r) by lia. apply range_blit. lia.
    + lia.
  - exists kv'. split; [exact Hpush|]. split.
    + exists c, l. split; [by rewrite Hkv'|]. split; [rewrite Hlc; unfold kv1; simpl; by rewrite length_insert|].
      intros lj Hj. destruct (Hoth lj Hj) as [-> ->]. unfold kv1. simpl. by rewrite !list_lookup_insert_ne by done.
    + replace (b + Datatypes.S (length rows)) with (b + 1 + length rows) by lia. by exists fins', buf'.
Qed.

End Store.

(** A call on one layer moves its store from [a] tokens to [a + s] and leaves the
    other layers' alone. *)
Lemma store_step_ok ratio hd ape S ref expf fin kv li a s :
  0 < ratio -> well_formed ratio hd ape S -> finishes ratio hd ape S ref expf (a + s) fin ->
  store_ok ratio hd ape S ref kv li a -> a + s <= length S ->
  exists kv', store_step ratio hd ape expf fin (width ratio hd) kv li a s (proj S fst a s) (proj S snd a s) = Some kv' /\
    store_ok ratio hd ape S ref kv' li (a + s) /\
    (exists c l st d, kv' = set_comp kv c l st d /\ length c = length (kc_comp kv)) /\
    forall ratio' hd' ape' S' ref' lj n, lj <> li -> store_ok ratio' hd' ape' S' ref' kv lj n -> store_ok ratio' hd' ape' S' ref' kv' lj n.
Proof.
  intros Hr Hwf Hfin [(fins & Hf & Hh & Hall) Hco] Ha. destruct (Hco Hr) as (st & buf & Hst & Hlive & Hdim & Hlen & Hbuf & Hcap).
  pose proof (proj1 (proj2 Hwf)) as Hhd. rewrite (proj2 (Nat.ltb_lt _ _) Hr) in Hf.
  destruct (compress_rows_ok _ _ _ _ Hwf expf st a s Hlive Ha) as (st' & rows & E & Hlive' & Hc).
  unfold store_step. rewrite Hst. cbn [mjoin option_join]. rewrite E. cbv beta iota.
  set (kv1 := set_comp kv (kc_comp kv) (kc_comp_len kv) (<[li := Some st']> (kc_comp_state kv)) (kc_comp_dim kv)).
  assert (comp_rows kv1 li = Some (concat fins)) as Hh1 by exact Hh. rewrite Hh1. cbv beta iota.
  assert (length fins = a / ratio) as Lf by (apply mapM_len in Hf; by rewrite length_seq in Hf).
  rewrite (concat_len _ _ Hall), Lf, Nat.div_mul by lia.
  unfold closing in Hc. assert (a / ratio <= (a + s) / ratio) by (apply Nat.Div0.div_le_mono; lia).
  assert (length rows = (a + s) / ratio - a / ratio) as Lr by (apply mapM_len in Hc; by rewrite length_seq in Hc).
  rewrite <- Lr in Hc. assert ((a + s) / ratio * ratio <= a + s) by (pose proof (Nat.div_mod_eq (a + s) ratio); lia).
  destruct (pushes_ok ratio hd ape S ref expf Hr (a + s) fin li Hfin Ha rows (a / ratio) kv1)
    as (kv' & Hpush & (c & l & Hkv' & Hlc & Hoth) & (fins' & buf' & Hf' & Hlen' & Hbuf' & Hran' & Hcap')).
  - replace (a / ratio + length rows) with ((a + s) / ratio) by lia. lia.
  - done.
  - exists fins, buf. split_and!; try done. unfold comp_rows, rows_of in Hh. rewrite Hbuf, Hlen, Hdim in Hh. exact Hh.
  - replace (a / ratio + length rows) with ((a + s) / ratio) in * by lia.
    exists kv'. split; [exact Hpush|]. split; [|split].
    + split.
      * exists fins'. rewrite (proj2 (Nat.ltb_lt _ _) Hr). split; [done|]. split.
        -- unfold comp_rows, rows_of. rewrite Hbuf', Hlen'. rewrite Hkv'. simpl. by rewrite Hdim.
        -- apply mapM_Some in Hf'. apply Forall_lookup. intros i r Hi. destruct (Forall2_lookup_r _ _ _ _ _ Hf' Hi) as (b & Hb & Hfb).
           apply lookup_seq in Hb as [-> Hb]. cbn [Nat.add] in Hfb.
           assert ((i + 1) * ratio <= (a + s) / ratio * ratio) by (apply Nat.mul_le_mono_r; lia).
           destruct (block_some ratio hd ape S Hwf expf i) as (row & Hrow & _); [lia|].
           destruct (Hfin i row ltac:(lia) Hrow) as (r' & _ & Hr' & L). congruence.
      * intros _. exists st', buf'. rewrite Hkv' in Hlen', Hbuf' |- *. simpl in *. split_and!; try done.
        apply list_lookup_insert_eq. by eapply lookup_lt_Some.
    + rewrite Hkv'. unfold kv1, set_comp in *. simpl in *. eexists _, _, _, _. split; [done|exact Hlc].
    + intros ratio' hd' ape' S' ref' lj n Hj [(fj & Hfj & Hhj & Hlj) Hcj]. destruct (Hoth lj Hj) as [Hc1 Hl1]. simpl in Hc1, Hl1. split.
      * exists fj. split; [done|]. split; [|done]. rewrite <- Hhj, Hkv'. unfold comp_rows, rows_of. simpl. by rewrite Hc1, Hl1.
      * intros Hrj. destruct (Hcj Hrj) as (stj & bj & H1 & H2 & H3 & H4 & H5 & H6). exists stj, bj. rewrite Hkv'. simpl.
        rewrite Hc1, Hl1, list_lookup_insert_ne by done. by split_and!.
Qed.
