(* ===== verification/Dsv4Attn.v ===== *)
(** * One layer of DeepSeek-V4 attention over a forward pass

    [dsv4_attention] of [crates/colibri-engine/src/forward.rs] from its
    projections to its per-head outputs: the ring of raw rows, the compressor
    and the compressed rows it pushes, the key indices, and the attention core
    of [dsv4.rs]; the rotary tables of [dsv4.rs], and [dsv4_forward_chunked]'s
    cut of a prompt into calls.  The projections (quantised matrix products)
    are inputs: a token brings its projected rows.  The selection of compressed
    rows is the caller's ([Selector]): every closed row, or the Indexer's cut
    ([index_select]).  [exp], [powf], [ln], [cos] and [sin] are the platform's,
    parameters.  The CUDA kernel is not modelled. *)

From Stdlib Require Import ZifyBool ZifyNat SpecFloat.
From S2P Require Import Prelude Rows DType Math Usage Config KvCache Dsv4 Dsv4Store.
Local Open Scope nat_scope.

(** ** Rotary tables *)

Definition f32_pi : f32 := S754_finite false 13176795 (-22).
Definition f32_thousandth : f32 := S754_finite false 8589935 (-33).

Section Tables.
Context (powf : f32 -> f32 -> f32) (lnf cosf sinf : f32 -> f32).

Definition yarn_freqs (rd : nat) (base factor : f32) (original_seq_len : Z) (beta_fast beta_slow : f32) : list f32 :=
  let freqs := map (fun i => f32_div f32_one (powf base (f32_div (f32_of_nat (2 * i)) (f32_of_nat rd)))) (seq 0 (rd / 2)) in
  if (original_seq_len =? 0)%Z then freqs
  else
    let two := f32_of_nat 2 in
    let corr rot :=
      f32_div (f32_mul (f32_of_nat rd) (lnf (f32_div (f32_of_Z original_seq_len) (f32_mul (f32_mul rot two) f32_pi))))
              (f32_mul two (lnf base)) in
    let low := f32_max (f32_floor (corr beta_fast)) f0 in
    let high := f32_min (f32_ceil (corr beta_slow)) (f32_of_nat (rd - 1)) in
    let '(lo, hi) := if SFeqb low high then (low, f32_add high f32_thousandth) else (low, high) in
    imap (fun i f =>
      let smooth := f32_sub f32_one (f32_clamp (f32_div (f32_sub (f32_of_nat i) lo) (f32_sub hi lo)) f0 f32_one) in
      f32_add (f32_mul (f32_div f factor) (f32_sub f32_one smooth)) (f32_mul f smooth)) freqs.

Definition rope_row (trig : f32 -> f32) (freqs : list f32) (t : nat) : list f32 :=
  map (fun f => trig (f32_mul (f32_of_nat t) f)) freqs.
Definition yarn_rope_tables (rd seqlen : nat) (base factor : f32) (original_seq_len : Z) (beta_fast beta_slow : f32)
    : list f32 * list f32 :=
  let freqs := yarn_freqs rd base factor original_seq_len beta_fast beta_slow in
  (concat (map (rope_row cosf freqs) (seq 0 seqlen)), concat (map (rope_row sinf freqs) (seq 0 seqlen))).
End Tables.

Definition v4_rope_rows (cos sin : list f32) (pos half : nat) : option (list f32 * list f32) :=
  let* c := range cos (pos * half) ((pos + 1) * half) in
  let* s := range sin (pos * half) ((pos + 1) * half) in Some (c, s).

(** ** The Indexer's cut *)

(** Selection of one query: the [topk] closed rows that score highest, in
    order; [score t] is the Indexer's score of row [t]. *)
Definition scores_before (score : nat -> f32) (a b : nat) : bool :=
  match SFcompare (score b) (score a) with
  | Some Lt => true
  | Some Gt => false
  | _ => a <=? b
  end.
Definition index_select (topk avail : nat) (score : nat -> f32) : list nat :=
  if avail =? 0 then []
  else if (topk =? 0) || (avail <=? topk) then seq 0 avail
  else sort_by Nat.leb (take topk (sort_by (scores_before score) (seq 0 avail))).

(** ** A layer *)

(** The weights and dimensions of a layer this part of it uses; [la_ratio] is
    0 without a Compressor or with COLI_DSV4_COMPRESS=0, [la_pool] whether it runs
    (a positive ratio and both matrices), [la_cw] the rows of the first matrix. *)
Record LayerAttn := {
  la_ratio : nat; la_pool : bool; la_cw : nat; la_ape : list f32; la_norm : list f32; la_sink : list f32
}.
(** The dimensions of the model: heads, head width, rotated width, window. *)
Record Dims := { dm_h : nat; dm_hd : nat; dm_rd : nat; dm_window : Z; dm_eps : f32 }.

(** What the projections give of one token: its latent row (normed, rotated
    and quantised), the Compressor's value and gate rows, and its queries. *)
Record Token := { tk_lat : list f32; tk_kv : list f32; tk_gate : list f32; tk_q : list f32 }.

Section Layer.
Context (expf : f32 -> f32) (dm : Dims) (scale : f32).

(** A pooled row, normed and rotated: row [b] of the layer. *)
Definition finish_row (la : LayerAttn) (ccos csin : list f32) (b : nat) (row : list f32) : option (list f32) :=
  let half := dm_rd dm / 2 in
  let* nr := rmsnorm row (la_norm la) (dm_eps dm) in
  let p := b * la_ratio la in
  if (p + 1) * half <=? length ccos then
    let* (c, s) := v4_rope_rows ccos csin p half in rope_interleaved nr c s (dm_rd dm) false
  else Some nr.

Fixpoint push_blocks (la : LayerAttn) (ccos csin : list f32) (kv : KvCache) (li b : nat) (rows : list (list f32)) : option KvCache :=
  match rows with
  | [] => Some kv
  | row :: rows =>
      let* nr := finish_row la ccos csin b row in
      let* kv := comp_push kv li nr in
      push_blocks la ccos csin kv li (b + 1) rows
  end.

Definition comp_state_mut (kv : KvCache) (layer : nat) : option CompressorState := mjoin (kc_comp_state kv !! layer).

(** The Compressor's part of a call. *)
Definition compress_step (la : LayerAttn) (kv : KvCache) (li pos_base s : nat) (ckv csc ccos csin : list f32) : option KvCache :=
  let hd := dm_hd dm in
  let* (kv, rows) :=
    match comp_state_mut kv li with
    | Some st =>
        let* (st, rows) := compress_rows expf ckv csc (la_ape la) (la_cw la) s (la_ratio la) hd pos_base st in
        Some (set_comp kv (kc_comp kv) (kc_comp_len kv) (<[li := Some st]> (kc_comp_state kv)) (kc_comp_dim kv), rows)
    | None => Some (kv, [])
    end in
  let* held := comp_rows kv li in
  push_blocks la ccos csin kv li (length held / hd) rows.

(** Which compressed rows the queries of a call see, given how many are closed
    at a position. *)
Definition Selector : Type := KvCache -> (nat -> nat) -> option (KvCache * list (list nat)).
Definition select_closed (pos_base s : nat) : Selector :=
  fun kv avail => Some (kv, map (fun i => seq 0 (avail (pos_base + i))) (seq 0 s)).

Definition dsv4_attention (la : LayerAttn) (select : Selector) (kv : KvCache) (li pos_base : nat) (toks : list Token) (ccos csin : list f32)
    : option (KvCache * list (list (list f32))) :=
  let s := length toks in
  let hd := dm_hd dm in
  let ratio := la_ratio la in
  let* (kv, (raw_lo, total, win)) := dsv4_ring_for kv pos_base s (dm_window dm) in
  let n_raw := total - raw_lo in
  let* kv := write_rows kv li pos_base (map tk_lat toks) in
  let* kv :=
    (if (0 <? ratio) && la_pool la
     then compress_step la kv li pos_base s (concat (map tk_kv toks)) (concat (map tk_gate toks)) ccos csin
     else Some kv) in
  let* held := comp_rows kv li in
  let n_comp := if 0 <? ratio then length held / hd else 0 in
  let* raw := extend_latent_rows kv li raw_lo total in
  let* comp := range held 0 (n_comp * hd) in
  let cache := raw ++ comp in
  let avail p := if 0 <? ratio then Nat.min ((p + 1) / ratio) n_comp else 0 in
  let* (kv, sel) := select kv avail in
  let* (idxs, topk) := key_indices win total pos_base s raw_lo n_raw sel in
  let* o := attention_dsv4_sparse expf (concat (map tk_q toks)) cache (la_sink la) s (dm_h dm) hd idxs topk scale in
  Some (kv, o).
End Layer.

(** The call sizes of [dsv4_forward_chunked] for a prompt of [s] tokens. *)
Definition chunk_sizes (s chunk : nat) : list nat :=
  let chunk := Nat.max chunk 1 in
  if s <=? chunk then [s]
  else map (fun i => Nat.min chunk (s - i * chunk)) (seq 0 ((s + chunk - 1) / chunk)).

(** [comp_init] as [dsv4_forward] calls it. *)
Definition min_ratio (ratios : list Z) : Z :=
  Z.max 1 (match List.filter (fun r => (0 <? r)%Z) ratios with [] => 4%Z | r :: rs => fold_left Z.min rs r end).
Definition dsv4_comp_init (enabled : bool) (cfg : Config) (n_layers : nat) (kv : KvCache) : KvCache :=
  if enabled && (comp_rows_len kv =? 0)
  then comp_init kv n_layers (compress_ratios cfg) (len_of (qk_head cfg))
         (len_of (max_ctx cfg) / Z.to_nat (min_ratio (compress_ratios cfg)) + 2)
  else kv.

(** ** The keys a query is given *)

(** The key indices of a row that are not masked. *)
Definition kept (row : list Z) : list Z := List.filter (fun t => (0 <=? t)%Z) row.

Lemma kept_app a b : kept (a ++ b) = kept a ++ kept b.
Proof. apply List.filter_app. Qed.

Lemma kept_masked n : kept (replicate n (-1)%Z) = [].
Proof. by induction n. Qed.

Lemma kept_nat l : kept (map Z.of_nat l) = map Z.of_nat l.
Proof. induction l as [|x l IH]; simpl; [done|]. destruct (Z.leb_spec 0 (Z.of_nat x)); [by rewrite IH|lia]. Qed.

Lemma i32_small z : (0 <= z < 2 ^ 31)%Z -> i32 z = z.
Proof. intros. apply wrap_i_id; [done|unfold in_i; lia]. Qed.

(** The sliding window of [p] and the compressed rows of [sel], as indices into
    the raw rows from [raw_lo] on and the compressed ones after them. *)
Definition key_list (win raw_lo n_raw p : nat) (sel : list nat) : list nat :=
  seq (p + 1 - Nat.min win (p + 1) - raw_lo) (Nat.min win (p + 1)) ++ map (fun t => n_raw + t) sel.

Lemma key_row_ok win win_w topk n_raw raw_lo p sel n_comp :
  Nat.min win (p + 1) <= win_w -> win_w + length sel <= topk -> raw_lo <= p + 1 - Nat.min win (p + 1) ->
  p < raw_lo + n_raw -> Forall (fun t => t < n_comp) sel -> (Z.of_nat (n_raw + n_comp) < 2 ^ 31)%Z ->
  exists row, key_row win win_w topk n_raw raw_lo p sel = Some row /\ length row = topk /\
    kept row = map Z.of_nat (key_list win raw_lo n_raw p sel).
Proof.
  intros Hw Ht Hlo Hp Hsel Hb. unfold key_row. set (wc := Nat.min win (p + 1)) in *. set (ws := p + 1 - wc) in *.
  assert (map (fun k => i32 (u64 (Z.of_nat (ws + k) - Z.of_nat raw_lo))) (seq 0 wc) =
    map Z.of_nat (seq (ws - raw_lo) wc)) as ->.
  { replace (seq (ws - raw_lo) wc) with (map (Nat.add (ws - raw_lo)) (seq 0 wc))
      by (change (map ?g ?l) with (g <$> l); by rewrite fmap_add_seq, Nat.add_0_r).
    rewrite map_map. apply map_ext_in.
    intros k Hk%in_seq. rewrite wrap_id by (unfold in_u; lia). rewrite i32_small; lia. }
  assert (map (fun t => i32 (Z.of_nat (n_raw + t))) sel = map Z.of_nat (map (fun t => n_raw + t) sel)) as ->.
  { rewrite map_map. apply map_ext_in. intros t Ht'%list_elem_of_In. rewrite Forall_forall in Hsel. specialize (Hsel t Ht').
    apply i32_small. lia. }
  set (A := map Z.of_nat (seq (ws - raw_lo) wc)). assert (length A = wc) as LA by (unfold A; by rewrite length_map, length_seq).
  set (B := map Z.of_nat (map (fun t => n_raw + t) sel)). assert (length B = length sel) as LB by (unfold B; by rewrite !length_map).
  rewrite copy_in_some by (rewrite length_replicate; lia). cbv beta iota.
  assert (blit (replicate topk (-1)%Z) 0 A = A ++ replicate (topk - wc) (-1)%Z) as ->.
  { unfold blit. simpl. by rewrite drop_replicate, LA. }
  rewrite copy_in_some by (rewrite length_app, length_replicate; lia).
  assert (blit (A ++ replicate (topk - wc) (-1)%Z) win_w B =
    A ++ replicate (win_w - wc) (-1)%Z ++ B ++ replicate (topk - (win_w + length sel)) (-1)%Z) as ->.
  { unfold blit. rewrite take_app_ge, drop_app_ge by lia. rewrite take_replicate, drop_replicate, LA, LB.
    rewrite <- app_assoc. f_equal. f_equal; [f_equal; lia|]. f_equal. f_equal. lia. }
  eexists. split; [done|]. split; [rewrite !length_app, !length_replicate; lia|].
  rewrite !kept_app, !kept_masked, app_nil_r. unfold A, B, key_list. rewrite !kept_nat, map_app. done.
Qed.

Lemma max_list_le l n x : x ∈ l -> x <= fold_left Nat.max l n.
Proof.
  revert n. induction l as [|y l IH]; intros n H; [by apply elem_of_nil in H|]. simpl.
  assert (forall l m, m <= fold_left Nat.max l m) as Hm.
  { clear. induction l as [|y l IH]; intros m; simpl; [done|]. specialize (IH (Nat.max m y)). lia. }
  apply elem_of_cons in H as [->|H]; [specialize (Hm l (Nat.max n y)); lia|by apply IH].
Qed.

Lemma key_indices_rows win pos_base s n_comp sel :
  let total := pos_base + s in
  let raw_lo := pos_base + 1 - Nat.min win (pos_base + 1) in
  let n_raw := total - raw_lo in
  length sel = s -> Forall (Forall (fun t => t < n_comp)) sel -> (Z.of_nat (n_raw + n_comp) < 2 ^ 31)%Z ->
  exists idxs topk, key_indices win total pos_base s raw_lo n_raw sel = Some (idxs, topk) /\
    forall i v, sel !! i = Some v -> exists row, row_at topk idxs i = Some row /\
      kept row = map Z.of_nat (key_list win raw_lo n_raw (pos_base + i) v).
Proof.
  intros total raw_lo n_raw Hs Hsel Hb. unfold key_indices.
  set (win_w := Nat.min win total). set (topk := win_w + fold_left Nat.max (map length sel) 0).
  assert (forall i v, sel !! i = Some v -> exists row, key_row win win_w topk n_raw raw_lo (pos_base + i) v = Some row /\
    length row = topk /\ kept row = map Z.of_nat (key_list win raw_lo n_raw (pos_base + i) v)) as Hrow.
  { intros i v Hv. pose proof (lookup_lt_Some _ _ _ Hv). apply (key_row_ok _ _ _ _ _ _ _ n_comp); try lia.
    - unfold topk. assert (length v <= fold_left Nat.max (map length sel) 0); [|lia]. apply max_list_le.
      change (map length sel) with (length <$> sel). apply list_elem_of_fmap_2. by eapply list_elem_of_lookup_2.
    - by eapply Forall_lookup_1 in Hv. }
  set (f := fun i => let* v := sel !! i in key_row win win_w topk n_raw raw_lo (pos_base + i) v).
  destruct (mapM_total f (seq 0 s)) as [rows E].
  { intros i [_ Hi]%elem_of_seq. unfold f. destruct (lookup_lt_is_Some_2 sel i) as [v Hv]; [lia|]. rewrite Hv.
    destruct (Hrow i v Hv) as (row & Hr & _). by rewrite Hr. }
  rewrite E. exists (concat rows), topk. split; [done|]. intros i v Hv. destruct (Hrow i v Hv) as (row & Hr & Hl & Hk).
  exists row. split; [|done]. pose proof (lookup_lt_Some _ _ _ Hv) as Hi. rewrite Hs in Hi. apply mapM_Some in E.
  assert (rows !! i = Some row) as Hrows.
  { destruct (Forall2_lookup_l _ _ _ i i E) as (r & Hri & Hfr); [by apply lookup_seq_lt|]. unfold f in Hfr. rewrite Hv in Hfr. congruence. }
  assert (Forall (fun r => length r = topk) rows) as Hall.
  { apply Forall_forall. intros r [j Hj]%list_elem_of_lookup. destruct (Forall2_lookup_r _ _ _ _ _ E Hj) as (x & Hx & Hfx).
    apply lookup_seq in Hx as [-> Hx]. unfold f in Hfx. destruct (sel !! (0 + j)) as [v'|] eqn:Ev; [|done].
    destruct (Hrow _ _ Ev) as (r' & Hr' & Hl' & _). congruence. }
  by apply concat_row.
Qed.

(** ** Attention over a list of keys *)

(** [f32] values without a sign: what a weight can be. *)
Definition unsigned (x : f32) : bool :=
  match x with S754_zero s | S754_infinity s | S754_finite s _ _ => negb s | S754_nan => true end.

Lemma unsigned_add_zero x : unsigned x = true -> f32_add x f0 = x.
Proof. by destruct x as [[] | [] | | [] m e]. Qed.

Lemma unsigned_round m e l : unsigned (binary_round_aux 24 128 false m e l) = true.
Proof.
  unfold binary_round_aux. destruct (shr_fexp _ _ _ _ _) as [mrs e1]. destruct (shr_fexp _ _ _ _ _) as [mrs2 e2].
  destruct (shr_m mrs2); [done| |done]. destruct (_ <=? _)%Z; done.
Qed.

Lemma unsigned_add x y : unsigned x = true -> unsigned y = true -> unsigned (f32_add x y) = true.
Proof.
  destruct x as [[] | [] | | [] m e], y as [[] | [] | | [] m' e']; try done. intros _ _. unfold f32_add, SFadd.
  unfold binary_normalize, cond_Zopp. cbv beta iota zeta.
  match goal with |- context [match ?z with Z0 => _ | _ => _ end] => destruct z eqn:E end; [done| |lia].
  clear E. unfold binary_round. destruct (shl_align _ _ _) as [mz ez]. apply unsigned_round.
Qed.

Section Attend.
Context (expf : f32 -> f32).

(** One head of one query over its key rows: what [attend_head] computes. *)
Definition attend_keys (qv : list f32) (sink : f32) (hd : nat) (scale : f32) (keys : list (list f32)) : list f32 :=
  let scores := map (fun kr => f32_mul (f32_of_f64 (dot64 qv kr)) scale) keys in
  let m := fold_left f32_max scores NEG_INFINITY in
  let weights := map (fun v => if is_finite v then expf (f32_sub v m) else f0) scores in
  let den := f32_add (fold_left f32_add weights f0) (expf (f32_sub sink m)) in
  let inv := f32_div f32_one den in
  fold_left (fun dst '(kr, w) => if SFeqb w f0 then dst else zip_with (fun o v => f32_add o (f32_mul (f32_mul w inv) v)) dst kr)
    (combine keys weights) (replicate hd f0).

Lemma attend_keys_length qv sink hd scale keys : Forall (fun kr => length kr = hd) keys -> length (attend_keys qv sink hd scale keys) = hd.
Proof.
  intros Hk. unfold attend_keys. set (ws := map _ (map _ keys)). set (inv := f32_div _ _).
  assert (forall kws o, Forall (fun p : list f32 * f32 => length p.1 = hd) kws -> length o = hd ->
    length (fold_left (fun dst '(kr, w) => if SFeqb w f0 then dst else zip_with (fun o v => f32_add o (f32_mul (f32_mul w inv) v)) dst kr) kws o) = hd) as H.
  { clear. induction kws as [|[kr w] kws IH]; intros o Hk Ho; [done|]. apply Forall_cons in Hk as [Hr Hk]. cbn in *. apply IH; [done|].
    destruct (SFeqb w f0); [done|]. rewrite length_zip_with. lia. }
  apply H; [|apply length_replicate]. apply Forall_forall. intros [kr w] Hin%list_elem_of_In. apply in_combine_l in Hin. cbn.
  rewrite Forall_forall in Hk. apply Hk. by apply list_elem_of_In.
Qed.

(** [e^x] is not negative. *)
Context (expf_unsigned : forall x, unsigned (expf x) = true).
Context (qv kv : list f32) (hd : nat) (scale : f32).

(** A key index and the row it stands for. *)
Inductive selects : list Z -> list (list f32) -> Prop :=
  | selects_nil : selects [] []
  | selects_masked t sel keys : (t < 0)%Z -> selects sel keys -> selects (t :: sel) keys
  | selects_key t sel kr keys : (0 <= t < 2 ^ 63)%Z -> row_at hd kv (Z.to_nat t) = Some kr -> selects sel keys ->
      selects (t :: sel) (kr :: keys).

Lemma selects_of sel rows : (forall t, t ∈ sel -> (t < 2 ^ 63)%Z) ->
  Forall2 (fun t kr => row_at hd kv (Z.to_nat t) = Some kr) (kept sel) rows -> selects sel rows.
Proof using.
  revert rows. induction sel as [|t sel IH]; intros rows Hb H; simpl in H.
  - inversion H. constructor.
  - assert (forall x, x ∈ sel -> (x < 2 ^ 63)%Z) as Hb' by (intros; apply Hb; by right).
    pose proof (Hb t ltac:(by left)). destruct (Z.leb_spec 0 t).
    + inversion H; subst. constructor; [lia|done|]. by apply IH.
    + constructor; [done|]. by apply IH.
Qed.

Definition scored (kr : list f32) : f32 := f32_mul (f32_of_f64 (dot64 qv kr)) scale.

Lemma selects_scores sel keys : selects sel keys -> exists scores, mapM (key_score qv kv hd scale) sel = Some scores /\
  (forall m, fold_left (fun m '(t, sc) => if (t <? 0)%Z then m else f32_max m sc) (combine sel scores) m =
     fold_left f32_max (map scored keys) m) /\
  (forall m den, unsigned den = true ->
     fold_left f32_add (map (fun v => if is_finite v then expf (f32_sub v m) else f0) scores) den =
     fold_left f32_add (map (fun v => if is_finite v then expf (f32_sub v m) else f0) (map scored keys)) den) /\
  (forall m inv dst,
     fold_left (fun dst '(t, w) =>
       let* dst := dst in
       if SFeqb w f0 then Some dst
       else
         let j := Z.to_nat (u64 t) in
         let* vr := range kv (j * hd) ((j + 1) * hd) in
         Some (zip_with (fun o v => f32_add o (f32_mul (f32_mul w inv) v)) dst vr))
       (combine sel (map (fun v => if is_finite v then expf (f32_sub v m) else f0) scores)) (Some dst) =
     Some (fold_left (fun dst '(kr, w) => if SFeqb w f0 then dst else zip_with (fun o v => f32_add o (f32_mul (f32_mul w inv) v)) dst kr)
       (combine keys (map (fun v => if is_finite v then expf (f32_sub v m) else f0) (map scored keys))) dst)).
Proof using expf_unsigned.
  induction 1 as [|t sel keys Ht _ (scores & E & Hm & Hd & Ho)|t sel kr keys Ht Hkr _ (scores & E & Hm & Hd & Ho)].
  - exists []. by split_and!.
  - exists (NEG_INFINITY :: scores). simpl.
    assert (key_score qv kv hd scale t = Some NEG_INFINITY) as Hk by (unfold key_score; by rewrite (proj2 (Z.ltb_lt _ _) Ht)).
    rewrite Hk, (proj2 (Z.ltb_lt _ _) Ht). simpl. rewrite E. split_and!; try done. intros m den Hu. by rewrite unsigned_add_zero, Hd.
  - exists (scored kr :: scores). simpl. unfold row_at in Hkr.
    assert (key_score qv kv hd scale t = Some (scored kr)) as Hk.
    { unfold key_score. rewrite (proj2 (Z.ltb_ge _ _)) by lia. by rewrite Hkr. }
    rewrite Hk. simpl. rewrite E. split_and!; try done.
    + intros m. rewrite (proj2 (Z.ltb_ge _ _)) by lia. apply Hm.
    + intros m den Hu. apply Hd. destruct (is_finite _); [by apply unsigned_add|by apply unsigned_add].
    + intros m inv dst. rewrite wrap_id by (unfold in_u; lia). destruct (SFeqb _ f0); [apply Ho|]. rewrite Hkr. apply Ho.
Qed.

(** Masked slots and the layout of the cache do not show in the result. *)
Lemma attend_head_keys sink sel keys : selects sel keys ->
  attend_head expf qv kv sink hd scale sel = Some (attend_keys qv sink hd scale keys).
Proof using expf_unsigned.
  intros H. destruct (selects_scores sel keys H) as (scores & E & Hm & Hd & Ho). unfold attend_head. rewrite E. cbv beta iota zeta.
  rewrite Hm, Ho. unfold attend_keys. fold scored. by rewrite Hd.
Qed.
End Attend.

(** ** Compressed rows of a layer *)

Lemma rmsnorm_some x w eps : length w = length x -> exists r, rmsnorm x w eps = Some r /\ length r = length x.
Proof.
  intros Hw. unfold rmsnorm.
  match goal with |- context [mapM ?f ?l] => destruct (mapM_total f l) as [r Hr] end.
  { intros k [_ Hk]%elem_of_seq. destruct (lookup_lt_is_Some_2 x k) as [a ->]; [lia|].
    destruct (lookup_lt_is_Some_2 w k) as [b ->]; [lia|]. done. }
  exists r. split; [done|]. apply mapM_len in Hr. by rewrite length_seq in Hr.
Qed.

Lemma rope_some x c s rd inv : rd <= length x -> length c = rd / 2 -> length s = rd / 2 ->
  exists r, rope_interleaved x c s rd inv = Some r /\ length r = length x.
Proof.
  intros Hrd Hc Hs. unfold rope_interleaved. rewrite (proj2 (Nat.ltb_ge _ _)) by done. cbv zeta.
  match goal with |- context [for_range ?f 0 ?n x] =>
    destruct (for_range_ind (fun _ (y : list f32) => length y = length x) f n 0 x) as (r & E & Hr) end; [done| |by exists r].
  intros k y Hk Hy. pose proof (Nat.div_mod_eq rd 2).
  destruct (lookup_lt_is_Some_2 y (length x - rd + 2 * k)) as [a ->]; [lia|].
  destruct (lookup_lt_is_Some_2 y (length x - rd + 2 * k + 1)) as [b ->]; [lia|].
  destruct (lookup_lt_is_Some_2 c k) as [u ->]; [lia|]. destruct (lookup_lt_is_Some_2 s k) as [v ->]; [lia|].
  eexists. split; [done|]. by destruct inv; rewrite !length_insert.
Qed.

(** ** Lists *)

Lemma sub_row h w (buf x : list f32) i hh : row_at (h * w) buf i = Some x -> hh < h ->
  range buf ((i * h + hh) * w) ((i * h + hh) * w + w) = Some (take w (drop (hh * w) x)).
Proof.
  unfold row_at. intros ([? ?] & ->)%range_inv Hh. assert ((hh + 1) * w <= h * w) by (apply Nat.mul_le_mono_r; lia).
  rewrite range_some by nia. f_equal. rewrite skipn_firstn_comm, take_take, drop_drop. f_equal; [nia|f_equal; nia].
Qed.

Lemma stream_rows {A} w (f : Token -> list A) T a s i t : Forall (fun t => length (f t) = w) T -> i < s ->
  T !! (a + i) = Some t -> row_at w (concat (map f (take s (drop a T)))) i = Some (f t).
Proof.
  intros Hw Hi Ht. apply concat_row.
  - apply Forall_forall. intros r Hr. change (map ?g ?l) with (g <$> l) in Hr. apply list_elem_of_fmap in Hr as (y & -> & Hy).
    rewrite Forall_forall in Hw. apply Hw. apply elem_of_take in Hy as (j & Hy & _). rewrite lookup_drop in Hy.
    by eapply list_elem_of_lookup_2.
  - change (map ?g ?l) with (g <$> l). by rewrite list_lookup_fmap, lookup_take_lt, lookup_drop, Ht by done.
Qed.

Section Proofs.
Context (expf : f32 -> f32) (dm : Dims) (scale : f32) (tabs : list f32 * list f32).

(** The finished row of block [b] of a stream. *)
Definition stream (T : list Token) : list (list f32 * list f32) := map (fun t => (tk_kv t, tk_gate t)) T.
Definition fin_row (crow srow : nat -> list f32) (la : LayerAttn) (T : list Token) (b : nat) : option (list f32) :=
  let* row := block (la_ratio la) (dm_hd dm) (la_ape la) (stream T) expf b in
  let* nr := rmsnorm row (la_norm la) (dm_eps dm) in
  rope_interleaved nr (crow (b * la_ratio la)) (srow (b * la_ratio la)) (dm_rd dm) false.

(** What the dimensions of a layer and its tokens must be. *)
Record dims_ok (la : LayerAttn) (T : list Token) : Prop := {
  do_hd : 0 < dm_hd dm;
  do_norm : length (la_norm la) = dm_hd dm;
  do_sink : length (la_sink la) = dm_h dm;
  do_rd : dm_rd dm <= dm_hd dm;
  do_lat : Forall (fun t => length (tk_lat t) = dm_hd dm /\ length (tk_q t) = dm_h dm * dm_hd dm) T;
  do_comp : 0 < la_ratio la -> la_pool la = true /\ la_cw la = width (la_ratio la) (dm_hd dm) /\
    well_formed (la_ratio la) (dm_hd dm) (la_ape la) (stream T)
}.

(** Tables of [n] positions hold the rows of a table without an end. *)
Definition table_rows (crow srow : nat -> list f32) (n : nat) (t : list f32 * list f32) : Prop :=
  length t.1 = n * (dm_rd dm / 2) /\ length t.2 = n * (dm_rd dm / 2) /\
  forall p, p < n -> row_at (dm_rd dm / 2) t.1 p = Some (crow p) /\ row_at (dm_rd dm / 2) t.2 p = Some (srow p).

Lemma finish_row_ok crow srow la T n ccos csin b :
  dims_ok la T -> 0 < la_ratio la -> table_rows crow srow n (ccos, csin) -> b * la_ratio la < n ->
  (b + 1) * la_ratio la <= length T ->
  exists row r, block (la_ratio la) (dm_hd dm) (la_ape la) (stream T) expf b = Some row /\
    finish_row dm la ccos csin b row = Some r /\ fin_row crow srow la T b = Some r /\ length r = dm_hd dm.
Proof.
  intros [Hhd Hnorm _ Hrd _ Hc] Hr (Lc & Ls & Ht) Hb HT. cbn [fst snd] in *.
  destruct (Hc Hr) as (_ & _ & Hwf). destruct (block_some _ _ _ _ Hwf expf b) as (row & Hrow & Lrow); [unfold stream; by rewrite length_map|].
  destruct (rmsnorm_some row (la_norm la) (dm_eps dm)) as (nr & Hnr & Lnr); [lia|].
  destruct (Ht _ Hb) as [H1 H2]. pose proof (row_at_length _ _ _ _ H1) as L1. pose proof (row_at_length _ _ _ _ H2) as L2.
  destruct (rope_some nr (crow (b * la_ratio la)) (srow (b * la_ratio la)) (dm_rd dm) false) as (r & Hrope & Lr); [lia|done|done|].
  exists row, r. split; [done|]. unfold finish_row, fin_row. rewrite Hrow, Hnr. cbv beta iota zeta.
  rewrite (proj2 (Nat.leb_le _ _)) by (rewrite Lc; apply Nat.mul_le_mono_r; lia).
  unfold v4_rope_rows, row_at in *. rewrite H1. cbv beta iota. rewrite H2. cbv beta iota. rewrite Hrope. split_and!; try done. lia.
Qed.

(** ** What the cache holds of a layer's stream after [n] tokens *)

Section Rows.
Context (crow srow : nat -> list f32).

Definition comp_ok (la : LayerAttn) (T : list Token) : KvCache -> nat -> nat -> Prop :=
  store_ok (la_ratio la) (dm_hd dm) (la_ape la) (stream T) (fin_row crow srow la T).

Lemma ring_ensure_same kv rows kv' : ring_ensure kv rows = Some kv' -> same_comp kv kv' /\ same_icomp kv kv'.
Proof.
  unfold ring_ensure. destruct (_ || _); [by intros [= <-]|]. cbv beta iota zeta.
  destruct (kc_ring kv =? 0); [by intros [= <-]|]. destruct (mapM _ _); [|done]. destruct (mapM _ _); [|done]. by intros [= <-].
Qed.

Lemma latent_row_mut_same kv li pos f kv' : latent_row_mut kv li pos f = Some kv' -> same_comp kv kv' /\ same_icomp kv kv'.
Proof.
  unfold latent_row_mut, ring_touch. intros H. destruct (_ && _); simpl in H;
    (destruct (kc_latent kv !! li); [|done]); (destruct (update _ _ _ _); [|done]); by injection H as <-.
Qed.

Lemma write_rows_same rows : forall kv li pos kv', write_rows kv li pos rows = Some kv' -> same_comp kv kv' /\ same_icomp kv kv'.
Proof.
  induction rows as [|r rows IH]; intros kv li pos kv'; simpl; [by intros [= <-]|].
  destruct (_ =? _); [|done]. destruct (latent_row_mut _ _ _ _) as [kv1|] eqn:E; [|done]. intros H.
  apply latent_row_mut_same in E as [E1 E2]. apply IH in H as [H1 H2]. split; by etransitivity.
Qed.

Lemma ring_ok_set_comp kv M L c l s d : ring_ok kv M L -> ring_ok (set_comp kv c l s d) M L.
Proof. intros []. by split. Qed.
Lemma ring_ok_set_icomp kv M L c l s d : ring_ok kv M L -> ring_ok (set_icomp kv c l s d) M L.
Proof. intros []. by split. Qed.

Lemma proj_stream T f g a s : (forall t, f (tk_kv t, tk_gate t) = g t) ->
  proj (stream T) f a s = concat (map g (take s (drop a T))).
Proof.
  intros Hf. unfold proj, stream. f_equal. rewrite skipn_map, firstn_map, map_map. apply map_ext. intros. apply Hf.
Qed.

(** The Compressor's part of a call is a step of its store. *)
Lemma compress_step_store la kv li a s ckv csc ccos csin :
  compress_step expf dm la kv li a s ckv csc ccos csin =
  store_step (la_ratio la) (dm_hd dm) (la_ape la) expf (finish_row dm la ccos csin) (la_cw la) kv li a s ckv csc.
Proof.
  assert (forall rows kv b, push_blocks dm la ccos csin kv li b rows = pushes (finish_row dm la ccos csin) kv li b rows) as Hp.
  { induction rows as [|r rows IH]; intros kv0 b; [done|]. cbn. destruct (finish_row _ _ _ _ _ _); [|done]. by destruct (comp_push kv0 li _). }
  unfold compress_step, store_step, comp_state_mut. destruct (mjoin _) as [st|]; [destruct (compress_rows _ _ _ _ _ _ _ _ _ _) as [[st' rows]|]; [|done]|];
    cbv beta iota; (destruct (comp_rows _ li); [|done]); apply Hp.
Qed.

Lemma finish_finishes la T n ccos csin : dims_ok la T -> 0 < la_ratio la -> table_rows crow srow (Nat.max n 1) (ccos, csin) -> n <= length T ->
  finishes (la_ratio la) (dm_hd dm) (la_ape la) (stream T) (fin_row crow srow la T) expf n (finish_row dm la ccos csin).
Proof.
  intros Hd Hr Ht Hn b row Hb Hrow. destruct (finish_row_ok crow srow la T (Nat.max n 1) ccos csin b Hd Hr Ht) as (row' & r & H1 & H2 & H3 & H4); [nia|lia|].
  rewrite Hrow in H1. injection H1 as <-. by exists r.
Qed.

Lemma compress_step_ok la T kv li a s ccos csin : dims_ok la T -> 0 < la_ratio la -> comp_ok la T kv li a ->
  table_rows crow srow (Nat.max (a + s) 1) (ccos, csin) -> a + s <= length T ->
  exists kv', compress_step expf dm la kv li a s (concat (map tk_kv (take s (drop a T)))) (concat (map tk_gate (take s (drop a T)))) ccos csin
      = Some kv' /\ comp_ok la T kv' li (a + s) /\
    (exists c l st d, kv' = set_comp kv c l st d /\ length c = length (kc_comp kv)) /\
    forall la' T' lj n, lj <> li -> comp_ok la' T' kv lj n -> comp_ok la' T' kv' lj n.
Proof.
  intros Hd Hr Hok Ht Ha. destruct (do_comp _ _ Hd Hr) as (_ & Hcw & Hwf).
  rewrite <- !(proj_stream T fst tk_kv), <- !(proj_stream T snd tk_gate), compress_step_store, Hcw by done.
  destruct (store_step_ok _ _ _ _ _ expf _ kv li a s Hr Hwf (finish_finishes la T (a + s) ccos csin Hd Hr Ht Ha) Hok) as (kv' & H1 & H2 & H3 & H4).
  { unfold stream. by rewrite length_map. }
  exists kv'. split_and!; try done. intros la' T' lj n Hj. by apply H4.
Qed.

(** ** The reference: attention of one token *)

Section Reference.
(** The compressed rows each position attends to. *)
Context (pick : nat -> list nat).

Definition closed_at (la : LayerAttn) (p : nat) : nat := if 0 <? la_ratio la then (p + 1) / la_ratio la else 0.
Definition window_rows (T : list Token) (p : nat) : list (list f32) :=
  map tk_lat (drop (p + 1 - Z.to_nat (dm_window dm)) (take (p + 1) T)).
Definition attn_keys (la : LayerAttn) (T : list Token) (p : nat) : option (list (list f32)) :=
  let* fins := mapM (fin_row crow srow la T) (pick p) in Some (window_rows T p ++ fins).
Definition attn_ref (la : LayerAttn) (T : list Token) (p : nat) : option (list (list f32)) :=
  let* keys := attn_keys la T p in
  let* t := T !! p in
  mapM (fun hh => let* sink := la_sink la !! hh in
    Some (attend_keys expf (take (dm_hd dm) (drop (hh * dm_hd dm) (tk_q t))) sink (dm_hd dm) scale keys)) (seq 0 (dm_h dm)).

(** Only closed rows are picked. *)
Definition picks_closed (la : LayerAttn) : Prop := forall p, Forall (fun t => t < closed_at la p) (pick p).

Lemma closed_bound la p t : t < closed_at la p -> 0 < la_ratio la /\ (t + 1) * la_ratio la <= p + 1.
Proof.
  unfold closed_at. destruct (Nat.ltb_spec 0 (la_ratio la)) as [Hr|]; [|lia]. intros Ht. split; [done|].
  pose proof (Nat.Div0.mul_div_le (p + 1) (la_ratio la)). nia.
Qed.

(** Its heads have their width. *)
Lemma attn_ref_wide la T n ccos csin p r : picks_closed la -> dims_ok la T -> table_rows crow srow n (ccos, csin) -> p < n -> attn_ref la T p = Some r ->
  Forall (fun v => length v = dm_hd dm) r /\ length r = dm_h dm.
Proof.
  intros Hpk Hd Ht Hp. unfold attn_ref, attn_keys.
  destruct (mapM (fin_row crow srow la T) _) as [fins|] eqn:Ef; [|done]. cbv beta iota. destruct (T !! p) as [t|] eqn:Etp; [|done]. cbv beta iota.
  intros E. pose proof (mapM_len _ _ _ E) as Hl. rewrite length_seq in Hl. split; [|done].
  assert (Forall (fun kr => length kr = dm_hd dm) (window_rows T p ++ fins)) as Hk.
  { apply Forall_app. split.
    - unfold window_rows. apply Forall_map, Forall_drop, Forall_take. eapply Forall_impl; [exact (do_lat _ _ Hd)|]. by intros x [H _].
    - apply mapM_Some in Ef. apply Forall_lookup. intros i y Hy. destruct (Forall2_lookup_r _ _ _ _ _ Ef Hy) as (b & Hb & Hf).
      pose proof (lookup_lt_Some _ _ _ Etp) as Hpt. assert (b < closed_at la p) as Hbc by (specialize (Hpk p); rewrite Forall_lookup in Hpk; by eapply Hpk).
      apply closed_bound in Hbc as [Hr Hb1].
      destruct (finish_row_ok crow srow la T n ccos csin b Hd Hr Ht) as (_ & y' & _ & _ & Ey & Ly); [nia|lia|]. congruence. }
  apply mapM_Some in E. apply Forall_lookup. intros i v Hv. destruct (Forall2_lookup_r _ _ _ _ _ E Hv) as (hh & _ & Hf).
  destruct (la_sink la !! hh); [|done]. injection Hf as <-. by apply attend_keys_length.
Qed.

(** ** The keys of a query, wherever the cache puts them *)

Lemma cache_rows la T a s lo F : dims_ok la T -> lo <= a -> a + s <= length T ->
  Forall (fun r => length r = dm_hd dm) F ->
  let cache := concat (drop lo (map tk_lat (take (a + s) T))) ++ concat F in
  (forall t, t < a + s - lo -> row_at (dm_hd dm) cache t = Some (tk_lat (default {| tk_lat := []; tk_kv := []; tk_gate := []; tk_q := [] |} (T !! (lo + t))))) /\
  (forall t r, F !! t = Some r -> row_at (dm_hd dm) cache (a + s - lo + t) = Some r).
Proof.
  intros Hd Hlo Ha HF cache. unfold cache. rewrite <- concat_app.
  assert (length (drop lo (map tk_lat (take (a + s) T))) = a + s - lo) as Ll by (rewrite length_drop, length_map, length_take; lia).
  assert (Forall (fun r => length r = dm_hd dm) (drop lo (map tk_lat (take (a + s) T)) ++ F)) as Hall.
  { apply Forall_app. split; [|done]. apply Forall_drop. apply Forall_fmap, Forall_take.
    eapply Forall_impl; [exact (do_lat _ _ Hd)|]. by intros t [H _]. }
  split.
  - intros t Ht. apply concat_row; [done|]. rewrite lookup_app_l by lia. rewrite lookup_drop.
    change (map ?g ?l) with (g <$> l). rewrite list_lookup_fmap, lookup_take_lt by lia.
    by destruct (lookup_lt_is_Some_2 T (lo + t)) as [x ->]; [lia|].
  - intros t r Hr. apply concat_row; [done|]. rewrite lookup_app_r by lia. by replace (a + s - lo + t - _) with t by lia.
Qed.

Lemma keys_selected la T a s lo F win p sel rows : dims_ok la T -> lo <= p + 1 - Nat.min win (p + 1) -> lo <= a -> a + s <= length T ->
  p < a + s -> Forall (fun r => length r = dm_hd dm) F -> Forall2 (fun t r => F !! t = Some r) sel rows ->
  let cache := concat (drop lo (map tk_lat (take (a + s) T))) ++ concat F in
  Forall2 (fun t kr => row_at (dm_hd dm) cache (Z.to_nat t) = Some kr)
    (map Z.of_nat (key_list win lo (a + s - lo) p sel))
    (map tk_lat (drop (p + 1 - win) (take (p + 1) T)) ++ rows).
Proof.
  intros Hd Hlo Hla Ha Hp HF Hsel cache. destruct (cache_rows la T a s lo F Hd Hla Ha HF) as [H1 H2]. fold cache in H1, H2.
  unfold key_list. rewrite map_app. apply Forall2_app.
  - apply Forall2_same_length_lookup_2.
    + rewrite !length_map, length_seq, length_drop, length_take. lia.
    + intros i t kr Ht Hkr. change (map ?g ?l) with (g <$> l) in *. apply list_lookup_fmap_Some in Ht as (q & -> & Hq).
      apply lookup_seq in Hq as [-> Hq]. apply list_lookup_fmap_Some in Hkr as (x & -> & Hx). rewrite lookup_drop in Hx.
      apply lookup_take_Some in Hx as [Hx _]. rewrite Nat2Z.id, H1 by lia. do 2 f_equal.
      replace (lo + (p + 1 - Nat.min win (p + 1) - lo + i)) with (p + 1 - win + i) by lia. by rewrite Hx.
  - rewrite map_map. change (map ?g ?l) with (g <$> l). apply Forall2_fmap_l. eapply Forall2_impl; [exact Hsel|]. intros t r Hr.
    cbn. rewrite Nat2Z.id. by apply H2.
Qed.

Context (expf_unsigned : forall x, unsigned (expf x) = true).

(** The attention core over the assembled cache is the reference. *)
Lemma sparse_is_ref la T a s lo F win nc : picks_closed la -> dims_ok la T ->
  lo = a + 1 - Nat.min win (a + 1) -> 0 < win -> 0 < s -> a + s <= length T -> win = Z.to_nat (dm_window dm) ->
  mapM (fin_row crow srow la T) (seq 0 nc) = Some F -> Forall (fun r => length r = dm_hd dm) F ->
  nc = (if 0 <? la_ratio la then (a + s) / la_ratio la else 0) -> (Z.of_nat (length T + length T) < 2 ^ 31)%Z ->
  let toks := take s (drop a T) in
  let cache := concat (drop lo (map tk_lat (take (a + s) T))) ++ concat F in
  exists idxs topk o, key_indices win (a + s) a s lo (a + s - lo) (map pick (seq a s)) = Some (idxs, topk) /\
    attention_dsv4_sparse expf (concat (map tk_q toks)) cache (la_sink la) s (dm_h dm) (dm_hd dm) idxs topk scale = Some o /\
    mapM (attn_ref la T) (seq a s) = Some o.
Proof using expf_unsigned.
  intros Hpk Hd Hlo Hw0 Hs Ha Hwin HF HallF Hnc Hb toks cache.
  assert (length F = nc) as LF by (apply mapM_len in HF; by rewrite length_seq in HF).
  assert (forall i t, i < s -> t ∈ pick (a + i) -> t < nc) as Hpc.
  { intros i t Hi Ht. specialize (Hpk (a + i)). rewrite Forall_forall in Hpk. specialize (Hpk t Ht). unfold closed_at in Hpk. rewrite Hnc.
    destruct (0 <? la_ratio la); [|lia]. eapply Nat.lt_le_trans; [exact Hpk|]. apply Nat.Div0.div_le_mono. lia. }
  assert (nc <= length T) as Hnct.
  { subst nc. destruct (Nat.ltb_spec 0 (la_ratio la)); [|lia]. transitivity (a + s); [|done]. apply Nat.Div0.div_le_upper_bound.
    rewrite <- (Nat.mul_1_l (a + s)) at 1. apply Nat.mul_le_mono_r. lia. }
  destruct (key_indices_rows win a s nc (map pick (seq a s))) as (idxs & topk & Hk & Hrows).
  { by rewrite length_map, length_seq. }
  { apply Forall_fmap, Forall_forall. intros p Hp%elem_of_seq. apply Forall_forall. intros t Ht. apply (Hpc (p - a)); [lia|].
    by replace (a + (p - a)) with p by lia. }
  { lia. }
  rewrite <- Hlo in Hk, Hrows. exists idxs, topk.
  assert (forall i, i < s -> exists r,
    (let* sl := range idxs (i * topk) ((i + 1) * topk) in
     mapM (fun hh =>
       let* qv := range (concat (map tk_q toks)) ((i * dm_h dm + hh) * dm_hd dm) ((i * dm_h dm + hh) * dm_hd dm + dm_hd dm) in
       let* sink := la_sink la !! hh in
       attend_head expf qv cache sink (dm_hd dm) scale sl) (seq 0 (dm_h dm))) = Some r /\ attn_ref la T (a + i) = Some r) as Hone.
  { intros i Hi. assert (map pick (seq a s) !! i = Some (pick (a + i))) as Hsel.
    { change (map ?g ?l) with (g <$> l). by rewrite list_lookup_fmap, lookup_seq_lt by done. }
    destruct (Hrows i _ Hsel) as (row & Hrow & Hkept). unfold row_at in Hrow. rewrite Hrow. cbv beta iota.
    assert (exists rows, mapM (fin_row crow srow la T) (pick (a + i)) = Some rows /\ Forall2 (fun t r => F !! t = Some r) (pick (a + i)) rows)
      as (rows & Hfr & Hrs).
    { assert (forall t, t ∈ pick (a + i) -> exists r, fin_row crow srow la T t = Some r /\ F !! t = Some r) as Hone.
      { intros t Ht. apply mapM_Some in HF. destruct (Forall2_lookup_l _ _ _ t t HF) as (r & H1 & H2); [|by exists r].
        apply lookup_seq_lt. by apply (Hpc i). }
      clear -Hone. induction (pick (a + i)) as [|t ts IH]; [by exists []|]. destruct (Hone t) as (r & H1 & H2); [left|].
      destruct IH as (rs & H3 & H4); [intros x Hx; apply Hone; by right|]. exists (r :: rs). cbn. rewrite H1. cbn. rewrite H3. split; [done|by constructor]. }
    destruct (lookup_lt_is_Some_2 T (a + i)) as [t Ht]; [lia|].
    set (keys := window_rows T (a + i) ++ rows).
    assert (selects cache (dm_hd dm) row keys) as Hselects.
    { apply selects_of.
      - intros x Hx. destruct (Z.ltb_spec x 0); [lia|]. assert (x ∈ kept row) as Hxk.
        { apply list_elem_of_In. apply filter_In. split; [by apply list_elem_of_In|]. lia. }
        rewrite Hkept in Hxk. change (map ?g ?l) with (g <$> l) in Hxk. apply list_elem_of_fmap in Hxk as (q & -> & Hq).
        unfold key_list in Hq. apply elem_of_app in Hq as [[_ Hq]%elem_of_seq|Hq]; [lia|].
        apply list_elem_of_fmap in Hq as (j & -> & Hj). pose proof (Hpc i j Hi Hj). lia.
      - rewrite Hkept. unfold keys, window_rows. rewrite <- Hwin. apply (keys_selected la); try done; lia. }
    destruct (mapM_total (fun hh => let* sink := la_sink la !! hh in
      Some (attend_keys expf (take (dm_hd dm) (drop (hh * dm_hd dm) (tk_q t))) sink (dm_hd dm) scale keys)) (seq 0 (dm_h dm))) as [r Hr].
    { intros hh [_ Hh]%elem_of_seq. destruct (lookup_lt_is_Some_2 (la_sink la) hh) as [? ->]; [rewrite (do_sink _ _ Hd); lia|done]. }
    exists r. split.
    - rewrite <- Hr. apply mapM_ext_in. intros hh [_ Hh]%elem_of_seq.
      assert (row_at (dm_h dm * dm_hd dm) (concat (map tk_q toks)) i = Some (tk_q t)) as Hq.
      { apply stream_rows; [|done|done]. eapply Forall_impl; [exact (do_lat _ _ Hd)|]. by intros ? [_ ?]. }
      rewrite (sub_row _ _ _ _ _ _ Hq) by lia. cbv beta iota. destruct (la_sink la !! hh); [|done].
      by apply attend_head_keys.
    - unfold attn_ref, attn_keys. rewrite Hfr, Ht. exact Hr. }
  destruct (mapM_total (attn_ref la T) (seq a s)) as [o Ho].
  { intros p [Hp1 Hp2]%elem_of_seq. destruct (Hone (p - a) ltac:(lia)) as (r & _ & Hr). replace (a + (p - a)) with p in Hr by lia. by rewrite Hr. }
  exists o. split; [exact Hk|]. split; [|done]. rewrite <- Ho. unfold attention_dsv4_sparse.
  rewrite (mapM_shift _ (attn_ref la T) a s 0); [by rewrite Nat.add_0_r|].
  intros i Hi. destruct (Hone i ltac:(lia)) as (r & H1 & H2). by rewrite H1, H2.
Qed.

(** ** One call on one layer *)

Lemma take_extend {A} (T : list A) a s : take (a + s) T = take a T ++ take s (drop a T).
Proof. symmetry. apply take_take_drop. Qed.

Lemma raw_keys_inv kv li a window rows kv1 raw : dsv4_raw_keys kv li a window rows = Some (kv1, raw) ->
  exists kvr, dsv4_ring_for kv a (length rows) window = Some (kvr, dsv4_raw_span a (length rows) window) /\
    write_rows kvr li a rows = Some kv1 /\ (same_comp kv kv1 /\ same_icomp kv kv1) /\
    let '(lo, total, _) := dsv4_raw_span a (length rows) window in extend_latent_rows kv1 li lo total = Some raw.
Proof.
  unfold dsv4_raw_keys, dsv4_ring_for. destruct (dsv4_raw_span a (length rows) window) as [[lo total] win].
  intros H.
  match type of H with context [if ?c then ring_ensure ?k ?r else ?e] => destruct (if c then ring_ensure k r else e) as [kvr|] eqn:Er end; [|done]. destruct (write_rows kvr li a rows) as [kv2|] eqn:Ew; [|done].
  destruct (extend_latent_rows kv2 li lo total) as [raw'|] eqn:Ee; [|done]. injection H as <- <-. exists kvr. split; [done|]. split; [done|]. split; [|done].
  apply write_rows_same in Ew as [E1 E2].
  assert (same_comp kv kvr /\ same_icomp kv kvr) as [E3 E4].
  { destruct (0 <? window)%Z; [by eapply ring_ensure_same|]. by injection Er as <-. }
  split; [exact (transitivity E3 E1)|exact (transitivity E4 E2)].
Qed.

Lemma lo_eq a win : a + 1 - Nat.min win (a + 1) = a + 1 - win.
Proof. lia. Qed.

(** What a selector must do for a call: answer the picked rows, whatever the
    cache holds beside its own store, and change that store only. *)
Definition selects_rows (la : LayerAttn) (select : Selector) (kv : KvCache) (a s : nat) (Q : KvCache -> Prop) : Prop :=
  forall kv2 avail, same_icomp kv kv2 -> (forall i, i < s -> avail (a + i) = closed_at la (a + i)) ->
  exists c l st d, select kv2 avail = Some (set_icomp kv2 c l st d, map pick (seq a s)) /\ Q (set_icomp kv2 c l st d).

Lemma dsv4_attention_ok select la T kv M L li a s ccos csin Q :
  picks_closed la -> dims_ok la T -> (0 < dm_window dm)%Z -> kc_kv_lora kv = dm_hd dm -> ring_ok kv M L ->
  M !! li = Some (map tk_lat (take a T)) -> L <= a + 1 - Z.to_nat (dm_window dm) ->
  comp_ok la T kv li a -> table_rows crow srow (Nat.max (a + s) 1) (ccos, csin) ->
  0 < s -> a + s <= length T -> (Z.of_nat (length T + length T) < 2 ^ 31)%Z ->
  selects_rows la select kv a s Q ->
  exists kv' o, dsv4_attention expf dm scale la select kv li a (take s (drop a T)) ccos csin = Some (kv', o) /\
    mapM (attn_ref la T) (seq a s) = Some o /\
    ring_ok kv' (<[li := map tk_lat (take (a + s) T)]> M) (a + 1 - Z.to_nat (dm_window dm)) /\
    kc_kv_lora kv' = kc_kv_lora kv /\ comp_ok la T kv' li (a + s) /\ Q kv' /\
    forall la' T' lj n, lj <> li -> comp_ok la' T' kv lj n -> comp_ok la' T' kv' lj n.
Proof using expf_unsigned.
  intros Hpk Hd Hw Hlora Hring HM HL Hcomp Ht Hs Ha Hb Hsel. set (toks := take s (drop a T)).
  assert (length toks = s) as Ltoks by (unfold toks; rewrite length_take, length_drop; lia).
  assert (length (map tk_lat toks) = s) as Llat by (by rewrite length_map).
  destruct (raw_keys_ok (dm_window dm) kv M L li (map tk_lat (take a T)) a (map tk_lat toks) Hw Hring HM HL)
    as (kv1 & Hraw & Hring1 & Hlora1).
  { rewrite length_map, length_take. lia. }
  { intros E. apply (f_equal length) in E. rewrite Llat in E. simpl in E. lia. }
  { rewrite Hlora. apply Forall_fmap, Forall_take, Forall_drop. eapply Forall_impl; [exact (do_lat _ _ Hd)|]. by intros t [H _]. }
  assert (take a (map tk_lat (take a T)) ++ map tk_lat toks = map tk_lat (take (a + s) T)) as Hm.
  { rewrite take_ge by (rewrite length_map, length_take; lia). unfold toks. by rewrite take_extend, map_app. }
  rewrite Hm in Hring1. unfold linear_call in Hraw. cbn [snd] in Hraw. rewrite Hm in Hraw.
  destruct (raw_keys_inv _ _ _ _ _ _ _ Hraw) as (kvr & Er & Ew & [Hsame Hisame] & Eraw).
  unfold dsv4_attention. rewrite Ltoks, <- Llat, Er. unfold dsv4_raw_span in *. rewrite Llat in *.
  rewrite (proj2 (Z.ltb_lt _ _) Hw) in *. cbv beta iota zeta. rewrite Ew. cbv beta iota.
  set (win := Z.to_nat (dm_window dm)) in *. set (lo := a + 1 - Nat.min win (a + 1)) in *.
  assert (lo = a + 1 - win) as Hlo by apply lo_eq. rewrite <- Hlo in *.
  assert (comp_ok la T kv1 li a) as Hcomp1 by by eapply store_ok_same.
  assert (exists kv2, (if (0 <? la_ratio la) && la_pool la
      then compress_step expf dm la kv1 li a s (concat (map tk_kv toks)) (concat (map tk_gate toks)) ccos csin
      else Some kv1) = Some kv2 /\ comp_ok la T kv2 li (a + s) /\ (exists c l st d, kv2 = set_comp kv1 c l st d) /\
      forall la' T' lj n, lj <> li -> comp_ok la' T' kv1 lj n -> comp_ok la' T' kv2 lj n) as (kv2 & -> & Hcomp2 & (c & l & st & d & Hkv2) & Hoth).
  { destruct (Nat.ltb_spec 0 (la_ratio la)) as [Hr|Hr].
    - destruct (do_comp _ _ Hd Hr) as (-> & _). destruct (compress_step_ok la T kv1 li a s ccos csin Hd Hr Hcomp1 Ht Ha)
        as (kv2 & E1 & E2 & (c & l & st & d & E3 & _) & E4). exists kv2. split_and!; [done|done|by eauto|done].
    - exists kv1. split; [done|]. split; [|split; [|done]].
      + destruct Hcomp1 as [Hh _]. split; [|lia]. rewrite (proj2 (Nat.ltb_ge 0 (la_ratio la)) Hr) in *. exact Hh.
      + exists (kc_comp kv1), (kc_comp_len kv1), (kc_comp_state kv1), (kc_comp_dim kv1). by destruct kv1. }
  cbv beta iota. pose proof Hcomp2 as [(F & HF & Hheld & HallF) Hstate]. rewrite Hheld. cbv beta iota.
  set (nc := if 0 <? la_ratio la then (a + s) / la_ratio la else 0) in *.
  assert (length F = nc) as LF by (apply mapM_len in HF; by rewrite length_seq in HF).
  assert ((if 0 <? la_ratio la then length (concat F) / dm_hd dm else 0) = nc) as ->.
  { unfold nc in *. destruct (0 <? la_ratio la); [|done].
    rewrite (concat_len _ _ HallF), LF. apply Nat.div_mul. pose proof (do_hd _ _ Hd). lia. }
  assert (extend_latent_rows kv2 li lo (a + s) = Some (concat (drop lo (map tk_lat (take (a + s) T))))) as ->.
  { rewrite Hkv2. by rewrite <- Eraw. }
  cbv beta iota. rewrite (range_some (concat F)) by (rewrite (concat_len _ _ HallF); lia).
  rewrite drop_0, (take_ge (concat F)) by (rewrite (concat_len _ _ HallF); lia). cbv beta iota.
  destruct (Hsel kv2 (fun p => if 0 <? la_ratio la then Nat.min ((p + 1) / la_ratio la) nc else 0)) as (ic & il & ist & id & -> & HQ).
  { rewrite Hkv2. exact Hisame. }
  { intros i Hi. unfold closed_at, nc. destruct (0 <? la_ratio la); [|done]. apply Nat.min_l. apply Nat.Div0.div_le_mono. lia. }
  cbv beta iota.
  destruct (sparse_is_ref la T a s lo F win nc Hpk Hd eq_refl ltac:(lia) Hs Ha eq_refl HF HallF eq_refl Hb) as (idxs & topk & o & Hk & Ho & Href).
  rewrite Hk. cbv beta iota. fold toks in Ho. rewrite Ho. eexists _, o. split; [done|]. split; [done|]. split_and!.
  - apply ring_ok_set_icomp. rewrite Hkv2. by apply ring_ok_set_comp.
  - cbn. rewrite <- Hlora1, Hkv2. done.
  - by eapply store_ok_same; [|exact Hcomp2].
  - exact HQ.
  - intros la' T' lj n Hj Hc. eapply store_ok_same, Hoth; [done|done|]. by eapply store_ok_same.
Qed.
End Reference.
End Rows.
End Proofs.

(** ** The whole pass *)

Definition dims_of (cfg : Config) : Dims :=
  {| dm_h := len_of (n_heads cfg); dm_hd := len_of (qk_head cfg); dm_rd := len_of (qk_rope cfg);
     dm_window := Config.window cfg; dm_eps := eps cfg |}.

Lemma table_row_at trig freqs n w p : length freqs = w -> p < n ->
  row_at w (concat (map (rope_row trig freqs) (seq 0 n))) p = Some (rope_row trig freqs p).
Proof.
  intros Hf Hp. apply concat_row.
  - apply Forall_forall. intros r Hr. change (map ?g ?l) with (g <$> l) in Hr. apply list_elem_of_fmap in Hr as (t & -> & _).
    unfold rope_row. by rewrite length_map.
  - change (map ?g ?l) with (g <$> l). rewrite list_lookup_fmap, lookup_seq_lt by done. done.
Qed.

Lemma yarn_freqs_length powf lnf rd base factor orig bf bs : length (yarn_freqs powf lnf rd base factor orig bf bs) = rd / 2.
Proof.
  unfold yarn_freqs. destruct (orig =? 0)%Z; [by rewrite length_map, length_seq|].
  destruct (SFeqb _ _); by rewrite length_imap, length_map, length_seq.
Qed.

(** The rows of the table do not depend on how many there are. *)
Lemma yarn_table_rows powf lnf cosf sinf dm base factor orig bf bs n :
  let freqs := yarn_freqs powf lnf (dm_rd dm) base factor orig bf bs in
  table_rows dm (rope_row cosf freqs) (rope_row sinf freqs) n (yarn_rope_tables powf lnf cosf sinf (dm_rd dm) n base factor orig bf bs).
Proof.
  intros freqs. pose proof (yarn_freqs_length powf lnf (dm_rd dm) base factor orig bf bs) as Hf. fold freqs in Hf.
  assert (forall trig, length (concat (map (rope_row trig freqs) (seq 0 n))) = n * (dm_rd dm / 2)) as Hl.
  { intros trig. rewrite (concat_len (dm_rd dm / 2)); [by rewrite length_map, length_seq|].
    apply Forall_forall. intros r Hr. change (map ?g ?l) with (g <$> l) in Hr. apply list_elem_of_fmap in Hr as (t & -> & _).
    unfold rope_row. by rewrite length_map. }
  split; [apply Hl|]. split; [apply Hl|]. intros p Hp. split; by apply table_row_at.
Qed.

Lemma min_ratio_le ratios r : r ∈ ratios -> (0 < r)%Z -> (0 < min_ratio ratios <= r)%Z.
Proof.
  intros Hr H0. unfold min_ratio.
  assert (r ∈ List.filter (fun r => (0 <? r)%Z) ratios) as Hf.
  { apply list_elem_of_In, filter_In. split; [by apply list_elem_of_In|]. lia. }
  destruct (List.filter _ ratios) as [|x l]; [by apply elem_of_nil in Hf|].
  assert (forall l x, (fold_left Z.min l x <= x)%Z) as Hle.
  { clear. induction l as [|y l IH]; intros x; simpl; [lia|]. specialize (IH (Z.min x y)). lia. }
  assert (forall l x y, y ∈ l -> (fold_left Z.min l x <= y)%Z) as Hin.
  { clear -Hle. induction l as [|z l IH]; intros x y; [by intros ?%elem_of_nil|].
    intros [->|Hy]%elem_of_cons; simpl; [specialize (Hle l (Z.min x z)); lia|by apply IH]. }
  apply elem_of_cons in Hf as [->|Hf]; [specialize (Hle l x); lia|specialize (Hin l x r Hf); lia].
Qed.

Lemma for_model_comp cfg heads max_t : kc_comp (for_model cfg heads max_t) = [] /\ kc_icomp (for_model cfg heads max_t) = [].
Proof.
  unfold for_model, enable_kda. destruct (kda_state_lens cfg). by destruct (allocates_gqa_kv cfg), (bool_decide _), (bool_decide _).
Qed.

(** A cache without compressed rows, allocated: at the start of a layer's stream,
    or anywhere in that of a layer that compresses nothing. *)
Lemma init_comp_ok expf dm crow srow (enabled : bool) cfg kv0 nl la T li n :
  let kv := dsv4_comp_init enabled cfg nl kv0 in
  kc_comp kv0 = [] -> n = 0 \/ la_ratio la = 0 -> li < nl -> dm_hd dm = len_of (qk_head cfg) ->
  la_ratio la = (if enabled then Z.to_nat (ratio_at (compress_ratios cfg) li) else 0) ->
  length T <= len_of (max_ctx cfg) -> comp_ok expf dm crow srow la T kv li n.
Proof.
  intros kv H0 Hn Hli Hhd Hr HT. subst kv. unfold dsv4_comp_init, comp_rows_len. rewrite H0. destruct enabled; simpl.
  2:{ split; [|rewrite Hr; lia]. exists []. rewrite Hr. split_and!; [done| |constructor]. unfold comp_rows, rows_of. by rewrite H0. }
  set (mb := len_of (max_ctx cfg) / Z.to_nat (min_ratio (compress_ratios cfg)) + 2).
  set (r := ratio_at (compress_ratios cfg) li) in *.
  assert (forall {A} (g : nat -> A), map g (seq 0 nl) !! li = Some (g li)) as Hmap.
  { intros A g. change (map ?h ?l) with (h <$> l). by rewrite list_lookup_fmap, lookup_seq_lt. }
  eapply store_ok_fresh; [done|apply Hmap|by apply lookup_replicate_2|done|].
  intros Hpos. assert (0 < r)%Z as Hr0 by (unfold r in *; lia). simpl. rewrite Hmap. fold r.
  rewrite (proj2 (Z.ltb_lt _ _) Hr0). split; [by rewrite Hhd, Hr|]. unfold stream. rewrite length_map, length_replicate, Hhd. apply Nat.mul_le_mono_r.
  assert (r ∈ compress_ratios cfg) as Hin.
  { unfold r, ratio_at in *. destruct (compress_ratios cfg !! li) as [x|] eqn:Ex; simpl in *; [|lia]. by eapply list_elem_of_lookup_2. }
  destruct (min_ratio_le _ _ Hin Hr0) as [Hm1 Hm2]. unfold mb. transitivity (len_of (max_ctx cfg) / Z.to_nat (min_ratio (compress_ratios cfg))); [|lia].
  transitivity (len_of (max_ctx cfg) / la_ratio la); [by apply Nat.Div0.div_le_mono|]. apply Nat.div_le_compat_l. lia.
Qed.

(** The tables [dsv4_forward] builds for the Compressor. *)
Definition comp_tables (powf : f32 -> f32 -> f32) (lnf cosf sinf : f32 -> f32) (cfg : Config) (n : nat) : list f32 * list f32 :=
  yarn_rope_tables powf lnf cosf sinf (len_of (qk_rope cfg)) n (compress_theta cfg)
    (f32_of_Z 16) 65536 (f32_of_Z 32) f32_one.
Definition comp_row (powf : f32 -> f32 -> f32) (lnf trig : f32 -> f32) (cfg : Config) : nat -> list f32 :=
  rope_row trig (yarn_freqs powf lnf (len_of (qk_rope cfg)) (compress_theta cfg) (f32_of_Z 16) 65536 (f32_of_Z 32) f32_one).

Lemma sum_list_app l k : sum_list (l ++ k) = sum_list l + sum_list k.
Proof. induction l as [|x l IH]; simpl; lia. Qed.

(** The cut of a prompt covers it with calls of at least one token. *)
Lemma chunk_sizes_tile s chunk : 0 < s -> sum_list (chunk_sizes s chunk) = s /\ Forall (fun n => 0 < n <= Nat.max chunk 1) (chunk_sizes s chunk).
Proof.
  intros Hs. unfold chunk_sizes. set (c := Nat.max chunk 1). assert (0 < c) by (unfold c; lia).
  destruct (Nat.leb_spec s c) as [Hc|Hc]; [split; [simpl; lia|repeat constructor; lia]|].
  set (n := (s + c - 1) / c).
  assert (n * c < s + c /\ s <= n * c) as [Hn1 Hn2].
  { pose proof (Nat.div_mod_eq (s + c - 1) c). pose proof (Nat.mod_upper_bound (s + c - 1) c ltac:(lia)). fold n in H0. lia. }
  assert (forall k, k <= n -> sum_list (map (fun i => Nat.min c (s - i * c)) (seq 0 k)) = Nat.min s (k * c)) as Hsum.
  { induction k as [|k IH]; intros Hk; [simpl; lia|]. rewrite seq_S, map_app, sum_list_app, IH by lia. simpl.
    assert ((k + 1) * c <= n * c) by (apply Nat.mul_le_mono_r; lia). nia. }
  split; [rewrite Hsum by done; lia|]. apply Forall_fmap, Forall_forall. intros i [_ Hi]%elem_of_seq. simpl.
  assert ((i + 1) * c <= n * c) by (apply Nat.mul_le_mono_r; lia). lia.
Qed.

(** The Indexer's cut keeps closed rows only, each once, as many as it may. *)
Lemma index_select_rows topk avail score :
  Forall (fun t => t < avail) (index_select topk avail score) /\ NoDup (index_select topk avail score) /\
  length (index_select topk avail score) = if topk =? 0 then avail else Nat.min topk avail.
Proof.
  unfold index_select. destruct (Nat.eqb_spec avail 0) as [->|Ha].
  { split_and!; try constructor. destruct (topk =? 0); simpl; lia. }
  assert (forall l, l ⊆+ seq 0 avail -> Forall (fun t => t < avail) l /\ NoDup l) as Hsub.
  { intros l Hl. split.
    - apply Forall_forall. intros t Ht. apply (elem_of_submseteq _ _ _ Ht) in Hl. apply elem_of_seq in Hl. lia.
    - apply submseteq_Permutation in Hl as [k Hk]. pose proof (NoDup_seq 0 avail) as Hn. rewrite Hk in Hn.
      by apply NoDup_app in Hn as [? _]. }
  destruct (Nat.eqb_spec topk 0) as [Ht|Ht]; simpl.
  { destruct (Hsub (seq 0 avail)) as [H1 H2]; [done|]. by rewrite length_seq. }
  destruct (Nat.leb_spec avail topk).
  { destruct (Hsub (seq 0 avail)) as [H1 H2]; [done|]. rewrite length_seq. split_and!; try done. lia. }
  set (l := take topk (sort_by (scores_before score) (seq 0 avail))).
  destruct (Hsub (sort_by Nat.leb l)) as [H1 H2].
  { rewrite sort_by_perm. unfold l. rewrite <- (sort_by_perm (scores_before score) (seq 0 avail)) at 2. apply submseteq_take. }
  split_and!; try done. rewrite sort_by_length. unfold l. by rewrite length_take, sort_by_length, length_seq.
Qed.
