(* ===== verification/Dsv4Moe.v ===== *)
(** * DeepSeek-V4's experts ([crates/colibri-engine/src/dsv4.rs],
      [crates/colibri-engine/src/moe.rs])

    The two ways a token of DeepSeek-V4 chooses its experts, by score or by a
    table of its id, and the mixture that runs them: [dsv4_moe].  [exp] and
    [ln_1p] are the platform's, parameters.  Expert numbers are [nat]; a table
    entry is a u32. *)

From Stdlib Require Import ZifyBool ZifyNat SpecFloat.
From stdpp Require Import sorting.
From S2P Require Import Prelude Rows DType Math Floats Linear Sharding Config Model Moe MoeBatch Indexer Dsv4Attn.
Local Open Scope nat_scope.

Section Route.
Context (expf ln1pf : f32 -> f32).

Definition softplus (z : f32) : f32 := f32_add (f32_max z f0) (ln1pf (expf (SFopp (SFabs z)))).
Definition sqrt_softplus (z : f32) : f32 := f32_sqrt (softplus z).

(** The weights, normalised and scaled, by expert. *)
Definition route_inv (sum route_scale : f32) : f32 := if SFltb f0 sum then f32_div route_scale sum else f0.
Definition by_expert (a b : nat * f32) : bool := a.1 <=? b.1.
Definition scaled (sum route_scale : f32) (out : list (nat * f32)) : list (nat * f32) :=
  sort_by by_expert (map (fun ew => (ew.1, f32_mul ew.2 (route_inv sum route_scale))) out).

(** What the selection compares: the scores, with the bias when there is one. *)
Definition route_keys (scores bias : list f32) : option (list f32) :=
  match bias with
  | [] => Some scores
  | _ => mapM (fun '(e, s) => let* b := bias !! e in Some (f32_add s b)) (imap pair scores)
  end.
Definition route_order (keys : list f32) : list nat :=
  sort_by (scores_before (fun e => nth e keys f0)) (seq 0 (length keys)).

Definition route_topk (logits bias : list f32) (topk : nat) (route_scale : f32) : option (list (nat * f32)) :=
  let topk := Nat.min topk (length logits) in
  if topk =? 0 then Some []
  else
    let scores := map sqrt_softplus logits in
    let* keys := route_keys scores bias in
    let out := map (fun e => (e, nth e scores f0)) (take topk (route_order keys)) in
    Some (scaled (fold_left f32_add (map snd out) f0) route_scale out).

(** A repeated expert is merged: its weights are summed. *)
Definition add_pick (out : list (nat * f32)) (e : nat) (w : f32) : list (nat * f32) :=
  match list_find (fun p => p.1 = e) out with
  | Some (i, (x, acc)) => <[i := (x, f32_add acc w)]> out
  | None => out ++ [(e, w)]
  end.
Definition hash_step (logits : list f32) (acc : f32 * list (nat * f32)) (e : Z) : f32 * list (nat * f32) :=
  match logits !! Z.to_nat e with
  | None => acc
  | Some z => let w := sqrt_softplus z in (f32_add acc.1 w, add_pick acc.2 (Z.to_nat e) w)
  end.
Definition route_hash (logits : list f32) (eids : list Z) (route_scale : f32) : list (nat * f32) :=
  let '(sum, out) := foldl (hash_step logits) (f0, []) eids in scaled sum route_scale out.

(** ** The mixture *)

(** [k] slots for a token: what it picked, then its first pick at weight zero. *)
Definition pad_picks (k : nat) (picked : list (nat * f32)) : list nat * list f32 :=
  (map fst picked ++ replicate (k - length picked) (default 0 (fst <$> head picked)),
   map snd picked ++ replicate (k - length picked) f0).

(** A layer with a table chooses by it, when there is an id for every row. *)
Definition hashes (l : Layer) (s_len : nat) (ids : list Z) : bool := negb (length (l_tid2eid l) =? 0) && (length ids =? s_len).
Definition table_row (l : Layer) (k : nat) (id : Z) : list Z :=
  let base := Z.to_nat (Z.max id 0) * k in default [] (range (l_tid2eid l) base (base + k)).

Definition dsv4_route (c : Config) (l : Layer) (hash : bool) (row : list f32) (id : Z) : option (list nat * list f32) :=
  let k := active_experts c in
  let* picked :=
    if hash then Some (route_hash row (table_row l k id) (routed_scale c))
    else route_topk row (l_router_bias l) k (routed_scale c) in
  Some (pad_picks k picked).

Definition dsv4_route_rows (c : Config) (l : Layer) (x : list f32) (s_len : nat) (ids : list Z) : option (list (list nat * list f32)) :=
  let '(d, e_n) := (Z.to_nat (hidden c), Z.to_nat (n_experts c)) in
  let* logits := matmul_f32 (s_len * e_n) x (l_router l) s_len d e_n in
  let* rows := each_row e_n s_len Some logits in
  mapM (fun '(si, row) => dsv4_route c l (hashes l s_len ids) row (nth si ids 0%Z)) (imap pair rows).
End Route.

Section Moe.
Context (expf tanhf ln1pf : f32 -> f32) (act : ActCfg) {E X : Type} `{!ExpertProvider E}.

(** [dsv4_moe]; [out] has length [out_len]. *)
Definition dsv4_moe (c : Config) (l : Layer) (layer : nat) (x : list f32) (s_len : nat) (ids : list Z) (out_len : nat)
    : res (MoeError E X) (list f32) :=
  let '(d, e_n) := (Z.to_nat (hidden c), Z.to_nat (n_experts c)) in
  let? rows := unwrap (dsv4_route_rows expf ln1pf c l x s_len ids) in
  let? (uniq, w_mat) := unwrap (union_and_weights (concat (map fst rows)) (concat (map snd rows)) s_len (active_experts c) e_n) in
  let? out := compute_experts_partial_into expf tanhf act layer (map (fun e => u32 (Z.of_nat e)) uniq) w_mat x s_len d
                (replicate out_len f0) in
  if (0 <? n_shared c)%Z then
    unwrap (let* sh := ffn expf tanhf act (l_sh_gate l) (l_sh_up l) (l_sh_down l) x s_len (s_len * d) in Some (zip_add out sh))
  else ROk out.
End Moe.

(** ** The choice by score *)

Lemma SFcompare_swap x y : SFcompare y x = option_map CompOpp (SFcompare x y).
Proof.
  destruct x as [sx|sx| |sx mx ex], y as [sy|sy| |sy my ey]; cbn; try (destruct sx); try (destruct sy); cbn; try done.
  all: rewrite (Z.compare_antisym ex ey); destruct (Z.compare_spec ex ey); cbn; try done.
  all: change (Pos.compare_cont Eq) with Pos.compare; rewrite (Pos.compare_antisym mx my); by destruct (Pos.compare mx my).
Qed.

Section Ranked.
Context (score : nat -> f32) (num : forall e, is_nan (score e) = false).

Lemma scores_before_spec a b : scores_before score a b = true <->
  SFltb (score b) (score a) = true \/ SFltb (score a) (score b) = false /\ a <= b.
Proof using Type.
  unfold scores_before, SFltb. rewrite (SFcompare_swap (score b) (score a)). destruct (SFcompare (score b) (score a)) as [[| |]|]; cbn.
  all: rewrite ?Nat.leb_le; intuition (done || congruence).
Qed.

Lemma scores_before_total a b : scores_before score a b = false -> scores_before score b a = true.
Proof using Type.
  unfold scores_before. rewrite (SFcompare_swap (score b) (score a)). destruct (SFcompare (score b) (score a)) as [[| |]|]; cbn; lia.
Qed.

Lemma scores_before_trans a b c : scores_before score a b = true -> scores_before score b c = true -> scores_before score a c = true.
Proof using num.
  assert (forall x y, SFltb (score x) (score y) = true <-> key_lt (key (score x)) (key (score y))) as Hk.
  { intros x y. rewrite SFltb_key. pose proof (num x). pose proof (num y). tauto. }
  rewrite !scores_before_spec, <- !not_true_iff_false, !Hk.
  destruct (key (score a)) as [[??]?], (key (score b)) as [[??]?], (key (score c)) as [[??]?]. cbn. lia.
Qed.
End Ranked.

Lemma route_keys_length scores bias keys : route_keys scores bias = Some keys -> length keys = length scores.
Proof.
  unfold route_keys. destruct bias as [|b bias]; [by intros [= <-]|]. intros E. apply mapM_len in E. by rewrite length_imap in E.
Qed.

(** The experts in the order of the selection, each before all that follow. *)
Lemma route_order_spec keys : Forall (fun v => is_nan v = false) keys ->
  route_order keys ≡ₚ seq 0 (length keys) /\ NoDup (route_order keys) /\
  StronglySorted (fun i e => beats keys i e) (route_order keys).
Proof.
  intros Hn. assert (route_order keys ≡ₚ seq 0 (length keys)) as Hp by apply sort_by_perm.
  assert (NoDup (route_order keys)) as Hnd by (rewrite Hp; apply NoDup_seq). split_and!; [done|done|].
  assert (forall e, is_nan (nth e keys f0) = false) as Hnum.
  { intros e. rewrite nth_lookup. destruct (keys !! e) as [v|] eqn:Hv; [|done]. rewrite Forall_lookup in Hn. by eapply Hn. }
  pose proof (sort_by_sorted (scores_before (fun e => nth e keys f0)) (scores_before_total _)
    (scores_before_trans _ Hnum) (seq 0 (length keys))) as Hs. fold (route_order keys) in Hs. clear Hp.
  induction Hs as [|i l Hs IH Hi]; [constructor|]. apply NoDup_cons in Hnd as [Hni Hnd]. constructor; [by apply IH|].
  rewrite Forall_forall in *. intros e He. specialize (Hi e He). apply scores_before_spec in Hi as [Hi|[Hi Hle]]; [by left|right].
  split; [done|]. destruct (decide (i = e)) as [->|]; [done|lia].
Qed.

Lemma scaled_spec sum scale (out : list (nat * f32)) : NoDup out.*1 ->
  StronglySorted lt (scaled sum scale out).*1 /\
  scaled sum scale out ≡ₚ map (fun ew => (ew.1, f32_mul ew.2 (route_inv sum scale))) out.
Proof.
  intros Hn. assert (scaled sum scale out ≡ₚ map (fun ew => (ew.1, f32_mul ew.2 (route_inv sum scale))) out) as Hp by apply sort_by_perm.
  split; [|done]. assert (NoDup (scaled sum scale out).*1) as Hnd.
  { rewrite Hp. change (map ?f ?l) with (f <$> l). rewrite <- list_fmap_compose. exact Hn. }
  pose proof (sort_by_sorted by_expert ltac:(unfold by_expert; intros; lia) ltac:(unfold by_expert; intros; lia)
    (map (fun ew => (ew.1, f32_mul ew.2 (route_inv sum scale))) out)) as Hs. fold (scaled sum scale out) in Hs. clear Hp.
  induction Hs as [|x l Hs IH Hx]; [constructor|]. cbn in Hnd |- *. apply NoDup_cons in Hnd as [Hnx Hnd]. constructor; [by apply IH|].
  rewrite Forall_forall in Hx. apply Forall_forall. intros e (y & -> & Hy)%list_elem_of_fmap. specialize (Hx y Hy). unfold by_expert in Hx.
  destruct (decide (x.1 = y.1)) as [E|]; [|lia]. exfalso. apply Hnx. rewrite E. by apply list_elem_of_fmap_2.
Qed.

(** C27: DeepSeek-V4's router picks the best by biased score and weighs by the
    unbiased one.  When what it compares are numbers, [route_topk] picks
    [min topk n] distinct experts, listed by number; each goes before every
    expert left out, by the score plus the bias and then by number; and the
    weight of each is its own score, without the bias, times the scale over the
    sum of the chosen experts' scores, added best first. *)
Theorem route_topk_correct expf ln1pf logits bias topk scale keys :
  route_keys (map (sqrt_softplus expf ln1pf) logits) bias = Some keys -> Forall (fun v => is_nan v = false) keys ->
  exists picked best, route_topk expf ln1pf logits bias topk scale = Some picked /\
    StronglySorted lt picked.*1 /\ length picked = Nat.min topk (length logits) /\ best ≡ₚ picked.*1 /\
    StronglySorted (beats keys) best /\
    (forall i e, i ∈ best -> e < length logits -> e ∉ best -> beats keys i e) /\
    let score e := sqrt_softplus expf ln1pf (nth e logits f0) in
    let sum := fold_left f32_add (map score best) f0 in
    forall e w, (e, w) ∈ picked -> e < length logits /\ w = f32_mul (score e) (if SFltb f0 sum then f32_div scale sum else f0).
Proof.
  intros Hk Hn. pose proof (route_keys_length _ _ _ Hk) as Hl. rewrite length_map in Hl.
  destruct (route_order_spec keys Hn) as (Hp & Hnd & Hs). rewrite Hl in Hp.
  unfold route_topk. set (k := Nat.min topk (length logits)).
  destruct (Nat.eqb_spec k 0) as [Hk0|Hk0].
  { exists [], []. split_and!; [done|constructor|done|done|constructor|by intros i e ?%elem_of_nil|by intros e w ?%elem_of_nil]. }
  rewrite Hk. cbv beta iota. set (best := take k (route_order keys)). set (score e := sqrt_softplus expf ln1pf (nth e logits f0)).
  assert (best ++ drop k (route_order keys) = route_order keys) as Hsplit by apply take_drop.
  assert (forall e, e ∈ best -> e < length logits) as Hlt.
  { intros e He. assert (e ∈ seq 0 (length logits)) as Hin; [|apply elem_of_seq in Hin; lia]. rewrite <- Hp, <- Hsplit. apply elem_of_app. by left. }
  assert (map (fun e => (e, nth e (map (sqrt_softplus expf ln1pf) logits) f0)) best = map (fun e => (e, score e)) best) as ->.
  { apply map_ext_in. intros e He%list_elem_of_In%Hlt. f_equal. unfold score. rewrite <- (map_nth (sqrt_softplus expf ln1pf)). apply nth_indep. by rewrite length_map. }
  set (out := map (fun e => (e, score e)) best). assert (out.*1 = best) as Ho1.
  { unfold out. change (map ?f ?l) with (f <$> l). rewrite <- list_fmap_compose. apply list_fmap_id. }
  assert (map snd out = map score best) as Ho2 by (unfold out; by rewrite map_map).
  assert (NoDup best) as Hnb by (rewrite <- Hsplit in Hnd; by apply NoDup_app in Hnd as [? _]).
  rewrite Ho2. set (sum := fold_left f32_add (map score best) f0).
  destruct (scaled_spec sum scale out) as [H1 H2]; [by rewrite Ho1|].
  exists (scaled sum scale out), best. split_and!; [done|done| | | | |].
  - rewrite H2, length_map. unfold out. rewrite length_map. unfold best. rewrite length_take, Hp, length_seq. unfold k. lia.
  - rewrite H2. change (map ?f ?l) with (f <$> l). rewrite <- list_fmap_compose. by rewrite <- Ho1 at 1.
  - rewrite <- Hsplit in Hs. by apply StronglySorted_app_1_l in Hs.
  - intros i e Hi He Hne. rewrite <- Hsplit in Hs. eapply (StronglySorted_app_cross _ best); [exact Hs|done|].
    assert (e ∈ best ++ drop k (route_order keys)) as Hin by (rewrite Hsplit, Hp; apply elem_of_seq; lia).
    by apply elem_of_app in Hin as [?|?].
  - cbv zeta. intros e w He. rewrite H2 in He. apply list_elem_of_fmap in He as ([e' w'] & [= -> ->] & He).
    unfold out in He. apply list_elem_of_fmap in He as (e & [= -> ->] & He). split; [by apply Hlt|done].
Qed.

(** ** The choice by table *)

Lemma add_pick_keys out e w : (add_pick out e w).*1 = if bool_decide (e ∈ out.*1) then out.*1 else out.*1 ++ [e].
Proof.
  unfold add_pick. destruct (list_find _ out) as [[i [x acc]]|] eqn:Ef.
  - apply list_find_Some in Ef as (Hi & Hx & _). cbn in Hx. subst x. rewrite bool_decide_eq_true_2.
    + change (map ?f ?l) with (f <$> l). rewrite list_fmap_insert. apply list_insert_id. by rewrite list_lookup_fmap, Hi.
    + apply list_elem_of_fmap. exists (e, acc). split; [done|]. by eapply list_elem_of_lookup_2.
  - apply list_find_None in Ef. rewrite bool_decide_eq_false_2; [by rewrite fmap_app|].
    intros (y & -> & Hy)%list_elem_of_fmap. rewrite Forall_forall in Ef. by apply (Ef y Hy).
Qed.

(** Experts of the table, each once, as many as it names at most. *)
Definition distinct_below (n : nat) (out : list (nat * f32)) : Prop := NoDup out.*1 /\ Forall (fun e => e < n) out.*1.

Lemma hash_fold expf ln1pf logits eids : forall acc, distinct_below (length logits) acc.2 ->
  let out := (foldl (hash_step expf ln1pf logits) acc eids).2 in
  distinct_below (length logits) out /\ length out <= length acc.2 + length eids.
Proof.
  induction eids as [|e eids IH]; intros acc Ha; cbn [foldl length]; [split; [done|lia]|].
  assert (distinct_below (length logits) (hash_step expf ln1pf logits acc e).2 /\
    length (hash_step expf ln1pf logits acc e).2 <= length acc.2 + 1) as [H1 H2].
  { unfold hash_step. destruct (logits !! Z.to_nat e) as [z|] eqn:Hz; [|split; [done|lia]]. cbn. destruct Ha as [Hn Hf].
    pose proof (add_pick_keys acc.2 (Z.to_nat e) (sqrt_softplus expf ln1pf z)) as Hk. apply lookup_lt_Some in Hz.
    assert (length (add_pick acc.2 (Z.to_nat e) (sqrt_softplus expf ln1pf z)).*1 <= length acc.2 + 1) as Hlen.
    { rewrite Hk. case_bool_decide; rewrite ?length_app, ?length_fmap; simpl; lia. }
    rewrite length_fmap in Hlen. split; [|done]. unfold distinct_below. rewrite Hk. case_bool_decide as He; [done|]. split.
    - apply NoDup_app. split_and!; [done| |apply NoDup_singleton]. by intros x Hx ->%list_elem_of_singleton.
    - apply Forall_app. split; [done|]. by constructor. }
  destruct (IH _ H1) as [H3 H4]. split; [done|lia].
Qed.

Lemma distinct_perm n out out' : out' ≡ₚ out -> distinct_below n out -> distinct_below n out'.
Proof. intros Hp. unfold distinct_below. by rewrite Hp. Qed.

Lemma distinct_scaled n sum scale out : distinct_below n out -> distinct_below n (scaled sum scale out) /\ length (scaled sum scale out) = length out.
Proof.
  intros Hd. destruct (scaled_spec sum scale out (proj1 Hd)) as [_ Hp]. split; [|by rewrite Hp, length_map].
  eapply distinct_perm; [exact Hp|]. unfold distinct_below. change (map ?f ?l) with (f <$> l). by rewrite <- list_fmap_compose.
Qed.

Lemma route_hash_below expf ln1pf logits eids scale :
  distinct_below (length logits) (route_hash expf ln1pf logits eids scale) /\ length (route_hash expf ln1pf logits eids scale) <= length eids.
Proof.
  unfold route_hash. destruct (hash_fold expf ln1pf logits eids (f0, [])) as [H1 H2]; [by split; constructor|].
  destruct (foldl _ _ eids) as [sum out]. cbn in *. destruct (distinct_scaled _ sum scale out H1) as [H3 ->]. split; [done|lia].
Qed.

Lemma route_topk_below expf ln1pf logits bias topk scale : bias = [] \/ length logits <= length bias ->
  exists picked, route_topk expf ln1pf logits bias topk scale = Some picked /\
    distinct_below (length logits) picked /\ length picked = Nat.min topk (length logits).
Proof.
  intros Hb. unfold route_topk. destruct (Nat.eqb_spec (Nat.min topk (length logits)) 0) as [->|Hk].
  { exists []. split_and!; [done|by split; constructor|done]. }
  assert (exists keys, route_keys (map (sqrt_softplus expf ln1pf) logits) bias = Some keys /\ length keys = length logits) as (keys & -> & Hl).
  { unfold route_keys. destruct bias as [|b bias]; [eexists; split; [done|by rewrite length_map]|]. destruct Hb as [|Hb]; [done|].
    edestruct (mapM_total (fun '(e, s) => let* b := (b :: bias) !! e in Some (f32_add s b)) (imap pair (map (sqrt_softplus expf ln1pf) logits))) as [keys E].
    - intros [i z] Hi. apply elem_of_lookup_imap in Hi as (i' & z' & [= -> ->] & Hi). apply lookup_lt_Some in Hi. rewrite length_map in Hi.
      destruct (lookup_lt_is_Some_2 (b :: bias) i') as [y ->]; [lia|done].
    - exists keys. split; [done|]. apply mapM_len in E. by rewrite length_imap, length_map in E. }
  cbv beta iota. eexists. split; [done|].
  assert (route_order keys ≡ₚ seq 0 (length logits)) as Hp by (rewrite <- Hl; apply sort_by_perm).
  set (best := take _ _). assert (best ++ drop (Nat.min topk (length logits)) (route_order keys) = route_order keys) as Hsplit by apply take_drop.
  assert (NoDup (route_order keys)) as Hnd by (rewrite Hp; apply NoDup_seq).
  match goal with |- context [scaled ?s ?c ?o] => destruct (distinct_scaled (length logits) s c o) as [H1 H2] end.
  - unfold distinct_below. change (map ?f ?l) with (f <$> l). rewrite <- list_fmap_compose. cbn. rewrite list_fmap_id.
    rewrite <- Hsplit in Hnd. split; [by apply NoDup_app in Hnd as [? _]|]. apply Forall_forall. intros e He.
    assert (e ∈ seq 0 (length logits)) as Hin; [|apply elem_of_seq in Hin; lia]. rewrite <- Hp, <- Hsplit. apply elem_of_app. by left.
  - split; [done|]. rewrite H2, length_map. unfold best. rewrite length_take, Hp, length_seq. lia.
Qed.

Lemma pad_picks_shape k e_n picked : length picked <= k -> 0 < e_n -> Forall (fun e => e < e_n) picked.*1 ->
  length (pad_picks k picked).1 = k /\ length (pad_picks k picked).2 = k /\ Forall (fun e => e < e_n) (pad_picks k picked).1.
Proof.
  intros Hk Hn Hp. unfold pad_picks. cbn [fst snd]. rewrite !length_app, !length_map, !length_replicate. split_and!; [lia|lia|].
  apply Forall_app. split; [done|]. apply Forall_replicate. destruct picked as [|p picked]; [done|]. by apply Forall_cons in Hp as [? _].
Qed.

Lemma pick_weight_app ps qs w e : pick_weight (ps ++ qs) w e = pick_weight qs (pick_weight ps w e) e.
Proof. unfold pick_weight. by rewrite foldl_app. Qed.

Lemma pad_picks_of k picked : picks_of (pad_picks k picked) = picked ++ replicate (k - length picked) (default 0 (fst <$> head picked), f0).
Proof.
  unfold picks_of, pad_picks. cbn [fst snd]. rewrite combine_app_eq by (by rewrite !length_map). f_equal.
  - induction picked as [|[e w] picked IH]; [done|]. cbn. by f_equal.
  - generalize (k - length picked). intros n. induction n as [|n IH]; [done|]. cbn. by f_equal.
Qed.

(** When entries of the table were merged, the slots that are left are filled
    with the first pick at weight zero, and the last weight of an expert is the
    one that counts: the first pick is dropped. *)
Lemma merged_first_dropped k p picked : length (p :: picked) < k -> pick_weight (picks_of (pad_picks k (p :: picked))) f0 p.1 = f0.
Proof.
  intros Hk. rewrite pad_picks_of, pick_weight_app. cbn [head fmap option_fmap option_map default].
  generalize (pick_weight (p :: picked) f0 p.1). destruct (k - length (p :: picked)) as [|n] eqn:En; [lia|]. clear En.
  cbn [replicate]. intros w. cbn. rewrite Nat.eqb_refl. clear w. induction n as [|n IH]; [done|]. cbn. rewrite Nat.eqb_refl. exact IH.
Qed.

(** Unmerged, every expert keeps its weight. *)
Lemma unmerged_kept k picked e w : length picked = k -> NoDup picked.*1 -> (e, w) ∈ picked ->
  pick_weight (picks_of (pad_picks k picked)) f0 e = w.
Proof.
  intros <- Hn Hin. rewrite pad_picks_of, Nat.sub_diag. cbn [replicate]. rewrite app_nil_r. generalize f0.
  induction picked as [|[x v] picked IH]; intros w0; [by apply elem_of_nil in Hin|]. cbn in Hn. apply NoDup_cons in Hn as [Hx Hn].
  apply elem_of_cons in Hin as [[= <- <-]|Hin].
  - cbn. rewrite Nat.eqb_refl. by apply pick_weight_other.
  - cbn. by apply IH.
Qed.

(** Distinct entries are taken as they are. *)
Lemma hash_distinct expf ln1pf logits (scale : f32) (es : list nat) : NoDup es -> Forall (fun e => e < length logits) es ->
  let score e := sqrt_softplus expf ln1pf (nth e logits f0) in
  foldl (hash_step expf ln1pf logits) (f0, []) (map Z.of_nat es) = (fold_left f32_add (map score es) f0, map (fun e => (e, score e)) es).
Proof.
  intros Hn Hlt score. induction es as [|e es IH] using rev_ind; [done|].
  apply NoDup_app in Hn as (Hn & Hne & _). apply Forall_app in Hlt as [Hlt He]. apply Forall_cons in He as [He _].
  rewrite !map_app, foldl_app, IH by done. cbn [map foldl]. unfold hash_step. rewrite Nat2Z.id.
  destruct (lookup_lt_is_Some_2 logits e He) as [z Hz]. rewrite Hz. cbn.
  assert (sqrt_softplus expf ln1pf z = score e) as -> by (unfold score; by rewrite nth_lookup, Hz). rewrite fold_left_app. cbn. f_equal.
  unfold add_pick. assert (list_find (fun p : nat * f32 => p.1 = e) (map (fun e => (e, score e)) es) = None) as ->; [|done].
  apply list_find_None, Forall_map, Forall_forall. intros x Hx Hxe. cbn in Hxe. subst x. apply (Hne e Hx). by apply list_elem_of_singleton.
Qed.

(** What is picked is what the table names. *)
Lemma hash_named expf ln1pf logits eids : forall acc e,
  e ∈ (foldl (hash_step expf ln1pf logits) acc eids).2.*1 <->
  e ∈ acc.2.*1 \/ e < length logits /\ e ∈ map Z.to_nat eids.
Proof.
  induction eids as [|x eids IH]; intros acc e; cbn [foldl map]; [rewrite elem_of_nil; tauto|]. rewrite IH, elem_of_cons.
  assert (e ∈ (hash_step expf ln1pf logits acc x).2.*1 <-> e ∈ acc.2.*1 \/ e < length logits /\ e = Z.to_nat x) as ->; [|tauto].
  unfold hash_step. destruct (logits !! Z.to_nat x) as [z|] eqn:Hz.
  - cbn. rewrite add_pick_keys. apply lookup_lt_Some in Hz. case_bool_decide as Hx.
    + split; [by left|]. intros [H|[_ ->]]; done.
    + rewrite elem_of_app, list_elem_of_singleton. split; [intros [?| ->]; auto|intros [?|[_ ->]]; auto].
  - apply lookup_ge_None in Hz. split; [by left|]. intros [H|[Hlt ->]]; [done|lia].
Qed.

(** The table's choice, and what becomes of a repeated entry.  A table row of
    [k] experts without repetition gives each its own score, normalised over the
    row and scaled.  When an expert is repeated, the experts are merged as
    [route_hash] says, but the slot that is left over is filled with the first
    pick, the lowest expert of the row, at weight zero, and the weights keep the
    last: that expert counts for nothing. *)
Theorem table_choice expf ln1pf logits (es : list nat) scale :
  Forall (fun e => e < length logits) es ->
  let score e := sqrt_softplus expf ln1pf (nth e logits f0) in
  let picks := picks_of (pad_picks (length es) (route_hash expf ln1pf logits (map Z.of_nat es) scale)) in
  (NoDup es -> forall e, e ∈ es ->
    pick_weight picks f0 e = f32_mul (score e) (route_inv (fold_left f32_add (map score es) f0) scale)) /\
  (~ NoDup es -> exists e, e ∈ es /\ (forall x, x ∈ es -> e <= x) /\ pick_weight picks f0 e = f0).
Proof.
  intros Hlt score picks. split.
  - intros Hn e He. unfold picks, route_hash.
    set (sum := fold_left f32_add (map score es) f0). set (out := map (fun e => (e, score e)) es).
    assert (foldl (hash_step expf ln1pf logits) (f0, []) (map Z.of_nat es) = (sum, out)) as -> by exact (hash_distinct expf ln1pf logits scale es Hn Hlt).
    assert (out.*1 = es) as Ho by (unfold out; change (map ?f ?l) with (f <$> l); rewrite <- list_fmap_compose; apply list_fmap_id).
    destruct (scaled_spec sum scale out) as [H1 H2]; [by rewrite Ho|]. apply unmerged_kept.
    + rewrite H2, length_map. unfold out. by rewrite length_map.
    + rewrite H2. change (map ?f ?l) with (f <$> l). rewrite <- list_fmap_compose. change (NoDup out.*1). by rewrite Ho.
    + rewrite H2. apply list_elem_of_fmap. exists (e, score e). split; [done|]. apply list_elem_of_fmap. by exists e.
  - intros Hn. unfold picks, route_hash.
    pose proof (hash_fold expf ln1pf logits (map Z.of_nat es) (f0, [])) as Hf. cbv zeta in Hf. destruct Hf as [Hf Hlen]; [by split; constructor|].
    pose proof (hash_named expf ln1pf logits (map Z.of_nat es) (f0, [])) as Hin. rewrite map_map in Hin.
    assert (map (fun e => Z.to_nat (Z.of_nat e)) es = es) as Hid by (rewrite <- (map_id es) at 2; apply map_ext; intros; lia). rewrite Hid in Hin.
    destruct (foldl _ _ (map Z.of_nat es)) as [sum out]. cbn [snd] in *. rewrite length_map in Hlen. simpl in Hlen.
    assert (forall e, e ∈ out.*1 <-> e ∈ es) as Hout.
    { intros e. rewrite Hin, elem_of_nil. split; [tauto|]. intros He. right. split; [|done]. rewrite Forall_forall in Hlt. by apply Hlt. }
    assert (length out < length es) as Hshort.
    { destruct (decide (length out = length es)) as [Heq|]; [|lia]. exfalso. apply Hn.
      assert (out.*1 ≡ₚ es) as <-; [|apply Hf]. apply submseteq_length_Permutation; [|rewrite length_fmap; lia].
      apply NoDup_submseteq; [apply Hf|]. intros e. by rewrite Hout. }
    destruct (scaled_spec sum scale out (proj1 Hf)) as [H1 H2].
    assert (forall e, e ∈ (scaled sum scale out).*1 <-> e ∈ es) as Hs.
    { intros e. rewrite H2. change (map ?f ?l) with (f <$> l). rewrite <- list_fmap_compose. exact (Hout e). }
    destruct (scaled sum scale out) as [|p ps] eqn:Es.
    + exfalso. destruct es as [|e es]; [by apply Hn; constructor|]. specialize (Hs e). cbn in Hs. rewrite elem_of_nil, elem_of_cons in Hs. tauto.
    + exists p.1. split_and!; [apply Hs; by left| |].
      * intros x Hx%Hs. cbn in H1, Hx. apply StronglySorted_inv in H1 as [_ H1]. rewrite Forall_forall in H1.
        apply elem_of_cons in Hx as [->|Hx]; [done|]. apply Nat.lt_le_incl. by apply H1.
      * apply merged_first_dropped. rewrite H2, length_map. lia.
Qed.

(** ** The mixture, token by token *)

Section Tokens.
Context (expf tanhf ln1pf : f32 -> f32) (act : ActCfg) {E X : Type} `{!ExpertProvider E} (c : Config) (l : Layer) (layer : nat).
Local Set Default Proof Using "All".

Abbreviation d := (Z.to_nat (hidden c)).
Abbreviation e_n := (Z.to_nat (n_experts c)).
Abbreviation by_table := (negb (length (l_tid2eid l) =? 0)).

(** A layer the loader accepts, on a node that has its experts. *)
Record dsv4_ready : Prop := {
  dr_experts : 0 < e_n /\ (n_experts c < 2 ^ 32)%Z;
  dr_router : length (l_router l) = e_n * d;
  dr_bias : l_router_bias l = [] \/ e_n <= length (l_router_bias l);
  dr_stocked : stocked expf tanhf act c layer d;
  dr_shared : (0 < n_shared c)%Z -> wf_ffn act (l_sh_gate l) (l_sh_up l) (l_sh_down l) d
}.

(** The choice of a token, which is its id and its row. *)
Definition dsv4_pick (t : Z * list f32) : list nat * list f32 :=
  default ([], [])
    (let* rows := each_row d e_n Some (l_router l) in dsv4_route expf ln1pf c l by_table (map (dot_f32 t.2) rows) t.1).
Definition dsv4_token_out (uniq : list nat) (t : Z * list f32) : list f32 :=
  let o := picks_sum expf tanhf act layer d dsv4_pick snd uniq t in
  if (0 <? n_shared c)%Z then f32_zip f32_add o (token_shared expf tanhf act c l t.2) else o.
Definition dsv4_token_row (t : Z * list f32) : list f32 := dsv4_token_out (remove_dups (dsv4_pick t).1) t.

Lemma table_row_length k id : length (table_row l k id) <= k.
Proof using.
  unfold table_row. destruct (range _ _ _) as [r|] eqn:Er; [|simpl; lia]. cbn. apply range_inv in Er as [? ->].
  rewrite length_take. lia.
Qed.

Lemma dsv4_route_shape hash row id : 0 < e_n -> length row = e_n -> (l_router_bias l = [] \/ e_n <= length (l_router_bias l)) ->
  exists r, dsv4_route expf ln1pf c l hash row id = Some r /\ length r.1 = active_experts c /\ length r.2 = active_experts c /\
    Forall (fun e => e < e_n) r.1.
Proof using.
  intros He Hl Hb. unfold dsv4_route.
  assert (exists picked, (if hash then Some (route_hash expf ln1pf row (table_row l (active_experts c) id) (routed_scale c))
    else route_topk expf ln1pf row (l_router_bias l) (active_experts c) (routed_scale c)) = Some picked /\
    distinct_below e_n picked /\ length picked <= active_experts c) as (picked & -> & [_ Hd] & Hk).
  { destruct hash.
    - eexists. split; [done|]. destruct (route_hash_below expf ln1pf row (table_row l (active_experts c) id) (routed_scale c)) as [H1 H2].
      rewrite Hl in H1. pose proof (table_row_length (active_experts c) id). split; [done|lia].
    - destruct (route_topk_below expf ln1pf row (l_router_bias l) (active_experts c) (routed_scale c)) as (picked & -> & Hd & Hk); [by rewrite Hl|].
      rewrite Hl in Hd. exists picked. split_and!; [done|done|lia]. }
  eexists. split; [done|]. by apply pad_picks_shape.
Qed.

Lemma dsv4_rows_tokens ts : dsv4_ready -> Forall (fun t => length t.2 = d) ts ->
  dsv4_route_rows expf ln1pf c l (concat (map snd ts)) (length ts) (map fst ts) = Some (map dsv4_pick ts) /\
  choices (active_experts c) e_n (map dsv4_pick ts).
Proof.
  intros R Hts. destruct (split_rows d e_n (l_router l) (dr_router R)) as (rows & Hl & Hrows & Hr).
  assert (forall t, dsv4_pick t = default ([], []) (dsv4_route expf ln1pf c l by_table (map (dot_f32 t.2) rows) t.1)) as Hp.
  { intros t. unfold dsv4_pick. rewrite Hr, <- Hl, each_row_concat by done.
    change (mapM Some rows) with (mapM (fun x => Some (id x)) rows). by rewrite mapM_map, map_id. }
  assert (forall t, exists r, dsv4_route expf ln1pf c l by_table (map (dot_f32 t.2) rows) t.1 = Some r /\
    length r.1 = active_experts c /\ length r.2 = active_experts c /\ Forall (fun e => e < e_n) r.1) as Hroute.
  { intros t. apply dsv4_route_shape; [apply (dr_experts R)|by rewrite length_map|apply (dr_bias R)]. }
  split.
  - unfold dsv4_route_rows. rewrite Hr, <- Hl. rewrite <- (length_map snd ts), matmul_f32_rows.
    2: { apply Forall_map. eapply Forall_impl; [exact Hts|done]. }
    2-3: done.
    cbv beta iota. rewrite each_row_id; [|apply Forall_map, Forall_true; intros x; unfold compose; by rewrite length_map|by rewrite !length_map].
    cbv beta iota. apply mapM_Some, Forall2_same_length_lookup_2; [by rewrite length_imap, !length_map|].
    intros i [si row] r Hi Hri. apply lookup_imap_Some in Hi as (row' & [= -> ->] & Hi) || (rewrite list_lookup_imap in Hi; apply fmap_Some in Hi as (row' & Hi & [= -> ->])).
    change (map ?f ?k) with (f <$> k) in *. rewrite !list_lookup_fmap in *. destruct (ts !! i) as [t|] eqn:Ht; [|done].
    injection Hi as <-. injection Hri as <-. rewrite nth_lookup, list_lookup_fmap, Ht. cbn.
    unfold hashes. rewrite length_fmap, !length_fmap, Nat.eqb_refl, andb_true_r. rewrite Hp. destruct (Hroute t) as (r & Er & _). by rewrite Er.
  - unfold choices. apply Forall_map, Forall_true. intros t. unfold compose. rewrite Hp.
    destruct (Hroute t) as (r & Er & H1 & H2 & H3). by rewrite Er.
Qed.

Lemma dsv4_token_out_length uniq t : dsv4_ready -> Forall (fun e => e < e_n) uniq -> length t.2 = d -> length (dsv4_token_out uniq t) = d.
Proof.
  intros R Hu Ht. pose proof (dr_stocked R) as [H1 H2 H3].
  pose proof (picks_sum_length expf tanhf act layer e_n d dsv4_pick snd H1 H3 uniq t Hu Ht) as Hs. unfold dsv4_token_out.
  destruct (Z.ltb_spec 0 (n_shared c)) as [Hn|_]; [|done].
  destruct (ffn_tokens expf tanhf act c _ _ _ [t.2] H1 (dr_shared R Hn)) as [_ Hf]; [by constructor|].
  apply Forall_cons in Hf as [Hf _]. unfold f32_zip, token_shared. rewrite length_map, length_combine, Hs, Hf. lia.
Qed.

Lemma dsv4_picked t : dsv4_ready -> length t.2 = d -> Forall (fun e => e < e_n) (dsv4_pick t).1 /\ length (dsv4_pick t).1 = active_experts c.
Proof. intros R Ht. destruct (dsv4_rows_tokens [t] R) as [_ Hc]; [by constructor|]. by apply Forall_cons in Hc as [(? & _ & ?) _]. Qed.

(** With at most two experts a token, every token gets the row it gets alone. *)
Lemma dsv4_moe_tokens ts : dsv4_ready -> active_experts c <= 2 -> Forall (fun t => length t.2 = d) ts ->
  dsv4_moe expf tanhf ln1pf act (X := X) c l layer (concat (map snd ts)) (length ts) (map fst ts) (length ts * d) =
    ROk (concat (map dsv4_token_row ts)) /\
  Forall (fun t => length (dsv4_token_row t) = d) ts.
Proof.
  intros R Hk Hts. pose proof (dr_stocked R) as [K1 K2 K3]. pose proof (dr_experts R) as [He0 Hen].
  assert (Forall (fun t => length (dsv4_token_row t) = d) ts) as Hrow.
  { eapply Forall_impl; [exact Hts|]. intros t Ht. apply dsv4_token_out_length; [done| |done].
    apply Forall_forall. intros e He. rewrite elem_of_remove_dups in He. destruct (dsv4_picked t R Ht) as [Hl _].
    rewrite Forall_forall in Hl. by apply Hl. }
  split; [|done]. destruct (dsv4_rows_tokens ts R Hts) as [Er Hc]. unfold dsv4_moe. rewrite Er. cbn [unwrap]. cbv beta iota.
  destruct (union_picks e_n (active_experts c) dsv4_pick ts Hc) as (uniq & -> & Hn & Hlt & Hu). cbn [unwrap]. cbv beta iota.
  pose proof (partial_picks expf tanhf act (X := X) layer e_n d dsv4_pick snd K1 K2 K3 uniq ts ltac:(lia) Hlt Hts) as Hp.
  unfold compute_experts_partial in Hp. rewrite Hp. clear Hp. cbv beta iota.
  assert (forall t, t ∈ ts -> picks_sum expf tanhf act layer d dsv4_pick snd uniq t = picks_sum expf tanhf act layer d dsv4_pick snd (remove_dups (dsv4_pick t).1) t) as Hown.
  { intros t Ht. rewrite Forall_forall in Hts. specialize (Hts t Ht). destruct (dsv4_picked t R Hts) as [Hl Hk']. eapply picks_sum_own; [done|done|done|lia|done|done|].
    intros e He. apply Hu. eauto. }
  assert (map (picks_sum expf tanhf act layer d dsv4_pick snd uniq) ts = map (fun t => picks_sum expf tanhf act layer d dsv4_pick snd (remove_dups (dsv4_pick t).1) t) ts) as ->.
  { apply map_ext_in. intros t Ht%list_elem_of_In. by apply Hown. }
  unfold dsv4_token_row, dsv4_token_out. destruct (Z.ltb_spec 0 (n_shared c)) as [Hs|_]; [|done].
  assert (Forall (fun x => length x = d) (map snd ts)) as Hxs by (by apply Forall_map).
  destruct (ffn_tokens expf tanhf act c _ _ _ (map snd ts) K1 (dr_shared R Hs) Hxs) as [Ef Hf]. rewrite length_map in Ef. rewrite Ef.
  cbn [unwrap]. cbv beta iota. rewrite (zip_add_rows d).
  - do 2 f_equal. rewrite map_map, zip_with_fmap_l, zip_with_fmap_r. by rewrite zip_with_diag.
  - apply Forall_map. eapply Forall_impl; [exact Hts|]. intros t Ht. eapply picks_sum_length; [done|done| |done].
    apply Forall_forall. intros e He. rewrite elem_of_remove_dups in He. destruct (dsv4_picked t R Ht) as [Hl _].
    rewrite Forall_forall in Hl. by apply Hl.
  - by apply Forall_map.
  - by rewrite !length_map.
Qed.
End Tokens.

(** ** Witnesses *)

Definition v4_logits : list f32 := map f32_of_Z [0; 4; 1; 4]%Z.
Definition v4_keys : list f32 :=
  Eval vm_compute in default [] (route_keys (map (sqrt_softplus toy_exp (fun x => x)) v4_logits) (map f32_of_Z [9; 0; 0; 0]%Z)).

(** The bias puts expert 0 first; its weight is its own score's. *)
Lemma route_topk_correct_witness :
  exists picked best, route_topk toy_exp (fun x => x) v4_logits (map f32_of_Z [9; 0; 0; 0]%Z) 2 f32_one = Some picked /\
    StronglySorted lt picked.*1 /\ length picked = Nat.min 2 (length v4_logits) /\ best ≡ₚ picked.*1 /\
    StronglySorted (beats v4_keys) best /\
    (forall i e, i ∈ best -> e < length v4_logits -> e ∉ best -> beats v4_keys i e) /\
    let score e := sqrt_softplus toy_exp (fun x => x) (nth e v4_logits f0) in
    let sum := fold_left f32_add (map score best) f0 in
    forall e w, (e, w) ∈ picked -> e < length v4_logits /\ w = f32_mul (score e) (if SFltb f0 sum then f32_div f32_one sum else f0).
Proof.
  apply (route_topk_correct toy_exp (fun x => x) v4_logits (map f32_of_Z [9; 0; 0; 0]%Z) 2 f32_one v4_keys).
  - vm_compute. reflexivity.
  - repeat constructor.
Defined.

Lemma table_choice_witness :
  let logits := v4_logits in let es := [1; 2; 1] in
  let score e := sqrt_softplus toy_exp (fun x => x) (nth e logits f0) in
  let picks := picks_of (pad_picks (length es) (route_hash toy_exp (fun x => x) logits (map Z.of_nat es) f32_one)) in
  (NoDup es -> forall e, e ∈ es ->
    pick_weight picks f0 e = f32_mul (score e) (route_inv (fold_left f32_add (map score es) f0) f32_one)) /\
  (~ NoDup es -> exists e, e ∈ es /\ (forall x, x ∈ es -> e <= x) /\ pick_weight picks f0 e = f0).
Proof. apply (table_choice toy_exp (fun x => x) v4_logits [1; 2; 1] f32_one). repeat constructor; vm_compute; lia. Defined.
