(* ===== verification/Mla.v ===== *)
(** * Latent attention ([crates/colibri-engine/src/attention.rs])

    The attention of GLM and Kimi-K3: the compressed cache, its two cores, the
    call of the lightning indexer, to the bit; the CPU code.  [COLI_DSA] and
    [COLI_DSA_MIN] are parameters.  A block of tokens is proved to get, row by
    row, the output of each token's own history. *)

From Stdlib Require Import ZifyBool ZifyNat SpecFloat.
From S2P Require Import Prelude Rows DType Math Linear Config Model Moe KvCache Gqa Indexer.
Local Open Scope nat_scope.

Inductive AttnCore := Reconstruct | Absorb.

(** What the attention reads of the configuration.  A head is [la_nope] channels
    and [la_r] that rotate ([glm_qk_head], [kimi_qk_head]). *)
Record Mla := {
  la_h : nat; la_nope : nat; la_r : nat; la_vh : nat; la_kvl : nat; la_ql : nat; la_eps : f32; la_theta : f32;
  la_scale : f32; la_rope : bool
}.
Definition mla_of (c : Config) : Mla :=
  {| la_h := Z.to_nat (n_heads c); la_nope := Z.to_nat (qk_nope c); la_r := Z.to_nat (qk_rope c); la_vh := Z.to_nat (v_head c);
     la_kvl := Z.to_nat (kv_lora c); la_ql := Z.to_nat (q_lora c); la_eps := eps c; la_theta := theta c;
     la_scale := attn_scale c; la_rope := negb (mla_nope c) |}.
Definition la_qh (g : Mla) : nat := la_nope g + la_r g.
Definition la_head_kv (g : Mla) : nat := la_nope g + la_vh g.
Definition la_kvb (g : Mla) : nat := la_h g * la_head_kv g.

Section Mla.
Context (expf sinf cosf : f32 -> f32) (powf : f32 -> f32 -> f32).

(** [indexer_select]: [None] when the indexer is not to run here. *)
Definition indexer_select (dsa_on : bool) (dsa_min : nat) (c : Config) (l : Layer) (layer : nat) (x qr : list f32)
    (s_len pos_base st0 : nat) (have_sel : bool) : option (option selection) :=
  if have_sel || negb (st0 =? 0) || negb (pos_base =? 0) || negb (bool_decide (is_Some (l_ix_wk l)))
     || negb (default false (idx_type c !! layer)) || (pos_base + s_len <=? Z.to_nat (index_topk c)) || (pos_base + s_len <? dsa_min)
     || negb dsa_on
  then Some None
  else
    let* wk := l_ix_wk l in let* wq := l_ix_wq l in let* wp := l_ix_wp l in
    let w := {| iw_wk := wk; iw_knorm_w := l_ix_knorm_w l; iw_knorm_b := l_ix_knorm_b l; iw_wq := wq; iw_wp := wp |} in
    let* sel := indexer_forward sinf cosf powf w x qr s_len (Z.to_nat (index_nh c)) (Z.to_nat (index_hd c)) (Z.to_nat (index_topk c))
                  (Z.to_nat (qk_rope c)) (theta c) pos_base in
    Some (Some sel).

(** ** Projections and the cache *)

Definition query_latent (g : Mla) (l : Layer) (x : list f32) (s_len : nat) : option (list f32) :=
  let* qr := matmul_qt (s_len * la_ql g) x (l_q_a l) s_len in
  let* rows := each_row (la_ql g) s_len (fun r => rmsnorm r (l_q_a_ln l) (la_eps g)) qr in
  Some (concat rows).

Definition dsa_selection_for (dsa_on : bool) (dsa_min : nat) (c : Config) (l : Layer) (layer : nat) (x : list f32) (s_len pos_base : nat)
    : option (option selection) :=
  let* qr := query_latent (mla_of c) l x s_len in
  indexer_select dsa_on dsa_min c l layer x qr s_len pos_base 0 false.

(** The rotation of the heads of a query. *)
Definition rope_heads (g : Mla) (pos : nat) (q : list f32) : option (list f32) :=
  if la_rope g then
    foldl (fun q hh => let* q := q in rope_at sinf cosf powf q (hh * la_qh g + la_nope g) (la_r g) pos (la_theta g)) (Some q) (seq 0 (la_h g))
  else Some q.

(** The normalised latent and the rotated key of a compressed row. *)
Definition latent_of (g : Mla) (l : Layer) (comp : list f32) : option (list f32) :=
  let* v := range comp 0 (la_kvl g) in rmsnorm v (l_kv_a_ln l) (la_eps g).
Definition krot_of (g : Mla) (pos : nat) (comp : list f32) : option (list f32) :=
  let* v := range comp (la_kvl g) (la_kvl g + la_r g) in
  if la_rope g then rope_interleave sinf cosf powf v pos (la_r g) (la_theta g) else Some v.

Fixpoint store_latents (g : Mla) (l : Layer) (layer pos : nat) (kv : KvCache) (rows : list (list f32 * list f32))
    : option (KvCache * list (list f32)) :=
  match rows with
  | [] => Some (kv, [])
  | (q, comp) :: rows =>
      let* q := rope_heads g pos q in
      let* lat := latent_of g l comp in
      let* kr := krot_of g pos comp in
      if negb ((length lat =? kc_kv_lora kv) && (length kr =? kc_qk_rope kv)) then None
      else
        let* kv := latent_row_mut kv layer pos (fun _ => lat) in
        let* kv := krot_row_mut kv layer pos (fun _ => kr) in
        let* (kv, qs) := store_latents g l layer (pos + 1) kv rows in
        Some (kv, q :: qs)
  end.

(** ** The cores *)

(** The keys of the query [s]: the selection, or all up to [pos]. *)
Definition query_keys (sel : option selection) (s nt st0 : nat) : option (list nat) :=
  match sel with
  | Some sels =>
      let* k := sels !! s in
      if length k =? 0 then Some (seq 0 nt)
      else mapM (fun t => if t <? st0 then None else Some (t - st0)) k
  | None => Some (seq 0 nt)
  end.

(** The output of one head: scores of its query with the keys, and the mean of
    the values. *)
Definition head_ctx (g : Mla) (q : list f32) (kvb krot : list (list f32)) (hh : nat) (jjs : list nat) : option (list f32) :=
  let* qv := range q (hh * la_qh g) (hh * la_qh g + la_qh g) in
  let off := hh * la_head_kv g in
  let* ks := mapM (fun jj => let* b := kvb !! jj in let* kn := range b off (off + la_nope g) in
                             let* kr := krot !! jj in Some (kn ++ kr)) jjs in
  let sc := softmax expf (map (fun k => f32_mul (dot_f32 qv k) (la_scale g)) ks) in
  let* vs := mapM (fun jj => let* b := kvb !! jj in range b (off + la_nope g) (off + la_nope g + la_vh g)) jjs in
  Some (mix_values (la_vh g) sc vs).

(** [reconstruct_core] of the heads [h0 .. h0 + hc]; the others stay zero. *)
Definition reconstruct_row (g : Mla) (kvb krot : list (list f32)) (st0 s pos : nat) (sel : option selection) (h0 hc : nat) (q : list f32)
    : option (list f32) :=
  if pos + 1 <? st0 then None
  else
    let* jjs := query_keys sel s (pos + 1 - st0) st0 in
    let* heads := mapM (fun hh =>
      if (h0 <=? hh) && (hh <? h0 + hc) then head_ctx g q kvb krot hh jjs else Some (replicate (la_vh g) f0)) (seq 0 (la_h g)) in
    Some (concat heads).
Definition reconstruct_core (g : Mla) (l : Layer) (layer : nat) (kv : KvCache) (qs : list (list f32)) (s_len pos_base st0 : nat)
    (sel : option selection) (h0 hc : nat) : option (list (list f32)) :=
  let tk := pos_base + s_len in
  let nrec := tk - st0 in
  if (tk <? st0) || (la_h g <? h0 + hc) then None
  else
    let* lat := latent_rows kv layer st0 tk in
    let* kvb := matmul_qt (nrec * la_kvb g) lat (l_kv_b l) nrec in
    let* kvb := each_row (la_kvb g) nrec Some kvb in
    let* krot := mapM (krot_row kv layer) (seq st0 nrec) in
    mapM (fun '(s, q) => reconstruct_row g kvb krot st0 s (pos_base + s) sel h0 hc q) (imap pair qs).

(** [absorb_core]. *)
Definition absorb_head (g : Mla) (l : Layer) (lat krot : list (list f32)) (q : list f32) (hh : nat) : option (list f32) :=
  let* qv := range q (hh * la_qh g) (hh * la_qh g + la_qh g) in
  let rbase := hh * la_head_kv g in
  let* qabs := foldl (fun acc '(d, qn) => let* acc := acc in qt_addrow (l_kv_b l) (rbase + d) qn acc) (Some (replicate (la_kvl g) f0))
                 (imap pair (take (la_nope g) qv)) in
  let sc := softmax expf (map (fun '(lt, kr) => f32_mul (dot_f32 (qabs ++ drop (la_nope g) qv) (lt ++ kr)) (la_scale g)) (combine lat krot)) in
  qt_matvec_rows (l_kv_b l) (rbase + la_nope g) (la_vh g) (mix_values (la_kvl g) sc lat).
Definition absorb_core (g : Mla) (l : Layer) (layer : nat) (kv : KvCache) (qs : list (list f32)) (pos_base st0 : nat)
    : option (list (list f32)) :=
  mapM (fun '(s, q) =>
    if pos_base + s + 1 <? st0 then None
    else
      let keys := seq st0 (pos_base + s + 1 - st0) in
      let* lat := mapM (latent_row kv layer) keys in
      let* krot := mapM (krot_row kv layer) keys in
      let* heads := mapM (absorb_head g l lat krot q) (seq 0 (la_h g)) in
      Some (concat heads)) (imap pair qs).

(** ** The layer's attention *)

(** [ctx *= sigmoid(g_proj(x))]. *)
Definition output_gate (g : Mla) (l : Layer) (x ctx : list f32) (s_len : nat) : option (list f32) :=
  match l_attn_gate l with
  | Some w =>
      let* gate := matmul_qt (s_len * (la_h g * la_vh g)) x w s_len in
      Some (f32_zip (fun c gv => f32_mul c (sigmoid expf gv)) ctx gate)
  | None => Some ctx
  end.

Definition attention_with_heads (dsa_on : bool) (dsa_min : nat) (c : Config) (l : Layer) (layer : nat) (kv : KvCache) (x : list f32)
    (s_len pos_base out_len : nat) (core : AttnCore) (sel : option selection) (h0 hc : nat)
    : option (KvCache * list f32 * option selection) :=
  let g := mla_of c in
  let* qr := query_latent g l x s_len in
  let* q := matmul_qt (s_len * (la_h g * la_qh g)) qr (l_q_b l) s_len in
  let* qrows := each_row (la_h g * la_qh g) s_len Some q in
  let* comp := matmul_qt (s_len * (la_kvl g + la_r g)) x (l_kv_a l) s_len in
  let* comps := each_row (la_kvl g + la_r g) s_len Some comp in
  let* (kv, qs) := store_latents g l layer pos_base kv (combine qrows comps) in
  let* st0 := kc_kv_start kv !! layer in
  let st0 := Z.to_nat st0 in
  let* computed := indexer_select dsa_on dsa_min c l layer x qr s_len pos_base st0 (bool_decide (is_Some sel)) in
  let sel := match sel with Some _ => sel | None => computed end in
  let* ctx :=
    match core with
    | Reconstruct => reconstruct_core g l layer kv qs s_len pos_base st0 sel h0 hc
    | Absorb => absorb_core g l layer kv qs pos_base st0
    end in
  let* ctx := output_gate g l x (concat ctx) s_len in
  let* out := matmul_qt out_len ctx (l_o l) s_len in
  Some (kv, out, computed).

Definition attention_with dsa_on dsa_min (c : Config) (l : Layer) (layer : nat) (kv : KvCache) (x : list f32) (s_len pos_base out_len : nat)
    (core : AttnCore) (sel : option selection) : option (KvCache * list f32 * option selection) :=
  attention_with_heads dsa_on dsa_min c l layer kv x s_len pos_base out_len core sel 0 (Z.to_nat (n_heads c)).
Definition attention dsa_on dsa_min (c : Config) (l : Layer) (layer : nat) (kv : KvCache) (x : list f32) (s_len pos_base out_len : nat)
    : option (KvCache * list f32) :=
  let* (kvo, _) := attention_with dsa_on dsa_min c l layer kv x s_len pos_base out_len Reconstruct None in Some kvo.
End Mla.

(** ** Rows that keep their length *)

(** The layer's weights fit its heads. *)
Record wf_mla (g : Mla) (l : Layer) (d : nat) : Prop := {
  wl_qa : wf_qt (l_q_a l) d (la_ql g);
  wl_qa_ln : la_ql g <= length (l_q_a_ln l);
  wl_qb : wf_qt (l_q_b l) (la_ql g) (la_h g * la_qh g);
  wl_kva : wf_qt (l_kv_a l) d (la_kvl g + la_r g);
  wl_kva_ln : la_kvl g <= length (l_kv_a_ln l);
  wl_kvb : wf_qt (l_kv_b l) (la_kvl g) (la_kvb g);
  wl_gate w : l_attn_gate l = Some w -> wf_qt w d (la_h g * la_vh g);
  wl_out : wf_qt (l_o l) (la_h g * la_vh g) d;
  wl_rope : la_rope g = true -> la_r g <= 512
}.

Section Rows.
Context (expf sinf cosf : f32 -> f32) (powf : f32 -> f32 -> f32) (g : Mla) (l : Layer) (d : nat).
Context (W : wf_mla g l d).
Local Set Default Proof Using "All".

(** ** One token *)

Definition lat_qr (x : list f32) : list f32 := default [] (rmsnorm (matvec (l_q_a l) x) (l_q_a_ln l) (la_eps g)).
Definition lat_q (pos : nat) (x : list f32) : list f32 := default [] (rope_heads sinf cosf powf g pos (matvec (l_q_b l) (lat_qr x))).
Definition lat_vec (x : list f32) : list f32 := default [] (latent_of g l (matvec (l_kv_a l) x)).
Definition lat_krot (pos : nat) (x : list f32) : list f32 := default [] (krot_of sinf cosf powf g pos (matvec (l_kv_a l) x)).

Lemma lat_qr_some x : rmsnorm (matvec (l_q_a l) x) (l_q_a_ln l) (la_eps g) = Some (lat_qr x) /\ length (lat_qr x) = la_ql g.
Proof.
  pose proof (matvec_length (l_q_a l) d (la_ql g) x (wl_qa _ _ _ W)) as Hl. pose proof (wl_qa_ln _ _ _ W).
  destruct (rmsnorm_total (matvec (l_q_a l) x) (l_q_a_ln l) (la_eps g)) as (y & E & Hy); [lia|].
  unfold lat_qr. rewrite E. split; [done|]. cbn. lia.
Qed.

Lemma lat_q_some pos x : rope_heads sinf cosf powf g pos (matvec (l_q_b l) (lat_qr x)) = Some (lat_q pos x) /\
  length (lat_q pos x) = la_h g * la_qh g.
Proof.
  pose proof (matvec_length (l_q_b l) (la_ql g) _ (lat_qr x) (wl_qb _ _ _ W)) as Hl. unfold lat_q, rope_heads in *.
  destruct (la_rope g) eqn:Hr; [|done]. pose proof (wl_rope _ _ _ W Hr).
  destruct (foldl_some (fun q => length q = la_h g * la_qh g)
    (fun q hh => rope_at sinf cosf powf q (hh * la_qh g + la_nope g) (la_r g) pos (la_theta g)) (seq 0 (la_h g)) _ Hl) as (w & -> & Hw); [|done].
  intros q hh Hh%elem_of_seq Hq. destruct (rope_at_total sinf cosf powf q (hh * la_qh g + la_nope g) (la_r g) pos (la_theta g)) as (w & E & Hw); [|done|].
  - unfold la_qh in *. nia.
  - exists w. split; [done|lia].
Qed.

Lemma lat_row_some x : latent_of g l (matvec (l_kv_a l) x) = Some (lat_vec x) /\ length (lat_vec x) = la_kvl g.
Proof.
  pose proof (matvec_length (l_kv_a l) d _ x (wl_kva _ _ _ W)) as Hl. pose proof (wl_kva_ln _ _ _ W).
  unfold lat_vec, latent_of. rewrite range_some by lia. set (v := take _ _).
  assert (length v = la_kvl g) as Hv by (unfold v; rewrite length_take, length_drop; lia).
  destruct (rmsnorm_total v (l_kv_a_ln l) (la_eps g)) as (y & E & Hy); [lia|]. rewrite E. split; [done|]. cbn. lia.
Qed.

Lemma lat_krot_some pos x : krot_of sinf cosf powf g pos (matvec (l_kv_a l) x) = Some (lat_krot pos x) /\ length (lat_krot pos x) = la_r g.
Proof.
  pose proof (matvec_length (l_kv_a l) d _ x (wl_kva _ _ _ W)) as Hl.
  unfold lat_krot, krot_of. rewrite range_some by lia. set (v := take _ _).
  assert (length v = la_r g) as Hv by (unfold v; rewrite length_take, length_drop; lia).
  destruct (la_rope g) eqn:Hr; [|done]. pose proof (wl_rope _ _ _ W Hr).
  destruct (rope_interleave_total sinf cosf powf v pos (la_r g) (la_theta g)) as (w & -> & Hw); done.
Qed.

(** A block of tokens projected. *)
Lemma latent_project xs : Forall (fun x => length x = d) xs ->
  query_latent g l (concat xs) (length xs) = Some (concat (map lat_qr xs)) /\
  matmul_qt (length xs * (la_h g * la_qh g)) (concat (map lat_qr xs)) (l_q_b l) (length xs) =
    Some (concat (map (fun x => matvec (l_q_b l) (lat_qr x)) xs)) /\
  matmul_qt (length xs * (la_kvl g + la_r g)) (concat xs) (l_kv_a l) (length xs) = Some (concat (map (matvec (l_kv_a l)) xs)).
Proof.
  intros Hxs. split_and!.
  - unfold query_latent. rewrite (matmul_qt_wf _ d) by (apply W || done).
    assert (Forall (fun r => length r = la_ql g) (map (matvec (l_q_a l)) xs)) as Hr.
    { apply Forall_map, Forall_true. intros x. apply (matvec_length _ d), W. }
    pose proof (each_row_concat (la_ql g) (fun r => rmsnorm r (l_q_a_ln l) (la_eps g)) _ Hr) as E. rewrite length_map in E. rewrite E.
    assert (mapM (fun r => rmsnorm r (l_q_a_ln l) (la_eps g)) (map (matvec (l_q_a l)) xs) = Some (map lat_qr xs)) as ->; [|done].
    apply mapM_Some, Forall2_fmap_l, Forall2_fmap_r, Forall_Forall2_diag, Forall_true. intros x. apply lat_qr_some.
  - pose proof (matmul_qt_wf (l_q_b l) (la_ql g) (la_h g * la_qh g) (map lat_qr xs) (wl_qb _ _ _ W)) as E.
    rewrite length_map, map_map in E. apply E. apply Forall_map, Forall_true. intros x. apply lat_qr_some.
  - apply (matmul_qt_wf _ d); [apply W|done].
Qed.

(** ** The cache *)

(** Only one layer's latents and keys differ. *)
Definition lat_at (layer : nat) (kv kv' : KvCache) : Prop :=
  exists lb kb, kv' = set_rows kv (<[layer := lb]> (kc_latent kv)) (<[layer := kb]> (kc_k_rot kv)) (kc_ring kv) (kc_ring_hi kv).

Definition lat_shaped (layer : nat) (kv : KvCache) : Prop :=
  kc_ring kv = 0 /\ kc_kv_lora kv = la_kvl g /\ kc_qk_rope kv = la_r g /\
  exists lb kb, kc_latent kv !! layer = Some lb /\ kc_k_rot kv !! layer = Some kb /\
    length lb = kc_max_t kv * la_kvl g /\ length kb = kc_max_t kv * la_r g.

Lemma lat_at_refl layer kv lb kb : kc_latent kv !! layer = Some lb -> kc_k_rot kv !! layer = Some kb -> lat_at layer kv kv.
Proof using. intros H1 H2. exists lb, kb. rewrite !list_insert_id by done. by destruct kv. Qed.

Lemma lat_at_trans layer kv1 kv2 kv3 : lat_at layer kv1 kv2 -> lat_at layer kv2 kv3 -> lat_at layer kv1 kv3.
Proof using. intros (a & b & ->) (a' & b' & ->). exists a', b'. cbn. by rewrite !list_insert_insert_eq. Qed.

Lemma store_latent layer pos kv (y : list f32) : lat_shaped layer kv -> pos < kc_max_t kv ->
  exists kv1 kv2, latent_row_mut kv layer pos (fun _ => lat_vec y) = Some kv1 /\
    krot_row_mut kv1 layer pos (fun _ => lat_krot pos y) = Some kv2 /\ lat_shaped layer kv2 /\ lat_at layer kv kv2 /\
    (forall j, latent_row kv2 layer j = if decide (j = pos) then Some (lat_vec y) else latent_row kv layer j) /\
    (forall j, krot_row kv2 layer j = if decide (j = pos) then Some (lat_krot pos y) else krot_row kv layer j).
Proof.
  intros (Hr & Hl & Hk & lb & kb & Elb & Ekb & Llb & Lkb) Hpos.
  destruct (lat_row_some y) as [_ Hrow]. destruct (lat_krot_some pos y) as [_ Hkr].
  unfold latent_row_mut, krot_row_mut, ring_touch. rewrite Hr. cbn [Nat.eqb negb andb]. rewrite Elb. unfold slot, ring_slot. rewrite Hr. cbn [Nat.eqb].
  rewrite Hl. unfold update. rewrite range_some by nia. cbv beta iota. eexists _, _. split; [done|]. cbn.
  rewrite Ekb, Hk. rewrite range_some by nia. cbv beta iota. split; [done|].
  pose proof (lookup_lt_Some _ _ _ Elb) as Hli. pose proof (lookup_lt_Some _ _ _ Ekb) as Hki.
  split_and!.
  - unfold lat_shaped. cbn. rewrite !list_lookup_insert_eq by done. split_and!; try done. eexists _, _.
    split_and!; [done|done|rewrite blit_length; nia|rewrite blit_length; nia].
  - unfold lat_at. rewrite Hr. by eexists _, _.
  - intros j. unfold latent_row, slot, ring_slot. cbn. rewrite Hr, Hl, Elb. cbn [Nat.eqb]. rewrite list_lookup_insert_eq by done. cbn.
    pose proof (row_blit (la_kvl g) lb (kc_max_t kv) pos j (lat_vec y)) as Hb. unfold row_at in Hb. by rewrite Hb.
  - intros j. unfold krot_row, slot, ring_slot. cbn. rewrite Hr, Hk, Ekb. cbn [Nat.eqb]. rewrite list_lookup_insert_eq by done. cbn.
    pose proof (row_blit (la_r g) kb (kc_max_t kv) pos j (lat_krot pos y)) as Hb. unfold row_at in Hb. by rewrite Hb.
Qed.

(** A block of tokens is stored from [pos] on. *)
Lemma store_latents_spec layer ys : forall kv pos, lat_shaped layer kv -> pos + length ys <= kc_max_t kv ->
  exists kv', store_latents sinf cosf powf g l layer pos kv
      (combine (map (fun y => matvec (l_q_b l) (lat_qr y)) ys) (map (matvec (l_kv_a l)) ys)) =
      Some (kv', imap (fun i y => lat_q (pos + i) y) ys) /\ lat_shaped layer kv' /\ lat_at layer kv kv' /\
    (forall j, latent_row kv' layer j = if decide (pos <= j < pos + length ys) then lat_vec <$> ys !! (j - pos) else latent_row kv layer j) /\
    (forall j, krot_row kv' layer j = if decide (pos <= j < pos + length ys) then lat_krot j <$> ys !! (j - pos) else krot_row kv layer j).
Proof.
  induction ys as [|y ys IH]; intros kv pos Hs Hm.
  { exists kv. split_and!; [done|done| |intros j; rewrite decide_False by (simpl; lia); done..].
    destruct Hs as (_ & _ & _ & lb & kb & H1 & H2 & _). by eapply lat_at_refl. }
  cbn [map combine store_latents length] in *. destruct (lat_q_some pos y) as [-> _]. cbv beta iota.
  destruct (lat_row_some y) as [-> Hrow]. cbv beta iota. destruct (lat_krot_some pos y) as [-> Hkr]. cbv beta iota.
  pose proof Hs as (_ & Hl & Hk & _). rewrite Hrow, Hkr, Hl, Hk, !Nat.eqb_refl. cbn [andb negb].
  destruct (store_latent layer pos kv y Hs) as (kv1 & kv2 & -> & E2 & Hs2 & A2 & R2 & K2); [lia|]. cbv beta iota. rewrite E2. cbv beta iota.
  destruct (IH kv2 (pos + 1) Hs2) as (kv' & -> & Hs' & A' & R' & K').
  { destruct A2 as (? & ? & ->). cbn. lia. }
  exists kv'. split_and!; [|done|by eapply lat_at_trans| |].
  - rewrite imap_cons. do 3 f_equal; [by rewrite Nat.add_0_r|]. apply imap_ext. intros i x _. cbn. f_equal. lia.
  - intros j. rewrite R', R2. destruct (decide (pos <= j < pos + S (length ys))) as [H|H].
    + destruct (decide (j = pos)) as [->|]; [rewrite decide_False by lia; by rewrite Nat.sub_diag|].
      rewrite decide_True by lia. replace (j - pos) with (S (j - (pos + 1))) by lia. done.
    + rewrite !decide_False by lia. done.
  - intros j. rewrite K', K2. destruct (decide (pos <= j < pos + S (length ys))) as [H|H].
    + destruct (decide (j = pos)) as [->|]; [rewrite decide_False by lia; by rewrite Nat.sub_diag|].
      rewrite decide_True by lia. replace (j - pos) with (S (j - (pos + 1))) by lia. done.
    + rewrite !decide_False by lia. done.
Qed.

(** ** The core *)

Lemma head_ctx_total q kvb krot hh jjs : length q = la_h g * la_qh g -> Forall (fun b => length b = la_kvb g) kvb ->
  length krot = length kvb -> hh < la_h g -> Forall (fun jj => jj < length kvb) jjs ->
  exists y, head_ctx expf g q kvb krot hh jjs = Some y /\ length y = la_vh g.
Proof.
  intros Hq Hb Hk Hh Hj. unfold head_ctx. rewrite range_some by nia.
  assert (forall jj, jj ∈ jjs -> exists b, kvb !! jj = Some b /\ length b = la_kvb g) as Hrow.
  { intros jj Hin. rewrite Forall_forall in Hj. destruct (lookup_lt_is_Some_2 kvb jj (Hj _ Hin)) as [b Eb]. exists b. split; [done|].
    rewrite Forall_lookup in Hb. by eapply Hb. }
  unfold la_kvb, la_head_kv in *.
  destruct (mapM_total (fun jj => let* b := kvb !! jj in
    let* kn := range b (hh * (la_nope g + la_vh g)) (hh * (la_nope g + la_vh g) + la_nope g) in let* kr := krot !! jj in Some (kn ++ kr)) jjs) as [ks ->].
  { intros jj Hin. destruct (Hrow jj Hin) as (b & -> & Lb). rewrite range_some by nia. rewrite Forall_forall in Hj.
    destruct (lookup_lt_is_Some_2 krot jj) as [r ->]; [specialize (Hj _ Hin); lia|]. by eexists. }
  destruct (mapM_all (fun jj => let* b := kvb !! jj in range b (hh * (la_nope g + la_vh g) + la_nope g) (hh * (la_nope g + la_vh g) + la_nope g + la_vh g))
    (fun v => length v = la_vh g) jjs) as (vs & -> & Hvs & _).
  { intros jj Hin. destruct (Hrow jj Hin) as (b & -> & Lb). rewrite range_some by nia. eexists. split; [done|]. rewrite length_take, length_drop. nia. }
  eexists. split; [done|]. by apply mix_values_length.
Qed.

(** All the cached rows that a block may see. *)
Lemma cached_rows layer kv st0 n : lat_shaped layer kv -> st0 + n <= kc_max_t kv ->
  exists lats krs, mapM (latent_row kv layer) (seq st0 n) = Some lats /\ mapM (krot_row kv layer) (seq st0 n) = Some krs /\
    latent_rows kv layer st0 (st0 + n) = Some (concat lats) /\ Forall (fun r => length r = la_kvl g) lats /\
    Forall (fun r => length r = la_r g) krs /\ length lats = n /\ length krs = n.
Proof.
  intros (Hr & Hl & Hk & lb & kb & Elb & Ekb & Llb & Lkb) Hm.
  assert (forall j, j ∈ seq st0 n -> exists y, latent_row kv layer j = Some y /\ length y = la_kvl g) as H1.
  { intros j Hj%elem_of_seq. unfold latent_row, slot, ring_slot. rewrite Hr, Hl, Elb. cbn [Nat.eqb]. rewrite range_some by nia. eexists. split; [done|].
    rewrite length_take, length_drop. nia. }
  assert (forall j, j ∈ seq st0 n -> exists y, krot_row kv layer j = Some y /\ length y = la_r g) as H2.
  { intros j Hj%elem_of_seq. unfold krot_row, slot, ring_slot. rewrite Hr, Hk, Ekb. cbn [Nat.eqb]. rewrite range_some by nia. eexists. split; [done|].
    rewrite length_take, length_drop. nia. }
  destruct (mapM_all _ _ _ H1) as (lats & El & Fl & Ll). destruct (mapM_all _ _ _ H2) as (krs & Ek & Fk & Lk). rewrite length_seq in Ll, Lk.
  exists lats, krs. split_and!; try done. unfold latent_rows. rewrite Hr, Elb, Hl. cbn [Nat.eqb negb].
  rewrite <- Ll. apply row_run; [nia|]. intros i r Hi. apply mapM_Some in El.
  destruct (Forall2_lookup_r _ _ _ _ _ El Hi) as (j & Hj & E1). apply lookup_seq in Hj as [-> _].
  unfold latent_row, slot, ring_slot in E1. by rewrite Hr, Hl, Elb in E1.
Qed.

Lemma reconstruct_rows layer kv qs s_len pos st0 sel h0 hc : lat_shaped layer kv -> st0 <= pos + s_len <= kc_max_t kv -> h0 + hc <= la_h g ->
  forall lats krs, mapM (latent_row kv layer) (seq st0 (pos + s_len - st0)) = Some lats ->
    mapM (krot_row kv layer) (seq st0 (pos + s_len - st0)) = Some krs ->
  reconstruct_core expf g l layer kv qs s_len pos st0 sel h0 hc =
    mapM (fun '(s, q) => reconstruct_row expf g (map (matvec (l_kv_b l)) lats) krs st0 s (pos + s) sel h0 hc q) (imap pair qs).
Proof.
  intros Hs Hm Hh lats krs El Ek. unfold reconstruct_core. destruct (Nat.ltb_spec (pos + s_len) st0); [lia|]. destruct (Nat.ltb_spec (la_h g) (h0 + hc)); [lia|].
  cbn [orb]. destruct (cached_rows layer kv st0 (pos + s_len - st0) Hs) as (lats' & krs' & El' & Ek' & Er & Fl & Fk & Ll & Lk); [lia|].
  rewrite El in El'. injection El' as <-. rewrite Ek in Ek'. injection Ek' as <-.
  replace (st0 + (pos + s_len - st0)) with (pos + s_len) in Er by lia. rewrite Er. cbv beta iota.
  rewrite <- Ll. rewrite (matmul_qt_wf _ (la_kvl g)) by (apply W || done). cbv beta iota.
  rewrite each_row_id; [|apply Forall_map, Forall_true; intros x; apply (matvec_length _ (la_kvl g)), W|by rewrite length_map].
  cbv beta iota. by rewrite Ll, Ek.
Qed.


(** ** A block of tokens *)

Lemma mapM_of_map {A B C} (f : B -> option C) (h : A -> B) l0 : mapM f (map h l0) = mapM (fun x => f (h x)) l0.
Proof using. induction l0 as [|x l0 IH]; [done|]. cbn [map]. by rewrite !mapM_cons_eq, IH. Qed.

Definition lat_kvb (hist : list (list f32)) : list (list f32) := map (fun x => matvec (l_kv_b l) (lat_vec x)) hist.
Definition lat_krots (hist : list (list f32)) : list (list f32) := imap lat_krot hist.

(** The heads [h0 .. h0 + hc] of the block [ys] after [xs], before the gate. *)
Definition block_ctx (xs ys : list (list f32)) (sel : option selection) (h0 hc : nat) : option (list (list f32)) :=
  mapM (fun '(i, y) => reconstruct_row expf g (lat_kvb (xs ++ ys)) (lat_krots (xs ++ ys)) 0 i (length xs + i) sel h0 hc (lat_q (length xs + i) y))
    (imap pair ys).
(** The gate and the output projection of a row. *)
Definition finish_ctx (x ctx : list f32) : list f32 :=
  matvec (l_o l) (match l_attn_gate l with
                  | Some w => f32_zip (fun c gv => f32_mul c (sigmoid expf gv)) ctx (matvec w x)
                  | None => ctx
                  end).

(** The cache holds the tokens [xs] of the layer. *)
Record lat_stored (layer : nat) (kv : KvCache) (xs : list (list f32)) : Prop := {
  ls_shaped : lat_shaped layer kv;
  ls_start : kc_kv_start kv !! layer = Some 0%Z;
  ls_row i x : xs !! i = Some x -> latent_row kv layer i = Some (lat_vec x) /\ krot_row kv layer i = Some (lat_krot i x)
}.

Lemma head_ctx_length q kvb krot hh jjs y : head_ctx expf g q kvb krot hh jjs = Some y -> length y = la_vh g.
Proof.
  unfold head_ctx. destruct (range q _ _); [|done]. destruct (mapM _ jjs); [|done]. destruct (mapM _ jjs) as [vs|] eqn:E; [|done].
  intros [= <-]. apply mix_values_length. apply mapM_Some in E. apply Forall_lookup. intros i v Hv.
  destruct (Forall2_lookup_r _ _ _ _ _ E Hv) as (jj & _ & E1). destruct (kvb !! jj); [|done]. apply range_length in E1. lia.
Qed.

Lemma reconstruct_row_length kvb krot st0 s pos sel h0 hc q y :
  reconstruct_row expf g kvb krot st0 s pos sel h0 hc q = Some y -> length y = la_h g * la_vh g.
Proof.
  unfold reconstruct_row. destruct (_ <? _); [done|]. destruct (query_keys _ _ _ _); [|done]. destruct (mapM _ _) as [hs|] eqn:E; [|done].
  intros [= <-]. rewrite (concat_len (la_vh g)).
  - by rewrite (mapM_len _ _ _ E), length_seq.
  - apply mapM_Some in E. apply Forall_lookup. intros i v Hv. destruct (Forall2_lookup_r _ _ _ _ _ E Hv) as (hh & _ & E1).
    destruct (_ && _); [by eapply head_ctx_length|]. injection E1 as <-. apply length_replicate.
Qed.

Lemma f32_zip_rows f w (xs ys : list (list f32)) : Forall (fun x => length x = w) xs -> Forall (fun y => length y = w) ys -> length xs = length ys ->
  f32_zip f (concat xs) (concat ys) = concat (zip_with (f32_zip f) xs ys).
Proof using.
  unfold f32_zip. intros Hx. revert ys. induction Hx as [|x xs Hx _ IH]; intros [|y ys] Hy Hl; try done.
  apply Forall_cons in Hy as [Hy Hys]. cbn. rewrite combine_app_eq, map_app by congruence. f_equal. apply IH; [done|by injection Hl].
Qed.

(** The gate and the projection, row by row. *)
Lemma finish_rows ys ctx : Forall (fun y => length y = d) ys -> Forall (fun c => length c = la_h g * la_vh g) ctx -> length ctx = length ys ->
  (let* ctx := output_gate expf g l (concat ys) (concat ctx) (length ys) in matmul_qt (length ys * d) ctx (l_o l) (length ys)) =
  Some (concat (zip_with finish_ctx ys ctx)).
Proof.
  intros Hy Hc Hl. unfold output_gate, finish_ctx. destruct (l_attn_gate l) as [w|] eqn:Hg.
  - pose proof (wl_gate _ _ _ W w Hg) as Wg. rewrite (matmul_qt_wf w d) by done. cbv beta iota.
    assert (Forall (fun r => length r = la_h g * la_vh g) (map (matvec w) ys)) as Hw.
    { apply Forall_map, Forall_true. intros x. by apply (matvec_length w d). }
    rewrite (f32_zip_rows _ _ _ _ Hc Hw) by (by rewrite length_map). cbv beta iota.
    set (gs := zip_with _ _ _). assert (length gs = length ys) as Lg by (unfold gs; rewrite length_zip_with, length_map; lia).
    rewrite <- Lg. rewrite (matmul_qt_wf (l_o l) (la_h g * la_vh g)); [|apply W|].
    + do 2 f_equal. unfold gs. clear Lg gs Hy Hw Hg Wg. revert ctx Hc Hl. induction ys as [|y ys IH]; intros [|c ctx] Hc Hl; try done.
      cbn. f_equal. apply Forall_cons in Hc as [_ Hc]. apply IH; [done|by injection Hl].
    + apply Forall_lookup. intros i r Hr. apply lookup_zip_with_Some in Hr as (c & z & -> & H1 & H2). unfold f32_zip. rewrite length_map, length_combine.
      rewrite Forall_lookup in Hc. rewrite Forall_lookup in Hw. rewrite (Hc i c H1), (Hw i z H2). lia.
  - cbv beta iota. rewrite <- Hl. rewrite (matmul_qt_wf (l_o l) (la_h g * la_vh g)) by (apply W || done). do 2 f_equal.
    clear Hc Hy Hg. revert ys Hl. induction ctx as [|c ctx IH]; intros [|y ys] Hl; try done. cbn. f_equal. apply IH. by injection Hl.
Qed.
End Rows.

Section Layer.
Context (expf sinf cosf : f32 -> f32) (powf : f32 -> f32 -> f32) (dsa_on : bool) (dsa_min : nat) (c : Config) (l : Layer) (layer d : nat).
Abbreviation g := (mla_of c).
Context (W : wf_mla g l d).
Local Set Default Proof Using "All".

(** The indexer never runs on a cache of [max_t] positions. *)
Definition idle (max_t : nat) : Prop :=
  dsa_on = false \/ l_ix_wk l = None \/ default false (idx_type c !! layer) = false \/ max_t <= Z.to_nat (index_topk c) \/ max_t < dsa_min.

Lemma idle_select max_t x qr s_len pos st0 have : idle max_t -> pos + s_len <= max_t ->
  indexer_select sinf cosf powf dsa_on dsa_min c l layer x qr s_len pos st0 have = Some None.
Proof using.
  intros H Hm. unfold indexer_select. destruct (_ || negb dsa_on) eqn:E; [done|]. exfalso.
  repeat (apply orb_false_elim in E as [E ?]). destruct H as [->|[H|[H|H]]]; [done| | |lia].
  - rewrite H in *. done.
  - rewrite H in *. done.
Qed.

(** A call that ends before the indexer would run selects nothing. *)
Lemma attention_idle kv x s_len pos out_len core kv' out computed : idle (pos + s_len) ->
  attention_with expf sinf cosf powf dsa_on dsa_min c l layer kv x s_len pos out_len core None = Some (kv', out, computed) -> computed = None.
Proof using.
  intros Hi. unfold attention_with, attention_with_heads.
  destruct (query_latent _ l x s_len) as [qr|]; [|done]. destruct (matmul_qt _ qr _ _) as [q|]; [|done]. destruct (each_row _ _ _ q) as [qrows|]; [|done].
  destruct (matmul_qt _ x _ _) as [comp|]; [|done]. destruct (each_row _ _ _ comp) as [comps|]; [|done].
  destruct (store_latents _ _ _ _ _ _ _ _ _) as [[kv1 qs]|]; [|done]. destruct (kc_kv_start kv1 !! layer) as [st|]; [|done].
  cbv zeta. rewrite (idle_select (pos + s_len)) by done. destruct (match core with Reconstruct => _ | Absorb => _ end) as [ctx|]; [|done].
  destruct (output_gate _ _ _ _ _ _) as [ctx1|]; [|done]. destruct (matmul_qt _ ctx1 _ _) as [o|]; [|done]. congruence.
Qed.

(** What the indexer answers for the block [ys] at position [pos]. *)
Definition block_select (ys : list (list f32)) (pos : nat) (have : bool) : option (option selection) :=
  indexer_select sinf cosf powf dsa_on dsa_min c l layer (concat ys) (concat (map (lat_qr g l) ys)) (length ys) pos 0 have.

(** What the call stores does not depend on what it attends to; it attends to
    the selection it is handed or else to the one the indexer makes. *)
Lemma attention_block_sel kv xs ys : lat_stored sinf cosf powf g l layer kv xs ->
  Forall (fun x => length x = d) xs -> Forall (fun y => length y = d) ys -> length xs + length ys <= kc_max_t kv ->
  exists kv', lat_stored sinf cosf powf g l layer kv' (xs ++ ys) /\ lat_at layer kv kv' /\
    forall sel computed h0 hc, h0 + hc <= la_h g -> block_select ys (length xs) (bool_decide (is_Some sel)) = Some computed ->
      attention_with_heads expf sinf cosf powf dsa_on dsa_min c l layer kv (concat ys) (length ys) (length xs) (length ys * d) Reconstruct sel h0 hc =
      let* ctx := block_ctx expf sinf cosf powf g l xs ys (match sel with Some _ => sel | None => computed end) h0 hc in
      Some (kv', concat (zip_with (finish_ctx expf l) ys ctx), computed).
Proof.
  intros [Hs Hst Hrows] Hxs Hys Hm. destruct (latent_project expf sinf cosf powf g l d W ys Hys) as (Eqr & Eq & Ec).
  destruct (store_latents_spec expf sinf cosf powf g l d W layer ys kv (length xs) Hs Hm) as (kv' & Es & Hs' & A & R & K).
  assert (forall i x, (xs ++ ys) !! i = Some x -> latent_row kv' layer i = Some (lat_vec g l x) /\ krot_row kv' layer i = Some (lat_krot sinf cosf powf g l i x)) as Hrow'.
  { intros i x Hi. rewrite R, K. apply lookup_app_Some in Hi as [Hi|[Hge Hi]].
    - rewrite !decide_False by (apply lookup_lt_Some in Hi; lia). by apply Hrows.
    - rewrite !decide_True by (apply lookup_lt_Some in Hi; lia). by rewrite Hi. }
  assert (kc_kv_start kv' = kc_kv_start kv /\ kc_max_t kv' = kc_max_t kv) as [Est Emax] by (destruct A as (? & ? & ->); done).
  exists kv'. split; [split; [done|by rewrite Est|done]|]. split; [done|]. intros sel computed h0 hc Hh Hsel. unfold attention_with_heads.
  rewrite Eqr. cbv beta iota. rewrite Eq. cbv beta iota.
  rewrite each_row_id; [|apply Forall_map, Forall_true; intros x; apply (matvec_length _ (la_ql g)), W|by rewrite length_map]. cbv beta iota.
  rewrite Ec. cbv beta iota.
  rewrite each_row_id; [|apply Forall_map, Forall_true; intros x; apply (matvec_length _ d), W|by rewrite length_map]. cbv beta iota.
  rewrite Es. cbv beta iota. rewrite Est, Hst. cbv beta iota zeta. change (Z.to_nat 0) with 0.
  unfold block_select in Hsel. rewrite Hsel. cbv beta iota.
  revert Hsel. generalize (match sel with Some _ => sel | None => computed end). intros eff _.
  assert (mapM (latent_row kv' layer) (seq 0 (length xs + length ys - 0)) = Some (map (lat_vec g l) (xs ++ ys)) /\
          mapM (krot_row kv' layer) (seq 0 (length xs + length ys - 0)) = Some (lat_krots sinf cosf powf g l (xs ++ ys))) as [El Ek].
  { unfold lat_krots. rewrite Nat.sub_0_r, <- length_app. split; apply mapM_Some, Forall2_same_length_lookup_2; try (by rewrite ?length_map, ?length_imap, length_seq).
    - intros i j y Hj Hy. apply lookup_seq in Hj as [-> _]. change (map ?f ?k) with (f <$> k) in Hy. rewrite list_lookup_fmap in Hy.
      destruct ((xs ++ ys) !! i) as [x|] eqn:Hx; [|done]. injection Hy as <-. by apply Hrow'.
    - intros i j y Hj Hy. apply lookup_seq in Hj as [-> _]. rewrite list_lookup_imap in Hy.
      destruct ((xs ++ ys) !! i) as [x|] eqn:Hx; [|done]. injection Hy as <-. by apply Hrow'. }
  rewrite (reconstruct_rows expf sinf cosf powf g l d W layer kv' _ (length ys) (length xs) 0 eff h0 hc Hs' ltac:(lia) Hh _ _ El Ek).
  assert (mapM (fun '(s, q) => reconstruct_row expf g (map (matvec (l_kv_b l)) (map (lat_vec g l) (xs ++ ys))) (lat_krots sinf cosf powf g l (xs ++ ys)) 0 s
      (length xs + s) eff h0 hc q) (imap pair (imap (fun i y => lat_q sinf cosf powf g l (length xs + i) y) ys)) =
    block_ctx expf sinf cosf powf g l xs ys eff h0 hc) as ->.
  { unfold block_ctx, lat_kvb. rewrite map_map. assert (imap pair (imap (fun i y => lat_q sinf cosf powf g l (length xs + i) y) ys) =
      map (fun '(i, y) => (i, lat_q sinf cosf powf g l (length xs + i) y)) (imap pair ys)) as ->.
    { change (map ?f ?k) with (f <$> k). rewrite fmap_imap. apply list_eq. intros i. rewrite !list_lookup_imap. by destruct (ys !! i). }
    rewrite mapM_of_map. apply mapM_ext_in. by intros [i y] _. }
  destruct (block_ctx expf sinf cosf powf g l xs ys eff h0 hc) as [ctx|] eqn:Eb; [|done]. cbv beta iota.
  pose proof (finish_rows expf sinf cosf powf g l d W ys ctx Hys) as Ef. unfold block_ctx in Eb. pose proof (mapM_len _ _ _ Eb) as Lc. rewrite length_imap in Lc.
  destruct (output_gate expf g l (concat ys) (concat ctx) (length ys)) as [gc|].
  - cbv beta iota in Ef |- *. rewrite Ef; [done| |done]. apply mapM_Some in Eb. apply Forall_lookup. intros i r Hr.
    destruct (Forall2_lookup_r _ _ _ _ _ Eb Hr) as ([j y] & _ & E1). by eapply reconstruct_row_length.
  - discriminate Ef; [|done]. apply mapM_Some in Eb. apply Forall_lookup. intros i r Hr.
    destruct (Forall2_lookup_r _ _ _ _ _ Eb Hr) as ([j y] & _ & E1). by eapply reconstruct_row_length.
Qed.

Lemma attention_block kv xs ys : lat_stored sinf cosf powf g l layer kv xs ->
  Forall (fun x => length x = d) xs -> Forall (fun y => length y = d) ys -> length xs + length ys <= kc_max_t kv ->
  exists kv', lat_stored sinf cosf powf g l layer kv' (xs ++ ys) /\ lat_at layer kv kv' /\
    forall sel h0 hc, h0 + hc <= la_h g -> is_Some sel \/ idle (kc_max_t kv) ->
      attention_with_heads expf sinf cosf powf dsa_on dsa_min c l layer kv (concat ys) (length ys) (length xs) (length ys * d) Reconstruct sel h0 hc =
      let* ctx := block_ctx expf sinf cosf powf g l xs ys sel h0 hc in Some (kv', concat (zip_with (finish_ctx expf l) ys ctx), None).
Proof.
  intros Hs Hxs Hys Hm. destruct (attention_block_sel kv xs ys Hs Hxs Hys Hm) as (kv' & H1 & H2 & H3). exists kv'. split; [done|]. split; [done|].
  intros sel h0 hc Hh Hsel. rewrite (H3 sel None h0 hc Hh); [by destruct sel|]. unfold block_select.
  destruct Hsel as [Hsel|Hid]; [unfold indexer_select; by rewrite bool_decide_true by done|by eapply idle_select].
Qed.

(** ** Row by row *)

(** The heads at the last token of a history, and the output. *)
Definition lat_ctx (hist : list (list f32)) : option (list f32) :=
  let pos := length hist - 1 in
  reconstruct_row expf g (lat_kvb g l hist) (lat_krots sinf cosf powf g l hist) 0 0 pos None 0 (la_h g)
    (lat_q sinf cosf powf g l pos (default [] (last hist))).
Definition lat_out (hist : list (list f32)) : list f32 := finish_ctx expf l (default [] (last hist)) (default [] (lat_ctx hist)).

#[local] Arguments lat_ctx : simpl never.

Lemma head_ctx_prefix q kvb krot hh jjs n : Forall (fun jj => jj < n) jjs ->
  head_ctx expf g q (take n kvb) (take n krot) hh jjs = head_ctx expf g q kvb krot hh jjs.
Proof using.
  intros H. unfold head_ctx. destruct (range q _ _); [|done]. rewrite Forall_forall in H.
  rewrite (mapM_ext_in _ (fun jj => let* b := kvb !! jj in let* kn := range b (hh * la_head_kv g) (hh * la_head_kv g + la_nope g) in
    let* kr := krot !! jj in Some (kn ++ kr))) by (intros jj Hj; by rewrite !lookup_take_lt by auto).
  destruct (mapM _ jjs); [|done]. cbv zeta.
  by rewrite (mapM_ext_in _ (fun jj => let* b := kvb !! jj in range b (hh * la_head_kv g + la_nope g) (hh * la_head_kv g + la_nope g + la_vh g)))
    by (intros jj Hj; by rewrite lookup_take_lt by auto).
Qed.

Lemma lat_krots_take n hist : lat_krots sinf cosf powf g l (take n hist) = take n (lat_krots sinf cosf powf g l hist).
Proof using.
  unfold lat_krots. apply list_eq. intros i. rewrite list_lookup_imap. destruct (decide (i < n)).
  - by rewrite !lookup_take_lt, list_lookup_imap by done.
  - by rewrite !lookup_take_ge by lia.
Qed.

(** A token attends to its prefix only. *)
Lemma lat_ctx_prefix all i y s : all !! i = Some y ->
  reconstruct_row expf g (lat_kvb g l all) (lat_krots sinf cosf powf g l all) 0 s i None 0 (la_h g) (lat_q sinf cosf powf g l i y) =
  lat_ctx (take (S i) all).
Proof using.
  intros Hi. pose proof (lookup_lt_Some _ _ _ Hi) as Hl. unfold lat_ctx. rewrite length_take, Nat.min_l by lia. replace (S i - 1) with i by lia.
  rewrite last_lookup, length_take, Nat.min_l by lia. cbn [Nat.pred]. rewrite lookup_take_lt, Hi by lia. cbn [default from_option].
  unfold reconstruct_row. destruct (Nat.ltb_spec (i + 1) 0); [lia|]. cbn [query_keys]. rewrite Nat.sub_0_r.
  assert (lat_kvb g l (take (S i) all) = take (S i) (lat_kvb g l all)) as ->.
  { unfold lat_kvb. change (map ?f ?k) with (f <$> k). by rewrite fmap_take. }
  rewrite lat_krots_take. match goal with |- match mapM ?f ?k with _ => _ end = match mapM ?h _ with _ => _ end => assert (mapM f k = mapM h k) as ->; [|done] end.
  apply mapM_ext_in. intros hh Hh. destruct (_ && _); [|done]. symmetry.
  apply head_ctx_prefix, Forall_forall. intros j Hj%elem_of_seq. lia.
Qed.

Lemma lat_ctx_some hist : hist <> [] -> exists y, lat_ctx hist = Some y /\ length y = la_h g * la_vh g.
Proof.
  intros Hn. assert (0 < length hist) as Hl by (destruct hist; [done|simpl; lia]).
  assert (is_Some (lat_ctx hist)) as [y E].
  { unfold lat_ctx, reconstruct_row. destruct (Nat.ltb_spec (length hist - 1 + 1) 0); [lia|]. cbn [query_keys].
    destruct (mapM_total (fun hh => if (0 <=? hh) && (hh <? 0 + la_h g) then
        head_ctx expf g (lat_q sinf cosf powf g l (length hist - 1) (default [] (last hist))) (lat_kvb g l hist) (lat_krots sinf cosf powf g l hist) hh
          (seq 0 (length hist - 1 + 1 - 0)) else Some (replicate (la_vh g) f0)) (seq 0 (la_h g))) as [hs ->]; [|by eexists].
    intros hh Hh%elem_of_seq. destruct (_ && _); [|by eexists].
    destruct (head_ctx_total expf sinf cosf powf g l d W (lat_q sinf cosf powf g l (length hist - 1) (default [] (last hist))) (lat_kvb g l hist)
      (lat_krots sinf cosf powf g l hist) hh (seq 0 (length hist - 1 + 1 - 0))) as (y & -> & _); [| | |lia| |by eexists].
    - by apply (lat_q_some expf sinf cosf powf g l d W).
    - apply Forall_map, Forall_true. intros x. apply (matvec_length _ (la_kvl g)), W.
    - unfold lat_krots, lat_kvb. by rewrite length_imap, length_map.
    - apply Forall_forall. intros j Hj%elem_of_seq. unfold lat_kvb. rewrite length_map. lia. }
  exists y. split; [done|]. unfold lat_ctx in E. by eapply (reconstruct_row_length expf sinf cosf powf g l d W).
Qed.

Lemma lat_out_length hist : length (lat_out hist) = d.
Proof. unfold lat_out, finish_ctx. by apply (matvec_length _ (la_h g * la_vh g)), W. Qed.

(** The block extends what the cache holds, and every token gets the output of
    its history, whatever the block it came in. *)
Lemma attention_mla_spec kv xs ys : lat_stored sinf cosf powf g l layer kv xs -> idle (kc_max_t kv) ->
  Forall (fun x => length x = d) xs -> Forall (fun x => length x = d) ys -> ys <> [] -> length xs + length ys <= kc_max_t kv ->
  exists kv', attention_with expf sinf cosf powf dsa_on dsa_min c l layer kv (concat ys) (length ys) (length xs) (length ys * d) Reconstruct None =
      Some (kv', concat (map (fun i => lat_out (xs ++ take (S i) ys)) (seq 0 (length ys))), None) /\
    lat_stored sinf cosf powf g l layer kv' (xs ++ ys) /\ lat_at layer kv kv'.
Proof.
  intros Hst Hid Hxs Hys Hn Hm. destruct (attention_block kv xs ys Hst Hxs Hys Hm) as (kv' & Hst' & A & E).
  exists kv'. split_and!; [|done|done]. unfold attention_with. rewrite E by (by right || done).
  assert (block_ctx expf sinf cosf powf g l xs ys None 0 (Z.to_nat (n_heads c)) =
    Some (map (fun i => default [] (lat_ctx (xs ++ take (S i) ys))) (seq 0 (length ys)))) as ->.
  { unfold block_ctx. apply mapM_Some, Forall2_same_length_lookup_2; [by rewrite length_imap, length_map, length_seq|].
    intros i [j y] r Hj Hr. rewrite list_lookup_imap in Hj. destruct (ys !! i) as [y'|] eqn:Hy; [|done]. injection Hj as <- <-.
    pose proof (lookup_lt_Some _ _ _ Hy). change (map ?f ?k) with (f <$> k) in Hr. rewrite list_lookup_fmap, lookup_seq_lt in Hr by done. injection Hr as <-.
    change (Z.to_nat (n_heads c)) with (la_h g). rewrite (lat_ctx_prefix (xs ++ ys) (length xs + i) y').
    - rewrite take_app_ge by lia. replace (S (length xs + i) - length xs) with (S i) by lia. cbn [Nat.add].
      destruct (lat_ctx_some (xs ++ take (S i) ys)) as (ctx & -> & _); [|done]. destruct ys; [done|]. by destruct xs.
    - rewrite lookup_app_r by lia. by replace (length xs + i - length xs) with i by lia. }
  cbv beta iota. do 4 f_equal. apply list_eq. intros i. rewrite lookup_zip_with. change (map ?f ?k) with (f <$> k). rewrite !list_lookup_fmap.
  destruct (ys !! i) as [y|] eqn:Hy; cbn.
  - pose proof (lookup_lt_Some _ _ _ Hy). rewrite lookup_seq_lt by done. cbn. f_equal. unfold lat_out.
    rewrite last_app, last_lookup, length_take, Nat.min_l by lia. cbn [Nat.pred]. rewrite lookup_take_lt, Hy by lia. done.
  - apply lookup_ge_None in Hy. by rewrite lookup_seq_ge.
Qed.

(** From any cache of the right shape, wherever it starts, the block gives rows. *)
Lemma attention_mla_total kv ys pos st0 : lat_shaped g layer kv -> idle (kc_max_t kv) -> kc_kv_start kv !! layer = Some st0 -> (st0 <= Z.of_nat pos)%Z ->
  Forall (fun x => length x = d) ys -> ys <> [] -> pos + length ys <= kc_max_t kv ->
  exists kv' zs, attention_with expf sinf cosf powf dsa_on dsa_min c l layer kv (concat ys) (length ys) pos (length ys * d) Reconstruct None =
      Some (kv', concat zs, None) /\
    Forall (fun z => length z = d) zs /\ length zs = length ys /\ lat_at layer kv kv' /\ lat_shaped g layer kv'.
Proof.
  intros Hs Hid Hst Hle Hys Hn Hm. destruct (latent_project expf sinf cosf powf g l d W ys Hys) as (Eqr & Eq & Ec).
  destruct (store_latents_spec expf sinf cosf powf g l d W layer ys kv pos Hs Hm) as (kv' & Es & Hs' & A & _ & _).
  assert (kc_kv_start kv' = kc_kv_start kv /\ kc_max_t kv' = kc_max_t kv) as [Est Emax] by (destruct A as (? & ? & ->); done).
  unfold attention_with, attention_with_heads. rewrite Eqr. cbv beta iota. rewrite Eq. cbv beta iota.
  rewrite each_row_id; [|apply Forall_map, Forall_true; intros x; apply (matvec_length _ (la_ql g)), W|by rewrite length_map]. cbv beta iota.
  rewrite Ec. cbv beta iota.
  rewrite each_row_id; [|apply Forall_map, Forall_true; intros x; apply (matvec_length _ d), W|by rewrite length_map]. cbv beta iota.
  rewrite Es. cbv beta iota. rewrite Est, Hst. cbv beta iota zeta. rewrite (idle_select (kc_max_t kv)) by done. cbv beta iota.
  set (s0 := Z.to_nat st0). assert (s0 <= pos) as Hs0 by (unfold s0; lia).
  destruct (cached_rows expf sinf cosf powf g l d W layer kv' s0 (pos + length ys - s0) Hs') as (lats & krs & El & Ek & _ & Fl & Fk & Ll & Lk); [lia|].
  rewrite (reconstruct_rows expf sinf cosf powf g l d W layer kv' _ (length ys) pos s0 None 0 (Z.to_nat (n_heads c)) Hs' ltac:(lia) ltac:(cbn; lia) _ _ El Ek).
  destruct (mapM_all (fun '(s, q) => reconstruct_row expf g (map (matvec (l_kv_b l)) lats) krs s0 s (pos + s) None 0 (Z.to_nat (n_heads c)) q)
    (fun y => length y = la_h g * la_vh g) (imap pair (imap (fun i y => lat_q sinf cosf powf g l (pos + i) y) ys))) as (ctx & -> & Fc & Lc).
  { intros [s q] Hin. apply elem_of_lookup_imap in Hin as (i & q' & [= -> ->] & Hi). rewrite list_lookup_imap in Hi.
    destruct (ys !! i) as [y|] eqn:Hy; [|done]. injection Hi as <-. pose proof (lookup_lt_Some _ _ _ Hy).
    assert (is_Some (reconstruct_row expf g (map (matvec (l_kv_b l)) lats) krs s0 i (pos + i) None 0 (Z.to_nat (n_heads c)) (lat_q sinf cosf powf g l (pos + i) y))) as [r E].
    { unfold reconstruct_row. destruct (Nat.ltb_spec (pos + i + 1) s0); [lia|]. cbn [query_keys].
      match goal with |- context [mapM ?f (seq 0 (la_h g))] => destruct (mapM_total f (seq 0 (la_h g))) as [hs ->]; [|by eexists] end.
      intros hh Hh%elem_of_seq. destruct (_ && _); [|by eexists].
      destruct (head_ctx_total expf sinf cosf powf g l d W (lat_q sinf cosf powf g l (pos + i) y) (map (matvec (l_kv_b l)) lats) krs hh
        (seq 0 (pos + i + 1 - s0))) as (z & -> & _); [| | |lia| |by eexists].
      - by apply (lat_q_some expf sinf cosf powf g l d W).
      - apply Forall_map, Forall_true. intros x. apply (matvec_length _ (la_kvl g)), W.
      - rewrite length_map. lia.
      - apply Forall_forall. intros j Hj%elem_of_seq. rewrite length_map. lia. }
    exists r. split; [done|]. by eapply (reconstruct_row_length expf sinf cosf powf g l d W). }
  rewrite !length_imap in Lc. pose proof (finish_rows expf sinf cosf powf g l d W ys ctx Hys Fc Lc) as Ef.
  destruct (output_gate expf g l (concat ys) (concat ctx) (length ys)) as [gc|]; [|done]. cbv beta iota in Ef |- *. rewrite Ef.
  eexists _, _. split; [done|]. split_and!; [|rewrite length_zip_with; lia|done|done].
  apply Forall_lookup. intros i r Hr. apply lookup_zip_with_Some in Hr as (x & z & -> & _). apply (matvec_length _ (la_h g * la_vh g)), W.
Qed.
End Layer.
