(* ===== verification/Mamba.v ===== *)
(** * The Mamba2 mixer ([crates/colibri-engine/src/mamba2.rs],
      [mamba2_mixer] of [crates/colibri-engine/src/forward.rs])

    The causal convolution over the last tokens, the selective scan that carries
    a state from token to token, the gated norm, and the two projections.  The
    portable path: the CUDA scans are not modelled.  The scratch buffers are
    overwritten before they are read, so a call allocates its own.  An index that
    the asserts keep in range is read with [nth]. *)

From Stdlib Require Import ZifyBool ZifyNat SpecFloat.
From S2P Require Import Prelude Rows DType Math Linear Config Model KvCache.
Local Open Scope nat_scope.

Record MambaDims := { md_n_heads : nat; md_head_dim : nat; md_d_state : nat; md_n_groups : nat; md_dt_min : f32 }.
Definition d_inner (dm : MambaDims) : nat := md_n_heads dm * md_head_dim dm.
(** Integer division: no groups panics. *)
Definition heads_per_group (dm : MambaDims) : option nat :=
  if md_n_groups dm =? 0 then None else Some (md_n_heads dm / md_n_groups dm).

Section Mamba.
Context (expf ln_1p : f32 -> f32).

Definition softplus (x : f32) : f32 := if SFltb (f32_of_Z 20) x then x else ln_1p (expf x).

(** ** The convolution *)

(** One tap, skipped before the first token. *)
Definition conv_tap (input weight : list f32) (channels k t c : nat) (acc : f32) (j : nat) : f32 :=
  let off := k - 1 - j in
  if off <=? t then f32_add acc (f32_mul (nth (c * k + j) weight f0) (nth ((t - off) * channels + c) input f0)) else acc.
Definition conv_cell (input weight bias : list f32) (channels k t c : nat) : f32 :=
  silu expf (foldl (conv_tap input weight channels k t c) (nth c bias f0) (seq 0 k)).
Definition causal_conv1d_silu (input weight bias : list f32) (seq_len channels k out_from : nat) : option (list f32) :=
  if negb ((length input =? seq_len * channels) && (length weight =? channels * k) &&
           ((length bias =? 0) || (length bias =? channels)) && (out_from <=? seq_len))
  then None
  else Some (concat (map (fun t => map (conv_cell input weight bias channels k t) (seq 0 channels))
                       (seq out_from (seq_len - out_from)))).

(** ** The scan *)

(** One row of the state: it decays, takes the token in, and is read. *)
Definition scan_cell (dt_h da_h d_h x : f32) (b c ss : list f32) : list f32 * f32 :=
  let ss := f32_zip (fun s b => f32_add (f32_mul s da_h) (f32_mul (f32_mul dt_h b) x)) ss b in
  (ss, f32_add (dot_f32 ss c) (f32_mul x d_h)).

(** [softplus(dt + bias).max(dt_min)], and the decay. *)
Definition step_size (dm : MambaDims) (dt bias : f32) : f32 := f32_max (softplus (f32_add dt bias)) (md_dt_min dm).
Definition decay (dt_h a_log : f32) : f32 := expf (f32_mul dt_h (SFopp (expf a_log))).

(** One token: the rows of the state in order, head by head. *)
Definition scan_token (dm : MambaDims) (hpg t : nat) (hidden b c dt a_log d dt_bias data : list f32)
    : option (list f32 * list f32) :=
  let '(nh, p, n, g) := (md_n_heads dm, md_head_dim dm, md_d_state dm, md_n_groups dm) in
  let* heads := mapM (fun h =>
    if hpg =? 0 then None
    else
      let grp := h / hpg in
      let* dth := dt !! (t * nh + h) in let* bias := dt_bias !! h in let* al := a_log !! h in let* d_h := d !! h in
      let dt_h := step_size dm dth bias in
      let da_h := decay dt_h al in
      let* b_row := range b (t * g * n + grp * n) (t * g * n + grp * n + n) in
      let* c_row := range c (t * g * n + grp * n) (t * g * n + grp * n + n) in
      mapM (fun pp =>
        let* x := hidden !! (t * d_inner dm + h * p + pp) in
        let* ss := range data (h * p * n + pp * n) (h * p * n + pp * n + n) in
        Some (scan_cell dt_h da_h d_h x b_row c_row ss)) (seq 0 p)) (seq 0 nh) in
  Some (concat (map fst (concat heads)), map snd (concat heads)).

Fixpoint scan_tokens (dm : MambaDims) (hpg t n_tokens : nat) (hidden b c dt a_log d dt_bias data : list f32)
    : option (list f32 * list f32) :=
  match n_tokens with
  | 0 => Some (data, [])
  | S n_tokens =>
      let* (data, y) := scan_token dm hpg t hidden b c dt a_log d dt_bias data in
      let* (data, ys) := scan_tokens dm hpg (t + 1) n_tokens hidden b c dt a_log d dt_bias data in
      Some (data, y ++ ys)
  end.

Definition selective_scan (dm : MambaDims) (data hidden b c dt a_log d dt_bias : list f32) (n_tokens : nat)
    : option (list f32 * list f32) :=
  let '(nh, p, n, g) := (md_n_heads dm, md_head_dim dm, md_d_state dm, md_n_groups dm) in
  let* hpg := heads_per_group dm in
  if negb ((length hidden =? n_tokens * d_inner dm) && (length b =? n_tokens * g * n) && (length c =? n_tokens * g * n) &&
           (length dt =? n_tokens * nh) && (length data =? nh * p * n))
  then None
  else scan_tokens dm hpg 0 n_tokens hidden b c dt a_log d dt_bias data.

(** The step sizes and decays of one token, and of a sequence, as the device
    kernels take them. *)
Definition step_head_scalars (dm : MambaDims) (dt a_log dt_bias : list f32) : option (list f32 * list f32) :=
  let nh := md_n_heads dm in
  if (length dt <? nh) || (length a_log <? nh) || (length dt_bias <? nh) then None
  else
    let dts := map (fun h => step_size dm (nth h dt f0) (nth h dt_bias f0)) (seq 0 nh) in
    Some (dts, imap (fun h dth => decay dth (nth h a_log f0)) dts).
Definition seq_head_scalars (dm : MambaDims) (dt a_log dt_bias : list f32) (n_tokens : nat) : option (list f32 * list f32) :=
  let nh := md_n_heads dm in
  if (length dt <? n_tokens * nh) || (length a_log <? nh) || (length dt_bias <? nh) then None
  else
    let a := map (fun v => SFopp (expf v)) (take nh a_log) in
    let rows := map (fun t => map (fun h =>
      let dth := step_size dm (nth (t * nh + h) dt f0) (nth h dt_bias f0) in
      (dth, expf (f32_mul dth (nth h a f0)))) (seq 0 nh)) (seq 0 n_tokens) in
    Some (map fst (concat rows), map snd (concat rows)).

(** ** The gated norm *)

Definition norm_group (gsz : nat) (eps : f32) (y gate weight : list f32) : list f32 :=
  let gated := f32_zip (fun y g => f32_mul y (silu expf g)) y gate in
  let ss := fold_left (fun acc v => f32_add acc (f32_mul v v)) gated f0 in
  let inv := f32_div f32_one (f32_sqrt (f32_add (f32_div ss (f32_of_nat gsz)) eps)) in
  f32_zip (fun v w => f32_mul (f32_mul v inv) w) gated weight.
Definition gated_rmsnorm (y gate weight : list f32) (n_tokens di n_groups : nat) (eps : f32) : option (list f32) :=
  if negb ((length y =? n_tokens * di) && (length gate =? n_tokens * di) && (length weight =? di)) || (n_groups =? 0) then None
  else if negb (di mod n_groups =? 0) then None
  else
    let gsz := di / n_groups in
    let* rows := mapM (fun t =>
      let* groups := mapM (fun grp =>
        let off := t * di + grp * gsz in
        let* yg := range y off (off + gsz) in let* gg := range gate off (off + gsz) in
        let* wg := range weight (grp * gsz) (grp * gsz + gsz) in
        Some (norm_group gsz eps yg gg wg)) (seq 0 n_groups) in
      Some (concat groups)) (seq 0 n_tokens) in
    Some (concat rows).

(** ** The mixer *)

Definition dims_of (c : Config) : MambaDims :=
  {| md_n_heads := Z.to_nat (mamba_n_heads c); md_head_dim := Z.to_nat (mamba_head_dim c);
     md_d_state := Z.to_nat (mamba_d_state c); md_n_groups := Z.to_nat (mamba_n_groups c); md_dt_min := mamba_dt_min c |}.

(** [mamba2_mixer]; [skip_hist] is [conv_skip_hist()], and [out] has length
    [out_len].  No tokens, or a convolution of no taps, underflows. *)
Definition mamba2_mixer (skip_hist : bool) (cfg : Config) (l : Layer) (kv : KvCache) (layer : nat) (x : list f32) (s out_len : nat)
    : option (KvCache * list f32) :=
  let dm := dims_of cfg in
  let nh := md_n_heads dm in
  let di := Z.to_nat (mamba_inter cfg) in
  let gn := md_n_groups dm * md_d_state dm in
  let conv_dim := di + 2 * gn in
  let kk := Z.to_nat (mamba_d_conv cfg) in
  let proj_out := di + conv_dim + nh in
  let* in_proj := l_mamba_in_proj l in
  let* out_proj := l_mamba_out_proj l in
  let* proj := matmul_qt (s * proj_out) x in_proj s in
  let* rows := each_row proj_out s Some proj in
  let* gate := mapM (fun r => range r 0 di) rows in
  let* hbc := mapM (fun r => range r di (di + conv_dim)) rows in
  let* dt := mapM (fun r => range r (di + conv_dim) proj_out) rows in
  if (kk =? 0) || (s =? 0) then None
  else
    let hist := kk - 1 in
    let aug_len := hist + s in
    let* cs := kc_mamba_conv kv !! layer in
    let* old := range cs conv_dim (kk * conv_dim) in
    let aug := old ++ concat hbc in
    let from := if skip_hist then hist else 0 in
    let* conv_aug := causal_conv1d_silu aug (l_mamba_conv_w l) (l_mamba_conv_b l) aug_len conv_dim kk from in
    let conv_out := drop ((hist - from) * conv_dim) conv_aug in
    let* window := range aug ((aug_len - kk) * conv_dim) (aug_len * conv_dim) in
    let* window := copy_from_slice cs window in
    let kv := set_mamba kv (<[layer := window]> (kc_mamba_conv kv)) (kc_mamba_ssm kv) (kc_mamba_d_conv kv) (kc_mamba_conv_dim kv) in
    let* conv_rows := each_row conv_dim s Some conv_out in
    let* h := mapM (fun r => range r 0 di) conv_rows in
    let* b := mapM (fun r => range r di (di + gn)) conv_rows in
    let* c := mapM (fun r => range r (di + gn) conv_dim) conv_rows in
    let* st := kc_mamba_ssm kv !! layer in
    let* (data, y) := selective_scan dm (ss_data st) (concat h) (concat b) (concat c) (concat dt) (l_mamba_a_log l) (l_mamba_d l)
                        (l_mamba_dt_bias l) s in
    let st := {| ss_data := data; ss_n_heads := ss_n_heads st; ss_head_dim := ss_head_dim st; ss_d_state := ss_d_state st |} in
    let kv := set_mamba kv (kc_mamba_conv kv) (<[layer := st]> (kc_mamba_ssm kv)) (kc_mamba_d_conv kv) (kc_mamba_conv_dim kv) in
    let* yn := gated_rmsnorm y (concat gate) (l_mamba_norm l) s di (md_n_groups dm) (eps cfg) in
    let* out := matmul_qt out_len yn out_proj s in
    Some (kv, out).
End Mamba.

(** ** A sequence, token by token *)

Lemma concat_row_sub {A} w (rs : list (list A)) t r a n : Forall (fun r => length r = w) rs -> rs !! t = Some r -> a + n <= w ->
  range (concat rs) (t * w + a) (t * w + a + n) = range r a (a + n).
Proof.
  intros Hrs Ht Hw. symmetry. replace (t * w + a + n) with (t * w + (a + n)) by lia.
  apply (range_sub _ (t * w) ((t + 1) * w)); [by apply concat_row_range|lia].
Qed.

Lemma concat_row_lookup {A} w (rs : list (list A)) t r i : Forall (fun r => length r = w) rs -> rs !! t = Some r -> i < w ->
  concat rs !! (t * w + i) = r !! i.
Proof. intros Hrs Ht Hi. apply (row_lookup w); [by apply concat_row|done]. Qed.

Lemma concat_row_nth w (rs : list (list f32)) t r i : Forall (fun r => length r = w) rs -> rs !! t = Some r -> i < w ->
  nth (t * w + i) (concat rs) f0 = nth i r f0.
Proof. intros. by rewrite !nth_lookup, (concat_row_lookup w rs t r). Qed.

Section Steps.
Context (expf ln_1p : f32 -> f32) (dm : MambaDims) (hpg : nat) (a_log dsk dt_bias : list f32).

Abbreviation nh := (md_n_heads dm).
Abbreviation gn := (md_n_groups dm * md_d_state dm).

(** The heads share the groups evenly, and the weights have an entry per head. *)
Record wf_scan : Prop := {
  ws_groups : heads_per_group dm = Some hpg /\ 0 < hpg /\ nh = hpg * md_n_groups dm;
  ws_a : nh <= length a_log; ws_d : nh <= length dsk; ws_bias : nh <= length dt_bias
}.

Lemma group_lt h : wf_scan -> h < nh -> h / hpg < md_n_groups dm.
Proof. intros [(_ & H0 & H) _ _ _] Hh. apply Nat.Div0.div_lt_upper_bound. lia. Qed.

(** One token of a sequence is one token alone. *)
Lemma scan_token_row hs bs cs dts t h b c dt data : wf_scan ->
  Forall (fun r => length r = d_inner dm) hs -> Forall (fun r => length r = gn) bs -> Forall (fun r => length r = gn) cs ->
  Forall (fun r => length r = nh) dts -> hs !! t = Some h -> bs !! t = Some b -> cs !! t = Some c -> dts !! t = Some dt ->
  scan_token expf ln_1p dm hpg t (concat hs) (concat bs) (concat cs) (concat dts) a_log dsk dt_bias data =
  scan_token expf ln_1p dm hpg 0 h b c dt a_log dsk dt_bias data.
Proof.
  intros W Hhs Hbs Hcs Hdts Hh Hb Hc Hdt. unfold scan_token. destruct (ws_groups W) as (_ & Hp & _).
  destruct (Nat.eqb_spec hpg 0) as [|_]; [lia|].
  erewrite mapM_ext_in; [done|]. intros hd Hhd%elem_of_seq. cbv beta. pose proof (group_lt hd W ltac:(lia)) as Hg.
  rewrite (concat_row_lookup nh dts t dt) by (done || lia). cbn [Nat.mul Nat.add].
  destruct (dt !! hd), (dt_bias !! hd), (a_log !! hd), (dsk !! hd); try done. cbv beta iota.
  assert (hd / hpg * md_d_state dm + md_d_state dm <= gn) as Hle by nia.
  assert (forall (rows : list (list f32)) r, Forall (fun r => length r = gn) rows -> rows !! t = Some r ->
    range (concat rows) (t * md_n_groups dm * md_d_state dm + hd / hpg * md_d_state dm)
      (t * md_n_groups dm * md_d_state dm + hd / hpg * md_d_state dm + md_d_state dm) =
    range r (hd / hpg * md_d_state dm) (hd / hpg * md_d_state dm + md_d_state dm)) as Hsub.
  { intros rows r Hr Ht. rewrite <- (Nat.mul_assoc t). by apply concat_row_sub. }
  rewrite (Hsub bs b), (Hsub cs c) by done.
  lazymatch goal with |- context [range b ?x ?y] => destruct (range b x y), (range c x y); try done end.
  cbv beta iota zeta. apply mapM_ext_in. intros pp Hpp%elem_of_seq.
  rewrite <- Nat.add_assoc, (concat_row_lookup (d_inner dm) hs t h); [done|done|done|]. unfold d_inner. nia.
Qed.

Definition scan_row (data : list f32) (r : list f32 * list f32 * list f32 * list f32) : list f32 * list f32 :=
  let '(h, b, c, dt) := r in default ([], []) (scan_token expf ln_1p dm hpg 0 h b c dt a_log dsk dt_bias data).

(** The shapes of a token's rows. *)
Definition wf_row (r : list f32 * list f32 * list f32 * list f32) : Prop :=
  let '(h, b, c, dt) := r in length h = d_inner dm /\ length b = gn /\ length c = gn /\ length dt = nh.

Lemma scan_row_some data r : wf_scan -> wf_row r -> length data = nh * md_head_dim dm * md_d_state dm ->
  let '(h, b, c, dt) := r in
  scan_token expf ln_1p dm hpg 0 h b c dt a_log dsk dt_bias data = Some (scan_row data r) /\
  length (scan_row data r).1 = nh * md_head_dim dm * md_d_state dm /\ length (scan_row data r).2 = d_inner dm.
Proof.
  destruct r as [[[h b] c] dt]. intros W (Lh & Lb & Lc & Ldt) Ld. unfold scan_row.
  enough (exists data' y, scan_token expf ln_1p dm hpg 0 h b c dt a_log dsk dt_bias data = Some (data', y) /\
    length data' = nh * md_head_dim dm * md_d_state dm /\ length y = d_inner dm) as (data' & y & -> & H1 & H2) by done.
  unfold scan_token. destruct (ws_groups W) as (_ & Hp & _). destruct (Nat.eqb_spec hpg 0) as [|_]; [lia|].
  set (f := fun hd : nat => _).
  assert (forall hd, hd < nh -> exists cells, f hd = Some cells /\ length cells = md_head_dim dm /\
    Forall (fun cell => length cell.1 = md_d_state dm) cells) as Hf.
  { intros hd Hhd. pose proof (group_lt hd W Hhd) as Hg. unfold f. cbn [Nat.mul Nat.add].
    destruct (lookup_lt_is_Some_2 dt hd) as [v1 ->]; [lia|]. destruct (lookup_lt_is_Some_2 dt_bias hd) as [v2 ->]; [pose proof (ws_bias W); lia|].
    destruct (lookup_lt_is_Some_2 a_log hd) as [v3 ->]; [pose proof (ws_a W); lia|].
    destruct (lookup_lt_is_Some_2 dsk hd) as [v4 ->]; [pose proof (ws_d W); lia|]. cbv beta iota zeta.
    assert (hd / hpg * md_d_state dm + md_d_state dm <= gn) as Hle by nia.
    destruct (range b (hd / hpg * md_d_state dm) (hd / hpg * md_d_state dm + md_d_state dm)) as [b_row|] eqn:Eb; [|rewrite range_some in Eb by lia; done].
    destruct (range c (hd / hpg * md_d_state dm) (hd / hpg * md_d_state dm + md_d_state dm)) as [c_row|] eqn:Ec; [|rewrite range_some in Ec by lia; done].
    apply range_length in Eb, Ec. set (cell := fun pp : nat => _).
    assert (forall pp, pp < md_head_dim dm -> exists z, cell pp = Some z /\ length z.1 = md_d_state dm) as Hcell.
    { intros pp Hpp. unfold cell. destruct (lookup_lt_is_Some_2 h (hd * md_head_dim dm + pp)) as [x ->]; [unfold d_inner in Lh; nia|].
      assert (hd * md_head_dim dm * md_d_state dm + pp * md_d_state dm + md_d_state dm <= length data) as Hr.
      { rewrite Ld. pose proof (Nat.mul_le_mono_r (hd * md_head_dim dm + pp + 1) (nh * md_head_dim dm) (md_d_state dm) ltac:(nia)). lia. }
      rewrite range_some by lia. eexists. split; [done|]. cbn. unfold f32_zip. rewrite length_map, length_combine, length_take, length_drop. lia. }
    destruct (mapM_total cell (seq 0 (md_head_dim dm))) as [cells E].
    { intros pp Hpp%elem_of_seq. destruct (Hcell pp) as (z & -> & _); [lia|]. by eexists. }
    rewrite E. exists cells. split_and!; [done|by rewrite (mapM_len _ _ _ E), length_seq|].
    apply mapM_Some in E. apply Forall_lookup. intros i z Hz. destruct (Forall2_lookup_r _ _ _ _ _ E Hz) as (j & Hj & Hfj).
    apply lookup_seq in Hj as [-> Hj]. destruct (Hcell i Hj) as (z' & E' & Hl'). cbn in Hfj. congruence. }
  destruct (mapM_total f (seq 0 nh)) as [heads E].
  { intros hd Hhd%elem_of_seq. destruct (Hf hd) as (z & -> & _); [lia|]. by eexists. }
  rewrite E. eexists _, _. split; [done|].
  assert (length heads = nh) as Hl by (by rewrite (mapM_len _ _ _ E), length_seq).
  assert (Forall (fun cells => length cells = md_head_dim dm /\ Forall (fun cell => length cell.1 = md_d_state dm) cells) heads) as Hheads.
  { apply mapM_Some in E. apply Forall_lookup. intros i z Hz. destruct (Forall2_lookup_r _ _ _ _ _ E Hz) as (j & Hj & Hfj).
    apply lookup_seq in Hj as [-> Hj]. destruct (Hf i Hj) as (z' & E' & Hl'). cbn in Hfj. congruence. }
  assert (length (concat heads) = nh * md_head_dim dm) as Hcl.
  { rewrite (concat_len (md_head_dim dm)); [by rewrite Hl|]. eapply Forall_impl; [exact Hheads|]. by intros ? []. }
  split.
  - rewrite (concat_len (md_d_state dm)), length_map, Hcl; [done|]. apply Forall_map, Forall_concat. eapply Forall_impl; [exact Hheads|]. by intros ? [].
  - by rewrite length_map, Hcl.
Qed.

(** The state after a sequence of rows, and the outputs. *)
Fixpoint scan_rows (data : list f32) (rs : list (list f32 * list f32 * list f32 * list f32)) : list f32 * list (list f32) :=
  match rs with
  | [] => (data, [])
  | r :: rs => let '(data, y) := scan_row data r in let '(data, ys) := scan_rows data rs in (data, y :: ys)
  end.
End Steps.

Section Sequence.
Context (expf ln_1p : f32 -> f32) (dm : MambaDims) (hpg : nat) (a_log dsk dt_bias : list f32).

Abbreviation nh := (md_n_heads dm).
Abbreviation row := (list f32 * list f32 * list f32 * list f32)%type.
Abbreviation scans := (scan_rows expf ln_1p dm hpg a_log dsk dt_bias).
Definition row_h (r : row) := r.1.1.1.
Definition row_b (r : row) := r.1.1.2.
Definition row_c (r : row) := r.1.2.
Definition row_dt (r : row) := r.2.

Lemma scan_rows_length rs : wf_scan dm hpg a_log dsk dt_bias -> Forall (wf_row dm) rs -> forall data,
  length data = nh * md_head_dim dm * md_d_state dm ->
  length (scans data rs).1 = nh * md_head_dim dm * md_d_state dm /\ length (scans data rs).2 = length rs /\
  Forall (fun y => length y = d_inner dm) (scans data rs).2.
Proof.
  intros W. induction 1 as [|r rs Hr Hrs IH]; intros data Hd; [by split_and!|]. cbn.
  pose proof (scan_row_some expf ln_1p dm hpg a_log dsk dt_bias data r W Hr Hd) as Hs. destruct r as [[[h b] c] dt]. destruct Hs as (_ & H1 & H2).
  destruct (scan_row _ _ _ _ _ _ _ _ _) as [data1 y]. cbn in H1, H2. destruct (IH data1 H1) as (I1 & I2 & I3).
  destruct (scan_rows _ _ _ _ _ _ _ data1 rs) as [data2 ys]. cbn in *. split_and!; [done|lia|by constructor].
Qed.

Lemma scan_tokens_spec rs : wf_scan dm hpg a_log dsk dt_bias -> Forall (wf_row dm) rs -> forall n t data,
  t + n = length rs -> length data = nh * md_head_dim dm * md_d_state dm ->
  scan_tokens expf ln_1p dm hpg t n (concat (map row_h rs)) (concat (map row_b rs)) (concat (map row_c rs)) (concat (map row_dt rs))
    a_log dsk dt_bias data =
  Some ((scans data (drop t rs)).1, concat (scans data (drop t rs)).2).
Proof.
  intros W Hrs. induction n as [|n IH]; intros t data Ht Hd; [by rewrite drop_ge by lia|]. cbn [scan_tokens].
  destruct (lookup_lt_is_Some_2 rs t) as [r Hr]; [lia|]. pose proof Hrs as Hrs'. rewrite Forall_lookup in Hrs'. pose proof (Hrs' t r Hr) as Hwr.
  assert (forall (f : row -> list f32) w, (forall r, wf_row dm r -> length (f r) = w) -> Forall (fun x => length x = w) (map f rs)) as Hall.
  { intros f w Hf. apply Forall_map. eapply Forall_impl; [exact Hrs|]. exact Hf. }
  rewrite (scan_token_row expf ln_1p dm hpg a_log dsk dt_bias (map row_h rs) (map row_b rs) (map row_c rs) (map row_dt rs) t
    (row_h r) (row_b r) (row_c r) (row_dt r) data W).
  2-5: apply Hall; intros [[[h b] c] dt] (? & ? & ? & ?); done.
  2-5: change (map ?f rs) with (f <$> rs); by rewrite list_lookup_fmap, Hr.
  pose proof (scan_row_some expf ln_1p dm hpg a_log dsk dt_bias data r W Hwr Hd) as Hs. rewrite (drop_S rs r t Hr). cbn [scan_rows].
  destruct r as [[[h b] c] dt]. destruct Hs as (Es & H1 & _). cbn [row_h row_b row_c row_dt fst snd]. rewrite Es.
  destruct (scan_row _ _ _ _ _ _ _ _ _) as [data1 y]. cbn in H1. rewrite IH by (done || lia). rewrite Nat.add_1_r.
  by destruct (scan_rows _ _ _ _ _ _ _ data1 _).
Qed.

Lemma scan_rows_app r1 r2 : forall data,
  scans data (r1 ++ r2) = let '(d1, y1) := scans data r1 in let '(d2, y2) := scans d1 r2 in (d2, y1 ++ y2).
Proof.
  induction r1 as [|r r1 IH]; intros data; cbn; [by destruct (scan_rows _ _ _ _ _ _ _ data r2)|].
  destruct (scan_row _ _ _ _ _ _ _ _ _) as [d y]. rewrite IH. destruct (scan_rows _ _ _ _ _ _ _ d r1) as [d1 y1].
  by destruct (scan_rows _ _ _ _ _ _ _ d1 r2).
Qed.
End Sequence.

(** ** The convolution over rows *)

Section Conv.
Context (expf : f32 -> f32) (weight bias : list f32) (ch k : nat).

(** The output of a window of [k] rows. *)
Definition conv_win (win : list (list f32)) (c : nat) : f32 :=
  silu expf (foldl (fun acc j => f32_add acc (f32_mul (nth (c * k + j) weight f0) (nth c (nth j win []) f0))) (nth c bias f0) (seq 0 k)).

Lemma conv_cell_win rows t c : Forall (fun r => length r = ch) rows -> t < length rows -> k - 1 <= t -> c < ch ->
  conv_cell expf (concat rows) weight bias ch k t c = conv_win (take k (drop (t - (k - 1)) rows)) c.
Proof.
  intros Hrows Ht Hk Hc. unfold conv_cell, conv_win. f_equal.
  assert (forall js acc, Forall (fun j => j < k) js ->
    foldl (conv_tap (concat rows) weight ch k t c) acc js =
    foldl (fun acc j => f32_add acc (f32_mul (nth (c * k + j) weight f0) (nth c (nth j (take k (drop (t - (k - 1)) rows)) []) f0))) acc js) as H.
  { induction js as [|j js IH]; intros acc Hjs; [done|]. apply Forall_cons in Hjs as [Hj Hjs]. cbn [foldl]. rewrite <- IH by done. f_equal.
    unfold conv_tap. destruct (Nat.leb_spec (k - 1 - j) t); [|lia]. do 2 f_equal.
    destruct (lookup_lt_is_Some_2 rows (t - (k - 1 - j))) as [r Hr]; [lia|].
    rewrite (concat_row_nth ch rows _ r) by done. f_equal. rewrite nth_lookup, lookup_take_lt, lookup_drop by done.
    replace (t - (k - 1) + j) with (t - (k - 1 - j)) by lia. by rewrite Hr. }
  apply H. apply Forall_forall. intros j Hj%elem_of_seq. lia.
Qed.

(** Whether or not the history is convolved, what is kept is the same. *)
Lemma causal_conv_rows rows hist n from : Forall (fun r => length r = ch) rows -> length rows = hist + n -> k - 1 <= hist ->
  length weight = ch * k -> (length bias = 0 \/ length bias = ch) -> from <= hist ->
  exists out, causal_conv1d_silu expf (concat rows) weight bias (hist + n) ch k from = Some out /\
    drop ((hist - from) * ch) out = concat (map (fun t => map (conv_win (take k (drop (t - (k - 1)) rows))) (seq 0 ch)) (seq hist n)).
Proof.
  intros Hrows Hl Hk Hw Hb Hf. unfold causal_conv1d_silu. rewrite (concat_len ch), Hl, Hw, !Nat.eqb_refl by done. cbn [andb].
  assert ((length bias =? 0) || (length bias =? ch) = true) as -> by lia. rewrite (proj2 (Nat.leb_le _ _)) by lia. cbn [negb].
  eexists. split; [done|]. replace (hist + n - from) with (hist - from + n) by lia. rewrite seq_app, map_app, concat_app.
  rewrite drop_app_length'.
  - f_equal. replace (from + (hist - from)) with hist by lia. apply map_ext_in. intros t Ht%in_seq. apply map_ext_in. intros c Hc%in_seq.
    apply conv_cell_win; [done|lia|lia|lia].
  - rewrite (concat_len ch), length_map, length_seq; [done|]. apply Forall_map, Forall_true. intros t. by rewrite length_map, length_seq.
Qed.
End Conv.

(** ** The gated norm over rows *)

Definition norm_row (expf : f32 -> f32) (di ng : nat) (eps : f32) (weight y gate : list f32) : list f32 :=
  default [] (gated_rmsnorm expf y gate weight 1 di ng eps).

Lemma gated_rows expf ys gates weight di ng eps : Forall (fun y => length y = di) ys -> Forall (fun y => length y = di) gates ->
  length gates = length ys -> length weight = di -> ng <> 0 -> di mod ng = 0 ->
  gated_rmsnorm expf (concat ys) (concat gates) weight (length ys) di ng eps =
    Some (concat (zip_with (norm_row expf di ng eps weight) ys gates)) /\
  Forall (fun y => length y = di) (zip_with (norm_row expf di ng eps weight) ys gates).
Proof.
  intros Hy Hg Hl Hw Hng Hmod.
  assert (di = ng * (di / ng)) as Hdi by (pose proof (Nat.div_mod_eq di ng); lia).
  set (group t (ys gates : list f32) grp :=
    let off := t * di + grp * (di / ng) in
    let* yg := range ys off (off + di / ng) in let* gg := range gates off (off + di / ng) in
    let* wg := range weight (grp * (di / ng)) (grp * (di / ng) + di / ng) in Some (norm_group expf (di / ng) eps yg gg wg)).
  assert (forall t ys gates y gt, Forall (fun y => length y = di) ys -> Forall (fun y => length y = di) gates ->
    ys !! t = Some y -> gates !! t = Some gt ->
    mapM (group t (concat ys) (concat gates)) (seq 0 ng) = mapM (group 0 y gt) (seq 0 ng) /\
    exists gs, mapM (group 0 y gt) (seq 0 ng) = Some gs /\ length (concat gs) = di) as Hrow.
  { intros t ys' gates' y gt Hys Hgs Hty Htg.
    assert (length y = di /\ length gt = di) as [Ly Lg] by (rewrite Forall_lookup in Hys, Hgs; split; [by eapply Hys|by eapply Hgs]).
    split.
    - apply mapM_ext_in. intros grp Hgrp%elem_of_seq. unfold group. cbv zeta. cbn [Nat.mul Nat.add].
      rewrite (concat_row_sub di ys' t y), (concat_row_sub di gates' t gt) by (done || nia). done.
    - assert (forall grp, grp < ng -> exists z, group 0 y gt grp = Some z /\ length z = di / ng) as Hz.
      { intros grp Hgrp. unfold group. cbv zeta. cbn [Nat.mul Nat.add]. rewrite !range_some by nia. eexists. split; [done|].
        unfold norm_group, f32_zip. rewrite !length_map, !length_combine, !length_map, !length_combine, !length_take, !length_drop. nia. }
      destruct (mapM_total (group 0 y gt) (seq 0 ng)) as [gs E].
      { intros grp Hgrp%elem_of_seq. destruct (Hz grp) as (z & -> & _); [lia|]. by eexists. }
      exists gs. split; [done|]. rewrite (concat_len (di / ng)), (mapM_len _ _ _ E), length_seq; [lia|].
      apply mapM_Some in E. apply Forall_lookup. intros i z Hi. destruct (Forall2_lookup_r _ _ _ _ _ E Hi) as (j & Hj & Hfj).
      apply lookup_seq in Hj as [-> Hj]. destruct (Hz i Hj) as (z' & E' & Hl'). cbn in Hfj. congruence. }
  assert (forall ys gates, Forall (fun y => length y = di) ys -> Forall (fun y => length y = di) gates -> length gates = length ys ->
    gated_rmsnorm expf (concat ys) (concat gates) weight (length ys) di ng eps =
    (let* rows := mapM (fun t => let* gs := mapM (group t (concat ys) (concat gates)) (seq 0 ng) in Some (concat gs)) (seq 0 (length ys)) in
     Some (concat rows))) as Hunf.
  { intros ys' gates' H1 H2 H3. unfold gated_rmsnorm. rewrite !(concat_len di), H3, Hw, !Nat.eqb_refl by done.
    destruct (Nat.eqb_spec ng 0); [done|]. by rewrite Hmod. }
  assert (forall y gt, length y = di -> length gt = di -> exists gs, mapM (group 0 y gt) (seq 0 ng) = Some gs /\
    norm_row expf di ng eps weight y gt = concat gs /\ length (concat gs) = di) as Hone.
  { intros y gt Ly Lg. destruct (Hrow 0 [y] [gt] y gt) as (E1 & gs & E2 & Hlg); [by constructor|by constructor|done|done|].
    exists gs. split_and!; [done| |done]. unfold norm_row. pose proof (Hunf [y] [gt] ltac:(by constructor) ltac:(by constructor) eq_refl) as Hu.
    cbn [length] in Hu. change (seq 0 1) with [0] in Hu. rewrite mapM_cons_eq in Hu. cbn [concat] in Hu, E1. rewrite !app_nil_r in Hu, E1.
    rewrite Hu, E2. cbn. by rewrite app_nil_r. }
  rewrite Hunf by done.
  assert (mapM (fun t => let* gs := mapM (group t (concat ys) (concat gates)) (seq 0 ng) in Some (concat gs)) (seq 0 (length ys)) =
    Some (zip_with (norm_row expf di ng eps weight) ys gates)) as ->.
  { apply mapM_Some, Forall2_same_length_lookup_2; [rewrite length_seq, length_zip_with; lia|].
    intros i t z Hi Hz. apply lookup_seq in Hi as [-> Hi]. rewrite lookup_zip_with in Hz.
    destruct (ys !! i) as [y|] eqn:Ey; [|done]. destruct (gates !! i) as [gt|] eqn:Eg; [|done]. cbn in Hz. injection Hz as <-.
    destruct (Hrow i ys gates y gt Hy Hg Ey Eg) as (E1 & _). cbn [Nat.add].
    rewrite Forall_lookup in Hy, Hg. destruct (Hone y gt (Hy i y Ey) (Hg i gt Eg)) as (gs & E2 & -> & _). by rewrite E1, E2. }
  split; [done|]. apply Forall_lookup. intros i z Hz. rewrite lookup_zip_with in Hz.
  destruct (ys !! i) as [y|] eqn:Ey; [|done]. destruct (gates !! i) as [gt|] eqn:Eg; [|done]. cbn in Hz. injection Hz as <-.
  rewrite Forall_lookup in Hy, Hg. destruct (Hone y gt (Hy i y Ey) (Hg i gt Eg)) as (gs & _ & -> & H). done.
Qed.

(** ** The mixer, token by token *)

Section Mixer.
Context (expf ln_1p : f32 -> f32) (cfg : Config) (l : Layer) (d hpg : nat).

Abbreviation dm := (dims_of cfg).
Abbreviation nh := (md_n_heads (dims_of cfg)).
Abbreviation di := (Z.to_nat (mamba_inter cfg)).
Abbreviation gn := (md_n_groups (dims_of cfg) * md_d_state (dims_of cfg)).
Abbreviation conv_dim := (Z.to_nat (mamba_inter cfg) + 2 * (md_n_groups (dims_of cfg) * md_d_state (dims_of cfg))).
Abbreviation kk := (Z.to_nat (mamba_d_conv cfg)).
Abbreviation n_data := (nh * md_head_dim dm * md_d_state dm).

(** The layer's weights fit the configuration. *)
Record wf_mamba : Prop := {
  wm_in : exists w, l_mamba_in_proj l = Some w /\ wf_qt w d (di + conv_dim + nh);
  wm_out : exists w, l_mamba_out_proj l = Some w /\ wf_qt w di d;
  wm_inner : di = d_inner dm;
  wm_scan : wf_scan dm hpg (l_mamba_a_log l) (l_mamba_d l) (l_mamba_dt_bias l);
  wm_taps : 0 < kk;
  wm_conv : length (l_mamba_conv_w l) = conv_dim * kk /\ (length (l_mamba_conv_b l) = 0 \/ length (l_mamba_conv_b l) = conv_dim);
  wm_norm : length (l_mamba_norm l) = di /\ di mod md_n_groups dm = 0
}.

(** A token's projection: the gate, the convolution's input, the step. *)
Definition projected (x : list f32) : list f32 := match l_mamba_in_proj l with Some w => matvec w x | None => [] end.
Definition tok_gate (x : list f32) : list f32 := take di (projected x).
Definition tok_hbc (x : list f32) : list f32 := take conv_dim (drop di (projected x)).
Definition tok_dt (x : list f32) : list f32 := take nh (drop (di + conv_dim) (projected x)).
Definition conv_out (win : list (list f32)) : list f32 :=
  map (conv_win expf (l_mamba_conv_w l) (l_mamba_conv_b l) kk win) (seq 0 conv_dim).
Definition scan_input (win : list (list f32)) (x : list f32) : list f32 * list f32 * list f32 * list f32 :=
  let r := conv_out win in (take di r, take gn (drop di r), take gn (drop (di + gn) r), tok_dt x).
Definition finish (y x : list f32) : list f32 :=
  match l_mamba_out_proj l with
  | Some w => matvec w (norm_row expf di (md_n_groups dm) (eps cfg) (l_mamba_norm l) y (tok_gate x))
  | None => []
  end.

(** What the layer carries: its last rows and its state. *)
Definition Carried : Type := list (list f32) * list f32.
Definition carried_init : Carried := (replicate kk (replicate conv_dim f0), replicate n_data f0).
Abbreviation scan1 := (scan_row expf ln_1p dm hpg (l_mamba_a_log l) (l_mamba_d l) (l_mamba_dt_bias l)).
Abbreviation scans := (scan_rows expf ln_1p dm hpg (l_mamba_a_log l) (l_mamba_d l) (l_mamba_dt_bias l)).

Definition mamba_step (st : Carried) (x : list f32) : Carried * list f32 :=
  let win := drop 1 st.1 ++ [tok_hbc x] in
  let '(data, y) := scan1 st.2 (scan_input win x) in
  ((win, data), finish y x).
Fixpoint mamba_run (st : Carried) (xs : list (list f32)) : Carried * list (list f32) :=
  match xs with
  | [] => (st, [])
  | x :: xs => let '(st, o) := mamba_step st x in let '(st, os) := mamba_run st xs in (st, o :: os)
  end.

(** The rows the convolution sees, and the inputs of the scan. *)
Definition aug (win : list (list f32)) (xs : list (list f32)) : list (list f32) := drop 1 win ++ map tok_hbc xs.
Definition inputs (win : list (list f32)) (xs : list (list f32)) :=
  imap (fun j x => scan_input (take kk (drop j (aug win xs))) x) xs.

Lemma mamba_run_eq xs : 0 < kk -> forall win data, length win = kk ->
  mamba_run (win, data) xs =
  ((if xs is [] then win else take kk (drop (length xs - 1) (aug win xs)), (scans data (inputs win xs)).1),
   zip_with finish (scans data (inputs win xs)).2 xs).
Proof.
  intros Hk. induction xs as [|x xs IH]; intros win data Hw; [done|]. cbn [mamba_run]. unfold mamba_step. cbn [fst snd].
  set (win1 := drop 1 win ++ [tok_hbc x]).
  assert (length win1 = kk) as Hw1 by (unfold win1; rewrite length_app, length_drop; simpl; lia).
  assert (aug win (x :: xs) = win1 ++ map tok_hbc xs) as Ha by (unfold aug, win1; cbn; by rewrite <- app_assoc).
  assert (aug win1 xs = drop 1 (aug win (x :: xs))) as Ha1.
  { rewrite Ha. unfold aug. by rewrite drop_app_le by lia. }
  assert (inputs win (x :: xs) = scan_input win1 x :: inputs win1 xs) as Hin.
  { unfold inputs. rewrite imap_cons. f_equal.
    - f_equal. change (drop 0 ?k) with k. rewrite Ha. by apply take_app_length'.
    - apply imap_ext. intros j y _. unfold compose. rewrite Ha1, drop_drop. done. }
  rewrite Hin. cbn [scan_rows]. destruct (scan1 data (scan_input win1 x)) as [data1 y].
  rewrite (IH win1 data1 Hw1). destruct (scans data1 (inputs win1 xs)) as [data2 ys]. cbn [fst snd zip_with]. do 2 f_equal.
  destruct xs as [|x' xs].
  - cbn [length map] in *. rewrite Ha, app_nil_r. change (drop (1 - 1) ?k) with k. symmetry. apply take_ge. by rewrite Hw1.
  - rewrite Ha1, drop_drop. f_equal. f_equal. cbn. lia.
Qed.

Lemma mamba_run_app xs ys : forall st,
  mamba_run st (xs ++ ys) = let '(st1, o1) := mamba_run st xs in let '(st2, o2) := mamba_run st1 ys in (st2, o1 ++ o2).
Proof.
  induction xs as [|x xs IH]; intros st; cbn [mamba_run app]; [by destruct (mamba_run st ys)|].
  destruct (mamba_step st x) as [st1 o]. rewrite IH. destruct (mamba_run st1 xs) as [st2 os]. by destruct (mamba_run st2 ys).
Qed.

(** The cache carries the layer's state. *)
Definition carries (layer : nat) (kv : KvCache) (st : Carried) : Prop :=
  kc_mamba_conv kv !! layer = Some (concat st.1) /\ length st.1 = kk /\ Forall (fun r => length r = conv_dim) st.1 /\
  (exists s, kc_mamba_ssm kv !! layer = Some s /\ ss_data s = st.2) /\ length st.2 = n_data.

(** Only one layer's recurrent state differs, in the same shape. *)
Definition mamba_at (layer : nat) (kv kv' : KvCache) : Prop :=
  exists cs s data, kv' = set_mamba kv (<[layer := cs]> (kc_mamba_conv kv))
      (<[layer := {| ss_data := data; ss_n_heads := ss_n_heads s; ss_head_dim := ss_head_dim s; ss_d_state := ss_d_state s |}]> (kc_mamba_ssm kv))
      (kc_mamba_d_conv kv) (kc_mamba_conv_dim kv) /\
    kc_mamba_ssm kv !! layer = Some s /\ length data = length (ss_data s) /\
    (exists cs0, kc_mamba_conv kv !! layer = Some cs0 /\ length cs = length cs0).

Lemma projected_length x : wf_mamba -> length (projected x) = di + conv_dim + nh.
Proof. intros W. unfold projected. destruct (wm_in W) as (w & -> & Hw). by apply (matvec_length w d). Qed.

Lemma tok_lengths x : wf_mamba -> length (tok_gate x) = di /\ length (tok_hbc x) = conv_dim /\ length (tok_dt x) = nh.
Proof.
  intros W. pose proof (projected_length x W) as H. unfold tok_gate, tok_hbc, tok_dt. rewrite !length_take, !length_drop, H. lia.
Qed.

Lemma input_wf win x : wf_mamba -> wf_row dm (scan_input win x).
Proof.
  intros W. unfold scan_input, wf_row. destruct (tok_lengths x W) as (_ & _ & Hdt). pose proof (wm_inner W) as Hin.
  assert (length (conv_out win) = conv_dim) as Hc by (unfold conv_out; by rewrite length_map, length_seq).
  rewrite !length_take, !length_drop, Hc. split_and!; [lia|lia|lia|done].
Qed.

Lemma aug_rows win xs : wf_mamba -> length win = kk -> Forall (fun r => length r = conv_dim) win ->
  Forall (fun r => length r = conv_dim) (aug win xs) /\ length (aug win xs) = kk - 1 + length xs.
Proof.
  intros W Hl Hw. unfold aug. split.
  - apply Forall_app. split; [by apply Forall_drop|]. apply Forall_map, Forall_true. intros x. by apply tok_lengths.
  - rewrite length_app, length_drop, length_map. lia.
Qed.

(** The convolved rows, and the scan's inputs as columns. *)
Definition convs (win : list (list f32)) (xs : list (list f32)) : list (list f32) :=
  map (fun j => conv_out (take kk (drop j (aug win xs)))) (seq 0 (length xs)).

Lemma inputs_column (f : list f32 -> list f32) (h : list f32 * list f32 * list f32 * list f32 -> list f32) win xs :
  (forall w x, h (scan_input w x) = f (conv_out w)) -> map h (inputs win xs) = map f (convs win xs).
Proof.
  intros Hf. unfold inputs, convs. apply list_eq. intros i. change (map ?g ?k) with (g <$> k). rewrite !list_lookup_fmap, list_lookup_imap.
  destruct (xs !! i) as [x|] eqn:Hx.
  - rewrite lookup_seq_lt by (by eapply lookup_lt_Some). cbn. by rewrite Hf.
  - apply lookup_ge_None_1 in Hx. by rewrite lookup_seq_ge by lia.
Qed.

Lemma inputs_dt win xs : map row_dt (inputs win xs) = map tok_dt xs.
Proof.
  unfold inputs. apply list_eq. intros i. change (map ?g ?k) with (g <$> k). rewrite !list_lookup_fmap, list_lookup_imap. by destruct (xs !! i).
Qed.

Lemma convolve skip win xs : wf_mamba -> length win = kk -> Forall (fun r => length r = conv_dim) win ->
  let from := if skip : bool then kk - 1 else 0 in
  exists out, causal_conv1d_silu expf (concat (aug win xs)) (l_mamba_conv_w l) (l_mamba_conv_b l) (kk - 1 + length xs) conv_dim kk from = Some out /\
    drop ((kk - 1 - from) * conv_dim) out = concat (convs win xs).
Proof.
  intros W Hl Hw from. destruct (aug_rows win xs W Hl Hw) as [Ha Hal]. destruct (wm_conv W) as [Hcw Hcb].
  destruct (causal_conv_rows expf (l_mamba_conv_w l) (l_mamba_conv_b l) conv_dim kk (aug win xs) (kk - 1) (length xs) from) as (out & E & Hd);
    [done|done|lia|done|done|unfold from; destruct skip; lia|].
  exists out. split; [done|]. rewrite Hd. f_equal. unfold convs, conv_out. 
  replace (seq (kk - 1) (length xs)) with (map (Nat.add (kk - 1)) (seq 0 (length xs))) by (change (map ?f ?k) with (f <$> k); rewrite fmap_add_seq; f_equal; lia).
  rewrite map_map. apply map_ext. intros j.
  by replace (kk - 1 + j - (kk - 1)) with j by lia.
Qed.

Lemma mamba2_mixer_spec skip layer kv st xs : wf_mamba -> carries layer kv st -> Forall (fun x => length x = d) xs -> xs <> [] ->
  exists kv', mamba2_mixer expf ln_1p skip cfg l kv layer (concat xs) (length xs) (length xs * d) =
      Some (kv', concat (mamba_run st xs).2) /\
    carries layer kv' (mamba_run st xs).1 /\ mamba_at layer kv kv' /\
    length (mamba_run st xs).2 = length xs /\ Forall (fun o => length o = d) (mamba_run st xs).2.
Proof.
  intros W (Hconv & Hwl & Hwf & (s0 & Hssm & Hsd) & Hdl) Hxs Hne. destruct st as [win data]. cbn [fst snd] in *.
  pose proof (wm_taps W) as Hk. destruct (wm_in W) as (wi & Ein & Wi). destruct (wm_out W) as (wo & Eout & Wo).
  assert (0 < length xs) as Hs by (destruct xs; simpl; [done|lia]).
  unfold mamba2_mixer. rewrite Ein, Eout. rewrite (matmul_qt_wf wi d) by done. cbv beta iota zeta.
  assert (forall x, length (matvec wi x) = di + conv_dim + nh) as Hproj by (intros x; by apply (matvec_length wi d)).
  rewrite each_row_id by (apply Forall_map, Forall_true || rewrite length_map; done). cbv beta iota.
  rewrite !(mapM_slice (matvec wi) (di + conv_dim + nh)) by (done || lia). cbv beta iota.
  assert (forall x, matvec wi x = projected x) as Hpx by (intros x; unfold projected; by rewrite Ein).
  replace (di + conv_dim - di) with conv_dim by lia. replace (di + conv_dim + nh - (di + conv_dim)) with nh by lia.
  assert (map (fun x => take conv_dim (drop di (matvec wi x))) xs = map tok_hbc xs) as -> by (apply map_ext; intros x; by rewrite Hpx).
  assert (map (fun x => take nh (drop (di + conv_dim) (matvec wi x))) xs = map tok_dt xs) as -> by (apply map_ext; intros x; by rewrite Hpx).
  assert (map (fun x => take (di - 0) (drop 0 (matvec wi x))) xs = map tok_gate xs) as -> by (apply map_ext; intros x; by rewrite Hpx, Nat.sub_0_r).
  destruct (Nat.eqb_spec kk 0) as [|_]; [lia|]. destruct (Nat.eqb_spec (length xs) 0) as [|_]; [lia|]. cbn [orb]. rewrite Hconv.

  destruct (aug_rows win xs W Hwl Hwf) as [Hal Hall].
  pose proof (row_run conv_dim (concat win) (drop 1 win) 1) as Hold. rewrite length_drop, (concat_len conv_dim), Hwl in Hold by done.
  replace (1 + (kk - 1)) with kk in Hold by lia. rewrite Nat.mul_1_l in Hold. rewrite Hold; clear Hold; [|nia|].
  2: { intros i r Hi. rewrite lookup_drop in Hi. by apply concat_row. }
  cbv beta iota. rewrite <- concat_app. change (drop 1 win ++ map tok_hbc xs) with (aug win xs).
  destruct (convolve skip win xs W Hwl Hwf) as (out & -> & Hcout). cbv zeta in Hcout. cbv beta iota. rewrite Hcout. clear Hcout.
  replace (kk - 1 + length xs - kk) with (length xs - 1) by lia.
  pose proof (row_run conv_dim (concat (aug win xs)) (drop (length xs - 1) (aug win xs)) (length xs - 1)) as Hwin.
  rewrite length_drop, (concat_len conv_dim), Hall in Hwin by done.
  replace (length xs - 1 + (kk - 1 + length xs - (length xs - 1))) with (kk - 1 + length xs) in Hwin by lia.
  rewrite Hwin; clear Hwin; [|nia|]. 2: { intros i r Hi. rewrite lookup_drop in Hi. by apply concat_row. }
  set (win' := drop (length xs - 1) (aug win xs)).
  assert (length win' = kk /\ Forall (fun r => length r = conv_dim) win') as [Hwl' Hwf'] by (unfold win'; rewrite length_drop; split; [lia|by apply Forall_drop]).
  cbv beta iota. unfold copy_from_slice. rewrite !(concat_len conv_dim), Hwl, Hwl', Nat.eqb_refl by done. cbv beta iota zeta.
  assert (Forall (fun r => length r = conv_dim) (convs win xs)) as Hcv.
  { apply Forall_map, Forall_true. intros j. unfold conv_out. by rewrite length_map, length_seq. }
  rewrite each_row_id by (done || unfold convs; by rewrite length_map, length_seq). cbv beta iota.
  assert (forall a b, a <= b <= conv_dim -> mapM (fun r => range r a b) (convs win xs) = Some (map (fun r => take (b - a) (drop a r)) (convs win xs))) as Hsl.
  { intros a b Hab. rewrite <- (map_id (convs win xs)) at 1. apply mapM_Some. change (map ?g ?k) with (g <$> k).
    apply Forall2_fmap_l, Forall2_fmap_r, Forall_Forall2_diag. eapply Forall_impl; [exact Hcv|]. intros r Hr. apply range_some. rewrite Hr. unfold id. lia. }
  rewrite !Hsl by lia. cbv beta iota. clear Hsl. cbn [kc_mamba_ssm set_mamba kc_mamba_conv kc_mamba_d_conv kc_mamba_conv_dim]. rewrite Hssm.
  replace (di + gn - di) with gn by lia. replace (conv_dim - (di + gn)) with gn by lia.
  rewrite <- (inputs_column (fun r => take (di - 0) (drop 0 r)) row_h) by (intros w x; by rewrite Nat.sub_0_r).
  rewrite <- (inputs_column (fun r => take gn (drop di r)) row_b) by done.
  rewrite <- (inputs_column (fun r => take gn (drop (di + gn) r)) row_c) by done. rewrite <- inputs_dt with (win := win).
  set (rs := inputs win xs). assert (Forall (wf_row dm) rs) as Hrs.
  { apply Forall_forall. intros r Hr. apply elem_of_lookup_imap in Hr as (i & x & -> & _). by apply input_wf. }
  assert (length rs = length xs) as Hrl by (unfold rs, inputs; by rewrite length_imap).
  assert (forall (f : list f32 * list f32 * list f32 * list f32 -> list f32) w, (forall r, wf_row dm r -> length (f r) = w) ->
    length (concat (map f rs)) = length xs * w) as Hcol.
  { intros f w Hf. rewrite (concat_len w), length_map, Hrl; [done|]. apply Forall_map. eapply Forall_impl; [exact Hrs|]. exact Hf. }
  pose proof (wm_scan W) as Ws. destruct (ws_groups _ _ _ _ _ Ws) as (Hg & Hhpg & Hnh). unfold selective_scan. rewrite Hg. cbv beta iota.
  rewrite (Hcol row_h (d_inner dm)), (Hcol row_b gn), (Hcol row_c gn), (Hcol row_dt nh) by (intros [[[? ?] ?] ?] (? & ? & ? & ?); done).
  rewrite Hsd, Hdl. rewrite !Nat.mul_assoc, !Nat.eqb_refl. cbn [andb negb].
  rewrite (scan_tokens_spec expf ln_1p dm hpg _ _ _ rs Ws Hrs) by (done || lia). change (drop 0 rs) with rs.
  pose proof (mamba_run_eq xs Hk win data Hwl) as Hrun. fold rs in Hrun. rewrite Hrun. cbn [fst snd].
  destruct (scan_rows_length expf ln_1p dm hpg _ _ _ rs Ws Hrs data Hdl) as (Ld & Ly & Lys). rewrite Hrl in Ly.
  destruct (wm_norm W) as [Hnl Hnm].
  destruct (gated_rows expf (scans data rs).2 (map tok_gate xs) (l_mamba_norm l) di (md_n_groups dm) (eps cfg)) as [En Hnf].
  { by rewrite (wm_inner W). }
  { apply Forall_map, Forall_true. intros x. by apply tok_lengths. }
  { by rewrite length_map. }
  { done. }
  { unfold heads_per_group in Hg. by destruct (Nat.eqb_spec (md_n_groups dm) 0). }
  { done. }
  rewrite Ly in En. cbv beta iota. rewrite En. cbv beta iota.
  pose proof (matmul_qt_wf wo di d _ Wo Hnf) as Hm. rewrite length_zip_with, Ly, length_map, Nat.min_id in Hm. rewrite Hm. cbv beta iota.
  assert (map (matvec wo) (zip_with (norm_row expf di (md_n_groups dm) (eps cfg) (l_mamba_norm l)) (scans data rs).2 (map tok_gate xs)) =
          zip_with finish (scans data rs).2 xs) as ->.
  { apply list_eq. intros i. change (map ?f (zip_with ?h ?a ?b)) with (f <$> zip_with h a b). change (map tok_gate xs) with (tok_gate <$> xs).
    rewrite list_lookup_fmap, !lookup_zip_with, list_lookup_fmap. destruct ((scans data rs).2 !! i); [|done]. cbn.
    destruct (xs !! i); [|done]. cbn. unfold finish. by rewrite Eout. }
  eexists. split; [done|].
  assert (take kk win' = win') as Htk by (apply take_ge; lia).
  assert ((if xs is [] then win else take kk (drop (length xs - 1) (aug win xs))) = win') as -> by (destruct xs; [done|exact Htk]).
  split_and!.
  - split_and!; cbn.
    + apply list_lookup_insert_eq. by eapply lookup_lt_Some.
    + done.
    + done.
    + eexists. split; [apply list_lookup_insert_eq; by eapply lookup_lt_Some|done].
    + done.
  - eexists _, s0, _. split; [done|]. split; [done|]. split; [by rewrite Ld, Hsd, Hdl|]. eexists. split; [exact Hconv|].
    by rewrite !(concat_len conv_dim), Hwl, Hwl' by done.
  - rewrite length_zip_with. lia.
  - apply Forall_lookup. intros i o Ho. apply lookup_zip_with_Some in Ho as (y & x & -> & _). unfold finish. rewrite Eout. by apply (matvec_length wo di).
Qed.
End Mixer.

(** ** Blocks in sequence *)

Lemma mamba_at_trans layer kv1 kv2 kv3 : mamba_at layer kv1 kv2 -> mamba_at layer kv2 kv3 -> mamba_at layer kv1 kv3.
Proof.
  intros (cs & s & dt & -> & Hs & Hl & (cs0 & Hc & Hcl)) (cs' & s' & dt' & -> & Hs' & Hl' & (cs0' & Hc' & Hcl')). cbn in *.
  rewrite list_lookup_insert_eq in Hs' by (by eapply lookup_lt_Some). injection Hs' as <-.
  rewrite list_lookup_insert_eq in Hc' by (by eapply lookup_lt_Some). injection Hc' as <-. cbn in *.
  exists cs', s, dt'. rewrite !list_insert_insert_eq. split; [done|]. split; [done|]. split; [congruence|]. exists cs0. split; [done|congruence].
Qed.

(** The state it carries determines the cache. *)
Lemma mamba_at_eq cfg layer kv kv1 kv2 st : mamba_at layer kv kv1 -> mamba_at layer kv kv2 ->
  carries cfg layer kv1 st -> carries cfg layer kv2 st -> kv1 = kv2.
Proof.
  intros (cs & s & dt & -> & Hs & _ & (cs0 & Hc & _)) (cs' & s' & dt' & -> & Hs' & _) (C1 & _ & _ & (t1 & S1 & D1) & _) (C2 & _ & _ & (t2 & S2 & D2) & _).
  cbn in *. rewrite Hs in Hs'. injection Hs' as <-. pose proof (lookup_lt_Some _ _ _ Hs) as Ls. pose proof (lookup_lt_Some _ _ _ Hc) as Lc.
  rewrite list_lookup_insert_eq in C1, C2 by done. rewrite list_lookup_insert_eq in S1, S2 by done. injection S1 as <-. injection S2 as <-. cbn in *. congruence.
Qed.

(** C15: a prompt in chunks.  The mixer on two blocks, one after the other, gives
    the rows it gives on the two as one block and leaves the same cache, and
    this whether or not the history is convolved again. *)
Theorem mixer_in_chunks expf ln_1p skip1 skip2 skip12 cfg l d hpg layer kv st xs ys :
  wf_mamba cfg l d hpg -> carries cfg layer kv st -> xs <> [] -> ys <> [] ->
  Forall (fun x => length x = d) xs -> Forall (fun x => length x = d) ys ->
  let mixer skip kv b := mamba2_mixer expf ln_1p skip cfg l kv layer (concat b) (length b) (length b * d) in
  exists kv1 o1 kv2 o2, mixer skip1 kv xs = Some (kv1, o1) /\ mixer skip2 kv1 ys = Some (kv2, o2) /\
    mixer skip12 kv (xs ++ ys) = Some (kv2, o1 ++ o2).
Proof.
  intros W Hc Hnx Hny Hx Hy mixer. unfold mixer.
  destruct (mamba2_mixer_spec expf ln_1p cfg l d hpg skip1 layer kv st xs W Hc Hx Hnx) as (kv1 & E1 & C1 & A1 & _).
  destruct (mamba2_mixer_spec expf ln_1p cfg l d hpg skip2 layer kv1 _ ys W C1 Hy Hny) as (kv2 & E2 & C2 & A2 & _).
  destruct (mamba2_mixer_spec expf ln_1p cfg l d hpg skip12 layer kv st (xs ++ ys) W Hc) as (kv3 & E3 & C3 & A3 & _).
  { by apply Forall_app. }
  { by destruct xs. }
  exists kv1, (concat (mamba_run expf ln_1p cfg l hpg st xs).2), kv2, (concat (mamba_run expf ln_1p cfg l hpg (mamba_run expf ln_1p cfg l hpg st xs).1 ys).2).
  split_and!; [done|done|]. rewrite E3. rewrite mamba_run_app in C3 |- *.
  destruct (mamba_run expf ln_1p cfg l hpg st xs) as [st1 o1]. cbn [fst snd] in *. destruct (mamba_run expf ln_1p cfg l hpg st1 ys) as [st2 o2]. cbn [fst snd] in *.
  rewrite concat_app. do 2 f_equal. eapply (mamba_at_eq cfg layer kv); [exact A3|exact (mamba_at_trans _ _ _ _ A1 A2)|exact C3|exact C2].
Qed.

(** The scalars of a sequence are those of its tokens.  What the device scan
    of a prompt is handed is, token by token, what its decode step is handed. *)
Theorem seq_scalars_are_step_scalars expf ln_1p dm a_log dt_bias dts :
  Forall (fun r => length r = md_n_heads dm) dts -> md_n_heads dm <= length a_log -> md_n_heads dm <= length dt_bias ->
  exists steps, mapM (fun dt => step_head_scalars expf ln_1p dm dt a_log dt_bias) dts = Some steps /\
    seq_head_scalars expf ln_1p dm (concat dts) a_log dt_bias (length dts) =
    Some (concat (map fst steps), concat (map snd steps)).
Proof.
  intros Hd Ha Hb. set (nh := md_n_heads dm) in *.
  set (cell (dt : list f32) h := let dth := step_size expf ln_1p dm (nth h dt f0) (nth h dt_bias f0) in (dth, decay expf dth (nth h a_log f0))).
  exists (map (fun dt => (map fst (map (cell dt) (seq 0 nh)), map snd (map (cell dt) (seq 0 nh)))) dts). split.
  - change (map ?f dts) with (f <$> dts). apply mapM_Some, Forall2_fmap_r, Forall_Forall2_diag. eapply Forall_impl; [exact Hd|].
    intros dt Hl. cbv beta in Hl. unfold compose, step_head_scalars. fold nh. destruct (Nat.ltb_spec (length dt) nh), (Nat.ltb_spec (length a_log) nh), (Nat.ltb_spec (length dt_bias) nh); try lia.
    cbn [orb]. cbv beta zeta. rewrite !map_map. do 2 f_equal. unfold cell. cbn [fst snd].
    apply list_eq. intros i. rewrite list_lookup_imap. change (map ?f ?k) with (f <$> k). rewrite !list_lookup_fmap.
    destruct (decide (i < nh)); [by rewrite lookup_seq_lt by done|by rewrite lookup_seq_ge by lia].
  - unfold seq_head_scalars. fold nh. rewrite (concat_len nh) by done.
    destruct (Nat.ltb_spec (length dts * nh) (length dts * nh)), (Nat.ltb_spec (length a_log) nh), (Nat.ltb_spec (length dt_bias) nh); try lia. cbn [orb]. cbv zeta.
    assert (map (fun t => map (fun h => let dth := step_size expf ln_1p dm (nth (t * nh + h) (concat dts) f0) (nth h dt_bias f0) in
        (dth, expf (f32_mul dth (nth h (map (fun v => SFopp (expf v)) (take nh a_log)) f0)))) (seq 0 nh)) (seq 0 (length dts)) =
      map (fun dt => map (cell dt) (seq 0 nh)) dts) as Hcells; [|cbv zeta in Hcells; rewrite Hcells].
    { apply list_eq. intros t. change (map ?f (seq 0 (length dts))) with (f <$> seq 0 (length dts)). change (map ?f dts) with (f <$> dts).
      rewrite !list_lookup_fmap. destruct (dts !! t) as [dt|] eqn:Ht; [|by rewrite lookup_seq_ge by (by apply lookup_ge_None_1)].
      rewrite lookup_seq_lt by (by eapply lookup_lt_Some). cbn [fmap option_fmap option_map]. change (0 + t) with t. f_equal. apply map_ext_in. intros h Hh%in_seq. unfold cell.
      rewrite (concat_row_nth nh dts t dt h) by (done || lia). cbv zeta. f_equal. unfold decay. do 2 f_equal.
      rewrite !nth_lookup. change (map ?f ?k) with (f <$> k). rewrite list_lookup_fmap, lookup_take_lt by lia.
      by destruct (lookup_lt_is_Some_2 a_log h ltac:(lia)) as [v ->]. }
    rewrite !concat_map, !map_map. done.
Qed.

(** ** Witnesses *)

(** One head, one state, a convolution of two taps. *)
Definition column_qt (v : list Z) : QTensor :=
  {| fmt_code := 0; qt_qf := map f32_of_Z v; qt_q8 := []; qt_q4 := []; qt_s := []; qt_bs := []; qt_g := f0;
     qt_o := Z.of_nat (length v); qt_i := 1; gpu_eligible := false |}.
Definition small_config : Config := ({|
  Config.hidden := 1; Config.n_layers := 1; Config.n_heads := 0; Config.n_experts := 0; Config.topk := 0;
  Config.moe_inter := 0; Config.dense_inter := 0; Config.first_dense := 0; Config.q_lora := 0; Config.o_lora := 0;
  Config.o_groups := 0; Config.kv_lora := 0; Config.qk_nope := 0; Config.qk_rope := 0; Config.qk_head := 0;
  Config.v_head := 0; Config.n_shared := 0; Config.vocab := 0; Config.max_ctx := 0; Config.n_group := 0;
  Config.topk_group := 0; Config.norm_topk := false; Config.stop_ids := []; Config.index_topk := 0;
  Config.index_nh := 0; Config.index_hd := 0; Config.index_block_size := 0; Config.index_topk_blocks := 0;
  Config.index_local_blocks := 0; Config.idx_type := []; Config.eps := f32_one; Config.theta := f0;
  Config.attn_scale := f0; Config.routed_scale := f0; Config.arch := NemotronH; Config.n_kv_heads := 0;
  Config.shared_inter := 0; Config.qk_norm := false; Config.gemma_norm := false; Config.swiglu_oai := false;
  Config.swiglu_alpha := f0; Config.swiglu_limit := f0; Config.compress_ratios := []; Config.compress_theta := f0;
  Config.n_hash_layers := 0; Config.dspark_block := 0; Config.dspark_noise_id := 0; Config.markov_rank := 0;
  Config.dspark_targets := []; Config.hc_mult := 0; Config.hc_sinkhorn_iters := 0; Config.hc_eps := f0;
  Config.window := 0; Config.sigmoid_route := false; Config.router_score := Softmax; Config.swa_window := 0;
  Config.layer_swa := []; Config.nope_on_global := false; Config.layer_kind := [Mamba];
  Config.mtp_layer_kind := []; Config.mamba_d_state := 1; Config.mamba_d_conv := 2; Config.mamba_n_heads := 1;
  Config.mamba_head_dim := 1; Config.mamba_n_groups := 1; Config.mamba_inter := 1; Config.mamba_chunk := 0;
  Config.moe_latent := 0; Config.relu2 := false; Config.mamba_dt_min := f0; Config.kda_n_heads := 0;
  Config.kda_head_dim := 0; Config.situ := false; Config.situ_beta := f0; Config.situ_linear_beta := f0;
  Config.mla_nope := false; Config.kda_d_conv := 0; Config.attn_res_block_size := 0
|})%Z.
Definition small_layer : Layer := {|
  l_in_ln := []; l_post_ln := []; l_q_a := empty_qt; l_q_b := empty_qt; l_kv_a := empty_qt; l_kv_b := empty_qt;
  l_o := empty_qt; l_q_a_ln := []; l_kv_a_ln := []; l_o_a := None; l_o_b := None; l_o_a_groups := [];
  l_attn_sink := []; l_idx_wq_b := None; l_idx_wproj := None; l_idx_comp_wkv := None; l_idx_comp_wgate := None;
  l_idx_comp_ape := []; l_idx_comp_norm := []; l_comp_ratio := 0%Z; l_comp_wkv := None; l_comp_wgate := None;
  l_comp_ape := []; l_comp_norm := []; l_tid2eid := []; l_hc_attn_fn := []; l_hc_attn_base := [];
  l_hc_attn_scale := []; l_hc_ffn_fn := []; l_hc_ffn_base := []; l_hc_ffn_scale := []; l_q_proj := None;
  l_k_proj := None; l_v_proj := None; l_qkv_proj := None; l_q_norm := []; l_k_norm := []; l_idx_q_proj := None;
  l_idx_k_proj := None; l_idx_q_norm := []; l_idx_k_norm := []; l_sparse := false; l_gate_proj := empty_qt;
  l_up_proj := empty_qt; l_down_proj := empty_qt; l_router := []; l_router_bias := []; l_sh_gate := empty_qt;
  l_sh_up := empty_qt; l_sh_down := empty_qt; l_ix_wk := None; l_ix_wq := None; l_ix_wp := None;
  l_ix_knorm_w := []; l_ix_knorm_b := []; l_mamba_in_proj := Some (column_qt [1; 2; -1; 3; 1]%Z); l_mamba_out_proj := Some (column_qt [2]%Z);
  l_mamba_conv_w := map f32_of_Z [1; 2; -1; 1; 3; 1]%Z; l_mamba_conv_b := []; l_mamba_a_log := [f32_one]; l_mamba_d := [f32_one]; l_mamba_dt_bias := [f0];
  l_mamba_norm := [f32_one]; l_fc1_latent := None; l_fc2_latent := None; l_attn_gate := None; l_kda_b_proj := None;
  l_kda_f_a := None; l_kda_f_b := None; l_kda_conv_q := []; l_kda_conv_k := []; l_kda_conv_v := [];
  l_kda_a_log := []; l_kda_dt_bias := []; l_kda_o_norm := []; l_attn_res_norm := []; l_attn_res_proj := [];
  l_mlp_res_norm := []; l_mlp_res_proj := []; l_routed_expert_norm := []
|}.
Definition small_kv : KvCache := enable_mamba2 (kv_new 1 0 0 8) small_config.

Lemma small_wf : wf_mamba small_config small_layer 1 1.
Proof.
  split.
  - exists (column_qt [1; 2; -1; 3; 1]%Z). split; [reflexivity|]. split_and!; [reflexivity|reflexivity|vm_compute; by eexists].
  - exists (column_qt [2]%Z). split; [reflexivity|]. split_and!; [reflexivity|reflexivity|vm_compute; by eexists].
  - reflexivity.
  - split; [split_and!; [reflexivity|lia|reflexivity]|vm_compute; lia..].
  - vm_compute. lia.
  - split; [reflexivity|by left].
  - split; reflexivity.
Defined.

Lemma small_carries : carries small_config 0 small_kv (carried_init small_config).
Proof. split_and!; [reflexivity|reflexivity|repeat constructor|eexists; split; reflexivity|reflexivity]. Defined.

Lemma mixer_in_chunks_witness :
  let mixer skip kv b := mamba2_mixer (fun x => x) (fun x => x) skip small_config small_layer kv 0 (concat b) (length b) (length b * 1) in
  exists kv1 o1 kv2 o2, mixer true small_kv [[f32_of_Z 1]; [f32_of_Z 2]] = Some (kv1, o1) /\ mixer false kv1 [[f32_of_Z 3]] = Some (kv2, o2) /\
    mixer true small_kv ([[f32_of_Z 1]; [f32_of_Z 2]] ++ [[f32_of_Z 3]]) = Some (kv2, o1 ++ o2).
Proof.
  apply (mixer_in_chunks (fun x => x) (fun x => x) true false true small_config small_layer 1 1 0 small_kv (carried_init small_config)
    [[f32_of_Z 1]; [f32_of_Z 2]] [[f32_of_Z 3]]).
  - exact small_wf.
  - exact small_carries.
  - discriminate.
  - discriminate.
  - repeat constructor.
  - repeat constructor.
Defined.

Lemma seq_scalars_are_step_scalars_witness :
  exists steps, mapM (fun dt => step_head_scalars (fun x => x) (fun x => x) (dims_of small_config) dt [f32_one] [f0]) [[f32_one]; [f32_of_Z 30]] = Some steps /\
    seq_head_scalars (fun x => x) (fun x => x) (dims_of small_config) (concat [[f32_one]; [f32_of_Z 30]]) [f32_one] [f0] 2 =
    Some (concat (map fst steps), concat (map snd steps)).
Proof.
  apply (seq_scalars_are_step_scalars (fun x => x) (fun x => x) (dims_of small_config) [f32_one] [f0] [[f32_one]; [f32_of_Z 30]]).
  - repeat constructor.
  - vm_compute. lia.
  - vm_compute. lia.
Defined.
