(* ===== verification/Kda.v ===== *)
(** * Kimi Delta Attention ([crates/colibri-engine/src/kda.rs])

    The linear mixer of Kimi-K3: three short convolutions, the gate, the delta
    rule over a matrix per head, the gated norm and the projections, to the bit.
    A block of tokens is proved to give, row by row and in what it leaves
    behind, what its tokens give one after another. *)

From Stdlib Require Import ZifyBool ZifyNat SpecFloat.
From S2P Require Import Prelude Rows DType Math Linear Config Model KvCache Mamba.
Local Open Scope nat_scope.

Record KdaDims := { kd_h : nat; kd_dk : nat; kd_c : nat; kd_k : nat }.
Definition kda_dims (cfg : Config) : KdaDims :=
  let '(h, dk) := (Z.to_nat (kda_n_heads cfg), Z.to_nat (kda_head_dim cfg)) in
  {| kd_h := h; kd_dk := dk; kd_c := h * dk; kd_k := Z.to_nat (kda_d_conv cfg) |}.

(** [chunks(c)] of a buffer whose every chunk is read in full. *)
Definition row_chunks (c : nat) (x : list f32) : option (list (list f32)) :=
  if (c =? 0) || negb (length x mod c =? 0) then None else each_row c (length x / c) Some x.

Section Kda.
Context (expf : f32 -> f32) (powf : f32 -> f32 -> f32).

(** ** The gate and the norms *)

Definition kda_gate_row (ea dt_bias : list f32) (lower_bound : f32) (d : KdaDims) (row : list f32) : list f32 :=
  map (fun '(a, (r, b)) => f32_mul lower_bound (sigmoid expf (f32_mul a (f32_add r b))))
    (combine (concat (replicate (kd_h d) ea)) (combine row dt_bias)).
Definition kda_gate (g a_log dt_bias : list f32) (lower_bound : f32) (d : KdaDims) : option (list f32) :=
  if negb ((length a_log =? kd_dk d) && (length dt_bias =? kd_c d)) then None
  else
    let ea := map expf a_log in
    let* rows := row_chunks (kd_c d) g in Some (concat (map (kda_gate_row ea dt_bias lower_bound d) rows)).

Definition l2norm_head (eps : f32) (v : list f32) : list f32 :=
  let ss := f32_sum (map (fun a => f32_mul a a) v) in
  let inv := f32_div f32_one (f32_add (f32_sqrt ss) eps) in
  map (fun a => f32_mul a inv) v.
Definition l2norm_row (d : KdaDims) (eps : f32) (row : list f32) : option (list f32) :=
  let* hs := each_row (kd_dk d) (kd_h d) Some row in Some (concat (map (l2norm_head eps) hs)).
Definition l2norm_heads (x : list f32) (d : KdaDims) (eps : f32) : option (list f32) :=
  let* rows := row_chunks (kd_c d) x in
  let* rows := mapM (l2norm_row d eps) rows in Some (concat rows).

Definition gated_head (dk : nat) (eps : f32) (weight y gate : list f32) : list f32 :=
  let ss := f32_sum (map (fun v => f32_mul v v) y) in
  let inv := f32_div f32_one (f32_sqrt (f32_add (f32_div ss (f32_of_nat dk)) eps)) in
  map (fun '(w, (v, g)) => f32_mul (f32_mul (f32_mul v inv) w) (sigmoid expf g)) (combine weight (combine y gate)).
Definition gated_row (d : KdaDims) (eps : f32) (weight y gate : list f32) : option (list f32) :=
  let* ys := each_row (kd_dk d) (kd_h d) Some y in
  let* gs := each_row (kd_dk d) (kd_h d) Some gate in
  Some (concat (zip_with (gated_head (kd_dk d) eps weight) ys gs)).
Definition gated_rmsnorm_sigmoid (y gate weight : list f32) (d : KdaDims) (eps : f32) : option (list f32) :=
  if negb (length weight =? kd_dk d) then None
  else
    let* ys := row_chunks (kd_c d) y in
    let* gs := row_chunks (kd_c d) gate in
    let* rows := mapM (fun '(y, g) => gated_row d eps weight y g) (combine ys gs) in Some (concat rows).

(** ** The delta rule *)

(** [acc += a * row] for every row whose coefficient is not zero. *)
Definition add_rows (dk : nat) (coefs : list f32) (rows : list (list f32)) : list f32 :=
  foldl (fun acc '(a, r) => if SFeqb a f0 then acc else f32_zip (fun x y => f32_add x (f32_mul a y)) acc r)
    (replicate dk f0) (combine coefs rows).
(** One head of one token: the state decays, takes the token in, is read. *)
Definition delta_head (dk : nat) (qh kh vh gh : list f32) (beta : f32) (sh : list (list f32)) : list (list f32) * list f32 :=
  let sh := zip_with (fun g r => let e := expf g in map (fun x => f32_mul x e) r) gh sh in
  let kts := add_rows dk kh sh in
  let b := sigmoid expf beta in
  let u := f32_zip f32_sub vh kts in
  let sh := zip_with (fun kv r => let bk := f32_mul b kv in
                                  if SFeqb bk f0 then r else f32_zip (fun x uv => f32_add x (f32_mul bk uv)) r u) kh sh in
  (sh, add_rows dk qh sh).
Definition delta_token (d : KdaDims) (q k v g beta state : list f32) : option (list f32 * list f32) :=
  let '(h, dk) := (kd_h d, kd_dk d) in
  let* heads := mapM (fun hh =>
    let* sh := range state (hh * dk * dk) ((hh + 1) * dk * dk) in
    let* sh := each_row dk dk Some sh in
    let* qh := range q (hh * dk) (hh * dk + dk) in let* kh := range k (hh * dk) (hh * dk + dk) in
    let* vh := range v (hh * dk) (hh * dk + dk) in let* gh := range g (hh * dk) (hh * dk + dk) in
    let* b := beta !! hh in
    let '(sh, o) := delta_head dk qh kh vh gh b sh in Some (concat sh, o)) (seq 0 h) in
  Some (concat (map fst heads), concat (map snd heads)).
Fixpoint delta_tokens (d : KdaDims) (toks : list (list f32 * list f32 * list f32 * list f32 * list f32)) (state : list f32)
    : option (list f32 * list (list f32)) :=
  match toks with
  | [] => Some (state, [])
  | (q, k, v, g, beta) :: toks =>
      let* (state, o) := delta_token d q k v g beta state in
      let* (state, os) := delta_tokens d toks state in Some (state, o :: os)
  end.
Definition kda_recurrent (q k v g beta : list f32) (d : KdaDims) (state : list f32) : option (list f32 * list f32) :=
  if negb (length state =? kd_h d * kd_dk d * kd_dk d) || (kd_c d =? 0) then None
  else
    let s := length q / kd_c d in
    let* qs := each_row (kd_c d) s Some q in let* ks := each_row (kd_c d) s Some k in
    let* vs := each_row (kd_c d) s Some v in let* gs := each_row (kd_c d) s Some g in
    let* bs := each_row (kd_h d) s Some beta in
    let* (state, os) := delta_tokens d (combine (combine (combine (combine qs ks) vs) gs) bs) state in
    Some (state, concat os).

(** ** The mixer *)

Definition K3_GATE_LOWER_BOUND : f32 := f32_of_Z (-5).
Definition eps_l2 : f32 := f32_from_bits 0x358637BD.

(** One of the three streams: the convolved rows and the next history. *)
Definition kda_conv (hist buf w : list f32) (idx s : nat) (d : KdaDims) : option (list f32 * list f32) :=
  let pad := kd_k d - 1 in
  let* prev := range hist (idx * pad * kd_c d) ((idx + 1) * pad * kd_c d) in
  let full := prev ++ buf in
  let* out := causal_conv1d_silu expf full w [] (pad + s) (kd_c d) (kd_k d) pad in
  let* carry := range full (length full - pad * kd_c d) (length full) in
  Some (out, carry).

(** [kda_mixer]; [out] has length [out_len].  No taps underflow. *)
Definition kda_mixer (cfg : Config) (l : Layer) (kv : KvCache) (layer : nat) (x : list f32) (s out_len : nat)
    : option (KvCache * list f32) :=
  let d := kda_dims cfg in
  let proj (w : option QTensor) (o : nat) := let* w := w in matmul_qt (s * o) x w s in
  let* q := proj (l_q_proj l) (kd_c d) in
  let* k := proj (l_k_proj l) (kd_c d) in
  let* v := proj (l_v_proj l) (kd_c d) in
  if kd_k d =? 0 then None
  else
    let hist := kda_conv_take kv layer (kd_c d) (kd_k d) in
    let* (q, cq) := kda_conv hist q (l_kda_conv_q l) 0 s d in
    let* (k, ck) := kda_conv hist k (l_kda_conv_k l) 1 s d in
    let* (v, cv) := kda_conv hist v (l_kda_conv_v l) 2 s d in
    let kv := kda_conv_store kv layer (cq ++ ck ++ cv) in
    let* q := l2norm_heads q d eps_l2 in
    let* k := l2norm_heads k d eps_l2 in
    let scale := powf (f32_of_nat (kd_dk d)) (f32_from_bits 0xBF000000) in
    let q := map (fun a => f32_mul a scale) q in
    let* f_a := l_kda_f_a l in
    let* low := matmul_qt (s * Linear.rows_of f_a) x f_a s in
    let* f_b := l_kda_f_b l in
    let* g := matmul_qt (s * kd_c d) low f_b s in
    let* g := kda_gate g (l_kda_a_log l) (l_kda_dt_bias l) K3_GATE_LOWER_BOUND d in
    let* beta := proj (l_kda_b_proj l) (kd_h d) in
    let* state := kc_kda_state kv !! layer in
    let* (state, o) := kda_recurrent q k v g beta d state in
    let kv := set_kda kv (kc_kda_conv kv) (<[layer := state]> (kc_kda_state kv)) in
    let* gate := proj (l_attn_gate l) (kd_c d) in
    let* normed := gated_rmsnorm_sigmoid o gate (l_kda_o_norm l) d (eps cfg) in
    let* out := matmul_qt out_len normed (l_o l) s in
    Some (kv, out).
End Kda.

(** ** A sequence, token by token *)

Lemma chunks_concat c (rs : list (list f32)) : 0 < c -> Forall (fun r => length r = c) rs -> row_chunks c (concat rs) = Some rs.
Proof.
  intros Hc Hr. unfold row_chunks. rewrite (concat_len c) by done. rewrite Nat.Div0.mod_mul, Nat.div_mul by lia. cbn [Nat.eqb negb orb].
  destruct (Nat.eqb_spec c 0); [lia|]. cbn [orb]. by apply each_row_id.
Qed.

(** The layer's weights fit the configuration. *)
Record wf_kda (cfg : Config) (l : Layer) (d : nat) : Prop := {
  wk_q : exists w, l_q_proj l = Some w /\ wf_qt w d (kd_c (kda_dims cfg));
  wk_k : exists w, l_k_proj l = Some w /\ wf_qt w d (kd_c (kda_dims cfg));
  wk_v : exists w, l_v_proj l = Some w /\ wf_qt w d (kd_c (kda_dims cfg));
  wk_conv : Forall (fun w => length w = kd_c (kda_dims cfg) * kd_k (kda_dims cfg)) [l_kda_conv_q l; l_kda_conv_k l; l_kda_conv_v l];
  wk_f : exists fa fb, l_kda_f_a l = Some fa /\ l_kda_f_b l = Some fb /\ wf_qt fa d (Linear.rows_of fa) /\
           wf_qt fb (Linear.rows_of fa) (kd_c (kda_dims cfg));
  wk_gate : length (l_kda_a_log l) = kd_dk (kda_dims cfg) /\ length (l_kda_dt_bias l) = kd_c (kda_dims cfg);
  wk_beta : exists w, l_kda_b_proj l = Some w /\ wf_qt w d (kd_h (kda_dims cfg));
  wk_out_gate : exists w, l_attn_gate l = Some w /\ wf_qt w d (kd_c (kda_dims cfg));
  wk_norm : length (l_kda_o_norm l) = kd_dk (kda_dims cfg);
  wk_out : wf_qt (l_o l) (kd_c (kda_dims cfg)) d;
  wk_taps : 1 < kd_k (kda_dims cfg);
  wk_width : 0 < kd_c (kda_dims cfg)
}.

Section Run.
Context (expf : f32 -> f32) (powf : f32 -> f32 -> f32) (cfg : Config) (l : Layer) (d : nat).
Abbreviation dm := (kda_dims cfg).
Abbreviation cw := (kd_c (kda_dims cfg)).
Abbreviation kk := (kd_k (kda_dims cfg)).
Abbreviation nh := (kd_h (kda_dims cfg)).
Abbreviation dk := (kd_dk (kda_dims cfg)).
Abbreviation rows := (list (list f32)).

Definition through (w : option QTensor) (x : list f32) : list f32 := match w with Some w => matvec w x | None => [] end.

(** The convolution of a stream: the rows before, and the new ones. *)
Definition conv_row (w : list f32) (win : rows) : list f32 := map (conv_win expf w [] kk win) (seq 0 cw).
Definition conv_rows (w : list f32) (win xs : rows) : rows := map (fun j => conv_row w (take kk (drop j (win ++ xs)))) (seq 0 (length xs)).

(** What the layer carries: the last rows of each stream, and the state. *)
Record KdaState := { ks_q : rows; ks_k : rows; ks_v : rows; ks_data : list f32 }.
Definition kda_init : KdaState :=
  let win := replicate (kk - 1) (replicate cw f0) in {| ks_q := win; ks_k := win; ks_v := win; ks_data := replicate (nh * dk * dk) f0 |}.

Definition tok_query (c : list f32) : list f32 :=
  map (fun a => f32_mul a (powf (f32_of_nat dk) (f32_from_bits 0xBF000000))) (default [] (l2norm_row dm eps_l2 c)).
Definition tok_decay (x : list f32) : list f32 :=
  kda_gate_row expf (map expf (l_kda_a_log l)) (l_kda_dt_bias l) K3_GATE_LOWER_BOUND dm (through (l_kda_f_b l) (through (l_kda_f_a l) x)).
(** What the recurrence is given of a token, its rows convolved. *)
Definition tok_inputs (cq ck cv x : list f32) : list f32 * list f32 * list f32 * list f32 * list f32 :=
  (tok_query cq, default [] (l2norm_row dm eps_l2 ck), cv, tok_decay x, through (l_kda_b_proj l) x).
Definition kda_finish (o x : list f32) : list f32 :=
  matvec (l_o l) (default [] (gated_row expf dm (eps cfg) (l_kda_o_norm l) o (through (l_attn_gate l) x))).

Definition kda_step (st : KdaState) (x : list f32) : KdaState * list f32 :=
  let wq := ks_q st ++ [through (l_q_proj l) x] in
  let wk := ks_k st ++ [through (l_k_proj l) x] in
  let wv := ks_v st ++ [through (l_v_proj l) x] in
  let '(q, k, v, g, b) := tok_inputs (conv_row (l_kda_conv_q l) wq) (conv_row (l_kda_conv_k l) wk) (conv_row (l_kda_conv_v l) wv) x in
  let '(data, o) := default ([], []) (delta_token expf dm q k v g b (ks_data st)) in
  ({| ks_q := drop 1 wq; ks_k := drop 1 wk; ks_v := drop 1 wv; ks_data := data |}, kda_finish o x).
Fixpoint kda_run (st : KdaState) (xs : rows) : KdaState * rows :=
  match xs with
  | [] => (st, [])
  | x :: xs => let '(st, o) := kda_step st x in let '(st, os) := kda_run st xs in (st, o :: os)
  end.

Lemma kda_run_app xs ys : forall st,
  kda_run st (xs ++ ys) = let '(st1, o1) := kda_run st xs in let '(st2, o2) := kda_run st1 ys in (st2, o1 ++ o2).
Proof.
  induction xs as [|x xs IH]; intros st; cbn [kda_run app]; [by destruct (kda_run st ys)|].
  destruct (kda_step st x) as [st1 o]. rewrite IH. destruct (kda_run st1 xs) as [st2 os]. by destruct (kda_run st2 ys).
Qed.

(** ** Shapes *)

Context (W : wf_kda cfg l d).
Local Set Default Proof Using "All".

Lemma cw_eq : cw = nh * dk.
Proof. done. Qed.

Lemma f32_zip_len f a b : length (f32_zip f a b) = Nat.min (length a) (length b).
Proof. unfold f32_zip. by rewrite length_map, length_combine. Qed.

Lemma heads_of (row : list f32) : length row = cw -> exists hs, each_row dk nh Some row = Some hs /\ length hs = nh /\ Forall (fun v => length v = dk) hs.
Proof.
  intros Hl. rewrite cw_eq in Hl. destruct (mapM_all (fun i => let* r := range row (i * dk) ((i + 1) * dk) in Some r) (fun v => length v = dk) (seq 0 nh)) as (hs & E & Hw & Hn).
  { intros i Hi%elem_of_seq. rewrite range_some by nia. eexists. split; [done|]. rewrite length_take, length_drop. nia. }
  exists hs. rewrite length_seq in Hn. by split_and!.
Qed.

Lemma concat_map_len (f : list f32 -> list f32) hs : (forall v, length (f v) = length v) -> length hs = nh -> Forall (fun v => length v = dk) hs ->
  length (concat (map f hs)) = cw.
Proof.
  intros Hf Hn Hw. rewrite (concat_len dk), length_map, Hn; [done|]. apply Forall_map. eapply Forall_impl; [exact Hw|]. intros v Hv. cbv beta in *. by rewrite Hf.
Qed.

Lemma l2norm_row_some ep row : length row = cw -> exists y, l2norm_row dm ep row = Some y /\ length y = cw.
Proof.
  intros Hl. unfold l2norm_row. destruct (heads_of row Hl) as (hs & -> & Hn & Hw). eexists. split; [done|].
  apply concat_map_len; [|done|done]. intros v. unfold l2norm_head. by rewrite length_map.
Qed.

Lemma gated_row_some y g : length y = cw -> length g = cw -> exists z, gated_row expf dm (eps cfg) (l_kda_o_norm l) y g = Some z /\ length z = cw.
Proof.
  intros Hy Hg. unfold gated_row. destruct (heads_of y Hy) as (ys & -> & Hn & Hw). destruct (heads_of g Hg) as (gs & -> & Hn' & Hw'). eexists. split; [done|].
  rewrite (concat_len dk).
  - rewrite length_zip_with, Hn, Hn', Nat.min_id. done.
  - apply Forall_lookup. intros i z Hz. apply lookup_zip_with_Some in Hz as (a & b & -> & Ha & Hb). unfold gated_head. rewrite length_map, !length_combine.
    rewrite Forall_lookup in Hw, Hw'. rewrite (Hw _ _ Ha), (Hw' _ _ Hb), (wk_norm _ _ _ W). lia.
Qed.

Lemma add_rows_len coefs sh : Forall (fun r => length r = dk) sh -> length (add_rows dk coefs sh) = dk.
Proof.
  intros Hs. unfold add_rows. assert (forall (ps : list (f32 * list f32)) acc, Forall (fun p => length p.2 = dk) ps -> length acc = dk ->
    length (foldl (fun acc '(a, r) => if SFeqb a f0 then acc else f32_zip (fun x y => f32_add x (f32_mul a y)) acc r) acc ps) = dk) as H.
  { induction ps as [|[a r] ps IH]; intros acc Hp Ha; [done|]. apply Forall_cons in Hp as [Hr Hp]. cbn [foldl]. apply IH; [done|].
    destruct (SFeqb a f0); [done|]. rewrite f32_zip_len. cbn [snd] in Hr. lia. }
  apply H; [|apply length_replicate]. clear H. revert coefs. induction Hs as [|r sh Hr _ IH]; intros [|a coefs]; cbn [combine]; constructor; [done|apply IH].
Qed.

Lemma delta_head_shape qh kh vh gh b sh : length qh = dk -> length kh = dk -> length vh = dk -> length gh = dk ->
  length sh = dk -> Forall (fun r => length r = dk) sh ->
  length (delta_head expf dk qh kh vh gh b sh).1 = dk /\ Forall (fun r => length r = dk) (delta_head expf dk qh kh vh gh b sh).1 /\
  length (delta_head expf dk qh kh vh gh b sh).2 = dk.
Proof.
  intros Lq Lk Lv Lg Ls Hs. unfold delta_head. cbv zeta. set (sh1 := zip_with _ gh sh).
  assert (length sh1 = dk /\ Forall (fun r => length r = dk) sh1) as [L1 H1].
  { split; [unfold sh1; rewrite length_zip_with; lia|]. apply Forall_lookup. intros i r Hr. apply lookup_zip_with_Some in Hr as (g & r' & -> & _ & Hr').
    rewrite length_map. rewrite Forall_lookup in Hs. by eapply Hs. }
  set (u := f32_zip f32_sub vh _). assert (length u = dk) as Lu by (unfold u; rewrite f32_zip_len, add_rows_len by done; lia).
  set (sh2 := zip_with _ kh sh1).
  assert (length sh2 = dk /\ Forall (fun r => length r = dk) sh2) as [L2 H2].
  { split; [unfold sh2; rewrite length_zip_with; lia|]. apply Forall_lookup. intros i r Hr. apply lookup_zip_with_Some in Hr as (g & r' & -> & _ & Hr').
    rewrite Forall_lookup in H1. specialize (H1 _ _ Hr'). destruct (SFeqb _ _); [done|]. rewrite f32_zip_len. lia. }
  cbn [fst snd]. split_and!; [done|done|by apply add_rows_len].
Qed.

(** One token of the recurrence, from rows of the right widths. *)
Definition wf_inputs (t : list f32 * list f32 * list f32 * list f32 * list f32) : Prop :=
  let '(q, k, v, g, b) := t in length q = cw /\ length k = cw /\ length v = cw /\ length g = cw /\ length b = nh.

Lemma delta_token_some t state : wf_inputs t -> length state = nh * dk * dk ->
  let '(q, k, v, g, b) := t in
  exists state' o, delta_token expf dm q k v g b state = Some (state', o) /\ length state' = nh * dk * dk /\ length o = cw.
Proof.
  destruct t as [[[[q k] v] g] b]. intros (Lq & Lk & Lv & Lg & Lb) Ls. rewrite cw_eq in *. unfold delta_token.
  destruct (mapM_all (fun hh =>
    let* sh := range state (hh * dk * dk) ((hh + 1) * dk * dk) in let* sh := each_row dk dk Some sh in
    let* qh := range q (hh * dk) (hh * dk + dk) in let* kh := range k (hh * dk) (hh * dk + dk) in
    let* vh := range v (hh * dk) (hh * dk + dk) in let* gh := range g (hh * dk) (hh * dk + dk) in
    let* b := b !! hh in let '(sh, o) := delta_head expf dk qh kh vh gh b sh in Some (concat sh, o))
    (fun p => length p.1 = dk * dk /\ length p.2 = dk) (seq 0 nh)) as (hs & -> & Hh & Hn).
  { intros hh Hh%elem_of_seq. assert (hh * dk + dk <= nh * dk) as H1 by nia. assert ((hh + 1) * dk * dk <= nh * dk * dk) as H2 by (apply Nat.mul_le_mono_r; nia).
    rewrite range_some by nia. cbv beta iota. destruct (mapM_all (fun i => let* r := range (take ((hh + 1) * dk * dk - hh * dk * dk) (drop (hh * dk * dk) state)) (i * dk) ((i + 1) * dk) in Some r)
      (fun r => length r = dk) (seq 0 dk)) as (sh & E & Hsh & Lsh).
    { intros i Hi%elem_of_seq. rewrite range_some by (rewrite length_take, length_drop; nia). eexists. split; [done|]. rewrite length_take, length_drop, length_take, length_drop. nia. }
    unfold each_row. rewrite E. cbv beta iota. rewrite !range_some by lia. cbv beta iota. destruct (lookup_lt_is_Some_2 b hh) as [b0 ->]; [lia|]. cbv beta iota.
    rewrite length_seq in Lsh.
    match goal with |- context [delta_head expf dk ?a ?b1 ?c ?e ?f ?s] => destruct (delta_head_shape a b1 c e f s) as (D1 & D2 & D3);
      [rewrite length_take, length_drop; lia..|done|done|]; destruct (delta_head expf dk a b1 c e f s) as [s1 o1] end.
    cbn [fst snd] in *. eexists. split; [done|]. cbn. split; [|done]. by rewrite (concat_len dk), D1. }
  rewrite length_seq in Hn. eexists _, _. split; [done|]. split.
  - rewrite (concat_len (dk * dk)), length_map, Hn; [lia|]. apply Forall_map. eapply Forall_impl; [exact Hh|]. by intros ? [].
  - rewrite (concat_len dk), length_map, Hn; [done|]. apply Forall_map. eapply Forall_impl; [exact Hh|]. by intros ? [].
Qed.

(** ** The run in one piece *)

Abbreviation inp := (list f32 * list f32 * list f32 * list f32 * list f32)%type.
Definition delta_step (data : list f32) (t : inp) : list f32 * list f32 :=
  let '(q, k, v, g, b) := t in default ([], []) (delta_token expf dm q k v g b data).
Fixpoint deltas (data : list f32) (ts : list inp) : list f32 * rows :=
  match ts with
  | [] => (data, [])
  | t :: ts => let '(data, o) := delta_step data t in let '(data, os) := deltas data ts in (data, o :: os)
  end.
Definition run_inputs (st : KdaState) (xs : rows) : list inp :=
  let at_ (win : rows) (w : list f32) p j := conv_row w (take kk (drop j (win ++ map (through p) xs))) in
  imap (fun j x => tok_inputs (at_ (ks_q st) (l_kda_conv_q l) (l_q_proj l) j) (at_ (ks_k st) (l_kda_conv_k l) (l_k_proj l) j)
                              (at_ (ks_v st) (l_kda_conv_v l) (l_v_proj l) j) x) xs.
(** A carried state has the widths of the layer. *)
Definition win_ok (win : rows) : Prop := length win = kk - 1 /\ Forall (fun r => length r = cw) win.
Record state_ok (st : KdaState) : Prop := {
  so_q : win_ok (ks_q st); so_k : win_ok (ks_k st); so_v : win_ok (ks_v st); so_data : length (ks_data st) = nh * dk * dk
}.

Lemma through_len p x o : (exists w, p = Some w /\ wf_qt w d o) -> length (through p x) = o.
Proof. intros (w & -> & Hw). by apply (matvec_length w d). Qed.

Lemma proj_lens x : length (through (l_q_proj l) x) = cw /\ length (through (l_k_proj l) x) = cw /\ length (through (l_v_proj l) x) = cw /\
  length (through (l_kda_b_proj l) x) = nh /\ length (through (l_attn_gate l) x) = cw.
Proof. destruct W. split_and!; by apply through_len. Qed.

Lemma decay_len x : length (tok_decay x) = cw.
Proof.
  unfold tok_decay, kda_gate_row. destruct (wk_f _ _ _ W) as (fa & fb & E1 & E2 & Wa & Wb). rewrite E1, E2. cbn [through].
  destruct (wk_gate _ _ _ W) as [Ha Hb]. rewrite length_map, !length_combine, (matvec_length fb (Linear.rows_of fa) cw) by done.
  rewrite (concat_len dk), length_replicate, Hb; [rewrite cw_eq; lia|]. apply Forall_replicate. by rewrite length_map.
Qed.

Lemma tok_inputs_ok cq ck cv x : length cq = cw -> length ck = cw -> length cv = cw -> wf_inputs (tok_inputs cq ck cv x).
Proof.
  intros Hq Hk Hv. unfold wf_inputs, tok_inputs, tok_query. rewrite length_map.
  destruct (l2norm_row_some eps_l2 cq Hq) as (y & -> & Ly). destruct (l2norm_row_some eps_l2 ck Hk) as (z & -> & Lz).
  destruct (proj_lens x) as (_ & _ & _ & Hb & _). by split_and!; [..|apply decay_len|].
Qed.

Lemma run_inputs_ok st xs : Forall wf_inputs (run_inputs st xs).
Proof.
  apply Forall_forall. intros t Ht. apply elem_of_lookup_imap in Ht as (j & x & -> & _).
  apply tok_inputs_ok; unfold conv_row; by rewrite length_map, length_seq.
Qed.

Lemma deltas_ok ts : Forall wf_inputs ts -> forall data, length data = nh * dk * dk ->
  delta_tokens expf dm ts data = Some (deltas data ts) /\ length (deltas data ts).1 = nh * dk * dk /\
  length (deltas data ts).2 = length ts /\ Forall (fun o => length o = cw) (deltas data ts).2.
Proof.
  induction 1 as [|t ts Ht _ IH]; intros data Hd; [by split_and!|]. pose proof (delta_token_some t data Ht Hd) as Hs.
  destruct t as [[[[q k] v] g] b]. destruct Hs as (data1 & o & E & H1 & H2). cbn [delta_tokens deltas]. unfold delta_step. rewrite E.
  cbn [default from_option]. cbv beta iota. destruct (IH data1 H1) as (E2 & I1 & I2 & I3). unfold id. rewrite E2. destruct (deltas data1 ts) as [data2 os]. cbn [fst snd] in *.
  split_and!; [done|done|cbn; lia|by constructor].
Qed.

Lemma kda_run_eq xs : forall st, state_ok st ->
  kda_run st xs =
  ({| ks_q := drop (length xs) (ks_q st ++ map (through (l_q_proj l)) xs); ks_k := drop (length xs) (ks_k st ++ map (through (l_k_proj l)) xs);
      ks_v := drop (length xs) (ks_v st ++ map (through (l_v_proj l)) xs); ks_data := (deltas (ks_data st) (run_inputs st xs)).1 |},
   zip_with kda_finish (deltas (ks_data st) (run_inputs st xs)).2 xs).
Proof.
  pose proof (wk_taps _ _ _ W) as Htap. induction xs as [|x xs IH]; intros st Hst.
  { cbn. rewrite !app_nil_r. by destruct st. }
  cbn [kda_run]. unfold kda_step. cbv zeta.
  assert (forall (win : rows) z zs, win ++ z :: zs = (win ++ [z]) ++ zs) as Hm by (intros; by rewrite <- app_assoc).
  assert (run_inputs st (x :: xs) = tok_inputs (conv_row (l_kda_conv_q l) (ks_q st ++ [through (l_q_proj l) x])) (conv_row (l_kda_conv_k l) (ks_k st ++ [through (l_k_proj l) x]))
      (conv_row (l_kda_conv_v l) (ks_v st ++ [through (l_v_proj l) x])) x ::
    run_inputs {| ks_q := drop 1 (ks_q st ++ [through (l_q_proj l) x]); ks_k := drop 1 (ks_k st ++ [through (l_k_proj l) x]);
                  ks_v := drop 1 (ks_v st ++ [through (l_v_proj l) x]); ks_data := [] |} xs) as Hin.
  { destruct Hst as [[Lq _] [Lk _] [Lv _] _].
    assert (forall win p, length win = kk - 1 -> take kk (drop 0 (win ++ map (through p) (x :: xs))) = win ++ [through p x]) as Hfst.
    { intros win p Hl. change (drop 0 ?z) with z. cbn [map]. rewrite (Hm win (through p x) (map (through p) xs)).
      apply take_app_length'. rewrite length_app, Hl. cbn [length]. lia. }
    assert (forall win p j, length win = kk - 1 -> drop (S j) (win ++ map (through p) (x :: xs)) = drop j (drop 1 (win ++ [through p x]) ++ map (through p) xs)) as Hrest.
    { intros win p j Hl. cbn [map]. rewrite (Hm win (through p x) (map (through p) xs)). rewrite <- drop_app_le by (rewrite length_app; cbn [length]; lia).
      by rewrite drop_drop. }
    unfold run_inputs. cbv zeta. rewrite imap_cons. f_equal.
    - by rewrite !Hfst.
    - apply imap_ext. intros j y _. cbn [compose ks_q ks_k ks_v]. by rewrite !Hrest. }
  rewrite Hin. cbn [deltas]. destruct (tok_inputs _ _ _ x) as [[[[q k] v] g] b] eqn:Et. unfold delta_step.
  assert (state_ok st -> True) as _ by done. destruct Hst as [Hq Hk Hv Hd].
  assert (wf_inputs (q, k, v, g, b)) as Hwf by (rewrite <- Et; apply tok_inputs_ok; unfold conv_row; by rewrite length_map, length_seq).
  destruct (delta_token_some _ (ks_data st) Hwf Hd) as (data1 & o & -> & H1 & H2). cbn [default from_option]. unfold id. cbv beta iota.
  destruct (proj_lens x) as (P1 & P2 & P3 & _).
  assert (forall win p, win_ok win -> length (through p x) = cw -> win_ok (drop 1 (win ++ [through p x]))) as Hwin.
  { intros win p [L1 F1] Hp. split; [rewrite length_drop, length_app, L1; cbn [length]; lia|]. apply Forall_drop, Forall_app. by split; [|constructor]. }
  rewrite IH by (split; cbn; auto). cbn [ks_q ks_k ks_v ks_data].
  match goal with |- context [run_inputs ?a xs] => match goal with |- context [run_inputs ?b xs] => change (run_inputs a xs) with (run_inputs b xs) end end.
  assert (forall win p, win_ok win -> drop (length xs) (drop 1 (win ++ [through p x]) ++ map (through p) xs) = drop (length (x :: xs)) (win ++ map (through p) (x :: xs))) as Hdrop.
  { intros win p [L1 _]. cbn [map length]. rewrite (Hm win (through p x) (map (through p) xs)). rewrite <- drop_app_le by (rewrite length_app; cbn [length]; lia).
    by rewrite drop_drop. }
  rewrite !Hdrop by done. destruct (deltas data1 _) as [data2 os]. done.
Qed.

(** ** The mixer *)

(** The cache carries the layer's state. *)
Definition kda_carries (layer : nat) (kv : KvCache) (st : KdaState) : Prop :=
  state_ok st /\ kc_kda_state kv !! layer = Some (ks_data st) /\
  exists slot rest, kc_kda_conv kv !! layer = Some slot /\ slot = concat (ks_q st ++ ks_k st ++ ks_v st) ++ rest.

(** Only one layer's recurrent state differs, in the same shape. *)
Definition kda_at (layer : nat) (kv kv' : KvCache) : Prop :=
  exists cv data cv0 data0, kv' = set_kda kv (<[layer := cv]> (kc_kda_conv kv)) (<[layer := data]> (kc_kda_state kv)) /\
    kc_kda_conv kv !! layer = Some cv0 /\ kc_kda_state kv !! layer = Some data0 /\ length cv = length cv0 /\ length data = length data0.

Lemma concat_concat {A} (ls : list (list (list A))) : concat (concat ls) = concat (map (fun l => concat l) ls).
Proof using. induction ls as [|x ls IH]; [done|]. cbn. by rewrite concat_app, IH. Qed.

Lemma conv_rows_len w win xs : length (conv_rows w win xs) = length xs /\ Forall (fun r => length r = cw) (conv_rows w win xs).
Proof. unfold conv_rows. split; [by rewrite length_map, length_seq|]. apply Forall_map, Forall_true. intros j. unfold conv_row. by rewrite length_map, length_seq. Qed.

Lemma kda_conv_spec w wins idx win ys : length w = cw * kk -> Forall (fun r => length r = cw) (concat wins) -> Forall (fun win => length win = kk - 1) wins ->
  wins !! idx = Some win -> Forall (fun r => length r = cw) ys ->
  kda_conv expf (concat (concat wins)) (concat ys) w idx (length ys) dm =
    Some (concat (conv_rows w win ys), concat (drop (length ys) (win ++ ys))).
Proof.
  intros Hw Hr Hl Hi Hy. pose proof (wk_taps _ _ _ W) as Htap. unfold kda_conv.
  assert (Forall (fun r => length r = cw) win) as Fw.
  { apply Forall_concat in Hr. rewrite Forall_lookup in Hr. by eapply Hr. }
  assert (length win = kk - 1) as Lw by (rewrite Forall_lookup in Hl; by eapply Hl).
  assert (range (concat (concat wins)) (idx * (kk - 1) * cw) ((idx + 1) * (kk - 1) * cw) = Some (concat win)) as ->.
  { assert (Forall (fun b : list f32 => length b = (kk - 1) * cw) (map (fun win => concat win) wins)) as Hb.
    { apply Forall_map, Forall_lookup. intros i b Hib. rewrite (concat_len cw); [rewrite Forall_lookup in Hl; by rewrite (Hl i b Hib)|].
      apply Forall_concat in Hr. rewrite Forall_lookup in Hr. by eapply Hr. }
    rewrite <- !Nat.mul_assoc. rewrite concat_concat. apply concat_row; [done|]. change (map ?f ?k) with (f <$> k). by rewrite list_lookup_fmap, Hi. }
  cbv beta iota zeta. rewrite <- concat_app. assert (Forall (fun r => length r = cw) (win ++ ys)) as Fa by (by apply Forall_app).
  destruct (causal_conv_rows expf w [] cw kk (win ++ ys) (kk - 1) (length ys) (kk - 1)) as (out & -> & Ho); [done|rewrite length_app; lia|done|done|by left|done|].
  cbv beta iota. rewrite Nat.sub_diag, Nat.mul_0_l in Ho. change (drop 0 out) with out in Ho. rewrite Ho. rewrite (concat_len cw) by done. rewrite length_app, Lw.
  replace ((kk - 1 + length ys) * cw - (kk - 1) * cw) with (length ys * cw) by nia.
  pose proof (row_run cw (concat (win ++ ys)) (drop (length ys) (win ++ ys)) (length ys)) as Hc. rewrite length_drop, length_app, Lw in Hc.
  replace (length ys + (kk - 1 + length ys - length ys)) with (kk - 1 + length ys) in Hc by lia.
  rewrite Hc; [|rewrite (concat_len cw), length_app, Lw by done; nia|].
  2: { intros i r Hir. rewrite lookup_drop in Hir. by apply concat_row. }
  cbv beta iota. do 2 f_equal. f_equal. unfold conv_rows, conv_row.
  assert (seq (kk - 1) (length ys) = map (Nat.add (kk - 1)) (seq 0 (length ys))) as ->.
  { change (map ?f ?k) with (f <$> k). rewrite fmap_add_seq. f_equal. lia. }
  rewrite map_map. apply map_ext. intros j. by replace (kk - 1 + j - (kk - 1)) with j by lia.
Qed.

Lemma store_take layer kv st cs slot rest : kc_kda_conv kv !! layer = Some slot -> slot = concat (ks_q st ++ ks_k st ++ ks_v st) ++ rest ->
  state_ok st -> length cs = 3 * (kk - 1) * cw ->
  kda_conv_take kv layer cw kk = concat (ks_q st ++ ks_k st ++ ks_v st) /\
  kda_conv_store kv layer cs = set_kda kv (<[layer := cs ++ rest]> (kc_kda_conv kv)) (kc_kda_state kv) /\
  length (cs ++ rest) = length slot.
Proof.
  intros Hs -> [[Lq Fq] [Lk Fk] [Lv Fv] _] Hc. pose proof (wk_taps _ _ _ W) as Htap. pose proof (wk_width _ _ _ W) as Hcw.
  assert (length (concat (ks_q st ++ ks_k st ++ ks_v st)) = 3 * (kk - 1) * cw) as Hl.
  { rewrite (concat_len cw), !length_app; [lia|]. repeat (apply Forall_app; split); done. }
  unfold kda_conv_take, kda_conv_store. rewrite Hs, length_app, Hl.
  assert (0 < 3 * (kk - 1) * cw) as Hp by nia. destruct (Nat.leb_spec (3 * (kk - 1) * cw) (3 * (kk - 1) * cw + length rest)); [|lia].
  destruct (Nat.ltb_spec 0 (3 * (kk - 1) * cw)); [|lia]. cbn [andb].
  destruct (Nat.ltb_spec (3 * (kk - 1) * cw + length rest) (length cs)); [lia|]. split_and!.
  - by apply take_app_length'.
  - unfold blit. cbn [take app Nat.add]. rewrite drop_app_length' by lia. done.
  - rewrite length_app. lia.
Qed.

Lemma norm_rows_some ep rs : Forall (fun r => length r = cw) rs ->
  l2norm_heads (concat rs) dm ep = Some (concat (map (fun r => default [] (l2norm_row dm ep r)) rs)) /\
  Forall (fun r => length r = cw) (map (fun r => default [] (l2norm_row dm ep r)) rs).
Proof.
  intros Hr. unfold l2norm_heads. rewrite chunks_concat by (done || apply (wk_width _ _ _ W)).
  assert (Forall (fun r => l2norm_row dm ep r = Some (default [] (l2norm_row dm ep r)) /\ length (default [] (l2norm_row dm ep r)) = cw) rs) as H.
  { eapply Forall_impl; [exact Hr|]. intros r Hl. destruct (l2norm_row_some ep r Hl) as (y & -> & Hy). done. }
  assert (mapM (l2norm_row dm ep) rs = Some (map (fun r => default [] (l2norm_row dm ep r)) rs)) as ->.
  { apply mapM_Some. change (map ?f ?k) with (f <$> k). apply Forall2_fmap_r, Forall_Forall2_diag. eapply Forall_impl; [exact H|]. by intros r [? _]. }
  split; [done|]. apply Forall_map. eapply Forall_impl; [exact H|]. by intros r [_ ?].
Qed.

Lemma map_concat (f : f32 -> f32) (rs : rows) : map f (concat rs) = concat (map (map f) rs).
Proof. apply concat_map. Qed.

Lemma gated_rows_some os gs : Forall (fun o => length o = cw) os -> Forall (fun o => length o = cw) gs -> length os = length gs ->
  gated_rmsnorm_sigmoid expf (concat os) (concat gs) (l_kda_o_norm l) dm (eps cfg) =
    Some (concat (zip_with (fun o g => default [] (gated_row expf dm (eps cfg) (l_kda_o_norm l) o g)) os gs)) /\
  Forall (fun o => length o = cw) (zip_with (fun o g => default [] (gated_row expf dm (eps cfg) (l_kda_o_norm l) o g)) os gs).
Proof.
  intros Ho Hg Hl. pose proof (wk_width _ _ _ W) as Hcw. unfold gated_rmsnorm_sigmoid. rewrite (wk_norm _ _ _ W), Nat.eqb_refl. cbn [negb]. rewrite !chunks_concat by done. cbv beta iota.
  revert gs Hg Hl. induction Ho as [|o os Lo _ IH]; intros [|g gs] Hg Hl; try done. apply Forall_cons in Hg as [Lg Hg]. injection Hl as Hl.
  destruct (IH gs Hg Hl) as [E1 E2]. cbn [combine zip_with concat]. rewrite mapM_cons_eq.
  destruct (gated_row_some o g Lo Lg) as (z & -> & Lz). cbv beta iota. destruct (mapM _ (combine os gs)) as [zs|]; [|done]. injection E1 as E1.
  split; [cbn; by rewrite E1|]. by constructor.
Qed.

Lemma bundle_inputs wq wk wv xs : length wq = length xs -> length wk = length xs -> length wv = length xs ->
  combine (combine (combine (combine (map tok_query wq) (map (fun r => default [] (l2norm_row dm eps_l2 r)) wk)) wv) (map tok_decay xs))
    (map (through (l_kda_b_proj l)) xs) =
  imap (fun j x => tok_inputs (nth j wq []) (nth j wk []) (nth j wv []) x) xs.
Proof.
  revert wq wk wv. induction xs as [|x xs IH]; intros [|a wq] [|b wk] [|e wv] H1 H2 H3; try done.
  injection H1 as H1. injection H2 as H2. injection H3 as H3. cbn [map combine]. rewrite imap_cons. f_equal. rewrite IH by done. done.
Qed.

Lemma kda_mixer_spec layer kv st xs : kda_carries layer kv st -> Forall (fun x => length x = d) xs ->
  exists kv', kda_mixer expf powf cfg l kv layer (concat xs) (length xs) (length xs * d) = Some (kv', concat (kda_run st xs).2) /\
    kda_carries layer kv' (kda_run st xs).1 /\ kda_at layer kv kv' /\
    length (kda_run st xs).2 = length xs /\ Forall (fun o => length o = d) (kda_run st xs).2.
Proof.
  intros (Hst & Hdata & slot & rest & Hslot & Er) Hxs. pose proof (wk_taps _ _ _ W) as Htap. pose proof (wk_width _ _ _ W) as Hcw.
  destruct Hst as [[Lq Fq] [Lk Fk] [Lv Fv] Hd] eqn:Est. clear Est. pose proof Hst as Hst0.
  destruct (wk_q _ _ _ W) as (wq & Eq & Wq). destruct (wk_k _ _ _ W) as (wk & Ek & Wk). destruct (wk_v _ _ _ W) as (wv & Ev & Wv).
  destruct (wk_f _ _ _ W) as (fa & fb & Efa & Efb & Wfa & Wfb). destruct (wk_beta _ _ _ W) as (wb & Eb & Wb). destruct (wk_out_gate _ _ _ W) as (wg & Eg & Wg).
  pose proof (wk_conv _ _ _ W) as Hcv. apply Forall_cons in Hcv as [Hcq Hcv]. apply Forall_cons in Hcv as [Hck Hcv]. apply Forall_cons in Hcv as [Hcvv _].
  unfold kda_mixer. rewrite Eq, Ek, Ev. cbv beta iota zeta. rewrite !(matmul_qt_wf _ d) by done. cbv beta iota.
  destruct (Nat.eqb_spec kk 0) as [|_]; [lia|].
  set (wins := [ks_q st; ks_k st; ks_v st]).
  assert (concat (ks_q st ++ ks_k st ++ ks_v st) = concat (concat wins)) as Ew by (unfold wins; cbn; by rewrite app_nil_r).
  assert (Forall (fun r => length r = cw) (concat wins)) as Fw by (unfold wins; cbn; rewrite app_nil_r; repeat (apply Forall_app; split); done).
  assert (Forall (fun win => length win = kk - 1) wins) as Lw by (by repeat constructor).
  assert (forall w, wf_qt w d cw -> Forall (fun r => length r = cw) (map (matvec w) xs)) as Hmv.
  { intros w Ww. apply Forall_map, Forall_true. intros x. by apply (matvec_length w d). }
  assert (forall w wt, wf_qt w d cw -> length wt = cw * kk -> forall idx win, wins !! idx = Some win ->
    kda_conv expf (concat (concat wins)) (concat (map (matvec w) xs)) wt idx (length xs) dm =
    Some (concat (conv_rows wt win (map (matvec w) xs)), concat (drop (length xs) (win ++ map (matvec w) xs)))) as Hconv.
  { intros w wt Ww Hwt idx win Hi. pose proof (kda_conv_spec wt wins idx win (map (matvec w) xs) Hwt Fw Lw Hi (Hmv w Ww)) as E. by rewrite length_map in E. }
  set (cs := concat (drop (length xs) (ks_q st ++ map (matvec wq) xs)) ++ concat (drop (length xs) (ks_k st ++ map (matvec wk) xs)) ++
             concat (drop (length xs) (ks_v st ++ map (matvec wv) xs))).
  assert (forall w win, wf_qt w d cw -> win_ok win -> win_ok (drop (length xs) (win ++ map (matvec w) xs))) as Hnext.
  { intros w win Ww [L1 F1]. split; [rewrite length_drop, length_app, length_map; lia|]. apply Forall_drop, Forall_app. split; [done|by apply Hmv]. }
  destruct (Hnext wq _ Wq (conj Lq Fq)) as [Lq' Fq']. destruct (Hnext wk _ Wk (conj Lk Fk)) as [Lk' Fk']. destruct (Hnext wv _ Wv (conj Lv Fv)) as [Lv' Fv'].
  assert (length cs = 3 * (kk - 1) * cw) as Lcs.
  { unfold cs. rewrite !length_app, (concat_len cw _ Fq'), (concat_len cw _ Fk'), (concat_len cw _ Fv'), Lq', Lk', Lv'. lia. }
  destruct (store_take layer kv st cs slot rest Hslot Er Hst0 Lcs) as (-> & Estore & Lslot). rewrite Ew.
  rewrite (Hconv wq _ Wq Hcq 0 (ks_q st) eq_refl). cbv beta iota. rewrite (Hconv wk _ Wk Hck 1 (ks_k st) eq_refl). cbv beta iota.
  rewrite (Hconv wv _ Wv Hcvv 2 (ks_v st) eq_refl). cbv beta iota. fold cs. rewrite Estore.
  set (qr := conv_rows _ (ks_q st) _). set (kr := conv_rows _ (ks_k st) _). set (vr := conv_rows _ (ks_v st) _).
  assert (forall w win ys, length ys = length xs -> length (conv_rows w win ys) = length xs /\ Forall (fun r => length r = cw) (conv_rows w win ys)) as Hcr.
  { intros w win ys Hl. rewrite <- Hl. apply conv_rows_len. }
  destruct (Hcr (l_kda_conv_q l) (ks_q st) (map (matvec wq) xs) ltac:(by rewrite length_map)) as [Lqr Fqr].
  destruct (Hcr (l_kda_conv_k l) (ks_k st) (map (matvec wk) xs) ltac:(by rewrite length_map)) as [Lkr Fkr].
  destruct (Hcr (l_kda_conv_v l) (ks_v st) (map (matvec wv) xs) ltac:(by rewrite length_map)) as [Lvr Fvr].
  fold qr in Lqr, Fqr. fold kr in Lkr, Fkr. fold vr in Lvr, Fvr.
  destruct (norm_rows_some eps_l2 qr Fqr) as [-> Fqn]. destruct (norm_rows_some eps_l2 kr Fkr) as [-> Fkn]. cbv beta iota.
  rewrite Efa. cbv beta iota. rewrite (matmul_qt_wf fa d) by done. cbv beta iota. rewrite Efb. cbv beta iota.
  assert (Forall (fun r => length r = Linear.rows_of fa) (map (matvec fa) xs)) as Hfa by (apply Forall_map, Forall_true; intros x; by apply (matvec_length fa d)).
  pose proof (matmul_qt_wf fb _ cw _ Wfb Hfa) as Efbm. rewrite length_map, map_map in Efbm. rewrite Efbm. cbv beta iota. clear Efbm.
  destruct (wk_gate _ _ _ W) as [Hga Hgb]. unfold kda_gate. rewrite Hga, Hgb, !Nat.eqb_refl. cbn [andb negb].
  rewrite chunks_concat; [|done|apply Forall_map, Forall_true; intros x; by apply (matvec_length fb (Linear.rows_of fa))]. cbv beta iota.
  rewrite map_map. rewrite Eb. cbv beta iota. rewrite (matmul_qt_wf wb d) by done. cbv beta iota.
  cbn [kc_kda_state set_kda kc_kda_conv]. rewrite Hdata.
  assert (map (fun x => kda_gate_row expf (map expf (l_kda_a_log l)) (l_kda_dt_bias l) K3_GATE_LOWER_BOUND dm (matvec fb (matvec fa x))) xs = map tok_decay xs) as ->.
  { apply map_ext. intros x. unfold tok_decay. by rewrite Efa, Efb. }
  rewrite map_concat, map_map.
  assert (map (fun r => map (fun a => f32_mul a (powf (f32_of_nat dk) (f32_from_bits 0xBF000000))) (default [] (l2norm_row dm eps_l2 r))) qr = map tok_query qr) as -> by done.
  set (ins := run_inputs st xs).
  assert (combine (combine (combine (combine (map tok_query qr) (map (fun r => default [] (l2norm_row dm eps_l2 r)) kr)) vr) (map tok_decay xs)) (map (matvec wb) xs) = ins) as Hins.
  { assert (map (matvec wb) xs = map (through (l_kda_b_proj l)) xs) as -> by (apply map_ext; intros x; by rewrite Eb).
    rewrite bundle_inputs by done. unfold ins, run_inputs. cbv zeta. apply imap_ext. intros j x Hj. pose proof (lookup_lt_Some _ _ _ Hj).
    assert (forall w win p (wm : QTensor), p = Some wm -> nth j (conv_rows w win (map (matvec wm) xs)) [] = conv_row w (take kk (drop j (win ++ map (through p) xs)))) as Hn.
    { intros w win p wm ->. rewrite nth_lookup. unfold conv_rows. change (map ?f (seq 0 ?n)) with (f <$> seq 0 n). rewrite list_lookup_fmap, length_map, lookup_seq_lt by done. done. }
    unfold qr, kr, vr. by rewrite (Hn _ _ _ _ Eq), (Hn _ _ _ _ Ek), (Hn _ _ _ _ Ev). }
  destruct (deltas_ok ins (run_inputs_ok st xs) (ks_data st) Hd) as (Edt & Ld & Lo & Fo). assert (length ins = length xs) as Lins by (unfold ins, run_inputs; cbv zeta; by rewrite length_imap).
  rewrite Lins in Lo. rewrite (kda_run_eq xs st Hst0). fold ins. cbn [fst snd]. set (os := (deltas (ks_data st) ins).2) in *. set (data' := (deltas (ks_data st) ins).1) in *.
  assert (kda_recurrent expf (concat (map tok_query qr)) (concat (map (fun r => default [] (l2norm_row dm eps_l2 r)) kr)) (concat vr) (concat (map tok_decay xs))
    (concat (map (matvec wb) xs)) dm (ks_data st) = Some (data', concat os)) as ->.
  { unfold kda_recurrent. rewrite Hd, Nat.eqb_refl. destruct (Nat.eqb_spec cw 0); [lia|]. cbn [negb orb].
    assert (Forall (fun r => length r = cw) (map tok_query qr)) as Fq1.
    { apply Forall_map. apply Forall_map in Fqn. eapply Forall_impl; [exact Fqn|]. intros r Hr. unfold tok_query. by rewrite length_map. }
    rewrite (concat_len cw _ Fq1), length_map, Lqr, Nat.div_mul by done.
    rewrite each_row_id by (done || by rewrite length_map). cbv beta iota. rewrite each_row_id by (done || by rewrite length_map). cbv beta iota.
    rewrite each_row_id by done. cbv beta iota.
    rewrite each_row_id by (apply Forall_map, Forall_true; [apply decay_len] || by rewrite length_map). cbv beta iota.
    rewrite each_row_id by (apply Forall_map, Forall_true; [intros x; by apply (matvec_length wb d)] || by rewrite length_map). cbv beta iota.
    rewrite Hins, Edt. by rewrite (surjective_pairing (deltas _ _)). }
  cbv beta iota. rewrite Eg. cbv beta iota. rewrite (matmul_qt_wf wg d) by done. cbv beta iota.
  destruct (gated_rows_some os (map (matvec wg) xs) Fo (Hmv wg Wg)) as [-> Fn]; [by rewrite length_map|]. cbv beta iota.
  set (ns := zip_with _ os (map (matvec wg) xs)) in *. assert (length ns = length xs) as Ln by (unfold ns; rewrite length_zip_with, length_map; lia).
  pose proof (matmul_qt_wf (l_o l) cw d ns (wk_out _ _ _ W) Fn) as Eo. rewrite Ln in Eo. rewrite Eo. cbv beta iota. clear Eo.
  assert (map (matvec (l_o l)) ns = zip_with kda_finish os xs) as ->.
  { unfold ns. apply list_eq. intros i. change (map ?f (zip_with ?h ?a ?b)) with (f <$> zip_with h a b). change (map (matvec wg) xs) with (matvec wg <$> xs).
    rewrite list_lookup_fmap, !lookup_zip_with, list_lookup_fmap. destruct (os !! i); [|done]. cbn. destruct (xs !! i); [|done]. cbn. unfold kda_finish. by rewrite Eg. }
  eexists. split; [done|]. split_and!.
  - split; [|split].
    + split; [split; by rewrite ?Eq|split; by rewrite ?Ek|split; by rewrite ?Ev|done]; cbn [ks_q ks_k ks_v through].
    + cbn. apply list_lookup_insert_eq. by eapply lookup_lt_Some.
    + exists (cs ++ rest), rest. split; [cbn; apply list_lookup_insert_eq; by eapply lookup_lt_Some|]. cbn [ks_q ks_k ks_v]. rewrite Eq, Ek, Ev. cbn [through].
      unfold cs. by rewrite !concat_app, !app_assoc.
  - eexists _, _, slot, (ks_data st). split; [done|]. split_and!; [done|done|done|by rewrite Ld].
  - rewrite length_zip_with. lia.
  - apply Forall_lookup. intros i o Ho. apply lookup_zip_with_Some in Ho as (a & b & -> & _). unfold kda_finish. apply (matvec_length (l_o l) cw), W.
Qed.
End Run.
