(* ===== verification/AttnRes.v ===== *)
(** * The attention residual of Kimi-K3 ([crates/colibri-engine/src/forward.rs])

    What Kimi's stack threads between its layers in place of a hidden state: an
    accumulator, and the candidates snapshotted from it.  A sublayer reads a
    softmax mean of them.  A block of tokens is proved to be mixed token by
    token. *)

From Stdlib Require Import ZifyBool ZifyNat SpecFloat.
From S2P Require Import Prelude Rows DType Math.
Local Open Scope nat_scope.

(** ** The state *)

Record AttnResState := { ar_prefix : list f32; ar_blocks : list (list f32); ar_have_prefix : bool; ar_bs : nat }.

Definition attn_res_new (embeddings : list f32) (bs : nat) : option AttnResState :=
  if 0 <? bs then Some {| ar_prefix := embeddings; ar_blocks := []; ar_have_prefix := true; ar_bs := bs |} else None.

Definition maybe_snapshot (st : AttnResState) (li : nat) : AttnResState :=
  if li mod ar_bs st =? 0 then
    {| ar_prefix := ar_prefix st; ar_blocks := ar_blocks st ++ [ar_prefix st]; ar_have_prefix := false; ar_bs := ar_bs st |}
  else st.

(** [zip] stops at the shorter; [copy_from_slice] wants equal lengths. *)
Definition accumulate (st : AttnResState) (out : list f32) : option AttnResState :=
  if ar_have_prefix st then
    Some {| ar_prefix := f32_zip f32_add (ar_prefix st) out ++ drop (length out) (ar_prefix st); ar_blocks := ar_blocks st;
            ar_have_prefix := true; ar_bs := ar_bs st |}
  else if length out =? length (ar_prefix st) then
    Some {| ar_prefix := out; ar_blocks := ar_blocks st; ar_have_prefix := true; ar_bs := ar_bs st |}
  else None.

(** ** The mix *)

Section Mix.
Context (expf : f32 -> f32).

Definition attn_res_score (sw : list f32) (ep : f32) (d : nat) (v : list f32) : f32 :=
  let mean_sq := f32_div (f32_sum (map (fun x => f32_mul x x) v)) (f32_of_nat d) in
  let r := f32_div f32_one (f32_sqrt (f32_add mean_sq ep)) in
  f32_sum (map (fun '(x, w) => f32_mul (f32_mul x r) w) (combine v sw)).

(** One token: the mean of its candidates as they are, by their scores. *)
Definition attn_res_row (sw : list f32) (ep : f32) (d : nat) (cands : list (list f32)) : list f32 :=
  mix_values d (softmax expf (map (attn_res_score sw ep d) cands)) cands.

Definition apply_attn_res (prefix : list f32) (blocks : list (list f32)) (norm proj : list f32) (ep : f32) (s d : nat) : option (list f32) :=
  if negb ((length norm =? d) && (length proj =? d)) then None
  else
    let sw := f32_zip f32_mul norm proj in
    let* outs := mapM (fun i =>
      let* cands := mapM (fun v => row_at d v i) (blocks ++ [prefix]) in Some (attn_res_row sw ep d cands)) (seq 0 s) in
    Some (concat outs).
End Mix.

(** ** A token's share *)

(** Its row of the accumulator and of every candidate. *)
Record Share := { sh_prefix : list f32; sh_blocks : list (list f32) }.
Definition share_of (x : list f32) : Share := {| sh_prefix := x; sh_blocks := [] |}.
Definition cands_of (t : Share) : list (list f32) := sh_blocks t ++ [sh_prefix t].

(** The state of a block of tokens, [nb] candidates each. *)
Definition shared (nb : nat) (have : bool) (bs : nat) (ts : list Share) : AttnResState :=
  {| ar_prefix := concat (map sh_prefix ts);
     ar_blocks := map (fun b => concat (map (fun t => nth b (sh_blocks t) []) ts)) (seq 0 nb);
     ar_have_prefix := have; ar_bs := bs |}.
Record share_ok (d nb : nat) (t : Share) : Prop := {
  sk_prefix : length (sh_prefix t) = d;
  sk_count : length (sh_blocks t) = nb;
  sk_blocks : Forall (fun b => length b = d) (sh_blocks t)
}.

(** What a layer makes of it: a snapshot first or not, then its output. *)
Definition take_in (snap : bool) (t : Share) (out : list f32) : Share :=
  if snap then {| sh_prefix := out; sh_blocks := cands_of t |}
  else {| sh_prefix := f32_zip f32_add (sh_prefix t) out; sh_blocks := sh_blocks t |}.

Section Shares.
Context (d : nat).

Lemma candidates_width nb t : share_ok d nb t -> Forall (fun v => length v = d) (cands_of t).
Proof. intros []. apply Forall_app. split; [done|by constructor]. Qed.

Lemma nth_block nb t b : share_ok d nb t -> b < nb -> length (nth b (sh_blocks t) []) = d.
Proof.
  intros [_ Hn Hb] Hlt. destruct (lookup_lt_is_Some_2 (sh_blocks t) b) as [x Hx]; [lia|].
  rewrite (nth_lookup_Some _ _ _ _ Hx). rewrite Forall_lookup in Hb. by eapply Hb.
Qed.

Lemma apply_shares expf nb have bs ts norm proj ep : length norm = d -> length proj = d -> Forall (share_ok d nb) ts ->
  apply_attn_res expf (ar_prefix (shared nb have bs ts)) (ar_blocks (shared nb have bs ts)) norm proj ep (length ts) d =
    Some (concat (map (fun t => attn_res_row expf (f32_zip f32_mul norm proj) ep d (cands_of t)) ts)).
Proof.
  intros Hn Hp Hts. unfold apply_attn_res. rewrite Hn, Hp, Nat.eqb_refl. cbn [andb negb]. cbv zeta.
  set (sw := f32_zip f32_mul norm proj). set (f := fun i : nat => _).
  assert (mapM f (seq 0 (length ts)) = Some (map (fun t => attn_res_row expf sw ep d (cands_of t)) ts)) as ->; [|done].
  apply mapM_Some, Forall2_same_length_lookup_2; [by rewrite length_map, length_seq|]. intros i k y Hi Hy.
  apply lookup_seq in Hi as [-> Hi]. change (map ?g ts) with (g <$> ts) in Hy. rewrite list_lookup_fmap in Hy.
  destruct (ts !! i) as [t|] eqn:Ht; [|done]. injection Hy as <-. unfold f. cbn [Nat.add].
  assert (mapM (fun v => row_at d v i) (ar_blocks (shared nb have bs ts) ++ [ar_prefix (shared nb have bs ts)]) = Some (cands_of t)) as ->; [|done].
  rewrite Forall_lookup in Hts. pose proof (Hts i t Ht) as Hok.
  apply mapM_Some. unfold cands_of. apply Forall2_app; [|constructor; [|constructor]]; cbn.
  - apply Forall2_same_length_lookup_2; [rewrite length_map, length_seq; by destruct Hok|]. intros b v r Hb Hr.
    change (map ?g (seq 0 nb)) with (g <$> seq 0 nb) in Hb. rewrite list_lookup_fmap in Hb.
    destruct (seq 0 nb !! b) as [b'|] eqn:Es; [|done]. apply lookup_seq in Es as [-> Es]. injection Hb as <-. cbn [Nat.add].
    apply concat_row.
    + apply Forall_map, Forall_lookup. intros j t' Hj. apply (nth_block nb); [by eapply Hts|done].
    + change (map ?g ts) with (g <$> ts). rewrite list_lookup_fmap, Ht. cbn. f_equal. by apply nth_lookup_Some.
  - apply concat_row.
    + apply Forall_map, Forall_lookup. intros j t' Hj. by destruct (Hts j t' Hj).
    + change (map ?g ts) with (g <$> ts). by rewrite list_lookup_fmap, Ht.
Qed.

Lemma attn_res_row_length expf sw ep nb t : share_ok d nb t -> length (attn_res_row expf sw ep d (cands_of t)) = d.
Proof. intros H. apply mix_values_length. by eapply candidates_width. Qed.

Lemma zip_rows (xs ys : list (list f32)) : Forall (fun x => length x = d) xs -> Forall (fun x => length x = d) ys -> length xs = length ys ->
  f32_zip f32_add (concat xs) (concat ys) ++ drop (length (concat ys)) (concat xs) = concat (zip_with (f32_zip f32_add) xs ys).
Proof.
  intros Hx Hy Hl. rewrite drop_ge, app_nil_r by (rewrite !(concat_len d) by done; lia). unfold f32_zip.
  revert ys Hy Hl. induction Hx as [|x xs Hx _ IH]; intros [|y ys] Hy Hl; try done. apply Forall_cons in Hy as [Hy Hys].
  cbn. rewrite combine_app_eq, map_app by lia. f_equal. apply IH; [done|by injection Hl].
Qed.

(** Adding to the accumulator of a block is adding to every token's. *)
Lemma add_shares nb bs ts outs : Forall (share_ok d nb) ts -> Forall (fun o => length o = d) outs -> length ts = length outs ->
  accumulate (shared nb true bs ts) (concat outs) = Some (shared nb true bs (zip_with (take_in false) ts outs)).
Proof.
  intros Hts Ho Hl. assert (Forall (fun x => length x = d) (map sh_prefix ts)) as Hp.
  { apply Forall_map. eapply Forall_impl; [exact Hts|]. by intros t []. }
  unfold accumulate. cbn [ar_have_prefix ar_prefix ar_blocks ar_bs shared]. f_equal. unfold shared. f_equal.
  - rewrite zip_rows by (done || by rewrite length_map). f_equal. clear. revert outs. induction ts as [|t ts IH]; intros [|o outs]; try done. cbn. f_equal. apply IH.
  - apply map_ext. intros b. f_equal. clear Ho Hts Hp. revert outs Hl. induction ts as [|t ts IH]; intros [|o outs] Hl; try done. cbn. f_equal. apply IH. by injection Hl.
Qed.

(** The layer's two steps on a block are [take_in] on every token. *)
Lemma accumulate_shares nb bs li ts outs : Forall (share_ok d nb) ts -> Forall (fun o => length o = d) outs -> length ts = length outs -> ts <> [] ->
  let snap := li mod bs =? 0 in
  accumulate (maybe_snapshot (shared nb true bs ts) li) (concat outs) =
    Some (shared (if snap then S nb else nb) true bs (zip_with (take_in snap) ts outs)).
Proof.
  intros Hts Ho Hl Hne snap. assert (Forall (fun x => length x = d) (map sh_prefix ts)) as Hp.
  { apply Forall_map. eapply Forall_impl; [exact Hts|]. by intros t []. }
  unfold maybe_snapshot. cbn [ar_bs shared]. fold snap. unfold accumulate. destruct snap; cbn [ar_have_prefix ar_prefix ar_blocks ar_bs shared].
  - rewrite (concat_len d _ Ho), (concat_len d _ Hp), length_map, Hl, Nat.eqb_refl. f_equal. unfold shared. f_equal.
    + f_equal. clear Hts Hp Hne. revert ts Hl. induction Ho as [|o outs Ho _ IH]; intros [|t ts] Hl; try done. cbn. f_equal. apply IH. by injection Hl.
    + rewrite seq_S, map_app. f_equal.
      * apply map_ext_in. intros b Hb%in_seq. f_equal. clear Ho Hne Hp. revert outs Hl. induction Hts as [|t ts Ht _ IH]; intros [|o outs] Hl; try done.
        cbn [map zip_with]. f_equal; [|apply IH; by injection Hl]. cbn. unfold cands_of. rewrite app_nth1; [done|]. destruct Ht. lia.
      * cbn [map]. do 2 f_equal. clear Ho Hne Hp. revert outs Hl. induction Hts as [|t ts Ht _ IH]; intros [|o outs] Hl; try done.
        cbn [map zip_with]. f_equal; [|apply IH; by injection Hl]. cbn. unfold cands_of. destruct Ht as [_ Hn _]. rewrite app_nth2 by lia. by rewrite Hn, Nat.sub_diag.
  - by apply add_shares.
Qed.

Lemma take_in_ok nb (snap : bool) t o : share_ok d nb t -> length o = d -> share_ok d (if snap then S nb else nb) (take_in snap t o).
Proof.
  intros Ht Ho. pose proof (candidates_width nb t Ht) as Hc. destruct Ht as [H1 H2 H3]. destruct snap; split; cbn; try done.
  - unfold cands_of. rewrite length_app. cbn. lia.
  - unfold f32_zip. rewrite length_map, length_combine. lia.
Qed.
End Shares.
