(* ===== verification/Hc.v ===== *)
(** * Hyper-connections ([crates/colibri-engine/src/hc.rs])

    What DeepSeek-V4 has in place of a residual stream: [hc] copies of the
    hidden row, collapsed before a sublayer and expanded after it by weights
    that are made doubly stochastic in a fixed number of rounds.  The arrays of
    [MAX_HC] entries are lists of the entries in use. *)

From Stdlib Require Import ZifyBool ZifyNat SpecFloat.
From S2P Require Import Prelude Rows DType Math Linear.
Local Open Scope nat_scope.

Definition MAX_HC : nat := 8.
Definition mix_width (hc : nat) : nat := (2 + hc) * hc.

Lemma mix_copies_length d acc ks (cs : list (list f32)) : Forall (fun r : list f32 => length r = d) cs -> length acc = d ->
  length (foldl (fun acc '(c, r) => if SFeqb c f0 then acc else f32_zip (fun o v => f32_add o (f32_mul c v)) acc r) acc (combine ks cs)) = d.
Proof.
  intros Hcs. revert acc ks. induction Hcs as [|r cs Hlr _ IH]; intros acc [|c ks] H1; try done. cbn [combine foldl]. apply IH.
  destruct (SFeqb c f0); [done|]. unfold f32_zip. rewrite length_map, length_combine. lia.
Qed.

Section Hc.
Context (expf : f32 -> f32).

(** ** The weights *)

Definition hc_gate (mixes scale base : list f32) (i g : nat) : option f32 :=
  let* m := mixes !! i in let* s := scale !! g in let* b := base !! i in Some (f32_add (f32_mul m s) b).
Definition softmax_row (eps : f32) (row : list f32) : list f32 :=
  let m := max_of row in
  let '(es, s) := exp_sum (fun v => expf (f32_sub v m)) row in map (fun v => f32_add (f32_div v s) eps) es.
Definition colnorm (hc : nat) (eps : f32) (comb : list (list f32)) : list (list f32) :=
  let inv := map (fun k => f32_div f32_one (f32_add (f32_sum (map (fun row => nth k row f0) comb)) eps)) (seq 0 hc) in
  map (fun row => f32_zip f32_mul row inv) comb.
Definition rownorm (eps : f32) (row : list f32) : list f32 :=
  let inv := f32_div f32_one (f32_add (f32_sum row) eps) in map (fun v => f32_mul v inv) row.
Definition sinkhorn (hc iters : nat) (eps : f32) (comb : list (list f32)) : list (list f32) :=
  Nat.iter (iters - 1) (fun comb => colnorm hc eps (map (rownorm eps) comb)) (colnorm hc eps (map (softmax_row eps) comb)).

Record HcWeights := { hw_pre : list f32; hw_post : list f32; hw_comb : list (list f32) }.

(** Past [MAX_HC] the arrays overrun. *)
Definition split_sinkhorn (mixes scale base : list f32) (hc iters : nat) (eps : f32) : option HcWeights :=
  if MAX_HC <? hc then None
  else
    let* pre := mapM (fun j => let* z := hc_gate mixes scale base j 0 in Some (f32_add (sigmoid expf z) eps)) (seq 0 hc) in
    let* post := mapM (fun j => let* z := hc_gate mixes scale base (j + hc) 1 in Some (f32_mul f32_two (sigmoid expf z))) (seq 0 hc) in
    let* comb := mapM (fun j => mapM (fun k => hc_gate mixes scale base (j * hc + k + 2 * hc) 2) (seq 0 hc)) (seq 0 hc) in
    Some {| hw_pre := pre; hw_post := post; hw_comb := sinkhorn hc iters eps comb |}.

(** ** The collapse and the expansion *)

(** The reciprocal norm of all the copies. *)
Definition hc_rsqrt (x : list f32) (n : nat) (norm_eps : f32) : f32 :=
  f32_of_f64 (SFdiv 53 1024 (f64_of_nat 1) (SFsqrt 53 1024 (SFadd 53 1024 (SFdiv 53 1024 (dot64 x x) (f64_of_nat n)) (f64_of_f32 norm_eps)))).
(** [chunks_exact(n)]'s chunk [i] against the copies. *)
Definition hc_dot (x hc_fn : list f32) (n : nat) (r : f32) (i : nat) : option f32 :=
  let* row := row_at n hc_fn i in Some (f32_mul (f32_of_f64 (dot64 row x)) r).

Definition hc_weights (x hc_fn scale base : list f32) (hc d : nat) (norm_eps eps : f32) (iters : nat) : option HcWeights :=
  let n := hc * d in
  if n =? 0 then None
  else
    let r := hc_rsqrt x n norm_eps in
    split_sinkhorn (map (fun i => default f0 (hc_dot x hc_fn n r i)) (seq 0 (mix_width hc))) scale base hc iters eps.
Definition hc_pre (x hc_fn scale base : list f32) (hc d : nat) (norm_eps eps : f32) (iters : nat) : option (list f32 * HcWeights) :=
  let* w := hc_weights x hc_fn scale base hc d norm_eps eps iters in
  let* copies := each_row d hc Some x in Some (mix_values d (hw_pre w) copies, w).

Definition hc_copy (x : list f32) (copies : list (list f32)) (w : HcWeights) (k : nat) : option (list f32) :=
  let* p := hw_post w !! k in
  let* cs := mapM (fun row : list f32 => row !! k) (hw_comb w) in
  Some (foldl (fun acc '(c, r) => if SFeqb c f0 then acc else f32_zip (fun o v => f32_add o (f32_mul c v)) acc r)
          (map (f32_mul p) x) (combine cs copies)).
Definition hc_post (x residual : list f32) (w : HcWeights) (hc d : nat) : option (list f32) :=
  let* copies := each_row d hc Some residual in
  let* out := mapM (hc_copy x copies w) (seq 0 hc) in Some (concat out).

(** The collapse before the logits: a plain gate. *)
Definition hc_head (x hc_fn : list f32) (scale : f32) (base : list f32) (hc d : nat) (norm_eps eps : f32) : option (list f32) :=
  let n := hc * d in
  if n =? 0 then None
  else
    let r := hc_rsqrt x n norm_eps in
    let used := Nat.min hc (length hc_fn / n) in
    let* ws := mapM (fun i =>
      let* m := hc_dot x hc_fn n r i in let* b := base !! i in
      Some (f32_add (sigmoid expf (f32_add (f32_mul m scale) b)) eps)) (seq 0 used) in
    let* copies := each_row d used Some x in Some (mix_values d ws copies).

(** ** Totality *)

(** The weights of a collapse fit [hc] copies. *)
Definition wf_hc (scale base : list f32) (hc : nat) : Prop := 0 < hc <= MAX_HC /\ 3 <= length scale /\ mix_width hc <= length base.

Context (d hc : nat).
Abbreviation rows_of_hc := (Forall (fun r : list f32 => length r = hc)).

Lemma hc_gate_some mixes scale base i g : i < length mixes -> i < length base -> g < length scale -> is_Some (hc_gate mixes scale base i g).
Proof using expf d hc.
  intros H1 H2 H3. unfold hc_gate. destruct (lookup_lt_is_Some_2 mixes i H1) as [m ->]. destruct (lookup_lt_is_Some_2 scale g H3) as [s ->].
  destruct (lookup_lt_is_Some_2 base i H2) as [b ->]. by eexists.
Qed.

Lemma colnorm_shape ep comb : length comb = hc -> rows_of_hc comb -> length (colnorm hc ep comb) = hc /\ rows_of_hc (colnorm hc ep comb).
Proof using expf d hc.
  intros Hl Hr. unfold colnorm. split; [by rewrite length_map|]. apply Forall_map. eapply Forall_impl; [exact Hr|]. intros r Hlr. cbv beta in *.
  unfold f32_zip. rewrite length_map, length_combine, length_map, length_seq, Hlr. apply Nat.min_id.
Qed.

Lemma sinkhorn_shape iters ep comb : length comb = hc -> rows_of_hc comb -> length (sinkhorn hc iters ep comb) = hc /\ rows_of_hc (sinkhorn hc iters ep comb).
Proof using expf d hc.
  intros Hl Hr. unfold sinkhorn.
  assert (forall f, (forall r : list f32, length (f r) = length r) -> forall c, length c = hc -> rows_of_hc c -> length (map f c) = hc /\ rows_of_hc (map f c)) as Hm.
  { intros f Hf c Hc Hrc. split; [by rewrite length_map|]. apply Forall_map. eapply Forall_impl; [exact Hrc|]. intros r Hlr. cbv beta in *. by rewrite Hf. }
  induction (iters - 1) as [|n IH]; cbn [Nat.iter nat_rect].
  - apply colnorm_shape; apply (Hm (softmax_row ep)); try done; intros r; unfold softmax_row, exp_sum; by rewrite !length_map.
  - destruct IH as [I1 I2]. apply colnorm_shape; apply (Hm (rownorm ep)); try done; intros r; unfold rownorm; by rewrite length_map.
Qed.

Record weights_ok (w : HcWeights) : Prop := {
  wo_pre : length (hw_pre w) = hc; wo_post : length (hw_post w) = hc; wo_comb : length (hw_comb w) = hc; wo_rows : rows_of_hc (hw_comb w)
}.

Lemma hc_weights_some x hc_fn scale base norm_eps eps iters : wf_hc scale base hc -> 0 < d ->
  exists w, hc_weights x hc_fn scale base hc d norm_eps eps iters = Some w /\ weights_ok w.
Proof using expf d hc.
  intros (Hhc & Hs & Hb) Hd. unfold hc_weights. destruct (Nat.eqb_spec (hc * d) 0); [nia|]. set (mixes := map _ _).
  assert (length mixes = mix_width hc) as Lm by (unfold mixes; by rewrite length_map, length_seq).
  unfold split_sinkhorn. destruct (Nat.ltb_spec MAX_HC hc); [lia|]. unfold mix_width in *.
  destruct (mapM_all (fun j => let* z := hc_gate mixes scale base j 0 in Some (f32_add (sigmoid expf z) eps)) (fun _ => True) (seq 0 hc)) as (pre & -> & _ & Lp).
  { intros j Hj%elem_of_seq. destruct (hc_gate_some mixes scale base j 0) as [z ->]; [nia..|]. by eexists. }
  destruct (mapM_all (fun j => let* z := hc_gate mixes scale base (j + hc) 1 in Some (f32_mul f32_two (sigmoid expf z))) (fun _ => True) (seq 0 hc)) as (post & -> & _ & Lq).
  { intros j Hj%elem_of_seq. destruct (hc_gate_some mixes scale base (j + hc) 1) as [z ->]; [nia..|]. by eexists. }
  destruct (mapM_all (fun j => mapM (fun k => hc_gate mixes scale base (j * hc + k + 2 * hc) 2) (seq 0 hc)) (fun r : list f32 => length r = hc) (seq 0 hc)) as (comb & -> & Hr & Lc).
  { intros j Hj%elem_of_seq. destruct (mapM_all (fun k => hc_gate mixes scale base (j * hc + k + 2 * hc) 2) (fun _ => True) (seq 0 hc)) as (r & -> & _ & Lr).
    - intros k Hk%elem_of_seq. assert (j * hc + k < hc * hc) by nia. destruct (hc_gate_some mixes scale base (j * hc + k + 2 * hc) 2) as [z ->]; [lia..|]. by eexists.
    - eexists. split; [done|]. by rewrite length_seq in Lr. }
  rewrite length_seq in Lp, Lq, Lc. cbv beta iota. eexists. split; [done|]. destruct (sinkhorn_shape iters eps comb Lc Hr). by split.
Qed.

(** The [hc] copies of a row. *)
Lemma copies_some x : length x = hc * d -> exists cs, each_row d hc Some x = Some cs /\ length cs = hc /\ Forall (fun r : list f32 => length r = d) cs.
Proof using expf d hc.
  intros Hx. destruct (mapM_all (fun i => let* r := range x (i * d) ((i + 1) * d) in Some r) (fun r : list f32 => length r = d) (seq 0 hc)) as (cs & E & Hr & Hl).
  { intros i Hi%elem_of_seq. rewrite range_some by nia. eexists. split; [done|]. rewrite length_take, length_drop. nia. }
  exists cs. rewrite length_seq in Hl. by split_and!.
Qed.

Lemma hc_pre_some x hc_fn scale base norm_eps eps iters : wf_hc scale base hc -> 0 < d -> length x = hc * d ->
  exists y w, hc_pre x hc_fn scale base hc d norm_eps eps iters = Some (y, w) /\ length y = d /\ weights_ok w.
Proof using expf d hc.
  intros W Hd Hx. unfold hc_pre. destruct (hc_weights_some x hc_fn scale base norm_eps eps iters W Hd) as (w & -> & Hw).
  destruct (copies_some x Hx) as (cs & -> & _ & Hr). eexists _, _. split; [done|]. split; [by apply mix_values_length|done].
Qed.

Lemma hc_post_some x residual w : weights_ok w -> length x = d -> length residual = hc * d ->
  exists y, hc_post x residual w hc d = Some y /\ length y = hc * d.
Proof using expf d hc.
  intros [Hp Hq Hc Hr] Hx Hres. unfold hc_post. destruct (copies_some residual Hres) as (cs & -> & Lcs & Hcs). cbv beta iota.
  destruct (mapM_all (hc_copy x cs w) (fun r : list f32 => length r = d) (seq 0 hc)) as (out & -> & Ho & Lo).
  { intros k Hk%elem_of_seq. unfold hc_copy. destruct (lookup_lt_is_Some_2 (hw_post w) k) as [p ->]; [lia|].
    destruct (mapM_all (fun row : list f32 => row !! k) (fun _ => True) (hw_comb w)) as (ks & -> & _ & Lks).
    { intros r Hin. rewrite Forall_forall in Hr. specialize (Hr r Hin). destruct (lookup_lt_is_Some_2 r k) as [z ->]; [lia|]. by eexists. }
    eexists. split; [done|]. apply mix_copies_length; [done|by rewrite length_map]. }
  rewrite length_seq in Lo. eexists. split; [done|]. by rewrite (concat_len d), Lo.
Qed.

Lemma hc_head_some x hc_fn scale base norm_eps eps : 0 < hc -> 0 < d -> length x = hc * d -> hc <= length base ->
  exists y, hc_head x hc_fn scale base hc d norm_eps eps = Some y /\ length y = d.
Proof using expf d hc.
  intros Hhc Hd Hx Hb. unfold hc_head. destruct (Nat.eqb_spec (hc * d) 0); [nia|]. cbv zeta. set (used := Nat.min hc _).
  assert (used <= hc /\ used * (hc * d) <= length hc_fn) as [H1 H2].
  { unfold used. split; [lia|]. pose proof (Nat.Div0.mul_div_le (length hc_fn) (hc * d)). nia. }
  match goal with |- context [mapM ?f (seq 0 used)] => destruct (mapM_all f (fun _ => True) (seq 0 used)) as (ws & -> & _) end.
  { intros i Hi%elem_of_seq. unfold hc_dot, row_at. rewrite range_some by nia. destruct (lookup_lt_is_Some_2 base i) as [b ->]; [lia|]. by eexists. }
  destruct (mapM_all (fun i => let* r := range x (i * d) ((i + 1) * d) in Some r) (fun r : list f32 => length r = d) (seq 0 used)) as (cs & E & Hr & Hl).
  { intros i Hi%elem_of_seq. rewrite range_some by nia. eexists. split; [done|]. rewrite length_take, length_drop. nia. }
  unfold each_row. rewrite E. eexists. split; [done|]. by apply mix_values_length.
Qed.
End Hc.
