(* ===== verification/Platform.v ===== *)
(** * The platform and the process

    What the passes take from outside the engine's own code: the platform's
    elementary functions, and the settings a process reads from its environment
    once. *)

From S2P Require Import Prelude DType Math Sharding Moe.

Record Platform := {
  pf_exp : f32 -> f32; pf_tanh : f32 -> f32; pf_sin : f32 -> f32; pf_cos : f32 -> f32; pf_pow : f32 -> f32 -> f32;
  pf_ln : f32 -> f32; pf_ln_1p : f32 -> f32; pf_log2 : f32 -> f32; pf_exp2 : f32 -> f32;
  (** COLI_M3_SPARSE, COLI_DSA and its threshold, COLI_TP_ATTN, COLI_CONV_HIST. *)
  pf_m3_sparse : bool; pf_dsa : bool; pf_dsa_min : nat; pf_tp_attn : bool; pf_conv_skip : bool;
  (** COLI_DSV4_COMPRESS, COLI_DSV4_INDEXER, COLI_DSV4_INDEX_TOPK,
      COLI_DSV4_KV_BUDGET_MB, COLI_DSV4_CHUNK. *)
  pf_v4_compress : bool; pf_v4_indexer : bool; pf_v4_index_topk : option nat; pf_v4_budget : option (list Z); pf_v4_chunk : option (list Z);
  (** The activation and the cluster. *)
  pf_act : ActCfg; pf_cluster : option ExpertSharding
}.
