(* ===== verification/Dsv4Layer.v ===== *)
(** * DeepSeek-V4's stack ([crates/colibri-engine/src/forward.rs])

    The projections of a layer's attention, the Indexer's choice of compressed
    rows, the grouped output projection, a layer of two hyper-connected
    sublayers, and the forward pass, whole or in chunks.  The attention between
    the projections is [Dsv4Attn.dsv4_attention].  The CUDA attention core, the
    counters and the debug output are not modelled; scratch buffers are
    overwritten before they are read. *)

From Stdlib Require Import ZifyBool ZifyNat SpecFloat.
From S2P Require Import Prelude Rows DType Math Linear Usage Config Model Moe KvCache Hc Dsv4Num Dsv4 Dsv4Attn Dsv4Moe Platform.
Local Open Scope nat_scope.

(** [per_head_rms]: panics on a width of zero. *)
Definition per_head_rms (q : list f32) (head_dim : nat) (eps : f32) : option (list f32) :=
  let* heads := chunks_exact head_dim q in
  Some (concat (map (fun h => per_head_rms_one h eps) heads) ++ drop (length q / head_dim * head_dim) q).

(** [embed_row] into a row of width [d]; a negative token is out of range. *)
Definition embed_token (m : Model) (tok : Z) : option (list f32) :=
  if (tok <? 0)%Z || negb (cols_of (m_embed m) =? Z.to_nat (hidden (m_cfg m))) then None
  else embed_row (m_embed m) (Z.to_nat tok).

Section Dsv4.
Context (pf : Platform) (c : Config).

Abbreviation d := (Z.to_nat (hidden c)).
Abbreviation h := (len_of (n_heads c)).
Abbreviation hd := (len_of (qk_head c)).
Abbreviation rd := (len_of (qk_rope c)).
Abbreviation ql := (len_of (q_lora c)).
Abbreviation g := (Z.to_nat (Z.max (o_groups c) 1)).
Abbreviation rank := (len_of (o_lora c)).
Abbreviation hc := (Z.to_nat (hc_mult c)).

(** Every head of every token rotated to the token's position. *)
Definition rope_heads (nh w s pos_base : nat) (cos sin : list f32) (inverse : bool) (q : list f32) : option (list f32) :=
  let* rows := mapM (fun i =>
    let* (cs, sn) := v4_rope_rows cos sin (pos_base + i) (rd / 2) in
    let* heads := mapM (fun hh => let* v := range q ((i * nh + hh) * w) ((i * nh + hh) * w + w) in
                                  rope_interleaved v cs sn rd inverse) (seq 0 nh) in
    Some (concat heads)) (seq 0 s) in
  Some (concat rows).

(** ** Projections *)

(** The queries, and the low-rank rows they and the Indexer's queries come from. *)
Definition v4_q_lat (l : Layer) (xn : list f32) (s : nat) : option (list f32) :=
  let* q_lat := matmul_qt (s * ql) xn (l_q_a l) s in
  let* rows := each_row ql s (fun r => rmsnorm r (l_q_a_ln l) (eps c)) q_lat in Some (concat rows).
Definition v4_queries (l : Layer) (q_lat : list f32) (s pos_base : nat) (cos sin : list f32) : option (list f32) :=
  let* q := matmul_qt (s * h * hd) q_lat (l_q_b l) s in
  let* q := per_head_rms q hd (eps c) in
  rope_heads h hd s pos_base cos sin false q.

(** The latent rows: both key and value; all but the rotated part is rounded. *)
Definition v4_latent (l : Layer) (cs sn r : list f32) : option (list f32) :=
  let* r := rmsnorm r (l_kv_a_ln l) (eps c) in
  let* r := rope_interleaved r cs sn rd false in
  let* z := act_quant_sim (pf_log2 pf) (pf_exp2 pf) (take (hd - rd) r) 64 in Some (z ++ drop (hd - rd) r).
Definition v4_latents (l : Layer) (xn : list f32) (s pos_base : nat) (cos sin : list f32) : option (list (list f32)) :=
  let* kvt := matmul_qt (s * hd) xn (l_kv_a l) s in
  mapM (fun i =>
    let* r := row_at hd kvt i in
    let* (cs, sn) := v4_rope_rows cos sin (pos_base + i) (rd / 2) in v4_latent l cs sn r) (seq 0 s).

(** The part of the layer's weights the attention uses. *)
Definition v4_attn (l : Layer) : LayerAttn := {|
  la_ratio := if pf_v4_compress pf then len_of (l_comp_ratio l) else 0;
  la_pool := match l_comp_wkv l, l_comp_wgate l with Some _, Some _ => (0 <? l_comp_ratio l)%Z | _, _ => false end;
  la_cw := match l_comp_wkv l with Some w => Linear.rows_of w | None => 0 end;
  la_ape := l_comp_ape l; la_norm := l_comp_norm l; la_sink := l_attn_sink l
|}.
(** The Compressor's rows: none when it does not run. *)
Definition v4_comp_rows (l : Layer) (xn : list f32) (s : nat) : option (list (list f32) * list (list f32)) :=
  match l_comp_wkv l, l_comp_wgate l with
  | Some wkv, Some wgate =>
      if (0 <? la_ratio (v4_attn l)) && la_pool (v4_attn l) then
        let cw := Linear.rows_of wkv in
        let* ckv := matmul_qt (s * cw) xn wkv s in
        let* csc := matmul_qt (s * cw) xn wgate s in
        let* kvs := each_row cw s Some ckv in let* gates := each_row cw s Some csc in Some (kvs, gates)
      else Some (replicate s [], replicate s [])
  | _, _ => Some (replicate s [], replicate s [])
  end.

Definition v4_tokens (l : Layer) (xn q_lat : list f32) (s pos_base : nat) (cos sin : list f32) : option (list Token) :=
  let* q := v4_queries l q_lat s pos_base cos sin in
  let* qs := each_row (h * hd) s Some q in
  let* lats := v4_latents l xn s pos_base cos sin in
  let* (kvs, gates) := v4_comp_rows l xn s in
  mapM (fun i =>
    let* lat := lats !! i in let* kv := kvs !! i in let* gate := gates !! i in let* q := qs !! i in
    Some {| tk_lat := lat; tk_kv := kv; tk_gate := gate; tk_q := q |}) (seq 0 s).

(** ** The Indexer *)

(** A pooled row, normed, rotated and rounded. *)
Definition idx_finish (l : Layer) (ratio ihd : nat) (ccos csin : list f32) (b : nat) (r : list f32) : option (list f32) :=
  let half := rd / 2 in
  let* nr := rmsnorm r (l_idx_comp_norm l) (eps c) in
  let p := b * ratio in
  let* nr :=
    if (p + 1) * half <=? length ccos then
      let* (cs, sn) := v4_rope_rows ccos csin p half in rope_interleaved nr cs sn rd false
    else Some nr in
  let* nr := hadamard_rotate (pf_pow pf) nr ihd in fp4_act_quant_sim (pf_exp2 pf) nr 32.
Fixpoint push_iblocks (l : Layer) (ratio ihd : nat) (ccos csin : list f32) (kv : KvCache) (li b : nat) (rows : list (list f32)) : option KvCache :=
  match rows with
  | [] => Some kv
  | r :: rows =>
      let* nr := idx_finish l ratio ihd ccos csin b r in
      let* kv := icomp_push kv li nr in
      push_iblocks l ratio ihd ccos csin kv li (b + 1) rows
  end.
(** The Indexer's own Compressor. *)
Definition idx_compress (l : Layer) (ratio : nat) (wkv wgate : QTensor) (kv : KvCache) (li : nat) (xn : list f32) (s pos_base : nat)
    (ccos csin : list f32) : option KvCache :=
  let ihd := len_of (index_hd c) in
  let cw := Linear.rows_of wkv in
  let* ckv := matmul_qt (s * cw) xn wkv s in
  let* csc := matmul_qt (s * cw) xn wgate s in
  let* (kv, rows) :=
    match mjoin (kc_icomp_state kv !! li) with
    | Some st =>
        let* (st, rows) := compress_rows (pf_exp pf) ckv csc (l_idx_comp_ape l) cw s ratio ihd pos_base st in
        Some (set_icomp kv (kc_icomp kv) (kc_icomp_len kv) (<[li := Some st]> (kc_icomp_state kv)) (kc_icomp_dim kv), rows)
    | None => Some (kv, [])
    end in
  let* held := icomp_rows kv li in
  if ihd =? 0 then None else push_iblocks l ratio ihd ccos csin kv li (length held / ihd) rows.

(** The Indexer's queries and the weights of its heads. *)
Definition idx_queries (wq_b : QTensor) (q_lat : list f32) (s pos_base : nat) (ccos csin : list f32) : option (list f32) :=
  let '(nh, ihd) := (len_of (index_nh c), len_of (index_hd c)) in
  let* q := matmul_qt (s * nh * ihd) q_lat wq_b s in
  let* q := rope_heads nh ihd s pos_base ccos csin false q in
  let* heads := each_row ihd (s * nh) (fun v =>
    let* v := hadamard_rotate (pf_pow pf) v ihd in fp4_act_quant_sim (pf_exp2 pf) v 32) q in
  Some (concat heads).
Definition idx_weights (wproj : QTensor) (xn : list f32) (s : nat) : option (list f32) :=
  let '(nh, ihd) := (len_of (index_nh c), len_of (index_hd c)) in
  let* w := matmul_qt (s * nh) xn wproj s in
  let wscale := f32_mul (pf_pow pf (f32_of_nat ihd) f32_minus_half) (pf_pow pf (f32_of_nat nh) f32_minus_half) in
  Some (map (fun v => f32_mul v wscale) w).

(** The score of compressed row [t] for query [i]. *)
Definition f32_dot (a b : list f32) : f32 := fold_left (fun acc '(x, y) => f32_add acc (f32_mul x y)) (combine a b) f0.
Definition idx_score (q w ikv : list f32) (i t : nat) : option f32 :=
  let '(nh, ihd) := (len_of (index_nh c), len_of (index_hd c)) in
  let* kr := range ikv (t * ihd) ((t + 1) * ihd) in
  for_range (fun hh acc =>
    let* qv := range q ((i * nh + hh) * ihd) ((i * nh + hh) * ihd + ihd) in
    let* wv := w !! (i * nh + hh) in
    Some (f32_add acc (f32_mul (f32_max (f32_dot qv kr) f0) wv))) 0 nh f0.

(** The cap on the rows kept. *)
Definition dsv4_index_topk : nat := match pf_v4_index_topk pf with Some n => n | None => Z.to_nat (Z.max (index_topk c) 0) end.

(** [dsv4_compress_select].  With a NaN among the scores of a query the comparison
    is not a total order and the sort promises nothing, a panic included: no
    answer. *)
Definition dsv4_compress_select (l : Layer) (li : nat) (xn q_lat : list f32) (s pos_base : nat) (ccos csin : list f32) : Selector :=
  fun kv avail =>
    let all kv := select_closed pos_base s kv avail in
    let ratio := len_of (l_comp_ratio l) in
    if negb (pf_v4_indexer pf) || (ratio =? 0) then all kv
    else
      match l_idx_wq_b l, l_idx_wproj l, l_idx_comp_wkv l, l_idx_comp_wgate l with
      | Some wq_b, Some wproj, Some cwkv, Some cwgate =>
          if negb (icomp_ready kv) then all kv
          else
            let ihd := len_of (index_hd c) in
            let* kv := idx_compress l ratio cwkv cwgate kv li xn s pos_base ccos csin in
            let* ikv := icomp_rows kv li in
            let n_ic := length ikv / ihd in
            if n_ic =? 0 then all kv
            else
              let* q := idx_queries wq_b q_lat s pos_base ccos csin in
              let* w := idx_weights wproj xn s in
              let topk := dsv4_index_topk in
              let* sel := mapM (fun i =>
                let avail := Nat.min (avail (pos_base + i)) n_ic in
                if (avail =? 0) || (topk =? 0) || (avail <=? topk) then Some (seq 0 avail)
                else
                  let* scores := mapM (idx_score q w ikv i) (seq 0 avail) in
                  if all_numbers scores then Some (index_select topk avail (fun t => nth t scores f0)) else None) (seq 0 s) in
              Some (kv, sel)
      | _, _, _, _ => all kv
      end.

(** ** The output projection *)

(** Each group's slice of every token through the group's own matrix. *)
Definition o_lora_group (s : nat) (o : list f32) (gi : nat) (wg : QTensor) (mid : list f32) : option (list f32) :=
  let dg := h * hd / g in
  let* xg := mapM (fun i => range o (i * h * hd + gi * dg) (i * h * hd + (gi + 1) * dg)) (seq 0 s) in
  let* yg := matmul_qt (s * rank) (concat xg) wg s in
  for_range (fun i mid =>
    let* y := range yg (i * rank) ((i + 1) * rank) in copy_in mid (i * g * rank + gi * rank) y) 0 s mid.
Fixpoint o_lora_groups (s : nat) (o : list f32) (gi : nat) (wgs : list QTensor) (mid : list f32) : option (list f32) :=
  match wgs with
  | [] => Some mid
  | wg :: wgs => let* mid := o_lora_group s o gi wg mid in o_lora_groups s o (gi + 1) wgs mid
  end.
Definition v4_output (l : Layer) (o : list f32) (s pos_base : nat) (cos sin : list f32) : option (list f32) :=
  let* o := rope_heads h hd s pos_base cos sin true o in
  let* mid := o_lora_groups s o 0 (l_o_a_groups l) (replicate (s * g * rank) f0) in
  let* wo_b := l_o_b l in matmul_qt (s * d) mid wo_b s.

(** The whole attention sublayer. *)
Definition v4_attention (l : Layer) (li : nat) (kv : KvCache) (xn : list f32) (s pos_base : nat) (cos sin ccos csin : list f32)
    : option (KvCache * list f32) :=
  let* q_lat := v4_q_lat l xn s in
  let* toks := v4_tokens l xn q_lat s pos_base cos sin in
  let scale := pf_pow pf (f32_of_nat hd) f32_minus_half in
  let* (kv, o) := dsv4_attention (pf_exp pf) (dims_of c) scale (v4_attn l) (dsv4_compress_select l li xn q_lat s pos_base ccos csin)
                    kv li pos_base toks ccos csin in
  let* out := v4_output l (concat (map (fun heads => concat heads) o)) s pos_base cos sin in Some (kv, out).

(** ** A layer *)

Context {E X : Type} `{!ExpertProvider E}.
Abbreviation result := (res (MoeError E X)).

(** The collapse of every token's copies, normed; the expansion. *)
Definition hc_collapse (fn scale base norm : list f32) (s : nat) (x : list f32) : option (list f32 * list HcWeights) :=
  let* pres := each_row (hc * d) s (fun r => hc_pre (pf_exp pf) r fn scale base hc d (eps c) (hc_eps c) (Z.to_nat (hc_sinkhorn_iters c))) x in
  let* rows := mapM (fun p : list f32 * HcWeights => rmsnorm p.1 norm (eps c)) pres in
  Some (concat rows, map snd pres).
Definition hc_expand (s : nat) (sub residual : list f32) (ws : list HcWeights) : option (list f32) :=
  let* rows := mapM (fun i =>
    let* y := row_at d sub i in let* r := row_at (hc * d) residual i in let* w := ws !! i in
    hc_post y r w hc d) (seq 0 s) in
  Some (concat rows).

Definition dsv4_layer_forward (kv : KvCache) (l : Layer) (li : nat) (x : list f32) (s : nat) (ids : list Z) (pos_base : nat)
    (cos sin ccos csin : list f32) : result (KvCache * list f32) :=
  let? (xn, ws) := unwrap (hc_collapse (l_hc_attn_fn l) (l_hc_attn_scale l) (l_hc_attn_base l) (l_in_ln l) s x) in
  let? (kv, sub) := unwrap (v4_attention l li kv xn s pos_base cos sin ccos csin) in
  let? x := unwrap (hc_expand s sub x ws) in
  let? (xn, ws) := unwrap (hc_collapse (l_hc_ffn_fn l) (l_hc_ffn_scale l) (l_hc_ffn_base l) (l_post_ln l) s x) in
  let? sub := dsv4_moe (pf_exp pf) (pf_tanh pf) (pf_ln_1p pf) (pf_act pf) c l li xn s ids (s * d) in
  let? x := unwrap (hc_expand s sub x ws) in
  ROk (kv, x).
End Dsv4.

(** ** The forward pass *)

Section Forward.
Context (pf : Platform) {E X : Type} `{!ExpertProvider E}.
Abbreviation result := (res (MoeError E X)).

(** The rotary tables: with interpolation for the layers with a Compressor, and
    without ([original_seq_len] 0). *)
Definition main_tables (c : Config) (n : nat) : list f32 * list f32 :=
  yarn_rope_tables (pf_pow pf) (pf_ln pf) (pf_cos pf) (pf_sin pf) (len_of (qk_rope c)) n (theta c) (f32_of_Z 16) 0 (f32_of_Z 32) f32_one.
Definition long_tables (c : Config) (n : nat) : list f32 * list f32 :=
  comp_tables (pf_pow pf) (pf_ln pf) (pf_cos pf) (pf_sin pf) c n.

(** The compressed rows of a cache that has none yet. *)
Definition v4_init (c : Config) (n_layers : nat) (kv : KvCache) : KvCache :=
  if pf_v4_compress pf && (comp_rows_len kv =? 0) then
    let kv := dsv4_comp_init (pf_v4_compress pf) c n_layers kv in
    if pf_v4_indexer pf && (0 <? index_hd c)%Z
    then icomp_init kv n_layers (compress_ratios c) 4 (len_of (index_hd c)) (len_of (max_ctx c) / 4 + 2)
    else kv
  else kv.

(** Every copy of the stream starts as the embedded row. *)
Definition v4_embed (m : Model) (ids : list Z) : option (list f32) :=
  let hc := Z.to_nat (hc_mult (m_cfg m)) in
  let* rows := mapM (embed_token m) ids in
  Some (concat (map (fun e => concat (replicate hc e)) rows)).

Definition dsv4_forward (m : Model) (kv : KvCache) (ids : list Z) (pos_base : nat) : result (KvCache * list f32) :=
  let c := m_cfg m in
  let '(d, hc, s) := (Z.to_nat (hidden c), Z.to_nat (hc_mult c), length ids) in
  let n := Nat.max (pos_base + s) 1 in
  let '(ccos, csin) := long_tables c n in
  let '(ncos, nsin) := main_tables c n in
  let kv := v4_init c (length (m_layers m)) kv in
  let? x := unwrap (v4_embed m ids) in
  let? (kv, x) := for_each (fun '(kv, x) '(li, l) =>
    let '(mcos, msin) := if (0 <? ratio_at (compress_ratios c) li)%Z then (ccos, csin) else (ncos, nsin) in
    dsv4_layer_forward pf c kv l li x s ids pos_base mcos msin ccos csin) (imap pair (m_layers m)) (kv, x) in
  let? rows := unwrap (each_row (hc * d) s (fun r =>
    hc_head (pf_exp pf) r (m_hc_head_fn m) (m_hc_head_scale m) (m_hc_head_base m) hc d (eps c) (hc_eps c)) x) in
  ROk (kv, concat rows).

(** The calls of a chunked pass, each at the position the one before reached. *)
Fixpoint chunk_calls (m : Model) (kv : KvCache) (ids : list Z) (pos_base : nat) (sizes : list nat) : result (KvCache * list (list f32)) :=
  match sizes with
  | [] => ROk (kv, [])
  | n :: sizes =>
      let? (kv, y) := dsv4_forward m kv (take n ids) pos_base in
      let? (kv, ys) := chunk_calls m kv (drop n ids) (pos_base + n) sizes in ROk (kv, y :: ys)
  end.
Definition dsv4_forward_chunked (m : Model) (kv : KvCache) (ids : list Z) (pos_base : nat) (chunk : Z) : result (KvCache * list f32) :=
  let chunk := Z.max chunk 1 in
  if (Z.of_nat (length ids) <=? chunk)%Z then dsv4_forward m kv ids pos_base
  else
    let? (kv, ys) := chunk_calls m kv ids pos_base (chunk_sizes (length ids) (Z.to_nat chunk)) in ROk (kv, concat ys).
End Forward.
