(* ===== verification/Dsv4Stack.v ===== *)
(** * DeepSeek-V4's passes do not depend on their chunks

    Each part of [Dsv4Layer.v] on a block of tokens is that part on each token at
    its position; the Indexer of a layer picks, call after call, the rows it would
    pick over the whole text ([picked], the best of the closed ones); and a layer
    turns the stream of a text into a stream. *)

From Stdlib Require Import ZifyBool ZifyNat SpecFloat.
From S2P Require Import Prelude Rows DType Math Linear Usage Config Model Moe MoeBatch KvCache Hc Dsv4Num Dsv4 Dsv4Store Dsv4Attn Dsv4Moe Platform Dsv4Layer.
Local Open Scope nat_scope.

Section Rows.
Context (pf : Platform) (c : Config).
Local Set Default Proof Using "Type".

Abbreviation d := (Z.to_nat (hidden c)).
Abbreviation h := (len_of (n_heads c)).
Abbreviation hd := (len_of (qk_head c)).
Abbreviation rd := (len_of (qk_rope c)).
Abbreviation ql := (len_of (q_lora c)).
Abbreviation g := (Z.to_nat (Z.max (o_groups c) 1)).
Abbreviation rank := (len_of (o_lora c)).
Abbreviation rows := (list (list f32)).
Definition wide_rows (w : nat) (xs : rows) : Prop := Forall (fun x => length x = w) xs.

(** ** Rotated heads *)

Definition heads_of (w nh : nat) (r : list f32) : rows := map (fun hh => take w (drop (hh * w) r)) (seq 0 nh).
Definition rope_head (cs sn : list f32) (inverse : bool) (v : list f32) : list f32 := default [] (rope_interleaved v cs sn rd inverse).
Definition roped (w nh : nat) (cs sn : list f32) (inverse : bool) (r : list f32) : list f32 :=
  concat (map (rope_head cs sn inverse) (heads_of w nh r)).

(** Tables that hold the rows of [n] positions. *)
Definition holds_rows (n : nat) (cos sin : list f32) (cr sr : nat -> list f32) : Prop :=
  forall p, p < n -> v4_rope_rows cos sin p (rd / 2) = Some (cr p, sr p) /\ length (cr p) = rd / 2 /\ length (sr p) = rd / 2.

Lemma heads_of_wide w nh r : length r = nh * w -> wide_rows w (heads_of w nh r) /\ length (heads_of w nh r) = nh.
Proof.
  intros Hr. unfold heads_of, wide_rows. split; [|by rewrite length_map, length_seq]. apply Forall_map, Forall_forall.
  intros hh Hh%elem_of_seq. rewrite length_take, length_drop. nia.
Qed.

Lemma rope_head_length cs sn inv v : rd <= length v -> length cs = rd / 2 -> length sn = rd / 2 ->
  rope_interleaved v cs sn rd inv = Some (rope_head cs sn inv v) /\ length (rope_head cs sn inv v) = length v.
Proof.
  intros Hv Hc Hs. unfold rope_head. destruct (rope_some v cs sn rd inv Hv Hc Hs) as (y & -> & Hy). done.
Qed.

Lemma roped_length w nh cs sn inv r : length r = nh * w -> rd <= w -> length cs = rd / 2 -> length sn = rd / 2 ->
  length (roped w nh cs sn inv r) = nh * w.
Proof.
  intros Hr Hw Hc Hs. destruct (heads_of_wide w nh r Hr) as [Hh Hn]. unfold roped. rewrite (concat_len w).
  - by rewrite length_map, Hn.
  - apply Forall_map. eapply Forall_impl; [exact Hh|]. intros v Hv. cbn in *. destruct (rope_head_length cs sn inv v) as [_ ->]; [lia|done..].
Qed.

Lemma rope_heads_rows nh w pos n cos sin cr sr inv (rs : rows) : holds_rows n cos sin cr sr -> pos + length rs <= n -> rd <= w ->
  wide_rows (nh * w) rs ->
  rope_heads c nh w (length rs) pos cos sin inv (concat rs) = Some (concat (imap (fun i r => roped w nh (cr (pos + i)) (sr (pos + i)) inv r) rs)).
Proof.
  intros Ht Hn Hw Hr. unfold rope_heads.
  erewrite (mapM_seq_imap _ (fun i r => roped w nh (cr (pos + i)) (sr (pos + i)) inv r)); [done|].
  intros i r Hi. pose proof (lookup_lt_Some _ _ _ Hi). destruct (Ht (pos + i) ltac:(lia)) as (-> & Lc & Ls). cbv beta iota.
  assert (length r = nh * w) as Lr by (unfold wide_rows in Hr; rewrite Forall_lookup in Hr; by eapply Hr).
  assert (mapM (fun hh => let* v := range (concat rs) ((i * nh + hh) * w) ((i * nh + hh) * w + w) in
      rope_interleaved v (cr (pos + i)) (sr (pos + i)) rd inv) (seq 0 nh) = Some (map (rope_head (cr (pos + i)) (sr (pos + i)) inv) (heads_of w nh r))) as ->; [|done].
  unfold heads_of. rewrite map_map. rewrite <- mapM_map. apply mapM_ext_in. intros hh Hh%elem_of_seq.
  rewrite (sub_row nh w (concat rs) r i hh) by (lia || by apply concat_row). cbv beta iota.
  destruct (rope_head_length (cr (pos + i)) (sr (pos + i)) inv (take w (drop (hh * w) r))) as [-> _]; [|done..].
  rewrite length_take, length_drop. nia.
Qed.

(** ** One token through the projections *)

Section Layer.
Context (l : Layer).

(** What the loader checks of a layer, as far as the attention goes. *)
Record wf_v4 : Prop := {
  wv_dims : 0 < d /\ 0 < hd /\ rd <= hd;
  wv_q_a : wf_qt (l_q_a l) d ql /\ ql <= length (l_q_a_ln l);
  wv_q_b : wf_qt (l_q_b l) ql (h * hd);
  wv_kv : wf_qt (l_kv_a l) d hd /\ hd <= length (l_kv_a_ln l);
  wv_sink : length (l_attn_sink l) = h;
  wv_norm : length (l_comp_norm l) = hd;
  wv_comp : 0 < la_ratio (v4_attn pf l) -> exists wkv wgate, l_comp_wkv l = Some wkv /\ l_comp_wgate l = Some wgate /\
    (0 < l_comp_ratio l)%Z /\ let w := width (la_ratio (v4_attn pf l)) hd in
    wf_qt wkv d w /\ wf_qt wgate d w /\ length (l_comp_ape l) = la_ratio (v4_attn pf l) * w;
  wv_groups : length (l_o_a_groups l) = g /\ h * hd = g * (h * hd / g) /\
    Forall (fun w => wf_qt w (h * hd / g) rank) (l_o_a_groups l);
  wv_o_b : exists w, l_o_b l = Some w /\ wf_qt w (g * rank) d
}.

Definition norm_of (w x : list f32) : list f32 := default [] (rmsnorm x w (eps c)).
Definition lat_row (x : list f32) : list f32 := norm_of (l_q_a_ln l) (matvec (l_q_a l) x).
(** The queries before their rotation. *)
Definition head_norms (r : list f32) : list f32 := concat (map (fun v => per_head_rms_one v (eps c)) (heads_of hd h r)).
Definition query_row (x : list f32) : list f32 := head_norms (matvec (l_q_b l) (lat_row x)).
Definition kv_row (cs sn x : list f32) : list f32 := default [] (v4_latent pf c l cs sn (matvec (l_kv_a l) x)).
Definition comp_row_of (w : option QTensor) (x : list f32) : list f32 :=
  if (0 <? la_ratio (v4_attn pf l)) && la_pool (v4_attn pf l) then match w with Some w => matvec w x | None => [] end else [].
Definition token_at (cs sn x : list f32) : Token := {|
  tk_lat := kv_row cs sn x; tk_kv := comp_row_of (l_comp_wkv l) x; tk_gate := comp_row_of (l_comp_wgate l) x;
  tk_q := roped hd h cs sn false (query_row x)
|}.

Lemma norm_of_some w x : length x <= length w -> rmsnorm x w (eps c) = Some (norm_of w x) /\ length (norm_of w x) = length x.
Proof. intros Hx. unfold norm_of. destruct (rmsnorm_total x w (eps c) Hx) as (y & -> & Hy). done. Qed.

(** What the attention's output of one token becomes. *)
Abbreviation dg := (h * hd / g).
Fixpoint mid_from (gi : nat) (wgs : list QTensor) (r m : list f32) : list f32 :=
  match wgs with
  | [] => m
  | wg :: wgs => mid_from (gi + 1) wgs r (blit m (gi * rank) (matvec wg (take dg (drop (gi * dg) r))))
  end.
Definition out_row (cs sn r : list f32) : list f32 :=
  let r := roped hd h cs sn true r in
  match l_o_b l with Some w => matvec w (mid_from 0 (l_o_a_groups l) r (replicate (g * rank) f0)) | None => [] end.

Context (W : wf_v4).
Local Set Default Proof Using "All".

Lemma lat_row_spec x : length x = d -> rmsnorm (matvec (l_q_a l) x) (l_q_a_ln l) (eps c) = Some (lat_row x) /\ length (lat_row x) = ql.
Proof.
  intros Hx. destruct (wv_q_a W) as [Hq Hn]. pose proof (matvec_length _ d ql x Hq) as Hl.
  destruct (norm_of_some (l_q_a_ln l) (matvec (l_q_a l) x)) as [H1 H2]; [lia|]. split; [done|]. unfold lat_row. lia.
Qed.

Lemma head_norms_length r : length r = h * hd -> length (head_norms r) = h * hd.
Proof.
  intros Hr. destruct (heads_of_wide hd h r Hr) as [Hw Hn]. unfold head_norms. rewrite (concat_len hd); [by rewrite length_map, Hn|].
  apply Forall_map. eapply Forall_impl; [exact Hw|]. intros v Hv. unfold compose, per_head_rms_one. by rewrite length_map.
Qed.

Lemma query_row_length x : length (query_row x) = h * hd.
Proof. apply head_norms_length, (matvec_length _ ql), (wv_q_b W). Qed.

Lemma kv_row_spec cs sn x : length x = d -> length cs = rd / 2 -> length sn = rd / 2 ->
  v4_latent pf c l cs sn (matvec (l_kv_a l) x) = Some (kv_row cs sn x) /\ length (kv_row cs sn x) = hd.
Proof.
  intros Hx Hc Hs. destruct (wv_kv W) as [Hq Hn]. destruct (wv_dims W) as (_ & _ & Hrd).
  pose proof (matvec_length _ d hd x Hq) as Hl. unfold kv_row, v4_latent.
  destruct (norm_of_some (l_kv_a_ln l) (matvec (l_kv_a l) x)) as [-> H2]; [lia|].
  destruct (rope_some (norm_of (l_kv_a_ln l) (matvec (l_kv_a l) x)) cs sn rd false) as (r & -> & Hr); [lia|done|done|].
  destruct (act_quant_some (pf_log2 pf) (pf_exp2 pf) (take (hd - rd) r)) as (z & -> & Hz). cbn. split; [done|].
  rewrite length_app, Hz, length_take, length_drop. lia.
Qed.

Lemma comp_row_length x : 0 < la_ratio (v4_attn pf l) ->
  length (comp_row_of (l_comp_wkv l) x) = width (la_ratio (v4_attn pf l)) hd /\
  length (comp_row_of (l_comp_wgate l) x) = width (la_ratio (v4_attn pf l)) hd.
Proof.
  intros Hr. destruct (wv_comp W Hr) as (wkv & wgate & E1 & E2 & Hp & W1 & W2 & _). unfold comp_row_of. rewrite (proj2 (Nat.ltb_lt _ _) Hr).
  unfold v4_attn at 1 3. cbn [la_pool]. rewrite E1, E2, (proj2 (Z.ltb_lt _ _) Hp). cbn [andb].
  split; by apply (matvec_length _ d).
Qed.

Lemma q_lat_rows (xs : rows) : wide_rows d xs -> v4_q_lat c l (concat xs) (length xs) = Some (concat (map lat_row xs)) /\ wide_rows ql (map lat_row xs).
Proof.
  intros Hx. destruct (wv_q_a W) as [Hq _]. unfold v4_q_lat. rewrite (matmul_qt_wf (l_q_a l) d ql) by done. cbv beta iota.
  split.
  - rewrite <- (length_map (matvec (l_q_a l)) xs), each_row_concat.
    + assert (mapM (fun r => rmsnorm r (l_q_a_ln l) (eps c)) (map (matvec (l_q_a l)) xs) = Some (map lat_row xs)) as ->; [|done].
      change (map ?f ?k) with (f <$> k). apply mapM_Some, Forall2_fmap_l, Forall2_fmap_r, Forall_Forall2_diag.
      eapply Forall_impl; [exact Hx|]. intros x Hxl. by apply lat_row_spec.
    + apply Forall_map, Forall_true. intros x. by apply (matvec_length _ d).
  - apply Forall_map. eapply Forall_impl; [exact Hx|]. intros x Hxl. by apply lat_row_spec.
Qed.

Lemma heads_concat (rs : rows) : wide_rows (h * hd) rs -> chunks_exact hd (concat rs) = Some (concat (map (heads_of hd h) rs)).
Proof.
  intros Hr. destruct (wv_dims W) as (_ & Hhd & _).
  assert (forall r, length r = h * hd -> concat (heads_of hd h r) = r) as Hc.
  { intros r Hl. destruct (split_rows hd h r Hl) as (hs & H1 & H2 & ->). symmetry. f_equal. unfold heads_of. rewrite <- H1.
    apply list_eq. intros i. change (map ?f ?k) with (f <$> k). rewrite list_lookup_fmap. destruct (hs !! i) as [v|] eqn:Hi.
    - pose proof (lookup_lt_Some _ _ _ Hi). rewrite lookup_seq_lt by lia. cbn. pose proof (concat_row hd hs i v H2 Hi) as Hv.
      apply range_inv in Hv as [_ ->]. do 2 f_equal. lia.
    - apply lookup_ge_None in Hi. by rewrite lookup_seq_ge by lia. }
  rewrite <- (chunks_exact_rows hd) by (done || (apply Forall_concat, Forall_map; eapply Forall_impl; [exact Hr|]; intros r Hl; by apply heads_of_wide)).
  f_equal. clear -Hr Hc. induction Hr as [|r rs Hl _ IH]; [done|]. cbn. rewrite concat_app, <- IH. f_equal. symmetry. by apply Hc.
Qed.

(** The queries of a block. *)
Lemma queries_rows pos n cos sin cr sr (xs : rows) : holds_rows n cos sin cr sr -> pos + length xs <= n -> wide_rows d xs ->
  v4_queries c l (concat (map lat_row xs)) (length xs) pos cos sin =
  Some (concat (imap (fun i x => roped hd h (cr (pos + i)) (sr (pos + i)) false (query_row x)) xs)).
Proof.
  intros Ht Hn Hx. destruct (q_lat_rows xs Hx) as [_ Hq]. destruct (wv_dims W) as (_ & Hhd & Hrd). unfold v4_queries.
  pose proof (matmul_qt_wf (l_q_b l) ql (h * hd) (map lat_row xs) (wv_q_b W) Hq) as Hm. rewrite length_map, Nat.mul_assoc in Hm. rewrite Hm.
  cbv beta iota. rewrite map_map. unfold per_head_rms.
  assert (wide_rows (h * hd) (map (fun x => matvec (l_q_b l) (lat_row x)) xs)) as Hw.
  { apply Forall_map, Forall_true. intros x. unfold compose. apply (matvec_length _ ql), (wv_q_b W). }
  rewrite heads_concat by done. cbv beta iota.
  assert (length (concat (map (fun x => matvec (l_q_b l) (lat_row x)) xs)) = length xs * h * hd) as Hl.
  { rewrite (concat_len (h * hd)) by done. rewrite length_map. lia. }
  rewrite Hl, Nat.div_mul, drop_ge, app_nil_r by lia.
  assert (concat (map (fun v => per_head_rms_one v (eps c)) (concat (map (heads_of hd h) (map (fun x => matvec (l_q_b l) (lat_row x)) xs)))) =
    concat (map query_row xs)) as ->.
  { unfold query_row, head_norms. rewrite map_map, concat_map, map_map. clear. induction xs as [|x xs IH]; [done|]. cbn. rewrite concat_app. by f_equal. }
  rewrite <- (length_map query_row xs). rewrite (rope_heads_rows h hd pos n cos sin cr sr false); [|done|by rewrite length_map|done|].
  - do 2 f_equal. change (map query_row xs) with (query_row <$> xs). by rewrite imap_fmap.
  - apply Forall_map, Forall_true. intros x. apply query_row_length.
Qed.

Lemma latents_rows pos n cos sin cr sr (xs : rows) : holds_rows n cos sin cr sr -> pos + length xs <= n -> wide_rows d xs ->
  v4_latents pf c l (concat xs) (length xs) pos cos sin = Some (imap (fun i x => kv_row (cr (pos + i)) (sr (pos + i)) x) xs).
Proof.
  intros Ht Hn Hx. destruct (wv_kv W) as [Hk _]. unfold v4_latents. rewrite (matmul_qt_wf (l_kv_a l) d hd) by done. cbv beta iota.
  apply mapM_seq_imap. intros i x Hi. pose proof (lookup_lt_Some _ _ _ Hi).
  rewrite (concat_row hd (map (matvec (l_kv_a l)) xs) i (matvec (l_kv_a l) x)).
  - destruct (Ht (pos + i) ltac:(lia)) as (-> & Lc & Ls). cbv beta iota. apply kv_row_spec; [|done|done].
    unfold wide_rows in Hx. rewrite Forall_lookup in Hx. by eapply Hx.
  - apply Forall_map, Forall_true. intros y. unfold compose. by apply (matvec_length _ d).
  - change (map ?f ?k) with (f <$> k). by rewrite list_lookup_fmap, Hi.
Qed.

Lemma comp_rows_of (xs : rows) : wide_rows d xs ->
  v4_comp_rows pf l (concat xs) (length xs) = Some (map (comp_row_of (l_comp_wkv l)) xs, map (comp_row_of (l_comp_wgate l)) xs).
Proof.
  intros Hx. unfold v4_comp_rows, comp_row_of.
  assert (forall {A} (w : A) (ys : rows), replicate (length ys) ([] : list f32) = map (fun _ => []) ys) as Hrep.
  { clear. intros A _ ys. induction ys as [|y ys IH]; [done|]. cbn. by f_equal. }
  destruct (Nat.ltb_spec 0 (la_ratio (v4_attn pf l))) as [Hr|Hr]; cbn [andb].
  - destruct (wv_comp W Hr) as (wkv & wgate & E1 & E2 & Hp & W1 & W2 & _). rewrite E1, E2.
    assert (la_pool (v4_attn pf l) = true) as -> by (unfold v4_attn; cbn [la_pool]; rewrite E1, E2; lia).
    pose proof W1 as (_ & -> & _). rewrite !(matmul_qt_wf _ d (width (la_ratio (v4_attn pf l)) hd)) by done. cbv beta iota.
    rewrite !each_row_id; try (by rewrite length_map); [done|..]; apply Forall_map, Forall_true; intros x; unfold compose; by apply (matvec_length _ d).
  - rewrite !(Hrep f32 f0). by destruct (l_comp_wkv l), (l_comp_wgate l).
Qed.

(** A block's tokens. *)
Lemma tokens_rows pos n cos sin cr sr (xs : rows) : holds_rows n cos sin cr sr -> pos + length xs <= n -> wide_rows d xs ->
  v4_tokens pf c l (concat xs) (concat (map lat_row xs)) (length xs) pos cos sin =
  Some (imap (fun i x => token_at (cr (pos + i)) (sr (pos + i)) x) xs).
Proof.
  intros Ht Hn Hx. destruct (wv_dims W) as (_ & _ & Hrd). unfold v4_tokens.
  rewrite (queries_rows pos n cos sin cr sr xs) by done. cbv beta iota.
  assert (wide_rows (h * hd) (imap (fun i x => roped hd h (cr (pos + i)) (sr (pos + i)) false (query_row x)) xs)) as Hq.
  { apply Forall_lookup. intros i y Hy. rewrite list_lookup_imap in Hy. apply fmap_Some in Hy as (x & Hi & ->). pose proof (lookup_lt_Some _ _ _ Hi).
    destruct (Ht (pos + i) ltac:(lia)) as (_ & Lc & Ls). apply roped_length; [apply query_row_length|done|done|done]. }
  rewrite each_row_id by (done || by rewrite length_imap). cbv beta iota.
  rewrite (latents_rows pos n cos sin cr sr xs), comp_rows_of by done. cbv beta iota.
  apply mapM_seq_imap. intros i x Hi. change (map ?f ?k) with (f <$> k). rewrite !list_lookup_fmap, !list_lookup_imap, Hi. done.
Qed.

Lemma token_at_wf cs sn x : length x = d -> length cs = rd / 2 -> length sn = rd / 2 ->
  length (tk_lat (token_at cs sn x)) = hd /\ length (tk_q (token_at cs sn x)) = h * hd.
Proof.
  intros Hx Hc Hs. destruct (wv_dims W) as (_ & _ & Hrd). split; [by apply kv_row_spec|]. apply roped_length; [apply query_row_length|done..].
Qed.

(** ** The output projection, token by token *)

Lemma o_lora_group_rows gi wg (rs ms : rows) : wf_qt wg dg rank -> gi < g -> wide_rows (h * hd) rs -> wide_rows (g * rank) ms ->
  length ms = length rs ->
  let ms' := zip_with (fun r m => blit m (gi * rank) (matvec wg (take dg (drop (gi * dg) r)))) rs ms in
  o_lora_group c (length rs) (concat rs) gi wg (concat ms) = Some (concat ms') /\ wide_rows (g * rank) ms' /\ length ms' = length rs.
Proof.
  intros Hg Hgi Hr Hm Hl ms'. destruct (wv_groups W) as (_ & Hdg & _).
  assert (gi * dg + dg <= h * hd) as Hfit by (rewrite Hdg at 3; nia).
  assert (length ms' = length rs) as Lm by (unfold ms'; rewrite length_zip_with; lia).
  assert (wide_rows (g * rank) ms') as Wm.
  { apply Forall_lookup. intros i y Hy. apply lookup_zip_with_Some in Hy as (r & m & -> & Hri & Hmi).
    unfold wide_rows in Hm. rewrite Forall_lookup in Hm. rewrite blit_length; [by eapply Hm|]. rewrite (matvec_length wg dg rank) by done.
    rewrite (Hm i m Hmi). nia. }
  split; [|done]. unfold o_lora_group.
  assert (mapM (fun i => range (concat rs) (i * h * hd + gi * dg) (i * h * hd + (gi + 1) * dg)) (seq 0 (length rs)) =
    Some (imap (fun _ r => take dg (drop (gi * dg) r)) rs)) as ->.
  { apply mapM_seq_imap. intros i r Hi. pose proof (concat_row _ _ _ _ Hr Hi) as Hrow. unfold row_at in Hrow.
    pose proof (range_sub _ _ _ _ (gi * dg) ((gi + 1) * dg) Hrow ltac:(nia)) as Hs. rewrite <- Nat.mul_assoc.
    rewrite <- Hs. unfold wide_rows in Hr. rewrite Forall_lookup in Hr. rewrite range_some by (rewrite (Hr i r Hi); nia). do 2 f_equal. nia. }
  cbv beta iota. set (xg := imap _ rs). assert (length xg = length rs) as Lx by (unfold xg; by rewrite length_imap).
  rewrite <- Lx at 1 2. rewrite (matmul_qt_wf wg dg rank) by (done || (apply Forall_lookup; intros i y Hy; unfold xg in Hy; rewrite list_lookup_imap in Hy;
    apply fmap_Some in Hy as (r & Hri & ->); unfold wide_rows in Hr; rewrite Forall_lookup in Hr; rewrite length_take, length_drop, (Hr i r Hri); lia)).
  cbv beta iota. set (ys := map (matvec wg) xg). assert (wide_rows rank ys) as Wy by (apply Forall_map, Forall_true; intros x; by apply (matvec_length wg dg)).
  set (upto n := take n ms' ++ drop n ms).
  assert (forall n, n <= length rs -> wide_rows (g * rank) (upto n) /\ length (upto n) = length rs) as Hup.
  { intros n Hn. unfold upto. split; [apply Forall_app; split; [by apply Forall_take|by apply Forall_drop]|]. rewrite length_app, length_take, length_drop. lia. }
  edestruct (for_range_ind (fun i mid => i <= length rs /\ mid = concat (upto i))) as (mid & E' & Hi & ->).
  3: { rewrite E'. unfold upto. by rewrite Nat.add_0_l, <- Lm, take_ge, drop_ge, app_nil_r by lia. }
  { split; [lia|]. unfold upto. by rewrite take_0, drop_0. }
  intros i mid Hi (_ & ->). destruct (Hup i ltac:(lia)) as [Wu Lu].
  destruct (lookup_lt_is_Some_2 rs i) as [r Hri]; [lia|]. destruct (lookup_lt_is_Some_2 ms i) as [m Hmi]; [lia|].
  assert (ys !! i = Some (matvec wg (take dg (drop (gi * dg) r)))) as Hy.
  { unfold ys, xg. change (map ?f ?k) with (f <$> k). by rewrite list_lookup_fmap, list_lookup_imap, Hri. }
  assert (upto i !! i = Some m) as Hui.
  { unfold upto. rewrite lookup_app_r by (rewrite length_take; lia). rewrite length_take, lookup_drop. replace (i + (i - Nat.min i (length ms'))) with i by lia. done. }
  rewrite (concat_row_range rank ys i _ Wy Hy). cbv beta iota. replace (i * g * rank + gi * rank) with (i * (g * rank) + gi * rank) by lia.
  rewrite (copy_in_row (g * rank) (upto i) i m) by (done || (rewrite (matvec_length wg dg rank) by done; nia)).
  eexists. split; [done|]. split; [lia|]. f_equal. unfold upto. rewrite Nat.add_1_r.
  assert (ms' !! i = Some (blit m (gi * rank) (matvec wg (take dg (drop (gi * dg) r))))) as Hmi'.
  { unfold ms'. apply lookup_zip_with_Some. by exists r, m. }
  rewrite (take_S_r _ _ _ Hmi'), <- app_assoc. rewrite (drop_S ms m i Hmi). rewrite insert_app_r_alt by (rewrite length_take; lia).
  rewrite length_take. replace (i - Nat.min i (length ms')) with 0 by lia. done.
Qed.

Lemma mid_from_length wgs : forall gi r m, Forall (fun w => wf_qt w dg rank) wgs -> gi + length wgs <= g -> length m = g * rank ->
  length (mid_from gi wgs r m) = g * rank.
Proof.
  induction wgs as [|wg wgs IH]; intros gi r m Hw Hg Hm; [done|]. apply Forall_cons in Hw as [Hw Hws]. cbn [mid_from length] in *.
  apply IH; [done|lia|]. rewrite blit_length; [done|]. rewrite (matvec_length wg dg rank) by done. nia.
Qed.

Lemma o_lora_rows wgs : forall gi (rs ms : rows), Forall (fun w => wf_qt w dg rank) wgs -> gi + length wgs <= g -> wide_rows (h * hd) rs ->
  wide_rows (g * rank) ms -> length ms = length rs ->
  o_lora_groups c (length rs) (concat rs) gi wgs (concat ms) = Some (concat (zip_with (mid_from gi wgs) rs ms)).
Proof.
  induction wgs as [|wg wgs IH]; intros gi rs ms Hw Hg Hr Hm Hl.
  - cbn. do 2 f_equal. clear -Hl. revert rs Hl. induction ms as [|m ms IH]; intros [|r rs] Hl; try done. cbn. f_equal. apply IH. by injection Hl.
  - apply Forall_cons in Hw as [Hw Hws]. cbn [length o_lora_groups] in *.
    destruct (o_lora_group_rows gi wg rs ms Hw ltac:(lia) Hr Hm Hl) as (-> & Hm' & Hl'). cbv beta iota.
    rewrite IH by (done || lia). do 2 f_equal. apply list_eq. intros i.
    destruct (rs !! i) as [r|] eqn:Hri, (ms !! i) as [m|] eqn:Hmi.
    + transitivity (Some (mid_from gi (wg :: wgs) r m)); [|symmetry]; apply lookup_zip_with_Some; [|by exists r, m].
      exists r. eexists. split; [|split; [done|]]; [|apply lookup_zip_with_Some; by exists r, m]. done.
    + apply lookup_lt_Some in Hri. apply lookup_ge_None in Hmi. lia.
    + apply lookup_lt_Some in Hmi. apply lookup_ge_None in Hri. lia.
    + apply lookup_ge_None in Hri. rewrite !lookup_ge_None_2 by (rewrite length_zip_with; lia). done.
Qed.

Lemma output_rows pos n cos sin cr sr (rs : rows) : holds_rows n cos sin cr sr -> pos + length rs <= n -> wide_rows (h * hd) rs ->
  let outs := imap (fun i r => out_row (cr (pos + i)) (sr (pos + i)) r) rs in
  v4_output c l (concat rs) (length rs) pos cos sin = Some (concat outs) /\ wide_rows d outs.
Proof.
  intros Ht Hn Hr outs. destruct (wv_dims W) as (_ & _ & Hrd). destruct (wv_groups W) as (Lg & _ & Wg). destruct (wv_o_b W) as (wb & Eb & Wb). split.
  - unfold v4_output. rewrite (rope_heads_rows h hd pos n cos sin cr sr true) by done. cbv beta iota.
    set (rs' := imap _ rs). assert (length rs' = length rs) as Ll by (unfold rs'; by rewrite length_imap).
    assert (wide_rows (h * hd) rs') as Wr.
    { apply Forall_lookup. intros i y Hy. unfold rs' in Hy. rewrite list_lookup_imap in Hy. apply fmap_Some in Hy as (r & Hi & ->).
      pose proof (lookup_lt_Some _ _ _ Hi). destruct (Ht (pos + i) ltac:(lia)) as (_ & Lc & Ls). apply roped_length; [|done..].
      unfold wide_rows in Hr. rewrite Forall_lookup in Hr. by eapply Hr. }
    assert (replicate (length rs * g * rank) f0 = concat (replicate (length rs') (replicate (g * rank) f0))) as ->.
    { rewrite Ll. clear. induction (length rs) as [|n IH]; [done|]. cbn. rewrite <- IH, <- replicate_add. f_equal. lia. }
    rewrite <- Ll, (o_lora_rows (l_o_a_groups l) 0 rs') by (done || lia || (by apply Forall_replicate, length_replicate) || by rewrite length_replicate).
    cbv beta iota. rewrite Eb. cbv beta iota. set (mids := zip_with _ _ _).
    assert (mids = map (fun r => mid_from 0 (l_o_a_groups l) r (replicate (g * rank) f0)) rs') as Em.
    { unfold mids. clear. induction rs' as [|r rs' IH]; [done|]. cbn. by f_equal. }
    assert (length mids = length rs') as Lm by (rewrite Em; by rewrite length_map). rewrite <- Lm, (matmul_qt_wf wb (g * rank) d); [|done|].
    + do 2 f_equal. rewrite Em, map_map. unfold outs, rs'. change (map ?f ?k) with (f <$> k). rewrite fmap_imap. apply imap_ext.
      intros i r _. unfold compose, out_row. by rewrite Eb.
    + rewrite Em. apply Forall_map, Forall_true. intros r. apply mid_from_length; [done|lia|apply length_replicate].
  - apply Forall_lookup. intros i y Hy. unfold outs in Hy. rewrite list_lookup_imap in Hy. apply fmap_Some in Hy as (r & Hi & ->).
    unfold out_row. rewrite Eb. by apply (matvec_length wb (g * rank)).
Qed.
End Layer.

(** ** The Indexer *)

Lemma table_holds n t1 t2 cr sr : table_rows (dims_of c) cr sr n (t1, t2) -> holds_rows n t1 t2 cr sr.
Proof.
  intros (_ & _ & H) p Hp. destruct (H p Hp) as [H1 H2]. cbn [fst snd dm_rd dims_of] in *.
  pose proof (row_at_length _ _ _ _ H1). pose proof (row_at_length _ _ _ _ H2). unfold v4_rope_rows. unfold row_at in H1, H2. by rewrite H1, H2.
Qed.

Section Indexer.
(** A layer, and the Compressor's rotary rows. *)
Context (l : Layer) (crow srow : nat -> list f32).

Abbreviation nh := (len_of (index_nh c)).
Abbreviation ihd := (len_of (index_hd c)).
Abbreviation cap := (dsv4_index_topk pf c).
Abbreviation la := (v4_attn pf l).

(** Whether the cache has rows for Indexers, and whether this layer runs one. *)
Definition index_on : bool := pf_v4_compress pf && pf_v4_indexer pf && (0 <? index_hd c)%Z.
Definition has_indexer : bool :=
  match l_idx_wq_b l, l_idx_wproj l, l_idx_comp_wkv l, l_idx_comp_wgate l with Some _, Some _, Some _, Some _ => true | _, _, _, _ => false end.
Definition indexed : bool := index_on && has_indexer && negb (len_of (l_comp_ratio l) =? 0).

(** What the loader checks of the Indexer of a layer that runs one: it exists only
    where blocks have four tokens. *)
Record wf_indexer : Prop := {
  wi_ratio : l_comp_ratio l = 4%Z;
  wi_dims : (exists k, ihd = 2 ^ k) /\ rd <= ihd;
  wi_norm : length (l_idx_comp_norm l) = ihd;
  wi_ape : length (l_idx_comp_ape l) = 4 * width 4 ihd;
  wi_weights : exists wq wp wk wg, l_idx_wq_b l = Some wq /\ l_idx_wproj l = Some wp /\ l_idx_comp_wkv l = Some wk /\ l_idx_comp_wgate l = Some wg /\
    wf_qt wq ql (nh * ihd) /\ wf_qt wp d nh /\ wf_qt wk d (width 4 ihd) /\ wf_qt wg d (width 4 ihd)
}.

Definition projected (w : option QTensor) (x : list f32) : list f32 := match w with Some w => matvec w x | None => [] end.
Definition idx_stream (xs : rows) : list (list f32 * list f32) := map (fun x => (projected (l_idx_comp_wkv l) x, projected (l_idx_comp_wgate l) x)) xs.
Definition idx_round (v : list f32) : option (list f32) :=
  let* v := hadamard_rotate (pf_pow pf) v ihd in fp4_act_quant_sim (pf_exp2 pf) v 32.
(** The row of block [b] of a text, *)
Definition idx_row (xs : rows) (b : nat) : option (list f32) :=
  let* row := block 4 ihd (l_idx_comp_ape l) (idx_stream xs) (pf_exp pf) b in
  let* nr := rmsnorm row (l_idx_comp_norm l) (eps c) in
  let* nr := rope_interleaved nr (crow (b * 4)) (srow (b * 4)) rd false in idx_round nr.
(** the heads' queries of position [p], their weights, *)
Definition idx_query (p : nat) (x : list f32) : list f32 :=
  concat (map (fun v => default [] (idx_round (rope_head (crow p) (srow p) false v))) (heads_of ihd nh (projected (l_idx_wq_b l) (lat_row l x)))).
Definition idx_weight (x : list f32) : list f32 :=
  map (fun v => f32_mul v (f32_mul (pf_pow pf (f32_of_nat ihd) f32_minus_half) (pf_pow pf (f32_of_nat nh) f32_minus_half))) (projected (l_idx_wproj l) x).
(** the score of a row for a position, *)
Definition row_score (q w kr : list f32) : f32 :=
  fold_left (fun acc hh => f32_add acc (f32_mul (f32_max (f32_dot (take ihd (drop (hh * ihd) q)) kr) f0) (nth hh w f0))) (seq 0 nh) f0.
Definition text_scores (xs : rows) (p : nat) : list f32 :=
  map (fun t => row_score (idx_query p (nth p xs [])) (idx_weight (nth p xs [])) (default [] (idx_row xs t))) (seq 0 (closed_at la p)).
(** and the compressed rows it attends to. *)
Definition cut (p : nat) : bool := indexed && negb (cap =? 0) && (cap <? closed_at la p).
Definition picked (xs : rows) (p : nat) : list nat :=
  if cut p then index_select cap (closed_at la p) (fun t => nth t (text_scores xs p) f0) else seq 0 (closed_at la p).

(** No score the Indexer compares is a NaN. *)
Definition scores_numbers (xs : rows) : Prop :=
  forall p, p < length xs -> cut p = true -> Forall (fun s => is_nan s = false) (text_scores xs p).

(** What the cache holds of a text's first [n] tokens for the layer's Indexer. *)
Definition idx_ok (xs : rows) (kv : KvCache) (li n : nat) : Prop :=
  icomp_ready kv = index_on /\ (indexed = true -> store_ok 4 ihd (l_idx_comp_ape l) (idx_stream xs) (idx_row xs) (swap kv) li n).

Lemma idx_ok_same xs kv kv' li n : same_icomp kv kv' -> idx_ok xs kv li n -> idx_ok xs kv' li n.
Proof.
  intros Hs [Hr Ho]. split; [|intros Hi; by eapply store_ok_same; [|apply Ho]]. destruct Hs as [Hs _]. cbn in Hs. unfold icomp_ready in *. by rewrite Hs.
Qed.

Lemma picked_closed xs : picks_closed (picked xs) la.
Proof.
  intros p. unfold picked. destruct (cut p); [apply index_select_rows|]. apply Forall_forall. intros t Ht%elem_of_seq. lia.
Qed.

(** What is picked: every closed row, or as many as the cap, each scoring above
    every one left out, or as high and earlier. *)
Definition picks_best (xs : rows) (p : nat) : Prop :=
  StronglySorted lt (picked xs p) /\ length (picked xs p) = (if cut p then cap else closed_at la p) /\
  Forall (fun t => t < closed_at la p) (picked xs p) /\
  forall t u, t ∈ picked xs p -> u < closed_at la p -> u ∉ picked xs p -> beats (text_scores xs p) t u.

Lemma picked_best xs p : scores_numbers xs -> p < length xs -> picks_best xs p.
Proof.
  intros Hnum Hp. unfold picks_best. assert (Forall (fun t => t < closed_at la p) (picked xs p)) as Hcl by apply picked_closed. revert Hcl. unfold picked.
  assert (forall n, StronglySorted lt (seq 0 n)) as Hseq by (intros n; apply StronglySorted_seq; lia).
  destruct (cut p) eqn:Ecut.
  2:{ intros Hcl. split_and!; [done|by rewrite length_seq|done|]. intros t u _ Hu Hn. destruct Hn. apply elem_of_seq. lia. }
  specialize (Hnum p Hp Ecut). unfold cut in Ecut. apply andb_true_iff in Ecut as [[_ Hc0]%andb_true_iff Hc].
  apply negb_true_iff, Nat.eqb_neq in Hc0. apply Nat.ltb_lt in Hc. set (sc t := nth t (text_scores xs p) f0).
  assert (forall t, is_nan (sc t) = false) as Hsc.
  { intros t. unfold sc. destruct (decide (t < length (text_scores xs p))); [|by rewrite nth_overflow by lia].
    rewrite Forall_forall in Hnum. by apply Hnum, list_elem_of_In, nth_In. }
  intros Hcl. destruct (index_select_rows cap (closed_at la p) sc) as (_ & Hnd & Hlen). rewrite (proj2 (Nat.eqb_neq _ _) Hc0) in Hlen.
  split_and!; [|lia|done|]; revert Hnd; unfold index_select; rewrite (proj2 (Nat.eqb_neq (closed_at la p) 0)), (proj2 (Nat.eqb_neq _ _) Hc0), (proj2 (Nat.leb_gt _ _) Hc) by lia; cbn [orb];
    set (order := sort_by (scores_before sc) (seq 0 (closed_at la p))); intros Hnd.
  - eapply StronglySorted_distinct; [exact Hnd|apply sort_by_sorted; intros; lia|]. intros x y Hne Hle%Nat.leb_le. lia.
  - intros t u Ht Hu Hn. rewrite elem_of_sort_by in Ht, Hn.
    assert (StronglySorted (fun i j => scores_before sc i j = true) order) as Hs by (apply sort_by_sorted; [apply scores_before_total|by apply scores_before_trans]).
    assert (u ∈ drop cap order) as Hd.
    { assert (u ∈ order) as Ho by (apply elem_of_sort_by, elem_of_seq; lia). rewrite <- (take_drop cap order) in Ho. by apply elem_of_app in Ho as [?|?]. }
    rewrite <- (take_drop cap order) in Hs. pose proof (StronglySorted_app_cross _ _ _ _ _ Hs Ht Hd) as Hb.
    apply scores_before_spec in Hb as [Hb|[Hb Hle]]; [by left|right]. split; [exact Hb|]. destruct (decide (t = u)) as [->|]; [done|lia].
Qed.

(** Without a cut every closed row is taken. *)
Lemma all_closed xs kv2 avail a s : (forall i, i < s -> avail (a + i) = closed_at la (a + i)) -> (forall i, i < s -> cut (a + i) = false) ->
  select_closed a s kv2 avail = Some (kv2, map (picked xs) (seq a s)).
Proof.
  intros Ha Hc. unfold select_closed. do 2 f_equal. rewrite (map_seq_shift (picked xs)). apply map_ext_in. intros i Hi%in_seq.
  unfold picked. by rewrite Ha, Hc by lia.
Qed.

(** The Indexer's Compressor is a step of the second store. *)
Lemma idx_compress_store ratio wk wg kv li xn s pos ccos csin : ihd <> 0 ->
  idx_compress pf c l ratio wk wg kv li xn s pos ccos csin =
  let* ckv := matmul_qt (s * Linear.rows_of wk) xn wk s in
  let* csc := matmul_qt (s * Linear.rows_of wk) xn wg s in
  let* kv' := store_step ratio ihd (l_idx_comp_ape l) (pf_exp pf) (idx_finish pf c l ratio ihd ccos csin) (Linear.rows_of wk) (swap kv) li pos s ckv csc in
  Some (swap kv').
Proof.
  intros Hd. unfold idx_compress. destruct (matmul_qt _ xn wk s) as [ckv|]; [|done]. destruct (matmul_qt _ xn wg s) as [csc|]; [|done].
  cbv beta iota zeta. unfold store_step. change (kc_comp_state (swap kv)) with (kc_icomp_state kv).
  assert (forall rows kv1 b, push_iblocks pf c l ratio ihd ccos csin kv1 li b rows =
    let* kv' := pushes (idx_finish pf c l ratio ihd ccos csin) (swap kv1) li b rows in Some (swap kv')) as Hp.
  { induction rows as [|r rows IH]; intros kv1 b; cbn; [by rewrite swap_swap|]. destruct (idx_finish _ _ _ _ _ _ _ _ _) as [nr|]; [|done]. cbv beta iota.
    rewrite swap_push. destruct (comp_push (swap kv1) li nr) as [kv2|]; [|done]. cbv beta iota. rewrite IH. by rewrite swap_swap. }
  destruct (mjoin _) as [st|]; [destruct (compress_rows _ _ _ _ _ _ _ _ _ _) as [[st' rows]|]; [|done]|]; cbv beta iota.
  - set (kv1 := set_icomp kv _ _ _ _). change (set_comp (swap kv) _ _ _ _) with (swap kv1). change (comp_rows (swap kv1) li) with (icomp_rows kv1 li).
    destruct (icomp_rows kv1 li) as [held|]; [|done]. cbv beta iota. destruct (Nat.eqb_spec ihd 0); [done|]. apply Hp.
  - change (comp_rows (swap kv) li) with (icomp_rows kv li).
    destruct (icomp_rows kv li) as [held|]; [|done]. cbv beta iota. destruct (Nat.eqb_spec ihd 0); [done|]. apply Hp.
Qed.

Context (Wa : wf_v4 l) (W : wf_indexer).
Local Set Default Proof Using "All".

Lemma round_some v : length v = ihd -> exists y, idx_round v = Some y /\ length y = ihd.
Proof.
  intros Hv. destruct (proj1 (wi_dims W)) as [k Hk]. unfold idx_round. rewrite Hk in Hv |- *.
  destruct (hadamard_some (pf_pow pf) k v Hv) as (y & -> & Hy). cbv beta iota. destruct (fp4_some (pf_exp2 pf) y) as (z & -> & Hz). exists z. split; [done|congruence].
Qed.

Lemma ihd_pos : 0 < ihd.
Proof. destruct (proj1 (wi_dims W)) as [k ->]. apply pow2_pos. Qed.

Lemma idx_well_formed xs : wide_rows d xs -> well_formed 4 ihd (l_idx_comp_ape l) (idx_stream xs).
Proof.
  intros Hx. destruct (wi_weights W) as (wq & wp & wk & wg & _ & _ & Ek & Eg & _ & _ & Wk & Wg). split_and!; [lia|apply ihd_pos|apply (wi_ape W)|].
  unfold idx_stream. apply Forall_map, Forall_true. intros x. unfold compose, projected. rewrite Ek, Eg. cbn [fst snd].
  split; by apply (matvec_length _ d).
Qed.

(** What finishes the rows of a call. *)
Lemma idx_finishes xs n ccos csin : wide_rows d xs -> table_rows (dims_of c) crow srow (Nat.max n 1) (ccos, csin) -> n <= length xs ->
  finishes 4 ihd (l_idx_comp_ape l) (idx_stream xs) (idx_row xs) (pf_exp pf) n (idx_finish pf c l 4 ihd ccos csin).
Proof.
  intros Hx Ht Hn b row Hb Hrow. pose proof ihd_pos. destruct (block_some _ _ _ _ (idx_well_formed xs Hx) (pf_exp pf) b) as (row' & Hr' & Lr).
  { unfold idx_stream. rewrite length_map. lia. }
  rewrite Hrow in Hr'. injection Hr' as <-. unfold idx_row, idx_finish. rewrite Hrow. cbv beta iota.
  destruct (rmsnorm_some row (l_idx_comp_norm l) (eps c)) as (nr & -> & Lnr); [rewrite (wi_norm W); lia|]. cbv beta iota zeta.
  destruct (table_holds _ _ _ _ _ Ht (b * 4) ltac:(lia)) as (Ev & Lc & Ls). destruct Ht as (Lt & _ & _). cbn [fst dm_rd dims_of] in Lt.
  rewrite (proj2 (Nat.leb_le _ _)) by (rewrite Lt; apply Nat.mul_le_mono_r; lia). rewrite Ev. cbv beta iota.
  destruct (rope_some nr (crow (b * 4)) (srow (b * 4)) rd false) as (z & -> & Lz); [rewrite Lnr, Lr; apply (wi_dims W)|done|done|]. cbv beta iota.
  fold (idx_round z). destruct (round_some z) as (y & -> & Ly); [lia|]. by exists y.
Qed.
(** The queries of a call, and the weights of its heads. *)
Lemma queries_of pos n ccos csin (ys : rows) : holds_rows n ccos csin crow srow -> pos + length ys <= n -> wide_rows d ys ->
  forall wq, l_idx_wq_b l = Some wq ->
  idx_queries pf c wq (concat (map (lat_row l) ys)) (length ys) pos ccos csin = Some (concat (imap (fun i y => idx_query (pos + i) y) ys)) /\
  wide_rows (nh * ihd) (imap (fun i y => idx_query (pos + i) y) ys).
Proof.
  intros Ht Hn Hy wq Eq. destruct (wi_weights W) as (wq' & wp & wk & wg & Eq' & _ & _ & _ & Wq & _). rewrite Eq in Eq'. injection Eq' as <-.
  destruct (q_lat_rows l Wa ys Hy) as [_ Hq]. set (qs := map (fun y => matvec wq (lat_row l y)) ys). pose proof ihd_pos.
  assert (wide_rows (nh * ihd) qs) as Wqs by (apply Forall_map, Forall_true; intros y; by apply (matvec_length wq ql)).
  assert (length qs = length ys) as Lqs by apply length_map.
  set (heads i q := map (rope_head (crow (pos + i)) (srow (pos + i)) false) (heads_of ihd nh q)).
  assert (forall i q, i < length ys -> length q = nh * ihd -> wide_rows ihd (heads i q) /\ length (heads i q) = nh) as Hh.
  { intros i q Hi Hl. destruct (Ht (pos + i) ltac:(lia)) as (_ & Lc & Ls). destruct (heads_of_wide ihd nh q Hl) as [Hw Hnum]. unfold heads. split; [|by rewrite length_map].
    apply Forall_map. eapply Forall_impl; [exact Hw|]. intros v Hv. cbn in *.
    destruct (rope_head_length (crow (pos + i)) (srow (pos + i)) false v) as [_ ->]; [rewrite Hv; apply (wi_dims W)|done..]. }
  set (hss := imap heads qs).
  assert (Forall (fun hs => wide_rows ihd hs /\ length hs = nh) hss) as Hhss.
  { apply Forall_lookup. intros i hs Hi. unfold hss in Hi. rewrite list_lookup_imap in Hi. apply fmap_Some in Hi as (q & Hqi & ->).
    pose proof (lookup_lt_Some _ _ _ Hqi). unfold wide_rows in Wqs. rewrite Forall_lookup in Wqs. apply Hh; [lia|by eapply Wqs]. }
  assert (wide_rows ihd (concat hss)) as Whs by (apply Forall_concat; eapply Forall_impl; [exact Hhss|by intros ? [? _]]).
  assert (length (concat hss) = length ys * nh) as Lhs.
  { rewrite (concat_len nh); [unfold hss; by rewrite length_imap, Lqs|]. eapply Forall_impl; [exact Hhss|by intros ? [_ ?]]. }
  set (F v := default [] (idx_round v)).
  assert (forall v, length v = ihd -> idx_round v = Some (F v) /\ length (F v) = ihd) as HF.
  { intros v Hv. unfold F. destruct (round_some v Hv) as (y & -> & Hyl). done. }
  assert (imap (fun i y => idx_query (pos + i) y) ys = map (fun hs => concat (map F hs)) hss) as Ei.
  { unfold hss, qs. change (map ?f ?k) with (f <$> k). rewrite fmap_imap, imap_fmap. apply imap_ext. intros i y _. unfold compose, idx_query, heads, projected. rewrite Eq.
    change (?f <$> ?k) with (map f k). by rewrite map_map. }
  split.
  - unfold idx_queries. pose proof (matmul_qt_wf wq ql (nh * ihd) (map (lat_row l) ys) Wq Hq) as Hm. rewrite length_map, Nat.mul_assoc in Hm. rewrite Hm.
    cbv beta iota zeta. rewrite map_map. fold qs. rewrite <- Lqs at 1.
    rewrite (rope_heads_rows nh ihd pos n ccos csin crow srow false) by (done || lia || apply (wi_dims W)). cbv beta iota.
    assert (imap (fun i r => roped ihd nh (crow (pos + i)) (srow (pos + i)) false r) qs = map (fun hs => concat hs) hss) as ->.
    { unfold hss. change (map ?f ?k) with (f <$> k). by rewrite fmap_imap. }
    assert (concat (map (fun hs => concat hs) hss) = concat (concat hss)) as -> by (symmetry; clear; induction hss as [|x xs IH]; [done|]; cbn; by rewrite concat_app, IH).
    rewrite <- Lhs, each_row_concat by done.
    assert (mapM idx_round (concat hss) = Some (map F (concat hss))) as Em.
    { change (map ?f ?k) with (f <$> k). apply mapM_Some, Forall2_fmap_r, Forall_Forall2_diag. eapply Forall_impl; [exact Whs|]. intros v Hv. by apply HF. }
    change (fun v : list f32 => let* v := _ in _) with idx_round. rewrite Em. f_equal. by rewrite Ei, concat_map_concat.
  - rewrite Ei. apply Forall_map. eapply Forall_impl; [exact Hhss|]. intros hs [Hw <-]. unfold compose. rewrite (concat_len ihd); [by rewrite length_map|].
    apply Forall_map. eapply Forall_impl; [exact Hw|]. intros v Hv. by apply HF.
Qed.

Lemma weights_of (ys : rows) : wide_rows d ys -> forall wp, l_idx_wproj l = Some wp ->
  idx_weights pf c wp (concat ys) (length ys) = Some (concat (map idx_weight ys)) /\ wide_rows nh (map idx_weight ys).
Proof.
  intros Hy wp Ep. destruct (wi_weights W) as (wq & wp' & wk & wg & _ & Ep' & _ & _ & _ & Wp & _). rewrite Ep in Ep'. injection Ep' as <-.
  unfold idx_weights. rewrite (matmul_qt_wf wp d nh) by done. cbv beta iota zeta. split.
  - f_equal. rewrite concat_map, map_map. f_equal. apply map_ext. intros y. unfold idx_weight, projected. by rewrite Ep.
  - apply Forall_map, Forall_true. intros y. unfold compose, idx_weight, projected. rewrite Ep, length_map. by apply (matvec_length wp d).
Qed.

(** The score of a row, and all of a query's. *)
Lemma score_of (qs ws F : rows) i t q w kr : wide_rows (nh * ihd) qs -> wide_rows nh ws -> wide_rows ihd F ->
  qs !! i = Some q -> ws !! i = Some w -> F !! t = Some kr ->
  idx_score c (concat qs) (concat ws) (concat F) i t = Some (row_score q w kr).
Proof.
  intros Hq Hw HF Eq Ew Ek. unfold idx_score, row_score. rewrite (concat_row_range ihd F t kr HF Ek). cbv beta iota zeta.
  apply for_range_fold. intros hh acc Hh.
  rewrite (sub_row nh ihd (concat qs) q i hh) by (lia || by apply concat_row). cbv beta iota.
  pose proof (concat_row nh ws i w Hw Ew) as Hwr. apply range_inv in Hwr as [[H1 H2] Hw2].
  assert (concat ws !! (i * nh + hh) = Some (nth hh w f0)) as ->; [|done].
  unfold wide_rows in Hw. rewrite Forall_lookup in Hw. pose proof (Hw i w Ew) as Lw.
  destruct (lookup_lt_is_Some_2 w hh) as [x Hx]; [lia|]. rewrite (nth_lookup_Some _ _ _ _ Hx).
  rewrite Hw2 in Hx. apply lookup_take_Some in Hx as [Hx _]. by rewrite lookup_drop in Hx.
Qed.

(** The rows picked for one query of a call. *)
Lemma pick_of xs (F : rows) a s i (avail0 : nat) : indexed = true -> scores_numbers xs -> wide_rows (nh * ihd) (imap (fun i y => idx_query (a + i) y) (take s (drop a xs))) ->
  wide_rows nh (map idx_weight (take s (drop a xs))) -> mapM (idx_row xs) (seq 0 (length F)) = Some F -> wide_rows ihd F ->
  i < s -> a + s <= length xs -> closed_at la (a + i) <= length F -> avail0 = closed_at la (a + i) ->
  (if (avail0 =? 0) || (cap =? 0) || (avail0 <=? cap) then Some (seq 0 avail0)
   else let* scores := mapM (idx_score c (concat (imap (fun i y => idx_query (a + i) y) (take s (drop a xs)))) (concat (map idx_weight (take s (drop a xs)))) (concat F) i) (seq 0 avail0) in
     if all_numbers scores then Some (index_select cap avail0 (fun t => nth t scores f0)) else None) = Some (picked xs (a + i)).
Proof.
  intros Hi Hnum Wqs Wws HF HallF Hl Ha Hcl ->. unfold picked.
  destruct (cut (a + i)) eqn:Ecut.
  2:{ unfold cut in Ecut. rewrite Hi in Ecut. cbn [andb] in Ecut. assert ((closed_at la (a + i) =? 0) || (cap =? 0) || (closed_at la (a + i) <=? cap) = true) as ->; [lia|done]. }
  assert ((closed_at la (a + i) =? 0) || (cap =? 0) || (closed_at la (a + i) <=? cap) = false) as ->.
  { unfold cut in Ecut. rewrite Hi in Ecut. cbn [andb] in Ecut. lia. }
  destruct (lookup_lt_is_Some_2 xs (a + i)) as [x Hxi]; [lia|].
  assert (take s (drop a xs) !! i = Some x) as Hyi by (by rewrite lookup_take_lt, lookup_drop by done).
  match goal with |- context [mapM ?f (seq 0 (closed_at la (a + i)))] => assert (mapM f (seq 0 (closed_at la (a + i))) = Some (text_scores xs (a + i))) as -> end.
  { unfold text_scores. change (map ?f ?k) with (f <$> k). apply mapM_Some, Forall2_fmap_r, Forall_Forall2_diag, Forall_forall. intros t [_ Htl]%elem_of_seq. cbn in Htl.
    destruct (lookup_lt_is_Some_2 F t) as [kr Hkr]; [lia|].
    assert (idx_row xs t = Some kr) as Hrow.
    { apply mapM_Some in HF. destruct (Forall2_lookup_r _ _ _ _ _ HF Hkr) as (b & Hb & Hf). apply lookup_seq in Hb as [-> _]. done. }
    unfold compose. cbv beta. rewrite (nth_lookup_Some _ _ _ _ Hxi), Hrow. apply score_of; [done|done|done| | |done].
    - by rewrite list_lookup_imap, Hyi.
    - change (map ?f ?k) with (f <$> k). by rewrite list_lookup_fmap, Hyi. }
  cbv beta iota. assert (all_numbers (text_scores xs (a + i)) = true) as ->; [|done].
  apply all_numbers_iff. apply Hnum; [lia|done].
Qed.

(** One call of a layer that runs its Indexer. *)
Lemma indexer_runs xs kv2 li a s ccos csin avail : indexed = true -> scores_numbers xs ->
  wide_rows d xs -> idx_ok xs kv2 li a -> table_rows (dims_of c) crow srow (Nat.max (a + s) 1) (ccos, csin) -> a + s <= length xs ->
  (forall i, i < s -> avail (a + i) = closed_at la (a + i)) -> let ys := take s (drop a xs) in
  exists kv', dsv4_compress_select pf c l li (concat ys) (concat (map (lat_row l) ys)) s a ccos csin kv2 avail = Some (kv', map (picked xs) (seq a s)) /\
    (exists i n st dd, kv' = set_icomp kv2 i n st dd) /\ idx_ok xs kv' li (a + s) /\
    forall ratio' hd' ape' S' ref' lj n, lj <> li -> store_ok ratio' hd' ape' S' ref' (swap kv2) lj n -> store_ok ratio' hd' ape' S' ref' (swap kv') lj n.
Proof.
  intros Hi Hnum Hx [Hready Hst] Ht Ha Hav ys. specialize (Hst Hi). pose proof ihd_pos as Hpos.
  assert (length ys = s) as Ly by (unfold ys; rewrite length_take, length_drop; lia).
  assert (wide_rows d ys) as Wy by (by apply Forall_take, Forall_drop).
  destruct (wi_weights W) as (wq & wp & wk & wg & Eq & Ep & Ek & Eg & Wq & Wp & Wk & Wg).
  pose proof Hi as Hi'. unfold indexed in Hi'. apply andb_true_iff in Hi' as [[Hon _]%andb_true_iff Hr0].
  assert (pf_v4_indexer pf = true /\ pf_v4_compress pf = true) as [Hidx Hcomp].
  { unfold index_on in Hon. rewrite !andb_true_iff in Hon. tauto. }
  assert (len_of (l_comp_ratio l) = 4) as Hr4 by by rewrite (wi_ratio W).
  assert (la_ratio la = 4) as Hla by (unfold v4_attn; cbn [la_ratio]; by rewrite Hcomp).
  unfold dsv4_compress_select. rewrite Hidx, Hr4, Eq, Ep, Ek, Eg, Hready, Hon. cbn [negb orb Nat.eqb]. cbv beta iota.
  rewrite idx_compress_store by lia.
  assert (forall w, wf_qt w d (width 4 ihd) -> matmul_qt (s * Linear.rows_of w) (concat ys) w s = Some (concat (map (matvec w) ys))) as Hmm.
  { intros w Hw. pose proof (matmul_qt_wf w d (width 4 ihd) ys Hw Wy) as Hm. rewrite Ly in Hm. destruct Hw as (_ & Ho & _). by rewrite Ho. }
  assert (Linear.rows_of wk = width 4 ihd) as Hrk by apply Wk. assert (Linear.rows_of wg = width 4 ihd) as Hrg by apply Wg.
  rewrite (Hmm wk Wk). rewrite Hrk, <- Hrg, (Hmm wg Wg), Hrg. cbv beta iota.
  assert (proj (idx_stream xs) fst a s = concat (map (matvec wk) ys) /\ proj (idx_stream xs) snd a s = concat (map (matvec wg) ys)) as [<- <-].
  { unfold proj, idx_stream, projected, ys. rewrite Ek, Eg, skipn_map, firstn_map, !map_map. done. }
  destruct (store_step_ok 4 ihd (l_idx_comp_ape l) (idx_stream xs) (idx_row xs) (pf_exp pf) _ (swap kv2) li a s ltac:(lia) (idx_well_formed xs Hx)
    (idx_finishes xs (a + s) ccos csin Hx Ht Ha) Hst) as (kv' & -> & Hok & (ci & n' & st & dd & Hkv' & Hlen) & Hoth).
  { unfold idx_stream. by rewrite length_map. }
  cbv beta iota. assert (swap kv' = set_icomp kv2 ci n' st dd) as Hsw by by rewrite Hkv', swap_set, swap_swap.
  assert (idx_ok xs (swap kv') li (a + s)) as Hok'.
  { split; [|intros _; by rewrite swap_swap]. rewrite Hsw. rewrite <- Hready. unfold icomp_ready. cbn. by rewrite Hlen. }
  destruct (so_held _ _ _ _ _ _ _ _ Hok) as (F & HF & Hheld & HallF). cbn [Nat.ltb Nat.leb] in HF.
  change (icomp_rows (swap kv') li) with (comp_rows (swap (swap kv')) li). rewrite swap_swap, Hheld. cbv beta iota.
  assert (length F = (a + s) / 4) as LF by (apply mapM_len in HF; by rewrite length_seq in HF).
  rewrite (concat_len ihd _ HallF), Nat.div_mul by lia.
  assert (forall i, i < s -> closed_at la (a + i) <= length F) as Hcl.
  { intros i Hl. unfold closed_at. rewrite Hla, LF. cbn [Nat.ltb Nat.leb]. apply Nat.Div0.div_le_mono. lia. }
  exists (swap kv'). rewrite swap_swap. split; [|split_and!; [by eauto|done|done]].
  destruct (Nat.eqb_spec (length F) 0) as [E0|E0].
  { apply all_closed; [done|]. intros i Hl. unfold cut. specialize (Hcl i Hl). destruct (Nat.ltb_spec cap (closed_at la (a + i))); [lia|by rewrite andb_false_r]. }
  destruct (queries_of a (Nat.max (a + s) 1) ccos csin ys (table_holds _ _ _ _ _ Ht) ltac:(lia) Wy wq Eq) as [Eqs Wqs]. rewrite Ly in Eqs. rewrite Eqs. cbv beta iota.
  destruct (weights_of ys Wy wp Ep) as [Ews Wws]. rewrite Ly in Ews. rewrite Ews. cbv beta iota zeta.
  match goal with |- context [mapM ?f (seq 0 s)] => assert (mapM f (seq 0 s) = Some (map (picked xs) (seq a s))) as -> end; [|done].
  rewrite (map_seq_shift (picked xs)). change (map ?f ?k) with (f <$> k). apply mapM_Some, Forall2_fmap_r, Forall_Forall2_diag, Forall_forall. intros i [_ Hl]%elem_of_seq.
  cbn in Hl. unfold compose. cbv beta zeta. apply pick_of; try done; [by rewrite LF|by apply Hcl|]. rewrite (Hav i Hl). apply Nat.min_l. by apply Hcl.
Qed.
End Indexer.

(** The choice of rows of any layer: its Indexer's, or every closed one. *)
Section Choice.
Context (l : Layer) (crow srow : nat -> list f32) (Wa : wf_v4 l) (Wi : indexed l = true -> wf_indexer l).
Local Set Default Proof Using "All".

Lemma select_idle li xn q_lat s pos ccos csin kv avail : indexed l = false -> icomp_ready kv = index_on ->
  dsv4_compress_select pf c l li xn q_lat s pos ccos csin kv avail = select_closed pos s kv avail.
Proof using Type.
  unfold indexed, has_indexer, dsv4_compress_select. intros Hi Hr. destruct (pf_v4_indexer pf) eqn:Ei; [|done]. cbn [negb orb].
  destruct (len_of (l_comp_ratio l) =? 0); [done|]. destruct (l_idx_wq_b l); [|done]. destruct (l_idx_wproj l); [|done].
  destruct (l_idx_comp_wkv l); [|done]. destruct (l_idx_comp_wgate l); [|done]. rewrite Hr. cbn [negb] in Hi. rewrite !andb_true_r in Hi. by rewrite Hi.
Qed.

Lemma compress_select_rows xs kv li a s ccos csin : scores_numbers l crow srow xs -> wide_rows d xs -> idx_ok l crow srow xs kv li a ->
  table_rows (dims_of c) crow srow (Nat.max (a + s) 1) (ccos, csin) -> a + s <= length xs -> let ys := take s (drop a xs) in
  selects_rows (picked l crow srow xs) (v4_attn pf l) (dsv4_compress_select pf c l li (concat ys) (concat (map (lat_row l) ys)) s a ccos csin) kv a s
    (fun kv' => idx_ok l crow srow xs kv' li (a + s) /\
      forall ratio' hd' ape' S' ref' lj n, lj <> li -> store_ok ratio' hd' ape' S' ref' (swap kv) lj n -> store_ok ratio' hd' ape' S' ref' (swap kv') lj n).
Proof.
  intros Hnum Hx Hok Ht Ha ys kv2 avail Hsame Hav. pose proof (idx_ok_same _ _ _ _ _ _ _ _ Hsame Hok) as Hok2.
  destruct (indexed l) eqn:Hi.
  - destruct (indexer_runs l crow srow Wa (Wi eq_refl) xs kv2 li a s ccos csin avail Hi Hnum Hx Hok2 Ht Ha Hav) as (kv' & E & (i & n & st & dd & ->) & Hok' & Hoth).
    exists i, n, st, dd. split; [exact E|]. split; [done|]. intros ratio' hd' ape' S' ref' lj m Hj Hs. apply Hoth; [done|]. by eapply store_ok_same.
  - exists (kc_icomp kv2), (kc_icomp_len kv2), (kc_icomp_state kv2), (kc_icomp_dim kv2).
    assert (set_icomp kv2 (kc_icomp kv2) (kc_icomp_len kv2) (kc_icomp_state kv2) (kc_icomp_dim kv2) = kv2) as -> by by destruct kv2.
    rewrite select_idle by (done || apply Hok2). split.
    + apply all_closed; [done|]. intros i _. unfold cut. by rewrite Hi.
    + split; [split; [apply Hok2|by rewrite Hi]|]. intros ratio' hd' ape' S' ref' lj m Hj Hs. by eapply store_ok_same.
Qed.
End Choice.

(** ** The attention of a whole text *)

Section Text.
(** The layer's rotary rows, and the Compressor's. *)
Context (l : Layer) (mc ms crow srow : nat -> list f32).
Local Set Default Proof Using "All".

Abbreviation dm := (dims_of c).
Abbreviation la := (v4_attn pf l).
Definition v4_scale : f32 := pf_pow pf (f32_of_nat hd) f32_minus_half.

(** The tokens of the layer's normed rows, and each one's attention. *)
Definition text_tokens (xs : rows) : list Token := imap (fun p x => token_at l (mc p) (ms p) x) xs.
Definition attn_heads (xs : rows) (p : nat) : rows := default [] (attn_ref (pf_exp pf) dm v4_scale crow srow (picked l crow srow xs) la (text_tokens xs) p).
Definition attn_out (xs : rows) (p : nat) : list f32 := out_row l (mc p) (ms p) (concat (attn_heads xs p)).

Context (W : wf_v4 l) (Wi : indexed l = true -> wf_indexer l) (Hexp : forall x, unsigned (pf_exp pf x) = true) (Hwin : (0 < Config.window c)%Z).

Lemma text_dims n cos sin xs : holds_rows n cos sin mc ms -> length xs <= n -> wide_rows d xs -> dims_ok dm la (text_tokens xs).
Proof.
  intros Ht Hn Hx. destruct (wv_dims l W) as (_ & Hhd & Hrd).
  assert (forall p t, text_tokens xs !! p = Some t -> exists x, t = token_at l (mc p) (ms p) x /\ length x = d /\ length (mc p) = rd / 2 /\ length (ms p) = rd / 2) as Htok.
  { intros p t E. unfold text_tokens in E. rewrite list_lookup_imap in E. apply fmap_Some in E as (x & Hxp & ->). exists x.
    pose proof (lookup_lt_Some _ _ _ Hxp). destruct (Ht p ltac:(lia)) as (_ & H1 & H2). unfold wide_rows in Hx. rewrite Forall_lookup in Hx. split_and!; [done|by eapply Hx|done|done]. }
  split; cbn [dm_hd dm_h dm_rd dims_of la_norm la_sink v4_attn].
  - done.
  - apply (wv_norm l W).
  - apply (wv_sink l W).
  - done.
  - apply Forall_lookup. intros p t E. destruct (Htok p t E) as (x & -> & H1 & H2 & H3). by apply token_at_wf.
  - intros Hr. destruct (wv_comp l W Hr) as (wkv & wgate & E1 & E2 & Hp & W1 & W2 & Ha). unfold v4_attn in Hr |- *. cbn [la_ratio la_pool la_cw la_ape] in *.
    rewrite E1, E2. split; [lia|]. split; [apply W1|]. unfold well_formed. split_and!; [done|done|exact Ha|].
    unfold Dsv4Attn.stream. apply Forall_map, Forall_lookup. intros p t E. destruct (Htok p t E) as (x & -> & _). cbn. by apply comp_row_length.
Qed.

Lemma text_slice xs a s : imap (fun i x => token_at l (mc (a + i)) (ms (a + i)) x) (take s (drop a xs)) = take s (drop a (text_tokens xs)).
Proof.
  unfold text_tokens. apply list_eq. intros i. rewrite list_lookup_imap. destruct (decide (i < s)) as [Hi|Hi].
  - rewrite !lookup_take_lt, !lookup_drop by done. by rewrite list_lookup_imap.
  - by rewrite !lookup_take_ge by lia.
Qed.

(** One call's attention moves a layer from [a] tokens to [a + s], and gives each
    token its own. *)
Lemma v4_attention_text xs kv M L li a s cos sin ccos csin :
  wide_rows d xs -> kc_kv_lora kv = hd -> ring_ok kv M L -> M !! li = Some (map tk_lat (take a (text_tokens xs))) ->
  L <= a + 1 - Z.to_nat (Config.window c) -> comp_ok (pf_exp pf) dm crow srow la (text_tokens xs) kv li a ->
  scores_numbers l crow srow xs -> idx_ok l crow srow xs kv li a ->
  table_rows dm mc ms (Nat.max (a + s) 1) (cos, sin) -> table_rows dm crow srow (Nat.max (a + s) 1) (ccos, csin) ->
  (forall n, exists t, table_rows dm mc ms n t) ->
  0 < s -> a + s <= length xs -> (Z.of_nat (length xs + length xs) < 2 ^ 31)%Z ->
  exists kv', v4_attention pf c l li kv (concat (take s (drop a xs))) s a cos sin ccos csin =
      Some (kv', concat (map (attn_out xs) (seq a s))) /\
    Forall (fun y => length y = d) (map (attn_out xs) (seq a s)) /\
    ring_ok kv' (<[li := map tk_lat (take (a + s) (text_tokens xs))]> M) (a + 1 - Z.to_nat (Config.window c)) /\
    kc_kv_lora kv' = hd /\ comp_ok (pf_exp pf) dm crow srow la (text_tokens xs) kv' li (a + s) /\
    (idx_ok l crow srow xs kv' li (a + s) /\
     forall ratio' hd' ape' S' ref' lj n, lj <> li -> store_ok ratio' hd' ape' S' ref' (swap kv) lj n -> store_ok ratio' hd' ape' S' ref' (swap kv') lj n) /\
    forall la' T' lj n, lj <> li -> comp_ok (pf_exp pf) dm crow srow la' T' kv lj n -> comp_ok (pf_exp pf) dm crow srow la' T' kv' lj n.
Proof.
  intros Hx Hlora Hring HM HL Hcomp Hnum Hidx Hmt Hct Hall Hs Ha Hb.
  pose proof (table_holds _ _ _ _ _ Hmt) as Hmr. destruct (Hall (length xs)) as ([t1 t2] & Ht12). apply table_holds in Ht12.
  pose proof (text_dims _ t1 t2 xs Ht12 ltac:(lia) Hx) as Hd. set (ys := take s (drop a xs)).
  assert (length ys = s) as Ly by (unfold ys; rewrite length_take, length_drop; lia).
  assert (wide_rows d ys) as Wy by (by apply Forall_take, Forall_drop).
  assert (length (text_tokens xs) = length xs) as LT by apply length_imap.
  unfold v4_attention. destruct (q_lat_rows l W ys Wy) as [Eq Wq]. rewrite Ly in Eq. rewrite Eq. cbv beta iota.
  pose proof (tokens_rows l W a (Nat.max (a + s) 1) cos sin mc ms ys Hmr ltac:(lia) Wy) as Et. rewrite Ly in Et.
  assert (imap (fun i x => token_at l (mc (a + i)) (ms (a + i)) x) ys = take s (drop a (text_tokens xs))) as Es by apply text_slice. rewrite Es in Et.
  rewrite Et. cbv beta iota. fold v4_scale.
  destruct (dsv4_attention_ok (pf_exp pf) dm v4_scale crow srow (picked l crow srow xs) Hexp
    (dsv4_compress_select pf c l li (concat ys) (concat (map (lat_row l) ys)) s a ccos csin) la (text_tokens xs) kv M L li a s ccos csin _
    (picked_closed l crow srow xs) Hd Hwin Hlora Hring HM HL Hcomp Hct Hs ltac:(lia) ltac:(lia) (compress_select_rows l crow srow W Wi xs kv li a s ccos csin Hnum Hx Hidx Hct Ha))
    as (kv' & o & E & Ho & Hr' & Hl' & Hc' & Hi' & Hoth).
  rewrite E. cbv beta iota.
  assert (map (fun heads : rows => concat heads) o = map (fun p => concat (attn_heads xs p)) (seq a s)) as Eo.
  { clear -Ho. apply mapM_Some in Ho. unfold attn_heads. induction Ho as [|p r ps rs Hp _ IH]; [done|]. cbn. rewrite Hp. by f_equal. }
  rewrite Eo. set (os := map (fun p => concat (attn_heads xs p)) (seq a s)).
  assert (length os = s) as Los by (unfold os; by rewrite length_map, length_seq).
  assert (wide_rows (h * hd) os) as Wos.
  { unfold os. rewrite <- Eo. apply Forall_map, Forall_lookup. intros i r Hr. apply mapM_Some in Ho.
    destruct (Forall2_lookup_r _ _ _ _ _ Ho Hr) as (p & Hp & Hf). apply lookup_seq in Hp as [-> Hp].
    destruct (attn_ref_wide (pf_exp pf) dm v4_scale crow srow (picked l crow srow xs) la (text_tokens xs) (Nat.max (a + s) 1) ccos csin (a + i) r (picked_closed l crow srow xs) Hd Hct ltac:(lia) Hf) as [Hw Hh].
    cbn. rewrite (concat_len hd) by done. by rewrite Hh. }
  destruct (output_rows l W a (Nat.max (a + s) 1) cos sin mc ms os Hmr ltac:(lia) Wos) as [Eout Wout]. rewrite Los in Eout. rewrite Eout.
  assert (imap (fun i r => out_row l (mc (a + i)) (ms (a + i)) r) os = map (attn_out xs) (seq a s)) as Ei.
  { apply list_eq. intros i. rewrite list_lookup_imap. unfold os. change (map ?f ?k) with (f <$> k). rewrite !list_lookup_fmap.
    destruct (decide (i < s)); [by rewrite lookup_seq_lt by done|by rewrite lookup_seq_ge by lia]. }
  rewrite Ei in Wout |- *. exists kv'. split_and!; [done|done|done|congruence|done|exact (proj1 Hi')|exact (proj2 Hi')|done].
Qed.
End Text.
End Rows.

(** ** The allocation of the compressed rows *)

Section Init.
Context (pf : Platform) (c : Config).
Local Set Default Proof Using "Type".
Abbreviation dm := (dims_of c).
Abbreviation hd := (len_of (qk_head c)).

Lemma init_ring n kv M L : ring_ok kv M L -> ring_ok (v4_init pf c n kv) M L.
Proof.
  intros Hr. unfold v4_init, dsv4_comp_init. destruct (_ && (comp_rows_len kv =? 0)); [|done].
  assert (ring_ok (comp_init kv n (compress_ratios c) hd (len_of (max_ctx c) / Z.to_nat (min_ratio (compress_ratios c)) + 2)) M L) as H1.
  { by apply ring_ok_set_comp. }
  destruct (_ && _); [|done]. destruct H1. by split.
Qed.

Lemma init_lora n kv : kc_kv_lora (v4_init pf c n kv) = kc_kv_lora kv.
Proof.
  unfold v4_init, dsv4_comp_init. destruct (_ && (comp_rows_len kv =? 0)); [|done]. by destruct (_ && _).
Qed.

(** A layer of a model of [nl]. *)
Context (l : Layer) (li nl : nat) (Wr : l_comp_ratio l = ratio_at (compress_ratios c) li /\ (0 <= l_comp_ratio l < 2 ^ 31)%Z)
  (Wi : indexed pf c l = true -> wf_indexer c l) (Hlt : li < nl) {crow srow : nat -> list f32}.
Local Set Default Proof Using "All".

Lemma init_comp kv T n : kc_comp kv = [] -> n = 0 \/ la_ratio (v4_attn pf l) = 0 -> length T <= len_of (max_ctx c) ->
  comp_ok (pf_exp pf) dm crow srow (v4_attn pf l) T (v4_init pf c nl kv) li n.
Proof.
  intros H0 Hn HT. destruct Wr as [Er Hr]. pose proof (init_comp_ok (pf_exp pf) dm crow srow (pf_v4_compress pf) c kv nl (v4_attn pf l) T li n H0 Hn) as H1.
  unfold v4_init. assert (comp_rows_len kv =? 0 = true) as E0 by (unfold comp_rows_len; by rewrite H0).
  rewrite E0, andb_true_r. assert (comp_ok (pf_exp pf) dm crow srow (v4_attn pf l) T (dsv4_comp_init (pf_v4_compress pf) c nl kv) li n) as H2.
  { apply H1; [done|done| |done]. unfold v4_attn. cbn [la_ratio]. destruct (pf_v4_compress pf); [|done]. rewrite <- Er. unfold len_of, u64.
    rewrite Z.mod_small by lia. done. }
  destruct (pf_v4_compress pf) eqn:Ec; [|by unfold dsv4_comp_init in H2]. destruct (_ && _); [|done]. eapply store_ok_same; [|exact H2]. by split_and!.
Qed.

Lemma init_idx kv xs n : kc_comp kv = [] -> kc_icomp kv = [] \/ icomp_ready kv = index_on pf c ->
  n = 0 \/ indexed pf c l = false -> length xs <= len_of (max_ctx c) -> idx_ok pf c l crow srow xs (v4_init pf c nl kv) li n.
Proof.
  intros H0 Hi Hn HT.
  assert (index_on pf c = false -> icomp_ready kv = false) as Hoff.
  { intros Hf. destruct Hi as [H|H]; [|congruence]. unfold icomp_ready. by rewrite H. }
  unfold v4_init. assert (comp_rows_len kv =? 0 = true) as E0 by (unfold comp_rows_len; by rewrite H0). rewrite E0, andb_true_r.
  unfold idx_ok, index_on in *. destruct (pf_v4_compress pf) eqn:Ec; cbn [andb] in *.
  2:{ split; [by apply Hoff|]. unfold indexed, index_on. by rewrite Ec. }
  unfold dsv4_comp_init. rewrite E0. cbn [andb].
  destruct (pf_v4_indexer pf && (0 <? index_hd c)%Z) eqn:Eon.
  2:{ split; [by apply Hoff|]. unfold indexed, index_on. rewrite Ec. cbn [andb]. by rewrite Eon. }
  assert (forall {A} (g : nat -> A), map g (seq 0 nl) !! li = Some (g li)) as Hmap.
  { intros A g. change (map ?h ?l) with (h <$> l). by rewrite list_lookup_fmap, lookup_seq_lt. }
  split; [unfold icomp_ready, icomp_init; cbn; rewrite length_map, length_seq; lia|].
  intros Hx. destruct Hn as [-> |Hn]; [|congruence]. pose proof (Wi Hx) as W. destruct Wr as [Er _]. rewrite (wi_ratio _ _ W) in Er. eapply store_ok_fresh; [by left|apply Hmap|by apply lookup_replicate_2|done|].
  intros _. change (kc_comp_state (swap ?k)) with (kc_icomp_state k). unfold icomp_init. cbn [kc_icomp_state set_icomp]. rewrite Hmap, <- Er.
  split; [done|]. change (4 =? 4)%Z with true. unfold idx_stream. rewrite length_map, length_replicate. apply Nat.mul_le_mono_r.
  transitivity (len_of (max_ctx c) / 4); [by apply Nat.Div0.div_le_mono|apply Nat.le_add_r].
Qed.

End Init.

(** ** A layer *)

Section Layers.
Context (pf : Platform) (c : Config) {E X : Type} `{!ExpertProvider E}.
Local Set Default Proof Using "Type".

Abbreviation d := (Z.to_nat (hidden c)).
Abbreviation hd := (len_of (qk_head c)).
Abbreviation hc := (Z.to_nat (hc_mult c)).
Abbreviation dm := (dims_of c).
Abbreviation win := (Z.to_nat (Config.window c)).
Abbreviation rows := (list (list f32)).
Abbreviation text_ok := (comp_ok (pf_exp pf) dm).

(** A token's copies, collapsed and normed, and a sublayer's row spread over them. *)
Definition hc_mixed (fn scale base x : list f32) : list f32 * HcWeights :=
  default ([], {| hw_pre := []; hw_post := []; hw_comb := [] |})
    (hc_pre (pf_exp pf) x fn scale base hc d (eps c) (hc_eps c) (Z.to_nat (hc_sinkhorn_iters c))).
Definition hc_normed (fn scale base norm x : list f32) : list f32 := norm_of c norm (hc_mixed fn scale base x).1.
Definition hc_joined (fn scale base y x : list f32) : list f32 := default [] (hc_post y x (hc_mixed fn scale base x).2 hc d).

Lemma hc_collapse_rows fn scale base norm (xs : rows) : wf_hc scale base hc -> 0 < d -> d <= length norm -> wide_rows (hc * d) xs ->
  hc_collapse pf c fn scale base norm (length xs) (concat xs) =
    Some (concat (map (hc_normed fn scale base norm) xs), map (fun x => (hc_mixed fn scale base x).2) xs) /\
  wide_rows d (map (hc_normed fn scale base norm) xs).
Proof.
  intros Wh Hd Hn Hx.
  assert (forall x, length x = hc * d -> hc_pre (pf_exp pf) x fn scale base hc d (eps c) (hc_eps c) (Z.to_nat (hc_sinkhorn_iters c)) = Some (hc_mixed fn scale base x) /\
    length (hc_mixed fn scale base x).1 = d) as Hp.
  { intros x Hl. unfold hc_mixed. destruct (hc_pre_some (pf_exp pf) d hc x fn scale base (eps c) (hc_eps c) (Z.to_nat (hc_sinkhorn_iters c)) Wh Hd Hl) as (y & w & -> & Hy & _). done. }
  unfold hc_collapse. rewrite each_row_concat by done.
  assert (mapM (fun r => hc_pre (pf_exp pf) r fn scale base hc d (eps c) (hc_eps c) (Z.to_nat (hc_sinkhorn_iters c))) xs = Some (map (hc_mixed fn scale base) xs)) as ->.
  { change (map ?f ?k) with (f <$> k). apply mapM_Some, Forall2_fmap_r, Forall_Forall2_diag. eapply Forall_impl; [exact Hx|]. intros x Hl. by apply Hp. }
  cbv beta iota.
  assert (mapM (fun p : list f32 * HcWeights => rmsnorm p.1 norm (eps c)) (map (hc_mixed fn scale base) xs) = Some (map (hc_normed fn scale base norm) xs)) as ->.
  { change (map ?f ?k) with (f <$> k). apply mapM_Some, Forall2_fmap_l, Forall2_fmap_r, Forall_Forall2_diag. eapply Forall_impl; [exact Hx|]. intros x Hl.
    destruct (Hp x Hl) as [_ Hy]. apply norm_of_some. lia. }
  split; [by rewrite map_map|]. apply Forall_map. eapply Forall_impl; [exact Hx|]. intros x Hl. destruct (Hp x Hl) as [_ Hy]. unfold compose, hc_normed.
  destruct (norm_of_some c norm (hc_mixed fn scale base x).1) as [_ ->]; lia.
Qed.

Lemma hc_joined_length fn scale base y x : wf_hc scale base hc -> 0 < d -> length x = hc * d -> length y = d ->
  hc_post y x (hc_mixed fn scale base x).2 hc d = Some (hc_joined fn scale base y x) /\ length (hc_joined fn scale base y x) = hc * d.
Proof.
  intros Wh Hd Hx Hy. unfold hc_joined. unfold hc_mixed.
  destruct (hc_pre_some (pf_exp pf) d hc x fn scale base (eps c) (hc_eps c) (Z.to_nat (hc_sinkhorn_iters c)) Wh Hd Hx) as (z & w & -> & _ & Hw). cbn.
  destruct (hc_post_some (pf_exp pf) d hc y x w Hw Hy Hx) as (o & -> & Ho). done.
Qed.

Lemma hc_expand_rows fn scale base (ys xs : rows) : wf_hc scale base hc -> 0 < d -> wide_rows d ys -> wide_rows (hc * d) xs -> length ys = length xs ->
  hc_expand c (length xs) (concat ys) (concat xs) (map (fun x => (hc_mixed fn scale base x).2) xs) =
    Some (concat (zip_with (hc_joined fn scale base) ys xs)) /\ wide_rows (hc * d) (zip_with (hc_joined fn scale base) ys xs).
Proof.
  intros Wh Hd Hy Hx Hl. split.
  - unfold hc_expand. assert (zip_with (hc_joined fn scale base) ys xs = imap (fun i x => hc_joined fn scale base (default [] (ys !! i)) x) xs) as ->.
    { apply list_eq. intros i. rewrite list_lookup_imap. destruct (ys !! i) as [y|] eqn:Hyi, (xs !! i) as [x|] eqn:Hxi.
      - apply lookup_zip_with_Some. by exists y, x.
      - apply lookup_lt_Some in Hyi. apply lookup_ge_None in Hxi. lia.
      - apply lookup_lt_Some in Hxi. apply lookup_ge_None in Hyi. lia.
      - apply lookup_ge_None_2. apply lookup_ge_None in Hyi. rewrite length_zip_with. lia. }
    erewrite mapM_seq_imap; [done|]. intros i x Hi. destruct (lookup_lt_is_Some_2 ys i) as [y Hyi]; [apply lookup_lt_Some in Hi; lia|].
    rewrite (concat_row d ys i y Hy Hyi), (concat_row (hc * d) xs i x Hx Hi). change (map ?f ?k) with (f <$> k). rewrite list_lookup_fmap, Hi, Hyi. cbn.
    unfold wide_rows in *. rewrite Forall_lookup in Hx, Hy. apply hc_joined_length; [done|done|by eapply Hx|by eapply Hy].
  - apply Forall_lookup. intros i z Hz. apply lookup_zip_with_Some in Hz as (y & x & -> & Hyi & Hxi).
    unfold wide_rows in *. rewrite Forall_lookup in Hx, Hy. apply hc_joined_length; [done|done|by eapply Hx|by eapply Hy].
Qed.

(** The rotary rows of a layer: with interpolation when the configuration gives it
    a Compressor, without otherwise. *)
Definition long_row (trig : f32 -> f32) : nat -> list f32 := comp_row (pf_pow pf) (pf_ln pf) trig c.
Definition main_row (trig : f32 -> f32) : nat -> list f32 :=
  rope_row trig (yarn_freqs (pf_pow pf) (pf_ln pf) (len_of (qk_rope c)) (theta c) (f32_of_Z 16) 0 (f32_of_Z 32) f32_one).
Definition layer_row (trig : f32 -> f32) (li : nat) : nat -> list f32 :=
  if (0 <? ratio_at (compress_ratios c) li)%Z then long_row trig else main_row trig.
Abbreviation crow := (long_row (pf_cos pf)).
Abbreviation srow := (long_row (pf_sin pf)).
Abbreviation mc li := (layer_row (pf_cos pf) li).
Abbreviation ms li := (layer_row (pf_sin pf) li).

Section Layer.
Context (l : Layer) (li : nat).

(** A layer the loader accepts, with its experts at hand. *)
Record wf_layer_v4 : Prop := {
  wl_attn : wf_v4 pf c l;
  wl_indexer : indexed pf c l = true -> wf_indexer c l;
  wl_ratio : l_comp_ratio l = ratio_at (compress_ratios c) li /\ (0 <= l_comp_ratio l < 2 ^ 31)%Z;
  wl_hc_attn : wf_hc (l_hc_attn_scale l) (l_hc_attn_base l) hc;
  wl_hc_ffn : wf_hc (l_hc_ffn_scale l) (l_hc_ffn_base l) hc;
  wl_norms : d <= length (l_in_ln l) /\ d <= length (l_post_ln l);
  wl_moe : dsv4_ready (pf_exp pf) (pf_tanh pf) (pf_act pf) c l li
}.

(** The attention's input, and what the two halves make of a text's stream. *)
Definition attn_input (xs : rows) : rows := map (hc_normed (l_hc_attn_fn l) (l_hc_attn_scale l) (l_hc_attn_base l) (l_in_ln l)) xs.
Definition layer_tokens (xs : rows) : list Token := text_tokens pf c l (mc li) (ms li) (attn_input xs).
Definition attn_half (xs : rows) : rows :=
  imap (fun p x => hc_joined (l_hc_attn_fn l) (l_hc_attn_scale l) (l_hc_attn_base l)
    (attn_out pf c l (mc li) (ms li) crow srow (attn_input xs) p) x) xs.
Definition ffn_one (id : Z) (x : list f32) : list f32 :=
  hc_joined (l_hc_ffn_fn l) (l_hc_ffn_scale l) (l_hc_ffn_base l)
    (dsv4_token_row (pf_exp pf) (pf_tanh pf) (pf_ln_1p pf) (pf_act pf) c l li
      (id, hc_normed (l_hc_ffn_fn l) (l_hc_ffn_scale l) (l_hc_ffn_base l) (l_post_ln l) x)) x.
Definition layer_stream (ids : list Z) (xs : rows) : rows := zip_with ffn_one ids (attn_half xs).

Context (W : wf_layer_v4).
Local Set Default Proof Using "All".

Lemma attn_out_length m m' cr sr xs p : length (attn_out pf c l m m' cr sr xs p) = d.
Proof.
  destruct (wv_o_b pf c l (wl_attn W)) as (wb & Eb & Wb). unfold attn_out, out_row. rewrite Eb. by eapply matvec_length.
Qed.

Lemma attn_input_wide xs : wide_rows (hc * d) xs -> wide_rows d (attn_input xs).
Proof.
  intros Hx. destruct (wl_norms W) as [Hn _]. pose proof (proj1 (wv_dims pf c l (wl_attn W))) as Hd.
  by apply hc_collapse_rows; [apply (wl_hc_attn W)|..].
Qed.

Lemma attn_half_wide xs : wide_rows (hc * d) xs -> wide_rows (hc * d) (attn_half xs) /\ length (attn_half xs) = length xs.
Proof.
  intros Hx. pose proof (proj1 (wv_dims pf c l (wl_attn W))) as Hd. split; [|apply length_imap]. apply Forall_lookup. intros i y Hy.
  unfold attn_half in Hy. rewrite list_lookup_imap in Hy. apply fmap_Some in Hy as (x & Hi & ->). unfold wide_rows in Hx. rewrite Forall_lookup in Hx.
  apply hc_joined_length; [apply (wl_hc_attn W)|done|by eapply Hx|apply attn_out_length].
Qed.

(** The rows of one call's half of the layer. *)
Lemma attn_half_slice xs a s : a + s <= length xs ->
  zip_with (hc_joined (l_hc_attn_fn l) (l_hc_attn_scale l) (l_hc_attn_base l))
    (map (attn_out pf c l (mc li) (ms li) crow srow (attn_input xs)) (seq a s)) (take s (drop a xs)) = take s (drop a (attn_half xs)).
Proof.
  intros Ha. apply list_eq. intros i. unfold attn_half. destruct (decide (i < s)) as [Hi|Hi].
  - rewrite lookup_take_lt, lookup_drop, list_lookup_imap by done. destruct (lookup_lt_is_Some_2 xs (a + i)) as [x Hx]; [lia|]. rewrite Hx. cbn.
    apply lookup_zip_with_Some. eexists _, _. split; [done|]. split.
    + change (map ?f ?k) with (f <$> k). by rewrite list_lookup_fmap, lookup_seq_lt.
    + by rewrite lookup_take_lt, lookup_drop.
  - rewrite (lookup_take_ge (drop a (imap _ _))) by lia. apply lookup_ge_None_2. rewrite length_zip_with, length_map, length_seq. lia.
Qed.

(** The experts' half of a block. *)
Lemma ffn_half (ids : list Z) (zs : rows) : wide_rows (hc * d) zs -> length ids = length zs -> active_experts c <= 2 ->
  exists ws xn, hc_collapse pf c (l_hc_ffn_fn l) (l_hc_ffn_scale l) (l_hc_ffn_base l) (l_post_ln l) (length zs) (concat zs) = Some (xn, ws) /\
  exists sub, dsv4_moe (pf_exp pf) (pf_tanh pf) (pf_ln_1p pf) (pf_act pf) (X := X) c l li xn (length zs) ids (length zs * d) = ROk sub /\
    hc_expand c (length zs) sub (concat zs) ws = Some (concat (zip_with ffn_one ids zs)) /\ wide_rows (hc * d) (zip_with ffn_one ids zs).
Proof.
  intros Hz Hl Hk. destruct (wl_norms W) as [_ Hn]. pose proof (proj1 (wv_dims pf c l (wl_attn W))) as Hd. pose proof (wl_hc_ffn W) as Wh.
  destruct (hc_collapse_rows (l_hc_ffn_fn l) (l_hc_ffn_scale l) (l_hc_ffn_base l) (l_post_ln l) zs Wh Hd Hn Hz) as [Ec Wc].
  eexists _, _. split; [exact Ec|].
  set (nrm := hc_normed (l_hc_ffn_fn l) (l_hc_ffn_scale l) (l_hc_ffn_base l) (l_post_ln l)) in *.
  set (ts := combine ids (map nrm zs)).
  assert (map snd ts = map nrm zs /\ map fst ts = ids /\ length ts = length zs) as (E1 & E2 & E3).
  { unfold ts. destruct (combine_fst_snd ids (map nrm zs)) as [H1 H2]; [by rewrite length_map|]. split_and!; [done..|]. rewrite length_combine, length_map. lia. }
  destruct (dsv4_moe_tokens (pf_exp pf) (pf_tanh pf) (pf_ln_1p pf) (pf_act pf) (X := X) c l li ts (wl_moe W) Hk) as [Em Wm].
  { apply (proj1 (Forall_map snd (fun x => length x = d) ts)). by rewrite E1. }
  rewrite E1, E2, E3 in Em. eexists. split; [exact Em|].
  set (row := dsv4_token_row (pf_exp pf) (pf_tanh pf) (pf_ln_1p pf) (pf_act pf) c l li) in *.
  assert (zip_with ffn_one ids zs = zip_with (hc_joined (l_hc_ffn_fn l) (l_hc_ffn_scale l) (l_hc_ffn_base l)) (map row ts) zs) as ->.
  { unfold ts. clear -Hl. revert zs Hl. induction ids as [|id ids IH]; intros [|z zs] Hl; try done. cbn. f_equal. apply IH. by injection Hl. }
  apply hc_expand_rows; [done|done|by apply Forall_map|done|by rewrite length_map].
Qed.

(** A layer's call on positions [a] to [a + s] of a text. *)
Lemma layer_text kv M L ids xs a s cos sin ccos csin : (forall x, unsigned (pf_exp pf x) = true) -> (0 < Config.window c)%Z -> active_experts c <= 2 ->
  wide_rows (hc * d) xs -> length ids = length xs -> kc_kv_lora kv = hd -> ring_ok kv M L ->
  M !! li = Some (map tk_lat (take a (layer_tokens xs))) -> L <= a + 1 - win ->
  text_ok crow srow (v4_attn pf l) (layer_tokens xs) kv li a ->
  scores_numbers pf c l crow srow (attn_input xs) -> idx_ok pf c l crow srow (attn_input xs) kv li a ->
  (forall n, exists t, table_rows dm (mc li) (ms li) n t) ->
  table_rows dm (mc li) (ms li) (Nat.max (a + s) 1) (cos, sin) -> table_rows dm crow srow (Nat.max (a + s) 1) (ccos, csin) ->
  0 < s -> a + s <= length xs -> (Z.of_nat (length xs + length xs) < 2 ^ 31)%Z ->
  exists kv', dsv4_layer_forward pf c (X := X) kv l li (concat (take s (drop a xs))) s (take s (drop a ids)) a cos sin ccos csin =
      ROk (kv', concat (take s (drop a (layer_stream ids xs)))) /\
    ring_ok kv' (<[li := map tk_lat (take (a + s) (layer_tokens xs))]> M) (a + 1 - win) /\
    kc_kv_lora kv' = hd /\ text_ok crow srow (v4_attn pf l) (layer_tokens xs) kv' li (a + s) /\
    (idx_ok pf c l crow srow (attn_input xs) kv' li (a + s) /\
     forall ratio' hd' ape' S' ref' lj n, lj <> li -> store_ok ratio' hd' ape' S' ref' (swap kv) lj n -> store_ok ratio' hd' ape' S' ref' (swap kv') lj n) /\
    forall la' T' lj n, lj <> li -> text_ok crow srow la' T' kv lj n -> text_ok crow srow la' T' kv' lj n.
Proof.
  intros Hexp Hwin Hk Hx Hl Hlora Hring HM HL Hcomp Hnum Hidx Hall Hmt Hct Hs Ha Hb. pose proof (wl_attn W) as Wa.
  pose proof (proj1 (wv_dims pf c l Wa)) as Hd. destruct (wl_norms W) as [Hn _].
  set (ys := take s (drop a xs)). assert (length ys = s) as Ly by (unfold ys; rewrite length_take, length_drop; lia).
  assert (wide_rows (hc * d) ys) as Wy by (by apply Forall_take, Forall_drop).
  unfold dsv4_layer_forward.
  destruct (hc_collapse_rows (l_hc_attn_fn l) (l_hc_attn_scale l) (l_hc_attn_base l) (l_in_ln l) ys (wl_hc_attn W) Hd Hn Wy) as [Ec _].
  rewrite Ly in Ec. rewrite Ec. cbn [unwrap]. cbv beta iota.
  assert (map (hc_normed (l_hc_attn_fn l) (l_hc_attn_scale l) (l_hc_attn_base l) (l_in_ln l)) ys = take s (drop a (attn_input xs))) as ->.
  { unfold attn_input, ys. change (map ?f ?k) with (f <$> k). by rewrite fmap_take, fmap_drop. }
  destruct (v4_attention_text pf c l (mc li) (ms li) crow srow Wa (wl_indexer W) Hexp Hwin (attn_input xs) kv M L li a s cos sin ccos csin)
    as (kv' & Ea & Wo & Hr' & Hl' & Hc' & [Hi' Hio] & Hoth); try done.
  { by apply attn_input_wide. }
  { unfold attn_input. by rewrite length_map. }
  { unfold attn_input. by rewrite length_map. }
  rewrite Ea. cbn [unwrap]. cbv beta iota.
  destruct (hc_expand_rows (l_hc_attn_fn l) (l_hc_attn_scale l) (l_hc_attn_base l) _ ys (wl_hc_attn W) Hd Wo Wy) as [Ee We].
  { by rewrite length_map, length_seq. }
  rewrite Ly in Ee. rewrite Ee. cbn [unwrap]. cbv beta iota. unfold ys. rewrite attn_half_slice by done.
  destruct (attn_half_wide xs Hx) as [Wh Lh]. set (zs := take s (drop a (attn_half xs))).
  assert (length zs = s) as Lz by (unfold zs; rewrite length_take, length_drop; lia).
  destruct (ffn_half (take s (drop a ids)) zs) as (ws & xn & E1 & sub & E2 & E3 & _); [by apply Forall_take, Forall_drop|rewrite length_take, length_drop; lia|done|].
  rewrite Lz in E1, E2, E3. rewrite E1. cbn [unwrap]. cbv beta iota. rewrite E2. cbv beta iota. rewrite E3. cbn [unwrap]. cbv beta iota.
  exists kv'. split_and!; try done. do 3 f_equal. unfold layer_stream, zs. by rewrite zip_with_drop, zip_with_take.
Qed.

Lemma layer_stream_wide ids xs : active_experts c <= 2 -> wide_rows (hc * d) xs -> length ids = length xs ->
  wide_rows (hc * d) (layer_stream ids xs) /\ length (layer_stream ids xs) = length xs.
Proof.
  intros Hk Hx Hl. destruct (attn_half_wide xs Hx) as [Wh Lh].
  destruct (ffn_half ids (attn_half xs) Wh ltac:(lia) Hk) as (_ & _ & _ & _ & _ & _ & Hw). split; [done|].
  unfold layer_stream. rewrite length_zip_with. lia.
Qed.
End Layer.
End Layers.
