(* ===== verification/Dsv4Pass.v ===== *)
(** * A DeepSeek-V4 forward pass in chunks is the pass over the whole text

    The streams a text has after each layer; what a cache holds of them after some
    of its tokens; and that each forward call moves the cache on by its tokens and
    returns their rows of the last stream. *)

From Stdlib Require Import ZifyBool ZifyNat SpecFloat.
From S2P Require Import Prelude Rows DType Math Linear Usage Config Model Moe MoeBatch KvCache Hc Dsv4Num Dsv4 Dsv4Store Dsv4Attn Dsv4Moe Platform Dsv4Layer Dsv4Stack.
Local Open Scope nat_scope.

Section Pass.
Context (pf : Platform) {E X : Type} `{!ExpertProvider E} (m : Model).
Local Set Default Proof Using "Type".

Abbreviation c := (m_cfg m).
Abbreviation d := (Z.to_nat (hidden c)).
Abbreviation hd := (len_of (qk_head c)).
Abbreviation hc := (Z.to_nat (hc_mult c)).
Abbreviation dm := (dims_of c).
Abbreviation win := (Z.to_nat (Config.window c)).
Abbreviation rows := (list (list f32)).
Abbreviation crow := (long_row pf c (pf_cos pf)).
Abbreviation srow := (long_row pf c (pf_sin pf)).
Abbreviation layers := (imap pair (m_layers m)).

(** ** A text's streams *)

Definition start_row (id : Z) : list f32 := concat (replicate hc (default [] (embed_token m id))).
Abbreviation start ids := (map start_row ids).
Fixpoint through (ls : list (nat * Layer)) (ids : list Z) (xs : rows) : rows :=
  match ls with
  | [] => xs
  | (li, l) :: ls => through ls ids (layer_stream pf c l li ids xs)
  end.
Definition head_row (x : list f32) : list f32 :=
  default [] (hc_head (pf_exp pf) x (m_hc_head_fn m) (m_hc_head_scale m) (m_hc_head_base m) hc d (eps c) (hc_eps c)).
Definition text_rows (ids : list Z) : rows := map head_row (through layers ids (start ids)).

(** The stream every layer is given; and no score an Indexer compares in the text
    is a NaN. *)
Fixpoint layer_texts (ls : list (nat * Layer)) (ids : list Z) (xs : rows) : list (nat * Layer * rows) :=
  match ls with
  | [] => []
  | (li, l) :: ls => (li, l, xs) :: layer_texts ls ids (layer_stream pf c l li ids xs)
  end.
Definition numbers (ls : list (nat * Layer)) (ids : list Z) (xs : rows) : Prop :=
  Forall (fun x : nat * Layer * rows => scores_numbers pf c x.1.2 crow srow (attn_input pf c x.1.2 x.2)) (layer_texts ls ids xs).

(** A text of tokens the model has. *)
Definition tokens_fit (ids : list Z) : Prop := Forall (fun id => exists e, embed_token m id = Some e /\ length e = d) ids.

(** A model the loader accepts, whose window is not empty, whose experts' sums
    have at most two terms, and whose Indexers, if it has any, compare numbers. *)
Record wf_v4_model : Prop := {
  vm_layers : forall li l, m_layers m !! li = Some l -> wf_layer_v4 pf c l li;
  vm_dims : 0 < d /\ 0 < hc /\ hc <= length (m_hc_head_base m);
  vm_n : length (m_layers m) <= len_of (n_layers c);
  vm_lora : len_of (kv_lora c) = hd;
  vm_active : active_experts c <= 2;
  vm_window : (0 < Config.window c)%Z;
  vm_exp : forall x, unsigned (pf_exp pf x) = true;
  vm_scores : forall ids, tokens_fit ids -> length ids <= len_of (max_ctx c) -> numbers layers ids (start ids)
}.
(** A text within the model's context. *)
Definition fits_text (ids : list Z) : Prop :=
  tokens_fit ids /\
  length ids <= len_of (max_ctx c) /\ (Z.of_nat (length ids + length ids) < 2 ^ 31)%Z.

(** ** What a cache holds of a text after [a] of its tokens *)

Definition at_layer (a : nat) (kv : KvCache) (M : list rows) (x : nat * Layer * rows) : Prop :=
  let '(li, l, xs) := x in
  M !! li = Some (map tk_lat (take a (layer_tokens pf c l li xs))) /\
  comp_ok (pf_exp pf) dm crow srow (v4_attn pf l) (layer_tokens pf c l li xs) kv li a /\
  idx_ok pf c l crow srow (attn_input pf c l xs) kv li a.
Definition stack_at (ls : list (nat * Layer)) (ids : list Z) (xs : rows) (a : nat) (kv : KvCache) (M : list rows) : Prop :=
  Forall (at_layer a kv M) (layer_texts ls ids xs).
Definition at_text (ids : list Z) (a : nat) (kv : KvCache) : Prop :=
  exists M L, ring_ok kv M L /\ L <= a + 1 - win /\ kc_kv_lora kv = hd /\ stack_at layers ids (start ids) a kv M.
(** What a layer's store hold is kept. *)
Definition kept (li : nat) (kv kv' : KvCache) : Prop :=
  (forall la T n, comp_ok (pf_exp pf) dm crow srow la T kv li n -> comp_ok (pf_exp pf) dm crow srow la T kv' li n) /\
  (forall l xs n, idx_ok pf c l crow srow xs kv li n -> idx_ok pf c l crow srow xs kv' li n).
(** A new cache; the first call allocates its compressed rows. *)
Definition new_cache (kv : KvCache) : Prop :=
  kc_comp kv = [] /\ kc_icomp kv = [] /\ kc_kv_lora kv = hd /\ exists n, length (m_layers m) <= n /\ ring_ok kv (replicate n []) 0.
Definition ready_for (ids : list Z) (a : nat) (kv : KvCache) : Prop := (a = 0 /\ new_cache kv) \/ at_text ids a kv.

Context (W : wf_v4_model).
Local Set Default Proof Using "All".

Lemma start_wide ids : tokens_fit ids -> v4_embed m ids = Some (concat (start ids)) /\ wide_rows (hc * d) (start ids).
Proof.
  intros Hf. split.
  - unfold v4_embed. assert (mapM (embed_token m) ids = Some (map (fun id => default [] (embed_token m id)) ids)) as ->.
    { change (map ?f ?k) with (f <$> k). apply mapM_Some, Forall2_fmap_r, Forall_Forall2_diag. eapply Forall_impl; [exact Hf|]. intros id (e & He & _). cbn in *. by rewrite He. }
    by rewrite map_map.
  - apply Forall_map. eapply Forall_impl; [exact Hf|]. intros id (e & He & Hl). unfold compose, start_row. rewrite He. cbn.
    rewrite (concat_len d); [by rewrite length_replicate|]. by apply Forall_replicate.
Qed.

Lemma layers_wf k : Forall (fun x => wf_layer_v4 pf c x.2 x.1) (drop k layers).
Proof.
  apply Forall_drop, Forall_lookup. intros i [li l] Hi. rewrite list_lookup_imap in Hi. apply fmap_Some in Hi as (l' & Hl & [= -> ->]). by apply (vm_layers W).
Qed.

Lemma through_wide ids ls : Forall (fun x => wf_layer_v4 pf c x.2 x.1) ls -> forall xs, wide_rows (hc * d) xs -> length ids = length xs ->
  wide_rows (hc * d) (through ls ids xs) /\ length (through ls ids xs) = length xs.
Proof.
  induction 1 as [|[li l] ls Wl _ IH]; intros xs Hx Hl; [done|]. cbn [through]. cbn in Wl.
  destruct (layer_stream_wide pf c (X := X) l li Wl ids xs (vm_active W) Hx Hl) as [H1 H2]. destruct (IH _ H1 ltac:(lia)) as [H3 H4]. split; [done|lia].
Qed.

(** The rows of a text's own layer, at a call's positions. *)
Lemma layer_tables li n : table_rows dm (layer_row pf c (pf_cos pf) li) (layer_row pf c (pf_sin pf) li) n
  (if (0 <? ratio_at (compress_ratios c) li)%Z then long_tables pf c n else main_tables pf c n).
Proof.
  unfold layer_row. destruct (0 <? _)%Z; apply (yarn_table_rows (pf_pow pf) (pf_ln pf) (pf_cos pf) (pf_sin pf) dm).
Qed.

Lemma layer_texts_in ids ls li l ys : forall xs, length ids = length xs -> (li, l, ys) ∈ layer_texts ls ids xs -> (li, l) ∈ ls /\ length ys = length ids.
Proof.
  induction ls as [|[lj k] ls IH]; intros xs Hl; cbn [layer_texts]; [by intros ?%elem_of_nil|]. intros [[= -> -> ->]|Hin]%elem_of_cons.
  - split; [by left|done].
  - destruct (IH (layer_stream pf c k lj ids xs)) as [H1 H2]; [|done|by split; [right|]].
    unfold layer_stream, attn_half. rewrite length_zip_with, length_imap. lia.
Qed.

Lemma NoDup_fst_imap {A} (l : list A) : NoDup (map fst (imap pair l)).
Proof using.
  assert (map fst (imap pair l) = seq 0 (length l)) as ->; [|apply NoDup_seq].
  apply list_eq. intros i. change (map ?f ?k) with (f <$> k). rewrite list_lookup_fmap, list_lookup_imap. destruct (l !! i) eqn:Hi; cbn.
  - by rewrite lookup_seq_lt by (by eapply lookup_lt_Some).
  - apply lookup_ge_None in Hi. by rewrite lookup_seq_ge.
Qed.

(** One call's layers. *)
Lemma layers_text ids a s ccos csin ncos nsin : 0 < s -> a + s <= length ids -> (Z.of_nat (length ids + length ids) < 2 ^ 31)%Z ->
  long_tables pf c (Nat.max (a + s) 1) = (ccos, csin) -> main_tables pf c (Nat.max (a + s) 1) = (ncos, nsin) ->
  forall ls xs kv M L, Forall (fun x => wf_layer_v4 pf c x.2 x.1) ls -> NoDup (map fst ls) -> wide_rows (hc * d) xs -> length ids = length xs ->
  numbers ls ids xs -> ring_ok kv M L -> L <= a + 1 - win -> kc_kv_lora kv = hd -> stack_at ls ids xs a kv M ->
  exists kv' M' L',
    for_each (fun '(kv, x) '(li, l) =>
      let '(mcos, msin) := if (0 <? ratio_at (compress_ratios c) li)%Z then (ccos, csin) else (ncos, nsin) in
      dsv4_layer_forward pf c (X := X) kv l li x s (take s (drop a ids)) a mcos msin ccos csin) ls (kv, concat (take s (drop a xs))) =
      ROk (kv', concat (take s (drop a (through ls ids xs)))) /\
    stack_at ls ids xs (a + s) kv' M' /\ ring_ok kv' M' L' /\ L' <= a + 1 - win /\ kc_kv_lora kv' = hd /\
    forall lj, lj ∉ map fst ls -> kept lj kv kv' /\ M' !! lj = M !! lj.
Proof.
  intros Hs Ha Hb Hlt Hmt. induction ls as [|[li l] ls IH]; intros xs kv M L Wl Hnd Hx Hl Hnum Hring HL Hlora Hh; [exists kv, M, L; split_and!; try done; constructor|].
  cbn [through map fst for_each] in *. apply Forall_cons in Wl as [Wl Wls]. apply NoDup_cons in Hnd as [Hni Hnd]. cbn [fst snd] in Wl.
  unfold stack_at in Hh. cbn [layer_texts] in Hh. apply Forall_cons in Hh as [(HM & Hc & Hi) Hh].
  unfold numbers in Hnum. cbn [layer_texts] in Hnum. apply Forall_cons in Hnum as [Hn1 Hnum]. cbn [fst snd] in Hn1.
  pose proof (layer_tables li (Nat.max (a + s) 1)) as Ht. rewrite Hlt, Hmt in Ht.
  destruct (if (0 <? ratio_at (compress_ratios c) li)%Z then (ccos, csin) else (ncos, nsin)) as [mcos msin].
  assert (table_rows dm crow srow (Nat.max (a + s) 1) (ccos, csin)) as Hct.
  { rewrite <- Hlt. apply (yarn_table_rows (pf_pow pf) (pf_ln pf) (pf_cos pf) (pf_sin pf) dm). }
  destruct (layer_text pf c (X := X) l li Wl kv M L ids xs a s mcos msin ccos csin (vm_exp W) (vm_window W) (vm_active W) Hx Hl Hlora Hring HM HL Hc Hn1 Hi
    (fun n => ex_intro _ _ (layer_tables li n)) Ht Hct Hs ltac:(lia) ltac:(lia)) as (kv1 & -> & Hr1 & Hl1 & Hc1 & [Hi1 Hio] & Hoth).
  assert (forall lj, lj <> li -> kept lj kv kv1) as Hkept.
  { intros lj Hj. split; [intros la T n; by apply Hoth|]. intros l' ys n [_ Hs']. split; [apply Hi1|]. intros Hx'. apply Hio; [done|by apply Hs']. }
  destruct (layer_stream_wide pf c (X := X) l li Wl ids xs (vm_active W) Hx Hl) as [Wx Lx].
  destruct (IH (layer_stream pf c l li ids xs) kv1 _ _ Wls Hnd Wx ltac:(lia) Hnum Hr1 ltac:(lia) Hl1) as (kv' & M' & L' & Eq & Hh' & Hr' & HL' & Hl' & Ho').
  { apply Forall_forall. intros [[lj k] ys] Hin. unfold stack_at in Hh. rewrite Forall_forall in Hh. destruct (Hh _ Hin) as (H1 & H2 & H3).
    apply layer_texts_in in Hin as [Hin _]; [|lia]. assert (lj <> li) as Hne.
    { intros ->. apply Hni. change (map ?f ?k) with (f <$> k). apply list_elem_of_fmap. by exists (li, k). }
    destruct (Hkept lj Hne) as [K1 K2]. split; [by rewrite list_lookup_insert_ne|]. split; [by apply K1|by apply K2]. }
  exists kv', M', L'. split_and!; try done.
  - apply Forall_cons. split; [|done]. destruct (Ho' li Hni) as [[K1 K2] Hm]. split; [rewrite Hm; apply list_lookup_insert_eq; by eapply lookup_lt_Some|].
    split; [by apply K1|by apply K2].
  - intros lj Hn. rewrite not_elem_of_cons in Hn. destruct Hn as [Hne Hn]. destruct (Ho' lj Hn) as [[K1 K2] Hm]. destruct (Hkept lj Hne) as [K3 K4].
    split; [|by rewrite Hm, list_lookup_insert_ne]. split; [intros la T n H; by apply K1, K3|intros l' ys n H; by apply K2, K4].
Qed.

(** ** The allocation of the compressed rows *)

Lemma in_layers i li l : layers !! i = Some (li, l) -> m_layers m !! li = Some l.
Proof using. rewrite list_lookup_imap. intros Hi. apply fmap_Some in Hi as (l' & Hli & [= -> ->]). done. Qed.

Lemma init_at_text ids a kv : fits_text ids -> ready_for ids a kv -> at_text ids a (v4_init pf c (length (m_layers m)) kv).
Proof.
  assert (forall l li xs, length (layer_tokens pf c l li xs) = length xs) as Ltok.
  { intros l li xs. unfold layer_tokens, text_tokens, attn_input. by rewrite length_imap, length_map. }
  assert (forall l xs, length (attn_input pf c l xs) = length xs) as Lin by (intros; apply length_map).
  intros (_ & Hmax & _) [[-> (H0 & Hi0 & Hlora & n & Hn & Hring)]|(M & L & Hring & HL & Hlora & Hh)].
  - exists (replicate n []), 0. split_and!; [by apply init_ring|lia|by rewrite init_lora|].
    apply Forall_forall. intros [[li l] xs] Hin. apply layer_texts_in in Hin as [Hin HT]; [|by rewrite length_map].
    apply list_elem_of_lookup in Hin as [i Hi]. apply in_layers in Hi.
    pose proof (lookup_lt_Some _ _ _ Hi) as Hlt. pose proof (vm_layers W _ _ Hi) as Wl. pose proof (wl_ratio _ _ _ _ Wl) as Wr. split; [apply lookup_replicate_2; lia|].
    split; [apply (init_comp pf c l li _ Wr (wl_indexer _ _ _ _ Wl) Hlt)|apply (init_idx pf c l li _ Wr (wl_indexer _ _ _ _ Wl) Hlt)]; rewrite ?Ltok, ?Lin; try done; try lia; by left.
  - destruct (decide (pf_v4_compress pf = true /\ kc_comp kv = [])) as [[Ec H0]|Hno].
    + exists M, L. split_and!; [by apply init_ring|lia|by rewrite init_lora|]. unfold stack_at in *. rewrite Forall_forall in Hh |- *.
      intros [[li l] xs] Hin. destruct (Hh _ Hin) as (H1 & H2 & H3). split; [done|].
      apply layer_texts_in in Hin as [Hin HT]; [|by rewrite length_map].
      apply list_elem_of_lookup in Hin as [i Hi]. apply in_layers in Hi.
      assert (la_ratio (v4_attn pf l) = 0) as Hz.
      { destruct (decide (la_ratio (v4_attn pf l) = 0)); [done|].
        destruct (so_state _ _ _ _ _ _ _ _ H2 ltac:(lia)) as (st & buf & _ & _ & _ & _ & Hb & _). by rewrite H0, lookup_nil in Hb. }
      assert (indexed pf c l = false) as Hx by (unfold v4_attn in Hz; cbn in Hz; rewrite Ec in Hz; unfold indexed; by rewrite Hz, andb_false_r).
      pose proof (lookup_lt_Some _ _ _ Hi) as Hlt. pose proof (vm_layers W _ _ Hi) as Wl. pose proof (wl_ratio _ _ _ _ Wl) as Wr.
      split; [apply (init_comp pf c l li _ Wr (wl_indexer _ _ _ _ Wl) Hlt); [done|by right|rewrite Ltok; lia]|].
      apply (init_idx pf c l li _ Wr (wl_indexer _ _ _ _ Wl) Hlt); [done|right; apply H3|by right|rewrite Lin; lia].
    + assert (v4_init pf c (length (m_layers m)) kv = kv) as ->; [|by exists M, L].
      unfold v4_init. destruct (pf_v4_compress pf); [|done]. destruct (Nat.eqb_spec (comp_rows_len kv) 0) as [E0|_]; [|done].
      destruct Hno. split; [done|]. by apply nil_length_inv.
Qed.

(** ** A call, and the calls of a pass *)

Lemma head_row_some x : length x = hc * d ->
  hc_head (pf_exp pf) x (m_hc_head_fn m) (m_hc_head_scale m) (m_hc_head_base m) hc d (eps c) (hc_eps c) = Some (head_row x) /\ length (head_row x) = d.
Proof.
  intros Hx. destruct (vm_dims W) as (H1 & H2 & H3). unfold head_row.
  destruct (hc_head_some (pf_exp pf) d hc x (m_hc_head_fn m) (m_hc_head_scale m) (m_hc_head_base m) (eps c) (hc_eps c) H2 H1 Hx H3) as (y & Ey & Hy).
  by rewrite Ey.
Qed.

Lemma pass_call ids a s kv : fits_text ids -> ready_for ids a kv -> 0 < s -> a + s <= length ids ->
  exists kv', dsv4_forward pf (X := X) m kv (take s (drop a ids)) a = ROk (kv', concat (take s (drop a (text_rows ids)))) /\ at_text ids (a + s) kv'.
Proof.
  intros Hf Hready Hs Ha. pose proof (start_wide ids (proj1 Hf)) as [_ Hx]. destruct (init_at_text ids a kv Hf Hready) as (M & L & Hring & HL & Hlora & Hh).
  assert (length (take s (drop a ids)) = s) as Ls by (rewrite length_take, length_drop; lia). unfold dsv4_forward. rewrite Ls.
  destruct (long_tables pf c (Nat.max (a + s) 1)) as [ccos csin] eqn:Hlt. destruct (main_tables pf c (Nat.max (a + s) 1)) as [ncos nsin] eqn:Hmt.
  assert (v4_embed m (take s (drop a ids)) = Some (concat (take s (drop a (start ids))))) as ->.
  { destruct (start_wide (take s (drop a ids))) as [-> _].
    - by apply Forall_take, Forall_drop, Hf.
    - change (map ?f ?k) with (f <$> k). by rewrite fmap_take, fmap_drop. }
  cbn [unwrap]. cbv beta iota.
  destruct (layers_text ids a s ccos csin ncos nsin Hs Ha (proj2 (proj2 Hf)) Hlt Hmt layers (start ids)
    (v4_init pf c (length (m_layers m)) kv) M L (layers_wf 0)) as (kv' & M' & L' & -> & Hh' & Hr' & HL' & Hl' & _); try done.
  { apply NoDup_fst_imap. }
  { by rewrite length_map. }
  { apply (vm_scores W); apply Hf. }
  cbv beta iota. destruct (through_wide ids layers (layers_wf 0) (start ids) Hx) as [Wt Lt]; [by rewrite length_map|]. rewrite length_map in Lt.
  assert (concat (take s (drop a (text_rows ids))) = concat (map head_row (take s (drop a (through layers ids (start ids)))))) as ->.
  { unfold text_rows. change (map ?f ?k) with (f <$> k). by rewrite fmap_take, fmap_drop. }
  assert (length (take s (drop a (through layers ids (start ids)))) = s) as Ly by (rewrite length_take, length_drop; lia).
  assert (wide_rows (hc * d) (take s (drop a (through layers ids (start ids))))) as Wy by (by apply Forall_take, Forall_drop).
  revert Ly Wy. generalize (take s (drop a (through layers ids (start ids)))). intros ys <- Wy. rewrite each_row_concat by done.
  assert (mapM (fun r => hc_head (pf_exp pf) r (m_hc_head_fn m) (m_hc_head_scale m) (m_hc_head_base m) hc d (eps c) (hc_eps c)) ys = Some (map head_row ys)) as ->.
  { change (map ?f ?k) with (f <$> k). apply mapM_Some, Forall2_fmap_r, Forall_Forall2_diag. eapply Forall_impl; [exact Wy|]. intros x Hlx. by apply head_row_some. }
  cbn [unwrap]. cbv beta iota. exists kv'. split; [done|]. exists M', L'. split_and!; [done|lia|done|done].
Qed.

Lemma text_rows_wide ids : tokens_fit ids -> wide_rows d (text_rows ids) /\ length (text_rows ids) = length ids.
Proof.
  intros Hf. destruct (start_wide ids Hf) as [_ Hx]. unfold text_rows. rewrite length_map.
  destruct (through_wide ids layers (layers_wf 0) (start ids) Hx) as [Wt ->]; [by rewrite length_map|]. split; [|by rewrite length_map].
  apply Forall_map. eapply Forall_impl; [exact Wt|]. intros x Hl. by apply head_row_some.
Qed.

Lemma pass_calls ids sizes : fits_text ids -> forall a kv, Forall (fun n => 0 < n) sizes -> a + sum_list sizes <= length ids -> ready_for ids a kv ->
  sizes <> [] ->
  exists kv' ys, chunk_calls pf (X := X) m kv (take (sum_list sizes) (drop a ids)) a sizes = ROk (kv', ys) /\
    concat ys = concat (take (sum_list sizes) (drop a (text_rows ids))) /\ at_text ids (a + sum_list sizes) kv'.
Proof.
  intros Hf. destruct (text_rows_wide ids (proj1 Hf)) as [_ Lt]. induction sizes as [|s sizes IH]; intros a kv Hpos Hsum Hready Hne; [done|]. apply Forall_cons in Hpos as [Hs Hpos].
  assert (sum_list (s :: sizes) = s + sum_list sizes) as Es by done. set (k := sum_list sizes) in *. rewrite Es in Hsum |- *. clear Es.
  cbn [chunk_calls]. rewrite take_take, Nat.min_l by lia.
  destruct (pass_call ids a s kv Hf Hready Hs ltac:(lia)) as (kv1 & -> & Hat). cbv beta iota.
  assert (drop s (take (s + k) (drop a ids)) = take k (drop (a + s) ids)) as ->.
  { by rewrite <- take_drop_commute, drop_drop. }
  assert (concat (take (s + k) (drop a (text_rows ids))) = concat (take s (drop a (text_rows ids))) ++ concat (take k (drop (a + s) (text_rows ids)))) as ->.
  { by rewrite <- concat_app, <- (drop_drop _ s a), take_take_drop. }
  destruct sizes as [|s' sizes'] eqn:Ez.
  - cbn in k. subst k. cbn [chunk_calls]. eexists _, _. split; [done|]. rewrite take_0, Nat.add_0_r. by split.
  - destruct (IH (a + s) kv1) as (kv' & ys & -> & Ey & Hat'); [done|lia|by right|done|]. cbv beta iota.
    eexists _, _. split; [done|]. split; [|by rewrite Nat.add_assoc]. cbn. by rewrite Ey.
Qed.

(** A pass in chunks is the pass over the text. *)
Lemma v4_chunked ids a s kv chunk : fits_text ids -> ready_for ids a kv -> 0 < s -> a + s <= length ids ->
  exists kv', dsv4_forward_chunked pf (X := X) m kv (take s (drop a ids)) a chunk = ROk (kv', concat (take s (drop a (text_rows ids)))) /\
    at_text ids (a + s) kv'.
Proof.
  intros Hf Hready Hs Ha. unfold dsv4_forward_chunked. set (ch := Z.max chunk 1).
  assert (length (take s (drop a ids)) = s) as -> by (rewrite length_take, length_drop; lia).
  destruct (Z.leb_spec (Z.of_nat s) ch) as [Hc|Hc]; [by apply pass_call|].
  destruct (chunk_sizes_tile s (Z.to_nat ch) Hs) as [Hsum Hpos].
  destruct (pass_calls ids (chunk_sizes s (Z.to_nat ch)) Hf a kv) as (kv' & ys & Eq & Ey & Hat).
  - eapply Forall_impl; [exact Hpos|]. intros x Hx. cbv beta in Hx. lia.
  - lia.
  - done.
  - intros E0. rewrite E0 in Hsum. cbn in Hsum. lia.
  - rewrite Hsum in *. rewrite Eq. cbv beta iota. exists kv'. by rewrite Ey.
Qed.
End Pass.
