(* ===== verification/Tiny.v ===== *)
(** * A configuration and a layer for examples

    One channel, two tokens, and a layer that serves every family: the models
    on which the theorems about whole passes are instantiated. *)

From Stdlib Require Import ZifyBool ZifyNat SpecFloat.
From S2P Require Import Prelude Rows DType Math Linear Config Model Moe MoeBatch KvCache Gqa Indexer Mla Mamba Kda.
Local Open Scope nat_scope.

Definition row_qt (v : list Z) : QTensor :=
  {| fmt_code := 0; qt_qf := map f32_of_Z v; qt_q8 := []; qt_q4 := []; qt_s := []; qt_bs := []; qt_g := f0;
     qt_o := 1; qt_i := Z.of_nat (length v); gpu_eligible := false |}.
(** [h] heads and [n] layers. *)
Definition tiny_config (a : Arch) (h n : Z) (kinds : list LayerKind) : Config := ({|
  Config.hidden := 1; Config.n_layers := n; Config.n_heads := h; Config.n_experts := 3; Config.topk := 2;
  Config.moe_inter := 0; Config.dense_inter := 0; Config.first_dense := 0; Config.q_lora := 1; Config.o_lora := 0;
  Config.o_groups := 0; Config.kv_lora := 1; Config.qk_nope := 1; Config.qk_rope := match a with GlmMoeDsa | KimiK3 => 2 | _ => 0 end; Config.qk_head := match a with GlmMoeDsa | KimiK3 => 3 | _ => 1 end;
  Config.v_head := 1; Config.n_shared := 0; Config.vocab := 2; Config.max_ctx := 0; Config.n_group := 0;
  Config.topk_group := 0; Config.norm_topk := false; Config.stop_ids := []; Config.index_topk := 16;
  Config.index_nh := 0; Config.index_hd := 0; Config.index_block_size := 0; Config.index_topk_blocks := 0;
  Config.index_local_blocks := 0; Config.idx_type := []; Config.eps := f32_one; Config.theta := f32_one;
  Config.attn_scale := f32_one; Config.routed_scale := f32_one; Config.arch := a; Config.n_kv_heads := 1;
  Config.shared_inter := 0; Config.qk_norm := false; Config.gemma_norm := false; Config.swiglu_oai := false;
  Config.swiglu_alpha := f0; Config.swiglu_limit := f0; Config.compress_ratios := []; Config.compress_theta := f0;
  Config.n_hash_layers := 0; Config.dspark_block := 0; Config.dspark_noise_id := 0; Config.markov_rank := 0;
  Config.dspark_targets := []; Config.hc_mult := 0; Config.hc_sinkhorn_iters := 0; Config.hc_eps := f0;
  Config.window := 0; Config.sigmoid_route := false; Config.router_score := Softmax; Config.swa_window := 0;
  Config.layer_swa := []; Config.nope_on_global := false; Config.layer_kind := kinds; Config.mtp_layer_kind := [];
  Config.mamba_d_state := 1; Config.mamba_d_conv := 2; Config.mamba_n_heads := 1; Config.mamba_head_dim := 1;
  Config.mamba_n_groups := 1; Config.mamba_inter := 1; Config.mamba_chunk := 0; Config.moe_latent := 1;
  Config.relu2 := false; Config.mamba_dt_min := f0; Config.kda_n_heads := 1; Config.kda_head_dim := 1;
  Config.situ := false; Config.situ_beta := f0; Config.situ_linear_beta := f0; Config.mla_nope := false;
  Config.kda_d_conv := 2; Config.attn_res_block_size := 2
|})%Z.

Definition tiny_layer (h : nat) : Layer := {|
  l_in_ln := [f32_one]; l_post_ln := [f32_one]; l_q_a := one_by_one f32_one; l_q_b := column_qt (concat (replicate h [1; 2; -1]%Z));
  l_kv_a := column_qt [1; 2; -1]%Z; l_kv_b := column_qt (concat (replicate h [2; 3]%Z));
  l_o := row_qt (replicate h 1%Z); l_q_a_ln := [f32_one]; l_kv_a_ln := [f32_one]; l_o_a := None; l_o_b := None; l_o_a_groups := [];
  l_attn_sink := []; l_idx_wq_b := None; l_idx_wproj := None; l_idx_comp_wkv := None; l_idx_comp_wgate := None;
  l_idx_comp_ape := []; l_idx_comp_norm := []; l_comp_ratio := 0%Z; l_comp_wkv := None; l_comp_wgate := None;
  l_comp_ape := []; l_comp_norm := []; l_tid2eid := []; l_hc_attn_fn := []; l_hc_attn_base := [];
  l_hc_attn_scale := []; l_hc_ffn_fn := []; l_hc_ffn_base := []; l_hc_ffn_scale := []; l_q_proj := Some (one_by_one f32_one);
  l_k_proj := Some (one_by_one f32_one); l_v_proj := Some (one_by_one f32_one); l_qkv_proj := None; l_q_norm := []; l_k_norm := []; l_idx_q_proj := None;
  l_idx_k_proj := None; l_idx_q_norm := []; l_idx_k_norm := []; l_sparse := false; l_gate_proj := one_by_one f32_one;
  l_up_proj := one_by_one f32_one; l_down_proj := one_by_one f32_one; l_router := map f32_of_Z [2; 1; 0]%Z; l_router_bias := []; l_sh_gate := one_by_one f32_one;
  l_sh_up := one_by_one f32_one; l_sh_down := one_by_one f32_one; l_ix_wk := None; l_ix_wq := None; l_ix_wp := None;
  l_ix_knorm_w := []; l_ix_knorm_b := []; l_mamba_in_proj := Some (column_qt [1; 2; -1; 3; 1]%Z); l_mamba_out_proj := Some (column_qt [2]%Z);
  l_mamba_conv_w := map f32_of_Z [1; 2; -1; 1; 3; 1]%Z; l_mamba_conv_b := []; l_mamba_a_log := [f32_one]; l_mamba_d := [f32_one]; l_mamba_dt_bias := [f0];
  l_mamba_norm := [f32_one]; l_fc1_latent := Some (one_by_one f32_one); l_fc2_latent := Some (one_by_one f32_one); l_attn_gate := Some (column_qt (replicate h 1%Z)); l_kda_b_proj := Some (one_by_one f32_one);
  l_kda_f_a := Some (one_by_one f32_one); l_kda_f_b := Some (one_by_one f32_one); l_kda_conv_q := map f32_of_Z [1; 2]%Z; l_kda_conv_k := map f32_of_Z [2; 1]%Z; l_kda_conv_v := map f32_of_Z [1; 3]%Z;
  l_kda_a_log := [f32_one]; l_kda_dt_bias := [f0]; l_kda_o_norm := [f32_one]; l_attn_res_norm := [f32_one]; l_attn_res_proj := [f32_two];
  l_mlp_res_norm := [f32_one]; l_mlp_res_proj := [f32_one]; l_routed_expert_norm := [f32_one]
|}.

Lemma tiny_qt w i o : cols_of w = i -> Linear.rows_of w = o -> (match qt_rows w with Some _ => true | None => false end) = true -> wf_qt w i o.
Proof. intros H1 H2 H3. split_and!; [done|done|]. destruct (qt_rows w); [by eexists|done]. Defined.
Ltac fits := first [done | apply tiny_qt; vm_compute; reflexivity | vm_compute; lia].

(** The layer's latent attention, of one head or two. *)
Lemma tiny_mla a (h n : Z) kinds : a = GlmMoeDsa \/ a = KimiK3 -> h = 1%Z \/ h = 2%Z -> wf_mla (mla_of (tiny_config a h n kinds)) (tiny_layer (Z.to_nat h)) 1.
Proof.
  intros [-> | ->] [-> | ->]; split; first [intros w [= <-]; fits | intros _; cbn; lia | fits].
Qed.

(** Its delta attention. *)
Lemma tiny_kda n kinds : wf_kda (tiny_config KimiK3 1 n kinds) (tiny_layer 1) 1.
Proof.
  split; first [eexists _, _; split_and!; fits | eexists; split; fits | split; fits | repeat (constructor; [done|]); constructor | fits].
Qed.

(** The same with an indexer that keeps one key: of the configuration, its
    first layer. *)
Definition indexed_config (c : Config) : Config := ({|
  Config.hidden := Config.hidden c; Config.n_layers := Config.n_layers c; Config.n_heads := Config.n_heads c;
  Config.n_experts := Config.n_experts c; Config.topk := Config.topk c; Config.moe_inter := Config.moe_inter c;
  Config.dense_inter := Config.dense_inter c; Config.first_dense := Config.first_dense c; Config.q_lora := Config.q_lora c;
  Config.o_lora := Config.o_lora c; Config.o_groups := Config.o_groups c; Config.kv_lora := Config.kv_lora c;
  Config.qk_nope := Config.qk_nope c; Config.qk_rope := Config.qk_rope c; Config.qk_head := Config.qk_head c;
  Config.v_head := Config.v_head c; Config.n_shared := Config.n_shared c; Config.vocab := Config.vocab c;
  Config.max_ctx := Config.max_ctx c; Config.n_group := Config.n_group c; Config.topk_group := Config.topk_group c;
  Config.norm_topk := Config.norm_topk c; Config.stop_ids := Config.stop_ids c; Config.index_topk := 1; Config.index_nh := 1;
  Config.index_hd := 2; Config.index_block_size := Config.index_block_size c; Config.index_topk_blocks := Config.index_topk_blocks c;
  Config.index_local_blocks := Config.index_local_blocks c; Config.idx_type := [true]; Config.eps := Config.eps c;
  Config.theta := Config.theta c; Config.attn_scale := Config.attn_scale c; Config.routed_scale := Config.routed_scale c;
  Config.arch := Config.arch c; Config.n_kv_heads := Config.n_kv_heads c; Config.shared_inter := Config.shared_inter c;
  Config.qk_norm := Config.qk_norm c; Config.gemma_norm := Config.gemma_norm c; Config.swiglu_oai := Config.swiglu_oai c;
  Config.swiglu_alpha := Config.swiglu_alpha c; Config.swiglu_limit := Config.swiglu_limit c;
  Config.compress_ratios := Config.compress_ratios c; Config.compress_theta := Config.compress_theta c;
  Config.n_hash_layers := Config.n_hash_layers c; Config.dspark_block := Config.dspark_block c;
  Config.dspark_noise_id := Config.dspark_noise_id c; Config.markov_rank := Config.markov_rank c;
  Config.dspark_targets := Config.dspark_targets c; Config.hc_mult := Config.hc_mult c;
  Config.hc_sinkhorn_iters := Config.hc_sinkhorn_iters c; Config.hc_eps := Config.hc_eps c; Config.window := Config.window c;
  Config.sigmoid_route := Config.sigmoid_route c; Config.router_score := Config.router_score c; Config.swa_window := Config.swa_window c;
  Config.layer_swa := Config.layer_swa c; Config.nope_on_global := Config.nope_on_global c; Config.layer_kind := Config.layer_kind c;
  Config.mtp_layer_kind := Config.mtp_layer_kind c; Config.mamba_d_state := Config.mamba_d_state c;
  Config.mamba_d_conv := Config.mamba_d_conv c; Config.mamba_n_heads := Config.mamba_n_heads c;
  Config.mamba_head_dim := Config.mamba_head_dim c; Config.mamba_n_groups := Config.mamba_n_groups c;
  Config.mamba_inter := Config.mamba_inter c; Config.mamba_chunk := Config.mamba_chunk c; Config.moe_latent := Config.moe_latent c;
  Config.relu2 := Config.relu2 c; Config.mamba_dt_min := Config.mamba_dt_min c; Config.kda_n_heads := Config.kda_n_heads c;
  Config.kda_head_dim := Config.kda_head_dim c; Config.situ := Config.situ c; Config.situ_beta := Config.situ_beta c;
  Config.situ_linear_beta := Config.situ_linear_beta c; Config.mla_nope := Config.mla_nope c; Config.kda_d_conv := Config.kda_d_conv c;
  Config.attn_res_block_size := Config.attn_res_block_size c
|})%Z.
Definition indexed_layer (l : Layer) : Layer := {|
  l_in_ln := l_in_ln l; l_post_ln := l_post_ln l; l_q_a := l_q_a l; l_q_b := l_q_b l; l_kv_a := l_kv_a l; l_kv_b := l_kv_b l; l_o := l_o l;
  l_q_a_ln := l_q_a_ln l; l_kv_a_ln := l_kv_a_ln l; l_o_a := l_o_a l; l_o_b := l_o_b l; l_o_a_groups := l_o_a_groups l;
  l_attn_sink := l_attn_sink l; l_idx_wq_b := l_idx_wq_b l; l_idx_wproj := l_idx_wproj l; l_idx_comp_wkv := l_idx_comp_wkv l;
  l_idx_comp_wgate := l_idx_comp_wgate l; l_idx_comp_ape := l_idx_comp_ape l; l_idx_comp_norm := l_idx_comp_norm l;
  l_comp_ratio := l_comp_ratio l; l_comp_wkv := l_comp_wkv l; l_comp_wgate := l_comp_wgate l; l_comp_ape := l_comp_ape l;
  l_comp_norm := l_comp_norm l; l_tid2eid := l_tid2eid l; l_hc_attn_fn := l_hc_attn_fn l; l_hc_attn_base := l_hc_attn_base l;
  l_hc_attn_scale := l_hc_attn_scale l; l_hc_ffn_fn := l_hc_ffn_fn l; l_hc_ffn_base := l_hc_ffn_base l; l_hc_ffn_scale := l_hc_ffn_scale l;
  l_q_proj := l_q_proj l; l_k_proj := l_k_proj l; l_v_proj := l_v_proj l; l_qkv_proj := l_qkv_proj l; l_q_norm := l_q_norm l;
  l_k_norm := l_k_norm l; l_idx_q_proj := l_idx_q_proj l; l_idx_k_proj := l_idx_k_proj l; l_idx_q_norm := l_idx_q_norm l;
  l_idx_k_norm := l_idx_k_norm l; l_sparse := l_sparse l; l_gate_proj := l_gate_proj l; l_up_proj := l_up_proj l;
  l_down_proj := l_down_proj l; l_router := l_router l; l_router_bias := l_router_bias l; l_sh_gate := l_sh_gate l; l_sh_up := l_sh_up l;
  l_sh_down := l_sh_down l; l_ix_wk := Some (column_qt [1; 2]%Z); l_ix_wq := Some (column_qt [1; 1]%Z);
  l_ix_wp := Some (one_by_one f32_one); l_ix_knorm_w := [f32_one; f32_two]; l_ix_knorm_b := [f32_one; f0];
  l_mamba_in_proj := l_mamba_in_proj l; l_mamba_out_proj := l_mamba_out_proj l; l_mamba_conv_w := l_mamba_conv_w l;
  l_mamba_conv_b := l_mamba_conv_b l; l_mamba_a_log := l_mamba_a_log l; l_mamba_d := l_mamba_d l; l_mamba_dt_bias := l_mamba_dt_bias l;
  l_mamba_norm := l_mamba_norm l; l_fc1_latent := l_fc1_latent l; l_fc2_latent := l_fc2_latent l; l_attn_gate := l_attn_gate l;
  l_kda_b_proj := l_kda_b_proj l; l_kda_f_a := l_kda_f_a l; l_kda_f_b := l_kda_f_b l; l_kda_conv_q := l_kda_conv_q l;
  l_kda_conv_k := l_kda_conv_k l; l_kda_conv_v := l_kda_conv_v l; l_kda_a_log := l_kda_a_log l; l_kda_dt_bias := l_kda_dt_bias l;
  l_kda_o_norm := l_kda_o_norm l; l_attn_res_norm := l_attn_res_norm l; l_attn_res_proj := l_attn_res_proj l;
  l_mlp_res_norm := l_mlp_res_norm l; l_mlp_res_proj := l_mlp_res_proj l; l_routed_expert_norm := l_routed_expert_norm l
|}.

Lemma indexed_mla c l d : wf_mla (mla_of c) l d -> wf_mla (mla_of (indexed_config c)) (indexed_layer l) d.
Proof. intros []. by split. Qed.
