(* ===== verification/MlaCluster.v ===== *)
(** * Attention over a cluster ([crates/colibri-engine/src/attention.rs])

    The split of the heads over the nodes, what a peer computes of its slice on a
    cache of its own, and the driver that adds the partial outputs in node
    order.  The exchange is an interface of the transport. *)

From Stdlib Require Import ZifyBool ZifyNat SpecFloat.
From S2P Require Import Prelude Rows DType Math Linear Sharding Config Model Moe MoeBatch KvCache Gqa Indexer Mla Mamba Tiny.
Local Open Scope nat_scope.

(** ** Over a cluster *)

Definition head_slice (node num_nodes : Z) (n_heads : nat) : nat * nat :=
  let n := Nat.max (Z.to_nat num_nodes) 1 in
  let k := Z.to_nat node in
  let '(base, rem) := (n_heads / n, n_heads mod n) in
  (k * base + Nat.min k rem, base + if k <? rem then 1 else 0).

(** A request for a slice of the heads, and the exchange that serves it;
    [RPanic]: the thread that made the exchange panicked. *)
Record AttnCall := {
  ac_activations : list f32; ac_sel : selection; ac_n_tokens : nat; ac_hidden : nat; ac_pos_base : Z; ac_h_start : Z; ac_h_count : Z;
  ac_layer : Z
}.
Class AttnTransport (X : Type) := {
  attn_node : Z;
  exchange_attn : Z -> AttnCall -> res X (list f32)
}.
Inductive AttnError (X : Type) :=
  | AttnExchange (node : Z) (x : X)
  | AttnOutputs (node : Z) (want got : nat)
  | AttnPanicked (node : Z).
Arguments AttnExchange {X}.
Arguments AttnOutputs {X}.
Arguments AttnPanicked {X}.

Section Cluster.
Context (expf sinf cosf : f32 -> f32) (powf : f32 -> f32 -> f32).

(** What a peer computes of a request, on a cache of its own. *)
Definition compute_attention_partial (dsa_on : bool) (dsa_min : nat) (c : Config) (l : Layer) (x : list f32) (s_len pos_base h0 hc : nat)
    (sel : selection) (out_len : nat) : option (list f32) :=
  let kv := kv_new 1 (Z.to_nat (kv_lora c)) (Z.to_nat (qk_rope c)) s_len in
  let sel := if length sel =? s_len then sel else replicate s_len [] in
  let* (kvo, _) := attention_with_heads expf sinf cosf powf dsa_on dsa_min c l 0 kv x s_len pos_base out_len Reconstruct (Some sel) h0 hc in
  Some kvo.2.

(** The answers in node order, or the first failure. *)
Fixpoint collect_attn {X : Type} (want : nat) (answers : list (Z * res X (list f32))) : res (AttnError X) (list (Z * list f32)) :=
  match answers with
  | [] => ROk []
  | (n, ROk out) :: answers =>
      if length out =? want then let? ps := collect_attn want answers in ROk ((n, out) :: ps) else RErr (AttnOutputs n want (length out))
  | (n, RErr x) :: _ => RErr (AttnExchange n x)
  | (n, RPanic) :: _ => RErr (AttnPanicked n)
  end.

(** The partial outputs added up. *)
Definition add_partials (n : nat) (ps : list (list f32)) : list f32 := foldl (fun out p => f32_zip f32_add out p) (replicate n f0) ps.

Definition attention_sharded {X : Type} `{!AttnTransport X} (dsa_on : bool) (dsa_min : nat) (c : Config) (l : Layer) (layer : nat)
    (kv : KvCache) (x : list f32) (s_len pos_base : nat) (incoming_sel : option selection) (sharding : ExpertSharding)
    : res (AttnError X) (KvCache * list f32 * option selection) :=
  let '(d, h) := (Z.to_nat (hidden c), Z.to_nat (n_heads c)) in
  let num_nodes := num_nodes sharding in
  let? computed := unwrap (match incoming_sel with
                           | None => dsa_selection_for sinf cosf powf dsa_on dsa_min c l layer x s_len pos_base
                           | Some _ => Some None
                           end) in
  let sel := match incoming_sel with Some _ => incoming_sel | None => computed end in
  let sel_full := default (replicate s_len []) sel in
  let '(h0, hc) := head_slice attn_node num_nodes h in
  let answers := map (fun n =>
    let '(ph0, phc) := head_slice n num_nodes h in
    (n, exchange_attn n {| ac_activations := x; ac_sel := sel_full; ac_n_tokens := s_len; ac_hidden := d;
                           ac_pos_base := u32 (Z.of_nat pos_base); ac_h_start := u32 (Z.of_nat ph0); ac_h_count := u32 (Z.of_nat phc);
                           ac_layer := u32 (Z.of_nat layer) |}))
    (filter (fun n => n <> attn_node) (seqZ 0 num_nodes)) in
  let? (kvo, _) := unwrap (attention_with_heads expf sinf cosf powf dsa_on dsa_min c l layer kv x s_len pos_base (s_len * d)
                             Reconstruct (Some sel_full) h0 hc) in
  let? ps := collect_attn (s_len * d) answers in
  let ps := sort_by (fun a b => (a.1 <=? b.1)%Z) ((attn_node, kvo.2) :: ps) in
  ROk (kvo.1, add_partials (s_len * d) (map snd ps), computed).
End Cluster.

(** ** The slices of the heads *)

(** Any node's slice ends where the next one's begins. *)
Lemma head_slice_next k n h : (0 <= k)%Z -> (1 <= n)%Z ->
  (head_slice k n h).1 + (head_slice k n h).2 = (head_slice (k + 1) n h).1.
Proof.
  intros Hk Hn. unfold head_slice. cbv zeta. cbn [fst snd]. set (b := h / _). set (r := h mod _).
  replace (Z.to_nat (k + 1)) with (S (Z.to_nat k)) by lia. destruct (Nat.ltb_spec (Z.to_nat k) r); lia.
Qed.

Lemma head_slice_end n h : (1 <= n)%Z -> (head_slice n n h).1 = h.
Proof.
  intros Hn. unfold head_slice. cbv zeta. cbn [fst]. replace (Nat.max (Z.to_nat n) 1) with (Z.to_nat n) by lia.
  pose proof (Nat.div_mod h (Z.to_nat n) ltac:(lia)). pose proof (Nat.mod_upper_bound h (Z.to_nat n) ltac:(lia)). nia.
Qed.

Lemma head_slice_bound k n h : (0 <= k < n)%Z -> (head_slice k n h).1 + (head_slice k n h).2 <= h.
Proof.
  intros [H0 H1]. rewrite head_slice_next by lia. rewrite <- (head_slice_end n h) at 2 by lia. unfold head_slice. cbv zeta. cbn [fst].
  assert (Z.to_nat (k + 1) <= Z.to_nat n) as H by lia. pose proof (Nat.mul_le_mono_r _ _ (h / Nat.max (Z.to_nat n) 1) H). lia.
Qed.

(** The slices tile the heads. *)
Lemma head_slices_tile n h : (1 <= n)%Z ->
  concat (map (fun k => seq (head_slice k n h).1 (head_slice k n h).2) (seqZ 0 n)) = seq 0 h.
Proof.
  intros Hn. assert (forall m, m <= Z.to_nat n ->
    concat (map (fun k => seq (head_slice k n h).1 (head_slice k n h).2) (seqZ 0 (Z.of_nat m))) = seq 0 (head_slice (Z.of_nat m) n h).1) as H.
  { induction m as [|m IH]; intros Hm.
    - unfold head_slice. cbv zeta. cbn. done.
    - rewrite Nat2Z.inj_succ, <- Z.add_1_r, seqZ_app by lia. rewrite map_app, concat_app, IH by lia. cbn [Z.add seqZ].
      change (seqZ (0 + Z.of_nat m) 1) with [Z.of_nat m]. cbn [map concat]. rewrite app_nil_r.
      rewrite <- head_slice_next by lia. by rewrite seq_app. }
  specialize (H (Z.to_nat n) ltac:(lia)). rewrite Z2Nat.id in H by lia. by rewrite H, head_slice_end.
Qed.

Section Sharded.
Context (expf sinf cosf : f32 -> f32) (powf : f32 -> f32 -> f32) (dsa_on : bool) (dsa_min : nat) (c : Config) (l : Layer) (d : nat).
Context {X : Type} `{!AttnTransport X}.
Abbreviation g := (mla_of c).
Context (W : wf_mla g l d).
Local Set Default Proof Using "All".

(** The peers have the layer's weights, and serve what they are asked. *)
Definition serves (n : Z) : Prop := forall call,
  exchange_attn n call =
  match compute_attention_partial expf sinf cosf powf dsa_on dsa_min c l (ac_activations call) (ac_n_tokens call) (Z.to_nat (ac_pos_base call))
          (Z.to_nat (ac_h_start call)) (Z.to_nat (ac_h_count call)) (ac_sel call) (ac_n_tokens call * ac_hidden call) with
  | Some out => ROk out
  | None => RPanic
  end.

(** A selection of keys that the queries may see. *)
Definition causal_sel (n : nat) (sel : selection) : Prop := length sel = n /\ Forall (Forall (fun t => t < n)) sel.

Lemma block_ctx_sel ys sel h0 hc : causal_sel (length ys) sel -> exists ctx, block_ctx expf sinf cosf powf g l [] ys (Some sel) h0 hc = Some ctx /\ length ctx = length ys.
Proof.
  intros [Hl Hs]. destruct (mapM_all (fun '(i, y) => reconstruct_row expf g (lat_kvb g l ([] ++ ys)) (lat_krots sinf cosf powf g l ([] ++ ys)) 0 i (0 + i)
    (Some sel) h0 hc (lat_q sinf cosf powf g l (0 + i) y)) (fun _ => True) (imap pair ys)) as (ctx & E & _ & Lc); [|rewrite length_imap in Lc; by exists ctx].
  intros [i y] Hin. apply elem_of_lookup_imap in Hin as (i' & y' & [= -> ->] & Hi). pose proof (lookup_lt_Some _ _ _ Hi) as Hlt.
  cbn [app Nat.add]. unfold reconstruct_row. destruct (Nat.ltb_spec (i' + 1) 0); [lia|]. rewrite Nat.sub_0_r. cbn [query_keys].
  destruct (lookup_lt_is_Some_2 sel i') as [k Hk]; [lia|]. rewrite Hk.
  assert (exists jjs, (if length k =? 0 then Some (seq 0 (i' + 1)) else mapM (fun t => if t <? 0 then None else Some (t - 0)) k) = Some jjs /\
    Forall (fun j => j < length ys) jjs) as (jjs & -> & Hj).
  { destruct (length k =? 0).
    - eexists. split; [done|]. apply Forall_forall. intros j Hj%elem_of_seq. lia.
    - exists k. split; [|rewrite Forall_lookup in Hs; by eapply Hs]. apply mapM_Some, Forall_Forall2_diag, Forall_true. intros t.
      destruct (Nat.ltb_spec t 0); [lia|]. by rewrite Nat.sub_0_r. }
  match goal with |- context [mapM ?f (seq 0 (la_h g))] => destruct (mapM_total f (seq 0 (la_h g))) as [hs ->]; [|by eexists] end.
  intros hh Hh%elem_of_seq. destruct (_ && _); [|by eexists].
  destruct (head_ctx_total expf sinf cosf powf g l d W (lat_q sinf cosf powf g l i' y') (lat_kvb g l ys) (lat_krots sinf cosf powf g l ys) hh jjs)
    as (z & -> & _); [| | |lia| |by eexists].
  - by apply (lat_q_some expf sinf cosf powf g l d W).
  - apply Forall_map, Forall_true. intros x. apply (matvec_length _ (la_kvl g)), W.
  - unfold lat_krots, lat_kvb. by rewrite length_imap, length_map.
  - unfold lat_kvb. by rewrite length_map.
Qed.

Lemma collect_attn_ok want (out : Z -> list f32) ns : (forall n, length (out n) = want) ->
  collect_attn (X := X) want (map (fun n => (n, ROk (out n))) ns) = ROk (map (fun n => (n, out n)) ns).
Proof using.
  intros H. induction ns as [|n ns IH]; [done|]. cbn [map collect_attn]. rewrite H, Nat.eqb_refl, IH. done.
Qed.

(** The rows of the slice of node [k], as this node would compute them. *)
Definition slice_rows (sharding : ExpertSharding) (ys : list (list f32)) (sel : selection) (k : Z) : list f32 :=
  let '(h0, hc) := head_slice k (num_nodes sharding) (la_h g) in
  concat (zip_with (finish_ctx expf l) ys (default [] (block_ctx expf sinf cosf powf g l [] ys (Some sel) h0 hc))).

Lemma slice_rows_length sharding ys sel k : causal_sel (length ys) sel -> length (slice_rows sharding ys sel k) = length ys * d.
Proof.
  intros Hs. unfold slice_rows. destruct (head_slice _ _ _) as [h0 hc]. destruct (block_ctx_sel ys sel h0 hc Hs) as (ctx & -> & Lc). change (default [] (Some ctx)) with ctx.
  rewrite (concat_len d); [rewrite length_zip_with, Lc; lia|]. apply Forall_lookup. intros i r Hr. apply lookup_zip_with_Some in Hr as (x & z & -> & _).
  apply (matvec_length _ (la_h g * la_vh g)), W.
Qed.

Lemma fresh_lat n : n <> 0 -> la_kvl g <> 0 -> la_r g <> 0 ->
  lat_stored sinf cosf powf g l 0 (kv_new 1 (Z.to_nat (kv_lora c)) (Z.to_nat (qk_rope c)) n) [].
Proof using.
  intros Hn Hk Hr. split; [|done|done]. unfold lat_shaped. cbn. split_and!; try done. unfold lazy_zeros.
  eexists _, _. cbn. split_and!; [done|done|..]; by rewrite length_replicate.
Qed.

(** A peer that serves a slice answers with the rows this node would get. *)
Lemma partial_is_slice sharding ys sel k : causal_sel (length ys) sel -> (0 <= k < num_nodes sharding)%Z -> Forall (fun y => length y = d) ys ->
  ys <> [] -> la_kvl g <> 0 -> la_r g <> 0 ->
  let '(h0, hc) := head_slice k (num_nodes sharding) (la_h g) in
  compute_attention_partial expf sinf cosf powf dsa_on dsa_min c l (concat ys) (length ys) 0 h0 hc sel (length ys * d) = Some (slice_rows sharding ys sel k).
Proof.
  intros Hs Hk Hys Hn Hkv Hr. pose proof (head_slice_bound k (num_nodes sharding) (la_h g) Hk) as Hb. unfold slice_rows.
  destruct (head_slice k _ _) as [h0 hc]. cbn [fst snd] in Hb. unfold compute_attention_partial. destruct Hs as [Hl Hs0]. rewrite Hl, Nat.eqb_refl.
  destruct (attention_block expf sinf cosf powf dsa_on dsa_min c l 0 d W _ [] ys (fresh_lat (length ys) ltac:(by destruct ys) Hkv Hr)) as (kv' & _ & _ & E);
    [constructor|done|cbn; lia|].
  cbn [length] in E. rewrite E by (done || left; by eexists). destruct (block_ctx_sel ys sel h0 hc) as (ctx & -> & _); [done|]. done.
Qed.

(** The selection of a call: handed in, or made here by the indexer. *)
Definition fresh_selection (layer : nat) (ys : list (list f32)) (incoming : option selection) : option (option selection) :=
  match incoming with
  | Some _ => Some None
  | None => dsa_selection_for sinf cosf powf dsa_on dsa_min c l layer (concat ys) (length ys) 0
  end.

Lemma fresh_block layer ys incoming : Forall (fun y => length y = d) ys ->
  fresh_selection layer ys incoming = block_select sinf cosf powf dsa_on dsa_min c l layer ys 0 (bool_decide (is_Some incoming)).
Proof.
  intros Hys. destruct incoming as [sel|]; [by rewrite bool_decide_true|]. cbn [fresh_selection]. rewrite bool_decide_false by (by intros [? ?]).
  unfold dsa_selection_for, block_select. destruct (latent_project expf sinf cosf powf g l d W ys Hys) as (Eq & _). by rewrite Eq.
Qed.

Lemma fresh_causal layer ys incoming sel : fresh_selection layer ys incoming = Some (Some sel) -> causal_sel (length ys) sel.
Proof using.
  destruct incoming; [done|]. cbn [fresh_selection]. unfold dsa_selection_for, indexer_select. destruct (query_latent _ _ _ _) as [qr|]; [|done].
  destruct (_ || negb dsa_on) eqn:Eo; [done|]. destruct (l_ix_wk l) as [wk|]; [|done]. destruct (l_ix_wq l) as [wq|]; [|done]. destruct (l_ix_wp l) as [wp|]; [|done].
  destruct (indexer_forward _ _ _ _ _ _ _ _ _ _ _ _ _) as [sel'|] eqn:E; [|done]. intros [= ->]. by apply indexer_forward_within in E.
Qed.

(** An empty entry lets a query attend to everything before it. *)
Lemma block_ctx_shipped ys eff h0 hc :
  block_ctx expf sinf cosf powf g l [] ys eff h0 hc =
  block_ctx expf sinf cosf powf g l [] ys (Some (default (replicate (length ys) []) eff)) h0 hc.
Proof using.
  destruct eff as [sel|]; [done|]. unfold block_ctx. apply mapM_ext_in. intros [i y] Hin. apply elem_of_lookup_imap in Hin as (i' & y' & [= -> ->] & Hi).
  unfold reconstruct_row. cbn [default from_option query_keys]. rewrite lookup_replicate_2 by (by eapply lookup_lt_Some). done.
Qed.

(** C13: attention over a cluster is attention in slices.  Whatever the cluster,
    the heads are split without gap or overlap; on a fresh cache, over peers that
    serve, whether the selection of keys is handed in (a shared layer), made here
    by the indexer (a full layer), or absent (no sparse attention), the sharded
    attention succeeds, stores what a lone node stores and establishes the
    selection it establishes, and returns, added up in node order, the rows that
    this node itself computes for every node's slice by the unsharded code, bit
    for bit: what a peer answers from its own throw-away cache and the shipped
    selection is what the driver would have computed. *)
Theorem sharded_attention_is_slices sharding layer kv ys incoming computed :
  lat_stored sinf cosf powf g l layer kv [] -> d = Z.to_nat (hidden c) -> la_kvl g <> 0 -> la_r g <> 0 -> (Z.of_nat (la_h g) < 2 ^ 32)%Z ->
  Forall (fun y => length y = d) ys -> ys <> [] -> length ys <= kc_max_t kv ->
  (forall sel, incoming = Some sel -> causal_sel (length ys) sel) -> fresh_selection layer ys incoming = Some computed ->
  (0 <= attn_node < num_nodes sharding)%Z ->
  (forall n, (0 <= n < num_nodes sharding)%Z -> n <> attn_node -> serves n) ->
  concat (map (fun k => seq (head_slice k (num_nodes sharding) (la_h g)).1 (head_slice k (num_nodes sharding) (la_h g)).2)
            (seqZ 0 (num_nodes sharding))) = seq 0 (la_h g) /\
  exists kv' outs,
    Forall2 (fun k out => let '(h0, hc) := head_slice k (num_nodes sharding) (la_h g) in
      attention_with_heads expf sinf cosf powf dsa_on dsa_min c l layer kv (concat ys) (length ys) 0 (length ys * d) Reconstruct incoming h0 hc =
        Some (kv', out, computed)) (seqZ 0 (num_nodes sharding)) outs /\
    attention_sharded expf sinf cosf powf dsa_on dsa_min c l layer kv (concat ys) (length ys) 0 incoming sharding =
      ROk (kv', add_partials (length ys * d) outs, computed).
Proof.
  intros Hst Hd Hkv Hr Hh32 Hys Hn Hm Hin Hfresh Hme Hpeers. split; [apply head_slices_tile; lia|].
  set (eff := match incoming with Some _ => incoming | None => computed end). set (sel := default (replicate (length ys) []) eff).
  assert (causal_sel (length ys) sel) as Hs.
  { unfold sel, eff. destruct incoming as [s|]; [by apply Hin|]. destruct computed as [s|]; [by eapply fresh_causal|].
    split; [apply length_replicate|by apply Forall_replicate]. }
  destruct (attention_block_sel expf sinf cosf powf dsa_on dsa_min c l layer d W kv [] ys Hst) as (kv' & _ & _ & E); [constructor|done|done|].
  cbn [length] in E. exists kv', (map (slice_rows sharding ys sel) (seqZ 0 (num_nodes sharding))).
  assert (forall k inc comp, (0 <= k < num_nodes sharding)%Z -> default (replicate (length ys) []) (match inc with Some _ => inc | None => comp end) = sel ->
    fresh_selection layer ys inc = Some comp -> let '(h0, hc) := head_slice k (num_nodes sharding) (la_h g) in
    attention_with_heads expf sinf cosf powf dsa_on dsa_min c l layer kv (concat ys) (length ys) 0 (length ys * d) Reconstruct inc h0 hc =
      Some (kv', slice_rows sharding ys sel k, comp)) as Hloc.
  { intros k inc comp Hk Hsel Hf. pose proof (head_slice_bound k (num_nodes sharding) (la_h g) Hk) as Hb. unfold slice_rows. destruct (head_slice k _ _) as [h0 hc].
    cbn [fst snd] in Hb. rewrite (E inc comp) by (done || by rewrite <- fresh_block). rewrite block_ctx_shipped, Hsel.
    by destruct (block_ctx_sel ys sel h0 hc Hs) as (ctx & -> & _). }
  split.
  { apply Forall2_fmap_r, Forall_Forall2_diag, Forall_forall. intros k Hk%elem_of_seqZ. apply Hloc; [lia|done|done]. }
  unfold attention_sharded. change (match incoming with Some _ => Some None | None => _ end) with (fresh_selection layer ys incoming).
  rewrite Hfresh. cbn [unwrap]. cbv beta iota zeta. fold eff. fold sel.
  pose proof (Hloc attn_node (Some sel) None Hme eq_refl eq_refl) as Hl. change (Z.to_nat (n_heads c)) with (la_h g).
  destruct (head_slice attn_node _ _) as [h0 hc]. rewrite <- Hd. rewrite Hl. cbn [unwrap]. cbv beta iota.
  match goal with |- context [map ?f (filter ?P (seqZ 0 (num_nodes sharding)))] =>
    assert (map f (filter P (seqZ 0 (num_nodes sharding))) = map (fun n => (n, ROk (slice_rows sharding ys sel n))) (filter P (seqZ 0 (num_nodes sharding)))) as -> end.
  { apply map_ext_in. intros k Hk%list_elem_of_In. apply list_elem_of_filter in Hk as [Hne Hk%elem_of_seqZ].
    pose proof (partial_is_slice sharding ys sel k Hs ltac:(lia) Hys Hn Hkv Hr) as Hp. pose proof (head_slice_bound k (num_nodes sharding) (la_h g) ltac:(lia)) as Hb.
    destruct (head_slice k _ _) as [k0 kc]. cbn [fst snd] in Hb. f_equal. rewrite (Hpeers k ltac:(lia) Hne).
    cbn [ac_activations ac_n_tokens ac_pos_base ac_h_start ac_h_count ac_sel ac_hidden]. unfold u32, wrap. rewrite !Z.mod_small, !Nat2Z.id by lia. by rewrite Hp. }
  rewrite collect_attn_ok by (intros; by apply slice_rows_length). cbv beta iota zeta. cbn [fst snd].
  assert (sort_by (fun a b => (a.1 <=? b.1)%Z) ((attn_node, slice_rows sharding ys sel attn_node) ::
      map (fun n => (n, slice_rows sharding ys sel n)) (filter (fun n => n <> attn_node) (seqZ 0 (num_nodes sharding)))) =
    map (fun n => (n, slice_rows sharding ys sel n)) (seqZ 0 (num_nodes sharding))) as ->.
  { assert ((attn_node, slice_rows sharding ys sel attn_node) ::
      map (fun n => (n, slice_rows sharding ys sel n)) (filter (fun n => n <> attn_node) (seqZ 0 (num_nodes sharding))) ≡ₚ
      map (fun n => (n, slice_rows sharding ys sel n)) (seqZ 0 (num_nodes sharding))) as Hp.
    { change (_ :: _) with (map (fun n => (n, slice_rows sharding ys sel n)) (attn_node :: filter (fun n => n <> attn_node) (seqZ 0 (num_nodes sharding)))).
      apply fmap_Permutation. symmetry. apply NoDup_Permutation.
      - apply NoDup_seqZ.
      - constructor; [rewrite list_elem_of_filter; tauto|]. apply NoDup_filter, NoDup_seqZ.
      - intros n. rewrite elem_of_cons, list_elem_of_filter, !elem_of_seqZ. destruct (decide (n = attn_node)) as [->|]; [split; [auto|lia]|naive_solver]. }
    apply sorted_keys_unique.
    - by rewrite sort_by_perm.
    - rewrite sort_by_perm, Hp. change (?f <$> map ?h ?k) with (map f (map h k)). rewrite map_map. cbn [fst]. rewrite map_id. apply NoDup_seqZ.
    - eapply sorted_weaken; [|apply sort_by_sorted]; cbn; intros; lia.
    - clear. generalize 0%Z. intros a. generalize (num_nodes sharding). intros n. remember (Z.to_nat n) as m eqn:Hm. revert a n Hm.
      induction m as [|m IH]; intros a n Hm.
      { destruct n as [|p|p]; [constructor|lia|constructor]. }
      rewrite seqZ_cons by lia. cbn [map]. constructor; [apply IH; lia|]. apply Forall_map, Forall_forall. intros k Hk%elem_of_seqZ. cbn. lia. }
  rewrite map_map. cbn [snd]. done.
Qed.
End Sharded.

(** Two heads over two nodes: the indexer of the layer keeps one key of the
    second query's two. *)
Abbreviation two_heads := (indexed_config (tiny_config GlmMoeDsa 2 1 [])).
Abbreviation two_heads_layer := (indexed_layer (tiny_layer 2)).
Definition two_nodes : ExpertSharding := {| num_nodes := 2; Sharding.n_experts := 3; table := None |}.
#[local] Instance honest_peers : AttnTransport unit := {
  attn_node := 0;
  exchange_attn _ call :=
    match compute_attention_partial toy_exp (fun x => x) (fun x => x) (fun x _ => x) true 0 two_heads two_heads_layer (ac_activations call)
            (ac_n_tokens call) (Z.to_nat (ac_pos_base call)) (Z.to_nat (ac_h_start call)) (Z.to_nat (ac_h_count call)) (ac_sel call)
            (ac_n_tokens call * ac_hidden call) with
    | Some out => ROk out
    | None => RPanic
    end
}.
Lemma sharded_attention_is_slices_witness :
  exists kv' outs,
    Forall2 (fun k out => let '(h0, hc) := head_slice k 2 2 in
      attention_with_heads toy_exp (fun x => x) (fun x => x) (fun x _ => x) true 0 two_heads two_heads_layer 0 (kv_new 1 1 2 4) [f32_one; f32_two] 2 0 2
        Reconstruct None h0 hc = Some (kv', out, Some [[]; [1]])) [0; 1]%Z outs /\
    attention_sharded toy_exp (fun x => x) (fun x => x) (fun x _ => x) true 0 two_heads two_heads_layer 0 (kv_new 1 1 2 4) [f32_one; f32_two] 2 0
      None two_nodes = ROk (kv', add_partials 2 outs, Some [[]; [1]]).
Proof.
  refine (proj2 (sharded_attention_is_slices toy_exp (fun x => x) (fun x => x) (fun x _ => x) true 0 two_heads two_heads_layer 1
    (indexed_mla _ _ _ (tiny_mla GlmMoeDsa 2 1 [] (or_introl eq_refl) (or_intror eq_refl))) two_nodes 0 (kv_new 1 1 2 4) [[f32_one]; [f32_two]]
    None (Some [[]; [1]]) _ _ _ _ _ _ _ _ _ _ _ _)).
  - apply (fresh_lat (fun x => x) (fun x => x) (fun x _ => x) two_heads two_heads_layer 4); done.
  - done.
  - done.
  - done.
  - done.
  - repeat constructor.
  - done.
  - cbn. lia.
  - done.
  - vm_compute. reflexivity.
  - done.
  - intros n Hn Hne call. done.
Defined.
