(* ===== verification/Forward.v ===== *)
(** * The forward pass ([crates/colibri-engine/src/forward.rs],
      [crates/colibri-engine/src/mtp.rs])

    One layer, the stack of layers on a block of tokens of one sequence or on
    one token of each of several, Kimi's stack, the logits, and the
    multi-token-prediction head that drafts.  DeepSeek-V4's stack is in
    [Dsv4Layer.v].  Debug output, timing and the step counter are left out.  Scratch buffers are overwritten before they are
    read. *)

From Stdlib Require Import ZifyBool ZifyNat SpecFloat.
From S2P Require Import Prelude Rows DType Math Linear Sharding Config Model Moe KvCache Gqa Indexer Mla MlaCluster Mamba Kda AttnRes Platform Dsv4Layer.
Local Open Scope nat_scope.

(** Why a pass fails. *)
Inductive FwdError (E X : Type) :=
  | MoeFailed (e : MoeError E X)
  | AttnFailed (e : AttnError X)
  | Unsupported.
Arguments MoeFailed {E X}.
Arguments AttnFailed {E X}.
Arguments Unsupported {E X}.

Section Forward.
Context {E X : Type} `{!ExpertProvider E} `{!Transport X} `{!AttnTransport X} (pf : Platform).

Abbreviation result := (res (FwdError E X)).
Definition from_moe {A} (r : res (MoeError E X) A) : result A :=
  match r with ROk a => ROk a | RErr e => RErr (MoeFailed e) | RPanic => RPanic end.
Definition from_attn {A} (r : res (AttnError X) A) : result A :=
  match r with ROk a => ROk a | RErr e => RErr (AttnFailed e) | RPanic => RPanic end.

(** [rmsnorm] of every row. *)
Definition norm_rows (d s : nat) (w : list f32) (eps : f32) (x : list f32) : option (list f32) :=
  let* rows := each_row d s (fun r => rmsnorm r w eps) x in Some (concat rows).
(** [x[j] += tmp[j]]. *)
Definition residual (x tmp : list f32) : list f32 := f32_zip f32_add x tmp.

Definition gqa (c : Config) := attention_gqa (pf_exp pf) (pf_sin pf) (pf_cos pf) (pf_pow pf) (pf_m3_sparse pf) c.
Definition mla (c : Config) (l : Layer) (li : nat) (kv : KvCache) (x : list f32) (s pos_base out_len : nat) :=
  attention_with (pf_exp pf) (pf_sin pf) (pf_cos pf) (pf_pow pf) (pf_dsa pf) (pf_dsa_min pf) c l li kv x s pos_base out_len Reconstruct.

(** Latent attention: over the cluster for a whole prompt, if that is on. *)
Definition mla_layer (c : Config) (l : Layer) (li : nat) (kv : KvCache) (x : list f32) (s pos_base : nat) (reused : option selection)
    : result (KvCache * list f32 * option selection) :=
  let lone := unwrap (mla c l li kv x s pos_base (s * Z.to_nat (hidden c)) reused) in
  if (pos_base =? 0) && (1 <? s) && pf_tp_attn pf then
    match pf_cluster pf with
    | Some sharding =>
        if (1 <? num_nodes sharding)%Z then
          from_attn (attention_sharded (pf_exp pf) (pf_sin pf) (pf_cos pf) (pf_pow pf) (pf_dsa pf) (pf_dsa_min pf) c l li kv x s pos_base reused sharding)
        else lone
    | None => lone
    end
  else lone.

(** ** One layer *)

Definition nemotron_layer_forward (c : Config) (kv : KvCache) (l : Layer) (li : nat) (kind : LayerKind) (x : list f32) (s pos_base : nat)
    : result (KvCache * list f32) :=
  let d := Z.to_nat (hidden c) in
  let? nrm := unwrap (norm_rows d s (l_in_ln l) (eps c) x) in
  let? (kv, tmp) :=
    match kind with
    | Mamba => unwrap (mamba2_mixer (pf_exp pf) (pf_ln_1p pf) (pf_conv_skip pf) c l kv li nrm s (s * d))
    | Attn => unwrap (gqa c l li kv nrm s pos_base (s * d))
    | Config.Moe =>
        let? out := from_moe (nemotron_moe (pf_exp pf) (pf_tanh pf) (pf_act pf) c l li nrm s (s * d) (pf_cluster pf)) in ROk (kv, out)
    | Kda => RErr Unsupported
    end in
  ROk (kv, residual x tmp).

(** The second half of a layer: the experts or the dense block. *)
Definition layer_ffn (c : Config) (l : Layer) (li : nat) (x : list f32) (s : nat) : result (list f32) :=
  let d := Z.to_nat (hidden c) in
  let? nrm := unwrap (norm_rows d s (l_post_ln l) (eps c) x) in
  let? tmp :=
    if l_sparse l then
      from_moe (moe (pf_exp pf) (pf_tanh pf) (pf_act pf) c l li nrm s (s * d) (0 <? n_shared c)%Z (pf_cluster pf))
    else unwrap (dense_mlp (pf_exp pf) (pf_tanh pf) (pf_act pf) l nrm s (s * d)) in
  ROk (residual x tmp).

Definition layer_forward_kind (c : Config) (kv : KvCache) (l : Layer) (li : nat) (kind : option LayerKind) (x : list f32)
    (s pos_base : nat) (dsa_sel : option selection) : result (KvCache * list f32 * option selection) :=
  match arch c with
  | NemotronH =>
      let? kind := unwrap (match kind with Some k => Some k | None => layer_kind c !! li end) in
      let? (kv, x) := nemotron_layer_forward c kv l li kind x s pos_base in
      ROk (kv, x, dsa_sel)
  | KimiK3 => RErr Unsupported
  | _ =>
      let d := Z.to_nat (hidden c) in
      let? nrm := unwrap (norm_rows d s (l_in_ln l) (eps c) x) in
      let? (kvt, dsa_sel) :=
        if is_gqa (arch c) then let? kvt := unwrap (gqa c l li kv nrm s pos_base (s * d)) in ROk (kvt, dsa_sel)
        else
          let is_full := default false (idx_type c !! li) in
          let reused := if is_full then None else dsa_sel in
          let? (kvt, computed) := mla_layer c l li kv nrm s pos_base reused in
          ROk (kvt, if is_full then computed else dsa_sel) in
      let? x := layer_ffn c l li (residual x kvt.2) s in
      ROk (kvt.1, x, dsa_sel)
  end.

Definition layer_forward (c : Config) (kv : KvCache) (l : Layer) (li : nat) (x : list f32) (s pos_base : nat)
    (dsa_sel : option selection) : result (KvCache * list f32 * option selection) :=
  layer_forward_kind c kv l li None x s pos_base dsa_sel.

(** ** The stack *)

Definition layers_forward (m : Model) (pos_base s : nat) (kv : KvCache) (x : list f32) : result (KvCache * list f32) :=
  let? (kvx, _) :=
    for_each (fun '(kvx, sel) '(li, l) =>
      let? (kvx, sel) := layer_forward (m_cfg m) kvx.1 l li kvx.2 s pos_base sel in ROk (kvx, sel))
      (imap pair (m_layers m)) ((kv, x), None) in
  ROk kvx.

(** ** Kimi's stack *)

(** Both halves of a layer: a mixed input, normed; a sublayer; its output taken
    into the accumulator. *)
Definition kimi_mix (c : Config) (l : Layer) (li : nat) (kv : KvCache) (nrm : list f32) (s pos_base : nat) : result (KvCache * list f32) :=
  let d := Z.to_nat (hidden c) in
  let? kind := unwrap (layer_kind c !! li) in
  match kind with
  | Kda => unwrap (kda_mixer (pf_exp pf) (pf_pow pf) c l kv li nrm s (s * d))
  | _ => let? (kvt, _) := unwrap (mla c l li kv nrm s pos_base (s * d) None) in ROk kvt
  end.
Definition kimi_ffn (c : Config) (l : Layer) (li : nat) (nrm : list f32) (s : nat) : result (list f32) :=
  let d := Z.to_nat (hidden c) in
  if l_sparse l then from_moe (kimi_moe (pf_exp pf) (pf_tanh pf) (pf_act pf) c l li nrm s (s * d) (pf_cluster pf))
  else unwrap (dense_mlp (pf_exp pf) (pf_tanh pf) (pf_act pf) l nrm s (s * d)).

Definition kimi_layer (c : Config) (l : Layer) (li s pos_base : nat) (kv : KvCache) (st : AttnResState) : result (KvCache * AttnResState) :=
  let d := Z.to_nat (hidden c) in
  let mix st norm proj := apply_attn_res (pf_exp pf) (ar_prefix st) (ar_blocks st) norm proj (eps c) s d in
  let? h := unwrap (mix st (l_attn_res_norm l) (l_attn_res_proj l)) in
  let st := maybe_snapshot st li in
  let? nrm := unwrap (norm_rows d s (l_in_ln l) (eps c) h) in
  let? (kv, tmp) := kimi_mix c l li kv nrm s pos_base in
  let? st := unwrap (accumulate st tmp) in
  let? h := unwrap (mix st (l_mlp_res_norm l) (l_mlp_res_proj l)) in
  let? nrm := unwrap (norm_rows d s (l_post_ln l) (eps c) h) in
  let? tmp := kimi_ffn c l li nrm s in
  let? st := unwrap (accumulate st tmp) in ROk (kv, st).

Definition kimi_forward (m : Model) (kv : KvCache) (ids : list Z) (pos_base : nat) : result (KvCache * list f32) :=
  let c := m_cfg m in
  let s := length ids in
  let? rows := unwrap (mapM (embed_token m) ids) in
  let? st := unwrap (attn_res_new (concat rows) (len_of (attn_res_block_size c))) in
  let? (kv, st) := for_each (fun '(kv, st) '(li, l) => kimi_layer c l li s pos_base kv st) (imap pair (m_layers m)) (kv, st) in
  let? h := unwrap (apply_attn_res (pf_exp pf) (ar_prefix st) (ar_blocks st) (m_output_attn_res_norm m) (m_output_attn_res_proj m)
                      (eps c) s (Z.to_nat (hidden c))) in
  ROk (kv, h).

(** [forward]; the caller's buffer has a row per token. *)
Definition forward (m : Model) (kv : KvCache) (ids : list Z) (pos_base : nat) : result (KvCache * list f32) :=
  match arch (m_cfg m) with
  | KimiK3 => kimi_forward m kv ids pos_base
  | a =>
      if bool_decide (a = DeepseekV4) && (0 <? hc_mult (m_cfg m))%Z then 
        from_moe (dsv4_forward_chunked pf m kv ids pos_base
          (dsv4_prefill_chunk false (pf_v4_budget pf) (pf_v4_chunk pf) (m_cfg m) (Z.of_nat (length ids))))
      else
        let? rows := unwrap (mapM (embed_token m) ids) in
        layers_forward m pos_base (length ids) kv (concat rows)
  end.

Definition logits_into (m : Model) (hidden_row : list f32) (out_len : nat) : option (list f32) :=
  if negb (out_len =? Z.to_nat (vocab (m_cfg m))) then None
  else
    let* row := rmsnorm hidden_row (m_final_norm m) (eps (m_cfg m)) in
    if negb (length row =? Z.to_nat (hidden (m_cfg m))) then None else matmul_qt out_len row (m_lm_head m) 1.
Definition logits (m : Model) (hidden_row : list f32) : option (list f32) :=
  logits_into m hidden_row (Z.to_nat (vocab (m_cfg m))).

(** ** One token of each sequence *)

Definition layer_forward_batched (c : Config) (kvs : list KvCache) (l : Layer) (li : nat) (x : list f32) (positions : list nat)
    : result (list KvCache * list f32) :=
  let d := Z.to_nat (hidden c) in
  let n := length positions in
  let? nrm := unwrap (norm_rows d n (l_in_ln l) (eps c) x) in
  let? ts := rmap (fun '(si, pos) =>
    let? kv := unwrap (kvs !! si) in
    let? row := unwrap (row_at d nrm si) in
    if is_gqa (arch c) then unwrap (gqa c l li kv row 1 pos d)
    else let? (kvt, _) := unwrap (mla c l li kv row 1 pos d None) in ROk kvt) (imap pair positions) in
  let? x := layer_ffn c l li (residual x (concat (map snd ts))) n in
  ROk (map fst ts, x).

Definition forward_batched (m : Model) (kvs : list KvCache) (ids : list Z) (positions : list nat)
    : result (list KvCache * list f32) :=
  if negb ((length kvs =? length ids) && (length positions =? length ids)) then RPanic
  else if negb (length (layer_kind (m_cfg m)) =? 0) then RErr Unsupported
  else
    let? rows := unwrap (mapM (embed_token m) ids) in
    for_each (fun '(kvs, x) '(li, l) => layer_forward_batched (m_cfg m) kvs l li x positions)
      (imap pair (m_layers m)) (kvs, concat rows).

(** ** The draft head *)

Definition fuse (m : Model) (mtp : MtpHead) (next_tok : Z) (h : list f32) (h_is_raw : bool) : option (list f32) :=
  let c := m_cfg m in
  let* e := embed_token m next_tok in
  let* a := rmsnorm e (enorm mtp) (eps c) in
  let* hf := if h_is_raw then rmsnorm h (m_final_norm m) (eps c) else Some h in
  let* b := rmsnorm hf (hnorm mtp) (eps c) in
  matmul_qt (Z.to_nat (hidden c)) (a ++ b) (eh_proj mtp) 1.

Definition head_forward (m : Model) (kv : KvCache) (mtp : MtpHead) (hx : list f32) (s pos_base : nat) : result (KvCache * list f32) :=
  for_each (fun '(kv, hx) '(j, b) =>
    let li := Z.to_nat (n_layers (m_cfg m)) + j in
    let? kv := unwrap (start_at kv li (Z.of_nat pos_base)) in
    let? (kvx, _) := layer_forward_kind (m_cfg m) kv (mb_layer b) li (mb_kind b) hx s pos_base None in
    ROk kvx) (imap pair (mtp_blocks mtp)) (kv, hx).

Definition absorb (m : Model) (kv : KvCache) (next_ids : list Z) (hidden_rows : list f32) (pos_base : nat) : result KvCache :=
  match m_mtp m with
  | None => ROk kv
  | Some mtp =>
      let s := length next_ids in
      if s =? 0 then ROk kv
      else
        let d := Z.to_nat (hidden (m_cfg m)) in
        let? rows := unwrap (mapM (fun '(i, t) => let* h := row_at d hidden_rows i in fuse m mtp t h true) (imap pair next_ids)) in
        let? (kv, _) := head_forward m kv mtp (concat rows) s pos_base in ROk kv
  end.

Fixpoint draft_loop (m : Model) (mtp : MtpHead) (n g p : nat) (kv : KvCache) (tok : Z) (h : list f32) : result (KvCache * list Z) :=
  match n with
  | 0 => ROk (kv, [])
  | S n =>
      let pos := p + g in
      if kc_max_t kv <=? pos + 2 then ROk (kv, [])
      else
        let? hx := unwrap (fuse m mtp tok h (g =? 0)) in
        let? (kv, hx) := head_forward m kv mtp hx 1 pos in
        let? lo := unwrap (
          let* row := rmsnorm hx (mtp_norm mtp) (eps (m_cfg m)) in
          matmul_qt (Z.to_nat (vocab (m_cfg m))) row (m_lm_head m) 1) in
        let t2 := i32 (Z.of_nat (argmax lo)) in
        let? (kv, out) := draft_loop m mtp n (g + 1) p kv t2 hx in ROk (kv, t2 :: out)
  end.

Definition draft (m : Model) (kv : KvCache) (next_tok : Z) (kv_idx g_max : nat) (last_hidden : list f32) : result (KvCache * list Z) :=
  match m_mtp m with
  | None => ROk (kv, [])
  | Some mtp =>
      if (kv_idx =? 0) || (g_max =? 0) then ROk (kv, [])
      else
        let p := kv_idx - 1 in
        let? kv := unwrap (start_at kv (Z.to_nat (n_layers (m_cfg m))) (Z.of_nat p)) in
        let? h := unwrap (range last_hidden 0 (Z.to_nat (hidden (m_cfg m)))) in
        draft_loop m mtp g_max 0 p kv next_tok h
  end.
End Forward.
