(* ===== verification/Stack.v ===== *)
(** * The layers as functions of their histories

    Every layer of [Forward.v] of the families with grouped-query attention,
    latent attention or Mamba-2 mixers gives each token a row that depends only on the tokens up to
    it, whatever the blocks the sequence was fed in; so does their stack, and
    the whole forward pass is an engine in the sense of [Generate.v]. *)

From Stdlib Require Import ZifyBool ZifyNat SpecFloat.
From S2P Require Import Prelude Rows DType Math Linear Sharding Config Model Moe MoeBatch KvCache Generate Gqa Indexer Mla MlaCluster Mamba Kda Platform Forward.
Local Open Scope nat_scope.

(** ** Streams *)

Section Streams.
Context {A B C : Type}.

(** What a function of histories gives along a sequence. *)
Definition stream {A B} (out : list A -> B) (xs : list A) : list B := map (fun i => out (take (S i) xs)) (seq 0 (length xs)).

Lemma stream_length {D F} (out : list D -> F) xs : length (stream out xs) = length xs.
Proof. unfold stream. by rewrite length_map, length_seq. Qed.

Lemma stream_app (out : list A -> B) xs ys :
  stream out (xs ++ ys) = stream out xs ++ map (fun i => out (xs ++ take (S i) ys)) (seq 0 (length ys)).
Proof.
  unfold stream. rewrite length_app, seq_app, map_app. f_equal.
  - apply map_ext_in. intros i Hi%in_seq. by rewrite take_app_le by lia.
  - rewrite Nat.add_0_l. rewrite <- (Nat.add_0_r (length xs)) at 1. rewrite <- (fmap_add_seq (length xs) 0).
    change (?f <$> ?l) with (map f l). rewrite map_map. apply map_ext. intros i. f_equal.
    rewrite take_app_ge by lia. do 2 f_equal. lia.
Qed.

Lemma stream_take (out : list A -> B) n xs : take n (stream out xs) = stream out (take n xs).
Proof.
  destruct (Nat.le_gt_cases (length xs) n) as [H|H].
  - by rewrite !take_ge by (rewrite ?stream_length; lia).
  - rewrite <- (take_drop n xs) at 1. rewrite stream_app, take_app_le by (rewrite stream_length, length_take; lia).
    apply take_ge. rewrite stream_length, length_take. lia.
Qed.

Lemma stream_stream (f : list A -> B) (g : list B -> C) xs : stream g (stream f xs) = stream (fun h => g (stream f h)) xs.
Proof. unfold stream at 1 3. rewrite stream_length. apply map_ext. intros i. by rewrite stream_take. Qed.

Lemma stream_ext (f g : list A -> B) xs : (forall h, h <> [] -> f h = g h) -> stream f xs = stream g xs.
Proof. intros H. apply map_ext_in. intros i Hi%in_seq. apply H. destruct xs; [simpl in Hi; lia|done]. Qed.

Lemma stream_map (f : A -> B) xs : (forall x : A, True) -> stream (fun h => from_option (fun x => [f x]) [] (last h)) xs = map (fun x => [f x]) xs.
Proof.
  intros _. apply list_eq. intros i. unfold stream. change (map ?g ?l) with (g <$> l). rewrite !list_lookup_fmap.
  destruct (xs !! i) as [x|] eqn:Hx.
  - pose proof (lookup_lt_Some _ _ _ Hx) as Hi. rewrite lookup_seq_lt by done. cbn. f_equal.
    rewrite last_lookup, length_take, Nat.min_l by lia. cbn. by rewrite lookup_take_lt, Hx by lia.
  - apply lookup_ge_None in Hx. rewrite lookup_seq_ge by done. done.
Qed.
End Streams.

(** ** What a layer may change of the cache *)

(** Only the layers of [P] may differ, and only in their keys, values, latents
    and recurrent state, whose sizes stay. *)
Definition same_length (x y : list f32) : Prop := length x = length y.
Record touches (P : nat -> Prop) (kv kv' : KvCache) : Prop := {
  tc_max : kc_max_t kv' = kc_max_t kv;
  tc_dim : kc_kv_dim kv' = kc_kv_dim kv;
  tc_lat_dims : kc_kv_lora kv' = kc_kv_lora kv /\ kc_qk_rope kv' = kc_qk_rope kv /\ kc_ring kv' = kc_ring kv;
  tc_conv_dim : kc_mamba_conv_dim kv' = kc_mamba_conv_dim kv;
  tc_start : forall j, ~ P j -> kc_kv_start kv' !! j = kc_kv_start kv !! j;
  tc_full : forall j, ~ P j -> kc_k_full kv' !! j = kc_k_full kv !! j /\ kc_v_full kv' !! j = kc_v_full kv !! j;
  tc_latent : forall j, ~ P j -> kc_latent kv' !! j = kc_latent kv !! j /\ kc_k_rot kv' !! j = kc_k_rot kv !! j;
  tc_mamba : forall j, ~ P j -> kc_mamba_conv kv' !! j = kc_mamba_conv kv !! j /\ kc_mamba_ssm kv' !! j = kc_mamba_ssm kv !! j;
  tc_kda : forall j, ~ P j -> kc_kda_conv kv' !! j = kc_kda_conv kv !! j /\ kc_kda_state kv' !! j = kc_kda_state kv !! j;
  tc_same : same_mamba kv kv';
  tc_rows : Forall2 same_length (kc_k_full kv) (kc_k_full kv') /\ Forall2 same_length (kc_v_full kv) (kc_v_full kv');
  tc_lat_rows : Forall2 same_length (kc_latent kv) (kc_latent kv') /\ Forall2 same_length (kc_k_rot kv) (kc_k_rot kv');
  tc_starts : length (kc_kv_start kv') = length (kc_kv_start kv)
}.

Lemma same_rows_refl l : Forall2 same_length l l.
Proof. by apply Forall_Forall2_diag, Forall_true. Qed.

Lemma same_mamba_refl kv : same_mamba kv kv.
Proof. split; apply Forall_Forall2_diag, Forall_true; intros; by split_and?. Qed.

Lemma Forall2_compose {D} (R : D -> D -> Prop) (l k m : list D) : (forall x y z, R x y -> R y z -> R x z) ->
  Forall2 R l k -> Forall2 R k m -> Forall2 R l m.
Proof.
  intros Hr H. revert m. induction H as [|x y l k Hxy _ IH]; intros m Hm; inversion Hm; subst; constructor; eauto.
Qed.

Lemma same_mamba_trans kv1 kv2 kv3 : same_mamba kv1 kv2 -> same_mamba kv2 kv3 -> same_mamba kv1 kv3.
Proof.
  intros [C1 S1] [C2 S2]. split.
  - revert C1 C2. apply Forall2_compose. congruence.
  - revert S1 S2. apply Forall2_compose. intros x y z (?&?&?&?) (?&?&?&?). split_and!; congruence.
Qed.

Lemma touches_refl P kv : touches P kv kv.
Proof. split; auto using same_mamba_refl, same_rows_refl. Qed.

Lemma same_rows_trans l k m : Forall2 same_length l k -> Forall2 same_length k m -> Forall2 same_length l m.
Proof. apply Forall2_compose. unfold same_length. congruence. Qed.

Lemma touches_trans P kv1 kv2 kv3 : touches P kv1 kv2 -> touches P kv2 kv3 -> touches P kv1 kv3.
Proof.
  intros [? ? (?&?&?) ? S1 F1 L1 M1 D1 T1 [K1 V1] [A1 B1] ?] [? ? (?&?&?) ? S2 F2 L2 M2 D2 T2 [K2 V2] [A2 B2] ?].
  split; try congruence; [split_and!; congruence|..|by eapply same_mamba_trans|split; by eapply same_rows_trans|split; by eapply same_rows_trans].
  - intros j Hj. by rewrite S2, S1.
  - intros j Hj. destruct (F1 j Hj), (F2 j Hj). split; congruence.
  - intros j Hj. destruct (L1 j Hj), (L2 j Hj). split; congruence.
  - intros j Hj. destruct (M1 j Hj), (M2 j Hj). split; congruence.
  - intros j Hj. destruct (D1 j Hj), (D2 j Hj). split; congruence.
Qed.

Lemma touches_weaken (P Q : nat -> Prop) kv kv' : (forall j, P j -> Q j) -> touches P kv kv' -> touches Q kv kv'.
Proof. intros H [? ? ? ? S F A M D T R B L]. split; auto. Qed.

Lemma Forall2_insert_same {D} (R : D -> D -> Prop) (l : list D) i x y :
  (forall z, R z z) -> l !! i = Some x -> R x y -> Forall2 R l (<[i := y]> l).
Proof.
  intros Hr Hx Hxy. apply Forall2_same_length_lookup. split; [by rewrite length_insert|]. intros j a b Ha Hb.
  apply list_lookup_insert_Some in Hb as [(-> & <- & _)|[_ Hb]]; [congruence|]. rewrite Ha in Hb. by injection Hb as ->.
Qed.

Lemma touches_full g li kv kv' : full_at li kv kv' -> shaped g li kv -> shaped g li kv' -> touches (eq li) kv kv'.
Proof.
  intros (kb & vb & ->) (_ & kb0 & vb0 & Hk & Hv & Lk & Lv) (_ & kb1 & vb1 & Hk' & Hv' & Lk' & Lv'). cbn in *.
  rewrite list_lookup_insert_eq in Hk' by (by eapply lookup_lt_Some). injection Hk' as <-.
  rewrite list_lookup_insert_eq in Hv' by (by eapply lookup_lt_Some). injection Hv' as <-. split; try done; cbn.
  - intros j Hj. by rewrite !list_lookup_insert_ne by done.
  - destruct (same_mamba_refl kv). by split.
  - split; (eapply Forall2_insert_same; [done|done|unfold same_length; congruence]).
  - split; apply same_rows_refl.
Qed.

Lemma touches_lat g li kv kv' : lat_at li kv kv' -> lat_shaped g li kv -> lat_shaped g li kv' -> touches (eq li) kv kv'.
Proof.
  intros (kb & vb & ->) (_ & _ & _ & kb0 & vb0 & Hk & Hv & Lk & Lv) (_ & _ & _ & kb1 & vb1 & Hk' & Hv' & Lk' & Lv'). cbn in *.
  rewrite list_lookup_insert_eq in Hk' by (by eapply lookup_lt_Some). injection Hk' as <-.
  rewrite list_lookup_insert_eq in Hv' by (by eapply lookup_lt_Some). injection Hv' as <-. split; try done; cbn.
  - intros j Hj. by rewrite !list_lookup_insert_ne by done.
  - destruct (same_mamba_refl kv). by split.
  - split; apply same_rows_refl.
  - split; (eapply Forall2_insert_same; [done|done|unfold same_length; congruence]).
Qed.

Lemma touches_mamba li kv kv' : mamba_at li kv kv' -> touches (eq li) kv kv'.
Proof.
  intros (cs & s & data & -> & Hs & Hl & (cs0 & Hc & Hcl)). split; try done; cbn.
  - intros j Hj. by rewrite !list_lookup_insert_ne by done.
  - split; cbn.
    + eapply Forall2_insert_same; [done|exact Hc|done].
    + eapply Forall2_insert_same; [by intros; split_and!|exact Hs|]. by cbn.
  - split; apply same_rows_refl.
  - split; apply same_rows_refl.
Qed.

Lemma touches_kda li kv kv' : kda_at li kv kv' -> touches (eq li) kv kv'.
Proof.
  intros (cv & data & cv0 & data0 & -> & _). split; try done; cbn; try (split; apply same_rows_refl).
  - intros j Hj. by rewrite !list_lookup_insert_ne by done.
  - by destruct (same_mamba_refl kv).
Qed.

(** The cache [kv'] with the recurrent state of [kv], as a rollback leaves it. *)
Definition rolled (kv kv' : KvCache) : KvCache :=
  set_mamba kv' (kc_mamba_conv kv) (kc_mamba_ssm kv) (kc_mamba_d_conv kv') (kc_mamba_conv_dim kv').

(** ** Causal passes *)

Abbreviation rows := (list (list f32)).

(** How a block of tokens lies in a buffer, each given by something of its own,
    and which of those are of the right sizes. *)
Record Rep := { rp_tok : Type; rp_buf : Type; rp_enc : list rp_tok -> rp_buf; rp_good : rp_tok -> Prop; rp_any : rp_tok }.

(** Flat rows of width [d]. *)
Definition flat (d : nat) : Rep :=
  {| rp_tok := list f32; rp_buf := list f32; rp_enc := fun xs => concat xs; rp_good := fun x => length x = d; rp_any := [] |}.
Definition wide (d : nat) (xs : rows) : Prop := Forall (fun x => length x = d) xs.

(** A pass over a block: the cache, the block, how many tokens, and where. *)
Definition PassOn {Err : Type} (R1 R2 : Rep) : Type :=
  KvCache -> rp_buf R1 -> nat -> nat -> res Err (KvCache * rp_buf R2).

(** A pass that gives each token a function of its history, and a description of
    what the cache holds after a history; [back] says that a history in the
    cache may be cut off again. *)
Record causal_on {Err : Type} (back : Prop) (R1 R2 : Rep) (P : nat -> Prop) (run : PassOn (Err := Err) R1 R2)
    (out : list (rp_tok R1) -> rp_tok R2) (ok : KvCache -> list (rp_tok R1) -> Prop) : Prop := {
  ca_run kv xs ys : ok kv xs -> Forall (rp_good R1) xs -> Forall (rp_good R1) ys -> ys <> [] -> length xs + length ys <= kc_max_t kv ->
    exists kv', run kv (rp_enc R1 ys) (length ys) (length xs) =
        ROk (kv', rp_enc R2 (map (fun i => out (xs ++ take (S i) ys)) (seq 0 (length ys)))) /\
      ok kv' (xs ++ ys) /\ touches P kv kv';
  ca_good hist : hist <> [] -> Forall (rp_good R1) hist -> rp_good R2 (out hist);
  ca_frame Q kv kv' hist : touches Q kv kv' -> (forall j, Q j -> ~ P j) -> ok kv hist -> ok kv' hist;
  ca_prefix kv xs ys : back -> has_mamba kv = false -> ok kv (xs ++ ys) -> ok kv xs;
  ca_rolled kv kv' xs ys : back -> ok kv xs -> ok kv' (xs ++ ys) -> ok (rolled kv kv') xs
}.
#[global] Arguments ca_run {Err back R1 R2 P run out ok}.
#[global] Arguments ca_good {Err back R1 R2 P run out ok}.
#[global] Arguments ca_frame {Err back R1 R2 P run out ok}.
#[global] Arguments ca_prefix {Err back R1 R2 P run out ok}.
#[global] Arguments ca_rolled {Err back R1 R2 P run out ok}.

(** Of flat rows, in a cache that can be cut. *)
Abbreviation causal d := (causal_on True (flat d) (flat d)).

Section Causal.
Context {Err : Type}.
Implicit Types (back : Prop) (P : nat -> Prop).

Lemma good_block back R1 R2 P (run : PassOn (Err := Err) R1 R2) out ok xs ys : causal_on back R1 R2 P run out ok ->
  Forall (rp_good R1) xs -> Forall (rp_good R1) ys ->
  Forall (rp_good R2) (map (fun i => out (xs ++ take (S i) ys)) (seq 0 (length ys))).
Proof.
  intros Ca Hx Hy. apply Forall_map, Forall_forall. intros i Hi%elem_of_seq. apply (ca_good Ca).
  - destruct ys; [simpl in Hi; lia|]. by destruct xs.
  - apply Forall_app. split; [done|by apply Forall_take].
Qed.

Lemma good_stream back R1 R2 P (run : PassOn (Err := Err) R1 R2) out ok xs : causal_on back R1 R2 P run out ok ->
  Forall (rp_good R1) xs -> Forall (rp_good R2) (stream out xs).
Proof. intros Ca Hx. apply (good_block back R1 R2 P run out ok [] xs Ca); [constructor|done]. Qed.

Lemma causal_weaken back back' R1 R2 P P' (run : PassOn (Err := Err) R1 R2) out ok ok' :
  (back' -> back) -> (forall j, P j -> P' j) -> (forall kv h, ok kv h <-> ok' kv h) ->
  causal_on back R1 R2 P run out ok -> causal_on back' R1 R2 P' run out ok'.
Proof.
  intros Hb HP Hok Ca. split.
  - intros kv xs ys H Hx Hy Hn Hl. destruct (ca_run Ca kv xs ys) as (kv' & E & K & T); [by apply Hok|done..|].
    exists kv'. split_and!; [done|by apply Hok|by eapply touches_weaken].
  - apply (ca_good Ca).
  - intros Q kv kv' hist T HQ H. apply Hok. eapply (ca_frame Ca Q); [exact T| |by apply Hok]. intros j Hq Hp. by apply (HQ j Hq), HP.
  - intros kv xs ys B Hm H. apply Hok. eapply (ca_prefix Ca); [by apply Hb|done|by apply Hok].
  - intros kv kv' xs ys B H1 H2. apply Hok. eapply (ca_rolled Ca); [by apply Hb|by apply Hok|by apply Hok].
Qed.

Lemma causal_ext back R1 R2 P (run run' : PassOn (Err := Err) R1 R2) out ok : (forall kv x s pos, run kv x s pos = run' kv x s pos) ->
  causal_on back R1 R2 P run out ok -> causal_on back R1 R2 P run' out ok.
Proof. intros Hr Ca. split; [|apply Ca..]. intros kv xs ys. rewrite <- Hr. apply (ca_run Ca). Qed.

(** For flat rows. *)
Lemma flat_causal_on back d P (run : PassOn (Err := Err) (flat d) (flat d)) out ok :
  (forall kv (xs ys : rows), ok kv xs -> wide d xs -> wide d ys -> ys <> [] -> length xs + length ys <= kc_max_t kv ->
    exists kv', run kv (concat ys) (length ys) (length xs) =
        ROk (kv', concat (map (fun i => out (xs ++ take (S i) ys)) (seq 0 (length ys)))) /\
      ok kv' (xs ++ ys) /\ touches P kv kv') ->
  (forall hist : rows, hist <> [] -> wide d hist -> length (out hist) = d) ->
  (forall Q kv kv' hist, touches Q kv kv' -> (forall j, Q j -> ~ P j) -> ok kv hist -> ok kv' hist) ->
  (back -> forall kv (xs ys : rows), has_mamba kv = false -> ok kv (xs ++ ys) -> ok kv xs) ->
  (back -> forall kv kv' (xs ys : rows), ok kv xs -> ok kv' (xs ++ ys) -> ok (rolled kv kv') xs) -> causal_on back (flat d) (flat d) P run out ok.
Proof. intros H1 H2 H3 H4 H5. split; [exact H1|exact H2|exact H3| |]; intros until ys; intros B; [by apply H4|by apply H5]. Qed.

Lemma flat_causal d P (run : PassOn (Err := Err) (flat d) (flat d)) out ok :
  (forall kv (xs ys : rows), ok kv xs -> wide d xs -> wide d ys -> ys <> [] -> length xs + length ys <= kc_max_t kv ->
    exists kv', run kv (concat ys) (length ys) (length xs) =
        ROk (kv', concat (map (fun i => out (xs ++ take (S i) ys)) (seq 0 (length ys)))) /\
      ok kv' (xs ++ ys) /\ touches P kv kv') ->
  (forall hist : rows, hist <> [] -> wide d hist -> length (out hist) = d) ->
  (forall Q kv kv' hist, touches Q kv kv' -> (forall j, Q j -> ~ P j) -> ok kv hist -> ok kv' hist) ->
  (forall kv (xs ys : rows), has_mamba kv = false -> ok kv (xs ++ ys) -> ok kv xs) ->
  (forall kv kv' (xs ys : rows), ok kv xs -> ok kv' (xs ++ ys) -> ok (rolled kv kv') xs) -> causal d P run out ok.
Proof. intros H1 H2 H3 H4 H5. by apply flat_causal_on. Qed.

Lemma flat_run {back d P} {run : PassOn (Err := Err) (flat d) (flat d)} {out ok} : causal_on back (flat d) (flat d) P run out ok ->
  forall kv (xs ys : rows), ok kv xs -> wide d xs -> wide d ys -> ys <> [] -> length xs + length ys <= kc_max_t kv ->
    exists kv', run kv (concat ys) (length ys) (length xs) =
        ROk (kv', concat (map (fun i => out (xs ++ take (S i) ys)) (seq 0 (length ys)))) :> res Err (KvCache * list f32) /\
      ok kv' (xs ++ ys) /\ touches P kv kv'.
Proof. intros Ca. exact (ca_run Ca). Qed.

Lemma wide_block {back d P} {run : PassOn (Err := Err) (flat d) (flat d)} {out ok} : causal_on back (flat d) (flat d) P run out ok ->
  forall (xs ys : rows), wide d xs -> wide d ys -> wide d (map (fun i => out (xs ++ take (S i) ys)) (seq 0 (length ys))).
Proof. intros Ca xs ys. exact (good_block _ (flat d) _ _ _ _ _ xs ys Ca). Qed.

Lemma wide_stream {back d P} {run : PassOn (Err := Err) (flat d) (flat d)} {out ok} : causal_on back (flat d) (flat d) P run out ok ->
  forall xs : rows, wide d xs -> wide d (stream out xs).
Proof. intros Ca xs. exact (good_stream _ (flat d) _ _ _ _ _ xs Ca). Qed.

(** What a function of the last token gives along a block. *)
Lemma last_block {T U} (any : T) (one : T -> U) xs ys :
  map (fun i => one (default any (last (xs ++ take (S i) ys)))) (seq 0 (length ys)) = map one ys.
Proof.
  apply list_eq. intros i. change (map ?f ?l) with (f <$> l). rewrite !list_lookup_fmap. destruct (ys !! i) as [y|] eqn:Hi.
  - pose proof (lookup_lt_Some _ _ _ Hi). rewrite lookup_seq_lt by done. cbn. do 2 f_equal.
    rewrite last_app, last_lookup, length_take, Nat.min_l by lia. cbn. by rewrite lookup_take_lt, Hi by lia.
  - apply lookup_ge_None in Hi. by rewrite lookup_seq_ge.
Qed.

Lemma good_last {T} (good : T -> Prop) any hist : hist <> [] -> Forall good hist -> good (default any (last hist)).
Proof.
  intros Hn Hg. destruct (last hist) as [x|] eqn:Hl; [|by apply last_None in Hl]. cbn.
  apply last_Some_elem_of in Hl. rewrite Forall_forall in Hg. by apply Hg.
Qed.

(** A pass that gives each token a function of itself, and keeps the cache. *)
Lemma pointwise back R1 R2 P (run : PassOn (Err := Err) R1 R2) (one : rp_tok R1 -> rp_tok R2) :
  (forall kv ys pos, Forall (rp_good R1) ys -> run kv (rp_enc R1 ys) (length ys) pos = ROk (kv, rp_enc R2 (map one ys))) ->
  (forall x, rp_good R1 x -> rp_good R2 (one x)) ->
  causal_on back R1 R2 P run (fun h => one (default (rp_any R1) (last h))) (fun _ _ => True).
Proof.
  intros Hrun Hgood. split; try done.
  - intros kv xs ys _ _ Hy _ _. exists kv. split_and!; [|done|apply touches_refl]. by rewrite Hrun, last_block.
  - intros hist Hn Hg. apply Hgood. by apply good_last.
Qed.

Lemma flat_pointwise d P (run : PassOn (Err := Err) (flat d) (flat d)) (one : list f32 -> list f32) :
  (forall kv ys pos, wide d ys -> run kv (concat ys) (length ys) pos = ROk (kv, concat (map one ys))) ->
  (forall x, length x = d -> length (one x) = d) ->
  causal d P run (fun h => one (default [] (last h))) (fun _ _ => True).
Proof. exact (pointwise True (flat d) (flat d) P run one). Qed.

(** One pass after another. *)
Definition pass_then {R1 R2 R3 : Rep} (r1 : PassOn (Err := Err) R1 R2) (r2 : PassOn (Err := Err) R2 R3) : PassOn (Err := Err) R1 R3 :=
  fun kv x s pos => let? (kv, y) := r1 kv x s pos in r2 kv y s pos.

Lemma causal_after back R1 R2 R3 P1 P2 (r1 : PassOn R1 R2) (r2 : PassOn R2 R3) o1 o2 k1 k2 :
  causal_on back R1 R2 P1 r1 o1 k1 -> causal_on back R2 R3 P2 r2 o2 k2 -> (forall j, P1 j -> ~ P2 j) ->
  causal_on back R1 R3 (fun j => P1 j \/ P2 j) (pass_then r1 r2) (fun h => o2 (stream o1 h)) (fun kv h => k1 kv h /\ k2 kv (stream o1 h)).
Proof.
  intros C1 C2 Hd. split.
  - intros kv xs ys [H1 H2] Hx Hy Hn Hlen.
    destruct (ca_run C1 kv xs ys H1 Hx Hy Hn Hlen) as (kv1 & E1 & K1 & T1). unfold pass_then. rewrite E1.
    set (zs := map _ _). assert (length zs = length ys) as Hz by (unfold zs; by rewrite length_map, length_seq).
    destruct (ca_run C2 kv1 (stream o1 xs) zs) as (kv2 & E2 & K2 & T2).
    { apply (ca_frame C2 P1 kv); auto. }
    { by eapply good_stream. }
    { by eapply good_block. }
    { intros Hz0. rewrite Hz0 in Hz. by destruct ys. }
    { rewrite stream_length, Hz, (tc_max _ _ _ T1). done. }
    rewrite Hz, stream_length in E2. exists kv2. rewrite E2. split_and!.
    + do 3 f_equal. apply map_ext. intros i. f_equal.
      replace (stream o1 xs ++ take (S i) zs) with (take (length xs + S i) (stream o1 (xs ++ ys))).
      * rewrite stream_take. f_equal. rewrite take_app_ge by lia. do 2 f_equal. lia.
      * rewrite stream_app. fold zs. rewrite take_app_ge by (rewrite stream_length; lia). rewrite stream_length. do 2 f_equal. lia.
    + apply (ca_frame C1 P2 kv1); [done|firstorder|done].
    + rewrite stream_app. done.
    + eapply touches_trans; (eapply touches_weaken; [|eassumption]); cbn; auto.
  - intros hist Hn Hw. apply (ca_good C2); [|by eapply good_stream]. intros H0.
    apply (f_equal length) in H0. rewrite stream_length in H0. by destruct hist.
  - intros Q kv kv' hist T HQ [H1 H2]. split; [eapply (ca_frame C1)|eapply (ca_frame C2)]; [exact T| |done|exact T| |done]; firstorder.
  - intros kv xs ys B Hm [H1 H2]. rewrite stream_app in H2. split; [by eapply (ca_prefix C1)|by eapply (ca_prefix C2)].
  - intros kv kv' xs ys B [H1 H2] [H1' H2']. rewrite stream_app in H2'. split.
    + eapply (ca_rolled C1); [done|done|exact H1'].
    + eapply (ca_rolled C2); [done|done|exact H2'].
Qed.

(** A pass between a preparation of each token and its combination with what
    the pass gives for it. *)
Definition around {R R1 R2 R3 : Rep} (pre : rp_buf R -> nat -> option (rp_buf R1)) (run : PassOn (Err := Err) R1 R2)
    (post : rp_buf R -> rp_buf R2 -> option (rp_buf R3)) : PassOn (Err := Err) R R3 :=
  fun kv x s pos =>
    let? h := unwrap (pre x s) in let? (kv, t) := run kv h s pos in
    let? y := unwrap (post x t) in ROk (kv, y).

Lemma causal_around back R R1 R2 R3 P pre (run : PassOn R1 R2) post out ok (f : rp_tok R -> rp_tok R1) (g : rp_tok R -> rp_tok R2 -> rp_tok R3) :
  causal_on back R1 R2 P run out ok ->
  (forall ys, Forall (rp_good R) ys -> pre (rp_enc R ys) (length ys) = Some (rp_enc R1 (map f ys))) ->
  (forall x, rp_good R x -> rp_good R1 (f x)) ->
  (forall ys ts, Forall (rp_good R) ys -> Forall (rp_good R2) ts -> length ys = length ts -> ys <> [] ->
     post (rp_enc R ys) (rp_enc R2 ts) = Some (rp_enc R3 (zip_with g ys ts))) ->
  (forall x t, rp_good R x -> rp_good R2 t -> rp_good R3 (g x t)) ->
  causal_on back R R3 P (around pre run post) (fun h => g (default (rp_any R) (last h)) (out (map f h))) (fun kv h => ok kv (map f h)).
Proof.
  intros Ca Hpre Hf Hpost Hg. assert (forall h, Forall (rp_good R) h -> Forall (rp_good R1) (map f h)) as Hgf.
  { intros h Hh. apply Forall_map. eapply Forall_impl; [exact Hh|exact Hf]. }
  split.
  - intros kv xs ys Hok Hx Hy Hn Hlen.
    destruct (ca_run Ca kv (map f xs) (map f ys) Hok (Hgf _ Hx) (Hgf _ Hy)) as (kv' & E1 & K1 & T1).
    { by destruct ys. }
    { by rewrite !length_map. }
    rewrite !length_map in E1. exists kv'. unfold around. rewrite Hpre by done. cbn [unwrap]. cbv beta iota. rewrite E1, map_app. split_and!; [|done|done].
    pose proof (good_block _ _ _ _ _ _ _ _ _ Ca (Hgf _ Hx) (Hgf _ Hy)) as Wb. rewrite length_map in Wb.
    rewrite Hpost by (done || by rewrite length_map, length_seq). cbn [unwrap]. cbv beta iota. do 3 f_equal.
    apply list_eq. intros i. rewrite lookup_zip_with. change (map ?f (seq 0 ?n)) with (f <$> seq 0 n). rewrite !list_lookup_fmap.
    destruct (ys !! i) as [y|] eqn:Hi; cbn.
    + pose proof (lookup_lt_Some _ _ _ Hi). rewrite lookup_seq_lt by done. cbn. f_equal.
      rewrite last_app, last_lookup, length_take, Nat.min_l by lia. cbn. rewrite lookup_take_lt, Hi by lia. cbn. f_equal.
      rewrite map_app. do 2 f_equal. change (map ?f ?l) with (f <$> l). by rewrite fmap_take.
    + apply lookup_ge_None in Hi. by rewrite lookup_seq_ge.
  - intros hist Hn Hh. apply Hg; [by apply good_last|]. apply (ca_good Ca); [by destruct hist|by apply Hgf].
  - intros Q kv kv' hist T HQ Hok. by eapply (ca_frame Ca).
  - intros kv xs ys B Hm Hok. rewrite map_app in Hok. by eapply (ca_prefix Ca).
  - intros kv kv' xs ys B H1 H2. rewrite map_app in H2. by eapply (ca_rolled Ca).
Qed.
End Causal.

(** ** The passes of the layers *)

Lemma last_take {D} (l : list D) i x : l !! i = Some x -> forall k, last (k ++ take (S i) l) = Some x.
Proof.
  intros H k. pose proof (lookup_lt_Some _ _ _ H). rewrite last_app, last_lookup, length_take, Nat.min_l by lia. cbn.
  by rewrite lookup_take_lt, H by lia.
Qed.

Lemma residual_rows d (xs ts : rows) : wide d xs -> wide d ts -> length xs = length ts ->
  residual (concat xs) (concat ts) = concat (zip_with (f32_zip f32_add) xs ts).
Proof.
  unfold residual, f32_zip. intros Hx. revert ts. induction Hx as [|x xs Hx _ IH]; intros [|t ts] Ht Hl; try done.
  apply Forall_cons in Ht as [Ht Hts]. cbn. rewrite combine_app_eq, map_app by lia. f_equal. apply IH; [done|by injection Hl].
Qed.

Lemma zip_length d x y : length x = d -> length y = d -> length (f32_zip f32_add x y) = d.
Proof. intros Hx Hy. unfold f32_zip. rewrite length_map, length_combine. lia. Qed.

Section Passes.
Context {Err : Type} (d : nat) (ep : f32).
Local Set Default Proof Using "All".
Abbreviation Pass := (PassOn (Err := Err) (flat d) (flat d)).

Definition normed (w x : list f32) : list f32 := default [] (rmsnorm x w ep).

Lemma normed_rows w xs : d <= length w -> wide d xs ->
  norm_rows d (length xs) w ep (concat xs) = Some (concat (map (normed w) xs)) /\ wide d (map (normed w) xs).
Proof using.
  intros Hw Hxs. assert (Forall (fun x => rmsnorm x w ep = Some (normed w x) /\ length (normed w x) = d) xs) as H.
  { eapply Forall_impl; [exact Hxs|]. intros x Hx. cbn in Hx. destruct (rmsnorm_total x w ep) as (y & E & Hy); [lia|].
    unfold normed. rewrite E. split; [done|]. cbn. lia. }
  split.
  - unfold norm_rows. rewrite each_row_concat by done. assert (mapM (fun r => rmsnorm r w ep) xs = Some (map (normed w) xs)) as ->; [|done].
    clear Hxs. induction H as [|x xs [E _] _ IH]; [done|]. rewrite mapM_cons_eq, E, IH. done.
  - apply Forall_map. eapply Forall_impl; [exact H|]. by intros x [_ Hx].
Qed.

(** A pass on the normed rows, added to the rows. *)
Definition pre_norm (w : list f32) (run : Pass) : Pass :=
  around (R := flat d) (R1 := flat d) (R2 := flat d) (R3 := flat d) (fun x s => norm_rows d s w ep x) run (fun x t => Some (residual x t)).
Definition pre_norm_out (w : list f32) (out : rows -> list f32) (h : rows) : list f32 :=
  f32_zip f32_add (default [] (last h)) (out (map (normed w) h)).

Lemma causal_pre_norm P w run out ok : causal d P run out ok -> d <= length w ->
  causal d P (pre_norm w run) (pre_norm_out w out) (fun kv h => ok kv (map (normed w) h)).
Proof.
  intros Ca Hw. apply (causal_around True (flat d) (flat d) (flat d) (flat d)); [done|..]; cbn.
  - intros ys Hy. by apply normed_rows.
  - intros x Hx. destruct (normed_rows w [x] Hw) as [_ H]; [by constructor|]. by apply Forall_cons in H as [H _].
  - intros ys ts Hy Ht Hl _. f_equal. by apply (residual_rows d).
  - intros x t Hx Ht. by apply zip_length.
Qed.
End Passes.

(** The indexer stays out of a pass that ends at the position [n]. *)
Definition still (pf : Platform) (c : Config) (n : nat) : Prop :=
  arch c <> GlmMoeDsa \/ pf_dsa pf = false \/ n <= Z.to_nat (index_topk c) \/ n < pf_dsa_min pf.

Lemma still_le pf c n k : n <= k -> still pf c k -> still pf c n.
Proof. unfold still. intros ? [?|[?|[?|?]]]; [tauto|tauto|right; right; left; lia|right; right; right; lia]. Qed.

Section Layers.
Context {E X : Type} `{!ExpertProvider E} `{!Transport X} `{!AttnTransport X} (pf : Platform) (c : Config).
Context (Hpf : pf_m3_sparse pf = false) (Hone : pf_cluster pf = None) (Hgate : gate_total (pf_exp pf) (pf_tanh pf) (pf_act pf)).
Local Set Default Proof Using "All".

Abbreviation Err := (FwdError E X).
Abbreviation d := (Z.to_nat (hidden c)).
Abbreviation pass := (KvCache -> list f32 -> nat -> nat -> res Err (KvCache * list f32)).
Abbreviation hpg := (default 0 (heads_per_group (dims_of c))).

(** Grouped-query attention. *)
Definition gqa_pass (l : Layer) (li : nat) : pass := fun kv x s pos => unwrap (gqa pf c l li kv x s pos (s * d)).
Definition gqa_row (l : Layer) (li : nat) : rows -> list f32 := layer_out (pf_exp pf) (pf_sin pf) (pf_cos pf) (pf_pow pf) c l li.
Definition gqa_holds (l : Layer) (li : nat) : KvCache -> rows -> Prop := layer_stored (pf_sin pf) (pf_cos pf) (pf_pow pf) c l li.

Lemma causal_gqa l li : wf_gqa (gqa_of c) l (is_gqa (arch c) && layer_uses_rope c li) d ->
  causal d (eq li) (gqa_pass l li) (gqa_row l li) (gqa_holds l li).
Proof.
  intros W. apply flat_causal.
  - intros kv xs ys Hok Hx Hy Hn Hl. unfold gqa_pass, gqa. rewrite Hpf.
    destruct (attention_gqa_spec (pf_exp pf) (pf_sin pf) (pf_cos pf) (pf_pow pf) c l li d kv xs ys W Hok Hx Hy Hn Hl) as (kv' & -> & K & F).
    exists kv'. split_and!; [done|done|]. eapply touches_full; [done|by eapply stored_shaped|by eapply stored_shaped].
  - intros hist _ _. by apply layer_out_length.
  - intros Q kv kv' hist T HQ [H1 H2 (kb & vb & H3 & H4 & H5 & H6 & H7)].
    assert (~ Q li) as Hq by (intros Hq; by apply (HQ li Hq)). destruct (tc_full _ _ _ T li Hq) as [F1 F2].
    split; [by rewrite (tc_dim _ _ _ T)|by rewrite (tc_start _ _ _ T li Hq)|].
    exists kb, vb. rewrite F1, F2, (tc_max _ _ _ T). by split_and!.
  - intros kv xs ys _ [H1 H2 (kb & vb & H3 & H4 & H5 & H6 & H7)]. split; [done|done|]. exists kb, vb. split_and!; [done..|].
    intros i x Hi. apply H7. rewrite lookup_app_l; [done|by eapply lookup_lt_Some].
  - intros kv kv' xs ys _ [H1 H2 (kb & vb & H3 & H4 & H5 & H6 & H7)]. split; [done|done|]. exists kb, vb. split_and!; [done..|].
    intros i x Hi. apply H7. rewrite lookup_app_l; [done|by eapply lookup_lt_Some].
Qed.

(** Latent attention, where the indexer stays out. *)
Definition mla_pass (l : Layer) (li : nat) : pass := fun kv x s pos =>
  let? (kvo, _) := unwrap (mla pf c l li kv x s pos (s * d) None) in ROk kvo.
Definition mla_row (l : Layer) (li : nat) : rows -> list f32 := lat_out (pf_exp pf) (pf_sin pf) (pf_cos pf) (pf_pow pf) c l.
Definition mla_holds (l : Layer) (li : nat) (kv : KvCache) (h : rows) : Prop :=
  lat_stored (pf_sin pf) (pf_cos pf) (pf_pow pf) (mla_of c) l li kv h /\ still pf c (kc_max_t kv).

Lemma still_idle l li n : arch c = GlmMoeDsa \/ l_ix_wk l = None -> still pf c n -> idle (pf_dsa pf) (pf_dsa_min pf) c l li n.
Proof. unfold still, idle. intros [?|?]; [|tauto]. intros [?|[?|[?|?]]]; [done|tauto..]. Qed.

Lemma causal_mla l li : arch c = GlmMoeDsa \/ l_ix_wk l = None -> wf_mla (mla_of c) l d -> causal d (eq li) (mla_pass l li) (mla_row l li) (mla_holds l li).
Proof.
  intros Ha W. apply flat_causal.
  - intros kv xs ys [Hok Hst] Hx Hy Hn Hl. unfold mla_pass, mla.
    destruct (attention_mla_spec (pf_exp pf) (pf_sin pf) (pf_cos pf) (pf_pow pf) (pf_dsa pf) (pf_dsa_min pf) c l li d W kv xs ys Hok) as (kv' & -> & K & A);
      [by apply still_idle|done..|].
    assert (touches (eq li) kv kv') as T by (eapply touches_lat; [done|apply Hok|apply K]).
    exists kv'. split_and!; [done|split; [done|by rewrite (tc_max _ _ _ T)]|done].
  - intros hist _ _. by apply (lat_out_length (pf_exp pf) (pf_sin pf) (pf_cos pf) (pf_pow pf) (pf_dsa pf) (pf_dsa_min pf) c l li d W).
  - intros Q kv kv' hist T HQ [[H1 H2 H3] H4]. assert (~ Q li) as Hq by (intros Hq; by apply (HQ li Hq)).
    destruct (tc_latent _ _ _ T li Hq) as [F1 F2]. destruct (tc_lat_dims _ _ _ T) as (D1 & D2 & D3).
    split; [|by rewrite (tc_max _ _ _ T)]. split.
    + unfold lat_shaped. by rewrite D1, D2, D3, F1, F2, (tc_max _ _ _ T).
    + by rewrite (tc_start _ _ _ T li Hq).
    + intros i x Hi. specialize (H3 i x Hi). unfold latent_row, krot_row, slot in *. by rewrite D1, D2, D3, F1, F2.
  - intros kv xs ys _ [[H1 H2 H3] H4]. split; [|done]. split; [done..|]. intros i x Hi. apply H3. rewrite lookup_app_l; [done|by eapply lookup_lt_Some].
  - intros kv kv' xs ys _ [[H1 H2 H3] H4]. split; [|done]. split; [done..|]. intros i x Hi. apply H3. rewrite lookup_app_l; [done|by eapply lookup_lt_Some].
Qed.

(** A layer's attention, of either kind. *)
Definition attend_layer (l : Layer) (li : nat) (kv : KvCache) (x : list f32) (s pos : nat) : option (KvCache * list f32) :=
  if is_gqa (arch c) then gqa pf c l li kv x s pos (s * d) else let* (kvo, _) := mla pf c l li kv x s pos (s * d) None in Some kvo.
Definition att_pass (l : Layer) (li : nat) : pass := fun kv x s pos => unwrap (attend_layer l li kv x s pos).
Definition att_row (l : Layer) (li : nat) : rows -> list f32 := if is_gqa (arch c) then gqa_row l li else mla_row l li.
Definition att_holds (l : Layer) (li : nat) : KvCache -> rows -> Prop := if is_gqa (arch c) then gqa_holds l li else mla_holds l li.
Definition att_fits (l : Layer) (li : nat) : Prop :=
  if is_gqa (arch c) then wf_gqa (gqa_of c) l (is_gqa (arch c) && layer_uses_rope c li) d else arch c = GlmMoeDsa /\ wf_mla (mla_of c) l d.

Lemma causal_att l li : att_fits l li -> causal d (eq li) (att_pass l li) (att_row l li) (att_holds l li).
Proof.
  unfold att_fits, att_row, att_holds. intros W. destruct (is_gqa (arch c)) eqn:Hg.
  - assert (att_pass l li = gqa_pass l li) as ->; [by unfold att_pass, attend_layer, gqa_pass; rewrite Hg|]. apply causal_gqa. by rewrite Hg.
  - destruct W as [Ha W]. pose proof (causal_mla l li (or_introl Ha) W) as Ca.
    eapply causal_ext; [|exact Ca]. intros kv x s pos. unfold att_pass, attend_layer, mla_pass. rewrite Hg.
    by destruct (mla _ _ _ _ _ _ _ _ _ _) as [[??]|].
Qed.

(** The Mamba-2 mixer. *)
Definition mixer_pass (l : Layer) (li : nat) : pass := fun kv x s pos =>
  unwrap (mamba2_mixer (pf_exp pf) (pf_ln_1p pf) (pf_conv_skip pf) c l kv li x s (s * d)).
Definition mixer_run (l : Layer) : rows -> Carried * rows := mamba_run (pf_exp pf) (pf_ln_1p pf) c l hpg (carried_init c).
Definition mixer_row (l : Layer) (h : rows) : list f32 := default [] (last (mixer_run l h).2).
Definition mixer_holds (l : Layer) (li : nat) (kv : KvCache) (h : rows) : Prop :=
  has_mamba kv = true /\ carries c li kv (mixer_run l h).1.

Lemma mamba_run_take l xs : forall st n, (mamba_run (pf_exp pf) (pf_ln_1p pf) c l hpg st (take n xs)).2 =
  take n (mamba_run (pf_exp pf) (pf_ln_1p pf) c l hpg st xs).2.
Proof using.
  induction xs as [|x xs IH]; intros st [|n]; [done|done|by destruct (mamba_run _ _ _ _ _ _ (x :: xs))|]. cbn [take mamba_run].
  destruct (mamba_step _ _ _ _ _ st x) as [st1 o]. specialize (IH st1 n).
  destruct (mamba_run _ _ _ _ _ st1 (take n xs)), (mamba_run _ _ _ _ _ st1 xs). cbn in *. by rewrite IH.
Qed.

Lemma mamba_run_width l xs : wf_mamba c l d hpg -> forall st, length (mamba_run (pf_exp pf) (pf_ln_1p pf) c l hpg st xs).2 = length xs /\
  wide d (mamba_run (pf_exp pf) (pf_ln_1p pf) c l hpg st xs).2.
Proof using.
  intros W. destruct (wm_out _ _ _ _ W) as (wo & Eo & Wo). induction xs as [|x xs IH]; intros st; [split; [done|constructor]|]. cbn [mamba_run].
  unfold mamba_step. destruct (scan_row _ _ _ _ _ _ _ _ _) as [data y]. specialize (IH (drop 1 st.1 ++ [tok_hbc c l x], data)) as [H1 H2].
  destruct (mamba_run _ _ _ _ _ _ xs). cbn in *. split; [by rewrite H1|]. constructor; [|done].
  unfold finish. rewrite Eo. by apply (matvec_length wo (Z.to_nat (mamba_inter c))).
Qed.

Lemma causal_mixer l li : wf_mamba c l d hpg -> causal d (eq li) (mixer_pass l li) (mixer_row l) (mixer_holds l li).
Proof.
  intros W. pose proof (mamba2_mixer_spec (pf_exp pf) (pf_ln_1p pf) c l d hpg (pf_conv_skip pf) li) as Spec. apply flat_causal.
  - intros kv xs ys [Hm Hok] Hx Hy Hn Hl. destruct (Spec kv _ ys W Hok Hy Hn) as (kv' & E1 & K & F & L1 & L2).
    pose proof (touches_mamba _ _ _ F) as T. exists kv'. unfold mixer_pass. rewrite E1. cbn [unwrap].
    pose proof (mamba_run_app (pf_exp pf) (pf_ln_1p pf) c l hpg xs ys (carried_init c)) as Happ.
    unfold mixer_holds, mixer_run in *. rewrite Happ.
    destruct (mamba_run _ _ _ _ _ (carried_init c) xs) as [st1 o1] eqn:R1. destruct (mamba_run _ _ _ _ _ st1 ys) as [st2 o2] eqn:R2.
    cbn [fst snd] in *. rewrite R2 in *. cbn [fst snd] in *. split_and!; [|unfold has_mamba in *; by rewrite (tc_conv_dim _ _ _ T)|done|done].
    do 3 f_equal. apply list_eq. intros i. change (map ?f (seq 0 ?n)) with (f <$> seq 0 n). rewrite list_lookup_fmap.
    destruct (o2 !! i) as [o|] eqn:Ho.
    + pose proof (lookup_lt_Some _ _ _ Ho). rewrite lookup_seq_lt by lia. cbn. f_equal. unfold mixer_row, mixer_run.
      rewrite mamba_run_app, R1. pose proof (mamba_run_take l ys st1 (S i)) as Ht. rewrite R2 in Ht. cbn in Ht.
      destruct (mamba_run _ _ _ _ _ st1 (take (S i) ys)) as [st3 o3]. cbn [fst snd] in *. subst o3. by rewrite (last_take o2 i o Ho).
    + apply lookup_ge_None in Ho. by rewrite lookup_seq_ge by lia.
  - intros hist Hn Hw. unfold mixer_row, mixer_run. destruct (mamba_run_width l hist W (carried_init c)) as [H1 H2].
    destruct (last _) as [o|] eqn:Ho; [|apply last_None in Ho; rewrite Ho in H1; destruct hist; [done|simpl in H1; lia]]. cbn.
    apply last_Some_elem_of in Ho. unfold wide in H2. rewrite Forall_forall in H2. by apply H2.
  - intros Q kv kv' hist T HQ [Hm (H1 & H2 & H3 & H4 & H5)]. assert (~ Q li) as Hq by (intros Hq; by apply (HQ li Hq)).
    destruct (tc_mamba _ _ _ T li Hq) as [M1 M2]. split; [unfold has_mamba in *; by rewrite (tc_conv_dim _ _ _ T)|].
    unfold carries. rewrite M1, M2. by split_and!.
  - intros kv xs ys Hm [Hm' _]. congruence.
  - intros kv kv' xs ys [_ H] [Hm' _]. by split.
Qed.

(** The experts in the latent space, the experts, and the dense block. *)
Definition latent_pass (l : Layer) (li : nat) : pass := fun kv x s pos =>
  let? out := from_moe (nemotron_moe (pf_exp pf) (pf_tanh pf) (pf_act pf) c l li x s (s * d) (pf_cluster pf)) in ROk (kv, out).
Definition ffn_pass (l : Layer) (li : nat) : pass := fun kv x s pos =>
  let? out :=
    if l_sparse l then
      from_moe (moe (pf_exp pf) (pf_tanh pf) (pf_act pf) c l li x s (s * d) (0 <? n_shared c)%Z (pf_cluster pf))
    else unwrap (dense_mlp (pf_exp pf) (pf_tanh pf) (pf_act pf) l x s (s * d)) in
  ROk (kv, out).
Definition ffn_one (l : Layer) (li : nat) (x : list f32) : list f32 :=
  if l_sparse l then token_row (pf_exp pf) (pf_tanh pf) (pf_act pf) c l li (0 <? n_shared c)%Z x
  else default [] (ffn (pf_exp pf) (pf_tanh pf) (pf_act pf) (l_gate_proj l) (l_up_proj l) (l_down_proj l) x 1 d).

(** A row and its function, when a pass keeps each row to itself. *)
Definition last_row (one : list f32 -> list f32) (h : rows) : list f32 := one (default [] (last h)).

Lemma causal_latent l li :
  ready_latent (pf_exp pf) (pf_tanh pf) (pf_act pf) c l li (Z.to_nat (moe_latent c)) -> active_experts c <= 2 ->
  causal d (fun _ => False) (latent_pass l li) (last_row (lat_row (pf_exp pf) (pf_tanh pf) (pf_act pf) c l li (Z.to_nat (moe_latent c)))) (fun _ _ => True).
Proof.
  intros R Hk. apply flat_pointwise.
  - intros kv ys pos Hy. unfold latent_pass. rewrite Hone.
    destruct (latent_tokens (pf_exp pf) (pf_tanh pf) (pf_act pf) (X := X) c l li ys R Hk Hy) as [-> _]. done.
  - intros x Hx. destruct (latent_tokens (pf_exp pf) (pf_tanh pf) (pf_act pf) (X := X) c l li [x] R Hk) as [_ H]; [by constructor|].
    by apply Forall_cons in H as [H _].
Qed.

Definition wf_ffn_layer (l : Layer) (li : nat) : Prop :=
  if l_sparse l then ready (pf_exp pf) (pf_tanh pf) (pf_act pf) c l li (0 <? n_shared c)%Z /\ active_experts c <= 2
  else wf_ffn (pf_act pf) (l_gate_proj l) (l_up_proj l) (l_down_proj l) d.

Lemma ffn_pass_rows l li ys : wf_ffn_layer l li -> wide d ys ->
  (forall kv pos, ffn_pass l li kv (concat ys) (length ys) pos = ROk (kv, concat (map (ffn_one l li) ys))) /\ wide d (map (ffn_one l li) ys).
Proof.
  intros W Hy. unfold wf_ffn_layer, ffn_pass, ffn_one in *. destruct (l_sparse l).
  - destruct W as [R Hk]. rewrite Hone. destruct (moe_tokens (pf_exp pf) (pf_tanh pf) (pf_act pf) (X := X) c l li _ ys R Hk Hy) as [-> Hl].
    split; [done|by apply Forall_map].
  - destruct (ffn_tokens (pf_exp pf) (pf_tanh pf) (pf_act pf) c _ _ _ ys Hgate W Hy) as [E1 Hl].
    split; [intros; unfold dense_mlp; by rewrite E1|by apply Forall_map].
Qed.

Lemma causal_ffn l li : wf_ffn_layer l li -> causal d (fun _ => False) (ffn_pass l li) (last_row (ffn_one l li)) (fun _ _ => True).
Proof.
  intros W. apply flat_pointwise.
  - intros kv ys pos Hy. by apply ffn_pass_rows.
  - intros x Hx. destruct (ffn_pass_rows l li [x] W) as [_ Hl]; [by constructor|]. by apply Forall_cons in Hl as [Hl _].
Qed.

(** ** Layers and their stack *)

Definition mix_pass (kd : option LayerKind) (l : Layer) (li : nat) : pass :=
  match kd with Some Mamba => mixer_pass l li | Some Attn => gqa_pass l li | _ => latent_pass l li end.
Definition mix_row (kd : option LayerKind) (l : Layer) (li : nat) : rows -> list f32 :=
  match kd with
  | Some Mamba => mixer_row l
  | Some Attn => gqa_row l li
  | _ => last_row (lat_row (pf_exp pf) (pf_tanh pf) (pf_act pf) c l li (Z.to_nat (moe_latent c)))
  end.
Definition mix_holds (kd : option LayerKind) (l : Layer) (li : nat) : KvCache -> rows -> Prop :=
  match kd with Some Mamba => mixer_holds l li | Some Attn => gqa_holds l li | _ => fun _ _ => True end.

Definition attn_fits (l : Layer) (li : nat) : Prop := wf_gqa (gqa_of c) l (is_gqa (arch c) && layer_uses_rope c li) d.
Definition wf_layer (kd : option LayerKind) (l : Layer) (li : nat) : Prop :=
  d <= length (l_in_ln l) /\
  match arch c with
  | NemotronH =>
      match kd with
      | Some Mamba => wf_mamba c l d hpg
      | Some Attn => attn_fits l li
      | Some Config.Moe => ready_latent (pf_exp pf) (pf_tanh pf) (pf_act pf) c l li (Z.to_nat (moe_latent c)) /\ active_experts c <= 2
      | _ => False
      end
  | _ => att_fits l li /\ d <= length (l_post_ln l) /\ wf_ffn_layer l li
  end.

Definition layer_pass (kd : option LayerKind) (l : Layer) (li : nat) : pass :=
  match arch c with
  | NemotronH => pre_norm d (eps c) (l_in_ln l) (mix_pass kd l li)
  | _ => pass_then (R1 := flat d) (R2 := flat d) (R3 := flat d) (pre_norm d (eps c) (l_in_ln l) (att_pass l li)) (pre_norm d (eps c) (l_post_ln l) (ffn_pass l li))
  end.
Definition layer_row (kd : option LayerKind) (l : Layer) (li : nat) : rows -> list f32 :=
  match arch c with
  | NemotronH => pre_norm_out (eps c) (l_in_ln l) (mix_row kd l li)
  | _ => fun h => pre_norm_out (eps c) (l_post_ln l) (last_row (ffn_one l li)) (stream (pre_norm_out (eps c) (l_in_ln l) (att_row l li)) h)
  end.
Definition layer_holds (kd : option LayerKind) (l : Layer) (li : nat) (kv : KvCache) (h : rows) : Prop :=
  let n := map (normed (eps c) (l_in_ln l)) h in
  match arch c with NemotronH => mix_holds kd l li kv n | _ => att_holds l li kv n end.

Lemma causal_mix kd l li : wf_layer kd l li -> arch c = NemotronH -> causal d (eq li) (mix_pass kd l li) (mix_row kd l li) (mix_holds kd l li).
Proof.
  intros [_ W] Ha. rewrite Ha in W. unfold mix_pass, mix_row, mix_holds. destruct kd as [[]|]; try done.
  - by apply causal_mixer.
  - by apply causal_gqa.
  - destruct W as [R Hk]. eapply causal_weaken; [| | |by apply causal_latent]; done.
Qed.

Lemma causal_layer kd l li : wf_layer kd l li -> causal d (eq li) (layer_pass kd l li) (layer_row kd l li) (layer_holds kd l li).
Proof.
  intros W. pose proof W as [Hw W']. unfold layer_pass, layer_row, layer_holds.
  destruct (arch c) eqn:Ha; try (by apply (causal_pre_norm d (eps c) (eq li)); [apply causal_mix|]).
  all: destruct W' as (Wa & Hp & Wf).
  all: pose proof (causal_pre_norm d (eps c) (eq li) _ _ _ _ (causal_att l li Wa) Hw) as C1;
    pose proof (causal_pre_norm d (eps c) (fun _ => False) _ _ _ _ (causal_ffn l li Wf) Hp) as C2;
    eapply causal_weaken; [| | |exact (causal_after _ _ _ _ _ _ _ _ _ _ _ _ C1 C2 (fun _ _ F => F))].
  all: cbn; intros; tauto.
Qed.

(** The kind of a layer: its block's own, or the configuration's. *)
Definition kind_of (kd : option LayerKind) (li : nat) : option LayerKind := match kd with Some k => Some k | None => layer_kind c !! li end.

Lemma layer_forward_pass kd l li kv x s pos : wf_layer (kind_of kd li) l li -> still pf c (pos + s) ->
  layer_forward_kind pf c kv l li kd x s pos None = let? (kv, x) := layer_pass (kind_of kd li) l li kv x s pos in ROk (kv, x, None).
Proof.
  intros [_ W] Hst. unfold layer_forward_kind, layer_pass. fold (kind_of kd li). unfold pass_then, att_pass.
  assert (forall kv nrm, mla_layer (E := E) pf c l li kv nrm s pos None = unwrap (mla pf c l li kv nrm s pos (s * d) None)) as Hm.
  { intros. unfold mla_layer. rewrite Hone. by destruct (_ && _). }
  destruct (arch c) eqn:Ha.
  all: try (unfold pre_norm, around, nemotron_layer_forward, mix_pass; destruct (kind_of kd li) as [k|]; [|done]; cbn [unwrap]; cbv beta iota;
    destruct (norm_rows d s (l_in_ln l) (eps c) x); [|destruct k; done]; cbn [unwrap]; cbv beta iota; by destruct k).
  all: destruct W as (Wa & _); unfold att_fits in Wa; rewrite Ha in Wa; cbn [is_gqa] in Wa; try (destruct Wa as [Wa _]; discriminate Wa).
  all: unfold pre_norm, around, layer_ffn, ffn_pass, attend_layer; rewrite Ha; cbn [is_gqa];
    destruct (norm_rows d s (l_in_ln l) (eps c) x); [|done]; cbn [unwrap]; cbv beta iota.
  all: try (destruct (gqa pf c l li kv _ s pos (s * d)) as [[kv' t]|]; [|done]; cbn [unwrap fst snd]; cbv beta iota;
    destruct (norm_rows d s (l_post_ln l) (eps c) _); [|done]; cbn [unwrap]; cbv beta iota;
    destruct (if l_sparse l then _ else _); done).
  assert ((if default false (idx_type c !! li) then None else None : option selection) = None) as -> by by destruct (default _ _).
  rewrite Hm. destruct (mla pf c l li kv _ s pos (s * d) None) as [[[kv' t] cp]|] eqn:Em; [|done]. cbn [unwrap]. cbv beta iota.
  apply attention_idle in Em; [|apply still_idle; [by left|done]]. subst cp. destruct (default false (idx_type c !! li)); cbn [fst snd].
  all: destruct (norm_rows d s (l_post_ln l) (eps c) _); [|done]; cbn [unwrap]; cbv beta iota; destruct (if l_sparse l then _ else _); done.
Qed.

(** The stack from the layer [k] on. *)
Fixpoint stack_pass (ls : list Layer) (k : nat) : pass :=
  match ls with
  | [] => fun kv x _ _ => ROk (kv, x)
  | l :: ls => pass_then (R1 := flat d) (R2 := flat d) (R3 := flat d) (layer_pass (layer_kind c !! k) l k) (stack_pass ls (S k))
  end.
Fixpoint stack_row (ls : list Layer) (k : nat) (h : rows) : list f32 :=
  match ls with
  | [] => default [] (last h)
  | l :: ls => stack_row ls (S k) (stream (layer_row (layer_kind c !! k) l k) h)
  end.
Fixpoint stack_holds (ls : list Layer) (k : nat) (kv : KvCache) (h : rows) : Prop :=
  match ls with
  | [] => True
  | l :: ls => layer_holds (layer_kind c !! k) l k kv h /\ stack_holds ls (S k) kv (stream (layer_row (layer_kind c !! k) l k) h)
  end.
Definition wf_stack (ls : list Layer) (k : nat) : Prop := forall i l, ls !! i = Some l -> wf_layer (layer_kind c !! (k + i)) l (k + i).

Lemma causal_stack ls : forall k, wf_stack ls k ->
  causal d (fun j => k <= j < k + length ls) (stack_pass ls k) (stack_row ls k) (stack_holds ls k).
Proof.
  induction ls as [|l ls IH]; intros k W.
  - eapply causal_weaken; [| | |apply (flat_pointwise d (fun _ => False) _ id)]; [done|done|done| |done].
    intros kv ys pos _. cbn [stack_pass]. by rewrite map_id.
  - assert (wf_layer (layer_kind c !! k) l k) as Wl by (rewrite <- (Nat.add_0_r k); by apply W).
    assert (wf_stack ls (S k)) as Ws by (intros i l' Hi; specialize (W (S i) l' Hi); by rewrite Nat.add_succ_r in W).
    pose proof (causal_after _ _ _ _ _ _ _ _ _ _ _ _ (causal_layer _ l k Wl) (IH (S k) Ws)) as C.
    eapply causal_weaken; [| | |apply C]; [done|cbn; lia|done|]. intros j <-. lia.
Qed.

Lemma layers_stack ls s pos : still pf c (pos + s) -> forall k kv x, wf_stack ls k ->
  (let? (kvx, _) :=
     for_each (fun '(kvx, sel) '(li, l) =>
       let? (kvx, sel) := layer_forward pf c kvx.1 l li kvx.2 s pos sel in ROk (kvx, sel))
       (imap (fun i l => (k + i, l)) ls) ((kv, x), None) in
   ROk kvx) = stack_pass ls k kv x s pos.
Proof.
  intros Hst. induction ls as [|l ls IH]; intros k kv x W; [done|]. rewrite imap_cons. cbn [for_each stack_pass]. unfold pass_then.
  rewrite Nat.add_0_r. unfold layer_forward at 1. rewrite layer_forward_pass by (done || unfold kind_of; rewrite <- (Nat.add_0_r k); by apply W). cbn [kind_of]. cbn [fst snd].
  destruct (layer_pass (layer_kind c !! k) l k kv x s pos) as [[kv' x']| |]; [|done|done]. cbv beta iota.
  assert (imap ((fun i l => (k + i, l)) ∘ S) ls = imap (fun i l => (S k + i, l)) ls) as ->.
  { apply imap_ext. intros i y _. cbn. f_equal. lia. }
  apply IH. intros i l' Hi. specialize (W (S i) l' Hi). by rewrite Nat.add_succ_r in W.
Qed.

(** ** Passes that never fail *)

(** What the head that drafts relies on: from any cache with a row per
    position, whatever the rows hold, a pass gives rows. *)
Definition safe (P : nat -> Prop) (seat : KvCache -> nat -> Prop) (run : pass) : Prop :=
  forall kv ys pos, seat kv pos -> wide d ys -> ys <> [] -> pos + length ys <= kc_max_t kv ->
    exists kv' zs, run kv (concat ys) (length ys) pos = ROk (kv', concat zs) :> res Err (KvCache * list f32) /\ wide d zs /\ length zs = length ys /\ touches P kv kv'.

(** The layer [li] has rows in the cache. *)
Definition based (li : nat) (kv : KvCache) : Prop :=
  if allocates_gqa_kv c then shaped (gqa_of c) li kv else lat_shaped (mla_of c) li kv /\ still pf c (kc_max_t kv).
Definition seat (li : nat) (kv : KvCache) (pos : nat) : Prop :=
  based li kv /\ exists st, kc_kv_start kv !! li = Some st /\ (st <= Z.of_nat pos)%Z.

Lemma safe_gqa l li : allocates_gqa_kv c = true -> attn_fits l li -> safe (eq li) (seat li) (gqa_pass l li).
Proof.
  intros Hal W kv ys pos [Hsh (st & Hst & Hle)] Hy Hn Hl. unfold based in Hsh. rewrite Hal in Hsh. unfold gqa_pass, gqa. rewrite Hpf.
  destruct (attention_gqa_total (pf_exp pf) (pf_sin pf) (pf_cos pf) (pf_pow pf) c l li d kv ys pos st W Hsh Hst Hle Hy Hn Hl) as (kv' & zs & -> & Wz & Lz & F & Hsh').
  exists kv', zs. split_and!; [done|done|done|]. by eapply touches_full.
Qed.

Lemma safe_att l li : arch c <> NemotronH -> att_fits l li -> safe (eq li) (seat li) (att_pass l li).
Proof.
  intros Hna W. unfold att_fits in W. destruct (is_gqa (arch c)) eqn:Hg.
  - assert (att_pass l li = gqa_pass l li) as ->; [by unfold att_pass, attend_layer, gqa_pass; rewrite Hg|]. apply safe_gqa.
    + unfold allocates_gqa_kv. by rewrite Hg.
    + unfold attn_fits. by rewrite Hg.
  - destruct W as [Ha W]. intros kv ys pos [Hsh (st & Hst & Hle)] Hy Hn Hl. unfold based, allocates_gqa_kv in Hsh.
    rewrite Hg, bool_decide_false in Hsh by done. destruct Hsh as [Hsh Hi]. unfold att_pass, attend_layer. rewrite Hg. unfold mla.
    destruct (attention_mla_total (pf_exp pf) (pf_sin pf) (pf_cos pf) (pf_pow pf) (pf_dsa pf) (pf_dsa_min pf) c l li d W kv ys pos st Hsh
      (still_idle l li _ (or_introl Ha) Hi) Hst Hle Hy Hn Hl) as (kv' & zs & -> & Wz & Lz & F & Hsh').
    exists kv', zs. split_and!; [done|done|done|]. by eapply touches_lat.
Qed.

Lemma safe_causal P run out : causal d P run out (fun _ _ => True) -> safe P (fun _ _ => True) run.
Proof using.
  intros Ca kv ys pos _ Hy Hn Hl. set (xs := replicate pos (replicate d f0)).
  assert (wide d xs) as Hx by apply Forall_replicate, length_replicate.
  assert (length xs = pos) as Lx by apply length_replicate.
  destruct (flat_run Ca kv xs ys I Hx Hy Hn) as (kv' & E1 & _ & T); [by rewrite Lx|]. rewrite Lx in E1.
  eexists kv', _. split_and!; [exact E1|by apply (wide_block Ca)|by rewrite length_map, length_seq|done].
Qed.

Lemma safe_pre_norm P st w run : safe P st run -> d <= length w -> safe P st (pre_norm d (eps c) w run).
Proof.
  intros Sf Hw kv ys pos Hs Hy Hn Hl. destruct (normed_rows d (eps c) w ys Hw Hy) as [Ey Wy]. unfold pre_norm, around. rewrite Ey. cbn [unwrap]. cbv beta iota.
  destruct (Sf kv (map (normed (eps c) w) ys) pos) as (kv' & zs & E1 & Wz & Lz & T); [done|done|by destruct ys|by rewrite length_map|].
  rewrite length_map in E1, Lz. rewrite E1. rewrite (residual_rows d) by done. eexists kv', _. split_and!; [done| |rewrite length_zip_with; lia|done].
  apply Forall_lookup. intros i r Hr. apply lookup_zip_with_Some in Hr as (y & z & -> & Hi & Hz). unfold f32_zip. rewrite length_map, length_combine.
  unfold wide in Hy, Wz. rewrite Forall_lookup in Hy. rewrite Forall_lookup in Wz. rewrite (Hy i y Hi), (Wz i z Hz). lia.
Qed.

Lemma safe_after P1 P2 st r1 r2 : safe P1 st r1 -> safe P2 (fun _ _ => True) r2 -> safe (fun j => P1 j \/ P2 j) st (pass_then (R1 := flat d) (R2 := flat d) (R3 := flat d) r1 r2).
Proof.
  intros S1 S2 kv ys pos Hs Hy Hn Hl. destruct (S1 kv ys pos Hs Hy Hn Hl) as (kv1 & zs & E1 & Wz & Lz & T1). unfold pass_then. rewrite E1.
  destruct (S2 kv1 zs pos I Wz) as (kv2 & us & E2 & Wu & Lu & T2); [by destruct zs, ys|by rewrite (tc_max _ _ _ T1), Lz|].
  rewrite Lz in E2. exists kv2, us. split_and!; [done|done|lia|]. eapply touches_trans; (eapply touches_weaken; [|eassumption]); cbn; auto.
Qed.

Lemma safe_weaken (P Q : nat -> Prop) (s1 s2 : KvCache -> nat -> Prop) run :
  (forall j, P j -> Q j) -> (forall kv pos, s2 kv pos -> s1 kv pos) -> safe P s1 run -> safe Q s2 run.
Proof using.
  intros HPQ Hs Sf kv ys pos H Hy Hn Hl. destruct (Sf kv ys pos (Hs _ _ H) Hy Hn Hl) as (kv' & zs & E1 & W & L & T).
  exists kv', zs. split_and!; [done..|by eapply touches_weaken].
Qed.

Lemma safe_layer kd l li : wf_layer kd l li -> kd <> Some Mamba -> safe (eq li) (seat li) (layer_pass kd l li).
Proof.
  intros [Hw W] Hk. unfold layer_pass. destruct (decide (arch c = NemotronH)) as [Ha|Ha].
  - rewrite Ha in W |- *. apply safe_pre_norm; [|done]. unfold mix_pass. destruct kd as [[]|]; try done.
    + apply safe_gqa; [|done]. unfold allocates_gqa_kv. rewrite Ha. done.
    + destruct W as [R Ha2]. eapply safe_weaken; [| |exact (safe_causal _ _ _ (causal_latent l li R Ha2))]; done.
  - assert (att_fits l li /\ d <= length (l_post_ln l) /\ wf_ffn_layer l li) as (Wa & Hp & Wf) by by destruct (arch c).
    pose proof (safe_pre_norm _ _ _ _ (safe_att l li Ha Wa) Hw) as S1.
    pose proof (safe_causal _ _ _ (causal_pre_norm d (eps c) (fun _ => False) _ _ _ _ (causal_ffn l li Wf) Hp)) as S2.
    pose proof (safe_after _ _ _ _ _ S1 S2) as S3. destruct (arch c); try done; (eapply safe_weaken; [| |exact S3]; [cbn; tauto|done]).
Qed.

(** ** One token of each of several sequences *)

(** A sequence: its cache, the rows before, and its next row. *)
Record Seq := { sq_kv : KvCache; sq_past : rows; sq_row : list f32 }.

(** The sequence is where a cache and a row more make sense. *)
Definition sequence (holds : KvCache -> rows -> Prop) (s : Seq) : Prop :=
  holds (sq_kv s) (sq_past s) /\ wide d (sq_past s) /\ length (sq_row s) = d /\ length (sq_past s) + 1 <= kc_max_t (sq_kv s).

Lemma Forall_choice {A B} (R : A -> B -> Prop) l : Forall (fun x => exists y, R x y) l -> exists k, Forall2 R l k.
Proof using. induction 1 as [|x l [y Hy] _ [k Hk]]; [by exists []|by exists (y :: k); constructor]. Qed.

Lemma rmap_rows {Er A B} (f : A -> res Er B) l k : Forall2 (fun x y => f x = ROk y) l k -> rmap f l = ROk k.
Proof using. induction 1 as [|x y l k Hx _ IH]; [done|]. cbn. by rewrite Hx, IH. Qed.

Lemma norm_one w x : d <= length w -> length x = d -> norm_rows d 1 w (eps c) x = Some (normed (eps c) w x) /\ length (normed (eps c) w x) = d.
Proof using.
  intros Hw Hx. destruct (normed_rows d (eps c) w [x] Hw) as [E1 H1]; [by constructor|]. cbn [concat map length] in E1, H1. rewrite !app_nil_r in E1.
  split; [done|]. by apply Forall_cons in H1 as [H1 _].
Qed.

Lemma map_zip_with {A B F G} (f : F -> G) (g : A -> B -> F) l k : map f (zip_with g l k) = zip_with (fun x y => f (g x y)) l k.
Proof using. revert k. induction l as [|x l IH]; intros [|y k]; [done..|]. cbn. by rewrite IH. Qed.

Lemma zip_with_left {A B F} (h : A -> B -> F) (f : A -> F) l k : length l = length k -> (forall x y, h x y = f x) -> zip_with h l k = map f l.
Proof using. intros Hl Hf. revert k Hl. induction l as [|x l IH]; intros [|y k] [=]; [done|]. cbn. by rewrite Hf, IH. Qed.

Lemma zip_with_right {A B F} (h : A -> B -> F) (f : B -> F) l k : length l = length k -> (forall x y, h x y = f y) -> zip_with h l k = map f k.
Proof using. intros Hl Hf. revert k Hl. induction l as [|x l IH]; intros [|y k] [=]; [done|]. cbn. by rewrite Hf, IH. Qed.

Definition attended (l : Layer) (li : nat) (s : Seq) (o : KvCache * list f32) : Prop :=
  attend_layer l li (sq_kv s) (normed (eps c) (l_in_ln l) (sq_row s)) 1 (length (sq_past s)) = Some o /\ length o.2 = d.

(** What a lone layer makes of an attended row. *)
Definition finish_layer (l : Layer) (li : nat) (s : Seq) (o : KvCache * list f32) : KvCache * list f32 :=
  let a := f32_zip f32_add (sq_row s) o.2 in (o.1, f32_zip f32_add a (ffn_one l li (normed (eps c) (l_post_ln l) a))).

Lemma lone_layer kd l li s o : wf_layer kd l li -> arch c <> NemotronH -> length (sq_row s) = d -> attended l li s o ->
  layer_pass kd l li (sq_kv s) (sq_row s) 1 (length (sq_past s)) = ROk (finish_layer l li s o).
Proof.
  intros [Hw Wl] Hg Hx [Ho Hol]. unfold layer_pass.
  assert (d <= length (l_post_ln l) /\ wf_ffn_layer l li) as [Hp Wf] by by destruct (arch c) eqn:Ha; try done; destruct Wl as (_ & ? & ?).
  assert (pass_then (pre_norm d (eps c) (l_in_ln l) (att_pass l li)) (pre_norm d (eps c) (l_post_ln l) (ffn_pass l li)) (sq_kv s) (sq_row s) 1
    (length (sq_past s)) = ROk (finish_layer l li s o)) as Hgoal; [|by destruct (arch c)].
  unfold pass_then, pre_norm, around. destruct (norm_one _ _ Hw Hx) as [-> Hn]. cbn [unwrap]. cbv beta iota.
  unfold att_pass. rewrite Ho. cbn [unwrap]. destruct o as [kv t]. cbn [fst snd] in *. cbv beta iota.
  pose proof (zip_length d _ _ Hx Hol) as Hl. unfold residual. destruct (norm_one _ _ Hp Hl) as [-> Hn2]. cbn [unwrap]. cbv beta iota.
  destruct (ffn_pass_rows l li [normed (eps c) (l_post_ln l) (f32_zip f32_add (sq_row s) t)] Wf) as [Hf _]; [by constructor|].
  specialize (Hf kv (length (sq_past s))). cbn [concat map length] in Hf. rewrite !app_nil_r in Hf. by rewrite Hf.
Qed.

Lemma batched_layer kd l li ss os : wf_layer kd l li -> arch c <> NemotronH ->
  Forall (fun s => length (sq_row s) = d) ss -> Forall2 (attended l li) ss os ->
  layer_forward_batched (E := E) (X := X) pf c (map sq_kv ss) l li (concat (map sq_row ss)) (map (fun s => length (sq_past s)) ss) =
    ROk (map fst os, concat (map snd (zip_with (finish_layer l li) ss os))).
Proof.
  intros [Hw Wl] Hg Hx Ho. assert (wf_ffn_layer l li /\ d <= length (l_post_ln l)) as [Wf Hp].
  { destruct (arch c); try done; by destruct Wl as (_ & ? & ?). }
  pose proof (Forall2_length _ _ _ Ho) as Hlen. unfold layer_forward_batched. rewrite length_map.
  assert (wide d (map sq_row ss)) as Wx by by apply Forall_map.
  destruct (normed_rows d (eps c) (l_in_ln l) (map sq_row ss) Hw Wx) as [En Wn]. rewrite length_map in En. rewrite En. cbn [unwrap]. cbv beta iota.
  rewrite (rmap_rows _ _ os).
  2: { apply Forall2_same_length_lookup_2; [by rewrite length_imap, length_map|]. intros i [si pos] o Hi Hoi. rewrite list_lookup_imap in Hi.
    change (map ?f ss) with (f <$> ss) in Hi. rewrite list_lookup_fmap in Hi. destruct (ss !! i) as [s|] eqn:Hs; [|done]. injection Hi as <- <-.
    assert (map sq_kv ss !! i = Some (sq_kv s)) as -> by (change (map ?f ss) with (f <$> ss); by rewrite list_lookup_fmap, Hs). cbn [unwrap]. cbv beta iota.
    rewrite (concat_row d _ i (normed (eps c) (l_in_ln l) (sq_row s)) Wn) by (change (map ?f ?k) with (f <$> k); by rewrite !list_lookup_fmap, Hs).
    cbn [unwrap]. cbv beta iota. destruct (Forall2_lookup_lr _ _ _ _ _ _ Ho Hs Hoi) as [Eo _]. unfold attend_layer in Eo. rewrite Nat.mul_1_l in Eo.
    destruct (is_gqa (arch c)); [by rewrite Eo|]. destruct (mla _ _ _ _ _ _ _ _ _ _) as [[??]|]; [|done]. by injection Eo as ->. }
  set (as_ := zip_with (fun s o => f32_zip f32_add (sq_row s) o.2) ss os).
  assert (wide d (map snd os)) as Wo by (apply Forall_map; by eapply Forall2_Forall_r; [exact Ho|apply Forall_true; intros ? ? []]).
  assert (residual (concat (map sq_row ss)) (concat (map snd os)) = concat as_) as ->.
  { rewrite (residual_rows d) by (done || by rewrite !length_map). f_equal. unfold as_. by rewrite zip_with_fmap_l, zip_with_fmap_r. }
  assert (wide d as_ /\ length as_ = length ss) as [Wa La].
  { split; [|unfold as_; rewrite length_zip_with; lia]. apply Forall_lookup. intros i y Hy. apply lookup_zip_with_Some in Hy as (s & o & -> & Hs & Ho').
    apply zip_length; [rewrite Forall_lookup in Hx; by eapply Hx|]. by destruct (Forall2_lookup_lr _ _ _ _ _ _ Ho Hs Ho'). }
  unfold layer_ffn. destruct (normed_rows d (eps c) (l_post_ln l) as_ Hp Wa) as [Ea Wan]. rewrite La in Ea. rewrite Ea. cbn [unwrap]. cbv beta iota.
  destruct (ffn_pass_rows l li (map (normed (eps c) (l_post_ln l)) as_) Wf Wan) as [Hf Wff].
  specialize (Hf (kv_new 0 0 0 0) 0). unfold ffn_pass in Hf. rewrite length_map, La in Hf.
  destruct (if l_sparse l then _ else _) as [out| |]; [|done|done]. injection Hf as ->. cbv beta iota.
  rewrite (residual_rows d) by (done || by rewrite !length_map). do 3 f_equal.
  apply list_eq. intros i. rewrite lookup_zip_with. change (map ?f ?k) with (f <$> k). rewrite !list_lookup_fmap. unfold as_. rewrite !lookup_zip_with.
  destruct (ss !! i) as [s|]; [|done]. cbn. destruct (os !! i) as [o|]; done.
Qed.

Lemma stack_batched ls : forall k ss, arch c <> NemotronH -> wf_stack ls k -> Forall (sequence (stack_holds ls k)) ss ->
  exists os, Forall2 (fun s o => stack_pass ls k (sq_kv s) (sq_row s) 1 (length (sq_past s)) = ROk o) ss os /\
    for_each (fun '(kvs, x) '(li, l) => layer_forward_batched (E := E) (X := X) pf c kvs l li x (map (fun s => length (sq_past s)) ss))
      (imap (fun i l => (k + i, l)) ls) (map sq_kv ss, concat (map sq_row ss)) = ROk (map fst os, concat (map snd os)).
Proof.
  induction ls as [|l ls IH]; intros k ss Hg Wl Hs.
  { exists (map (fun s => (sq_kv s, sq_row s)) ss). split; [|by rewrite !map_map]. by apply Forall2_fmap_r, Forall_Forall2_diag, Forall_true. }
  assert (wf_layer (layer_kind c !! k) l k) as W0 by (rewrite <- (Nat.add_0_r k); by apply Wl).
  assert (wf_stack ls (S k)) as Ws by (intros i l' Hi; specialize (Wl (S i) l' Hi); by rewrite Nat.add_succ_r in Wl).
  pose proof (causal_layer _ l k W0) as Cl. pose proof (causal_stack ls (S k) Ws) as Cs.
  destruct (Forall_choice (attended l k) ss) as [os Hos].
  { eapply Forall_impl; [exact Hs|]. intros s ([Hh _] & Wp & Hx & Hm).
    assert (att_holds l k (sq_kv s) (map (normed (eps c) (l_in_ln l)) (sq_past s))) as Hq by (unfold layer_holds in Hh; by destruct (arch c)).
    assert (att_fits l k) as Wa by (destruct W0 as [_ W0]; destruct (arch c); try done; by destruct W0 as (? & _)).
    destruct W0 as [Hw _]. destruct (normed_rows d (eps c) (l_in_ln l) (sq_past s) Hw Wp) as [_ Wn]. destruct (norm_one _ _ Hw Hx) as [_ Hn].
    destruct (flat_run (causal_att l k Wa) (sq_kv s) _ [normed (eps c) (l_in_ln l) (sq_row s)] Hq Wn) as (kv' & E1 & _); [by constructor|done|by rewrite length_map|].
    cbn [concat length seq map] in E1. rewrite !app_nil_r, length_map in E1. unfold att_pass in E1.
    destruct (attend_layer l k _ _ _ _) as [o|] eqn:Eo; [|done]. exists o. split; [exact Eo|]. injection E1 as ->. cbn.
    apply (ca_good (causal_att l k Wa)); [by destruct (map _ (sq_past s))|]. apply Forall_app. split; [done|by constructor]. }
  set (next s o := {| sq_kv := o.1; sq_past := stream (layer_row (layer_kind c !! k) l k) (sq_past s); sq_row := (finish_layer l k s o).2 |}).
  set (ss1 := zip_with next ss os). pose proof (Forall2_length _ _ _ Hos) as Hlen.
  assert (Forall2 (fun s o => layer_pass (layer_kind c !! k) l k (sq_kv s) (sq_row s) 1 (length (sq_past s)) = ROk (o.1, sq_row (next s o)) /\
    sequence (stack_holds ls (S k)) (next s o)) ss os) as Hnext.
  { apply Forall2_same_length_lookup_2; [done|]. intros i s o Hi Ho. pose proof (Forall2_lookup_lr _ _ _ _ _ _ Hos Hi Ho) as Hat.
    rewrite Forall_lookup in Hs. destruct (Hs i s Hi) as ([Hh Hk] & Wp & Hx & Hm). pose proof (lone_layer _ l k s o W0 Hg Hx Hat) as El.
    split; [exact El|].
    destruct (flat_run Cl (sq_kv s) (sq_past s) [sq_row s] Hh Wp) as (kv' & E1 & _ & T1); [by constructor|done|done|].
    cbn [concat length seq map] in E1. rewrite !app_nil_r, El in E1. injection E1 as E1 E2.
    unfold sequence, next. cbn [sq_kv sq_past sq_row finish_layer fst snd]. rewrite E1, stream_length. split_and!.
    - eapply (ca_frame Cs); [exact T1|intros j <-; lia|done].
    - by apply (wide_stream Cl).
    - unfold finish_layer in E2. cbn [snd] in E2. rewrite E2. apply (ca_good Cl); [by destruct (sq_past s)|].
      apply Forall_app. split; [done|by constructor].
    - by rewrite (tc_max _ _ _ T1). }
  destruct (IH (S k) ss1 Hg Ws) as (os2 & H2 & E2).
  { unfold ss1. apply Forall_lookup. intros i s1 Hi. apply lookup_zip_with_Some in Hi as (s & o & -> & Hi & Ho).
    by apply (Forall2_lookup_lr _ _ _ _ _ _ Hnext Hi Ho). }
  exists os2. split.
  - apply Forall2_same_length_lookup_2.
    { apply Forall2_length in H2. unfold ss1 in H2. rewrite length_zip_with in H2. lia. }
    intros i s o2 Hi Ho2. destruct (lookup_lt_is_Some_2 os i) as [o Ho]; [rewrite <- Hlen; by eapply lookup_lt_Some|].
    destruct (Forall2_lookup_lr _ _ _ _ _ _ Hnext Hi Ho) as [El _]. cbn [stack_pass]. unfold pass_then. rewrite El.
    assert (ss1 !! i = Some (next s o)) as Hn by (unfold ss1; apply lookup_zip_with_Some; eauto).
    pose proof (Forall2_lookup_lr _ _ _ _ _ _ H2 Hn Ho2) as E3. cbn [next sq_kv sq_past sq_row] in E3. by rewrite stream_length in E3.
  - rewrite imap_cons. cbn [for_each]. rewrite Nat.add_0_r. rewrite (batched_layer _ l k ss os W0 Hg).
    2: { eapply Forall_impl; [exact Hs|]. by intros s (_ & _ & ? & _). }
    2: exact Hos.
    cbv beta iota.
    assert (imap ((fun i l => (k + i, l)) ∘ S) ls = imap (fun i l => (S k + i, l)) ls) as ->.
    { apply imap_ext. intros i y _. cbn. f_equal. lia. }
    unfold ss1 in E2. rewrite !map_zip_with in E2. cbn [next sq_kv sq_past sq_row] in E2.
    rewrite (zip_with_left _ (fun s => length (sq_past s))) in E2 by (done || (intros; by apply stream_length)).
    rewrite (zip_with_right _ fst) in E2 by done. rewrite map_zip_with. exact E2.
Qed.
End Layers.
