(* ===== verification/KimiStack.v ===== *)
(** * Kimi's layers as functions of their histories

    The layers of [kimi_forward]: what every token has of the attention
    residual after a layer depends only on the tokens up to it, whatever the
    blocks the sequence was fed in.  A delta-attention layer carries a state
    that cannot be taken back. *)

From Stdlib Require Import ZifyBool ZifyNat SpecFloat.
From S2P Require Import Prelude Rows DType Math Linear Sharding Config Model Moe MoeBatch KvCache Mla MlaCluster Mamba Kda AttnRes Platform Forward Stack.
Local Open Scope nat_scope.

Section KimiStack.
Context {E X : Type} `{!ExpertProvider E} `{!Transport X} `{!AttnTransport X} (pf : Platform) (c : Config).
Context (Hpf : pf_m3_sparse pf = false) (Hone : pf_cluster pf = None) (Hgate : gate_total (pf_exp pf) (pf_tanh pf) (pf_act pf)).
Context (Hkimi : arch c = KimiK3).
Local Set Default Proof Using "All".

Abbreviation Err := (FwdError E X).
Abbreviation d := (Z.to_nat (hidden c)).
Abbreviation bs := (len_of (attn_res_block_size c)).
Abbreviation pass := (PassOn (Err := Err) (flat d) (flat d)).

(** ** The sublayers *)

Definition kda_pass (l : Layer) (li : nat) : pass := fun kv x s pos => unwrap (kda_mixer (pf_exp pf) (pf_pow pf) c l kv li x s (s * d)).
Definition kda_hist (l : Layer) : rows -> KdaState * rows := kda_run (pf_exp pf) (pf_pow pf) c l (kda_init c).
Definition kda_row (l : Layer) (h : rows) : list f32 := default [] (last (kda_hist l h).2).
Definition kda_holds (l : Layer) (li : nat) (kv : KvCache) (h : rows) : Prop := kda_carries c li kv (kda_hist l h).1.

Lemma kda_run_take l xs : forall st n, (kda_run (pf_exp pf) (pf_pow pf) c l st (take n xs)).2 = take n (kda_run (pf_exp pf) (pf_pow pf) c l st xs).2.
Proof using.
  induction xs as [|x xs IH]; intros st [|n]; [done|done|by destruct (kda_run _ _ _ _ _ (x :: xs))|]. cbn [take kda_run].
  destruct (kda_step _ _ _ _ st x) as [st1 o]. specialize (IH st1 n).
  destruct (kda_run _ _ _ _ st1 (take n xs)), (kda_run _ _ _ _ st1 xs). cbn in *. by rewrite IH.
Qed.

Lemma kda_run_width l xs : wf_kda c l d -> forall st, length (kda_run (pf_exp pf) (pf_pow pf) c l st xs).2 = length xs /\
  wide d (kda_run (pf_exp pf) (pf_pow pf) c l st xs).2.
Proof using.
  intros W. induction xs as [|x xs IH]; intros st; [split; [done|constructor]|]. cbn [kda_run].
  unfold kda_step. cbv zeta. destruct (tok_inputs _ _ _ _ _ _ _ _) as [[[[q k] v] g] b]. destruct (default _ _) as [data o].
  match goal with |- context [kda_run _ _ _ _ ?s xs] => specialize (IH s) as [H1 H2]; destruct (kda_run _ _ _ _ s xs) end. cbn in *.
  split; [by rewrite H1|]. constructor; [|done]. unfold kda_finish. apply (matvec_length (l_o l) (kd_c (kda_dims c))), W.
Qed.

Lemma causal_kda l li : wf_kda c l d -> causal_on False (flat d) (flat d) (eq li) (kda_pass l li) (kda_row l) (kda_holds l li).
Proof.
  intros W. apply flat_causal_on; [| | |done|done].
  - intros kv xs ys Hok Hx Hy Hn Hl. destruct (kda_mixer_spec (pf_exp pf) (pf_pow pf) c l d W li kv _ ys Hok Hy) as (kv' & E1 & K & F & L1 & L2).
    exists kv'. unfold kda_pass. rewrite E1. cbn [unwrap].
    pose proof (kda_run_app (pf_exp pf) (pf_pow pf) c l xs ys (kda_init c)) as Happ. unfold kda_holds, kda_hist in *. rewrite Happ.
    destruct (kda_run _ _ _ _ (kda_init c) xs) as [st1 o1] eqn:R1. cbn [fst] in *. destruct (kda_run _ _ _ _ st1 ys) as [st2 o2] eqn:R2.
    cbn [fst snd] in *. split_and!; [|done|by apply touches_kda].
    do 3 f_equal. apply list_eq. intros i. change (map ?f (seq 0 ?n)) with (f <$> seq 0 n). rewrite list_lookup_fmap.
    destruct (o2 !! i) as [o|] eqn:Ho.
    + pose proof (lookup_lt_Some _ _ _ Ho). rewrite lookup_seq_lt by lia. cbn. f_equal. unfold kda_row, kda_hist.
      rewrite kda_run_app, R1. pose proof (kda_run_take l ys st1 (S i)) as Ht. rewrite R2 in Ht. cbn in Ht.
      destruct (kda_run _ _ _ _ st1 (take (S i) ys)) as [st3 o3]. cbn [fst snd] in *. subst o3. by rewrite (last_take o2 i o Ho).
    + apply lookup_ge_None in Ho. by rewrite lookup_seq_ge by lia.
  - intros hist Hn Hw. unfold kda_row, kda_hist. destruct (kda_run_width l hist W (kda_init c)) as [H1 H2].
    apply (good_last (fun x => length x = d)); [|exact H2]. intros H0. rewrite H0 in H1. by destruct hist.
  - intros Q kv kv' hist T HQ (H1 & H2 & H3). assert (~ Q li) as Hq by (intros Hq; by apply (HQ li Hq)).
    destruct (tc_kda _ _ _ T li Hq) as [K1 K2]. unfold kda_holds, kda_carries. by rewrite K1, K2.
Qed.

Definition kmix_pass (l : Layer) (li : nat) : pass := fun kv x s pos => kimi_mix pf c l li kv x s pos.
Definition kmix_row (l : Layer) (li : nat) : rows -> list f32 := match layer_kind c !! li with Some Kda => kda_row l | _ => mla_row pf c l li end.
Definition kmix_holds (l : Layer) (li : nat) : KvCache -> rows -> Prop := match layer_kind c !! li with Some Kda => kda_holds l li | _ => mla_holds pf c l li end.
Definition kmix_fits (l : Layer) (li : nat) : Prop :=
  match layer_kind c !! li with Some Kda => wf_kda c l d | Some _ => l_ix_wk l = None /\ wf_mla (mla_of c) l d | None => False end.

Lemma causal_kmix l li : kmix_fits l li -> causal_on False (flat d) (flat d) (eq li) (kmix_pass l li) (kmix_row l li) (kmix_holds l li).
Proof.
  unfold kmix_fits, kmix_row, kmix_holds, kmix_pass, kimi_mix. intros W. destruct (layer_kind c !! li) as [k|]; [|done]. cbn [unwrap].
  destruct k; [..|by apply causal_kda]; destruct W as [Hi Wm]; (eapply causal_weaken; [| | |exact (causal_mla pf c Hpf Hone Hgate l li (or_intror Hi) Wm)]; done).
Qed.

Definition kffn_pass (l : Layer) (li : nat) : pass := fun kv x s pos => let? out := kimi_ffn pf c l li x s in ROk (kv, out).
Definition kffn_one (l : Layer) (li : nat) (x : list f32) : list f32 :=
  if l_sparse l then kimi_row (pf_exp pf) (pf_tanh pf) (pf_act pf) c l li (Z.to_nat (moe_latent c)) x
  else default [] (ffn (pf_exp pf) (pf_tanh pf) (pf_act pf) (l_gate_proj l) (l_up_proj l) (l_down_proj l) x 1 d).
Definition kffn_fits (l : Layer) (li : nat) : Prop :=
  if l_sparse l then ready_kimi (pf_exp pf) (pf_tanh pf) (pf_act pf) c l li (Z.to_nat (moe_latent c)) /\ active_experts c <= 2
  else wf_ffn (pf_act pf) (l_gate_proj l) (l_up_proj l) (l_down_proj l) d.

Lemma kffn_rows l li ys : kffn_fits l li -> wide d ys ->
  (forall kv pos, kffn_pass l li kv (concat ys) (length ys) pos = ROk (kv, concat (map (kffn_one l li) ys))) /\ wide d (map (kffn_one l li) ys).
Proof.
  intros W Hy. unfold kffn_fits, kffn_pass, kimi_ffn, kffn_one in *. destruct (l_sparse l).
  - destruct W as [R Hk]. rewrite Hone. destruct (kimi_tokens (pf_exp pf) (pf_tanh pf) (pf_act pf) (X := X) c l li ys R Hk Hy) as [-> Hl].
    split; [done|by apply Forall_map].
  - destruct (ffn_tokens (pf_exp pf) (pf_tanh pf) (pf_act pf) c _ _ _ ys Hgate W Hy) as [E1 Hl].
    split; [intros; unfold dense_mlp; by rewrite E1|by apply Forall_map].
Qed.

Lemma causal_kffn l li : kffn_fits l li -> causal d (fun _ => False) (kffn_pass l li) (last_row (kffn_one l li)) (fun _ _ => True).
Proof.
  intros W. apply flat_pointwise.
  - intros kv ys pos Hy. by apply kffn_rows.
  - intros x Hx. destruct (kffn_rows l li [x] W) as [_ Hl]; [by constructor|]. by apply Forall_cons in Hl as [Hl _].
Qed.

(** ** The layers *)

(** A block's attention residual, between two layers. *)
Definition shares (nb : nat) : Rep :=
  {| rp_tok := Share; rp_buf := AttnResState; rp_enc := shared nb true bs; rp_good := share_ok d nb; rp_any := share_of [] |}.
Definition snaps (li : nat) : bool := li mod bs =? 0.

(** A sublayer's input: the mix of a token's candidates, normed. *)
Definition mixed (norm proj : list f32) (t : Share) : list f32 := attn_res_row (pf_exp pf) (f32_zip f32_mul norm proj) (eps c) d (cands_of t).
Definition mix_in (norm proj w : list f32) (st : AttnResState) (s : nat) : option (list f32) :=
  let* h := apply_attn_res (pf_exp pf) (ar_prefix st) (ar_blocks st) norm proj (eps c) s d in norm_rows d s w (eps c) h.

Lemma mix_in_shares nb norm proj w ts : length norm = d -> length proj = d -> d <= length w -> Forall (share_ok d nb) ts ->
  mix_in norm proj w (shared nb true bs ts) (length ts) = Some (concat (map (fun t => normed (eps c) w (mixed norm proj t)) ts)) /\
  wide d (map (fun t => normed (eps c) w (mixed norm proj t)) ts).
Proof.
  intros Hn Hp Hw Hts. unfold mix_in. rewrite (apply_shares d) by done. cbv beta iota. fold (mixed norm proj).
  assert (wide d (map (mixed norm proj) ts)) as Hm.
  { apply Forall_map. eapply Forall_impl; [exact Hts|]. intros t Ht. by apply (attn_res_row_length d _ _ _ nb). }
  destruct (normed_rows d (eps c) w _ Hw Hm) as [E1 W1]. rewrite length_map in E1. by rewrite E1, map_map in *.
Qed.

(** The attention half: the snapshot, if it is due, is of what entered. *)
Definition kattn_pass (l : Layer) (li nb : nat) : PassOn (Err := Err) (shares nb) (shares (if snaps li then S nb else nb)) :=
  around (R := shares nb) (R1 := flat d) (R2 := flat d) (R3 := shares (if snaps li then S nb else nb)) (mix_in (l_attn_res_norm l) (l_attn_res_proj l) (l_in_ln l))
    (kmix_pass l li) (fun st tmp => accumulate (maybe_snapshot st li) tmp).
Definition kattn_in (l : Layer) (t : Share) : list f32 := normed (eps c) (l_in_ln l) (mixed (l_attn_res_norm l) (l_attn_res_proj l) t).
Definition kattn_out (l : Layer) (li : nat) (h : list Share) : Share :=
  take_in (snaps li) (default (share_of []) (last h)) (kmix_row l li (map (kattn_in l) h)).

Definition kffn_half (l : Layer) (li nb : nat) : PassOn (Err := Err) (shares nb) (shares nb) :=
  around (R := shares nb) (R1 := flat d) (R2 := flat d) (R3 := shares nb) (mix_in (l_mlp_res_norm l) (l_mlp_res_proj l) (l_post_ln l)) (kffn_pass l li) accumulate.
Definition kffn_in (l : Layer) (t : Share) : list f32 := normed (eps c) (l_post_ln l) (mixed (l_mlp_res_norm l) (l_mlp_res_proj l) t).
Definition kffn_out (l : Layer) (li : nat) (h : list Share) : Share :=
  take_in false (default (share_of []) (last h)) (last_row (kffn_one l li) (map (kffn_in l) h)).

Record wf_klayer (l : Layer) (li : nat) : Prop := {
  kl_attn_res : length (l_attn_res_norm l) = d /\ length (l_attn_res_proj l) = d;
  kl_mlp_res : length (l_mlp_res_norm l) = d /\ length (l_mlp_res_proj l) = d;
  kl_in : d <= length (l_in_ln l);
  kl_post : d <= length (l_post_ln l);
  kl_mix : kmix_fits l li;
  kl_ffn : kffn_fits l li
}.

Lemma causal_kattn l li nb : wf_klayer l li ->
  causal_on False (shares nb) (shares (if snaps li then S nb else nb)) (eq li) (kattn_pass l li nb) (kattn_out l li)
    (fun kv h => kmix_holds l li kv (map (kattn_in l) h)).
Proof.
  intros W. destruct (kl_attn_res _ _ W) as [Hn Hp]. pose proof (kl_in _ _ W) as Hw.
  apply (causal_around False (shares nb) (flat d) (flat d)); [by apply causal_kmix, W|..].
  - intros ys Hy. by apply (mix_in_shares nb).
  - intros t Ht. destruct (mix_in_shares nb _ _ _ [t] Hn Hp Hw) as [_ H]; [by constructor|]. by apply Forall_cons in H as [H _].
  - intros ys ts Hy Ht Hl Hne. by apply (accumulate_shares d).
  - intros t o Ht Ho. by apply take_in_ok.
Qed.

Lemma causal_kffn_half l li nb : wf_klayer l li ->
  causal_on False (shares nb) (shares nb) (fun _ => False) (kffn_half l li nb) (kffn_out l li) (fun _ _ => True).
Proof.
  intros W. destruct (kl_mlp_res _ _ W) as [Hn Hp]. pose proof (kl_post _ _ W) as Hw.
  apply (causal_around False (shares nb) (flat d) (flat d) (shares nb) _ _ _ _ (last_row (kffn_one l li)) (fun _ _ => True)).
  - eapply causal_weaken; [| | |by apply causal_kffn, W]; done.
  - intros ys Hy. by apply (mix_in_shares nb).
  - intros t Ht. destruct (mix_in_shares nb _ _ _ [t] Hn Hp Hw) as [_ H]; [by constructor|]. by apply Forall_cons in H as [H _].
  - intros ys ts Hy Ht Hl Hne. by apply (add_shares d).
  - intros t o Ht Ho. by apply (take_in_ok d nb false).
Qed.

Definition klayer_pass (l : Layer) (li nb : nat) : PassOn (Err := Err) (shares nb) (shares (if snaps li then S nb else nb)) :=
  pass_then (R1 := shares nb) (R2 := shares (if snaps li then S nb else nb)) (kattn_pass l li nb) (kffn_half l li (if snaps li then S nb else nb)).
Definition klayer_out (l : Layer) (li : nat) (h : list Share) : Share := kffn_out l li (stream (kattn_out l li) h).
Definition klayer_holds (l : Layer) (li : nat) (kv : KvCache) (h : list Share) : Prop := kmix_holds l li kv (map (kattn_in l) h).

Lemma causal_klayer l li nb : wf_klayer l li ->
  causal_on False (shares nb) (shares (if snaps li then S nb else nb)) (eq li) (klayer_pass l li nb) (klayer_out l li) (klayer_holds l li).
Proof.
  intros W. eapply causal_weaken; [| | |exact (causal_after _ _ _ _ _ _ _ _ _ _ _ _ (causal_kattn l li nb W) (causal_kffn_half l li _ W) (fun _ _ F => F))];
    cbn; [done|intros; tauto|intros; tauto].
Qed.

(** A layer of the code is that pass, whatever the block. *)
Lemma kimi_layer_pass l li nb kv st s pos : klayer_pass l li nb kv st s pos = kimi_layer pf c l li s pos kv st.
Proof.
  unfold klayer_pass, pass_then, kattn_pass, kffn_half, around, mix_in, kimi_layer, kmix_pass, kffn_pass. cbv zeta.
  destruct (apply_attn_res _ _ _ _ _ _ _ _) as [h|]; [|done]. cbn [unwrap]. cbv beta iota. destruct (norm_rows _ _ _ _ h) as [nrm|]; [|done]. cbn [unwrap]. cbv beta iota.
  destruct (kimi_mix _ _ _ _ _ _ _ _) as [[kv' tmp]| |]; [|done|done]. destruct (accumulate _ tmp) as [st1|]; [|done]. cbn [unwrap]. cbv beta iota.
  destruct (apply_attn_res _ _ _ _ _ _ _ _) as [h1|]; [|done]. cbn [unwrap]. cbv beta iota. destruct (norm_rows _ _ _ _ h1) as [nrm1|]; [|done]. cbn [unwrap]. cbv beta iota.
  destruct (kimi_ffn _ _ _ _ _ _) as [tmp1| |]; [|done|done]. by destruct (accumulate st1 tmp1).
Qed.

(** ** The stack *)

Fixpoint kstack_pass (ls : list Layer) (k : nat) (kv : KvCache) (st : AttnResState) (s pos : nat) : res Err (KvCache * AttnResState) :=
  match ls with
  | [] => ROk (kv, st)
  | l :: ls => let? (kv, st) := kimi_layer pf c l k s pos kv st in kstack_pass ls (S k) kv st s pos
  end.
Fixpoint kstack_out (ls : list Layer) (k : nat) (h : list Share) : Share :=
  match ls with
  | [] => default (share_of []) (last h)
  | l :: ls => kstack_out ls (S k) (stream (klayer_out l k) h)
  end.
Fixpoint kstack_holds (ls : list Layer) (k : nat) (kv : KvCache) (h : list Share) : Prop :=
  match ls with
  | [] => True
  | l :: ls => klayer_holds l k kv h /\ kstack_holds ls (S k) kv (stream (klayer_out l k) h)
  end.
Definition wf_kstack (ls : list Layer) (k : nat) : Prop := forall i l, ls !! i = Some l -> wf_klayer l (k + i).

Lemma causal_kstack ls : forall k nb, wf_kstack ls k ->
  exists nb', causal_on (Err := Err) False (shares nb) (shares nb') (fun j => k <= j < k + length ls) (kstack_pass ls k) (kstack_out ls k) (kstack_holds ls k).
Proof.
  induction ls as [|l ls IH]; intros k nb W.
  - exists nb. eapply causal_weaken; [| | |apply (pointwise False (shares nb) (shares nb) (fun _ => False) _ id)]; [done|done|done| |done].
    intros kv ys pos _. cbn [kstack_pass]. by rewrite map_id.
  - assert (wf_klayer l k) as Wl by (rewrite <- (Nat.add_0_r k); by apply W).
    assert (wf_kstack ls (S k)) as Ws by (intros i l' Hi; specialize (W (S i) l' Hi); by rewrite Nat.add_succ_r in W).
    destruct (IH (S k) (if snaps k then S nb else nb) Ws) as [nb' Cs]. exists nb'. pose proof (causal_klayer l k nb Wl) as Cl.
    eapply (causal_ext _ _ _ _ (pass_then (R1 := shares nb) (R2 := shares (if snaps k then S nb else nb)) (R3 := shares nb') (klayer_pass l k nb) (kstack_pass ls (S k)))).
    { intros kv x s pos. unfold pass_then. by rewrite kimi_layer_pass. }
    eapply causal_weaken; [| | |apply (causal_after _ _ _ _ _ _ _ _ _ _ _ _ Cl Cs)]; [done|cbn; lia|done|]. intros j <-. lia.
Qed.

Lemma kimi_layers_stack ls s pos : forall k kv st,
  for_each (fun '(kv, st) '(li, l) => kimi_layer pf c l li s pos kv st) (imap (fun i l => (k + i, l)) ls) (kv, st) = kstack_pass ls k kv st s pos.
Proof.
  induction ls as [|l ls IH]; intros k kv st; [done|]. rewrite imap_cons. cbn [for_each kstack_pass]. rewrite Nat.add_0_r.
  destruct (kimi_layer _ _ _ _ _ _ _ _) as [[kv' st']| |]; [|done|done]. cbv beta iota. rewrite <- IH. f_equal.
  apply imap_ext. intros i y _. cbn. f_equal. lia.
Qed.

(** ** The whole of it *)

Section Whole.
Context (ls : list Layer) (norm proj : list f32).

(** From embedded tokens to hidden rows. *)
Definition kimi_pass : pass := fun kv x s pos =>
  let? st := unwrap (attn_res_new x bs) in
  let? (kv, st) := kstack_pass ls 0 kv st s pos in
  let? h := unwrap (apply_attn_res (pf_exp pf) (ar_prefix st) (ar_blocks st) norm proj (eps c) s d) in ROk (kv, h).
Definition kimi_start (h : rows) : list Share := stream (fun h => share_of (default [] (last h))) h.
Definition kimi_hidden (h : rows) : list f32 :=
  mixed norm proj (default (share_of []) (last (stream (fun h => kstack_out ls 0 (kimi_start h)) h))).
Definition kimi_holds (kv : KvCache) (h : rows) : Prop := kstack_holds ls 0 kv (kimi_start h).

Lemma causal_kimi : 0 < bs -> length norm = d -> length proj = d -> wf_kstack ls 0 ->
  causal_on False (flat d) (flat d) (fun j => j < length ls) kimi_pass kimi_hidden kimi_holds.
Proof.
  intros Hbs Hn Hp W. destruct (causal_kstack ls 0 0 W) as [nb Cs].
  assert (causal_on (Err := Err) False (flat d) (shares 0) (fun _ => False) (fun kv x s pos => let? st := unwrap (attn_res_new x bs) in ROk (kv, st))
    (fun h => share_of (default [] (last h))) (fun _ _ => True)) as C0.
  { apply (pointwise False (flat d) (shares 0)).
    - intros kv ys pos Hy. unfold attn_res_new. destruct (Nat.ltb_spec 0 bs); [|lia]. cbn. unfold shared. rewrite map_map. cbn. by rewrite map_id.
    - intros x Hx. by split; [|done|constructor]. }
  assert (causal_on (Err := Err) False (shares nb) (flat d) (fun _ => False)
    (fun kv st s pos => let? h := unwrap (apply_attn_res (pf_exp pf) (ar_prefix st) (ar_blocks st) norm proj (eps c) s d) in ROk (kv, h))
    (fun h => mixed norm proj (default (share_of []) (last h))) (fun _ _ => True)) as C1.
  { apply (pointwise False (shares nb) (flat d)).
    - intros kv ys pos Hy. cbn [rp_enc shares]. by rewrite (apply_shares d) by done.
    - intros x Hx. by apply (attn_res_row_length d _ _ _ nb). }
  pose proof (causal_after _ _ _ _ _ _ _ _ _ _ _ _ C0 Cs (fun _ F _ => F)) as C01.
  pose proof (causal_after _ _ _ _ _ _ _ _ _ _ _ _ C01 C1 (fun _ _ F => F)) as C.
  eapply (causal_ext _ (flat d) (flat d) _ _ kimi_pass) in C.
  2: { intros kv x s pos. unfold kimi_pass, pass_then. destruct (attn_res_new x bs); [|done]. cbn [unwrap]. cbv beta iota. by destruct (kstack_pass _ _ _ _ _ _) as [[??]| |]. }
  eapply causal_weaken; [| | |exact C]; [done|cbn; intros j; lia|cbn; intros; unfold kimi_holds, kimi_start; tauto].
Qed.
End Whole.
End KimiStack.
