(* ===== verification/Inference.v ===== *)
(** * A model as an engine

    The forward pass, the draft head and the logits of [Forward.v], for a model
    whose weights fit, of any family but DeepSeek-V4's, keep the laws the decoding loop of [Generate.v] relies
    on; the cache [for_model] makes stands for the empty history.  So a prompt
    may be cut into forward calls at will, and decoding with the model's own
    head is greedy decoding by its own logits. *)

From Stdlib Require Import ZifyBool ZifyNat SpecFloat.
From S2P Require Import Prelude Rows DType Math Linear Safetensors Sharding Config Model Moe MoeBatch KvCache Generate Gqa Indexer Mla Mamba Kda AttnRes Dsv4Num Tiny MlaCluster Platform Dsv4Layer Forward Stack KimiStack.
Local Open Scope nat_scope.

(** ** The model *)

Lemma shaped_touches P g li kv kv' : touches P kv kv' -> shaped g li kv -> shaped g li kv'.
Proof.
  intros T (Hd & kb & vb & Hk & Hv & Lk & Lv). destruct (tc_rows _ _ _ T) as [Rk Rv].
  destruct (Forall2_lookup_l _ _ _ _ _ Rk Hk) as (kb' & Hk' & Sk). destruct (Forall2_lookup_l _ _ _ _ _ Rv Hv) as (vb' & Hv' & Sv).
  unfold same_length in Sk, Sv. split; [by rewrite (tc_dim _ _ _ T)|]. exists kb', vb'. rewrite (tc_max _ _ _ T), <- Sk, <- Sv. done.
Qed.

Lemma lat_shaped_touches P g li kv kv' : touches P kv kv' -> lat_shaped g li kv -> lat_shaped g li kv'.
Proof.
  intros T (Hr & Hl & Hk & lb & kb & E1 & E2 & L1 & L2). destruct (tc_lat_rows _ _ _ T) as [R1 R2]. destruct (tc_lat_dims _ _ _ T) as (D1 & D2 & D3).
  destruct (Forall2_lookup_l _ _ _ _ _ R1 E1) as (lb' & F1 & S1). destruct (Forall2_lookup_l _ _ _ _ _ R2 E2) as (kb' & F2 & S2).
  unfold same_length in S1, S2. split_and!; [congruence..|]. exists lb', kb'. by rewrite (tc_max _ _ _ T), <- S1, <- S2.
Qed.

Lemma based_touches pf c P li kv kv' : touches P kv kv' -> based pf c li kv -> based pf c li kv'.
Proof.
  intros T. unfold based. destruct (allocates_gqa_kv c); [by apply (shaped_touches P)|]. intros [H1 H2].
  split; [by eapply lat_shaped_touches|by rewrite (tc_max _ _ _ T)].
Qed.

Lemma start_at_touches kv li pos : li < length (kc_kv_start kv) ->
  exists kv', start_at kv li (Z.of_nat pos) = Some kv' /\ touches (eq li) kv kv' /\
    exists st, kc_kv_start kv' !! li = Some st /\ (st <= Z.of_nat pos)%Z.
Proof.
  intros Hli. unfold start_at. destruct (lookup_lt_is_Some_2 _ _ Hli) as [st Hst]. rewrite Hst.
  eexists. split; [done|]. destruct (Z.ltb_spec (Z.of_nat pos) st) as [H|H].
  - split; [|exists (Z.of_nat pos); cbn; rewrite list_lookup_insert_eq by done; split; [done|lia]].
    split; try done; cbn; [|by destruct (same_mamba_refl kv); split|split; apply same_rows_refl..|by rewrite length_insert].
    intros j Hj. by rewrite list_lookup_insert_ne.
  - split; [apply touches_refl|]. by exists st.
Qed.

Section Whole.
Context {E X : Type} `{!ExpertProvider E} `{!Transport X} `{!AttnTransport X} (pf : Platform) (m : Model).

Abbreviation c := (m_cfg m).
Abbreviation d := (Z.to_nat (hidden (m_cfg m))).
Abbreviation n := (Z.to_nat (n_layers (m_cfg m))).
Abbreviation v := (Z.to_nat (vocab (m_cfg m))).

(** The head that drafts, its blocks after the layers of the stack. *)
Record wf_head (h : MtpHead) : Prop := {
  wh_enorm : d <= length (enorm h);
  wh_hnorm : d <= length (hnorm h);
  wh_norm : d <= length (mtp_norm h);
  wh_proj : wf_qt (eh_proj h) (d + d) d;
  wh_some : mtp_blocks h <> [];
  wh_blocks j b : mtp_blocks h !! j = Some b ->
    wf_layer pf c (kind_of c (mb_kind b) (n + j)) (mb_layer b) (n + j) /\ kind_of c (mb_kind b) (n + j) <> Some Mamba
}.

(** The layers fit: of Kimi's stack with the model's own attention residual, or
    of the others'. *)
Definition wf_layers : Prop :=
  match arch c with
  | KimiK3 => 0 < len_of (attn_res_block_size c) /\ length (m_output_attn_res_norm m) = d /\ length (m_output_attn_res_proj m) = d /\
      wf_kstack pf c (m_layers m) 0
  | _ => wf_stack pf c (m_layers m) 0
  end.

(** A model whose weights fit, on a platform without block-sparse prefill and
    a node that has every expert. *)
Record wf_model : Prop := {
  ml_dense : pf_m3_sparse pf = false;
  ml_alone : pf_cluster pf = None;
  ml_gate : gate_total (pf_exp pf) (pf_tanh pf) (pf_act pf);
  ml_arch : arch c = NemotronH \/ is_gqa (arch c) = true \/ arch c = GlmMoeDsa \/ arch c = KimiK3 /\ m_mtp m = None;
  ml_count : length (m_layers m) <= n;
  ml_layers : wf_layers;
  ml_vocab : (0 < vocab c < 2 ^ 31)%Z;
  ml_embed : cols_of (m_embed m) = d /\ forall t, t < v -> exists r, embed_row (m_embed m) t = Some r /\ length r = d;
  ml_norm : d <= length (m_final_norm m);
  ml_lm_head : wf_qt (m_lm_head m) d v;
  ml_head h : m_mtp m = Some h -> wf_head h
}.
Context (W : wf_model).

Definition token_ok (t : Z) : Prop := (0 <= t < vocab c)%Z.
Definition embedded (t : Z) : list f32 := default [] (embed_token m t).

(** The stack of the model's family, the row it gives a history, and what the
    cache holds after one. *)
Definition whole_pass : PassOn (Err := FwdError E X) (flat d) (flat d) :=
  match arch c with
  | KimiK3 => kimi_pass pf c (m_layers m) (m_output_attn_res_norm m) (m_output_attn_res_proj m)
  | _ => stack_pass pf c (m_layers m) 0
  end.
Definition whole_row (h : rows) : list f32 :=
  match arch c with
  | KimiK3 => kimi_hidden pf c (m_layers m) (m_output_attn_res_norm m) (m_output_attn_res_proj m) h
  | _ => stack_row pf c (m_layers m) 0 h
  end.
Definition whole_holds (kv : KvCache) (h : rows) : Prop :=
  match arch c with KimiK3 => kimi_holds pf c (m_layers m) kv h | _ => stack_holds pf c (m_layers m) 0 kv h end.

(** The hidden row of the last token of a history. *)
Definition model_row (hist : list Z) : list f32 := whole_row (map embedded hist).

(** A cache on which the indexer stays out, with rows for the head. *)
Definition seated (kv : KvCache) : Prop :=
  still pf c (kc_max_t kv) /\
  match m_mtp m with
  | Some h => forall j, j < length (mtp_blocks h) -> based pf c (n + j) kv /\ n + j < length (kc_kv_start kv)
  | None => True
  end.
(** It stands for a history. *)
Record model_holds (kv : KvCache) (hist : list Z) : Prop := {
  mh_stack : whole_holds kv (map embedded hist);
  mh_seats : seated kv;
  mh_pair : length (kc_mamba_ssm kv) = length (kc_mamba_conv kv)
}.
Local Set Default Proof Using "All".

Lemma embedded_rows toks : Forall token_ok toks ->
  mapM (embed_token m) toks = Some (map embedded toks) /\ wide d (map embedded toks).
Proof.
  intros Ht. assert (Forall (fun t => embed_token m t = Some (embedded t) /\ length (embedded t) = d) toks) as H.
  { eapply Forall_impl; [exact Ht|]. intros t Hv. unfold token_ok in Hv. destruct (ml_embed W) as [Hc He].
    destruct (He (Z.to_nat t)) as (r & E1 & Hr); [lia|]. unfold embedded, embed_token. rewrite Hc, Nat.eqb_refl, E1.
    destruct (Z.ltb_spec t 0); [lia|]. done. }
  split.
  - clear Ht. induction H as [|t toks [E1 _] _ IH]; [done|]. rewrite mapM_cons_eq, E1, IH. done.
  - apply Forall_map. eapply Forall_impl; [exact H|]. by intros t [_ Hl].
Qed.

Lemma not_kimi : arch c <> KimiK3 ->
  wf_stack pf c (m_layers m) 0 /\ whole_pass = stack_pass pf c (m_layers m) 0 /\ whole_row = stack_row pf c (m_layers m) 0 /\
  whole_holds = stack_holds pf c (m_layers m) 0.
Proof.
  intros Ha. pose proof (ml_layers W) as Wl. unfold wf_layers in Wl. unfold whole_pass, whole_row, whole_holds. by destruct (arch c).
Qed.

Lemma whole_causal : causal_on (arch c <> KimiK3) (flat d) (flat d) (fun j => j < length (m_layers m)) whole_pass whole_row whole_holds.
Proof.
  destruct (decide (arch c = KimiK3)) as [Ha|Ha].
  - pose proof (ml_layers W) as Wl. unfold wf_layers in Wl. rewrite Ha in Wl. destruct Wl as (Hb & Hn & Hp & Wl).
    unfold whole_pass, whole_row, whole_holds. rewrite Ha. eapply causal_weaken; [| | |exact (causal_kimi pf c (ml_dense W) (ml_alone W) (ml_gate W) Ha (m_layers m) _ _ Hb Hn Hp Wl)]; done.
  - destruct (not_kimi Ha) as (Ws & -> & -> & ->).
    pose proof (causal_stack (E := E) (X := X) pf c (ml_dense W) (ml_alone W) (ml_gate W) (m_layers m) 0 Ws) as Ca.
    eapply causal_weaken; [| | |exact Ca]; [done|cbn; intros j; lia|done].
Qed.

(** A forward pass is a pass of the stack over the embedded tokens. *)
Lemma forward_stack kv toks pos : Forall token_ok toks -> still pf c (pos + length toks) ->
  Forward.forward (E := E) (X := X) pf m kv toks pos = whole_pass kv (concat (map embedded toks)) (length toks) pos.
Proof.
  intros Ht Hst. destruct (embedded_rows toks Ht) as [Em _]. destruct (decide (arch c = KimiK3)) as [Ha|Ha].
  { unfold Forward.forward, whole_pass, Forward.kimi_forward, kimi_pass. rewrite Ha, Em. cbn [unwrap]. cbv beta iota.
    destruct (attn_res_new _ _) as [st|]; [|done]. cbn [unwrap]. cbv beta iota.
    change (imap pair (m_layers m)) with (imap (fun i l => (0 + i, l)) (m_layers m)). by rewrite (kimi_layers_stack pf c (ml_dense W) (ml_alone W) (ml_gate W) Ha). }
  assert (Forward.forward (E := E) (X := X) pf m kv toks pos = layers_forward pf m pos (length toks) kv (concat (map embedded toks))) as ->.
  { unfold Forward.forward. rewrite Em. destruct (arch c) eqn:Ea; destruct (ml_arch W) as [H|[H|[H|[H _]]]]; rewrite Ea in H; try discriminate H; done. }
  destruct (not_kimi Ha) as (Ws & -> & _). unfold layers_forward. pose proof (layers_stack (E := E) (X := X) pf c) as Hls.
  specialize (Hls (ml_dense W) (ml_alone W) (ml_gate W) (m_layers m) (length toks) pos Hst 0 kv (concat (map embedded toks)) Ws).
  change (imap (fun i l => (0 + i, l)) (m_layers m)) with (imap pair (m_layers m)) in Hls. by rewrite Hls.
Qed.

Lemma seated_touches P kv kv' : touches P kv kv' -> seated kv -> seated kv'.
Proof using.
  intros T. unfold seated. rewrite (tc_max _ _ _ T). destruct (m_mtp m) as [h|]; [|done]. intros [Hst H]. split; [done|]. intros j Hj. destruct (H j Hj) as [H1 H2].
  split; [by eapply based_touches|by rewrite (tc_starts _ _ _ T)].
Qed.

(** A forward pass extends the history, and gives each token its row. *)
Lemma forward_spec kv hist toks : model_holds kv hist -> Forall token_ok hist -> Forall token_ok toks -> toks <> [] ->
  length hist + length toks <= kc_max_t kv ->
  exists kv', Forward.forward (E := E) (X := X) pf m kv toks (length hist) =
      ROk (kv', concat (map (fun i => model_row (hist ++ take (S i) toks)) (seq 0 (length toks)))) /\
    model_holds kv' (hist ++ toks) /\ touches (fun j => j < n) kv kv'.
Proof.
  intros [Hst Hse Hp] Hh Ht Hn Hl. destruct (embedded_rows toks Ht) as [_ Wt]. destruct (embedded_rows hist Hh) as [_ Wh].
  destruct (flat_run whole_causal kv (map embedded hist) (map embedded toks) Hst Wh Wt) as (kv' & E1 & K1 & T1).
  { by destruct toks. }
  { by rewrite !length_map. }
  rewrite !length_map in E1. exists kv'. split.
  - rewrite (forward_stack kv toks (length hist) Ht), E1 by (by eapply still_le; [..|exact (proj1 Hse)]). do 3 f_equal.
    apply map_ext. intros i. unfold model_row. rewrite map_app. do 2 f_equal. change (map ?f ?l) with (f <$> l). by rewrite fmap_take.
  - assert (touches (fun j => j < n) kv kv') as T by (eapply touches_weaken; [|exact T1]; cbn; pose proof (ml_count W); lia).
    split; [|exact T]. split; [by rewrite map_app| |].
    + by eapply seated_touches.
    + destruct (tc_same _ _ _ T) as [Sc Ss]. apply Forall2_length in Sc, Ss. lia.
Qed.

(** ** The head *)

Lemma normed_row w x : d <= length w -> length x = d -> exists y, rmsnorm x w (eps c) = Some y /\ length y = d.
Proof using. intros Hw Hx. destruct (rmsnorm_total x w (eps c)) as (y & E1 & Hy); [lia|]. exists y. split; [done|lia]. Qed.

Lemma fuse_total h t x raw : m_mtp m = Some h -> token_ok t -> length x = d ->
  exists y, fuse m h t x raw = Some y /\ length y = d.
Proof.
  intros Hh Ht Hx. pose proof (ml_head W h Hh) as Wh. destruct (embedded_rows [t]) as [Ee He]; [by constructor|].
  cbn in Ee. destruct (embed_token m t) as [e|] eqn:Et; [|done]. apply Forall_cons in He as [He _]. unfold embedded in He. rewrite Et in He. cbn in He.
  unfold fuse. rewrite Et. destruct (normed_row (enorm h) e (wh_enorm _ Wh) He) as (a & -> & Ha).
  assert (exists hf, (if raw then rmsnorm x (m_final_norm m) (eps c) else Some x) = Some hf /\ length hf = d) as (hf & -> & Hf).
  { destruct raw; [by apply normed_row; [apply (ml_norm W)|]|by exists x]. }
  destruct (normed_row (hnorm h) hf (wh_hnorm _ Wh) Hf) as (b & -> & Hb). eexists.
  rewrite (matmul_qt_one (eh_proj h) (d + d) d) by (apply Wh || (rewrite length_app; lia)). split; [done|]. apply (matvec_length _ (d + d)), (wh_proj _ Wh).
Qed.

Lemma head_forward_total h kv ys pos : m_mtp m = Some h -> seated kv -> wide d ys -> ys <> [] -> pos + length ys <= kc_max_t kv ->
  exists kv' zs, head_forward (E := E) (X := X) pf m kv h (concat ys) (length ys) pos = ROk (kv', concat zs) /\
    wide d zs /\ length zs = length ys /\ touches (fun j => n <= j) kv kv'.
Proof.
  intros Hh Hs Hy Hn Hl. pose proof (ml_head W h Hh) as Wh. unfold head_forward.
  assert (forall bs k kv ys, (forall i b, bs !! i = Some b -> mtp_blocks h !! (k + i) = Some b) -> seated kv -> wide d ys -> ys <> [] ->
    pos + length ys <= kc_max_t kv ->
    exists kv' zs, for_each (fun '(kv, hx) '(j, b) =>
        let? kv := unwrap (start_at kv (n + j) (Z.of_nat pos)) in
        let? (kvx, _) := layer_forward_kind (E := E) (X := X) pf c kv (mb_layer b) (n + j) (mb_kind b) hx (length ys) pos None in
        ROk kvx) (imap (fun i b => (k + i, b)) bs) (kv, concat ys) = ROk (kv', concat zs) /\
      wide d zs /\ length zs = length ys /\ touches (fun j => n <= j) kv kv') as H.
  { clear kv ys Hs Hy Hn Hl. intros bs. induction bs as [|b bs IH]; intros k kv ys Hb Hs Hy Hn Hl.
    { exists kv, ys. split_and!; [done|done|done|apply touches_refl]. }
    rewrite imap_cons. cbn [for_each]. rewrite Nat.add_0_r. specialize (Hb 0 b eq_refl) as Hb0. rewrite Nat.add_0_r in Hb0.
    destruct (wh_blocks _ Wh k b Hb0) as [Wb Hk]. pose proof Hs as [Hstill Hs0]. rewrite Hh in Hs0.
    destruct (Hs0 k (lookup_lt_Some _ _ _ Hb0)) as [Hsh Hst].
    destruct (start_at_touches kv (n + k) pos Hst) as (kv1 & -> & T1 & St). cbn [unwrap]. cbv beta iota.
    rewrite (layer_forward_pass pf c (ml_dense W) (ml_alone W) (ml_gate W)) by (done || by eapply still_le; [..|exact Hstill]).
    destruct (safe_layer (E := E) (X := X) pf c (ml_dense W) (ml_alone W) (ml_gate W) _ _ _ Wb Hk kv1 ys pos) as (kv2 & zs & E2 & Wz & Lz & T2); [|done|done| |].
    { split; [by eapply based_touches|done]. }
    { by rewrite (tc_max _ _ _ T1). }
    rewrite E2. cbv beta iota.
    assert (imap ((fun i b => (k + i, b)) ∘ S) bs = imap (fun i b => (S k + i, b)) bs) as ->.
    { apply imap_ext. intros i y _. cbn. f_equal. lia. }
    assert (touches (fun j => n <= j) kv kv2) as T by (eapply touches_trans; (eapply touches_weaken; [|eassumption]); intros j <-; lia).
    destruct (IH (S k) kv2 zs) as (kv3 & us & E3 & Wu & Lu & T3).
    { intros i b' Hi. specialize (Hb (S i) b' Hi). by rewrite Nat.add_succ_r in Hb. }
    { by eapply seated_touches. }
    { done. }
    { by destruct zs, ys. }
    { by rewrite (tc_max _ _ _ T), Lz. }
    rewrite Lz in E3. rewrite E3. exists kv3, us. split_and!; [done|done|lia|by eapply touches_trans]. }
  apply (H (mtp_blocks h) 0 kv ys); done.
Qed.

Lemma best_token lo : length lo = v -> token_ok (i32 (Z.of_nat (argmax lo))).
Proof.
  intros Hl. pose proof (ml_vocab W) as Hv. assert (argmax lo < v) by (rewrite <- Hl; apply argmax_lt; intros ->; simpl in Hl; lia).
  unfold token_ok. rewrite wrap_i_id by (unfold in_i; lia). lia.
Qed.

Lemma draft_loop_total h k : m_mtp m = Some h -> forall g p kv tok x, seated kv -> token_ok tok -> length x = d ->
  exists kv' ds, draft_loop (E := E) (X := X) pf m h k g p kv tok x = ROk (kv', ds) /\
    Forall token_ok ds /\ length ds <= k /\ touches (fun j => n <= j) kv kv'.
Proof.
  intros Hh. pose proof (ml_head W h Hh) as Wh. induction k as [|k IH]; intros g p kv tok x Hs Ht Hx; cbn [draft_loop].
  { exists kv, []. split_and!; [done|constructor|done|apply touches_refl]. }
  destruct (Nat.leb_spec (kc_max_t kv) (p + g + 2)) as [|Hroom].
  { exists kv, []. split_and!; [done|constructor|cbn; lia|apply touches_refl]. }
  destruct (fuse_total h tok x (g =? 0) Hh Ht Hx) as (y & -> & Hy). cbn [unwrap]. cbv beta iota.
  destruct (head_forward_total h kv [y] (p + g) Hh Hs) as (kv1 & zs & E1 & Wz & Lz & T1); [by constructor|done|simpl; lia|].
  cbn [concat length] in E1. rewrite app_nil_r in E1. rewrite E1. destruct zs as [|z [|]]; try done. apply Forall_cons in Wz as [Hz _].
  cbn [concat]. rewrite app_nil_r. destruct (normed_row (mtp_norm h) z (wh_norm _ Wh) Hz) as (r & -> & Hr). cbv beta iota.
  rewrite (matmul_qt_one (m_lm_head m) d v) by (apply W || done). cbn [unwrap]. cbv beta iota.
  pose proof (best_token (matvec (m_lm_head m) r) ltac:(apply (matvec_length _ d), (ml_lm_head W))) as Hb.
  destruct (IH (g + 1) p kv1 _ z (seated_touches _ _ _ T1 Hs) Hb Hz) as (kv2 & ds & -> & Hds & Lds & T2).
  eexists _, _. split_and!; [done|by constructor|cbn; lia|by eapply touches_trans].
Qed.

Lemma holds_touches kv kv' hist : touches (fun j => n <= j) kv kv' -> model_holds kv hist -> model_holds kv' hist.
Proof.
  intros T [H1 H2 H3]. split.
  - eapply (ca_frame whole_causal); [exact T| |exact H1]. cbn. pose proof (ml_count W). lia.
  - by eapply seated_touches.
  - destruct (tc_same _ _ _ T) as [Sc Ss]. apply Forall2_length in Sc, Ss. lia.
Qed.

Lemma touches_shape P kv kv' : touches P kv kv' -> same_shape kv kv'.
Proof using. intros T. split; [by rewrite (tc_max _ _ _ T)|unfold has_mamba; by rewrite (tc_conv_dim _ _ _ T)]. Qed.

Lemma draft_spec kv hist next budget : model_holds kv hist -> hist <> [] -> Forall token_ok hist -> token_ok next ->
  length (model_row hist) = d ->
  exists kv' ds, Forward.draft (E := E) (X := X) pf m kv next (length hist) budget (model_row hist) = ROk (kv', ds) /\
    model_holds kv' hist /\ same_shape kv kv' /\ Forall token_ok ds /\ length ds <= budget.
Proof.
  intros Hk Hn Hh Hv Hrow. unfold Forward.draft.
  assert (exists kv' ds : _, ROk (kv, []) = ROk (E := FwdError E X) (kv', ds) /\ model_holds kv' hist /\ same_shape kv kv' /\
    Forall token_ok ds /\ length ds <= budget) as Hnone by (exists kv, []; split_and!; [done|done|done|constructor|simpl; lia]).
  destruct (m_mtp m) as [h|] eqn:Eh; [|done]. destruct (_ || _); [done|].
  pose proof (mh_seats _ _ Hk) as Hs. pose proof Hs as [_ Hs0]. rewrite Eh in Hs0.
  pose proof (ml_head W h Eh) as Wh. assert (0 < length (mtp_blocks h)) as Hb by (pose proof (wh_some _ Wh); destruct (mtp_blocks h); simpl; [done|lia]).
  destruct (Hs0 0 Hb) as [_ Hst]. rewrite Nat.add_0_r in Hst.
  destruct (start_at_touches kv n (length hist - 1) Hst) as (kv1 & -> & T1 & _). cbn [unwrap]. cbv beta iota.
  rewrite range_some by lia. cbn [unwrap]. cbv beta iota.
  destruct (draft_loop_total h budget Eh 0 (length hist - 1) kv1 next (take (d - 0) (drop 0 (model_row hist)))) as (kv2 & ds & -> & Hds & Lds & T2).
  { by eapply seated_touches. }
  { done. }
  { rewrite length_take, length_drop. lia. }
  exists kv2, ds. assert (touches (fun j => n <= j) kv kv2) as T.
  { eapply touches_trans; [|exact T2]. eapply touches_weaken; [|exact T1]. intros j <-. lia. }
  split_and!; [done|by eapply holds_touches|by eapply touches_shape|done|done].
Qed.

Lemma absorb_spec kv hist ds h pos : model_holds kv hist -> Forall token_ok ds -> ds <> [] ->
  pos + length ds <= length hist -> length hist <= kc_max_t kv -> length ds * d <= length h ->
  exists kv', Forward.absorb (E := E) (X := X) pf m kv ds h pos = ROk kv' /\ model_holds kv' hist /\ same_shape kv kv'.
Proof.
  intros Hk Hds Hn Hpos Hmax Hl. unfold Forward.absorb. destruct (m_mtp m) as [hd|] eqn:Eh; [|by exists kv].
  destruct (Nat.eqb_spec (length ds) 0) as [H0|_]; [by destruct ds|].
  destruct (mapM_all (fun '(i, t) => let* x := row_at d h i in fuse m hd t x true) (fun y => length y = d) (imap pair ds)) as (ys & Ey & Wy & Ly).
  { intros [i t] Hi. apply elem_of_lookup_imap in Hi as (i' & t' & [= -> ->] & Hi). pose proof (lookup_lt_Some _ _ _ Hi).
    pose proof (Nat.mul_le_mono_r (i' + 1) (length ds) d ltac:(lia)). unfold row_at. rewrite range_some by lia.
    apply fuse_total; [done| |rewrite length_take, length_drop; lia]. rewrite Forall_lookup in Hds. by eapply Hds. }
  rewrite Ey. cbn [unwrap]. cbv beta iota. rewrite length_imap in Ly.
  destruct (head_forward_total hd kv ys pos Eh (mh_seats _ _ Hk) Wy) as (kv1 & zs & E1 & _ & _ & T); [by destruct ys, ds|lia|].
  rewrite Ly in E1. rewrite E1. exists kv1. split_and!; [done|by eapply holds_touches|by eapply touches_shape].
Qed.

Lemma model_row_length hist : hist <> [] -> Forall token_ok hist -> length (model_row hist) = d.
Proof.
  intros Hn Hh. destruct (embedded_rows hist Hh) as [_ Wh]. apply (ca_good whole_causal); [by destruct hist|done].
Qed.

Lemma logits_spec hist : hist <> [] -> Forall token_ok hist ->
  exists lo, Forward.logits m (model_row hist) = Some lo /\ token_ok (token_of lo).
Proof.
  intros Hn Hh. unfold Forward.logits, logits_into. rewrite Nat.eqb_refl. cbn [negb].
  destruct (normed_row (m_final_norm m) (model_row hist) (ml_norm W) (model_row_length hist Hn Hh)) as (r & -> & Hr).
  rewrite Hr, Nat.eqb_refl. cbn [negb]. rewrite (matmul_qt_one (m_lm_head m) d v) by (apply W || done). eexists. split; [done|].
  apply best_token. apply (matvec_length _ d), (ml_lm_head W).
Qed.

(** ** The engine *)

(** The model as the engine that the decoding loop runs, and its laws. *)
#[export] Instance engine : Engine (FwdError E X) := {
  forward := Forward.forward pf m;
  logits := Forward.logits m;
  draft := Forward.draft pf m;
  absorb := Forward.absorb pf m
}.

Lemma model_rolled kv kv' hist toks : arch c <> KimiK3 -> Forall token_ok hist -> model_holds kv hist -> model_holds kv' (hist ++ toks) ->
  touches (fun j => j < n) kv kv' -> forall snap, paired snap ->
  exists kv'', restore_mamba_from kv' (snapshot_mamba_into kv snap) = Some kv'' /\ model_holds kv'' hist /\ same_shape kv kv''.
Proof.
  intros Ha Hh H1 H2 T snap Hs. pose proof (mh_pair _ _ H1) as Hp. exists (rolled kv kv'). split_and!.
  - rewrite snapshot_contents by done. unfold restore_mamba_from. cbn. destruct (tc_same _ _ _ T) as [Sc Ss].
    by rewrite (restore_from_ok _ _ (kc_mamba_ssm kv) _ Sc) by done.
  - split; [|exact (mh_seats _ _ H2)|done]. pose proof (mh_stack _ _ H2) as Hst. rewrite map_app in Hst.
    eapply (ca_rolled whole_causal); [exact Ha|exact (mh_stack _ _ H1)|exact Hst].
  - split; [by rewrite <- (tc_max _ _ _ T)|unfold has_mamba; cbn; by rewrite (tc_conv_dim _ _ _ T)].
Qed.

#[export, refine] Instance engine_laws : EngineLaws (FwdError E X) d := {
  holds := model_holds;
  fails _ := False;
  row := model_row;
  valid := token_ok;
  retracts := arch c <> KimiK3
}.
Proof.
  - exact model_row_length.
  - exact logits_spec.
  - intros kv hist toks Hk Hh Ht Hn Hl. cbn [Generate.forward engine]. destruct (forward_spec kv hist toks Hk Hh Ht Hn Hl) as (kv' & -> & Hk' & T).
    split; [done|]. split; [by eapply touches_shape|]. split; [done|]. intros Hr. by eapply model_rolled.
  - intros kv hist more Hr Hm [H1 H2 H3]. split; [|done|done]. rewrite map_app in H1. by eapply (ca_prefix whole_causal).
  - intros kv hist next budget Hk Hn Hh Hv. cbn [Generate.draft engine].
    destruct (draft_spec kv hist next budget Hk Hn Hh Hv (model_row_length hist Hn Hh)) as (kv' & ds & -> & H). exact H.
  - intros kv hist ds h pos Hk Hds Hn Hp Hmax Hl. cbn [Generate.absorb engine].
    destruct (absorb_spec kv hist ds h pos Hk Hds Hn Hp Hmax Hl) as (kv' & -> & H). exact H.
Defined.

(** ** The cache of a new sequence *)

Definition fits64 (z : Z) : Prop := (0 <= z < 2 ^ 64)%Z.
(** The sizes a cache is made from are sizes, and a hybrid model has channels. *)
Definition sized : Prop :=
  Forall fits64 [n_layers c; kv_lora c; qk_rope c; n_kv_heads c; qk_head c; mamba_inter c; mamba_n_groups c; mamba_d_state c; mamba_d_conv c;
                 mamba_n_heads c; mamba_head_dim c; kda_n_heads c; kda_head_dim c; kda_d_conv c] /\
  (arch c = NemotronH -> (0 < mamba_inter c)%Z).

Lemma len_of_fits z : fits64 z -> len_of z = Z.to_nat z.
Proof using. unfold fits64, len_of, u64. intros H. by rewrite Z.mod_small. Qed.

(** Its fields, for the families of the stack. *)
Record fresh (heads max_t : nat) (kv : KvCache) : Prop := {
  fr_max : kc_max_t kv = max_t;
  fr_full : allocates_gqa_kv c = true -> kc_kv_dim kv = kv_width (gqa_of c) /\
    kc_k_full kv = replicate (n + heads) (replicate (max_t * kv_width (gqa_of c)) f0) /\
    kc_v_full kv = replicate (n + heads) (replicate (max_t * kv_width (gqa_of c)) f0);
  fr_lat : kc_ring kv = 0 /\ kc_kv_lora kv = la_kvl (mla_of c) /\ kc_qk_rope kv = la_r (mla_of c) /\
    kc_latent kv = replicate (n + heads) (replicate (max_t * la_kvl (mla_of c)) f0) /\
    kc_k_rot kv = replicate (n + heads) (replicate (max_t * la_r (mla_of c)) f0);
  fr_starts : length (kc_kv_start kv) = n + heads;
  fr_start j : j < n -> kc_kv_start kv !! j = Some 0%Z;
  fr_pair : length (kc_mamba_ssm kv) = length (kc_mamba_conv kv);
  fr_conv_dim : arch c = NemotronH -> has_mamba kv = true;
  fr_state j : arch c = NemotronH -> layer_kind c !! j = Some Mamba -> j < n + heads ->
    kc_mamba_conv kv !! j = Some (concat (carried_init c).1) /\
    exists s, kc_mamba_ssm kv !! j = Some s /\ ss_data s = (carried_init c).2
}.

Lemma for_model_fresh heads max_t : sized -> fresh heads max_t (for_model c heads max_t).
Proof.
  intros [Hs Hm]. repeat (apply Forall_cons in Hs as [?%len_of_fits Hs]).
  assert (arch c = NemotronH -> allocates_gqa_kv c = true) as Hn by (unfold allocates_gqa_kv; intros ->; done).
  assert (forall kv, fresh heads max_t kv -> fresh heads max_t (if bool_decide (arch c = KimiK3) then enable_kda kv c else kv)) as Hk.
  { intros kv F. destruct (bool_decide _); [|done]. unfold enable_kda. destruct (kda_state_lens c). destruct F. by split. }
  unfold for_model. apply Hk. clear Hk.
  assert (forall (f : nat -> Z -> Z) j, j < n -> imap f (replicate (n + heads) 0%Z) !! j = Some (f j 0%Z)) as Hst.
  { intros f j Hj. rewrite list_lookup_imap, lookup_replicate_2 by lia. done. }
  destruct (allocates_gqa_kv c) eqn:Hg; destruct (bool_decide (arch c = NemotronH)) eqn:En;
    [apply bool_decide_eq_true in En|apply bool_decide_eq_false in En|apply bool_decide_eq_true in En; by specialize (Hn En)|apply bool_decide_eq_false in En];
    unfold enable_mamba2, enable_gqa; split; cbn.
  all: repeat match goal with Hl : len_of ?z = _ |- _ => rewrite Hl end.
  all: rewrite ?length_imap, ?length_replicate; try done.
  all: try (intros j Hj; rewrite Hst by done; by destruct (Nat.leb_spec n j); [lia|]).
  - intros _. unfold has_mamba, mamba_conv_dim_of. cbn. specialize (Hm En).
    repeat match goal with Hl : len_of ?z = _ |- _ => rewrite Hl end. apply negb_true_iff, Nat.eqb_neq. lia.
  - intros j _ Hk' Hj. rewrite !list_lookup_imap, !lookup_replicate_2 by lia. cbn. rewrite (bool_decide_true _ Hk').
    unfold mamba_conv_dim_of. repeat match goal with Hl : len_of ?z = _ |- _ => rewrite Hl end. split.
    + rewrite <- (replicate_rows). do 2 f_equal. lia.
    + by eexists.
  - congruence.
Qed.

(** And the state of delta attention. *)
Lemma kda_fresh heads max_t j : sized -> arch c = KimiK3 -> layer_kind c !! j = Some Kda -> j < n + heads ->
  kc_kda_conv (for_model c heads max_t) !! j = Some (replicate (kd_k (kda_dims c) * 3 * kd_h (kda_dims c) * kd_dk (kda_dims c)) f0) /\
  kc_kda_state (for_model c heads max_t) !! j = Some (replicate (kd_h (kda_dims c) * kd_dk (kda_dims c) * kd_dk (kda_dims c)) f0).
Proof.
  intros [Hs _] Ha Hk Hj. rewrite Forall_lookup in Hs.
  pose proof (len_of_fits _ (Hs 0 _ eq_refl)) as E0. pose proof (len_of_fits _ (Hs 11 _ eq_refl)) as E1.
  pose proof (len_of_fits _ (Hs 12 _ eq_refl)) as E2. pose proof (len_of_fits _ (Hs 13 _ eq_refl)) as E3. clear Hs.
  unfold for_model, allocates_gqa_kv. rewrite Ha, E0. cbn [is_gqa orb].
  rewrite (bool_decide_false (KimiK3 = NemotronH)), (bool_decide_true (KimiK3 = KimiK3)) by done.
  unfold enable_kda, kda_state_lens. rewrite E1, E2, E3. cbn [kc_kda_conv kc_kda_state set_kda set_start kv_new]. unfold lazy_zeros.
  rewrite !list_lookup_imap, !lookup_replicate_2 by exact Hj. cbn [fmap option_fmap option_map]. rewrite (bool_decide_true _ Hk). done.
Qed.

Lemma kimi_fresh l k heads max_t : wf_klayer pf c l k -> sized -> arch c = KimiK3 -> k < n ->
  klayer_holds pf c l k (for_model c heads max_t) [].
Proof.
  intros Wl Hs Ha Hk. pose proof (for_model_fresh heads max_t Hs) as F. pose proof (kl_mix _ _ _ _ Wl) as Wm.
  unfold klayer_holds, kmix_holds, kmix_fits in *. destruct (layer_kind c !! k) as [kd|] eqn:Hkd; [|done]. cbn [map].
  assert (mla_holds pf c l k (for_model c heads max_t) []) as Hm.
  { destruct (fr_lat _ _ _ F) as (F1 & F2 & F3 & F4 & F5). split; [|left; congruence]. split; [|by apply (fr_start _ _ _ F)|done]. split_and!; [done..|].
    eexists _, _. rewrite F4, F5, (fr_max _ _ _ F), !lookup_replicate_2 by lia. split_and!; [done|done|by rewrite length_replicate..]. }
  destruct kd; try done. destruct (kda_fresh heads max_t k Hs Ha Hkd) as [H1 H2]; [lia|]. pose proof (wk_taps _ _ _ Wm) as Htap.
  assert (Forall (fun r => length r = kd_c (kda_dims c)) (replicate (kd_k (kda_dims c) - 1) (replicate (kd_c (kda_dims c)) f0))) as Hr by (apply Forall_replicate, length_replicate).
  unfold kda_holds, kda_hist, kda_carries. cbn [kda_run fst]. split; [|split].
  - split; cbn; try (split; [apply length_replicate|done]). by rewrite length_replicate.
  - done.
  - eexists _, (replicate (3 * kd_c (kda_dims c)) f0). split; [exact H1|]. cbn [kda_init ks_q ks_k ks_v]. rewrite <- !replicate_add, <- (replicate_rows (kd_c (kda_dims c))), <- replicate_add.
    f_equal. change (kd_c (kda_dims c)) with (kd_h (kda_dims c) * kd_dk (kda_dims c)). destruct (kd_k (kda_dims c)) as [|k']; [lia|].
    rewrite <- !Nat.mul_assoc, !Nat.sub_1_r. cbn [Nat.pred]. generalize (kd_h (kda_dims c) * kd_dk (kda_dims c)). clear. intros w. lia.
Qed.

Lemma layer_fresh kd l k heads kv : wf_layer pf c kd l k -> k < n -> kd = layer_kind c !! k -> fresh heads (kc_max_t kv) kv ->
  still pf c (kc_max_t kv) -> layer_holds pf c kd l k kv [].
Proof.
  intros [_ Wl] Hk Hkd F Hst. pose proof (fr_start _ _ _ F k Hk) as Hs0.
  assert (allocates_gqa_kv c = true -> gqa_holds pf c l k kv []) as Hg.
  { intros Ha. destruct (fr_full _ _ _ F Ha) as (F1 & F2 & F3). split; [done|done|].
    eexists _, _. rewrite F2, F3, !lookup_replicate_2 by lia. split_and!; [done|done|by rewrite length_replicate..|done]. }
  unfold layer_holds. destruct (decide (arch c = NemotronH)) as [Ha|Ha].
  - assert (allocates_gqa_kv c = true) as Hal by (unfold allocates_gqa_kv; by rewrite Ha). rewrite Ha in Wl |- *. unfold mix_holds.
    destruct kd as [[]|]; try done; [|by apply Hg].
    split; [by apply (fr_conv_dim _ _ _ F)|]. destruct (fr_state _ _ _ F k Ha) as [H1 (s & H2 & H3)]; [done|lia|].
    unfold carries, mixer_run. cbn [map mamba_run fst]. split_and!; [done|apply length_replicate| |by eexists|apply length_replicate].
    apply Forall_replicate, length_replicate.
  - assert (att_holds pf c l k kv []) as Hat; [|by destruct (arch c)]. unfold att_holds. destruct (is_gqa (arch c)) eqn:Hgq.
    + apply Hg. unfold allocates_gqa_kv. by rewrite Hgq.
    + destruct (fr_lat _ _ _ F) as (F1 & F2 & F3 & F4 & F5). split; [|done]. split; [|done|done]. split_and!; [done..|].
      eexists _, _. rewrite F4, F5, !lookup_replicate_2 by lia. split_and!; [done|done|by rewrite length_replicate..].
Qed.

Lemma fresh_holds heads max_t : sized -> still pf c max_t -> match m_mtp m with Some h => length (mtp_blocks h) <= heads | None => True end ->
  model_holds (for_model c heads max_t) [].
Proof.
  intros Hs Hst Hh. pose proof (for_model_fresh heads max_t Hs) as F. set (kv := for_model c heads max_t) in *.
  assert (kc_max_t kv = max_t) as Hm by apply F. split; [| |apply F].
  - destruct (decide (arch c = KimiK3)) as [Ha|Ha].
    { pose proof (ml_layers W) as Wl. unfold wf_layers in Wl. rewrite Ha in Wl. destruct Wl as (_ & _ & _ & Wl). unfold whole_holds, kimi_holds. rewrite Ha.
      change (kimi_start (map embedded [])) with (@nil Share).
      assert (forall ls k, wf_kstack pf c ls k -> k + length ls <= n -> kstack_holds pf c ls k kv []) as H; [|by apply H, W].
      induction ls as [|l ls IH]; intros k Wk Hk; [done|]. cbn [kstack_holds length] in *. split.
      - apply kimi_fresh; [|done|done|lia]. rewrite <- (Nat.add_0_r k). by apply Wk.
      - apply IH; [|lia]. intros i l' Hi. specialize (Wk (S i) l' Hi). by rewrite Nat.add_succ_r in Wk. }
    assert (forall ls k, wf_stack pf c ls k -> k + length ls <= n -> stack_holds pf c ls k kv []) as H.
    { induction ls as [|l ls IH]; intros k Wl Hk; [done|]. cbn [stack_holds length] in *. split.
      - apply (layer_fresh _ l k heads); [|lia|done|by rewrite Hm..]. rewrite <- (Nat.add_0_r k). by apply Wl.
      - apply IH; [|lia]. intros i l' Hi. specialize (Wl (S i) l' Hi). by rewrite Nat.add_succ_r in Wl. }
    pose proof (ml_layers W) as Wl. unfold wf_layers in Wl. unfold whole_holds. destruct (arch c); try done; (apply H; [done|apply W]).
  - split; [by rewrite Hm|]. destruct (m_mtp m) as [h|]; [|done]. intros j Hj. split; [|rewrite (fr_starts _ _ _ F); lia].
    unfold based. destruct (allocates_gqa_kv c) eqn:Ha.
    + destruct (fr_full _ _ _ F Ha) as (F1 & F2 & F3). split; [done|]. eexists _, _. rewrite F2, F3, !lookup_replicate_2 by lia.
      split_and!; [done|done|..]; by rewrite length_replicate, Hm.
    + destruct (fr_lat _ _ _ F) as (F1 & F2 & F3 & F4 & F5). split; [|by rewrite Hm]. split_and!; [done..|].
      eexists _, _. rewrite F4, F5, !lookup_replicate_2 by lia. split_and!; [done|done|..]; by rewrite length_replicate, Hm.
Qed.

(** ** What the engine computes *)

(** A prompt in several forward calls, the positions counted on. *)
Fixpoint forward_blocks (kv : KvCache) (blocks : list (list Z)) (pos : nat) : res (FwdError E X) (KvCache * list f32) :=
  match blocks with
  | [] => ROk (kv, [])
  | b :: blocks =>
      let? (kv, h) := Forward.forward pf m kv b pos in
      let? (kv, hs) := forward_blocks kv blocks (pos + length b) in ROk (kv, h ++ hs)
  end.

Lemma forward_blocks_spec blocks : forall kv hist, model_holds kv hist -> Forall token_ok hist ->
  Forall (fun b => b <> [] /\ Forall token_ok b) blocks -> length hist + length (concat blocks) <= kc_max_t kv ->
  exists kv', forward_blocks kv blocks (length hist) =
      ROk (kv', concat (map (fun i => model_row (hist ++ take (S i) (concat blocks))) (seq 0 (length (concat blocks))))) /\
    model_holds kv' (hist ++ concat blocks).
Proof.
  induction blocks as [|b blocks IH]; intros kv hist Hk Hh Hb Hl.
  { exists kv. cbn. by rewrite app_nil_r. }
  apply Forall_cons in Hb as [[Hn Hv] Hb]. cbn [concat] in *. rewrite length_app in *.
  destruct (forward_spec kv hist b Hk Hh Hv Hn) as (kv1 & E1 & K1 & T1); [lia|].
  destruct (IH kv1 (hist ++ b) K1) as (kv2 & E2 & K2); [by apply Forall_app|done|rewrite length_app, (tc_max _ _ _ T1); lia|].
  exists kv2. cbn [forward_blocks]. rewrite E1. cbv beta iota. rewrite length_app in E2. rewrite E2. split; [|by rewrite app_assoc].
  do 2 f_equal. rewrite seq_app, map_app, concat_app. f_equal; f_equal.
  - apply map_ext_in. intros i Hi%in_seq. by rewrite take_app_le by lia.
  - assert (seq (0 + length b) (length (concat blocks)) = map (Nat.add (length b)) (seq 0 (length (concat blocks)))) as -> by
      (change (map ?f ?l) with (f <$> l); rewrite fmap_add_seq; f_equal; lia).
    rewrite map_map. apply map_ext. intros i.
    rewrite <- app_assoc. do 2 f_equal. rewrite take_app_ge by lia. do 2 f_equal. lia.
Qed.

(** Rows for the blocks of the head, in the cache that is made. *)
Definition head_fits (heads : nat) : Prop := match m_mtp m with Some h => length (mtp_blocks h) <= heads | None => True end.

(** ** Greedy decoding without a cache *)

(** The whole history again, on a cache made anew: its last row's best token. *)
Definition recompute (heads max_t : nat) (hist : list Z) : option Z :=
  match Forward.forward (E := E) (X := X) pf m (for_model c heads max_t) hist 0 with
  | ROk (_, h) =>
      let* x := row_at d h (length hist - 1) in
      let* lo := Forward.logits m x in Some (token_of lo)
  | _ => None
  end.
Fixpoint recomputed (heads max_t k : nat) (hist : list Z) : list Z :=
  match k, recompute heads max_t hist with
  | S k, Some t => t :: if bool_decide (t ∈ stop_ids c) then [] else recomputed heads max_t k (hist ++ [t])
  | _, _ => []
  end.

(** What the decoding loop reads of the model. *)
Definition params : Params :=
  {| pr_hidden := d; pr_stop_ids := stop_ids c; pr_has_mtp := match m_mtp m with Some _ => true | None => false end |}.

Lemma drafts_retract : pr_has_mtp params = true -> arch c <> KimiK3.
Proof.
  unfold params. cbn. intros Hm Ha. destruct (ml_arch W) as [H|[H|[H|[_ H]]]]; [..|by rewrite H in Hm]; rewrite Ha in H; discriminate H.
Qed.

Lemma recompute_next heads max_t hist : sized -> still pf c max_t -> head_fits heads -> hist <> [] -> Forall token_ok hist -> length hist <= max_t ->
  recompute heads max_t hist = Some (next_token (E := FwdError E X) params hist) /\ token_ok (next_token (E := FwdError E X) params hist).
Proof.
  intros Hs Hst Hf Hn Hh Hl. pose proof (fr_max _ _ _ (for_model_fresh heads max_t Hs)) as Hm.
  destruct (forward_spec (for_model c heads max_t) [] hist) as (kv' & E1 & _); [by apply fresh_holds|constructor|done|done|by rewrite Hm|].
  destruct (logits_spec hist Hn Hh) as (lo & E2 & Ht).
  assert (next_token (E := FwdError E X) params hist = token_of lo) as -> by (unfold next_token; cbn [Generate.logits engine row engine_laws]; by rewrite E2).
  split; [|done]. unfold recompute. cbn [length] in E1. rewrite E1.
  rewrite (concat_row d _ (length hist - 1) (model_row hist)); [by rewrite E2| |].
  - apply Forall_map, Forall_forall. intros i Hi%elem_of_seq. apply model_row_length; [|by apply Forall_take]. by destruct hist.
  - assert (0 < length hist) by (destruct hist; [done|simpl; lia]).
    change (map ?f ?l) with (f <$> l). rewrite list_lookup_fmap, lookup_seq_lt by lia. cbn [fmap option_fmap option_map app]. do 2 f_equal.
    apply take_ge. lia.
Qed.

Lemma recomputed_greedy heads max_t k : sized -> still pf c max_t -> head_fits heads -> forall hist, hist <> [] -> Forall token_ok hist ->
  length hist + k <= S max_t -> recomputed heads max_t k hist = greedy_tokens (E := FwdError E X) params k hist.
Proof.
  intros Hs Hst Hf. induction k as [|k IH]; intros hist Hn Hh Hl; [done|]. cbn [recomputed greedy_tokens].
  destruct (recompute_next heads max_t hist Hs Hst Hf Hn Hh) as [-> Ht]; [lia|]. unfold is_stop. cbn [pr_stop_ids params].
  destruct (bool_decide _); [done|]. f_equal. apply IH; [by destruct hist| |rewrite length_app; simpl; lia].
  apply Forall_app. split; [done|by constructor].
Qed.

(** ** Theorems *)

(** C7: a prompt may be cut into forward calls at will.  For a well-formed model on
    one node, with at most two active experts in each sparse layer (with three or
    more the order of their sum can show, [MoeBatch.batch_changes_output]), without
    MiniMax's block-sparse path and with the sparse indexer idle over the context
    ([still]): through the whole stack — attention over the cached keys or latents,
    the recurrent state of Mamba or of delta attention, Kimi's attention residual,
    the experts — the rows of the blocks, one after another, are the rows of one
    pass over the whole prompt; nothing fails. *)
Theorem forward_in_blocks heads max_t blocks :
  sized -> still pf c max_t -> head_fits heads -> Forall (fun b => b <> [] /\ Forall token_ok b) blocks -> blocks <> [] -> length (concat blocks) <= max_t ->
  exists kv1 kv2 h, forward_blocks (for_model c heads max_t) blocks 0 = ROk (kv1, h) /\
    Forward.forward (E := E) (X := X) pf m (for_model c heads max_t) (concat blocks) 0 = ROk (kv2, h) /\
    length h = length (concat blocks) * d.
Proof.
  intros Hs Hst Hf Hb Hn Hl. pose proof (fr_max _ _ _ (for_model_fresh heads max_t Hs)) as Hm.
  pose proof (fresh_holds heads max_t Hs Hst Hf) as H0.
  assert (Forall token_ok (concat blocks)) as Hv by (apply Forall_concat; eapply Forall_impl; [exact Hb|by intros b [_ ?]]).
  destruct (forward_blocks_spec blocks _ [] H0) as (kv1 & E1 & _); [constructor|done|by rewrite Hm|].
  destruct (forward_spec _ [] (concat blocks) H0) as (kv2 & E2 & _); [constructor|done| |by rewrite Hm|].
  { destruct blocks as [|b blocks]; [done|]. apply Forall_cons in Hb as [[Hb _] _]. by destruct b. }
  eexists _, _, _. split_and!; [exact E1|exact E2|]. cbn [app]. rewrite (concat_len d), length_map, length_seq; [done|].
  apply Forall_map, Forall_forall. intros i Hi%elem_of_seq. apply model_row_length; [|by apply Forall_take].
  by destruct (concat blocks); [simpl in Hi; lia|].
Qed.

(** C6: decoding is greedy decoding, end to end.  For the models of the theorem
    above (well formed, one node, at most two active experts in each sparse layer,
    no block-sparse path, the sparse indexer idle over the context) and with
    rollback on: on the cache the runtime makes, with the model's own draft head, any value of [DRAFT], prefill,
    verified drafts, rejected drafts taken back out of the keys and of the
    recurrent state, [generate_greedy] answers with the prompt and exactly the
    tokens one gets by running the model anew over the whole text for every
    token and taking the best logit; nothing fails. *)
Theorem decoding_is_greedy heads max_t draft_env env prompt n_new :
  sized -> still pf c max_t -> head_fits heads -> prompt <> [] -> Forall token_ok prompt -> length prompt + n_new <= max_t -> rollback env = true ->
  exists kv, generate_greedy params draft_env env (for_model c heads max_t) prompt n_new =
    Some (ROk (kv, prompt ++ recomputed heads max_t n_new prompt)).
Proof.
  intros Hs Hst Hf Hn Hv Hl Hr. pose proof (fr_max _ _ _ (for_model_fresh heads max_t Hs)) as Hm.
  destruct (generate_greedy_spec params draft_env env (for_model c heads max_t) prompt n_new) as (r & E1 & Hout);
    [by apply fresh_holds|done|done|by rewrite Hm|exact drafts_retract|done|].
  rewrite E1. destruct r as [[kv out]|e|]; [|done|done]. exists kv. rewrite Hout, (recomputed_greedy heads max_t) by (done || lia). done.
Qed.

(** A sequence that is being decoded: its cache, its text, its next token. *)
Record Stream := { sm_kv : KvCache; sm_text : list Z; sm_next : Z }.
Definition decoding (s : Stream) : Prop :=
  model_holds (sm_kv s) (sm_text s) /\ Forall token_ok (sm_text s) /\ token_ok (sm_next s) /\ length (sm_text s) + 1 <= kc_max_t (sm_kv s).

(** C10: one token of each of several sequences.  For a well-formed model of a
    family with grouped-query or latent attention, on one node, with at most two
    active experts in each sparse layer, no block-sparse path and the sparse
    indexer idle over each cache's length, the batched pass succeeds, whatever the sequences and
    however far each has come, and gives every sequence the cache and the row that
    a forward pass of its own gives it. *)
Theorem batch_is_each_alone ss :
  layer_kind c = [] -> arch c <> NemotronH -> arch c <> KimiK3 -> Forall decoding ss ->
  exists os, Forall2 (fun s o => Forward.forward (E := E) (X := X) pf m (sm_kv s) [sm_next s] (length (sm_text s)) = ROk o) ss os /\
    forward_batched (E := E) (X := X) pf m (map sm_kv ss) (map sm_next ss) (map (fun s => length (sm_text s)) ss) =
      ROk (map fst os, concat (map snd os)).
Proof.
  intros Hk Hg Hki Hs. destruct (not_kimi Hki) as (Ws & Ep & _ & Eh).
  set (seq_of s := {| sq_kv := sm_kv s; sq_past := map embedded (sm_text s); sq_row := embedded (sm_next s) |}).
  destruct (stack_batched (E := E) (X := X) pf c (ml_dense W) (ml_alone W) (ml_gate W) (m_layers m) 0 (map seq_of ss) Hg Ws) as (os & H1 & E1).
  { apply Forall_map. eapply Forall_impl; [exact Hs|]. intros s ([H1 _ _] & Ht & Hv & Hl). rewrite Eh in H1. unfold sequence, seq_of. cbn [sq_kv sq_past sq_row].
    destruct (embedded_rows _ Ht) as [_ W1]. destruct (embedded_rows [sm_next s]) as [_ W2]; [by constructor|].
    apply Forall_cons in W2 as [W2 _]. split_and!; [done|done|done|by rewrite length_map]. }
  exists os. split.
  - apply Forall2_fmap_l in H1. apply Forall2_same_length_lookup_2; [by eapply Forall2_length|]. intros i s o Hi Ho.
    pose proof (Forall2_lookup_lr _ _ _ _ _ _ H1 Hi Ho) as H2. rewrite Forall_lookup in Hs. destruct (Hs i s Hi) as (Hk0 & _ & Hv & Hl0).
    rewrite forward_stack; [|by constructor|eapply still_le; [|exact (proj1 (mh_seats _ _ Hk0))]; cbn; lia]. rewrite Ep.
    change (stack_pass (E := E) (X := X) pf c (m_layers m) 0 (sm_kv s) (embedded (sm_next s)) 1 (length (map embedded (sm_text s))) = ROk o) in H2.
    rewrite length_map in H2. cbn [map concat length]. by rewrite app_nil_r.
  - unfold forward_batched. rewrite !length_map, Nat.eqb_refl. cbn [andb negb]. rewrite Hk. cbn [length Nat.eqb negb].
    destruct (embedded_rows (map sm_next ss)) as [-> _].
    { apply Forall_map. eapply Forall_impl; [exact Hs|]. by intros s (_ & _ & ? & _). }
    cbn [unwrap]. cbv beta iota. rewrite !map_map in E1. cbn [seq_of sq_kv sq_past sq_row] in E1. rewrite !map_map.
    assert (map (fun s => length (map embedded (sm_text s))) ss = map (fun s => length (sm_text s)) ss) as Hp.
    { apply map_ext. intros s. by rewrite length_map. }
    rewrite Hp in E1. exact E1.
Qed.
End Whole.

(** ** Tiny models *)

Definition tiny_model (c : Config) (n : nat) (head : option MtpHead) : Model := {|
  m_cfg := c; m_shards := {| st_tensors := []; st_files := []; st_index := ∅ |}; m_ebits := 0; m_dbits := 0;
  m_embed := column_qt [1; 2]%Z; m_lm_head := column_qt [1; -1]%Z; m_final_norm := [f32_one];
  m_layers := replicate n (tiny_layer 1); m_output_attn_res_norm := [f32_one]; m_output_attn_res_proj := [f32_one]; m_hc_head_fn := [];
  m_hc_head_base := []; m_hc_head_scale := f0; m_has_dsa := false; m_has_mtp := true; m_mtp := head; m_dspark := None
|}.
Definition tiny_head : MtpHead := {|
  mtp_blocks := [{| mb_layer := tiny_layer 1; mb_kind := Some Attn |}; {| mb_layer := tiny_layer 1; mb_kind := Some Config.Moe |}];
  eh_proj := {| fmt_code := 0; qt_qf := map f32_of_Z [1; 2]%Z; qt_q8 := []; qt_q4 := []; qt_s := []; qt_bs := []; qt_g := f0;
                qt_o := 1; qt_i := 2; gpu_eligible := false |};
  enorm := [f32_one]; hnorm := [f32_one]; mtp_norm := [f32_one]
|}.
Definition tiny_platform : Platform := {|
  pf_exp := toy_exp; pf_tanh := toy_exp; pf_sin := fun x => x; pf_cos := fun x => x; pf_pow := fun x _ => x;
  pf_ln := fun x => x; pf_ln_1p := fun x => x; pf_log2 := fun x => x; pf_exp2 := exact_exp2;
  pf_m3_sparse := false; pf_dsa := true; pf_dsa_min := 0; pf_tp_attn := false; pf_conv_skip := true;
  pf_v4_compress := true; pf_v4_indexer := true; pf_v4_index_topk := None; pf_v4_budget := None; pf_v4_chunk := None; pf_act := toy_act; pf_cluster := None
|}.
(** A mixer, an attention and a block of experts, with a head that drafts. *)
Definition hybrid : Model := tiny_model (tiny_config NemotronH 1 3 [Mamba; Attn; Config.Moe]) 3 (Some tiny_head).
(** Two layers of grouped-query attention and a dense block; latent attention
    with a head that drafts. *)
Definition dense : Model := tiny_model (tiny_config Maple 1 2 []) 2 None.
Definition latent : Model := tiny_model (tiny_config GlmMoeDsa 1 2 []) 2
  (Some {| mtp_blocks := [{| mb_layer := tiny_layer 1; mb_kind := None |}]; eh_proj := eh_proj tiny_head;
           enorm := [f32_one]; hnorm := [f32_one]; mtp_norm := [f32_one] |}).

(** Delta attention twice and gated latent attention, with a snapshot at the
    first layer and the third. *)
Definition delta : Model := tiny_model (tiny_config KimiK3 1 3 [Kda; Attn; Kda]) 3 None.

#[local] Existing Instance toy_transport.
#[local] Instance tiny_attn_transport : AttnTransport unit := { attn_node := 0; exchange_attn _ _ := RErr () }.
#[local] Instance tiny_provider : ExpertProvider (list Z) := toy_provider toy_weights.

Lemma tiny_gate : gate_total (pf_exp tiny_platform) (pf_tanh tiny_platform) (pf_act tiny_platform).
Proof. intros g u. by eexists. Defined.

Section Tiny.
Context (a : Arch) (n : Z) (kinds : list LayerKind).
Abbreviation c := (tiny_config a 1 n kinds).

Lemma tiny_ffn g : wf_ffn toy_act g (one_by_one f32_one) (one_by_one f32_one) 1.
Proof. exists 1. split_and!; fits. Qed.

Lemma tiny_attn li : a <> GlmMoeDsa -> a <> KimiK3 -> attn_fits c (tiny_layer 1) li.
Proof.
  intros Ha Hk. destruct a; try done; (split;
    [exists 1; split; fits|exists (one_by_one f32_one), (one_by_one f32_one), (one_by_one f32_one); split_and!; fits|done|cbn; lia|fits]).
Qed.

Lemma tiny_mamba : wf_mamba c (tiny_layer 1) 1 1.
Proof.
  split.
  - exists (column_qt [1; 2; -1; 3; 1]%Z). split; fits.
  - exists (column_qt [2]%Z). split; fits.
  - done.
  - split; [split_and!; fits|vm_compute; lia..].
  - vm_compute. lia.
  - split; [done|by left].
  - split; done.
Qed.

Lemma tiny_latent li : ready_latent toy_exp toy_exp toy_act c (tiny_layer 1) li 1.
Proof.
  split.
  - split; [split; fits|done|done].
  - split; [exact tiny_gate|by intros; exists ()|].
    intros [|[|[|e]]] He; [..|vm_compute in He; lia]; eexists; (split; [reflexivity|exists 1; split_and!; fits]).
  - exists (one_by_one f32_one). split; fits.
  - exists (one_by_one f32_one). split; fits.
  - apply tiny_ffn.
Qed.
End Tiny.

Lemma hybrid_layer kd li : kd = Some Mamba \/ kd = Some Attn \/ kd = Some Config.Moe -> wf_layer tiny_platform (m_cfg hybrid) kd (tiny_layer 1) li.
Proof.
  intros H. split; [vm_compute; lia|]. change (arch (m_cfg hybrid)) with NemotronH. cbv iota.
  destruct H as [-> | [-> | ->]]; [apply tiny_mamba|by apply tiny_attn|]. split; [apply tiny_latent|vm_compute; lia].
Qed.

Lemma hybrid_wf : wf_model tiny_platform hybrid.
Proof.
  split.
  - done.
  - done.
  - exact tiny_gate.
  - by left.
  - vm_compute; lia.
  - intros i l Hi. apply lookup_replicate in Hi as [-> Hi]. apply hybrid_layer.
    destruct i as [|[|[|i]]]; [by left|by right; left|by right; right|lia].
  - by vm_compute.
  - split; [done|]. intros [|[|t]] Ht; [by eexists..|vm_compute in Ht; lia].
  - vm_compute; lia.
  - fits.
  - intros h [= <-]. split.
    1-3: vm_compute; lia.
    + fits.
    + done.
    + intros [|[|j]] b; intros [= <-]; (split; [|done]); apply hybrid_layer; [by right; left|by right; right].
Qed.

Lemma hybrid_sized : sized hybrid.
Proof. split; [repeat (constructor; [vm_compute; split; congruence|]); constructor|done]. Qed.

Lemma dense_wf : wf_model tiny_platform dense.
Proof.
  split.
  - done.
  - done.
  - exact tiny_gate.
  - by right; left.
  - vm_compute; lia.
  - intros i l Hi. apply lookup_replicate in Hi as [-> Hi]. split; [vm_compute; lia|]. change (arch (m_cfg dense)) with Maple. cbv iota.
    split_and!; [by apply tiny_attn|vm_compute; lia|apply tiny_ffn].
  - by vm_compute.
  - split; [done|]. intros [|[|t]] Ht; [by eexists..|vm_compute in Ht; lia].
  - vm_compute; lia.
  - fits.
  - done.
Qed.

Lemma dense_sized : sized dense.
Proof. split; [repeat (constructor; [vm_compute; split; congruence|]); constructor|done]. Qed.

Lemma latent_layer li : wf_layer tiny_platform (m_cfg latent) None (tiny_layer 1) li.
Proof.
  split; [vm_compute; lia|]. change (arch (m_cfg latent)) with GlmMoeDsa. cbv iota.
  split_and!; [split; [done|apply tiny_mla; by left]|vm_compute; lia|apply tiny_ffn].
Qed.
Lemma latent_wf : wf_model tiny_platform latent.
Proof.
  split.
  - done.
  - done.
  - exact tiny_gate.
  - by right; right; left.
  - vm_compute; lia.
  - intros i l Hi. apply lookup_replicate in Hi as [-> Hi]. apply latent_layer.
  - by vm_compute.
  - split; [done|]. intros [|[|t]] Ht; [by eexists..|vm_compute in Ht; lia].
  - vm_compute; lia.
  - fits.
  - intros h [= <-]. split.
    1-3: vm_compute; lia.
    + fits.
    + done.
    + intros [|j] b; intros [= <-]; (split; [|done]). apply latent_layer.
Qed.

Lemma latent_sized : sized latent.
Proof. split; [repeat (constructor; [vm_compute; split; congruence|]); constructor|done]. Qed.

Lemma delta_wf : wf_model tiny_platform delta.
Proof.
  split.
  - done.
  - done.
  - exact tiny_gate.
  - by right; right; right.
  - vm_compute; lia.
  - split_and!; [by vm_compute; lia|done|done|]. intros i l Hi. apply lookup_replicate in Hi as [-> Hi]. split; [done|done|vm_compute; lia..| |].
    + unfold kmix_fits. destruct i as [|[|[|i]]]; [apply tiny_kda|split; [done|apply tiny_mla; auto]|apply tiny_kda|lia].
    + apply tiny_ffn.
  - by vm_compute.
  - split; [done|]. intros [|[|t]] Ht; [by eexists..|vm_compute in Ht; lia].
  - vm_compute; lia.
  - fits.
  - done.
Qed.

Lemma delta_sized : sized delta.
Proof. split; [repeat (constructor; [vm_compute; split; congruence|]); constructor|done]. Qed.

(** The indexer of the latent model sees 16 positions at once. *)
Lemma latent_still : still tiny_platform (m_cfg latent) 8.
Proof. right. right. left. vm_compute. lia. Qed.

Lemma forward_in_blocks_witness :
  exists kv1 kv2 h, forward_blocks (X := unit) tiny_platform hybrid (for_model (m_cfg hybrid) 2 8) [[0; 1]; [1]; [0; 0]]%Z 0 = ROk (kv1, h) /\
    Forward.forward (X := unit) tiny_platform hybrid (for_model (m_cfg hybrid) 2 8) [0; 1; 1; 0; 0]%Z 0 = ROk (kv2, h) /\ length h = 5.
Proof.
  apply (forward_in_blocks tiny_platform hybrid hybrid_wf 2 8 [[0; 1]; [1]; [0; 0]]%Z).
  - exact hybrid_sized.
  - by left.
  - cbn. lia.
  - repeat constructor; done.
  - done.
  - cbn. lia.
Defined.

(** On the hybrid model, on the latent one and on Kimi's. *)
Lemma decoding_is_greedy_witness :
  (exists kv, generate_greedy (Engine0 := engine (X := unit) tiny_platform hybrid) (params hybrid) (Some [50%Z]) None
      (for_model (m_cfg hybrid) 2 8) [0; 1]%Z 4 =
    Some (ROk (kv, [0; 1]%Z ++ recomputed (X := unit) tiny_platform hybrid 2 8 4 [0; 1]%Z))) /\
  (exists kv, generate_greedy (Engine0 := engine (X := unit) tiny_platform latent) (params latent) None None
      (for_model (m_cfg latent) 1 8) [0; 1]%Z 4 =
    Some (ROk (kv, [0; 1]%Z ++ recomputed (X := unit) tiny_platform latent 1 8 4 [0; 1]%Z))) /\
  exists kv, generate_greedy (Engine0 := engine (X := unit) tiny_platform delta) (params delta) None None
      (for_model (m_cfg delta) 0 8) [0; 1]%Z 4 =
    Some (ROk (kv, [0; 1]%Z ++ recomputed (X := unit) tiny_platform delta 0 8 4 [0; 1]%Z)).
Proof.
  split_and!.
  - apply (decoding_is_greedy tiny_platform hybrid hybrid_wf 2 8 (Some [50%Z]) None [0; 1]%Z 4); [exact hybrid_sized|by left|cbn; lia|done| |cbn; lia|done].
    repeat constructor; done.
  - apply (decoding_is_greedy tiny_platform latent latent_wf 1 8 None None [0; 1]%Z 4);
      [exact latent_sized|exact latent_still|cbn; lia|done| |cbn; lia|done].
    repeat constructor; done.
  - apply (decoding_is_greedy tiny_platform delta delta_wf 0 8 None None [0; 1]%Z 4); [exact delta_sized|by left|done|done| |cbn; lia|done].
    repeat constructor; done.
Defined.

Definition dense_stream (t : Z) : Stream := {| sm_kv := for_model (m_cfg dense) 0 4; sm_text := []; sm_next := t |}.
Lemma batch_is_each_alone_witness :
  exists os, Forall2 (fun s o => Forward.forward (X := unit) tiny_platform dense (sm_kv s) [sm_next s] (length (sm_text s)) = ROk o)
      [dense_stream 0; dense_stream 1] os /\
    forward_batched (X := unit) tiny_platform dense (map sm_kv [dense_stream 0; dense_stream 1]) [0; 1]%Z [0; 0] =
      ROk (map fst os, concat (map snd os)).
Proof.
  apply (batch_is_each_alone tiny_platform dense dense_wf [dense_stream 0; dense_stream 1]).
  - done.
  - done.
  - done.
  - assert (forall t, token_ok dense t -> decoding tiny_platform dense (dense_stream t)) as H.
    { intros t Ht. split; [|split_and!; [by apply Forall_nil|done|vm_compute; lia]]. apply (fresh_holds tiny_platform dense dense_wf); [exact dense_sized|by left|done]. }
    repeat constructor; apply H; done.
Defined.
