(* ===== verification/Dsv4Infer.v ===== *)
(** * A DeepSeek-V4 model as an engine

    The forward passes of [Dsv4Pass.v] keep the laws the decoding loop of
    [Generate.v] relies on: a cache stands for a history when it is ready for
    every text that begins with it.  So a prompt may be cut into calls at will,
    and decoding is greedy decoding by the model's own logits. *)

From Stdlib Require Import ZifyBool ZifyNat SpecFloat.
From S2P Require Import Prelude Rows Json DType Math Linear Usage Safetensors Sharding Config Model Moe MoeBatch KvCache Generate Hc Dsv4Num Dsv4 Dsv4Store Dsv4Attn Dsv4Moe Platform Dsv4Layer Dsv4Stack Dsv4Pass Mamba Tiny MlaCluster Forward Inference.
Local Open Scope nat_scope.

(** ** A call leaves the shape of the cache alone *)

#[global] Instance same_shape_preorder : PreOrder same_shape.
Proof. split; [by intros kv|]. intros a b c [H1 H2] [H3 H4]. split; congruence. Qed.

(** Reads an equation between options backwards. *)
Ltac unbind H :=
  repeat match type of H with
  | None = Some _ => discriminate H
  | Some _ = Some _ => injection H; clear H; intros; subst
  | (match ?x with Some _ => _ | None => _ end) = Some _ => let Hx := fresh "Eq" in destruct x eqn:Hx; [|discriminate H]
  | (let '(_, _) := ?x in _) = Some _ => destruct x
  | (if ?b then _ else _) = Some _ => destruct b
  end.

Lemma ring_ensure_shape kv rows kv' : ring_ensure kv rows = Some kv' -> same_shape kv kv'.
Proof.
  unfold ring_ensure. destruct (_ || _); [by intros [= <-]|]. cbv beta iota zeta.
  destruct (kc_ring kv =? 0); [by intros [= <-]|]. destruct (mapM _ _); [|done]. destruct (mapM _ _); [|done]. by intros [= <-].
Qed.

Lemma write_rows_shape rows : forall kv li pos kv', write_rows kv li pos rows = Some kv' -> same_shape kv kv'.
Proof.
  induction rows as [|r rows IH]; intros kv li pos kv'; simpl; [by intros [= <-]|].
  destruct (_ =? _); [|done]. destruct (latent_row_mut _ _ _ _) as [kv1|] eqn:Hl; [|done]. intros H. transitivity kv1; [|by eapply IH].
  clear -Hl. unfold latent_row_mut, ring_touch in Hl. destruct (_ && _); cbn in Hl; unbind Hl; done.
Qed.

Lemma comp_push_shape kv li row kv' : comp_push kv li row = Some kv' -> same_shape kv kv'.
Proof. unfold comp_push. intros H. unbind H. done. Qed.

Lemma icomp_push_shape kv li row kv' : icomp_push kv li row = Some kv' -> same_shape kv kv'.
Proof. unfold icomp_push. intros H. unbind H. done. Qed.

Lemma push_blocks_shape dm la ccos csin rows : forall kv li b kv', push_blocks dm la ccos csin kv li b rows = Some kv' -> same_shape kv kv'.
Proof.
  induction rows as [|r rows IH]; intros kv li b kv' H; cbn in H; [by injection H as <-|]. unbind H.
  etransitivity; [by eapply comp_push_shape|by eapply IH].
Qed.

Lemma push_iblocks_shape pf c l ratio ihd ccos csin rows : forall kv li b kv',
  push_iblocks pf c l ratio ihd ccos csin kv li b rows = Some kv' -> same_shape kv kv'.
Proof.
  induction rows as [|r rows IH]; intros kv li b kv' H; cbn in H; [by injection H as <-|]. unbind H.
  etransitivity; [by eapply icomp_push_shape|by eapply IH].
Qed.

Lemma compress_step_shape expf dm la kv li pos s ckv csc ccos csin kv' :
  compress_step expf dm la kv li pos s ckv csc ccos csin = Some kv' -> same_shape kv kv'.
Proof.
  unfold compress_step. destruct (comp_state_mut kv li) as [st|].
  - destruct (compress_rows _ _ _ _ _ _ _ _ _ _) as [[st' rows]|]; [|done]. cbv beta iota. intros H. unbind H. by apply push_blocks_shape in H.
  - cbv beta iota. intros H. unbind H. by apply push_blocks_shape in H.
Qed.

Section Select.
Context (pf : Platform) (c : Config).

Lemma idx_compress_shape l ratio wkv wgate kv li xn s pos ccos csin kv' :
  idx_compress pf c l ratio wkv wgate kv li xn s pos ccos csin = Some kv' -> same_shape kv kv'.
Proof.
  unfold idx_compress. intros H. do 2 (destruct (matmul_qt _ _ _ _); [|discriminate H]).
  destruct (mjoin _); [destruct (compress_rows _ _ _ _ _ _ _ _ _ _) as [[st rows]|]; [|discriminate H]|]; cbv beta iota in H; unbind H;
    by apply push_iblocks_shape in H.
Qed.

Lemma select_shape l li xn q_lat s pos ccos csin kv avail kv' sel :
  dsv4_compress_select pf c l li xn q_lat s pos ccos csin kv avail = Some (kv', sel) -> same_shape kv kv'.
Proof.
  unfold dsv4_compress_select, select_closed. destruct (_ || _); [by intros [= <- _]|].
  destruct (l_idx_wq_b l); [|by intros [= <- _]]. destruct (l_idx_wproj l); [|by intros [= <- _]].
  destruct (l_idx_comp_wkv l); [|by intros [= <- _]]. destruct (l_idx_comp_wgate l); [|by intros [= <- _]].
  intros H. unbind H; try done; by eapply idx_compress_shape.
Qed.

Lemma v4_attention_shape l li kv xn s pos cos sin ccos csin kv' out :
  v4_attention pf c l li kv xn s pos cos sin ccos csin = Some (kv', out) -> same_shape kv kv'.
Proof.
  unfold v4_attention, dsv4_attention, dsv4_ring_for. intros H. unbind H. clear Eq Eq0 Eq2.
  destruct (dsv4_raw_span _ _ _) as [[lo total] win]. unbind Eq1.
  transitivity k; [|transitivity k0; [by eapply write_rows_shape|transitivity k1; [|by eapply select_shape]]].
  - unbind Eq. match goal with H : (if _ then ring_ensure _ _ else _) = Some _ |- _ => unbind H end; [by eapply ring_ensure_shape|done].
  - unbind Eq2; [by eapply compress_step_shape|done].
Qed.

Context {E X : Type} `{!ExpertProvider E}.

Lemma dsv4_layer_shape kv l li x s ids pos cos sin ccos csin kv' x' :
  dsv4_layer_forward pf c (X := X) kv l li x s ids pos cos sin ccos csin = ROk (kv', x') -> same_shape kv kv'.
Proof.
  unfold dsv4_layer_forward. intros H. destruct (hc_collapse _ _ _ _ _ _ _ _) as [[xn ws]|]; [|done]. cbn [unwrap] in H. cbv beta iota in H.
  destruct (v4_attention _ _ _ _ _ _ _ _ _ _ _ _) as [[kv1 sub]|] eqn:Ha; [|done]. cbn [unwrap] in H. cbv beta iota in H.
  destruct (hc_expand _ _ _ _ _) as [x1|]; [|done]. cbn [unwrap] in H. cbv beta iota in H.
  destruct (hc_collapse _ _ _ _ _ _ _ _) as [[xn1 ws1]|]; [|done]. cbn [unwrap] in H. cbv beta iota in H.
  destruct (dsv4_moe _ _ _ _ _ _ _ _ _ _ _) as [sub1|e|]; [|done..]. cbv beta iota in H.
  destruct (hc_expand _ _ _ _ _) as [x2|]; [|done]. injection H as <- _. by eapply v4_attention_shape.
Qed.

Lemma v4_init_shape n kv : same_shape kv (v4_init pf c n kv).
Proof. unfold v4_init, dsv4_comp_init. destruct (_ && (comp_rows_len kv =? 0)); [|done]. by destruct (_ && _). Qed.
End Select.

Lemma dsv4_forward_shape pf {E X} `{!ExpertProvider E} m kv ids pos kv' y :
  dsv4_forward pf (X := X) m kv ids pos = ROk (kv', y) -> same_shape kv kv'.
Proof.
  unfold dsv4_forward. intros H. destruct (long_tables _ _ _) as [ccos csin]. destruct (main_tables _ _ _) as [ncos nsin].
  destruct (v4_embed m ids) as [x|]; [|done]. cbn [unwrap] in H. cbv beta iota in H.
  destruct (for_each _ _ _) as [[kv1 x1]|e|] eqn:Hf; [|done..]. cbv beta iota in H.
  destruct (each_row _ _ _ _) as [rs|]; [|done]. injection H as <- _.
  apply (for_each_inv _ (fun st => same_shape kv st.1)) in Hf; [done|apply v4_init_shape|].
  intros [kv0 x0] [li l] [kv2 x2] _ H1 H2. cbn [fst] in *. destruct (if (_ <? _)%Z then _ else _) as [mcos msin]. etransitivity; [exact H1|by eapply dsv4_layer_shape].
Qed.

Lemma chunked_shape pf {E X} `{!ExpertProvider E} m kv ids pos chunk kv' y :
  dsv4_forward_chunked pf (X := X) m kv ids pos chunk = ROk (kv', y) -> same_shape kv kv'.
Proof.
  unfold dsv4_forward_chunked. destruct (_ <=? _)%Z; [by apply dsv4_forward_shape|].
  generalize (chunk_sizes (length ids) (Z.to_nat (Z.max chunk 1))). intros sizes H.
  destruct (chunk_calls _ _ _ _ _ _) as [[kv1 ys]|e|] eqn:Hc; [|done..]. injection H as <- _.
  revert kv ids pos ys Hc. induction sizes as [|s sizes IH]; intros kv ids pos ys Hc; cbn [chunk_calls] in Hc; [by injection Hc as <- _|].
  destruct (dsv4_forward _ _ _ _ _) as [[kv2 y2]|e|] eqn:Hf; [|done..]. cbv beta iota in Hc.
  destruct (chunk_calls _ _ _ _ _ _) as [[kv3 y3]|e|] eqn:Hc'; [|done..]. injection Hc as <- _.
  etransitivity; [by eapply dsv4_forward_shape|by eapply IH].
Qed.

(** ** The engine *)

Section Whole.
Context {E X : Type} `{!ExpertProvider E} `{!Transport X} `{!AttnTransport X} (pf : Platform) (m : Model).
Local Set Default Proof Using "Type".

Abbreviation c := (m_cfg m).
Abbreviation d := (Z.to_nat (hidden (m_cfg m))).
Abbreviation v := (Z.to_nat (vocab (m_cfg m))).
Abbreviation text_rows := (text_rows pf m).
Abbreviation ready_for := (ready_for pf m).

(** A DeepSeek-V4 model whose weights fit, without a head that drafts. *)
Record wf_v4_engine : Prop := {
  ve_model : wf_v4_model pf m;
  ve_arch : arch c = DeepseekV4 /\ (0 < hc_mult c)%Z /\ m_mtp m = None;
  ve_vocab : (0 < vocab c < 2 ^ 31)%Z;
  ve_embed : cols_of (m_embed m) = d /\ forall t, t < v -> exists r, embed_row (m_embed m) t = Some r /\ length r = d;
  ve_norm : d <= length (m_final_norm m);
  ve_lm_head : wf_qt (m_lm_head m) d v;
  ve_ctx : (Z.of_nat (len_of (max_ctx c)) < 2 ^ 30)%Z
}.

(** The hidden row of the last token of a history. *)
Definition v4_row (hist : list Z) : list f32 := default [] (last (text_rows hist)).
(** A cache stands for a history when it is ready for every text that begins
    with it. *)
Definition v4_holds (kv : KvCache) (hist : list Z) : Prop :=
  kc_max_t kv <= len_of (max_ctx c) /\
  forall more, Forall (token_ok m) (hist ++ more) -> length (hist ++ more) <= len_of (max_ctx c) -> ready_for (hist ++ more) (length hist) kv.

Context (W : wf_v4_engine).
Local Set Default Proof Using "All".

Lemma valid_fit ids : Forall (token_ok m) ids -> tokens_fit m ids.
Proof using W.
  intros Ht. eapply Forall_impl; [exact Ht|]. intros t Hv. unfold token_ok in Hv.
  destruct (ve_embed W) as [Hc He]. destruct (He (Z.to_nat t)) as (r & E1 & Hr); [lia|]. exists r. split; [|done].
  unfold embed_token. rewrite Hc, Nat.eqb_refl, E1. destruct (Z.ltb_spec t 0); [lia|]. done.
Qed.

Lemma fits ids : Forall (token_ok m) ids -> length ids <= len_of (max_ctx c) -> fits_text m ids.
Proof using W. intros Ht Hl. pose proof (ve_ctx W). split; [by apply valid_fit|lia]. Qed.

Lemma v4_rows ids : Forall (token_ok m) ids -> wide_rows d (text_rows ids) /\ length (text_rows ids) = length ids.
Proof. intros Ht. apply (text_rows_wide (X := X) pf m (ve_model W)), (valid_fit ids Ht). Qed.

(** A new cache. *)
Lemma v4_fresh heads max_t : new_cache m (for_model c heads max_t).
Proof.
  destruct (for_model_rows c heads max_t) as (_ & _ & _ & _ & Hl). split; [apply for_model_comp|]. split; [apply for_model_comp|]. split; [rewrite Hl; apply (vm_lora _ _ (ve_model W))|].
  exists (len_of (n_layers c) + heads). split; [pose proof (vm_n _ _ (ve_model W)); lia|apply ring_ok_fresh].
Qed.

(** The rows of a text's beginning do not depend on how it goes on. *)
Lemma rows_prefix h k : Forall (token_ok m) (h ++ k) -> length (h ++ k) <= len_of (max_ctx c) -> text_rows h = take (length h) (text_rows (h ++ k)).
Proof.
  intros Ht Hl. pose proof (fits _ Ht Hl) as Hf. destruct (v4_rows _ Ht) as [W1 L1]. apply Forall_app in Ht as [Hh _]. rewrite length_app in Hl, L1.
  pose proof (fits h Hh ltac:(lia)) as Hfh. destruct (v4_rows _ Hh) as [W2 L2].
  destruct (decide (length h = 0)) as [H0|H0]; [rewrite H0; apply nil_length_inv; lia|].
  destruct (pass_call pf (X := X) m (ve_model W) h 0 (length h) (for_model c 0 0) Hfh) as (kv1 & E1 & _); [left; split; [done|apply v4_fresh]|lia|lia|].
  destruct (pass_call pf (X := X) m (ve_model W) (h ++ k) 0 (length h) (for_model c 0 0) Hf) as (kv2 & E2 & _); [left; split; [done|apply v4_fresh]|lia|rewrite length_app; lia|].
  rewrite !drop_0 in E1, E2. rewrite take_app_length in E2. rewrite take_ge in E1 by lia. rewrite E1 in E2. injection E2 as _ E2.
  rewrite (take_ge (text_rows h)) in E2 by lia.
  assert (0 < d) as Hd by (apply (vm_dims _ _ (ve_model W))).
  apply (f_equal (chunks_exact d)) in E2. rewrite !chunks_exact_rows in E2; [by injection E2|done|by apply Forall_take|done|done].
Qed.

Lemma v4_row_length hist : hist <> [] -> Forall (token_ok m) hist -> length (v4_row hist) = d.
Proof.
  intros Hn Hh. destruct (v4_rows hist Hh) as [Wt Lt]. unfold v4_row. destruct (last (text_rows hist)) as [r|] eqn:Hr.
  - apply last_Some in Hr as [rs Hr]. rewrite Hr in Wt. apply Forall_app in Wt as [_ Wt]. by apply Forall_cons in Wt as [Wt _].
  - apply last_None in Hr. rewrite Hr in Lt. by destruct hist.
Qed.

(** A block's rows are those of the histories that end in it. *)
Lemma block_rows hist toks : Forall (token_ok m) (hist ++ toks) -> length (hist ++ toks) <= len_of (max_ctx c) ->
  take (length toks) (drop (length hist) (text_rows (hist ++ toks))) = map (fun i => v4_row (hist ++ take (S i) toks)) (seq 0 (length toks)).
Proof.
  intros Ht Hl. destruct (v4_rows _ Ht) as [_ Lt]. rewrite length_app in Lt. apply list_eq. intros i.
  change (map ?f ?k) with (f <$> k). rewrite list_lookup_fmap. destruct (decide (i < length toks)) as [Hi|Hi].
  - rewrite lookup_take_lt, lookup_drop, lookup_seq_lt by done. cbn. unfold v4_row.
    assert (hist ++ toks = (hist ++ take (S i) toks) ++ drop (S i) toks) as Es by (by rewrite <- app_assoc, take_drop).
    pose proof (rows_prefix (hist ++ take (S i) toks) (drop (S i) toks)) as Hp. rewrite <- Es in Hp. rewrite Hp by done.
    rewrite last_lookup, length_take, length_app, length_take, Lt. rewrite lookup_take_lt by lia.
    replace (Init.Nat.pred _) with (length hist + i) by lia. destruct (lookup_lt_is_Some_2 (text_rows (hist ++ toks)) (length hist + i)) as [r ->]; [lia|done].
  - rewrite lookup_take_ge, lookup_seq_ge by lia. done.
Qed.

Lemma v4_logits_total hist : hist <> [] -> Forall (token_ok m) hist ->
  exists lo, Forward.logits m (v4_row hist) = Some lo /\ token_ok m (token_of lo).
Proof.
  intros Hn Hh. pose proof (v4_row_length hist Hn Hh) as Hl. unfold Forward.logits, logits_into. rewrite Nat.eqb_refl. cbn [negb].
  destruct (rmsnorm_total (v4_row hist) (m_final_norm m) (eps c)) as (r & -> & Hr); [pose proof (ve_norm W); lia|].
  rewrite Hr, Hl, Nat.eqb_refl. cbn [negb]. rewrite (matmul_qt_one (m_lm_head m) d v) by (apply W || lia). eexists. split; [done|].
  pose proof (matvec_length (m_lm_head m) d v r (ve_lm_head W)) as Lr. pose proof (ve_vocab W) as Hv.
  assert (argmax (matvec (m_lm_head m) r) < v) as Hb by (rewrite <- Lr; apply argmax_lt; intros H0; rewrite H0 in Lr; simpl in Lr; lia).
  unfold token_ok, token_of. rewrite wrap_i_id by (unfold in_i; lia). lia.
Qed.

(** A forward pass extends the history, and gives each token its row. *)
Lemma v4_forward_spec kv hist toks : v4_holds kv hist -> Forall (token_ok m) hist -> Forall (token_ok m) toks -> toks <> [] ->
  length hist + length toks <= kc_max_t kv ->
  exists kv', Forward.forward (E := E) (X := X) pf m kv toks (length hist) =
      ROk (kv', concat (map (fun i => v4_row (hist ++ take (S i) toks)) (seq 0 (length toks)))) /\
    v4_holds kv' (hist ++ toks) /\ same_shape kv kv'.
Proof.
  intros [Hmax Hk] Hh Ht Hn Hl. destruct (ve_arch W) as (Ha & Hhc & _).
  assert (forall P : Prop, (P -> length toks = 0) -> ~ P) as Hpos by (intros P H HP; specialize (H HP); by destruct toks).
  assert (0 < length toks) as Hlt by (destruct toks; [done|simpl; lia]). clear Hpos.
  unfold Forward.forward. rewrite Ha. rewrite bool_decide_true by done. rewrite (proj2 (Z.ltb_lt _ _) Hhc). cbn [andb].
  set (ch := dsv4_prefill_chunk _ _ _ _ _). clearbody ch.
  assert (forall more, Forall (token_ok m) ((hist ++ toks) ++ more) -> length ((hist ++ toks) ++ more) <= len_of (max_ctx c) ->
    exists kv', dsv4_forward_chunked pf (X := X) m kv toks (length hist) ch =
      ROk (kv', concat (take (length toks) (drop (length hist) (text_rows ((hist ++ toks) ++ more))))) /\
      at_text pf m ((hist ++ toks) ++ more) (length hist + length toks) kv') as H.
  { intros more Hm Hlm. assert (take (length toks) (drop (length hist) ((hist ++ toks) ++ more)) = toks) as Et.
    { rewrite <- app_assoc, drop_app_length, take_app_length. done. }
    destruct (v4_chunked pf (X := X) m (ve_model W) ((hist ++ toks) ++ more) (length hist) (length toks) kv ch) as (kv' & Eq & Hat).
    - by apply fits.
    - rewrite <- app_assoc in Hm, Hlm |- *. by apply Hk.
    - done.
    - rewrite !length_app. lia.
    - rewrite Et in Eq. by exists kv'. }
  destruct (H []) as (kv' & E1 & _); [rewrite app_nil_r; by apply Forall_app|rewrite app_nil_r, length_app; lia|].
  exists kv'. rewrite E1, app_nil_r. rewrite block_rows by (by apply Forall_app || (rewrite length_app; lia)). cbn [from_moe].
  pose proof (chunked_shape _ _ _ _ _ _ _ _ E1) as Hs. split_and!; [done| |done]. split; [rewrite (proj1 Hs); done|].
  intros more Hm Hlm. destruct (H more Hm Hlm) as (kv2 & E2 & Hat). rewrite E1 in E2. injection E2 as <- _. rewrite length_app. by right.
Qed.

#[local] Instance v4_engine : Engine (FwdError E X) := engine pf m.
#[local, refine] Instance v4_laws : EngineLaws (FwdError E X) d := {
  holds := v4_holds;
  fails _ := False;
  row := v4_row;
  valid := token_ok m;
  retracts := False
}.
Proof.
  - exact v4_row_length.
  - exact v4_logits_total.
  - intros kv hist toks Hk Hh Ht Hn Hl. cbn [Generate.forward v4_engine engine]. destruct (v4_forward_spec kv hist toks Hk Hh Ht Hn Hl) as (kv' & -> & Hk' & Hs).
    by split_and!.
  - done.
  - intros kv hist next budget Hk _ _ _. cbn [Generate.draft v4_engine engine]. unfold Forward.draft. rewrite (proj2 (proj2 (ve_arch W))).
    split_and!; [done|done|constructor|cbn; lia].
  - intros kv hist ds h pos Hk _ _ _ _ _. cbn [Generate.absorb v4_engine engine]. unfold Forward.absorb. by rewrite (proj2 (proj2 (ve_arch W))).
Defined.

Lemma for_model_max heads max_t : kc_max_t (for_model c heads max_t) = max_t.
Proof using.
  unfold for_model, enable_kda. destruct (kda_state_lens c). by destruct (allocates_gqa_kv c), (bool_decide _), (bool_decide _).
Qed.

Lemma v4_fresh_holds heads max_t : max_t <= len_of (max_ctx c) -> v4_holds (for_model c heads max_t) [].
Proof.
  intros Hm. split; [by rewrite for_model_max|]. intros more _ _. left. split; [done|apply v4_fresh].
Qed.

Lemma v4_blocks_spec blocks : forall kv hist, v4_holds kv hist -> Forall (token_ok m) hist ->
  Forall (fun b => b <> [] /\ Forall (token_ok m) b) blocks -> length hist + length (concat blocks) <= kc_max_t kv ->
  exists kv', forward_blocks (E := E) (X := X) pf m kv blocks (length hist) =
    ROk (kv', concat (drop (length hist) (text_rows (hist ++ concat blocks)))).
Proof.
  induction blocks as [|b blocks IH]; intros kv hist Hk Hh Hb Hl.
  { exists kv. cbn. destruct (v4_rows hist Hh) as [_ Lt]. by rewrite app_nil_r, drop_ge by lia. }
  apply Forall_cons in Hb as [[Hn Hv] Hb]. cbn [concat] in *. rewrite length_app in Hl. pose proof (proj1 Hk) as Hmax.
  assert (Forall (token_ok m) (concat blocks)) as Hc by (apply Forall_concat; eapply Forall_impl; [exact Hb|by intros ? [_ ?]]).
  destruct (v4_forward_spec kv hist b Hk Hh Hv Hn ltac:(lia)) as (kv1 & E1 & Hk1 & Hs1).
  destruct (IH kv1 (hist ++ b) Hk1) as (kv2 & E2); [by apply Forall_app|done|rewrite length_app, (proj1 Hs1); lia|].
  exists kv2. cbn [forward_blocks]. rewrite E1. cbv beta iota. rewrite length_app in E2. rewrite E2, <- app_assoc. do 2 f_equal.
  rewrite <- block_rows by (by apply Forall_app || (rewrite length_app; lia)). rewrite <- concat_app. f_equal.
  rewrite (rows_prefix (hist ++ b) (concat blocks)), <- app_assoc.
  - rewrite length_app, take_drop_commute, take_take, Nat.min_l by lia. rewrite <- take_drop_commute, <- drop_drop, take_drop. done.
  - rewrite <- app_assoc. by repeat apply Forall_app_2.
  - rewrite !length_app. lia.
Qed.

(** ** Theorems *)

(** C9: a text may be cut into calls at will, and every call into chunks.  For a
    well-formed model ([wf_v4_engine]: at most two active experts per token, since
    with more the order of their sum can show; a sliding window; no draft head;
    scores that are numbers where an Indexer compares them) on one node: from the
    cache the runtime makes, on the blocks of a text one after another, whatever
    the chunk size each call chooses, the forward passes succeed and return, for
    each token, the row that the streams of the whole text give it: the ring, the
    carried state of the Compressor and of the Indexer and the rows they have pushed
    never show, and the Indexer picks what it would pick over the whole text. *)
Theorem v4_in_blocks heads max_t blocks : max_t <= len_of (max_ctx c) ->
  Forall (fun b => b <> [] /\ Forall (token_ok m) b) blocks -> length (concat blocks) <= max_t ->
  exists kv, forward_blocks (E := E) (X := X) pf m (for_model c heads max_t) blocks 0 = ROk (kv, concat (text_rows (concat blocks))).
Proof.
  intros Hm Hb Hl. apply (v4_blocks_spec blocks (for_model c heads max_t) []); [by apply v4_fresh_holds|constructor|done|].
  by rewrite for_model_max.
Qed.

Lemma v4_recompute_next heads max_t hist : max_t <= len_of (max_ctx c) -> hist <> [] -> Forall (token_ok m) hist -> length hist <= max_t ->
  recompute (E := E) (X := X) pf m heads max_t hist = Some (next_token (E := FwdError E X) (params m) hist) /\
  token_ok m (next_token (E := FwdError E X) (params m) hist).
Proof.
  intros Hm Hn Hh Hl. destruct (v4_forward_spec (for_model c heads max_t) [] hist) as (kv' & E1 & _); [by apply v4_fresh_holds|constructor|done|done|by rewrite for_model_max|].
  destruct (v4_logits_total hist Hn Hh) as (lo & E2 & Ht).
  assert (next_token (E := FwdError E X) (params m) hist = token_of lo) as -> by (unfold next_token; cbn [Generate.logits v4_engine engine row v4_laws]; by rewrite E2).
  split; [|done]. unfold recompute. cbn [length] in E1. rewrite E1.
  rewrite (concat_row d _ (length hist - 1) (v4_row hist)); [by rewrite E2| |].
  - apply Forall_map, Forall_forall. intros i Hi%elem_of_seq. apply v4_row_length; [|by apply Forall_take]. by destruct hist.
  - assert (0 < length hist) by (destruct hist; [done|simpl; lia]).
    change (map ?f ?l) with (f <$> l). rewrite list_lookup_fmap, lookup_seq_lt by lia. cbn [fmap option_fmap option_map app]. do 2 f_equal.
    apply take_ge. lia.
Qed.

Lemma v4_recomputed_greedy heads max_t k : max_t <= len_of (max_ctx c) -> forall hist, hist <> [] -> Forall (token_ok m) hist ->
  length hist + k <= S max_t -> recomputed (E := E) (X := X) pf m heads max_t k hist = greedy_tokens (E := FwdError E X) (params m) k hist.
Proof.
  intros Hm. induction k as [|k IH]; intros hist Hn Hh Hl; [done|]. cbn [recomputed greedy_tokens].
  destruct (v4_recompute_next heads max_t hist Hm Hn Hh) as [-> Ht]; [lia|]. unfold is_stop. cbn [pr_stop_ids params].
  destruct (bool_decide _); [done|]. f_equal. apply IH; [by destruct hist| |rewrite length_app; simpl; lia].
  apply Forall_app. split; [done|by constructor].
Qed.

(** C8: decoding a DeepSeek-V4 model is greedy decoding, end to end.  For the models
    of the theorem above (well formed, at most two active experts per token,
    Indexer scores that are numbers, one node) and with rollback on: on the cache
    the runtime makes, the answer to a prompt is the prompt and exactly the tokens
    one gets by running the model anew over the whole text for every token and
    taking the best logit: prefill in chunks, the ring that forgets the rows the
    window has left, the compressed blocks that close as tokens come and the
    Indexer's choice among them change nothing; nothing fails. *)
Theorem v4_decoding_is_greedy heads max_t draft_env env prompt n_new :
  max_t <= len_of (max_ctx c) -> prompt <> [] -> Forall (token_ok m) prompt -> length prompt + n_new <= max_t -> rollback env = true ->
  exists kv, generate_greedy (Engine0 := engine (E := E) (X := X) pf m) (params m) draft_env env (for_model c heads max_t) prompt n_new =
    Some (ROk (kv, prompt ++ recomputed (E := E) (X := X) pf m heads max_t n_new prompt)).
Proof.
  intros Hm Hn Hv Hl Hr.
  destruct (generate_greedy_spec (params m) draft_env env (for_model c heads max_t) prompt n_new) as (r & E1 & Hout);
    [by apply v4_fresh_holds|done|done|by rewrite for_model_max| |done|].
  { unfold params. cbn. by rewrite (proj2 (proj2 (ve_arch W))). }
  unfold v4_engine in E1. rewrite E1. destruct r as [[kv out]|e|]; [|done|done]. exists kv. rewrite Hout, (v4_recomputed_greedy heads max_t) by (done || lia). done.
Qed.
End Whole.

(** ** A tiny model

    Three layers: one with blocks of four tokens, an Indexer that keeps one of
    them, and experts chosen by a table; one with blocks of two; one with
    neither.  Two copies of a stream of one channel; a window of three. *)

Definition tiny_v4_config : Config :=
  deepseek_config (value (members
    [("hidden_size", DInt 1); ("num_hidden_layers", DInt 3); ("num_attention_heads", DInt 1); ("n_routed_experts", DInt 3);
     ("num_experts_per_tok", DInt 2); ("moe_intermediate_size", DInt 1); ("q_lora_rank", DInt 1); ("o_lora_rank", DInt 1);
     ("head_dim", DInt 2); ("qk_rope_head_dim", DInt 2); ("vocab_size", DInt 2); ("max_position_embeddings", DInt 8);
     ("sliding_window", DInt 3); ("compress_ratios", DArr [DInt 4; DInt 2; DInt 0]); ("hc_mult", DInt 2); ("hc_sinkhorn_iters", DInt 1);
     ("index_topk", DInt 1); ("index_n_heads", DInt 1); ("index_head_dim", DInt 2)]%string)).

Definition tiny_v4_layer (ratio : Z) (ix : bool) (pool : option QTensor) (ape norm : list f32) (table : list Z) : Layer := {|
  l_in_ln := [f32_one]; l_post_ln := [f32_one]; l_q_a := one_by_one f32_one; l_q_b := column_qt [1; 2]%Z; l_kv_a := column_qt [2; -1]%Z; l_kv_b := empty_qt;
  l_o := empty_qt; l_q_a_ln := [f32_one]; l_kv_a_ln := [f32_one; f32_two]; l_o_a := None; l_o_b := Some (one_by_one f32_one); l_o_a_groups := [row_qt [1; -1]%Z];
  l_attn_sink := [f0]; l_idx_wq_b := if ix then Some (column_qt [1; 2]%Z) else None; l_idx_wproj := if ix then Some (one_by_one f32_one) else None;
  l_idx_comp_wkv := if ix then Some (column_qt [1; 3; -1; 2]%Z) else None; l_idx_comp_wgate := if ix then Some (column_qt [2; 1; 0; 1]%Z) else None;
  l_idx_comp_ape := replicate 16 f0; l_idx_comp_norm := [f32_one; f32_two]; l_comp_ratio := ratio; l_comp_wkv := pool; l_comp_wgate := pool;
  l_comp_ape := ape; l_comp_norm := norm; l_tid2eid := table; l_hc_attn_fn := map f32_of_Z [1; 0; 1; 2]%Z; l_hc_attn_base := replicate 8 f32_one;
  l_hc_attn_scale := [f32_one; f32_one; f32_two]; l_hc_ffn_fn := map f32_of_Z [1; -1]%Z; l_hc_ffn_base := replicate 8 f32_one;
  l_hc_ffn_scale := [f32_one; f32_two; f32_one]; l_q_proj := None;
  l_k_proj := None; l_v_proj := None; l_qkv_proj := None; l_q_norm := []; l_k_norm := []; l_idx_q_proj := None;
  l_idx_k_proj := None; l_idx_q_norm := []; l_idx_k_norm := []; l_sparse := true; l_gate_proj := empty_qt;
  l_up_proj := empty_qt; l_down_proj := empty_qt; l_router := map f32_of_Z [2; 1; 0]%Z; l_router_bias := []; l_sh_gate := empty_qt;
  l_sh_up := empty_qt; l_sh_down := empty_qt; l_ix_wk := None; l_ix_wq := None; l_ix_wp := None;
  l_ix_knorm_w := []; l_ix_knorm_b := []; l_mamba_in_proj := None; l_mamba_out_proj := None;
  l_mamba_conv_w := []; l_mamba_conv_b := []; l_mamba_a_log := []; l_mamba_d := []; l_mamba_dt_bias := [];
  l_mamba_norm := []; l_fc1_latent := None; l_fc2_latent := None; l_attn_gate := None; l_kda_b_proj := None;
  l_kda_f_a := None; l_kda_f_b := None; l_kda_conv_q := []; l_kda_conv_k := []; l_kda_conv_v := [];
  l_kda_a_log := []; l_kda_dt_bias := []; l_kda_o_norm := []; l_attn_res_norm := []; l_attn_res_proj := [];
  l_mlp_res_norm := []; l_mlp_res_proj := []; l_routed_expert_norm := []
|}.
Definition tiny_v4_indexed : Layer :=
  tiny_v4_layer 4 true (Some (column_qt [1; 3; 2; -1]%Z)) (replicate 16 f32_one) [f32_one; f32_one] [0; 1; 1; 2]%Z.
Definition tiny_v4_pooled : Layer :=
  tiny_v4_layer 2 false (Some (column_qt [1; 3]%Z)) (map f32_of_Z [0; 0; 1; 1]%Z) [f32_one; f32_one] [0; 1; 1; 2]%Z.
Definition tiny_v4_plain : Layer := tiny_v4_layer 0 false None [] [f32_one; f32_two] [].
Definition tiny_v4 : Model := {|
  m_cfg := tiny_v4_config; m_shards := {| st_tensors := []; st_files := []; st_index := ∅ |}; m_ebits := 0; m_dbits := 0;
  m_embed := column_qt [64; 128]%Z; m_lm_head := column_qt [1; -1]%Z; m_final_norm := [f32_one];
  m_layers := [tiny_v4_indexed; tiny_v4_pooled; tiny_v4_plain];
  m_output_attn_res_norm := []; m_output_attn_res_proj := []; m_hc_head_fn := map f32_of_Z [1; 2; -1; 1]%Z;
  m_hc_head_base := [f32_one; f32_one]; m_hc_head_scale := f32_one; m_has_dsa := false; m_has_mtp := false; m_mtp := None; m_dspark := None
|}.

#[local] Instance v4_provider : ExpertProvider (list Z) := toy_provider toy_weights.
#[local] Existing Instance toy_transport.
#[local] Instance v4_attn_transport : AttnTransport unit := { attn_node := 0; exchange_attn _ _ := RErr () }.

Lemma toy_exp_unsigned x : unsigned (toy_exp x) = true.
Proof. unfold toy_exp. by repeat destruct (SFeqb _ _). Qed.

Lemma tiny_v4_moe l li : l_router l = map f32_of_Z [2; 1; 0]%Z -> l_router_bias l = [] ->
  dsv4_ready (pf_exp tiny_platform) (pf_tanh tiny_platform) (pf_act tiny_platform) tiny_v4_config l li.
Proof.
  intros H1 H2. split.
  - vm_compute. split; [lia|done].
  - by rewrite H1.
  - by left.
  - split; [exact tiny_gate|by intros; exists ()|].
    intros [|[|[|e]]] He; [..|vm_compute in He; lia]; eexists; (split; [reflexivity|exists 1; split_and!; fits]).
  - intros H. by vm_compute in H.
Qed.

(** The sizes the configuration comes to. *)
Lemma tiny_v4_sizes : Z.to_nat (hidden tiny_v4_config) = 1 /\ len_of (n_heads tiny_v4_config) = 1 /\ len_of (qk_head tiny_v4_config) = 2 /\
  len_of (qk_rope tiny_v4_config) = 2 /\ len_of (q_lora tiny_v4_config) = 1 /\ Z.to_nat (Z.max (o_groups tiny_v4_config) 1) = 1 /\
  len_of (o_lora tiny_v4_config) = 1 /\ Z.to_nat (hc_mult tiny_v4_config) = 2 /\ compress_ratios tiny_v4_config = [4; 2; 0]%Z /\ len_of (index_hd tiny_v4_config) = 2 /\ len_of (index_nh tiny_v4_config) = 1.
Proof. vm_compute. by split_and!. Qed.
Ltac sized_qt := apply tiny_qt; reflexivity.

Lemma tiny_v4_attn ratio ix pool ape norm table : length norm = 2 ->
  (0 < la_ratio (v4_attn tiny_platform (tiny_v4_layer ratio ix pool ape norm table)) -> (0 < ratio < 8)%Z /\ exists w, pool = Some w /\
     wf_qt w 1 (width (Z.to_nat ratio) 2) /\ length ape = Z.to_nat ratio * width (Z.to_nat ratio) 2) ->
  wf_v4 tiny_platform tiny_v4_config (tiny_v4_layer ratio ix pool ape norm table).
Proof.
  intros Hn Hp. destruct tiny_v4_sizes as (Ed & Eh & Ehd & Erd & Eql & Eg & Er & _). split; rewrite ?Ed, ?Eh, ?Ehd, ?Erd, ?Eql, ?Eg, ?Er.
  - lia.
  - split; [sized_qt|cbn; lia].
  - sized_qt.
  - split; [sized_qt|cbn; lia].
  - done.
  - exact Hn.
  - intros Hr. destruct (Hp Hr) as (H0 & w & -> & Hw & Ha). exists w, w. split; [done|]. split; [done|]. split; [cbn; lia|].
    change (la_ratio _) with (len_of ratio). unfold len_of, u64. rewrite Z.mod_small by lia. by split_and!.
  - split; [done|]. split; [done|]. constructor; [|constructor]. sized_qt.
  - exists (one_by_one f32_one). split; [done|]. sized_qt.
Qed.

Lemma tiny_v4_indexer pool ape norm table : wf_indexer tiny_v4_config (tiny_v4_layer 4 true pool ape norm table).
Proof.
  destruct tiny_v4_sizes as (Ed & _ & _ & Erd & Eql & _ & _ & _ & _ & Eih & Einh). split; rewrite ?Ed, ?Erd, ?Eql, ?Eih, ?Einh.
  - reflexivity.
  - split; [exists 1; reflexivity|lia].
  - reflexivity.
  - reflexivity.
  - exists (column_qt [1; 2]%Z), (one_by_one f32_one), (column_qt [1; 3; -1; 2]%Z), (column_qt [2; 1; 0; 1]%Z).
    do 4 (split; [reflexivity|]). split; [sized_qt|]. split; [sized_qt|]. split; sized_qt.
Qed.

Lemma tiny_v4_layer_wf li l : m_layers tiny_v4 !! li = Some l -> wf_layer_v4 tiny_platform tiny_v4_config l li.
Proof.
  assert (forall ratio ix pool ape norm table, wf_v4 tiny_platform tiny_v4_config (tiny_v4_layer ratio ix pool ape norm table) ->
    ratio = ratio_at (compress_ratios tiny_v4_config) li /\ (0 <= ratio < 2 ^ 31)%Z -> ratio = 4%Z /\ ix = true \/ ix = false ->
    wf_layer_v4 tiny_platform tiny_v4_config (tiny_v4_layer ratio ix pool ape norm table) li) as H.
  { destruct tiny_v4_sizes as (Ed & _ & _ & _ & _ & _ & _ & Ehc & _). intros ratio ix pool ape norm table Ha Hr Hx.
    split; [done| |done|..|by apply tiny_v4_moe]; rewrite ?Ehc, ?Ed; [|vm_compute; lia..].
    destruct Hx as [[-> ->]| ->]; [intros _; apply tiny_v4_indexer|]. unfold indexed, has_indexer. cbn [l_idx_wq_b tiny_v4_layer]. by rewrite andb_false_r. }
  destruct tiny_v4_sizes as (_ & _ & _ & _ & _ & _ & _ & _ & Ec & _). rewrite Ec in H.
  destruct li as [|[|[|li]]]; [..|done]; intros Hl; injection Hl as <-; [unfold tiny_v4_indexed|unfold tiny_v4_pooled|unfold tiny_v4_plain]; (apply H; [apply tiny_v4_attn; [reflexivity|]|split; [reflexivity|lia]|]).
  - intros _. split; [lia|]. eexists. split; [reflexivity|]. split; [sized_qt|reflexivity].
  - left; split; reflexivity.
  - intros _. split; [lia|]. eexists. split; [reflexivity|]. split; [sized_qt|reflexivity].
  - right; reflexivity.
  - intros H0. exfalso. revert H0. change (la_ratio _) with 0. lia.
  - right; reflexivity.
Qed.

(** No score its Indexer compares is a NaN: the norm makes both tokens' rows the
    same. *)
Abbreviation tiny_row trig := (long_row tiny_platform tiny_v4_config (trig tiny_platform)).
Definition tiny_input : list f32 := [f32_one].
Lemma tiny_one_input id : id = 0%Z \/ id = 1%Z ->
  hc_normed tiny_platform tiny_v4_config (l_hc_attn_fn tiny_v4_indexed) (l_hc_attn_scale tiny_v4_indexed) (l_hc_attn_base tiny_v4_indexed)
    (l_in_ln tiny_v4_indexed) (start_row tiny_v4 id) = tiny_input.
Proof. intros [-> | ->]; vm_compute; reflexivity. Qed.
Lemma tiny_v4_scores : all_numbers (text_scores tiny_platform tiny_v4_config tiny_v4_indexed (tiny_row pf_cos) (tiny_row pf_sin) (replicate 8 tiny_input) 7) = true.
Proof. vm_compute. reflexivity. Qed.

Lemma tiny_unindexed ratio pool ape norm table trig trig' xs :
  scores_numbers tiny_platform tiny_v4_config (tiny_v4_layer ratio false pool ape norm table) trig trig' xs.
Proof. intros p _. unfold cut, indexed, has_indexer. cbn [l_idx_wq_b tiny_v4_layer]. by rewrite andb_false_r. Qed.

Lemma tiny_cut p : cut tiny_platform tiny_v4_config tiny_v4_indexed p = true -> 7 <= p.
Proof.
  unfold cut. intros [_ Hc]%andb_true_iff. assert (dsv4_index_topk tiny_platform tiny_v4_config = 1) as E1 by (vm_compute; reflexivity).
  assert (la_ratio (v4_attn tiny_platform tiny_v4_indexed) = 4) as E4 by (vm_compute; reflexivity).
  unfold closed_at in Hc. rewrite E1, E4 in Hc. change (0 <? 4) with true in Hc. cbv iota in Hc. apply Nat.ltb_lt in Hc. pose proof (Nat.Div0.mul_div_le (p + 1) 4). lia.
Qed.

Lemma tiny_tokens id e : embed_token tiny_v4 id = Some e -> id = 0%Z \/ id = 1%Z.
Proof.
  assert (Linear.rows_of (m_embed tiny_v4) = 2) as Er by reflexivity. unfold embed_token, embed_row. rewrite Er.
  destruct (Z.ltb_spec id 0); [discriminate 1|]. cbn [orb]. destruct (negb _); [discriminate 1|].
  destruct (Nat.ltb_spec (Z.to_nat id) 2); [lia|discriminate 1].
Qed.

Lemma tiny_inputs ids : tokens_fit tiny_v4 ids ->
  attn_input tiny_platform tiny_v4_config tiny_v4_indexed (map (start_row tiny_v4) ids) = replicate (length ids) tiny_input.
Proof.
  unfold attn_input. induction 1 as [|id ids (e & He & _) _ IH]; [reflexivity|]. cbn [map length replicate]. rewrite IH. f_equal.
  apply tiny_one_input. by eapply tiny_tokens.
Qed.

Lemma tiny_scores_numbers n : n <= 8 ->
  scores_numbers tiny_platform tiny_v4_config tiny_v4_indexed (tiny_row pf_cos) (tiny_row pf_sin) (replicate n tiny_input).
Proof.
  intros Hl p Hp Hcut. apply tiny_cut in Hcut. rewrite length_replicate in Hp.
  assert (p = 7) as -> by lia. assert (n = 8) as -> by lia. apply all_numbers_iff, tiny_v4_scores.
Qed.

Lemma tiny_v4_numbers ids : tokens_fit tiny_v4 ids -> length ids <= 8 -> numbers tiny_platform tiny_v4 (imap pair (m_layers tiny_v4)) ids (map (start_row tiny_v4) ids).
Proof.
  intros Ht Hl. unfold numbers. cbn [imap m_layers tiny_v4 layer_texts compose]. constructor; [|constructor; [apply tiny_unindexed|constructor; [apply tiny_unindexed|constructor]]].
  cbn [fst snd]. change (m_cfg _) with tiny_v4_config. rewrite (tiny_inputs ids Ht). by apply tiny_scores_numbers.
Qed.

Lemma tiny_v4_wf : wf_v4_engine tiny_platform tiny_v4.
Proof.
  split; [split| | | | | |].
  - exact tiny_v4_layer_wf.
  - vm_compute. lia.
  - vm_compute. lia.
  - by vm_compute.
  - vm_compute. lia.
  - by vm_compute.
  - exact toy_exp_unsigned.
  - change (len_of (max_ctx (m_cfg tiny_v4))) with 8. exact tiny_v4_numbers.
  - by vm_compute.
  - by vm_compute.
  - split; [by vm_compute|]. change (Z.to_nat (vocab (m_cfg tiny_v4))) with 2. change (Z.to_nat (hidden (m_cfg tiny_v4))) with 1.
    intros [|[|t]] Ht; [by eexists|by eexists|lia].
  - vm_compute. lia.
  - sized_qt.
  - by vm_compute.
Qed.

Lemma v4_in_blocks_witness : exists kv,
  forward_blocks (X := unit) tiny_platform tiny_v4 (for_model (m_cfg tiny_v4) 0 8) [[0; 1; 1]; [0; 0; 1; 0]; [1]]%Z 0 =
    ROk (kv, concat (text_rows tiny_platform tiny_v4 [0; 1; 1; 0; 0; 1; 0; 1]%Z)).
Proof.
  apply (v4_in_blocks tiny_platform tiny_v4 tiny_v4_wf 0 8 [[0; 1; 1]; [0; 0; 1; 0]; [1]]%Z).
  - vm_compute. lia.
  - repeat constructor; done.
  - cbn. lia.
Defined.

Lemma v4_decoding_is_greedy_witness : exists kv,
  generate_greedy (Engine0 := engine (X := unit) tiny_platform tiny_v4) (params tiny_v4) None None (for_model (m_cfg tiny_v4) 0 8) [0; 1; 1; 0]%Z 4 =
    Some (ROk (kv, [0; 1; 1; 0]%Z ++ recomputed (X := unit) tiny_platform tiny_v4 0 8 4 [0; 1; 1; 0]%Z)).
Proof.
  apply (v4_decoding_is_greedy tiny_platform tiny_v4 tiny_v4_wf 0 8 None None [0; 1; 1; 0]%Z 4).
  - vm_compute. lia.
  - done.
  - repeat constructor; done.
  - cbn. lia.
  - done.
Defined.
