(* ===== verification/Dsv4Chunks.v ===== *)
(** * One DeepSeek-V4 layer, call after call

    The calls of one layer's attention over the pieces of a text, each with the
    rotary tables its pass builds, on the cache the first pass allocates: together
    they give each token the attention of the whole text, whatever the cut, with
    the Compressor and the Indexer at work. *)

From Stdlib Require Import ZifyBool ZifyNat SpecFloat.
From S2P Require Import Prelude Rows DType Math Linear Config Model Moe MoeBatch KvCache Dsv4Num Dsv4 Dsv4Store Dsv4Attn Dsv4Moe Platform Dsv4Layer Dsv4Stack Dsv4Pass Mamba Tiny Inference Dsv4Infer.
Local Open Scope nat_scope.

Section Calls.
Context (pf : Platform) (c : Config) (l : Layer) (li : nat).
Local Set Default Proof Using "Type".

Abbreviation d := (Z.to_nat (hidden c)).
Abbreviation dm := (Dsv4Attn.dims_of c).
Abbreviation win := (Z.to_nat (Config.window c)).
Abbreviation crow := (long_row pf c (pf_cos pf)).
Abbreviation srow := (long_row pf c (pf_sin pf)).
Abbreviation mc := (layer_row pf c (pf_cos pf) li).
Abbreviation ms := (layer_row pf c (pf_sin pf) li).
Abbreviation toks := (text_tokens pf c l mc ms).

(** The layer's part of the calls of a pass: [v4_attention] on [n] rows at a time. *)
Fixpoint attention_calls (kv : KvCache) (xs : list (list f32)) (pos_base : nat) (sizes : list nat) : option (KvCache * list (list f32)) :=
  match sizes with
  | [] => Some (kv, [])
  | n :: sizes =>
      let t := Nat.max (pos_base + n) 1 in
      let '(ccos, csin) := long_tables pf c t in
      let '(mcos, msin) := if (0 <? ratio_at (compress_ratios c) li)%Z then long_tables pf c t else main_tables pf c t in
      let* (kv, y) := v4_attention pf c l li kv (concat (take n xs)) n pos_base mcos msin ccos csin in
      let* (kv, ys) := attention_calls kv (drop n xs) (pos_base + n) sizes in Some (kv, y :: ys)
  end.

(** What the loader checks of the layer. *)
Record wf_attn : Prop := {
  wt_layer : wf_v4 pf c l;
  wt_indexer : indexed pf c l = true -> wf_indexer c l;
  wt_ratio : l_comp_ratio l = ratio_at (compress_ratios c) li /\ (0 <= l_comp_ratio l < 2 ^ 31)%Z;
  wt_window : (0 < Config.window c)%Z;
  wt_lora : len_of (kv_lora c) = len_of (qk_head c);
  wt_exp : forall x, unsigned (pf_exp pf x) = true
}.
Context (W : wf_attn).
Local Set Default Proof Using "All".

Lemma tables_of n : table_rows dm mc ms n (if (0 <? ratio_at (compress_ratios c) li)%Z then long_tables pf c n else main_tables pf c n) /\
  table_rows dm crow srow n (long_tables pf c n).
Proof.
  unfold layer_row. split; [destruct (0 <? _)%Z|]; apply (yarn_table_rows (pf_pow pf) (pf_ln pf) (pf_cos pf) (pf_sin pf) dm).
Qed.

Lemma calls_from xs sizes : wide_rows d xs -> (Z.of_nat (length xs + length xs) < 2 ^ 31)%Z -> scores_numbers pf c l crow srow xs ->
  forall a kv M L, Forall (fun n => 0 < n) sizes -> a + sum_list sizes = length xs ->
  kc_kv_lora kv = len_of (qk_head c) -> ring_ok kv M L -> M !! li = Some (map tk_lat (take a (toks xs))) -> L <= a + 1 - win ->
  comp_ok (pf_exp pf) dm crow srow (v4_attn pf l) (toks xs) kv li a -> idx_ok pf c l crow srow xs kv li a ->
  exists kv' ys, attention_calls kv (drop a xs) a sizes = Some (kv', ys) /\
    concat ys = concat (map (attn_out pf c l mc ms crow srow xs) (seq a (sum_list sizes))).
Proof.
  intros Hx Hb Hnum. induction sizes as [|n sizes IH]; intros a kv M L Hpos Hsum Hlora Hring HM HL Hc Hi; [by exists kv, []|].
  apply Forall_cons in Hpos as [Hn Hpos]. assert (sum_list (n :: sizes) = n + sum_list sizes) as Es by done. rewrite Es in Hsum |- *.
  cbn [attention_calls]. cbv zeta. destruct (tables_of (Nat.max (a + n) 1)) as [Hmt Hct].
  destruct (long_tables pf c (Nat.max (a + n) 1)) as [ccos csin].
  destruct (if (0 <? ratio_at (compress_ratios c) li)%Z then (ccos, csin) else main_tables pf c (Nat.max (a + n) 1)) as [mcos msin].
  destruct (v4_attention_text pf c l mc ms crow srow (wt_layer W) (wt_indexer W) (wt_exp W) (wt_window W) xs kv M L li a n mcos msin ccos csin
    Hx Hlora Hring HM HL Hc Hnum Hi Hmt Hct (fun t => ex_intro _ _ (proj1 (tables_of t))) Hn ltac:(lia) Hb)
    as (kv1 & -> & _ & Hr1 & Hl1 & Hc1 & [Hi1 _] & _). cbv beta iota.
  destruct (IH (a + n) kv1 _ _ Hpos ltac:(lia) Hl1 Hr1) as (kv' & ys & E & Ey); [by apply list_lookup_insert_eq; eapply lookup_lt_Some|lia|done|done|].
  rewrite drop_drop, E. eexists _, _. split; [done|]. cbn [concat]. by rewrite Ey, seq_app, map_app, concat_app.
Qed.

(** C16: a layer's attention does not depend on the chunks.  However the rows of a
    text are cut into calls, on the cache the runtime makes and the first call
    allocates for, every call succeeds and each token gets the row
    [attn_out] gives it: its heads attend the latent rows of its window and, of
    the compressed rows whose blocks have closed by its position, those picked;
    and picked are all of them, or, where the layer runs an Indexer and more
    have closed than its cap, as many as the cap, in order, none left out that
    the Indexer scores higher.  The Indexer's scores are taken to be numbers: on
    a NaN the sort of the choice promises nothing. *)
Theorem attention_chunking heads max_t nl xs sizes : li < nl -> nl <= len_of (n_layers c) + heads ->
  wide_rows d xs -> length xs <= len_of (max_ctx c) -> (Z.of_nat (length xs + length xs) < 2 ^ 31)%Z -> scores_numbers pf c l crow srow xs ->
  Forall (fun n => 0 < n) sizes -> sum_list sizes = length xs ->
  (exists kv ys, attention_calls (v4_init pf c nl (for_model c heads max_t)) xs 0 sizes = Some (kv, ys) /\
     concat ys = concat (map (attn_out pf c l mc ms crow srow xs) (seq 0 (length xs)))) /\
  forall p, p < length xs -> picks_best pf c l crow srow xs p.
Proof.
  intros Hli Hnl Hx Hmax Hb Hnum Hpos Hsum. split; [|intros p Hp; by apply picked_best].
  destruct (for_model_rows c heads max_t) as (_ & _ & _ & _ & Hl). destruct (for_model_comp c heads max_t) as [H0 Hi0].
  destruct (calls_from xs sizes Hx Hb Hnum 0 (v4_init pf c nl (for_model c heads max_t)) (replicate (len_of (n_layers c) + heads) []) 0 Hpos Hsum)
    as (kv & ys & E & Ey); [..|rewrite drop_0 in E; rewrite Hsum in Ey; by exists kv, ys].
  - rewrite init_lora, Hl. apply (wt_lora W).
  - apply init_ring, ring_ok_fresh.
  - apply lookup_replicate_2. lia.
  - lia.
  - apply (init_comp pf c l li nl (wt_ratio W) (wt_indexer W) Hli); [done|by left|]. unfold text_tokens. by rewrite length_imap.
  - apply (init_idx pf c l li nl (wt_ratio W) (wt_indexer W) Hli); [done|by left|by left|done].
Qed.
End Calls.

(** Eight tokens of the tiny model's first layer: its Indexer keeps one of two blocks. *)
Lemma tiny_v4_wf_attn : wf_attn tiny_platform tiny_v4_config tiny_v4_indexed 0.
Proof.
  pose proof (tiny_v4_layer_wf 0 tiny_v4_indexed eq_refl) as Wl. split.
  - apply (wl_attn _ _ _ _ Wl).
  - apply (wl_indexer _ _ _ _ Wl).
  - apply (wl_ratio _ _ _ _ Wl).
  - by vm_compute.
  - by vm_compute.
  - exact toy_exp_unsigned.
Qed.

Lemma attention_chunking_witness :
  (exists kv ys, attention_calls tiny_platform tiny_v4_config tiny_v4_indexed 0
       (v4_init tiny_platform tiny_v4_config 3 (for_model tiny_v4_config 0 8)) (replicate 8 tiny_input) 0 [3; 4; 1] = Some (kv, ys) /\
     concat ys = concat (map (attn_out tiny_platform tiny_v4_config tiny_v4_indexed (layer_row tiny_platform tiny_v4_config (pf_cos tiny_platform) 0)
       (layer_row tiny_platform tiny_v4_config (pf_sin tiny_platform) 0) (tiny_row pf_cos) (tiny_row pf_sin) (replicate 8 tiny_input)) (seq 0 8))) /\
  forall p, p < 8 -> picks_best tiny_platform tiny_v4_config tiny_v4_indexed (tiny_row pf_cos) (tiny_row pf_sin) (replicate 8 tiny_input) p.
Proof.
  apply (attention_chunking tiny_platform tiny_v4_config tiny_v4_indexed 0 tiny_v4_wf_attn 0 8 3 (replicate 8 tiny_input) [3; 4; 1]).
  - lia.
  - vm_compute. lia.
  - by apply Forall_replicate.
  - vm_compute. lia.
  - by vm_compute.
  - by apply tiny_scores_numbers.
  - repeat constructor; lia.
  - done.
Defined.
